(* ===== verification/_CoqProject ===== *)
-Q . S2P
Prelude.v
Redis.v
Ids.v
Engine.v
Candidates.v
Fraud.v
Store.v
Dedup.v
Sessions.v
Consent.v
Schema.v
Buffer.v
Keys.v
Ingest.v
Writer.v
Consumer.v
Templates.v
Referrer.v
Urls.v
DeepLinks.v
LinkCache.v
IpAddr.v
Redirect.v
Signing.v
AttributionWorker.v
Envelope.v
Delivery.v
Outbound.v
Webhooks.v
Postbacks.v
AuditLog.v
Counting.v
Skan.v
Catalogue.v
EventList.v
Blocked.v
Adapters.v
ApiSessions.v
Access.v
RateLimit.v
Handlers.v
ApiKeys.v
Relational.v
Rollups.v
FraudSweep.v
Privacy.v
RuleApi.v
WebhookApi.v
IntegrationApi.v
LinkApi.v
SqlText.v
Cursors.v
Csv.v
LogApi.v
ExportApi.v
Analytics.v
Live.v
SkanApi.v
FraudApi.v
Tenancy.v
Storage.v
