(* ===== verification/Prelude.v ===== *)
(** * A verification of the MMP mobile measurement platform

    The program (under src/) is a measurement platform for mobile apps in Python: a
    tracker receives events and clicks over HTTP and ships them to Redis streams,
    workers persist them, attribute installs to clicks, and report conversions to ad
    networks, and an API and a dashboard configure all of it.  This development models
    the tracker, the workers, the packages both rest on, the API that configures them and
    reads what they stored, and the database's own access control, and proves what makes
    each part correct.

    ** How the parts interact

    A request reaches [ingest_events] (mmp_tracker/ingest.py): its key is checked
    against a cached row (auth.py, keys.py), every event is validated (schema.py), its
    advertising ids are hashed, consent minimises it (consent.py), a session is
    assigned (sessions.py), repeated ids are dropped (dedup.py), and the rest enters
    the shipping buffer (buffer.py), whose task publishes to the stream.  Consumers
    (consumers.py, stream.py) write batches (writer.py, clicks.py) and acknowledge, or
    dead-letter after five failures.  A click on a tracking link is answered from a cache
    of links that notifications and resyncs keep current (linkcache.py), with a validated
    deep link (deeplinks.py) and a classified user agent (useragent.py); the redirect
    (redirect.py) carries a referrer that the attribution worker parses back
    (referrer.py), and an app asks afterwards where its user was heading (deferred.py).
    Servers report events in signed requests (s2s.py, signing.py), and Apple its own
    attributions (skan.py, skadnetwork.py).  Event names an advertiser has blocked
    (routes/events.py, catalogue.py) are dropped at ingest (blocked.py).

    The attribution worker (attribution.py) handles installs: the engine (engine.py) decides which
    click an install belongs to, on candidates loaded by two queries (candidates.py);
    fraud rules (fraud.py) assess it; the store (store.py) records it, with a cache in
    Redis.  The postback consumer (postbacks.py) looks attributions up, renders a
    rule's request (templates.py) with sealed headers (envelope.py, kms.py), and
    delivers it through the engine that claims, sends, records and retries
    (delivery.py); the webhook sender (webhook_sender.py, webhooks.py) tells subscribers in
    signed requests.  All of them send through the outbound guard (outbound.py).  What the
    tracker accepted is counted in Redis (mmp_ingest/audit.py) and compared with what was
    stored (reconcile.py).  Administrative actions go to a hash-chained log
    (mmp_db/audit.py).

    Events and clicks are stored in a partition per day, created ahead and dropped by
    retention (partitions.py, maintenance.py); passes of the worker recompute the reports
    and the billed volume from them (rollups.py, jobs.py) and score every link's traffic
    (fraud_sweep.py); an operator erases a device from all of it (erasure.py,
    routes/privacy.py).  The configuration all of this reads is written through the API:
    apps and the keys the tracker authenticates (routes/apps.py, routes/keys.py), postback
    rules and retries by hand (routes/postbacks.py), webhooks and their secrets
    (routes/webhooks.py), integrations with their credentials
    (routes/integrations.py), and campaigns, tracking links and deep links, whose changes
    wake the trackers (routes/campaigns.py, routes/deeplinks.py, mmp_db/notify.py).

    What was stored is read back through the API: raw logs a page at a time
    (routes/logs.py), files of raw rows (routes/exports.py), reports from the rollups,
    cached in Redis (routes/analytics.py, attributions.py), a live view that clients poll
    (routes/live.py), Apple's postbacks and the table of conversion values the tracker
    gives to SDKs (routes/skan.py), and the findings of fraud (routes/fraud.py).  Each of
    these names its organisation in its query, and the database enforces it again: the
    migrations create a role for each service and a policy on each table (rls.py), and the
    API's connections carry the organisation of one transaction at a time (pool.py).

    ** Files and what they model

    - [Prelude]: results, time as microseconds, Python strings as code points, doubles,
      ordered dicts, the shared tactics and lemmas.
    - [Redis]: strings with expiry, as a finite map of entries read at a time.
    - [Ids]: mmp_core/ids.py and Python's [uuid.UUID].
    - [Engine], [Candidates], [Fraud], [Store], [Referrer]: the package mmp_attrib.
    - [Skan]: mmp_attrib/skadnetwork.py and mmp_tracker/skan.py.
    - [Dedup], [Sessions], [Consent], [Schema], [Writer]: the package mmp_ingest
      (clicks.py with [Writer]).
    - [Buffer], [Ingest]: mmp_tracker's buffer.py and ingest.py, with
      [record_rejection] of live.py, the accepted counter of mmp_ingest/audit.py and
      [hash_device_id] of pii.py.
    - [Urls]: what the services use of urllib.parse.
    - [DeepLinks], [LinkCache], [Redirect]: mmp_tracker's deeplinks.py, useragent.py,
      linkcache.py, redirect.py and deferred.py.
    - [IpAddr]: Python's ipaddress and the address hashing of pii.py.
    - [Signing]: mmp_crypto/signing.py and mmp_tracker/s2s.py.
    - [Keys]: mmp_crypto/keys.py and mmp_tracker/auth.py.
    - [Consumer]: mmp_ingest/stream.py and mmp_worker/consumers.py.
    - [Templates], [Delivery]: mmp_providers/templates.py and delivery.py.
    - [Envelope]: mmp_crypto/envelope.py and kms.py.
    - [Postbacks]: mmp_worker/postbacks.py, with the types of mmp_providers/base.py.
    - [AttributionWorker]: mmp_worker/attribution.py.
    - [Outbound]: mmp_core/outbound.py.
    - [Webhooks]: mmp_providers/webhooks.py and mmp_worker/webhook_sender.py.
    - [AuditLog]: mmp_db/audit.py.
    - [Counting]: mmp_ingest/audit.py and mmp_worker/reconcile.py.
    - [Catalogue], [EventList]: mmp_ingest/catalogue.py and mmp_api/routes/events.py.
    - [Blocked]: mmp_tracker/blocked.py, with the API's publications.
    - [Adapters]: mmp_providers/base.py, registry.py and the two adapters.
    - [ApiSessions], [Access]: mmp_api/sessions.py, deps.py, routes/auth.py and
      routes/organizations.py, with mmp_crypto/passwords.py.
    - [RateLimit]: mmp_core/ratelimit.py, with the login of routes/auth.py that asks it.
    - [Handlers]: what the handlers of the API share: the role and the organisation they
      run under (deps.py), partial updates and columns.
    - [ApiKeys]: mmp_api/routes/apps.py and keys.py, over the rows [Keys] authenticates.
    - [RuleApi]: mmp_api/routes/postbacks.py, over the rules and deliveries of [Postbacks].
    - [WebhookApi]: mmp_api/routes/webhooks.py, over the rows of [Webhooks].
    - [IntegrationApi]: mmp_api/routes/integrations.py, over the registry of [Adapters] and
      the rows [Postbacks] joins to a rule.
    - [LinkApi]: mmp_api/routes/campaigns.py and deeplinks.py with mmp_db/notify.py, over the
      rows the cache of [LinkCache] loads.
    - [Relational]: grouping, aggregates, joins and upserts as the SQL of the reports
      uses them, with the lemmas that characterise them.
    - [Rollups]: mmp_db/rollups.py, mmp_worker/rollups.py and the metering of jobs.py.
    - [FraudSweep]: mmp_worker/fraud_sweep.py.
    - [Privacy]: mmp_db/erasure.py and mmp_api/routes/privacy.py.
    - [SqlText]: mmp_db/sql.py.
    - [Cursors]: the cursors of mmp_api/routes/logs.py, with [isoformat] and base64.
    - [Csv]: Python's csv.writer, and a reader of RFC 4180.
    - [LogApi]: mmp_api/routes/logs.py, over the rows [Store], [Delivery] and the tables hold.
    - [ExportApi]: mmp_api/routes/exports.py, with the entry it leaves in [AuditLog].
    - [Analytics]: mmp_api/routes/analytics.py and attributions.py, over the tables of
      [Rollups] and [Store].
    - [Live]: mmp_api/routes/live.py and the reader of mmp_ingest/live.py, over the rejections
      [Ingest] records.
    - [SkanApi]: mmp_api/routes/skan.py, over the postbacks of [Skan] and the values
      [Redirect] serves.
    - [FraudApi]: mmp_api/routes/fraud.py, over the findings of [FraudSweep].
    - [Tenancy]: mmp_db/rls.py, pool.py and the access control of the migrations.
    - [Storage]: mmp_db/partitions.py, maintenance.py and the migration that rebuilt the
      partitions with UTC bounds.

    A function of the source is a definition of the same name (a private [_f] is [f];
    a method clashing with another is named after its object, as [lookup_consent]).
    State is passed explicitly: a table is the list of its rows with its constraints
    checked on insert, Redis is a store of expiring entries, and a handler returns its
    answer with the state it leaves.  Exceptions are the [Err] of [result], or an
    option beside the state where the state survives the exception.  Concurrency is a
    step relation per shared component ([Store] phases, [buffer_step],
    [pipeline_step], [delivery_step], [cache_step], [hook_step], [counter_step],
    [pool_step]) or a list of actions ([Blocked]), in which any number of workers interleave and,
    where the source allows it, crash.

    ** Parameters

    The clock, the bytes of [os.urandom], the ids [uuid7] mints and the draws of
    [random] are arguments.  HMAC, SHA-256, AES-GCM, the KMS client, msgspec's
    encoders, Unicode tables beyond ASCII, [fromisoformat] and provider adapters are
    class or section parameters; the laws a theorem needs of them are named
    ([AEADLaws], [client_inverts], [header_json_ok], [lib_ok], and the class
    [OrdersNewestFirst] for a query's ORDER BY), and a witness instantiates them.  So
    are the resolver and the HTTP client of the outbound guard, ECDSA verification, the
    text of a float or a container in [str] ([PyFormat]), [urlsplit]'s check of a netloc
    and the iteration order of a set, as are argon2, [json.dumps], [json.loads], Unicode
    normalisation, the uuids a database driver reads ([DriverUuid]), the text the driver and
    the interpreter give to a column's value in an export ([ExportLib]) and, in [RateLimit],
    the rounding of a double ([Binary64], with the error bound IEEE 754 gives it).  A report's
    cache is keyed by a digest; that the digests of the queries that were asked differ is a
    hypothesis ([digests_distinct]).
    Interfaces between components are classes with instances: [BatchWriter] between
    the writers and the consumer, [MasterKeyProvider] with [MasterKeyLaws] between the
    two key providers and sealing, [EdgeLib] between the edge and its libraries.

    ** What is proved

    - Attribution: the engine refines a last-click specification, independently of the
      candidates' order and of what the bounded queries leave out; the store keeps one
      current attribution per install that never gets worse under any interleaving or
      delivery order, and its cache can be lost.
    - Ingest: every event is accounted for; queued events carry no raw advertising id
      and only consented fields; a resent batch queues nothing; validation accepts
      exactly what it documents; sessions refine the inactivity definition, batched or
      not; a denial is honoured while it is cached; the buffer conserves.
    - Keys and secrets: key parsing round-trips, authentication is sound and
      revocation takes effect; sealed secrets open only for their organisation and
      survive rotation; the KMS cache is bounded and fresh.
    - Persistence: writes are idempotent, validated events are writable, no event is
      lost by any interleaving of crashing workers, and a drain terminates.
    - Delivery: no conversion is sent more than five times or after it was delivered;
      the worker's code refines that protocol; a retry replays the failed request
      exactly; only entitled partners are told; a rendered URL cannot be injected.
    - Clicks: a redirect goes only where the advertiser configured, records its click,
      and its referrer parses back; the link cache converges to the database; a deferred
      deep link is disclosed only to the app it belongs to.
    - Signed requests: what server-to-server ingest accepts is authentic and no request
      is accepted twice; a SKAdNetwork signature fixes every signed field, and only
      verified postbacks are stored, once each.
    - Outbound: no connection leaves for an address that is not public, and a refused
      destination is not retried; webhook deliveries refine a protocol in which a
      subscriber is told once, in a request its receiver verifies.
    - Counting: counts are conserved, and reconciliation reports exactly the hours that
      differ.
    - Event catalogue: definitions of standard names keep the catalogue's meaning, the
      list of an app's events is complete and adds up, and a block takes effect within
      thirty seconds.
    - Adapters: a validated integration never raises and sends exactly what it maps, and
      the worker sends nothing for an unmapped event.
    - Access: a session is found only while it is promised, a role is required exactly,
      login admits the holder of the password and refuses everyone else alike, roles are
      granted from above and every organisation keeps an owner; guesses at a password are
      five and one more for every twelve seconds, rounding included.
    - Configuration: only a key that is active now authenticates, whatever the tracker has
      cached, and a key that was issued works; an app that was disabled takes no events; a
      saved rule renders for every event and its sealed headers are the ones sent; a retry
      by hand repeats no conversion; the secret handed out for a webhook verifies what is
      sent, and enabling one starts its count of failures over; a saved integration was
      accepted by its provider and its credentials come back to the worker; the links and
      deep links that were configured are the ones a tracker shows, all of them https.
    - Audit log: appended entries verify, and the head commits to the whole log.
    - Storage: a row of any day up to the lead has its partition and is kept until
      retention reaches it; retention is exact and a dry run foretells it.
    - Reports: an event that arrives late is counted in its own hour and no later pass
      makes the count partial; the campaign refresh equals a reference per campaign and
      day; metered hours are exact; the statistics of the fraud sweep are each link's own
      and its findings are exact for the window swept.
    - Reading: who follows a log's cursors is shown every row once and in order, whatever is
      written meanwhile; an exported file reads back as exactly the rows in range and none of
      the hashes; a report is the asking organisation's own, at most five minutes old; a
      client that polls the live view misses nothing that was written in time; the values set
      for an app's events are the ones its SDK is given; a list of flagged installs shows
      the worst ones.
    - Tenancy: however requests share connections, a statement run for an organisation
      touches its rows only, and one run for none finds nothing; what the tracker's role may
      do is exactly what is listed.
    - Privacy: an erasure that reports success left nothing of the device and is in the
      log; statement text built from names reads back as those names.
    - Fraud verdicts and uuid7 ids are characterised exactly.

    Lemmas named after a failure ([shedding_forgets_the_wrong_events],
    [retry_ignores_the_adapter], [same_instant_breaks_the_chain] and others) show on a
    concrete input where the code does not do what its comments say.

    ** Bounds and fuel

    Recursion is structural except where a function takes fuel: text replacement and
    template matching use the length of the text, which each step shortens; [drain]
    takes the number of turns, and its theorem gives the number that is enough.
    Timestamps are unbounded integers of microseconds; the hour buckets of [Counting] and the partitions of [Storage]
    are those of the years 2020 to 2099, over which their text form is checked, and so are the
    texts of instants that cursors and the live view compare.  Doubles are [spec_float] at
    53 bits where a comparison depends on rounding (fraud shares, clock skew).

    ** Not modelled

    HTTP parsing, response classes and cookies' attributes, and SQL beyond the queries named
    above, belong to libraries.  Trimming of streams at their length cap is Redis's, and
    approximate.  Logging, metrics, tracing, settings, health checks and the start and stop of
    the services only wire the parts above together.  The dashboard renders what the API
    answers; its pages are templates, which are not Python.  The declarations of tables, the
    migrations beyond roles, policies and grants, the load and deployment scripts hold no logic
    of their own: the constraints a component relies on are in its model of the insert. *)

From stdpp Require Export gmap list strings fin_maps.
From Stdlib Require Export ZArith Lia.
From Stdlib Require Import SpecFloat.
From Stdlib Require Ascii String.
#[local] Open Scope list_scope.

#[global] Set Default Goal Selector "!".

Declare Scope mmp_scope.
Delimit Scope mmp_scope with mmp.

Create HintDb mmp.
Create Rewrite HintDb mmp_rw.

(** ** Proof automation of the development *)

(** Destruct every conjunction and existential of the context. *)
Ltac des :=
  repeat match goal with
  | H : _ ∧ _ |- _ => destruct H
  | H : ∃ _, _ |- _ => destruct H
  | H : _ * _ |- _ => destruct H
  end.

(** Case on the innermost [if] or [match] scrutinee of the goal. *)
Ltac split_ifs :=
  repeat (case_decide || case_bool_decide || case_match); simplify_eq/=.

(** Turn boolean comparisons of the context into propositions. *)
Ltac bprop :=
  repeat match goal with
  | H : (_ && _) = true |- _ => apply andb_true_iff in H; destruct H
  | H : (_ || _) = false |- _ => apply orb_false_iff in H; destruct H
  | H : negb _ = true |- _ => apply negb_true_iff in H
  | H : negb _ = false |- _ => apply negb_false_iff in H
  | H : (_ <? _)%Z = true |- _ => apply Z.ltb_lt in H
  | H : (_ <? _)%Z = false |- _ => apply Z.ltb_ge in H
  | H : (_ <=? _)%Z = true |- _ => apply Z.leb_le in H
  | H : (_ <=? _)%Z = false |- _ => apply Z.leb_gt in H
  | H : (_ =? _)%Z = true |- _ => apply Z.eqb_eq in H
  | H : (_ =? _)%Z = false |- _ => apply Z.eqb_neq in H
  | H : (_ =? _)%N = true |- _ => apply N.eqb_eq in H
  | H : (_ =? _)%N = false |- _ => apply N.eqb_neq in H
  | H : bool_decide _ = true |- _ => apply bool_decide_eq_true in H
  | H : bool_decide _ = false |- _ => apply bool_decide_eq_false in H
  end.

(** ** Results: code that raises returns [Err] *)

Inductive result (E A : Type) : Type :=
| Ok (a : A)
| Err (e : E).
Arguments Ok {E A} a.
Arguments Err {E A} e.

Definition rbind {E A B} (r : result E A) (f : A → result E B) : result E B :=
  match r with Ok a => f a | Err e => Err e end.

Notation "'let*' x ':=' c 'in' k" := (rbind c (λ x, k))
  (at level 10, x binder, c at level 100, k at level 200) : mmp_scope.

(** [raise_if b e]: the [if b: raise e] guard. *)
Definition raise_if {E} (b : bool) (e : E) : result E unit :=
  if b then Err e else Ok tt.

Lemma Ok_inj {E A} (a b : A) : @Ok E A a = Ok b → a = b.
Proof. congruence. Qed.

Lemma rbind_Ok {E A B} (r : result E A) (f : A → result E B) b :
  rbind r f = Ok b → ∃ a, r = Ok a ∧ f a = Ok b.
Proof. destruct r; simpl; naive_solver. Qed.

Lemma raise_if_Ok {E} b (e : E) u : raise_if b e = Ok u → b = false.
Proof. destruct b; [discriminate | done]. Qed.

(** Open every successful [let*] of the context. *)
Ltac inv_ok :=
  repeat match goal with
  | H : rbind _ _ = Ok _ |- _ => apply rbind_Ok in H; destruct H as (? & ? & H)
  | H : raise_if _ _ = Ok _ |- _ => apply raise_if_Ok in H
  | H : Ok _ = Ok _ |- _ => injection H as H
  | H : Err _ = Ok _ |- _ => discriminate H
  end.

(** ** Time: instants and durations are microseconds, as [datetime] keeps them *)

Abbreviation datetime := Z (only parsing).
Abbreviation timedelta := Z (only parsing).

Definition microsecond : timedelta := 1%Z.
Definition second : timedelta := 1000000%Z.
Definition minute : timedelta := (60 * second)%Z.
Definition hour : timedelta := (60 * minute)%Z.
Definition day : timedelta := (24 * hour)%Z.

(** [int(delta.total_seconds())]: truncation toward zero. *)
Definition int_total_seconds (d : timedelta) : Z := Z.quot d second.

#[global] Arguments int_total_seconds d : simpl never.
#[global] Arguments Z.mul x y : simpl never.

(** ** Python strings: sequences of Unicode code points *)

Abbreviation pystr := (list N) (only parsing).

(** An ASCII literal. *)
Definition py (s : string) : pystr := Ascii.N_of_ascii <$> String.list_ascii_of_string s.
Arguments py s%_string_scope.

(** The part of Python's Unicode database the code reads, for text that is not
    pure ASCII; pure ASCII text is handled by the definitions below. *)
Class Unicode := {
  uni_lower : pystr → pystr;
  uni_upper : pystr → pystr;
  uni_alnum : N → bool;
  uni_space : N → bool;
  (** the value of a decimal digit of another script *)
  uni_decimal : N → option N
}.

(** An instance with no cased, alphanumeric or blank character beyond ASCII. *)
Definition ascii_unicode : Unicode :=
  {| uni_lower := id; uni_upper := id; uni_alnum := λ _, false; uni_space := λ _, false;
     uni_decimal := λ _, None |}.

Definition in_range (lo hi c : N) : bool := (N.leb lo c && N.leb c hi)%bool.
Definition is_upper_ascii (c : N) : bool := in_range 65 90 c.
Definition is_lower_ascii (c : N) : bool := in_range 97 122 c.
Definition is_digit_ascii (c : N) : bool := in_range 48 57 c.
Definition is_alnum_ascii (c : N) : bool :=
  is_upper_ascii c || is_lower_ascii c || is_digit_ascii c.
(** [str.isspace] on ASCII: tab to carriage return, the four separators, space. *)
Definition is_space_ascii (c : N) : bool := in_range 9 13 c || in_range 28 32 c.

Definition is_ascii (c : N) : bool := N.ltb c 128.
Definition ascii_str (s : pystr) : bool := forallb is_ascii s.

Definition lower_ascii (c : N) : N := if is_upper_ascii c then (c + 32)%N else c.
Definition upper_ascii (c : N) : N := if is_lower_ascii c then (c - 32)%N else c.

Section Strings.
Context {U : Unicode}.

Definition py_lower (s : pystr) : pystr :=
  if ascii_str s then lower_ascii <$> s else uni_lower s.
Definition py_upper (s : pystr) : pystr :=
  if ascii_str s then upper_ascii <$> s else uni_upper s.
Definition py_isalnum (c : N) : bool :=
  if is_ascii c then is_alnum_ascii c else uni_alnum c.
Definition py_isspace (c : N) : bool :=
  if is_ascii c then is_space_ascii c else uni_space c.

Fixpoint lstrip (p : N → bool) (s : pystr) : pystr :=
  match s with
  | [] => []
  | c :: s' => if p c then lstrip p s' else s
  end.
Definition rstrip (p : N → bool) (s : pystr) : pystr := reverse (lstrip p (reverse s)).
Definition py_strip (s : pystr) : pystr := rstrip py_isspace (lstrip py_isspace s).
End Strings.

(** [a in s] for a substring [a]. *)
Fixpoint starts_with (p s : pystr) : bool :=
  match p, s with
  | [], _ => true
  | a :: p', b :: s' => N.eqb a b && starts_with p' s'
  | _ :: _, [] => false
  end.

Fixpoint substring (p s : pystr) : bool :=
  starts_with p s || match s with [] => false | _ :: s' => substring p s' end.

(** [s.split(sep)] for a one-character separator. *)
Fixpoint py_split (sep : N) (s : pystr) : list pystr :=
  match s with
  | [] => [[]]
  | c :: s' =>
      if N.eqb c sep then [] :: py_split sep s'
      else match py_split sep s' with
           | [] => [[c]]
           | w :: ws => (c :: w) :: ws
           end
  end.

(** [sep.join(parts)]. *)
Fixpoint py_join (sep : pystr) (parts : list pystr) : pystr :=
  match parts with
  | [] => []
  | [w] => w
  | w :: ws => w ++ sep ++ py_join sep ws
  end.

(** [s.replace(old, new)] for a non-empty [old]: left to right, non-overlapping. *)
Fixpoint replace_fuel (n : nat) (old new s : pystr) : pystr :=
  match n, s with
  | S n', c :: s' =>
      if starts_with old s then new ++ replace_fuel n' old new (drop (length old) s)
      else c :: replace_fuel n' old new s'
  | _, _ => s
  end.
Definition py_replace (old new s : pystr) : pystr := replace_fuel (length s) old new s.

(** [s.removeprefix(p)]. *)
Definition removeprefix (p s : pystr) : pystr :=
  if starts_with p s then drop (length p) s else s.

Lemma removeprefix_app p s : removeprefix p (p ++ s) = s.
Proof.
  unfold removeprefix. assert (starts_with p (p ++ s) = true) as ->.
  { induction p as [|c p IH]; [done |]. cbn. by rewrite N.eqb_refl. }
  by rewrite drop_app_length.
Qed.

(** [str(n)] of an int: a number has no more decimal digits than binary ones. *)
Fixpoint dec_digits (fuel : nat) (n : N) (acc : pystr) : pystr :=
  match fuel with
  | O => acc
  | S fuel' =>
      let acc := (48 + n mod 10)%N :: acc in
      if (n / 10 =? 0)%N then acc else dec_digits fuel' (n / 10) acc
  end.
Definition py_str_int (z : Z) : pystr :=
  let digits := dec_digits (S (N.size_nat (Z.abs_N z))) (Z.abs_N z) [] in
  if (z <? 0)%Z then 45%N :: digits else digits.

(** Truthiness of an optional string: neither [None] nor empty. *)
Definition truthy (o : option pystr) : bool :=
  match o with Some (_ :: _) => true | _ => false end.

(** ** IEEE binary64, for the places where the code divides Python ints or
    multiplies floats: the executable specification of the Standard Library *)

Module Float64.
Definition of_Z (z : Z) : spec_float := binary_normalize 53 1024 z 0 false.
(** [a / b] on ints of magnitude below 2^53. *)
Definition div (a b : Z) : spec_float := SFdiv 53 1024 (of_Z a) (of_Z b).
Definition mul (x y : spec_float) : spec_float := SFmul 53 1024 x y.
Definition leb (x y : spec_float) : bool := SFleb x y.
Definition ltb (x y : spec_float) : bool := SFltb x y.
(** [int(x)]: truncation toward zero. *)
Definition trunc (x : spec_float) : Z :=
  match x with
  | S754_finite s m e =>
      let z := Z.shiftl (Zpos m) e in if s then (- z)%Z else z
  | _ => 0%Z
  end.
End Float64.

(** [int(delta.total_seconds() * 1000)], in doubles as Python computes it. *)
Definition int_total_ms (d : timedelta) : Z :=
  Float64.trunc (Float64.mul (Float64.div d 1000000) (Float64.of_Z 1000)).

(** ** Lists *)

(** [max(l, key=...)] keeps the first maximal element: a later element replaces
    the best one only when it is strictly greater. *)
Fixpoint max_from {A} (lt : A → A → bool) (best : A) (l : list A) : A :=
  match l with
  | [] => best
  | x :: l' => max_from lt (if lt best x then x else best) l'
  end.

(** A strict order given as a boolean function, total up to its ties. *)
Class StrictWeak {A} (lt : A → A → bool) : Prop := {
  sw_irrefl : ∀ x, lt x x = false;
  sw_trans : ∀ x y z, lt x y = true → lt y z = true → lt x z = true;
  sw_negtrans : ∀ x y z, lt x y = false → lt y z = false → lt x z = false
}.

Lemma max_from_in {A} (lt : A → A → bool) best l : max_from lt best l ∈ best :: l.
Proof.
  revert best. induction l as [|x l IH]; intros best; simpl; [set_solver |].
  specialize (IH (if lt best x then x else best)). destruct (lt best x); set_solver.
Qed.

Section MaxFrom.
Context {A : Type} (lt : A → A → bool) {SW : StrictWeak lt}.

Lemma max_from_best best l : lt (max_from lt best l) best = false.
Proof.
  revert best. induction l as [|x l IH]; intros best; simpl; [apply sw_irrefl |].
  destruct (lt best x) eqn:E; [| apply IH].
  destruct (lt (max_from lt x l) best) eqn:F; [| done].
  pose proof (IH x) as G. by rewrite (sw_trans _ _ _ F E) in G.
Qed.

Lemma max_from_ge best l y : y ∈ best :: l → lt (max_from lt best l) y = false.
Proof.
  revert best. induction l as [|x l IH]; intros best Hy; simpl.
  - apply list_elem_of_singleton in Hy as ->. apply sw_irrefl.
  - apply elem_of_cons in Hy as [-> | Hy].
    + destruct (lt best x) eqn:E; [| apply max_from_best].
      destruct (lt (max_from lt x l) best) eqn:F; [| done].
      pose proof (max_from_best x l) as G. by rewrite (sw_trans _ _ _ F E) in G.
    + destruct (lt best x) eqn:E; [by apply IH |].
      apply elem_of_cons in Hy as [-> | Hy]; [| by apply IH, elem_of_cons; right].
      eapply sw_negtrans; [apply max_from_best | done].
Qed.
End MaxFrom.

(** A maximal element is unique where the order only ties equal elements. *)
Lemma max_unique {A} (lt : A → A → bool) (l : list A) m m' :
  (∀ x y, x ∈ l → y ∈ l → lt x y = false → lt y x = false → x = y) →
  m ∈ l → m' ∈ l →
  (∀ y, y ∈ l → lt m y = false) → (∀ y, y ∈ l → lt m' y = false) → m = m'.
Proof. intros Htie ????. apply Htie; auto. Qed.

(** [next((x for x in l if p x), None)] is [List.find]; when at most one element
    of the list satisfies [p], the order of the list does not matter. *)
Lemma find_unique {A} (p : A → bool) (l : list A) x :
  (∀ a b, a ∈ l → b ∈ l → p a = true → p b = true → a = b) →
  x ∈ l → p x = true → List.find p l = Some x.
Proof.
  intros Hu Hx Hp. destruct (List.find p l) as [y|] eqn:E.
  - apply List.find_some in E as [Hy Hpy]. f_equal. apply Hu; auto.
    by apply list_elem_of_In.
  - rewrite (List.find_none _ _ E) in Hp; [done | by apply list_elem_of_In].
Qed.

Lemma find_elem {A} (p : A → bool) (l : list A) x :
  List.find p l = Some x → x ∈ l ∧ p x = true.
Proof. intros [? ?]%List.find_some. by rewrite list_elem_of_In. Qed.

Lemma find_none_iff {A} (p : A → bool) (l : list A) :
  List.find p l = None ↔ ∀ x, x ∈ l → p x = false.
Proof.
  split.
  - intros H x Hx. apply (List.find_none _ _ H). by apply list_elem_of_In.
  - intros H. destruct (List.find p l) as [y|] eqn:E; [| done].
    apply find_elem in E as [Hy Hp]. by rewrite H in Hp.
Qed.

Lemma elem_of_lfilter {A} (p : A → bool) (l : list A) x :
  x ∈ List.filter p l ↔ x ∈ l ∧ p x = true.
Proof. by rewrite !list_elem_of_In, List.filter_In. Qed.

Lemma lfilter_lfilter {A} (f g : A → bool) (l : list A) :
  List.filter f (List.filter g l) = List.filter (λ x, g x && f x) l.
Proof.
  induction l as [|x l IH]; [done |]. cbn. destruct (g x); cbn; [| done]. by destruct (f x); rewrite IH.
Qed.

Lemma elem_of_take_in {A} n (l : list A) x : x ∈ take n l → x ∈ l.
Proof. intros H. rewrite <- (take_drop n l). apply elem_of_app. by left. Qed.

Lemma elem_of_drop_in {A} n (l : list A) x : x ∈ drop n l → x ∈ l.
Proof. intros H. rewrite <- (take_drop n l). apply elem_of_app. by right. Qed.

#[export] Hint Rewrite @elem_of_lfilter : mmp_rw.
#[export] Hint Resolve max_from_in : mmp.

(** ** Python dicts, where their insertion order is observed *)

Section OrderedDict.
Context {K V : Type} `{EqDecision K}.

(** [d.get(k)]. *)
Fixpoint od_get (k : K) (d : list (K * V)) : option V :=
  match d with
  | [] => None
  | (k', v) :: d' => if decide (k = k') then Some v else od_get k d'
  end.

(** [d[k] = v]: a present key keeps its place. *)
Fixpoint od_set (k : K) (v : V) (d : list (K * V)) : list (K * V) :=
  match d with
  | [] => [(k, v)]
  | (k', v') :: d' => if decide (k = k') then (k, v) :: d' else (k', v') :: od_set k v d'
  end.

(** [d.setdefault(k, v)], for its effect. *)
Definition od_setdefault (k : K) (v : V) (d : list (K * V)) : list (K * V) :=
  match od_get k d with Some _ => d | None => od_set k v d end.

Lemma od_get_set k k' v d :
  od_get k' (od_set k v d) = if decide (k' = k) then Some v else od_get k' d.
Proof.
  induction d as [|[k0 v0] d IH]; simpl; [done |].
  repeat case_decide; simpl; repeat case_decide; congruence || by rewrite IH, decide_False.
Qed.

Lemma od_get_elem k v d : od_get k d = Some v → (k, v) ∈ d.
Proof.
  induction d as [|[k0 v0] d IH]; simpl; [done |].
  case_decide; intros; simplify_eq; [left | right; auto].
Qed.

Lemma od_elem_get k v d : (k, v) ∈ d → is_Some (od_get k d).
Proof.
  induction d as [|[k0 v0] d IH]; simpl; [by intros ?%elem_of_nil |].
  intros [?|?]%elem_of_cons; simplify_eq; case_decide; eauto; congruence.
Qed.

Lemma od_set_elem k v d p : p ∈ od_set k v d → p = (k, v) ∨ p ∈ d.
Proof.
  induction d as [|[k0 v0] d IH]; simpl; [rewrite list_elem_of_singleton; auto |].
  case_decide; rewrite !elem_of_cons; naive_solver.
Qed.

Lemma od_setdefault_elem k v d p : p ∈ od_setdefault k v d → p = (k, v) ∨ p ∈ d.
Proof. unfold od_setdefault. case_match; [by right | apply od_set_elem]. Qed.

Lemma od_get_setdefault k k' v d :
  is_Some (od_get k' (od_setdefault k v d)) ↔ k' = k ∨ is_Some (od_get k' d).
Proof.
  unfold od_setdefault. destruct (od_get k d) as [x|] eqn:E.
  - split; [by right |]. intros [-> | ?]; [by exists x | done].
  - rewrite od_get_set. case_decide; [split; eauto |]. naive_solver.
Qed.

(** A dict filled from pairs that agree on every key holds exactly those pairs. *)
Definition od_of (l : list (K * V)) (d : list (K * V)) : list (K * V) :=
  fold_left (λ d p, od_set (fst p) (snd p) d) l d.

Lemma od_get_of l d k v :
  (∀ p q, p ∈ l → q ∈ l → fst p = fst q → snd p = snd q) →
  od_get k (od_of l d) = Some v ↔ (k, v) ∈ l ∨ (k ∉ fst <$> l ∧ od_get k d = Some v).
Proof.
  unfold od_of. revert d. induction l as [|[k0 v0] l IH]; intros d Hf; simpl.
  { set_solver. }
  rewrite IH by (intros p q ??; apply Hf; by right). rewrite od_get_set. case_decide as E.
  - subst k0. split.
    + intros [?|[_ ?]]; [left; by right |]. left. simplify_eq. by left.
    + intros [[?|?]%elem_of_cons|[Hn _]]; simplify_eq; [| by left | set_solver].
      destruct (decide (k ∈ fst <$> l)) as [Hin|Hin]; [| by right].
      apply list_elem_of_fmap in Hin as ([k' v'] & ? & Hin). simpl in *. subst k'. left.
      assert (v0 = v') as <-; [| done]. by apply (Hf (k, v0) (k, v')); [left | right |].
  - split.
    + intros [?|[? ?]]; [left; by right | right; set_solver].
    + intros [[?|?]%elem_of_cons|[? ?]]; simplify_eq; [by left | right; set_solver].
Qed.

Lemma od_set_fresh k v d : k ∉ fst <$> d → od_set k v d = d ++ [(k, v)].
Proof.
  induction d as [|[k0 v0] d IH]; simpl; [done |]. intros Hk.
  rewrite decide_False by set_solver. rewrite IH by set_solver. done.
Qed.

(** A comprehension over the items of a dict rebuilds the dict. *)
Lemma od_of_app l d : NoDup (fst <$> d ++ l) → od_of l d = d ++ l.
Proof.
  unfold od_of. revert d. induction l as [|[k v] l IH]; intros d Hn; simpl; [by rewrite app_nil_r |].
  assert (d ++ (k, v) :: l = (d ++ [(k, v)]) ++ l) as E by (by rewrite <- app_assoc).
  rewrite od_set_fresh, IH; [by rewrite E | by rewrite <- E |].
  rewrite fmap_app, fmap_cons, NoDup_app in Hn. destruct Hn as (_ & Hn & _).
  intros Hk. apply (Hn k Hk). by left.
Qed.

(** [{**d, **l}]: the entries of [l] win. *)
Lemma od_get_merge l d k :
  NoDup (fst <$> l) →
  od_get k (od_of l d) = match od_get k l with Some v => Some v | None => od_get k d end.
Proof.
  intros Hn. assert (∀ p q, p ∈ l → q ∈ l → fst p = fst q → snd p = snd q) as Hf.
  { intros p q (i & Hi)%list_elem_of_lookup (j & Hj)%list_elem_of_lookup E.
    assert (i = j) as ->; [| congruence].
    apply (NoDup_lookup (fst <$> l) i j (fst p)); [done | |]; rewrite list_lookup_fmap;
      rewrite ?Hi, ?Hj; simpl; congruence. }
  destruct (od_get k l) as [v|] eqn:E.
  - apply od_get_of; [done |]. left. by apply od_get_elem.
  - apply option_eq. intros v. rewrite od_get_of by done. split; [| intros H; right].
    + intros [H|[_ ?]]; [| done]. apply od_elem_get in H as [? ?]. congruence.
    + split; [| done]. intros (p & -> & Hp)%list_elem_of_fmap. destruct p as [k' v'].
      apply od_elem_get in Hp as [? ?]. simpl in *. congruence.
Qed.

Lemma od_set_NoDup k v d : NoDup (fst <$> d) → NoDup (fst <$> od_set k v d).
Proof.
  induction d as [|[k0 v0] d IH]; simpl; intros Hn; [apply NoDup_singleton |].
  apply NoDup_cons in Hn as [Hk Hn]. case_decide as E; simpl.
  - subst k0. by apply NoDup_cons.
  - apply NoDup_cons. split; [| by apply IH].
    intros (p & -> & Hp)%list_elem_of_fmap. apply od_set_elem in Hp as [-> | Hp]; [done |].
    apply Hk, list_elem_of_fmap. eauto.
Qed.

Lemma od_of_NoDup l d : NoDup (fst <$> d) → NoDup (fst <$> od_of l d).
Proof.
  unfold od_of. revert d. induction l as [|p l IH]; intros d Hn; simpl; [done |].
  by apply IH, od_set_NoDup.
Qed.

(** [del d[k]] for a key that is present. *)
Definition od_del (k : K) (d : list (K * V)) : list (K * V) :=
  List.filter (λ p, negb (bool_decide (fst p = k))) d.

Lemma od_get_del k k' d :
  od_get k' (od_del k d) = if decide (k' = k) then None else od_get k' d.
Proof.
  unfold od_del. induction d as [|[k0 v0] d IH]; simpl; [by case_decide |].
  destruct (bool_decide_reflect (k0 = k)); simpl; rewrite IH; repeat case_decide; congruence.
Qed.
End OrderedDict.

(** Filtering a list by flags computed from it. *)
Lemma filter_zip_fmap {A} (f : A → bool) (l : list A) :
  fst <$> List.filter (λ p, negb (snd p)) (zip l (f <$> l)) = List.filter (λ a, negb (f a)) l.
Proof.
  induction l as [|a l IH]; [done |]. cbn. destruct (f a); cbn; [exact IH |].
  f_equal. exact IH.
Qed.

(** Pairs with distinct keys. *)
Section Keyed.
Context {K V : Type}.
Implicit Types (l : list (K * V)) (p : K * V → bool).

Lemma NoDup_fst_functional l k v v' :
  NoDup (fst <$> l) → (k, v) ∈ l → (k, v') ∈ l → v = v'.
Proof.
  intros Hn (i & Hi)%list_elem_of_lookup (j & Hj)%list_elem_of_lookup.
  assert (i = j) as ->; [| congruence].
  apply (NoDup_lookup (fst <$> l) i j k); [done | |]; rewrite list_lookup_fmap;
    rewrite ?Hi, ?Hj; done.
Qed.

Lemma NoDup_fst_filter p l : NoDup (fst <$> l) → NoDup (fst <$> List.filter p l).
Proof.
  induction l as [|x l IH]; intros Hn; [constructor |].
  rewrite fmap_cons in Hn. apply NoDup_cons in Hn as [Hx Hn]. simpl.
  destruct (p x); [| by apply IH]. rewrite fmap_cons. apply NoDup_cons. split; [| by apply IH].
  intros (y & E & [Hy _]%elem_of_lfilter)%list_elem_of_fmap. apply Hx, list_elem_of_fmap. eauto.
Qed.

Lemma elem_of_fst_filter p l k :
  k ∈ fst <$> List.filter p l ↔ ∃ v, (k, v) ∈ l ∧ p (k, v) = true.
Proof.
  rewrite list_elem_of_fmap. split.
  - intros ([k' v] & -> & [? ?]%elem_of_lfilter). eauto.
  - intros (v & ? & ?). exists (k, v). by rewrite elem_of_lfilter.
Qed.
End Keyed.

(** Keys stay distinct in a part of a list. *)
Lemma NoDup_fmap_filter {A B} (f : A → B) (p : A → bool) (l : list A) :
  NoDup (f <$> l) → NoDup (f <$> List.filter p l).
Proof.
  induction l as [|x l IH]; intros Hn; [constructor |].
  rewrite fmap_cons in Hn. apply NoDup_cons in Hn as [Hx Hn]. simpl.
  destruct (p x); [| by apply IH]. rewrite fmap_cons. apply NoDup_cons. split; [| by apply IH].
  intros (y & E & [Hy _]%elem_of_lfilter)%list_elem_of_fmap. apply Hx, list_elem_of_fmap. eauto.
Qed.

Lemma NoDup_fmap_elem {A B} (f : A → B) (l : list A) x y :
  NoDup (f <$> l) → x ∈ l → y ∈ l → f x = f y → x = y.
Proof.
  intros Hn (i & Hi)%list_elem_of_lookup (j & Hj)%list_elem_of_lookup E.
  assert (i = j) as ->; [| congruence].
  apply (NoDup_lookup (f <$> l) i j (f x)); [done | |]; rewrite list_lookup_fmap, ?Hi, ?Hj; simpl;
    congruence.
Qed.

(** ** A list of tasks, one of which makes a step *)

Section Tasks.
Context {T : Type}.
Implicit Types (i : nat) (x y : T) (l : list T).

Lemma task_after i x x' l y : l !! i = Some x → y ∈ <[i := x']> l → y = x' ∨ y ∈ l.
Proof.
  intros Hi (j & Hj)%list_elem_of_lookup. destruct (decide (i = j)) as [<-|Hne].
  - rewrite list_lookup_insert_eq in Hj by (by eapply lookup_lt_Some). left. congruence.
  - rewrite list_lookup_insert_ne in Hj by done. right. by eapply list_elem_of_lookup_2.
Qed.

Lemma task_new i x x' l : l !! i = Some x → x' ∈ <[i := x']> l.
Proof. intros Hi. apply (list_elem_of_lookup_2 _ i), list_lookup_insert_eq. by eapply lookup_lt_Some. Qed.

Lemma task_stays i x x' l y : l !! i = Some x → y ∈ l → y ≠ x → y ∈ <[i := x']> l.
Proof.
  intros Hi (j & Hj)%list_elem_of_lookup Hne. apply (list_elem_of_lookup_2 _ j).
  rewrite list_lookup_insert_ne; [done |]. intros <-. congruence.
Qed.

Lemma appended_task l x y : y ∈ l ++ [x] → y ∈ l ∨ y = x.
Proof. by intros [?| ->%list_elem_of_singleton]%elem_of_app; [left | right]. Qed.
End Tasks.

(** What a partial function takes from a list without repetition, it takes at one place. *)
Lemma NoDup_omap_lookup {A B} (f : A → option B) (l : list A) i j x y k :
  NoDup (omap f l) → l !! i = Some x → l !! j = Some y → f x = Some k → f y = Some k → i = j.
Proof.
  assert (∀ (l : list A) a b u v, (a < b)%nat → l !! a = Some u → l !! b = Some v → f u = Some k → f v = Some k →
            ¬ NoDup (omap f l)) as Hno.
  { clear. intros l. induction l as [|z l IH]; intros [|a] [|b] u v Hlt Ha Hb Hu Hv Hn; cbn in *; try done; try lia.
    - injection Ha as ->. rewrite Hu in Hn. apply NoDup_cons in Hn as [Hn _]. apply Hn.
      apply list_elem_of_omap. exists v. split; [by eapply list_elem_of_lookup_2 | done].
    - eapply (IH a b u v); [lia | done.. |]. destruct (f z); [by apply NoDup_cons in Hn as [_ Hn] | done]. }
  intros Hn Hi Hj Hx Hy. destruct (Nat.lt_trichotomy i j) as [Hlt|[->|Hlt]]; [| done |]; exfalso;
    [by eapply (Hno l i j x y) | by eapply (Hno l j i y x)].
Qed.
