(* ===== verification/Redis.v ===== *)
(** * Redis as the services use it

    String keys with a time to live ([GET], [SET .. EX .. NX], [EXPIRE], [TTL],
    [DEL]).  A store holds values of one type: every user of Redis in the
    repository owns a key prefix of its own ("seen:", "sess:", "consent:",
    "attr:", ...), so each component keeps its own store, and what the code
    encodes with msgpack is kept as the structure it encodes.  Time is an argument
    of each command; an entry is gone from the instant its expiry is reached. *)

From S2P Require Import Prelude.

#[local] Open Scope Z_scope.

Record entry (V : Type) := Entry { e_value : V; e_expiry : option datetime }.
Arguments Entry {V}.
Arguments e_value {V}.
Arguments e_expiry {V}.

(** The instances are spelled out so that no binder is taken for one. *)
Abbreviation store V :=
  (@gmap (list N) (@list_eq_dec N numbers.N.eq_dec)
     (@list_countable N numbers.N.eq_dec N_countable) (entry V)).

Section Redis.
Context {V : Type}.
Implicit Types (m : store V) (k : pystr) (v : V) (now : datetime).

Definition live now (e : entry V) : bool :=
  match e_expiry e with None => true | Some t => now <? t end.

(** The entry a client sees at [now]. *)
Definition peek now k m : option (entry V) :=
  match m !! k with
  | Some e => if live now e then Some e else None
  | None => None
  end.

Definition rget now k m : option V := e_value <$> peek now k m.

(** [SET k v EX seconds]. *)
Definition rset_ex now k v (seconds : Z) m : store V :=
  <[k := Entry v (Some (now + seconds * second))]> m.

(** [SET k v EX seconds NX]: whether the key was absent, and the new store. *)
Definition rset_nx now k v (seconds : Z) m : bool * store V :=
  match peek now k m with
  | Some _ => (false, m)
  | None => (true, rset_ex now k v seconds m)
  end.

(** [EXPIRE k seconds]: nothing happens to a missing key. *)
Definition rexpire now k (seconds : Z) m : store V :=
  match peek now k m with
  | Some e => <[k := Entry (e_value e) (Some (now + seconds * second))]> m
  | None => m
  end.

(** [TTL k]: -2 for a missing key, -1 for one that never expires, otherwise the
    remaining time rounded to whole seconds as the server rounds it. *)
Definition rttl now k m : Z :=
  match peek now k m with
  | None => -2
  | Some e =>
      match e_expiry e with
      | None => -1
      | Some t => ((t - now) / 1000 + 500) / 1000
      end
  end.

Definition rdel k m : store V := delete k m.

Lemma rget_set_eq now now' k v s m :
  now' < now + s * second → rget now' k (rset_ex now k v s m) = Some v.
Proof.
  intros H. unfold rget, peek, rset_ex. rewrite lookup_insert_eq.
  unfold live; simpl. by apply Z.ltb_lt in H as ->.
Qed.

Lemma rget_set_expired now now' k v s m :
  now + s * second <= now' → rget now' k (rset_ex now k v s m) = None.
Proof.
  intros H. unfold rget, peek, rset_ex. rewrite lookup_insert_eq.
  unfold live; simpl. by apply Z.ltb_ge in H as ->.
Qed.

Lemma rget_set_ne now now' k k' v s m :
  k ≠ k' → rget now' k' (rset_ex now k v s m) = rget now' k' m.
Proof. intros H. unfold rget, peek, rset_ex. by rewrite lookup_insert_ne. Qed.

Lemma peek_set_ne now now' k k' v s m :
  k ≠ k' → peek now' k' (rset_ex now k v s m) = peek now' k' m.
Proof. intros H. unfold peek, rset_ex. by rewrite lookup_insert_ne. Qed.

Lemma peek_set_eq now now' k v s m :
  now' < now + s * second →
  peek now' k (rset_ex now k v s m) = Some (Entry v (Some (now + s * second))).
Proof.
  intros H. unfold peek, rset_ex. rewrite lookup_insert_eq.
  unfold live; simpl. by apply Z.ltb_lt in H as ->.
Qed.

Lemma peek_del_eq now k m : peek now k (rdel k m) = None.
Proof. unfold peek, rdel. by rewrite lookup_delete_eq. Qed.

Lemma peek_del_ne now k k' m : k ≠ k' → peek now k' (rdel k m) = peek now k' m.
Proof. intros H. unfold peek, rdel. by rewrite lookup_delete_ne. Qed.

Lemma rget_peek now k m : rget now k m = None ↔ peek now k m = None.
Proof. unfold rget. destruct (peek now k m); naive_solver. Qed.
End Redis.

#[export] Hint Resolve rget_set_eq rget_set_expired peek_set_eq : mmp.
#[export] Hint Rewrite @peek_del_eq : mmp_rw.

(** Commands on distinct keys do not interfere: a sequence of commands that each
    touch one key of their own acts on every key by the one command that owns it. *)
Lemma foldl_local {V D} (key : D → pystr) (f : D → store V → store V)
    (g : D → option (entry V) → option (entry V)) (l : list D) (m : store V) k :
  (∀ d m k, f d m !! k = if decide (k = key d) then g d (m !! k) else m !! k) →
  NoDup (key <$> l) →
  fold_left (λ m d, f d m) l m !! k =
  match List.find (λ d, bool_decide (key d = k)) l with
  | Some d => g d (m !! k)
  | None => m !! k
  end.
Proof.
  intros Hf. revert m. induction l as [|d l IH]; intros m Hn; simpl; [done |].
  rewrite fmap_cons in Hn. apply NoDup_cons in Hn as [Hd Hn]. rewrite IH by done. case_bool_decide as E.
  - subst k. rewrite Hf, decide_True by done.
    assert (List.find (λ d0, bool_decide (key d0 = key d)) l = None) as ->; [| done].
    apply find_none_iff. intros x Hx. apply bool_decide_eq_false. intros E.
    apply Hd. rewrite <- E. by apply list_elem_of_fmap_2.
  - rewrite Hf, decide_False by done. done.
Qed.

Section Local.
Context {V : Type}.
Implicit Types (m : store V) (now : datetime).

Definition live_entry now (o : option (entry V)) : option (entry V) :=
  match o with Some e => if live now e then Some e else None | None => None end.

Lemma peek_live now k m : peek now k m = live_entry now (m !! k).
Proof. done. Qed.

(** What [SET NX] and [EXPIRE] do to the entry of their key. *)
Definition nx_entry now (v : V) (s : Z) (o : option (entry V)) : option (entry V) :=
  match live_entry now o with
  | Some _ => o
  | None => Some (Entry v (Some (now + s * second)))
  end.

Definition expire_entry now (s : Z) (o : option (entry V)) : option (entry V) :=
  match live_entry now o with
  | Some e => Some (Entry (e_value e) (Some (now + s * second)))
  | None => o
  end.

Lemma rset_nx_local now k v s m k' :
  snd (rset_nx now k v s m) !! k' =
  if decide (k' = k) then nx_entry now v s (m !! k') else m !! k'.
Proof.
  unfold rset_nx, nx_entry. rewrite peek_live. case_decide as E; [subst k' |];
    destruct (live_entry now (m !! k)) eqn:H; simpl; try done; unfold rset_ex;
    [by rewrite lookup_insert_eq | by rewrite lookup_insert_ne].
Qed.

Lemma rexpire_local now k s m k' :
  rexpire now k s m !! k' =
  if decide (k' = k) then expire_entry now s (m !! k') else m !! k'.
Proof.
  unfold rexpire, expire_entry. rewrite peek_live. case_decide as E; [subst k' |];
    destruct (live_entry now (m !! k)) eqn:H; simpl; try done;
    [by rewrite lookup_insert_eq | by rewrite lookup_insert_ne].
Qed.
End Local.
