(* ===== verification/Ids.v ===== *)
(** * Identifiers: [uuid.UUID], and the UUIDv7 of mmp_core/ids.py

    A UUID is its 128-bit integer.  [uuid7] and [timestamp_ms] are the two
    functions of ids.py; [uuid_of_str] and [str_of_uuid] are the constructor and
    [str] of Python's [uuid.UUID], with the [int(text, base)] they rest on. *)

From S2P Require Import Prelude.

#[local] Open Scope N_scope.

Abbreviation uuid := N (only parsing).

Definition uuid_ok (u : uuid) : Prop := u < 2 ^ 128.

(** ** mmp_core/ids.py *)

(** The ten random bytes of [os.urandom] arrive as the integer [rand]. *)
Definition uuid7 (ms rand : N) : uuid :=
  let rand_a := N.land (N.shiftr rand 62) 0xFFF in
  let rand_b := N.land rand (N.shiftl 1 62 - 1) in
  let value := N.shiftl (N.land ms (N.shiftl 1 48 - 1)) 80 in
  let value := N.lor value (N.shiftl 0x7 76) in
  let value := N.lor value (N.shiftl rand_a 64) in
  let value := N.lor value (N.shiftl 2 62) in
  N.lor value rand_b.

(** [UUID.version]: defined only for the RFC 9562 variant. *)
Definition uuid_version (u : uuid) : option N :=
  if N.testbit u 63 && negb (N.testbit u 62)
  then Some (N.land (N.shiftr u 76) 0xF) else None.

Definition timestamp_ms (u : uuid) : result pystr N :=
  match uuid_version u with
  | Some 7 => Ok (N.shiftr u 80)
  | _ => Err (py "not a UUIDv7")
  end.

(** ** Python's [int(text, base)] and [uuid.UUID(text)] *)

Section Parsing.
Context {U : Unicode}.

Definition digit_value (c : N) : option N :=
  if is_digit_ascii c then Some (c - 48)
  else if is_lower_ascii c then Some (c - 87)
  else if is_upper_ascii c then Some (c - 55)
  else if is_ascii c then None
  else uni_decimal c.

(** Digits, with single underscores between them. *)
Fixpoint digits (base acc : N) (last_digit : bool) (s : pystr) : option N :=
  match s with
  | [] => if last_digit then Some acc else None
  | c :: s' =>
      if c =? 95 then (if last_digit then digits base acc false s' else None)
      else match digit_value c with
           | Some d => if d <? base then digits base (base * acc + d) true s' else None
           | None => None
           end
  end.

Definition unsigned_int (base : N) (s : pystr) : option N :=
  match s with
  | z :: x :: s' =>
      if (base =? 16) && (z =? 48) && ((x =? 120) || (x =? 88)) then
        digits base 0 false (if starts_with [95] s' then drop 1 s' else s')
      else digits base 0 false s
  | _ => digits base 0 false s
  end.

Definition py_int (base : N) (s : pystr) : option Z :=
  match py_strip s with
  | c :: s' =>
      if c =? 43 then Z.of_N <$> unsigned_int base s'
      else if c =? 45 then (λ n, - Z.of_N n)%Z <$> unsigned_int base s'
      else Z.of_N <$> unsigned_int base (c :: s')
  | [] => None
  end.

Definition is_brace (c : N) : bool := (c =? 123) || (c =? 125).

Definition uuid_of_str (s : pystr) : option uuid :=
  let hex := py_replace (py "uuid:") [] (py_replace (py "urn:") [] s) in
  let hex := py_replace (py "-") [] (rstrip is_brace (lstrip is_brace hex)) in
  if negb (Nat.eqb (length hex) 32) then None
  else match py_int 16 hex with
       | Some z =>
           if (0 <=? z)%Z && (z <? 2 ^ 128)%Z then Some (Z.to_N z) else None
       | None => None
       end.
End Parsing.

(** ** [str(uuid)]: 8-4-4-4-12 lowercase hexadecimal digits *)

Definition hexdigit (d : N) : N := if d <? 10 then 48 + d else 87 + d.

Fixpoint hex_be (n : nat) (u : N) : pystr :=
  match n with
  | O => []
  | S n' => hex_be n' (u / 16) ++ [hexdigit (u mod 16)]
  end.

Definition str_of_uuid (u : uuid) : pystr :=
  let h := hex_be 32 u in
  take 8 h ++ py "-" ++ take 4 (drop 8 h) ++ py "-" ++ take 4 (drop 12 h) ++ py "-" ++
  take 4 (drop 16 h) ++ py "-" ++ drop 20 h.

#[global] Arguments str_of_uuid u : simpl never.
#[global] Arguments uuid_of_str {U} s : simpl never.

(** ** Facts about uuid7 *)

Definition uuid7_sum (ms rand : N) : N :=
  (ms mod 2 ^ 48) * 2 ^ 80 + 7 * 2 ^ 76 + ((rand / 2 ^ 62) mod 2 ^ 12) * 2 ^ 64
  + 2 * 2 ^ 62 + rand mod 2 ^ 62.

Lemma lor_shift_add a b n : b < 2 ^ n → N.lor (N.shiftl a n) b = a * 2 ^ n + b.
Proof.
  intros Hb. rewrite <- N.shiftl_mul_pow2. symmetry. rewrite <- N.lxor_lor.
  - apply N.add_nocarry_lxor. apply N.bits_inj_iff. intros i.
    rewrite N.land_spec, N.bits_0.
    destruct (N.lt_ge_cases i n) as [H|H]; [by rewrite N.shiftl_spec_low |].
    rewrite <- (N.mod_small b (2 ^ n)) by done.
    rewrite N.mod_pow2_bits_high by done. apply andb_false_r.
  - apply N.bits_inj_iff. intros i. rewrite N.land_spec, N.bits_0.
    destruct (N.lt_ge_cases i n) as [H|H]; [by rewrite N.shiftl_spec_low |].
    rewrite <- (N.mod_small b (2 ^ n)) by done.
    rewrite N.mod_pow2_bits_high by done. apply andb_false_r.
Qed.

Lemma land_ones_mod a n : N.land a (N.shiftl 1 n - 1) = a mod 2 ^ n.
Proof. rewrite N.shiftl_1_l, N.sub_1_r, <- N.ones_equiv. apply N.land_ones. Qed.

Lemma uuid7_eq ms rand : uuid7 ms rand = uuid7_sum ms rand.
Proof.
  unfold uuid7, uuid7_sum. cbv zeta. rewrite !land_ones_mod.
  change 0xFFF with (N.shiftl 1 12 - 1). rewrite land_ones_mod, N.shiftr_div_pow2.
  rewrite <- !N.lor_assoc.
  assert (rand mod 2 ^ 62 < 2 ^ 62) as H0 by by apply N.mod_lt.
  assert ((rand / 2 ^ 62) mod 2 ^ 12 < 2 ^ 12) as H1 by by apply N.mod_lt.
  rewrite (lor_shift_add 2) by done.
  rewrite (lor_shift_add _ _ 64) by lia.
  rewrite (lor_shift_add 7 _ 76) by lia.
  rewrite (lor_shift_add _ _ 80) by lia. lia.
Qed.

(** The low 80 bits of a UUIDv7 hold everything but the timestamp. *)
Lemma uuid7_split ms rand :
  ∃ low, low < 2 ^ 80 ∧ uuid7 ms rand = (ms mod 2 ^ 48) * 2 ^ 80 + low.
Proof.
  rewrite uuid7_eq. unfold uuid7_sum.
  assert (rand mod 2 ^ 62 < 2 ^ 62) by by apply N.mod_lt.
  assert ((rand / 2 ^ 62) mod 2 ^ 12 < 2 ^ 12) by by apply N.mod_lt.
  exists (7 * 2 ^ 76 + ((rand / 2 ^ 62) mod 2 ^ 12) * 2 ^ 64 + 2 * 2 ^ 62 + rand mod 2 ^ 62).
  lia.
Qed.

Lemma uuid7_ok ms rand : uuid_ok (uuid7 ms rand).
Proof.
  destruct (uuid7_split ms rand) as (low & Hl & ->). unfold uuid_ok.
  assert (ms mod 2 ^ 48 < 2 ^ 48) by by apply N.mod_lt. lia.
Qed.

Lemma uuid7_shiftr ms rand : N.shiftr (uuid7 ms rand) 80 = ms mod 2 ^ 48.
Proof.
  destruct (uuid7_split ms rand) as (low & Hl & ->).
  rewrite N.shiftr_div_pow2, N.div_add_l by done. rewrite N.div_small; lia.
Qed.

Lemma uuid7_version ms rand : uuid_version (uuid7 ms rand) = Some 7.
Proof.
  unfold uuid_version. rewrite uuid7_eq.
  assert (rand mod 2 ^ 62 < 2 ^ 62) as Hb by by apply N.mod_lt.
  assert ((rand / 2 ^ 62) mod 2 ^ 12 < 2 ^ 12) as Ha by by apply N.mod_lt.
  set (b := rand mod 2 ^ 62) in *. set (a := (rand / 2 ^ 62) mod 2 ^ 12) in *.
  set (t := ms mod 2 ^ 48) in *.
  assert (N.testbit (uuid7_sum ms rand) 63 = true) as ->.
  { rewrite N.testbit_eqb. apply N.eqb_eq. unfold uuid7_sum. fold a b t.
    replace (t * 2 ^ 80 + 7 * 2 ^ 76 + a * 2 ^ 64 + 2 * 2 ^ 62 + b)
      with ((2 * (t * 2 ^ 16 + 7 * 2 ^ 12 + a) + 1) * 2 ^ 63 + b) by lia.
    rewrite N.div_add_l by done. rewrite (N.div_small b) by lia.
    rewrite N.add_0_r, N.mul_comm, N.add_comm, N.Div0.mod_add. done. }
  assert (N.testbit (uuid7_sum ms rand) 62 = false) as ->.
  { rewrite N.testbit_eqb. apply N.eqb_neq. unfold uuid7_sum. fold a b t.
    replace (t * 2 ^ 80 + 7 * 2 ^ 76 + a * 2 ^ 64 + 2 * 2 ^ 62 + b)
      with ((2 * (2 * (t * 2 ^ 16 + 7 * 2 ^ 12 + a) + 1)) * 2 ^ 62 + b) by lia.
    rewrite N.div_add_l by done. rewrite (N.div_small b) by lia.
    rewrite N.add_0_r, N.mul_comm, N.Div0.mod_mul. done. }
  simpl. f_equal. change 15 with (N.shiftl 1 4 - 1). rewrite land_ones_mod.
  rewrite N.shiftr_div_pow2. unfold uuid7_sum. fold a b t.
  replace (t * 2 ^ 80 + 7 * 2 ^ 76 + a * 2 ^ 64 + 2 * 2 ^ 62 + b)
    with ((7 + t * 2 ^ 4) * 2 ^ 76 + (a * 2 ^ 64 + 2 * 2 ^ 62 + b)) by lia.
  rewrite N.div_add_l by done. rewrite (N.div_small (a * _ + _ + _)) by lia.
  rewrite N.add_0_r, N.Div0.mod_add. done.
Qed.

(** Ids minted in a later millisecond are larger. *)
Lemma uuid7_mono ms ms' r r' :
  ms < ms' → ms' < 2 ^ 48 → uuid7 ms r < uuid7 ms' r'.
Proof.
  intros H H'. destruct (uuid7_split ms r) as (l & Hl & ->).
  destruct (uuid7_split ms' r') as (l' & Hl' & ->).
  rewrite !N.mod_small by lia. nia.
Qed.

(** A UUIDv7 gives back the millisecond it was minted in, and ids minted in a
    later millisecond are larger whatever their random bits, so ids sort by time. *)
Theorem timestamp_ms_uuid7 ms rand :
  ms < 2 ^ 48 →
  timestamp_ms (uuid7 ms rand) = Ok ms ∧
  ∀ ms' rand', ms' < 2 ^ 48 → ms < ms' ↔ uuid7 ms rand < uuid7 ms' rand' ∧ ms ≠ ms'.
Proof.
  intros H. split.
  - unfold timestamp_ms. rewrite uuid7_version, uuid7_shiftr. by rewrite N.mod_small.
  - intros ms' rand' H'. split; [intros ?; split; [by apply uuid7_mono | lia] |].
    intros [Hlt Hne]. destruct (N.lt_trichotomy ms ms') as [?|[?|?]]; [done | done |].
    pose proof (uuid7_mono ms' ms rand' rand). lia.
Qed.

Lemma timestamp_ms_uuid7_witness :
  timestamp_ms (uuid7 1700000000000 5) = Ok 1700000000000 ∧
  uuid7 1700000000000 (2 ^ 80 - 1) < uuid7 1700000000001 0.
Proof.
  split.
  - apply (timestamp_ms_uuid7 1700000000000 5). lia.
  - apply (timestamp_ms_uuid7 1700000000000 (2 ^ 80 - 1)); lia.
Defined.

(** ** Printing then parsing a UUID *)

Definition is_hexchar (c : N) : bool := in_range 48 57 c || in_range 97 102 c.

Lemma is_hexchar_bounds c :
  is_hexchar c = true → (48 <= c <= 57) ∨ (97 <= c <= 102).
Proof.
  unfold is_hexchar, in_range. rewrite orb_true_iff, !andb_true_iff, !N.leb_le. lia.
Qed.

Lemma hexdigit_value `{Unicode} d :
  d < 16 → is_hexchar (hexdigit d) = true ∧ digit_value (hexdigit d) = Some d.
Proof.
  intros Hd. destruct d as [|p]; [done |].
  do 4 (destruct p as [p|p|]; try done; try lia).
Qed.

Lemma hex_be_length n u : length (hex_be n u) = n.
Proof. revert u. induction n; intros u; simpl; [done |]. rewrite length_app, IHn. simpl; lia. Qed.

Lemma hex_be_chars n u : Forall (λ c, is_hexchar c = true) (hex_be n u).
Proof.
  revert u. induction n as [|n IH]; intros u; simpl; [constructor |].
  apply Forall_app. split; [apply IH |]. constructor; [| done].
  apply (@hexdigit_value ascii_unicode). by apply N.mod_lt.
Qed.

Lemma replace_absent n a old new s :
  a ∉ s → replace_fuel n (a :: old) new s = s.
Proof.
  revert s. induction n as [|n IH]; intros s Ha; [done |].
  destruct s as [|c s]; [done |]. cbn [replace_fuel starts_with].
  apply not_elem_of_cons in Ha as [Hne Ha].
  apply N.eqb_neq in Hne as ->. simpl. by rewrite IH.
Qed.

Lemma py_replace_absent a old new s : a ∉ s → py_replace (a :: old) new s = s.
Proof. apply replace_absent. Qed.

Lemma replace_char_nil a s :
  py_replace [a] [] s = List.filter (λ c, negb (c =? a)) s.
Proof.
  unfold py_replace. induction s as [|c s IH]; [done |].
  cbn [length replace_fuel starts_with List.filter].
  rewrite (N.eqb_sym c a), andb_true_r. destruct (a =? c); simpl; rewrite ?drop_0; by rewrite IH.
Qed.

Lemma lstrip_noop p s : Forall (λ c, p c = false) s → lstrip p s = s.
Proof. destruct 1 as [|c s Hc]; [done |]. simpl. by rewrite Hc. Qed.

Lemma rstrip_noop p s : Forall (λ c, p c = false) s → rstrip p s = s.
Proof.
  intros H. unfold rstrip. rewrite lstrip_noop; [apply reverse_involutive |].
  by apply Forall_reverse.
Qed.

Lemma digit_not_space `{Unicode} c : is_digit_ascii c = true → py_isspace c = false.
Proof.
  unfold is_digit_ascii, in_range. intros [H1%N.leb_le H2%N.leb_le]%andb_true_iff. unfold py_isspace, is_ascii.
  rewrite (proj2 (N.ltb_lt c 128)) by lia. unfold is_space_ascii, in_range.
  apply orb_false_iff. split; apply andb_false_iff; right; apply N.leb_gt; lia.
Qed.

Lemma py_strip_noop `{Unicode} s : Forall (λ c, py_isspace c = false) s → py_strip s = s.
Proof. intros Hs. unfold py_strip. by rewrite lstrip_noop, rstrip_noop. Qed.

Lemma lfilter_all {A} (p : A → bool) s :
  Forall (λ c, p c = true) s → List.filter p s = s.
Proof. induction 1 as [|c s Hc _ IH]; simpl; [done |]. by rewrite Hc, IH. Qed.

Section UuidRoundTrip.
Context {U : Unicode}.

Lemma digits_app s s' acc :
  Forall (λ c, is_hexchar c = true) s →
  digits 16 acc true (s ++ s') =
  match digits 16 acc true s with Some a => digits 16 a true s' | None => None end.
Proof.
  intros H. revert acc. induction H as [|c s Hc _ IH]; intros acc; [done |].
  simpl. apply is_hexchar_bounds in Hc.
  destruct (N.eqb_spec c 95); [lia |].
  destruct (digit_value c); [| done]. by destruct (_ <? 16).
Qed.

Lemma digits_hex n u acc :
  u < 16 ^ N.of_nat n →
  digits 16 acc true (hex_be n u) = Some (acc * 16 ^ N.of_nat n + u).
Proof.
  revert u acc. induction n as [|n IH]; intros u acc Hu; [simpl in *; f_equal; lia |].
  rewrite Nat2N.inj_succ, N.pow_succ_r' in *. cbn [hex_be].
  rewrite digits_app by apply hex_be_chars. rewrite IH by (apply N.Div0.div_lt_upper_bound; lia).
  assert (u mod 16 < 16) as Hm by by apply N.mod_lt.
  destruct (hexdigit_value (u mod 16) Hm) as [Hc Hv]. apply is_hexchar_bounds in Hc.
  cbn [digits]. rewrite Hv. destruct (N.eqb_spec (hexdigit (u mod 16)) 95); [lia |].
  apply N.ltb_lt in Hm as ->. f_equal. pose proof (N.div_mod' u 16). lia.
Qed.

Lemma digits_start s acc :
  Forall (λ c, is_hexchar c = true) s → s ≠ [] →
  digits 16 acc false s = digits 16 acc true s.
Proof.
  destruct 1 as [|c s Hc]; [done |]. intros _. simpl.
  apply is_hexchar_bounds in Hc. by destruct (N.eqb_spec c 95); [lia |].
Qed.

Lemma unsigned_hex s :
  Forall (λ c, is_hexchar c = true) s → unsigned_int 16 s = digits 16 0 false s.
Proof.
  intros H. destruct s as [|c [|x s]]; [done | done |].
  assert (is_hexchar x = true) as Hx%is_hexchar_bounds by (by inversion_clear H as [|? ? ? Ht]; inversion_clear Ht).
  unfold unsigned_int. destruct (N.eqb_spec x 120); [lia |].
  destruct (N.eqb_spec x 88); [lia |]. by rewrite andb_false_r.
Qed.

Lemma py_int_hex s :
  Forall (λ c, is_hexchar c = true) s → s ≠ [] →
  py_int 16 s = Z.of_N <$> digits 16 0 true s.
Proof.
  intros H Hs. unfold py_int, py_strip.
  assert (Forall (λ c, py_isspace c = false) s) as Hsp.
  { eapply Forall_impl; [exact H |]. intros c Hc%is_hexchar_bounds.
    unfold py_isspace, is_ascii, is_space_ascii, in_range.
    destruct (N.ltb_spec c 128); [| lia].
    destruct (N.leb_spec 9 c), (N.leb_spec c 13), (N.leb_spec 28 c), (N.leb_spec c 32); lia || done. }
  rewrite lstrip_noop by done. rewrite rstrip_noop by done.
  rewrite <- digits_start, <- unsigned_hex by done.
  destruct s as [|c s]; [done |]. inversion_clear H as [|? ? Hc%is_hexchar_bounds _].
  destruct (N.eqb_spec c 43); [lia |]. by destruct (N.eqb_spec c 45); [lia |].
Qed.

Lemma str_of_uuid_chars u :
  Forall (λ c, is_hexchar c = true ∨ c = 45) (str_of_uuid u).
Proof.
  assert (Forall (λ c, is_hexchar c = true ∨ c = 45) (hex_be 32 u)) as H.
  { eapply Forall_impl; [apply hex_be_chars |]. by left. }
  unfold str_of_uuid. repeat apply Forall_app_2; auto using Forall_take, Forall_drop.
  all: constructor; [by right | done].
Qed.

Lemma str_of_uuid_undashed u :
  List.filter (λ c, negb (c =? 45)) (str_of_uuid u) = hex_be 32 u.
Proof.
  assert (Forall (λ c, negb (c =? 45) = true) (hex_be 32 u)) as H.
  { eapply Forall_impl; [apply hex_be_chars |]. intros c Hc%is_hexchar_bounds.
    destruct (N.eqb_spec c 45); [lia | done]. }
  unfold str_of_uuid. rewrite !List.filter_app.
  change (List.filter (λ c, negb (c =? 45)) (py "-")) with (@nil N).
  generalize dependent (hex_be 32 u). intros h H.
  rewrite !lfilter_all by auto using Forall_take, Forall_drop. simpl app.
  assert (∀ n m, take m (drop n h) ++ drop (n + m) h = drop n h) as E.
  { intros n m. rewrite <- drop_drop. apply take_drop. }
  change (drop 20 h) with (drop (16 + 4) h). rewrite E.
  change (drop 16 h) with (drop (12 + 4) h). rewrite E.
  change (drop 12 h) with (drop (8 + 4) h). rewrite E. apply take_drop.
Qed.

(** [uuid.UUID(str(u)) == u]. *)
Lemma uuid_of_str_of_uuid u : uuid_ok u → uuid_of_str (str_of_uuid u) = Some u.
Proof.
  intros Hu. unfold uuid_of_str. cbv zeta.
  pose proof (str_of_uuid_chars u) as Hc.
  assert (117 ∉ str_of_uuid u) as Hno.
  { intros Hin. rewrite Forall_forall in Hc. destruct (Hc _ Hin) as [H%is_hexchar_bounds|]; lia. }
  change (py "urn:") with (117 :: py "rn:"). change (py "uuid:") with (117 :: py "uid:").
  rewrite 2!(py_replace_absent _ _ _ (str_of_uuid u)) by done.
  assert (Forall (λ c, is_brace c = false) (str_of_uuid u)) as Hb.
  { eapply Forall_impl; [exact Hc |]. intros c Hcc. unfold is_brace.
    destruct (N.eqb_spec c 123), (N.eqb_spec c 125); try done;
      destruct Hcc as [H%is_hexchar_bounds|]; lia. }
  rewrite lstrip_noop, rstrip_noop by done. change (py "-") with [45].
  rewrite replace_char_nil, str_of_uuid_undashed, hex_be_length. simpl negb. cbv iota.
  rewrite py_int_hex; [| apply hex_be_chars |]; cycle 1.
  { intros E. by apply (f_equal length) in E; rewrite hex_be_length in E. }
  rewrite digits_hex by done. unfold uuid_ok in Hu. cbn [fmap option_fmap option_map].
  destruct (Z.leb_spec 0 (Z.of_N (0 * 16 ^ N.of_nat 32 + u))); [| lia].
  destruct (Z.ltb_spec (Z.of_N (0 * 16 ^ N.of_nat 32 + u)) (2 ^ 128)); [| lia].
  simpl. f_equal. lia.
Qed.
End UuidRoundTrip.

Lemma str_of_uuid_length u : length (str_of_uuid u) = 36%nat.
Proof.
  unfold str_of_uuid. pose proof (hex_be_length 32 u) as H.
  generalize dependent (hex_be 32 u). intros h H.
  rewrite !length_app, !length_take, !length_drop, H. reflexivity.
Qed.

Lemma str_of_uuid_inj u v :
  uuid_ok u → uuid_ok v → str_of_uuid u = str_of_uuid v → u = v.
Proof.
  intros Hu Hv E. pose proof (@uuid_of_str_of_uuid ascii_unicode u Hu) as H.
  rewrite E, uuid_of_str_of_uuid in H by done. congruence.
Qed.

(** A string that starts with a printed UUID determines the UUID and the rest. *)
Lemma uuid_prefix_inj p u v s t :
  uuid_ok u → uuid_ok v → p ++ str_of_uuid u ++ s = p ++ str_of_uuid v ++ t → u = v ∧ s = t.
Proof.
  intros Hu Hv E. apply app_inv_head in E.
  apply app_inj_1 in E as [E ->]; [| by rewrite !str_of_uuid_length].
  split; [by apply str_of_uuid_inj | done].
Qed.
