(* ===== verification/Engine.v ===== *)
(** * The attribution engine (mmp_attrib/engine.py)

    Deterministic last-click attribution: [attribute] resolves one install to at
    most one click.  [Verdict] states what the module promises, independently of
    how the code searches; [attribute_refines] shows that the code computes exactly
    that verdict, and [attribute_permutation] that the order in which candidates
    are handed over does not matter. *)

From S2P Require Import Prelude Ids.

#[local] Open Scope Z_scope.

Abbreviation bytes := (list N) (only parsing).

(** ** Data *)

Definition CLICK_INJECTION_THRESHOLD : timedelta := 10 * second.

Inductive Method := REFERRER | CLICK_ID | DEVICE_MATCH | ORGANIC | PROBABILISTIC.

#[global] Instance Method_eq_dec : EqDecision Method.
Proof. solve_decision. Defined.

Definition FIDELITY (m : Method) : Z :=
  match m with
  | REFERRER => 4
  | CLICK_ID => 3
  | DEVICE_MATCH => 2
  | PROBABILISTIC => 1
  | ORGANIC => 0
  end.

Record Click := {
  click_id : uuid;
  clicked_at : datetime;
  campaign_id : option uuid;
  tracking_link_id : uuid;
  source : option pystr;
  medium : option pystr;
  device_hash : option bytes;
  is_bot : bool;
  deep_link : option pystr;
  sub1 : option pystr;
  sub2 : option pystr;
  sub3 : option pystr
}.

#[global] Instance Click_eq_dec : EqDecision Click.
Proof. solve_decision. Defined.

Record Install := {
  i_app_id : uuid;
  i_anonymous_id : pystr;
  i_installed_at : datetime;
  i_referrer : option pystr;
  i_click_id : option uuid;
  i_device_hash : option bytes
}.

Record Decision := {
  d_method : Method;
  d_click : option Click;
  d_window_days : Z;
  d_reason : pystr;
  d_click_to_install : option timedelta;
  d_suspected_injection : bool
}.

(** The properties of [Decision]. *)
Definition is_attributed (d : Decision) : bool := negb (bool_decide (d_method d = ORGANIC)).
Definition d_campaign_id (d : Decision) : option uuid := d_click d ≫= campaign_id.
Definition d_click_id (d : Decision) : option uuid := click_id <$> d_click d.

(** ** Operations *)

Definition within_window (click : Click) (install : Install) (window : timedelta) : bool :=
  if clicked_at click >? i_installed_at install then false
  else i_installed_at install - clicked_at click <=? window.

(** The order of the key [(clicked_at, click_id.int)]. *)
Definition click_lt (a b : Click) : bool :=
  (clicked_at a <? clicked_at b)
  || ((clicked_at a =? clicked_at b) && (click_id a <? click_id b)%N).

(** [_latest] on the non-empty list [c :: cs]. *)
Definition latest (c : Click) (cs : list Click) : Click := max_from click_lt c cs.

Definition decide_for (install : Install) (window_days : Z)
    (method : Method) (click : Click) (reason : pystr) : Decision :=
  let gap := i_installed_at install - clicked_at click in
  {| d_method := method;
     d_click := Some click;
     d_window_days := window_days;
     d_reason := reason;
     d_click_to_install := Some gap;
     d_suspected_injection := gap <? CLICK_INJECTION_THRESHOLD |}.

(** Tiers 1 and 2: [next((c for c in eligible if c.click_id == id), None)]. *)
Definition id_tier (install : Install) (window_days : Z) (eligible : list Click)
    (method : Method) (reason : pystr) (id : option uuid) (otherwise : Decision) : Decision :=
  match id with
  | Some i =>
      match List.find (λ c, (click_id c =? i)%N) eligible with
      | Some m => decide_for install window_days method m reason
      | None => otherwise
      end
  | None => otherwise
  end.

(** Tier 3: the same hashed advertising id at click and at install. *)
Definition device_tier (install : Install) (window_days : Z) (eligible : list Click)
    (otherwise : Decision) : Decision :=
  match i_device_hash install with
  | Some h =>
      match List.filter (λ c, bool_decide (device_hash c = Some h)) eligible with
      | c :: cs =>
          decide_for install window_days DEVICE_MATCH (latest c cs)
            (py "the advertising ID seen at click matched the one seen at install")
      | [] => otherwise
      end
  | None => otherwise
  end.

(** Tier 4: nothing deterministic matched. *)
Definition organic (window_days : Z) (pool : list Click) : Decision :=
  {| d_method := ORGANIC;
     d_click := None;
     d_window_days := window_days;
     d_reason :=
       match pool with
       | _ :: _ => py "no click id and no device match within the attribution window"
       | [] => py "no clicks recorded for this app within the attribution window"
       end;
     d_click_to_install := None;
     d_suspected_injection := false |}.

Definition attribute (install : Install) (candidates : list Click) (window_days : Z)
    (referrer_click_id : option uuid) (include_bots : bool) : Decision :=
  let window := window_days * day in
  let pool := List.filter (λ c, include_bots || negb (is_bot c)) candidates in
  let eligible := List.filter (λ c, within_window c install window) pool in
  id_tier install window_days eligible REFERRER
    (py "Play Install Referrer carried this click id, matched within the window")
    referrer_click_id
    (id_tier install window_days eligible CLICK_ID
       (py "the SDK reported this click id and it matched within the window")
       (i_click_id install)
       (device_tier install window_days eligible (organic window_days pool))).

Definition should_supersede (existing incoming : Method) : bool :=
  FIDELITY incoming >? FIDELITY existing.

(** ** The abstract specification *)

Section Spec.
Context (install : Install) (candidates : list Click) (window_days : Z).
Context (referrer_click_id : option uuid) (include_bots : bool).

(** A click that may be credited: a person's click, before the install and
    inside the window. *)
Definition qualifies (c : Click) : Prop :=
  c ∈ candidates ∧ (include_bots = true ∨ is_bot c = false) ∧
  clicked_at c <= i_installed_at install ∧
  i_installed_at install - clicked_at c <= window_days * day.

(** The evidence that ties a click to the install. *)
Definition evidence (m : Method) (c : Click) : Prop :=
  match m with
  | REFERRER => referrer_click_id = Some (click_id c)
  | CLICK_ID => i_click_id install = Some (click_id c)
  | DEVICE_MATCH => is_Some (i_device_hash install) ∧ device_hash c = i_device_hash install
  | ORGANIC | PROBABILISTIC => False
  end.

(** What the engine promises: the most recent click of the best evidence
    available, and organic only when no click has any. *)
Definition Verdict (m : Method) (oc : option Click) : Prop :=
  match oc with
  | Some c =>
      qualifies c ∧ evidence m c ∧
      (∀ m' c', qualifies c' → evidence m' c' → FIDELITY m' <= FIDELITY m) ∧
      (∀ c', qualifies c' → evidence m c' → click_lt c c' = false)
  | None => m = ORGANIC ∧ ∀ m' c', qualifies c' → ¬ evidence m' c'
  end.
End Spec.

(** Candidates come out of a dict keyed by click id. *)
Definition unique_ids (l : list Click) : Prop :=
  ∀ a b, a ∈ l → b ∈ l → click_id a = click_id b → a = b.

(** ** Lemmas *)

#[global] Instance click_lt_strict : StrictWeak click_lt.
Proof.
  split; unfold click_lt.
  - intros x. destruct (Z.ltb_spec (clicked_at x) (clicked_at x)); [lia |].
    rewrite N.ltb_irrefl, andb_false_r. done.
  - intros x y z. rewrite !orb_true_iff, !andb_true_iff, !Z.ltb_lt, !Z.eqb_eq, !N.ltb_lt. lia.
  - intros x y z. rewrite !orb_false_iff, !andb_false_iff, !Z.ltb_ge, !Z.eqb_neq, !N.ltb_ge. lia.
Qed.

Lemma click_lt_tie a b :
  click_lt a b = false → click_lt b a = false →
  clicked_at a = clicked_at b ∧ click_id a = click_id b.
Proof.
  unfold click_lt. rewrite !orb_false_iff, !andb_false_iff, !Z.ltb_ge, !Z.eqb_neq, !N.ltb_ge.
  lia.
Qed.

Lemma fidelity_inj m m' : FIDELITY m = FIDELITY m' → m = m'.
Proof. destruct m, m'; simpl; done || lia. Qed.

Lemma within_window_spec c i w :
  within_window c i w = true ↔
  clicked_at c <= i_installed_at i ∧ i_installed_at i - clicked_at c <= w.
Proof.
  unfold within_window. rewrite Z.gtb_ltb.
  destruct (Z.ltb_spec (i_installed_at i) (clicked_at c)); [| rewrite Z.leb_le]; naive_solver lia.
Qed.

Section Refinement.
Context (install : Install) (candidates : list Click) (window_days : Z).
Context (referrer_click_id : option uuid) (include_bots : bool).

Abbreviation qual := (qualifies install candidates window_days include_bots).
Abbreviation evid := (evidence install referrer_click_id).
Abbreviation verdict :=
  (Verdict install candidates window_days referrer_click_id include_bots).
Abbreviation eligible :=
  (List.filter (λ c, within_window c install (window_days * day))
     (List.filter (λ c, include_bots || negb (is_bot c)) candidates)).
Abbreviation run :=
  (attribute install candidates window_days referrer_click_id include_bots).

Lemma elem_of_eligible c : c ∈ eligible ↔ qual c.
Proof.
  rewrite !elem_of_lfilter, within_window_spec, orb_true_iff, negb_true_iff.
  unfold qualifies. tauto.
Qed.

(** A verdict names at most one method and one click. *)
Lemma verdict_unique m oc m' oc' :
  unique_ids candidates → verdict m oc → verdict m' oc' → m = m' ∧ oc = oc'.
Proof.
  intros Hu. destruct oc as [c|], oc' as [c'|]; simpl.
  - intros (Hq & He & Hf & Hl) (Hq' & He' & Hf' & Hl').
    assert (m = m') as <- by (apply fidelity_inj; pose proof (Hf _ _ Hq' He');
                              pose proof (Hf' _ _ Hq He); lia).
    split; [done |]. f_equal.
    destruct (click_lt_tie c c' (Hl _ Hq' He') (Hl' _ Hq He)) as [_ Hid].
    apply Hu; [apply Hq | apply Hq' | done].
  - naive_solver.
  - naive_solver.
  - naive_solver.
Qed.

(** A tier that looks a click up by id: its winner is a verdict, and when it has
    none the tiers below decide. *)
Lemma id_tier_verdict m reason id otherwise :
  unique_ids candidates →
  (∀ x, evid m x ↔ id = Some (click_id x)) →
  (∀ m' x, qual x → evid m' x → FIDELITY m' <= FIDELITY m) →
  ((∀ x, qual x → ¬ evid m x) → verdict (d_method otherwise) (d_click otherwise)) →
  let d := id_tier install window_days eligible m reason id otherwise in
  verdict (d_method d) (d_click d).
Proof.
  intros Hu He Hf Ho d. subst d. unfold id_tier. destruct id as [i|].
  2:{ apply Ho. intros x _ Hx%He. done. }
  destruct (List.find _ eligible) as [c|] eqn:E.
  - apply find_elem in E as [Hc Hid]. apply N.eqb_eq in Hid as <-.
    apply elem_of_eligible in Hc. split_and!; [done | by apply He | done |].
    intros c' Hc' He'%He. replace c' with c; [apply sw_irrefl |].
    apply Hu; [apply Hc | apply Hc' | congruence].
  - apply Ho. intros x Hx%elem_of_eligible Hev%He.
    rewrite find_none_iff in E. specialize (E x Hx). apply N.eqb_neq in E. congruence.
Qed.

(** The device tier: the most recent of the matching clicks. *)
Lemma device_tier_verdict otherwise :
  (∀ m' x, qual x → evid m' x → FIDELITY m' <= 2) →
  ((∀ x, qual x → ¬ evid DEVICE_MATCH x) → verdict (d_method otherwise) (d_click otherwise)) →
  let d := device_tier install window_days eligible otherwise in
  verdict (d_method d) (d_click d).
Proof.
  intros Hf Ho d. subst d. unfold device_tier.
  destruct (i_device_hash install) as [h|] eqn:Eh.
  2:{ apply Ho. intros x _ [[? Hs] _]. congruence. }
  assert (∀ x, x ∈ List.filter (λ c, bool_decide (device_hash c = Some h)) eligible ↔
               qual x ∧ evid DEVICE_MATCH x) as Hmem.
  { intros x. rewrite elem_of_lfilter, elem_of_eligible, bool_decide_eq_true.
    simpl. rewrite Eh. naive_solver. }
  destruct (List.filter _ _) as [|c cs].
  - apply Ho. intros x Hq He. by apply (not_elem_of_nil x), Hmem.
  - pose proof (max_from_in click_lt c cs) as Hin. apply Hmem in Hin as [Hq He].
    split_and!; [done | done | done |].
    intros c' Hq' He'. apply max_from_ge; [apply _ |]. by apply Hmem.
Qed.

Lemma evidence_bound m x : evid m x → FIDELITY m = 4 ∨ FIDELITY m = 3 ∨ FIDELITY m = 2.
Proof. destruct m; simpl; tauto. Qed.

(** What the code returns is a verdict. *)
Lemma attribute_verdict :
  unique_ids candidates → verdict (d_method run) (d_click run).
Proof.
  intros Hu. unfold attribute. cbv zeta.
  assert (∀ m, FIDELITY m = 4 → m = REFERRER) as H4 by (by intros []).
  assert (∀ m, FIDELITY m = 3 → m = CLICK_ID) as H3 by (by intros []).
  assert (∀ m, FIDELITY m = 2 → m = DEVICE_MATCH) as H2 by (by intros []).
  apply id_tier_verdict; [exact Hu | intros x; reflexivity | |].
  { intros m x _ He%evidence_bound. simpl. lia. }
  intros Hno4. apply id_tier_verdict; [exact Hu | intros x; reflexivity | |].
  { intros m x Hq He. destruct (evidence_bound _ _ He) as [Hm|]; [| simpl; lia].
    rewrite (H4 _ Hm) in He. by destruct (Hno4 x). }
  intros Hno3. apply device_tier_verdict.
  { intros m x Hq He. destruct (evidence_bound _ _ He) as [Hm|[Hm|]]; [| | lia].
    - rewrite (H4 _ Hm) in He. by destruct (Hno4 x).
    - rewrite (H3 _ Hm) in He. by destruct (Hno3 x). }
  intros Hno2. split; [done |]. intros m x Hq He.
  destruct (evidence_bound _ _ He) as [Hm|[Hm|Hm]].
  - rewrite (H4 _ Hm) in He. by destruct (Hno4 x).
  - rewrite (H3 _ Hm) in He. by destruct (Hno3 x).
  - rewrite (H2 _ Hm) in He. by destruct (Hno2 x).
Qed.
End Refinement.

(** The gap and the injection flag always describe the winning click. *)
Lemma attribute_gap i cs w r b :
  let d := attribute i cs w r b in
  d_window_days d = w ∧
  d_click_to_install d = (λ c, i_installed_at i - clicked_at c) <$> d_click d ∧
  d_suspected_injection d =
    match d_click_to_install d with Some g => g <? CLICK_INJECTION_THRESHOLD | None => false end.
Proof.
  cbv zeta. unfold attribute, id_tier, device_tier, organic, decide_for. cbv zeta.
  repeat case_match; split_and!; by simplify_eq/=.
Qed.

(** (C1) The engine implements its contract: for candidates with distinct click
    ids, [attribute] returns a method and a click exactly when they are the verdict
    of the specification, the most recent click of the best evidence among the
    clicks that qualify, or organic when no qualifying click carries evidence. *)
Theorem attribute_refines i cs w r b m oc :
  unique_ids cs →
  (d_method (attribute i cs w r b) = m ∧ d_click (attribute i cs w r b) = oc)
  ↔ Verdict i cs w r b m oc.
Proof.
  intros Hu. pose proof (attribute_verdict i cs w r b Hu) as Hv. split.
  - by intros [<- <-].
  - intros Hv'. by apply (verdict_unique i cs w r b).
Qed.

(** The reason is a function of the method and of whether any click was offered. *)
Lemma attribute_reason i cs w r b :
  d_reason (attribute i cs w r b) =
  match d_method (attribute i cs w r b) with
  | REFERRER => py "Play Install Referrer carried this click id, matched within the window"
  | CLICK_ID => py "the SDK reported this click id and it matched within the window"
  | DEVICE_MATCH => py "the advertising ID seen at click matched the one seen at install"
  | _ => d_reason (organic w (List.filter (λ c, b || negb (is_bot c)) cs))
  end.
Proof.
  unfold attribute, id_tier, device_tier. cbv zeta. repeat case_match; simpl in *; congruence.
Qed.

Lemma decision_ext d d' :
  d_method d = d_method d' → d_click d = d_click d' → d_window_days d = d_window_days d' →
  d_reason d = d_reason d' → d_click_to_install d = d_click_to_install d' →
  d_suspected_injection d = d_suspected_injection d' → d = d'.
Proof. destruct d, d'; simpl; congruence. Qed.

(** A verdict depends on a candidate list only through the qualifying clicks that
    carry evidence. *)
Lemma verdict_transfer i cs cs' w r b m oc :
  (∀ m c, evidence i r m c → qualifies i cs w b c ↔ qualifies i cs' w b c) →
  Verdict i cs w r b m oc → Verdict i cs' w r b m oc.
Proof.
  intros H. unfold Verdict. destruct oc as [c|].
  - intros (Hq & He & Hf & Hl). split_and!; [by eapply H | done | |].
    + intros m' c' Hq' He'. apply (Hf m' c'); [by eapply H | done].
    + intros c' Hq' He'. apply Hl; [by eapply H | done].
  - intros [-> Hn]. split; [done |]. intros m' c' Hq' He'.
    apply (Hn m' c'); [by eapply H | done].
Qed.

Lemma verdict_same_evidence i cs cs' w r b m oc :
  (∀ m c, evidence i r m c → qualifies i cs w b c ↔ qualifies i cs' w b c) →
  Verdict i cs w r b m oc ↔ Verdict i cs' w r b m oc.
Proof.
  intros H. split; apply verdict_transfer; [done |]. intros m' c Hc. by rewrite (H m' c Hc).
Qed.

(** Two candidate lists that offer the same qualifying evidence lead to the same
    method and click. *)
Lemma attribute_same_verdict i cs cs' w r b :
  unique_ids cs → unique_ids cs' →
  (∀ m oc, Verdict i cs w r b m oc ↔ Verdict i cs' w r b m oc) →
  d_method (attribute i cs w r b) = d_method (attribute i cs' w r b) ∧
  d_click (attribute i cs w r b) = d_click (attribute i cs' w r b).
Proof.
  intros Hu Hu' Hv. pose proof (attribute_verdict i cs w r b Hu) as H.
  apply Hv in H. apply (verdict_unique i cs' w r b); [done | done |].
  by apply attribute_verdict.
Qed.

Lemma pool_perm_nil {A} (p : A → bool) (l l' : list A) :
  l ≡ₚ l' → List.filter p l = [] → List.filter p l' = [].
Proof.
  intros Hp Hn. apply elem_of_nil_inv. intros x Hx.
  apply (not_elem_of_nil x). rewrite <- Hn. apply elem_of_lfilter.
  apply elem_of_lfilter in Hx as [Hx ?]. by rewrite Hp.
Qed.

(** The decision does not depend on the order in which the candidates were
    collected: permuting candidates with distinct click ids leaves the whole
    decision, its reason included, unchanged. *)
Theorem attribute_permutation i cs cs' w r b :
  unique_ids cs → cs ≡ₚ cs' → attribute i cs w r b = attribute i cs' w r b.
Proof.
  intros Hu Hp.
  assert (unique_ids cs') as Hu' by (intros x y; rewrite <- !Hp; apply Hu).
  destruct (attribute_same_verdict i cs cs' w r b) as [Em Ec]; [done | done | |].
  { intros m oc. apply verdict_same_evidence. intros m' c _. unfold qualifies. by rewrite Hp. }
  destruct (attribute_gap i cs w r b) as (E1 & E2 & E3).
  destruct (attribute_gap i cs' w r b) as (F1 & F2 & F3).
  apply decision_ext; [done | done | by rewrite E1, F1 | | by rewrite E2, F2, Ec
    | by rewrite E3, F3, E2, F2, Ec].
  rewrite !attribute_reason, Em. destruct (d_method _); try done; simpl.
  all: pose proof (pool_perm_nil (λ c, b || negb (is_bot c)) cs cs' Hp) as P;
    pose proof (pool_perm_nil (λ c, b || negb (is_bot c)) cs' cs (Permutation_sym Hp)) as Q;
    destruct (List.filter _ cs), (List.filter _ cs'); try done.
  all: try by specialize (P eq_refl). all: by specialize (Q eq_refl).
Qed.

(** A bot's click is never credited unless the caller asks for bots. *)
Lemma attribute_not_bot i cs w r c :
  d_click (attribute i cs w r false) = Some c → is_bot c = false ∧ c ∈ cs.
Proof.
  unfold attribute, id_tier, device_tier. cbv zeta. intros H.
  assert (c ∈ List.filter (λ c, within_window c i (w * day))
              (List.filter (λ c, false || negb (is_bot c)) cs)) as Hc.
  { repeat case_match; simplify_eq/=;
      repeat match goal with
      | F : List.find _ _ = Some _ |- _ => apply find_elem in F as [? _]
      end; try done.
    all: match goal with F : List.filter _ _ = ?a :: ?l |- _ =>
      pose proof (max_from_in click_lt a l) as Hin; rewrite <- F in Hin end;
      by apply elem_of_lfilter in Hin as [? _]. }
  apply elem_of_lfilter in Hc as [Hc _]. apply elem_of_lfilter in Hc as [Hc Hb].
  by apply negb_true_iff in Hb.
Qed.

(** ** Witnesses *)

Lemma unique_ids_NoDup cs : NoDup (click_id <$> cs) → unique_ids cs.
Proof.
  intros Hn a b (i & Hi)%list_elem_of_lookup (j & Hj)%list_elem_of_lookup E.
  assert (i = j) as ->; [| congruence].
  apply (NoDup_lookup (click_id <$> cs) i j (click_id a)); [done | |];
    rewrite list_lookup_fmap; rewrite ?Hi, ?Hj; simpl; congruence.
Qed.

(** A person's click [t] seconds after the epoch. *)
Definition ex_click (id : uuid) (t : Z) (dev : option bytes) (bot : bool) : Click :=
  {| click_id := id; clicked_at := t * second; campaign_id := Some 77%N; tracking_link_id := 5%N;
     source := None; medium := None; device_hash := dev; is_bot := bot;
     deep_link := None; sub1 := None; sub2 := None; sub3 := None |}.

Definition ex_install (cid : option uuid) (dev : option bytes) : Install :=
  {| i_app_id := 9%N; i_anonymous_id := py "device-1"; i_installed_at := 1000 * second;
     i_referrer := None; i_click_id := cid; i_device_hash := dev |}.

Definition ex_clicks : list Click :=
  [ ex_click 1%N 900 (Some [7%N]) false; ex_click 2%N 950 (Some [7%N]) false;
    ex_click 3%N 999 (Some [7%N]) true; ex_click 4%N 1001 (Some [7%N]) false ].

Lemma ex_clicks_unique : unique_ids ex_clicks.
Proof. apply unique_ids_NoDup, (bool_decide_unpack _). vm_compute. exact I. Qed.

(** The bot's click and the click after the install lose to the last person's. *)
Lemma attribute_refines_witness :
  unique_ids ex_clicks ∧
  Verdict (ex_install None (Some [7%N])) ex_clicks 7 None false DEVICE_MATCH
    (Some (ex_click 2%N 950 (Some [7%N]) false)).
Proof.
  split; [apply ex_clicks_unique |].
  apply (proj1 (attribute_refines (ex_install None (Some [7%N])) ex_clicks 7 None false
           DEVICE_MATCH (Some (ex_click 2%N 950 (Some [7%N]) false)) ex_clicks_unique)).
  split; vm_compute; reflexivity.
Defined.

Lemma attribute_permutation_witness :
  unique_ids ex_clicks ∧ ex_clicks ≡ₚ reverse ex_clicks ∧
  attribute (ex_install (Some 1%N) None) ex_clicks 7 (Some 2%N) false
  = attribute (ex_install (Some 1%N) None) (reverse ex_clicks) 7 (Some 2%N) false.
Proof.
  assert (ex_clicks ≡ₚ reverse ex_clicks) as Hp by (symmetry; apply reverse_Permutation).
  split; [apply ex_clicks_unique |]. split; [exact Hp |].
  apply attribute_permutation; [apply ex_clicks_unique | exact Hp].
Defined.
