(* ===== verification/Candidates.v ===== *)
(** * Loading candidate clicks (mmp_attrib/candidates.py)

    The engine is handed the clicks that could win, not every click of the app.
    [load_candidates] runs the module's two queries against the [clicks] table;
    [load_candidates_complete] shows that the engine decides on them as it would on
    the whole table, as long as one device has at most [MAX_DEVICE_CANDIDATES]
    clicks in the window. *)

From Stdlib Require Import Sorted.
From stdpp Require Import sorting.
From S2P Require Import Prelude Ids Engine.

#[local] Open Scope Z_scope.

Definition MAX_DEVICE_CANDIDATES : nat := 50.

(** A row of [clicks], the columns the queries read. *)
Record ClickRow := {
  r_app_id : uuid;
  r_click_id : uuid;
  r_clicked_at : datetime;
  r_campaign_id : option uuid;
  r_tracking_link_id : uuid;
  r_device_hash : option bytes;
  r_is_bot : bool;
  r_deep_link : option pystr;
  r_sub1 : option pystr;
  r_sub2 : option pystr;
  r_sub3 : option pystr
}.

Definition to_click (row : ClickRow) : Click :=
  {| click_id := r_click_id row;
     clicked_at := r_clicked_at row;
     campaign_id := r_campaign_id row;
     tracking_link_id := r_tracking_link_id row;
     source := None;
     medium := None;
     device_hash := match r_device_hash row with Some (b :: bs) => Some (b :: bs) | _ => None end;
     is_bot := r_is_bot row;
     deep_link := r_deep_link row;
     sub1 := r_sub1 row;
     sub2 := r_sub2 row;
     sub3 := r_sub3 row |}.

(** [BY_CLICK_ID_SQL], through [fetchrow]: the first row of the result. *)
Definition by_click_id (clicks : list ClickRow) (id app_id : uuid) (lo hi : datetime)
    : option ClickRow :=
  List.find (λ r, (r_click_id r =? id)%N && (r_app_id r =? app_id)%N
                  && (lo <=? r_clicked_at r) && (r_clicked_at r <=? hi)) clicks.

(** The [WHERE] clause of [BY_DEVICE_SQL]. *)
Definition by_device_rows (clicks : list ClickRow) (app_id : uuid) (h : bytes) (lo hi : datetime)
    : list ClickRow :=
  List.filter (λ r, (r_app_id r =? app_id)%N && bool_decide (r_device_hash r = Some h)
                    && (lo <=? r_clicked_at r) && (r_clicked_at r <=? hi)) clicks.

(** Newest first, as [ORDER BY clicked_at DESC] leaves them. *)
Definition newest_first (l : list ClickRow) : Prop :=
  StronglySorted (λ a b, r_clicked_at b <= r_clicked_at a) l.

(** How the database answers [ORDER BY clicked_at DESC]: the same rows, newest
    first; the order of rows with equal times is its own business. *)
Class OrdersNewestFirst (order_by : list ClickRow → list ClickRow) : Prop := {
  order_by_rows : ∀ l, order_by l ≡ₚ l;
  order_by_sorted : ∀ l, newest_first (order_by l)
}.

Section Load.
Context (order_by : list ClickRow → list ClickRow).

Definition load_candidates (clicks : list ClickRow) (app_id : uuid) (installed_at : datetime)
    (window_days : Z) (click_ids : list uuid) (dev : option bytes) : list Click :=
  let window_start := installed_at - window_days * day in
  let found :=
    fold_left (λ found id,
      match by_click_id clicks id app_id window_start installed_at with
      | Some row => od_set (r_click_id row) (to_click row) found
      | None => found
      end) click_ids [] in
  let found :=
    match dev with
    | Some h =>
        fold_left (λ found row, od_setdefault (r_click_id row) (to_click row) found)
          (take MAX_DEVICE_CANDIDATES
             (order_by (by_device_rows clicks app_id h window_start installed_at)))
          found
    | None => found
    end in
  snd <$> found.
End Load.

(** Click ids are unique within an app: the edge mints one per click. *)
Definition unique_rows (clicks : list ClickRow) : Prop :=
  ∀ a b, a ∈ clicks → b ∈ clicks →
    r_app_id a = r_app_id b → r_click_id a = r_click_id b → a = b.

(** Every click of the app, as the engine would see it. *)
Definition all_clicks (clicks : list ClickRow) (app_id : uuid) : list Click :=
  to_click <$> List.filter (λ r, (r_app_id r =? app_id)%N) clicks.

(** ** Lemmas *)

(** What the dict under construction holds: rows of the table that belong to the
    app, each under its own id. *)
Definition holds_rows (clicks : list ClickRow) (app : uuid) (found : list (uuid * Click)) : Prop :=
  ∀ k c, (k, c) ∈ found →
    ∃ row, row ∈ clicks ∧ r_app_id row = app ∧ k = r_click_id row ∧ c = to_click row.

Definition has_row (found : list (uuid * Click)) (row : ClickRow) : Prop :=
  is_Some (od_get (r_click_id row) found).

Lemma by_click_id_some clicks id app lo hi row :
  by_click_id clicks id app lo hi = Some row →
  row ∈ clicks ∧ r_click_id row = id ∧ r_app_id row = app ∧
  lo <= r_clicked_at row <= hi.
Proof. intros [Hin Hp]%find_elem. bprop. by split_and!. Qed.

Lemma by_click_id_found clicks app lo hi row :
  unique_rows clicks → row ∈ clicks → r_app_id row = app →
  lo <= r_clicked_at row <= hi →
  by_click_id clicks (r_click_id row) app lo hi = Some row.
Proof.
  intros Hu Hin Happ Ht. apply find_unique; [| done |].
  - intros a b Ha Hb Pa Pb. bprop. apply Hu; congruence || done.
  - rewrite Happ, !N.eqb_refl. simpl. apply andb_true_iff. rewrite !Z.leb_le. lia.
Qed.

Lemma elem_of_by_device clicks app h lo hi row :
  row ∈ by_device_rows clicks app h lo hi ↔
  row ∈ clicks ∧ r_app_id row = app ∧ r_device_hash row = Some h ∧
  lo <= r_clicked_at row <= hi.
Proof.
  unfold by_device_rows. rewrite elem_of_lfilter, !andb_true_iff, N.eqb_eq, bool_decide_eq_true,
    !Z.leb_le. tauto.
Qed.

Section Complete.
Context (order_by : list ClickRow → list ClickRow) {O : OrdersNewestFirst order_by}.
Context (clicks : list ClickRow) (app : uuid) (hi : datetime) (w : Z).
Abbreviation lo := (hi - w * day).

Lemma holds_rows_set found row :
  row ∈ clicks → r_app_id row = app →
  holds_rows clicks app found →
  holds_rows clicks app (od_set (r_click_id row) (to_click row) found).
Proof. intros Hr Ha H k c [?|?]%od_set_elem; simplify_eq; eauto 10. Qed.

Lemma holds_rows_setdefault found row :
  row ∈ clicks → r_app_id row = app →
  holds_rows clicks app found →
  holds_rows clicks app (od_setdefault (r_click_id row) (to_click row) found).
Proof. intros Hr Ha H k c [?|?]%od_setdefault_elem; simplify_eq; eauto 10. Qed.

(** The click-id queries. *)
Lemma by_ids_holds ids found :
  holds_rows clicks app found →
  holds_rows clicks app
    (fold_left (λ found id,
       match by_click_id clicks id app lo hi with
       | Some row => od_set (r_click_id row) (to_click row) found
       | None => found
       end) ids found).
Proof.
  revert found. induction ids as [|id ids IH]; intros found H; simpl; [done |].
  apply IH. destruct (by_click_id _ _ _ _ _) as [row|] eqn:E; [| done].
  apply by_click_id_some in E as (? & ? & ? & ?). by apply holds_rows_set.
Qed.

Lemma by_ids_keeps ids found row :
  unique_rows clicks → row ∈ clicks → r_app_id row = app →
  lo <= r_clicked_at row <= hi →
  has_row found row ∨ r_click_id row ∈ ids →
  has_row
    (fold_left (λ found id,
       match by_click_id clicks id app lo hi with
       | Some row => od_set (r_click_id row) (to_click row) found
       | None => found
       end) ids found) row.
Proof.
  intros Hu Hr Ha Ht. revert found. induction ids as [|id ids IH]; intros found H; simpl.
  { destruct H as [?|?%elem_of_nil]; done. }
  apply IH. destruct H as [H|[<-|H]%elem_of_cons]; [left | left | by right].
  - case_match; [| done]. unfold has_row. rewrite od_get_set. case_decide; [eauto | done].
  - rewrite by_click_id_found by done. unfold has_row. rewrite od_get_set, decide_True; eauto.
Qed.

(** The device query. *)
Lemma by_device_holds rows found :
  (∀ row, row ∈ rows → row ∈ clicks ∧ r_app_id row = app) →
  holds_rows clicks app found →
  holds_rows clicks app
    (fold_left (λ found row, od_setdefault (r_click_id row) (to_click row) found) rows found).
Proof.
  revert found. induction rows as [|row rows IH]; intros found Hr H; simpl; [done |].
  apply IH; [set_solver |]. apply holds_rows_setdefault; [set_solver | set_solver | done].
Qed.

Lemma by_device_keeps rows found row :
  has_row found row ∨ row ∈ rows →
  has_row (fold_left (λ found row, od_setdefault (r_click_id row) (to_click row) found)
             rows found) row.
Proof.
  revert found. induction rows as [|r rows IH]; intros found H; simpl.
  { destruct H as [?|?%elem_of_nil]; done. }
  apply IH. unfold has_row. rewrite od_get_setdefault.
  destruct H as [H|[<-|H]%elem_of_cons]; auto.
Qed.

(** Everything loaded is a click of the app. *)
Lemma loaded_in_table ids dev c :
  c ∈ load_candidates order_by clicks app hi w ids dev →
  ∃ row, row ∈ clicks ∧ r_app_id row = app ∧ c = to_click row.
Proof.
  unfold load_candidates. cbv zeta. rewrite list_elem_of_fmap. intros ([k c'] & -> & Hin).
  revert Hin. match goal with |- _ ∈ ?d → _ => assert (holds_rows clicks app d) as Hh end.
  { pose proof (by_ids_holds ids []) as H0.
    destruct dev as [h|]; [apply by_device_holds |]; try (apply H0; intros ? ? []%elem_of_nil).
    intros row Hr%elem_of_take_in. rewrite order_by_rows, elem_of_by_device in Hr. tauto. }
  intros (row & ? & ? & ? & ?)%Hh. eauto.
Qed.
(** Every click of the app in the window that one of the two queries looks for is
    loaded. *)
Lemma loaded_if_sought ids dev row :
  unique_rows clicks → row ∈ clicks → r_app_id row = app →
  lo <= r_clicked_at row <= hi →
  (∀ h, dev = Some h →
    (length (by_device_rows clicks app h lo hi) <= MAX_DEVICE_CANDIDATES)%nat) →
  r_click_id row ∈ ids ∨ (is_Some dev ∧ r_device_hash row = dev) →
  to_click row ∈ load_candidates order_by clicks app hi w ids dev.
Proof.
  intros Hu Hr Ha Ht Hcap Hs. unfold load_candidates. cbv zeta. rewrite list_elem_of_fmap.
  match goal with |- ∃ _, _ ∧ _ ∈ ?d => assert (holds_rows clicks app d ∧ has_row d row) as [Hh Hk] end.
  { pose proof (by_ids_holds ids []) as H0.
    pose proof (by_ids_keeps ids [] row Hu Hr Ha Ht) as H1.
    destruct dev as [h|].
    - rewrite take_ge by (rewrite order_by_rows; by apply Hcap). split.
      + apply by_device_holds; [| apply H0; intros ? ? []%elem_of_nil].
        intros r. rewrite order_by_rows, elem_of_by_device. tauto.
      + apply by_device_keeps. destruct Hs as [Hs|[_ Hs]]; [left; apply H1; by right |].
        right. rewrite order_by_rows. by apply elem_of_by_device.
    - split; [apply H0; intros ? ? []%elem_of_nil |]. apply H1. right.
      destruct Hs as [?|[[? [=]] _]]; done. }
  destruct Hk as [c Hc%od_get_elem]. exists (r_click_id row, c). split; [| done].
  destruct (Hh _ _ Hc) as (row' & Hr' & Ha' & Hid & ->). simpl.
  f_equal. apply Hu; congruence || done.
Qed.
End Complete.

Lemma unique_rows_clicks clicks app (l : list Click) :
  unique_rows clicks →
  (∀ c, c ∈ l → ∃ row, row ∈ clicks ∧ r_app_id row = app ∧ c = to_click row) →
  unique_ids l.
Proof.
  intros Hu Hl a b (ra & ? & ? & ->)%Hl (rb & ? & ? & ->)%Hl E. simpl in E.
  f_equal. apply Hu; congruence || done.
Qed.

Lemma elem_of_all_clicks clicks app c :
  c ∈ all_clicks clicks app ↔ ∃ row, row ∈ clicks ∧ r_app_id row = app ∧ c = to_click row.
Proof.
  unfold all_clicks. rewrite list_elem_of_fmap. setoid_rewrite elem_of_lfilter.
  setoid_rewrite N.eqb_eq. naive_solver.
Qed.

(** The engine decides on the loaded candidates as on every click of the app. *)
Lemma loaded_same_decision order_by clicks i w rid ids :
  OrdersNewestFirst order_by →
  unique_rows clicks →
  (∀ id, id ∈ ids ↔ rid = Some id ∨ i_click_id i = Some id) →
  (∀ h, i_device_hash i = Some h →
    (length (by_device_rows clicks (i_app_id i) h (i_installed_at i - w * day) (i_installed_at i))
     <= MAX_DEVICE_CANDIDATES)%nat) →
  let loaded :=
    load_candidates order_by clicks (i_app_id i) (i_installed_at i) w ids (i_device_hash i) in
  let d := attribute i loaded w rid false in
  let d' := attribute i (all_clicks clicks (i_app_id i)) w rid false in
  d_method d = d_method d' ∧ d_click d = d_click d'.
Proof.
  intros HO Hu Hids Hcap loaded d d'. subst d d'.
  assert (∀ c, c ∈ loaded → ∃ row, row ∈ clicks ∧ r_app_id row = i_app_id i ∧ c = to_click row) as Hl
    by (intros c; apply loaded_in_table; done).
  apply attribute_same_verdict.
  - by eapply unique_rows_clicks.
  - eapply unique_rows_clicks; [done |]. intros c. apply elem_of_all_clicks.
  - intros m oc. apply verdict_same_evidence. intros m' c He.
    unfold qualifies. split; intros (Hc & Hrest); (split; [| done]).
    + apply elem_of_all_clicks. by apply Hl.
    + apply elem_of_all_clicks in Hc as (row & Hr & Ha & ->). simpl in Hrest.
      apply loaded_if_sought; [done | done | done | done | lia | done |].
      destruct m'; simpl in He; [left; apply Hids; naive_solver.. | right | done | done].
      destruct He as [Hd He]. split; [done |]. rewrite <- He.
      destruct (r_device_hash row) as [[]|]; try done; destruct Hd; congruence.
Qed.

(** (C8) Loading by signal loses nothing while the limit is not reached: for an install
    whose referrer and SDK click ids are the ones looked up, and whose device has at most
    [MAX_DEVICE_CANDIDATES] clicks in the window (any number if it has no device digest), the
    engine reaches the same method and the same click on the loaded candidates as on every
    click of the app.  Beyond the limit it may not: [bots_crowd_out_the_click]. *)
Theorem load_candidates_complete order_by clicks i w rid ids :
  OrdersNewestFirst order_by →
  unique_rows clicks →
  (∀ id, id ∈ ids ↔ rid = Some id ∨ i_click_id i = Some id) →
  (∀ h, i_device_hash i = Some h →
    (length (by_device_rows clicks (i_app_id i) h (i_installed_at i - w * day) (i_installed_at i))
     <= MAX_DEVICE_CANDIDATES)%nat) →
  let loaded :=
    load_candidates order_by clicks (i_app_id i) (i_installed_at i) w ids (i_device_hash i) in
  let d := attribute i loaded w rid false in
  let d' := attribute i (all_clicks clicks (i_app_id i)) w rid false in
  d_method d = d_method d' ∧ d_click d = d_click d'.
Proof. exact (loaded_same_decision order_by clicks i w rid ids). Qed.

(** ** Witnesses *)

Definition newer (a b : ClickRow) : Prop := r_clicked_at b <= r_clicked_at a.

#[global] Instance newer_dec : RelDecision newer.
Proof. intros a b. unfold newer. apply _. Defined.

#[global] Instance newer_trans : Transitive newer.
Proof. intros a b c. unfold newer. lia. Qed.

#[global] Instance newer_total : Total newer.
Proof. intros a b. unfold newer. lia. Qed.

(** A database that sorts stably. *)
Definition ex_order_by (l : list ClickRow) : list ClickRow :=
  merge_sort newer l.

#[global] Instance ex_order_by_ok : OrdersNewestFirst ex_order_by.
Proof.
  split; intros l.
  - apply merge_sort_Permutation.
  - apply (StronglySorted_merge_sort newer).
Qed.

Definition ex_row (id : uuid) (t : Z) (dev : option bytes) (bot : bool) : ClickRow :=
  {| r_app_id := 9%N; r_click_id := id; r_clicked_at := t * second; r_campaign_id := Some 77%N;
     r_tracking_link_id := 5%N; r_device_hash := dev; r_is_bot := bot;
     r_deep_link := None; r_sub1 := None; r_sub2 := None; r_sub3 := None |}.

Definition ex_table : list ClickRow :=
  [ ex_row 1%N 900 (Some [7%N]) false; ex_row 2%N 950 (Some [7%N]) false;
    ex_row 3%N 960 (Some [8%N]) false; ex_row 4%N 970 None true ].

Lemma unique_rows_NoDup clicks : NoDup (r_click_id <$> clicks) → unique_rows clicks.
Proof.
  intros Hn a b (i & Hi)%list_elem_of_lookup (j & Hj)%list_elem_of_lookup _ E.
  assert (i = j) as ->; [| congruence].
  apply (NoDup_lookup (r_click_id <$> clicks) i j (r_click_id a)); [done | |];
    rewrite list_lookup_fmap; rewrite ?Hi, ?Hj; simpl; congruence.
Qed.

Lemma ex_table_unique : unique_rows ex_table.
Proof. apply unique_rows_NoDup, (bool_decide_unpack _). vm_compute. exact I. Qed.

(** The SDK named click 3, which another device made; the device's own clicks are loaded too. *)
Lemma load_candidates_complete_witness :
  let i := ex_install (Some 3%N) (Some [7%N]) in
  let loaded := load_candidates ex_order_by ex_table 9%N (1000 * second) 7 [3%N] (Some [7%N]) in
  length loaded = 3%nat ∧ d_method (attribute i (all_clicks ex_table 9%N) 7 None false) = CLICK_ID ∧
  d_method (attribute i loaded 7 None false) = d_method (attribute i (all_clicks ex_table 9%N) 7 None false) ∧
  d_click (attribute i loaded 7 None false) = d_click (attribute i (all_clicks ex_table 9%N) 7 None false).
Proof.
  split; [vm_compute; reflexivity |]. split; [vm_compute; reflexivity |].
  apply (load_candidates_complete ex_order_by ex_table (ex_install (Some 3%N) (Some [7%N])) 7
                   None [3%N] _ ex_table_unique).
  - intros id. split; [intros ->%list_elem_of_singleton; by right | intros [[=]|[= ->]]; by apply list_elem_of_singleton].
  - intros h [= <-]. apply Nat.leb_le. vm_compute. reflexivity.
Defined.

(** Fifty-one clicks of one device, the fifty most recent from bots: the cap is
    spent on clicks that can never win, the person's click is not loaded, and the
    install is reported organic although the table holds the click that earned it. *)
Definition crowded_table : list ClickRow :=
  ex_row 1%N 500 (Some [7%N]) false
  :: ((λ n, ex_row (N.of_nat (100 + n)) (600 + Z.of_nat n) (Some [7%N]) true) <$> seq 0 50).

Theorem bots_crowd_out_the_click :
  let i := ex_install None (Some [7%N]) in
  d_method (attribute i (load_candidates ex_order_by crowded_table 9%N (1000 * second) 7 []
                           (Some [7%N])) 7 None false) = ORGANIC ∧
  d_method (attribute i (all_clicks crowded_table 9%N) 7 None false) = DEVICE_MATCH.
Proof. split; vm_compute; reflexivity. Qed.
