(* ===== verification/Fraud.v ===== *)
(** * Rule-based fraud signals (mmp_attrib/fraud.py)

    [assess_install] scores one install, [assess_traffic] one tracking link over a
    window.  The sentence a signal carries for a support engineer is kept as the
    values it is built from ([Detail]); everything downstream (score, verdict, rule
    names) reads the rule and the severity only. *)

From Stdlib Require Import SpecFloat.
From S2P Require Import Prelude Ids Engine.

#[local] Open Scope Z_scope.

Definition FRAUD_CLICK_INJECTION_THRESHOLD : timedelta := 10 * second.
Definition LATE_CONVERSION_THRESHOLD : timedelta := 7 * day.
Definition FLOOD_MIN_ATTRIBUTED : Z := 50.
(** The double nearest to 0.60. *)
Definition FLOOD_LATE_SHARE : spec_float := S754_finite false 5404319552844595 (-53).
Definition CLICK_FARM_MIN_DEVICES : Z := 75.
Definition DEVICE_REPLAY_THRESHOLD : Z := 6.

Inductive Rule :=
| CLICK_INJECTION | LATE_CONVERSION | BOT_CLICK | DEVICE_REPLAY | CLICK_FLOODING | CLICK_FARM.

#[global] Instance Rule_eq_dec : EqDecision Rule.
Proof. solve_decision. Defined.

Definition rule_value (r : Rule) : pystr :=
  match r with
  | CLICK_INJECTION => py "click_injection"
  | LATE_CONVERSION => py "late_conversion"
  | BOT_CLICK => py "bot_click"
  | DEVICE_REPLAY => py "device_replay"
  | CLICK_FLOODING => py "click_flooding"
  | CLICK_FARM => py "click_farm"
  end.

Inductive Severity := LOW | MEDIUM | HIGH | CRITICAL.

Definition weight (s : Severity) : Z :=
  match s with LOW => 10 | MEDIUM => 25 | HIGH => 50 | CRITICAL => 100 end.

Inductive FraudVerdict := CLEAN | SUSPICIOUS | FRAUDULENT.

#[global] Instance FraudVerdict_eq_dec : EqDecision FraudVerdict.
Proof. solve_decision. Defined.

Definition SUSPICIOUS_AT : Z := 25.
Definition FRAUDULENT_AT : Z := 100.

Inductive Detail :=
| ClickAfterInstall
| OnlySeconds (gap : timedelta)
| DaysBetween (days : Z)
| KnownBotAgent
| LateShareOf (share : spec_float) (installs : Z)
| DevicesBehindOneAddress (devices : Z)
| InstallsOfOneDevice (installs : Z).

Record Signal := { rule : Rule; severity : Severity; detail : Detail }.

Record Assessment := { signals : list Signal }.

Definition score (a : Assessment) : Z :=
  fold_left (λ acc s, acc + weight (severity s)) (signals a) 0.

Definition verdict (a : Assessment) : FraudVerdict :=
  if score a >=? FRAUDULENT_AT then FRAUDULENT
  else if score a >=? SUSPICIOUS_AT then SUSPICIOUS
  else CLEAN.

Definition rules (a : Assessment) : list pystr := rule_value ∘ rule <$> signals a.

Record InstallContext := { click_to_install : option timedelta; click_is_bot : bool }.

Definition assess_install (context : InstallContext) : Assessment :=
  let gap_signals :=
    match click_to_install context with
    | Some gap =>
        if gap <? 0 then
          [{| rule := CLICK_INJECTION; severity := CRITICAL; detail := ClickAfterInstall |}]
        else if gap <? FRAUD_CLICK_INJECTION_THRESHOLD then
          [{| rule := CLICK_INJECTION; severity := CRITICAL; detail := OnlySeconds gap |}]
        else if gap >? LATE_CONVERSION_THRESHOLD then
          [{| rule := LATE_CONVERSION; severity := LOW; detail := DaysBetween (gap / day) |}]
        else []
    | None => []
    end in
  let bot_signals :=
    if click_is_bot context then
      [{| rule := BOT_CLICK; severity := HIGH; detail := KnownBotAgent |}]
    else [] in
  {| signals := gap_signals ++ bot_signals |}.

Record TrafficWindow := {
  attributed_installs : Z;
  late_installs : Z;
  max_devices_per_ip : Z;
  max_installs_per_device : Z
}.

(** The flooding test, in doubles as the code computes it. *)
Definition flooding (window : TrafficWindow) : bool :=
  (attributed_installs window >=? FLOOD_MIN_ATTRIBUTED)
  && Float64.leb FLOOD_LATE_SHARE
       (Float64.div (late_installs window) (attributed_installs window)).

Definition assess_traffic (window : TrafficWindow) : Assessment :=
  let flood :=
    if flooding window then
      [{| rule := CLICK_FLOODING; severity := CRITICAL;
          detail := LateShareOf
                      (Float64.div (late_installs window) (attributed_installs window))
                      (attributed_installs window) |}]
    else [] in
  let farm :=
    if max_devices_per_ip window >=? CLICK_FARM_MIN_DEVICES then
      [{| rule := CLICK_FARM; severity := HIGH;
          detail := DevicesBehindOneAddress (max_devices_per_ip window) |}]
    else [] in
  let replay :=
    if max_installs_per_device window >=? DEVICE_REPLAY_THRESHOLD then
      [{| rule := DEVICE_REPLAY; severity := MEDIUM;
          detail := InstallsOfOneDevice (max_installs_per_device window) |}]
    else [] in
  {| signals := flood ++ farm ++ replay |}.

(** What the attribution worker assesses for a decision. *)
Definition context_of (d : Decision) : InstallContext :=
  {| click_to_install := d_click_to_install d;
     click_is_bot := match d_click d with Some c => is_bot c | None => false end |}.

(** ** Lemmas *)

(** The verdict of one install, case by case. *)
Lemma assess_install_verdict ctx :
  verdict (assess_install ctx) =
  match click_to_install ctx with
  | Some gap =>
      if gap <? FRAUD_CLICK_INJECTION_THRESHOLD then FRAUDULENT
      else if click_is_bot ctx then SUSPICIOUS else CLEAN
  | None => if click_is_bot ctx then SUSPICIOUS else CLEAN
  end.
Proof.
  unfold assess_install, verdict, score. destruct ctx as [[gap|] []]; simpl; try done.
  all: destruct (Z.ltb_spec gap 0), (Z.ltb_spec gap FRAUD_CLICK_INJECTION_THRESHOLD); simpl; try done.
  all: try (unfold FRAUD_CLICK_INJECTION_THRESHOLD, second in *; lia).
  all: by destruct (gap >? LATE_CONVERSION_THRESHOLD).
Qed.

(** Per install, one click-injection finding condemns, and nothing else does: the
    verdict is fraudulent exactly when the click-to-install gap is under ten seconds
    (or negative), suspicious exactly when the click is a known bot's and the gap is
    plausible, and clean otherwise; a late conversion alone never raises it. *)
Theorem assess_install_classifies ctx :
  (verdict (assess_install ctx) = FRAUDULENT ↔
     ∃ gap, click_to_install ctx = Some gap ∧ gap < 10 * second) ∧
  (verdict (assess_install ctx) = SUSPICIOUS ↔
     click_is_bot ctx = true ∧ ∀ gap, click_to_install ctx = Some gap → 10 * second <= gap).
Proof.
  rewrite assess_install_verdict. unfold FRAUD_CLICK_INJECTION_THRESHOLD.
  destruct (click_to_install ctx) as [gap|], (click_is_bot ctx);
    try destruct (Z.ltb_spec gap (10 * second)); (split; split); intros; des;
    repeat match goal with F : ∀ g, Some _ = Some g → _ |- _ => specialize (F _ eq_refl) end;
    repeat split; intros; simplify_eq; eauto; lia.
Qed.

(** Over a link, only the flooding rule condemns: an assessment is fraudulent
    exactly when the flooding test fires, and a farm and a replay finding together
    stay suspicious. *)
Theorem assess_traffic_classifies w :
  (verdict (assess_traffic w) = FRAUDULENT ↔ flooding w = true) ∧
  (verdict (assess_traffic w) = CLEAN ↔
     flooding w = false ∧ max_devices_per_ip w < 75 ∧ max_installs_per_device w < 6).
Proof.
  unfold assess_traffic, verdict, score, CLICK_FARM_MIN_DEVICES, DEVICE_REPLAY_THRESHOLD.
  rewrite !Z.geb_leb. destruct (flooding w),
    (Z.leb_spec 75 (max_devices_per_ip w)), (Z.leb_spec 6 (max_installs_per_device w));
    simpl; (split; split); intros; des; simplify_eq; repeat split; try done; lia.
Qed.

(** The two injection checks agree: for every decision the engine takes without
    bots, the assessment is fraudulent exactly when the decision carries the
    suspected-injection flag; it is clean otherwise, so the bot rule never fires on
    this path. *)
Theorem assessment_agrees_with_engine i cs w r :
  let d := attribute i cs w r false in
  let a := assess_install (context_of d) in
  verdict a = (if d_suspected_injection d then FRAUDULENT else CLEAN) ∧
  BOT_CLICK ∉ (rule <$> signals a).
Proof.
  cbv zeta. set (d := attribute i cs w r false).
  assert (click_is_bot (context_of d) = false) as Hb.
  { simpl. destruct (d_click d) as [c|] eqn:E; [| done]. by apply attribute_not_bot in E as [? _]. }
  destruct (attribute_gap i cs w r false) as (_ & _ & Hg). fold d in Hg. split.
  - rewrite assess_install_verdict, Hb, Hg. simpl.
    unfold FRAUD_CLICK_INJECTION_THRESHOLD, CLICK_INJECTION_THRESHOLD.
    by destruct (d_click_to_install d); [case_match |].
  - unfold assess_install. rewrite Hb. cbn [click_to_install context_of].
    rewrite app_nil_r. repeat case_match; cbn [signals fmap list_fmap rule]; set_solver.
Qed.
