(* ===== verification/Store.v ===== *)
(** * Persisting attributions (mmp_attrib/store.py)

    The [attributions] table with its constraints (primary key, the partial unique
    index on [(app_id, install_key) WHERE superseded_by IS NULL], the deferrable
    foreign key of [superseded_by]) and the identity cache in Redis.

    [record] is one transaction of two phases, the read of the current row
    ([record_read]) and the writes up to the commit ([record_write]): other workers
    may commit between the two, so the second phase takes the table as it is by
    then.  [record_body] is the function when nobody interferes; [Race] interleaves
    any number of workers as a step relation. *)

From S2P Require Import Prelude Redis Ids Engine Fraud.

#[local] Open Scope Z_scope.

Definition method_value (m : Method) : pystr :=
  match m with
  | REFERRER => py "referrer"
  | CLICK_ID => py "click_id"
  | DEVICE_MATCH => py "device_match"
  | ORGANIC => py "organic"
  | PROBABILISTIC => py "probabilistic"
  end.

Record AttributionRow := {
  a_id : uuid;
  a_organization_id : uuid;
  a_app_id : uuid;
  a_install_key : pystr;
  a_anonymous_id : pystr;
  a_user_id : option pystr;
  a_click_id : option uuid;
  a_campaign_id : option uuid;
  a_tracking_link_id : option uuid;
  a_source : option pystr;
  a_medium : option pystr;
  a_method : Method;
  a_installed_at : datetime;
  a_attributed_at : datetime;
  a_window_days : Z;
  a_expires_at : datetime;
  a_fraud_score : Z;
  a_fraud_verdict : FraudVerdict;
  a_fraud_rules : option (list pystr);
  a_deep_link : option pystr;
  a_sub1 : option pystr;
  a_sub2 : option pystr;
  a_sub3 : option pystr;
  a_superseded_by : option uuid
}.

Record CachedAttribution := {
  ca_attribution_id : pystr;
  ca_click_id : option pystr;
  ca_campaign_id : option pystr;
  ca_tracking_link_id : option pystr;
  ca_method : pystr;
  ca_attributed_at : datetime;
  ca_expires_at : datetime;
  ca_sub1 : option pystr;
  ca_sub2 : option pystr;
  ca_sub3 : option pystr
}.

Record StoredAttribution := {
  sa_attribution_id : uuid;
  sa_method : Method;
  sa_created : bool;
  sa_superseded : option uuid
}.

Definition install_key (app_id : uuid) (anonymous_id : pystr) : pystr :=
  str_of_uuid app_id ++ py ":" ++ anonymous_id.

Definition IDENTITY_PREFIX : pystr := py "attr:".

Definition cache_key (app_id : uuid) (identity : pystr) : pystr :=
  IDENTITY_PREFIX ++ str_of_uuid app_id ++ py ":" ++ identity.

(** ** The table *)

(** [superseded_by IS NULL]. *)
Definition is_current (r : AttributionRow) : bool :=
  match a_superseded_by r with None => true | Some _ => false end.

Definition current_of (app : uuid) (key : pystr) (r : AttributionRow) : bool :=
  (a_app_id r =? app)%N && bool_decide (a_install_key r = key) && is_current r.

(** [CURRENT_SQL]. *)
Definition fetch_current (db : list AttributionRow) (app : uuid) (key : pystr)
    : option AttributionRow :=
  List.find (current_of app key) db.

Definition set_superseded (new : uuid) (r : AttributionRow) : AttributionRow :=
  {| a_id := a_id r; a_organization_id := a_organization_id r; a_app_id := a_app_id r;
     a_install_key := a_install_key r; a_anonymous_id := a_anonymous_id r;
     a_user_id := a_user_id r; a_click_id := a_click_id r; a_campaign_id := a_campaign_id r;
     a_tracking_link_id := a_tracking_link_id r; a_source := a_source r; a_medium := a_medium r;
     a_method := a_method r; a_installed_at := a_installed_at r;
     a_attributed_at := a_attributed_at r; a_window_days := a_window_days r;
     a_expires_at := a_expires_at r; a_fraud_score := a_fraud_score r;
     a_fraud_verdict := a_fraud_verdict r; a_fraud_rules := a_fraud_rules r;
     a_deep_link := a_deep_link r; a_sub1 := a_sub1 r; a_sub2 := a_sub2 r; a_sub3 := a_sub3 r;
     a_superseded_by := Some new |}.

(** [SUPERSEDE_SQL]. *)
Definition supersede (db : list AttributionRow) (new old : uuid) : list AttributionRow :=
  (λ r, if (a_id r =? old)%N then set_superseded new r else r) <$> db.

(** [INSERT .. ON CONFLICT DO NOTHING RETURNING id]: nothing is inserted when the id
    or the partial unique index is taken. *)
Definition insert_row (db : list AttributionRow) (r : AttributionRow)
    : bool * list AttributionRow :=
  if existsb (λ x, (a_id x =? a_id r)%N) db
     || existsb (current_of (a_app_id r) (a_install_key r)) db
  then (false, db) else (true, db ++ [r]).

(** The deferred foreign key, checked at commit. *)
Definition fk_ok (db : list AttributionRow) : bool :=
  forallb (λ r, match a_superseded_by r with
                | None => true
                | Some id => existsb (λ x, (a_id x =? id)%N) db
                end) db.

(** ** record *)

(** The arguments of [record], with the id [uuid7()] mints and the database's
    [now()]. *)
Record RecordArgs := {
  ra_organization_id : uuid;
  ra_app_id : uuid;
  ra_anonymous_id : pystr;
  ra_user_id : option pystr;
  ra_installed_at : datetime;
  ra_decision : Decision;
  ra_event_window_days : Z;
  ra_assessment : option Assessment;
  ra_new_id : uuid;
  ra_now : datetime
}.

Definition ra_key (args : RecordArgs) : pystr :=
  install_key (ra_app_id args) (ra_anonymous_id args).

Definition ra_expires_at (args : RecordArgs) : datetime :=
  ra_installed_at args + ra_event_window_days args * day.

(** The row of [INSERT_SQL]. *)
Definition row_of (args : RecordArgs) : AttributionRow :=
  let decision := ra_decision args in
  let assessment := default {| signals := [] |} (ra_assessment args) in
  {| a_id := ra_new_id args;
     a_organization_id := ra_organization_id args;
     a_app_id := ra_app_id args;
     a_install_key := ra_key args;
     a_anonymous_id := ra_anonymous_id args;
     a_user_id := ra_user_id args;
     a_click_id := d_click_id decision;
     a_campaign_id := d_campaign_id decision;
     a_tracking_link_id := tracking_link_id <$> d_click decision;
     a_source := d_click decision ≫= source;
     a_medium := d_click decision ≫= medium;
     a_method := d_method decision;
     a_installed_at := ra_installed_at args;
     a_attributed_at := ra_now args;
     a_window_days := d_window_days decision;
     a_expires_at := ra_expires_at args;
     a_fraud_score := score assessment;
     a_fraud_verdict := verdict assessment;
     a_fraud_rules := match signals assessment with [] => None | _ => Some (rules assessment) end;
     a_deep_link := d_click decision ≫= deep_link;
     a_sub1 := d_click decision ≫= sub1;
     a_sub2 := d_click decision ≫= sub2;
     a_sub3 := d_click decision ≫= sub3;
     a_superseded_by := None |}.

Definition record_read (db : list AttributionRow) (args : RecordArgs) : option AttributionRow :=
  fetch_current db (ra_app_id args) (ra_key args).

Inductive StoreError := ForeignKeyViolation | RowVanished.

(** From the read to the commit.  [Err] is the exception the commit raises: the
    transaction is rolled back and the table is the one before it.  The [bool] says
    whether the row was inserted, which is when the cache is written. *)
Definition record_write (db : list AttributionRow) (args : RecordArgs)
    (existing : option AttributionRow)
    : result StoreError (list AttributionRow * StoredAttribution) :=
  match existing with
  | Some e =>
      if negb (should_supersede (a_method e) (d_method (ra_decision args))) then
        Ok (db, {| sa_attribution_id := a_id e; sa_method := a_method e;
                   sa_created := false; sa_superseded := None |})
      else
        let db1 := supersede db (ra_new_id args) (a_id e) in
        let '(inserted, db2) := insert_row db1 (row_of args) in
        if negb (fk_ok db2) then Err ForeignKeyViolation
        else if inserted then
          Ok (db2, {| sa_attribution_id := ra_new_id args; sa_method := d_method (ra_decision args);
                      sa_created := true; sa_superseded := Some (a_id e) |})
        else
          match fetch_current db2 (ra_app_id args) (ra_key args) with
          | Some c => Ok (db2, {| sa_attribution_id := a_id c; sa_method := a_method c;
                                  sa_created := false; sa_superseded := None |})
          | None => Err RowVanished
          end
  | None =>
      let '(inserted, db2) := insert_row db (row_of args) in
      if negb (fk_ok db2) then Err ForeignKeyViolation
      else if inserted then
        Ok (db2, {| sa_attribution_id := ra_new_id args; sa_method := d_method (ra_decision args);
                    sa_created := true; sa_superseded := None |})
      else
        match fetch_current db2 (ra_app_id args) (ra_key args) with
        | Some c => Ok (db2, {| sa_attribution_id := a_id c; sa_method := a_method c;
                                sa_created := false; sa_superseded := None |})
        | None => Err RowVanished
        end
  end.

(** ** The identity cache *)

Definition cache (redis : store CachedAttribution) (now : datetime) (args : RecordArgs)
    : store CachedAttribution :=
  let decision := ra_decision args in
  let ttl := int_total_seconds (ra_expires_at args - now) in
  if ttl <=? 0 then redis
  else
    rset_ex now (cache_key (ra_app_id args) (ra_anonymous_id args))
      {| ca_attribution_id := str_of_uuid (ra_new_id args);
         ca_click_id := str_of_uuid <$> d_click_id decision;
         ca_campaign_id := str_of_uuid <$> d_campaign_id decision;
         ca_tracking_link_id := str_of_uuid ∘ tracking_link_id <$> d_click decision;
         ca_method := method_value (d_method decision);
         ca_attributed_at := now;
         ca_expires_at := ra_expires_at args;
         ca_sub1 := d_click decision ≫= sub1;
         ca_sub2 := d_click decision ≫= sub2;
         ca_sub3 := d_click decision ≫= sub3 |} ttl redis.

(** [record] when no other worker commits between its read and its writes; [now] is
    the clock [cache] reads. *)
Definition record (db : list AttributionRow) (redis : store CachedAttribution)
    (now : datetime) (args : RecordArgs)
    : result StoreError (list AttributionRow * store CachedAttribution * StoredAttribution) :=
  match record_write db args (record_read db args) with
  | Ok (db', stored) =>
      Ok (db', if sa_created stored then cache redis now args else redis, stored)
  | Err e => Err e
  end.

(** The cache entry rebuilt from a row. *)
Definition rebuilt (row : AttributionRow) : CachedAttribution :=
  {| ca_attribution_id := str_of_uuid (a_id row);
     ca_click_id := str_of_uuid <$> a_click_id row;
     ca_campaign_id := str_of_uuid <$> a_campaign_id row;
     ca_tracking_link_id := str_of_uuid <$> a_tracking_link_id row;
     ca_method := method_value (a_method row);
     ca_attributed_at := a_attributed_at row;
     ca_expires_at := a_expires_at row;
     ca_sub1 := a_sub1 row;
     ca_sub2 := a_sub2 row;
     ca_sub3 := a_sub3 row |}.

Definition lookup_attribution (redis : store CachedAttribution) (db : list AttributionRow)
    (now : datetime) (app_id : uuid) (anonymous_id : pystr)
    : option CachedAttribution * store CachedAttribution :=
  match rget now (cache_key app_id anonymous_id) redis with
  | Some cached => (Some cached, redis)
  | None =>
      match fetch_current db app_id (install_key app_id anonymous_id) with
      | None => (None, redis)
      | Some row =>
          let ttl := int_total_seconds (a_expires_at row - now) in
          (Some (rebuilt row),
           if ttl >? 0 then rset_ex now (cache_key app_id anonymous_id) (rebuilt row) ttl redis
           else redis)
      end
  end.

Definition link_user (redis : store CachedAttribution) (now : datetime) (app_id : uuid)
    (anonymous_id user_id : pystr) : store CachedAttribution :=
  let source := cache_key app_id anonymous_id in
  match rget now source redis with
  | None => redis
  | Some payload =>
      let ttl := rttl now source redis in
      if ttl <=? 0 then redis
      else rset_ex now (cache_key app_id (py "user:" ++ user_id)) payload ttl redis
  end.

(** ** The invariant of the table *)

(** Two rows with the same id are the same row; one current row per install; and a
    superseded row points at a row of the same install with better evidence. *)
Record table_ok (db : list AttributionRow) : Prop := {
  ok_ids : ∀ a b, a ∈ db → b ∈ db → a_id a = a_id b → a = b;
  ok_one_current : ∀ a b, a ∈ db → b ∈ db →
    a_app_id a = a_app_id b → a_install_key a = a_install_key b →
    is_current a = true → is_current b = true → a = b;
  ok_chain : ∀ a id, a ∈ db → a_superseded_by a = Some id →
    ∃ b, b ∈ db ∧ a_id b = id ∧ a_app_id b = a_app_id a ∧
         a_install_key b = a_install_key a ∧ FIDELITY (a_method a) < FIDELITY (a_method b)
}.

(** A row a worker read and that is still there, perhaps superseded by now. *)
Definition still_there (db : list AttributionRow) (e : AttributionRow) : Prop :=
  ∃ r, r ∈ db ∧ a_id r = a_id e ∧ a_method r = a_method e ∧
       a_app_id r = a_app_id e ∧ a_install_key r = a_install_key e.

(** What a worker may hold between its read and its writes. *)
Definition read_ok (db : list AttributionRow) (args : RecordArgs)
    (existing : option AttributionRow) : Prop :=
  match existing with
  | None => True
  | Some e => still_there db e ∧ a_app_id e = ra_app_id args ∧ a_install_key e = ra_key args
  end.

(** The ids a write mints are fresh. *)
Definition fresh_id (db : list AttributionRow) (id : uuid) : Prop := ∀ r, r ∈ db → a_id r ≠ id.

(** ** Lemmas *)

Lemma current_of_spec app key r :
  current_of app key r = true ↔
  a_app_id r = app ∧ a_install_key r = key ∧ is_current r = true.
Proof. unfold current_of. rewrite !andb_true_iff, N.eqb_eq, bool_decide_eq_true. tauto. Qed.

Lemma fetch_current_some db app key r :
  fetch_current db app key = Some r →
  r ∈ db ∧ a_app_id r = app ∧ a_install_key r = key ∧ is_current r = true.
Proof. intros [? ?%current_of_spec]%find_elem. tauto. Qed.

Lemma existsb_false_elem {A} (p : A → bool) (l : list A) :
  existsb p l = false → ∀ x, x ∈ l → p x = false.
Proof.
  intros H x Hx. destruct (p x) eqn:E; [| done].
  assert (existsb p l = true) as ?; [| congruence].
  apply existsb_exists. exists x. by rewrite <- list_elem_of_In.
Qed.

Lemma existsb_true_elem {A} (p : A → bool) (l : list A) :
  existsb p l = true ↔ ∃ x, x ∈ l ∧ p x = true.
Proof. rewrite existsb_exists. by setoid_rewrite list_elem_of_In. Qed.

Lemma elem_of_supersede db new old r :
  r ∈ supersede db new old ↔
  (r ∈ db ∧ a_id r ≠ old) ∨ (∃ r0, r0 ∈ db ∧ a_id r0 = old ∧ r = set_superseded new r0).
Proof.
  unfold supersede. rewrite list_elem_of_fmap. split.
  - intros (x & -> & Hx). destruct (N.eqb_spec (a_id x) old); eauto.
  - intros [[H Hne]|(r0 & H & <- & ->)].
    + exists r. by apply N.eqb_neq in Hne as ->.
    + exists r0. by rewrite N.eqb_refl.
Qed.

Lemma insert_row_true db r db' :
  insert_row db r = (true, db') →
  db' = db ++ [r] ∧ (∀ x, x ∈ db → a_id x ≠ a_id r) ∧
  (∀ x, x ∈ db → a_app_id x = a_app_id r → a_install_key x = a_install_key r →
     is_current x = false).
Proof.
  unfold insert_row. destruct (existsb _ db || _) eqn:E; [done |].
  apply orb_false_iff in E as [E1 E2]. intros H. simplify_eq. split_and!; [done | |].
  - intros x Hx. apply (existsb_false_elem _ _ E1) in Hx. by apply N.eqb_neq in Hx.
  - intros x Hx Ha Hk. apply (existsb_false_elem _ _ E2) in Hx.
    destruct (is_current x) eqn:Hc; [| done].
    rewrite (proj2 (current_of_spec _ _ _)) in Hx; done.
Qed.

Lemma insert_row_false db r db' : insert_row db r = (false, db') → db' = db.
Proof. unfold insert_row. case_match; naive_solver. Qed.

Lemma insert_row_elem db r b db' x : insert_row db r = (b, db') → x ∈ db → x ∈ db'.
Proof.
  destruct b; [intros (-> & _)%insert_row_true | intros ->%insert_row_false]; [| done].
  rewrite elem_of_app. by left.
Qed.

Lemma fk_ok_elem db r id :
  fk_ok db = true → r ∈ db → a_superseded_by r = Some id → ∃ x, x ∈ db ∧ a_id x = id.
Proof.
  unfold fk_ok. rewrite forallb_forall. intros H Hr%list_elem_of_In Hs. specialize (H r Hr).
  rewrite Hs in H. apply existsb_true_elem in H as (x & ? & ?%N.eqb_eq). eauto.
Qed.

Lemma table_ok_nil : table_ok [].
Proof. split; intros; by destruct (not_elem_of_nil a). Qed.

(** A fresh row of an install that has no current row may be appended. *)
Lemma table_ok_insert db r db' :
  table_ok db → a_superseded_by r = None → insert_row db r = (true, db') → table_ok db'.
Proof.
  intros [Hi Ho Hc] Hr (-> & Hid & Hcur)%insert_row_true. split.
  - intros a b [Ha| ->%list_elem_of_singleton]%elem_of_app [Hb| ->%list_elem_of_singleton]%elem_of_app E.
    + by apply Hi.
    + by apply Hid in Ha.
    + by apply Hid in Hb.
    + done.
  - intros a b [Ha| ->%list_elem_of_singleton]%elem_of_app [Hb| ->%list_elem_of_singleton]%elem_of_app ????.
    + by apply Ho.
    + rewrite (Hcur a Ha) in *; done.
    + rewrite (Hcur b Hb) in *; done.
    + done.
  - intros a id [Ha| ->%list_elem_of_singleton]%elem_of_app Hs; [| congruence].
    destruct (Hc a id Ha Hs) as (b & Hb & ?). exists b. rewrite elem_of_app. eauto.
Qed.

(** The row a worker read, as the table has it now. *)
Lemma still_there_now db e r :
  table_ok db → still_there db e → r ∈ db → a_id r = a_id e →
  a_method r = a_method e ∧ a_app_id r = a_app_id e ∧ a_install_key r = a_install_key e.
Proof.
  intros Hok (r0 & Hr0 & ? & ? & ? & ?) Hr E.
  assert (r = r0) as -> by (apply (ok_ids db Hok); congruence). done.
Qed.

(** Superseding a row and inserting its successor keeps the invariant, whether the
    row was still current or not. *)
Lemma table_ok_supersede db e r db' :
  table_ok db → still_there db e → a_superseded_by r = None →
  a_app_id r = a_app_id e → a_install_key r = a_install_key e →
  FIDELITY (a_method e) < FIDELITY (a_method r) →
  insert_row (supersede db (a_id r) (a_id e)) r = (true, db') → table_ok db'.
Proof.
  intros Hok Hst Hr Ha Hk Hf (-> & Hid & Hcur)%insert_row_true.
  pose proof (still_there_now db e) as Hnow.
  assert (∀ x, x ∈ supersede db (a_id r) (a_id e) → ∃ y, y ∈ db ∧ a_id x = a_id y ∧
    a_app_id x = a_app_id y ∧ a_install_key x = a_install_key y ∧ a_method x = a_method y ∧
    (x = y ∧ a_id y ≠ a_id e ∨ a_id y = a_id e ∧ x = set_superseded (a_id r) y)) as Hsup.
  { intros x [[Hx ?]|(y & Hy & ? & ->)]%elem_of_supersede; [exists x | exists y];
      split_and!; auto. }
  assert (∀ y, y ∈ db → ∃ x, x ∈ supersede db (a_id r) (a_id e) ∧ a_id x = a_id y ∧
    a_app_id x = a_app_id y ∧ a_install_key x = a_install_key y ∧ a_method x = a_method y) as Hkeep.
  { intros y Hy. destruct (decide (a_id y = a_id e)).
    - exists (set_superseded (a_id r) y). split_and!; [| done..]. apply elem_of_supersede. eauto.
    - exists y. split_and!; [| done..]. apply elem_of_supersede. eauto. }
  split.
  - intros a b [Hxa| ->%list_elem_of_singleton]%elem_of_app [Hxb| ->%list_elem_of_singleton]%elem_of_app E.
    + destruct (Hsup a Hxa) as (a' & Ha' & Ea & _ & _ & _ & Da).
      destruct (Hsup b Hxb) as (b' & Hb' & Eb & _ & _ & _ & Db).
      assert (a' = b') as -> by (apply (ok_ids db Hok); congruence).
      destruct Da as [[-> ?]|[? ->]], Db as [[-> ?]|[? ->]]; done.
    + by apply Hid in Hxa.
    + by apply Hid in Hxb.
    + done.
  - intros a b [Hxa| ->%list_elem_of_singleton]%elem_of_app [Hxb| ->%list_elem_of_singleton]%elem_of_app ?? Ca Cb.
    + destruct (Hsup a Hxa) as (a' & Ha' & Ea & _ & _ & _ & Da).
      destruct (Hsup b Hxb) as (b' & Hb' & Eb & _ & _ & _ & Db).
      destruct Da as [[-> ?]|[? ->]]; [| done]. destruct Db as [[-> ?]|[? ->]]; [| done].
      by apply (ok_one_current db Hok).
    + rewrite (Hcur a Hxa) in *; done.
    + rewrite (Hcur b Hxb) in *; done.
    + done.
  - intros a id [Hxa| ->%list_elem_of_singleton]%elem_of_app Hs; [| congruence].
    destruct (Hsup a Hxa) as (y & Hy & ? & ? & ? & Em & [[-> ?]|[Eid ->]]).
    + destruct (ok_chain db Hok y id Hy Hs) as (b & Hb & ? & ? & ? & ?).
      destruct (Hkeep b Hb) as (x & ? & ? & ? & ? & Emx).
      exists x. rewrite elem_of_app, Emx. split_and!; [by left | congruence..| done].
    + destruct (Hnow y Hok Hst Hy Eid) as (Em' & ? & ?).
      simpl in Hs. injection Hs as <-. exists r. rewrite elem_of_app.
      split_and!; [right; set_solver | done | simpl; congruence.. |]. simpl. rewrite Em'. done.
Qed.

(** A write that commits keeps the invariant, whatever other workers committed since
    the worker's read; a write that loses the insert after superseding is rolled
    back by the foreign key. *)
Lemma record_write_ok db args existing db' stored :
  table_ok db → fresh_id db (ra_new_id args) → read_ok db args existing →
  record_write db args existing = Ok (db', stored) → table_ok db'.
Proof.
  intros Hok Hfr Hrd. unfold record_write. destruct existing as [e|].
  - destruct Hrd as (Hst & Ha & Hk).
    destruct (should_supersede _ _) eqn:Es; simpl; [| intros; by simplify_eq].
    destruct (insert_row _ _) as [ins db2] eqn:Ei.
    destruct (fk_ok db2) eqn:Efk; simpl; [| done]. destruct ins.
    + intros H. simplify_eq. eapply (table_ok_supersede db e (row_of args)); [done | done | done
        | done | done | | exact Ei].
      unfold should_supersede in Es. simpl. lia.
    + apply insert_row_false in Ei as ->. destruct Hst as (r & Hr & Eid & _).
      destruct (fk_ok_elem _ (set_superseded (ra_new_id args) r) (ra_new_id args) Efk)
        as (x & Hx & Ex); [apply elem_of_supersede; eauto | done |].
      apply elem_of_supersede in Hx as [[Hx _]|(y & Hy & _ & ->)];
        [by apply Hfr in Hx | by apply Hfr in Hy].
  - destruct (insert_row _ _) as [ins db2] eqn:Ei.
    destruct (fk_ok db2); simpl; [| done]. destruct ins.
    + intros H. simplify_eq. by eapply (table_ok_insert db (row_of args)).
    + apply insert_row_false in Ei as ->. case_match; intros; by simplify_eq.
Qed.

(** Rows are never lost, and keep what identifies them. *)
Lemma record_write_keeps db args existing db' stored e :
  record_write db args existing = Ok (db', stored) → still_there db e → still_there db' e.
Proof.
  intros H (r & Hr & ? & ? & ? & ?).
  assert (∀ db1 b, insert_row db1 (row_of args) = (b, db') →
    (∃ x, x ∈ db1 ∧ a_id x = a_id e ∧ a_method x = a_method e ∧ a_app_id x = a_app_id e ∧
          a_install_key x = a_install_key e) → still_there db' e) as Hins.
  { intros db1 b Hi (x & Hx & ?). exists x. split; [by eapply insert_row_elem | done]. }
  assert (∀ old, ∃ x, x ∈ supersede db (ra_new_id args) old ∧ a_id x = a_id e ∧
    a_method x = a_method e ∧ a_app_id x = a_app_id e ∧ a_install_key x = a_install_key e) as Hsup.
  { intros old. destruct (decide (a_id r = old)).
    - exists (set_superseded (ra_new_id args) r). split; [apply elem_of_supersede; eauto | done].
    - exists r. split; [apply elem_of_supersede; eauto | done]. }
  revert H. unfold record_write.
  repeat (case_match; simplify_eq/=); intros; simplify_eq; eauto 10; exists r; done.
Qed.

Lemma fetch_current_of db r :
  table_ok db → r ∈ db → is_current r = true →
  fetch_current db (a_app_id r) (a_install_key r) = Some r.
Proof.
  intros Hok Hr Hc. apply find_unique; [| done | by apply current_of_spec].
  intros a b Ha Hb (? & ? & ?)%current_of_spec (? & ? & ?)%current_of_spec.
  apply (ok_one_current db Hok); congruence.
Qed.

(** Every install with a row has a current one, and it carries the best evidence of
    all the rows of that install. *)
Lemma current_is_best db r :
  table_ok db → r ∈ db → ∃ c,
    fetch_current db (a_app_id r) (a_install_key r) = Some c ∧
    FIDELITY (a_method r) <= FIDELITY (a_method c).
Proof.
  intros Hok. assert (∀ m, FIDELITY m <= 4) as Hmax by (by intros []).
  remember (Z.to_nat (4 - FIDELITY (a_method r))) as n eqn:En. revert r En.
  induction n as [n IH] using lt_wf_ind. intros r En Hr.
  destruct (a_superseded_by r) as [id|] eqn:Es.
  - destruct (ok_chain db Hok r id Hr Es) as (b & Hb & _ & Ha & Hk & Hf).
    destruct (IH (Z.to_nat (4 - FIDELITY (a_method b)))) with (r := b) as (c & Hc & ?);
      [specialize (Hmax (a_method b)); lia | done | done |].
    exists c. rewrite <- Ha, <- Hk. split; [done | lia].
  - exists r. split; [| lia]. apply fetch_current_of; [done | done |].
    unfold is_current. by rewrite Es.
Qed.

(** ** Many workers at once *)

(** A worker between its read and its commit. *)
Record Pending := { p_args : RecordArgs; p_read : option AttributionRow }.

Record Race := { r_db : list AttributionRow; r_pending : list Pending }.

(** [Begin] reads; [Commit] and [Rollback] end any pending worker, in any order. *)
Inductive race_step : Race → Race → Prop :=
| Begin s args :
    fresh_id (r_db s) (ra_new_id args) →
    (∀ p, p ∈ r_pending s → ra_new_id (p_args p) ≠ ra_new_id args) →
    race_step s {| r_db := r_db s;
                   r_pending := {| p_args := args; p_read := record_read (r_db s) args |}
                                :: r_pending s |}
| Commit s before p after db' stored :
    r_pending s = before ++ p :: after →
    record_write (r_db s) (p_args p) (p_read p) = Ok (db', stored) →
    race_step s {| r_db := db'; r_pending := before ++ after |}
| Rollback s before p after e :
    r_pending s = before ++ p :: after →
    record_write (r_db s) (p_args p) (p_read p) = Err e →
    race_step s {| r_db := r_db s; r_pending := before ++ after |}.

Record race_ok (s : Race) : Prop := {
  rok_table : table_ok (r_db s);
  rok_read : ∀ p, p ∈ r_pending s → read_ok (r_db s) (p_args p) (p_read p);
  rok_fresh : ∀ p, p ∈ r_pending s → fresh_id (r_db s) (ra_new_id (p_args p));
  rok_nodup : NoDup ((λ p, ra_new_id (p_args p)) <$> r_pending s)
}.

Lemma record_write_ids db args existing db' stored r :
  record_write db args existing = Ok (db', stored) → r ∈ db' →
  a_id r = ra_new_id args ∨ ∃ r0, r0 ∈ db ∧ a_id r0 = a_id r.
Proof.
  assert (∀ db1 b db2, insert_row db1 (row_of args) = (b, db2) → r ∈ db2 →
    a_id r = ra_new_id args ∨ r ∈ db1) as Hins.
  { intros db1 [] db2; [intros (-> & _)%insert_row_true | intros ->%insert_row_false; by right].
    intros [?| ->%list_elem_of_singleton]%elem_of_app; [by right | by left]. }
  assert (∀ old, r ∈ supersede db (ra_new_id args) old → ∃ r0, r0 ∈ db ∧ a_id r0 = a_id r) as Hsup.
  { intros old [[? _]|(r0 & ? & _ & ->)]%elem_of_supersede; eauto. }
  unfold record_write.
  repeat (case_match; simplify_eq/=); intros; simplify_eq; eauto;
    match goal with H : insert_row _ _ = _, H' : r ∈ _ |- _ =>
      destruct (Hins _ _ _ H H'); eauto end.
Qed.

Lemma record_read_ok db args : read_ok db args (record_read db args).
Proof.
  unfold read_ok, record_read. destruct (fetch_current _ _ _) as [e|] eqn:E; [| done].
  apply fetch_current_some in E as (? & ? & ? & _). split_and!; [| done | done].
  by exists e.
Qed.

Lemma race_step_ok s s' : race_step s s' → race_ok s → race_ok s'.
Proof.
  intros Hs [Ht Hrd Hfr Hnd]. destruct Hs as [s args Hf Hne | s bf p af db' st Hp Hw
    | s bf p af e Hp Hw]; split; simpl in *.
  - done.
  - intros q [->|Hq]%elem_of_cons; simpl; [apply record_read_ok | auto].
  - intros q [->|Hq]%elem_of_cons; simpl; auto.
  - apply NoDup_cons. split; [| done].
    rewrite list_elem_of_fmap. intros (q & E & Hq). by apply (Hne q).
  - eapply record_write_ok; [done | | | done]; [apply Hfr | apply Hrd]; rewrite Hp; set_solver.
  - intros q Hq. assert (q ∈ r_pending s) as Hq' by (rewrite Hp; set_solver).
    specialize (Hrd q Hq'). unfold read_ok in *. destruct (p_read q) as [e|]; [| done].
    destruct Hrd as (? & ?). split; [by eapply record_write_keeps | done].
  - intros q Hq r Hr E. assert (q ∈ r_pending s) as Hq' by (rewrite Hp; set_solver).
    destruct (record_write_ids _ _ _ _ _ r Hw Hr) as [E'|(r0 & Hr0 & E')].
    + rewrite Hp in Hnd. rewrite fmap_app, fmap_cons, NoDup_app, NoDup_cons in Hnd.
      destruct Hnd as (_ & Hn1 & Hn2 & _). apply elem_of_app in Hq as [Hq|Hq].
      * apply (Hn1 (ra_new_id (p_args q))); [apply list_elem_of_fmap; by exists q |].
        rewrite <- E, E'. left.
      * apply Hn2. rewrite <- E', E. apply list_elem_of_fmap. by exists q.
    + apply (Hfr q Hq' r0 Hr0). congruence.
  - rewrite Hp in Hnd. rewrite fmap_app, fmap_cons in Hnd. rewrite fmap_app.
    revert Hnd. rewrite !NoDup_app, NoDup_cons. set_solver.
  - done.
  - intros q Hq. apply Hrd. rewrite Hp. set_solver.
  - intros q Hq. apply Hfr. rewrite Hp. set_solver.
  - rewrite Hp in Hnd. rewrite fmap_app, fmap_cons in Hnd. rewrite fmap_app.
    revert Hnd. rewrite !NoDup_app, NoDup_cons. set_solver.
Qed.

Definition race_init : Race := {| r_db := []; r_pending := [] |}.

Lemma race_init_ok : race_ok race_init.
Proof.
  split; simpl; [apply table_ok_nil | intros p Hp; set_solver.. | constructor].
Qed.

Lemma race_ok_reachable s s' : rtc race_step s s' → race_ok s → race_ok s'.
Proof. induction 1; eauto using race_step_ok. Qed.

Lemma race_keeps s s' e :
  rtc race_step s s' → still_there (r_db s) e → still_there (r_db s') e.
Proof.
  induction 1 as [|s1 s2 s3 H _ IH]; [done |]. intros Hst. apply IH.
  destruct H; simpl in *; [done | by eapply record_write_keeps | done].
Qed.

(** (C2) However the transactions of any number of attribution workers interleave,
    an install whose attribution was recorded at some point has, from then on,
    exactly one current row, and the evidence behind that row never gets worse. *)
Theorem current_attribution_never_downgrades s s' app key c :
  rtc race_step race_init s → rtc race_step s s' →
  fetch_current (r_db s) app key = Some c →
  ∃ c', fetch_current (r_db s') app key = Some c' ∧
        FIDELITY (a_method c) <= FIDELITY (a_method c') ∧
        ∀ r, r ∈ r_db s' → a_app_id r = app → a_install_key r = key →
             is_current r = true → r = c'.
Proof.
  intros H1 H2 Hc. assert (race_ok s') as Hok.
  { eapply race_ok_reachable; [| apply race_init_ok]. by etrans. }
  apply fetch_current_some in Hc as (Hin & <- & <- & _).
  destruct (race_keeps s s' c H2) as (r & Hr & _ & Em & Ea & Ek).
  { by exists c. }
  destruct (current_is_best (r_db s') r) as (c' & Hc' & Hf); [apply Hok | done |].
  rewrite Ea, Ek, Em in *. exists c'. split_and!; [done | done |].
  intros x Hx Hxa Hxk Hxc. pose proof (fetch_current_of (r_db s') x (rok_table _ Hok) Hx Hxc).
  congruence.
Qed.

(** ** Deliveries one after the other *)

Lemma fk_ok_table db : table_ok db → fk_ok db = true.
Proof.
  intros Hok. unfold fk_ok. apply forallb_forall. intros r Hr%list_elem_of_In.
  destruct (a_superseded_by r) as [id|] eqn:E; [| done].
  destruct (ok_chain db Hok r id Hr E) as (b & Hb & ? & _).
  apply existsb_true_elem. exists b. by rewrite N.eqb_eq.
Qed.

Lemma insert_row_free db r :
  fresh_id db (a_id r) →
  (∀ x, x ∈ db → a_app_id x = a_app_id r → a_install_key x = a_install_key r →
     is_current x = false) →
  insert_row db r = (true, db ++ [r]).
Proof.
  intros Hf Hn. unfold insert_row. destruct (existsb _ db || _) eqn:E; [| done].
  apply orb_true_iff in E as [E|E]; apply existsb_true_elem in E as (x & Hx & E).
  - apply N.eqb_eq in E. by apply Hf in Hx.
  - apply current_of_spec in E as (? & ? & E). rewrite Hn in E; done.
Qed.

Lemma fetch_current_iff db app key r :
  table_ok db →
  fetch_current db app key = Some r ↔
  r ∈ db ∧ a_app_id r = app ∧ a_install_key r = key ∧ is_current r = true.
Proof.
  intros Hok. split; [apply fetch_current_some |].
  intros (? & <- & <- & ?). by apply fetch_current_of.
Qed.

Lemma fetch_current_none db app key :
  fetch_current db app key = None ↔
  ∀ r, r ∈ db → a_app_id r = app → a_install_key r = key → is_current r = false.
Proof.
  unfold fetch_current. rewrite find_none_iff. split.
  - intros H r Hr Ha Hk. specialize (H r Hr). destruct (is_current r) eqn:E; [| done].
    by rewrite (proj2 (current_of_spec app key r)) in H.
  - intros H r Hr. destruct (current_of app key r) eqn:E; [| done].
    apply current_of_spec in E as (? & ? & E). rewrite H in E; done.
Qed.

(** The current row of an install after one delivery for it. *)
Definition upgrade (current : option AttributionRow) (args : RecordArgs) : option AttributionRow :=
  match current with
  | Some e =>
      if should_supersede (a_method e) (d_method (ra_decision args))
      then Some (row_of args) else Some e
  | None => Some (row_of args)
  end.

Definition same_install (app : uuid) (key : pystr) (args : RecordArgs) : bool :=
  (ra_app_id args =? app)%N && bool_decide (ra_key args = key).

Lemma same_install_spec app key args :
  same_install app key args = true ↔ ra_app_id args = app ∧ ra_key args = key.
Proof. unfold same_install. by rewrite andb_true_iff, N.eqb_eq, bool_decide_eq_true. Qed.

(** Appending a current row to a table, after rows of its install were superseded. *)
Lemma fetch_after_insert db db1 r :
  table_ok db → table_ok (db1 ++ [r]) → is_current r = true →
  (∀ x, a_app_id x ≠ a_app_id r ∨ a_install_key x ≠ a_install_key r →
     is_current x = true → x ∈ db1 ↔ x ∈ db) →
  ∀ app key, fetch_current (db1 ++ [r]) app key =
    if (a_app_id r =? app)%N && bool_decide (a_install_key r = key) then Some r
    else fetch_current db app key.
Proof.
  intros Hok Hok' Hc Hsame app key.
  destruct ((a_app_id r =? app)%N && _) eqn:E.
  - bprop. apply fetch_current_iff; [done |]. split_and!; [set_solver | done..].
  - assert (a_app_id r ≠ app ∨ a_install_key r ≠ key) as Hne.
    { apply andb_false_iff in E as [?%N.eqb_neq|?%bool_decide_eq_false]; auto. }
    apply option_eq. intros x. rewrite !fetch_current_iff by done.
    rewrite elem_of_app, list_elem_of_singleton. split.
    + intros ([Hx| ->] & <- & <- & ?); [| naive_solver].
      split_and!; [| done..]. apply Hsame; [naive_solver | done | done].
    + intros (Hx & <- & <- & ?). split_and!; [left | done..].
      apply Hsame; [naive_solver | done | done].
Qed.

(** One delivery with a fresh id always succeeds, upgrades its own install and
    leaves every other install as it was. *)
Lemma record_step db redis now args :
  table_ok db → fresh_id db (ra_new_id args) →
  ∃ db' redis' stored, record db redis now args = Ok (db', redis', stored) ∧ table_ok db' ∧
    (∀ app key, fetch_current db' app key =
       if same_install app key args then upgrade (fetch_current db app key) args
       else fetch_current db app key).
Proof.
  intros Hok Hfr. unfold record.
  destruct (record_read db args) as [e|] eqn:Er; unfold record_read in Er.
  - pose proof Er as (He & Ha & Hk & Hc)%fetch_current_some. unfold record_write.
    destruct (should_supersede _ _) eqn:Es; simpl.
    + set (db1 := supersede db (ra_new_id args) (a_id e)).
      assert (insert_row db1 (row_of args) = (true, db1 ++ [row_of args])) as Hi.
      { apply insert_row_free.
        - intros x [[Hx _]|(y & Hy & _ & ->)]%elem_of_supersede; [by apply Hfr | by apply Hfr in Hy].
        - intros x [[Hx Hne]|(y & Hy & _ & ->)]%elem_of_supersede Hxa Hxk; [| done].
          destruct (is_current x) eqn:Hxc; [| done]. destruct Hne. f_equal.
          apply (ok_one_current db Hok); simpl in *; congruence. }
      assert (table_ok (db1 ++ [row_of args])) as Hok'.
      { eapply (table_ok_supersede db e (row_of args)); [done | by exists e | done | done | done
          | | exact Hi]. unfold should_supersede in Es. simpl. lia. }
      rewrite Hi, fk_ok_table by done. simpl. eexists _, _, _. split; [done |]. split; [done |].
      intros app key. rewrite (fetch_after_insert db); [| done | done | done |].
      * unfold same_install, upgrade. simpl. case_match eqn:E; [| done]. bprop.
        simpl in *. subst app key. by rewrite Er, Es.
      * intros x Hne Hx. unfold db1. rewrite elem_of_supersede. split.
        -- intros [[? _]|(y & _ & _ & ->)]; done.
        -- intros Hin. left. split; [done |]. intros Eid.
           assert (x = e) as -> by (by apply (ok_ids db Hok)). simpl in Hne. naive_solver.
    + eexists _, _, _. split; [done |]. split; [done |]. intros app key.
      case_match eqn:E; [| done]. apply same_install_spec in E as [<- <-].
      unfold upgrade. by rewrite Er, Es.
  - unfold record_write.
    assert (insert_row db (row_of args) = (true, db ++ [row_of args])) as Hi.
    { apply insert_row_free; [done |]. exact (proj1 (fetch_current_none _ _ _) Er). }
    assert (table_ok (db ++ [row_of args])) as Hok' by (exact (table_ok_insert _ (row_of args) _ Hok eq_refl Hi)).
    rewrite Hi, fk_ok_table by done. simpl. eexists _, _, _. split; [done |]. split; [done |].
    intros app key. rewrite (fetch_after_insert db); [| done..].
    unfold same_install, upgrade. simpl. case_match eqn:E; [| done]. bprop.
    simpl in *. subst app key. by rewrite Er.
Qed.

(** Deliveries in sequence: the table and the cache, or the exception of the first
    one that raises. *)
Fixpoint record_all (db : list AttributionRow) (redis : store CachedAttribution)
    (l : list (datetime * RecordArgs))
    : result StoreError (list AttributionRow * store CachedAttribution) :=
  match l with
  | [] => Ok (db, redis)
  | (now, args) :: l' =>
      match record db redis now args with
      | Ok (db', redis', _) => record_all db' redis' l'
      | Err e => Err e
      end
  end.

Lemma record_ids db redis now args db' redis' stored r :
  record db redis now args = Ok (db', redis', stored) → r ∈ db' →
  a_id r = ra_new_id args ∨ ∃ r0, r0 ∈ db ∧ a_id r0 = a_id r.
Proof.
  unfold record. destruct (record_write _ _ _) as [[db1 st]|] eqn:E; [| done].
  intros H. simplify_eq. by eapply record_write_ids.
Qed.

(** The methods of a sequence of deliveries, as the current row evolves. *)
Definition upgrade_method (current : option Method) (m : Method) : option Method :=
  match current with
  | Some e => if should_supersede e m then Some m else Some e
  | None => Some m
  end.

Definition methods_for (app : uuid) (key : pystr) (l : list (datetime * RecordArgs))
    : list Method :=
  (λ d, d_method (ra_decision (snd d))) <$> List.filter (λ d, same_install app key (snd d)) l.

Lemma record_all_current l db redis :
  table_ok db → NoDup ((λ d, ra_new_id (snd d)) <$> l) →
  (∀ d, d ∈ l → fresh_id db (ra_new_id (snd d))) →
  ∃ db' redis', record_all db redis l = Ok (db', redis') ∧ table_ok db' ∧
    ∀ app key, a_method <$> fetch_current db' app key =
      fold_left upgrade_method (methods_for app key l) (a_method <$> fetch_current db app key).
Proof.
  revert db redis. induction l as [|[now args] l IH]; intros db redis Hok Hnd Hfr; simpl.
  { by exists db, redis. }
  destruct (record_step db redis now args) as (db1 & redis1 & st & E & Hok1 & Hcur); [done | |].
  { apply (Hfr (now, args)). left. }
  apply NoDup_cons in Hnd as [Hn Hnd].
  destruct (IH db1 redis1) as (db' & redis' & E' & Hok' & Hcur'); [done | done | |].
  { intros d Hd r Hr Eid. destruct (record_ids _ _ _ _ _ _ _ r E Hr) as [E1|(r0 & Hr0 & E1)].
    - apply Hn, list_elem_of_fmap. exists d. simpl. split; [congruence | done].
    - apply (Hfr d (list_elem_of_further _ _ _ Hd) r0 Hr0). congruence. }
  exists db', redis'. rewrite E. split_and!; [done | done |]. intros app key.
  rewrite Hcur', Hcur. unfold methods_for. simpl. destruct (same_install app key args); [| done].
  simpl. f_equal. unfold upgrade, upgrade_method.
  destruct (fetch_current db app key); simpl; [case_match |]; done.
Qed.

Lemma upgrade_method_comm o m m' :
  upgrade_method (upgrade_method o m) m' = upgrade_method (upgrade_method o m') m.
Proof. by destruct o as [[]|], m, m'. Qed.

Lemma upgrade_methods_perm l l' o :
  l ≡ₚ l' → fold_left upgrade_method l o = fold_left upgrade_method l' o.
Proof.
  intros H. revert o. induction H; intros o; simpl; [done | done | | congruence].
  by rewrite upgrade_method_comm.
Qed.

Lemma methods_for_perm app key l l' : l ≡ₚ l' → methods_for app key l ≡ₚ methods_for app key l'.
Proof.
  intros H. unfold methods_for. apply fmap_Permutation.
  induction H; simpl; [done | by case_match; [apply perm_skip |] | | by eapply Permutation_trans].
  repeat case_match; first [done | apply perm_swap].
Qed.

(** (C10) Install events may be redelivered and reordered at will: recording the same
    deliveries in another order succeeds as well and leaves every install
    attributed by the same method. *)
Theorem delivery_order_irrelevant l l' redis redis' :
  NoDup ((λ d, ra_new_id (snd d)) <$> l) → l ≡ₚ l' →
  ∃ s s', record_all [] redis l = Ok s ∧ record_all [] redis' l' = Ok s' ∧
    ∀ app key, a_method <$> fetch_current (fst s) app key
               = a_method <$> fetch_current (fst s') app key.
Proof.
  intros Hn Hp.
  destruct (record_all_current l [] redis) as (d1 & r1 & E1 & _ & H1);
    [apply table_ok_nil | done | by intros d _ r ?%elem_of_nil |].
  destruct (record_all_current l' [] redis') as (d2 & r2 & E2 & _ & H2);
    [apply table_ok_nil | by rewrite <- Hp | by intros d _ r ?%elem_of_nil |].
  exists (d1, r1), (d2, r2). split_and!; [done | done |]. intros app key. simpl.
  rewrite H1, H2. by apply upgrade_methods_perm, methods_for_perm.
Qed.

(** ** The identity cache *)

(** Two cache entries that differ at most in [attributed_at], which one takes from
    the worker's clock and the other from the database's. *)
Definition same_attribution (c c' : CachedAttribution) : Prop :=
  ca_attribution_id c = ca_attribution_id c' ∧ ca_click_id c = ca_click_id c' ∧
  ca_campaign_id c = ca_campaign_id c' ∧ ca_tracking_link_id c = ca_tracking_link_id c' ∧
  ca_method c = ca_method c' ∧ ca_expires_at c = ca_expires_at c' ∧
  ca_sub1 c = ca_sub1 c' ∧ ca_sub2 c = ca_sub2 c' ∧ ca_sub3 c = ca_sub3 c'.

Lemma record_created db redis now args db' redis' stored :
  table_ok db → fresh_id db (ra_new_id args) →
  record db redis now args = Ok (db', redis', stored) → sa_created stored = true →
  fetch_current db' (ra_app_id args) (ra_key args) = Some (row_of args) ∧
  redis' = cache redis now args.
Proof.
  intros Hok Hfr E Hc. destruct (record_step db redis now args Hok Hfr) as (? & ? & ? & E' & Hok' & _).
  rewrite E in E'. simplify_eq.
  revert E. unfold record. destruct (record_write _ _ _) as [[db1 st]|] eqn:Ew; [| done].
  intros H. simplify_eq. rewrite Hc. split; [| done]. apply fetch_current_iff; [done |].
  split_and!; [| done..]. revert Ew. unfold record_write.
  repeat (case_match; simplify_eq/=); intros; simplify_eq; try done;
    match goal with H : insert_row _ _ = _ |- _ => apply insert_row_true in H as (-> & _) end;
    apply elem_of_app; right; by left.
Qed.

(** Losing Redis loses no attribution: while a freshly recorded attribution is
    cached, [lookup] answers the same from the cache as it rebuilds from Postgres
    after any loss of the key, up to the clock [attributed_at] was read from. *)
Theorem lookup_survives_cache_loss db redis now args db' redis' stored now' empty :
  table_ok db → fresh_id db (ra_new_id args) →
  record db redis now args = Ok (db', redis', stored) → sa_created stored = true →
  0 < int_total_seconds (ra_expires_at args - now) →
  now' < now + int_total_seconds (ra_expires_at args - now) * second →
  rget now' (cache_key (ra_app_id args) (ra_anonymous_id args)) empty = None →
  ∃ c c',
    fst (lookup_attribution redis' db' now' (ra_app_id args) (ra_anonymous_id args)) = Some c ∧
    fst (lookup_attribution empty db' now' (ra_app_id args) (ra_anonymous_id args)) = Some c' ∧
    same_attribution c c'.
Proof.
  intros Hok Hfr E Hc Hpos Hlive Hmiss.
  destruct (record_created _ _ _ _ _ _ _ Hok Hfr E Hc) as [Hrow ->].
  unfold lookup_attribution. rewrite Hmiss. change (install_key _ _) with (ra_key args).
  rewrite Hrow. unfold cache. apply Z.leb_gt in Hpos as ->. rewrite rget_set_eq by done.
  eexists _, _. split_and!; [done | done |]. unfold same_attribution, rebuilt, row_of. simpl.
  split_and!; try done. all: by destruct (d_click (ra_decision args)).
Qed.

(** Keys never collide across installs: the install key, and the cache key
    derived the same way, determine the app and the device. *)
Theorem install_key_injective app app' anon anon' :
  uuid_ok app → uuid_ok app' →
  install_key app anon = install_key app' anon' ∨ cache_key app anon = cache_key app' anon' →
  app = app' ∧ anon = anon'.
Proof.
  intros Ha Ha' [E|E].
  - apply (uuid_prefix_inj []) in E as [-> E]; [| done..]. by simplify_eq/=.
  - apply uuid_prefix_inj in E as [-> E]; [| done..]. by simplify_eq/=.
Qed.

(** ** Witnesses *)

Definition ex_decision (m : Method) (c : option Click) : Decision :=
  {| d_method := m; d_click := c; d_window_days := 7; d_reason := []; d_click_to_install := None;
     d_suspected_injection := false |}.

(** An install of app 9 recorded by the delivery that mints the id [id]. *)
Definition ex_args (id : uuid) (m : Method) (c : option Click) : RecordArgs :=
  {| ra_organization_id := 1%N; ra_app_id := 9%N; ra_anonymous_id := py "device-1";
     ra_user_id := None; ra_installed_at := 1000 * second; ra_decision := ex_decision m c;
     ra_event_window_days := 30; ra_assessment := None; ra_new_id := id; ra_now := 1001 * second |}.

Definition ex_organic : RecordArgs := ex_args 101%N ORGANIC None.
Definition ex_referred : RecordArgs := ex_args 102%N REFERRER (Some (ex_click 1%N 900 None false)).

Definition ex_table : list AttributionRow := [row_of ex_organic].
Definition ex_table' : list AttributionRow :=
  supersede [row_of ex_organic] 102%N 101%N ++ [row_of ex_referred].

(** A worker that saw no row, and one that read the organic row and upgrades it. *)
Lemma ex_race :
  rtc race_step race_init {| r_db := ex_table; r_pending := [] |} ∧
  rtc race_step {| r_db := ex_table; r_pending := [] |} {| r_db := ex_table'; r_pending := [] |}.
Proof.
  split.
  - eapply rtc_l; [apply (Begin race_init ex_organic); [intros r Hr | intros p Hp] |].
    + by apply elem_of_nil in Hr.
    + by apply elem_of_nil in Hp.
    + eapply rtc_l; [eapply (Commit _ [] _ []); [done | by vm_compute] |]. apply rtc_refl.
  - eapply rtc_l; [apply (Begin _ ex_referred); [intros r Hr | intros p Hp] |].
    + apply list_elem_of_singleton in Hr as ->. done.
    + by apply elem_of_nil in Hp.
    + eapply rtc_l; [eapply (Commit _ [] _ []); [done | by vm_compute] |]. apply rtc_refl.
Qed.

Lemma current_attribution_never_downgrades_witness :
  ∃ c', fetch_current ex_table' 9%N (ra_key ex_organic) = Some c' ∧ 0 <= FIDELITY (a_method c').
Proof.
  destruct (current_attribution_never_downgrades
    {| r_db := ex_table; r_pending := [] |} {| r_db := ex_table'; r_pending := [] |}
    9%N (ra_key ex_organic) (row_of ex_organic) (proj1 ex_race) (proj2 ex_race))
    as (c' & H & F & _); [by vm_compute |].
  exists c'. split; [exact H | exact F].
Defined.

Definition ex_deliveries : list (datetime * RecordArgs) :=
  [(1002 * second, ex_organic); (1003 * second, ex_referred)].

Lemma delivery_order_irrelevant_witness :
  ∃ s s', record_all [] ∅ ex_deliveries = Ok s ∧ record_all [] ∅ (reverse ex_deliveries) = Ok s' ∧
    ∀ app key, a_method <$> fetch_current (fst s) app key
               = a_method <$> fetch_current (fst s') app key.
Proof.
  apply delivery_order_irrelevant.
  - apply (bool_decide_unpack _). by vm_compute.
  - symmetry. apply reverse_Permutation.
Defined.

Lemma ex_record_write :
  record_write [] ex_referred (record_read [] ex_referred)
  = Ok ([row_of ex_referred],
        {| sa_attribution_id := 102%N; sa_method := REFERRER; sa_created := true;
           sa_superseded := None |}).
Proof. vm_compute. reflexivity. Qed.

Lemma lookup_survives_cache_loss_witness :
  ∃ c c',
    fst (lookup_attribution (cache ∅ (1002 * second) ex_referred) [row_of ex_referred]
           (1003 * second) 9%N (py "device-1")) = Some c ∧
    fst (lookup_attribution ∅ [row_of ex_referred] (1003 * second) 9%N (py "device-1")) = Some c' ∧
    same_attribution c c'.
Proof.
  apply (lookup_survives_cache_loss [] ∅ (1002 * second) ex_referred [row_of ex_referred]
    (cache ∅ (1002 * second) ex_referred)
    {| sa_attribution_id := 102%N; sa_method := REFERRER; sa_created := true;
       sa_superseded := None |}).
  - apply table_ok_nil.
  - intros r Hr. by apply elem_of_nil in Hr.
  - unfold record. rewrite ex_record_write. reflexivity.
  - done.
  - by vm_compute.
  - by vm_compute.
  - by vm_compute.
Defined.

Lemma install_key_injective_witness :
  uuid_ok 9%N ∧ uuid_ok 9%N ∧ 9%N = 9%N ∧ py "a:b" = py "a:b".
Proof.
  assert (uuid_ok 9%N) as H by by vm_compute.
  split; [exact H |]. split; [exact H |].
  apply (install_key_injective 9%N 9%N (py "a:b") (py "a:b") H H). left. reflexivity.
Defined.

(** ** What the code does beyond its documentation *)

(** The documentation says nothing outlives the window it was attributed under; the
    Postgres fallback of [lookup] serves an attribution that expired. *)
Lemma lookup_serves_expired :
  let now := ra_expires_at ex_referred + day in
  match fst (lookup_attribution ∅ [row_of ex_referred] now 9%N (py "device-1")) with
  | Some c => ca_expires_at c <? now
  | None => false
  end = true.
Proof. vm_compute. reflexivity. Qed.

(** The alias of a user is the cache entry of a device whose anonymous id happens to
    start with "user:". *)
Lemma link_user_overwrites_a_device :
  let redis := cache ∅ (1002 * second) ex_referred in
  let redis' := link_user redis (1003 * second) 9%N (py "device-1") (py "7") in
  (bool_decide (is_Some (fst (lookup_attribution redis [] (1003 * second) 9%N (py "user:7")))),
   bool_decide (is_Some (fst (lookup_attribution redis' [] (1003 * second) 9%N (py "user:7"))))) = (false, true).
Proof. vm_compute. reflexivity. Qed.
