(* ===== verification/Dedup.v ===== *)
(** * The idempotency window (mmp_ingest/dedup.py)

    [filter_new] marks event ids as seen with [SET NX EX]; [forget] undoes the
    marks.  A pipeline is executed at one instant. *)

From S2P Require Import Prelude Redis.

#[local] Open Scope Z_scope.

Definition DEFAULT_WINDOW : timedelta := 7 * day.
Definition SEEN_PREFIX : pystr := py "seen:".

(** The object's only attribute beside the connection: [self._ttl]. *)
Record IdempotencyWindow := { iw_ttl : Z }.

Definition idempotency_window (window : timedelta) : IdempotencyWindow :=
  {| iw_ttl := int_total_seconds window |}.

Definition seen_key (app_id event_id : pystr) : pystr :=
  SEEN_PREFIX ++ app_id ++ py ":" ++ event_id.

(** The pipelined [SET NX]s, in order, with their answers. *)
Fixpoint mark_all (self : IdempotencyWindow) (redis : store unit) (now : datetime)
    (app_id : pystr) (event_ids : list pystr) : list bool * store unit :=
  match event_ids with
  | [] => ([], redis)
  | e :: es =>
      let '(was_new, redis') := rset_nx now (seen_key app_id e) tt (iw_ttl self) redis in
      let '(results, redis'') := mark_all self redis' now app_id es in
      (was_new :: results, redis'')
  end.

Definition filter_new (self : IdempotencyWindow) (redis : store unit) (now : datetime)
    (app_id : pystr) (event_ids : list pystr) : gset pystr * store unit :=
  let '(results, redis') := mark_all self redis now app_id event_ids in
  (list_to_set (fst <$> List.filter snd (zip event_ids results)), redis').

Definition forget (redis : store unit) (app_id : pystr) (event_ids : list pystr) : store unit :=
  fold_left (λ m e, rdel (seen_key app_id e) m) event_ids redis.

(** [event_id] is marked at [now]. *)
Definition seen (redis : store unit) (now : datetime) (app_id event_id : pystr) : bool :=
  bool_decide (is_Some (peek now (seen_key app_id event_id) redis)).

(** ** Lemmas *)

Lemma seen_key_inj app e e' : seen_key app e = seen_key app e' → e = e'.
Proof. unfold seen_key. intros H. by apply app_inv_head, app_inv_head, app_inv_head in H. Qed.

Lemma mark_all_elem self m now app l e :
  e ∈ fst <$> List.filter snd (zip l (fst (mark_all self m now app l))) ↔
  e ∈ l ∧ seen m now app e = false.
Proof.
  revert m. induction l as [|x l IH]; intros m; simpl; [set_solver |].
  unfold rset_nx. destruct (peek now (seen_key app x) m) as [en|] eqn:E.
  - specialize (IH m). destruct (mark_all self m now app l) as [rs m'] eqn:F. simpl in *.
    rewrite IH, elem_of_cons. split; [naive_solver |]. intros [[-> | ?] Hs]; [| done].
    unfold seen in Hs. apply bool_decide_eq_false in Hs. rewrite E in Hs.
    destruct Hs. by eexists.
  - set (m1 := rset_ex now (seen_key app x) tt (iw_ttl self) m).
    specialize (IH m1). destruct (mark_all self m1 now app l) as [rs m'] eqn:F. simpl in *.
    rewrite !elem_of_cons, IH. unfold seen at 2. split.
    + intros [-> | [Hl Hs]]; [split; [by left |]; apply bool_decide_eq_false; rewrite E; by intros [? ?] |].
      split; [by right |]. destruct (decide (e = x)) as [-> | Hne].
      * apply bool_decide_eq_false. rewrite E. by intros [? ?].
      * unfold seen, m1 in Hs. rewrite peek_set_ne in Hs; [done |].
        intros H%seen_key_inj. done.
    + intros [[-> | Hl] Hs]; [by left |]. destruct (decide (e = x)) as [-> | Hne]; [by left |].
      right. split; [done |]. unfold seen, m1. rewrite peek_set_ne; [done |].
      intros H%seen_key_inj. done.
Qed.

(** What the marks look like after a batch, at any time before they expire. *)
Lemma mark_all_peek self m now now' app l k :
  now <= now' → now' < now + iw_ttl self * second →
  peek now' k (snd (mark_all self m now app l)) =
  match peek now' k m with
  | Some e => Some e
  | None =>
      if bool_decide (k ∈ seen_key app <$> l) && negb (bool_decide (is_Some (peek now k m)))
      then Some (Entry tt (Some (now + iw_ttl self * second))) else None
  end.
Proof.
  intros Hn Ht. revert m. induction l as [|x l IH]; intros m; simpl; [by case_match |].
  destruct (rset_nx now (seen_key app x) tt (iw_ttl self) m) as [b m1] eqn:E.
  specialize (IH m1). destruct (mark_all self m1 now app l) as [rs m'] eqn:F. simpl in *.
  rewrite IH. assert (now < now + iw_ttl self * second) as Hpos by lia. revert E.
  unfold rset_nx. destruct (peek now (seen_key app x) m) as [en|] eqn:Ep; intros E; simplify_eq.
  - destruct (peek now' k m1); [done |].
    destruct (bool_decide_reflect (k = seen_key app x)) as [-> | Hne].
    + rewrite Ep. by rewrite !(bool_decide_true (is_Some (Some en))), !andb_false_r by by eexists.
    + by rewrite (bool_decide_ext (k ∈ seen_key app x :: _) (k ∈ seen_key app <$> l)) by set_solver.
  - destruct (bool_decide_reflect (k = seen_key app x)) as [-> | Hne].
    + rewrite peek_set_eq by done. rewrite Ep.
      assert (peek now' (seen_key app x) m = None) as ->.
      { unfold peek in *. destruct (m !! _) as [e|]; [| done]. unfold live in *.
        destruct (e_expiry e) as [t|]; [| done].
        destruct (Z.ltb_spec now t), (Z.ltb_spec now' t); try done; lia. }
      rewrite bool_decide_true by set_solver. rewrite bool_decide_false; [done | by intros [? ?]].
    + rewrite !peek_set_ne by congruence.
      by rewrite (bool_decide_ext (k ∈ seen_key app x :: _) (k ∈ seen_key app <$> l)) by set_solver.
Qed.

Lemma filter_new_elem self m now app l e :
  e ∈ fst (filter_new self m now app l) ↔ e ∈ l ∧ seen m now app e = false.
Proof.
  pose proof (mark_all_elem self m now app l e) as H. unfold filter_new.
  destruct (mark_all self m now app l) as [rs m']. simpl in *.
  by rewrite elem_of_list_to_set.
Qed.

(** After a batch, until its marks expire, the ids seen are those seen before and
    those the batch accepted. *)
Lemma filter_new_seen self m now now' app l e :
  now <= now' → now' < now + iw_ttl self * second →
  seen (snd (filter_new self m now app l)) now' app e = true ↔
  seen m now' app e = true ∨ e ∈ fst (filter_new self m now app l).
Proof.
  intros Hn Ht. rewrite filter_new_elem.
  replace (snd (filter_new self m now app l)) with (snd (mark_all self m now app l))
    by (unfold filter_new; by destruct (mark_all self m now app l)).
  unfold seen. rewrite mark_all_peek, !bool_decide_eq_true, bool_decide_eq_false by done.
  destruct (peek now' _ m) as [en|]; [naive_solver |].
  assert (seen_key app e ∈ seen_key app <$> l ↔ e ∈ l) as Hk.
  { rewrite list_elem_of_fmap. split; [by intros (x & ->%seen_key_inj & ?) | eauto]. }
  case_match eqn:E; bprop.
  - split; [intros _; right; by rewrite <- Hk | by eexists].
  - split; [by intros [? ?] |]. intros [[? ?]|[Hin Hs]]; [done |].
    apply andb_false_iff in E as [E|E]; bprop; [by destruct E; apply Hk | done].
Qed.

Lemma forget_seen m now app l e :
  seen (forget m app l) now app e = negb (bool_decide (e ∈ l)) && seen m now app e.
Proof.
  revert m. induction l as [|x l IH]; intros m; simpl; [done |]. unfold forget in *. simpl.
  rewrite IH. destruct (decide (e = x)) as [-> | Hne].
  - rewrite (bool_decide_true (x ∈ x :: l)) by set_solver. simpl. unfold seen.
    rewrite peek_del_eq. by rewrite (bool_decide_false (is_Some None)), andb_false_r
      by (by intros [? ?]).
  - rewrite (bool_decide_ext (e ∈ x :: l) (e ∈ l)) by set_solver. f_equal. unfold seen.
    rewrite peek_del_ne; [done |]. intros H%seen_key_inj. done.
Qed.

(** ** Batches one after the other *)

Fixpoint run_batches (self : IdempotencyWindow) (redis : store unit) (app_id : pystr)
    (batches : list (datetime * list pystr)) : list (gset pystr) * store unit :=
  match batches with
  | [] => ([], redis)
  | (now, ids) :: bs =>
      let '(fresh, redis') := filter_new self redis now app_id ids in
      let '(rest, redis'') := run_batches self redis' app_id bs in
      (fresh :: rest, redis'')
  end.

(** Batches in order of time, from [t] on and before [limit]. *)
Fixpoint in_order (t limit : datetime) (batches : list (datetime * list pystr)) : Prop :=
  match batches with
  | [] => True
  | (now, _) :: bs => t <= now ∧ now < limit ∧ in_order now limit bs
  end.

(** The ids accepted by a batch, given the marks [m] before the run and the set [S]
    accepted since. *)
Lemma run_batches_elem (self : IdempotencyWindow) (m0 m : store unit) (app : pystr) (S : gset pystr) (t0 t : datetime)
    (batches : list (datetime * list pystr)) :
  t0 <= t → in_order t (t0 + iw_ttl self * second) batches →
  (∀ t' e, t <= t' → t' < t0 + iw_ttl self * second →
     seen m t' app e = true ↔ seen m0 t' app e = true ∨ e ∈ S) →
  ∀ i r, fst (run_batches self m app batches) !! i = Some r →
  ∀ e, e ∈ r ↔ (∃ now ids, batches !! i = Some (now, ids) ∧ e ∈ ids ∧
                 seen m0 now app e = false) ∧ e ∉ S ∧
         ∀ j r', (j < i)%nat → fst (run_batches self m app batches) !! j = Some r' → e ∉ r'.
Proof.
  revert m S t. induction batches as [|[now ids] bs IH]; intros m S t H0 Hord Hinv i r Hr e.
  { by destruct i. }
  destruct Hord as (Htn & Hlim & Hord). simpl in Hr |- *.
  destruct (filter_new self m now app ids) as [fresh m'] eqn:Ef.
  assert (∀ e, e ∈ fresh ↔ e ∈ ids ∧ seen m now app e = false) as Hfresh.
  { intros x. rewrite <- filter_new_elem. by rewrite Ef. }
  assert (∀ t' e, now <= t' → t' < t0 + iw_ttl self * second →
    seen m' t' app e = true ↔ seen m0 t' app e = true ∨ e ∈ S ∪ fresh) as Hinv'.
  { intros t' x ??. pose proof (filter_new_seen self m now t' app ids x) as Hs.
    rewrite Ef in Hs. simpl in Hs. rewrite Hs, Hinv by lia. set_solver. }
  specialize (IH m' (S ∪ fresh) now ltac:(lia) Hord Hinv').
  destruct (run_batches self m' app bs) as [rest m''] eqn:Er. simpl in *.
  destruct i as [|i]; simpl in *.
  - simplify_eq. rewrite Hfresh. rewrite <- not_true_iff_false, Hinv by lia. split.
    + intros [Hin Hn]. split_and!; [| tauto | intros j r' ?; lia].
      exists now, ids. rewrite <- not_true_iff_false. tauto.
    + intros [(? & ? & ? & Hin & Hn) [Hs _]]. simplify_eq.
      rewrite <- not_true_iff_false in Hn. tauto.
  - rewrite (IH i r Hr e), not_elem_of_union. split.
    + intros (Hb & [? Hnf] & Hj). split_and!; [done | done |].
      intros [|j] r' Hlt Hr'; simpl in *; [by simplify_eq | by apply (Hj j); [lia |]].
    + intros (Hb & ? & Hj). split_and!; [done | done | |].
      * apply (Hj 0%nat); [lia | done].
      * intros j r' Hlt Hr'. apply (Hj (Datatypes.S j)); [lia | done].
Qed.

(** Deduplication is exact inside its window: over any sequence of batches that
    spans less than the window, a batch accepts exactly the ids it carries that
    were not marked before the run and that no earlier batch accepted. *)
Theorem filter_new_first_time_only (self : IdempotencyWindow) (m : store unit) (app : pystr) (t0 : datetime)
    (batches : list (datetime * list pystr)) i r (e : pystr) :
  in_order t0 (t0 + iw_ttl self * second) batches →
  fst (run_batches self m app batches) !! i = Some r →
  e ∈ r ↔ (∃ now ids, batches !! i = Some (now, ids) ∧ e ∈ ids ∧ seen m now app e = false) ∧
          ∀ j r', (j < i)%nat → fst (run_batches self m app batches) !! j = Some r' → e ∉ r'.
Proof.
  intros Hord Hr.
  assert (e ∉ (∅ : gset pystr)) as He by set_solver.
  assert (t0 <= t0) as H0 by lia.
  rewrite (run_batches_elem self m m app ∅ t0 t0 batches H0 Hord
             ltac:(intros; set_solver) i r Hr e). tauto.
Qed.

(** A batch that failed to enqueue can be retried: after [forget] its ids are
    accepted again, and the marks of other events are untouched. *)
Theorem forget_reopens (self : IdempotencyWindow) (m : store unit) (now : datetime) (app : pystr) (ids batch : list pystr) :
  let m' := forget m app ids in
  (∀ e, e ∈ ids → e ∈ batch → e ∈ fst (filter_new self m' now app batch)) ∧
  (∀ e, e ∉ ids → seen m' now app e = seen m now app e).
Proof.
  split; intros e He.
  - intros Hb. apply filter_new_elem. rewrite forget_seen. split; [done |].
    by rewrite bool_decide_true.
  - rewrite forget_seen. by rewrite bool_decide_false.
Qed.

(** ** Witnesses *)

Definition ex_batches : list (datetime * list pystr) :=
  [(10 * second, [py "a"; py "b"]); (20 * second, [py "b"; py "c"])].

Lemma filter_new_first_time_only_witness :
  py "b" ∉ (list_to_set [py "c"] : gset pystr) ∧
  (∀ r, fst (run_batches (idempotency_window DEFAULT_WINDOW) ∅ (py "app") ex_batches) !! 1%nat
        = Some r → py "c" ∈ r).
Proof.
  split; [apply (bool_decide_unpack _); vm_compute; exact I |]. intros r Hr.
  apply (filter_new_first_time_only (idempotency_window DEFAULT_WINDOW) ∅ (py "app") (10 * second)
           ex_batches 1 r (py "c")).
  - vm_compute. intuition discriminate.
  - exact Hr.
  - split.
    + exists (20 * second), [py "b"; py "c"]. split; [reflexivity |].
      split; [apply (bool_decide_unpack _); vm_compute; exact I | vm_compute; reflexivity].
    + intros [|j] r' Hlt Hr'; [| lia]. intros Hin.
      assert (r' = fst (filter_new (idempotency_window DEFAULT_WINDOW) ∅ (10 * second) (py "app")
                          [py "a"; py "b"])) as ->.
      { change (run_batches _ _ _ ex_batches) with
          (let '(fresh, m1) := filter_new (idempotency_window DEFAULT_WINDOW) ∅ (10 * second)
             (py "app") [py "a"; py "b"] in
           let '(rest, m2) := run_batches (idempotency_window DEFAULT_WINDOW) m1 (py "app")
             [(20 * second, [py "b"; py "c"])] in (fresh :: rest, m2)) in Hr'.
        destruct (filter_new _ _ _ _ _) as [f m1].
        destruct (run_batches _ m1 _ _) as [rest m2]. simpl in Hr'. by simplify_eq. }
      apply filter_new_elem in Hin as [Hin _]. revert Hin.
      apply (bool_decide_unpack _). vm_compute. exact I.
Defined.
