(* ===== verification/Sessions.v ===== *)
(** * Session lifecycle (mmp_ingest/sessions.py)

    The session of a device lives in Redis under a key that expires with the app's
    timeout.  Each command of [resolve] has a clock of its own, because the code
    handles a key that expires between them; a pipeline is executed at one instant.
    The ids the code mints with [uuid7()] are arguments.  [spec_resolve] is the
    definition of a session the module documents; [resolve_refines] shows that the
    Redis protocol implements it, and [resolve_many_resolves] that the batched
    routine agrees with the single one. *)

From S2P Require Import Prelude Redis Ids.

#[local] Open Scope Z_scope.
#[local] Open Scope mmp_scope.

Definition SESSION_PREFIX : pystr := py "sess:".
Definition DEFAULT_TIMEOUT : timedelta := 30 * minute.

Definition NON_ENGAGEMENT_EVENTS : list pystr :=
  [py "session_end"; py "push_received"; py "background_sync"].

Definition is_non_engagement (event_name : pystr) : bool :=
  bool_decide (event_name ∈ NON_ENGAGEMENT_EVENTS).

Record SessionDecision := {
  session_id : uuid;
  started : bool;
  previous_session_id : option uuid
}.

Definition decision (id : uuid) (s : bool) : SessionDecision :=
  {| session_id := id; started := s; previous_session_id := None |}.

Definition session_key (app_id anonymous_id : pystr) : pystr :=
  SESSION_PREFIX ++ app_id ++ py ":" ++ anonymous_id.

Section Tracker.
Context {U : Unicode}.

Definition to_uuid (raw : pystr) : result pystr uuid :=
  match uuid_of_str raw with
  | Some u => Ok u
  | None => Err (py "badly formed hexadecimal UUID string")
  end.

(** The clocks of the three commands a call may issue. *)
Record Clocks := { t_set : datetime; t_get : datetime; t_expire : datetime }.

Definition resolve (redis : store pystr) (t : Clocks) (app_id anonymous_id event_name : pystr)
    (session_timeout : timedelta) (candidate : uuid)
    : result pystr (SessionDecision * store pystr) :=
  let key := session_key app_id anonymous_id in
  let seconds := int_total_seconds session_timeout in
  if is_non_engagement event_name then
    match rget (t_get t) key redis with
    | Some (c :: raw) =>
        let* id := to_uuid (c :: raw) in Ok (decision id false, redis)
    | _ => Ok (decision candidate false, redis)
    end
  else
    let '(created, redis1) := rset_nx (t_set t) key (str_of_uuid candidate) seconds redis in
    if created then Ok (decision candidate true, redis1)
    else
      match rget (t_get t) key redis1 with
      | None =>
          Ok (decision candidate true,
              rset_ex (t_expire t) key (str_of_uuid candidate) seconds redis1)
      | Some existing =>
          let* id := to_uuid existing in
          Ok (decision id false, rexpire (t_expire t) key seconds redis1)
      end.

(** The pipelined [SET NX]s of the engaged devices, with their answers. *)
Fixpoint set_all (redis : store pystr) (now : datetime) (app_id : pystr) (seconds : Z)
    (candidates : pystr → uuid) (engaged : list pystr) : list bool * store pystr :=
  match engaged with
  | [] => ([], redis)
  | d :: ds =>
      let '(b, redis1) :=
        rset_nx now (session_key app_id d) (str_of_uuid (candidates d)) seconds redis in
      let '(bs, redis2) := set_all redis1 now app_id seconds candidates ds in
      (b :: bs, redis2)
  end.

(** The pipelined [GET] and [EXPIRE] of the adopted devices, with the values read. *)
Fixpoint adopt_all (redis : store pystr) (now : datetime) (app_id : pystr) (seconds : Z)
    (adopted : list pystr) : list (option pystr) * store pystr :=
  match adopted with
  | [] => ([], redis)
  | d :: ds =>
      let key := session_key app_id d in
      let raw := rget now key redis in
      let '(raws, redis2) := adopt_all (rexpire now key seconds redis) now app_id seconds ds in
      (raw :: raws, redis2)
  end.

(** The decisions of the adopted devices; [uuid.UUID] may raise. *)
Fixpoint decide_adopted (candidates : pystr → uuid) (l : list (pystr * option pystr))
    (decisions : list (pystr * SessionDecision)) : result pystr (list (pystr * SessionDecision)) :=
  match l with
  | [] => Ok decisions
  | (d, None) :: l' =>
      decide_adopted candidates l' (od_set d (decision (candidates d) true) decisions)
  | (d, Some raw) :: l' =>
      let* id := to_uuid raw in
      decide_adopted candidates l' (od_set d (decision id false) decisions)
  end.

Fixpoint decide_idle (mint : pystr → uuid) (l : list (pystr * option pystr))
    (decisions : list (pystr * SessionDecision)) : result pystr (list (pystr * SessionDecision)) :=
  match l with
  | [] => Ok decisions
  | (d, Some (c :: raw)) :: l' =>
      let* id := to_uuid (c :: raw) in
      decide_idle mint l' (od_set d (decision id false) decisions)
  | (d, _) :: l' => decide_idle mint l' (od_set d (decision (mint d) false) decisions)
  end.

(** [mint d] is the id [uuid7()] returns for device [d]; the three round trips are at
    [t_set], [t_expire] (the [GET]s and [EXPIRE]s share one pipeline) and [t_get]. *)
Definition resolve_many (redis : store pystr) (t : Clocks) (app_id : pystr)
    (devices : list (pystr * pystr)) (session_timeout : timedelta) (mint : pystr → uuid)
    : result pystr (list (pystr * SessionDecision) * store pystr) :=
  let seconds := int_total_seconds session_timeout in
  let engaged := fst <$> List.filter (λ d, negb (is_non_engagement (snd d))) devices in
  let idle := fst <$> List.filter (λ d, is_non_engagement (snd d)) devices in
  let '(created, redis1) := set_all redis (t_set t) app_id seconds mint engaged in
  let adopted := fst <$> List.filter (λ p, negb (snd p)) (zip engaged created) in
  let '(existing_values, redis2) := adopt_all redis1 (t_expire t) app_id seconds adopted in
  let decisions :=
    fold_left (λ ds p, if snd p : bool then od_set (fst p) (decision (mint (fst p)) true) ds else ds)
      (zip engaged created) [] in
  let* decisions := decide_adopted mint (zip adopted existing_values) decisions in
  let raws := (λ d, rget (t_get t) (session_key app_id d) redis2) <$> idle in
  let* decisions := decide_idle mint (zip idle raws) decisions in
  Ok (decisions, redis2).

(** [end] and [current]. *)
Definition end_session (redis : store pystr) (now : datetime) (app_id anonymous_id : pystr)
    : result pystr (option uuid) * store pystr :=
  let key := session_key app_id anonymous_id in
  match rget now key redis with
  | None => (Ok None, redis)
  | Some existing => (let* id := to_uuid existing in Ok (Some id), rdel key redis)
  end.

Definition current_session (redis : store pystr) (now : datetime) (app_id anonymous_id : pystr)
    : result pystr (option uuid) :=
  match rget now (session_key app_id anonymous_id) redis with
  | None => Ok None
  | Some existing => let* id := to_uuid existing in Ok (Some id)
  end.

(** ** What a session is *)

(** The sessions of the devices of one app: the session each device was last in and
    the time of its last engagement event. *)
Abbreviation Activity := (gmap pystr (uuid * datetime)).

Definition spec_live (timeout : timedelta) (a : Activity) (now : datetime) (d : pystr)
    : option uuid :=
  match a !! d with
  | Some (id, last) => if now <? last + timeout then Some id else None
  | None => None
  end.

(** An event less than the timeout after the last engagement belongs to the same
    session; an engagement event later than that starts a new one; other events
    neither start nor extend a session. *)
Definition spec_resolve (timeout : timedelta) (a : Activity) (now : datetime)
    (d event_name : pystr) (candidate : uuid) : SessionDecision * Activity :=
  let live := spec_live timeout a now d in
  if is_non_engagement event_name then (decision (default candidate live) false, a)
  else
    match live with
    | Some id => (decision id false, <[d := (id, now)]> a)
    | None => (decision candidate true, <[d := (candidate, now)]> a)
    end.

(** ** Runs of events of one app *)

Record SessionEvent := { se_at : datetime; se_device : pystr; se_name : pystr; se_candidate : uuid }.

Definition at_once (now : datetime) : Clocks := {| t_set := now; t_get := now; t_expire := now |}.

Fixpoint resolve_run (redis : store pystr) (app_id : pystr) (timeout : timedelta)
    (l : list SessionEvent) : result pystr (list SessionDecision * store pystr) :=
  match l with
  | [] => Ok ([], redis)
  | e :: l' =>
      let* r := resolve redis (at_once (se_at e)) app_id (se_device e) (se_name e) timeout
                  (se_candidate e) in
      let* rest := resolve_run (snd r) app_id timeout l' in
      Ok (fst r :: fst rest, snd rest)
  end.

Fixpoint spec_run (timeout : timedelta) (a : Activity) (l : list SessionEvent)
    : list SessionDecision :=
  match l with
  | [] => []
  | e :: l' =>
      let '(d, a') := spec_resolve timeout a (se_at e) (se_device e) (se_name e) (se_candidate e) in
      d :: spec_run timeout a' l'
  end.

Fixpoint events_ok (t : datetime) (l : list SessionEvent) : Prop :=
  match l with
  | [] => True
  | e :: l' => t <= se_at e ∧ uuid_ok (se_candidate e) ∧ events_ok (se_at e) l'
  end.

(** ** Lemmas *)

Lemma session_key_inj app d d' : session_key app d = session_key app d' → d = d'.
Proof. unfold session_key. intros H. by apply app_inv_head, app_inv_head, app_inv_head in H. Qed.

Lemma to_uuid_str u : uuid_ok u → to_uuid (str_of_uuid u) = Ok u.
Proof. intros H. unfold to_uuid. by rewrite uuid_of_str_of_uuid. Qed.

Lemma str_of_uuid_cons u : ∃ c s, str_of_uuid u = c :: s.
Proof.
  pose proof (str_of_uuid_length u) as H. destruct (str_of_uuid u) as [|c s]; [done | eauto].
Qed.

(** The store implements the activity from [now] on. *)
Definition implements (app : pystr) (seconds : Z) (now : datetime) (redis : store pystr)
    (a : Activity) : Prop :=
  ∀ d t, now <= t →
    peek t (session_key app d) redis =
    match a !! d with
    | Some (id, last) =>
        if t <? last + seconds * second
        then Some (Entry (str_of_uuid id) (Some (last + seconds * second))) else None
    | None => None
    end ∧ match a !! d with Some (id, _) => uuid_ok id | None => True end.

Lemma peek_insert_eq t k (e : entry pystr) m :
  peek t k (<[k := e]> m) = if live t e then Some e else None.
Proof. unfold peek. by rewrite lookup_insert_eq. Qed.

Lemma peek_insert_ne t k k' (e : entry pystr) m :
  k ≠ k' → peek t k' (<[k := e]> m) = peek t k' m.
Proof. intros H. unfold peek. by rewrite lookup_insert_ne. Qed.

Lemma implements_insert app seconds now redis a d id :
  implements app seconds now redis a → uuid_ok id →
  implements app seconds now
    (<[session_key app d := Entry (str_of_uuid id) (Some (now + seconds * second))]> redis)
    (<[d := (id, now)]> a).
Proof.
  intros Hi Hok d' t Ht. destruct (decide (d = d')) as [<- | Hne].
  - rewrite peek_insert_eq, lookup_insert_eq. by unfold live; simpl.
  - rewrite peek_insert_ne by (intros H%session_key_inj; done).
    rewrite lookup_insert_ne by done. by apply Hi.
Qed.

Lemma implements_later app seconds now now' redis a :
  now <= now' → implements app seconds now redis a → implements app seconds now' redis a.
Proof. intros Hle Hi d t Ht. apply Hi. lia. Qed.

Lemma resolve_simulates app timeout redis a now d name cand :
  uuid_ok cand → implements app (int_total_seconds timeout) now redis a →
  ∃ redis', resolve redis (at_once now) app d name timeout cand =
    Ok (fst (spec_resolve (int_total_seconds timeout * second) a now d name cand), redis') ∧
    implements app (int_total_seconds timeout) now redis'
      (snd (spec_resolve (int_total_seconds timeout * second) a now d name cand)).
Proof.
  intros Hc Hi. pose proof (Hi d now ltac:(lia)) as [Hp Hok].
  unfold resolve, spec_resolve, spec_live, rset_nx, rexpire, rget. simpl.
  rewrite !Hp. destruct (is_non_engagement name).
  - destruct (a !! d) as [[id last]|]; [| by exists redis].
    destruct (str_of_uuid_cons id) as (c & s & E).
    pose proof (to_uuid_str id Hok) as Eu. rewrite E in Eu |- *.
    destruct (now <? last + _); cbn [fmap option_fmap option_map e_value default];
      [rewrite Eu |]; by exists redis.
  - destruct (a !! d) as [[id last]|]; simpl.
    + destruct (now <? last + _); simpl.
      * rewrite Hp. cbn [fmap option_fmap option_map e_value]. rewrite to_uuid_str by done.
        eexists. split; [done |].
        by apply implements_insert.
      * eexists. split; [done |]. by apply implements_insert.
    + eexists. split; [done |]. by apply implements_insert.
Qed.

(** (C9) The Redis protocol implements the definition of a session: over any run of
    events of an app, in order of time, [resolve] never raises and takes exactly
    the decisions of the specification, for every device at once. *)
Theorem resolve_refines app timeout t l :
  events_ok t l →
  ∃ redis, resolve_run ∅ app timeout l =
    Ok (spec_run (int_total_seconds timeout * second) ∅ l, redis).
Proof.
  assert (implements app (int_total_seconds timeout) t ∅ ∅) as Hi by done.
  revert Hi. generalize (∅ : Activity) (∅ : store pystr). revert t.
  induction l as [|e l IH]; intros t a redis Hi He; simpl; [eauto |].
  destruct He as (Hle & Hc & He).
  destruct (resolve_simulates app timeout redis a (se_at e) (se_device e) (se_name e)
              (se_candidate e)) as (redis' & E & Hi'); [done | by eapply implements_later |].
  rewrite E. destruct (spec_resolve _ _ _ _ _ _) as [d a'].
  destruct (IH (se_at e) a' redis' Hi' He) as (redis'' & E'). simpl in *.
  rewrite E'. simpl. eauto.
Qed.

(** ** One pipeline for a batch *)

Section Batch.
Context (redis : store pystr) (now : datetime) (app : pystr) (timeout : timedelta).
Context (mint : pystr → uuid).

Abbreviation secs := (int_total_seconds timeout).

(** Every live session of the app holds an id the tracker wrote. *)
Definition sessions_valid : Prop :=
  ∀ d e, peek now (session_key app d) redis = Some e →
    ∃ id, uuid_ok id ∧ e_value e = str_of_uuid id.

Definition is_live (d : pystr) : bool :=
  bool_decide (is_Some (peek now (session_key app d) redis)).

Definition live_id (d : pystr) : uuid :=
  match rget now (session_key app d) redis with
  | Some raw => default 0%N (uuid_of_str raw)
  | None => mint d
  end.

(** The decision on one device of the batch. *)
Definition batch_decision (p : pystr * pystr) : SessionDecision :=
  decision (live_id (fst p)) (negb (is_non_engagement (snd p)) && negb (is_live (fst p))).

(** The devices one after the other, through [resolve]. *)
Fixpoint resolve_each (m : store pystr) (devices : list (pystr * pystr))
    (ds : list (pystr * SessionDecision))
    : result pystr (list (pystr * SessionDecision) * store pystr) :=
  match devices with
  | [] => Ok (ds, m)
  | (d, name) :: devices' =>
      let* r := resolve m (at_once now) app d name timeout (mint d) in
      resolve_each (snd r) devices' (od_set d (fst r) ds)
  end.

(** What one engagement event does to the store. *)
Definition touch (m : store pystr) (d : pystr) : store pystr :=
  if bool_decide (is_Some (peek now (session_key app d) m))
  then rexpire now (session_key app d) secs m
  else rset_ex now (session_key app d) (str_of_uuid (mint d)) secs m.

Lemma live_id_spec d :
  sessions_valid →
  match rget now (session_key app d) redis with
  | Some raw => to_uuid raw = Ok (live_id d) ∧ is_live d = true ∧ raw ≠ []
  | None => live_id d = mint d ∧ is_live d = false
  end.
Proof.
  intros Hv. specialize (Hv d). unfold live_id, is_live, rget.
  destruct (peek now (session_key app d) redis) as [e|]; simpl.
  - destruct (Hv e eq_refl) as (id & Hok & ->). unfold to_uuid.
    rewrite uuid_of_str_of_uuid by done. split_and!; [done | done |].
    destruct (str_of_uuid_cons id) as (c & s & ->). done.
  - done.
Qed.

Lemma peek_touch_ne m d d' t :
  d ≠ d' → peek t (session_key app d') (touch m d) = peek t (session_key app d') m.
Proof.
  intros Hne. assert (session_key app d ≠ session_key app d') by (intros H%session_key_inj; done).
  unfold touch. case_bool_decide; [| by apply peek_set_ne].
  unfold rexpire. case_match; [by apply peek_insert_ne | done].
Qed.

Lemma resolve_batch m d name :
  sessions_valid → (∀ t, peek t (session_key app d) m = peek t (session_key app d) redis) →
  resolve m (at_once now) app d name timeout (mint d) =
  Ok (batch_decision (d, name), if is_non_engagement name then m else touch m d).
Proof.
  intros Hv Hm. pose proof (live_id_spec d Hv) as Hl.
  unfold resolve, batch_decision, rset_nx, touch, rget, at_once in *.
  cbn [t_set t_get t_expire fst snd]. rewrite !Hm. unfold is_live in *.
  destruct (peek now (session_key app d) redis) as [e|] eqn:E;
    cbn [fmap option_fmap option_map] in Hl |- *.
  - destruct Hl as (Hu & Hb & Hne). rewrite Hb. destruct (is_non_engagement name).
    + destruct (e_value e) as [|c raw]; [done |]. by rewrite Hu.
    + unfold rget. rewrite Hm, E. cbn [fmap option_fmap option_map]. by rewrite Hu.
  - destruct Hl as (Hu & Hb). rewrite Hb, Hu. by destruct (is_non_engagement name).
Qed.

(** The devices that engaged, in order. *)
Definition engaged_of (devices : list (pystr * pystr)) : list pystr :=
  fst <$> List.filter (λ d, negb (is_non_engagement (snd d))) devices.

Lemma resolve_each_spec devices m ds :
  sessions_valid → NoDup (fst <$> devices) →
  (∀ d t, d ∈ fst <$> devices → peek t (session_key app d) m = peek t (session_key app d) redis) →
  resolve_each m devices ds =
  Ok (od_of ((λ p, (fst p, batch_decision p)) <$> devices) ds,
      fold_left touch (engaged_of devices) m).
Proof.
  intros Hv. revert m ds. induction devices as [|[d name] l IH]; intros m ds Hn Hm; simpl; [done |].
  rewrite fmap_cons in Hn. apply NoDup_cons in Hn as [Hd Hn].
  rewrite (resolve_batch m d name Hv) by (intros t; apply Hm; by left).
  cbn [rbind fst snd]. rewrite IH; [| done |].
  - unfold engaged_of. simpl. by destruct (is_non_engagement name).
  - intros d' t Hd'. assert (d ≠ d') by (intros ->; done).
    destruct (is_non_engagement name); [| rewrite peek_touch_ne by done]; apply Hm; by right.
Qed.

(** The phases of [resolve_many], each as a fold over its devices. *)
Lemma set_all_fst l m :
  NoDup l → (∀ d, d ∈ l → peek now (session_key app d) m = peek now (session_key app d) redis) →
  fst (set_all m now app secs mint l) = (λ d, negb (is_live d)) <$> l.
Proof.
  revert m. induction l as [|d l IH]; intros m Hn Hm; simpl; [done |].
  apply NoDup_cons in Hn as [Hd Hn]. unfold rset_nx. rewrite Hm by by left.
  unfold is_live at 1. destruct (peek now (session_key app d) redis) as [e|] eqn:E.
  - specialize (IH m Hn ltac:(set_solver)). destruct (set_all m _ _ _ _ _). simpl in *.
    by rewrite IH.
  - set (m1 := rset_ex now _ _ _ m).
    assert (∀ d', d' ∈ l → peek now (session_key app d') m1 = peek now (session_key app d') redis)
      as Hm1.
    { intros d' Hd'. unfold m1. rewrite peek_set_ne; [apply Hm; by right |].
      intros ->%session_key_inj. done. }
    specialize (IH m1 Hn Hm1). destruct (set_all m1 _ _ _ _ _). simpl in *. by rewrite IH.
Qed.

Lemma set_all_snd l m :
  snd (set_all m now app secs mint l) =
  fold_left (λ m d, snd (rset_nx now (session_key app d) (str_of_uuid (mint d)) secs m)) l m.
Proof.
  revert m. induction l as [|d l IH]; intros m; [done |]. cbn [set_all fold_left].
  destruct (rset_nx now (session_key app d) _ secs m) as [b m1]. cbn [snd]. rewrite <- IH.
  by destruct (set_all m1 now app secs mint l).
Qed.

Lemma adopt_all_fst l m :
  NoDup l → (∀ d, d ∈ l → peek now (session_key app d) m = peek now (session_key app d) redis) →
  fst (adopt_all m now app secs l) = (λ d, rget now (session_key app d) redis) <$> l.
Proof.
  revert m. induction l as [|d l IH]; intros m Hn Hm; simpl; [done |].
  apply NoDup_cons in Hn as [Hd Hn]. set (m1 := rexpire now _ secs m).
  assert (∀ d', d' ∈ l → peek now (session_key app d') m1 = peek now (session_key app d') redis)
    as Hm1.
  { intros d' Hd'. rewrite <- Hm by (by right). unfold m1. rewrite !peek_live, rexpire_local.
    rewrite decide_False; [done |]. intros ->%session_key_inj. done. }
  specialize (IH m1 Hn Hm1). destruct (adopt_all m1 _ _ _ _). simpl in *.
  rewrite IH. f_equal. unfold rget. by rewrite Hm by by left.
Qed.

Lemma adopt_all_snd l m :
  snd (adopt_all m now app secs l) =
  fold_left (λ m d, rexpire now (session_key app d) secs m) l m.
Proof.
  revert m. induction l as [|d l IH]; intros m; [done |]. cbn [adopt_all fold_left].
  rewrite <- IH. by destruct (adopt_all _ now app secs l).
Qed.

Lemma decide_adopted_spec l ds :
  sessions_valid → (∀ d, d ∈ l → is_live d = true) →
  decide_adopted mint (zip l ((λ d, rget now (session_key app d) redis) <$> l)) ds =
  Ok (od_of ((λ d, (d, decision (live_id d) false)) <$> l) ds).
Proof.
  intros Hv. revert ds. induction l as [|d l IH]; intros ds Hl; [done |].
  rewrite fmap_cons. cbn [zip zip_with decide_adopted].
  pose proof (live_id_spec d Hv) as Hd. destruct (rget _ _ _) as [raw|].
  - destruct Hd as (-> & _ & _). cbn [rbind]. apply IH. intros x Hx. apply Hl. by right.
  - destruct Hd as [_ Hd]. rewrite Hl in Hd; [done | by left].
Qed.

Lemma decide_idle_spec l ds (m : store pystr) :
  sessions_valid → (∀ d, d ∈ l → rget now (session_key app d) m = rget now (session_key app d) redis) →
  decide_idle mint (zip l ((λ d, rget now (session_key app d) m) <$> l)) ds =
  Ok (od_of ((λ d, (d, decision (live_id d) false)) <$> l) ds).
Proof.
  intros Hv. revert ds. induction l as [|d l IH]; intros ds Hl; [done |].
  rewrite fmap_cons. cbn [zip zip_with decide_idle]. rewrite (Hl d) by by left.
  pose proof (live_id_spec d Hv) as Hd. destruct (rget _ _ redis) as [[|c raw]|].
  - by destruct Hd as (_ & _ & ?).
  - destruct Hd as (-> & _ & _). cbn [rbind]. apply IH. intros x Hx. apply Hl. by right.
  - destruct Hd as [<- _]. apply IH. intros x Hx. apply Hl. by right.
Qed.

Lemma created_spec (f : pystr → bool) l ds :
  fold_left (λ ds p, if snd p : bool then od_set (fst p) (decision (mint (fst p)) true) ds else ds)
    (zip l (f <$> l)) ds =
  od_of ((λ d, (d, decision (mint d) true)) <$> List.filter f l) ds.
Proof.
  revert ds. induction l as [|d l IH]; intros ds; [done |].
  cbn [fmap list_fmap zip zip_with fold_left List.filter fst snd]. destruct (f d); apply IH.
Qed.

Definition touch_entry (d : pystr) (o : option (entry pystr)) : option (entry pystr) :=
  match live_entry now o with
  | Some e => Some (Entry (e_value e) (Some (now + secs * second)))
  | None => Some (Entry (str_of_uuid (mint d)) (Some (now + secs * second)))
  end.

Lemma touch_local d m k :
  touch m d !! k = if decide (k = session_key app d) then touch_entry d (m !! k) else m !! k.
Proof.
  unfold touch, touch_entry. rewrite peek_live. case_bool_decide as Hb.
  - rewrite rexpire_local. case_decide; [subst k | done]. unfold expire_entry.
    destruct Hb as [e Hb]. by rewrite Hb.
  - unfold rset_ex. case_decide; [subst k; rewrite lookup_insert_eq | by rewrite lookup_insert_ne].
    destruct (live_entry now (m !! session_key app d)) eqn:E; [| done].
    destruct Hb. by eexists.
Qed.

(** The store after the two pipelines is the one [resolve] leaves. *)
Lemma resolve_many_store l :
  NoDup l →
  fold_left (λ m d, rexpire now (session_key app d) secs m) (List.filter is_live l)
    (fold_left (λ m d, snd (rset_nx now (session_key app d) (str_of_uuid (mint d)) secs m)) l redis)
  = fold_left touch l redis.
Proof.
  intros Hn. assert (NoDup (session_key app <$> l)) as Hk.
  { apply NoDup_fmap_2; [| done]. intros ??. apply session_key_inj. }
  assert (NoDup (session_key app <$> List.filter is_live l)) as Hk'.
  { apply NoDup_fmap_2; [intros ??; apply session_key_inj |]. rewrite NoDup_ListNoDup in *.
    by apply List.NoDup_filter. }
  apply map_eq. intros k.
  rewrite (foldl_local (session_key app) (λ d m, rexpire now (session_key app d) secs m)
    (λ _, expire_entry now secs) _ _ _ (λ d m k, rexpire_local now (session_key app d) secs m k) Hk').
  rewrite (foldl_local (session_key app)
    (λ d m, snd (rset_nx now (session_key app d) (str_of_uuid (mint d)) secs m))
    (λ d, nx_entry now (str_of_uuid (mint d)) secs) _ _ _
    (λ d m k, rset_nx_local now (session_key app d) (str_of_uuid (mint d)) secs m k) Hk).
  etrans; [| symmetry; apply (foldl_local (session_key app) (λ d m, touch m d) touch_entry);
               [apply touch_local | done]].
  destruct (List.find (λ d, bool_decide (session_key app d = k)) l) as [d|] eqn:Ef.
  - apply find_elem in Ef as [Hin Hkd]. apply bool_decide_eq_true in Hkd as <-.
    assert (∀ x, x ∈ List.filter is_live l →
      bool_decide (session_key app x = session_key app d) = true → x = d) as Hu.
    { intros x _ Hx%bool_decide_eq_true. by apply session_key_inj in Hx. }
    destruct (live_entry now (redis !! session_key app d)) as [e|] eqn:El.
    + rewrite (find_unique _ (List.filter is_live l) d).
      * unfold expire_entry, nx_entry, touch_entry. by rewrite !El.
      * intros a b ????. rewrite (Hu a), (Hu b); done.
      * apply elem_of_lfilter. split; [done |]. unfold is_live. rewrite peek_live, El.
        apply bool_decide_true. by eexists.
      * by apply bool_decide_true.
    + destruct (List.find _ (List.filter is_live l)) as [x|] eqn:Ex;
        [| unfold nx_entry, touch_entry; by rewrite El].
      apply find_elem in Ex as [Hx Hxk]. rewrite (Hu x) in Hx by done.
      apply elem_of_lfilter in Hx as [_ Hx]. unfold is_live in Hx. rewrite peek_live, El in Hx.
      apply bool_decide_eq_true in Hx as [? ?]. done.
  - destruct (List.find _ (List.filter is_live l)) as [x|] eqn:Ex; [| done].
    apply find_elem in Ex as [Hx Hxk]. apply elem_of_lfilter in Hx as [Hx _].
    rewrite (proj1 (find_none_iff _ _) Ef x Hx) in Hxk. done.
Qed.

Lemma set_all_keeps_live l d :
  NoDup l → is_live d = true →
  peek now (session_key app d)
    (fold_left (λ m d, snd (rset_nx now (session_key app d) (str_of_uuid (mint d)) secs m)) l redis)
  = peek now (session_key app d) redis.
Proof.
  intros Hn Hl. unfold is_live in Hl. apply bool_decide_eq_true in Hl as [e Hl].
  rewrite !peek_live in *. rewrite (foldl_local (session_key app)
    (λ d m, snd (rset_nx now (session_key app d) (str_of_uuid (mint d)) secs m))
    (λ d, nx_entry now (str_of_uuid (mint d)) secs) _ _ _
    (λ d m k, rset_nx_local now (session_key app d) (str_of_uuid (mint d)) secs m k)).
  - case_match; [unfold nx_entry; by rewrite Hl | done].
  - apply NoDup_fmap_2; [intros ??; apply session_key_inj | done].
Qed.

Lemma touch_other l d :
  NoDup l → d ∉ l →
  peek now (session_key app d) (fold_left touch l redis) = peek now (session_key app d) redis.
Proof.
  intros Hn Hd. rewrite !peek_live. f_equal.
  etrans; [apply (foldl_local (session_key app) (λ d m, touch m d) touch_entry);
             [apply touch_local |] |].
  - apply NoDup_fmap_2; [intros ??; apply session_key_inj | done].
  - rewrite (proj2 (find_none_iff _ _)); [done |]. intros x Hx. apply bool_decide_eq_false.
    intros ->%session_key_inj. done.
Qed.

(** The dict [resolve_many] returns, in the order it is filled. *)
Definition batch_pairs (eng idle : list pystr) : list (pystr * SessionDecision) :=
  ((λ d, (d, decision (mint d) true)) <$> List.filter (λ d, negb (is_live d)) eng) ++
  ((λ d, (d, decision (live_id d) false)) <$> List.filter is_live eng) ++
  ((λ d, (d, decision (live_id d) false)) <$> idle).

Definition idle_of (devices : list (pystr * pystr)) : list pystr :=
  fst <$> List.filter (λ d, is_non_engagement (snd d)) devices.

Lemma resolve_many_run devices :
  sessions_valid → NoDup (fst <$> devices) →
  resolve_many redis (at_once now) app devices timeout mint =
  Ok (od_of (batch_pairs (engaged_of devices) (idle_of devices)) [],
      fold_left touch (engaged_of devices) redis).
Proof.
  intros Hv Hn. unfold resolve_many, at_once. cbn [t_set t_get t_expire].
  fold (engaged_of devices). fold (idle_of devices). set (eng := engaged_of devices).
  assert (NoDup eng) as Hne by by apply NoDup_fst_filter.
  pose proof (set_all_fst eng redis Hne ltac:(done)) as E1.
  pose proof (set_all_snd eng redis) as E2.
  destruct (set_all redis now app secs mint eng) as [created redis1]. simpl in E1, E2. subst created.
  rewrite filter_zip_fmap.
  replace (List.filter (λ a, negb (negb (is_live a))) eng) with (List.filter is_live eng)
    by (apply List.filter_ext; intros; by rewrite negb_involutive).
  assert (NoDup (List.filter is_live eng)) as Hnl
    by (rewrite NoDup_ListNoDup in *; by apply List.NoDup_filter).
  assert (∀ d, d ∈ List.filter is_live eng → is_live d = true) as Hlv
    by (intros d Hd; by apply elem_of_lfilter in Hd as [_ ?]).
  assert (∀ d, d ∈ List.filter is_live eng →
    peek now (session_key app d) redis1 = peek now (session_key app d) redis) as Hpk
    by (intros d Hd; rewrite E2; apply set_all_keeps_live; auto).
  pose proof (adopt_all_fst (List.filter is_live eng) redis1 Hnl Hpk) as E3.
  pose proof (adopt_all_snd (List.filter is_live eng) redis1) as E4.
  destruct (adopt_all redis1 now app secs _) as [vals redis2]. simpl in E3, E4. subst vals.
  rewrite E2, resolve_many_store in E4 by done. subst redis2.
  rewrite created_spec, decide_adopted_spec by done. cbn [rbind].
  rewrite decide_idle_spec; [| done |].
  - cbn [rbind]. unfold batch_pairs, od_of. by rewrite !fold_left_app.
  - intros d Hd. unfold rget. rewrite touch_other; [done | done |]. intros He.
    apply elem_of_fst_filter in Hd as (n & Hin & Hni), He as (n' & Hin' & Hni'). simpl in *.
    rewrite (NoDup_fst_functional devices d n n') in Hni by done. by rewrite Hni in Hni'.
Qed.

Lemma elem_of_batch_pairs devices d v :
  sessions_valid →
  (d, v) ∈ batch_pairs (engaged_of devices) (idle_of devices) ↔
  (d, v) ∈ (λ p, (fst p, batch_decision p)) <$> devices.
Proof.
  intros Hv. pose proof (live_id_spec d Hv) as Hl. unfold batch_pairs.
  rewrite !elem_of_app, !list_elem_of_fmap. setoid_rewrite elem_of_lfilter.
  setoid_rewrite elem_of_fst_filter. unfold batch_decision. split.
  - intros [(x & E & (n & ? & Hn) & Hx)|[(x & E & (n & ? & Hn) & Hx)|(x & E & n & ? & Hn)]];
      injection E as <- ->; exists (d, n); simpl in *; (split; [| done]).
    + rewrite Hn. unfold rget in Hl. unfold is_live in *.
      destruct (peek _ _ _); simpl in Hl; [done |]. by destruct Hl as [-> _].
    + by rewrite Hx, andb_false_r.
    + by rewrite Hn.
  - intros ([x n] & E & Hin). simpl in E. injection E as <- ->.
    destruct (is_non_engagement n) eqn:Hn; simpl.
    + right. right. exists d. eauto.
    + destruct (is_live d) eqn:Hb; simpl.
      * right. left. exists d. split; [done |]. split; [| done]. exists n. by rewrite Hn.
      * left. exists d. split; [| split; [exists n; by rewrite Hn | by rewrite Hb]].
        unfold rget in Hl. destruct (peek _ _ _); simpl in Hl; [by destruct Hl as (_ & ? & _) |].
        by destruct Hl as [-> _].
Qed.
End Batch.

(** The batched routine agrees with the reference one: for distinct devices and
    a store the tracker wrote, [resolve_many] never raises, leaves the store that
    resolving the devices one after the other leaves, and decides the same on every
    device. *)
Theorem resolve_many_resolves redis now app timeout mint devices :
  sessions_valid redis now app → NoDup (fst <$> devices) →
  ∃ ds ds' redis',
    resolve_many redis (at_once now) app devices timeout mint = Ok (ds, redis') ∧
    resolve_each now app timeout mint redis devices [] = Ok (ds', redis') ∧
    ∀ d, od_get d ds = od_get d ds'.
Proof.
  intros Hv Hn. eexists _, _, _. split; [by apply resolve_many_run |].
  split; [by apply resolve_each_spec |]. intros d. apply option_eq. intros v.
  assert (∀ p q, p ∈ (λ p, (fst p, batch_decision redis now app mint p)) <$> devices →
    q ∈ (λ p, (fst p, batch_decision redis now app mint p)) <$> devices →
    fst p = fst q → snd p = snd q) as Hf.
  { intros p q ([d1 n1] & -> & H1)%list_elem_of_fmap ([d2 n2] & -> & H2)%list_elem_of_fmap.
    simpl. intros ->. by rewrite (NoDup_fst_functional devices d2 n1 n2). }
  rewrite !od_get_of; [| done |].
  - rewrite elem_of_batch_pairs by done. simpl. naive_solver.
  - intros [d1 v1] [d2 v2]. rewrite !elem_of_batch_pairs by done. apply Hf.
Qed.
End Tracker.

(** ** Witnesses *)

Definition ex_events : list SessionEvent :=
  [ {| se_at := 0; se_device := py "d"; se_name := py "app_open"; se_candidate := 1%N |};
    {| se_at := 29 * minute; se_device := py "d"; se_name := py "view"; se_candidate := 2%N |};
    {| se_at := 58 * minute; se_device := py "d"; se_name := py "push_received"; se_candidate := 3%N |};
    {| se_at := 59 * minute; se_device := py "d"; se_name := py "view"; se_candidate := 4%N |} ].

(** The push does not extend the session the second view would have joined. *)
Lemma resolve_refines_witness :
  ∃ redis, @resolve_run ascii_unicode ∅ (py "app") DEFAULT_TIMEOUT ex_events =
    Ok (map (λ p, decision (fst p) (snd p)) [(1%N, true); (1%N, false); (1%N, false); (4%N, true)],
        redis).
Proof.
  apply (@resolve_refines ascii_unicode (py "app") DEFAULT_TIMEOUT 0 ex_events).
  vm_compute. intuition discriminate.
Defined.

Definition ex_live : store pystr :=
  rset_ex 0 (session_key (py "app") (py "d1")) (str_of_uuid 7%N) 1800 ∅.

Lemma ex_live_valid : sessions_valid ex_live (60 * second) (py "app").
Proof.
  intros d e H. destruct (decide (d = py "d1")) as [-> | Hne].
  - unfold ex_live in H. rewrite peek_set_eq in H by by vm_compute.
    injection H as <-. by exists 7%N.
  - unfold ex_live in H. rewrite peek_set_ne in H; [done |]. intros E%session_key_inj. done.
Qed.

Lemma resolve_many_resolves_witness :
  ∃ ds ds' redis',
    @resolve_many ascii_unicode ex_live (at_once (60 * second)) (py "app")
      [(py "d1", py "view"); (py "d2", py "view")] DEFAULT_TIMEOUT (λ _, 9%N) = Ok (ds, redis') ∧
    @resolve_each ascii_unicode (60 * second) (py "app") DEFAULT_TIMEOUT (λ _, 9%N) ex_live
      [(py "d1", py "view"); (py "d2", py "view")] [] = Ok (ds', redis') ∧
    ∀ d, od_get d ds = od_get d ds'.
Proof.
  apply resolve_many_resolves; [apply ex_live_valid |].
  apply (bool_decide_unpack _). vm_compute. exact I.
Defined.

(** ** What the code does beyond its documentation *)

(** When a session expires between the two pipelines of a batch, the device is told
    a session started but none is stored, so its next event starts another one;
    [resolve] stores the session in the same race. *)
Lemma resolve_many_loses_the_session :
  let t := {| t_set := 1799 * second; t_get := 1801 * second; t_expire := 1801 * second |} in
  let after r := match r with
                 | Ok (_, m) => @current_session ascii_unicode m (1802 * second) (py "app") (py "d1")
                 | Err e => Err e
                 end in
  after (@resolve_many ascii_unicode ex_live t (py "app") [(py "d1", py "view")] DEFAULT_TIMEOUT
           (λ _, 9%N)) = Ok None ∧
  match @resolve ascii_unicode ex_live t (py "app") (py "d1") (py "view") DEFAULT_TIMEOUT 9%N with
  | Ok (_, m) => @current_session ascii_unicode m (1802 * second) (py "app") (py "d1")
  | Err e => Err e
  end = Ok (Some 9%N).
Proof. split; vm_compute; reflexivity. Qed.
