(* ===== verification/Consent.v ===== *)
(** * Consent (mmp_ingest/consent.py)

    The cached decision of a device is the dict of strings the code encodes; the
    enum constructors [Purpose(k)] and [State(v)] raise on any other string.
    [denial_is_honoured] is the module's promise, for as long as the cache keeps
    the decision. *)

From S2P Require Import Prelude Redis.

#[local] Open Scope Z_scope.
#[local] Open Scope mmp_scope.

Definition CONSENT_PREFIX : pystr := py "consent:".

Definition consent_cache_key (app_id anonymous_id : pystr) : pystr :=
  CONSENT_PREFIX ++ app_id ++ py ":" ++ anonymous_id.

Definition CACHE_TTL : timedelta := 5 * minute.

Inductive Purpose := ANALYTICS | ATTRIBUTION | ADVERTISING.
Inductive State := UNKNOWN | GRANTED | DENIED.
Inductive Mode := PERMISSIVE | STRICT.

#[global] Instance Purpose_eq_dec : EqDecision Purpose.
Proof. solve_decision. Defined.
#[global] Instance State_eq_dec : EqDecision State.
Proof. solve_decision. Defined.

Definition purpose_value (p : Purpose) : pystr :=
  match p with
  | ANALYTICS => py "analytics"
  | ATTRIBUTION => py "attribution"
  | ADVERTISING => py "advertising"
  end.

Definition state_value (s : State) : pystr :=
  match s with
  | UNKNOWN => py "unknown"
  | GRANTED => py "granted"
  | DENIED => py "denied"
  end.

(** [Purpose(k)] and [State(v)]. *)
Definition purpose_of (k : pystr) : result pystr Purpose :=
  if bool_decide (k = py "analytics") then Ok ANALYTICS
  else if bool_decide (k = py "attribution") then Ok ATTRIBUTION
  else if bool_decide (k = py "advertising") then Ok ADVERTISING
  else Err k.

Definition state_of (v : pystr) : result pystr State :=
  if bool_decide (v = py "unknown") then Ok UNKNOWN
  else if bool_decide (v = py "granted") then Ok GRANTED
  else if bool_decide (v = py "denied") then Ok DENIED
  else Err v.

Definition PURPOSE_FIELDS : list (Purpose * list pystr) :=
  [(ATTRIBUTION, [py "device_hash"; py "install_referrer"; py "click_id"])].

Definition ALWAYS_RETAINED : list pystr :=
  [py "event_id"; py "received_at"; py "occurred_at"; py "organization_id"; py "app_id";
   py "event_name"; py "anonymous_id"].

Record ConsentSet := { states : list (Purpose * State); mode : Mode }.

Definition state (c : ConsentSet) (p : Purpose) : State := default UNKNOWN (od_get p (states c)).

Definition allows (c : ConsentSet) (p : Purpose) : bool :=
  match state c p with
  | DENIED => false
  | GRANTED => true
  | UNKNOWN => match mode c with PERMISSIVE => true | STRICT => false end
  end.

Definition is_empty (c : ConsentSet) : bool := match states c with [] => true | _ => false end.

(** [_Cached]: the decision as it is encoded. *)
Definition Cached : Type := list (pystr * pystr).

(** [{Purpose(k): State(v) for k, v in cached.states.items()}]. *)
Fixpoint decode_states (items : Cached) (acc : list (Purpose * State))
    : result pystr (list (Purpose * State)) :=
  match items with
  | [] => Ok acc
  | (k, v) :: items' =>
      let* p := purpose_of k in
      let* s := state_of v in
      decode_states items' (od_set p s acc)
  end.

Definition encode_states (l : list (Purpose * State)) : Cached :=
  (λ ps, (purpose_value (fst ps), state_value (snd ps))) <$> l.

Definition consent_of (raw : option Cached) (m : Mode) : result pystr ConsentSet :=
  match raw with
  | None => Ok {| states := []; mode := m |}
  | Some cached =>
      let* l := decode_states cached [] in Ok {| states := l; mode := m |}
  end.

(** [ConsentGate.lookup]. *)
Definition lookup_consent (redis : store Cached) (now : datetime) (app_id anonymous_id : pystr)
    (m : Mode) : result pystr ConsentSet :=
  consent_of (rget now (consent_cache_key app_id anonymous_id) redis) m.

(** [list(dict.fromkeys(ids))]. *)
Definition fromkeys (ids : list pystr) : list pystr :=
  fst <$> od_of ((λ d, (d, tt)) <$> ids) [].

Fixpoint resolve_consents (l : list (pystr * option Cached)) (m : Mode)
    (resolved : list (pystr * ConsentSet)) : result pystr (list (pystr * ConsentSet)) :=
  match l with
  | [] => Ok resolved
  | (d, raw) :: l' =>
      let* c := consent_of raw m in resolve_consents l' m (od_set d c resolved)
  end.

(** [ConsentGate.lookup_many]: one pipelined read. *)
Definition lookup_many (redis : store Cached) (now : datetime) (app_id : pystr)
    (anonymous_ids : list pystr) (m : Mode) : result pystr (list (pystr * ConsentSet)) :=
  let unique := fromkeys anonymous_ids in
  let results := (λ d, rget now (consent_cache_key app_id d) redis) <$> unique in
  resolve_consents (zip unique results) m [].

(** [ConsentGate.record]. *)
Definition record_consent (redis : store Cached) (now : datetime) (app_id anonymous_id : pystr)
    (new : list (Purpose * State)) (ttl : timedelta) : result pystr (store Cached) :=
  let* merged := lookup_consent redis now app_id anonymous_id PERMISSIVE in
  let combined := od_of new (states merged) in
  Ok (rset_ex now (consent_cache_key app_id anonymous_id) (encode_states combined)
        (int_total_seconds ttl) redis).

(** [ConsentGate.forget]. *)
Definition forget_consent (redis : store Cached) (app_id anonymous_id : pystr) : store Cached :=
  rdel (consent_cache_key app_id anonymous_id) redis.

Definition minimise {V} (properties : list (pystr * V)) (consent : ConsentSet)
    : list (pystr * V) :=
  match properties with
  | [] => properties
  | _ =>
      fold_left (λ result pf,
        if allows consent (fst pf) then result
        else fold_left (λ result name,
               if bool_decide (name ∈ fst <$> result) then od_del name result else result)
               (snd pf) result)
        PURPOSE_FIELDS properties
  end.

Definition may_attribute (consent : ConsentSet) : bool := allows consent ATTRIBUTION.

Definition may_forward (consent : ConsentSet) : bool :=
  allows consent ADVERTISING && allows consent ATTRIBUTION.

(** ** Lemmas *)

Lemma consent_key_inj app d d' : consent_cache_key app d = consent_cache_key app d' → d = d'.
Proof. unfold consent_cache_key. intros H. by apply app_inv_head, app_inv_head, app_inv_head in H. Qed.

(** What is encoded is decoded. *)
Lemma decode_encode_acc l acc :
  decode_states (encode_states l) acc = Ok (od_of l acc).
Proof.
  revert acc. induction l as [|[p s] l IH]; intros acc; simpl; [done |].
  assert (purpose_of (purpose_value p) = Ok p) as -> by by destruct p.
  assert (state_of (state_value s) = Ok s) as -> by by destruct s. simpl. by rewrite IH.
Qed.

Lemma decode_encode l : NoDup (fst <$> l) → decode_states (encode_states l) [] = Ok l.
Proof. intros Hn. rewrite decode_encode_acc, od_of_app by done. done. Qed.

(** The cache only holds dicts the gate wrote. *)
Definition cache_valid (redis : store Cached) : Prop :=
  ∀ k e, redis !! k = Some e → ∃ l, NoDup (fst <$> l) ∧ e_value e = encode_states l.

Lemma lookup_valid redis now app d m :
  cache_valid redis → ∃ c, lookup_consent redis now app d m = Ok c ∧ NoDup (fst <$> states c) ∧
    mode c = m ∧ ∀ m', lookup_consent redis now app d m' = Ok {| states := states c; mode := m' |}.
Proof.
  intros Hv. unfold lookup_consent, consent_of, rget, peek.
  destruct (redis !! _) as [e|] eqn:E; [| eexists; split_and!; [done | constructor | done | done]].
  destruct (Hv _ _ E) as (l & Hn & Hl).
  destruct (live now e); simpl; [| eexists; split_and!; [done | constructor | done | done]].
  rewrite Hl, decode_encode by done. simpl. eexists. by split_and!.
Qed.

Lemma record_consent_ok redis now app d new ttl :
  cache_valid redis →
  ∃ c, lookup_consent redis now app d PERMISSIVE = Ok c ∧ NoDup (fst <$> states c) ∧
    record_consent redis now app d new ttl =
      Ok (rset_ex now (consent_cache_key app d) (encode_states (od_of new (states c)))
            (int_total_seconds ttl) redis) ∧
    cache_valid (rset_ex now (consent_cache_key app d) (encode_states (od_of new (states c)))
            (int_total_seconds ttl) redis).
Proof.
  intros Hv. destruct (lookup_valid redis now app d PERMISSIVE Hv) as (c & Hc & Hn & _ & _).
  exists c. split_and!; [done | done | by unfold record_consent; rewrite Hc |].
  intros k e. unfold rset_ex. destruct (decide (k = consent_cache_key app d)) as [-> | Hne].
  - rewrite lookup_insert_eq. intros [= <-]. simpl. eexists. split; [| done]. by apply od_of_NoDup.
  - rewrite lookup_insert_ne by done. apply Hv.
Qed.

Definition ATTRIBUTION_FIELDS : list pystr :=
  [py "device_hash"; py "install_referrer"; py "click_id"].

Lemma od_del_absent {V} k (d : list (pystr * V)) : k ∉ fst <$> d → od_del k d = d.
Proof.
  unfold od_del. induction d as [|[k0 v] d IH]; simpl; [done |]. intros Hk.
  rewrite bool_decide_false by set_solver. simpl. f_equal. apply IH. set_solver.
Qed.

(** Deleting several keys, present or not, keeps the other entries in their order. *)
Lemma del_all {V} names (d : list (pystr * V)) :
  fold_left (λ r name, if bool_decide (name ∈ fst <$> r) then od_del name r else r) names d
  = List.filter (λ p, negb (bool_decide (fst p ∈ names))) d.
Proof.
  revert d. induction names as [|n names IH]; intros d; simpl.
  { induction d as [|p d IH]; simpl; [done |]. by f_equal. }
  assert ((if bool_decide (n ∈ fst <$> d) then od_del n d else d) = od_del n d) as ->.
  { case_bool_decide; [done |]. by rewrite od_del_absent. }
  rewrite IH. unfold od_del. clear IH. induction d as [|[k v] d IH]; simpl; [done |].
  destruct (bool_decide_reflect (k = n)) as [-> | Hne]; simpl.
  - by rewrite (bool_decide_true (n ∈ n :: names)) by set_solver.
  - rewrite (bool_decide_ext (k ∈ n :: names) (k ∈ names)) by set_solver.
    case_match; [| done]. by f_equal.
Qed.

Lemma minimise_filter {V} (props : list (pystr * V)) c :
  minimise props c =
  if allows c ATTRIBUTION then props
  else List.filter (λ p, negb (bool_decide (fst p ∈ ATTRIBUTION_FIELDS))) props.
Proof.
  unfold minimise. destruct props as [|p props]; [by case_match |].
  change PURPOSE_FIELDS with [(ATTRIBUTION, ATTRIBUTION_FIELDS)].
  generalize ATTRIBUTION_FIELDS. intros fields. cbn [fold_left fst snd].
  destruct (allows c ATTRIBUTION); [done |]. apply del_all.
Qed.

(** [minimise] removes exactly the fields that serve attribution, and only when
    attribution is not allowed: every other property keeps its value and its place,
    and the fields that are always retained are never touched. *)
Theorem minimise_exact {V} (props : list (pystr * V)) c :
  minimise props c =
    List.filter (λ p, allows c ATTRIBUTION || negb (bool_decide (fst p ∈ ATTRIBUTION_FIELDS))) props
  ∧ (∀ k v, k ∈ ALWAYS_RETAINED → (k, v) ∈ minimise props c ↔ (k, v) ∈ props)
  ∧ (∀ k v, may_attribute c = false → k ∈ ATTRIBUTION_FIELDS → (k, v) ∉ minimise props c).
Proof.
  rewrite minimise_filter. unfold may_attribute. split_and!.
  - case_match; simpl; [| done]. induction props as [|p l IH]; simpl; [done |]. by f_equal.
  - intros k v Hk. case_match; [done |]. rewrite elem_of_lfilter. simpl.
    assert (k ∉ ATTRIBUTION_FIELDS) as Hn.
    { clear -Hk. unfold ALWAYS_RETAINED in Hk. intros Hf.
      assert (Forall (λ x, x ∉ ATTRIBUTION_FIELDS) ALWAYS_RETAINED) as H
        by (apply (bool_decide_unpack _); by vm_compute).
      rewrite Forall_forall in H. by apply (H k). }
    rewrite bool_decide_false by done. tauto.
  - intros k v -> Hk. rewrite elem_of_lfilter. simpl. rewrite bool_decide_true by done.
    by intros [_ ?].
Qed.

(** ** Reports of one app, one after the other *)

Record Report := { rp_at : datetime; rp_device : pystr; rp_states : list (Purpose * State) }.

Fixpoint report_run (redis : store Cached) (app_id : pystr) (l : list Report)
    : result pystr (store Cached) :=
  match l with
  | [] => Ok redis
  | r :: l' =>
      let* redis' := record_consent redis (rp_at r) app_id (rp_device r) (rp_states r) CACHE_TTL in
      report_run redis' app_id l'
  end.

(** Reports in order of time from [t] up to [now], none of which says anything about
    purpose [p] of device [d]. *)
Fixpoint silent_on (d : pystr) (p : Purpose) (t now : datetime) (l : list Report) : Prop :=
  match l with
  | [] => t <= now
  | r :: l' =>
      t <= rp_at r ∧ NoDup (fst <$> rp_states r) ∧
      (rp_device r = d → od_get p (rp_states r) = None) ∧ silent_on d p (rp_at r) now l'
  end.

(** From [t] to [limit] the cache says that [d] denied [p]. *)
Definition denied_until (redis : store Cached) (app d : pystr) (p : Purpose)
    (t limit : datetime) : Prop :=
  ∃ l, NoDup (fst <$> l) ∧ od_get p l = Some DENIED ∧
    ∀ t', t <= t' → t' < limit →
      rget t' (consent_cache_key app d) redis = Some (encode_states l).

Lemma denied_lookup redis app d p t limit m :
  t < limit → denied_until redis app d p t limit →
  ∃ c, lookup_consent redis t app d m = Ok c ∧ allows c p = false ∧
    NoDup (fst <$> states c) ∧ od_get p (states c) = Some DENIED.
Proof.
  intros Ht (l & Hn & Hp & Hl). exists {| states := l; mode := m |}.
  unfold lookup_consent. rewrite Hl by lia. simpl. rewrite decode_encode by done.
  unfold allows, state. simpl. by rewrite Hp.
Qed.

Lemma silent_bound d p t now l : silent_on d p t now l → t <= now.
Proof.
  revert t. induction l as [|r l IH]; intros t; simpl; [done |].
  intros (? & _ & _ & H%IH). lia.
Qed.

Lemma report_run_denied redis app d p t limit now l :
  cache_valid redis → denied_until redis app d p t limit → silent_on d p t now l →
  now < limit → limit <= t + int_total_seconds CACHE_TTL * second →
  ∃ redis', report_run redis app l = Ok redis' ∧ denied_until redis' app d p now limit.
Proof.
  revert redis t. induction l as [|r l IH]; intros redis t Hv Hd Hs Hnow Hlim; simpl.
  - exists redis. split; [done |]. destruct Hd as (x & ? & ? & Hx). exists x.
    split_and!; [done | done |]. simpl in Hs. intros t' ??. apply Hx; lia.
  - destruct Hs as (Hle & Hnd & Hsil & Hs). pose proof (silent_bound _ _ _ _ _ Hs) as Hb.
    destruct (record_consent_ok redis (rp_at r) app (rp_device r) (rp_states r) CACHE_TTL Hv)
      as (c & Hc & Hnc & -> & Hv'). simpl.
    apply (IH _ (rp_at r)); [done | | done | done | lia].
    destruct (decide (rp_device r = d)) as [E | Hne].
    + destruct Hd as (x & Hnx & Hpx & Hx). specialize (Hsil E). rewrite E in *.
      assert (states c = x) as Ec.
      { unfold lookup_consent in Hc. rewrite Hx in Hc by lia. simpl in Hc.
        rewrite decode_encode in Hc by done. simpl in Hc. by simplify_eq. }
      exists (od_of (rp_states r) (states c)). split_and!.
      * by apply od_of_NoDup.
      * rewrite od_get_merge by done. by rewrite Hsil, Ec.
      * intros t' ??. apply rget_set_eq. lia.
    + destruct Hd as (x & Hnx & Hpx & Hx). exists x. split_and!; [done | done |].
      intros t' ??. rewrite rget_set_ne; [apply Hx; lia |]. intros Hk%consent_key_inj. done.
Qed.

(** An explicit denial is honoured while the cache keeps it: whatever was known
    before, once a device reports a denial of a purpose, and until five minutes
    later, the gate refuses that purpose in either mode, through any reports of
    other devices and of other purposes; a denied attribution can neither be
    linked to a click nor forwarded, and leaves no attribution field in an event. *)
Theorem denial_is_honoured redis app r p later now m :
  cache_valid redis → NoDup (fst <$> rp_states r) → od_get p (rp_states r) = Some DENIED →
  silent_on (rp_device r) p (rp_at r) now later →
  now < rp_at r + int_total_seconds CACHE_TTL * second →
  ∃ redis' c, report_run redis app (r :: later) = Ok redis' ∧
    lookup_consent redis' now app (rp_device r) m = Ok c ∧ allows c p = false ∧
    (p = ATTRIBUTION → may_attribute c = false ∧ may_forward c = false ∧
       ∀ (props : list (pystr * pystr)) k v, k ∈ ATTRIBUTION_FIELDS → (k, v) ∉ minimise props c) ∧
    (p = ADVERTISING → may_forward c = false).
Proof.
  intros Hv Hn Hp Hs Hnow. pose proof (silent_bound _ _ _ _ _ Hs) as Hb.
  destruct (record_consent_ok redis (rp_at r) app (rp_device r) (rp_states r) CACHE_TTL Hv)
    as (c & Hc & Hnc & E & Hv').
  destruct (report_run_denied _ app (rp_device r) p (rp_at r)
    (rp_at r + int_total_seconds CACHE_TTL * second) now later Hv')
    as (redis' & E' & Hd); [| done | done | lia |].
  { exists (od_of (rp_states r) (states c)). split_and!; [by apply od_of_NoDup | |].
    - rewrite od_get_merge by done. by rewrite Hp.
    - intros t' ??. apply rget_set_eq. lia. }
  destruct (denied_lookup redis' app (rp_device r) p now _ m Hnow Hd) as (c' & Hc' & Ha & _).
  exists redis', c'. split_and!; [simpl; by rewrite E | done | done | |].
  - intros ->. unfold may_attribute, may_forward. rewrite Ha, andb_false_r.
    split_and!; [done | done |]. intros props k v Hk. rewrite minimise_filter, Ha, elem_of_lfilter.
    simpl. rewrite bool_decide_true by done. by intros [_ ?].
  - intros ->. unfold may_forward. by rewrite Ha.
Qed.

(** Reading a batch in one round trip is reading its devices one by one. *)
Lemma lookup_many_spec redis now app ids m l :
  lookup_many redis now app ids m = Ok l →
  ∀ d, d ∈ ids → ∃ c, od_get d l = Some c ∧ lookup_consent redis now app d m = Ok c.
Proof.
  unfold lookup_many. intros H d Hd.
  assert (d ∈ fromkeys ids) as Hin.
  { unfold fromkeys. apply list_elem_of_fmap. exists (d, tt). split; [done |].
    apply od_get_elem, od_get_of; [| left; apply list_elem_of_fmap; eauto].
    intros p q (? & -> & _)%list_elem_of_fmap (? & -> & _)%list_elem_of_fmap. done. }
  assert (NoDup (fromkeys ids)) as Hn by (apply od_of_NoDup; constructor).
  revert H Hin Hn. generalize (@nil (pystr * ConsentSet)) as acc.
  assert (∀ us acc l, resolve_consents
    (zip us ((λ d, rget now (consent_cache_key app d) redis) <$> us)) m acc = Ok l →
    d ∉ us → od_get d l = od_get d acc) as Hout.
  { induction us as [|u us IH]; intros acc l'; simpl; [naive_solver |]. intros H Hdu. inv_ok.
    rewrite (IH _ _ H) by set_solver. rewrite od_get_set, decide_False by set_solver. done. }
  induction (fromkeys ids) as [|u us IH]; intros acc H Hin Hn; [by apply elem_of_nil in Hin |].
  apply NoDup_cons in Hn as [Hu Hn]. simpl in H. inv_ok.
  apply elem_of_cons in Hin as [-> | Hin]; [| by eapply IH].
  exists x. split; [| done]. rewrite (Hout _ _ _ H Hu), od_get_set. by rewrite decide_True.
Qed.

(** ** Witnesses *)

Definition ex_report : Report :=
  {| rp_at := 0; rp_device := py "d"; rp_states := [(ATTRIBUTION, DENIED); (ANALYTICS, GRANTED)] |}.
Definition ex_later : list Report :=
  [{| rp_at := 10 * second; rp_device := py "d"; rp_states := [(ADVERTISING, GRANTED)] |};
   {| rp_at := 20 * second; rp_device := py "e"; rp_states := [(ATTRIBUTION, GRANTED)] |}].

Lemma denial_is_honoured_witness :
  ∃ redis' c, report_run ∅ (py "app") (ex_report :: ex_later) = Ok redis' ∧
    lookup_consent redis' (60 * second) (py "app") (py "d") PERMISSIVE = Ok c ∧
    may_forward c = false.
Proof.
  destruct (denial_is_honoured ∅ (py "app") ex_report ATTRIBUTION ex_later (60 * second) PERMISSIVE)
    as (redis' & c & H1 & H2 & _ & H3 & _).
  - intros k e H. discriminate H.
  - apply (bool_decide_unpack _). vm_compute. exact I.
  - reflexivity.
  - repeat split; try (vm_compute; discriminate);
      try (apply (bool_decide_unpack _); vm_compute; exact I); reflexivity.
  - vm_compute. reflexivity.
  - exists redis', c. split; [exact H1 |]. split; [exact H2 | by apply H3].
Defined.

(** ** What the code does beyond its documentation *)

(** The denial lapses with the cache entry: under the permissive default an
    attribution denied more than five minutes ago is allowed again. *)
Lemma denial_lapses :
  match report_run ∅ (py "app") [ex_report] with
  | Ok redis =>
      match lookup_consent redis (5 * minute) (py "app") (py "d") PERMISSIVE with
      | Ok c => may_attribute c
      | Err _ => false
      end
  | Err _ => false
  end = true.
Proof. vm_compute. reflexivity. Qed.
