(* ===== verification/Schema.v ===== *)
(** * Event validation at the edge (mmp_ingest/schema.py)

    JSON values are an inductive type.  [datetime.fromisoformat] and the size of
    msgspec's encoding are parameters: the theorems hold for whatever they return.
    Timestamps the code formats with [isoformat] are kept as instants. *)

From Stdlib Require Import SpecFloat.
From S2P Require Import Prelude Ids.

#[local] Open Scope Z_scope.
#[local] Open Scope mmp_scope.

(** ** JSON *)

Inductive json :=
| JNull
| JBool (b : bool)
| JInt (z : Z)
| JFloat (f : spec_float)
| JStr (s : pystr)
| JArr (l : list json)
| JObj (l : list (pystr * json)).

Abbreviation props := (list (pystr * json)).

(** Python's truth value of a decoded JSON value. *)
Definition json_truthy (v : json) : bool :=
  match v with
  | JNull => false
  | JBool b => b
  | JInt z => negb (z =? 0)
  | JFloat (S754_zero _) => false
  | JFloat _ => true
  | JStr [] | JArr [] | JObj [] => false
  | JStr _ | JArr _ | JObj _ => true
  end.

(** ** Constants and records *)

Definition MAX_EVENT_NAME_LENGTH : Z := 120.
Definition MAX_ID_LENGTH : Z := 255.
Definition MAX_PROPERTIES_BYTES : Z := 16 * 1024.
Definition MAX_EVENTS_PER_BATCH : Z := 100.
Definition MAX_CLOCK_SKEW : timedelta := 24 * hour.

Definition PLATFORM_CODES : list (pystr * Z) :=
  [(py "android", 1); (py "ios", 2); (py "web", 3); (py "server", 4); (py "unknown", 0)].

Definition SYSTEM_EVENTS : list pystr :=
  [py "install"; py "app_open"; py "session_start"; py "session_end"; py "signup"; py "login";
   py "purchase"; py "subscription_start"; py "subscription_renew"; py "refund"].

Record IncomingEvent := {
  in_event_name : pystr;
  in_anonymous_id : pystr;
  in_event_id : option pystr;
  in_occurred_at : option pystr;
  in_user_id : option pystr;
  in_session_id : option pystr;
  in_platform : option pystr;
  in_os_version : option pystr;
  in_app_version : option pystr;
  in_device_model : option pystr;
  in_revenue_minor : option Z;
  in_currency : option pystr;
  in_click_id : option pystr;
  in_properties : props
}.

Record ValidationFailure := { vf_reason : pystr; vf_index : option Z }.

(** [str(exc)]. *)
Definition failure_str (f : ValidationFailure) : pystr :=
  match vf_index f with
  | None => vf_reason f
  | Some i => py "events[" ++ py_str_int i ++ py "]: " ++ vf_reason f
  end.

Record QueuedEvent := {
  q_event_id : pystr;
  q_received_at : datetime;
  q_occurred_at : datetime;
  q_organization_id : pystr;
  q_app_id : pystr;
  q_event_name : pystr;
  q_anonymous_id : pystr;
  q_user_id : option pystr;
  q_session_id : option pystr;
  q_platform : Z;
  q_os_version : option pystr;
  q_app_version : option pystr;
  q_device_model : option pystr;
  q_country : option pystr;
  q_ip_hash : option (list N);
  q_click_id : option pystr;
  q_revenue_minor : option Z;
  q_currency : option pystr;
  q_clock_skew_ms : option Z;
  q_properties : props;
  q_correlation_id : option pystr
}.

(** ** The standard library and msgspec, as the module uses them *)

(** [datetime.fromisoformat]: a wall clock and, when the text carries one, its
    offset from UTC; [None] is the [ValueError]. *)
Record IsoTime := { iso_wall : datetime; iso_offset : option timedelta }.

Class EdgeLib := {
  fromisoformat : pystr → option IsoTime;
  (** [len(msgspec.json.encode(properties))] *)
  encoded_size : props → Z
}.

Section Schema.
Context {U : Unicode} {L : EdgeLib}.

(** ** Operations *)

Definition canonical_event_name (name : pystr) : pystr :=
  List.filter py_isalnum (py_lower name).

Definition parse_timestamp (value : option pystr) (now : datetime)
    : result ValidationFailure (datetime * option Z) :=
  match value with
  | None => Ok (now, None)
  | Some v =>
      match fromisoformat (py_replace (py "Z") (py "+00:00") v) with
      | None => Err {| vf_reason := py "occurred_at is not a valid ISO-8601 timestamp";
                       vf_index := None |}
      | Some iso =>
          let parsed := iso_wall iso - default 0 (iso_offset iso) in
          let skew := parsed - now in
          if Z.abs skew >? MAX_CLOCK_SKEW then Ok (now, Some (int_total_ms skew))
          else Ok (parsed, Some (int_total_ms skew))
      end
  end.

Definition str_len (s : pystr) : Z := Z.of_nat (length s).

Definition opt_longer (o : option pystr) (n : Z) : bool :=
  match o with Some s => str_len s >? n | None => false end.

Definition not_a_uuid (o : option pystr) : bool :=
  match o with Some s => bool_decide (uuid_of_str s = None) | None => false end.

Definition fail (index : Z) (reason : pystr) : ValidationFailure :=
  {| vf_reason := reason; vf_index := Some index |}.

(** [event.event_id or default_event_id]. *)
Definition event_id_or (o : option pystr) (d : pystr) : pystr :=
  match o with Some (c :: s) => c :: s | _ => d end.

Definition platform_code (o : option pystr) : Z :=
  let name := match o with Some (c :: s) => c :: s | _ => py "unknown" end in
  default 0 (od_get (py_lower name) PLATFORM_CODES).

Definition validate_event (event : IncomingEvent) (index : Z) (organization_id app_id : uuid)
    (now : datetime) (default_event_id : pystr) : result ValidationFailure QueuedEvent :=
  let* _ := raise_if (negb (truthy (Some (in_event_name event)))
                      || (str_len (in_event_name event) >? MAX_EVENT_NAME_LENGTH))
              (fail index (py "event_name must be 1-120 characters")) in
  let* _ := raise_if (negb (truthy (Some (in_anonymous_id event)))
                      || (str_len (in_anonymous_id event) >? MAX_ID_LENGTH))
              (fail index (py "anonymous_id is required")) in
  let* _ := raise_if (opt_longer (in_user_id event) MAX_ID_LENGTH)
              (fail index (py "user_id is too long")) in
  let* _ := raise_if (bool_decide (is_Some (in_revenue_minor event))
                      && bool_decide (in_currency event = None))
              (fail index (py "revenue_minor requires a currency")) in
  let* _ := raise_if (match in_currency event with
                      | Some c => negb (str_len c =? 3) | None => false end)
              (fail index (py "currency must be a 3-letter ISO code")) in
  let* _ := raise_if (encoded_size (in_properties event) >? MAX_PROPERTIES_BYTES)
              (fail index (py "properties exceed 16384 bytes")) in
  let event_id := event_id_or (in_event_id event) default_event_id in
  let* _ := raise_if (bool_decide (uuid_of_str event_id = None))
              (fail index (py "event_id must be a UUID")) in
  let* _ := raise_if (not_a_uuid (in_session_id event))
              (fail index (py "session_id must be a UUID")) in
  let* _ := raise_if (not_a_uuid (in_click_id event))
              (fail index (py "click_id must be a UUID")) in
  let* ts := parse_timestamp (in_occurred_at event) now in
  Ok {| q_event_id := event_id;
        q_received_at := now;
        q_occurred_at := fst ts;
        q_organization_id := str_of_uuid organization_id;
        q_app_id := str_of_uuid app_id;
        q_event_name := in_event_name event;
        q_anonymous_id := in_anonymous_id event;
        q_user_id := in_user_id event;
        q_session_id := in_session_id event;
        q_platform := platform_code (in_platform event);
        q_os_version := in_os_version event;
        q_app_version := in_app_version event;
        q_device_model := in_device_model event;
        q_country := None;
        q_ip_hash := None;
        q_click_id := in_click_id event;
        q_revenue_minor := in_revenue_minor event;
        q_currency := match in_currency event with
                      | Some (c :: s) => Some (py_upper (c :: s)) | _ => None end;
        q_clock_skew_ms := snd ts;
        q_properties := in_properties event;
        q_correlation_id := None |}.

(** ** The contract *)

(** What an event must satisfy to be accepted. *)
Record acceptable (event : IncomingEvent) (default_event_id : pystr) : Prop := {
  acc_name : 1 <= str_len (in_event_name event) <= 120;
  acc_anon : 1 <= str_len (in_anonymous_id event) <= 255;
  acc_user : ∀ u, in_user_id event = Some u → str_len u <= 255;
  acc_revenue : ∀ r, in_revenue_minor event = Some r → in_currency event ≠ None;
  acc_currency : ∀ c, in_currency event = Some c → str_len c = 3;
  acc_size : encoded_size (in_properties event) <= 16384;
  acc_event_id : uuid_of_str (event_id_or (in_event_id event) default_event_id) ≠ None;
  acc_session : ∀ s, in_session_id event = Some s → uuid_of_str s ≠ None;
  acc_click : ∀ s, in_click_id event = Some s → uuid_of_str s ≠ None;
  acc_time : ∀ v, in_occurred_at event = Some v →
    fromisoformat (py_replace (py "Z") (py "+00:00") v) ≠ None
}.

Lemma str_len_truthy s : truthy (Some s) = true ↔ 1 <= str_len s.
Proof. unfold str_len. destruct s as [|c s]; simpl; [by split | split; [lia | done]]. Qed.

Lemma parse_timestamp_ok value now t sk :
  parse_timestamp value now = Ok (t, sk) → Z.abs (t - now) <= MAX_CLOCK_SKEW.
Proof.
  unfold parse_timestamp. destruct value as [v|].
  - destruct (fromisoformat _) as [iso|]; [| done]. cbv zeta.
    destruct (Z.gtb_spec (Z.abs (iso_wall iso - default 0 (iso_offset iso) - now)) MAX_CLOCK_SKEW).
    + intros [= <- <-]. by rewrite Z.sub_diag.
    + intros [= <- <-]. done.
  - intros [= <- <-]. by rewrite Z.sub_diag.
Qed.

Lemma platform_code_range o : 0 <= platform_code o <= 4.
Proof.
  unfold platform_code. destruct (od_get _ PLATFORM_CODES) as [z|] eqn:E; simpl; [| lia].
  apply od_get_elem in E. unfold PLATFORM_CODES in E.
  repeat (apply elem_of_cons in E as [E|E]; [injection E as _ ->; lia |]).
  by apply elem_of_nil in E.
Qed.

Lemma rbind_raise_Ok {E A} b (e : E) (k : result E A) x :
  rbind (raise_if b e) (λ _, k) = Ok x ↔ b = false ∧ k = Ok x.
Proof. destruct b; simpl; naive_solver. Qed.

Lemma parse_timestamp_total value now :
  (∃ ts, parse_timestamp value now = Ok ts) ↔
  ∀ v, value = Some v → fromisoformat (py_replace (py "Z") (py "+00:00") v) ≠ None.
Proof.
  unfold parse_timestamp. destruct value as [v|]; [| naive_solver].
  destruct (fromisoformat _) as [iso|] eqn:E.
  - split; [intros _ v' [= <-]; congruence |]. intros _. cbv zeta. case_match; eauto.
  - split; [by intros [? ?] |]. intros H. by destruct (H v eq_refl).
Qed.

Lemma validate_event_ok_iff ev i org app now did :
  (∃ q, validate_event ev i org app now did = Ok q) ↔ acceptable ev did.
Proof.
  unfold validate_event. setoid_rewrite rbind_raise_Ok.
  repeat setoid_rewrite rbind_raise_Ok.
  split.
  - intros (q & Hn & Ha & Hu & Hr & Hc & Hs & He & Hse & Hcl & H). inv_ok.
    apply orb_false_iff in Hn as [Hn1%negb_false_iff%str_len_truthy Hn2].
    apply orb_false_iff in Ha as [Ha1%negb_false_iff%str_len_truthy Ha2].
    rewrite Z.gtb_ltb in *. bprop.
    unfold MAX_EVENT_NAME_LENGTH, MAX_ID_LENGTH, MAX_PROPERTIES_BYTES in *. split.
    + lia.
    + lia.
    + intros u E. rewrite E in Hu. simpl in Hu. rewrite Z.gtb_ltb in Hu. bprop. lia.
    + intros r E E'. by rewrite E, E' in Hr.
    + intros c E. rewrite E in Hc. bprop. done.
    + lia.
    + done.
    + intros s E. rewrite E in Hse. simpl in Hse. by bprop.
    + intros s E. rewrite E in Hcl. simpl in Hcl. by bprop.
    + apply (parse_timestamp_total _ now). eauto.
  - intros [Hn Ha Hu Hr Hc Hs He Hse Hcl Ht].
    apply (proj2 (parse_timestamp_total (in_occurred_at ev) now)) in Ht as [ts Ht].
    rewrite Ht. cbn [rbind]. eexists. split_and!; [| | | | | | | | | reflexivity].
    + apply orb_false_iff. rewrite negb_false_iff, str_len_truthy, Z.gtb_ltb, Z.ltb_ge.
      unfold MAX_EVENT_NAME_LENGTH. lia.
    + apply orb_false_iff. rewrite negb_false_iff, str_len_truthy, Z.gtb_ltb, Z.ltb_ge.
      unfold MAX_ID_LENGTH. lia.
    + destruct (in_user_id ev) as [u|]; [| done]. simpl. rewrite Z.gtb_ltb, Z.ltb_ge. by apply Hu.
    + destruct (in_revenue_minor ev) as [r|]; [| done]. simpl.
      rewrite bool_decide_false; [done |]. by apply (Hr r).
    + destruct (in_currency ev) as [c|]; [| done]. rewrite (Hc c) by done. done.
    + rewrite Z.gtb_ltb, Z.ltb_ge. unfold MAX_PROPERTIES_BYTES. lia.
    + by apply bool_decide_false.
    + destruct (in_session_id ev) as [s|]; [| done]. apply bool_decide_false. by apply Hse.
    + destruct (in_click_id ev) as [s|]; [| done]. apply bool_decide_false. by apply Hcl.
Qed.

(** A refusal names the event it is about, unless it is the timestamp's. *)
Lemma validate_event_index ev i org app now did f :
  validate_event ev i org app now did = Err f →
  vf_index f = Some i ∨
  f = {| vf_reason := py "occurred_at is not a valid ISO-8601 timestamp"; vf_index := None |}.
Proof.
  unfold validate_event.
  repeat match goal with |- rbind (raise_if ?b _) _ = _ → _ =>
    destruct b; cbn [raise_if rbind]; [intros [= <-]; by left |] end.
  unfold parse_timestamp. destruct (in_occurred_at ev) as [v|]; cbn [rbind]; [| done].
  destruct (fromisoformat _) as [iso|]; cbn [rbind]; [cbv zeta; case_match; done |].
  intros [= <-]. by right.
Qed.

(** The edge accepts exactly the acceptable events: an event passes validation
    iff every documented limit holds, and a refusal is about the event it names (a
    bad timestamp names none). *)
Theorem validate_event_accepts ev i org app now did :
  ((∃ q, validate_event ev i org app now did = Ok q) ↔ acceptable ev did) ∧
  (∀ f, validate_event ev i org app now did = Err f →
     ¬ acceptable ev did ∧
     (vf_index f = Some i ∨
      f = {| vf_reason := py "occurred_at is not a valid ISO-8601 timestamp"; vf_index := None |})).
Proof.
  split; [apply validate_event_ok_iff |]. intros f Hf.
  split; [| by apply (validate_event_index ev i org app now did)].
  intros [q Hq]%(validate_event_ok_iff ev i org app now). congruence.
Qed.

(** What validation guarantees downstream: a queued event carries the server's
    clock, a client time within a day of it, a well-formed event id, a known
    platform code, and the event's own name, device and properties. *)
Theorem validate_event_bounds ev i org app now did q :
  validate_event ev i org app now did = Ok q →
  q_received_at q = now ∧
  Z.abs (q_occurred_at q - q_received_at q) <= 24 * hour ∧
  (q_clock_skew_ms q = None ↔ in_occurred_at ev = None) ∧
  (∃ u, uuid_of_str (q_event_id q) = Some u) ∧
  (∀ s, q_click_id q = Some s → ∃ u, uuid_of_str s = Some u) ∧
  0 <= q_platform q <= 4 ∧
  q_event_name q = in_event_name ev ∧ q_anonymous_id q = in_anonymous_id ev ∧
  q_properties q = in_properties ev ∧ q_ip_hash q = None.
Proof.
  intros H. assert (acceptable ev did) as Hacc.
  { apply (validate_event_ok_iff ev i org app now). eauto. }
  unfold validate_event in H. inv_ok. subst q. simpl.
  assert (∀ o : option uuid, o ≠ None → ∃ u, o = Some u) as Hsome by (intros []; eauto; done).
  destruct x8 as [t sk]. simpl.
  match goal with Ht : parse_timestamp _ _ = Ok _ |- _ =>
    pose proof (parse_timestamp_ok _ _ _ _ Ht) as Hb; unfold parse_timestamp in Ht end.
  split_and!; try done.
  - destruct (in_occurred_at ev) as [v|]; [| by simplify_eq].
    destruct (fromisoformat _); [| done]. cbv zeta in *. case_match; simplify_eq; done.
  - apply Hsome, (acc_event_id _ _ Hacc).
  - intros s Hs. apply Hsome. by apply (acc_click _ _ Hacc).
  - apply platform_code_range.
  - apply platform_code_range.
Qed.
End Schema.

(** ** Witnesses *)

(** Any text is the instant 1000 s at UTC; any properties encode in two bytes. *)
Definition ex_lib : EdgeLib :=
  {| fromisoformat := λ _, Some {| iso_wall := 1000 * second; iso_offset := None |};
     encoded_size := λ _, 2 |}.

Definition ex_event (id : option pystr) (name anon : pystr) (click : option pystr) (ps : props)
    : IncomingEvent :=
  {| in_event_name := name; in_anonymous_id := anon; in_event_id := id;
     in_occurred_at := Some (py "1970-01-01T00:16:40Z"); in_user_id := None;
     in_session_id := None; in_platform := Some (py "iOS"); in_os_version := None;
     in_app_version := None; in_device_model := None; in_revenue_minor := Some 199;
     in_currency := Some (py "usd"); in_click_id := click; in_properties := ps |}.

Definition ex_id : pystr := py "00000000-0000-7000-8000-000000000001".

Lemma validate_event_bounds_witness :
  match @validate_event ascii_unicode ex_lib
          (ex_event (Some ex_id) (py "Purchase") (py "d") None []) 0 1%N 9%N (1005 * second) ex_id with
  | Ok q => Z.abs (q_occurred_at q - q_received_at q) <= 24 * hour ∧ 0 <= q_platform q <= 4
  | Err _ => False
  end.
Proof.
  destruct (@validate_event ascii_unicode ex_lib _ _ _ _ _ _) as [q|f] eqn:E.
  - destruct (@validate_event_bounds ascii_unicode ex_lib _ _ _ _ _ _ q E)
      as (_ & H1 & _ & _ & _ & H2 & _). split; [exact H1 | exact H2].
  - vm_compute in E. discriminate E.
Defined.
