(* ===== verification/Buffer.v ===== *)
(** * The shipping buffer (mmp_tracker/buffer.py)

    A bounded deque between the request handlers and Redis.  [append] is one
    uninterrupted step; [_flush_once] awaits the producer, so it is two steps, the
    one that takes a chunk ([take_batch]) and the one that ends the publish
    ([published] or [failed]), and handlers append in between.  [buffer_step] is
    that interleaving and [buffer_conserves] its conservation law. *)

From S2P Require Import Prelude.

#[local] Open Scope nat_scope.

Definition DEFAULT_CAPACITY : nat := 50 * 1000.
Definition DEFAULT_FLUSH_SIZE : nat := 500.

Section Buffer.
Context {P : Type}.

Record ShippingBuffer := {
  b_queue : list P;
  b_capacity : nat;
  b_flush_size : nat;
  b_wake : bool;
  b_stopping : bool;
  b_dropped : nat;
  b_shipped : nat;
  b_failed_flushes : nat
}.

Definition new_buffer (capacity flush_size : nat) : ShippingBuffer :=
  {| b_queue := []; b_capacity := capacity; b_flush_size := flush_size; b_wake := false;
     b_stopping := false; b_dropped := 0; b_shipped := 0; b_failed_flushes := 0 |}.

Definition set_queue (q : list P) (b : ShippingBuffer) : ShippingBuffer :=
  {| b_queue := q; b_capacity := b_capacity b; b_flush_size := b_flush_size b;
     b_wake := b_wake b; b_stopping := b_stopping b; b_dropped := b_dropped b;
     b_shipped := b_shipped b; b_failed_flushes := b_failed_flushes b |}.

(** [deque.append] and [deque.appendleft] with a [maxlen]: a full deque loses an
    entry at its other end. *)
Definition deque_append (maxlen : nat) (q : list P) (x : P) : list P :=
  if length q =? maxlen then drop 1 (q ++ [x]) else q ++ [x].

Definition deque_appendleft (maxlen : nat) (q : list P) (x : P) : list P :=
  if length q =? maxlen then take maxlen (x :: q) else x :: q.

(** The loop of [append]. *)
Fixpoint append_loop (capacity : nat) (q : list P) (dropped : nat) (payloads : list P)
    : list P * nat :=
  match payloads with
  | [] => (q, dropped)
  | p :: ps =>
      if capacity <=? length q
      then append_loop capacity (deque_append capacity (drop 1 q) p) (S dropped) ps
      else append_loop capacity (deque_append capacity q p) dropped ps
  end.

Definition append (b : ShippingBuffer) (payloads : list P) : nat * ShippingBuffer :=
  let '(q, dropped) := append_loop (b_capacity b) (b_queue b) 0 payloads in
  (dropped,
   {| b_queue := q; b_capacity := b_capacity b; b_flush_size := b_flush_size b;
      b_wake := (b_flush_size b <=? length q) || b_wake b; b_stopping := b_stopping b;
      b_dropped := b_dropped b + dropped; b_shipped := b_shipped b;
      b_failed_flushes := b_failed_flushes b |}).

(** One turn of [_run] up to its flush: the wake-up is consumed. *)
Definition run_turn (b : ShippingBuffer) : ShippingBuffer :=
  {| b_queue := b_queue b; b_capacity := b_capacity b; b_flush_size := b_flush_size b;
     b_wake := false; b_stopping := b_stopping b; b_dropped := b_dropped b;
     b_shipped := b_shipped b; b_failed_flushes := b_failed_flushes b |}.

(** [_flush_once] up to the [await]. *)
Definition take_batch (b : ShippingBuffer) : list P * ShippingBuffer :=
  let n := min (length (b_queue b)) (b_flush_size b) in
  (take n (b_queue b), set_queue (drop n (b_queue b)) b).

(** After the [await]: the publish succeeded. *)
Definition published (batch : list P) (b : ShippingBuffer) : ShippingBuffer :=
  {| b_queue := b_queue b; b_capacity := b_capacity b; b_flush_size := b_flush_size b;
     b_wake := match b_queue b with [] => b_wake b | _ => true end; b_stopping := b_stopping b;
     b_dropped := b_dropped b; b_shipped := b_shipped b + length batch;
     b_failed_flushes := b_failed_flushes b |}.

(** After the [await]: it raised, and the chunk is put back, last entry first. *)
Definition failed (batch : list P) (b : ShippingBuffer) : ShippingBuffer :=
  {| b_queue := fold_left (deque_appendleft (b_capacity b)) (reverse batch) (b_queue b);
     b_capacity := b_capacity b; b_flush_size := b_flush_size b;
     b_wake := b_wake b; b_stopping := b_stopping b;
     b_dropped := b_dropped b; b_shipped := b_shipped b;
     b_failed_flushes := S (b_failed_flushes b) |}.

(** [_flush_once] when no handler runs during the await; [ok] says whether the
    publish succeeded.  The published chunk is returned. *)
Definition flush_once (ok : bool) (b : ShippingBuffer) : list P * ShippingBuffer :=
  match b_queue b with
  | [] => ([], b)
  | _ =>
      let '(batch, b') := take_batch b in
      if ok then (batch, published batch b') else ([], failed batch b')
  end.

(** [stop], once the background task has ended: one flush. *)
Definition stop (ok : bool) (b : ShippingBuffer) : list P * ShippingBuffer :=
  flush_once ok {| b_queue := b_queue b; b_capacity := b_capacity b;
                   b_flush_size := b_flush_size b; b_wake := true; b_stopping := true;
                   b_dropped := b_dropped b; b_shipped := b_shipped b;
                   b_failed_flushes := b_failed_flushes b |}.

(** ** Lemmas *)

Lemma append_loop_spec c q d ps :
  0 < c → length q <= c →
  let '(q', d') := append_loop c q d ps in
  q' = drop (length q + length ps - c) (q ++ ps) ∧ d' = d + (length q + length ps - c).
Proof.
  intros Hc. revert q d. induction ps as [|p ps IH]; intros q d Hq; simpl.
  - rewrite app_nil_r. replace (length q + 0 - c) with 0 by lia. by rewrite drop_0, Nat.add_0_r.
  - unfold deque_append. destruct (Nat.leb_spec c (length q)).
    + rewrite length_drop. destruct (Nat.eqb_spec (length q - 1) c); [lia |].
      specialize (IH (drop 1 q ++ [p]) (S d)).
      rewrite length_app, length_drop in IH. simpl in IH.
      destruct (append_loop c (drop 1 q ++ [p]) (S d) ps) as [q' d'].
      destruct IH as [-> ->]; [lia |]. split; [| lia].
      replace (length q + S (length ps) - c) with (1 + (length q - 1 + 1 + length ps - c)) by lia.
      rewrite <- drop_drop. f_equal. destruct q as [|a q]; [simpl in *; lia |].
      simpl. by rewrite drop_0, <- app_assoc.
    + destruct (Nat.eqb_spec (length q) c); [lia |].
      specialize (IH (q ++ [p]) d). rewrite length_app in IH. simpl in IH.
      destruct (append_loop c (q ++ [p]) d ps) as [q' d'].
      destruct IH as [-> ->]; [lia |].
      replace (length q + 1 + length ps - c) with (length q + S (length ps) - c) by lia.
      by rewrite <- app_assoc.
Qed.

Lemma failed_queue c batch q :
  length q <= c →
  fold_left (deque_appendleft c) (reverse batch) q = take c (batch ++ q).
Proof.
  revert q. induction batch as [|x batch IH] using rev_ind; intros q Hq; simpl.
  { by rewrite take_ge. }
  rewrite reverse_snoc. simpl. unfold deque_appendleft at 2. rewrite <- app_assoc. simpl.
  destruct (Nat.eqb_spec (length q) c) as [E|E].
  - rewrite IH by (rewrite length_take; simpl; lia).
    rewrite !take_app. f_equal. rewrite take_take. f_equal. lia.
  - rewrite IH by (simpl; lia). done.
Qed.

(** ** Handlers and the flush task, interleaved *)

(** A buffer with its history: the payloads ever appended, those published, the chunk
    being published, and the entries a failed publish could not put back. *)
Record World := {
  w_buf : ShippingBuffer;
  w_inflight : option (list P);
  w_appended : list P;
  w_sent : list P;
  w_lost : nat
}.

Definition world0 (capacity flush_size : nat) : World :=
  {| w_buf := new_buffer capacity flush_size; w_inflight := None; w_appended := [];
     w_sent := []; w_lost := 0 |}.

Inductive buffer_step : World → World → Prop :=
| HandlerAppends w ps :
    buffer_step w
      {| w_buf := snd (append (w_buf w) ps); w_inflight := w_inflight w;
         w_appended := w_appended w ++ ps; w_sent := w_sent w; w_lost := w_lost w |}
| FlushTakes w :
    w_inflight w = None → b_queue (w_buf w) ≠ [] →
    buffer_step w
      {| w_buf := snd (take_batch (run_turn (w_buf w)));
         w_inflight := Some (fst (take_batch (w_buf w)));
         w_appended := w_appended w; w_sent := w_sent w; w_lost := w_lost w |}
| PublishSucceeds w batch :
    w_inflight w = Some batch →
    buffer_step w
      {| w_buf := published batch (w_buf w); w_inflight := None;
         w_appended := w_appended w; w_sent := w_sent w ++ batch; w_lost := w_lost w |}
| PublishFails w batch :
    w_inflight w = Some batch →
    buffer_step w
      {| w_buf := failed batch (w_buf w); w_inflight := None;
         w_appended := w_appended w; w_sent := w_sent w;
         w_lost := w_lost w + (length batch + length (b_queue (w_buf w)) - b_capacity (w_buf w)) |}.

Definition inflight (w : World) : list P := default [] (w_inflight w).

Record world_ok (capacity : nat) (w : World) : Prop := {
  wok_capacity : b_capacity (w_buf w) = capacity;
  wok_bound : length (b_queue (w_buf w)) <= capacity;
  wok_shipped : b_shipped (w_buf w) = length (w_sent w);
  wok_order : (w_sent w ++ inflight w ++ b_queue (w_buf w)) `sublist_of` w_appended w;
  wok_count : length (w_appended w) =
    length (w_sent w) + length (inflight w) + length (b_queue (w_buf w))
    + b_dropped (w_buf w) + w_lost w
}.

Lemma buffer_step_ok c w w' : 0 < c → buffer_step w w' → world_ok c w → world_ok c w'.
Proof.
  intros Hc Hs [Hcap Hb Hsh Ho Hn].
  destruct Hs as [w ps|w Hi Hq|w batch Hi|w batch Hi]; unfold inflight in *; simpl in *.
  - unfold append. pose proof (append_loop_spec (b_capacity (w_buf w)) (b_queue (w_buf w)) 0 ps) as H.
    destruct (append_loop _ _ _ _) as [q d]. destruct H as [-> ->]; [lia | lia |].
    rewrite Hcap in *. split; unfold inflight; simpl.
    + done.
    + rewrite length_drop, length_app. lia.
    + done.
    + rewrite !app_assoc. rewrite !app_assoc in Ho. etrans.
      * apply sublist_app; [done | apply sublist_drop].
      * rewrite app_assoc. by apply sublist_app.
    + rewrite length_drop, !length_app. lia.
  - rewrite Hi in *. simpl in *. split; unfold inflight; simpl.
    + done.
    + rewrite length_drop. lia.
    + done.
    + by rewrite take_drop.
    + rewrite length_take, length_drop. lia.
  - rewrite Hi in *. simpl in *. split; unfold inflight; simpl.
    + done.
    + done.
    + rewrite length_app. lia.
    + by rewrite <- app_assoc.
    + rewrite length_app. lia.
  - rewrite Hi in *. simpl in *. rewrite Hcap in *.
    split; unfold inflight, failed; simpl; rewrite ?Hcap, ?failed_queue by done.
    + done.
    + rewrite length_take. lia.
    + done.
    + etrans; [| exact Ho]. apply sublist_app; [done | apply sublist_take].
    + rewrite length_take, length_app. lia.
Qed.

Lemma world0_ok c f : world_ok c (world0 c f).
Proof. split; simpl; done || lia. Qed.

(** Conservation: however handlers and the flush task interleave, the buffer
    never exceeds its capacity, what was published, is in flight and is queued
    appears in the order it was appended and without duplicates, and everything
    else is accounted for by the drop counter, except what a failed publish could
    not put back into a full buffer. *)
Theorem buffer_conserves c f w :
  0 < c → rtc buffer_step (world0 c f) w →
  length (b_queue (w_buf w)) <= c ∧
  b_shipped (w_buf w) = length (w_sent w) ∧
  (w_sent w ++ inflight w ++ b_queue (w_buf w)) `sublist_of` w_appended w ∧
  length (w_appended w) =
    b_shipped (w_buf w) + length (inflight w) + length (b_queue (w_buf w))
    + b_dropped (w_buf w) + w_lost w.
Proof.
  intros Hc Hr. assert (world_ok c w) as [_ Hb Hs Ho Hn].
  { revert Hr. generalize (world0_ok c f). generalize (world0 c f).
    intros w0 Hw0 Hr. induction Hr; eauto using buffer_step_ok. }
  rewrite Hs. done.
Qed.

(** Shedding drops the oldest: [append] keeps exactly the newest entries that
    fit, and returns and counts how many it dropped. *)
Theorem append_sheds_oldest b ps :
  0 < b_capacity b → length (b_queue b) <= b_capacity b →
  let excess := length (b_queue b) + length ps - b_capacity b in
  fst (append b ps) = excess ∧
  b_queue (snd (append b ps)) = drop excess (b_queue b ++ ps) ∧
  b_dropped (snd (append b ps)) = b_dropped b + excess.
Proof.
  intros Hc Hq. cbv zeta. unfold append.
  pose proof (append_loop_spec (b_capacity b) (b_queue b) 0 ps Hc Hq) as H.
  destruct (append_loop _ _ _ _) as [q d]. destruct H as [-> ->]. done.
Qed.
End Buffer.
Arguments ShippingBuffer : clear implicits.
Arguments World : clear implicits.

(** ** Witnesses *)

Lemma ex_run :
  ∃ w : World nat, rtc buffer_step (world0 3 2) w ∧ w_appended w = [1; 2; 3; 4] ∧
    w_sent w = [1; 2] ∧ b_queue (w_buf w) = [3; 4].
Proof.
  eexists. split.
  - eapply rtc_l; [apply (HandlerAppends _ [1; 2; 3]) |].
    eapply rtc_l; [apply FlushTakes; [done | by vm_compute] |].
    eapply rtc_l; [apply (HandlerAppends _ [4]) |].
    eapply rtc_l; [eapply PublishSucceeds; reflexivity |]. apply rtc_refl.
  - by vm_compute.
Qed.

Lemma buffer_conserves_witness :
  ∃ w : World nat, [1; 2; 3; 4] = w_appended w ∧ length (b_queue (w_buf w)) <= 3.
Proof.
  destruct ex_run as (w & Hr & Ha & _). exists w. split; [symmetry; exact Ha |].
  refine (proj1 (buffer_conserves 3 2 w _ Hr)). lia.
Defined.

Lemma append_sheds_oldest_witness :
  b_queue (snd (append (set_queue [1; 2] (new_buffer 3 2)) [3; 4])) = [2; 3; 4].
Proof.
  apply (append_sheds_oldest (set_queue [1; 2] (new_buffer 3 2)) [3; 4]); simpl; lia.
Defined.

(** ** What the code does beyond its documentation *)

(** A failed publish into a buffer that filled up meanwhile drops the newest entries,
    and no counter says so. *)
Lemma failed_publish_loses_the_newest :
  let b0 := snd (append (new_buffer 3 2) [1; 2; 3]) in
  let '(batch, b1) := take_batch b0 in
  let b2 := snd (append b1 [4; 5]) in
  let b3 := failed batch b2 in
  b_queue b3 = [1; 2; 3] ∧ b_dropped b3 = 0.
Proof. by vm_compute. Qed.

(** [stop] publishes one chunk, and exits with the rest still queued. *)
Lemma stop_leaves_entries :
  let b := snd (append (new_buffer 10 2) [1; 2; 3; 4; 5]) in
  fst (stop true b) = [1; 2] ∧ b_queue (snd (stop true b)) = [3; 4; 5].
Proof. by vm_compute. Qed.
