(* ===== verification/Keys.v ===== *)
(** * API keys and their authentication
    (mmp_crypto/keys.py, mmp_tracker/auth.py)

    HMAC-SHA256 is a parameter.  The random tokens [generate_key] draws are
    arguments; the theorems ask of them what [_token] gives, a length and an
    alphabet.  The cache entry of an absent key ([NEGATIVE_MARKER]) is [None]. *)

From S2P Require Import Prelude Redis Ids.

#[local] Open Scope Z_scope.

(** ** mmp_crypto/keys.py *)

Definition PREFIX_LENGTH : nat := 12.
Definition SECRET_LENGTH : nat := 43.

(** [ALPHABET]: ASCII letters and digits. *)
Definition in_alphabet (c : N) : bool := is_alnum_ascii c.

Definition ENVIRONMENT_TAGS : list (pystr * pystr) :=
  [(py "dev", py "test"); (py "prod", py "live")].

Record GeneratedKey := { gk_raw : pystr; gk_prefix : pystr; gk_key_hash : list N }.

Record ParsedKey := { pk_environment : pystr; pk_prefix : pystr; pk_secret : pystr }.

Class Hmac := { hmac_sha256 : pystr → pystr → list N }.

(** A token as [_token(length)] draws it. *)
Definition is_token (len : nat) (s : pystr) : Prop :=
  length s = len ∧ Forall (λ c, in_alphabet c = true) s.

Definition underscore : N := 95.

Section Keys.
Context {H : Hmac}.

Definition key_hash_of (raw_secret pepper : pystr) : list N := hmac_sha256 pepper raw_secret.

Definition generate_key (environment pepper prefix secret : pystr) : result pystr GeneratedKey :=
  match od_get environment ENVIRONMENT_TAGS with
  | None => Err environment
  | Some tag =>
      Ok {| gk_raw := py "mmp_" ++ tag ++ py "_" ++ prefix ++ py "_" ++ secret;
            gk_prefix := prefix;
            gk_key_hash := key_hash_of secret pepper |}
  end.

Definition parse_key (raw : pystr) : option ParsedKey :=
  match py_split underscore raw with
  | [p0; tag; prefix; secret] =>
      if negb (bool_decide (p0 = py "mmp")) then None
      else if negb (Nat.eqb (length prefix) PREFIX_LENGTH)
              || negb (Nat.eqb (length secret) SECRET_LENGTH) then None
      else
        match List.find (λ et, bool_decide (snd et = tag)) ENVIRONMENT_TAGS with
        | None => None
        | Some (env, _) =>
            if negb (truthy (Some prefix)) || negb (truthy (Some secret)) then None
            else Some {| pk_environment := env; pk_prefix := prefix; pk_secret := secret |}
        end
  | _ => None
  end.

Definition verify_key (presented_secret : pystr) (stored_hash : list N) (pepper : pystr) : bool :=
  bool_decide (key_hash_of presented_secret pepper = stored_hash).

Definition api_key_cache_key (prefix : pystr) : pystr := py "apikey:" ++ prefix.

(** ** mmp_tracker/auth.py *)

Definition AUTH_CACHE_TTL : timedelta := 10 * minute.
Definition NEGATIVE_CACHE_TTL : timedelta := 30 * second.

Record AuthRecord := {
  au_app_id : pystr;
  au_organization_id : pystr;
  au_environment : pystr;
  au_kind : pystr;
  au_key_hash : list N;
  au_app_status : pystr;
  au_consent_mode : pystr
}.

(** A row of [api_keys] joined with its app. *)
Record KeyRow := {
  k_app_id : uuid;
  k_organization_id : uuid;
  k_environment : pystr;
  k_kind : pystr;
  k_prefix : pystr;
  k_hash : list N;
  k_status : pystr;
  k_app_status : pystr;
  k_consent_mode : pystr
}.

Inductive AuthError :=
| MalformedKey | KnownBadPrefix | NoSuchKey | SecretMismatch | EnvironmentMismatch | AppNotActive.

(** [LOOKUP_SQL]. *)
Definition lookup_key (db : list KeyRow) (prefix : pystr) : option KeyRow :=
  List.find (λ r, bool_decide (k_prefix r = prefix) && bool_decide (k_status r = py "active")) db.

Definition auth_record_of (row : KeyRow) : AuthRecord :=
  {| au_app_id := str_of_uuid (k_app_id row);
     au_organization_id := str_of_uuid (k_organization_id row);
     au_environment := k_environment row;
     au_kind := k_kind row;
     au_key_hash := k_hash row;
     au_app_status := k_app_status row;
     au_consent_mode := k_consent_mode row |}.

(** [KeyAuthenticator._load]. *)
Definition load_key (db : list KeyRow) (redis : store (option AuthRecord)) (now : datetime)
    (prefix cache_key : pystr) : result AuthError AuthRecord * store (option AuthRecord) :=
  match lookup_key db prefix with
  | None =>
      (Err NoSuchKey, rset_ex now cache_key None (int_total_seconds NEGATIVE_CACHE_TTL) redis)
  | Some row =>
      (Ok (auth_record_of row),
       rset_ex now cache_key (Some (auth_record_of row)) (int_total_seconds AUTH_CACHE_TTL) redis)
  end.

Definition check_record (record : AuthRecord) (parsed : ParsedKey) (pepper : pystr)
    : result AuthError AuthRecord :=
  if negb (verify_key (pk_secret parsed) (au_key_hash record) pepper) then Err SecretMismatch
  else if negb (bool_decide (au_environment record = pk_environment parsed))
  then Err EnvironmentMismatch
  else if negb (bool_decide (au_app_status record = py "active")) then Err AppNotActive
  else Ok record.

(** [KeyAuthenticator.authenticate]. *)
Definition authenticate (db : list KeyRow) (redis : store (option AuthRecord)) (now : datetime)
    (pepper presented : pystr) : result AuthError AuthRecord * store (option AuthRecord) :=
  match parse_key presented with
  | None => (Err MalformedKey, redis)
  | Some parsed =>
      let cache_key := api_key_cache_key (pk_prefix parsed) in
      match rget now cache_key redis with
      | Some None => (Err KnownBadPrefix, redis)
      | Some (Some record) => (check_record record parsed pepper, redis)
      | None =>
          let '(loaded, redis') := load_key db redis now (pk_prefix parsed) cache_key in
          (rbind loaded (λ record, check_record record parsed pepper), redis')
      end
  end.

(** ** Lemmas *)

Lemma py_split_absent sep s : sep ∉ s → py_split sep s = [s].
Proof.
  induction s as [|c s IH]; intros Hs; simpl; [done |].
  destruct (N.eqb_spec c sep) as [-> | ?]; [set_solver |]. rewrite IH; set_solver.
Qed.

Lemma py_split_app sep s t : sep ∉ s → py_split sep (s ++ sep :: t) = s :: py_split sep t.
Proof.
  induction s as [|c s IH]; intros Hs; simpl; [by rewrite N.eqb_refl |].
  destruct (N.eqb_spec c sep) as [-> | ?]; [set_solver |]. rewrite IH by set_solver. done.
Qed.

(** Splitting loses nothing: joining the pieces gives the text back. *)
Lemma py_join_split sep s : py_join [sep] (py_split sep s) = s.
Proof.
  induction s as [|c s IH]; simpl; [done |].
  assert (py_split sep s ≠ []) as Hne.
  { destruct s as [|c' s']; simpl; [done |]. repeat case_match; done. }
  destruct (N.eqb_spec c sep) as [-> | ?].
  - destruct (py_split sep s) as [|w ws]; [done |]. simpl in *. by rewrite IH.
  - destruct (py_split sep s) as [|w ws]; [done |]. destruct ws; simpl in *; by rewrite IH.
Qed.

Lemma token_no_underscore len s : is_token len s → underscore ∉ s.
Proof. intros [_ Hf] Hin. rewrite Forall_forall in Hf. by specialize (Hf _ Hin). Qed.

(** The environments and tags, as the two directions use them. *)
Lemma environment_tag env tag :
  od_get env ENVIRONMENT_TAGS = Some tag ↔
  ∃ t, List.find (λ et, bool_decide (snd et = tag)) ENVIRONMENT_TAGS = Some (env, t).
Proof.
  simpl. split.
  - repeat case_decide; intros E; simplify_eq; vm_compute; eauto.
  - repeat case_bool_decide; intros [t E]; simplify_eq; by vm_compute.
Qed.

Lemma tag_no_underscore env tag : od_get env ENVIRONMENT_TAGS = Some tag → underscore ∉ tag.
Proof.
  simpl. repeat case_decide; intros E; simplify_eq; apply (bool_decide_unpack _); by vm_compute.
Qed.

(** A key can be split back apart: whatever tokens are drawn, [parse_key] of a
    generated key gives its environment, prefix and secret, and the secret verifies
    against the stored hash; conversely a key that parses is the text generated
    from its parts. *)
Theorem parse_generated_key pepper :
  (∀ env prefix secret gk,
     is_token PREFIX_LENGTH prefix → is_token SECRET_LENGTH secret →
     generate_key env pepper prefix secret = Ok gk →
     parse_key (gk_raw gk) =
       Some {| pk_environment := env; pk_prefix := prefix; pk_secret := secret |} ∧
     verify_key secret (gk_key_hash gk) pepper = true) ∧
  (∀ raw pk, parse_key raw = Some pk →
     ∃ gk, generate_key (pk_environment pk) pepper (pk_prefix pk) (pk_secret pk) = Ok gk ∧
           gk_raw gk = raw).
Proof.
  split.
  - intros env prefix secret gk Hp Hs. unfold generate_key. destruct (od_get env _) as [tag|] eqn:Et; [| done].
    intros E. apply Ok_inj in E as <-. cbn [gk_raw gk_key_hash]. split; [| by apply bool_decide_true].
    pose proof (tag_no_underscore _ _ Et) as Ht. apply environment_tag in Et as [t Et].
    unfold parse_key. change (py "mmp_") with (py "mmp" ++ [underscore]).
    change (py "_") with [underscore]. rewrite <- app_assoc. cbn [app].
    rewrite py_split_app by (apply (bool_decide_unpack _); by vm_compute).
    rewrite py_split_app by done.
    rewrite py_split_app by (by eapply token_no_underscore).
    rewrite py_split_absent by (by eapply token_no_underscore).
    rewrite bool_decide_true by done. rewrite Et.
    destruct Hp as [Hp _], Hs as [Hs _]. rewrite Hp, Hs. cbn [negb Nat.eqb orb].
    destruct prefix as [|a prefix]; [done |]. by destruct secret.
  - intros raw pk Hpk. unfold parse_key in Hpk. pose proof (py_join_split underscore raw) as Hj.
    destruct (py_split underscore raw) as [|p0 [|tag [|pre [|sec [|]]]]]; try done.
    destruct (bool_decide_reflect (p0 = py "mmp")) as [-> |]; [| done]. cbn [negb] in Hpk.
    destruct (negb _ || negb _); [done |].
    destruct (List.find _ ENVIRONMENT_TAGS) as [[env' t]|] eqn:Ef; [| done].
    destruct (negb _ || negb _); [done |]. apply (inj Some) in Hpk as <-.
    unfold generate_key. cbn [pk_environment pk_prefix pk_secret]. rewrite (proj2 (environment_tag env' tag)) by eauto.
    eexists. split; [done |]. exact Hj.
Qed.

(** Which record a successful authentication rests on. *)
Definition live_record (db : list KeyRow) (redis : store (option AuthRecord)) (now : datetime)
    (prefix : pystr) (r : AuthRecord) : Prop :=
  rget now (api_key_cache_key prefix) redis = Some (Some r) ∨
  (rget now (api_key_cache_key prefix) redis = None ∧
   ∃ row, row ∈ db ∧ k_prefix row = prefix ∧ k_status row = py "active" ∧ r = auth_record_of row).

(** Only the holder of a key gets in: authentication succeeds only for a
    well-formed key whose secret hashes to the hash on record for its prefix, in
    the key's own environment and for an active app, the record being the cached
    one or, on a miss, that of an active key. *)
Theorem authenticate_sound db redis now pepper presented r :
  fst (authenticate db redis now pepper presented) = Ok r →
  ∃ pk, parse_key presented = Some pk ∧
    key_hash_of (pk_secret pk) pepper = au_key_hash r ∧
    au_environment r = pk_environment pk ∧ au_app_status r = py "active" ∧
    live_record db redis now (pk_prefix pk) r.
Proof.
  unfold authenticate. destruct (parse_key presented) as [pk|]; [| done].
  assert (∀ rec, check_record rec pk pepper = Ok r →
    rec = r ∧ key_hash_of (pk_secret pk) pepper = au_key_hash r ∧
    au_environment r = pk_environment pk ∧ au_app_status r = py "active") as Hc.
  { intros rec. unfold check_record, verify_key. repeat case_match; try done. bprop.
    intros; simplify_eq. bprop. done. }
  cbv zeta. destruct (rget now _ redis) as [[rec|]|] eqn:E; simpl; [| done |].
  - intros (-> & ? & ? & ?)%Hc. exists pk. split_and!; [done..|]. by left.
  - unfold load_key. destruct (lookup_key db (pk_prefix pk)) as [row|] eqn:El; simpl; [| done].
    intros (<- & ? & ? & ?)%Hc. exists pk. split_and!; [done..|]. right. split; [done |].
    apply find_elem in El as [Hin Hb]. bprop. eauto 10.
Qed.

(** A revocation takes effect: once no active key has the prefix and the cache
    entry is gone (deleted by the API or expired), the key is refused, and stays
    refused for the whole negative window whatever the database holds. *)
Theorem revoked_key_refused db redis now pepper presented pk :
  parse_key presented = Some pk →
  rget now (api_key_cache_key (pk_prefix pk)) redis = None →
  (∀ row, row ∈ db → k_prefix row = pk_prefix pk → k_status row ≠ py "active") →
  let '(r, redis') := authenticate db redis now pepper presented in
  r = Err NoSuchKey ∧
  ∀ db' now', now' < now + 30 * second →
    authenticate db' redis' now' pepper presented = (Err KnownBadPrefix, redis').
Proof.
  intros Hp Hm Hdb. unfold authenticate. rewrite Hp. cbv zeta. rewrite Hm. unfold load_key.
  assert (lookup_key db (pk_prefix pk) = None) as ->.
  { apply find_none_iff. intros row Hrow. specialize (Hdb row Hrow).
    repeat case_bool_decide; simpl; try done. by destruct Hdb. }
  simpl. split; [done |]. intros db' now' Hlt. rewrite rget_set_eq; [done |].
  exact Hlt.
Qed.
End Keys.

(** ** Witnesses *)

(** A stand-in for HMAC that keeps its arguments apart. *)
Definition ex_hmac : Hmac := {| hmac_sha256 := λ k m, k ++ [0%N] ++ m |}.

Definition ex_prefix : pystr := py "abcdefghijkl".
Definition ex_secret : pystr := py "0123456789012345678901234567890123456789012".

Lemma parse_generated_key_witness :
  parse_key (py "mmp_live_" ++ ex_prefix ++ py "_" ++ ex_secret) =
    Some {| pk_environment := py "prod"; pk_prefix := ex_prefix; pk_secret := ex_secret |}.
Proof.
  apply (proj1 (@parse_generated_key ex_hmac (py "pepper")) (py "prod") ex_prefix ex_secret
    {| gk_raw := py "mmp_live_" ++ ex_prefix ++ py "_" ++ ex_secret; gk_prefix := ex_prefix;
       gk_key_hash := @key_hash_of ex_hmac ex_secret (py "pepper") |}).
  - split; [reflexivity | apply (bool_decide_unpack _); vm_compute; exact I].
  - split; [reflexivity | apply (bool_decide_unpack _); vm_compute; exact I].
  - vm_compute. reflexivity.
Defined.

Definition ex_raw : pystr := py "mmp_live_" ++ ex_prefix ++ py "_" ++ ex_secret.

Definition ex_key_row : KeyRow :=
  {| k_app_id := 9%N; k_organization_id := 1%N; k_environment := py "prod"; k_kind := py "sdk";
     k_prefix := ex_prefix; k_hash := @key_hash_of ex_hmac ex_secret (py "pepper");
     k_status := py "active"; k_app_status := py "active"; k_consent_mode := py "strict" |}.

Lemma authenticate_sound_witness :
  au_app_status (auth_record_of ex_key_row) = py "active" ∧
  ∃ pk, parse_key ex_raw = Some pk ∧
    @key_hash_of ex_hmac (pk_secret pk) (py "pepper") = au_key_hash (auth_record_of ex_key_row).
Proof.
  destruct (@authenticate_sound ex_hmac [ex_key_row] ∅ 0 (py "pepper") ex_raw
              (auth_record_of ex_key_row)) as (pk & H1 & H2 & _ & H3 & _).
  - vm_compute. reflexivity.
  - split; [exact H3 |]. exists pk. split; [exact H1 | exact H2].
Defined.

Lemma revoked_key_refused_witness :
  fst (@authenticate ex_hmac [] ∅ 0 (py "pepper") ex_raw) = Err NoSuchKey.
Proof.
  pose proof (@revoked_key_refused ex_hmac [] ∅ 0 (py "pepper") ex_raw
    {| pk_environment := py "prod"; pk_prefix := ex_prefix; pk_secret := ex_secret |}) as H.
  destruct (@authenticate ex_hmac [] ∅ 0 (py "pepper") ex_raw) as [r m].
  apply H.
  - vm_compute. reflexivity.
  - vm_compute. reflexivity.
  - intros row Hrow. by apply elem_of_nil in Hrow.
Defined.
