(* ===== verification/Ingest.v ===== *)
(** * The ingest endpoint (mmp_tracker/ingest.py)

    [ingest_events] is the whole handler on a request whose HTTP parts are already
    read: the answer of the authenticator and of the limiter, the decoded body or
    the error it raised, the digest of the client's address, and the ids [uuid7]
    mints are arguments.  The tracker's state is what the handler shares: the
    idempotency, session and consent entries of Redis, the live view's rejections
    (mmp_ingest/live.py), the shipping buffer, and the accepted counters
    (mmp_ingest/audit.py).  Events are mutated in place by the code; here each stage
    returns the events as it leaves them. *)

From S2P Require Import Prelude Redis Ids Keys Dedup Sessions Consent Schema Buffer.

#[local] Open Scope Z_scope.
#[local] Open Scope mmp_scope.

(** ** Hashing of advertising ids *)

Definition DIGEST_BYTES : nat := 16.
Definition ADVERTISING_ID_KEYS : list pystr :=
  [py "gaid"; py "idfa"; py "advertising_id"; py "device_id"].

(** [bytes.hex()]. *)
Definition hex_of_bytes (b : list N) : pystr :=
  b ≫= (λ x, [hexdigit (x / 16)%N; hexdigit (x mod 16)%N]).

(** ** Rejections of the live view *)

Definition REJECTIONS_MAX : nat := 50.
Definition REJECTIONS_TTL : timedelta := hour.
Definition RATE_LIMIT_NOTE_WINDOW : timedelta := 10 * second.
Definition MAX_DETAIL : nat := 300.

Record Rejection := {
  rj_at : datetime;
  rj_status : Z;
  rj_reason : pystr;
  rj_detail : pystr;
  rj_events_in_batch : option Z;
  rj_source : pystr
}.

Record Live := { lv_notes : store unit; lv_lists : store (list Rejection) }.

Definition rejections_key (app_id : pystr) : pystr := py "live:rejected:" ++ app_id.
Definition rate_limit_note_key (app_id : pystr) : pystr :=
  py "live:rejected:" ++ app_id ++ py ":rate-limit-noted".

Definition record_rejection (lv : Live) (now : datetime) (app_id : pystr) (status : Z)
    (reason detail : pystr) (events_in_batch : option Z) (source : pystr) : Live :=
  let '(noted, notes) :=
    if bool_decide (reason = py "rate_limited")
    then rset_nx now (rate_limit_note_key app_id) tt (int_total_seconds RATE_LIMIT_NOTE_WINDOW)
           (lv_notes lv)
    else (true, lv_notes lv) in
  if negb noted then lv
  else
    let entry := {| rj_at := now; rj_status := status; rj_reason := reason;
                    rj_detail := take MAX_DETAIL detail;
                    rj_events_in_batch := events_in_batch; rj_source := source |} in
    let key := rejections_key app_id in
    let old := default [] (rget now key (lv_lists lv)) in
    {| lv_notes := notes;
       lv_lists := rset_ex now key (take REJECTIONS_MAX (entry :: old))
                     (int_total_seconds REJECTIONS_TTL) (lv_lists lv) |}.

(** ** The accepted counters *)

Definition counter := list ((pystr * datetime) * Z).

Definition count_accepted (c : counter) (app_id : pystr) (n : Z) (now : datetime) : counter :=
  if n <=? 0 then c
  else
    let moment := now - now mod hour in
    od_set (app_id, moment) (default 0 (od_get (app_id, moment) c) + n) c.

(** ** State, requests and responses *)

Record Tracker := {
  tk_seen : store unit;
  tk_sessions : store pystr;
  tk_consent : store Cached;
  tk_live : Live;
  tk_buffer : ShippingBuffer QueuedEvent;
  tk_accepted_total : Z;
  tk_accepted_counter : counter
}.

Definition set_live (lv : Live) (t : Tracker) : Tracker :=
  {| tk_seen := tk_seen t; tk_sessions := tk_sessions t; tk_consent := tk_consent t;
     tk_live := lv; tk_buffer := tk_buffer t; tk_accepted_total := tk_accepted_total t;
     tk_accepted_counter := tk_accepted_counter t |}.

Inductive BodyError := BodyTooLarge (reason : pystr) | BadJson (detail : pystr).

Record IngestRequest := {
  rq_now : datetime;
  rq_presented : option pystr;
  rq_auth : result AuthError AuthRecord;
  rq_allowed : bool;
  rq_retry_after_ms : Z;
  rq_body : result BodyError (list IncomingEvent);
  rq_ip_digest : option (list N);
  (** the default event id of the event at an index, and the session id of a device *)
  rq_mint_event : nat → pystr;
  rq_mint_session : pystr → uuid;
  rq_blocked_names : list pystr
}.

Inductive Response :=
| Unauthorized
| RateLimited (retry_after : Z)
| PayloadTooLarge (reason : pystr)
| InvalidJson (detail : pystr)
| EmptyBatch
| BatchTooLarge
| InvalidEvent (f : ValidationFailure)
| Accepted (accepted duplicates dropped blocked : Z).

Definition status_code (r : Response) : Z :=
  match r with
  | Unauthorized => 401
  | RateLimited _ => 429
  | PayloadTooLarge _ | BatchTooLarge => 413
  | InvalidJson _ => 400
  | InvalidEvent _ => 422
  | EmptyBatch | Accepted _ _ _ _ => 202
  end.

(** Field updates of a queued event. *)
Definition with_properties (ps : props) (e : QueuedEvent) : QueuedEvent :=
  {| q_event_id := q_event_id e; q_received_at := q_received_at e; q_occurred_at := q_occurred_at e;
     q_organization_id := q_organization_id e; q_app_id := q_app_id e;
     q_event_name := q_event_name e; q_anonymous_id := q_anonymous_id e; q_user_id := q_user_id e;
     q_session_id := q_session_id e; q_platform := q_platform e; q_os_version := q_os_version e;
     q_app_version := q_app_version e; q_device_model := q_device_model e; q_country := q_country e;
     q_ip_hash := q_ip_hash e; q_click_id := q_click_id e; q_revenue_minor := q_revenue_minor e;
     q_currency := q_currency e; q_clock_skew_ms := q_clock_skew_ms e; q_properties := ps;
     q_correlation_id := q_correlation_id e |}.

Definition with_identifiers (click : option pystr) (ip : option (list N)) (e : QueuedEvent)
    : QueuedEvent :=
  {| q_event_id := q_event_id e; q_received_at := q_received_at e; q_occurred_at := q_occurred_at e;
     q_organization_id := q_organization_id e; q_app_id := q_app_id e;
     q_event_name := q_event_name e; q_anonymous_id := q_anonymous_id e; q_user_id := q_user_id e;
     q_session_id := q_session_id e; q_platform := q_platform e; q_os_version := q_os_version e;
     q_app_version := q_app_version e; q_device_model := q_device_model e; q_country := q_country e;
     q_ip_hash := ip; q_click_id := click; q_revenue_minor := q_revenue_minor e;
     q_currency := q_currency e; q_clock_skew_ms := q_clock_skew_ms e;
     q_properties := q_properties e; q_correlation_id := q_correlation_id e |}.

Definition with_session (sid : option pystr) (e : QueuedEvent) : QueuedEvent :=
  {| q_event_id := q_event_id e; q_received_at := q_received_at e; q_occurred_at := q_occurred_at e;
     q_organization_id := q_organization_id e; q_app_id := q_app_id e;
     q_event_name := q_event_name e; q_anonymous_id := q_anonymous_id e; q_user_id := q_user_id e;
     q_session_id := sid; q_platform := q_platform e; q_os_version := q_os_version e;
     q_app_version := q_app_version e; q_device_model := q_device_model e; q_country := q_country e;
     q_ip_hash := q_ip_hash e; q_click_id := q_click_id e; q_revenue_minor := q_revenue_minor e;
     q_currency := q_currency e; q_clock_skew_ms := q_clock_skew_ms e;
     q_properties := q_properties e; q_correlation_id := q_correlation_id e |}.

Section Ingest.
Context {U : Unicode} {L : EdgeLib} {H : Hmac}.
Context (pepper : pystr) (window : IdempotencyWindow).

(** [hash_device_id] of mmp_crypto/pii.py. *)
Definition hash_device_id (device_id : pystr) : option (list N) :=
  let cleaned := py_lower (py_strip device_id) in
  if forallb (λ c, (c =? 48)%N || (c =? 45)%N) cleaned then None
  else Some (take DIGEST_BYTES (hmac_sha256 pepper cleaned)).

Definition hash_advertising_ids (e : QueuedEvent) : QueuedEvent :=
  match q_properties e with
  | [] => e
  | properties =>
      let raw := List.find json_truthy
                   (omap (λ key, od_get key properties) ADVERTISING_ID_KEYS) in
      let stripped := fold_left (λ d key, od_del key d) ADVERTISING_ID_KEYS properties in
      match raw with
      | Some (JStr s) =>
          match hash_device_id s with
          | Some digest =>
              with_properties (od_set (py "device_hash") (JStr (hex_of_bytes digest)) stripped) e
          | None => with_properties stripped e
          end
      | _ => with_properties stripped e
      end
  end.

(** The validation loop. *)
Fixpoint validate_batch (events : list IncomingEvent) (index : nat) (org app : uuid)
    (rq : IngestRequest) : result ValidationFailure (list QueuedEvent) :=
  match events with
  | [] => Ok []
  | incoming :: rest =>
      let* event := validate_event incoming (Z.of_nat index) org app (rq_now rq)
                      (rq_mint_event rq index) in
      let event := hash_advertising_ids
                     (with_identifiers (q_click_id event) (rq_ip_digest rq) event) in
      let* queued := validate_batch rest (S index) org app rq in
      Ok (event :: queued)
  end.

(** *** Consent *)

Definition CONSENT_EVENT : pystr := py "consentupdate".

(** [State(str(value))]: only a string can name a state; every other JSON value
    prints as something that is not one. *)
Definition state_of_json (v : json) : result pystr State :=
  match v with JStr s => state_of s | _ => Err [] end.

Definition reported_states (ps : props) : list (Purpose * State) :=
  fold_left (λ acc kv,
    match purpose_of (fst kv), state_of_json (snd kv) with
    | Ok p, Ok s => od_set p s acc
    | _, _ => acc
    end) ps [].

Fixpoint record_updates (redis : store Cached) (now : datetime) (app_id : pystr)
    (events : list QueuedEvent) : result pystr (store Cached) :=
  match events with
  | [] => Ok redis
  | e :: rest =>
      if negb (bool_decide (canonical_event_name (q_event_name e) = CONSENT_EVENT))
      then record_updates redis now app_id rest
      else
        match reported_states (q_properties e) with
        | [] => record_updates redis now app_id rest
        | states =>
            let* redis' := record_consent redis now app_id (q_anonymous_id e) states CACHE_TTL in
            record_updates redis' now app_id rest
        end
  end.

Definition minimise_event (consents : list (pystr * ConsentSet)) (e : QueuedEvent) : QueuedEvent :=
  let consent := default {| states := []; mode := PERMISSIVE |}
                   (od_get (q_anonymous_id e) consents) in
  let e := with_properties (minimise (q_properties e) consent) e in
  if negb (allows consent ATTRIBUTION) then with_identifiers None None e else e.

(** [Mode(mode)]. *)
Definition mode_of (m : pystr) : result pystr Mode :=
  if bool_decide (m = py "permissive") then Ok PERMISSIVE
  else if bool_decide (m = py "strict") then Ok STRICT
  else Err m.

Definition apply_consent (redis : store Cached) (now : datetime) (app_id : pystr)
    (events : list QueuedEvent) (mode : pystr)
    : result pystr (list QueuedEvent * store Cached) :=
  let* redis' := record_updates redis now app_id events in
  let* m := mode_of mode in
  let* consents := lookup_many redis' now app_id (q_anonymous_id <$> events) m in
  Ok (minimise_event consents <$> events, redis').

(** *** Sessions *)

Definition is_session_end (e : QueuedEvent) : bool :=
  bool_decide (q_event_name e = py "session_end").

(** An event that takes its session from the tracker. *)
Definition needs_session (e : QueuedEvent) : bool :=
  negb (truthy (q_session_id e)) && negb (is_session_end e).

Definition ends_session (e : QueuedEvent) : bool :=
  negb (truthy (q_session_id e)) && is_session_end e.

Fixpoint end_all (redis : store pystr) (now : datetime) (app_id : pystr)
    (events : list QueuedEvent) : result pystr (list QueuedEvent * store pystr) :=
  match events with
  | [] => Ok ([], redis)
  | e :: rest =>
      if ends_session e then
        let '(ended, redis1) := end_session redis now app_id (q_anonymous_id e) in
        let* ended := ended in
        let* r := end_all redis1 now app_id rest in
        Ok (match ended with
            | Some id => with_session (Some (str_of_uuid id)) e
            | None => e
            end :: fst r, snd r)
      else
        let* r := end_all redis now app_id rest in
        Ok (e :: fst r, snd r)
  end.

Definition assign_sessions (redis : store pystr) (now : datetime) (app_id : pystr)
    (mint : pystr → uuid) (events : list QueuedEvent)
    : result pystr (list QueuedEvent * store pystr) :=
  let needing :=
    fold_left (λ d e, if needs_session e
                      then od_setdefault (q_anonymous_id e) (q_event_name e) d else d) events [] in
  let* r :=
    match needing with
    | [] => Ok (events, redis)
    | _ =>
        let* r := resolve_many redis (at_once now) app_id needing DEFAULT_TIMEOUT mint in
        Ok ((λ e, if needs_session e then
                    match od_get (q_anonymous_id e) (fst r) with
                    | Some d => with_session (Some (str_of_uuid (session_id d))) e
                    | None => e
                    end
                  else e) <$> events, snd r)
    end in
  (* [ends] was collected before the loop above, which leaves those events alone *)
  end_all (snd r) now app_id (fst r).

(** *** The handler *)

Definition reject (t : Tracker) (rq : IngestRequest) (app : pystr) (status : Z)
    (reason detail : pystr) (n : option Z) : Tracker :=
  set_live (record_rejection (tk_live t) (rq_now rq) app status reason detail n (py "sdk")) t.

(** From the validated events on: blocked names, consent, sessions, deduplication and
    the buffer. *)
Definition enqueue (t : Tracker) (rq : IngestRequest) (auth : AuthRecord)
    (queued : list QueuedEvent) : result pystr (Response * Tracker) :=
  let now := rq_now rq in
  let app := au_app_id auth in
  let kept :=
    List.filter (λ e, negb (bool_decide (canonical_event_name (q_event_name e)
                                          ∈ rq_blocked_names rq))) queued in
  let blocked := Z.of_nat (length queued) - Z.of_nat (length kept) in
  let* c := apply_consent (tk_consent t) now app kept (au_consent_mode auth) in
  let* s := assign_sessions (tk_sessions t) now app (rq_mint_session rq) (fst c) in
  let queued := fst s in
  let '(fresh, seen1) := filter_new window (tk_seen t) now app (q_event_id <$> queued) in
  let accepted := List.filter (λ e, bool_decide (q_event_id e ∈ fresh)) queued in
  let duplicates := Z.of_nat (length queued) - Z.of_nat (length accepted) in
  let '(dropped, buffer) := append (tk_buffer t) accepted in
  let seen2 := forget seen1 app (q_event_id <$> take dropped accepted) in
  let written := Z.of_nat (length accepted) - Z.of_nat dropped in
  Ok (Accepted written duplicates (Z.of_nat dropped) blocked,
      {| tk_seen := seen2; tk_sessions := snd s; tk_consent := snd c; tk_live := tk_live t;
         tk_buffer := buffer; tk_accepted_total := tk_accepted_total t + written;
         tk_accepted_counter := count_accepted (tk_accepted_counter t) app written now |}).

(** [uuid.UUID(auth.organization_id)]. *)
Definition uuid_or_raise (s : pystr) : result pystr uuid :=
  match uuid_of_str s with Some u => Ok u | None => Err s end.

Definition ingest_events (t : Tracker) (rq : IngestRequest) : result pystr (Response * Tracker) :=
  if negb (truthy (rq_presented rq)) then Ok (Unauthorized, t)
  else
    match rq_auth rq with
    | Err _ => Ok (Unauthorized, t)
    | Ok auth =>
        let app := au_app_id auth in
        if negb (rq_allowed rq) then
          Ok (RateLimited (Z.max 1 (rq_retry_after_ms rq / 1000)),
              reject t rq app 429 (py "rate_limited")
                (py "too many requests for this app; the SDK retries with backoff") None)
        else
          match rq_body rq with
          | Err (BodyTooLarge reason) =>
              Ok (PayloadTooLarge reason,
                  reject t rq app 413 (py "payload_too_large") reason None)
          | Err (BadJson detail) =>
              Ok (InvalidJson detail, reject t rq app 400 (py "invalid_json") detail None)
          | Ok [] => Ok (EmptyBatch, t)
          | Ok events =>
              if Z.of_nat (length events) >? MAX_EVENTS_PER_BATCH then
                Ok (BatchTooLarge,
                    reject t rq app 413 (py "batch_too_large")
                      (py "at most 100 events per request") (Some (Z.of_nat (length events))))
              else
                let* org := uuid_or_raise (au_organization_id auth) in
                let* app_id := uuid_or_raise app in
                match validate_batch events 0 org app_id rq with
                | Err f =>
                    Ok (InvalidEvent f,
                        reject t rq app 422 (py "invalid_event") (failure_str f)
                          (Some (Z.of_nat (length events))))
                | Ok queued => enqueue t rq auth queued
                end
          end
    end.

(** ** Lemmas *)

Definition no_advertising_id (e : QueuedEvent) : Prop :=
  ∀ k, k ∈ ADVERTISING_ID_KEYS → k ∉ fst <$> q_properties e.

Lemma strip_keys (keys : list pystr) (d : props) k :
  k ∈ fst <$> fold_left (λ d key, od_del key d) keys d → k ∈ fst <$> d ∧ k ∉ keys.
Proof.
  revert d. induction keys as [|x keys IH]; intros d Hk; simpl in *; [by split; [| set_solver] |].
  apply IH in Hk as [Hk Hn]. unfold od_del in Hk.
  apply list_elem_of_fmap in Hk as (p & -> & [Hp Hx]%elem_of_lfilter). bprop.
  split; [by apply list_elem_of_fmap_2 | set_solver].
Qed.

Lemma hash_advertising_ids_clean e : no_advertising_id (hash_advertising_ids e).
Proof.
  assert (Forall (λ k, k ≠ py "device_hash") ADVERTISING_ID_KEYS) as Hd
    by (apply (bool_decide_unpack _); by vm_compute).
  rewrite Forall_forall in Hd. intros k Hk. unfold hash_advertising_ids.
  destruct (q_properties e) as [|p ps] eqn:E; [by rewrite E, fmap_nil; set_solver |].
  assert (∀ d : props, k ∈ fst <$> fold_left (λ d key, od_del key d) ADVERTISING_ID_KEYS d → False) as Hs.
  { intros d [_ ?]%strip_keys. done. }
  destruct (List.find _ _) as [[| | | |s| |]|]; cbn [q_properties with_properties];
    try (intros Hin; exact (Hs _ Hin)).
  destruct (hash_device_id s); cbn [q_properties with_properties];
    [| intros Hin; exact (Hs _ Hin)].
  intros (x & -> & Hx)%list_elem_of_fmap. apply od_set_elem in Hx as [-> | Hx]; [by apply Hd in Hk |].
  eapply Hs. by apply list_elem_of_fmap_2.
Qed.

Lemma hash_advertising_ids_keeps e :
  q_event_id (hash_advertising_ids e) = q_event_id e ∧
  q_event_name (hash_advertising_ids e) = q_event_name e.
Proof.
  unfold hash_advertising_ids. destruct (q_properties e); [done |].
  destruct (List.find _ _) as [[| | | |s| |]|]; try done. by destruct (hash_device_id s).
Qed.

Lemma validate_event_id ev i org app now did q :
  validate_event ev i org app now did = Ok q →
  q_event_id q = event_id_or (in_event_id ev) did ∧ q_event_name q = in_event_name ev.
Proof. unfold validate_event. intros. inv_ok. by subst q. Qed.

(** What the validation loop gives: the events of the batch, one for one, without
    advertising ids. *)
Lemma validate_batch_ok events i org app rq queued :
  validate_batch events i org app rq = Ok queued →
  length queued = length events ∧ Forall no_advertising_id queued ∧
  ((∀ ev, ev ∈ events → truthy (in_event_id ev) = true) →
   (λ e, (q_event_id e, q_event_name e)) <$> queued =
   (λ ev, (event_id_or (in_event_id ev) [], in_event_name ev)) <$> events).
Proof.
  revert i queued. induction events as [|ev events IH]; intros i queued Hv; simpl in Hv.
  { injection Hv as <-. by split_and!. }
  inv_ok. subst queued. apply IH in H1 as (Hl & Hf & Hid).
  destruct (hash_advertising_ids_keeps (with_identifiers (q_click_id x) (rq_ip_digest rq) x))
    as [E1 E2]. apply validate_event_id in H0 as [E3 E4]. split_and!.
  - simpl. by rewrite Hl.
  - constructor; [apply hash_advertising_ids_clean | done].
  - intros Ht. rewrite !fmap_cons, Hid by (intros; apply Ht; by right). f_equal.
    rewrite E1, E2. simpl. rewrite E3, E4. f_equal. specialize (Ht ev ltac:(left)).
    by destruct (in_event_id ev) as [[]|].
Qed.

Lemma minimise_event_keeps cs e :
  q_event_id (minimise_event cs e) = q_event_id e ∧
  q_anonymous_id (minimise_event cs e) = q_anonymous_id e.
Proof. unfold minimise_event. by case_match. Qed.

Lemma minimise_event_name cs e : q_event_name (minimise_event cs e) = q_event_name e.
Proof. unfold minimise_event. by case_match. Qed.

Lemma minimise_event_clean cs e : no_advertising_id e → no_advertising_id (minimise_event cs e).
Proof.
  intros Hc k Hk Hin. apply (Hc k Hk). unfold minimise_event in Hin.
  assert (k ∈ fst <$> minimise (q_properties e)
    (default {| states := []; mode := PERMISSIVE |} (od_get (q_anonymous_id e) cs))) as Hm
    by (revert Hin; by case_match).
  rewrite minimise_filter in Hm. case_match; [done |].
  apply list_elem_of_fmap in Hm as (p & -> & [Hp _]%elem_of_lfilter). by apply list_elem_of_fmap_2.
Qed.

(** An event that carries nothing a denied attribution forbids. *)
Definition minimised (c : ConsentSet) (e : QueuedEvent) : Prop :=
  may_attribute c = false →
  q_click_id e = None ∧ q_ip_hash e = None ∧
  ∀ k, k ∈ ATTRIBUTION_FIELDS → k ∉ fst <$> q_properties e.

Lemma minimise_event_minimised cs e c :
  od_get (q_anonymous_id e) cs = Some c → minimised c (minimise_event cs e).
Proof.
  intros Hc Ha. unfold minimise_event. rewrite Hc. simpl. unfold may_attribute in Ha.
  rewrite Ha. simpl. split_and!; [done | done |]. intros k Hk Hin.
  rewrite minimise_filter, Ha in Hin.
  apply list_elem_of_fmap in Hin as (p & -> & [_ Hp]%elem_of_lfilter). by bprop.
Qed.

(** Sessions change nothing but the session. *)
Definition sessionless (e : QueuedEvent) : QueuedEvent := with_session None e.

Lemma end_all_sessionless redis now app es r :
  end_all redis now app es = Ok r → sessionless <$> fst r = sessionless <$> es.
Proof.
  revert redis r. induction es as [|e es IH]; intros redis r Hr; simpl in Hr; [by injection Hr as <- |].
  destruct (ends_session e).
  - destruct (end_session redis now app (q_anonymous_id e)) as [ended redis1]. inv_ok. subst r.
    simpl. f_equal; [by case_match | by eapply IH].
  - inv_ok. subst r. simpl. f_equal. by eapply IH.
Qed.

Lemma assign_sessions_sessionless redis now app mint es r :
  assign_sessions redis now app mint es = Ok r → sessionless <$> fst r = sessionless <$> es.
Proof.
  unfold assign_sessions. intros Hr. apply rbind_Ok in Hr as (x & Hx & Hr).
  apply end_all_sessionless in Hr. rewrite Hr. clear Hr.
  destruct (fold_left _ es []) as [|p ps]; [by injection Hx as <- |].
  apply rbind_Ok in Hx as (y & _ & Hx). apply Ok_inj in Hx as <-. simpl.
  rewrite <- list_fmap_compose. apply list_fmap_ext. intros i e _. simpl. by repeat case_match.
Qed.

Lemma sessionless_proj {A} (f : QueuedEvent → A) (es es' : list QueuedEvent) :
  (∀ e, f (sessionless e) = f e) → sessionless <$> es = sessionless <$> es' → f <$> es = f <$> es'.
Proof.
  intros Hf E. apply (f_equal (fmap f)) in E. rewrite <- !list_fmap_compose in E.
  rewrite (list_fmap_ext (f ∘ sessionless) f es), (list_fmap_ext (f ∘ sessionless) f es') in E;
    [done | intros; apply Hf..].
Qed.

Lemma sessionless_elem e (es es' : list QueuedEvent) :
  sessionless <$> es = sessionless <$> es' → e ∈ es → ∃ e', e' ∈ es' ∧ sessionless e = sessionless e'.
Proof.
  intros E He. assert (sessionless e ∈ sessionless <$> es') as Hin
    by (rewrite <- E; by apply list_elem_of_fmap_2).
  apply list_elem_of_fmap in Hin as (e' & ? & ?). eauto.
Qed.

Lemma elem_of_append b ps (e : QueuedEvent) :
  e ∈ b_queue (snd (append b ps)) → e ∈ b_queue b ∨ e ∈ ps.
Proof.
  unfold append. destruct (append_loop _ _ _ _) as [q d] eqn:E. simpl.
  replace q with (fst (append_loop (b_capacity b) (b_queue b) 0 ps)) by by rewrite E.
  clear E q d. generalize 0%nat (b_queue b).
  induction ps as [|p ps IH]; intros n q Hin; simpl in *; [by left |].
  assert (∀ q, e ∈ deque_append (b_capacity b) q p → e ∈ q ∨ e = p) as Hd.
  { intros q0 Hx. unfold deque_append in Hx.
    destruct (length q0 =? b_capacity b)%nat; [apply elem_of_drop_in in Hx |]; set_solver. }
  destruct (b_capacity b <=? length q)%nat; apply IH in Hin as [Hin|Hin]; try (right; by right);
    apply Hd in Hin as [Hin| ->]; try (right; by left); left; [by eapply elem_of_drop_in | done].
Qed.

(** What neither consent nor a session changes of an event. *)
Definition identity (e : QueuedEvent) : pystr * pystr * pystr := (q_event_id e, q_event_name e, q_anonymous_id e).

Lemma identity_ids (es es' : list QueuedEvent) : identity <$> es = identity <$> es' → q_event_id <$> es = q_event_id <$> es'.
Proof. intros E. apply (f_equal (fmap (λ p, fst (fst p)))) in E. by rewrite <- !list_fmap_compose in E. Qed.

(** What a batch that reached the buffer went through. *)
Record enqueued (t : Tracker) (rq : IngestRequest) (auth : AuthRecord)
    (queued kept final accepted : list QueuedEvent) (r : Response) (t' : Tracker) : Prop := {
  en_kept : kept = List.filter (λ e, negb (bool_decide (canonical_event_name (q_event_name e)
                                                         ∈ rq_blocked_names rq))) queued;
  en_identity : identity <$> final = identity <$> kept;
  en_accepted : accepted = List.filter (λ e, bool_decide (q_event_id e ∈
      fst (filter_new window (tk_seen t) (rq_now rq) (au_app_id auth) (q_event_id <$> final)))) final;
  en_clean : Forall no_advertising_id queued → Forall no_advertising_id final;
  en_minimised : ∀ e, e ∈ final → ∃ m c, mode_of (au_consent_mode auth) = Ok m ∧
    lookup_consent (tk_consent t') (rq_now rq) (au_app_id auth) (q_anonymous_id e) m = Ok c ∧
    minimised c e;
  en_buffer : tk_buffer t' = snd (append (tk_buffer t) accepted);
  en_seen : tk_seen t' = forget (snd (filter_new window (tk_seen t) (rq_now rq) (au_app_id auth)
                                        (q_event_id <$> final))) (au_app_id auth)
                           (q_event_id <$> take (fst (append (tk_buffer t) accepted)) accepted);
  en_response : r = Accepted
    (Z.of_nat (length accepted) - Z.of_nat (fst (append (tk_buffer t) accepted)))
    (Z.of_nat (length final) - Z.of_nat (length accepted))
    (Z.of_nat (fst (append (tk_buffer t) accepted)))
    (Z.of_nat (length queued) - Z.of_nat (length kept))
}.

Lemma enqueue_spec t rq auth queued r t' :
  enqueue t rq auth queued = Ok (r, t') →
  ∃ kept final accepted, enqueued t rq auth queued kept final accepted r t'.
Proof.
  unfold enqueue. cbv zeta. set (kept := List.filter _ queued). intros Hr.
  apply rbind_Ok in Hr as ([mins cons'] & Hc & Hr). apply rbind_Ok in Hr as ([final sess'] & Hs & Hr).
  cbn [fst snd] in *. apply assign_sessions_sessionless in Hs. cbn [fst] in Hs.
  unfold apply_consent in Hc. apply rbind_Ok in Hc as (redis' & Hu & Hc).
  apply rbind_Ok in Hc as (m & Hm & Hc). apply rbind_Ok in Hc as (cs & Hl & Hc).
  apply Ok_inj in Hc. injection Hc as <- <-.
  destruct (filter_new window (tk_seen t) (rq_now rq) (au_app_id auth) (q_event_id <$> final))
    as [fresh seen1] eqn:Ef.
  destruct (append (tk_buffer t) _) as [dropped buffer] eqn:Ea. apply Ok_inj in Hr.
  injection Hr as <- <-.
  exists kept, final, (List.filter (λ e, bool_decide (q_event_id e ∈ fresh)) final). split.
  - done.
  - rewrite (sessionless_proj identity _ _ ltac:(done) Hs), <- list_fmap_compose.
    apply list_fmap_ext. intros ? e _. unfold identity. cbn. destruct (minimise_event_keeps cs e) as [-> ->].
    by rewrite minimise_event_name.
  - by rewrite Ef.
  - intros Hq. apply Forall_forall. intros e He.
    destruct (sessionless_elem e _ _ Hs He) as (e' & He' & E).
    apply list_elem_of_fmap in He' as (e0 & -> & He0).
    assert (no_advertising_id (minimise_event cs e0)) as Hc.
    { apply minimise_event_clean. rewrite Forall_forall in Hq. apply Hq.
      by apply elem_of_lfilter in He0 as [? _]. }
    intros k Hk Hin. apply (Hc k Hk). change (q_properties (minimise_event cs e0)) with
      (q_properties (sessionless (minimise_event cs e0))). by rewrite <- E.
  - intros e He. destruct (sessionless_elem e _ _ Hs He) as (e' & He' & E).
    apply list_elem_of_fmap in He' as (e0 & -> & He0).
    destruct (lookup_many_spec _ _ _ _ _ _ Hl (q_anonymous_id e0)) as (c & Hg & Hlc).
    { by apply list_elem_of_fmap_2. }
    pose proof (minimise_event_minimised cs e0 c Hg) as Hmin.
    assert (q_anonymous_id e = q_anonymous_id e0) as Eid.
    { change (q_anonymous_id (sessionless e) = q_anonymous_id e0). rewrite E.
      apply minimise_event_keeps. }
    exists m, c. cbn [tk_consent]. rewrite Eid. split_and!; [done | done |]. intros Hd.
    destruct (Hmin Hd) as (H1 & H2 & H3).
    change (q_click_id (sessionless e) = None ∧ q_ip_hash (sessionless e) = None ∧
      ∀ k, k ∈ ATTRIBUTION_FIELDS → k ∉ fst <$> q_properties (sessionless e)).
    by rewrite E.
  - by rewrite Ea.
  - rewrite Ef, Ea. done.
  - by rewrite Ea.
Qed.

(** The two ways an answer comes about. *)
Lemma ingest_cases t rq r t' :
  ingest_events t rq = Ok (r, t') →
  (∃ lv, t' = set_live lv t ∧ ∀ a d dr b, r ≠ Accepted a d dr b) ∨
  (∃ auth events org app queued, rq_auth rq = Ok auth ∧ rq_body rq = Ok events ∧
     Z.of_nat (length events) <= 100 ∧
     validate_batch events 0 org app rq = Ok queued ∧
     enqueue t rq auth queued = Ok (r, t')).
Proof.
  assert (∀ x, set_live (tk_live x) x = x) as Hself by by intros [].
  unfold ingest_events. intros Hr. destruct (negb (truthy (rq_presented rq))).
  { injection Hr as <- <-. left. exists (tk_live t). by rewrite Hself. }
  destruct (rq_auth rq) as [auth|]; [| injection Hr as <- <-; left; exists (tk_live t); by rewrite Hself].
  destruct (negb (rq_allowed rq)).
  { injection Hr as <- <-. left. by eexists. }
  destruct (rq_body rq) as [[|ev events]|[|]].
  - injection Hr as <- <-. left. exists (tk_live t). by rewrite Hself.
  - destruct (Z.gtb_spec (Z.of_nat (length (ev :: events))) MAX_EVENTS_PER_BATCH).
    { injection Hr as <- <-. left. by eexists. }
    apply rbind_Ok in Hr as (org & _ & Hr). apply rbind_Ok in Hr as (app & _ & Hr).
    destruct (validate_batch _ _ _ _ _) as [queued|f] eqn:Ev.
    + right. exists auth, (ev :: events), org, app, queued. done.
    + injection Hr as <- <-. left. by eexists.
  - injection Hr as <- <-. left. by eexists.
  - injection Hr as <- <-. left. by eexists.
Qed.

(** The events whose names are not blocked, and those of them whose ids the window has not
    seen. *)
Definition unblocked (rq : IngestRequest) (queued : list QueuedEvent) : list QueuedEvent :=
  List.filter (λ e, negb (bool_decide (canonical_event_name (q_event_name e) ∈ rq_blocked_names rq))) queued.
Definition unseen (t : Tracker) (rq : IngestRequest) (app : pystr) (es : list QueuedEvent) : list QueuedEvent :=
  List.filter (λ e, negb (seen (tk_seen t) (rq_now rq) app (q_event_id e))) es.

Lemma filter_lfilter_proj {A B} (f : A → B) (p : B → bool) (l l' : list A) :
  f <$> l = f <$> l' → f <$> List.filter (λ x, p (f x)) l = f <$> List.filter (λ x, p (f x)) l'.
Proof.
  revert l'. induction l as [|x l IH]; intros [|x' l'] E; [done | discriminate E.. |].
  rewrite !fmap_cons in E. injection E as E1 E2. simpl. rewrite <- E1.
  destruct (p (f x)); [| by apply IH]. rewrite !fmap_cons, E1. f_equal. by apply IH.
Qed.

(** What the window accepts of the events is what it had not seen of them before. *)
Lemma accepted_unseen t rq app (final kept : list QueuedEvent) :
  identity <$> final = identity <$> kept →
  identity <$> List.filter (λ e, bool_decide (q_event_id e ∈
      fst (filter_new window (tk_seen t) (rq_now rq) app (q_event_id <$> final)))) final =
  identity <$> unseen t rq app kept.
Proof.
  intros E. unfold unseen.
  transitivity (identity <$> List.filter (λ e, negb (seen (tk_seen t) (rq_now rq) app (q_event_id e))) final).
  - f_equal. apply List.filter_ext_in. intros e He%list_elem_of_In.
    destruct (seen (tk_seen t) (rq_now rq) app (q_event_id e)) eqn:Es; cbn.
    + apply bool_decide_eq_false. intros [_ Hf]%filter_new_elem. congruence.
    + apply bool_decide_eq_true, filter_new_elem. split; [by apply list_elem_of_fmap_2 | done].
  - exact (filter_lfilter_proj identity (λ p, negb (seen (tk_seen t) (rq_now rq) app (fst (fst p)))) _ _ E).
Qed.

(** (C5) Every event of an accepted batch is accounted for.  A batch of at most a hundred
    events that validate is answered with exact counts: blocked are the events whose names
    are, duplicates those of the rest whose ids the idempotency window had seen, and what
    is left is fresh.  The fresh events, in order, go to the end of the buffer; when it
    overflows, as many events as do not fit fall off its front, oldest first, and that
    number is what is answered as dropped and taken off the accepted count.  Afterwards,
    and until the marks expire, the window has seen what it had seen before and the fresh
    events, except the ids of the first of them, as many as were dropped: their marks are
    undone, although what was dropped may be older events.  A refused batch changes nothing
    but the live view. *)
Theorem ingest_accounts_for_every_event t rq r t' :
  ingest_events t rq = Ok (r, t') →
  match r with
  | Accepted a d dr b =>
      ∃ auth events org app queued final,
        rq_auth rq = Ok auth ∧ rq_body rq = Ok events ∧ Z.of_nat (length events) <= 100 ∧
        validate_batch events 0 org app rq = Ok queued ∧ length queued = length events ∧
        let rest := unblocked rq queued in
        let fresh := unseen t rq (au_app_id auth) rest in
        identity <$> final = identity <$> fresh ∧
        b = Z.of_nat (length queued) - Z.of_nat (length rest) ∧
        d = Z.of_nat (length rest) - Z.of_nat (length fresh) ∧
        ((0 < b_capacity (tk_buffer t))%nat → (length (b_queue (tk_buffer t)) <= b_capacity (tk_buffer t))%nat →
         let shed := (length (b_queue (tk_buffer t)) + length fresh - b_capacity (tk_buffer t))%nat in
         dr = Z.of_nat shed ∧ a = Z.of_nat (length fresh) - Z.of_nat shed ∧
         b_queue (tk_buffer t') = drop shed (b_queue (tk_buffer t) ++ final) ∧
         ∀ now' id, rq_now rq <= now' → now' < rq_now rq + iw_ttl window * second →
           seen (tk_seen t') now' (au_app_id auth) id = true ↔
           (seen (tk_seen t) now' (au_app_id auth) id = true ∨ id ∈ q_event_id <$> fresh) ∧ id ∉ q_event_id <$> take shed fresh)
  | _ => ∃ lv, t' = set_live lv t
  end.
Proof.
  intros Hr. apply ingest_cases in Hr as [(lv & -> & Hn)|
    (auth & events & org & app & queued & Ha & Hb & Hlen & Hv & He)].
  { destruct r; eauto. by destruct (Hn accepted duplicates dropped blocked). }
  apply enqueue_spec in He as (kept & final & acc & [Hk Hid Hacc _ _ Hbuf Hseen Hres]). rewrite Hres.
  pose proof (validate_batch_ok _ _ _ _ _ _ Hv) as (Hl & _ & _).
  pose proof (accepted_unseen t rq (au_app_id auth) final kept Hid) as Hfresh. rewrite <- Hacc in Hfresh.
  change (kept = unblocked rq queued) in Hk. rewrite Hk in *.
  exists auth, events, org, app, queued, acc. cbv zeta.
  assert (length final = length (unblocked rq queued)) as Hfk by (apply (f_equal length) in Hid; by rewrite !length_fmap in Hid).
  assert (length acc = length (unseen t rq (au_app_id auth) (unblocked rq queued))) as Hfa
    by (apply (f_equal length) in Hfresh; by rewrite !length_fmap in Hfresh).
  split_and!; [done | done | done | done | done | done | done | by rewrite Hfk, Hfa |].
  intros Hcap Hq. rewrite <- Hfa.
  pose proof (append_loop_spec (b_capacity (tk_buffer t)) (b_queue (tk_buffer t)) 0 acc Hcap Hq) as Hal.
  unfold append in Hbuf, Hseen |- *. destruct (append_loop _ _ _ _) as [q n]. destruct Hal as [Eq En]. cbn in En. subst n q.
  cbn [fst snd b_queue] in *. rewrite Hbuf. cbn [b_queue].
  split_and!; [done | done | done |]. intros now' id Hn1 Hn2. rewrite Hseen, forget_seen, andb_true_iff, negb_true_iff, bool_decide_eq_false.
  rewrite (filter_new_seen window (tk_seen t) (rq_now rq)) by done.
  apply identity_ids in Hfresh as Hids.
  rewrite !fmap_take, <- Hids.
  assert (id ∈ fst (filter_new window (tk_seen t) (rq_now rq) (au_app_id auth) (q_event_id <$> final)) ↔ id ∈ q_event_id <$> acc) as ->; [| tauto].
  rewrite Hacc, list_elem_of_fmap. split.
  - intros Hin. pose proof Hin as [Hf _]%filter_new_elem. apply list_elem_of_fmap in Hf as (e & -> & He).
    exists e. split; [done |]. apply elem_of_lfilter. split; [done |]. by apply bool_decide_eq_true.
  - intros (e & -> & [_ He]%elem_of_lfilter). by apply bool_decide_eq_true in He.
Qed.

(** (C6) Every event an accepted batch adds to the buffer has lost its raw advertising ids.
    If the consent store, after the batch's own consent events were recorded in it, answers
    for the event's device that attribution is not allowed, the event carries neither click
    id, nor address digest, nor any attribution field.  The store answers from its cache: it
    knows a denial for as long as that is cached, and afterwards the mode of the key decides
    ([denial_lapses] of [Consent]). *)
Theorem ingest_protects_identifiers t rq r t' e :
  ingest_events t rq = Ok (r, t') →
  e ∈ b_queue (tk_buffer t') → e ∉ b_queue (tk_buffer t) →
  no_advertising_id e ∧
  ∃ auth m c, rq_auth rq = Ok auth ∧ mode_of (au_consent_mode auth) = Ok m ∧
    lookup_consent (tk_consent t') (rq_now rq) (au_app_id auth) (q_anonymous_id e) m = Ok c ∧
    minimised c e.
Proof.
  intros Hr Hin Hnew. apply ingest_cases in Hr as [(lv & -> & _)|
    (auth & events & org & app & queued & Ha & Hb & _ & Hv & He)]; [done |].
  apply enqueue_spec in He as (kept & final & acc & [_ _ Hacc Hcl Hmin Hbuf _ _]).
  apply validate_batch_ok in Hv as (_ & Hq & _). specialize (Hcl Hq).
  rewrite Hbuf in Hin. apply elem_of_append in Hin as [?|Hin]; [done |].
  rewrite Hacc in Hin. apply elem_of_lfilter in Hin as [Hin _].
  rewrite Forall_forall in Hcl. split; [by apply Hcl |].
  destruct (Hmin e Hin) as (m & c & ? & ? & ?). by exists auth, m, c.
Qed.

(** Retrying an accepted batch is harmless: when a batch was accepted in full,
    sending the same events again for the same app within the idempotency window
    queues nothing, whatever happens to consent and sessions meanwhile. *)
Theorem ingest_retry_is_idempotent t rq t1 rq' r' t2 auth auth' a b events :
  ingest_events t rq = Ok (Accepted a 0 0 b, t1) →
  ingest_events t1 rq' = Ok (r', t2) →
  rq_auth rq = Ok auth → rq_auth rq' = Ok auth' → au_app_id auth' = au_app_id auth →
  rq_body rq = Ok events → rq_body rq' = Ok events →
  rq_blocked_names rq' = rq_blocked_names rq →
  (∀ ev, ev ∈ events → truthy (in_event_id ev) = true) →
  rq_now rq <= rq_now rq' → rq_now rq' < rq_now rq + iw_ttl window * second →
  b_queue (tk_buffer t2) = b_queue (tk_buffer t1) ∧
  ∀ a' d' dr' b', r' = Accepted a' d' dr' b' → a' = 0 ∧ dr' = 0.
Proof.
  intros H1 H2 Ha Ha' Happ Hb Hb' Hbl Hids Hle Hlt.
  apply ingest_cases in H1 as [(lv & -> & Hn)|
    (auth1 & ev1 & org & app & queued & Ha1 & Hb1 & _ & Hv & He)]; [by destruct (Hn a 0 0 b) |].
  apply ingest_cases in H2 as [(lv & -> & Hn)|
    (auth2 & ev2 & org' & app' & queued' & Ha2 & Hb2 & _ & Hv' & He')].
  { split; [done |]. intros a' d' dr' b' ->. by destruct (Hn a' d' dr' b'). }
  assert (auth1 = auth) as -> by congruence. assert (auth2 = auth') as -> by congruence.
  assert (ev1 = events) as -> by congruence. assert (ev2 = events) as -> by congruence.
  apply validate_batch_ok in Hv as (_ & _ & Hv). apply validate_batch_ok in Hv' as (_ & _ & Hv').
  specialize (Hv Hids). specialize (Hv' Hids).
  apply enqueue_spec in He as (kept & final & acc & [Hk Hid%identity_ids Hacc _ _ _ Hseen Hres]).
  apply enqueue_spec in He' as (kept' & final' & acc' & [Hk' Hid'%identity_ids Hacc' _ _ Hbuf' _ Hres']).
  assert (acc' = []) as ->; [| rewrite Hbuf', Hres'; split; [done |]; intros; by simplify_eq].
  assert (q_event_id <$> kept' = q_event_id <$> kept) as Ek.
  { assert ((λ e, (q_event_id e, q_event_name e)) <$> kept' =
            (λ e, (q_event_id e, q_event_name e)) <$> kept) as Ek.
    { rewrite Hk, Hk', Hbl. refine (filter_lfilter_proj (λ e, (q_event_id e, q_event_name e))
        (λ p, negb (bool_decide (canonical_event_name (snd p) ∈ rq_blocked_names rq))) _ _ _).
      congruence. }
    apply (f_equal (fmap fst)) in Ek. by rewrite <- !list_fmap_compose in Ek. }
  injection Hres as _ Hd Hdr _.
  assert (∀ x, x ∈ q_event_id <$> final → x ∈ fst (filter_new window (tk_seen t) (rq_now rq)
            (au_app_id auth) (q_event_id <$> final))) as Hall.
  { intros x (e & -> & He)%list_elem_of_fmap.
    assert (e ∈ acc) as Hin.
    { assert (length acc = length final) as El by lia. rewrite Hacc in El |- *.
      apply List.filter_length_forallb in El. rewrite forallb_forall in El.
      apply elem_of_lfilter. split; [done |]. apply El. by apply list_elem_of_In. }
    rewrite Hacc in Hin. apply elem_of_lfilter in Hin as [_ Hin]. by bprop. }
  rewrite Hacc'. apply elem_of_nil_inv. intros e [He Hf]%elem_of_lfilter. bprop.
  apply filter_new_elem in Hf as [_ Hf].
  assert (q_event_id e ∈ q_event_id <$> final) as Hin.
  { rewrite Hid, <- Ek, <- Hid'. by apply list_elem_of_fmap_2. }
  apply Hall in Hin. rewrite Hseen in Hf.
  assert (fst (append (tk_buffer t) acc) = 0%nat) as Ed by lia. rewrite Ed in Hf. simpl in Hf.
  rewrite Happ in Hf. rewrite (proj2 (filter_new_seen window (tk_seen t) (rq_now rq) (rq_now rq')
    (au_app_id auth) (q_event_id <$> final) (q_event_id e) Hle Hlt)) in Hf; [done | by right].
Qed.
End Ingest.

(** ** Witnesses *)

Definition ex_window : IdempotencyWindow := idempotency_window DEFAULT_WINDOW.

Definition ex_tracker (capacity : nat) : Tracker :=
  {| tk_seen := ∅; tk_sessions := ∅; tk_consent := ∅;
     tk_live := {| lv_notes := ∅; lv_lists := ∅ |};
     tk_buffer := new_buffer capacity 500; tk_accepted_total := 0; tk_accepted_counter := [] |}.

Definition ex_auth : AuthRecord :=
  {| au_app_id := str_of_uuid 9%N; au_organization_id := str_of_uuid 1%N;
     au_environment := py "prod"; au_kind := py "sdk"; au_key_hash := [];
     au_app_status := py "active"; au_consent_mode := py "strict" |}.

Definition ex_uuid (n : N) : pystr := str_of_uuid n.

Definition ex_request (now : datetime) (events : list IncomingEvent) : IngestRequest :=
  {| rq_now := now; rq_presented := Some (py "key"); rq_auth := Ok ex_auth; rq_allowed := true;
     rq_retry_after_ms := 0; rq_body := Ok events; rq_ip_digest := Some [1%N];
     rq_mint_event := λ _, ex_uuid 77; rq_mint_session := λ _, 55%N; rq_blocked_names := [] |}.

(** Under strict consent nobody was asked for: the click id and the advertising id
    must go. *)
Definition ex_batch : list IncomingEvent :=
  [ ex_event (Some (ex_uuid 1)) (py "install") (py "d1") (Some (ex_uuid 3))
      [(py "gaid", JStr (py "abc-1")); (py "level", JInt 4)];
    ex_event (Some (ex_uuid 2)) (py "purchase") (py "d1") None [] ].

Abbreviation ex_ingest := (@ingest_events ascii_unicode ex_lib ex_hmac (py "pepper") ex_window).

Definition ex_after (r : result pystr (Response * Tracker)) : Tracker :=
  match r with Ok (_, t) => t | Err _ => ex_tracker 0 end.
Definition ex_answer (r : result pystr (Response * Tracker)) : Response :=
  match r with Ok (a, _) => a | Err _ => Unauthorized end.

Abbreviation ex_first := (ex_ingest (ex_tracker 10) (ex_request (1000 * second) ex_batch)).

Lemma ok_of_answer (r : result pystr (Response * Tracker)) a :
  ex_answer r = a → a ≠ Unauthorized → r = Ok (a, ex_after r).
Proof. destruct r as [[x t]|e]; simpl; congruence. Qed.

Lemma ex_first_eq : ex_first = Ok (Accepted 2 0 0 0, ex_after ex_first).
Proof. apply ok_of_answer; [vm_compute; reflexivity | discriminate]. Qed.

(** A second batch of three repeats an event and overflows a buffer of two. *)
Definition ex_more : list IncomingEvent :=
  [ex_event (Some (ex_uuid 2)) (py "purchase") (py "d1") None []; ex_event (Some (ex_uuid 4)) (py "level") (py "d1") None [];
   ex_event (Some (ex_uuid 5)) (py "level") (py "d1") None []].
Abbreviation ex_full := (ex_ingest (ex_tracker 2) (ex_request (1000 * second) ex_batch)).
Abbreviation ex_second := (ex_ingest (ex_after ex_full) (ex_request (1001 * second) ex_more)).
Lemma ex_second_eq : ex_second = Ok (Accepted 0 1 2 0, ex_after ex_second).
Proof. apply ok_of_answer; [vm_compute; reflexivity | discriminate]. Qed.

Lemma ingest_accounts_for_every_event_witness :
  ∃ final, length final = 2%nat ∧ b_queue (tk_buffer (ex_after ex_second)) = drop 2 (b_queue (tk_buffer (ex_after ex_full)) ++ final).
Proof.
  destruct (@ingest_accounts_for_every_event ascii_unicode ex_lib ex_hmac (py "pepper") ex_window
    (ex_after ex_full) (ex_request (1001 * second) ex_more) (Accepted 0 1 2 0) (ex_after ex_second)
    ex_second_eq) as (auth & events & org & app & queued & final & _ & _ & _ & _ & _ & Hid & _ & _ & Hrest).
  destruct Hrest as (Hd & Ha & E & _); [by apply (bool_decide_unpack _); vm_compute | by apply (bool_decide_unpack _); vm_compute |].
  exists final. apply (f_equal length) in Hid. rewrite !length_fmap in Hid. rewrite Hid.
  match type of E with _ = drop ?n _ => assert (n = 2%nat) as En by lia; rewrite En in E, Hd, Ha end. split; [lia | exact E].
Defined.

Definition ex_queued : QueuedEvent :=
  match b_queue (tk_buffer (ex_after ex_first)) with
  | e :: _ => e
  | [] => {| q_event_id := []; q_received_at := 0; q_occurred_at := 0; q_organization_id := [];
             q_app_id := []; q_event_name := []; q_anonymous_id := []; q_user_id := None;
             q_session_id := None; q_platform := 0; q_os_version := None; q_app_version := None;
             q_device_model := None; q_country := None; q_ip_hash := None; q_click_id := None;
             q_revenue_minor := None; q_currency := None; q_clock_skew_ms := None;
             q_properties := []; q_correlation_id := None |}
  end.

Lemma ingest_protects_identifiers_witness :
  no_advertising_id ex_queued ∧ q_click_id ex_queued = None ∧ q_session_id ex_queued ≠ None.
Proof.
  destruct (@ingest_protects_identifiers ascii_unicode ex_lib ex_hmac (py "pepper") ex_window
    (ex_tracker 10) (ex_request (1000 * second) ex_batch) (Accepted 2 0 0 0) (ex_after ex_first)
    ex_queued ex_first_eq) as [H1 _].
  - assert (∃ e l, b_queue (tk_buffer (ex_after ex_first)) = e :: l) as (e & l & E).
    { assert (length (b_queue (tk_buffer (ex_after ex_first))) = 2%nat) as El
        by (vm_compute; reflexivity).
      destruct (b_queue _) as [|e l]; [discriminate El | eauto]. }
    unfold ex_queued. rewrite E. left.
  - intros Hin. by apply elem_of_nil in Hin.
  - split; [exact H1 |]. split; vm_compute; [reflexivity | discriminate].
Defined.

Abbreviation ex_retry := (ex_ingest (ex_after ex_first) (ex_request (2000 * second) ex_batch)).

Lemma ex_retry_eq : ex_retry = Ok (Accepted 0 2 0 0, ex_after ex_retry).
Proof. apply ok_of_answer; [vm_compute; reflexivity | discriminate]. Qed.

Lemma ingest_retry_is_idempotent_witness :
  b_queue (tk_buffer (ex_after ex_retry)) = b_queue (tk_buffer (ex_after ex_first)).
Proof.
  refine (proj1 (@ingest_retry_is_idempotent ascii_unicode ex_lib ex_hmac (py "pepper") ex_window
    (ex_tracker 10) (ex_request (1000 * second) ex_batch) (ex_after ex_first)
    (ex_request (2000 * second) ex_batch) (Accepted 0 2 0 0) (ex_after ex_retry)
    ex_auth ex_auth 2 0 ex_batch ex_first_eq ex_retry_eq _ _ _ _ _ _ _ _ _)); try reflexivity.
  - intros ev Hev. repeat (apply elem_of_cons in Hev as [-> | Hev]; [vm_compute; reflexivity |]).
    by apply elem_of_nil in Hev.
  - vm_compute. discriminate.
Defined.

(** ** What the code does beyond its documentation *)

(** When the buffer sheds, the marks that are undone are those of events that were
    queued, not of the older events that were dropped: the retry of a queued event
    is queued a second time, and the retry of a dropped one is swallowed. *)
Lemma shedding_forgets_the_wrong_events :
  let old := ex_event (Some (ex_uuid 1)) (py "a") (py "d") None [] in
  let new := ex_event (Some (ex_uuid 2)) (py "b") (py "d") None [] in
  let t1 := ex_after (ex_ingest (ex_tracker 1) (ex_request (1000 * second) [old])) in
  let t2 := ex_after (ex_ingest t1 (ex_request (1001 * second) [new])) in
  (* the buffer is drained, then the client retries both *)
  let t3 := {| tk_seen := tk_seen t2; tk_sessions := tk_sessions t2; tk_consent := tk_consent t2;
               tk_live := tk_live t2; tk_buffer := new_buffer 10 500;
               tk_accepted_total := tk_accepted_total t2;
               tk_accepted_counter := tk_accepted_counter t2 |} in
  q_event_id <$> b_queue (tk_buffer t2) = [ex_uuid 2] ∧
  q_event_id <$> b_queue (tk_buffer (ex_after (ex_ingest t3 (ex_request (1002 * second) [old; new]))))
    = [ex_uuid 2].
Proof. split; vm_compute; reflexivity. Qed.

(** An event id repeated within one batch is queued twice. *)
Lemma duplicate_within_a_batch_is_queued_twice :
  let e := ex_event (Some (ex_uuid 1)) (py "a") (py "d") None [] in
  length (b_queue (tk_buffer (ex_after
    (ex_ingest (ex_tracker 10) (ex_request (1000 * second) [e; e]))))) = 2%nat.
Proof. vm_compute. reflexivity. Qed.
