(* ===== verification/Writer.v ===== *)
(** * Batch persistence (mmp_ingest/writer.py, mmp_ingest/clicks.py)

    Both writers COPY into a temporary staging table and insert from it with
    [ON CONFLICT DO NOTHING]; [Staged] is that routine over any row type, and
    [EventWriter] and [ClickWriter] are its two instances.  A table is the list of
    its rows; its primary key is a function of a row.  [BatchWriter] is what a writer
    promises to the consumers. *)

From S2P Require Import Prelude Ids Schema.

#[local] Open Scope Z_scope.
#[local] Open Scope mmp_scope.

Inductive WriteError :=
| BadRecord              (* a [ValueError] of [_to_record] *)
| UndefinedTable         (* the staging table does not exist on this connection *)
| DatabaseDown.          (* any other exception of the database *)

(** A connection as the writer sees it: the [id()] of the object it is handed, the
    rows of its staging table when it has one, and whether the database answers. *)
Record Conn (R : Type) := { c_id : Z; c_staging : option (list R); c_up : bool }.
Arguments c_id {R}.
Arguments c_staging {R}.
Arguments c_up {R}.

(** ** The interface consumers rely on *)

Class BatchWriter (T : Type) := {
  bw_key : Type;
  (** the identity of a record, when it has one *)
  bw_key_of : T → option bw_key;
  (** what a call depends on beside the writer: the connection it gets *)
  bw_env : Type;
  bw_state : Type;
  bw_stored : bw_state → bw_key → Prop;
  bw_write : bw_env → bw_state → list T → result WriteError (bw_state * Z * Z);
  (** a write that returns has persisted every record of the batch, kept every
      record persisted before, and persisted nothing else *)
  bw_persists : ∀ env s l s' received inserted,
    bw_write env s l = Ok (s', received, inserted) →
    ∀ k, bw_stored s' k ↔ bw_stored s k ∨ ∃ e, e ∈ l ∧ bw_key_of e = Some k;
  bw_keyed : ∀ env s l s' received inserted,
    bw_write env s l = Ok (s', received, inserted) →
    ∀ e, e ∈ l → ∃ k, bw_key_of e = Some k
}.

(** ** The staged write *)

Section Staged.
Context {T R K : Type} `{EqDecision K} (to_record : T → option R) (key : R → K).

(** [INSERT .. SELECT .. ON CONFLICT DO NOTHING]: the rows whose key is free, in
    order, and how many they are. *)
Fixpoint insert_from (staging table : list R) : list R * Z :=
  match staging with
  | [] => (table, 0)
  | r :: rs =>
      if existsb (λ x, bool_decide (key x = key r)) table
      then insert_from rs table
      else let '(table', n) := insert_from rs (table ++ [r]) in (table', n + 1)
  end.

(** The writer's set of prepared connections, and the table. *)
Record WriterState := { ws_prepared : list Z; ws_table : list R }.

Definition ensure_staging (conn : Conn R) (s : WriterState) : Conn R * WriterState :=
  if bool_decide (c_id conn ∈ ws_prepared s) then (conn, s)
  else
    ({| c_id := c_id conn;
        c_staging := Some (default [] (c_staging conn));
        c_up := c_up conn |},
     {| ws_prepared := c_id conn :: ws_prepared s; ws_table := ws_table s |}).

(** [write]: the new state with the counts of received and inserted records. *)
Definition staged_write (conn : Conn R) (s : WriterState) (l : list T)
    : result WriteError (WriterState * Z * Z) :=
  match l with
  | [] => Ok (s, 0, 0)
  | _ =>
      let* _ := raise_if (negb (c_up conn)) DatabaseDown in
      let '(conn, s) := ensure_staging conn s in
      match mapM to_record l with
      | None => Err BadRecord
      | Some records =>
          match c_staging conn with
          | None => Err UndefinedTable
          | Some _ =>
              (* TRUNCATE, COPY, INSERT .. SELECT, COMMIT *)
              let '(table, n) := insert_from records (ws_table s) in
              Ok ({| ws_prepared := ws_prepared s; ws_table := table |},
                  Z.of_nat (length l), n)
          end
      end
  end.

Definition unique_keys (table : list R) : Prop := NoDup (key <$> table).

Definition has_key (table : list R) (k : K) : Prop := k ∈ key <$> table.

(** ** Lemmas *)

Lemma key_taken table r :
  existsb (λ x, bool_decide (key x = key r)) table = true ↔ has_key table (key r).
Proof.
  rewrite existsb_exists. unfold has_key. rewrite list_elem_of_fmap. split.
  - intros (x & Hx & E). bprop. exists x. by rewrite list_elem_of_In.
  - intros (x & E & Hx). exists x. split; [by apply list_elem_of_In | by apply bool_decide_true].
Qed.

Lemma insert_from_spec staging table :
  let '(table', n) := insert_from staging table in
  (∃ new, table' = table ++ new ∧ n = Z.of_nat (length new) ∧ new `sublist_of` staging) ∧
  (∀ k, has_key table' k ↔ has_key table k ∨ k ∈ key <$> staging) ∧
  (unique_keys table → unique_keys table').
Proof.
  revert table. induction staging as [|r rs IH]; intros table; simpl.
  { split_and!; [exists []; by rewrite app_nil_r | | done].
    intros k. rewrite elem_of_nil. tauto. }
  destruct (existsb _ table) eqn:E.
  - apply key_taken in E. specialize (IH table). destruct (insert_from rs table) as [table' n].
    destruct IH as ((new & -> & -> & Hs) & Hk & Hu). split_and!; [| | done].
    + exists new. split_and!; [done | done | by constructor].
    + intros k. rewrite Hk, elem_of_cons. naive_solver.
  - assert (¬ has_key table (key r)) as Hn by (rewrite <- key_taken, E; done).
    specialize (IH (table ++ [r])). destruct (insert_from rs (table ++ [r])) as [table' n].
    destruct IH as ((new & -> & -> & Hs) & Hk & Hu). split_and!.
    + exists (r :: new). split_and!; [by rewrite <- app_assoc | simpl; lia | by constructor].
    + intros k. rewrite Hk. unfold has_key.
      rewrite !fmap_app, !fmap_cons, fmap_nil, elem_of_app, list_elem_of_singleton, elem_of_cons.
      tauto.
    + intros Ht. apply Hu. unfold unique_keys. rewrite fmap_app. apply NoDup_app.
      split_and!; [done | | apply NoDup_singleton].
      intros k Hk1 ->%list_elem_of_singleton. done.
Qed.

Lemma mapM_elem l records :
  mapM to_record l = Some records →
  (∀ e, e ∈ l → ∃ r, to_record e = Some r ∧ r ∈ records) ∧
  (∀ r, r ∈ records → ∃ e, e ∈ l ∧ to_record e = Some r).
Proof.
  rewrite mapM_Some. intros Hf. split.
  - intros e (i & Hi)%list_elem_of_lookup.
    destruct (Forall2_lookup_l _ _ _ _ _ Hf Hi) as (r & Hr & E). exists r.
    split; [done | by eapply list_elem_of_lookup_2].
  - intros r (i & Hi)%list_elem_of_lookup.
    destruct (Forall2_lookup_r _ _ _ _ _ Hf Hi) as (e & He & E). exists e.
    split; [by eapply list_elem_of_lookup_2 | done].
Qed.

(** The key of a record before it is converted. *)
Definition record_key (e : T) : option K := key <$> to_record e.

Lemma staged_write_ok conn s l s' received inserted :
  staged_write conn s l = Ok (s', received, inserted) →
  received = Z.of_nat (length l) ∧
  (∀ e, e ∈ l → ∃ k, record_key e = Some k) ∧
  (∀ k, has_key (ws_table s') k ↔
        has_key (ws_table s) k ∨ ∃ e, e ∈ l ∧ record_key e = Some k) ∧
  (unique_keys (ws_table s) → unique_keys (ws_table s')) ∧
  inserted = Z.of_nat (length (ws_table s')) - Z.of_nat (length (ws_table s)).
Proof.
  unfold staged_write. destruct l as [|e0 l0].
  { intros [= <- <- <-]. split_and!; [done | set_solver | set_solver | done | lia]. }
  remember (e0 :: l0) as l eqn:El. intros Hw. inv_ok.
  destruct (ensure_staging conn s) as [conn1 s1] eqn:Ee.
  assert (ws_table s1 = ws_table s) as Et.
  { revert Ee. unfold ensure_staging. case_bool_decide; intros; by simplify_eq. }
  destruct (mapM to_record l) as [records|] eqn:Em; [| done].
  destruct (c_staging conn1); [| done].
  pose proof (insert_from_spec records (ws_table s1)) as Hi.
  destruct (insert_from records (ws_table s1)) as [table n]. apply Ok_inj in Hw.
  injection Hw as <- <- <-. destruct Hi as ((new & -> & -> & _) & Hk & Hu).
  destruct (mapM_elem l records Em) as [H1 H2]. rewrite Et in *. cbn [ws_table].
  split_and!; [done | | | done | rewrite length_app; lia].
  - intros e He. destruct (H1 e He) as (r & Hr & _). exists (key r). unfold record_key. by rewrite Hr.
  - intros k. rewrite Hk. apply or_iff_compat_l. rewrite list_elem_of_fmap. unfold record_key. split.
    + intros (r & -> & Hr). destruct (H2 r Hr) as (e & He & E). exists e. by rewrite E.
    + intros (e & He & E). destruct (H1 e He) as (r & Er & Hr). rewrite Er in E.
      injection E as <-. eauto.
Qed.

(** A second write of records that are all there inserts nothing. *)
Lemma insert_from_dup staging table :
  (∀ k, k ∈ key <$> staging → has_key table k) → insert_from staging table = (table, 0).
Proof.
  induction staging as [|r rs IH]; intros Hall; simpl; [done |].
  rewrite (proj2 (key_taken table r)) by (apply Hall; by left).
  apply IH. intros k Hk. apply Hall. by right.
Qed.

#[global] Instance staged_writer : BatchWriter T.
Proof.
  refine {| bw_key := K; bw_key_of := record_key; bw_env := Conn R; bw_state := WriterState;
            bw_stored s k := has_key (ws_table s) k; bw_write := staged_write |}.
  - intros env s l s' r i Hw. apply staged_write_ok in Hw as (_ & _ & H & _). exact H.
  - intros env s l s' r i Hw. apply staged_write_ok in Hw as (_ & H & _). exact H.
Defined.
End Staged.
Arguments WriterState : clear implicits.

(** ** Events *)

Record EventRow := {
  er_event_id : uuid;
  er_received_at : datetime;
  er_occurred_at : datetime;
  er_organization_id : uuid;
  er_app_id : uuid;
  er_event_name : pystr;
  er_anonymous_id : pystr;
  er_user_id : option pystr;
  er_session_id : option uuid;
  er_platform : Z;
  er_os_version : option pystr;
  er_app_version : option pystr;
  er_device_model : option pystr;
  er_country : option pystr;
  er_ip_hash : option (list N);
  er_click_id : option uuid;
  er_revenue_minor : option Z;
  er_currency : option pystr;
  er_clock_skew_ms : option Z;
  er_properties : props
}.

(** [PRIMARY KEY (received_at, app_id, event_id)]. *)
Definition event_key (r : EventRow) : datetime * uuid * uuid :=
  (er_received_at r, er_app_id r, er_event_id r).

Section Records.
Context {U : Unicode}.

(** [uuid.UUID(x) if x else None]; the outer option is the exception. *)
Definition optional_uuid (o : option pystr) : option (option uuid) :=
  match o with
  | Some (c :: s) => Some <$> uuid_of_str (c :: s)
  | _ => Some None
  end.

Definition event_record (e : QueuedEvent) : option EventRow :=
  event_id ← uuid_of_str (q_event_id e);
  org ← uuid_of_str (q_organization_id e);
  app ← uuid_of_str (q_app_id e);
  session ← optional_uuid (q_session_id e);
  click ← optional_uuid (q_click_id e);
  Some {| er_event_id := event_id;
          er_received_at := q_received_at e;
          er_occurred_at := q_occurred_at e;
          er_organization_id := org;
          er_app_id := app;
          er_event_name := q_event_name e;
          er_anonymous_id := q_anonymous_id e;
          er_user_id := q_user_id e;
          er_session_id := session;
          er_platform := q_platform e;
          er_os_version := q_os_version e;
          er_app_version := q_app_version e;
          er_device_model := q_device_model e;
          er_country := q_country e;
          er_ip_hash := q_ip_hash e;
          er_click_id := click;
          er_revenue_minor := q_revenue_minor e;
          er_currency := q_currency e;
          er_clock_skew_ms := q_clock_skew_ms e;
          er_properties := q_properties e |}.

(** [EventWriter.write]. *)
Definition event_write (conn : Conn EventRow) (s : WriterState EventRow) (l : list QueuedEvent)
    : result WriteError (WriterState EventRow * Z * Z) :=
  staged_write event_record event_key conn s l.

(** ** Clicks *)

Definition MAX_USER_AGENT : nat := 512.

Record QueuedClick := {
  qc_click_id : pystr;
  qc_clicked_at : datetime;
  qc_organization_id : pystr;
  qc_app_id : pystr;
  qc_campaign_id : option pystr;
  qc_tracking_link_id : pystr;
  qc_device_hash : option (list N);
  qc_ip_hash : option (list N);
  qc_country : option pystr;
  qc_platform : Z;
  qc_os_version : option pystr;
  qc_device_model : option pystr;
  qc_user_agent : option pystr;
  qc_sub1 : option pystr;
  qc_sub2 : option pystr;
  qc_sub3 : option pystr;
  qc_is_bot : bool;
  qc_deep_link : option pystr;
  qc_correlation_id : option pystr
}.

Record ClickRecord := {
  cr_click_id : uuid;
  cr_clicked_at : datetime;
  cr_organization_id : uuid;
  cr_app_id : uuid;
  cr_campaign_id : option uuid;
  cr_tracking_link_id : uuid;
  cr_device_hash : option (list N);
  cr_ip_hash : option (list N);
  cr_country : option pystr;
  cr_platform : Z;
  cr_os_version : option pystr;
  cr_device_model : option pystr;
  cr_user_agent : option pystr;
  cr_sub1 : option pystr;
  cr_sub2 : option pystr;
  cr_sub3 : option pystr;
  cr_is_bot : bool;
  cr_deep_link : option pystr
}.

(** [PRIMARY KEY (clicked_at, click_id)]. *)
Definition click_key (r : ClickRecord) : datetime * uuid := (cr_clicked_at r, cr_click_id r).

Definition click_record (c : QueuedClick) : option ClickRecord :=
  click_id ← uuid_of_str (qc_click_id c);
  org ← uuid_of_str (qc_organization_id c);
  app ← uuid_of_str (qc_app_id c);
  campaign ← optional_uuid (qc_campaign_id c);
  link ← uuid_of_str (qc_tracking_link_id c);
  Some {| cr_click_id := click_id;
          cr_clicked_at := qc_clicked_at c;
          cr_organization_id := org;
          cr_app_id := app;
          cr_campaign_id := campaign;
          cr_tracking_link_id := link;
          cr_device_hash := qc_device_hash c;
          cr_ip_hash := qc_ip_hash c;
          cr_country := qc_country c;
          cr_platform := qc_platform c;
          cr_os_version := qc_os_version c;
          cr_device_model := qc_device_model c;
          cr_user_agent := match qc_user_agent c with
                           | Some (u :: us) => Some (take MAX_USER_AGENT (u :: us))
                           | _ => None
                           end;
          cr_sub1 := qc_sub1 c;
          cr_sub2 := qc_sub2 c;
          cr_sub3 := qc_sub3 c;
          cr_is_bot := qc_is_bot c;
          cr_deep_link := qc_deep_link c |}.

(** [ClickWriter.write]. *)
Definition click_write (conn : Conn ClickRecord) (s : WriterState ClickRecord)
    (l : list QueuedClick) : result WriteError (WriterState ClickRecord * Z * Z) :=
  staged_write click_record click_key conn s l.

(** ** Properties *)

(** Redelivery is counted once: a write keeps the primary key unique, reports as
    inserted exactly the rows it added, and writing the same batch again, on any
    connection, adds nothing and reports every event a duplicate. *)
Theorem event_write_idempotent conn conn' s l s1 r1 i1 s2 r2 i2 :
  event_write conn s l = Ok (s1, r1, i1) →
  event_write conn' s1 l = Ok (s2, r2, i2) →
  (unique_keys event_key (ws_table s) → unique_keys event_key (ws_table s1)) ∧
  i1 = Z.of_nat (length (ws_table s1)) - Z.of_nat (length (ws_table s)) ∧
  ws_table s2 = ws_table s1 ∧ r2 = r1 ∧ i2 = 0.
Proof.
  unfold event_write. intros H1 H2.
  pose proof (staged_write_ok _ _ _ _ _ _ _ _ H1) as (-> & _ & Hk1 & Hu1 & Hi1).
  pose proof (staged_write_ok _ _ _ _ _ _ _ _ H2) as (-> & _ & _ & _ & Hi2).
  split_and!; [done | done | | done |].
  all: revert H2; unfold staged_write; destruct l as [|e0 l0];
    [intros; by simplify_eq | remember (e0 :: l0) as l eqn:El].
  all: intros Hw; inv_ok; destruct (ensure_staging conn' s1) as [conn1 s1'] eqn:Ee;
    assert (ws_table s1' = ws_table s1) as Et
      by (revert Ee; unfold ensure_staging; case_bool_decide; intros; by simplify_eq);
    destruct (mapM event_record l) as [records|] eqn:Em; [| done];
    destruct (c_staging conn1); [| done];
    rewrite (insert_from_dup event_key records) in Hw;
    [apply Ok_inj in Hw; by injection Hw as <- <- |];
    rewrite Et; intros k (r & -> & Hr)%list_elem_of_fmap; apply Hk1; right;
    destruct (mapM_elem _ l records Em) as [_ H']; destruct (H' r Hr) as (e & He & E);
    exists e; unfold record_key; by rewrite E.
Qed.

(** Whatever the validator let through can be written: on a database that
    answers and a connection whose staging table is as the writer believes, a batch
    of events the edge validated for the app is never refused. *)
Theorem validated_events_are_writable `{EdgeLib} conn s (l : list QueuedEvent) :
  c_up conn = true →
  (c_id conn ∈ ws_prepared s → is_Some (c_staging conn)) →
  (∀ q, q ∈ l → ∃ ev i org app now did, uuid_ok org ∧ uuid_ok app ∧
     validate_event ev i org app now did = Ok q) →
  ∃ s' inserted, event_write conn s l = Ok (s', Z.of_nat (length l), inserted).
Proof.
  intros Hup Hst Hv. unfold event_write, staged_write. destruct l as [|e0 l0]; [by exists s, 0 |].
  remember (e0 :: l0) as l eqn:El. rewrite Hup. cbn [negb raise_if rbind].
  assert (is_Some (mapM event_record l)) as [records Em].
  { apply mapM_is_Some, Forall_forall. intros q Hq. change (is_Some (event_record q)).
    destruct (Hv q Hq) as (ev & i & org & app & now & did & Ho & Ha & E).
    assert (acceptable ev did) as Hacc by (apply (validate_event_ok_iff ev i org app now); eauto).
    unfold validate_event in E. inv_ok. subst q. unfold event_record.
    cbn [q_event_id q_organization_id q_app_id q_session_id q_click_id].
    destruct (uuid_of_str (event_id_or _ _)) as [u|] eqn:Eu; [| by destruct (acc_event_id _ _ Hacc)].
    unfold mbind, option_bind. rewrite (uuid_of_str_of_uuid org) by done.
    rewrite (uuid_of_str_of_uuid app) by done.
    assert (∀ o, (∀ x, o = Some x → uuid_of_str x ≠ None) → ∃ y, optional_uuid o = Some y) as Hopt.
    { intros [[|c cs]|] Hx; [by exists None | | by exists None].
      specialize (Hx (c :: cs) eq_refl). unfold optional_uuid.
      destruct (uuid_of_str (c :: cs)) as [w|]; [by exists (Some w) | done]. }
    destruct (Hopt _ (acc_session _ _ Hacc)) as [y ->], (Hopt _ (acc_click _ _ Hacc)) as [z ->].
    by eexists. }
  rewrite Em. unfold ensure_staging. case_bool_decide as Hin.
  - destruct (Hst Hin) as [st ->]. destruct (insert_from _ _ _) as [table n]. eauto.
  - cbn [c_staging]. destruct (insert_from _ _ _) as [table n]. eauto.
Qed.
End Records.

(** ** Witnesses *)

Definition ex_conn (id : Z) : Conn EventRow := {| c_id := id; c_staging := None; c_up := true |}.
Definition ex_writer : WriterState EventRow := {| ws_prepared := []; ws_table := [] |}.

Definition ex_queued (id : pystr) : QueuedEvent :=
  match @validate_event ascii_unicode ex_lib (ex_event (Some id) (py "purchase") (py "d") None [])
          0 1%N 9%N (1005 * second) id with
  | Ok q => q
  | Err _ => {| q_event_id := []; q_received_at := 0; q_occurred_at := 0; q_organization_id := [];
             q_app_id := []; q_event_name := []; q_anonymous_id := []; q_user_id := None;
             q_session_id := None; q_platform := 0; q_os_version := None; q_app_version := None;
             q_device_model := None; q_country := None; q_ip_hash := None; q_click_id := None;
             q_revenue_minor := None; q_currency := None; q_clock_skew_ms := None;
             q_properties := []; q_correlation_id := None |}
  end.

Definition ex_written (conn : Conn EventRow) (s : WriterState EventRow) (l : list QueuedEvent)
    : WriterState EventRow :=
  match @event_write ascii_unicode conn s l with Ok (s', _, _) => s' | Err _ => s end.

(** Two copies of one event and another one: three received, two inserted. *)
Definition ex_batch3 : list QueuedEvent :=
  [ex_queued (str_of_uuid 1%N); ex_queued (str_of_uuid 1%N); ex_queued (str_of_uuid 2%N)].

Lemma event_write_idempotent_witness :
  length (ws_table (ex_written (ex_conn 1) ex_writer ex_batch3)) = 2%nat ∧
  ws_table (ex_written (ex_conn 2) (ex_written (ex_conn 1) ex_writer ex_batch3) ex_batch3)
  = ws_table (ex_written (ex_conn 1) ex_writer ex_batch3).
Proof.
  split; [vm_compute; reflexivity |].
  apply (@event_write_idempotent ascii_unicode (ex_conn 1) (ex_conn 2) ex_writer ex_batch3
    (ex_written (ex_conn 1) ex_writer ex_batch3) 3 2
    (ex_written (ex_conn 2) (ex_written (ex_conn 1) ex_writer ex_batch3) ex_batch3) 3 0).
  - vm_compute. reflexivity.
  - vm_compute. reflexivity.
Defined.

Lemma validated_events_are_writable_witness :
  ∃ s' inserted, @event_write ascii_unicode (ex_conn 1) ex_writer [ex_queued (str_of_uuid 1%N)]
    = Ok (s', 1, inserted).
Proof.
  apply (@validated_events_are_writable ascii_unicode ex_lib (ex_conn 1) ex_writer).
  - reflexivity.
  - intros Hin. by apply elem_of_nil in Hin.
  - intros q Hq. apply list_elem_of_singleton in Hq as ->.
    exists (ex_event (Some (str_of_uuid 1%N)) (py "purchase") (py "d") None []), 0, 1%N, 9%N,
      (1005 * second), (str_of_uuid 1%N).
    split; [by vm_compute |]. split; [by vm_compute |]. vm_compute. reflexivity.
Defined.

(** ** What the code does beyond its documentation *)

(** Connections are told apart by [id()], which Python reuses once an object is gone:
    a connection that took over the id of a prepared one has no staging table, and
    the batch fails. *)
Lemma reused_connection_id_fails :
  @event_write ascii_unicode (ex_conn 1)
    (ex_written (ex_conn 1) ex_writer [ex_queued (str_of_uuid 1%N)]) [ex_queued (str_of_uuid 2%N)]
  = Err UndefinedTable.
Proof. vm_compute. reflexivity. Qed.
