(* ===== verification/Consumer.v ===== *)
(** * The stream and its consumers
    (mmp_ingest/stream.py, mmp_worker/consumers.py)

    A stream is the list of its entries, a message id the position of an entry; an
    entry no decoder accepts is [None].  The consumer group remembers how far it
    delivered and which messages are pending.  The model does not trim: it covers a
    stream below its [maxlen].  Consumers are proved against [BatchWriter]; the event
    and click writers implement it.  [pipeline_step] interleaves any number of
    workers, which may crash between any two effects. *)

From S2P Require Import Prelude Writer.

#[local] Open Scope nat_scope.

Definition MAX_ATTEMPTS : nat := 5.

Section Consumer.
Context {T : Type} {W : BatchWriter T}.

(** ** mmp_ingest/stream.py *)

Record Stream := {
  st_entries : list (option T);
  st_next : nat;
  st_pending : list nat
}.

Definition empty_stream : Stream := {| st_entries := []; st_next := 0; st_pending := [] |}.

(** [StreamProducer.publish]; what other producers put on the stream may be
    undecodable, so a payload is an option. *)
Definition publish (payloads : list (option T)) (s : Stream) : Stream :=
  {| st_entries := st_entries s ++ payloads; st_next := st_next s; st_pending := st_pending s |}.

(** [_decode]: undecodable messages are skipped. *)
Definition decode (s : Stream) (ids : list nat) : list (nat * T) :=
  omap (λ i, match st_entries s !! i with Some (Some e) => Some (i, e) | _ => None end) ids.

(** [XREADGROUP .. >]: the next [count] undelivered messages become pending. *)
Definition read (count : nat) (s : Stream) : list (nat * T) * Stream :=
  let ids := seq (st_next s) (min count (length (st_entries s) - st_next s)) in
  (decode s ids,
   {| st_entries := st_entries s; st_next := st_next s + length ids;
      st_pending := st_pending s ++ ids |}).

(** [XAUTOCLAIM]: the server chooses the pending messages it hands over. *)
Definition claim_stalled (ids : list nat) (s : Stream) : list (nat * T) := decode s ids.

(** [XACK]. *)
Definition ack (ids : list nat) (s : Stream) : Stream :=
  {| st_entries := st_entries s; st_next := st_next s;
     st_pending := List.filter (λ i, negb (bool_decide (i ∈ ids))) (st_pending s) |}.

(** ** mmp_worker/consumers.py *)

Record ConsumerMetrics := {
  m_batches : Z;
  m_events_received : Z;
  m_events_written : Z;
  m_duplicates : Z;
  m_dead_lettered : Z;
  m_failures : Z
}.

Record EventConsumer := {
  co_batch_size : nat;
  co_attempts : gmap nat nat;
  co_metrics : ConsumerMetrics
}.

(** An entry of the dead-letter stream. *)
Definition DeadLetter : Type := T * nat.

(** The loop of [_handle_failure]: the new attempt counts, the dead letters added and
    the messages they came from. *)
Fixpoint handle_failure (attempts : gmap nat nat) (messages : list (nat * T))
    : gmap nat nat * list DeadLetter * list nat :=
  match messages with
  | [] => (attempts, [], [])
  | (i, e) :: ms =>
      let n := default 0 (attempts !! i) + 1 in
      if MAX_ATTEMPTS <=? n then
        let '(attempts', dead, exhausted) := handle_failure (delete i attempts) ms in
        (attempts', (e, n) :: dead, i :: exhausted)
      else handle_failure (<[i := n]> attempts) ms
  end.

(** After the commit and the acknowledgement. *)
Definition after_commit (c : EventConsumer) (messages : list (nat * T)) (received inserted : Z)
    : EventConsumer :=
  let m := co_metrics c in
  {| co_batch_size := co_batch_size c;
     co_attempts := fold_left (λ a i, delete i a) messages.*1 (co_attempts c);
     co_metrics := {| m_batches := m_batches m + 1;
                      m_events_received := m_events_received m + received;
                      m_events_written := m_events_written m + inserted;
                      m_duplicates := m_duplicates m + (received - inserted);
                      m_dead_lettered := m_dead_lettered m;
                      m_failures := m_failures m |} |}.

Definition after_failure (c : EventConsumer) (attempts : gmap nat nat) (exhausted : list nat)
    : EventConsumer :=
  let m := co_metrics c in
  {| co_batch_size := co_batch_size c;
     co_attempts := attempts;
     co_metrics := {| m_batches := m_batches m;
                      m_events_received := m_events_received m;
                      m_events_written := m_events_written m;
                      m_duplicates := m_duplicates m;
                      m_dead_lettered := m_dead_lettered m + Z.of_nat (length exhausted);
                      m_failures := m_failures m + 1 |} |}.

(** What a consumer shares with the others. *)
Record Shared := { sh_stream : Stream; sh_written : bw_state; sh_dead : list DeadLetter }.

(** [_process]; its result is the number of messages. *)
Definition process (env : bw_env) (c : EventConsumer) (sh : Shared) (messages : list (nat * T))
    : nat * EventConsumer * Shared :=
  match bw_write env (sh_written sh) messages.*2 with
  | Ok (written', received, inserted) =>
      (length messages, after_commit c messages received inserted,
       {| sh_stream := ack messages.*1 (sh_stream sh); sh_written := written';
          sh_dead := sh_dead sh |})
  | Err _ =>
      let '(attempts, dead, exhausted) := handle_failure (co_attempts c) messages in
      (length messages, after_failure c attempts exhausted,
       {| sh_stream := ack exhausted (sh_stream sh); sh_written := sh_written sh;
          sh_dead := sh_dead sh ++ dead |})
  end.

Definition run_once (env : bw_env) (c : EventConsumer) (sh : Shared)
    : nat * EventConsumer * Shared :=
  let '(messages, stream) := read (co_batch_size c) (sh_stream sh) in
  let sh := {| sh_stream := stream; sh_written := sh_written sh; sh_dead := sh_dead sh |} in
  match messages with
  | [] => (0, c, sh)
  | _ => process env c sh messages
  end.

(** [_reclaim], on the messages the server hands over. *)
Definition reclaim (env : bw_env) (c : EventConsumer) (sh : Shared) (ids : list nat)
    : EventConsumer * Shared :=
  match claim_stalled ids (sh_stream sh) with
  | [] => (c, sh)
  | messages => let '(_, c', sh') := process env c sh messages in (c', sh')
  end.

(** The draining loop that ends [run]: [envs] are the connections of its turns. *)
Fixpoint drain (fuel : nat) (env : bw_env) (c : EventConsumer) (sh : Shared)
    : EventConsumer * Shared :=
  match fuel with
  | 0 => (c, sh)
  | S fuel' =>
      let '(n, c', sh') := run_once env c sh in
      if n =? 0 then (c', sh') else drain fuel' env c' sh'
  end.

(** ** Workers that interleave and crash *)

Inductive Hand :=
| Idle
| Holding (ms : list (nat * T))            (* delivered, not yet written *)
| Committed (ms : list (nat * T))          (* written, not yet acknowledged *)
| DeadLettered (exhausted : list nat).     (* on the dead-letter stream, not yet acknowledged *)

Record Worker := { wk_attempts : gmap nat nat; wk_hand : Hand }.

Record Pipeline := { pl_shared : Shared; pl_workers : list Worker }.

Definition with_stream (s : Stream) (sh : Shared) : Shared :=
  {| sh_stream := s; sh_written := sh_written sh; sh_dead := sh_dead sh |}.

Definition put (w : nat) (k : Worker) (sh : Shared) (p : Pipeline) : Pipeline :=
  {| pl_shared := sh; pl_workers := <[w := k]> (pl_workers p) |}.

Inductive pipeline_step : Pipeline → Pipeline → Prop :=
| Publishes p payloads :
    pipeline_step p
      {| pl_shared := with_stream (publish payloads (sh_stream (pl_shared p))) (pl_shared p);
         pl_workers := pl_workers p |}
| Reads p w k n :
    pl_workers p !! w = Some k → wk_hand k = Idle →
    pipeline_step p
      (put w {| wk_attempts := wk_attempts k;
                wk_hand := Holding (fst (read n (sh_stream (pl_shared p)))) |}
         (with_stream (snd (read n (sh_stream (pl_shared p)))) (pl_shared p)) p)
| Claims p w k ids :
    pl_workers p !! w = Some k → wk_hand k = Idle →
    (∀ i, i ∈ ids → i ∈ st_pending (sh_stream (pl_shared p))) →
    pipeline_step p
      (put w {| wk_attempts := wk_attempts k;
                wk_hand := Holding (claim_stalled ids (sh_stream (pl_shared p))) |} (pl_shared p) p)
| WriteCommits p w k ms env written' r i :
    pl_workers p !! w = Some k → wk_hand k = Holding ms →
    bw_write env (sh_written (pl_shared p)) ms.*2 = Ok (written', r, i) →
    pipeline_step p
      (put w {| wk_attempts := fold_left (λ a i, delete i a) ms.*1 (wk_attempts k);
                wk_hand := Committed ms |}
         {| sh_stream := sh_stream (pl_shared p); sh_written := written';
            sh_dead := sh_dead (pl_shared p) |} p)
| WriteRaises p w k ms env err attempts dead exhausted :
    pl_workers p !! w = Some k → wk_hand k = Holding ms →
    bw_write env (sh_written (pl_shared p)) ms.*2 = Err err →
    handle_failure (wk_attempts k) ms = (attempts, dead, exhausted) →
    pipeline_step p
      (put w {| wk_attempts := attempts; wk_hand := DeadLettered exhausted |}
         {| sh_stream := sh_stream (pl_shared p); sh_written := sh_written (pl_shared p);
            sh_dead := sh_dead (pl_shared p) ++ dead |} p)
| Acknowledges p w k ms :
    pl_workers p !! w = Some k → wk_hand k = Committed ms →
    pipeline_step p
      (put w {| wk_attempts := wk_attempts k; wk_hand := Idle |}
         (with_stream (ack ms.*1 (sh_stream (pl_shared p))) (pl_shared p)) p)
| AcknowledgesDead p w k exhausted :
    pl_workers p !! w = Some k → wk_hand k = DeadLettered exhausted →
    pipeline_step p
      (put w {| wk_attempts := wk_attempts k; wk_hand := Idle |}
         (with_stream (ack exhausted (sh_stream (pl_shared p))) (pl_shared p)) p)
| Crashes p w k :
    pl_workers p !! w = Some k →
    pipeline_step p (put w {| wk_attempts := ∅; wk_hand := Idle |} (pl_shared p) p).

(** ** Invariants *)

Definition persisted (ws : bw_state) (e : T) : Prop :=
  ∃ k, bw_key_of e = Some k ∧ bw_stored ws k.

(** What an acknowledged message must be. *)
Definition settled (sh : Shared) (i : nat) : Prop :=
  ∃ e, st_entries (sh_stream sh) !! i = Some (Some e) ∧
    (persisted (sh_written sh) e ∨ e ∈ (sh_dead sh).*1).

(** Every delivered message is pending or settled. *)
Definition shared_ok (sh : Shared) : Prop :=
  ∀ i, i < st_next (sh_stream sh) → i ∈ st_pending (sh_stream sh) ∨ settled sh i.

Definition hand_ok (sh : Shared) (h : Hand) : Prop :=
  match h with
  | Idle => True
  | Holding ms => ∀ i e, (i, e) ∈ ms → st_entries (sh_stream sh) !! i = Some (Some e)
  | Committed ms => ∀ i, i ∈ ms.*1 → settled sh i
  | DeadLettered exhausted => ∀ i, i ∈ exhausted → settled sh i
  end.

Definition pipeline_ok (p : Pipeline) : Prop :=
  shared_ok (pl_shared p) ∧
  ∀ w k, pl_workers p !! w = Some k → hand_ok (pl_shared p) (wk_hand k).

Lemma decode_elem s ids i e :
  (i, e) ∈ decode s ids → i ∈ ids ∧ st_entries s !! i = Some (Some e).
Proof.
  unfold decode. rewrite list_elem_of_omap. intros (j & Hj & E).
  repeat case_match; simplify_eq. done.
Qed.

(** The shared state only grows. *)
Record grows (sh sh' : Shared) : Prop := {
  gr_entries : ∀ i e, st_entries (sh_stream sh) !! i = Some e → st_entries (sh_stream sh') !! i = Some e;
  gr_written : ∀ k, bw_stored (sh_written sh) k → bw_stored (sh_written sh') k;
  gr_dead : ∀ e, e ∈ (sh_dead sh).*1 → e ∈ (sh_dead sh').*1
}.

Lemma settled_grows sh sh' i : grows sh sh' → settled sh i → settled sh' i.
Proof.
  intros [He Hw Hd] (e & Hi & Hs). exists e. split; [by apply He |].
  destruct Hs as [(k & ? & ?)|?]; [left; exists k | right]; auto.
Qed.

Lemma hand_ok_grows sh sh' h : grows sh sh' → hand_ok sh h → hand_ok sh' h.
Proof.
  intros Hg. destruct h; simpl; [done | | |].
  - intros H i e Hie. by apply (gr_entries _ _ Hg), H.
  - intros H i Hi. by eapply settled_grows, H.
  - intros H i Hi. by eapply settled_grows, H.
Qed.

Lemma handle_failure_dead attempts ms attempts' dead exhausted i :
  handle_failure attempts ms = (attempts', dead, exhausted) → i ∈ exhausted →
  ∃ e n, (i, e) ∈ ms ∧ (e, n) ∈ dead ∧ MAX_ATTEMPTS <= n.
Proof.
  revert attempts attempts' dead exhausted.
  induction ms as [|[j e] ms IH]; intros att att' dead ex Hh Hi; cbn [handle_failure] in Hh;
    [injection Hh as <- <- <-; by apply elem_of_nil in Hi |].
  destruct (Nat.leb_spec MAX_ATTEMPTS (default 0 (att !! j) + 1)).
  - destruct (handle_failure (delete j att) ms) as [[a d] x] eqn:E. injection Hh as <- <- <-.
    apply elem_of_cons in Hi as [-> | Hi].
    + eexists _, _. split_and!; [by left | by left | done].
    + destruct (IH _ _ _ _ E Hi) as (e' & n & ? & ? & ?). exists e', n.
      split_and!; [by right | by right | done].
  - destruct (IH _ _ _ _ Hh Hi) as (e' & n & ? & ? & ?). exists e', n. split_and!; [by right | done | done].
Qed.

Lemma ack_ok sh ids :
  shared_ok sh → (∀ i, i ∈ ids → settled sh i) →
  shared_ok (with_stream (ack ids (sh_stream sh)) sh).
Proof.
  intros Hok Hids i Hi. simpl in *. destruct (Hok i Hi) as [Hp|Hs]; [| by right].
  destruct (decide (i ∈ ids)) as [Hin|Hin]; [right; by apply Hids |]. left.
  apply elem_of_lfilter. by rewrite bool_decide_false.
Qed.

Lemma pipeline_put p w k sh :
  pipeline_ok p → grows (pl_shared p) sh → shared_ok sh → hand_ok sh (wk_hand k) →
  pipeline_ok (put w k sh p).
Proof.
  intros [_ Hw] Hg Hs Hk. split; [done |]. simpl. intros w' k' Hk'.
  destruct (decide (w = w')) as [<- | Hne].
  - destruct (decide (w < length (pl_workers p))).
    + rewrite list_lookup_insert_eq in Hk' by done. by simplify_eq.
    + rewrite list_insert_ge in Hk' by lia. by eapply hand_ok_grows, Hw.
  - rewrite list_lookup_insert_ne in Hk' by done. by eapply hand_ok_grows, Hw.
Qed.

Lemma grows_refl sh s' :
  (∀ i e, st_entries (sh_stream sh) !! i = Some e → st_entries s' !! i = Some e) →
  grows sh (with_stream s' sh).
Proof. intros H. by split. Qed.

Lemma pipeline_step_ok p p' : pipeline_step p p' → pipeline_ok p → pipeline_ok p'.
Proof.
  intros Hs Hok. pose proof Hok as [Hsh Hw].
  destruct Hs as [p ps|p w k n Hk Hh|p w k ids Hk Hh Hp|p w k ms env ws' r i Hk Hh Hwr
    |p w k ms env err att dead ex Hk Hh Hwr Hf|p w k ms Hk Hh|p w k ex Hk Hh|p w k Hk].
  - assert (grows (pl_shared p) (with_stream (publish ps (sh_stream (pl_shared p))) (pl_shared p)))
      as Hg by (apply grows_refl; intros; by apply lookup_app_l_Some).
    split; [| intros; by eapply hand_ok_grows, Hw].
    intros i Hi. destruct (Hsh i Hi); [by left | right; by eapply settled_grows].
  - apply pipeline_put; [done | by apply grows_refl | |].
    + intros i Hi. simpl in *. rewrite length_seq in Hi.
      destruct (decide (i < st_next (sh_stream (pl_shared p)))) as [Hlt|].
      * destruct (Hsh i Hlt); [left; set_solver | by right].
      * left. apply elem_of_app. right. apply elem_of_seq. lia.
    + simpl. intros i e Hie. by apply decode_elem in Hie as [_ ?].
  - apply pipeline_put; [done | by split | done |].
    simpl. intros i e Hie. by apply decode_elem in Hie as [_ ?].
  - specialize (Hw w k Hk). rewrite Hh in Hw. simpl in Hw.
    assert (∀ kk, bw_stored (sh_written (pl_shared p)) kk → bw_stored ws' kk) as Hmono
      by (intros kk ?; apply (bw_persists _ _ _ _ _ _ Hwr); by left).
    assert (grows (pl_shared p) {| sh_stream := sh_stream (pl_shared p); sh_written := ws';
      sh_dead := sh_dead (pl_shared p) |}) as Hg by (by split).
    apply pipeline_put; [done | done | |].
    + intros j Hj. destruct (Hsh j Hj); [by left | right; by eapply settled_grows].
    + simpl. intros j ([j' e] & -> & Hje)%list_elem_of_fmap. exists e. simpl.
      split; [by apply Hw |]. left. destruct (bw_keyed _ _ _ _ _ _ Hwr e) as [kk Hkk].
      { apply list_elem_of_fmap. by exists (j', e). }
      exists kk. split; [done |]. apply (bw_persists _ _ _ _ _ _ Hwr). right. exists e.
      split; [| done]. apply list_elem_of_fmap. by exists (j', e).
  - specialize (Hw w k Hk). rewrite Hh in Hw. simpl in Hw.
    assert (grows (pl_shared p) {| sh_stream := sh_stream (pl_shared p);
      sh_written := sh_written (pl_shared p); sh_dead := sh_dead (pl_shared p) ++ dead |}) as Hg.
    { split; simpl; [done | done |]. intros e He. rewrite fmap_app. set_solver. }
    apply pipeline_put; [done | done | |].
    + intros j Hj. destruct (Hsh j Hj); [by left | right; by eapply settled_grows].
    + simpl. intros j Hj. destruct (handle_failure_dead _ _ _ _ _ j Hf Hj) as (e & n & Hje & Hd & _).
      exists e. split; [by apply Hw |]. right. simpl. rewrite fmap_app, elem_of_app. right.
      apply list_elem_of_fmap. by exists (e, n).
  - specialize (Hw w k Hk). rewrite Hh in Hw. simpl in Hw.
    apply pipeline_put; [done | by apply grows_refl | by apply ack_ok | done].
  - specialize (Hw w k Hk). rewrite Hh in Hw. simpl in Hw.
    apply pipeline_put; [done | by apply grows_refl | by apply ack_ok | done].
  - apply pipeline_put; [done | by split | done | done].
Qed.

Definition pipeline0 (ws : bw_state) (workers : nat) : Pipeline :=
  {| pl_shared := {| sh_stream := empty_stream; sh_written := ws; sh_dead := [] |};
     pl_workers := replicate workers {| wk_attempts := ∅; wk_hand := Idle |} |}.

Lemma pipeline0_ok ws n : pipeline_ok (pipeline0 ws n).
Proof.
  split; [intros i Hi; simpl in Hi; lia |]. intros w k [-> _]%lookup_replicate. done.
Qed.

Lemma pipeline_reachable_ok ws n p : rtc pipeline_step (pipeline0 ws n) p → pipeline_ok p.
Proof.
  intros Hr. assert (pipeline_ok (pipeline0 ws n)) as H0 by apply pipeline0_ok.
  revert H0. induction Hr; eauto using pipeline_step_ok.
Qed.

(** (C3) No event is lost: however workers interleave and wherever they crash, a
    decodable message of the stream is still to be delivered, or pending so that
    another worker can claim it, or its row is in the table, or it is on the
    dead-letter stream; and an undecodable one, once delivered, stays pending. *)
Theorem no_event_is_lost ws n p i :
  rtc pipeline_step (pipeline0 ws n) p →
  let sh := pl_shared p in
  (∀ e, st_entries (sh_stream sh) !! i = Some (Some e) →
     st_next (sh_stream sh) <= i ∨ i ∈ st_pending (sh_stream sh) ∨
     persisted (sh_written sh) e ∨ e ∈ (sh_dead sh).*1) ∧
  (st_entries (sh_stream sh) !! i = Some None → i < st_next (sh_stream sh) →
     i ∈ st_pending (sh_stream sh)).
Proof.
  intros [Hok _]%pipeline_reachable_ok. cbv zeta. split.
  - intros e He. destruct (decide (i < st_next (sh_stream (pl_shared p)))) as [Hlt|]; [| left; lia].
    right. destruct (Hok i Hlt) as [?|(e' & He' & Hs)]; [by left | right].
    rewrite He in He'. by simplify_eq.
  - intros He Hlt. destruct (Hok i Hlt) as [?|(e' & He' & _)]; [done | congruence].
Qed.

(** ** Retries *)

(** A message is dead-lettered exactly at its fifth failure in a worker's hands:
    before that its count goes up by one and it stays pending, and the fifth time
    it is set aside with its count and forgotten. *)
Theorem fifth_failure_dead_letters attempts i e :
  let n := default 0 (attempts !! i) in
  let '(attempts', dead, exhausted) := handle_failure attempts [(i, e)] in
  (n < 4 → attempts' = <[i := S n]> attempts ∧ dead = [] ∧ exhausted = []) ∧
  (4 <= n → attempts' = delete i attempts ∧ dead = [(e, S n)] ∧ exhausted = [i]).
Proof.
  cbn [handle_failure]. unfold MAX_ATTEMPTS.
  destruct (Nat.leb_spec 5 (default 0 (attempts !! i) + 1)); split; intros;
    try lia; rewrite Nat.add_1_r; done.
Qed.

(** ** Draining *)

Lemma decode_all s ids :
  (∀ i, i ∈ ids → ∃ e, st_entries s !! i = Some (Some e)) → (decode s ids).*1 = ids.
Proof.
  unfold decode. induction ids as [|i ids IH]; intros H; [done |]. cbn [omap list_omap].
  destruct (H i ltac:(left)) as [e ->]. rewrite fmap_cons. f_equal.
  apply IH. intros j Hj. apply H. by right.
Qed.

(** A writer that never raises on these events. *)
Definition never_raises (env : bw_env) (s : Stream) : Prop :=
  ∀ ws l, (∀ e, e ∈ l → ∃ i, st_entries s !! i = Some (Some e)) →
    ∃ ws' r i, bw_write env ws l = Ok (ws', r, i).

Definition undelivered (s : Stream) : nat := length (st_entries s) - st_next s.

(** One turn on a stream of decodable messages writes and acknowledges what it reads. *)
Lemma run_once_ok env c sh :
  0 < co_batch_size c → (∀ o, o ∈ st_entries (sh_stream sh) → o ≠ None) →
  never_raises env (sh_stream sh) →
  let '(n, c', sh') := run_once env c sh in
  co_batch_size c' = co_batch_size c ∧
  st_entries (sh_stream sh') = st_entries (sh_stream sh) ∧
  (n = 0 → undelivered (sh_stream sh) = 0) ∧ n <= undelivered (sh_stream sh) ∧
  undelivered (sh_stream sh') = undelivered (sh_stream sh) - n ∧
  (∀ i, i ∈ st_pending (sh_stream sh') → i ∈ st_pending (sh_stream sh)) ∧
  (∀ k, bw_stored (sh_written sh) k → bw_stored (sh_written sh') k) ∧
  (∀ i e, st_next (sh_stream sh) <= i < st_next (sh_stream sh') →
     st_entries (sh_stream sh) !! i = Some (Some e) → persisted (sh_written sh') e).
Proof.
  intros Hb Hdec Hnr. unfold run_once, read. set (s := sh_stream sh) in *.
  set (ids := seq (st_next s) (min (co_batch_size c) (length (st_entries s) - st_next s))).
  assert (∀ i, i ∈ ids → ∃ e, st_entries s !! i = Some (Some e)) as Hids.
  { intros i Hi. unfold ids in Hi. apply elem_of_seq in Hi.
    destruct (lookup_lt_is_Some_2 (st_entries s) i) as [o Ho]; [lia |].
    destruct o as [e|]; [eauto |]. by destruct (Hdec None (list_elem_of_lookup_2 _ _ _ Ho)). }
  pose proof (decode_all s ids Hids) as Hfst.
  assert (length (decode s ids) = length ids) as Hlen
    by (rewrite <- Hfst at 2; by rewrite length_fmap).
  assert (length ids = min (co_batch_size c) (undelivered s)) as Hl
    by (unfold ids; apply length_seq).
  destruct (decode s ids) as [|m ms] eqn:Ed.
  { cbn [sh_stream]. unfold undelivered in *. simpl in Hlen |- *.
    split_and!; [done | done | lia | lia | lia | | done |].
    - intros i [?|Hi]%elem_of_app; [done |]. destruct ids; [by apply elem_of_nil in Hi | done].
    - intros i e Hi. rewrite <- Hlen in Hi. lia. }
  unfold process. cbn [sh_written sh_stream sh_dead].
  destruct (Hnr (sh_written sh) (m :: ms).*2) as (ws' & r & ins & Hw).
  { intros e ([i e'] & -> & Hie)%list_elem_of_fmap. rewrite <- Ed in Hie.
    apply decode_elem in Hie as [_ ?]. by exists i. }
  rewrite Hw. rewrite Hfst. cbn [sh_stream sh_written ack st_entries st_next st_pending].
  unfold undelivered in *. split_and!; [done | done | simpl; lia | simpl in *; lia | simpl in *; lia | | |].
  - intros i [Hi Hn]%elem_of_lfilter. bprop. by apply elem_of_app in Hi as [?|?].
  - intros k Hk. apply (bw_persists _ _ _ _ _ _ Hw). by left.
  - intros i e Hi He. assert ((i, e) ∈ m :: ms) as Hin.
    { rewrite <- Ed. unfold decode. apply list_elem_of_omap. exists i.
      split; [unfold ids; apply elem_of_seq; unfold ids in Hi; rewrite length_seq in Hi; lia |].
      by rewrite He. }
    assert (e ∈ (m :: ms).*2) as He2 by (apply list_elem_of_fmap; by exists (i, e)).
    destruct (bw_keyed _ _ _ _ _ _ Hw e He2) as [k Hk]. exists k. split; [done |].
    apply (bw_persists _ _ _ _ _ _ Hw). right. eauto.
Qed.

End Consumer.

(** ** The writers behind the interface *)

Definition event_batch_writer `{Unicode} : BatchWriter Schema.QueuedEvent :=
  staged_writer event_record event_key.
Definition click_batch_writer `{Unicode} : BatchWriter QueuedClick :=
  staged_writer click_record click_key.

(** ** Witnesses *)

(** A table of numbers. *)
Definition nat_writer : BatchWriter nat := staged_writer (λ n : nat, Some n) (λ n : nat, n).
Definition nat_conn : Conn nat := {| c_id := 1; c_staging := Some []; c_up := true |}.
Definition nat_state : WriterState nat := {| ws_prepared := []; ws_table := [] |}.

(** A worker crashes with one good and one undecodable message in its hands. *)
Lemma ex_crash :
  ∃ p : @Pipeline nat nat_writer, rtc pipeline_step (@pipeline0 nat nat_writer nat_state 1) p ∧
    st_entries (sh_stream (pl_shared p)) = [Some 7; None] ∧ st_next (sh_stream (pl_shared p)) = 2.
Proof.
  eexists. split.
  - eapply rtc_l; [apply (Publishes _ [Some 7; None]) |].
    eapply rtc_l; [eapply (Reads _ 0 _ 10); [reflexivity | reflexivity] |].
    eapply rtc_l; [eapply (Crashes _ 0); reflexivity |]. apply rtc_refl.
  - done.
Qed.

Lemma no_event_is_lost_witness :
  ∃ p : @Pipeline nat nat_writer,
    (0 ∈ st_pending (sh_stream (pl_shared p)) ∨ persisted (sh_written (pl_shared p)) 7 ∨
     7 ∈ (sh_dead (pl_shared p)).*1) ∧ 1 ∈ st_pending (sh_stream (pl_shared p)).
Proof.
  destruct ex_crash as (p & Hr & He & Hn). exists p. split.
  - destruct (proj1 (@no_event_is_lost nat nat_writer nat_state 1 p 0 Hr) 7) as [H|H].
    + rewrite He. reflexivity.
    + rewrite Hn in H. lia.
    + exact H.
  - apply (proj2 (@no_event_is_lost nat nat_writer nat_state 1 p 1 Hr)); [rewrite He; reflexivity | rewrite Hn; lia].
Defined.

Definition ex_consumer : EventConsumer :=
  {| co_batch_size := 2; co_attempts := ∅;
     co_metrics := {| m_batches := 0; m_events_received := 0; m_events_written := 0;
                      m_duplicates := 0; m_dead_lettered := 0; m_failures := 0 |} |}.

Definition ex_shared : @Shared nat nat_writer :=
  @Build_Shared nat nat_writer (publish [Some 7; Some 8; Some 7] empty_stream) nat_state [].

Lemma mapM_Some_all (l : list nat) : mapM (λ n : nat, Some n) l = Some l.
Proof.
  induction l as [|a l IH]; [done |]. cbn [mapM]. unfold mbind, option_bind in *. rewrite IH. done.
Qed.

Lemma nat_writer_never_raises (s : Stream) : @never_raises nat nat_writer nat_conn s.
Proof.
  intros ws l _. cbn [bw_write nat_writer staged_writer]. unfold staged_write.
  destruct l as [|a l]; [by eexists _, _, _ |]. cbn [c_up nat_conn negb raise_if rbind].
  rewrite mapM_Some_all. unfold ensure_staging.
  destruct (bool_decide _); cbn [c_staging nat_conn];
    destruct (insert_from _ _ _) as [table n]; by eexists _, _, _.
Qed.

