(* ===== verification/Templates.v ===== *)
(** * Postback templates (mmp_providers/templates.py)

    The two regular expressions of the module are matched directly: neither can
    backtrack into a different match, because the classes that follow one another
    are disjoint.  A match function returns the captured name and the rest of the
    text.  Values are the strings [str(value)] gives, [None] for a missing one. *)

From S2P Require Import Prelude Ids.

#[local] Open Scope N_scope.
#[local] Open Scope mmp_scope.

Definition ALLOWED_VARIABLES : list pystr :=
  [py "event_id"; py "event_name"; py "event_timestamp"; py "app_id"; py "user_id";
   py "anonymous_id"; py "click_id"; py "campaign_id"; py "campaign_name"; py "source";
   py "medium"; py "revenue"; py "currency"; py "platform"; py "country";
   py "attribution_method"; py "install_timestamp"; py "sub1"; py "sub2"; py "sub3"].

Definition SUB_PARAMETERS : list pystr := [py "sub1"; py "sub2"; py "sub3"].

Definition MAX_TEMPLATE_LENGTH : nat := Z.to_nat 4096.
Definition MAX_VALUE_LENGTH : nat := 512.

Definition name_start (c : N) : bool := is_lower_ascii c || (c =? 95).
Definition name_char (c : N) : bool := is_lower_ascii c || is_digit_ascii c || (c =? 95).

Inductive TemplateError :=
| TooLong
| NotPlaceholders (malformed : list pystr)
| UnknownVariables (unknown : list pystr).

Record TemplateCheck := {
  tc_variables : list pystr;
  tc_unknown : list pystr;
  tc_malformed : list pystr
}.

(** ** Percent-encoding: [urllib.parse.quote(text, safe="")] *)

(** UTF-8 of a code point (strings come from decoders that refuse lone surrogates). *)
Definition utf8 (c : N) : list N :=
  if c <? 0x80 then [c]
  else if c <? 0x800 then [0xC0 + c / 64; 0x80 + c mod 64]
  else if c <? 0x10000 then [0xE0 + c / 4096; 0x80 + (c / 64) mod 64; 0x80 + c mod 64]
  else [0xF0 + c / 262144; 0x80 + (c / 4096) mod 64; 0x80 + (c / 64) mod 64; 0x80 + c mod 64].

(** [_ALWAYS_SAFE] of urllib: letters, digits and [_.-~]. *)
Definition always_safe (b : N) : bool :=
  is_alnum_ascii b || (b =? 95) || (b =? 46) || (b =? 45) || (b =? 126).

Definition upper_hexdigit (d : N) : N := if d <? 10 then 48 + d else 55 + d.

Definition quote_byte (b : N) : pystr :=
  if always_safe b then [b]
  else [37; upper_hexdigit (b / 16 mod 16); upper_hexdigit (b mod 16)].

Definition quote (s : pystr) : pystr := (s ≫= utf8) ≫= quote_byte.

Section Templates.
Context {U : Unicode}.

(** ** Matching *)

(** The longest prefix of at most [n] characters in the class, and the rest. *)
Fixpoint span (n : nat) (p : N → bool) (s : pystr) : pystr * pystr :=
  match n, s with
  | S n', c :: s' =>
      if p c then let '(a, b) := span n' p s' in (c :: a, b) else ([], s)
  | _, _ => ([], s)
  end.

(** The opening braces, blanks, a name, blanks, the closing braces: one match of [PLACEHOLDER] at the
    start of the text. *)
Definition match_placeholder (s : pystr) : option (pystr * pystr) :=
  match s with
  | 123 :: 123 :: s1 =>
      match lstrip py_isspace s1 with
      | c :: s2 =>
          if name_start c then
            let '(name, s3) := span 40 name_char s2 in
            match lstrip py_isspace s3 with
            | 125 :: 125 :: rest => Some (c :: name, rest)
            | _ => None
            end
          else None
      | [] => None
      end
  | _ => None
  end.

(** The text up to the first closing braces, and what follows them. *)
Fixpoint until_close (s : pystr) : option (pystr * pystr) :=
  match s with
  | [] => None
  | c :: s' =>
      match s with
      | 125 :: 125 :: rest => Some ([], rest)
      | _ => match until_close s' with Some (a, rest) => Some (c :: a, rest) | None => None end
      end
  end.

(** One match of [LOOSE_PLACEHOLDER]: the whole matched text and the rest. *)
Definition match_loose (s : pystr) : option (pystr * pystr) :=
  match s with
  | 123 :: 123 :: s1 =>
      match until_close s1 with
      | Some (a, rest) => Some ([123; 123] ++ a ++ [125; 125], rest)
      | None => None
      end
  | _ => None
  end.

(** [finditer]: non-overlapping matches from left to right; every match consumes. *)
Fixpoint find_all (m : pystr → option (pystr * pystr)) (fuel : nat) (s : pystr) : list pystr :=
  match fuel, s with
  | S fuel', _ :: s' =>
      match m s with
      | Some (x, rest) => x :: find_all m fuel' rest
      | None => find_all m fuel' s'
      end
  | _, _ => []
  end.

Definition placeholders (s : pystr) : list pystr := find_all match_placeholder (length s) s.
Definition loose_placeholders (s : pystr) : list pystr := find_all match_loose (length s) s.

Definition fullmatch (s : pystr) : bool :=
  match match_placeholder s with Some (_, []) => true | _ => false end.

(** ** Operations *)

Definition inspect (template : pystr) : result TemplateError TemplateCheck :=
  if Nat.ltb MAX_TEMPLATE_LENGTH (length template) then Err TooLong
  else
    let found := placeholders template in
    Ok {| tc_variables := found;
          tc_unknown := List.filter (λ n, negb (bool_decide (n ∈ ALLOWED_VARIABLES))) found;
          tc_malformed := List.filter (λ x, negb (fullmatch x)) (loose_placeholders template) |}.

Definition uses_sub_parameters (templates : list (option pystr))
    : result TemplateError (list pystr) :=
  fold_left (λ acc t,
    match t with
    | Some (c :: s) =>
        let* used := acc in
        let* check := inspect (c :: s) in
        Ok (used ++ List.filter (λ n, bool_decide (n ∈ SUB_PARAMETERS)) (tc_variables check))
    | _ => acc
    end) templates (Ok []).

Definition validate (template : pystr) : result TemplateError unit :=
  let* check := inspect template in
  let* _ := raise_if (negb (bool_decide (tc_malformed check = [])))
              (NotPlaceholders (tc_malformed check)) in
  raise_if (negb (bool_decide (tc_unknown check = []))) (UnknownVariables (tc_unknown check)).

Definition substitute (values : list (pystr * option pystr)) (encode : bool) (name : pystr)
    : pystr :=
  match od_get name values with
  | Some (Some v) =>
      let text := take MAX_VALUE_LENGTH v in if encode then quote text else text
  | _ => []
  end.

(** [PLACEHOLDER.sub(substitute, template)]. *)
Fixpoint sub_all (f : pystr → pystr) (fuel : nat) (s : pystr) : pystr :=
  match fuel, s with
  | S fuel', c :: s' =>
      match match_placeholder s with
      | Some (name, rest) => f name ++ sub_all f fuel' rest
      | None => c :: sub_all f fuel' s'
      end
  | _, _ => s
  end.

Definition render (template : pystr) (values : list (pystr * option pystr)) (encode : bool)
    : result TemplateError pystr :=
  let* _ := validate template in
  Ok (sub_all (substitute values encode) (length template) template).

Definition variables_from {V} (context : list (pystr * V)) : list (pystr * V) :=
  List.filter (λ kv, bool_decide (fst kv ∈ ALLOWED_VARIABLES)) context.

(** ** Lemmas *)

Lemma lstrip_length p s : (length (lstrip p s) <= length s)%nat.
Proof. induction s as [|c s IH]; simpl; [lia |]. case_match; simpl; lia. Qed.

Lemma span_length n p s : (length (snd (span n p s)) <= length s)%nat.
Proof.
  revert s. induction n as [|n IH]; intros s; simpl; [lia |]. destruct s as [|c s]; simpl; [lia |].
  destruct (p c); simpl; [| lia]. specialize (IH s). destruct (span n p s). simpl in *. lia.
Qed.

(** A match is a chunk of placeholder characters: braces, blanks and name characters. *)
Definition placeholder_char (c : N) : bool :=
  (c =? 123) || (c =? 125) || py_isspace c || name_char c.

Lemma lstrip_split p s : ∃ a, s = a ++ lstrip p s ∧ Forall (λ c, p c = true) a.
Proof.
  induction s as [|c s IH]; simpl; [by exists [] |]. destruct (p c) eqn:E.
  - destruct IH as (a & E' & Ha). exists (c :: a). simpl. split; [by f_equal | by constructor].
  - by exists [].
Qed.

Lemma span_split n p s : s = fst (span n p s) ++ snd (span n p s) ∧
  Forall (λ c, p c = true) (fst (span n p s)).
Proof.
  revert s. induction n as [|n IH]; intros s; simpl; [done |]. destruct s as [|c s]; [done |].
  destruct (p c) eqn:E; [| done]. specialize (IH s). destruct (span n p s) as [a b]. simpl in *.
  destruct IH as [-> Ha]. split; [done | by constructor].
Qed.

Lemma match_placeholder_split s name rest :
  match_placeholder s = Some (name, rest) →
  ∃ chunk, s = chunk ++ rest ∧ chunk ≠ [] ∧ Forall (λ c, placeholder_char c = true) chunk.
Proof.
  unfold match_placeholder. intros H.
  destruct s as [|c0 [|c1 s1]]; [done | by repeat case_match |].
  destruct (decide (c0 = 123)) as [-> | Hn]; [| by repeat case_match].
  destruct (decide (c1 = 123)) as [-> | Hn]; [| by repeat case_match].
  destruct (lstrip_split py_isspace s1) as (a1 & E1 & Ha1).
  destruct (lstrip py_isspace s1) as [|c s2]; [done |].
  destruct (name_start c) eqn:Hs; [| done].
  destruct (span_split 40 name_char s2) as [E2 Ha2].
  destruct (span 40 name_char s2) as [nm s3]. simpl in E2, Ha2.
  destruct (lstrip_split py_isspace s3) as (a3 & E3 & Ha3).
  destruct (lstrip py_isspace s3) as [|d0 [|d1 s4]]; [done | by repeat case_match |].
  destruct (decide (d0 = 125)) as [-> | Hn]; [| by repeat case_match].
  destruct (decide (d1 = 125)) as [-> | Hn]; [| by repeat case_match].
  injection H as _ <-. subst s3 s2 s1.
  exists ([123; 123] ++ a1 ++ [c] ++ nm ++ a3 ++ [125; 125]).
  split; [simpl; by rewrite <- !app_assoc; simpl; rewrite <- !app_assoc |]. split; [done |].
  assert (∀ l, Forall (λ c, py_isspace c = true) l → Forall (λ c, placeholder_char c = true) l) as Hsp.
  { intros l Hl. eapply Forall_impl; [exact Hl |]. intros x Hx. unfold placeholder_char. rewrite Hx.
    by rewrite !orb_true_r. }
  assert (placeholder_char c = true).
  { unfold placeholder_char, name_start, name_char in *.
    destruct (is_lower_ascii c), (c =? 95); rewrite ?orb_true_r in *; done. }
  repeat apply Forall_app_2; [by repeat constructor | auto | by repeat constructor | | auto
    | by repeat constructor].
  eapply Forall_impl; [exact Ha2 |]. intros x Hx. unfold placeholder_char. rewrite Hx.
  by rewrite orb_true_r.
Qed.

(** How often a character occurs. *)
Definition count (c : N) (s : pystr) : nat := length (List.filter (N.eqb c) s).

Lemma count_app c s t : count c (s ++ t) = (count c s + count c t)%nat.
Proof. unfold count. by rewrite List.filter_app, length_app. Qed.

Lemma count_absent c s : c ∉ s → count c s = 0%nat.
Proof.
  unfold count. induction s as [|d s IH]; intros Hc; simpl; [done |].
  destruct (N.eqb_spec c d) as [-> | ?]; [set_solver |]. apply IH. set_solver.
Qed.

(** The alphabet of a percent-encoded value. *)
Definition quoted_char (c : N) : bool := always_safe c || (c =? 37).

Lemma quote_byte_chars b : Forall (λ c, quoted_char c = true) (quote_byte b).
Proof.
  unfold quote_byte. assert (∀ d, quoted_char (upper_hexdigit (d mod 16)) = true) as Hh.
  { intros d. assert (d mod 16 < 16) as Hlt by by apply N.mod_lt. generalize dependent (d mod 16).
    intros x Hx. assert (Forall (λ x, quoted_char (upper_hexdigit x) = true)
      (N.of_nat <$> seq 0 16)) as Hall by (apply (bool_decide_unpack _); by vm_compute).
    rewrite Forall_forall in Hall. apply Hall, list_elem_of_fmap. exists (N.to_nat x).
    rewrite elem_of_seq. lia. }
  destruct (always_safe b) eqn:E.
  - constructor; [| done]. unfold quoted_char. by rewrite E.
  - repeat constructor; [apply Hh | apply Hh].
Qed.

Lemma quote_chars s : Forall (λ c, quoted_char c = true) (quote s).
Proof.
  unfold quote. induction (s ≫= utf8) as [|b bs IH]; [constructor |].
  simpl. apply Forall_app_2; [apply quote_byte_chars | done].
Qed.

(** A character no value and no placeholder can contain: the URL's own syntax. *)
Definition is_syntax (c : N) : Prop := quoted_char c = false ∧ placeholder_char c = false.

Lemma Forall_absent (p : N → bool) (s : pystr) c :
  Forall (λ x, p x = true) s → p c = false → c ∉ s.
Proof. intros Hf Hc Hin. rewrite Forall_forall in Hf. rewrite (Hf c Hin) in Hc. done. Qed.

Lemma sub_all_count f c fuel s :
  (∀ n, count c (f n) = 0%nat) → placeholder_char c = false →
  count c (sub_all f fuel s) = count c s.
Proof.
  intros Hf Hc. revert s. induction fuel as [|fuel IH]; intros s; simpl; [done |].
  destruct s as [|x s]; [done |].
  destruct (match_placeholder (x :: s)) as [[name rest]|] eqn:E.
  - destruct (match_placeholder_split _ _ _ E) as (chunk & Es & _ & Hch). rewrite Es.
    rewrite !count_app, Hf, IH, (count_absent c chunk); [done |]. by eapply Forall_absent.
  - change (x :: sub_all f fuel s) with ([x] ++ sub_all f fuel s).
    change (x :: s) with ([x] ++ s). by rewrite !count_app, IH.
Qed.

(** (C39) No value can alter the shape of a URL: whatever values are substituted, a
    rendered URL contains each syntax character, such as an ampersand, an equals
    sign, a slash or a hash, exactly as often as its template does, so no parameter
    and no path segment can be injected. *)
Theorem render_injects_nothing t values out c :
  render t values true = Ok out → is_syntax c → count c out = count c t.
Proof.
  intros Hr [Hq Hp]. unfold render in Hr. inv_ok. subst out.
  apply sub_all_count; [| done]. intros n. unfold substitute.
  destruct (od_get n values) as [[v|]|]; [| done | done]. apply count_absent.
  eapply Forall_absent; [apply quote_chars | done].
Qed.

Lemma sub_all_ext f g fuel s :
  (∀ n, n ∈ find_all match_placeholder fuel s → f n = g n) → sub_all f fuel s = sub_all g fuel s.
Proof.
  revert s. induction fuel as [|fuel IH]; intros s H; simpl; [done |].
  destruct s as [|x s]; [done |]. cbn [find_all] in H.
  destruct (match_placeholder (x :: s)) as [[name rest]|].
  - rewrite (H name) by left. f_equal. apply IH. intros n Hn. apply H. by right.
  - f_equal. by apply IH.
Qed.

Lemma validate_ok t :
  validate t = Ok () → ∀ n, n ∈ placeholders t → n ∈ ALLOWED_VARIABLES.
Proof.
  unfold validate, inspect. intros H n Hn. destruct (Nat.ltb _ _); [done |].
  cbn [rbind tc_malformed tc_unknown] in H. apply rbind_Ok in H as (x & _ & H).
  apply raise_if_Ok in H. bprop.
  destruct (decide (n ∈ ALLOWED_VARIABLES)) as [?|Hno]; [done |].
  assert (n ∈ []) as Hf; [| by apply elem_of_nil in Hf].
  rewrite <- H. apply elem_of_lfilter. split; [done |]. by rewrite bool_decide_false.
Qed.

(** A template sees the allowlist and nothing else: two contexts that agree on
    the allowed variables render alike, so narrowing the context with
    [variables_from] changes nothing and no other value can leave. *)
Theorem render_sees_only_the_allowlist t values values' encode :
  (∀ n, n ∈ ALLOWED_VARIABLES → od_get n values = od_get n values') →
  render t values encode = render t values' encode ∧
  render t values encode = render t (variables_from values) encode.
Proof.
  assert (∀ v v', (∀ n, n ∈ ALLOWED_VARIABLES → od_get n v = od_get n v') →
    render t v encode = render t v' encode) as Hgen.
  { intros v v' Hv. unfold render. destruct (validate t) as [[]|e] eqn:E; [| done].
    cbn [rbind]. f_equal. apply sub_all_ext. intros n Hn. unfold substitute.
    rewrite Hv; [done |]. by apply (validate_ok t E). }
  intros H. split; [by apply Hgen |]. apply Hgen. intros n Hn. clear H.
  unfold variables_from. induction values as [|[k v] l IH]; simpl; [done |].
  destruct (bool_decide_reflect (k ∈ ALLOWED_VARIABLES)); simpl; [by rewrite IH |].
  rewrite decide_False by (intros ->; done). exact IH.
Qed.
End Templates.

(** ** Witnesses *)

Definition ex_template : pystr := py "https://n.example/conv?click={{click_id}}&rev={{ revenue }}".

Lemma render_injects_nothing_witness :
  count 38 (py "https://n.example/conv?click=a%26b%3D&rev=") = count 38 ex_template.
Proof.
  apply (@render_injects_nothing ascii_unicode ex_template
    [(py "click_id", Some (py "a&b="))] (py "https://n.example/conv?click=a%26b%3D&rev=") 38).
  - vm_compute. reflexivity.
  - split; vm_compute; reflexivity.
Defined.

Lemma render_sees_only_the_allowlist_witness :
  @render ascii_unicode ex_template [(py "click_id", Some (py "1")); (py "password", Some (py "x"))] true
  = @render ascii_unicode ex_template [(py "click_id", Some (py "1"))] true.
Proof.
  apply (@render_sees_only_the_allowlist ascii_unicode).
  intros n Hn. cbn [od_get]. destruct (decide (n = py "click_id")); [done |].
  destruct (decide (n = py "password")) as [-> |]; [| done].
  exfalso. revert Hn. apply (bool_decide_unpack _). vm_compute. exact I.
Defined.

(** An expression is an error, not text. *)
Example injection_is_refused :
  @render ascii_unicode (py "https://n.example/{{ config.items() }}") [] true
  = Err (NotPlaceholders [py "{{ config.items() }}"]).
Proof. vm_compute. reflexivity. Qed.

(** ** What the code does beyond its documentation *)

(** Bodies are rendered without encoding "where the JSON encoder does the escaping
    instead", but no JSON encoder follows: a quote in a value breaks out of its
    string. *)
Lemma body_values_are_not_escaped :
  @render ascii_unicode (py "{'name':'{{campaign_name}}'}")
    [(py "campaign_name", Some (py "x','admin':'1"))] false
  = Ok (py "{'name':'x','admin':'1'}").
Proof. vm_compute. reflexivity. Qed.
