(* ===== verification/Referrer.v ===== *)
(** * The install referrer (mmp_attrib/referrer.py, and what
    mmp_tracker/redirect.py writes into it)

    With the part of urllib both use: [unquote] and [parse_qs] here, [quote] in
    [Templates]. *)

From S2P Require Import Prelude Ids Keys Templates.

#[local] Open Scope N_scope.
#[local] Open Scope mmp_scope.

Definition CLICK_ID_KEYS : list pystr :=
  [py "utm_content"; py "mmp_click_id"; py "click_id"; py "clickid"; py "cid"].
Definition DEEP_LINK_KEYS : list pystr := [py "deep_link"; py "deeplink"; py "af_dp"].
Definition MAX_REFERRER_LENGTH : nat := 2048.

Definition percent : N := 37.
Definition ampersand : N := 38.
Definition equals : N := 61.

Definition REPLACEMENT : N := 0xfffd.

(** The bytes that may follow a lead byte: no overlong form, no surrogate and nothing
    past U+10FFFF. *)
Definition is_second (lead c : N) : bool :=
  if lead =? 0xe0 then in_range 0xa0 0xbf c
  else if lead =? 0xed then in_range 0x80 0x9f c
  else if lead =? 0xf0 then in_range 0x90 0xbf c
  else if lead =? 0xf4 then in_range 0x80 0x8f c
  else in_range 0x80 0xbf c.

(** [bytes.decode("utf-8", "replace")]: each maximal malformed sequence becomes one
    replacement character. *)
Fixpoint decode_replace (bs : list N) : pystr :=
  match bs with
  | [] => []
  | a :: r1 =>
      if a <? 0x80 then a :: decode_replace r1
      else if negb (in_range 0xc2 0xf4 a) then REPLACEMENT :: decode_replace r1
      else
        match r1 with
        | [] => [REPLACEMENT]
        | b :: r2 =>
            if negb (is_second a b) then REPLACEMENT :: decode_replace r1
            else if a <? 0xe0 then (a - 0xc0) * 64 + (b - 0x80) :: decode_replace r2
            else
              match r2 with
              | [] => [REPLACEMENT]
              | c :: r3 =>
                  if negb (in_range 0x80 0xbf c) then REPLACEMENT :: decode_replace r2
                  else if a <? 0xf0
                  then ((a - 0xe0) * 64 + (b - 0x80)) * 64 + (c - 0x80) :: decode_replace r3
                  else
                    match r3 with
                    | [] => [REPLACEMENT]
                    | d :: r4 =>
                        if negb (in_range 0x80 0xbf d) then REPLACEMENT :: decode_replace r3
                        else (((a - 0xf0) * 64 + (b - 0x80)) * 64 + (c - 0x80)) * 64 + (d - 0x80)
                             :: decode_replace r4
                    end
              end
        end
  end.

Section Referrer.
Context {U : Unicode}.

(** ** urllib.parse *)

Definition hex_value (c : N) : option N :=
  if is_digit_ascii c then Some (c - 48)
  else if in_range 65 70 c then Some (c - 55)
  else if in_range 97 102 c then Some (c - 87)
  else None.

(** [unquote_to_bytes] of an ASCII text. *)
Fixpoint unquote_to_bytes (s : pystr) : list N :=
  match s with
  | [] => []
  | c :: s' =>
      if c =? percent then
        match s' with
        | a :: b :: s'' =>
            match hex_value a, hex_value b with
            | Some x, Some y => 16 * x + y :: unquote_to_bytes s''
            | _, _ => percent :: unquote_to_bytes s'
            end
        | _ => percent :: unquote_to_bytes s'
        end
      else c :: unquote_to_bytes s'
  end.

(** The maximal runs of ASCII and of other characters. *)
Fixpoint runs (s : pystr) : list (bool * pystr) :=
  match s with
  | [] => []
  | c :: s' =>
      match runs s' with
      | (b, r) :: rest =>
          if Bool.eqb b (is_ascii c) then (b, c :: r) :: rest
          else (is_ascii c, [c]) :: (b, r) :: rest
      | [] => [(is_ascii c, [c])]
      end
  end.

Definition unquote (s : pystr) : pystr :=
  if existsb (N.eqb percent) s
  then runs s ≫= (λ br : bool * pystr, if fst br then decode_replace (unquote_to_bytes (snd br)) else snd br)
  else s.

(** [name_value.partition("=")]: the text before the separator, whether there is one,
    and the text after it. *)
Fixpoint partition (sep : N) (s : pystr) : pystr * bool * pystr :=
  match s with
  | [] => ([], false, [])
  | c :: s' =>
      if c =? sep then ([], true, s')
      else let '(a, found, b) := partition sep s' in (c :: a, found, b)
  end.

(** [value.replace("+", " ")]. *)
Definition plus_to_space (s : pystr) : pystr := (λ c, if c =? 43 then 32 else c) <$> s.

(** [parse_qsl(qs, keep_blank_values=False)]. *)
Definition parse_qsl (qs : pystr) : list (pystr * pystr) :=
  omap (λ item,
    let '(name, _, value) := partition equals item in
    match value with
    | [] => None
    | _ => Some (unquote (plus_to_space name), unquote (plus_to_space value))
    end) (py_split ampersand qs).

(** The first value of every key, as a dict. *)
Definition query_params (qs : pystr) : list (pystr * pystr) :=
  fold_left (λ d kv, od_setdefault (fst kv) (snd kv) d) (parse_qsl qs) [].

(** ** mmp_attrib/referrer.py *)

Record ParsedReferrer := {
  pf_click_id : option uuid;
  pf_deep_link : option pystr;
  pf_source : option pystr;
  pf_medium : option pystr;
  pf_campaign : option pystr;
  pf_raw_params : list (pystr * pystr)
}.

Definition is_organic (p : ParsedReferrer) : bool :=
  bool_decide (pf_click_id p = None) &&
  negb (truthy (pf_source p) || truthy (pf_medium p) || truthy (pf_campaign p)).

Definition as_uuid (value : option pystr) : option uuid :=
  match value with
  | None | Some [] => None
  | Some v => uuid_of_str (py_strip v)
  end.

Definition empty_referrer : ParsedReferrer :=
  {| pf_click_id := None; pf_deep_link := None; pf_source := None; pf_medium := None;
     pf_campaign := None; pf_raw_params := [] |}.

(** The first key with a value the function accepts. *)
Definition first_of {A} (keys : list pystr) (f : pystr → option A) : option A := head (omap f keys).

Definition looks_encoded (s : pystr) : bool := substring (py "%3D") s || substring (py "%26") s.

Definition referrer_of_params (params : list (pystr * pystr)) : ParsedReferrer :=
  let deep_link :=
    first_of DEEP_LINK_KEYS
      (λ key, match od_get key params with Some ((_ :: _) as v) => Some v | _ => None end) in
  {| pf_click_id := first_of CLICK_ID_KEYS (λ key, as_uuid (od_get key params));
     pf_deep_link := unquote <$> deep_link;
     pf_source := od_get (py "utm_source") params;
     pf_medium := od_get (py "utm_medium") params;
     pf_campaign := od_get (py "utm_campaign") params;
     pf_raw_params := params |}.

Definition parse_referrer (referrer : option pystr) : ParsedReferrer :=
  match referrer with
  | None | Some [] => empty_referrer
  | Some referrer =>
      let candidate := take MAX_REFERRER_LENGTH referrer in
      let candidate := if looks_encoded candidate then unquote candidate else candidate in
      referrer_of_params (query_params candidate)
  end.

(** ** What the redirect writes (redirect.py, [build_destination])

    The value of the Play Store's [referrer] parameter; the store hands it back as it
    is. *)
Definition play_referrer (click_id : pystr) (deep_link_path : option pystr) : pystr :=
  py "utm_content=" ++ quote click_id ++
  (if truthy deep_link_path then py "&deep_link=" ++ quote (default [] deep_link_path) else []).

(** ** Lemmas *)

(** Decoding bytes below 128 gives them back. *)
Lemma decodes_ascii b : Forall (λ c, c < 128) b → decode_replace b = b.
Proof.
  induction 1 as [|c b Hc _ IH]; [done |]. cbn [decode_replace].
  rewrite (proj2 (N.ltb_lt c 0x80)) by exact Hc. by rewrite IH.
Qed.

Definition small_bytes : list N := N.of_nat <$> seq 0 256.

Lemma small_byte b : b < 256 → b ∈ small_bytes.
Proof.
  intros Hb. unfold small_bytes. apply list_elem_of_fmap. exists (N.to_nat b).
  rewrite elem_of_seq. lia.
Qed.

(** A fact about every byte, by computation. *)
Lemma byte_fact (P : N → Prop) `{∀ b, Decision (P b)} b :
  bool_decide (Forall P small_bytes) = true → b < 256 → P b.
Proof.
  intros Hc%bool_decide_eq_true Hb. rewrite Forall_forall in Hc. by apply Hc, small_byte.
Qed.

(** Every byte is quoted as itself, and not a percent sign, or as its two digits. *)
Definition quoted_well (b : N) : bool :=
  match quote_byte b with
  | [c] => (c =? b) && negb (c =? percent)
  | [p; x; y] =>
      (p =? percent) && negb (x =? percent) && negb (y =? percent) &&
      bool_decide (hex_value x = Some (b / 16)) && bool_decide (hex_value y = Some (b mod 16))
  | _ => false
  end.

Lemma quote_byte_well b : b < 256 → quoted_well b = true.
Proof. apply (byte_fact (λ b, quoted_well b = true)). by vm_compute. Qed.

Lemma unquote_quote bs rest :
  Forall (λ b, b < 256) bs →
  unquote_to_bytes ((bs ≫= quote_byte) ++ rest) = bs ++ unquote_to_bytes rest.
Proof.
  induction 1 as [|b bs Hb _ IH]; [done |]. rewrite bind_cons, <- app_assoc.
  pose proof (quote_byte_well b Hb) as Hq. unfold quoted_well in Hq.
  destruct (quote_byte b) as [|c [|x [|y [|? ?]]]]; try done; bprop; subst.
  - cbn [app unquote_to_bytes]. destruct (N.eqb_spec b percent) as [-> | _]; [done |].
    by rewrite IH.
  - match goal with H1 : hex_value x = _, H2 : hex_value y = _ |- _ => rename H1 into Hx, H2 into Hy end.
    cbn [app unquote_to_bytes]. rewrite N.eqb_refl, Hx, Hy, IH.
    f_equal. symmetry. apply N.div_mod. done.
Qed.

Lemma unquote_plain s rest :
  percent ∉ s → unquote_to_bytes (s ++ rest) = s ++ unquote_to_bytes rest.
Proof.
  induction s as [|c s IH]; intros Hs; [done |]. apply not_elem_of_cons in Hs as [Hc Hs].
  cbn [app unquote_to_bytes]. destruct (N.eqb_spec c percent); [congruence |]. by rewrite IH.
Qed.

Lemma runs_ascii s : s ≠ [] → Forall (λ c, c < 128) s → runs s = [(true, s)].
Proof.
  induction s as [|c s IH]; [done |]. intros _ [Hc Hs]%Forall_cons. cbn [runs].
  assert (is_ascii c = true) as -> by (by apply N.ltb_lt).
  destruct s as [|d s]; [done |]. by rewrite IH.
Qed.

Lemma unquote_ascii s :
  Forall (λ c, c < 128) s → Forall (λ c, c < 128) (unquote_to_bytes s) →
  unquote s = unquote_to_bytes s.
Proof.
  intros Hs Hu. unfold unquote. destruct (existsb (N.eqb percent) s) eqn:E.
  - rewrite runs_ascii; [| by intros -> | done]. simpl. by rewrite app_nil_r, decodes_ascii.
  - assert (percent ∉ s) as Hn.
    { intros Hin. apply not_true_iff_false in E. apply E, existsb_exists. exists percent.
      rewrite <- list_elem_of_In. split; [done | apply N.eqb_refl]. }
    rewrite <- (app_nil_r s) at 2. rewrite (unquote_plain s [] Hn). by rewrite app_nil_r.
Qed.

Lemma unquote_no_percent s : percent ∉ s → unquote s = s.
Proof.
  intros Hn. unfold unquote. destruct (existsb (N.eqb percent) s) eqn:E; [| done].
  apply existsb_exists in E as (c & Hc & E%N.eqb_eq). subst.
  by apply list_elem_of_In in Hc.
Qed.

Lemma od_get_fold_setdefault {V} (l d : list (pystr * V)) k :
  od_get k (fold_left (λ d kv, od_setdefault (fst kv) (snd kv) d) l d) =
    match od_get k d with Some v => Some v | None => od_get k l end.
Proof.
  revert d. induction l as [|[k' v'] l IH]; intros d; simpl; [by destruct (od_get k d) |].
  rewrite IH. unfold od_setdefault. destruct (od_get k' d) as [x|] eqn:E.
  - case_decide; subst; [by rewrite E | done].
  - rewrite od_get_set. case_decide; subst; [by rewrite E | done].
Qed.

Lemma partition_app sep a b : sep ∉ a → partition sep (a ++ sep :: b) = (a, true, b).
Proof.
  induction a as [|c a IH]; intros Ha; simpl; [by rewrite N.eqb_refl |].
  apply not_elem_of_cons in Ha as [Hc Ha]. destruct (N.eqb_spec c sep); [congruence |].
  by rewrite IH.
Qed.

Lemma plus_to_space_none s : 43 ∉ s → plus_to_space s = s.
Proof.
  intros Hs. unfold plus_to_space. rewrite <- (list_fmap_id s) at 2. apply list_fmap_ext.
  intros i c Hc%list_elem_of_lookup_2. destruct (N.eqb_spec c 43); [congruence | done].
Qed.

(** A parameter with a plain key and a value that needs no decoding but its quoting. *)
Definition plain_key (name : pystr) : bool :=
  forallb (λ c, negb (c =? equals) && negb (c =? 43) && negb (c =? percent)) name.

Lemma plain_key_lacks name :
  plain_key name = true → equals ∉ name ∧ 43 ∉ name ∧ percent ∉ name.
Proof.
  unfold plain_key. rewrite forallb_forall. intros Hf.
  split_and!; intros Hin%list_elem_of_In%Hf; vm_compute in Hin; done.
Qed.

Lemma parse_item (name value : pystr) :
  plain_key name = true → value ≠ [] → 43 ∉ value →
  (let '(n, _, v) := partition equals (name ++ equals :: value) in
   match v with
   | [] => None
   | _ => Some (unquote (plus_to_space n), unquote (plus_to_space v))
   end) = Some (name, unquote value).
Proof.
  intros (He & Hp & Hq)%plain_key_lacks Hv Hpv. rewrite partition_app by done. destruct value; [done |].
  rewrite !plus_to_space_none by done. by rewrite (unquote_no_percent name).
Qed.

Lemma uuid_chars u (c : N) : c ∈ str_of_uuid u → is_hexchar c = true ∨ c = 45.
Proof. pose proof (str_of_uuid_chars u) as Hf. rewrite Forall_forall in Hf. apply Hf. Qed.

Lemma uuid_lacks u c : is_hexchar c = false → c ≠ 45 → c ∉ str_of_uuid u.
Proof. intros Hc Hd Hin%uuid_chars. naive_solver congruence. Qed.

Lemma str_of_uuid_nonempty u : str_of_uuid u ≠ [].
Proof. intros E. pose proof (str_of_uuid_length u) as Hl. by rewrite E in Hl. Qed.

Lemma quote_uuid u : quote (str_of_uuid u) = str_of_uuid u.
Proof.
  unfold quote. pose proof (str_of_uuid_chars u) as Hf. induction Hf as [|c s Hc _ IH]; [done |].
  assert (c < 128 ∧ always_safe c = true) as [Hlt Hs].
  { destruct Hc as [Hc | ->]; [| by vm_compute]. apply is_hexchar_bounds in Hc.
    split; [lia |]. unfold always_safe, is_alnum_ascii, is_upper_ascii, is_lower_ascii, is_digit_ascii,
      in_range. repeat match goal with |- context [?a <=? ?b] => destruct (N.leb_spec a b) end;
      simpl; try done; lia. }
  rewrite bind_cons, bind_app, IH. unfold utf8. destruct (N.ltb_spec c 128); [| lia].
  simpl. unfold quote_byte. by rewrite Hs.
Qed.

Lemma as_uuid_str u : uuid_ok u → as_uuid (Some (str_of_uuid u)) = Some u.
Proof.
  intros Hu. unfold as_uuid.
  assert (py_strip (str_of_uuid u) = str_of_uuid u) as E.
  { unfold py_strip. assert (Forall (λ c, py_isspace c = false) (str_of_uuid u)) as Hf.
    { eapply Forall_impl; [apply str_of_uuid_chars |]. intros c [Hc | ->]; [| done].
      apply is_hexchar_bounds in Hc. unfold py_isspace, is_ascii, is_space_ascii, in_range.
      destruct (N.ltb_spec c 128); [| lia].
      repeat match goal with |- context [?a <=? ?b] => destruct (N.leb_spec a b) end;
        simpl; try done; lia. }
    by rewrite lstrip_noop, rstrip_noop. }
  rewrite E. pose proof (str_of_uuid_length u) as Hl.
  destruct (str_of_uuid u) eqn:Es; [done |]. rewrite <- Es. by apply uuid_of_str_of_uuid.
Qed.

(** Whatever follows, the first parameter is ours. *)
Lemma click_id_first u tail :
  uuid_ok u → tail = [] ∨ (∃ t, tail = ampersand :: t) →
  pf_click_id (referrer_of_params (query_params (py "utm_content=" ++ str_of_uuid u ++ tail))) = Some u.
Proof.
  intros Hu Ht.
  assert (∃ more, parse_qsl (py "utm_content=" ++ str_of_uuid u ++ tail) =
    (py "utm_content", str_of_uuid u) :: more) as [more E].
  { assert (∀ c, is_hexchar c = false → c ≠ 45 → c ∉ py "utm_content=" →
      c ∉ py "utm_content=" ++ str_of_uuid u) as Hlack.
    { intros c ? ? ? [? | ?]%elem_of_app; [done |]. by apply (uuid_lacks u c). }
    assert (∃ items, py_split ampersand (py "utm_content=" ++ str_of_uuid u ++ tail) =
      (py "utm_content=" ++ str_of_uuid u) :: items) as [items Ei].
    { rewrite app_assoc.
      assert (ampersand ∉ py "utm_content=" ++ str_of_uuid u) as Ha
        by (apply Hlack; [done | done |]; apply (bool_decide_unpack _); by vm_compute).
      destruct Ht as [-> | [t ->]].
      - rewrite app_nil_r, py_split_absent by done. by exists [].
      - rewrite py_split_app by done. eauto. }
    unfold parse_qsl. rewrite Ei. cbn [omap list_omap].
    change (py "utm_content=" ++ str_of_uuid u) with (py "utm_content" ++ equals :: str_of_uuid u).
    rewrite parse_item; [| done | apply str_of_uuid_nonempty | by apply uuid_lacks].
    rewrite unquote_no_percent by (by apply uuid_lacks). eauto. }
  unfold referrer_of_params, query_params. cbn [pf_click_id]. unfold first_of, CLICK_ID_KEYS.
  cbn [omap list_omap]. rewrite od_get_fold_setdefault, E. cbn [od_get].
  rewrite decide_True by done. by rewrite as_uuid_str.
Qed.

(** ** Quoted text *)

Definition ascii_text (s : pystr) : Prop := Forall (λ c, c < 128) s.

Lemma ascii_utf8 s : ascii_text s → s ≫= utf8 = s.
Proof.
  induction 1 as [|c s Hc _ IH]; [done |]. rewrite bind_cons, IH. unfold utf8.
  by destruct (N.ltb_spec c 128); [| lia].
Qed.

Lemma ascii_bytes s : ascii_text s → Forall (λ b, b < 256) s.
Proof. intros Hs. eapply Forall_impl; [exact Hs |]. simpl. lia. Qed.

Lemma quote_byte_ascii b : Forall (λ c, c < 128) (quote_byte b).
Proof.
  unfold quote_byte. destruct (always_safe b) eqn:E.
  - constructor; [| done]. destruct (N.ltb_spec b 128); [done |].
    assert (always_safe b = false); [| congruence].
    assert (∀ lo hi, hi < 128 → in_range lo hi b = false) as Hr.
    { intros lo hi Hh. unfold in_range. rewrite (proj2 (N.leb_gt b hi)) by lia. apply andb_false_r. }
    unfold always_safe, is_alnum_ascii, is_upper_ascii, is_lower_ascii, is_digit_ascii.
    rewrite !Hr by done. rewrite !(proj2 (N.eqb_neq b _)) by lia. done.
  - assert (∀ d, upper_hexdigit (d mod 16) < 128) as Hd.
    { intros d. assert (d mod 16 < 16) by by apply N.mod_lt. unfold upper_hexdigit.
      destruct (_ <? _); lia. }
    repeat constructor; apply Hd.
Qed.

Lemma quote_ascii s : ascii_text (quote s).
Proof.
  unfold ascii_text, quote. generalize (s ≫= utf8). intros bs.
  induction bs as [|b bs IH]; [constructor |]. rewrite bind_cons.
  apply Forall_app_2; [apply quote_byte_ascii | exact IH].
Qed.

Lemma quote_byte_length b : (length (quote_byte b) <= 3)%nat.
Proof. unfold quote_byte. destruct (always_safe b); simpl; lia. Qed.

Lemma quote_length s : ascii_text s → (length (quote s) <= 3 * length s)%nat.
Proof.
  intros Hs. unfold quote. rewrite ascii_utf8 by done. clear Hs.
  induction s as [|c s IH]; [done |]. rewrite bind_cons, length_app. cbn [length].
  pose proof (quote_byte_length c). lia.
Qed.

Lemma unquote_quoted p s :
  percent ∉ p → ascii_text p → ascii_text s → unquote (p ++ quote s) = p ++ s.
Proof.
  intros Hp Hpa Hs.
  assert (unquote_to_bytes (p ++ quote s) = p ++ s) as E.
  { rewrite unquote_plain by done. f_equal. unfold quote. rewrite ascii_utf8 by done.
    rewrite <- (app_nil_r (s ≫= quote_byte)), unquote_quote by (by apply ascii_bytes).
    apply app_nil_r. }
  rewrite unquote_ascii; [done | |].
  - apply Forall_app_2; [done | apply quote_ascii].
  - rewrite E. by apply Forall_app_2.
Qed.

(** The pattern %XY occurs in quoted text only where a byte is quoted as it. *)
Lemma substring_quoted x y bs :
  Forall (λ b, b < 256 ∧ quote_byte b ≠ [percent; x; y]) bs →
  substring [percent; x; y] (bs ≫= quote_byte) = false.
Proof.
  induction 1 as [|b bs [Hb Hne] _ IH]; [done |]. rewrite bind_cons.
  pose proof (quote_byte_well b Hb) as Hq. unfold quoted_well in Hq.
  destruct (quote_byte b) as [|c [|x' [|y' [|? ?]]]]; try done; bprop; subst.
  - cbn [app substring starts_with]. destruct (N.eqb_spec percent b); [congruence |].
    simpl. exact IH.
  - assert (N.eqb x x' && N.eqb y y' = false) as Hxy.
    { destruct (N.eqb_spec x x'); [| done]. destruct (N.eqb_spec y y'); [| done]. by subst. }
    assert (percent =? x' = false) as Ex by (apply N.eqb_neq; congruence).
    assert (percent =? y' = false) as Ey by (apply N.eqb_neq; congruence).
    cbn [app substring starts_with]. by rewrite andb_true_r, Hxy, N.eqb_refl, Ex, Ey.
Qed.

Lemma substring_plain x y s t :
  percent ∉ s → substring [percent; x; y] (s ++ t) = substring [percent; x; y] t.
Proof.
  induction s as [|c s IH]; intros Hs; [done |]. apply not_elem_of_cons in Hs as [Hc Hs].
  cbn [app substring starts_with]. destruct (N.eqb_spec percent c); [congruence |]. simpl. by apply IH.
Qed.

(** The characters a path may not have for its referrer to be read as written. *)
Definition plain_path (s : pystr) : Prop :=
  ascii_text s ∧ percent ∉ s ∧ ampersand ∉ s ∧ equals ∉ s.

Definition separator_quoted (c : N) : bool :=
  (c =? ampersand) || (c =? equals) ||
  (negb (bool_decide (quote_byte c = py "%3D")) && negb (bool_decide (quote_byte c = py "%26"))).

Lemma separators_only c : c < 256 → separator_quoted c = true.
Proof. apply (byte_fact (λ c, separator_quoted c = true)). by vm_compute. Qed.

Lemma plain_not_encoded p s : percent ∉ p → plain_path s → looks_encoded (p ++ quote s) = false.
Proof.
  intros Hp (Ha & Hq & Hm & He). unfold looks_encoded, quote. rewrite ascii_utf8 by done.
  assert (∀ c, c ≠ ampersand → c ≠ equals → c < 256 →
    quote_byte c ≠ py "%3D" ∧ quote_byte c ≠ py "%26") as Hc.
  { intros c H1 H2 H3. pose proof (separators_only c H3) as Hs. unfold separator_quoted in Hs.
    apply N.eqb_neq in H1, H2. rewrite H1, H2 in Hs. cbn [orb] in Hs.
    apply andb_true_iff in Hs as [Hs1%negb_true_iff Hs2%negb_true_iff].
    split; [exact (proj1 (bool_decide_eq_false _) Hs1) | exact (proj1 (bool_decide_eq_false _) Hs2)]. }
  change (py "%3D") with [percent; 51; 68]. change (py "%26") with [percent; 50; 54].
  rewrite !substring_plain by done.
  assert (∀ c, c ∈ s → c < 256 ∧ quote_byte c ≠ py "%3D" ∧ quote_byte c ≠ py "%26") as Hall.
  { intros c Hin. unfold ascii_text in Ha. rewrite Forall_forall in Ha. specialize (Ha c Hin).
    simpl in Ha. split; [lia |]. apply Hc; [congruence | congruence | lia]. }
  rewrite !substring_quoted; [done | |]; apply Forall_forall; intros c Hin; split; apply Hall; done.
Qed.

(** ** Theorems *)

Lemma play_referrer_some u path :
  path ≠ [] → play_referrer (str_of_uuid u) (Some path) =
    py "utm_content=" ++ str_of_uuid u ++ py "&deep_link=" ++ quote path.
Proof. intros Hp. unfold play_referrer. rewrite quote_uuid. by destruct path. Qed.

Lemma referrer_prefix u :
  percent ∉ py "utm_content=" ++ str_of_uuid u ++ py "&deep_link=" ∧
  ascii_text (py "utm_content=" ++ str_of_uuid u ++ py "&deep_link=").
Proof.
  split.
  - rewrite !not_elem_of_app. split_and!; [| by apply uuid_lacks |];
      apply (bool_decide_unpack _); by vm_compute.
  - unfold ascii_text. rewrite !Forall_app.
    assert (Forall (λ c, c < 128) (str_of_uuid u)) as Hu.
    { eapply Forall_impl; [apply str_of_uuid_chars |]. intros c [Hc | ->]; [| done].
      apply is_hexchar_bounds in Hc. lia. }
    split_and!; [| exact Hu |]; apply (bool_decide_unpack _); by vm_compute.
Qed.

(** What [parse_referrer] parses: the referrer as written, or decoded once. *)
Lemma parse_play_referrer u path :
  path ≠ [] → ascii_text path → (length path <= 512)%nat →
  parse_referrer (Some (play_referrer (str_of_uuid u) (Some path))) =
    referrer_of_params (query_params (py "utm_content=" ++ str_of_uuid u ++ py "&deep_link=" ++
      if looks_encoded (play_referrer (str_of_uuid u) (Some path)) then path else quote path)).
Proof.
  intros Hne Ha Hl. destruct (referrer_prefix u) as [Hp Hpa].
  rewrite !play_referrer_some by done. unfold parse_referrer.
  assert (take MAX_REFERRER_LENGTH
    (py "utm_content=" ++ str_of_uuid u ++ py "&deep_link=" ++ quote path) =
    py "utm_content=" ++ str_of_uuid u ++ py "&deep_link=" ++ quote path) as ->.
  { apply take_ge. rewrite !length_app, str_of_uuid_length. pose proof (quote_length path Ha).
    change (length (py "utm_content=")) with 12%nat.
    change (length (py "&deep_link=")) with 11%nat. unfold MAX_REFERRER_LENGTH. lia. }
  assert (unquote (py "utm_content=" ++ str_of_uuid u ++ py "&deep_link=" ++ quote path) =
    py "utm_content=" ++ str_of_uuid u ++ py "&deep_link=" ++ path) as Hu.
  { rewrite !app_assoc in *. by apply unquote_quoted. }
  destruct (looks_encoded (py "utm_content=" ++ str_of_uuid u ++ py "&deep_link=" ++ quote path));
    [rewrite Hu |]; done.
Qed.

(** The click id survives the store: whatever deep link the redirect wrote after it,
    the parsed referrer names the click the redirect minted, so no text in a deep link
    can claim an install for another click. *)
Theorem referrer_returns_the_click u path :
  uuid_ok u →
  (∀ p, path = Some p → ascii_text p ∧ (length p <= 512)%nat) →
  pf_click_id (parse_referrer (Some (play_referrer (str_of_uuid u) path))) = Some u.
Proof.
  intros Hu Hpath.
  assert (pf_click_id (parse_referrer (Some (play_referrer (str_of_uuid u) None))) = Some u) as Hnone.
  { assert (play_referrer (str_of_uuid u) None = py "utm_content=" ++ str_of_uuid u ++ []) as E
      by (unfold play_referrer; by rewrite quote_uuid).
    destruct (referrer_prefix u) as [Hp _].
    assert (percent ∉ py "utm_content=" ++ str_of_uuid u ++ []) as Hn.
    { rewrite !not_elem_of_app in *. split_and!; [apply Hp | apply Hp | apply not_elem_of_nil]. }
    unfold parse_referrer. rewrite E. cbn [app py].
    rewrite take_ge by (rewrite !length_app, str_of_uuid_length; vm_compute; lia).
    assert (unquote (py "utm_content=" ++ str_of_uuid u ++ []) =
      py "utm_content=" ++ str_of_uuid u ++ []) as Hq by (by apply unquote_no_percent).
    destruct (looks_encoded _); [rewrite Hq |]; apply click_id_first; auto. }
  destruct path as [[|c path]|]; [exact Hnone | | exact Hnone].
  destruct (Hpath _ eq_refl) as [Ha Hl]. rewrite parse_play_referrer by done.
  apply click_id_first; [done |]. right. eexists. done.
Qed.

Lemma quote_lacks c s : quoted_char c = false → c ∉ quote s.
Proof.
  intros Hc Hin. pose proof (quote_chars s) as Hf. rewrite Forall_forall in Hf.
  specialize (Hf c Hin). simpl in Hf. congruence.
Qed.

Lemma quote_nonempty s : ascii_text s → s ≠ [] → quote s ≠ [].
Proof.
  intros Ha Hs E. unfold quote in E. rewrite ascii_utf8 in E by done.
  destruct s as [|c s]; [done |]. rewrite bind_cons in E. apply app_nil in E as [E _].
  unfold quote_byte in E. by destruct (always_safe c).
Qed.

Lemma parse_qsl_referrer u path :
  ascii_text path → path ≠ [] →
  parse_qsl (py "utm_content=" ++ str_of_uuid u ++ py "&deep_link=" ++ quote path) =
    [(py "utm_content", str_of_uuid u); (py "deep_link", path)].
Proof.
  intros Ha Hne.
  assert (py_split ampersand (py "utm_content=" ++ str_of_uuid u ++ py "&deep_link=" ++ quote path) =
    [py "utm_content" ++ equals :: str_of_uuid u; py "deep_link" ++ equals :: quote path]) as E.
  { change (py "utm_content=" ++ str_of_uuid u ++ py "&deep_link=" ++ quote path) with
      (py "utm_content" ++ equals :: str_of_uuid u ++ ampersand :: py "deep_link" ++ equals :: quote path).
    rewrite app_comm_cons, app_assoc. rewrite py_split_app.
    - rewrite py_split_absent; [done |]. rewrite not_elem_of_app, not_elem_of_cons.
      split_and!; [apply (bool_decide_unpack _); by vm_compute | done | by apply quote_lacks].
    - rewrite not_elem_of_app, not_elem_of_cons.
      split_and!; [apply (bool_decide_unpack _); by vm_compute | done | by apply uuid_lacks]. }
  unfold parse_qsl. rewrite E. cbn [omap list_omap].
  rewrite parse_item; [| done | apply str_of_uuid_nonempty | by apply uuid_lacks].
  rewrite parse_item; [| done | by apply quote_nonempty | by apply quote_lacks].
  rewrite unquote_no_percent by (by apply uuid_lacks).
  change (quote path) with ([] ++ quote path).
  rewrite unquote_quoted; [done | apply not_elem_of_nil | constructor | done].
Qed.

(** The deep link survives the store: a path without percent signs, ampersands and
    equals signs comes back from the referrer exactly as the redirect was given it. *)
Theorem referrer_returns_the_deep_link u path :
  uuid_ok u → plain_path path → path ≠ [] → (length path <= 512)%nat →
  pf_deep_link (parse_referrer (Some (play_referrer (str_of_uuid u) (Some path)))) = Some path.
Proof.
  intros Hu Hp Hne Hl. destruct (referrer_prefix u) as [Hpre _].
  destruct Hp as (Ha & Hq & Hm & He). rewrite parse_play_referrer by done.
  assert (looks_encoded (play_referrer (str_of_uuid u) (Some path)) = false) as ->.
  { rewrite play_referrer_some by done. rewrite !app_assoc in *.
    by apply plain_not_encoded. }
  unfold query_params, referrer_of_params. rewrite parse_qsl_referrer by done.
  cbn [pf_deep_link]. unfold first_of, DEEP_LINK_KEYS. cbn [omap list_omap].
  rewrite od_get_fold_setdefault. cbn [od_get fst snd].
  rewrite decide_False by (intros E; vm_compute in E; discriminate E). rewrite decide_True by done.
  destruct path as [|c path]; [done |].
  transitivity (Some (unquote (c :: path))); [reflexivity |]. f_equal. by apply unquote_no_percent.
Qed.
End Referrer.

(** ** Witnesses *)

Definition ex_path : pystr := py "/shoes/42+red".

Lemma ex_path_plain : plain_path ex_path.
Proof. unfold plain_path, ascii_text. split_and!; apply (bool_decide_unpack _); by vm_compute. Qed.

Lemma referrer_returns_the_click_witness :
  pf_click_id (@parse_referrer ascii_unicode
    (Some (play_referrer (str_of_uuid 77) (Some (py "/a?utm_content=x&b"))))) = Some 77.
Proof.
  apply (@referrer_returns_the_click ascii_unicode 77 (Some (py "/a?utm_content=x&b"))).
  - reflexivity.
  - intros p [= <-]. split; [apply (bool_decide_unpack _); by vm_compute | vm_compute; lia].
Defined.

Lemma referrer_returns_the_deep_link_witness :
  pf_deep_link (@parse_referrer ascii_unicode
    (Some (play_referrer (str_of_uuid 77) (Some ex_path)))) = Some ex_path.
Proof.
  apply (@referrer_returns_the_deep_link ascii_unicode 77 ex_path).
  - reflexivity.
  - exact ex_path_plain.
  - discriminate.
  - vm_compute. lia.
Defined.

(** A path with a query of its own loses what follows its first ampersand, and a percent
    sign is decoded once too often. *)
Lemma deep_link_with_a_query_is_truncated :
  pf_deep_link (@parse_referrer ascii_unicode
    (Some (play_referrer (str_of_uuid 77) (Some (py "/a?x=1&y=2"))))) = Some (py "/a?x=1") ∧
  pf_deep_link (@parse_referrer ascii_unicode
    (Some (play_referrer (str_of_uuid 77) (Some (py "/a%2Fb"))))) = Some (py "/a/b").
Proof. split; vm_compute; reflexivity. Qed.
