(* ===== verification/Urls.v ===== *)
(** * URLs: the part of urllib.parse the tracker and the outbound guard use

    [urlsplit], [urlparse], [urlunparse] and [urlencode], as CPython's module writes them.
    The check of a network location with brackets or characters beyond ASCII is a
    parameter: it needs the IPv6 grammar and Unicode normalisation. *)

From S2P Require Import Prelude Ids Keys Templates Referrer.

#[local] Open Scope N_scope.
#[local] Open Scope mmp_scope.

Definition slash : N := 47.
Definition colon : N := 58.
Definition semicolon : N := 59.
Definition question : N := 63.
Definition hash : N := 35.

(** Whether [urlsplit] takes a network location that has brackets or is not ASCII. *)
Class NetlocCheck := { netloc_check : pystr → bool }.

Inductive UrlError := InvalidNetloc.

Record SplitResult := {
  u_scheme : pystr;
  u_netloc : pystr;
  u_path : pystr;
  u_query : pystr;
  u_fragment : pystr
}.

(** [_WHATWG_C0_CONTROL_OR_SPACE] and [_UNSAFE_URL_BYTES_TO_REMOVE]. *)
Definition is_control_or_space (c : N) : bool := c <=? 32.
Definition is_removed (c : N) : bool := (c =? 9) || (c =? 10) || (c =? 13).

Definition is_alpha_ascii (c : N) : bool := is_upper_ascii c || is_lower_ascii c.

(** [scheme_chars]. *)
Definition scheme_char (c : N) : bool :=
  is_alnum_ascii c || (c =? 43) || (c =? 45) || (c =? 46).

(** The characters that end a network location. *)
Definition netloc_end (c : N) : bool := (c =? slash) || (c =? question) || (c =? hash).

(** The longest prefix without a character of [p], and the rest. *)
Fixpoint break (p : N → bool) (s : pystr) : pystr * pystr :=
  match s with
  | [] => ([], [])
  | c :: s' => if p c then ([], s) else let r := break p s' in (c :: fst r, snd r)
  end.

(** [s.split(sep, 1)] where [sep] occurs: what follows it, when it does. *)
Definition split_once (sep : N) (s : pystr) : pystr * pystr :=
  match break (N.eqb sep) s with
  | (a, []) => (a, [])
  | (a, _ :: b) => (a, b)
  end.

(** The scheme and what follows its colon. *)
Definition split_scheme (url : pystr) : pystr * pystr :=
  match break (N.eqb colon) url with
  | (c :: s, _ :: rest) =>
      if is_alpha_ascii c && forallb scheme_char (c :: s)
      then (lower_ascii <$> (c :: s), rest) else ([], url)
  | _ => ([], url)
  end.

(** [_splitnetloc]. *)
Definition split_netloc (url : pystr) : pystr * pystr :=
  match url with
  | a :: b :: rest => if (a =? slash) && (b =? slash) then break netloc_end rest else ([], url)
  | _ => ([], url)
  end.

Definition plain_netloc (s : pystr) : bool :=
  ascii_str s && forallb (λ c, negb ((c =? 91) || (c =? 93))) s.

Section Urls.
Context {C : NetlocCheck}.

Definition urlsplit (url : pystr) : result UrlError SplitResult :=
  let url := List.filter (λ c, negb (is_removed c)) (lstrip is_control_or_space url) in
  let '(scheme, url) := split_scheme url in
  let '(netloc, url) := split_netloc url in
  if negb (plain_netloc netloc || netloc_check netloc) then Err InvalidNetloc
  else
    let '(url, fragment) := split_once hash url in
    let '(path, query) := split_once question url in
    Ok {| u_scheme := scheme; u_netloc := netloc; u_path := path; u_query := query;
          u_fragment := fragment |}.

Definition uses_params : list pystr :=
  [[]; py "ftp"; py "hdl"; py "prospero"; py "http"; py "https"; py "shttp"; py "rtsp";
   py "rtsps"; py "rtspu"; py "sip"; py "sips"; py "mms"; py "sftp"; py "tel"].

Definition uses_netloc : list pystr :=
  [[]; py "ftp"; py "http"; py "gopher"; py "nntp"; py "telnet"; py "imap"; py "wais";
   py "file"; py "mms"; py "https"; py "shttp"; py "snews"; py "prospero"; py "rtsp";
   py "rtsps"; py "rtspu"; py "rsync"; py "svn"; py "svn+ssh"; py "sftp"; py "nfs"; py "git";
   py "git+ssh"; py "ws"; py "wss"; py "itms-services"].

(** The last segment of a path, as a pair with what precedes it. *)
Definition last_segment (path : pystr) : pystr * pystr :=
  let r := break (N.eqb slash) (reverse path) in (reverse (snd r), reverse (fst r)).

(** [_splitparams]: the path and the parameters of its last segment. *)
Definition split_params (path : pystr) : pystr * pystr :=
  let '(before, segment) := last_segment path in
  let '(s, params) := split_once semicolon segment in (before ++ s, params).

(** [urlparse] only differs from [urlsplit] in the parameters of the path, which
    [urlunparse] puts back unless they are empty. *)
Definition without_empty_params (r : SplitResult) : SplitResult :=
  if bool_decide (u_scheme r ∈ uses_params) && existsb (N.eqb semicolon) (u_path r) then
    let '(path, params) := split_params (u_path r) in
    {| u_scheme := u_scheme r; u_netloc := u_netloc r;
       u_path := if bool_decide (params = []) then path else path ++ semicolon :: params;
       u_query := u_query r; u_fragment := u_fragment r |}
  else r.

Definition urlunsplit (r : SplitResult) : pystr :=
  let url := u_path r in
  let url :=
    match u_netloc r with
    | _ :: _ =>
        let url := match url with
                   | c :: _ => if c =? slash then url else slash :: url
                   | [] => url
                   end in
        slash :: slash :: u_netloc r ++ url
    | [] =>
        if starts_with [slash; slash] url then slash :: slash :: url
        else if negb (bool_decide (u_scheme r = [])) && bool_decide (u_scheme r ∈ uses_netloc) &&
                (bool_decide (url = []) || starts_with [slash] url)
        then slash :: slash :: url else url
    end in
  let url := match u_scheme r with [] => url | s => s ++ colon :: url end in
  let url := match u_query r with [] => url | q => url ++ question :: q end in
  match u_fragment r with [] => url | f => url ++ hash :: f end.

(** [quote_plus]. *)
Definition quote_plus (s : pystr) : pystr :=
  if existsb (N.eqb 32) s
  then (s ≫= utf8) ≫= (λ b, if b =? 32 then [43] else quote_byte b)
  else quote s.

Definition urlencode (params : list (pystr * pystr)) : pystr :=
  py_join [ampersand] ((λ kv, quote_plus (fst kv) ++ equals :: quote_plus (snd kv)) <$> params).

(** [_with_query] of mmp_tracker/redirect.py. *)
Definition with_query (url : pystr) (params : list (pystr * pystr)) : result UrlError pystr :=
  let* parsed := urlsplit url in
  let parsed := without_empty_params parsed in
  let existing := u_query parsed in
  let addition := urlencode params in
  let query := match existing with [] => addition | _ => existing ++ ampersand :: addition end in
  Ok (urlunsplit {| u_scheme := u_scheme parsed; u_netloc := u_netloc parsed;
                    u_path := u_path parsed; u_query := query; u_fragment := u_fragment parsed |}).

(** ** Lemmas *)

Lemma break_app p a b :
  Forall (λ c, p c = false) a → (∀ c b', b = c :: b' → p c = true) → break p (a ++ b) = (a, b).
Proof.
  intros Ha Hb. induction Ha as [|c a Hc _ IH]; cbn [app break].
  - destruct b as [|c b]; [done |]. cbn. by rewrite (Hb c b).
  - by rewrite Hc, IH.
Qed.

Lemma break_spec p s :
  s = fst (break p s) ++ snd (break p s) ∧ Forall (λ c, p c = false) (fst (break p s)) ∧
  (∀ c b, snd (break p s) = c :: b → p c = true).
Proof.
  induction s as [|c s (E & F & G)]; cbn [break]; [split_and!; [done | constructor | done] |].
  destruct (p c) eqn:Hc; cbn [fst snd app].
  - split_and!; [done | constructor |]. by intros ? ? [= <- <-].
  - split_and!; [congruence | by constructor | exact G].
Qed.

Lemma break_sub p s (Q : N → Prop) :
  Forall Q s → Forall Q (fst (break p s)) ∧ Forall Q (snd (break p s)).
Proof. intros H. destruct (break_spec p s) as (E & _). rewrite E in H. by apply Forall_app in H. Qed.

Lemma split_once_sub sep s (Q : N → Prop) :
  Forall Q s → Forall Q (fst (split_once sep s)) ∧ Forall Q (snd (split_once sep s)).
Proof.
  intros [H1 H2]%(break_sub (N.eqb sep)). unfold split_once.
  destruct (break (N.eqb sep) s) as [a [|c b]]; cbn in *; [auto |]. by apply Forall_cons in H2 as [_ ?].
Qed.

Lemma split_once_fst sep s : sep ∉ fst (split_once sep s).
Proof.
  destruct (break_spec (N.eqb sep) s) as (_ & F & _). unfold split_once.
  destruct (break (N.eqb sep) s) as [a [|c b]]; cbn in *; intros Hin;
    rewrite Forall_forall in F; specialize (F sep Hin); cbn in F; by rewrite N.eqb_refl in F.
Qed.

Lemma split_once_app sep a b : sep ∉ a → split_once sep (a ++ sep :: b) = (a, b).
Proof.
  intros Ha. unfold split_once. rewrite break_app; [done | |].
  - apply Forall_forall. intros c Hc. apply N.eqb_neq. by intros ->.
  - intros c b' [= <- _]. apply N.eqb_refl.
Qed.

Lemma split_once_absent sep a : sep ∉ a → split_once sep a = (a, []).
Proof.
  intros Ha. unfold split_once. rewrite <- (app_nil_r a) at 1. rewrite break_app; [done | | done].
  apply Forall_forall. intros c Hc. apply N.eqb_neq. by intros ->.
Qed.

(** What [urlsplit] returns for an absolute URL. *)
Definition kept (c : N) : Prop := is_removed c = false.

Record split_ok (r : SplitResult) : Prop := {
  so_scheme : ∃ c s, u_scheme r = c :: s ∧ is_lower_ascii c = true ∧
    Forall (λ c, scheme_char c = true ∧ is_upper_ascii c = false) (c :: s);
  so_netloc : u_netloc r ≠ [] ∧ Forall (λ c, netloc_end c = false) (u_netloc r);
  so_allowed : plain_netloc (u_netloc r) || netloc_check (u_netloc r) = true;
  so_path : question ∉ u_path r ∧ hash ∉ u_path r ∧
    (u_path r = [] ∨ ∃ p, u_path r = slash :: p);
  so_query : hash ∉ u_query r;
  so_kept : Forall kept (u_netloc r) ∧ Forall kept (u_path r) ∧ Forall kept (u_query r) ∧
    Forall kept (u_fragment r)
}.

(** The text of such a result. *)
Definition text_of (r : SplitResult) : pystr :=
  u_scheme r ++ colon :: slash :: slash :: u_netloc r ++ u_path r ++
  (match u_query r with [] => [] | q => question :: q end) ++
  (match u_fragment r with [] => [] | f => hash :: f end).

Lemma urlunsplit_text r : split_ok r → urlunsplit r = text_of r.
Proof.
  intros [(c & s & Es & _) [Hn _] _ (_ & _ & Hp) _ _]. unfold urlunsplit, text_of.
  rewrite Es. destruct (u_netloc r) as [|n ns]; [done |].
  destruct Hp as [->|(p & ->)]; destruct (u_query r), (u_fragment r);
    rewrite ?N.eqb_refl, ?app_nil_r; cbn [app]; repeat (rewrite <- ?app_assoc; cbn [app]); done.
Qed.

Lemma lstrip_head p c s : p c = false → lstrip p (c :: s) = c :: s.
Proof. intros H. cbn. by rewrite H. Qed.

Lemma scheme_char_facts c :
  scheme_char c = true → is_removed c = false ∧ (colon =? c) = false.
Proof.
  unfold scheme_char, is_removed, is_alnum_ascii, is_upper_ascii, is_lower_ascii, is_digit_ascii,
    in_range, colon. intros H. split.
  - repeat (apply orb_false_iff; split); apply N.eqb_neq; intros ->; discriminate H.
  - apply N.eqb_neq. by intros <-.
Qed.

Lemma lower_noop (s : pystr) : Forall (λ c, is_upper_ascii c = false) s → lower_ascii <$> s = s.
Proof.
  induction 1 as [|c s Hc _ IH]; [done |]. cbn. unfold lower_ascii at 1. rewrite Hc.
  f_equal. exact IH.
Qed.

(** An absolute URL comes apart as it was put together. *)
Lemma urlsplit_text r : split_ok r → urlsplit (text_of r) = Ok r.
Proof.
  intros [(c & s & Es & Hc & Hs) [Hn Hne] Hal (Hq & Hh & Hp) Hqh (K1 & K2 & K3 & K4)].
  assert (List.filter (λ c, negb (is_removed c)) (lstrip is_control_or_space (text_of r)) = text_of r) as E.
  { unfold text_of at 1. rewrite Es. cbn [app]. rewrite lstrip_head.
    2: { unfold is_control_or_space. unfold is_lower_ascii, in_range in Hc.
         apply andb_true_iff in Hc as [H%N.leb_le _]. apply N.leb_gt. lia. }
    unfold text_of. rewrite Es. cbn [app].
    apply lfilter_all. change (c :: s ++ ?t) with ((c :: s) ++ t).
    rewrite Forall_app. split.
    { eapply Forall_impl; [exact Hs |]. intros x [Hx _]. cbn.
      by rewrite (proj1 (scheme_char_facts x Hx)). }
    assert (∀ l, Forall kept l → Forall (λ c, negb (is_removed c) = true) l) as Hk.
    { intros l Hl. eapply Forall_impl; [exact Hl |]. intros x Hx. cbn. by rewrite Hx. }
    repeat (constructor; [done |]). rewrite !Forall_app. split_and!; [by apply Hk.. | |].
    - destruct (u_query r); constructor; [done | by apply Hk].
    - destruct (u_fragment r); constructor; [done | by apply Hk]. }
  unfold urlsplit. rewrite E. clear E.
  assert (split_scheme (text_of r) = (u_scheme r, slash :: slash :: u_netloc r ++ u_path r ++
    (match u_query r with [] => [] | q => question :: q end) ++
    (match u_fragment r with [] => [] | f => hash :: f end))) as ->.
  { unfold split_scheme, text_of. rewrite break_app.
    - rewrite Es. cbn [app]. assert (is_alpha_ascii c = true) as ->
        by (unfold is_alpha_ascii; rewrite Hc; apply orb_true_r).
      assert (forallb scheme_char (c :: s) = true) as ->.
      { apply forallb_forall. intros x Hx. rewrite Forall_forall in Hs.
        by apply Hs, list_elem_of_In. }
      cbn [andb]. rewrite lower_noop; [done |]. eapply Forall_impl; [exact Hs | by intros ? []].
    - rewrite Es. eapply Forall_impl; [exact Hs |]. intros x [Hx _]. by apply scheme_char_facts.
    - intros x b [= <- _]. done. }
  cbn [split_netloc]. rewrite !N.eqb_refl. cbn [andb].
  rewrite break_app; [| done |].
  2: { intros x b Hx. destruct Hp as [Ep|(p & Ep)]; rewrite Ep in Hx; [| by injection Hx as <- _].
       destruct (u_query r); [| by injection Hx as <- _].
       destruct (u_fragment r); [done | by injection Hx as <- _]. }
  rewrite Hal. cbn [negb].
  assert (split_once hash (u_path r ++ (match u_query r with [] => [] | q => question :: q end) ++
    (match u_fragment r with [] => [] | f => hash :: f end)) =
    (u_path r ++ (match u_query r with [] => [] | q => question :: q end), u_fragment r)) as ->.
  { assert (hash ∉ u_path r ++ (match u_query r with [] => [] | q => question :: q end)) as Hno.
    { rewrite not_elem_of_app. split; [done |]. destruct (u_query r); [apply not_elem_of_nil |].
      by apply not_elem_of_cons. }
    rewrite app_assoc. destruct (u_fragment r); [rewrite app_nil_r; by apply split_once_absent |].
    by apply split_once_app. }
  assert (split_once question (u_path r ++ (match u_query r with [] => [] | q => question :: q end)) =
    (u_path r, u_query r)) as ->.
  { destruct (u_query r); [rewrite app_nil_r; by apply split_once_absent | by apply split_once_app]. }
  by destruct r.
Qed.

Lemma filter_kept s : Forall kept (List.filter (λ c, negb (is_removed c)) s).
Proof.
  apply Forall_forall. intros c [_ Hc]%elem_of_lfilter. by apply negb_true_iff in Hc.
Qed.

Lemma lower_ascii_facts c :
  scheme_char c = true →
  scheme_char (lower_ascii c) = true ∧ is_upper_ascii (lower_ascii c) = false ∧
  (is_alpha_ascii c = true → is_lower_ascii (lower_ascii c) = true).
Proof.
  intros H. unfold lower_ascii. destruct (is_upper_ascii c) eqn:E.
  - unfold is_upper_ascii, in_range in E. apply andb_true_iff in E as [E1%N.leb_le E2%N.leb_le].
    assert (is_lower_ascii (c + 32) = true) as L.
    { unfold is_lower_ascii, in_range. apply andb_true_iff. split; apply N.leb_le; lia. }
    split_and!; [| | done].
    + unfold scheme_char, is_alnum_ascii. by rewrite L, orb_true_r.
    + unfold is_upper_ascii, in_range. apply andb_false_iff. right. apply N.leb_gt. lia.
  - split_and!; [done | done |]. unfold is_alpha_ascii. by rewrite E.
Qed.

Lemma urlsplit_ok url r :
  urlsplit url = Ok r → u_scheme r ≠ [] → u_netloc r ≠ [] → split_ok r.
Proof.
  unfold urlsplit. set (t := List.filter _ _). pose proof (filter_kept (lstrip is_control_or_space url)) as K.
  fold t in K. destruct (split_scheme t) as [sch rest] eqn:Es.
  destruct (split_netloc rest) as [net path] eqn:En.
  destruct (plain_netloc net || netloc_check net) eqn:Hal; cbn [negb]; [| done].
  destruct (split_once hash path) as [url1 frag] eqn:Ef.
  destruct (split_once question url1) as [pth qry] eqn:Eq. intros [= <-]. cbn. intros Hsc Hnn.
  assert (Forall kept rest ∧ ∃ c s, sch = c :: s ∧ is_lower_ascii c = true ∧
    Forall (λ c, scheme_char c = true ∧ is_upper_ascii c = false) (c :: s)) as [Krest Hsch].
  { unfold split_scheme in Es. destruct (break_sub (N.eqb colon) t kept K) as [_ K'].
    destruct (break (N.eqb colon) t) as [[|c s] [|x b]]; try (by injection Es as <- _).
    destruct (is_alpha_ascii c && forallb scheme_char (c :: s)) eqn:Ha; [| by injection Es as <- _].
    injection Es as <- <-. cbn in K'. apply Forall_cons in K' as [_ K']. split; [done |].
    apply andb_true_iff in Ha as [Ha Hall]. rewrite forallb_forall in Hall.
    exists (lower_ascii c), (lower_ascii <$> s). split; [done |]. split.
    - apply (lower_ascii_facts c); [| done]. apply Hall. by left.
    - apply Forall_forall. intros y Hy. change (y ∈ lower_ascii <$> (c :: s)) in Hy.
      apply list_elem_of_fmap in Hy as (z & -> & Hz%list_elem_of_In).
      destruct (lower_ascii_facts z (Hall z Hz)) as (? & ? & _). auto. }
  assert (Forall kept net ∧ Forall kept path ∧ Forall (λ c, netloc_end c = false) net ∧
    (∀ c b, path = c :: b → netloc_end c = true)) as (Knet & Kpath & Hne & Hhd).
  { unfold split_netloc in En. destruct rest as [|a [|b rest']]; try (by injection En as <- _).
    destruct ((a =? slash) && (b =? slash)); [| by injection En as <- _].
    do 2 apply Forall_cons in Krest as [_ Krest].
    destruct (break_sub netloc_end rest' kept Krest), (break_spec netloc_end rest') as (_ & ? & ?).
    by rewrite En in *. }
  destruct (split_once_sub hash path kept Kpath) as [Ku1 Kf]. rewrite Ef in Ku1, Kf.
  destruct (split_once_sub question url1 kept Ku1) as [Kp Kq]. rewrite Eq in Kp, Kq.
  pose proof (split_once_fst hash path) as Hh. rewrite Ef in Hh.
  pose proof (split_once_fst question url1) as Hq. rewrite Eq in Hq. cbn in *.
  destruct (split_once_sub question url1 (λ c, c ≠ hash)) as [Hh1 Hh2].
  { apply Forall_forall. by intros c Hc ->. }
  rewrite Eq in Hh1, Hh2. rewrite Forall_forall in Hh1, Hh2. cbn in *.
  split; cbn; [done | done | done | | | done].
  - split_and!; [done | by intros ?%Hh1 |].
    assert (∀ c b, pth = c :: b → ∃ b', path = c :: b') as Hpre.
    { intros c b ->. unfold split_once in Ef, Eq.
      destruct (break_spec (N.eqb hash) path) as (E1 & _), (break_spec (N.eqb question) url1) as (E2 & _).
      destruct (break (N.eqb hash) path) as [x1 y1], (break (N.eqb question) url1) as [x2 y2].
      cbn in *. assert (x1 = url1) as -> by (destruct y1; congruence).
      assert (x2 = c :: b) as -> by (destruct y2; congruence).
      rewrite E1, E2. cbn. eauto. }
    destruct pth as [|c b]; [by left |]. right. destruct (Hpre c b eq_refl) as (b' & Eb).
    specialize (Hhd c b' Eb). unfold netloc_end in Hhd. exists b. f_equal.
    destruct (N.eqb_spec c slash) as [->|]; [done |].
    destruct (N.eqb_spec c question) as [->|]; [exfalso; apply Hq; left |].
    destruct (N.eqb_spec c hash) as [->|]; [| done]. exfalso. apply (Hh1 hash); [left | done].
  - by intros ?%Hh2.
Qed.

Lemma split_params_text path :
  let r := split_params path in
  path = fst r ++ semicolon :: snd r ∨ (path = fst r ∧ snd r = []).
Proof.
  unfold split_params, last_segment, split_once.
  destruct (break_spec (N.eqb slash) (reverse path)) as (E & _).
  set (seg := reverse (fst (break (N.eqb slash) (reverse path)))).
  set (pre := reverse (snd (break (N.eqb slash) (reverse path)))).
  assert (path = pre ++ seg) as Hp.
  { unfold pre, seg. rewrite <- reverse_app, <- E. by rewrite reverse_involutive. }
  destruct (break_spec (N.eqb semicolon) seg) as (F & _ & G).
  destruct (break (N.eqb semicolon) seg) as [a [|c b]]; cbn [fst snd] in *.
  - right. rewrite app_nil_r in F. by rewrite Hp, F.
  - left. specialize (G c b eq_refl). apply N.eqb_eq in G as <-. by rewrite Hp, F, <- app_assoc.
Qed.

(** [urlparse] followed by [urlunparse] loses nothing but a trailing semicolon. *)
Lemma without_empty_params_path r :
  let r' := without_empty_params r in
  (u_path r' = u_path r ∨ u_path r = u_path r' ++ [semicolon]) ∧ u_scheme r' = u_scheme r ∧
  u_netloc r' = u_netloc r ∧ u_query r' = u_query r ∧ u_fragment r' = u_fragment r.
Proof.
  unfold without_empty_params. destruct (_ && _); [| auto].
  pose proof (split_params_text (u_path r)) as H. destruct (split_params (u_path r)) as [p ps].
  cbn in *. split_and!; [| done..]. destruct H as [H|[H ->]].
  - case_bool_decide as E; [right | left]; by rewrite H, ?E.
  - left. by rewrite bool_decide_true.
Qed.

Lemma without_empty_params_ok r : split_ok r → split_ok (without_empty_params r).
Proof.
  intros H. destruct (without_empty_params_path r) as (Hp & Es & En & Eq & Ef).
  destruct Hp as [Hp|Hp].
  { destruct (without_empty_params r), r. cbn in *. by subst. }
  destruct H as [? ? ? (Hq & Hh & Hs) ? (K1 & K2 & K3 & K4)].
  split; rewrite ?Es, ?En, ?Eq, ?Ef; try done.
  - rewrite Hp in Hq, Hh, Hs. rewrite not_elem_of_app in Hq, Hh. split_and!; [apply Hq | apply Hh |].
    destruct Hs as [Hs|(p & Hs)]; [by apply app_nil in Hs as [_ ?] |].
    destruct (u_path (without_empty_params r)) as [|x l]; [by left |]. right.
    injection Hs as -> _. eauto.
  - rewrite Hp in K2. apply Forall_app in K2 as [K2 _]. done.
Qed.

(** The characters of an encoded query. *)
Definition query_char (c : N) : bool := quoted_char c || (c =? 43) || (c =? 38) || (c =? 61).

Lemma quote_plus_chars s : Forall (λ c, quoted_char c || (c =? 43) = true) (quote_plus s).
Proof.
  unfold quote_plus. destruct (existsb (N.eqb 32) s).
  - apply Forall_forall. intros c (b & Hb & _)%list_elem_of_bind.
    destruct (b =? 32); [by apply list_elem_of_singleton in Hb as -> |].
    pose proof (quote_byte_chars b) as Hf. rewrite Forall_forall in Hf. by rewrite (Hf c Hb).
  - eapply Forall_impl; [apply quote_chars |]. intros c Hc. by rewrite Hc.
Qed.

Lemma urlencode_chars params : Forall (λ c, query_char c = true) (urlencode params).
Proof.
  unfold urlencode. assert (∀ kv : pystr * pystr, Forall (λ c, query_char c = true)
    (quote_plus (fst kv) ++ equals :: quote_plus (snd kv))) as Hkv.
  { intros kv. apply Forall_app. split; [| constructor; [done |]];
      (eapply Forall_impl; [apply quote_plus_chars |]); intros c Hc; unfold query_char;
      by rewrite Hc. }
  induction params as [|kv params IH]; [constructor |]. cbn [fmap list_fmap py_join].
  destruct params as [|kv' params]; [apply Hkv |]. cbn [fmap list_fmap py_join] in *.
  apply Forall_app. split; [apply Hkv |]. apply Forall_app. split; [by repeat constructor | exact IH].
Qed.

Lemma query_char_plain c :
  query_char c = true → c ≠ hash ∧ kept c.
Proof.
  intros H. split; [by intros -> |]. unfold kept, is_removed.
  repeat (apply orb_false_iff; split); apply N.eqb_neq; by intros ->.
Qed.

Definition query_and (existing addition : pystr) : pystr :=
  match existing with [] => addition | _ => existing ++ ampersand :: addition end.

Lemma query_and_Forall (P : N → Prop) a b :
  P ampersand → Forall P a → Forall P b → Forall P (query_and a b).
Proof.
  intros Hp Ha Hb. unfold query_and. destruct a; [done |]. apply Forall_app. split; [done |].
  by constructor.
Qed.

Lemma with_query_target url r params :
  urlsplit url = Ok r → u_scheme r ≠ [] → u_netloc r ≠ [] →
  ∃ out r', with_query url params = Ok out ∧ urlsplit out = Ok r' ∧
    u_scheme r' = u_scheme r ∧ u_netloc r' = u_netloc r ∧ u_fragment r' = u_fragment r ∧
    (u_path r' = u_path r ∨ u_path r = u_path r' ++ [semicolon]) ∧
    u_query r' = query_and (u_query r) (urlencode params).
Proof.
  intros Hr Hs Hn. pose proof (urlsplit_ok url r Hr Hs Hn) as Hok.
  pose proof (without_empty_params_ok r Hok) as Hok'.
  destruct (without_empty_params_path r) as (Hp & Es & En & Eq & Ef).
  unfold with_query. rewrite Hr. cbn [rbind].
  set (r1 := without_empty_params r) in *.
  set (r' := {| u_scheme := u_scheme r1; u_netloc := u_netloc r1; u_path := u_path r1;
                u_query := query_and (u_query r1) (urlencode params);
                u_fragment := u_fragment r1 |}).
  assert (split_ok r') as Hr'.
  { pose proof (urlencode_chars params) as Hu. rewrite Forall_forall in Hu.
    destruct Hok' as [? ? ? ? Hq (? & ? & K3 & ?)]. split; cbn; try done.
    - assert (Forall (λ c, c ≠ hash) (query_and (u_query r1) (urlencode params))) as Hf.
      { apply query_and_Forall; [done | |]; apply Forall_forall; [by intros c Hc -> |].
        intros c Hc. by apply query_char_plain, Hu. }
      rewrite Forall_forall in Hf. by intros ?%Hf.
    - split_and!; [done | done | | done]. apply query_and_Forall; [done | done |].
      apply Forall_forall. intros c Hc. by apply query_char_plain, Hu. }
  exists (text_of r'), r'. rewrite <- urlunsplit_text by done.
  split; [done |]. rewrite urlunsplit_text by done. split; [by apply urlsplit_text |].
  cbn. rewrite Eq. auto.
Qed.

Lemma py_split_nonempty sep s : py_split sep s ≠ [].
Proof. destruct s as [|c s]; cbn; [done |]. destruct (c =? sep); [done |]. by destruct (py_split sep s). Qed.

Lemma py_split_middle sep s t : py_split sep (s ++ sep :: t) = py_split sep s ++ py_split sep t.
Proof.
  induction s as [|c s IH]; cbn; [by rewrite N.eqb_refl |]. destruct (c =? sep); [by rewrite IH |].
  rewrite IH. destruct (py_split sep s) eqn:E; [by apply py_split_nonempty in E | done].
Qed.

Lemma parse_qsl_and q addition : parse_qsl (query_and q addition) = parse_qsl q ++ parse_qsl addition.
Proof.
  destruct q as [|c q]; [done |]. unfold query_and, parse_qsl. rewrite py_split_middle.
  apply omap_app.
Qed.

(** One parameter that [urlencode] writes is the one a parser reads. *)
Lemma parse_urlencode_one k v :
  quote k = k → plain_key k = true → 32 ∉ k → ascii_text v → v ≠ [] → 32 ∉ v →
  parse_qsl (urlencode [(k, v)]) = [(k, v)].
Proof.
  intros Hk Hpk Hsk Hv Hne Hsv.
  assert (∀ s, 32 ∉ s → quote_plus s = quote s) as Hq.
  { intros s Hs. unfold quote_plus. destruct (existsb (N.eqb 32) s) eqn:E; [| done].
    apply existsb_exists in E as (x & Hx%list_elem_of_In & <-%N.eqb_eq). done. }
  unfold urlencode. cbn [fmap list_fmap py_join fst snd]. rewrite !Hq, Hk by done.
  unfold parse_qsl. rewrite py_split_absent.
  - cbn [omap list_omap]. rewrite parse_item; [| done | by apply quote_nonempty | by apply quote_lacks].
    change (quote v) with ([] ++ quote v).
    rewrite unquote_quoted; [done | apply not_elem_of_nil | constructor | done].
  - rewrite not_elem_of_app, not_elem_of_cons. split_and!; [| done | by apply quote_lacks].
    rewrite <- Hk. by apply quote_lacks.
Qed.
End Urls.
