(* ===== verification/DeepLinks.v ===== *)
(** * Deep link destinations and user agents (mmp_core/deeplinks.py,
    mmp_tracker/useragent.py)

    The two regular expressions of [clean_path] are written as the functions they
    denote, [$] included, which also matches before a final newline. *)

From S2P Require Import Prelude Ids Keys Templates Referrer Urls.

#[local] Open Scope N_scope.
#[local] Open Scope mmp_scope.

Definition MAX_DESTINATION : nat := 512.

Definition backslash : N := 92.
Definition newline : N := 10.

(** The character class of [_SAFE_PATH]. *)
Definition safe_char (c : N) : bool :=
  is_alnum_ascii c || existsb (N.eqb c) (py "-._~/%!$&'()*+,;=:@[]?#").

(** [$]: the end of the text, or just before its final newline. *)
Definition at_end (s : pystr) : bool := bool_decide (s = []) || bool_decide (s = [newline]).

(** [p*$] from the current position. *)
Fixpoint all_to_end (p : N → bool) (s : pystr) : bool :=
  at_end s || match s with [] => true | c :: s' => p c && all_to_end p s' end.

(** [_SAFE_PATH.match]. *)
Definition safe_path (s : pystr) : bool :=
  match s with
  | c :: rest => (c =? slash) && negb (starts_with [slash] rest) && all_to_end safe_char rest
  | [] => false
  end.

(** [\.\.($|/)] at the current position. *)
Definition dots_here (s : pystr) : bool :=
  match s with
  | a :: b :: rest => (a =? 46) && (b =? 46) && (at_end rest || starts_with [slash] rest)
  | _ => false
  end.

(** [(^|/)\.\.($|/)] somewhere from the current position on, not at the start of the
    text. *)
Fixpoint slash_dots (s : pystr) : bool :=
  match s with
  | [] => false
  | c :: s' => ((c =? slash) && dots_here s') || slash_dots s'
  end.

(** [_TRAVERSAL.search], which ignores case. *)
Definition traversal (s : pystr) : bool :=
  dots_here s || slash_dots s || substring (py "%2e%2e") (lower_ascii <$> s) ||
  substring (py "%252e") (lower_ascii <$> s).

Definition is_control (c : N) : bool := (c <? 32) || (c =? 127).

(** [[A-Za-z0-9_-]{1,32}] in full. *)
Definition code_char (c : N) : bool := is_alnum_ascii c || (c =? 95) || (c =? 45).
Definition is_registered_code (raw : option pystr) : bool :=
  truthy raw &&
  let raw := default [] raw in
  (1 <=? length raw)%nat && (length raw <=? 32)%nat && forallb code_char raw.

Inductive Platform := UNKNOWN | ANDROID | IOS | WEB.

#[export] Instance platform_eq_dec : EqDecision Platform.
Proof. solve_decision. Defined.

Section DeepLinks.
Context {U : Unicode}.

Definition clean_path (raw : option pystr) : option pystr :=
  if negb (truthy raw) then None
  else
    let candidate := py_strip (default [] raw) in
    if bool_decide (candidate = []) || (MAX_DESTINATION <? length candidate)%nat then None
    else if existsb is_control candidate then None
    else if existsb (N.eqb backslash) candidate then None
    else if traversal candidate then None
    else if negb (safe_path candidate) then None
    else Some candidate.

(** ** mmp_tracker/useragent.py *)

Definition platform_code (p : Platform) : Z :=
  match p with UNKNOWN => 0 | ANDROID => 1 | IOS => 2 | WEB => 3 end.

Definition IOS_MARKERS : list pystr :=
  [py "iphone"; py "ipad"; py "ipod"; py "ios"; py "cfnetwork"].
Definition ANDROID_MARKERS : list pystr := [py "android"; py "dalvik"].
Definition BOT_MARKERS : list pystr :=
  [py "bot"; py "crawler"; py "spider"; py "scraper"; py "curl"; py "wget"; py "python-requests";
   py "httpclient"; py "okhttp/0"; py "java/"; py "go-http-client"; py "libwww";
   py "headlesschrome"; py "phantomjs"; py "slurp"; py "facebookexternalhit"; py "whatsapp";
   py "telegrambot"; py "preview"; py "monitoring"; py "uptime"; py "pingdom"; py "datadog"].

Definition any_marker (markers : list pystr) (s : pystr) : bool :=
  existsb (λ m, substring m s) markers.

Definition classify (user_agent : option pystr) : Platform * bool :=
  if negb (truthy user_agent) then (UNKNOWN, true)
  else
    let lowered := py_lower (default [] user_agent) in
    let is_bot := any_marker BOT_MARKERS lowered in
    if any_marker IOS_MARKERS lowered then (IOS, is_bot)
    else if any_marker ANDROID_MARKERS lowered then (ANDROID, is_bot)
    else (WEB, is_bot).

(** What follows the first occurrence of a text. *)
Fixpoint after (p s : pystr) : option pystr :=
  if starts_with p s then Some (drop (length p) s)
  else match s with [] => None | _ :: s' => after p s' end.

(** [s.split(sep)[0]]. *)
Definition before (sep : N) (s : pystr) : pystr := default [] (head (py_split sep s)).

Definition or_none (s : pystr) : option pystr := match s with [] => None | _ => Some s end.

Fixpoint ios_version (markers : list pystr) (lowered : pystr) : option pystr :=
  match markers with
  | [] => None
  | marker :: markers =>
      match after marker lowered with
      | Some tail => or_none (py_strip (py_replace (py "_") (py ".") (before 32 (take 10 tail))))
      | None => ios_version markers lowered
      end
  end.

Definition os_version (user_agent : option pystr) (platform : Platform) : option pystr :=
  if negb (truthy user_agent) then None
  else
    let lowered := py_lower (default [] user_agent) in
    match platform with
    | ANDROID =>
        match after (py "android ") lowered with
        | None => None
        | Some tail => or_none (py_strip (before 41 (before semicolon (take 8 tail))))
        end
    | IOS => ios_version [py "os "; py "cpu iphone os "] lowered
    | _ => None
    end.


(** ** Lemmas *)

Definition dotdot : pystr := [46; 46].

Lemma at_end_spec s : newline ∉ s → at_end s = true ↔ s = [].
Proof.
  intros Hn. unfold at_end. rewrite orb_true_iff, !bool_decide_eq_true. split; [| by left].
  intros [->| ->]; [done |]. exfalso. apply Hn. left.
Qed.

Lemma head_split_nil s : head (py_split slash s) = Some [] ↔ s = [] ∨ starts_with [slash] s = true.
Proof.
  destruct s as [|c s]; cbn [py_split starts_with]; [split; auto |].
  rewrite N.eqb_sym. destruct (slash =? c); cbn; [split; auto |].
  destruct (py_split slash s); naive_solver.
Qed.

Lemma head_split_cons c s w :
  head (py_split slash (c :: s)) = Some w ↔
  (c = slash ∧ w = []) ∨ (c ≠ slash ∧ ∃ w', w = c :: w' ∧ head (py_split slash s) = Some w').
Proof.
  cbn [py_split]. destruct (N.eqb_spec c slash) as [->|Hc]; cbn [head]; [naive_solver |].
  destruct (py_split slash s) as [|w0 ws] eqn:E; [by apply py_split_nonempty in E |].
  cbn. naive_solver.
Qed.

Lemma dots_here_spec s : newline ∉ s → dots_here s = true ↔ head (py_split slash s) = Some dotdot.
Proof.
  intros Hn. unfold dotdot. destruct s as [|a [|b rest]].
  - cbn. naive_solver.
  - rewrite head_split_cons. cbn. naive_solver.
  - cbn [dots_here]. rewrite !andb_true_iff, !N.eqb_eq, orb_true_iff.
    rewrite at_end_spec by (intros H; apply Hn; do 2 right; done).
    rewrite <- head_split_nil, head_split_cons.
    setoid_rewrite head_split_cons. split.
    + intros [[-> ->] Hr]. right. split; [done |]. exists [46]. split; [done |]. right.
      split; [done |]. eauto.
    + intros [[_ ?]|(Ha & w & [= <- <-] & [[_ ?]|(Hb & w' & [= <- <-] & Hr)])]; done.
Qed.

Lemma slash_dots_spec s : newline ∉ s → slash_dots s = true ↔ dotdot ∈ tail (py_split slash s).
Proof.
  induction s as [|c s IH]; intros Hn; [cbn; by rewrite elem_of_nil |].
  apply not_elem_of_cons in Hn as [_ Hn]. cbn [slash_dots py_split].
  rewrite orb_true_iff, andb_true_iff, N.eqb_eq, dots_here_spec, IH by done.
  destruct (N.eqb_spec c slash) as [->|Hc]; cbn [tail].
  - destruct (py_split slash s) as [|w ws] eqn:E; [by apply py_split_nonempty in E |].
    cbn [head tail]. rewrite elem_of_cons. naive_solver.
  - destruct (py_split slash s) as [|w ws] eqn:E; [by apply py_split_nonempty in E |].
    cbn [tail]. naive_solver.
Qed.

Lemma dots_spec s : newline ∉ s →
  dots_here s || slash_dots s = false ↔ dotdot ∉ py_split slash s.
Proof.
  intros Hn. rewrite <- not_true_iff_false, orb_true_iff, dots_here_spec, slash_dots_spec by done.
  destruct (py_split slash s) as [|w ws] eqn:E; [by apply py_split_nonempty in E |].
  cbn [head tail]. rewrite not_elem_of_cons. naive_solver.
Qed.

Lemma safe_char_plain c : safe_char c = true → is_control c = false ∧ c ≠ backslash ∧ c ≠ newline.
Proof.
  intros H. split_and!; [| by intros -> | by intros ->].
  unfold is_control. destruct (N.ltb_spec c 32) as [Hlt|_]; [exfalso | apply N.eqb_neq; by intros ->].
  assert (Forall (λ c, safe_char c = false) (N.of_nat <$> seq 0 32)) as Hall
    by (apply (bool_decide_unpack _); by vm_compute).
  rewrite Forall_forall in Hall. rewrite Hall in H; [done |]. apply list_elem_of_fmap.
  exists (N.to_nat c). rewrite elem_of_seq. lia.
Qed.

Lemma all_to_end_spec p s :
  newline ∉ s → all_to_end p s = true ↔ Forall (λ c, p c = true) s.
Proof.
  induction s as [|c s IH]; intros Hn; [cbn; split; [constructor | done] |].
  assert (at_end (c :: s) = false) as E.
  { apply not_true_iff_false. by rewrite at_end_spec. }
  cbn [all_to_end]. rewrite E. apply not_elem_of_cons in Hn as [_ Hn]. cbn [orb].
  by rewrite andb_true_iff, IH, Forall_cons.
Qed.

(** What a destination may be: one slash, then allowed characters, of bounded length, with
    no segment that climbs and no encoding of one. *)
Record safe_destination (p : pystr) : Prop := {
  sd_path : ∃ rest, p = slash :: rest ∧ starts_with [slash] rest = false;
  sd_chars : Forall (λ c, safe_char c = true) p;
  sd_length : (length p <= MAX_DESTINATION)%nat;
  sd_segments : dotdot ∉ py_split slash p;
  sd_encoded : substring (py "%2e%2e") (lower_ascii <$> p) = false ∧
    substring (py "%252e") (lower_ascii <$> p) = false
}.

Lemma safe_chars_newline p : Forall (λ c, safe_char c = true) p → newline ∉ p.
Proof. rewrite Forall_forall. intros H Hin. by destruct (safe_char_plain _ (H _ Hin)) as (_ & _ & ?). Qed.

Lemma no_control_newline p : existsb is_control p = false → newline ∉ p.
Proof.
  intros H Hin. assert (existsb is_control p = true); [| congruence].
  apply existsb_exists. exists newline. by rewrite <- list_elem_of_In.
Qed.

Lemma clean_path_spec raw p :
  clean_path raw = Some p ↔ (∃ s, raw = Some s ∧ p = py_strip s) ∧ safe_destination p.
Proof.
  unfold clean_path. destruct raw as [[|c0 s0]|]; cbn [truthy negb default].
  { split; [done |]. intros [(s & [= <-] & ->) [(r & ? & _) _ _ _ _]]. done. }
  2: { split; [done |]. by intros [(s & ? & _) _]. }
  set (q := py_strip (c0 :: s0)). change (py_strip (id (c0 :: s0))) with q. split.
  - case_bool_decide as E0; [done |]. cbn [orb]. destruct (Nat.ltb_spec MAX_DESTINATION (length q)); [done |].
    destruct (existsb is_control q) eqn:E1; [done |]. destruct (existsb (N.eqb backslash) q); [done |].
    destruct (traversal q) eqn:E2; [done |]. destruct (safe_path q) eqn:E3; [| done]. intros [= <-].
    split; [by exists (c0 :: s0) |]. pose proof (no_control_newline q E1) as Hn.
    unfold traversal in E2. rewrite <- !orb_assoc in E2.
    rewrite orb_assoc in E2. apply orb_false_iff in E2 as [E2 [E4 E5]%orb_false_iff].
    unfold safe_path in E3. destruct q as [|c rest]; [done |].
    apply andb_true_iff in E3 as [[->%N.eqb_eq E6%negb_true_iff]%andb_true_iff E7].
    apply all_to_end_spec in E7; [| by apply not_elem_of_cons in Hn as [_ ?]].
    split; [by exists rest | by constructor | lia | by apply dots_spec | done].
  - intros [(s & [= <-] & ->) [(rest & Er & Hd) Hc Hl Hs [He1 He2]]].
    fold q in Er, Hc, Hl, Hs, He1, He2. pose proof (safe_chars_newline q Hc) as Hn.
    rewrite bool_decide_false by (by rewrite Er). cbn [orb].
    destruct (Nat.ltb_spec MAX_DESTINATION (length q)); [lia |].
    assert (∀ f, (∀ c, safe_char c = true → f c = false) → existsb f q = false) as Hf.
    { intros f Hf. apply not_true_iff_false. intros (x & Hx%list_elem_of_In & Fx)%existsb_exists.
      rewrite Forall_forall in Hc. by rewrite (Hf x (Hc x Hx)) in Fx. }
    rewrite Hf by (intros c ?; by apply safe_char_plain).
    rewrite Hf by (intros c ?; apply N.eqb_neq; intros <-; by apply (safe_char_plain backslash)).
    unfold traversal. rewrite (proj2 (dots_spec q Hn) Hs), He1, He2. cbn [orb].
    assert (safe_path q = true) as ->; [| done]. unfold safe_path. rewrite Er, N.eqb_refl, Hd.
    rewrite Er in Hn, Hc. apply not_elem_of_cons in Hn as [_ Hn]. apply Forall_cons in Hc as [_ Hc].
    by rewrite (proj2 (all_to_end_spec safe_char rest Hn) Hc).
Qed.

Lemma clean_path_safe raw p : clean_path raw = Some p → safe_destination p.
Proof. by intros [_ H]%clean_path_spec. Qed.

(** [clean_path] accepts exactly the safe destinations: the trimmed text is returned
    unchanged when it is one, and nothing is returned otherwise. *)
Theorem clean_path_exact raw p :
  clean_path raw = Some p ↔ (∃ s, raw = Some s ∧ p = py_strip s) ∧ safe_destination p.
Proof. exact (clean_path_spec raw p). Qed.

(** An accepted destination names no scheme and no host: split as a URL, it is a path
    of the app it is handed to. *)
Theorem clean_path_stays_in_the_app `{NetlocCheck} raw p :
  clean_path raw = Some p →
  ∃ r, urlsplit p = Ok r ∧ u_scheme r = [] ∧ u_netloc r = [] ∧
    ∃ rest, u_path r = slash :: rest ∧ starts_with [slash] rest = false.
Proof.
  intros [(rest & -> & Hd) Hc _ _ _]%clean_path_safe. unfold urlsplit.
  rewrite lstrip_head by done.
  assert (List.filter (λ c, negb (is_removed c)) (slash :: rest) = slash :: rest) as ->.
  { apply lfilter_all. eapply Forall_impl; [exact Hc |]. intros c Hcc.
    destruct (safe_char_plain c Hcc) as (Hctl & _ & _). apply negb_true_iff.
    unfold is_removed. unfold is_control in Hctl. apply orb_false_iff in Hctl as [Hctl%N.ltb_ge _].
    repeat (apply orb_false_iff; split); apply N.eqb_neq; lia. }
  assert (split_scheme (slash :: rest) = ([], slash :: rest)) as ->.
  { unfold split_scheme. cbn [break]. change (colon =? slash) with false. cbn [fst snd].
    by destruct (snd (break (N.eqb colon) rest)). }
  assert (split_netloc (slash :: rest) = ([], slash :: rest)) as ->.
  { destruct rest as [|b rest]; [done |]. cbn [split_netloc starts_with] in *.
    rewrite andb_true_r, N.eqb_sym in Hd. by rewrite Hd. }
  cbn [plain_netloc ascii_str forallb andb orb negb].
  destruct (split_once hash (slash :: rest)) as [u f] eqn:E1.
  destruct (split_once question u) as [pp q] eqn:E2. eexists. split; [done |]. cbn.
  split_and!; [done | done |].
  assert (∀ sep a b s, sep ≠ slash → starts_with [slash] s = false →
    split_once sep (slash :: s) = (a, b) → ∃ s', a = slash :: s' ∧ starts_with [slash] s' = false) as Hpre.
  { intros sep a b s Hsep Hs E. unfold split_once in E.
    destruct (break_spec (N.eqb sep) (slash :: s)) as (Ea & _).
    assert (a = fst (break (N.eqb sep) (slash :: s))) as ->.
    { destruct (break (N.eqb sep) (slash :: s)) as [x [|y z]]; cbn; congruence. }
    cbn [break] in *. apply N.eqb_neq in Hsep. rewrite Hsep in *. cbn [fst snd app] in *.
    eexists. split; [done |]. injection Ea as Ea. rewrite Ea in Hs.
    destruct (fst (break (N.eqb sep) s)); [done | exact Hs]. }
  destruct (Hpre hash u f rest ltac:(done) Hd E1) as (s' & -> & Hs').
  by apply (Hpre question pp q s' ltac:(done) Hs' E2).
Qed.
End DeepLinks.

(** ** Witnesses *)

Lemma clean_path_exact_witness :
  clean_path (U := ascii_unicode) (Some (py " /shoes/42?size=9#top ")) = Some (py "/shoes/42?size=9#top").
Proof.
  apply (@clean_path_exact ascii_unicode). split.
  - exists (py " /shoes/42?size=9#top "). split; [reflexivity | vm_compute; reflexivity].
  - split.
    + exists (py "shoes/42?size=9#top"). split; vm_compute; reflexivity.
    + apply (bool_decide_unpack _). by vm_compute.
    + vm_compute. lia.
    + apply (bool_decide_unpack _). by vm_compute.
    + split; vm_compute; reflexivity.
Defined.

Definition no_netloc : NetlocCheck := {| netloc_check := λ _, false |}.

Lemma clean_path_stays_in_the_app_witness :
  ∃ r, @urlsplit no_netloc (py "/a:b@c/d") = Ok r ∧ u_scheme r = [] ∧ u_netloc r = [].
Proof.
  destruct (@clean_path_stays_in_the_app ascii_unicode no_netloc (Some (py "/a:b@c/d"))
    (py "/a:b@c/d") ltac:(vm_compute; reflexivity)) as (r & E & Hs & Hn & _).
  exists r. split; [exact E |]. split; [exact Hs | exact Hn].
Defined.

(** ** What the code does beyond its documentation *)

(** A parent segment with one of its dots percent-encoded is accepted, and is one once the
    app decodes it. *)
Lemma half_encoded_dots_are_accepted :
  clean_path (U := ascii_unicode) (Some (py "/a/.%2e/.%2e/b")) = Some (py "/a/.%2e/.%2e/b") ∧
  unquote (py "/a/.%2e/.%2e/b") = py "/a/../../b".
Proof. split; vm_compute; reflexivity. Qed.

(** Markers are searched anywhere: a phone of the make Cubot is flagged as a bot, and an
    Android kiosk browser is sent to the App Store. *)
Lemma markers_match_inside_words :
  classify (U := ascii_unicode) (Some (py "Mozilla/5.0 (Linux; Android 12; CUBOT P60)")) = (ANDROID, true) ∧
  classify (U := ascii_unicode) (Some (py "Mozilla/5.0 (Linux; Android 12) Fully Kiosk Browser")) = (IOS, false).
Proof. split; vm_compute; reflexivity. Qed.
