(* ===== verification/LinkCache.v ===== *)
(** * The tracking-link cache (mmp_tracker/linkcache.py)

    The dicts of one tracker process and every operation on them.  An operation that
    awaits Postgres is split where it awaits: what it fetches is a function of the
    database at that moment, and what it does afterwards a function of the rows it got,
    so that [cache_step] interleaves any number of reloads, resyncs and lookups with
    writes to the database and with each other. *)

From S2P Require Import Prelude Ids.

#[local] Open Scope Z_scope.
#[local] Open Scope mmp_scope.

Definition RESYNC_INTERVAL : timedelta := 5 * minute.
Definition NEGATIVE_TTL : timedelta := 30 * second.

(** ** The tables the queries read *)

Record LinkRow := {
  lr_id : uuid;
  lr_tracking_code : pystr;
  lr_organization_id : uuid;
  lr_app_id : uuid;
  lr_campaign_id : option uuid;
  lr_android_url : option pystr;
  lr_ios_url : option pystr;
  lr_fallback_url : pystr;
  lr_deep_link_path : option pystr;
  lr_status : pystr
}.

Record DeepRow := {
  dr_app_id : uuid;
  dr_code : pystr;
  dr_destination : pystr;
  dr_fallback_url : pystr
}.

Record Db := {
  db_links : list LinkRow;
  db_apps : list (uuid * pystr);
  db_deep : list DeepRow
}.

(** The constraints: unique tracking codes, one row per app, unique codes of an app, and
    the foreign keys to apps. *)
Record db_ok (d : Db) : Prop := {
  dok_codes : NoDup (lr_tracking_code <$> db_links d);
  dok_deep : NoDup ((λ r, (dr_app_id r, dr_code r)) <$> db_deep d);
  dok_links_app : ∀ r, r ∈ db_links d → is_Some (od_get (lr_app_id r) (db_apps d)) ∧ uuid_ok (lr_app_id r);
  dok_deep_app : ∀ r, r ∈ db_deep d → is_Some (od_get (dr_app_id r) (db_apps d)) ∧ uuid_ok (dr_app_id r)
}.

Definition app_active (d : Db) (app : uuid) : bool :=
  bool_decide (od_get app (db_apps d) = Some (py "active")).

(** [JOIN apps a ON a.id = l.app_id]: a row with its [app_status]. *)
Definition joined (d : Db) : list (LinkRow * pystr) :=
  omap (λ r, s ← od_get (lr_app_id r) (db_apps d); Some (r, s)) (db_links d).

Definition load_one (d : Db) (code : pystr) : option (LinkRow * pystr) :=
  List.find (λ rs, bool_decide (lr_tracking_code (fst rs) = code)) (joined d).

Definition load_active (d : Db) : list (LinkRow * pystr) :=
  List.filter (λ rs, bool_decide (lr_status (fst rs) = py "active") &&
                     bool_decide (snd rs = py "active")) (joined d).

Definition load_app_links (d : Db) (app : uuid) : list (LinkRow * pystr) :=
  List.filter (λ rs, N.eqb (lr_app_id (fst rs)) app) (joined d).

Definition load_deep_links_for_app (d : Db) (app : uuid) : list DeepRow :=
  List.filter (λ r, N.eqb (dr_app_id r) app) (db_deep d).

Definition load_deep_links (d : Db) : list DeepRow :=
  List.filter (λ r, app_active d (dr_app_id r)) (db_deep d).

(** ** The cache *)

Record DeepLinkTarget := { dt_destination : pystr; dt_fallback_url : pystr }.

Record CachedLink := {
  cl_id : pystr;
  cl_organization_id : pystr;
  cl_app_id : pystr;
  cl_campaign_id : option pystr;
  cl_android_url : option pystr;
  cl_ios_url : option pystr;
  cl_fallback_url : pystr;
  cl_deep_link_path : option pystr;
  cl_active : bool
}.

Definition to_link (rs : LinkRow * pystr) : CachedLink :=
  let row := fst rs in
  {| cl_id := str_of_uuid (lr_id row);
     cl_organization_id := str_of_uuid (lr_organization_id row);
     cl_app_id := str_of_uuid (lr_app_id row);
     cl_campaign_id := str_of_uuid <$> lr_campaign_id row;
     cl_android_url := lr_android_url row;
     cl_ios_url := lr_ios_url row;
     cl_fallback_url := lr_fallback_url row;
     cl_deep_link_path := lr_deep_link_path row;
     cl_active := bool_decide (lr_status row = py "active") && bool_decide (snd rs = py "active") |}.

Record LinkCache := {
  lc_links : gmap (list N) CachedLink;
  lc_deep : gmap (list N * list N) DeepLinkTarget;
  lc_missing : gmap (list N) datetime;
  lc_loads : Z;
  lc_notifications : Z;
  lc_resyncs : Z
}.

Definition empty_cache : LinkCache :=
  {| lc_links := ∅; lc_deep := ∅; lc_missing := ∅; lc_loads := 0; lc_notifications := 0;
     lc_resyncs := 0 |}.

Definition set_links (l : gmap (list N) CachedLink) (c : LinkCache) : LinkCache :=
  {| lc_links := l; lc_deep := lc_deep c; lc_missing := lc_missing c; lc_loads := lc_loads c;
     lc_notifications := lc_notifications c; lc_resyncs := lc_resyncs c |}.

Definition set_missing (m : gmap (list N) datetime) (c : LinkCache) : LinkCache :=
  {| lc_links := lc_links c; lc_deep := lc_deep c; lc_missing := m; lc_loads := lc_loads c;
     lc_notifications := lc_notifications c; lc_resyncs := lc_resyncs c |}.

(** The loop that fills a dict with the active links among some rows. *)
Definition add_active (rows : list (LinkRow * pystr)) (links : gmap (list N) CachedLink)
    : gmap (list N) CachedLink :=
  fold_left (λ m rs,
    let link := to_link rs in
    if cl_active link then <[lr_tracking_code (fst rs) := link]> m else m) rows links.

Definition add_deep (rows : list DeepRow) (deep : gmap (list N * list N) DeepLinkTarget)
    : gmap (list N * list N) DeepLinkTarget :=
  fold_left (λ m r,
    <[(str_of_uuid (dr_app_id r), dr_code r) :=
        {| dt_destination := dr_destination r; dt_fallback_url := dr_fallback_url r |}]> m) rows deep.

(** [resync], once its two queries returned. *)
Definition resync (rows : list (LinkRow * pystr)) (deep_rows : list DeepRow) (c : LinkCache) : LinkCache :=
  {| lc_links := add_active rows ∅; lc_deep := add_deep deep_rows ∅; lc_missing := ∅;
     lc_loads := lc_loads c; lc_notifications := lc_notifications c;
     lc_resyncs := lc_resyncs c + 1 |}.

(** [_reload_one], once its query returned. *)
Definition reload_one (code : pystr) (row : option (LinkRow * pystr)) (c : LinkCache) : LinkCache :=
  match row with
  | None => set_links (delete code (lc_links c)) c
  | Some rs =>
      if cl_active (to_link rs) then set_links (<[code := to_link rs]> (lc_links c)) c
      else set_links (delete code (lc_links c)) c
  end.

(** [_reload_app_links], once its query returned. *)
Definition reload_app_links (app_id : pystr) (rows : list (LinkRow * pystr)) (c : LinkCache) : LinkCache :=
  let remaining := filter (λ kv : list N * CachedLink, cl_app_id (snd kv) ≠ app_id) (lc_links c) in
  set_links (add_active rows remaining) c.

(** [_reload_deep_links], once its query returned. *)
Definition reload_deep_links (app_id : pystr) (rows : list DeepRow) (c : LinkCache) : LinkCache :=
  let remaining := filter (λ kv : (list N * list N) * DeepLinkTarget, fst (fst kv) ≠ app_id) (lc_deep c) in
  {| lc_links := lc_links c; lc_deep := add_deep rows remaining; lc_missing := lc_missing c;
     lc_loads := lc_loads c; lc_notifications := lc_notifications c; lc_resyncs := lc_resyncs c |}.

Definition get (c : LinkCache) (code : pystr) : option CachedLink := lc_links c !! code.

Definition deep_link (c : LinkCache) (app_id code : pystr) : option DeepLinkTarget :=
  lc_deep c !! (app_id, code).

Definition is_known_missing (c : LinkCache) (now : datetime) (code : pystr) : bool * LinkCache :=
  match lc_missing c !! code with
  | None => (false, c)
  | Some expiry =>
      if now >? expiry then (false, set_missing (delete code (lc_missing c)) c) else (true, c)
  end.

(** [load_missing], once its query returned. *)
Definition load_missing (now : datetime) (code : pystr) (row : option (LinkRow * pystr))
    (c : LinkCache) : option CachedLink * LinkCache :=
  let c := {| lc_links := lc_links c; lc_deep := lc_deep c; lc_missing := lc_missing c;
              lc_loads := lc_loads c + 1; lc_notifications := lc_notifications c;
              lc_resyncs := lc_resyncs c |} in
  let miss := (None, set_missing (<[code := now + NEGATIVE_TTL]> (lc_missing c)) c) in
  match row with
  | None => miss
  | Some rs =>
      if cl_active (to_link rs)
      then (Some (to_link rs), set_links (<[code := to_link rs]> (lc_links c)) c)
      else miss
  end.

Definition count_notification (c : LinkCache) : LinkCache :=
  {| lc_links := lc_links c; lc_deep := lc_deep c; lc_missing := lc_missing c;
     lc_loads := lc_loads c; lc_notifications := lc_notifications c + 1;
     lc_resyncs := lc_resyncs c |}.

(** [_on_notify], before the task it starts. *)
Definition on_notify (payload : pystr) (c : LinkCache) : LinkCache :=
  let c := count_notification c in set_missing (delete payload (lc_missing c)) c.

(** ** Tasks in flight *)

(** A task between its start and its end.  [resync] awaits twice. *)
Inductive Task :=
| ReloadOne (code : pystr)
| ReloadedOne (code : pystr) (row : option (LinkRow * pystr))
| ReloadApp (app_id : pystr)
| ReloadedApp (app_id : pystr) (rows : list (LinkRow * pystr))
| ReloadDeep (app_id : pystr)
| ReloadedDeep (app_id : pystr) (rows : list DeepRow)
| Resync
| ResyncLinks (rows : list (LinkRow * pystr))
| Resynced (rows : list (LinkRow * pystr)) (deep_rows : list DeepRow)
| LoadMissing (code : pystr)
| LoadedMissing (code : pystr) (row : option (LinkRow * pystr)).

Section Tasks.
Context {U : Unicode}.

(** The next query of a task; [None] when it raises ([uuid.UUID] of the payload) or has
    no query left. *)
Definition fetch (d : Db) (t : Task) : option Task :=
  match t with
  | ReloadOne code => Some (ReloadedOne code (load_one d code))
  | ReloadApp app_id => u ← uuid_of_str app_id; Some (ReloadedApp app_id (load_app_links d u))
  | ReloadDeep app_id => u ← uuid_of_str app_id; Some (ReloadedDeep app_id (load_deep_links_for_app d u))
  | Resync => Some (ResyncLinks (load_active d))
  | ResyncLinks rows => Some (Resynced rows (load_deep_links d))
  | LoadMissing code => Some (LoadedMissing code (load_one d code))
  | _ => None
  end.

(** The end of a task that has all its rows. *)
Definition finish (now : datetime) (t : Task) (c : LinkCache) : option LinkCache :=
  match t with
  | ReloadedOne code row => Some (reload_one code row c)
  | ReloadedApp app_id rows => Some (reload_app_links app_id rows c)
  | ReloadedDeep app_id rows => Some (reload_deep_links app_id rows c)
  | Resynced rows deep_rows => Some (resync rows deep_rows c)
  | LoadedMissing code row => Some (snd (load_missing now code row c))
  | _ => None
  end.

Record Process := { ps_db : Db; ps_cache : LinkCache; ps_tasks : list Task }.

(** Steps that leave the database alone: a task starts, one of its queries returns, it
    ends, or it dies; a notification arrives; a redirect looks a negative entry up. *)
Inductive quiet_step : Process → Process → Prop :=
| step_notify_link d c ts code :
    quiet_step {| ps_db := d; ps_cache := c; ps_tasks := ts |}
      {| ps_db := d; ps_cache := on_notify code c; ps_tasks := ReloadOne code :: ts |}
| step_notify_app d c ts app_id :
    quiet_step {| ps_db := d; ps_cache := c; ps_tasks := ts |}
      {| ps_db := d; ps_cache := count_notification c; ps_tasks := ReloadApp app_id :: ts |}
| step_notify_deep d c ts app_id :
    quiet_step {| ps_db := d; ps_cache := c; ps_tasks := ts |}
      {| ps_db := d; ps_cache := count_notification c; ps_tasks := ReloadDeep app_id :: ts |}
| step_resync d c ts :
    quiet_step {| ps_db := d; ps_cache := c; ps_tasks := ts |}
      {| ps_db := d; ps_cache := c; ps_tasks := Resync :: ts |}
| step_miss d c ts now code :
    get c code = None → fst (is_known_missing c now code) = false →
    quiet_step {| ps_db := d; ps_cache := c; ps_tasks := ts |}
      {| ps_db := d; ps_cache := snd (is_known_missing c now code);
         ps_tasks := LoadMissing code :: ts |}
| step_fetch d c ts1 ts2 t t' :
    fetch d t = Some t' →
    quiet_step {| ps_db := d; ps_cache := c; ps_tasks := ts1 ++ t :: ts2 |}
      {| ps_db := d; ps_cache := c; ps_tasks := ts1 ++ t' :: ts2 |}
| step_finish d c c' ts1 ts2 t now :
    finish now t c = Some c' →
    quiet_step {| ps_db := d; ps_cache := c; ps_tasks := ts1 ++ t :: ts2 |}
      {| ps_db := d; ps_cache := c'; ps_tasks := ts1 ++ ts2 |}
| step_die d c ts1 ts2 t :
    quiet_step {| ps_db := d; ps_cache := c; ps_tasks := ts1 ++ t :: ts2 |}
      {| ps_db := d; ps_cache := c; ps_tasks := ts1 ++ ts2 |}.

(** Any step: the API may also write. *)
Inductive cache_step : Process → Process → Prop :=
| step_quiet s s' : quiet_step s s' → cache_step s s'
| step_write d d' c ts :
    db_ok d' →
    cache_step {| ps_db := d; ps_cache := c; ps_tasks := ts |}
      {| ps_db := d'; ps_cache := c; ps_tasks := ts |}.


(** ** Lemmas *)

Definition active_in (rows : list (LinkRow * pystr)) (code : pystr) (link : CachedLink) : Prop :=
  ∃ rs, rs ∈ rows ∧ lr_tracking_code (fst rs) = code ∧ to_link rs = link ∧ cl_active link = true.

Definition codes (rows : list (LinkRow * pystr)) : list pystr := (λ rs, lr_tracking_code (fst rs)) <$> rows.

Lemma add_active_lookup rows m code link :
  NoDup (codes rows) →
  add_active rows m !! code = Some link ↔
  active_in rows code link ∨
  ((∀ link', ¬ active_in rows code link') ∧ m !! code = Some link).
Proof.
  unfold add_active. revert m. induction rows as [|rs rows IH]; intros m Hn; cbn [fold_left].
  { split; [intros H; right; split; [| done] |].
    - by intros link' (rs & ?%elem_of_nil & _).
    - by intros [(rs & ?%elem_of_nil & _)|[_ ?]]. }
  cbn [codes fmap list_fmap] in Hn. apply NoDup_cons in Hn as [Hrs Hn]. rewrite IH by done. clear IH.
  assert (∀ link', active_in rows (lr_tracking_code (fst rs)) link' → False) as Hno.
  { intros link' (rs' & Hin & E & _). apply Hrs. rewrite <- E. by apply list_elem_of_fmap_2'
      with (f := λ rs, lr_tracking_code (fst rs)) (x := rs'). }
  assert (∀ code link, active_in (rs :: rows) code link ↔ active_in rows code link ∨
    (lr_tracking_code (fst rs) = code ∧ to_link rs = link ∧ cl_active link = true)) as Hcons.
  { intros code' link'. split.
    - intros (rs' & [->|Hin]%elem_of_cons & H); [by right | left; by exists rs'].
    - intros [(rs' & Hin & H)|H]; [exists rs' | exists rs]; rewrite elem_of_cons; auto. }
  setoid_rewrite Hcons. destruct (cl_active (to_link rs)) eqn:Ha.
  - destruct (decide (lr_tracking_code (fst rs) = code)) as [<-|Hne].
    + rewrite lookup_insert_eq. split; [intros [?|[_ [= <-]]]; auto |].
      intros [[H|(_ & <- & _)]|[H _]]; [by destruct (Hno _ H) | by right |].
      exfalso. by apply (H (to_link rs)); right.
    + rewrite lookup_insert_ne by done. naive_solver.
  - naive_solver congruence.
Qed.

Definition target_of (r : DeepRow) : DeepLinkTarget :=
  {| dt_destination := dr_destination r; dt_fallback_url := dr_fallback_url r |}.

Definition deep_key (r : DeepRow) : list N * list N := (str_of_uuid (dr_app_id r), dr_code r).

Lemma add_deep_lookup rows m k t :
  NoDup (deep_key <$> rows) →
  add_deep rows m !! k = Some t ↔
  (∃ r, r ∈ rows ∧ deep_key r = k ∧ target_of r = t) ∨ (k ∉ deep_key <$> rows ∧ m !! k = Some t).
Proof.
  unfold add_deep. revert m. induction rows as [|r rows IH]; intros m Hn; cbn [fold_left].
  { split; [intros H; right; split; [apply not_elem_of_nil | done] |].
    by intros [(r & ?%elem_of_nil & _)|[_ ?]]. }
  rewrite fmap_cons in Hn. apply NoDup_cons in Hn as [Hr Hn]. rewrite IH by done. clear IH.
  fold (deep_key r) (target_of r). rewrite fmap_cons, not_elem_of_cons.
  assert ((∃ r0, r0 ∈ r :: rows ∧ deep_key r0 = k ∧ target_of r0 = t) ↔
    (∃ r0, r0 ∈ rows ∧ deep_key r0 = k ∧ target_of r0 = t) ∨ (deep_key r = k ∧ target_of r = t)) as ->.
  { split.
    - intros (r' & [->|Hin]%elem_of_cons & H); [by right | left; by exists r'].
    - intros [(r' & Hin & H)|H]; [exists r' | exists r]; rewrite elem_of_cons; auto. }
  destruct (decide (deep_key r = k)) as [<-|Hne].
  - rewrite lookup_insert_eq. split.
    + intros [?|[_ [= <-]]]; [by left; left | by left; right].
    + intros [[?|[_ <-]]|[[? _] _]]; [by left | by right | done].
  - rewrite lookup_insert_ne by done. split.
    + intros [?|[? ?]]; [by left; left | right; auto].
    + intros [[?|[? _]]|[[_ ?] ?]]; [by left | done | by right].
Qed.

Section Coherence.
Variable d : Db.
Hypothesis Hd : db_ok d.

Lemma joined_elem rs :
  rs ∈ joined d ↔ fst rs ∈ db_links d ∧ od_get (lr_app_id (fst rs)) (db_apps d) = Some (snd rs).
Proof.
  unfold joined. rewrite list_elem_of_omap. destruct rs as [r s]. cbn [fst snd]. split.
  - intros (r' & Hr & E). destruct (od_get (lr_app_id r') (db_apps d)) as [s'|] eqn:Es; [| done].
    cbn in E. injection E as <- <-. auto.
  - intros [Hr E]. exists r. by rewrite E.
Qed.

Lemma joined_codes : NoDup (codes (joined d)).
Proof.
  pose proof (dok_codes d Hd) as Hn. unfold joined. induction (db_links d) as [|r l IH]; [constructor |].
  rewrite fmap_cons in Hn. apply NoDup_cons in Hn as [Hr Hn]. cbn [omap list_omap].
  destruct (od_get (lr_app_id r) (db_apps d)) as [s|]; cbn [mbind option_bind]; [| by apply IH].
  unfold codes. rewrite fmap_cons. apply NoDup_cons. split; [| by apply IH].
  intros ([r' s'] & E & Hin)%list_elem_of_fmap. apply Hr. cbn in E. rewrite E.
  apply list_elem_of_omap in Hin as (r'' & Hin & E'). destruct (od_get _ _); [| done].
  cbn in E'. injection E' as -> _. by apply list_elem_of_fmap_2.
Qed.

Lemma deep_keys : NoDup (deep_key <$> db_deep d).
Proof.
  pose proof (dok_deep d Hd) as Hn. apply NoDup_fmap_2_strong; [| by eapply NoDup_fmap_1].
  intros x y Hx Hy E. apply (NoDup_fmap_elem _ _ _ _ Hn Hx Hy).
  pose proof (f_equal fst E) as E1. pose proof (f_equal snd E) as E2. cbn [deep_key fst snd] in E1, E2.
  f_equal; [| exact E2].
  apply str_of_uuid_inj; [by apply (dok_deep_app d Hd) | by apply (dok_deep_app d Hd) | exact E1].
Qed.

Lemma load_one_spec code rs :
  load_one d code = Some rs ↔ rs ∈ joined d ∧ lr_tracking_code (fst rs) = code.
Proof.
  unfold load_one. split.
  - intros [? ?%bool_decide_eq_true]%find_elem. auto.
  - intros [Hin E]. apply find_unique; [| done | by apply bool_decide_eq_true].
    intros a b Ha Hb Ea%bool_decide_eq_true Eb%bool_decide_eq_true.
    apply (NoDup_fmap_elem _ _ a b joined_codes Ha Hb). congruence.
Qed.

(** What a redirect can ask the cache for: a tracking code, or a code of an app. *)
Inductive Key := KLink (code : pystr) | KDeep (k : list N * list N).

(** The cache shows the database under one key: a link exactly when it is active, a deep
    link only if it is in the table, and then at least while its app is active. *)
Definition right (c : LinkCache) (k : Key) : Prop :=
  match k with
  | KLink code => ∀ link, get c code = Some link ↔ active_in (joined d) code link
  | KDeep k =>
      (∀ t, lc_deep c !! k = Some t → ∃ r, r ∈ db_deep d ∧ deep_key r = k ∧ target_of r = t) ∧
      (∀ r, r ∈ db_deep d → deep_key r = k → app_active d (dr_app_id r) = true → lc_deep c !! k = Some (target_of r))
  end.

(** The cache shows the database: its links are exactly the active ones, its deep links
    are rows of the table, and it has those of every active app. *)
Record coherent (c : LinkCache) : Prop := {
  co_links : ∀ code link, get c code = Some link ↔ active_in (joined d) code link;
  co_deep_sound : ∀ k t, lc_deep c !! k = Some t →
    ∃ r, r ∈ db_deep d ∧ deep_key r = k ∧ target_of r = t;
  co_deep_complete : ∀ r, r ∈ db_deep d → app_active d (dr_app_id r) = true →
    lc_deep c !! deep_key r = Some (target_of r)
}.

Lemma coherent_right c : coherent c ↔ ∀ k, right c k.
Proof.
  split.
  - intros [Hl Hs Hk] [code|k]; [exact (Hl code) |]. split; [exact (Hs k) |]. intros r Hr <-. by apply Hk.
  - intros H. split.
    + intros code. apply (H (KLink code)).
    + intros k t. apply (H (KDeep k)).
    + intros r Hr. by apply (H (KDeep (deep_key r))).
Qed.

Lemma right_ext c c' k :
  lc_links c' = lc_links c → lc_deep c' = lc_deep c → right c k → right c' k.
Proof. intros El Ed. destruct k; unfold right, get; rewrite ?El, ?Ed; exact id. Qed.

Lemma active_in_active code link :
  active_in (load_active d) code link ↔ active_in (joined d) code link.
Proof.
  split; intros (rs & Hin & E & El & Ha); exists rs; (split; [| done]).
  - by apply elem_of_lfilter in Hin as [? _].
  - apply elem_of_lfilter. split; [done |]. by rewrite <- El in Ha.
Qed.

(** The two halves of a resync stand on their own queries. *)
Lemma resync_links_right deep_rows c code : right (resync (load_active d) deep_rows c) (KLink code).
Proof.
  intros link. unfold get. cbn [resync lc_links]. rewrite add_active_lookup by (apply NoDup_fmap_filter, joined_codes).
  rewrite active_in_active. rewrite lookup_empty. split; [intros [?|[_ ?]]; done | by left].
Qed.

Lemma resync_deep_right rows c k : right (resync rows (load_deep_links d) c) (KDeep k).
Proof.
  split; cbn [resync lc_deep].
  - intros t. rewrite add_deep_lookup by (apply NoDup_fmap_filter, deep_keys).
    intros [(r & [Hin _]%elem_of_lfilter & E)|[_ H]]; [by exists r | by rewrite lookup_empty in H].
  - intros r Hin Ek Ha. apply add_deep_lookup; [apply NoDup_fmap_filter, deep_keys |].
    left. exists r. split; [by apply elem_of_lfilter | done].
Qed.

Lemma resync_right c k : right (resync (load_active d) (load_deep_links d) c) k.
Proof. destruct k; [apply resync_links_right | apply resync_deep_right]. Qed.

Lemma active_in_unique code link link' :
  active_in (joined d) code link → active_in (joined d) code link' → link = link'.
Proof.
  intros (rs & Hin & E & <- & _) (rs' & Hin' & E' & <- & _). f_equal.
  apply (NoDup_fmap_elem _ _ rs rs' joined_codes Hin Hin'). congruence.
Qed.

(** The one link a code can stand for. *)
Lemma active_in_load_one code link :
  active_in (joined d) code link ↔
  ∃ rs, load_one d code = Some rs ∧ to_link rs = link ∧ cl_active link = true.
Proof.
  split.
  - intros (rs & Hin & E & H). exists rs. by rewrite load_one_spec.
  - intros (rs & [Hin E]%load_one_spec & H). by exists rs.
Qed.

Lemma reload_one_mends code c : right (reload_one code (load_one d code) c) (KLink code).
Proof.
  intros link. rewrite active_in_load_one. unfold reload_one, get.
  destruct (load_one d code) as [rs|] eqn:E; [destruct (cl_active (to_link rs)) eqn:Ha |];
    cbn [set_links lc_links]; rewrite ?lookup_insert_eq, ?lookup_delete_eq; naive_solver congruence.
Qed.

Lemma reload_one_right code c k : right c k → right (reload_one code (load_one d code) c) k.
Proof.
  destruct k as [code'|k]; [destruct (decide (code' = code)) as [->|Hne] |]; intros H; [apply reload_one_mends | |];
    unfold reload_one; destruct (load_one d code) as [rs|]; try destruct (cl_active (to_link rs)); try exact H;
    intros link; unfold get; cbn [set_links lc_links]; rewrite ?lookup_insert_ne, ?lookup_delete_ne by done; apply H.
Qed.

Lemma load_missing_right now code c k :
  right c k → right (snd (load_missing now code (load_one d code) c)) k.
Proof.
  intros H. pose proof (reload_one_right code c k H) as H'. unfold load_missing, reload_one in *.
  destruct (load_one d code) as [rs|]; [destruct (cl_active (to_link rs)) |]; cbn [snd];
    [exact (right_ext _ _ k eq_refl eq_refl H') | exact (right_ext _ _ k eq_refl eq_refl H)..].
Qed.

Lemma link_app rs u :
  rs ∈ joined d → cl_app_id (to_link rs) = u → uuid_of_str u = Some (lr_app_id (fst rs)).
Proof.
  intros [Hin _]%joined_elem <-. cbn. apply uuid_of_str_of_uuid. by apply (dok_links_app d Hd).
Qed.

Lemma reload_app_links_right app_id u c k :
  uuid_of_str app_id = Some u → right c k → right (reload_app_links app_id (load_app_links d u) c) k.
Proof.
  intros Hu. destruct k as [code|k]; [| done]. intros Hl link. unfold get. cbn [reload_app_links set_links lc_links].
  rewrite add_active_lookup by (apply NoDup_fmap_filter, joined_codes).
  assert (∀ link, active_in (load_app_links d u) code link → active_in (joined d) code link) as Hsub.
  { intros l (rs & [Hin _]%elem_of_lfilter & H). by exists rs. }
  split.
  - intros [H|[_ H]]; [by apply Hsub |]. apply map_lookup_filter_Some in H as [H _]. by apply Hl.
  - intros H. pose proof H as (rs & Hin & E & El & Ha).
    destruct (decide (lr_app_id (fst rs) = u)) as [Eu|Hne].
    + left. exists rs. split; [| done]. apply elem_of_lfilter. split; [done | by apply N.eqb_eq].
    + right. split.
      * intros link' (rs' & [Hin' Eu%N.eqb_eq]%elem_of_lfilter & E' & _). apply Hne.
        rewrite <- Eu. do 2 f_equal. apply (NoDup_fmap_elem _ _ rs rs' joined_codes Hin Hin').
        congruence.
      * apply map_lookup_filter_Some. split; [by apply Hl |]. cbn. intros Ea. apply Hne.
        rewrite <- El in Ea. pose proof (link_app rs app_id Hin Ea). congruence.
Qed.

Lemma deep_app r : r ∈ db_deep d → uuid_of_str (fst (deep_key r)) = Some (dr_app_id r).
Proof. intros Hr. apply uuid_of_str_of_uuid. by apply (dok_deep_app d Hd). Qed.

(** What a reload of an app's deep links leaves under a key is a row of the table. *)
Lemma reload_deep_sound app_id u c k t :
  lc_deep (reload_deep_links app_id (load_deep_links_for_app d u) c) !! k = Some t →
  (∃ r, r ∈ db_deep d ∧ deep_key r = k ∧ target_of r = t) ∨ (fst k ≠ app_id ∧ lc_deep c !! k = Some t).
Proof.
  cbn [reload_deep_links lc_deep]. rewrite add_deep_lookup by (apply NoDup_fmap_filter, deep_keys).
  intros [(r & [Hin _]%elem_of_lfilter & H)|[_ H]]; [left; by exists r |].
  apply map_lookup_filter_Some in H as [H Hn]. by right.
Qed.

(** It shows every deep link of its app. *)
Lemma reload_deep_shows app_id c r :
  r ∈ db_deep d →
  lc_deep (reload_deep_links app_id (load_deep_links_for_app d (dr_app_id r)) c) !! deep_key r = Some (target_of r).
Proof.
  intros Hr. cbn [reload_deep_links lc_deep]. apply add_deep_lookup; [apply NoDup_fmap_filter, deep_keys |].
  left. exists r. split; [| done]. apply elem_of_lfilter. split; [done | by apply N.eqb_eq].
Qed.

Lemma deep_row_unique r r' : r ∈ db_deep d → r' ∈ db_deep d → deep_key r = deep_key r' → r = r'.
Proof. intros Hr Hr' E. by apply (NoDup_fmap_elem _ _ r r' deep_keys Hr Hr'). Qed.

Lemma reload_deep_links_right app_id u c k :
  uuid_of_str app_id = Some u → right c k → right (reload_deep_links app_id (load_deep_links_for_app d u) c) k.
Proof.
  intros Hu. destruct k as [code|k]; [done |]. intros [Hs Hk]. split.
  - intros t [H|[_ H]]%reload_deep_sound; [done | by apply Hs].
  - intros r Hin Ek Ha. destruct (decide (dr_app_id r = u)) as [<-|Hne]; [rewrite <- Ek; by apply reload_deep_shows |].
    cbn [reload_deep_links lc_deep]. apply add_deep_lookup; [apply NoDup_fmap_filter, deep_keys |].
    right. split.
    + intros (r' & E & [Hin' Eu%N.eqb_eq]%elem_of_lfilter)%list_elem_of_fmap. apply Hne.
      rewrite <- Eu. f_equal. apply deep_row_unique; congruence.
    + apply map_lookup_filter_Some. split; [by apply Hk |]. cbn. intros Ea. apply Hne.
      rewrite <- Ek in Ea. pose proof (deep_app r Hin) as E. congruence.
Qed.

(** The reload a notification starts mends the keys of its own text, and, however the text
    spells the app, those of the rows it finds. *)
Lemma reload_deep_mends app_id u c k :
  uuid_of_str app_id = Some u →
  (fst k = app_id ∨ ∃ r, r ∈ db_deep d ∧ deep_key r = k ∧ dr_app_id r = u) →
  right (reload_deep_links app_id (load_deep_links_for_app d u) c) (KDeep k).
Proof.
  intros Hu Hk.
  assert (∀ r, r ∈ db_deep d → deep_key r = k → dr_app_id r = u) as Happ.
  { intros r Hr E. destruct Hk as [Hk|(r' & Hr' & E' & <-)]; [| f_equal; apply deep_row_unique; congruence].
    pose proof (deep_app r Hr) as Ea. rewrite E in Ea. congruence. }
  split.
  - intros t Ht. destruct Hk as [Hk|(r & Hr & E & Eu)].
    + apply reload_deep_sound in Ht as [H|[Hne _]]; [done | by destruct Hne].
    + exists r. split; [done |]. split; [done |]. pose proof (reload_deep_shows app_id c r Hr) as E1.
      rewrite Eu, E in E1. congruence.
  - intros r Hr E _. rewrite <- (Happ r Hr E), <- E. by apply reload_deep_shows.
Qed.

(** A task that holds no rows but those of this database. *)
Definition fresh_task (t : Task) : Prop :=
  match t with
  | ReloadedOne code row | LoadedMissing code row => row = load_one d code
  | ReloadedApp app_id rows => ∃ u, uuid_of_str app_id = Some u ∧ rows = load_app_links d u
  | ReloadedDeep app_id rows => ∃ u, uuid_of_str app_id = Some u ∧ rows = load_deep_links_for_app d u
  | ResyncLinks rows => rows = load_active d
  | Resynced rows deep_rows => rows = load_active d ∧ deep_rows = load_deep_links d
  | _ => True
  end.

Definition all_fresh (s : Process) : Prop := ps_db s = d ∧ Forall fresh_task (ps_tasks s).

Lemma fetch_fresh t t' : fresh_task t → fetch d t = Some t' → fresh_task t'.
Proof.
  destruct t; cbn [fetch]; try (by intros _ [= <-]); try (by intros _ [=]).
  - intros _ H. destruct (uuid_of_str app_id) as [u|] eqn:E; [| done]. injection H as <-. by exists u.
  - intros _ H. destruct (uuid_of_str app_id) as [u|] eqn:E; [| done]. injection H as <-. by exists u.
  - intros H [= <-]. split; [exact H | done].
Qed.

Lemma finish_right now t c c' k :
  fresh_task t → right c k → finish now t c = Some c' → right c' k.
Proof.
  destruct t; cbn [finish fresh_task]; try (by intros _ _ [=]).
  - intros -> Hc [= <-]. by apply reload_one_right.
  - intros (u & Hu & ->) Hc [= <-]. by apply reload_app_links_right.
  - intros (u & Hu & ->) Hc [= <-]. by apply reload_deep_links_right.
  - intros [-> ->] Hc [= <-]. apply resync_right.
  - intros -> Hc [= <-]. by apply load_missing_right.
Qed.

Lemma finish_coherent now t c c' :
  fresh_task t → coherent c → finish now t c = Some c' → coherent c'.
Proof. intros Ht Hc E. apply coherent_right. intros k. eapply finish_right; [done | by apply coherent_right | done]. Qed.

Lemma coherent_ext c c' :
  lc_links c' = lc_links c → lc_deep c' = lc_deep c → coherent c → coherent c'.
Proof. intros El Ed Hc. apply coherent_right. intros k. eapply right_ext; [done | done | by apply coherent_right]. Qed.

Lemma resync_coherent c : coherent (resync (load_active d) (load_deep_links d) c).
Proof. apply coherent_right. intros k. apply resync_right. Qed.

Lemma load_missing_coherent now c code :
  coherent c → coherent (snd (load_missing now code (load_one d code) c)).
Proof. intros Hc. apply coherent_right. intros k. apply load_missing_right. by apply coherent_right. Qed.

Lemma known_missing_same c now code :
  lc_links (snd (is_known_missing c now code)) = lc_links c ∧
  lc_deep (snd (is_known_missing c now code)) = lc_deep c.
Proof. unfold is_known_missing. destruct (lc_missing c !! code); [destruct (now >? _) |]; done. Qed.

(** While nothing is written, fresh tasks stay fresh and a coherent cache coherent. *)
Lemma quiet_step_fresh s s' : quiet_step s s' → all_fresh s → all_fresh s'.
Proof.
  intros Hstep [Ed Hf]. destruct Hstep; cbn in *; subst; (split; [done |]);
    cbn [ps_tasks]; rewrite ?Forall_app, ?Forall_cons in *; try (split; [done | exact Hf]).
  - destruct Hf as [? [Ht ?]]. split_and!; [done | by eapply fetch_fresh | done].
  - by destruct Hf as [? [_ ?]].
  - by destruct Hf as [? [_ ?]].
Qed.

Lemma quiet_step_coherent s s' :
  quiet_step s s' → all_fresh s → coherent (ps_cache s) → coherent (ps_cache s').
Proof.
  intros Hstep [Ed Hf] Hc. destruct Hstep; cbn in *; subst; try done;
    try (by apply (coherent_ext c)).
  - destruct (known_missing_same c now code). by apply (coherent_ext c).
  - apply Forall_app in Hf as [_ [Ht _]%Forall_cons]. by eapply finish_coherent.
Qed.

(** (C32) The cache converges.  Once the database is at rest and no task holds older rows,
    the first resync to end makes the cache show the database exactly, whatever it held
    before, and it keeps doing so through any further reloads, lookups, notifications,
    resyncs and failed tasks, in any order. *)
Theorem cache_converges s c ts1 ts2 rows deep_rows s' :
  all_fresh s →
  rtc quiet_step s
    {| ps_db := d; ps_cache := c; ps_tasks := ts1 ++ Resynced rows deep_rows :: ts2 |} →
  rtc quiet_step {| ps_db := d; ps_cache := resync rows deep_rows c; ps_tasks := ts1 ++ ts2 |} s' →
  coherent (ps_cache s').
Proof.
  intros Hf R1 R2. set (s1 := {| ps_db := d; ps_cache := c; ps_tasks := _ |}) in R1.
  assert (all_fresh s1) as [_ Hf1].
  { clear - Hf R1 Hd. induction R1; eauto using quiet_step_fresh. }
  cbn in Hf1. apply Forall_app in Hf1 as [Hf1 [[-> ->] Hf2]%Forall_cons].
  set (s2 := {| ps_db := d; ps_cache := resync _ _ c; ps_tasks := _ |}) in R2.
  assert (all_fresh s2) as Hs2 by (split; [done |]; by apply Forall_app).
  assert (coherent (ps_cache s2)) as Hc2 by apply resync_coherent.
  clear - Hs2 Hc2 R2 Hd. induction R2 as [|x y z Hxy _ IH]; [done |].
  apply IH; [by eapply quiet_step_fresh | by eapply quiet_step_coherent].
Qed.
End Coherence.
End Tasks.

(** ** Witnesses *)

Definition ex_link (status : pystr) : LinkRow :=
  {| lr_id := 1%N; lr_tracking_code := py "abc"; lr_organization_id := 2%N; lr_app_id := 9%N;
     lr_campaign_id := Some 3%N;
     lr_android_url := Some (py "https://play.google.com/store/apps/details?id=x");
     lr_ios_url := None; lr_fallback_url := py "https://x.example/";
     lr_deep_link_path := Some (py "/home"); lr_status := status |}.

Definition ex_links_db (status : pystr) : Db :=
  {| db_links := [ex_link status]; db_apps := [(9%N, py "active")];
     db_deep := [ {| dr_app_id := 9%N; dr_code := py "summer"; dr_destination := py "/sale";
                     dr_fallback_url := py "https://x.example/sale" |} ] |}.

Lemma ex_links_db_ok status : db_ok (ex_links_db status).
Proof.
  split; cbn.
  - apply NoDup_singleton.
  - apply NoDup_singleton.
  - intros r ->%list_elem_of_singleton. split; [by eexists | done].
  - intros r ->%list_elem_of_singleton. split; [by eexists | done].
Qed.

Definition ex_active : Db := ex_links_db (py "active").
Definition ex_disabled : Db := ex_links_db (py "disabled").

(** A cache that still serves a link the database has disabled. *)
Definition ex_stale : LinkCache := resync (load_active ex_active) (load_deep_links ex_active) empty_cache.

Lemma cache_converges_witness :
  get ex_stale (py "abc") ≠ None ∧
  get (resync (load_active ex_disabled) (load_deep_links ex_disabled) ex_stale) (py "abc") = None.
Proof.
  split; [vm_compute; discriminate |].
  assert (@coherent ex_disabled (resync (load_active ex_disabled) (load_deep_links ex_disabled) ex_stale)) as Hc.
  { apply (@cache_converges ascii_unicode ex_disabled (ex_links_db_ok _)
      {| ps_db := ex_disabled; ps_cache := ex_stale; ps_tasks := [] |} ex_stale [] []
      (load_active ex_disabled) (load_deep_links ex_disabled)
      {| ps_db := ex_disabled;
         ps_cache := resync (load_active ex_disabled) (load_deep_links ex_disabled) ex_stale;
         ps_tasks := [] |}).
    - split; [reflexivity | constructor].
    - eapply rtc_l; [apply step_resync |].
      eapply rtc_l; [apply (step_fetch _ _ [] []); reflexivity |].
      apply rtc_once. apply (step_fetch _ _ [] []). reflexivity.
    - apply rtc_refl. }
  destruct (get _ (py "abc")) as [link|] eqn:E; [| reflexivity].
  pose proof (co_links _ _ Hc) as Hl. apply Hl in E as (rs & Hin & _ & El & Ha). rewrite <- El in Ha.
  vm_compute in Hin. apply list_elem_of_singleton in Hin as ->. vm_compute in Ha. discriminate Ha.
Defined.

(** ** What the code does beyond its documentation *)

(** A resync that read the link before it was disabled ends after the notification was
    handled: the link is served again, with no task left to correct it until the next
    resync. *)
Lemma stale_resync_revives_a_disabled_link :
  ∃ c, rtc (@cache_step ascii_unicode)
      {| ps_db := ex_active; ps_cache := ex_stale; ps_tasks := [] |}
      {| ps_db := ex_disabled; ps_cache := c; ps_tasks := [] |} ∧
    get c (py "abc") ≠ None ∧ lc_notifications c = 1.
Proof.
  eexists. split.
  - eapply rtc_l; [apply step_quiet, step_resync |].
    eapply rtc_l; [apply step_quiet, (step_fetch _ _ [] []); reflexivity |].
    eapply rtc_l; [apply (step_write _ ex_disabled), ex_links_db_ok |].
    eapply rtc_l; [apply step_quiet, (step_notify_link _ _ _ (py "abc")) |].
    eapply rtc_l; [apply step_quiet, (step_fetch _ _ [] [ResyncLinks (load_active ex_active)]); reflexivity |].
    eapply rtc_l; [apply step_quiet; eapply (step_finish _ _ _ [] [ResyncLinks (load_active ex_active)] _ 0); reflexivity |].
    eapply rtc_l; [apply step_quiet, (step_fetch _ _ [] []); reflexivity |].
    apply rtc_once, step_quiet. eapply (step_finish _ _ _ [] [] _ 0). reflexivity.
  - split; [vm_compute; discriminate | vm_compute; reflexivity].
Qed.
