(* ===== verification/IpAddr.v ===== *)
(** * IP addresses and their hashing (Python's ipaddress as mmp_crypto/pii.py and
    mmp_core/outbound.py use it)

    Parsing and printing of both families, [hash_ip] and [truncate_ip_for_geo]. *)

From S2P Require Import Ingest.
From S2P Require Import Prelude Ids Keys Referrer.

#[local] Open Scope N_scope.
#[local] Open Scope mmp_scope.

(** An IPv6 address may carry a scope. *)
Inductive ip := V4 (n : N) | V6 (n : N) (scope : option pystr).

Definition dot : N := 46.
Definition ip_colon : N := 58.

Fixpoint dec_value (acc : N) (s : pystr) : N :=
  match s with [] => acc | c :: s' => dec_value (10 * acc + (c - 48)) s' end.

(** [_parse_octet]. *)
Definition parse_octet (s : pystr) : option N :=
  if bool_decide (s = []) || negb (forallb is_digit_ascii s) || (3 <? length s)%nat then None
  else if negb (bool_decide (s = [48])) && starts_with [48] s then None
  else if 255 <? dec_value 0 s then None
  else Some (dec_value 0 s).

(** [IPv4Address]. *)
Definition parse_v4 (s : pystr) : option N :=
  match py_split dot s with
  | [a; b; c; d] =>
      a ← parse_octet a; b ← parse_octet b; c ← parse_octet c; d ← parse_octet d;
      Some (((a * 256 + b) * 256 + c) * 256 + d)
  | _ => None
  end.

Fixpoint hex_value_of (acc : N) (s : pystr) : option N :=
  match s with
  | [] => Some acc
  | c :: s' => x ← hex_value c; hex_value_of (16 * acc + x) s'
  end.

(** [_parse_hextet]. *)
Definition parse_hextet (s : pystr) : option N :=
  if bool_decide (s = []) || (4 <? length s)%nat then None else hex_value_of 0 s.

(** [%x]. *)
Fixpoint hex_digits (fuel : nat) (n : N) (acc : pystr) : pystr :=
  match fuel with
  | O => acc
  | S fuel' =>
      let acc := hexdigit (n mod 16) :: acc in
      if n / 16 =? 0 then acc else hex_digits fuel' (n / 16) acc
  end.
Definition hex_of (n : N) : pystr := hex_digits 8 n [].

(** The parts of the text, with a dotted quad at the end rewritten as two. *)
Definition v6_parts (s : pystr) : option (list pystr) :=
  let parts := py_split ip_colon s in
  if (length parts <? 3)%nat then None
  else
    let last := List.last parts [] in
    if existsb (N.eqb dot) last then
      n ← parse_v4 last;
      Some (removelast parts ++ [hex_of (N.land (N.shiftr n 16) 0xffff); hex_of (N.land n 0xffff)])
    else Some parts.

(** The places of the empty parts that are neither first nor last. *)
Definition inner_empty (parts : list pystr) : list nat :=
  List.filter (λ i, bool_decide (parts !! i = Some [])) (seq 1 (length parts - 2)).

Fixpoint hextets (acc : N) (parts : list pystr) : option N :=
  match parts with
  | [] => Some acc
  | p :: ps => x ← parse_hextet p; hextets (N.lor (N.shiftl acc 16) x) ps
  end.

(** [IPv6Address._ip_int_from_string]. *)
Definition parse_v6_int (s : pystr) : option N :=
  parts ← v6_parts s;
  if (9 <? length parts)%nat then None
  else
    let first_empty := bool_decide (head parts = Some []) in
    let last_empty := bool_decide (last parts = Some []) in
    match inner_empty parts with
    | [] =>
        if negb (bool_decide (length parts = 8%nat)) || first_empty || last_empty then None
        else hextets 0 parts
    | [i] =>
        let hi := if first_empty then (i - 1)%nat else i in
        let lo := (length parts - i - 1)%nat in
        let lo' := if last_empty then (lo - 1)%nat else lo in
        if first_empty && negb (bool_decide (hi = 0%nat)) then None
        else if last_empty && negb (bool_decide (lo' = 0%nat)) then None
        else if (8 <=? hi + lo')%nat then None
        else
          high ← hextets 0 (take hi parts);
          hextets (N.shiftl high (N.of_nat (16 * (8 - (hi + lo'))))) (drop (length parts - lo') parts)
    | _ => None
    end.

Definition parse_v6 (s : pystr) : option ip :=
  let '(addr, found, scope) := partition percent s in
  if found && (bool_decide (scope = []) || existsb (N.eqb percent) scope) then None
  else
    n ← parse_v6_int addr;
    Some (V6 n (if found then Some scope else None)).

(** [ipaddress.ip_address]. *)
Definition ip_address (s : pystr) : option ip :=
  if existsb (N.eqb 47) s then None
  else
    match parse_v4 s with
    | Some n => Some (V4 n)
    | None => parse_v6 s
    end.

(** [ipv4_mapped]. *)
Definition ipv4_mapped (n : N) : option N :=
  if N.shiftr n 32 =? 0xffff then Some (N.land n 0xffffffff) else None.

Definition str_v4 (n : N) : pystr :=
  py_join [dot] ((λ i, py_str_int (Z.of_N (N.land (N.shiftr n (8 * i)) 255))) <$> [3; 2; 1; 0]).

(** The longest run of zero hextets, the first of them: where it starts and its length. *)
Fixpoint zero_runs (i : nat) (start : option nat) (len : nat) (best : nat * nat) (l : list N) : nat * nat :=
  match l with
  | [] => best
  | x :: l =>
      if x =? 0 then
        let start := default i start in
        let len := S len in
        zero_runs (S i) (Some start) len (if (snd best <? len)%nat then (start, len) else best) l
      else zero_runs (S i) None 0 best l
  end.

(** [_compress_hextets], joined. *)
Definition str_v6 (n : N) : pystr :=
  let hs := (λ i, N.land (N.shiftr n (16 * i)) 0xffff) <$> [7; 6; 5; 4; 3; 2; 1; 0] in
  let texts := hex_of <$> hs in
  let '(start, len) := zero_runs 0 None 0 (0%nat, 0%nat) hs in
  if (1 <? len)%nat then
    let tail := drop (start + len) texts in
    let tail := match tail with [] => [[]] | _ => tail end in
    let body := take start texts ++ [] :: tail in
    py_join [ip_colon] (if bool_decide (start = 0%nat) then [] :: body else body)
  else py_join [ip_colon] texts.

Definition str_ip (a : ip) : pystr :=
  match a with
  | V4 n => str_v4 n
  | V6 n None => str_v6 n
  | V6 n (Some scope) => str_v6 n ++ percent :: scope
  end.

(** An address as it is hashed. *)
Definition normalised (a : ip) : ip :=
  match a with
  | V4 n => V4 n
  | V6 n scope => match ipv4_mapped n with Some m => V4 m | None => V6 n scope end
  end.

Section HashIp.
Context {U : Unicode} {H : Hmac}.

(** [date.isoformat] of the day an instant falls in, from the days since 1970-01-01
    (proleptic Gregorian). *)
Definition civil (days : Z) : Z * Z * Z :=
  let z := (days + 719468)%Z in
  let era := (z / 146097)%Z in
  let doe := (z - era * 146097)%Z in
  let yoe := ((doe - doe / 1460 + doe / 36524 - doe / 146096) / 365)%Z in
  let doy := (doe - (365 * yoe + yoe / 4 - yoe / 100))%Z in
  let mp := ((5 * doy + 2) / 153)%Z in
  let d := (doy - (153 * mp + 2) / 5 + 1)%Z in
  let m := (if mp <? 10 then mp + 3 else mp - 9)%Z in
  ((yoe + era * 400 + (if m <=? 2 then 1 else 0))%Z, m, d).

Definition pad (width : nat) (s : pystr) : pystr := replicate (width - length s) 48 ++ s.

Definition day_isoformat (now : datetime) : pystr :=
  let '(y, m, d) := civil (now / day)%Z in
  pad 4 (py_str_int y) ++ py "-" ++ pad 2 (py_str_int m) ++ py "-" ++ pad 2 (py_str_int d).

(** [_daily_pepper]. *)
Definition daily_pepper (pepper : pystr) (now : datetime) : pystr :=
  pepper ++ py ":" ++ day_isoformat now.

Definition hash_ip (address pepper : pystr) (now : datetime) : option (list N) :=
  match ip_address (py_strip address) with
  | None => None
  | Some a =>
      Some (take DIGEST_BYTES (hmac_sha256 (daily_pepper pepper now) (str_ip (normalised a))))
  end.

(** [truncate_ip_for_geo]: the network address of the /24 or the /48.  The network keeps
    the address object, scope included, when it has no host bits. *)
Definition network_of (host_bits n : N) : N := N.shiftl (N.shiftr n host_bits) host_bits.

Definition truncate_ip_for_geo (address : pystr) : option pystr :=
  match ip_address (py_strip address) with
  | None => None
  | Some (V4 n) => Some (str_v4 (network_of 8 n))
  | Some (V6 n scope) =>
      let network := network_of 80 n in
      Some (str_ip (V6 network (if network =? n then scope else None)))
  end.

(** ** Lemmas *)

Lemma parse_v4_spec s n :
  parse_v4 s = Some n → n < 2 ^ 32 ∧ dot ∈ s ∧ Forall (λ c, is_digit_ascii c = true ∨ c = dot) s.
Proof.
  unfold parse_v4. intros Hp.
  assert (∀ o x, parse_octet o = Some x → x < 256 ∧ Forall (λ c, is_digit_ascii c = true ∨ c = dot) o) as Ho.
  { intros o x. unfold parse_octet. destruct (_ || _ || _) eqn:E; [done |]. destruct (_ && _); [done |].
    destruct (N.ltb_spec 255 (dec_value 0 o)); [done |]. intros [= <-]. split; [lia |].
    apply orb_false_iff in E as [[_ E%negb_false_iff]%orb_false_iff _]. rewrite forallb_forall in E.
    apply Forall_forall. intros c Hc%list_elem_of_In. left. by apply E. }
  assert (s = py_join [dot] (py_split dot s)) as Ej by (by rewrite py_join_split).
  destruct (py_split dot s) as [|a [|b [|c [|d [|]]]]]; try done.
  destruct (parse_octet a) as [xa|] eqn:Ea; [| done]. destruct (parse_octet b) as [xb|] eqn:Eb; [| done].
  destruct (parse_octet c) as [xc|] eqn:Ec; [| done]. destruct (parse_octet d) as [xd|] eqn:Ed; [| done].
  cbn in Hp. injection Hp as <-.
  destruct (Ho _ _ Ea) as [? Fa], (Ho _ _ Eb) as [? Fb], (Ho _ _ Ec) as [? Fc], (Ho _ _ Ed) as [? Fd].
  rewrite Ej. cbn [py_join]. split; [lia |]. split.
  - rewrite elem_of_app. right. by left.
  - repeat (apply Forall_app; split; [done |]; constructor; [by right |]). done.
Qed.

(** Every hextet is read as it is printed. *)
Definition hextet_ok (n : N) : bool := bool_decide (parse_hextet (hex_of n) = Some n).

Lemma parse_hex_of n : n < 65536 → parse_hextet (hex_of n) = Some n.
Proof.
  intros Hn.
  assert (forallb (λ a, forallb (λ b, hextet_ok (256 * a + b)) small_bytes) small_bytes = true) as Hall
    by (vm_compute; reflexivity).
  rewrite forallb_forall in Hall.
  assert (n / 256 < 256) as Ha by (apply N.Div0.div_lt_upper_bound; lia).
  assert (n mod 256 < 256) as Hb by (by apply N.mod_lt).
  specialize (Hall (n / 256)). rewrite <- list_elem_of_In in Hall. specialize (Hall (small_byte _ Ha)).
  rewrite forallb_forall in Hall. specialize (Hall (n mod 256)).
  rewrite <- list_elem_of_In in Hall. specialize (Hall (small_byte _ Hb)).
  rewrite <- N.div_mod in Hall by discriminate. by apply (bool_decide_eq_true_1 _) in Hall.
Qed.

Lemma digits_lack s c :
  Forall (λ c, is_digit_ascii c = true ∨ c = dot) s → is_digit_ascii c = false → c ≠ dot → c ∉ s.
Proof. rewrite Forall_forall. intros Hf Hc Hd Hin. destruct (Hf c Hin); congruence. Qed.

Lemma partition_absent sep s : sep ∉ s → partition sep s = (s, false, []).
Proof.
  induction s as [|c s IH]; intros Hs; [done |]. apply not_elem_of_cons in Hs as [Hc Hs]. cbn.
  destruct (N.eqb_spec c sep); [congruence |]. by rewrite IH.
Qed.

Lemma mapped_number n :
  n < 2 ^ 32 →
  N.lor (N.shiftl (N.lor (N.shiftl 0xffff 16) (N.land (N.shiftr n 16) 0xffff)) 16) (N.land n 0xffff)
  = 0xffff * 2 ^ 32 + n.
Proof.
  intros Hn. change 0xffff with (N.ones 16) at 2 3. rewrite !N.land_ones.
  rewrite (lor_shift_add 0xffff) by (apply N.mod_lt; discriminate).
  rewrite lor_shift_add by (apply N.mod_lt; discriminate). rewrite N.shiftr_div_pow2.
  rewrite (N.mod_small (n / 2 ^ 16)) by (apply N.Div0.div_lt_upper_bound; exact Hn).
  pose proof (N.div_mod n (2 ^ 16) ltac:(discriminate)) as E. lia.
Qed.

Lemma ip_address_mapped s n :
  parse_v4 s = Some n → ip_address (py "::ffff:" ++ s) = Some (V6 (0xffff * 2 ^ 32 + n) None).
Proof.
  intros Hp. destruct (parse_v4_spec s n Hp) as (Hn & Hd & Hf).
  pose proof (λ c, digits_lack s c Hf) as Hl.
  assert (∀ c, is_digit_ascii c = false → c ≠ dot → c ∉ py "::ffff:" → c ∉ py "::ffff:" ++ s) as Hlack.
  { intros c H1 H2 H3. rewrite not_elem_of_app. auto. }
  assert (parse_v4 (py "::ffff:" ++ s) = None) as E4.
  { destruct (parse_v4 (py "::ffff:" ++ s)) as [m|] eqn:E; [| done].
    apply parse_v4_spec in E as (_ & _ & E). apply Forall_app in E as [E _]. exfalso.
    apply Forall_cons in E as [[E|E] _]; discriminate E. }
  unfold ip_address. rewrite E4.
  destruct (existsb (N.eqb 47) (py "::ffff:" ++ s)) eqn:E47.
  { apply existsb_exists in E47 as (x & Hx%list_elem_of_In & <-%N.eqb_eq). exfalso. revert Hx.
    apply Hlack; [done | done |]. apply (bool_decide_unpack _). by vm_compute. }
  unfold parse_v6. rewrite partition_absent.
  2: { apply Hlack; [done | done |]. apply (bool_decide_unpack _). by vm_compute. }
  cbn [andb]. assert (parse_v6_int (py "::ffff:" ++ s) = Some (0xffff * 2 ^ 32 + n)) as ->; [| done].
  assert (py_split ip_colon (py "::ffff:" ++ s) = [[]; []; py "ffff"; s]) as Es.
  { change (py "::ffff:" ++ s) with (ip_colon :: ip_colon :: py "ffff" ++ ip_colon :: s).
    cbn [py_split]. rewrite N.eqb_refl, py_split_app, py_split_absent; [done | by apply Hl |].
    apply (bool_decide_unpack _). by vm_compute. }
  unfold parse_v6_int, v6_parts. rewrite Es. cbn [length Nat.ltb Nat.leb List.last removelast].
  assert (existsb (N.eqb dot) s = true) as ->.
  { apply existsb_exists. exists dot. by rewrite <- list_elem_of_In, N.eqb_refl. }
  rewrite Hp. set (a := N.land (N.shiftr n 16) 0xffff). set (b := N.land n 0xffff).
  assert (∀ x, N.land x 0xffff < 65536) as Hland.
  { intros x. change 0xffff with (N.ones 16). rewrite N.land_ones. by apply N.mod_lt. }
  assert (parse_hextet (hex_of a) = Some a) as Pa by apply parse_hex_of, Hland.
  assert (parse_hextet (hex_of b) = Some b) as Pb by apply parse_hex_of, Hland.
  assert (hex_of a ≠ [] ∧ hex_of b ≠ []) as [Na Nb].
  { split; intros Ex; [rewrite Ex in Pa | rewrite Ex in Pb]; done. }
  cbn [mbind option_bind app]. unfold inner_empty. cbn [length Nat.sub seq List.filter lookup list_lookup].
  rewrite (bool_decide_true (Some [] = Some [])) by done.
  rewrite (bool_decide_false (Some (py "ffff") = Some [])) by done.
  rewrite (bool_decide_false (Some (hex_of a) = Some [])) by congruence.
  cbn [last head]. rewrite (bool_decide_true (Some [] = Some [])) by done.
  rewrite (bool_decide_false (Some (hex_of b) = Some [])) by congruence.
  cbn [andb Nat.sub Nat.add Nat.leb drop take hextets mbind option_bind length Nat.ltb].
  rewrite (bool_decide_true (0%nat = 0%nat)) by done. cbn [negb].
  change (parse_hextet (py "ffff")) with (Some 0xffff). cbn [mbind option_bind].
  fold a b. rewrite Pa. cbn [mbind option_bind]. rewrite Pb. cbn [mbind option_bind]. f_equal.
  change (N.lor (N.shiftl (N.shiftl 0 (N.of_nat (16 * 5))) 16) 65535) with 65535.
  by apply mapped_number.
Qed.

(** What a geo provider is sent says nothing of the host: every address of a /24 truncates
    to the same text, which is not the address unless the host part is zero. *)
Lemma truncation_forgets_the_host s1 s2 n1 n2 :
  ip_address (py_strip s1) = Some (V4 n1) → ip_address (py_strip s2) = Some (V4 n2) →
  n1 / 256 = n2 / 256 → truncate_ip_for_geo s1 = truncate_ip_for_geo s2.
Proof.
  intros E1 E2 E. unfold truncate_ip_for_geo, network_of. rewrite E1, E2, !N.shiftr_div_pow2.
  change (2 ^ 8) with 256. by rewrite E.
Qed.

(** An address and its IPv4-mapped IPv6 form hash alike: a client that connects over
    IPv6 matches its own click. *)
Theorem mapped_address_hashes_alike s n pepper now :
  parse_v4 s = Some n →
  hash_ip (py "::ffff:" ++ s) pepper now = hash_ip s pepper now ∧ is_Some (hash_ip s pepper now).
Proof.
  intros Hp. destruct (parse_v4_spec s n Hp) as (_ & _ & Hf).
  assert (Forall (λ c, py_isspace c = false) s) as Hs.
  { eapply Forall_impl; [exact Hf |]. intros c [Hc| ->]; [by apply digit_not_space | done]. }
  unfold hash_ip. rewrite !py_strip_noop, (ip_address_mapped s n Hp); [| done |].
  2: { apply Forall_app. split; [apply (bool_decide_unpack _); by vm_compute | done]. }
  assert (ip_address s = Some (V4 n)) as ->.
  { unfold ip_address. rewrite Hp. destruct (existsb (N.eqb 47) s) eqn:E; [| done].
    apply existsb_exists in E as (x & Hx%list_elem_of_In & <-%N.eqb_eq). exfalso.
    by apply (digits_lack s 47 Hf) in Hx. }
  assert (normalised (V6 (0xffff * 2 ^ 32 + n) None) = V4 n) as ->; [| by eauto].
  destruct (parse_v4_spec s n Hp) as (Hn & _ & _). unfold normalised, ipv4_mapped.
  rewrite N.shiftr_div_pow2, N.add_comm, N.div_add, (N.div_small n) by (done || discriminate).
  cbn [N.add N.eqb Pos.eqb]. change 0xffffffff with (N.ones 32).
  by rewrite N.land_ones, N.Div0.mod_add, N.mod_small.
Qed.
End HashIp.

(** Concrete addresses. *)
Example ip_loopback : ip_address (py "127.0.0.1") = Some (V4 0x7f000001).
Proof. vm_compute. reflexivity. Qed.

Example ip_mapped : ip_address (py "::ffff:1.2.3.4") = Some (V6 0xffff01020304 None).
Proof. vm_compute. reflexivity. Qed.

Example ip_scoped : str_ip <$> ip_address (py "FE80:0:0:0:1:0:0:1%eth0") = Some (py "fe80::1:0:0:1%eth0").
Proof. vm_compute. reflexivity. Qed.

Example ip_refused :
  (λ s, ip_address (py s)) <$> ["01.2.3.4"; "1.2.3"; ":1::"; "1::2::3"; "1:2:3:4:5:6:7"; "::g"; "fe80::1%"]%string
  = [None; None; None; None; None; None; None].
Proof. vm_compute. reflexivity. Qed.

Example ip_zero : str_ip <$> ip_address (py "::") = Some (py "::").
Proof. vm_compute. reflexivity. Qed.

Example geo_truncated :
  (λ s, truncate_ip_for_geo (U := ascii_unicode) (py s)) <$> ["203.0.113.9"; "2001:db8:1:2::9"; "fe80::1%e"; "x"]%string
  = [Some (py "203.0.113.0"); Some (py "2001:db8:1::"); Some (py "fe80::"); None].
Proof. vm_compute. reflexivity. Qed.

Example civil_leap : day_isoformat (951782400 * second) = py "2000-02-29".
Proof. vm_compute. reflexivity. Qed.

Lemma mapped_address_hashes_alike_witness :
  hash_ip (U := ascii_unicode) (H := ex_hmac) (py "::ffff:203.0.113.9") (py "p") (1000 * second)
  = hash_ip (U := ascii_unicode) (H := ex_hmac) (py "203.0.113.9") (py "p") (1000 * second).
Proof.
  apply (@mapped_address_hashes_alike ascii_unicode ex_hmac (py "203.0.113.9") 0xcb007109).
  vm_compute. reflexivity.
Defined.
