(* ===== verification/Redirect.v ===== *)
(** * The click redirect and the deferred deep link (mmp_tracker/redirect.py,
    mmp_tracker/deferred.py)

    [redirect_click] on a request whose headers and query are read: the row the fallback
    query would return, the clock and the click id [uuid7] mints are arguments.  The state
    is the link cache, the click buffer and the two counters.  [resolve_deferred] and
    [conversion_values] answer from the tables of attributions and conversion mappings. *)

From S2P Require Import Engine Ingest Writer Store.
From S2P Require Import Prelude Ids Keys Buffer Templates Referrer Urls DeepLinks LinkCache IpAddr.

#[local] Open Scope Z_scope.
#[local] Open Scope mmp_scope.

Definition PLAY_REFERRER_PARAM : pystr := py "referrer".
Definition CLICK_ID_PARAM : pystr := py "mmp_click_id".
Definition MAX_SUB_PARAM : nat := 255.

Record RedirectRequest := {
  rd_now : datetime;
  rd_code : pystr;
  rd_forwarded : option pystr;
  rd_client_host : option pystr;
  rd_user_agent : option pystr;
  (** the pairs of the query string, in order *)
  rd_params : list (pystr * pystr);
  rd_click_id : uuid;
  (** what the fallback query returns, and when *)
  rd_row : option (LinkRow * pystr);
  rd_loaded_at : datetime
}.

Record TrackerLinks := {
  tl_links : LinkCache;
  tl_clicks : ShippingBuffer QueuedClick;
  tl_clicks_total : Z;
  tl_unknown_codes : Z
}.

Inductive RedirectResponse :=
| RNotFound                       (* 404 *)
| RFound (location : pystr)       (* 302 *)
| RRaised (e : UrlError).         (* [ValueError] of [urlparse] *)

(** [QueryParams.get]: the last value of a repeated key. *)
Definition param (params : list (pystr * pystr)) (key : pystr) : option pystr :=
  od_get key (reverse params).

Section Redirect.
Context {U : Unicode} {H : Hmac} {C : NetlocCheck}.
Variable pepper : pystr.

(** [_client_ip]. *)
Definition client_ip (rq : RedirectRequest) : option pystr :=
  if truthy (rd_forwarded rq) then Some (py_strip (before 44 (default [] (rd_forwarded rq))))
  else rd_client_host rq.

Definition build_destination (platform : Platform) (android_url ios_url : option pystr)
    (fallback_url click_id : pystr) (deep_link_path : option pystr) : result UrlError pystr :=
  if bool_decide (platform = ANDROID) && truthy android_url then
    with_query (default [] android_url) [(PLAY_REFERRER_PARAM, play_referrer click_id deep_link_path)]
  else if bool_decide (platform = IOS) && truthy ios_url then
    with_query (default [] ios_url) [(CLICK_ID_PARAM, click_id)]
  else with_query fallback_url [(CLICK_ID_PARAM, click_id)].

(** [_resolve_deep_link]: the destination and the fallback of a registered code. *)
Definition resolve_deep_link (links : LinkCache) (link : CachedLink) (params : list (pystr * pystr))
    : option pystr * option pystr :=
  let code := param params (py "dl_code") in
  if is_registered_code code then
    match LinkCache.deep_link links (cl_app_id link) (default [] code) with
    | Some target => (Some (dt_destination target), Some (dt_fallback_url target))
    | None => (cl_deep_link_path link, None)
    end
  else
    match clean_path (param params (py "dl")) with
    | Some cleaned => (Some cleaned, None)
    | None => (cl_deep_link_path link, None)
    end.

(** [a or b]. *)
Definition or_else (a b : option pystr) : option pystr := if truthy a then a else b.

(** [(params.get(k) or None) and params[k][:MAX_SUB_PARAM]]. *)
Definition sub_param (params : list (pystr * pystr)) (key : pystr) : option pystr :=
  let v := param params key in
  if truthy v then take MAX_SUB_PARAM <$> v else None.

Definition click_of (rq : RedirectRequest) (link : CachedLink) (deep : option pystr)
    : QueuedClick :=
  let params := rd_params rq in
  let raw_device_id :=
    or_else (or_else (param params (py "gaid")) (param params (py "idfa"))) (param params (py "device_id")) in
  let ip := client_ip rq in
  let '(platform, bot) := classify (rd_user_agent rq) in
  {| qc_click_id := str_of_uuid (rd_click_id rq);
     qc_clicked_at := rd_now rq;
     qc_organization_id := cl_organization_id link;
     qc_app_id := cl_app_id link;
     qc_campaign_id := cl_campaign_id link;
     qc_tracking_link_id := cl_id link;
     qc_device_hash :=
       if truthy raw_device_id then hash_device_id pepper (default [] raw_device_id) else None;
     qc_ip_hash := if truthy ip then hash_ip (default [] ip) pepper (rd_now rq) else None;
     qc_country := None;
     qc_platform := platform_code platform;
     qc_os_version := os_version (rd_user_agent rq) platform;
     qc_device_model := None;
     qc_user_agent :=
       if truthy (rd_user_agent rq) then take MAX_USER_AGENT <$> rd_user_agent rq else None;
     qc_sub1 := sub_param params (py "sub1");
     qc_sub2 := sub_param params (py "sub2");
     qc_sub3 := sub_param params (py "sub3");
     qc_is_bot := bot;
     qc_deep_link := deep;
     qc_correlation_id := None |}.

(** The link a request resolves to, with the cache as it is left. *)
Definition find_link (rq : RedirectRequest) (links : LinkCache) : option CachedLink * LinkCache :=
  match get links (rd_code rq) with
  | Some link => (Some link, links)
  | None =>
      let '(missing, links) := is_known_missing links (rd_now rq) (rd_code rq) in
      if missing then (None, links)
      else load_missing (rd_loaded_at rq) (rd_code rq) (rd_row rq) links
  end.

(** The destination of a click on a link, and the deep link it carries. *)
Definition destination_of (rq : RedirectRequest) (links : LinkCache) (link : CachedLink)
    : result UrlError pystr :=
  let '(deep, deep_fallback) := resolve_deep_link links link (rd_params rq) in
  build_destination (fst (classify (rd_user_agent rq))) (cl_android_url link) (cl_ios_url link)
    (if truthy deep_fallback then default [] deep_fallback else cl_fallback_url link)
    (str_of_uuid (rd_click_id rq)) deep.

Definition redirect_click (rq : RedirectRequest) (t : TrackerLinks) : RedirectResponse * TrackerLinks :=
  let '(found, links) := find_link rq (tl_links t) in
  match found with
  | None =>
      (RNotFound, {| tl_links := links; tl_clicks := tl_clicks t; tl_clicks_total := tl_clicks_total t;
                     tl_unknown_codes := tl_unknown_codes t + 1 |})
  | Some link =>
      match destination_of rq links link with
      | Err e =>
          (RRaised e, {| tl_links := links; tl_clicks := tl_clicks t;
                         tl_clicks_total := tl_clicks_total t;
                         tl_unknown_codes := tl_unknown_codes t |})
      | Ok destination =>
          let deep := fst (resolve_deep_link links link (rd_params rq)) in
          let '(dropped, clicks) := append (tl_clicks t) [click_of rq link deep] in
          (RFound destination,
           {| tl_links := links; tl_clicks := clicks;
              tl_clicks_total := tl_clicks_total t + (if (dropped =? 0)%nat then 1 else 0);
              tl_unknown_codes := tl_unknown_codes t |})
      end
  end.

(** ** Theorems *)

(** The address a click is sent to before its parameters are added. *)
Definition target_url (rq : RedirectRequest) (links : LinkCache) (link : CachedLink) : pystr :=
  let platform := fst (classify (rd_user_agent rq)) in
  if bool_decide (platform = ANDROID) && truthy (cl_android_url link) then default [] (cl_android_url link)
  else if bool_decide (platform = IOS) && truthy (cl_ios_url link) then default [] (cl_ios_url link)
  else
    let fallback := snd (resolve_deep_link links link (rd_params rq)) in
    if truthy fallback then default [] fallback else cl_fallback_url link.

(** What is appended to its query. *)
Definition target_params (rq : RedirectRequest) (links : LinkCache) (link : CachedLink)
    : list (pystr * pystr) :=
  let platform := fst (classify (rd_user_agent rq)) in
  if bool_decide (platform = ANDROID) && truthy (cl_android_url link)
  then [(PLAY_REFERRER_PARAM, play_referrer (str_of_uuid (rd_click_id rq))
                                (fst (resolve_deep_link links link (rd_params rq))))]
  else [(CLICK_ID_PARAM, str_of_uuid (rd_click_id rq))].

Lemma destination_of_eq rq links link :
  destination_of rq links link = with_query (target_url rq links link) (target_params rq links link).
Proof.
  unfold destination_of, target_url, target_params, build_destination.
  destruct (resolve_deep_link links link (rd_params rq)) as [deep fb]. cbn [fst snd].
  destruct (bool_decide (fst (classify (rd_user_agent rq)) = ANDROID) && truthy (cl_android_url link)); [done |].
  by destruct (bool_decide (fst (classify (rd_user_agent rq)) = IOS) && truthy (cl_ios_url link)).
Qed.

(** (C31) A click goes where the advertiser configured and nowhere else: whatever the
    request holds, the redirect of a link with absolute addresses has the scheme, the host
    and the fragment of the store address for the device or of the fallback, its path, and
    its query with the click's parameters appended. *)
Theorem redirect_reaches_the_configured_target rq t link links r :
  find_link rq (tl_links t) = (Some link, links) →
  urlsplit (target_url rq links link) = Ok r → u_scheme r ≠ [] → u_netloc r ≠ [] →
  ∃ location t' r', redirect_click rq t = (RFound location, t') ∧ urlsplit location = Ok r' ∧
    u_scheme r' = u_scheme r ∧ u_netloc r' = u_netloc r ∧ u_fragment r' = u_fragment r ∧
    (u_path r' = u_path r ∨ u_path r = u_path r' ++ [semicolon]) ∧
    u_query r' = query_and (u_query r) (urlencode (target_params rq links link)).
Proof.
  intros Hf Hr Hs Hn.
  destruct (with_query_target (target_url rq links link) r (target_params rq links link) Hr Hs Hn)
    as (out & r' & E & E' & Hrest).
  unfold redirect_click. rewrite Hf, destination_of_eq, E.
  destruct (append (tl_clicks t) [click_of rq link (fst (resolve_deep_link links link (rd_params rq)))])
    as [dropped clicks]. eauto 10.
Qed.

Lemma play_referrer_plain click_id path :
  ascii_text (play_referrer click_id path) ∧ 32%N ∉ play_referrer click_id path ∧
  play_referrer click_id path ≠ [].
Proof.
  unfold play_referrer. split_and!.
  - apply Forall_app. split; [apply (bool_decide_unpack _); by vm_compute |].
    apply Forall_app. split; [apply quote_ascii |]. destruct (truthy path); [| constructor].
    apply Forall_app. split; [apply (bool_decide_unpack _); by vm_compute | apply quote_ascii].
  - rewrite !not_elem_of_app. split_and!; [apply (bool_decide_unpack _); by vm_compute | by apply quote_lacks |].
    destruct (truthy path); [| apply not_elem_of_nil].
    rewrite not_elem_of_app. split; [apply (bool_decide_unpack _); by vm_compute | by apply quote_lacks].
  - done.
Qed.

Lemma od_get_app {V} k (l l' : list (pystr * V)) :
  od_get k l = None → od_get k (l ++ l') = od_get k l'.
Proof.
  induction l as [|[k0 v0] l IH]; intros Hl; [done |]. cbn in *. case_decide; [done | by apply IH].
Qed.

(** The click id survives the store.  On Android, the redirect carries a [referrer]
    parameter that a store reads back from the redirect's own query, and from that text
    the attribution side recovers exactly the click the redirect minted and recorded,
    whatever deep link came with it; a plain deep link comes back unchanged as well. *)
Theorem android_click_survives_the_store rq t link links r :
  find_link rq (tl_links t) = (Some link, links) →
  fst (classify (rd_user_agent rq)) = ANDROID → truthy (cl_android_url link) = true →
  urlsplit (default [] (cl_android_url link)) = Ok r → u_scheme r ≠ [] → u_netloc r ≠ [] →
  od_get PLAY_REFERRER_PARAM (parse_qsl (u_query r)) = None →
  uuid_ok (rd_click_id rq) →
  let deep := fst (resolve_deep_link links link (rd_params rq)) in
  (∀ p, deep = Some p → ascii_text p ∧ (length p <= 512)%nat) →
  ∃ location t' r' referrer, redirect_click rq t = (RFound location, t') ∧
    urlsplit location = Ok r' ∧
    od_get PLAY_REFERRER_PARAM (query_params (u_query r')) = Some referrer ∧
    pf_click_id (parse_referrer (Some referrer)) = Some (rd_click_id rq) ∧
    (∀ p, deep = Some p → plain_path p → p ≠ [] → pf_deep_link (parse_referrer (Some referrer)) = Some p).
Proof.
  intros Hf Hand Hurl Hr Hs Hn Hown Hid deep Hdeep.
  assert (target_url rq links link = default [] (cl_android_url link)) as Et
    by (unfold target_url; by rewrite Hand, Hurl).
  assert (target_params rq links link =
    [(PLAY_REFERRER_PARAM, play_referrer (str_of_uuid (rd_click_id rq)) deep)]) as Ep
    by (unfold target_params; by rewrite Hand, Hurl).
  destruct (with_query_target (target_url rq links link) r (target_params rq links link))
    as (out & r' & E & E' & _ & _ & _ & _ & Eq); [by rewrite Et | done | done |].
  assert (∃ t', redirect_click rq t = (RFound out, t')) as [t' Ert].
  { unfold redirect_click. rewrite Hf, destination_of_eq, E. fold deep.
    destruct (append (tl_clicks t) [click_of rq link deep]) as [dropped clicks]. eauto. }
  exists out, t', r', (play_referrer (str_of_uuid (rd_click_id rq)) deep).
  split; [done |]. split; [done |]. split.
  - rewrite Eq, Ep. unfold query_params. rewrite od_get_fold_setdefault. cbn [od_get].
    rewrite parse_qsl_and, od_get_app by done.
    destruct (play_referrer_plain (str_of_uuid (rd_click_id rq)) deep) as (Ha & Hsp & Hne).
    rewrite parse_urlencode_one; [| by vm_compute | by vm_compute | | done | done | done].
    + cbn [od_get]. by rewrite decide_True.
    + apply (bool_decide_unpack _). by vm_compute.
  - split; [by apply referrer_returns_the_click |]. intros p Ed Hp Hnp. rewrite Ed.
    apply referrer_returns_the_deep_link; [done | done | done |]. by apply Hdeep.
Qed.

(** The redirect serves exactly the active links.  While the cache shows the
    database, a code is answered 404 precisely when no active link has it, the link it is
    redirected by is the active one otherwise, and the cache keeps showing the database. *)
Theorem redirect_serves_exactly_the_active_links d rq t :
  db_ok d → coherent d (tl_links t) → rd_row rq = load_one d (rd_code rq) →
  let '(response, t') := redirect_click rq t in
  coherent d (tl_links t') ∧
  (response = RNotFound ↔ ∀ link, ¬ active_in (joined d) (rd_code rq) link) ∧
  (∀ link, active_in (joined d) (rd_code rq) link → find_link rq (tl_links t) = (Some link, tl_links t)).
Proof.
  intros Hd Hc Hrow. pose proof (co_links _ _ Hc) as Hl.
  assert (∀ link, active_in (joined d) (rd_code rq) link → find_link rq (tl_links t) = (Some link, tl_links t)) as Hact.
  { intros link Ha%Hl. unfold find_link. by rewrite Ha. }
  assert (coherent d (snd (find_link rq (tl_links t)))) as Hc'.
  { unfold find_link. destruct (get (tl_links t) (rd_code rq)) eqn:Eg; [done |].
    destruct (is_known_missing (tl_links t) (rd_now rq) (rd_code rq)) as [missing c'] eqn:Em.
    destruct (known_missing_same (tl_links t) (rd_now rq) (rd_code rq)) as [E1 E2]. rewrite Em in E1, E2.
    assert (coherent d c') as Hc' by (by apply (coherent_ext d (tl_links t))).
    destruct missing; [done |]. rewrite Hrow. by apply load_missing_coherent. }
  assert ((∀ link, ¬ active_in (joined d) (rd_code rq) link) → fst (find_link rq (tl_links t)) = None) as Hno.
  { intros Hno. unfold find_link. destruct (get (tl_links t) (rd_code rq)) eqn:Eg; [by apply Hl, Hno in Eg |].
    destruct (is_known_missing (tl_links t) (rd_now rq) (rd_code rq)) as [[] c']; [done |].
    unfold load_missing. rewrite Hrow. destruct (load_one d (rd_code rq)) as [rs|] eqn:E1; [| done].
    destruct (cl_active (to_link rs)) eqn:E2; [| done]. exfalso. apply (Hno (to_link rs)).
    apply (active_in_load_one d Hd). eauto. }
  assert (fst (find_link rq (tl_links t)) = None → ∀ link, ¬ active_in (joined d) (rd_code rq) link) as Hyes.
  { intros En link Ha. by rewrite (Hact link Ha) in En. }
  unfold redirect_click. destruct (find_link rq (tl_links t)) as [[link|] c']; cbn [fst snd] in *.
  - destruct (destination_of rq c' link) as [dest|e].
    + destruct (append (tl_clicks t) _) as [dropped clicks]. split; [done |]. split; [| done].
      split; [done |]. intros Ha. by specialize (Hno Ha).
    + split; [done |]. split; [| done]. split; [done |]. intros Ha. by specialize (Hno Ha).
  - split; [done |]. split; [| done]. split; [intros _; by apply Hyes | done].
Qed.

(** What a redirect records: one click, newest in the buffer, under the minted id and
    the link's own ids, whose deep link is the destination the advertiser registered for
    this app under the named code, a safe path, or the link's own; any other answer leaves
    the buffer alone. *)
Theorem redirect_records_the_click rq t response t' :
  (0 < b_capacity (tl_clicks t))%nat → (length (b_queue (tl_clicks t)) <= b_capacity (tl_clicks t))%nat →
  redirect_click rq t = (response, t') →
  match response with
  | RFound _ => ∃ link links deep,
      find_link rq (tl_links t) = (Some link, links) ∧
      last (b_queue (tl_clicks t')) = Some (click_of rq link deep) ∧
      (deep = cl_deep_link_path link ∨ (∃ p, deep = Some p ∧ safe_destination p) ∨
       ∃ code target, LinkCache.deep_link links (cl_app_id link) code = Some target ∧
         deep = Some (dt_destination target))
  | _ => tl_clicks t' = tl_clicks t
  end.
Proof.
  intros Hc Hq. unfold redirect_click. destruct (find_link rq (tl_links t)) as [[link|] links].
  2: { by intros [= <- <-]. }
  destruct (destination_of rq links link) as [dest|e]; [| by intros [= <- <-]].
  set (deep := fst (resolve_deep_link links link (rd_params rq))).
  destruct (append (tl_clicks t) [click_of rq link deep]) as [dropped clicks] eqn:Ea.
  intros [= <- <-]. exists link, links, deep. cbn [tl_clicks]. split; [done |]. split.
  - unfold append in Ea. pose proof (append_loop_spec (b_capacity (tl_clicks t)) (b_queue (tl_clicks t)) 0
      [click_of rq link deep] Hc Hq) as Hs.
    destruct (append_loop _ _ 0 [click_of rq link deep]) as [q' n]. destruct Hs as [-> _].
    injection Ea as <- <-. cbn [b_queue length]. rewrite drop_app_le by lia. apply last_snoc.
  - unfold deep, resolve_deep_link. destruct (is_registered_code _).
    + destruct (LinkCache.deep_link links (cl_app_id link) _) as [target|] eqn:El; [| by left].
      right. right. eauto.
    + destruct (clean_path _) as [p|] eqn:Ep; [| by left]. right. left. exists p. split; [done |].
      by apply clean_path_safe in Ep.
Qed.
End Redirect.

(** * mmp_tracker/deferred.py *)

Definition RESOLVE_WINDOW_HOURS : Z := 24.
Definition MAX_ANONYMOUS_ID : nat := 128.

Record ConversionMapping := {
  cm_app_id : uuid;
  cm_platform : pystr;
  cm_event_name : pystr;
  cm_conversion_value : Z;
  cm_coarse_value : option pystr
}.

(** The parts of a request both handlers read: its [authorization] header, the answers of
    the authenticator and of the limiter, the size of its body and the [anonymous_id] it
    decodes to, when it does. *)
Record DeferredRequest := {
  df_authorization : option pystr;
  df_auth : result AuthError AuthRecord;
  df_allowed : bool;
  df_retry_after_ms : Z;
  df_body_length : nat;
  df_anonymous_id : option pystr
}.

Inductive DeferredResponse :=
| DUnauthorized | DRateLimited (retry_after : Z) | DTooLarge | DInvalid
| DResolved (destination : option pystr)
| DMappings (l : list (pystr * Z * option pystr)).

Section Deferred.
Context {U : Unicode}.

(** The credential of an [authorization] header, empty when there is none. *)
Definition bearer (header : option pystr) : pystr :=
  if truthy header && starts_with (py "bearer ") (py_lower (default [] header))
  then py_strip (drop 7 (default [] header)) else [].

(** [RESOLVE_SQL]. *)
Definition resolve_row (db : list AttributionRow) (now : datetime) (app : uuid) (key : pystr)
    : option AttributionRow :=
  List.find (λ r, current_of app key r && (now - RESOLVE_WINDOW_HOURS * hour <=? a_installed_at r)) db.

(** [auth.app_id] is passed to the query as the text of a uuid. *)
Definition resolve_deferred (db : list AttributionRow) (now : datetime) (rq : DeferredRequest)
    : DeferredResponse :=
  if bool_decide (bearer (df_authorization rq) = []) then DUnauthorized
  else
    match df_auth rq with
    | Err _ => DUnauthorized
    | Ok auth =>
        if negb (df_allowed rq) then DRateLimited (Z.max 1 (df_retry_after_ms rq / 1000))
        else if (4096 <? df_body_length rq)%nat then DTooLarge
        else
          match df_anonymous_id rq with
          | None => DInvalid
          | Some raw =>
              let anonymous_id := py_strip raw in
              if bool_decide (anonymous_id = []) || (MAX_ANONYMOUS_ID <? length anonymous_id)%nat
              then DInvalid
              else
                let destination :=
                  match uuid_of_str (au_app_id auth) with
                  | Some app =>
                      resolve_row db now app (au_app_id auth ++ py ":" ++ anonymous_id) ≫= a_deep_link
                  | None => None
                  end in
                DResolved (if truthy destination then destination else None)
          end
    end.

(** [CONVERSION_MAPPING_SQL] and the handler around it; [order_by] is the query's order. *)
Definition conversion_values (order_by : list ConversionMapping → list ConversionMapping)
    (db : list ConversionMapping) (rq : DeferredRequest) : DeferredResponse :=
  if bool_decide (bearer (df_authorization rq) = []) then DUnauthorized
  else
    match df_auth rq with
    | Err _ => DUnauthorized
    | Ok auth =>
        let rows := List.filter (λ m, bool_decide (uuid_of_str (au_app_id auth) = Some (cm_app_id m)) &&
                                      bool_decide (cm_platform m = py "ios")) db in
        DMappings ((λ m, (cm_event_name m, cm_conversion_value m, cm_coarse_value m)) <$> order_by rows)
    end.

(** What the endpoint may disclose about a device of an app: the destination of its
    current, recent attribution. *)
Definition disclosed (db : list AttributionRow) (now : datetime) (app : uuid) (anonymous_id : pystr)
    : option pystr :=
  match fetch_current db app (install_key app anonymous_id) with
  | Some r =>
      if now - RESOLVE_WINDOW_HOURS * hour <=? a_installed_at r
      then if truthy (a_deep_link r) then a_deep_link r else None else None
  | None => None
  end.

Lemma resolve_row_current db now app key :
  table_ok db →
  resolve_row db now app key =
    match fetch_current db app key with
    | Some r => if now - RESOLVE_WINDOW_HOURS * hour <=? a_installed_at r then Some r else None
    | None => None
    end.
Proof.
  intros Hok. unfold resolve_row. destruct (List.find _ db) as [r|] eqn:E.
  - apply find_elem in E as [Hin [Hc Ht]%andb_true_iff].
    apply current_of_spec in Hc as (<- & <- & Hc). by rewrite fetch_current_of, Ht.
  - destruct (fetch_current db app key) as [r|] eqn:F; [| done].
    apply find_elem in F as [Hin Hc]. rewrite find_none_iff in E. specialize (E r Hin).
    rewrite Hc in E. cbn in E. by rewrite E.
Qed.

(** The deferred handshake discloses nothing else: an authenticated, admitted and
    well-formed request is answered with the destination of the device's current
    attribution in the key's own app when it is recent and carries one, and with one and
    the same answer in every other case, so tables that agree on that cannot be told
    apart. *)
Theorem deferred_discloses_only_the_destination db now rq auth app anonymous_id :
  table_ok db → bearer (df_authorization rq) ≠ [] → df_auth rq = Ok auth → df_allowed rq = true →
  (df_body_length rq <= 4096)%nat → uuid_of_str (au_app_id auth) = Some app →
  au_app_id auth = str_of_uuid app →
  df_anonymous_id rq = Some anonymous_id → py_strip anonymous_id ≠ [] →
  (length (py_strip anonymous_id) <= MAX_ANONYMOUS_ID)%nat →
  resolve_deferred db now rq = DResolved (disclosed db now app (py_strip anonymous_id)) ∧
  ∀ db', table_ok db' →
    disclosed db' now app (py_strip anonymous_id) = disclosed db now app (py_strip anonymous_id) →
    resolve_deferred db' now rq = resolve_deferred db now rq.
Proof.
  intros Hok Hb Ha Hal Hl Happ Ecan Hid Hne Hlen.
  assert (∀ db, table_ok db →
    resolve_deferred db now rq = DResolved (disclosed db now app (py_strip anonymous_id))) as Hgen.
  { intros db0 Hok0. unfold resolve_deferred. rewrite bool_decide_false by done.
    rewrite Ha, Hal, Hid, Happ. cbn [negb]. destruct (Nat.ltb_spec 4096 (df_body_length rq)); [lia |].
    rewrite bool_decide_false by done. cbn [orb].
    destruct (Nat.ltb_spec MAX_ANONYMOUS_ID (length (py_strip anonymous_id))); [lia |].
    rewrite resolve_row_current by done. f_equal. rewrite Ecan.
    change (str_of_uuid app ++ py ":" ++ py_strip anonymous_id) with (install_key app (py_strip anonymous_id)).
    unfold disclosed. destruct (fetch_current db0 app _) as [r|]; [| done].
    destruct (_ <=? a_installed_at r); [| done]. cbn. by destruct (a_deep_link r). }
  split; [by apply Hgen |]. intros db' Hok' E. by rewrite !Hgen, E.
Qed.
End Deferred.

(** ** Witnesses *)

Definition ex_click_request : RedirectRequest :=
  {| rd_now := 1000 * second; rd_code := py "abc"; rd_forwarded := Some (py "203.0.113.9, 10.0.0.1");
     rd_client_host := None; rd_user_agent := Some (py "Mozilla/5.0 (Linux; Android 14; Pixel 8)");
     rd_params := [(py "dl", py "/shoes/42"); (py "sub1", py "x")]; rd_click_id := 77%N;
     rd_row := load_one ex_active (py "abc"); rd_loaded_at := 1000 * second |}.

Definition ex_tracker_links : TrackerLinks :=
  {| tl_links := ex_stale; tl_clicks := new_buffer 10 5; tl_clicks_total := 0; tl_unknown_codes := 0 |}.

Definition ex_cached : CachedLink := to_link (ex_link (py "active"), py "active").

Definition ex_play : SplitResult :=
  {| u_scheme := py "https"; u_netloc := py "play.google.com"; u_path := py "/store/apps/details";
     u_query := py "id=x"; u_fragment := [] |}.

Abbreviation ex_redirect := (@redirect_click ascii_unicode ex_hmac no_netloc (py "pepper")).

Lemma redirect_reaches_the_configured_target_witness :
  ∃ location t' r', ex_redirect ex_click_request ex_tracker_links = (RFound location, t') ∧
    @urlsplit no_netloc location = Ok r' ∧ u_netloc r' = py "play.google.com".
Proof.
  destruct (@redirect_reaches_the_configured_target ascii_unicode ex_hmac no_netloc (py "pepper")
    ex_click_request ex_tracker_links ex_cached ex_stale ex_play)
    as (location & t' & r' & E & Eu & _ & En & _).
  - vm_compute. reflexivity.
  - vm_compute. reflexivity.
  - discriminate.
  - discriminate.
  - exists location, t', r'. split; [exact E |]. split; [exact Eu | exact En].
Defined.

Lemma android_click_survives_the_store_witness :
  ∃ location t' r' referrer, ex_redirect ex_click_request ex_tracker_links = (RFound location, t') ∧
    @urlsplit no_netloc location = Ok r' ∧
    od_get PLAY_REFERRER_PARAM (query_params (u_query r')) = Some referrer ∧
    pf_click_id (@parse_referrer ascii_unicode (Some referrer)) = Some 77%N.
Proof.
  destruct (@android_click_survives_the_store ascii_unicode ex_hmac no_netloc (py "pepper")
    ex_click_request ex_tracker_links ex_cached ex_stale ex_play)
    as (location & t' & r' & referrer & E & Eu & Er & Ec & _).
  - vm_compute. reflexivity.
  - vm_compute. reflexivity.
  - reflexivity.
  - vm_compute. reflexivity.
  - discriminate.
  - discriminate.
  - vm_compute. reflexivity.
  - reflexivity.
  - intros p Ep. vm_compute in Ep. injection Ep as <-.
    split; [apply (bool_decide_unpack _); by vm_compute | vm_compute; lia].
  - exists location, t', r', referrer. split; [exact E |]. split; [exact Eu |]. split; [exact Er | exact Ec].
Defined.

Lemma redirect_serves_exactly_the_active_links_witness :
  coherent ex_active ex_stale ∧ fst (ex_redirect ex_click_request ex_tracker_links) ≠ RNotFound.
Proof.
  assert (coherent ex_active ex_stale) as Hc by (apply resync_coherent; apply ex_links_db_ok).
  split; [exact Hc |].
  pose proof (@redirect_serves_exactly_the_active_links ascii_unicode ex_hmac no_netloc (py "pepper")
    ex_active ex_click_request ex_tracker_links (ex_links_db_ok _) Hc eq_refl) as H.
  destruct (ex_redirect ex_click_request ex_tracker_links) as [response t'].
  destruct H as (_ & Hn & _). cbn [fst]. intros E. apply (proj1 Hn E ex_cached).
  exists (ex_link (py "active"), py "active"). split; [left |]. split; [reflexivity |].
  split; [reflexivity | vm_compute; reflexivity].
Defined.

Definition ex_after_click : TrackerLinks := snd (ex_redirect ex_click_request ex_tracker_links).

Definition ex_location : pystr :=
  match fst (ex_redirect ex_click_request ex_tracker_links) with RFound l => l | _ => [] end.

Lemma redirect_records_the_click_witness :
  ∃ link deep, last (b_queue (tl_clicks ex_after_click)) =
    Some (@click_of ascii_unicode ex_hmac (py "pepper") ex_click_request link deep).
Proof.
  destruct (@redirect_records_the_click ascii_unicode ex_hmac no_netloc (py "pepper")
    ex_click_request ex_tracker_links (RFound ex_location) ex_after_click) as (link & links & deep & _ & E & _).
  - vm_compute. lia.
  - vm_compute. lia.
  - vm_compute. reflexivity.
  - exists link, deep. exact E.
Defined.

Definition ex_deferred : DeferredRequest :=
  {| df_authorization := Some (py "Bearer k");
     df_auth := Ok (auth_record_of ex_key_row);
     df_allowed := true; df_retry_after_ms := 0; df_body_length := 30;
     df_anonymous_id := Some (py " device-1 ") |}.

(** The install of that device, attributed to a click that carried a destination. *)
Definition ex_deep_row : AttributionRow :=
  row_of (ex_args 102%N REFERRER (Some
    {| click_id := 1%N; clicked_at := 900 * second; campaign_id := Some 77%N; tracking_link_id := 5%N;
       source := None; medium := None; device_hash := None; is_bot := false;
       Engine.deep_link := Some (py "/shoes/42"); sub1 := None; sub2 := None; sub3 := None |})).

Lemma deferred_discloses_only_the_destination_witness :
  @resolve_deferred ascii_unicode [ex_deep_row] (1002 * second) ex_deferred = DResolved (Some (py "/shoes/42")).
Proof.
  refine (proj1 (@deferred_discloses_only_the_destination ascii_unicode [ex_deep_row] (1002 * second)
    ex_deferred (auth_record_of ex_key_row) (k_app_id ex_key_row) (py " device-1 ") _ _ _ _ _ _ _ _ _ _)).
  - apply (table_ok_insert [] ex_deep_row); [apply table_ok_nil | reflexivity | vm_compute; reflexivity].
  - vm_compute. discriminate.
  - reflexivity.
  - reflexivity.
  - vm_compute. lia.
  - vm_compute. reflexivity.
  - reflexivity.
  - reflexivity.
  - vm_compute. discriminate.
  - vm_compute. lia.
Defined.
