(* ===== verification/Signing.v ===== *)
(** * Request signing and server-to-server ingest (mmp_crypto/signing.py,
    mmp_tracker/s2s.py, [s2s_secret_for] of mmp_tracker/state.py)

    SHA-256 and HMAC are parameters.  [ingest_s2s] is the whole handler on a request
    whose HTTP parts are read; its state is the tracker's, with the nonces of Redis. *)

From Stdlib Require Import Sorted.
From S2P Require Import Prelude Redis Ids Keys Dedup Sessions Consent Schema Buffer Ingest.

#[local] Open Scope Z_scope.
#[local] Open Scope mmp_scope.

Class Sha256 := { sha256_digest : list N → list N }.

Definition SIGNATURE_HEADER : pystr := py "x-mmp-signature".
Definition TIMESTAMP_HEADER : pystr := py "x-mmp-timestamp".
Definition KEY_ID_HEADER : pystr := py "x-mmp-key-id".
Definition DEFAULT_TOLERANCE : timedelta := 5 * minute.
Definition SCHEME : pystr := py "v1".

Record SignedRequest := { sr_timestamp : pystr; sr_signature : pystr }.

Inductive VerifyError :=
| SignatureError
| NonAsciiDigest.    (* [TypeError] of [hmac.compare_digest] *)

Definition lf : N := 10.

(** [datetime.fromtimestamp(int(text), tz=UTC)]: years 1 to 9999. *)
Definition MIN_TIMESTAMP : Z := -62135596800.
Definition MAX_TIMESTAMP : Z := 253402300799.

Section Signing.
Context {U : Unicode} {H : Hmac} {S : Sha256}.

Definition headers_of (r : SignedRequest) (key_id : option pystr) : list (pystr * pystr) :=
  [(TIMESTAMP_HEADER, sr_timestamp r); (SIGNATURE_HEADER, sr_signature r)] ++
  (if truthy key_id then [(KEY_ID_HEADER, default [] key_id)] else []).

Definition canonical_request (method path timestamp : pystr) (body : list N) : pystr :=
  py_join [lf] [SCHEME; py_upper method; path; timestamp; hex_of_bytes (sha256_digest body)].

(** [str(int(now.timestamp()))]. *)
Definition timestamp_of (now : datetime) : pystr := py_str_int (Z.quot now second).

Definition digest_of (method path timestamp : pystr) (body : list N) (secret : pystr) : pystr :=
  hex_of_bytes (hmac_sha256 secret (canonical_request method path timestamp body)).

Definition sign (method path : pystr) (body : list N) (secret : pystr) (now : datetime) : SignedRequest :=
  let timestamp := timestamp_of now in
  {| sr_timestamp := timestamp;
     sr_signature := SCHEME ++ py "=" ++ digest_of method path timestamp body secret |}.

Definition sent_at (timestamp : pystr) : option datetime :=
  t ← py_int 10 timestamp;
  if (MIN_TIMESTAMP <=? t) && (t <=? MAX_TIMESTAMP) then Some (t * second) else None.

Definition verify (method path : pystr) (body : list N) (secret signature timestamp : pystr)
    (tolerance : timedelta) (now : datetime) : result VerifyError unit :=
  match sent_at timestamp with
  | None => Err SignatureError
  | Some sent =>
      if Z.abs (now - sent) >? tolerance then Err SignatureError
      else
        let expected := digest_of method path timestamp body secret in
        let presented := removeprefix (SCHEME ++ py "=") signature in
        if negb (ascii_str presented) then Err NonAsciiDigest
        else if bool_decide (expected = presented) then Ok tt else Err SignatureError
  end.

Definition nonce_for (signature : pystr) : pystr :=
  take 32 (hex_of_bytes (sha256_digest signature)).

(** ** mmp_tracker/s2s.py *)

Definition REPLAY_WINDOW : timedelta := 15 * minute.
Definition S2S_EVENTS : list pystr :=
  [py "purchase"; py "refund"; py "subscription_start"; py "subscription_renew";
   py "subscription_cancel"; py "signup"; py "login"].

(** [TrackerState.s2s_secret_for]. *)
Definition s2s_secret_for (api_key_pepper : pystr) (auth : AuthRecord) : option pystr :=
  match au_key_hash auth with
  | [] => None
  | key_hash => Some (hex_of_bytes (hmac_sha256 api_key_pepper (py "s2s-signing:" ++ key_hash)))
  end.

Record S2SRequest := {
  s2_now : datetime;
  s2_authorization : pystr;
  s2_auth : result AuthError AuthRecord;
  s2_method : pystr;
  s2_path : pystr;
  (** the body, or why [_read_body] refused it *)
  s2_body : result pystr (list N);
  s2_signature : option pystr;
  s2_timestamp : option pystr;
  (** what the decoder makes of the body *)
  s2_decoded : result pystr (list IncomingEvent);
  s2_mint_event : nat → pystr
}.

Record S2SState := { ss_tracker : Tracker; ss_nonces : store unit }.

Inductive S2SResponse :=
| S2SUnauthorized
| S2SInvalidPayload (reason : pystr)
| S2SSignatureRequired
| S2SInvalidSignature
| S2SReplayed
| S2SInvalidJson (detail : pystr)
| S2SEmpty
| S2SBatchTooLarge
| S2SInvalidEvent (f : ValidationFailure)
| S2SAccepted (accepted duplicates dropped : Z).

Definition SIGNATURE_DETAIL : pystr :=
  py "signature did not verify " ++ [0x2014%N] ++
  py " check the canonical string covers method, path, timestamp and body digest, and that the timestamp is current".

(** An exception that leaves the handler, with the state at that point. *)
Inductive S2SException := Raised (e : VerifyError) | RaisedUuid (s : pystr).

Context {L : EdgeLib}.
Variable api_key_pepper : pystr.
Variable window : IdempotencyWindow.

Definition nonce_key (app_id signature : pystr) : pystr :=
  py "s2s:nonce:" ++ app_id ++ py ":" ++ nonce_for signature.

(** [_note]. *)
Definition note (s : S2SState) (rq : S2SRequest) (app : pystr) (status : Z) (reason detail : pystr)
    (n : option Z) : S2SState :=
  {| ss_tracker := set_live (record_rejection (tk_live (ss_tracker s)) (s2_now rq) app status reason detail n (py "s2s"))
                     (ss_tracker s);
     ss_nonces := ss_nonces s |}.

(** The validation loop. *)
Fixpoint validate_s2s (events : list IncomingEvent) (index : nat) (org app : uuid) (rq : S2SRequest)
    : result ValidationFailure (list QueuedEvent) :=
  match events with
  | [] => Ok []
  | incoming :: rest =>
      if negb (bool_decide (in_event_name incoming ∈ S2S_EVENTS)) then
        (* [repr] of a name without quotes or control characters *)
        Err (fail (Z.of_nat index)
               (py "'" ++ in_event_name incoming ++ py "' cannot be reported over S2S"))
      else
        let* event := validate_event incoming (Z.of_nat index) org app (s2_now rq) (s2_mint_event rq index) in
        let event := with_identifiers (q_click_id event) None event in
        let* queued := validate_s2s rest (Datatypes.S index) org app rq in
        Ok (event :: queued)
  end.

(** From the validated events on. *)
Definition enqueue_s2s (s : S2SState) (rq : S2SRequest) (app : pystr) (queued : list QueuedEvent)
    : S2SResponse * S2SState :=
  let t := ss_tracker s in
  let now := s2_now rq in
  let '(fresh, seen1) := filter_new window (tk_seen t) now app (q_event_id <$> queued) in
  let accepted := List.filter (λ e, bool_decide (q_event_id e ∈ fresh)) queued in
  let duplicates := Z.of_nat (length queued) - Z.of_nat (length accepted) in
  let '(dropped, buffer) := append (tk_buffer t) accepted in
  let seen2 := forget seen1 app (q_event_id <$> take dropped accepted) in
  let written := Z.of_nat (length accepted) - Z.of_nat dropped in
  (S2SAccepted written duplicates (Z.of_nat dropped),
   {| ss_tracker :=
        {| tk_seen := seen2; tk_sessions := tk_sessions t; tk_consent := tk_consent t;
           tk_live := tk_live t; tk_buffer := buffer; tk_accepted_total := tk_accepted_total t + written;
           tk_accepted_counter := count_accepted (tk_accepted_counter t) app written now |};
      ss_nonces := ss_nonces s |}).

(** From the decoded body on, once the nonce is taken. *)
Definition accept_s2s (s : S2SState) (rq : S2SRequest) (auth : AuthRecord)
    : result S2SException S2SResponse * S2SState :=
  let app := au_app_id auth in
  match s2_decoded rq with
  | Err detail => (Ok (S2SInvalidJson detail), note s rq app 400 (py "invalid_json") detail None)
  | Ok [] => (Ok S2SEmpty, s)
  | Ok events =>
      let n := Z.of_nat (length events) in
      if n >? MAX_EVENTS_PER_BATCH then
        (Ok S2SBatchTooLarge,
         note s rq app 413 (py "batch_too_large") (py "at most 100 events per request") (Some n))
      else
        match uuid_of_str (au_organization_id auth), uuid_of_str app with
        | None, _ => (Err (RaisedUuid (au_organization_id auth)), s)
        | _, None => (Err (RaisedUuid app), s)
        | Some org, Some app_id =>
            match validate_s2s events 0 org app_id rq with
            | Err f => (Ok (S2SInvalidEvent f),
                        note s rq app 422 (py "invalid_event") (failure_str f) (Some n))
            | Ok queued => let r := enqueue_s2s s rq app queued in (Ok (fst r), snd r)
            end
        end
  end.

Definition ingest_s2s (s : S2SState) (rq : S2SRequest) : result S2SException S2SResponse * S2SState :=
  if bool_decide (py_strip (removeprefix (py "Bearer ") (s2_authorization rq)) = [])
  then (Ok S2SUnauthorized, s)
  else
    match s2_auth rq with
    | Err _ => (Ok S2SUnauthorized, s)
    | Ok auth =>
        let app := au_app_id auth in
        if negb (bool_decide (au_kind auth = py "s2s")) then
          (Ok S2SUnauthorized,
           note s rq app 401 (py "sdk_key_on_s2s")
             (py "an sdk key was sent to the server-to-server endpoint; issue an s2s key") None)
        else
          match s2_body rq with
          | Err reason => (Ok (S2SInvalidPayload reason), note s rq app 413 (py "payload_too_large") reason None)
          | Ok body =>
              if negb (truthy (s2_signature rq)) || negb (truthy (s2_timestamp rq)) then
                (Ok S2SSignatureRequired,
                 note s rq app 401 (py "signature_required")
                   (SIGNATURE_HEADER ++ py " and " ++ TIMESTAMP_HEADER ++ py " headers are required") None)
              else
                match s2s_secret_for api_key_pepper auth with
                | None => (Ok S2SUnauthorized, s)
                | Some secret =>
                    let signature := default [] (s2_signature rq) in
                    match verify (s2_method rq) (s2_path rq) body secret signature
                            (default [] (s2_timestamp rq)) DEFAULT_TOLERANCE (s2_now rq) with
                    | Err SignatureError =>
                        (Ok S2SInvalidSignature,
                         note s rq app 401 (py "invalid_signature") SIGNATURE_DETAIL None)
                    | Err e => (Err (Raised e), s)
                    | Ok _ =>
                        let '(fresh, nonces) :=
                          rset_nx (s2_now rq) (nonce_key app signature) tt
                            (int_total_seconds REPLAY_WINDOW) (ss_nonces s) in
                        let s := {| ss_tracker := ss_tracker s; ss_nonces := nonces |} in
                        if negb fresh then
                          (Ok S2SReplayed,
                           note s rq app 409 (py "replayed")
                             (py "this exact signed request was already accepted; sign each request afresh") None)
                        else accept_s2s s rq auth
                    end
                end
          end
    end.

(** A sequence of requests, with their answers. *)
Fixpoint serve (s : S2SState) (rqs : list S2SRequest) : list (result S2SException S2SResponse) * S2SState :=
  match rqs with
  | [] => ([], s)
  | rq :: rqs =>
      let '(a, s) := ingest_s2s s rq in
      let '(rest, s) := serve s rqs in (a :: rest, s)
  end.


(** ** Lemmas *)

Lemma py_split_join sep parts :
  parts ≠ [] → Forall (λ p, sep ∉ p) parts → py_split sep (py_join [sep] parts) = parts.
Proof.
  intros Hne Hf. induction Hf as [|p ps Hp _ IH]; [done |]. cbn [py_join].
  destruct ps as [|p' ps]; [by apply py_split_absent |].
  change ([sep] ++ ?x) with (sep :: x). rewrite py_split_app by done. f_equal. by apply IH.
Qed.

Lemma hex_of_bytes_chars b : Forall (λ x, (x < 256)%N) b → Forall (λ c, is_hexchar c = true) (hex_of_bytes b).
Proof.
  induction 1 as [|x b Hx _ IH]; [constructor |]. unfold hex_of_bytes. rewrite bind_cons.
  apply Forall_app. split; [| exact IH].
  assert (∀ d, (d < 16)%N → is_hexchar (hexdigit d) = true) as Hd.
  { intros d Hd. unfold hexdigit, is_hexchar, in_range. destruct (N.ltb_spec d 10);
      apply orb_true_iff; [left | right]; apply andb_true_iff; split; apply N.leb_le; lia. }
  repeat constructor; apply Hd; [apply N.Div0.div_lt_upper_bound; lia | by apply N.mod_lt].
Qed.

(** What the digests are: byte strings. *)
Class DigestBytes : Prop := {
  hmac_bytes : ∀ k m, Forall (λ x, (x < 256)%N) (hmac_sha256 k m);
  sha_bytes : ∀ b, Forall (λ x, (x < 256)%N) (sha256_digest b)
}.

Lemma hexchar_ascii c : is_hexchar c = true → is_ascii c = true ∧ c ≠ lf.
Proof.
  intros Hc%is_hexchar_bounds. unfold is_ascii, lf. split; [apply N.ltb_lt; lia | lia].
Qed.

(** [int] reads back what [str] printed. *)
Lemma digit_value_dec d : (d < 10)%N → digit_value (48 + d) = Some d ∧ (48 + d)%N ≠ 95%N.
Proof.
  intros Hd. split; [| lia]. unfold digit_value.
  assert (is_digit_ascii (48 + d) = true) as ->.
  { unfold is_digit_ascii, in_range. apply andb_true_iff. split; apply N.leb_le; lia. }
  f_equal. lia.
Qed.

Lemma digits_dec fuel n acc k b :
  (n < 10 ^ N.of_nat fuel)%N → fuel ≠ O →
  ∃ k', digits 10 k b (dec_digits fuel n acc) = digits 10 (k * k' + n) true acc.
Proof.
  revert n acc k b. induction fuel as [|fuel IH]; intros n acc k b Hn Hf; [done |].
  cbn [dec_digits]. assert (n mod 10 < 10)%N as Hm by (by apply N.mod_lt).
  destruct (digit_value_dec _ Hm) as [Hd H95].
  assert (∀ k b l, digits 10 k b ((48 + n mod 10)%N :: l) = digits 10 (10 * k + n mod 10) true l) as Hstep.
  { intros k0 b0 l. cbn [digits]. rewrite (proj2 (N.eqb_neq _ _) H95), Hd.
    by rewrite (proj2 (N.ltb_lt _ _) Hm). }
  destruct (N.eqb_spec (n / 10) 0) as [E|E].
  - exists 10%N. rewrite Hstep. f_equal. pose proof (N.div_mod n 10 ltac:(done)). lia.
  - assert (fuel ≠ O) as Hf'.
    { intros ->. apply E. apply N.div_small. change (10 ^ N.of_nat 1)%N with 10%N in Hn. exact Hn. }
    destruct (IH (n / 10)%N ((48 + n mod 10)%N :: acc) k b) as [k' Ek]; [| done |].
    + apply N.Div0.div_lt_upper_bound. rewrite Nat2N.inj_succ, N.pow_succ_r' in Hn. exact Hn.
    + exists (10 * k')%N. rewrite Ek, Hstep. f_equal.
      pose proof (N.div_mod n 10 ltac:(done)). lia.
Qed.

Lemma dec_digits_chars fuel n acc :
  Forall (λ c, is_digit_ascii c = true) acc → Forall (λ c, is_digit_ascii c = true) (dec_digits fuel n acc).
Proof.
  revert n acc. induction fuel as [|fuel IH]; intros n acc Ha; [done |]. cbn [dec_digits].
  assert (Forall (λ c, is_digit_ascii c = true) ((48 + n mod 10)%N :: acc)) as Ha'.
  { constructor; [| done]. unfold is_digit_ascii, in_range. assert (n mod 10 < 10)%N as Hm by (by apply N.mod_lt).
    clear - Hm. revert Hm. generalize (n mod 10)%N. intros x Hm.
    apply andb_true_iff. split; apply N.leb_le; lia. }
  destruct (n / 10 =? 0)%N; [done | by apply IH].
Qed.

Lemma size_nat_bound n : (n < 10 ^ N.of_nat (Datatypes.S (N.size_nat n)))%N.
Proof.
  assert (n < 2 ^ N.of_nat (N.size_nat n))%N as Hn.
  { assert (N.of_nat (N.size_nat n) = N.size n) as ->; [| apply N.size_gt].
    destruct n as [|p]; [done |]. cbn. induction p as [p IH|p IH|]; cbn [Pos.size_nat Pos.size]; lia. }
  eapply N.lt_le_trans; [exact Hn |]. etrans; [apply (N.pow_le_mono_l 2 10); lia |].
  apply N.pow_le_mono_r; lia.
Qed.

Lemma py_int_str z : 0 <= z → py_int 10 (py_str_int z) = Some z.
Proof.
  intros Hz. unfold py_str_int. rewrite (proj2 (Z.ltb_ge z 0)) by lia.
  set (fuel := Datatypes.S _). set (s := dec_digits fuel (Z.abs_N z) []).
  assert (Forall (λ c, is_digit_ascii c = true) s) as Hs by (apply dec_digits_chars; constructor).
  assert (digits 10 0 false s = Some (Z.abs_N z)) as Hd.
  { destruct (digits_dec fuel (Z.abs_N z) [] 0 false) as [k' E]; [apply size_nat_bound | done |].
    fold s in E. rewrite E. cbn [digits]. done. }
  unfold py_int. rewrite py_strip_noop.
  2: { eapply Forall_impl; [exact Hs |]. intros c Hc. by apply digit_not_space. }
  destruct s as [|c s'] eqn:Es; [done |]. apply Forall_cons in Hs as [Hc _].
  unfold is_digit_ascii, in_range in Hc. apply andb_true_iff in Hc as [H1%N.leb_le H2%N.leb_le].
  rewrite (proj2 (N.eqb_neq c 43)), (proj2 (N.eqb_neq c 45)) by lia.
  assert (unsigned_int 10 (c :: s') = Some (Z.abs_N z)) as ->.
  { unfold unsigned_int. destruct s'; exact Hd. }
  cbn. f_equal. lia.
Qed.

Lemma sign_verifies `{!DigestBytes} method path body secret now now' tolerance :
  0 <= now → Z.quot now second <= MAX_TIMESTAMP →
  Z.abs (now' - Z.quot now second * second) <= tolerance →
  let r := sign method path body secret now in
  verify method path body secret (sr_signature r) (sr_timestamp r) tolerance now' = Ok tt.
Proof.
  intros Hn Hmax Ht r. unfold verify, sent_at. cbn [r sign sr_timestamp sr_signature].
  unfold timestamp_of. assert (0 <= Z.quot now second) as Hq by (apply Z.quot_pos; [done | by vm_compute]).
  rewrite py_int_str by done. cbn [mbind option_bind].
  rewrite (proj2 (Z.leb_le MIN_TIMESTAMP _)) by (unfold MIN_TIMESTAMP; lia).
  rewrite (proj2 (Z.leb_le _ _) Hmax). cbn [andb].
  rewrite (Z.gtb_ltb _ tolerance), (proj2 (Z.ltb_ge _ _) Ht).
  rewrite app_assoc, removeprefix_app. fold (timestamp_of now).
  assert (ascii_str (digest_of method path (timestamp_of now) body secret) = true) as ->.
  { apply forallb_forall. intros c Hc%list_elem_of_In. pose proof (hex_of_bytes_chars _
      (hmac_bytes secret (canonical_request method path (timestamp_of now) body))) as Hf.
    rewrite Forall_forall in Hf. by apply hexchar_ascii, Hf. }
  cbn [negb]. by rewrite bool_decide_true.
Qed.

(** A signed request verifies: for any method, path, body and secret, what [sign]
    produced is accepted by [verify] as long as the receiver's clock is within the
    tolerance of the timestamp. *)
Theorem signed_request_verifies `{!DigestBytes} method path body secret now now' tolerance :
  0 <= now → Z.quot now second <= MAX_TIMESTAMP →
  Z.abs (now' - Z.quot now second * second) <= tolerance →
  let r := sign method path body secret now in
  verify method path body secret (sr_signature r) (sr_timestamp r) tolerance now' = Ok tt.
Proof. apply sign_verifies. Qed.

(** The canonical form is unambiguous: two requests whose fields hold no line break
    are signed alike only if they agree on the method, the path, the timestamp and the
    digest of the body. *)
Theorem canonical_request_injective `{!DigestBytes} m m' p p' t t' b b' :
  lf ∉ py_upper m → lf ∉ p → lf ∉ t → lf ∉ py_upper m' → lf ∉ p' → lf ∉ t' →
  canonical_request m p t b = canonical_request m' p' t' b' →
  py_upper m = py_upper m' ∧ p = p' ∧ t = t' ∧
  hex_of_bytes (sha256_digest b) = hex_of_bytes (sha256_digest b').
Proof.
  intros ? ? ? ? ? ? E.
  assert (∀ b, lf ∉ hex_of_bytes (sha256_digest b)) as Hh.
  { intros b0 Hin. pose proof (hex_of_bytes_chars _ (sha_bytes b0)) as Hf.
    rewrite Forall_forall in Hf. by destruct (hexchar_ascii _ (Hf _ Hin)). }
  assert (lf ∉ SCHEME) by (apply (bool_decide_unpack _); by vm_compute).
  apply (f_equal (py_split lf)) in E. unfold canonical_request in E.
  rewrite !py_split_join in E by (done || (repeat constructor; auto)).
  injection E. auto.
Qed.

(** A request that got past the signature and the nonce. *)
Record admitted (s : S2SState) (rq : S2SRequest) (auth : AuthRecord) (sent : datetime) : Prop := {
  ad_auth : s2_auth rq = Ok auth;
  ad_kind : au_kind auth = py "s2s";
  ad_fresh : peek (s2_now rq) (nonce_key (au_app_id auth) (default [] (s2_signature rq))) (ss_nonces s) = None;
  ad_sent : sent_at (default [] (s2_timestamp rq)) = Some sent;
  ad_recent : Z.abs (s2_now rq - sent) <= DEFAULT_TOLERANCE;
  ad_signed : ∃ body secret, s2_body rq = Ok body ∧ s2s_secret_for api_key_pepper auth = Some secret ∧
    digest_of (s2_method rq) (s2_path rq) (default [] (s2_timestamp rq)) body secret
    = removeprefix (SCHEME ++ py "=") (default [] (s2_signature rq))
}.

Lemma note_nonces s rq app st reason detail n : ss_nonces (note s rq app st reason detail n) = ss_nonces s.
Proof. done. Qed.

Lemma accept_s2s_nonces s rq auth : ss_nonces (snd (accept_s2s s rq auth)) = ss_nonces s.
Proof.
  unfold accept_s2s. destruct (s2_decoded rq) as [[|e es]|]; [done | | done].
  destruct (_ >? _); [done |]. destruct (uuid_of_str (au_organization_id auth)); [| done].
  destruct (uuid_of_str (au_app_id auth)); [| done]. destruct (validate_s2s _ _ _ _ _); [| done].
  unfold enqueue_s2s. destruct (filter_new _ _ _ _ _) as [fresh seen1].
  by destruct (append _ _) as [dropped buffer].
Qed.

Lemma verify_ok method path body secret signature timestamp tolerance now :
  verify method path body secret signature timestamp tolerance now = Ok tt →
  ∃ sent, sent_at timestamp = Some sent ∧ Z.abs (now - sent) <= tolerance ∧
    digest_of method path timestamp body secret = removeprefix (SCHEME ++ py "=") signature.
Proof.
  unfold verify. destruct (sent_at timestamp) as [sent|]; [| done].
  destruct (Z.abs (now - sent) >? tolerance) eqn:E; [done |]. rewrite Z.gtb_ltb, Z.ltb_ge in E.
  destruct (ascii_str _); [| done]. cbn [negb]. case_bool_decide as Ed; [| done]. eauto.
Qed.

(** Every request either leaves the nonces alone or is admitted and takes one, and only an
    admitted one can be accepted. *)
Lemma ingest_s2s_cases s rq a s' :
  ingest_s2s s rq = (a, s') →
  (∃ auth sent, admitted s rq auth sent ∧
    ss_nonces s' = rset_ex (s2_now rq) (nonce_key (au_app_id auth) (default [] (s2_signature rq))) tt
      (int_total_seconds REPLAY_WINDOW) (ss_nonces s) ∧
    ∃ s0, tk_buffer (ss_tracker s0) = tk_buffer (ss_tracker s) ∧ accept_s2s s0 rq auth = (a, s')) ∨
  (ss_nonces s' = ss_nonces s ∧ tk_buffer (ss_tracker s') = tk_buffer (ss_tracker s) ∧
   ∀ x y z, a ≠ Ok (S2SAccepted x y z)).
Proof.
  unfold ingest_s2s. case_bool_decide; [intros [= <- <-]; by right |].
  destruct (s2_auth rq) as [auth|] eqn:Ea; [| intros [= <- <-]; by right].
  case_bool_decide as Ek; cbn [negb]; [| intros [= <- <-]; by right].
  destruct (s2_body rq) as [body|] eqn:Eb; [| intros [= <- <-]; by right].
  destruct (_ || _); [intros [= <- <-]; by right |].
  destruct (s2s_secret_for api_key_pepper auth) as [secret|] eqn:Es; [| intros [= <- <-]; by right].
  destruct (verify _ _ _ _ _ _ _ _) as [[]|[]] eqn:Ev; [| intros [= <- <-]; by right..].
  apply verify_ok in Ev as (sent & E1 & E2 & E3). unfold rset_nx.
  destruct (peek _ _ _) eqn:Ep; cbn [negb]; [intros [= <- <-]; by right |].
  intros E. left. exists auth, sent. split; [by split; eauto 10 |]. split.
  - pose proof (accept_s2s_nonces {| ss_tracker := ss_tracker s; ss_nonces := rset_ex (s2_now rq)
      (nonce_key (au_app_id auth) (default [] (s2_signature rq))) () (int_total_seconds REPLAY_WINDOW)
      (ss_nonces s) |} rq auth) as Hn. rewrite E in Hn. exact Hn.
  - eexists. split; [| exact E]. done.
Qed.

Definition passed (a : result S2SException S2SResponse) : Prop := ∃ x y z, a = Ok (S2SAccepted x y z).

Lemma replay_seconds : int_total_seconds REPLAY_WINDOW * second = REPLAY_WINDOW.
Proof. by vm_compute. Qed.

(** A nonce taken stays until its expiry, whatever is served meanwhile. *)
Lemma ingest_keeps_nonce s rq a s' k x :
  ss_nonces s !! k = Some (Entry tt (Some x)) → s2_now rq < x →
  ingest_s2s s rq = (a, s') → ss_nonces s' !! k = Some (Entry tt (Some x)).
Proof.
  intros Hk Ht [(auth & sent & Had & -> & _)|(-> & _)]%ingest_s2s_cases; [| done].
  unfold rset_ex. rewrite lookup_insert_ne; [done |]. intros Ek.
  pose proof (ad_fresh _ _ _ _ Had) as Hfr. unfold peek in Hfr. rewrite Ek, Hk in Hfr.
  unfold live in Hfr. cbn in Hfr. by rewrite (proj2 (Z.ltb_lt _ _) Ht) in Hfr.
Qed.

Lemma serve_keeps_nonce rqs s answers s' k x j rq a :
  serve s rqs = (answers, s') → StronglySorted Z.le (s2_now <$> rqs) →
  ss_nonces s !! k = Some (Entry tt (Some x)) → rqs !! j = Some rq → answers !! j = Some a →
  s2_now rq < x →
  ∃ s1 s2, ss_nonces s1 !! k = Some (Entry tt (Some x)) ∧ ingest_s2s s1 rq = (a, s2).
Proof.
  revert s answers j. induction rqs as [|r rqs IH]; intros s answers j Hs Hsort Hk Hrq Ha Hx; [done |].
  cbn [serve] in Hs. destruct (ingest_s2s s r) as [a0 s1] eqn:E.
  destruct (serve s1 rqs) as [rest s2] eqn:E2. injection Hs as <- <-.
  destruct j as [|j]; cbn in Hrq, Ha; [injection Hrq as <-; injection Ha as <-; eauto |].
  rewrite fmap_cons in Hsort. apply StronglySorted_inv in Hsort as [Hsort Hall].
  apply (IH s1 rest j); [done | done | | done | done | done].
  eapply ingest_keeps_nonce; [done | | done]. rewrite Forall_forall in Hall.
  assert (s2_now r <= s2_now rq); [| lia]. apply Hall, list_elem_of_fmap_2.
  by eapply list_elem_of_lookup_2.
Qed.

Lemma serve_answers rqs s answers s' j rq a :
  serve s rqs = (answers, s') → rqs !! j = Some rq → answers !! j = Some a →
  ∃ s1 s2, ingest_s2s s1 rq = (a, s2).
Proof.
  revert s answers j. induction rqs as [|r rqs IH]; intros s answers j E Hj Ha; [done |].
  cbn [serve] in E. destruct (ingest_s2s s r) as [b s3] eqn:E1. destruct (serve s3 rqs) as [rest s4] eqn:E2.
  injection E as <- ->. destruct j as [|j]; cbn in Hj, Ha; [injection Hj as <-; injection Ha as <-; eauto |].
  by eapply (IH s3 rest j).
Qed.

Lemma passed_admitted s rq a s' auth :
  ingest_s2s s rq = (a, s') → passed a → s2_auth rq = Ok auth →
  ∃ sent, admitted s rq auth sent ∧
    ss_nonces s' !! nonce_key (au_app_id auth) (default [] (s2_signature rq)) =
      Some (Entry tt (Some (s2_now rq + REPLAY_WINDOW))).
Proof.
  intros [(auth' & sent & Had & Hn & _)|(_ & _ & Hno)]%ingest_s2s_cases P Ha.
  - assert (auth' = auth) as -> by (pose proof (ad_auth _ _ _ _ Had); congruence).
    exists sent. split; [done |]. rewrite Hn. unfold rset_ex. by rewrite lookup_insert_eq, replay_seconds.
  - destruct P as (x & y & z & ->). by destruct (Hno x y z).
Qed.

(** A captured request is useless: among requests served one after the other, in
    whatever number and with whatever between them, no two are accepted with the same
    signature and timestamp headers for the same app.  The nonce outlives the tolerance of
    the timestamp. *)
Theorem replay_is_never_accepted s rqs answers s' i j rq1 rq2 a1 a2 auth1 auth2 :
  serve s rqs = (answers, s') → StronglySorted Z.le (s2_now <$> rqs) → (i < j)%nat →
  rqs !! i = Some rq1 → rqs !! j = Some rq2 → answers !! i = Some a1 → answers !! j = Some a2 →
  s2_auth rq1 = Ok auth1 → s2_auth rq2 = Ok auth2 → au_app_id auth1 = au_app_id auth2 →
  s2_signature rq1 = s2_signature rq2 → s2_timestamp rq1 = s2_timestamp rq2 →
  passed a1 → ¬ passed a2.
Proof.
  intros Hs Hsort Hij Hi Hj Hai Haj Ha1 Ha2 Eapp Esig Ets P1 P2.
  revert s answers i j Hs Hij Hi Hj Hai Haj.
  induction rqs as [|r rqs IH]; intros s answers i j Hs Hij Hi Hj Hai Haj; [done |].
  cbn [serve] in Hs. destruct (ingest_s2s s r) as [a0 s1] eqn:E1.
  destruct (serve s1 rqs) as [rest s2] eqn:E2. injection Hs as <- <-.
  rewrite fmap_cons in Hsort. apply StronglySorted_inv in Hsort as [Hsort _].
  destruct j as [|j]; [lia |]. destruct i as [|i]; cbn in Hi, Hj, Hai, Haj.
  2: { eapply (IH Hsort s1 rest i j); [done | lia | done..]. }
  injection Hi as ->. injection Hai as ->.
  destruct (passed_admitted s rq1 a1 s1 auth1 E1 P1 Ha1) as (sent & Had1 & Hk).
  set (k := nonce_key (au_app_id auth1) (default [] (s2_signature rq1))) in *.
  assert (∀ s3 s4, ingest_s2s s3 rq2 = (a2, s4) → ∃ sent2, admitted s3 rq2 auth2 sent2) as Had.
  { intros s3 s4 E3. destruct (passed_admitted s3 rq2 a2 s4 auth2 E3 P2 Ha2) as (sent2 & ? & _). eauto. }
  assert (∀ s3 sent2, admitted s3 rq2 auth2 sent2 → s2_now rq2 < s2_now rq1 + REPLAY_WINDOW) as Hlt.
  { intros s3 sent2 Had2. pose proof (ad_sent _ _ _ _ Had1) as S1. pose proof (ad_sent _ _ _ _ Had2) as S2.
    rewrite <- Ets, S1 in S2. injection S2 as <-.
    pose proof (ad_recent _ _ _ _ Had1) as R1. pose proof (ad_recent _ _ _ _ Had2) as R2.
    change REPLAY_WINDOW with (3 * DEFAULT_TOLERANCE). change DEFAULT_TOLERANCE with 300000000 in *. lia. }
  assert (∃ s3 s4, ingest_s2s s3 rq2 = (a2, s4)) as (s3 & s4 & E3) by (by eapply serve_answers).
  destruct (Had s3 s4 E3) as (sent3 & Had3). specialize (Hlt s3 sent3 Had3).
  destruct (serve_keeps_nonce rqs s1 rest s2 k _ j rq2 a2 E2 Hsort Hk Hj Haj Hlt) as (s5 & s6 & Hk5 & E5).
  destruct (Had s5 s6 E5) as (sent5 & Had5).
  pose proof (ad_fresh _ _ _ _ Had5) as Hfr. rewrite <- Eapp, <- Esig in Hfr. fold k in Hfr.
  unfold peek in Hfr. rewrite Hk5 in Hfr. unfold live in Hfr. cbn in Hfr.
  by rewrite (proj2 (Z.ltb_lt _ _) Hlt) in Hfr.
Qed.

Lemma append_loop_elem {P} c (q : list P) d ps e :
  e ∈ fst (append_loop c q d ps) → e ∈ q ∨ e ∈ ps.
Proof.
  assert (∀ (l : list P) x, e ∈ deque_append c l x → e ∈ l ∨ e = x) as Hd.
  { intros l x. unfold deque_append. destruct (length l =? c)%nat; [intros He%elem_of_drop_in; revert He |];
      rewrite elem_of_app, list_elem_of_singleton; done. }
  revert q d. induction ps as [|p ps IH]; intros q d He; [by left |]. cbn [append_loop] in He.
  destruct (c <=? length q)%nat; apply IH in He as [[He| ->]%Hd|He]; rewrite ?elem_of_cons; auto.
  left. by eapply elem_of_drop_in.
Qed.

Lemma validate_s2s_events events index org app rq queued e :
  validate_s2s events index org app rq = Ok queued → e ∈ queued →
  q_event_name e ∈ S2S_EVENTS ∧ q_app_id e = str_of_uuid app ∧ q_organization_id e = str_of_uuid org ∧
  q_ip_hash e = None.
Proof.
  revert index queued. induction events as [|ev events IH]; intros index queued; cbn [validate_s2s].
  { intros [= <-] He. by apply elem_of_nil in He. }
  case_bool_decide as En; [| done]. cbn [negb]. intros Hq. inv_ok. subst queued.
  intros [->|He]%elem_of_cons; [| by eapply IH]. cbn [with_identifiers q_event_name q_app_id q_organization_id q_ip_hash].
  match goal with Hv : validate_event _ _ _ _ _ _ = Ok _ |- _ => unfold validate_event in Hv end.
  inv_ok. by subst.
Qed.

(** (C34) Only an authentic request adds events: what is accepted came with a server key of
    the app and, on the exact method, path, timestamp and body received, the digest under
    that key's secret, with a timestamp within five minutes; and every event it queues is
    one a server may report, filed under the key's own app and organisation. *)
Theorem accepted_events_are_authentic s rq x y z s' :
  ingest_s2s s rq = (Ok (S2SAccepted x y z), s') →
  ∃ auth sent org app, admitted s rq auth sent ∧
    uuid_of_str (au_organization_id auth) = Some org ∧ uuid_of_str (au_app_id auth) = Some app ∧
    ∀ e, e ∈ b_queue (tk_buffer (ss_tracker s')) →
      e ∈ b_queue (tk_buffer (ss_tracker s)) ∨
      (q_event_name e ∈ S2S_EVENTS ∧ q_app_id e = str_of_uuid app ∧
       q_organization_id e = str_of_uuid org ∧ q_ip_hash e = None).
Proof.
  intros [(auth & sent & Had & _ & s0 & Eb & Ha)|(_ & _ & Hno)]%ingest_s2s_cases;
    [| by destruct (Hno x y z)].
  exists auth, sent. unfold accept_s2s in Ha. destruct (s2_decoded rq) as [[|e es]|]; try done.
  destruct (_ >? _); [done |].
  destruct (uuid_of_str (au_organization_id auth)) as [org|]; [| done].
  destruct (uuid_of_str (au_app_id auth)) as [app|]; [| done]. exists org, app. split; [done |].
  split; [done |]. split; [done |].
  destruct (validate_s2s _ _ _ _ _) as [queued|] eqn:Ev; [| done]. injection Ha as _ <-.
  intros ev. unfold enqueue_s2s. destruct (filter_new _ _ _ _ _) as [fresh seen1]. unfold append.
  rewrite Eb. match goal with |- context [append_loop ?c ?q 0 ?ps] =>
    pose proof (append_loop_elem c q 0 ps ev) as Hel; destruct (append_loop c q 0 ps) as [q' dropped] end.
  cbn [snd ss_tracker tk_buffer b_queue fst] in *. intros [?|[Hin _]%elem_of_lfilter]%Hel; [by left |].
  right. by eapply validate_s2s_events.
Qed.
End Signing.

(** ** Witnesses *)

Definition toy_hmac : Hmac := {| hmac_sha256 := λ k m, (λ c, c mod 256)%N <$> k ++ m |}.
Definition toy_sha : Sha256 := {| sha256_digest := λ b, (λ c, c mod 256)%N <$> b |}.

Lemma toy_digests : @DigestBytes toy_hmac toy_sha.
Proof.
  assert (∀ l : list N, Forall (λ x, (x < 256)%N) ((λ c, c mod 256)%N <$> l)) as Hf.
  { intros l. apply Forall_fmap, Forall_forall. intros x _. by apply N.mod_lt. }
  split; intros; apply Hf.
Qed.

Lemma signed_request_verifies_witness :
  let r := @sign ascii_unicode toy_hmac toy_sha (py "POST") (py "/hook") [1%N; 2%N] (py "s") (1000 * second + 7) in
  @verify ascii_unicode toy_hmac toy_sha (py "POST") (py "/hook") [1%N; 2%N] (py "s") (sr_signature r)
    (sr_timestamp r) DEFAULT_TOLERANCE (1300 * second) = Ok tt.
Proof.
  apply (@signed_request_verifies ascii_unicode toy_hmac toy_sha toy_digests).
  - vm_compute. discriminate.
  - vm_compute. discriminate.
  - vm_compute. discriminate.
Defined.

Lemma canonical_request_injective_witness :
  @canonical_request ascii_unicode toy_sha (py "post") (py "/a") (py "1") [1%N] ≠
  @canonical_request ascii_unicode toy_sha (py "POST") (py "/b") (py "1") [1%N].
Proof.
  intros E.
  destruct (@canonical_request_injective ascii_unicode toy_hmac toy_sha toy_digests
    (py "post") (py "POST") (py "/a") (py "/b") (py "1") (py "1") [1%N] [1%N]) as (_ & Ep & _);
    [apply (bool_decide_unpack _); by vm_compute.. | exact E |].
  discriminate Ep.
Defined.

Definition ex_s2s_auth : AuthRecord :=
  {| au_app_id := str_of_uuid 9%N; au_organization_id := str_of_uuid 1%N;
     au_environment := py "prod"; au_kind := py "s2s"; au_key_hash := [1%N; 2%N];
     au_app_status := py "active"; au_consent_mode := py "strict" |}.

Definition ex_s2s_secret : pystr := default [] (@s2s_secret_for toy_hmac (py "pepper") ex_s2s_auth).

Definition ex_s2s_signed : SignedRequest :=
  @sign ascii_unicode toy_hmac toy_sha (py "POST") (py "/v1/s2s/events") [1%N] ex_s2s_secret (1000 * second).

(** A purchase posted at a time, with a signature header. *)
Definition ex_s2s_request (now : datetime) (signature : pystr) : S2SRequest :=
  {| s2_now := now; s2_authorization := py "Bearer k"; s2_auth := Ok ex_s2s_auth;
     s2_method := py "POST"; s2_path := py "/v1/s2s/events"; s2_body := Ok [1%N];
     s2_signature := Some signature; s2_timestamp := Some (sr_timestamp ex_s2s_signed);
     s2_decoded := Ok [ex_event None (py "purchase") (py "d1") None []];
     s2_mint_event := λ _, str_of_uuid (Z.to_N (now / second)) |}.

Definition ex_s2s_state : S2SState := {| ss_tracker := ex_tracker 10; ss_nonces := ∅ |}.

Abbreviation ex_s2s := (@ingest_s2s ascii_unicode toy_hmac toy_sha ex_lib (py "pepper") ex_window).
Abbreviation ex_serve := (@serve ascii_unicode toy_hmac toy_sha ex_lib (py "pepper") ex_window).

Definition ex_captured : list S2SRequest :=
  [ex_s2s_request (1000 * second) (sr_signature ex_s2s_signed);
   ex_s2s_request (1200 * second) (sr_signature ex_s2s_signed)].

Lemma replay_is_never_accepted_witness :
  fst (ex_serve ex_s2s_state ex_captured) = [Ok (S2SAccepted 1 0 0); Ok S2SReplayed] ∧
  ¬ passed (Ok S2SReplayed).
Proof.
  assert (fst (ex_serve ex_s2s_state ex_captured) = [Ok (S2SAccepted 1 0 0); Ok S2SReplayed]) as E
    by (vm_compute; reflexivity).
  assert (ex_serve ex_s2s_state ex_captured =
    ([Ok (S2SAccepted 1 0 0); Ok S2SReplayed], snd (ex_serve ex_s2s_state ex_captured))) as Hs
    by (rewrite <- E; apply surjective_pairing).
  assert (StronglySorted Z.le (s2_now <$> ex_captured)) as Ht
    by (repeat constructor; vm_compute; discriminate).
  split; [exact E |].
  exact (@replay_is_never_accepted ascii_unicode toy_hmac toy_sha ex_lib (py "pepper") ex_window
    ex_s2s_state ex_captured _ _ 0 1
    (ex_s2s_request (1000 * second) (sr_signature ex_s2s_signed))
    (ex_s2s_request (1200 * second) (sr_signature ex_s2s_signed))
    (Ok (S2SAccepted 1 0 0)) (Ok S2SReplayed) ex_s2s_auth ex_s2s_auth
    Hs Ht Nat.lt_0_1 eq_refl eq_refl eq_refl eq_refl eq_refl eq_refl eq_refl eq_refl eq_refl
    (ex_intro _ 1 (ex_intro _ 0 (ex_intro _ 0 eq_refl)))).
Defined.

Lemma accepted_events_are_authentic_witness :
  ∃ auth sent, @admitted ascii_unicode toy_hmac toy_sha (py "pepper") ex_s2s_state
    (ex_s2s_request (1000 * second) (sr_signature ex_s2s_signed)) auth sent ∧ au_kind auth = py "s2s".
Proof.
  destruct (@accepted_events_are_authentic ascii_unicode toy_hmac toy_sha ex_lib (py "pepper") ex_window
    ex_s2s_state (ex_s2s_request (1000 * second) (sr_signature ex_s2s_signed)) 1 0 0
    (snd (ex_s2s ex_s2s_state (ex_s2s_request (1000 * second) (sr_signature ex_s2s_signed)))))
    as (auth & sent & org & app & Had & _).
  - assert (fst (ex_s2s ex_s2s_state (ex_s2s_request (1000 * second) (sr_signature ex_s2s_signed)))
      = Ok (S2SAccepted 1 0 0)) as E by (vm_compute; reflexivity).
    by rewrite <- E, <- surjective_pairing.
  - exists auth, sent. split; [exact Had | exact (ad_kind _ _ _ _ _ Had)].
Defined.

(** ** What the code does beyond its documentation *)

(** The version prefix is optional to the check but part of the nonce: a captured request
    is accepted a second time without it, and its purchase is queued twice. *)
Lemma dropping_the_prefix_replays_a_request :
  let r := ex_serve ex_s2s_state
    [ex_s2s_request (1000 * second) (sr_signature ex_s2s_signed);
     ex_s2s_request (1200 * second) (drop 3 (sr_signature ex_s2s_signed))] in
  fst r = [Ok (S2SAccepted 1 0 0); Ok (S2SAccepted 1 0 0)] ∧
  length (b_queue (tk_buffer (ss_tracker (snd r)))) = 2%nat.
Proof. split; vm_compute; reflexivity. Qed.

(** A signature header outside ASCII is an unhandled [TypeError], not a refusal. *)
Lemma non_ascii_signature_raises :
  fst (ex_s2s ex_s2s_state (ex_s2s_request (1000 * second) [233%N])) = Err (Raised NonAsciiDigest).
Proof. vm_compute. reflexivity. Qed.
