(* ===== verification/AttributionWorker.v ===== *)
(** * The attribution consumer (mmp_worker/attribution.py)

    [handle] on one event: an identity event links a user, an install is attributed
    and published on the stream of attributed installs.  The world keeps the
    attributions table and its cache, the worker's cached app settings, its metrics and
    what it published; the tables of apps and clicks are arguments, as is the clock. *)

From S2P Require Import Prelude Redis Ids Engine Candidates Fraud Store Schema Referrer.

#[local] Open Scope Z_scope.
#[local] Open Scope mmp_scope.

Definition INSTALL_EVENTS : list pystr := [py "install"].
Definition IDENTITY_EVENTS : list pystr := [py "login"; py "signup"].
Definition APP_CONFIG_TTL : timedelta := 60 * second.

(** [APP_CONFIG_SQL]. *)
Record AppRow := {
  ap_id : uuid;
  ap_organization_id : uuid;
  ap_install_window_days : Z;
  ap_event_window_days : Z
}.

Inductive AttribCounter :=
| Processed | CAttributed | COrganic | CSuperseded | InjectionsFlagged
| ByMethod (m : Method) | ByVerdict (v : FraudVerdict).

#[export] Instance attrib_counter_eq_dec : EqDecision AttribCounter.
Proof. solve_decision. Defined.

Inductive HandleError :=
| BadAppId                      (* [ValueError] of [uuid.UUID] *)
| BadReferrer                   (* [TypeError]: the referrer property is no text *)
| RecordFailed (e : StoreError)
| PublishFailed.

Record AttribWorld := {
  av_db : list AttributionRow;
  av_redis : store CachedAttribution;
  av_config : list (uuid * (AppRow * datetime));
  av_published : list QueuedEvent;
  av_metrics : AttribCounter → Z
}.

(** What a call draws from its surroundings: the clock at the lookup of the settings and
    at the record, the id [uuid7] mints, and whether the stream takes the event. *)
Record HandleEnv := {
  he_now : datetime;
  he_recorded : datetime;
  he_new_id : uuid;
  he_publishes : bool
}.

Definition bump_all (cs : list AttribCounter) (m : AttribCounter → Z) : AttribCounter → Z :=
  λ c, m c + Z.of_nat (length (List.filter (λ c', bool_decide (c' = c)) cs)).

(** [bytes.fromhex]: pairs of digits, with ASCII blanks between them. *)
Definition is_hex_blank (c : N) : bool := in_range 9 13 c || N.eqb c 32.

Fixpoint fromhex (s : pystr) : option (list N) :=
  match s with
  | [] => Some []
  | c :: s' =>
      if is_hex_blank c then fromhex s'
      else
        match s' with
        | d :: s'' =>
            match hex_value c, hex_value d with
            | Some x, Some y => b ← fromhex s''; Some ((16 * x + y)%N :: b)
            | _, _ => None
            end
        | [] => None
        end
  end.

Section AttributionWorker.
Context {U : Unicode}.
Variable order_by : list ClickRow → list ClickRow.

(** [_config]: the settings of an app, with the cache as it is left. *)
Definition config (cache : list (uuid * (AppRow * datetime))) (now : datetime) (apps : list AppRow)
    (app_id : uuid) : option AppRow * list (uuid * (AppRow * datetime)) :=
  let load :=
    match List.find (λ a, bool_decide (ap_id a = app_id)) apps with
    | None => (None, cache)
    | Some row => (Some row, od_set app_id (row, now + APP_CONFIG_TTL) cache)
    end in
  match od_get app_id cache with
  | Some (row, expires) => if expires >? now then (Some row, cache) else load
  | None => load
  end.

(** [parse_referrer(properties.get("install_referrer"))]: a value that is not text is
    taken as absent when it is falsy and raises otherwise. *)
Definition referrer_of (ps : props) : result HandleError (option pystr) :=
  match od_get (py "install_referrer") ps with
  | Some (JStr s) => Ok (Some s)
  | Some v => if json_truthy v then Err BadReferrer else Ok None
  | None => Ok None
  end.

Definition sdk_click_id (event : QueuedEvent) : option uuid :=
  if truthy (q_click_id event) then q_click_id event ≫= uuid_of_str else None.

Definition device_hash_of (ps : props) : option (list N) :=
  match od_get (py "device_hash") ps with Some (JStr digest) => fromhex digest | _ => None end.

Definition install_of (event : QueuedEvent) (app_id : uuid) (referrer : option pystr) : Install :=
  {| i_app_id := app_id; i_anonymous_id := q_anonymous_id event;
     i_installed_at := q_received_at event; i_referrer := referrer;
     i_click_id := sdk_click_id event; i_device_hash := device_hash_of (q_properties event) |}.

(** [[cid for cid in (parsed.click_id, sdk_click_id) if cid is not None]]. *)
Definition click_ids_of (parsed : ParsedReferrer) (event : QueuedEvent) : list uuid :=
  option_list (pf_click_id parsed) ++ option_list (sdk_click_id event).

Definition decide_install (clicks : list ClickRow) (install : Install) (window : Z)
    (parsed : ParsedReferrer) (event : QueuedEvent) : Decision :=
  attribute install
    (load_candidates order_by clicks (i_app_id install) (i_installed_at install) window
       (click_ids_of parsed event) (i_device_hash install))
    window (pf_click_id parsed) false.

Definition assess_decision (d : Decision) : Assessment :=
  assess_install {| click_to_install := d_click_to_install d;
                    click_is_bot := match d_click d with Some c => is_bot c | None => false end |}.

(** The counters of a handled install. *)
Definition counters (d : Decision) (a : Assessment) (stored : StoredAttribution)
    : list AttribCounter :=
  [Processed; ByMethod (d_method d)] ++
  [if bool_decide (d_method d = ORGANIC) then COrganic else CAttributed] ++
  (if bool_decide (is_Some (sa_superseded stored)) then [CSuperseded] else []) ++
  (if bool_decide (verdict a = CLEAN) then [] else [ByVerdict (verdict a)]) ++
  (if d_suspected_injection d then [InjectionsFlagged] else []).

Definition with_config (c : list (uuid * (AppRow * datetime))) (w : AttribWorld) : AttribWorld :=
  {| av_db := av_db w; av_redis := av_redis w; av_config := c; av_published := av_published w;
     av_metrics := av_metrics w |}.

(** What the install is recorded with: the decision and its fraud assessment. *)
Definition args_of (env : HandleEnv) (clicks : list ClickRow) (event : QueuedEvent) (app_id : uuid)
    (row : AppRow) (referrer : option pystr) : RecordArgs :=
  let d := decide_install clicks (install_of event app_id referrer)
             (ap_install_window_days row) (parse_referrer referrer) event in
  {| ra_organization_id := ap_organization_id row; ra_app_id := app_id;
     ra_anonymous_id := q_anonymous_id event; ra_user_id := q_user_id event;
     ra_installed_at := q_received_at event; ra_decision := d;
     ra_event_window_days := ap_event_window_days row; ra_assessment := Some (assess_decision d);
     ra_new_id := he_new_id env; ra_now := he_recorded env |}.

(** The install path, from the settings on. *)
Definition handle_install (env : HandleEnv) (clicks : list ClickRow) (w : AttribWorld)
    (event : QueuedEvent) (app_id : uuid) (row : AppRow) : option HandleError * AttribWorld :=
  match referrer_of (q_properties event) with
  | Err e => (Some e, w)
  | Ok referrer =>
      let args := args_of env clicks event app_id row referrer in
      let d := ra_decision args in
      let a := assess_decision d in
      match record (av_db w) (av_redis w) (he_recorded env) args with
      | Err e => (Some (RecordFailed e), w)
      | Ok (db, redis, stored) =>
          let w := {| av_db := db; av_redis := redis; av_config := av_config w;
                      av_published := av_published w; av_metrics := av_metrics w |} in
          if negb (he_publishes env) then (Some PublishFailed, w)
          else
            (None, {| av_db := av_db w; av_redis := av_redis w; av_config := av_config w;
                      av_published := av_published w ++ [event];
                      av_metrics := bump_all (counters d a stored) (av_metrics w) |})
      end
  end.

Definition handle (env : HandleEnv) (apps : list AppRow) (clicks : list ClickRow)
    (w : AttribWorld) (event : QueuedEvent) : option HandleError * AttribWorld :=
  let canonical := canonical_event_name (q_event_name event) in
  if bool_decide (canonical ∈ IDENTITY_EVENTS) && truthy (q_user_id event) then
    match uuid_of_str (q_app_id event) with
    | None => (Some BadAppId, w)
    | Some app_id =>
        (None, {| av_db := av_db w;
                  av_redis := link_user (av_redis w) (he_now env) app_id (q_anonymous_id event)
                                (default [] (q_user_id event));
                  av_config := av_config w; av_published := av_published w;
                  av_metrics := av_metrics w |})
    end
  else if negb (bool_decide (canonical ∈ INSTALL_EVENTS)) then (None, w)
  else
    match uuid_of_str (q_app_id event) with
    | None => (Some BadAppId, w)
    | Some app_id =>
        match config (av_config w) (he_now env) apps app_id with
        | (None, cache) => (None, with_config cache w)
        | (Some row, cache) => handle_install env clicks (with_config cache w) event app_id row
        end
    end.

(** [run_once] on a batch: the ids to acknowledge. *)
Fixpoint run_batch (env : nat → HandleEnv) (apps : list AppRow) (clicks : list ClickRow)
    (w : AttribWorld) (messages : list (nat * QueuedEvent)) : list nat * AttribWorld :=
  match messages with
  | [] => ([], w)
  | (message_id, event) :: messages =>
      let '(e, w) := handle (env message_id) apps clicks w event in
      let '(acked, w) := run_batch env apps clicks w messages in
      (match e with None => message_id :: acked | Some _ => acked end, w)
  end.

(** ** Lemmas *)

Lemma option_list_spec {T} (o : option T) x : x ∈ option_list o ↔ o = Some x.
Proof. destruct o; cbn; [rewrite list_elem_of_singleton | rewrite elem_of_nil]; naive_solver. Qed.

Lemma install_not_identity n : n ∈ INSTALL_EVENTS → n ∉ IDENTITY_EVENTS.
Proof.
  intros ->%list_elem_of_singleton. apply (bool_decide_unpack _). by vm_compute.
Qed.

(** An install that gets as far as the store is recorded and published. *)
Lemma handle_install_ok env clicks w event app_id row referrer :
  table_ok (av_db w) → fresh_id (av_db w) (he_new_id env) →
  referrer_of (q_properties event) = Ok referrer →
  let args := args_of env clicks event app_id row referrer in
  ∃ w', handle_install env clicks w event app_id row =
      (if he_publishes env then None else Some PublishFailed, w') ∧
    table_ok (av_db w') ∧
    (∀ r, r ∈ av_db w' → a_id r = he_new_id env ∨ ∃ r0, r0 ∈ av_db w ∧ a_id r0 = a_id r) ∧
    av_published w' = av_published w ++ (if he_publishes env then [event] else []) ∧
    ∀ app key, fetch_current (av_db w') app key =
      if same_install app key args then upgrade (fetch_current (av_db w) app key) args
      else fetch_current (av_db w) app key.
Proof.
  intros Hok Hfr Hr args. unfold handle_install. rewrite Hr. fold args.
  destruct (record_step (av_db w) (av_redis w) (he_recorded env) args Hok Hfr)
    as (db' & redis' & stored & E & Hok' & Hcur).
  cbv zeta. rewrite E.
  destruct (he_publishes env); (eexists; split_and!; [reflexivity | exact Hok' | | | exact Hcur]).
  - intros r. apply (record_ids _ _ _ _ _ _ _ r E).
  - done.
  - intros r. apply (record_ids _ _ _ _ _ _ _ r E).
  - by rewrite app_nil_r.
Qed.

(** What the postback sender relies on: a published install has a current attribution. *)
Definition published_recorded (w : AttribWorld) : Prop :=
  ∀ e, e ∈ av_published w → ∃ app_id c, uuid_of_str (q_app_id e) = Some app_id ∧
    fetch_current (av_db w) app_id (install_key app_id (q_anonymous_id e)) = Some c.

Lemma config_known cache now apps app_id :
  app_id ∈ (ap_id <$> apps) → is_Some (fst (config cache now apps app_id)).
Proof.
  intros (a & Ea & Ha)%list_elem_of_fmap. unfold config.
  destruct (List.find _ apps) as [row|] eqn:F.
  - destruct (od_get app_id cache) as [[r x]|]; [destruct (x >? now) |]; eauto.
  - exfalso. apply list_elem_of_In in Ha. pose proof (find_none _ _ F a Ha) as H. cbn in H.
    by rewrite bool_decide_true in H.
Qed.

Lemma upgrade_is_Some old args : is_Some (upgrade old args).
Proof. unfold upgrade. destruct old as [o|]; [destruct (should_supersede _ _) |]; eauto. Qed.

(** One event: the table stays well formed, its new ids are the minted one, what was
    recorded stays recorded and what is published has been recorded. *)
Lemma handle_step env apps clicks w event e w' :
  table_ok (av_db w) → fresh_id (av_db w) (he_new_id env) → published_recorded w →
  handle env apps clicks w event = (e, w') →
  table_ok (av_db w') ∧ published_recorded w' ∧
  (∀ r, r ∈ av_db w' → a_id r = he_new_id env ∨ ∃ r0, r0 ∈ av_db w ∧ a_id r0 = a_id r) ∧
  (∀ ev, ev ∈ av_published w → ev ∈ av_published w') ∧
  (e = None → canonical_event_name (q_event_name event) ∈ INSTALL_EVENTS →
   ∀ app_id, uuid_of_str (q_app_id event) = Some app_id → app_id ∈ (ap_id <$> apps) →
   event ∈ av_published w').
Proof.
  intros Hok Hfr Hpub. unfold handle.
  assert (∀ r, r ∈ av_db w → a_id r = he_new_id env ∨ ∃ r0, r0 ∈ av_db w ∧ a_id r0 = a_id r)
    as Hsame by eauto.
  destruct (_ && _) eqn:Hid.
  { apply andb_true_iff in Hid as [Hid%bool_decide_eq_true _].
    assert (canonical_event_name (q_event_name event) ∉ INSTALL_EVENTS) as Hno
      by (intros H; by apply (install_not_identity _ H)).
    destruct (uuid_of_str _); intros [= <- <-]; split_and!; try done; intros; by exfalso. }
  clear Hid. case_bool_decide as Hin; cbn [negb]; [| intros [= <- <-]; split_and!; done].
  destruct (uuid_of_str (q_app_id event)) as [app_id|] eqn:Happ;
    [| intros [= <- <-]; split_and!; done].
  destruct (config _ _ _ _) as [[row|] cache] eqn:Hcfg.
  2: { intros [= <- <-]. split_and!; try done. intros _ _ ? [= <-] Hk.
       apply (config_known (av_config w) (he_now env)) in Hk. rewrite Hcfg in Hk. by destruct Hk. }
  destruct (referrer_of (q_properties event)) as [referrer|er] eqn:Href.
  2: { unfold handle_install. rewrite Href. intros [= <- <-]. by split_and!. }
  destruct (handle_install_ok env clicks (with_config cache w) event app_id row referrer Hok Hfr Href)
    as (w1 & E & Hok' & Hids & Hp & Hcur). rewrite E. intros [= <- <-].
  cbn [with_config av_db av_published] in *.
  split; [done |]. split; [| split; [done |]]; rewrite ?Hp.
  - intros ev Hev. rewrite Hp in Hev. apply elem_of_app in Hev as [Hev|Hev].
    + destruct (Hpub ev Hev) as (a & c & Ea & Ec). exists a. rewrite Hcur.
      destruct (same_install _ _ _); [| eauto]. destruct (upgrade_is_Some
        (fetch_current (av_db w) a (install_key a (q_anonymous_id ev)))
        (args_of env clicks event app_id row referrer)) as [c' Ec']. eauto.
    + destruct (he_publishes env); [| by apply elem_of_nil in Hev].
      apply list_elem_of_singleton in Hev as ->. exists app_id. rewrite Hcur.
      rewrite (proj2 (same_install_spec _ _ _)) by done.
      destruct (upgrade_is_Some (fetch_current (av_db w) app_id
        (install_key app_id (q_anonymous_id event)))
        (args_of env clicks event app_id row referrer)) as [c' Ec']. eauto.
  - split; [intros; rewrite elem_of_app; auto |]. intros He _ _ _ _.
    destruct (he_publishes env); [| done]. rewrite elem_of_app, list_elem_of_singleton. auto.
Qed.

(** ** Theorems *)

(** (C11) Handling an install end to end: when its app is known, its event well formed and
    its device has at most [MAX_DEVICE_CANDIDATES] clicks in the window, the install is
    recorded and published once.  If it had no attribution, its current one is the decision
    the engine reaches on every click of the app; if it had one, that decision replaces it
    only if its method has the better evidence, and otherwise the old attribution is kept
    as it was. *)
Theorem install_is_attributed env apps clicks w event app_id row cache referrer :
  canonical_event_name (q_event_name event) ∈ INSTALL_EVENTS →
  uuid_of_str (q_app_id event) = Some app_id →
  config (av_config w) (he_now env) apps app_id = (Some row, cache) →
  referrer_of (q_properties event) = Ok referrer →
  he_publishes env = true → table_ok (av_db w) → fresh_id (av_db w) (he_new_id env) →
  OrdersNewestFirst order_by → unique_rows clicks →
  let install := install_of event app_id referrer in
  let window := ap_install_window_days row in
  (∀ h, i_device_hash install = Some h →
    (length (by_device_rows clicks app_id h (i_installed_at install - window * day)
               (i_installed_at install)) <= MAX_DEVICE_CANDIDATES)%nat) →
  let d := attribute install (all_clicks clicks app_id) window
             (pf_click_id (parse_referrer referrer)) false in
  let key := install_key app_id (q_anonymous_id event) in
  ∃ w' c, handle env apps clicks w event = (None, w') ∧
    av_published w' = av_published w ++ [event] ∧ table_ok (av_db w') ∧
    fetch_current (av_db w') app_id key = Some c ∧
    match fetch_current (av_db w) app_id key with
    | None => a_method c = d_method d ∧ a_click_id c = d_click_id d ∧ a_id c = he_new_id env
    | Some old =>
        if should_supersede (a_method old) (d_method d)
        then a_method c = d_method d ∧ a_click_id c = d_click_id d ∧ a_id c = he_new_id env
        else c = old
    end.
Proof.
  intros Hname Happ Hcfg Href Hpub Hok Hfr HO Hu install window Hcap d key.
  unfold handle. rewrite (bool_decide_false (_ ∈ IDENTITY_EVENTS)) by (by apply install_not_identity).
  rewrite (bool_decide_true (_ ∈ INSTALL_EVENTS)) by done. cbn [andb negb]. rewrite Happ, Hcfg.
  destruct (handle_install_ok env clicks (with_config cache w) event app_id row referrer Hok Hfr Href)
    as (w' & E & Hok' & _ & Hpub' & Hcur). rewrite Hpub in E, Hpub'.
  assert (∀ id, id ∈ click_ids_of (parse_referrer referrer) event ↔
    pf_click_id (parse_referrer referrer) = Some id ∨ i_click_id install = Some id) as Hids.
  { intros id. unfold click_ids_of. rewrite elem_of_app, !option_list_spec. done. }
  destruct (loaded_same_decision order_by clicks install window
    (pf_click_id (parse_referrer referrer)) (click_ids_of (parse_referrer referrer) event)
    HO Hu Hids Hcap) as [Hm Hc].
  set (args := args_of env clicks event app_id row referrer) in *.
  assert (d_method (ra_decision args) = d_method d ∧ d_click (ra_decision args) = d_click d) as [Em Ec]
    by done.
  assert (a_method (row_of args) = d_method d ∧ a_click_id (row_of args) = d_click_id d ∧
    a_id (row_of args) = he_new_id env) as Hrow.
  { cbn [row_of a_method a_click_id a_id]. unfold d_click_id. by rewrite Em, Ec. }
  specialize (Hcur app_id key).
  assert (same_install app_id key args = true) as Hsame by (by apply same_install_spec).
  rewrite Hsame in Hcur. unfold upgrade in Hcur. cbn [with_config av_db] in Hcur.
  destruct (fetch_current (av_db w) app_id key) as [old|].
  - rewrite Em in Hcur. destruct (should_supersede (a_method old) (d_method d));
      eexists w', _; (split; [exact E |]; split; [exact Hpub' |]; split; [exact Hok' |];
      split; [exact Hcur |]); [exact Hrow | reflexivity].
  - eexists w', _; split; [exact E |]; split; [exact Hpub' |]; split; [exact Hok' |];
      split; [exact Hcur | exact Hrow].
Qed.

(** Over any batch, well formed or not, of installs whose minted ids are fresh: the
    table of attributions stays well formed, every install on the published stream has a
    current attribution in it, only messages of the batch are acknowledged, and an
    acknowledged install of a known app has been published. *)
Theorem published_installs_are_attributed env apps clicks messages w acked w' :
  NoDup ((λ m : nat * QueuedEvent, he_new_id (env (fst m))) <$> messages) →
  (∀ m, m ∈ messages → fresh_id (av_db w) (he_new_id (env (fst m)))) →
  table_ok (av_db w) → published_recorded w →
  run_batch env apps clicks w messages = (acked, w') →
  table_ok (av_db w') ∧ published_recorded w' ∧
  (∀ e, e ∈ av_published w → e ∈ av_published w') ∧
  ∀ message_id, message_id ∈ acked → ∃ event, (message_id, event) ∈ messages ∧
    (canonical_event_name (q_event_name event) ∈ INSTALL_EVENTS →
     ∀ app_id, uuid_of_str (q_app_id event) = Some app_id → app_id ∈ (ap_id <$> apps) →
     event ∈ av_published w').
Proof.
  revert w acked. induction messages as [|[message_id event] messages IH]; intros w acked Hnd Hfr Hok Hpub.
  { intros [= <- <-]. split_and!; [done.. |]. by intros ? ?%elem_of_nil. }
  cbn [run_batch]. destruct (handle _ _ _ w event) as [e w1] eqn:E.
  destruct (run_batch env apps clicks w1 messages) as [acked1 w2] eqn:R. intros [= <- <-].
  rewrite fmap_cons, NoDup_cons in Hnd. destruct Hnd as [Hnew Hnd].
  destruct (handle_step _ _ _ _ _ _ _ Hok (Hfr _ (list_elem_of_here _ _)) Hpub E)
    as (Hok1 & Hpub1 & Hids & Hkeep & Hinst).
  destruct (IH w1 acked1) as (Hok2 & Hpub2 & Hkeep2 & Hacked); [done | | done | done | done |].
  { intros m Hm r Hr Eid. destruct (Hids r Hr) as [E1|(r0 & Hr0 & E1)].
    - apply Hnew. change (he_new_id (env message_id)) with (he_new_id (env (message_id, event).1)).
      rewrite <- E1, Eid. by apply (list_elem_of_fmap_2 (λ m : nat * QueuedEvent, he_new_id (env (fst m)))).
    - apply (Hfr m (list_elem_of_further _ _ _ Hm) r0 Hr0). by rewrite E1. }
  split_and!; [done | done | auto |]. intros id Hid.
  assert (id ∈ acked1 ∨ (id = message_id ∧ e = None)) as [Hid1|[-> ->]].
  { destruct e; [by left |]. apply elem_of_cons in Hid as [->|Hid]; auto. }
  - destruct (Hacked id Hid1) as (ev & Hev & H). exists ev. split; [by right | done].
  - exists event. split; [by left |]. intros. eapply Hkeep2, Hinst; eauto.
Qed.
End AttributionWorker.

(** ** Witnesses *)

Definition ex_install_event (name : pystr) (referrer : json) : QueuedEvent :=
  {| q_event_id := str_of_uuid 4; q_received_at := 1000 * second; q_occurred_at := 1000 * second;
     q_organization_id := str_of_uuid 2; q_app_id := str_of_uuid 9;
     q_event_name := name; q_anonymous_id := py "d"; q_user_id := None;
     q_session_id := None; q_platform := 1; q_os_version := None; q_app_version := None;
     q_device_model := None; q_country := None; q_ip_hash := None; q_click_id := None;
     q_revenue_minor := None; q_currency := None; q_clock_skew_ms := None;
     q_properties := [(py "install_referrer", referrer); (py "device_hash", JStr (py "07"))];
     q_correlation_id := None |}.

Definition ex_referrer : pystr := play_referrer (str_of_uuid 1) None.

Definition ex_apps : list AppRow :=
  [ {| ap_id := 9%N; ap_organization_id := 2%N; ap_install_window_days := 7;
       ap_event_window_days := 30 |} ].

Definition ex_worker : AttribWorld :=
  {| av_db := []; av_redis := ∅; av_config := []; av_published := []; av_metrics := λ _, 0 |}.

Definition ex_env (n : nat) : HandleEnv :=
  {| he_now := 1001 * second; he_recorded := 1002 * second; he_new_id := N.of_nat (500 + n);
     he_publishes := true |}.

(** The referrer names click 1 although the device clicked again later. *)
Lemma install_is_attributed_witness :
  ∃ w' c, @handle ascii_unicode ex_order_by (ex_env 0) ex_apps Candidates.ex_table ex_worker
      (ex_install_event (py "Install") (JStr ex_referrer)) = (None, w') ∧
    fetch_current (av_db w') 9%N (install_key 9%N (py "d")) = Some c ∧
    a_method c = REFERRER ∧ a_click_id c = Some 1%N.
Proof.
  destruct (@install_is_attributed ascii_unicode ex_order_by (ex_env 0) ex_apps Candidates.ex_table ex_worker
    (ex_install_event (py "Install") (JStr ex_referrer)) 9%N
    {| ap_id := 9%N; ap_organization_id := 2%N; ap_install_window_days := 7;
       ap_event_window_days := 30 |}
    (snd (config [] (1001 * second) ex_apps 9%N)) (Some ex_referrer))
    as (w' & c & H & _ & _ & Hc & Hm & Hi & _).
  - apply (bool_decide_unpack _). by vm_compute.
  - vm_compute. reflexivity.
  - vm_compute. reflexivity.
  - vm_compute. reflexivity.
  - reflexivity.
  - apply table_ok_nil.
  - intros r Hr. by apply elem_of_nil in Hr.
  - exact ex_order_by_ok.
  - exact ex_table_unique.
  - intros h Hh. vm_compute in Hh. injection Hh as <-. apply Nat.leb_le. vm_compute. reflexivity.
  - exists w', c. split; [exact H |]. split; [exact Hc |].
    split; [rewrite Hm | rewrite Hi]; vm_compute; reflexivity.
Defined.

(** A batch with an install whose referrer is no text, which is not acknowledged, an event
    of another kind and a good install. *)
Definition ex_batch : list (nat * QueuedEvent) :=
  [(0%nat, ex_install_event (py "install") (JInt 7)); (1%nat, ex_install_event (py "open") JNull);
   (2%nat, ex_install_event (py "install") (JStr ex_referrer))].

Lemma published_installs_are_attributed_witness :
  let r := @run_batch ascii_unicode ex_order_by ex_env ex_apps Candidates.ex_table ex_worker ex_batch in
  fst r = [1%nat; 2%nat] ∧ length (av_published (snd r)) = 1%nat ∧
  @published_recorded ascii_unicode (snd r).
Proof.
  split; [vm_compute; reflexivity |]. split; [vm_compute; reflexivity |].
  refine (proj1 (proj2 (@published_installs_are_attributed ascii_unicode ex_order_by ex_env ex_apps
    Candidates.ex_table ex_batch ex_worker _ _ _ _ table_ok_nil _ (surjective_pairing _)))).
  - apply (bool_decide_unpack _). by vm_compute.
  - intros m _ r Hr. by apply elem_of_nil in Hr.
  - intros e He. by apply elem_of_nil in He.
Defined.
