(* ===== verification/Envelope.v ===== *)
(** * Envelope encryption (mmp_crypto/envelope.py, mmp_crypto/kms.py)

    AES-GCM and the KMS client are parameters; the bytes [os.urandom] draws are
    arguments.  [MasterKeyProvider] is the protocol of the source,
    [MasterKeyLaws] what sealing relies on, and the local and the KMS provider are
    its two instances.  The KMS provider keeps a bounded cache of unwrapped keys,
    oldest first, and threads it through [unwrap]. *)

From S2P Require Import Prelude Ids.

#[local] Open Scope Z_scope.
#[local] Open Scope mmp_scope.

Abbreviation bytes := (list N) (only parsing).

Definition DEK_BYTES : nat := 32.
Definition NONCE_BYTES : nat := 12.
Definition DEK_WRAP : bytes := py "dek-wrap".

(** ** AES-GCM

    [aead_decrypt] is [None] when the library raises.  The laws are the documented
    behaviour of an authenticated cipher on a key of the right length: it inverts
    encryption, it refuses a ciphertext under other associated data, and its output
    carries a tag. *)
Class AEAD := {
  aead_encrypt : bytes → bytes → bytes → bytes → bytes;
  aead_decrypt : bytes → bytes → bytes → bytes → option bytes
}.

Class AEADLaws `{AEAD} : Prop := {
  aead_inverse key nonce plaintext aad :
    length key = DEK_BYTES →
    aead_decrypt key nonce (aead_encrypt key nonce plaintext aad) aad = Some plaintext;
  aead_binds_aad key nonce plaintext aad aad' :
    length key = DEK_BYTES → aad ≠ aad' →
    aead_decrypt key nonce (aead_encrypt key nonce plaintext aad) aad' = None;
  aead_tagged key nonce plaintext aad : aead_encrypt key nonce plaintext aad ≠ []
}.

Inductive KeyFailure :=
| UnknownVersion (version : Z)        (* [KeyError] *)
| BadKeyLength                        (* [ValueError] *)
| KmsError                            (* the KMS call raised *)
| InvalidTag.                         (* AES-GCM refused the ciphertext *)

Record SealedSecret := {
  ss_ciphertext : bytes;
  ss_nonce : bytes;
  ss_wrapped_dek : bytes;
  ss_key_version : Z
}.

(** ** The provider protocol *)

(** [wrap] takes the random bytes it may use; [unwrap] the clock, and returns the
    provider as the call leaves it. *)
Class MasterKeyProvider (P : Type) := {
  current_version : P → Z;
  wrap : P → bytes → bytes → result KeyFailure bytes;
  unwrap : P → datetime → bytes → Z → result KeyFailure bytes * P
}.

(** [opens p w v dek]: the provider can recover [dek] from [w], wrapped at [v]. *)
Class MasterKeyLaws (P : Type) `{MasterKeyProvider P} := {
  provider_ok : P → Prop;
  opens : P → bytes → Z → bytes → Prop;
  wrap_opens p random dek w :
    provider_ok p → length random = NONCE_BYTES → length dek = DEK_BYTES →
    wrap p random dek = Ok w → opens p w (current_version p) dek;
  unwrap_opens p now w v dek :
    provider_ok p → opens p w v dek → fst (unwrap p now w v) = Ok dek;
  unwrap_ok p now w v : provider_ok p → provider_ok (snd (unwrap p now w v));
  unwrap_keeps p now w v w' v' dek :
    provider_ok p → opens p w' v' dek → opens (snd (unwrap p now w v)) w' v' dek
}.

(** ** Sealing *)

Section Sealing.
Context `{AEAD} {P : Type} `{MasterKeyProvider P}.

Definition seal (plaintext : bytes) (provider : P) (aad dek nonce random : bytes)
    : result KeyFailure SealedSecret :=
  let ciphertext := aead_encrypt dek nonce plaintext aad in
  let* wrapped := wrap provider random dek in
  Ok {| ss_ciphertext := ciphertext; ss_nonce := nonce; ss_wrapped_dek := wrapped;
        ss_key_version := current_version provider |}.

Definition open_sealed (s : SealedSecret) (provider : P) (now : datetime) (aad : bytes)
    : result KeyFailure bytes * P :=
  match unwrap provider now (ss_wrapped_dek s) (ss_key_version s) with
  | (Err e, provider) => (Err e, provider)
  | (Ok dek, provider) =>
      (match aead_decrypt dek (ss_nonce s) (ss_ciphertext s) aad with
       | Some plaintext => Ok plaintext
       | None => Err InvalidTag
       end, provider)
  end.

Definition organization_aad (organization_id : uuid) : bytes :=
  py "org:" ++ str_of_uuid organization_id.
End Sealing.

(** [rewrap]: the new provider may be of another kind than the old one. *)
Definition rewrap {P Q : Type} `{MasterKeyProvider P} `{MasterKeyProvider Q}
    (s : SealedSecret) (old : P) (new : Q) (now : datetime) (random : bytes)
    : result KeyFailure SealedSecret :=
  let* dek := fst (unwrap old now (ss_wrapped_dek s) (ss_key_version s)) in
  let* wrapped := wrap new random dek in
  Ok {| ss_ciphertext := ss_ciphertext s; ss_nonce := ss_nonce s; ss_wrapped_dek := wrapped;
        ss_key_version := current_version new |}.

(** ** LocalMasterKeyProvider *)

Record LocalMasterKeyProvider := { lp_keys : list (Z * bytes); lp_current : Z }.

(** [__init__]. *)
Definition local_provider (master_keys : list (Z * bytes)) (current : Z)
    : result KeyFailure LocalMasterKeyProvider :=
  match od_get current master_keys with
  | None => Err (UnknownVersion current)
  | Some _ =>
      let* _ := raise_if (negb (forallb (λ vk, Nat.eqb (length (snd vk)) DEK_BYTES) master_keys))
                  BadKeyLength in
      Ok {| lp_keys := master_keys; lp_current := current |}
  end.

Section Local.
Context `{AEAD}.

Definition local_wrap (self : LocalMasterKeyProvider) (nonce dek : bytes)
    : result KeyFailure bytes :=
  match od_get (lp_current self) (lp_keys self) with
  | None => Err (UnknownVersion (lp_current self))
  | Some key => Ok (nonce ++ aead_encrypt key nonce dek DEK_WRAP)
  end.

Definition local_unwrap (self : LocalMasterKeyProvider) (wrapped : bytes) (version : Z)
    : result KeyFailure bytes :=
  match od_get version (lp_keys self) with
  | None => Err (UnknownVersion version)
  | Some key =>
      match aead_decrypt key (take NONCE_BYTES wrapped) (drop NONCE_BYTES wrapped) DEK_WRAP with
      | Some dek => Ok dek
      | None => Err InvalidTag
      end
  end.

#[export] Instance local_master_keys : MasterKeyProvider LocalMasterKeyProvider := {
  current_version := lp_current;
  wrap := local_wrap;
  unwrap self _ wrapped version := (local_unwrap self wrapped version, self)
}.
End Local.

(** ** KmsMasterKeyProvider *)

Definition DEFAULT_CACHE_TTL : timedelta := 5 * minute.
Definition DEFAULT_CACHE_SIZE : nat := 1000.

(** The client: each call answers or raises.  The encryption context is the same
    constant in both calls. *)
Record KmsClient := {
  kc_encrypt : bytes → option bytes;
  kc_decrypt : bytes → option bytes
}.

Record KmsMasterKeyProvider := {
  kp_client : KmsClient;
  kp_version : Z;
  kp_cache_ttl : timedelta;
  kp_cache_size : nat;
  kp_cache : list (bytes * (bytes * datetime))
}.

Definition set_cache (c : list (bytes * (bytes * datetime))) (self : KmsMasterKeyProvider)
    : KmsMasterKeyProvider :=
  {| kp_client := kp_client self; kp_version := kp_version self;
     kp_cache_ttl := kp_cache_ttl self; kp_cache_size := kp_cache_size self; kp_cache := c |}.

(** [__init__]: an empty key id is refused. *)
Definition kms_provider (client : KmsClient) (key_id : pystr) (version : Z) (ttl : timedelta)
    (size : nat) : result KeyFailure KmsMasterKeyProvider :=
  let* _ := raise_if (negb (truthy (Some key_id))) BadKeyLength in
  Ok {| kp_client := client; kp_version := version; kp_cache_ttl := ttl;
        kp_cache_size := size; kp_cache := [] |}.

Definition kms_wrap (self : KmsMasterKeyProvider) (dek : bytes) : result KeyFailure bytes :=
  let* _ := raise_if (negb (Nat.eqb (length dek) DEK_BYTES)) BadKeyLength in
  match kc_encrypt (kp_client self) dek with Some blob => Ok blob | None => Err KmsError end.

(** [move_to_end]. *)
Definition move_to_end {V} (k : bytes) (v : V) (c : list (bytes * V)) : list (bytes * V) :=
  od_del k c ++ [(k, v)].

(** [_cached]: the key of a live entry, which becomes the newest; an expired entry
    is removed. *)
Definition cached (now : datetime) (wrapped : bytes) (c : list (bytes * (bytes * datetime)))
    : option bytes * list (bytes * (bytes * datetime)) :=
  match od_get wrapped c with
  | None => (None, c)
  | Some (dek, expires) =>
      if expires <=? now then (None, od_del wrapped c)
      else (Some dek, move_to_end wrapped (dek, expires) c)
  end.

(** [_remember]: the loop drops the oldest entries beyond the size. *)
Definition remember (now : datetime) (ttl : timedelta) (size : nat) (wrapped dek : bytes)
    (c : list (bytes * (bytes * datetime))) : list (bytes * (bytes * datetime)) :=
  let c := move_to_end wrapped (dek, now + ttl) c in
  drop (length c - size) c.

Definition kms_unwrap (self : KmsMasterKeyProvider) (now : datetime) (wrapped : bytes)
    (version : Z) : result KeyFailure bytes * KmsMasterKeyProvider :=
  if negb (version =? kp_version self) then (Err (UnknownVersion version), self)
  else
    match cached now wrapped (kp_cache self) with
    | (Some dek, c) => (Ok dek, set_cache c self)
    | (None, c) =>
        match kc_decrypt (kp_client self) wrapped with
        | None => (Err KmsError, set_cache c self)
        | Some dek =>
            (Ok dek,
             set_cache (remember now (kp_cache_ttl self) (kp_cache_size self) wrapped dek c) self)
        end
    end.

Definition clear_cache (self : KmsMasterKeyProvider) : nat * KmsMasterKeyProvider :=
  (length (kp_cache self), set_cache [] self).

#[export] Instance kms_master_keys : MasterKeyProvider KmsMasterKeyProvider := {
  current_version := kp_version;
  wrap self _ dek := kms_wrap self dek;
  unwrap := kms_unwrap
}.

(** ** Choosing a provider (kms.py, [provider_from_settings]) *)

Record KeySettings := { ks_kms_key_id : option pystr; ks_is_prod : bool; ks_session_secret : pystr }.

Inductive Provider := UseKms (p : KmsMasterKeyProvider) | UseLocal (p : LocalMasterKeyProvider).

Inductive StartupError := KmsKeyRequired | ProviderRefused (e : KeyFailure).

(** [sha256] is of the encoded text. *)
Definition provider_from_settings (sha256 : pystr → bytes) (client : KmsClient) (s : KeySettings)
    : result StartupError Provider :=
  if truthy (ks_kms_key_id s) then
    match kms_provider client (default [] (ks_kms_key_id s)) 1 DEFAULT_CACHE_TTL
            DEFAULT_CACHE_SIZE with
    | Ok p => Ok (UseKms p)
    | Err e => Err (ProviderRefused e)
    end
  else if ks_is_prod s then Err KmsKeyRequired
  else
    match local_provider [(1, sha256 (ks_session_secret s))] 1 with
    | Ok p => Ok (UseLocal p)
    | Err e => Err (ProviderRefused e)
    end.

(** ** A provider in use

    Calls at any times, each with the client as it answers at that moment: an outage
    or a revoked grant is a client that raises. *)
Record UnwrapCall := {
  uc_now : datetime;
  uc_client : KmsClient;
  uc_wrapped : bytes;
  uc_version : Z
}.

Inductive KmsOp := Unwrap (c : UnwrapCall) | Clear.

Definition with_client (client : KmsClient) (self : KmsMasterKeyProvider) : KmsMasterKeyProvider :=
  {| kp_client := client; kp_version := kp_version self; kp_cache_ttl := kp_cache_ttl self;
     kp_cache_size := kp_cache_size self; kp_cache := kp_cache self |}.

Definition kms_call (self : KmsMasterKeyProvider) (c : UnwrapCall)
    : result KeyFailure bytes * KmsMasterKeyProvider :=
  kms_unwrap (with_client (uc_client c) self) (uc_now c) (uc_wrapped c) (uc_version c).

Definition kms_op (self : KmsMasterKeyProvider) (op : KmsOp) : KmsMasterKeyProvider :=
  match op with
  | Unwrap c => snd (kms_call self c)
  | Clear => snd (clear_cache self)
  end.

Definition kms_after (self : KmsMasterKeyProvider) (ops : list KmsOp) : KmsMasterKeyProvider :=
  foldl kms_op self ops.

(** The call at [j] asked the KMS for [w] and got [dek], and the cache was not
    cleared since. *)
Definition answered (ops : list KmsOp) (j : nat) (w dek : bytes) (at_ : datetime) : Prop :=
  ∃ c, ops !! j = Some (Unwrap c) ∧ uc_wrapped c = w ∧ uc_now c = at_ ∧
    kc_decrypt (uc_client c) w = Some dek ∧
    ∀ k, (j < k < length ops)%nat → ops !! k ≠ Some Clear.

(** ** Lemmas on the cache *)

Lemma od_del_elem {V} k (c : list (bytes * V)) x : x ∈ od_del k c ↔ x ∈ c ∧ fst x ≠ k.
Proof.
  unfold od_del. rewrite elem_of_lfilter. destruct (bool_decide_reflect (fst x = k)); naive_solver.
Qed.

Lemma od_del_length {V} k (c : list (bytes * V)) : (length (od_del k c) <= length c)%nat.
Proof. apply filter_length_le. Qed.

Lemma od_del_present {V} k (v : V) (c : list (bytes * V)) :
  od_get k c = Some v → (length (od_del k c) < length c)%nat.
Proof.
  induction c as [|[k' v'] c IH]; [done |]. unfold od_del. simpl. case_decide as E.
  - intros _. subst. rewrite bool_decide_true by done. simpl.
    pose proof (od_del_length k' c). unfold od_del in *. lia.
  - intros Hg. rewrite bool_decide_false by congruence. simpl. specialize (IH Hg).
    unfold od_del in IH. lia.
Qed.

Lemma cached_elem now w c d c' x : cached now w c = (d, c') → x ∈ c' → x ∈ c.
Proof.
  unfold cached. destruct (od_get w c) as [[dek e]|] eqn:Hg; [| by intros [= <- <-]].
  destruct (e <=? now); intros [= <- <-].
  - by intros [? ?]%od_del_elem.
  - unfold move_to_end. rewrite elem_of_app, list_elem_of_singleton.
    intros [[? ?]%od_del_elem | ->]; [done | by apply od_get_elem].
Qed.

Lemma cached_hit now w c dek c' :
  cached now w c = (Some dek, c') → ∃ expires, (w, (dek, expires)) ∈ c ∧ now < expires.
Proof.
  unfold cached. destruct (od_get w c) as [[dek' e]|] eqn:Hg; [| done].
  destruct (Z.leb_spec e now); intros [= <- <-]. exists e. split; [by apply od_get_elem | done].
Qed.

Lemma cached_length now w c d c' : cached now w c = (d, c') → (length c' <= length c)%nat.
Proof.
  unfold cached. destruct (od_get w c) as [[dek e]|] eqn:Hg; [| by intros [= <- <-]].
  apply od_del_present in Hg as Hl.
  destruct (e <=? now); intros [= <- <-]; [lia |]. unfold move_to_end. rewrite length_app. simpl. lia.
Qed.

Lemma remember_elem now ttl size w dek c x :
  x ∈ remember now ttl size w dek c → x = (w, (dek, now + ttl)) ∨ x ∈ c.
Proof.
  unfold remember, move_to_end. intros Hx%elem_of_drop_in.
  apply elem_of_app in Hx as [[? ?]%od_del_elem | ->%list_elem_of_singleton]; auto.
Qed.

Lemma remember_length now ttl size w dek c :
  (length (remember now ttl size w dek c) <= size)%nat.
Proof. unfold remember. rewrite length_drop. lia. Qed.

(** One lemma for every way [kms_unwrap] can go. *)
Lemma kms_unwrap_cases p now w v :
  (∃ e c, kms_unwrap p now w v = (Err e, set_cache c p) ∧
     (∀ x, x ∈ c → x ∈ kp_cache p) ∧ (length c <= length (kp_cache p))%nat) ∨
  (∃ dek expires c, kms_unwrap p now w v = (Ok dek, set_cache c p) ∧ v = kp_version p ∧
     (w, (dek, expires)) ∈ kp_cache p ∧ now < expires ∧
     (∀ x, x ∈ c → x ∈ kp_cache p) ∧ (length c <= length (kp_cache p))%nat) ∨
  (∃ dek c, kms_unwrap p now w v = (Ok dek, set_cache c p) ∧ v = kp_version p ∧
     kc_decrypt (kp_client p) w = Some dek ∧
     (∀ x, x ∈ c → x = (w, (dek, now + kp_cache_ttl p)) ∨ x ∈ kp_cache p) ∧
     (length c <= kp_cache_size p)%nat).
Proof.
  unfold kms_unwrap. destruct (Z.eqb_spec v (kp_version p)) as [-> | _]; simpl.
  2: { left. exists (UnknownVersion v), (kp_cache p). by destruct p. }
  destruct (cached now w (kp_cache p)) as [d c] eqn:Hc.
  pose proof (λ x, cached_elem _ _ _ _ _ x Hc) as He. pose proof (cached_length _ _ _ _ _ Hc) as Hl.
  destruct d as [dek|].
  - right; left. apply cached_hit in Hc as (e & ? & ?). by exists dek, e, c.
  - destruct (kc_decrypt _ w) as [dek|] eqn:Hd.
    + right; right. eexists dek, _. split_and!; [done | done | done | | apply remember_length].
      intros x [-> | Hx]%remember_elem; auto.
    + left. by exists KmsError, c.
Qed.

(** ** The two providers keep the laws *)

Section LocalLaws.
Context `{AEADLaws}.

Definition local_ok (p : LocalMasterKeyProvider) : Prop :=
  ∀ v key, od_get v (lp_keys p) = Some key → length key = DEK_BYTES.

Lemma local_wrap_opens p nonce dek w :
  local_ok p → length nonce = NONCE_BYTES → local_wrap p nonce dek = Ok w →
  local_unwrap p w (lp_current p) = Ok dek.
Proof.
  unfold local_wrap, local_unwrap. intros Hp Hn.
  destruct (od_get (lp_current p) (lp_keys p)) as [key|] eqn:Hk; intros Hw; [| done].
  apply Ok_inj in Hw as <-. rewrite take_app_length', drop_app_length' by done.
  rewrite aead_inverse by eauto. done.
Qed.

#[export] Instance local_laws : MasterKeyLaws LocalMasterKeyProvider.
Proof.
  refine {| provider_ok := local_ok; opens p w v dek := local_unwrap p w v = Ok dek |}.
  - intros p random dek w Hp Hr _. by apply local_wrap_opens.
  - done.
  - done.
  - done.
Defined.

Lemma local_provider_ok keys v p : local_provider keys v = Ok p → local_ok p.
Proof.
  unfold local_provider. destruct (od_get v keys); [| done].
  destruct (forallb _ keys) eqn:Hf; simpl; [| done]. intros <-%Ok_inj v' key Hk%od_get_elem.
  rewrite forallb_forall in Hf. apply Nat.eqb_eq, (Hf (v', key)), list_elem_of_In, Hk.
Qed.
End LocalLaws.

(** The client inverts its own encryption: the documented contract of KMS. *)
Definition client_inverts (client : KmsClient) : Prop :=
  ∀ dek blob, kc_encrypt client dek = Some blob → kc_decrypt client blob = Some dek.

Definition kms_ok (p : KmsMasterKeyProvider) : Prop :=
  client_inverts (kp_client p) ∧
  ∀ w dek expires, (w, (dek, expires)) ∈ kp_cache p → kc_decrypt (kp_client p) w = Some dek.

Definition kms_opens (p : KmsMasterKeyProvider) (w : bytes) (v : Z) (dek : bytes) : Prop :=
  v = kp_version p ∧ kc_decrypt (kp_client p) w = Some dek.

Lemma kms_unwrap_opens p now w v dek :
  kms_ok p → kms_opens p w v dek → fst (kms_unwrap p now w v) = Ok dek.
Proof.
  intros [_ Hc] [-> Hd]. unfold kms_unwrap. rewrite Z.eqb_refl. simpl.
  destruct (cached now w (kp_cache p)) as [[dek'|] c] eqn:Hh.
  - apply cached_hit in Hh as (e & He & _). apply Hc in He. simpl. congruence.
  - by rewrite Hd.
Qed.

Lemma kms_unwrap_ok p now w v : kms_ok p → kms_ok (snd (kms_unwrap p now w v)).
Proof.
  intros [Hi Hc]. split.
  { destruct (kms_unwrap_cases p now w v)
      as [(e & c & -> & _) | [(dek & e & c & -> & _) | (dek & c & -> & _)]]; done. }
  intros w' dek' e'.
  destruct (kms_unwrap_cases p now w v)
    as [(e & c & -> & Hs & _) | [(dek & e & c & -> & _ & _ & _ & Hs & _)
       | (dek & c & -> & _ & Hd & Hs & _)]]; simpl; intros Hin%Hs; [by eapply Hc | by eapply Hc |].
  destruct Hin as [[= -> -> ->] | Hin]; [done | by eapply Hc].
Qed.

Lemma kms_unwrap_fixed p now w v :
  kp_client (snd (kms_unwrap p now w v)) = kp_client p ∧
  kp_version (snd (kms_unwrap p now w v)) = kp_version p.
Proof.
  destruct (kms_unwrap_cases p now w v)
    as [(e & c & -> & _) | [(dek & e & c & -> & _) | (dek & c & -> & _)]]; done.
Qed.

#[export] Instance kms_laws : MasterKeyLaws KmsMasterKeyProvider.
Proof.
  refine {| provider_ok := kms_ok; opens := kms_opens |}.
  - intros p random dek w [Hi _] _ _ Hw. split; [done |]. apply Hi.
    unfold wrap, kms_master_keys, kms_wrap in Hw. destruct (negb _); [done |]. simpl in Hw.
    destruct (kc_encrypt _ dek); [by apply Ok_inj in Hw as -> | done].
  - apply kms_unwrap_opens.
  - apply kms_unwrap_ok.
  - intros p now w v w' v' dek _ [-> Hd].
    split; [symmetry; apply kms_unwrap_fixed |]. cbn.
    by rewrite (proj1 (kms_unwrap_fixed p now w v)).
Defined.

(** ** Theorems *)

Lemma organization_aad_inj o o' :
  uuid_ok o → uuid_ok o' → organization_aad o = organization_aad o' → o = o'.
Proof. unfold organization_aad. intros ? ? ?%app_inv_head. by apply str_of_uuid_inj. Qed.

Section SealingFacts.
Context `{AEADLaws} {P : Type} `{MasterKeyLaws P}.

Lemma seal_inv plaintext (p : P) aad dek nonce random s :
  provider_ok p → length random = NONCE_BYTES → length dek = DEK_BYTES →
  seal plaintext p aad dek nonce random = Ok s →
  opens p (ss_wrapped_dek s) (ss_key_version s) dek ∧
  ss_ciphertext s = aead_encrypt dek nonce plaintext aad ∧ ss_nonce s = nonce.
Proof.
  unfold seal. intros Hp Hr Hd Hs. apply rbind_Ok in Hs as (w & Hw & <-%Ok_inj). simpl.
  split_and!; [by eapply wrap_opens | done | done].
Qed.

Lemma open_sealed_opens s (p : P) now aad dek :
  provider_ok p → opens p (ss_wrapped_dek s) (ss_key_version s) dek →
  fst (open_sealed s p now aad) =
    match aead_decrypt dek (ss_nonce s) (ss_ciphertext s) aad with
    | Some plaintext => Ok plaintext
    | None => Err InvalidTag
    end.
Proof.
  intros Hp Ho. unfold open_sealed.
  pose proof (unwrap_opens p now _ _ _ Hp Ho) as Hu.
  destruct (unwrap p now _ _) as [r p']. simpl in Hu. by rewrite Hu.
Qed.

(** A credential sealed for an organisation opens to the same bytes under any
    provider that still holds its key, at any time and whatever the cache did in
    between; under the associated data of any other organisation it is refused. *)
Theorem sealed_secret_stays_with_its_organization plaintext (p p' : P) org dek nonce random s now :
  provider_ok p → provider_ok p' →
  length random = NONCE_BYTES → length dek = DEK_BYTES →
  seal plaintext p (organization_aad org) dek nonce random = Ok s →
  (∀ w v d, opens p w v d → opens p' w v d) →
  uuid_ok org →
  fst (open_sealed s p' now (organization_aad org)) = Ok plaintext ∧
  ∀ other, uuid_ok other → other ≠ org →
    fst (open_sealed s p' now (organization_aad other)) = Err InvalidTag.
Proof.
  intros Hp Hp' Hr Hd Hs Hpp Ho.
  destruct (seal_inv _ _ _ _ _ _ _ Hp Hr Hd Hs) as (Hw & Hct & Hn).
  assert (∀ aad, fst (open_sealed s p' now aad) = _) as Hopen
    by (intros aad; by apply open_sealed_opens, Hpp).
  rewrite !Hopen, Hct, Hn, aead_inverse by done. split; [done |].
  intros other Hoo Hne. rewrite Hopen, Hct, Hn, aead_binds_aad; [done | done |].
  intros E. by apply organization_aad_inj in E.
Qed.
End SealingFacts.

(** Rotating the master key: whatever opened under the old provider opens to the
    same bytes under the new one, and what was refused stays refused; the payload is
    not touched. *)
Theorem rewrap_opens_alike `{AEADLaws} {P Q} `{MasterKeyLaws P} `{MasterKeyLaws Q}
    s s' (old : P) (new : Q) dek random now now' aad :
  provider_ok old → provider_ok new → length random = NONCE_BYTES →
  opens old (ss_wrapped_dek s) (ss_key_version s) dek → length dek = DEK_BYTES →
  rewrap s old new now random = Ok s' →
  ss_ciphertext s' = ss_ciphertext s ∧ ss_nonce s' = ss_nonce s ∧
  ss_key_version s' = current_version new ∧
  fst (open_sealed s' new now' aad) = fst (open_sealed s old now' aad).
Proof.
  intros Ho Hn Hr Hk Hd Hw. unfold rewrap in Hw.
  rewrite (unwrap_opens _ _ _ _ _ Ho Hk) in Hw. simpl in Hw.
  apply rbind_Ok in Hw as (w & Hw & <-%Ok_inj). simpl. split_and!; [done | done | done |].
  rewrite (open_sealed_opens s old now' aad dek Ho Hk).
  rewrite (open_sealed_opens _ new now' aad dek Hn); [done | simpl; by eapply wrap_opens].
Qed.

(** The cache after any operations: every key in it was answered by the KMS. *)
Lemma kms_after_cache p ops :
  kp_cache p = [] →
  kp_cache_ttl (kms_after p ops) = kp_cache_ttl p ∧
  kp_cache_size (kms_after p ops) = kp_cache_size p ∧
  (length (kp_cache (kms_after p ops)) <= kp_cache_size p)%nat ∧
  ∀ w dek expires, (w, (dek, expires)) ∈ kp_cache (kms_after p ops) →
    ∃ j at_, answered ops j w dek at_ ∧ expires = at_ + kp_cache_ttl p.
Proof.
  intros H0. induction ops as [|op ops (IHt & IHs & IHl & IH)] using rev_ind.
  { simpl. rewrite H0. split_and!; [done | done | simpl; lia |]. intros ? ? ? []%elem_of_nil. }
  unfold kms_after in *. rewrite foldl_app. simpl. set (q := foldl kms_op p ops) in *.
  assert (∀ c w dek e, (w, (dek, e)) ∈ kp_cache q →
    ∃ j at_, answered (ops ++ [Unwrap c]) j w dek at_ ∧ e = at_ + kp_cache_ttl p) as Hold.
  { intros c w dek e (j & t & (c' & Hj & ? & ? & ? & Hclear) & ->)%IH. exists j, t. split; [| done].
    exists c'. split_and!; [by apply lookup_app_l_Some | done | done | done |].
    intros k Hk. rewrite length_app in Hk. simpl in Hk.
    destruct (decide (k = length ops)) as [-> | Hne]; [by rewrite list_lookup_middle |].
    rewrite lookup_app_l by lia. apply Hclear. lia. }
  destruct op as [c|]; simpl.
  2: { split_and!; [done | done | simpl; lia |]. intros ? ? ? []%elem_of_nil. }
  unfold kms_call.
  destruct (kms_unwrap_cases (with_client (uc_client c) q) (uc_now c) (uc_wrapped c) (uc_version c))
    as [(e & m & -> & Hs & Hl) | [(dek & e & m & -> & _ & _ & _ & Hs & Hl)
       | (dek & m & -> & _ & Hd & Hs & Hl)]]; simpl in *.
  - split_and!; [done | done | lia |]. intros w dek' e' Hin%Hs. by apply Hold.
  - split_and!; [done | done | lia |]. intros w dek' e' Hin%Hs. by apply Hold.
  - split_and!; [done | done | lia |]. intros w dek' e' [[= -> -> ->] | Hin]%Hs; [| by apply Hold].
    exists (length ops), (uc_now c). split; [| by rewrite IHt]. exists c.
    split_and!; [by rewrite list_lookup_middle | done | done | done |].
    intros k Hk. rewrite length_app in Hk. simpl in Hk. lia.
Qed.

(** Caching unwrapped keys: whatever calls were made before, at whatever times and
    with whatever outages, a key the provider returns is one the KMS itself gave for
    that blob, in this call or less than the cache's lifetime ago and with the cache not
    cleared since; so a revoked grant takes effect within that lifetime.  The cache never
    holds more than its size. *)
Theorem kms_cache_is_bounded_and_fresh p ops c dek :
  kp_cache p = [] →
  fst (kms_call (kms_after p ops) c) = Ok dek →
  (kc_decrypt (uc_client c) (uc_wrapped c) = Some dek ∨
   ∃ j at_, answered ops j (uc_wrapped c) dek at_ ∧ uc_now c < at_ + kp_cache_ttl p) ∧
  (length (kp_cache (kms_after p ops)) <= kp_cache_size p)%nat.
Proof.
  intros H0 Hc. destruct (kms_after_cache p ops H0) as (_ & _ & Hl & He). split; [| done].
  unfold kms_call in Hc. revert Hc.
  destruct (kms_unwrap_cases (with_client (uc_client c) (kms_after p ops)) (uc_now c)
              (uc_wrapped c) (uc_version c))
    as [(e & m & -> & _) | [(d & e & m & -> & _ & Hin & Hlt & _) | (d & m & -> & _ & Hd & _)]];
    simpl; [done | |]; intros <-%Ok_inj; [right | by left].
  apply He in Hin as (j & t & Ha & ->). eauto.
Qed.

(** In production no provider is built from configuration: without a KMS key id the
    service refuses to start, and with one the provider is the KMS one. *)
Theorem production_uses_kms sha256 client s r :
  ks_is_prod s = true → provider_from_settings sha256 client s = r →
  match r with
  | Ok (UseKms p) => truthy (ks_kms_key_id s) = true ∧ kp_client p = client ∧ kp_cache p = []
  | Ok (UseLocal _) => False
  | Err e => e = KmsKeyRequired ∧ truthy (ks_kms_key_id s) = false
  end.
Proof.
  intros Hp <-. unfold provider_from_settings. rewrite Hp.
  destruct (truthy (ks_kms_key_id s)) eqn:Ht; [| done].
  unfold kms_provider. destruct (ks_kms_key_id s) as [k|]; [| done]. simpl in *.
  by rewrite Ht.
Qed.

(** ** Witnesses *)

(** A toy cipher: the ciphertext carries the plaintext and what it was sealed with. *)
Definition toy_aead : AEAD := {|
  aead_encrypt key nonce plaintext aad :=
    N.of_nat (length aad) :: aad ++ plaintext;
  aead_decrypt key nonce ciphertext aad :=
    match ciphertext with
    | n :: rest =>
        if bool_decide (n = N.of_nat (length aad) ∧ take (length aad) rest = aad)
        then Some (drop (length aad) rest) else None
    | [] => None
    end
|}.

Lemma toy_aead_laws : @AEADLaws toy_aead.
Proof.
  split; intros key nonce plaintext aad; simpl.
  - intros _. rewrite bool_decide_true by (split; [done | apply take_app_length]).
    by rewrite drop_app_length.
  - intros aad' _ Hne. rewrite bool_decide_false; [done |]. intros [Hn Ht].
    apply Nat2N.inj in Hn. apply Hne. by rewrite <- Ht, <- Hn, take_app_length.
  - done.
Qed.

Definition ex_random : bytes := replicate 12 7%N.
Definition ex_dek : bytes := replicate 32 9%N.
Definition ex_local : LocalMasterKeyProvider :=
  {| lp_keys := [(1, replicate 32 1%N)]; lp_current := 1 |}.
Definition ex_client (up : bool) : KmsClient :=
  {| kc_encrypt dek := if up then Some (0%N :: dek) else None;
     kc_decrypt blob := if up then Some (drop 1 blob) else None |}.
Definition ex_kms : KmsMasterKeyProvider :=
  {| kp_client := ex_client true; kp_version := 1; kp_cache_ttl := DEFAULT_CACHE_TTL;
     kp_cache_size := DEFAULT_CACHE_SIZE; kp_cache := [] |}.

Lemma ex_local_ok : local_ok ex_local.
Proof. intros v key. simpl. case_decide; [by intros [= <-] | done]. Qed.

Lemma ex_kms_ok : kms_ok ex_kms.
Proof. split; [by intros dek blob [= <-] | by intros ? ? ? []%elem_of_nil]. Qed.

Definition ex_sealed (aad : bytes) : SealedSecret :=
  {| ss_ciphertext := @aead_encrypt toy_aead ex_dek ex_random (py "token") aad;
     ss_nonce := ex_random;
     ss_wrapped_dek := ex_random ++ @aead_encrypt toy_aead (replicate 32 1%N) ex_random ex_dek DEK_WRAP;
     ss_key_version := 1 |}.

Lemma sealed_secret_stays_with_its_organization_witness :
  fst (@open_sealed toy_aead _ (@local_master_keys toy_aead) (ex_sealed (organization_aad 5))
         ex_local 0 (organization_aad 5)) = Ok (py "token") ∧
  fst (@open_sealed toy_aead _ (@local_master_keys toy_aead) (ex_sealed (organization_aad 5))
         ex_local 0 (organization_aad 6)) = Err InvalidTag.
Proof.
  destruct (@sealed_secret_stays_with_its_organization toy_aead toy_aead_laws _ _
    (@local_laws toy_aead toy_aead_laws) (py "token") ex_local ex_local 5%N ex_dek ex_random ex_random
    (ex_sealed (organization_aad 5)) 0 ex_local_ok ex_local_ok eq_refl eq_refl eq_refl
    (λ _ _ _ Hx, Hx) eq_refl) as [H1 H2].
  split; [exact H1 | exact (H2 6%N eq_refl ltac:(discriminate))].
Defined.

Lemma rewrap_opens_alike_witness :
  let s := ex_sealed (organization_aad 5) in
  let s' := {| ss_ciphertext := ss_ciphertext s; ss_nonce := ss_nonce s;
               ss_wrapped_dek := 0%N :: ex_dek; ss_key_version := 1 |} in
  fst (@open_sealed toy_aead _ _ s' ex_kms 9 (organization_aad 5)) = Ok (py "token").
Proof.
  intros s s'.
  destruct (@rewrap_opens_alike toy_aead toy_aead_laws _ _ _ (@local_laws toy_aead toy_aead_laws)
    _ kms_laws s s' ex_local ex_kms ex_dek ex_random 0 9 (organization_aad 5)
    ex_local_ok ex_kms_ok eq_refl eq_refl eq_refl eq_refl) as (_ & _ & _ & E).
  rewrite E. vm_compute. reflexivity.
Defined.

(** A key cached at the second 0 is served through an outage a minute later. *)
Lemma kms_cache_is_bounded_and_fresh_witness :
  let asked := {| uc_now := 0; uc_client := ex_client true; uc_wrapped := 0%N :: ex_dek;
                  uc_version := 1 |} in
  let later := {| uc_now := minute; uc_client := ex_client false; uc_wrapped := 0%N :: ex_dek;
                  uc_version := 1 |} in
  fst (kms_call (kms_after ex_kms [Unwrap asked]) later) = Ok ex_dek ∧
  ∃ j at_, answered [Unwrap asked] j (0%N :: ex_dek) ex_dek at_ ∧ minute < at_ + 5 * minute.
Proof.
  intros asked later. split; [vm_compute; reflexivity |].
  destruct (kms_cache_is_bounded_and_fresh ex_kms [Unwrap asked] later ex_dek eq_refl
    ltac:(vm_compute; reflexivity)) as [[E | E] _]; [discriminate E | exact E].
Defined.

Lemma production_uses_kms_witness :
  provider_from_settings (λ _, []) (ex_client true)
    {| ks_kms_key_id := None; ks_is_prod := true; ks_session_secret := [] |} = Err KmsKeyRequired ∧
  KmsKeyRequired = KmsKeyRequired ∧ truthy (ks_kms_key_id
    {| ks_kms_key_id := None; ks_is_prod := true; ks_session_secret := [] |}) = false.
Proof.
  split; [reflexivity |].
  exact (production_uses_kms (λ _, []) (ex_client true)
    {| ks_kms_key_id := None; ks_is_prod := true; ks_session_secret := [] |} _ eq_refl eq_refl).
Defined.
