(* ===== verification/Delivery.v ===== *)
(** * Outbound delivery (mmp_providers/delivery.py)

    The table [postback_deliveries] is the list of its rows.  [claim] is the insert
    whose unique key decides who sends, [record] the outcome of an attempt, and
    [claim_retry] the update by which the retry job takes a due row.  The draw of
    [random.uniform] is an argument, a number of 2^53-ths. *)

From S2P Require Import Prelude Ids.

#[local] Open Scope Z_scope.
#[local] Open Scope mmp_scope.

Definition MAX_ATTEMPTS : Z := 5.
Definition BACKOFF_BASE : timedelta := 30 * second.
Definition BACKOFF_FACTOR : Z := 4.
Definition MAX_BACKOFF : timedelta := hour.
Definition MAX_STORED_BODY : nat := 2000.
Definition MAX_STORED_ERROR : nat := 200.

Inductive DeliveryStatus := InFlight | Delivered | Failed | Abandoned | Sandboxed.

#[export] Instance delivery_status_eq_dec : EqDecision DeliveryStatus.
Proof. solve_decision. Defined.

(** [delivered], which no caller reads, is left out. *)
Record DeliveryResult := {
  dr_status_code : option Z;
  dr_body : option pystr;
  dr_error : option pystr
}.

Definition is_blocked (r : DeliveryResult) : bool :=
  match dr_error r with Some e => starts_with (py "blocked:") e | None => false end.

Definition retryable (r : DeliveryResult) : bool :=
  if is_blocked r then false
  else
    match dr_status_code r with
    | None => true
    | Some code => (code =? 408) || (code =? 429) || (500 <=? code)
    end.

Definition backoff (attempt : Z) : timedelta :=
  Z.min (BACKOFF_BASE * BACKOFF_FACTOR ^ Z.max (attempt - 1) 0) MAX_BACKOFF.

(** [random.uniform(0.5, 1.5)] is one half plus [draw] 2^53-ths; the product with the
    delay is exact here, and to within a microsecond in the doubles of the source. *)
Definition draw_ok (draw : Z) : Prop := 0 <= draw <= 2 ^ 53.

Definition next_retry_at (attempt : Z) (now : datetime) (draw : Z) : datetime :=
  now + backoff attempt * (2 ^ 52 + draw) / 2 ^ 53.

(** ** The table *)

Record DeliveryRow := {
  pd_id : uuid;
  pd_organization_id : uuid;
  pd_rule_id : uuid;
  pd_event_id : uuid;
  pd_status : DeliveryStatus;
  pd_attempt_count : Z;
  pd_created_at : datetime;
  pd_request_url : option pystr;
  pd_request_method : option pystr;
  pd_request_body : option (list N);
  pd_headers_ciphertext : option (list N);
  pd_headers_nonce : option (list N);
  pd_wrapped_dek : option (list N);
  pd_key_version : Z;
  pd_response_status : option Z;
  pd_response_body : option pystr;
  pd_error : option pystr;
  pd_next_retry_at : option datetime;
  pd_delivered_at : option datetime
}.

Inductive DbError := UniqueViolation.

Definition find_row (id : uuid) (db : list DeliveryRow) : option DeliveryRow :=
  List.find (λ r, bool_decide (pd_id r = id)) db.

(** [UPDATE .. WHERE id = $1]. *)
Definition update_row (id : uuid) (f : DeliveryRow → DeliveryRow) (db : list DeliveryRow)
    : list DeliveryRow :=
  (λ r, if bool_decide (pd_id r = id) then f r else r) <$> db.

Definition same_delivery (rule event : uuid) (r : DeliveryRow) : bool :=
  bool_decide (pd_rule_id r = rule) && bool_decide (pd_event_id r = event).

(** [CLAIM_SQL]: a conflict on (rule, event) inserts nothing; one on the primary key
    raises. *)
Definition claim (db : list DeliveryRow) (now : datetime) (id org rule event : uuid)
    : result DbError (bool * list DeliveryRow) :=
  if existsb (same_delivery rule event) db then Ok (false, db)
  else
    let* _ := raise_if (existsb (λ r, bool_decide (pd_id r = id)) db) UniqueViolation in
    Ok (true, db ++
      [{| pd_id := id; pd_organization_id := org; pd_rule_id := rule; pd_event_id := event;
          pd_status := InFlight; pd_attempt_count := 1; pd_created_at := now;
          pd_request_url := None; pd_request_method := None; pd_request_body := None;
          pd_headers_ciphertext := None; pd_headers_nonce := None; pd_wrapped_dek := None;
          pd_key_version := 1; pd_response_status := None; pd_response_body := None;
          pd_error := None; pd_next_retry_at := None; pd_delivered_at := None |}]).

(** ** Sending *)

Record Request := {
  r_url : pystr;
  r_method : pystr;
  r_headers : list (pystr * pystr);
  r_body : option (list N)
}.

(** What [fetch] of mmp_core/outbound.py comes back with. *)
Inductive FetchOutcome :=
| Responded (code : Z) (body : pystr)
| BlockedDestination (why : pystr)
| Raised (type_name text : pystr).

Definition send (outcome : FetchOutcome) : DeliveryResult :=
  match outcome with
  | BlockedDestination why =>
      {| dr_status_code := None; dr_body := None; dr_error := Some (py "blocked: " ++ why) |}
  | Raised name text =>
      {| dr_status_code := None; dr_body := None;
         dr_error := Some (take MAX_STORED_ERROR (name ++ py ": " ++ text)) |}
  | Responded code body =>
      {| dr_status_code := Some code; dr_body := Some (take MAX_STORED_BODY body);
         dr_error := None |}
  end.

(** ** Recording *)

Definition decided_status (r : DeliveryResult) (success_codes : list Z) (attempt : Z)
    (accepted : option bool) : DeliveryStatus :=
  let delivered :=
    match accepted with
    | Some a => a
    | None => match dr_status_code r with Some c => bool_decide (c ∈ success_codes) | None => false end
    end in
  if delivered then Delivered
  else if negb (retryable r) then Abandoned
  else if MAX_ATTEMPTS <=? attempt then Abandoned
  else Failed.

(** [text or None]. *)
Definition nonempty (s : pystr) : option pystr := match s with [] => None | _ => Some s end.

(** [RECORD_SQL]. *)
Definition record_row (now : datetime) (status : DeliveryStatus) (r : DeliveryResult)
    (retry_at : option datetime) (url : option pystr) (row : DeliveryRow) : DeliveryRow :=
  let done := bool_decide (status = Delivered) in
  {| pd_id := pd_id row; pd_organization_id := pd_organization_id row;
     pd_rule_id := pd_rule_id row; pd_event_id := pd_event_id row;
     pd_status := status; pd_attempt_count := pd_attempt_count row;
     pd_created_at := pd_created_at row;
     pd_request_url := match url with Some u => Some u | None => pd_request_url row end;
     pd_request_method := pd_request_method row; pd_request_body := pd_request_body row;
     pd_headers_ciphertext := if done then None else pd_headers_ciphertext row;
     pd_headers_nonce := if done then None else pd_headers_nonce row;
     pd_wrapped_dek := if done then None else pd_wrapped_dek row;
     pd_key_version := pd_key_version row;
     pd_response_status := dr_status_code r;
     pd_response_body := nonempty (take MAX_STORED_BODY (default [] (dr_body r)));
     pd_error := dr_error r; pd_next_retry_at := retry_at;
     pd_delivered_at := if done then Some now else pd_delivered_at row |}.

Definition record (db : list DeliveryRow) (now : datetime) (draw : Z) (id : uuid)
    (r : DeliveryResult) (success_codes : list Z) (attempt : Z) (url : option pystr)
    (accepted : option bool) : DeliveryStatus * list DeliveryRow :=
  let status := decided_status r success_codes attempt accepted in
  let retry_at := if bool_decide (status = Failed) then Some (next_retry_at attempt now draw)
                  else None in
  (status, update_row id (record_row now status r retry_at url) db).

(** [SANDBOX_SQL]. *)
Definition sandbox_row (now : datetime) (url method : pystr) (body : option (list N))
    (row : DeliveryRow) : DeliveryRow :=
  {| pd_id := pd_id row; pd_organization_id := pd_organization_id row;
     pd_rule_id := pd_rule_id row; pd_event_id := pd_event_id row;
     pd_status := Sandboxed; pd_attempt_count := pd_attempt_count row;
     pd_created_at := pd_created_at row;
     pd_request_url := Some url; pd_request_method := Some method; pd_request_body := body;
     pd_headers_ciphertext := pd_headers_ciphertext row;
     pd_headers_nonce := pd_headers_nonce row; pd_wrapped_dek := pd_wrapped_dek row;
     pd_key_version := pd_key_version row;
     pd_response_status := None; pd_response_body := None; pd_error := None;
     pd_next_retry_at := None; pd_delivered_at := Some now |}.

Definition record_sandbox (db : list DeliveryRow) (now : datetime) (id : uuid)
    (method url : pystr) (body : option (list N)) : DeliveryStatus * list DeliveryRow :=
  (Sandboxed, update_row id (sandbox_row now url method body) db).

(** [REMEMBER_SQL]; sealed headers are ciphertext, nonce, wrapped key and version. *)
Definition remember_row (method : pystr) (body : option (list N))
    (sealed : option (list N * list N * list N * Z)) (row : DeliveryRow) : DeliveryRow :=
  {| pd_id := pd_id row; pd_organization_id := pd_organization_id row;
     pd_rule_id := pd_rule_id row; pd_event_id := pd_event_id row;
     pd_status := pd_status row; pd_attempt_count := pd_attempt_count row;
     pd_created_at := pd_created_at row; pd_request_url := pd_request_url row;
     pd_request_method := Some method; pd_request_body := body;
     pd_headers_ciphertext := (λ s, fst (fst (fst s))) <$> sealed;
     pd_headers_nonce := (λ s, snd (fst (fst s))) <$> sealed;
     pd_wrapped_dek := (λ s, snd (fst s)) <$> sealed;
     pd_key_version := match sealed with Some s => snd s | None => 1 end;
     pd_response_status := pd_response_status row; pd_response_body := pd_response_body row;
     pd_error := pd_error row; pd_next_retry_at := pd_next_retry_at row;
     pd_delivered_at := pd_delivered_at row |}.

Definition remember_request (db : list DeliveryRow) (id : uuid) (method : pystr)
    (body : option (list N)) (sealed : option (list N * list N * list N * Z))
    : list DeliveryRow :=
  update_row id (remember_row method body sealed) db.

(** A change of status that keeps the rest: taking a row for a retry, and giving up. *)
Definition restatus (status : DeliveryStatus) (count : Z → Z) (error : option pystr)
    (retry_at : option datetime) (row : DeliveryRow) : DeliveryRow :=
  {| pd_id := pd_id row; pd_organization_id := pd_organization_id row;
     pd_rule_id := pd_rule_id row; pd_event_id := pd_event_id row;
     pd_status := status; pd_attempt_count := count (pd_attempt_count row);
     pd_created_at := pd_created_at row; pd_request_url := pd_request_url row;
     pd_request_method := pd_request_method row; pd_request_body := pd_request_body row;
     pd_headers_ciphertext := pd_headers_ciphertext row;
     pd_headers_nonce := pd_headers_nonce row; pd_wrapped_dek := pd_wrapped_dek row;
     pd_key_version := pd_key_version row;
     pd_response_status := pd_response_status row; pd_response_body := pd_response_body row;
     pd_error := error; pd_next_retry_at := retry_at;
     pd_delivered_at := pd_delivered_at row |}.

Definition retry_row (row : DeliveryRow) : DeliveryRow :=
  restatus InFlight (λ n, n + 1) (pd_error row) (pd_next_retry_at row) row.

Definition abandon (db : list DeliveryRow) (id : uuid) (error : pystr) : list DeliveryRow :=
  update_row id (restatus Abandoned (λ n, n) (Some error) None) db.

(** The rows [retry_due] may take. *)
Definition due (now : datetime) (row : DeliveryRow) : bool :=
  bool_decide (pd_status row = Failed) &&
  match pd_next_retry_at row with Some t => t <=? now | None => false end.

(** ** Workers sharing the table

    A hand is what a worker holds between two of its effects.  [Pending] has taken the
    row and not sent, [Sent] has sent and not recorded, [Remembering] has recorded a
    failed first attempt and is about to store the request for the retries. *)
Inductive Hand :=
| Pending (id : uuid) (attempt : Z)
| Sent (id : uuid) (attempt : Z)
| Remembering (id : uuid).

Record System := {
  sy_db : list DeliveryRow;
  sy_hands : list Hand;
  sy_sent : list (uuid * Request)
}.

Definition system0 : System := {| sy_db := []; sy_hands := []; sy_sent := [] |}.

(** Any worker may make its next move at any time, or crash. *)
Inductive delivery_step : System → System → Prop :=
| step_claim db db' hs sent now id org rule event :
    claim db now id org rule event = Ok (true, db') →
    delivery_step {| sy_db := db; sy_hands := hs; sy_sent := sent |}
                  {| sy_db := db'; sy_hands := Pending id 1 :: hs; sy_sent := sent |}
| step_retry db hs sent now row :
    row ∈ db → due now row = true →
    delivery_step {| sy_db := db; sy_hands := hs; sy_sent := sent |}
                  {| sy_db := update_row (pd_id row) retry_row db;
                     sy_hands := Pending (pd_id row) (pd_attempt_count row + 1) :: hs;
                     sy_sent := sent |}
| step_send db hs1 hs2 sent id n rq :
    delivery_step {| sy_db := db; sy_hands := hs1 ++ Pending id n :: hs2; sy_sent := sent |}
                  {| sy_db := db; sy_hands := hs1 ++ Sent id n :: hs2; sy_sent := sent ++ [(id, rq)] |}
| step_refuse db hs1 hs2 sent id n now draw r codes url :
    is_blocked r = true → dr_status_code r = None →
    delivery_step {| sy_db := db; sy_hands := hs1 ++ Pending id n :: hs2; sy_sent := sent |}
                  {| sy_db := snd (record db now draw id r codes n url None);
                     sy_hands := hs1 ++ hs2; sy_sent := sent |}
| step_sandbox db hs1 hs2 sent id n now method url body :
    delivery_step {| sy_db := db; sy_hands := hs1 ++ Pending id n :: hs2; sy_sent := sent |}
                  {| sy_db := snd (record_sandbox db now id method url body);
                     sy_hands := hs1 ++ hs2; sy_sent := sent |}
| step_give_up db hs1 hs2 sent id n error :
    delivery_step {| sy_db := db; sy_hands := hs1 ++ Pending id n :: hs2; sy_sent := sent |}
                  {| sy_db := abandon db id error; sy_hands := hs1 ++ hs2; sy_sent := sent |}
| step_record db hs1 hs2 sent id n now draw r codes url accepted after :
    after = [] ∨ after = [Remembering id] →
    delivery_step {| sy_db := db; sy_hands := hs1 ++ Sent id n :: hs2; sy_sent := sent |}
                  {| sy_db := snd (record db now draw id r codes n url accepted);
                     sy_hands := hs1 ++ after ++ hs2; sy_sent := sent |}
| step_remember db hs1 hs2 sent id method body sealed :
    delivery_step {| sy_db := db; sy_hands := hs1 ++ Remembering id :: hs2; sy_sent := sent |}
                  {| sy_db := remember_request db id method body sealed;
                     sy_hands := hs1 ++ hs2; sy_sent := sent |}
| step_cannot_remember db hs1 hs2 sent id error :
    delivery_step {| sy_db := db; sy_hands := hs1 ++ Remembering id :: hs2; sy_sent := sent |}
                  {| sy_db := abandon db id error; sy_hands := hs1 ++ hs2; sy_sent := sent |}
| step_crash db hs1 h hs2 sent :
    delivery_step {| sy_db := db; sy_hands := hs1 ++ h :: hs2; sy_sent := sent |}
                  {| sy_db := db; sy_hands := hs1 ++ hs2; sy_sent := sent |}.

(** ** The invariant *)

(** The hands that will still record an outcome for a row. *)
Definition owns (x : uuid) (h : Hand) : bool :=
  match h with
  | Pending id _ | Sent id _ => bool_decide (id = x)
  | Remembering _ => false
  end.
Definition owners (x : uuid) (hs : list Hand) : list Hand := List.filter (owns x) hs.
#[local] Arguments owners : simpl never.
#[local] Arguments owns : simpl never.

Definition sent_for (x : uuid) (sent : list (uuid * Request)) : list (uuid * Request) :=
  List.filter (λ p, bool_decide (fst p = x)) sent.

Definition open_status (s : DeliveryStatus) : Prop := s = InFlight ∨ s = Abandoned.

Definition row_ok (os : list Hand) (k : nat) (r : DeliveryRow) : Prop :=
  pd_attempt_count r <= MAX_ATTEMPTS ∧
  (pd_status r = Failed → pd_attempt_count r < MAX_ATTEMPTS) ∧
  match os with
  | [] => Z.of_nat k <= pd_attempt_count r
  | [Pending _ n] => n = pd_attempt_count r ∧ Z.of_nat k + 1 <= n ∧ open_status (pd_status r)
  | [Sent _ n] => n = pd_attempt_count r ∧ Z.of_nat k <= n ∧ open_status (pd_status r)
  | _ => False
  end.

Definition delivery_key (r : DeliveryRow) : uuid * uuid := (pd_rule_id r, pd_event_id r).

Record system_ok (s : System) : Prop := {
  so_ids : NoDup (pd_id <$> sy_db s);
  so_keys : NoDup (delivery_key <$> sy_db s);
  so_rows : ∀ r, r ∈ sy_db s →
    row_ok (owners (pd_id r) (sy_hands s)) (length (sent_for (pd_id r) (sy_sent s))) r;
  so_known : ∀ x, x ∉ pd_id <$> sy_db s → owners x (sy_hands s) = [] ∧ sent_for x (sy_sent s) = []
}.

(** ** Lemmas *)

(** An update that keeps the identity of a row. *)
Definition keeps_identity (f : DeliveryRow → DeliveryRow) : Prop :=
  ∀ r, pd_id (f r) = pd_id r ∧ delivery_key (f r) = delivery_key r.

Lemma update_row_map {A} (g : DeliveryRow → A) id f db :
  (∀ r, g (f r) = g r) → g <$> update_row id f db = g <$> db.
Proof.
  intros Hg. unfold update_row. rewrite <- list_fmap_compose. apply list_fmap_ext.
  intros i r _. simpl. by case_bool_decide.
Qed.

Lemma update_row_elem id f db r' :
  r' ∈ update_row id f db →
  ∃ r, r ∈ db ∧ ((pd_id r = id ∧ r' = f r) ∨ (pd_id r ≠ id ∧ r' = r)).
Proof.
  unfold update_row. intros (r & -> & Hr)%list_elem_of_fmap. exists r. split; [done |].
  case_bool_decide; auto.
Qed.

Lemma update_row_same id db : update_row id (λ r, r) db = db.
Proof.
  unfold update_row. rewrite <- (list_fmap_id db) at 2. apply list_fmap_ext.
  intros i r _. simpl. by case_bool_decide.
Qed.

Lemma same_id_same_row db r r' :
  NoDup (pd_id <$> db) → r ∈ db → r' ∈ db → pd_id r = pd_id r' → r = r'.
Proof.
  intros Hn (i & Hi)%list_elem_of_lookup (j & Hj)%list_elem_of_lookup E.
  assert (i = j) as ->; [| congruence].
  apply (NoDup_lookup _ i j (pd_id r) Hn); rewrite list_lookup_fmap, ?Hi, ?Hj; simpl; congruence.
Qed.

Lemma owners_app x hs hs' : owners x (hs ++ hs') = owners x hs ++ owners x hs'.
Proof. apply List.filter_app. Qed.

Lemma owners_cons x h hs : owners x (h :: hs) = (if owns x h then [h] else []) ++ owners x hs.
Proof. unfold owners. simpl. by destruct (owns x h). Qed.

Lemma sent_for_snoc x sent p :
  sent_for x (sent ++ [p]) = sent_for x sent ++ (if bool_decide (fst p = x) then [p] else []).
Proof. unfold sent_for. rewrite List.filter_app. simpl. by case_bool_decide. Qed.

Lemma singleton_of {A} (l1 : list A) x l2 y : l1 ++ x :: l2 = [y] → l1 = [] ∧ l2 = [] ∧ x = y.
Proof. destruct l1 as [|a [|b l1]]; intros [=]; naive_solver. Qed.

(** A step that touches one row, its owners and its sends. *)
Lemma system_ok_update db hs sent id f hs' sent' :
  system_ok {| sy_db := db; sy_hands := hs; sy_sent := sent |} →
  keeps_identity f →
  (∀ x, x ≠ id → owners x hs' = owners x hs ∧ sent_for x sent' = sent_for x sent) →
  id ∈ pd_id <$> db →
  (∀ r, r ∈ db → pd_id r = id → row_ok (owners id hs) (length (sent_for id sent)) r →
    row_ok (owners id hs') (length (sent_for id sent')) (f r)) →
  system_ok {| sy_db := update_row id f db; sy_hands := hs'; sy_sent := sent' |}.
Proof.
  intros [Hids Hkeys Hrows Hknown] Hf Ho Hid Hr; simpl in *.
  assert (pd_id <$> update_row id f db = pd_id <$> db) as Ei by (apply update_row_map, Hf).
  assert (delivery_key <$> update_row id f db = delivery_key <$> db) as Ek
    by (apply update_row_map, Hf).
  split; simpl; [by rewrite Ei | by rewrite Ek | |].
  - intros r' (r & Hin & [[<- ->] | [Hne ->]])%update_row_elem.
    + rewrite (proj1 (Hf r)). by apply Hr, Hrows.
    + destruct (Ho _ Hne) as [-> ->]. by apply Hrows.
  - intros x. rewrite Ei. intros Hx. destruct (decide (x = id)) as [-> | Hne]; [done |].
    destruct (Ho _ Hne) as [-> ->]. by apply Hknown.
Qed.

Lemma known_owner db hs1 h hs2 sent id :
  system_ok {| sy_db := db; sy_hands := hs1 ++ h :: hs2; sy_sent := sent |} →
  owns id h = true → id ∈ pd_id <$> db.
Proof.
  intros Hs Hh. destruct (decide (id ∈ pd_id <$> db)) as [? | Hn]; [done |].
  destruct (so_known _ Hs id Hn) as [Ho _]. simpl in Ho.
  rewrite owners_app, owners_cons, Hh in Ho. by destruct (owners id hs1).
Qed.

(** The owner of a row is alone. *)
Lemma row_ok_alone os1 h os2 k r :
  row_ok (os1 ++ h :: os2) k r → os1 = [] ∧ os2 = [].
Proof.
  intros (_ & _ & Hm). destruct (os1 ++ h :: os2) as [|a [|b l]] eqn:E;
    [by destruct os1 | | by destruct a].
  destruct (singleton_of _ _ _ _ E) as (-> & -> & _). done.
Qed.


(** The owner of a row makes a move: [mid] takes its place. *)
Lemma system_ok_move db hs1 h hs2 sent id f mid sent' :
  system_ok {| sy_db := db; sy_hands := hs1 ++ h :: hs2; sy_sent := sent |} →
  owns id h = true → keeps_identity f →
  (∀ x, x ≠ id → owns x h = false ∧ owners x mid = [] ∧ sent_for x sent' = sent_for x sent) →
  (∀ r, row_ok [h] (length (sent_for id sent)) r →
    row_ok (owners id mid) (length (sent_for id sent')) (f r)) →
  system_ok {| sy_db := update_row id f db; sy_hands := hs1 ++ mid ++ hs2; sy_sent := sent' |}.
Proof.
  intros Hs Hh Hf Hx Hr. eapply system_ok_update; [exact Hs | done | | by eapply known_owner |].
  - intros x Hne. destruct (Hx x Hne) as (Hn & Hm & ->). split; [| done].
    by rewrite !owners_app, owners_cons, Hn, Hm.
  - intros r _ _ Hok. rewrite owners_app, owners_cons, Hh in Hok. simpl in Hok.
    destruct (row_ok_alone _ _ _ _ _ Hok) as [E1 E2].
    rewrite !owners_app, E1, E2, app_nil_r. apply Hr. by rewrite E1, E2 in Hok.
Qed.

Lemma other_owner x id n : x ≠ id → owns x (Pending id n) = false ∧ owns x (Sent id n) = false.
Proof. intros. unfold owns. by rewrite bool_decide_false by congruence. Qed.

Lemma self_owner id n : owns id (Pending id n) = true ∧ owns id (Sent id n) = true.
Proof. unfold owns. by rewrite bool_decide_true. Qed.

Lemma record_update db now draw id r codes n url acc :
  let '(status, db') := record db now draw id r codes n url acc in
  (status = Failed → n < MAX_ATTEMPTS) ∧
  ∃ f, db' = update_row id f db ∧ keeps_identity f ∧
    ∀ row, pd_status (f row) = status ∧ pd_attempt_count (f row) = pd_attempt_count row.
Proof.
  unfold record. split.
  - unfold decided_status. destruct (match acc with Some a => a | None => _ end); [done |].
    destruct (negb (retryable r)); [done |]. destruct (Z.leb_spec MAX_ATTEMPTS n); [done |]. lia.
  - eexists. split_and!; [done | by intros | done].
Qed.

Lemma claim_inv db now id org rule event db' :
  claim db now id org rule event = Ok (true, db') →
  ∃ row, db' = db ++ [row] ∧ pd_id row = id ∧ delivery_key row = (rule, event) ∧
    pd_status row = InFlight ∧ pd_attempt_count row = 1 ∧
    id ∉ pd_id <$> db ∧ (rule, event) ∉ delivery_key <$> db.
Proof.
  unfold claim. destruct (existsb (same_delivery rule event) db) eqn:Ek; [done |].
  destruct (existsb (λ r, bool_decide (pd_id r = id)) db) eqn:Ei; [done |].
  cbn [raise_if rbind]. intros E%Ok_inj.
  injection E as <-. eexists. split_and!; [done.. | |].
  - intros (r & -> & Hr)%list_elem_of_fmap. eapply not_true_iff_false; [exact Ei |].
    apply existsb_exists. exists r. rewrite <- list_elem_of_In. split; [done |].
    by apply bool_decide_true.
  - intros (r & Hk & Hr)%list_elem_of_fmap. eapply not_true_iff_false; [exact Ek |].
    apply existsb_exists. exists r. rewrite <- list_elem_of_In. split; [done |].
    unfold delivery_key in Hk. injection Hk as -> ->. unfold same_delivery.
    by rewrite !bool_decide_true.
Qed.

Lemma system_ok_claim db db' hs sent now id org rule event :
  system_ok {| sy_db := db; sy_hands := hs; sy_sent := sent |} →
  claim db now id org rule event = Ok (true, db') →
  system_ok {| sy_db := db'; sy_hands := Pending id 1 :: hs; sy_sent := sent |}.
Proof.
  intros [Hids Hkeys Hrows Hknown]
    (row & -> & Hrid & Hkey & Hst & Hat & Hfi & Hfk)%claim_inv; simpl in *.
  destruct (Hknown _ Hfi) as [Ho Hsent].
  split; simpl.
  - rewrite fmap_app, NoDup_app. split_and!; [done | | apply NoDup_singleton].
    intros x Hx ->%list_elem_of_singleton. by rewrite Hrid in Hx.
  - rewrite fmap_app, NoDup_app. split_and!; [done | | apply NoDup_singleton].
    intros x Hx ->%list_elem_of_singleton. by rewrite Hkey in Hx.
  - intros r [Hr | ->%list_elem_of_singleton]%elem_of_app.
    + assert (pd_id r ≠ id) as Hne by (intros <-; apply Hfi, list_elem_of_fmap; eauto).
      rewrite owners_cons, (proj1 (other_owner _ _ 1 Hne)). by apply Hrows.
    + rewrite Hrid, owners_cons, (proj1 (self_owner _ _)), Ho, Hsent.
      unfold row_ok, open_status, MAX_ATTEMPTS. simpl. rewrite Hat, Hst. naive_solver lia.
  - intros x. rewrite fmap_app, not_elem_of_app. simpl. rewrite list_elem_of_singleton, Hrid.
    intros [Hx Hne]. rewrite owners_cons, (proj1 (other_owner _ _ _ Hne)). by apply Hknown.
Qed.

Lemma system_ok_retry db hs sent now row :
  system_ok {| sy_db := db; sy_hands := hs; sy_sent := sent |} →
  row ∈ db → due now row = true →
  system_ok {| sy_db := update_row (pd_id row) retry_row db;
               sy_hands := Pending (pd_id row) (pd_attempt_count row + 1) :: hs;
               sy_sent := sent |}.
Proof.
  intros Hs Hin Hdue. assert (pd_status row = Failed) as Hf by (unfold due in Hdue; by bprop).
  eapply system_ok_update; [exact Hs | done | | apply list_elem_of_fmap; eauto |].
  - intros x Hne. by rewrite owners_cons, (proj1 (other_owner _ _ _ Hne)).
  - intros r Hr Hid Hok.
    assert (r = row) as -> by (by apply (same_id_same_row db); [apply Hs | ..]).
    destruct Hok as (Hle & Hlt & Hm). specialize (Hlt Hf).
    rewrite owners_cons, (proj1 (self_owner _ _)).
    assert (owners (pd_id row) hs = []) as Hnone.
    { destruct (owners (pd_id row) hs) as [|[? ?|? ?|?] [|? ?]]; [done | ..]; try done;
        unfold open_status in Hm; rewrite Hf in Hm; naive_solver. }
    rewrite Hnone in *. unfold row_ok, open_status. simpl. split_and!; [lia | done | done | lia | by left].
Qed.

(** The owner of a row lets go of it, recording what [f] says. *)
Lemma system_ok_leave db hs1 h hs2 sent id n f after :
  system_ok {| sy_db := db; sy_hands := hs1 ++ h :: hs2; sy_sent := sent |} →
  h = Pending id n ∨ h = Sent id n → keeps_identity f → (∀ x, owners x after = []) →
  (∀ r, pd_attempt_count (f r) = pd_attempt_count r) →
  (∀ r, pd_attempt_count r = n → pd_attempt_count r <= MAX_ATTEMPTS → open_status (pd_status r) →
    pd_status (f r) = Failed → n < MAX_ATTEMPTS) →
  system_ok {| sy_db := update_row id f db; sy_hands := hs1 ++ after ++ hs2; sy_sent := sent |}.
Proof.
  intros Hs Hh Hf Ha Hc Hlt. apply (system_ok_move db hs1 h hs2 sent id f after sent Hs); [| done | |].
  - destruct (self_owner id n). by destruct Hh as [-> | ->].
  - intros x Hne. rewrite Ha. destruct (other_owner x id n Hne). by destruct Hh as [-> | ->].
  - intros r (Hle & _ & Hm). rewrite Ha. unfold row_ok. rewrite Hc.
    assert (n = pd_attempt_count r ∧ Z.of_nat (length (sent_for id sent)) <= n ∧
            open_status (pd_status r)) as (-> & ? & ?)
      by (destruct Hh as [-> | ->]; destruct Hm as (? & ? & ?); (split; [done | split; [lia | done]])).
    split_and!; [done | | done]. intros HF. by apply (Hlt r).
Qed.

(** A move that changes no owner, no attempt count, and no status but to abandon. *)
Lemma system_ok_aside db hs hs' sent id f :
  system_ok {| sy_db := db; sy_hands := hs; sy_sent := sent |} →
  keeps_identity f → (∀ x, owners x hs' = owners x hs) →
  (∀ r, pd_attempt_count (f r) = pd_attempt_count r ∧
    (pd_status (f r) = pd_status r ∨ pd_status (f r) = Abandoned)) →
  system_ok {| sy_db := update_row id f db; sy_hands := hs'; sy_sent := sent |}.
Proof.
  intros Hs Hf Ho Hr. destruct (decide (id ∈ pd_id <$> db)) as [Hid | Hid].
  - apply (system_ok_update db hs sent id f hs' sent Hs Hf); [by intros; rewrite Ho | done |].
    intros r _ _ (Hle & Hlt & Hm). rewrite Ho. destruct (Hr r) as [Ea Es]. unfold row_ok. rewrite Ea.
    split_and!; [done | intros E; apply Hlt; destruct Es; congruence |].
    destruct (owners id hs) as [|[? ?|? ?|?] [|? ?]]; unfold open_status in *; try done;
      (destruct Hm as (-> & ? & ?); split_and!; [done | done |]; destruct Es as [-> | ->]; auto).
  - assert (update_row id f db = db) as ->.
    { unfold update_row. rewrite <- (list_fmap_id db) at 2. apply list_fmap_ext. intros i r Hi. simpl.
      case_bool_decide as E; [| done]. destruct Hid. apply list_elem_of_fmap.
      exists r. split; [done | by eapply list_elem_of_lookup_2]. }
    destruct Hs as [? ? Hrows Hknown]. split; simpl in *; [done | done | |];
      [intros r ?; rewrite Ho; by apply Hrows | intros x ?; rewrite Ho; by apply Hknown].
Qed.

Lemma owners_remembering x hs1 id hs2 : owners x (hs1 ++ hs2) = owners x (hs1 ++ Remembering id :: hs2).
Proof. by rewrite !owners_app, owners_cons. Qed.

Lemma system_ok_send db hs1 hs2 sent id n rq :
  system_ok {| sy_db := db; sy_hands := hs1 ++ Pending id n :: hs2; sy_sent := sent |} →
  system_ok {| sy_db := db; sy_hands := hs1 ++ Sent id n :: hs2; sy_sent := sent ++ [(id, rq)] |}.
Proof.
  intros Hs. rewrite <- (update_row_same id db).
  apply (system_ok_move db hs1 (Pending id n) hs2 sent id _ [Sent id n] _ Hs);
    [apply self_owner | done | |].
  - intros x Hne. rewrite owners_cons, sent_for_snoc, bool_decide_false by (intros E; by apply Hne).
    destruct (other_owner x id n Hne) as [-> ->]. split; [done | split; [done | apply app_nil_r]].
  - intros row (? & ? & ? & ? & ?). rewrite owners_cons, sent_for_snoc, bool_decide_true by done.
    rewrite (proj2 (self_owner _ _)), length_app. unfold row_ok. simpl. naive_solver lia.
Qed.

Lemma system_ok_record db hs1 h hs2 sent id n now draw r codes url acc after :
  system_ok {| sy_db := db; sy_hands := hs1 ++ h :: hs2; sy_sent := sent |} →
  h = Pending id n ∨ h = Sent id n → (∀ x, owners x after = []) →
  system_ok {| sy_db := snd (record db now draw id r codes n url acc);
               sy_hands := hs1 ++ after ++ hs2; sy_sent := sent |}.
Proof.
  intros Hs Hh Ha. pose proof (record_update db now draw id r codes n url acc) as Hu.
  destruct (record db now draw id r codes n url acc) as [status db'].
  destruct Hu as (Hlt & f & -> & Hf & Hrow).
  eapply system_ok_leave; [exact Hs | exact Hh | done | done | apply Hrow |].
  intros row _ _ _. by rewrite (proj1 (Hrow row)).
Qed.

Lemma system_ok_step s s' : delivery_step s s' → system_ok s → system_ok s'.
Proof.
  destruct 1 as [| | | | | |? ? ? ? ? ? ? ? ? ? ? ? after Ha| | |? ? h]; intros Hs.
  - by eapply system_ok_claim.
  - by eapply system_ok_retry.
  - by apply system_ok_send.
  - eapply (system_ok_record _ _ _ _ _ _ _ _ _ _ _ _ _ [] Hs); [by left | done].
  - eapply (system_ok_leave _ _ _ _ _ _ _ _ [] Hs); [by left | done.. | done].
  - eapply (system_ok_leave _ _ _ _ _ _ _ _ [] Hs); [by left | done.. | done].
  - eapply (system_ok_record _ _ _ _ _ _ _ _ _ _ _ _ _ after Hs); [by right |].
    by destruct Ha as [-> | ->].
  - eapply (system_ok_aside _ _ _ _ _ _ Hs); [done | intros x; apply owners_remembering | by split; [| left]].
  - eapply (system_ok_aside _ _ _ _ _ _ Hs); [done | intros x; apply owners_remembering | by split; [| right]].
  - rewrite <- (update_row_same (match h with Pending id _ | Sent id _ | Remembering id => id end) db).
    destruct h as [id n|id n|id].
    + eapply (system_ok_leave _ _ _ _ _ _ _ _ [] Hs); [by left | done.. |].
      intros r _ _ [-> | ->]; done.
    + eapply (system_ok_leave _ _ _ _ _ _ _ _ [] Hs); [by right | done.. |].
      intros r _ _ [-> | ->]; done.
    + eapply (system_ok_aside _ _ _ _ _ _ Hs); [done | intros x; apply owners_remembering | by split; [| left]].
Qed.

Lemma system_ok_reachable s : rtc delivery_step system0 s → system_ok s.
Proof.
  assert (system_ok system0) as H0.
  { split; simpl; [constructor | constructor | by intros ? []%elem_of_nil | done]. }
  intros Hr. revert H0. induction Hr as [|? ? ? Hs _ IH]; intros H0; [done |].
  by apply IH, (system_ok_step _ _ Hs).
Qed.

(** A row nobody holds and no retry may take. *)
Definition never_resent (x : uuid) (s : System) : Prop :=
  x ∈ pd_id <$> sy_db s ∧ owners x (sy_hands s) = [] ∧
  ∀ r, r ∈ sy_db s → pd_id r = x → pd_status r ≠ Failed.

Lemma never_resent_move x db hs1 h hs2 sent id f mid sent' :
  never_resent x {| sy_db := db; sy_hands := hs1 ++ h :: hs2; sy_sent := sent |} →
  keeps_identity f → (owns x h = false → owners x mid = []) →
  (id = x → owns x h = false → ∀ r, pd_status r ≠ Failed → pd_status (f r) ≠ Failed) →
  never_resent x {| sy_db := update_row id f db; sy_hands := hs1 ++ mid ++ hs2; sy_sent := sent' |}.
Proof.
  intros (Hin & Ho & Hst) Hf Hm Hk; simpl in *.
  rewrite owners_app, owners_cons in Ho. apply app_nil in Ho as [Ho1 Ho2].
  apply app_nil in Ho2 as [Hh Ho2].
  assert (owns x h = false) as Hn by (by destruct (owns x h)).
  split_and!; simpl.
  - by rewrite update_row_map by apply Hf.
  - by rewrite !owners_app, Ho1, Ho2, Hm.
  - intros r' (r & Hr & [[Hid ->] | [_ ->]])%update_row_elem Hx; [| by apply Hst].
    rewrite (proj1 (Hf r)) in Hx. apply Hk; [congruence | done | by apply Hst].
Qed.

Lemma owner_differs x id n h : h = Pending id n ∨ h = Sent id n → owns x h = false → id ≠ x.
Proof. intros [-> | ->] E ->; destruct (self_owner x n); congruence. Qed.

Lemma never_resent_claim x db db' hs sent now id org rule event :
  claim db now id org rule event = Ok (true, db') →
  never_resent x {| sy_db := db; sy_hands := hs; sy_sent := sent |} →
  never_resent x {| sy_db := db'; sy_hands := Pending id 1 :: hs; sy_sent := sent |}.
Proof.
  intros (row & -> & Hid & _ & Hst & _ & Hfresh & _)%claim_inv (Hin & Ho & Hs); simpl in *.
  assert (x ≠ id) as Hne by (by intros ->).
  split_and!; simpl; [rewrite fmap_app; set_solver | |].
  - by rewrite owners_cons, (proj1 (other_owner _ _ _ Hne)).
  - intros r [Hr | ->%list_elem_of_singleton]%elem_of_app ?; [by apply Hs | congruence].
Qed.

Lemma never_resent_retry x db hs sent now row :
  row ∈ db → due now row = true →
  never_resent x {| sy_db := db; sy_hands := hs; sy_sent := sent |} →
  never_resent x {| sy_db := update_row (pd_id row) retry_row db;
                    sy_hands := Pending (pd_id row) (pd_attempt_count row + 1) :: hs;
                    sy_sent := sent |}.
Proof.
  intros Hrow Hdue (Hin & Ho & Hs); simpl in *.
  assert (x ≠ pd_id row) as Hne.
  { intros ->. unfold due in Hdue. bprop. by eapply Hs. }
  split_and!; simpl.
  - by rewrite update_row_map.
  - by rewrite owners_cons, (proj1 (other_owner _ _ _ Hne)).
  - intros r' (r & Hr & [[E ->] | [_ ->]])%update_row_elem; [done | by apply Hs].
Qed.

Lemma never_resent_record x db hs1 h hs2 sent id n now draw r codes url acc after :
  h = Pending id n ∨ h = Sent id n → owners x after = [] →
  never_resent x {| sy_db := db; sy_hands := hs1 ++ h :: hs2; sy_sent := sent |} →
  never_resent x {| sy_db := snd (record db now draw id r codes n url acc);
                    sy_hands := hs1 ++ after ++ hs2; sy_sent := sent |}.
Proof.
  intros Hh Ha Hx. pose proof (record_update db now draw id r codes n url acc) as Hu.
  destruct (record db now draw id r codes n url acc) as [st db'].
  destruct Hu as (_ & f & -> & Hf & _).
  apply (never_resent_move x _ _ _ _ _ _ f after _ Hx); [done | done |].
  intros E Hn. by destruct (owner_differs x id n h Hh Hn).
Qed.

Lemma never_resent_other x db hs1 h hs2 sent id n :
  h = Pending id n ∨ h = Sent id n →
  never_resent x {| sy_db := db; sy_hands := hs1 ++ h :: hs2; sy_sent := sent |} → x ≠ id.
Proof.
  intros Hh (_ & Ho & _) ->. simpl in Ho. rewrite owners_app, owners_cons in Ho.
  destruct (self_owner id n).
  assert (owns id h = true) as E by (by destruct Hh as [-> | ->]).
  rewrite E in Ho. by destruct (owners id hs1).
Qed.

(** Moves of other workers leave such a row alone. *)
Lemma never_resent_step x s s' :
  delivery_step s s' → never_resent x s →
  never_resent x s' ∧ sent_for x (sy_sent s') = sent_for x (sy_sent s).
Proof.
  destruct 1 as [| |db hs1 hs2 sent id n rq| | | |? ? ? ? ? ? ? ? ? ? ? ? ? Ha| | |db]; intros Hx.
  - split; [by eapply never_resent_claim | done].
  - split; [by eapply never_resent_retry | done].
  - pose proof (never_resent_other _ _ _ _ _ _ _ _ (or_introl eq_refl) Hx) as Hne.
    split; [| simpl; rewrite sent_for_snoc, bool_decide_false by (by apply not_eq_sym);
              apply app_nil_r].
    rewrite <- (update_row_same id db).
    apply (never_resent_move x db hs1 (Pending id n) hs2 sent id (λ r, r) [Sent id n] _ Hx);
      [done | | done].
    intros _. by rewrite owners_cons, (proj2 (other_owner _ _ _ Hne)).
  - split; [| done].
    by apply (never_resent_record x _ _ _ _ _ _ _ _ _ _ _ _ _ [] (or_introl eq_refl)).
  - split; [| done]. by apply (never_resent_move x _ _ _ _ _ _ _ [] _ Hx).
  - split; [| done]. by apply (never_resent_move x _ _ _ _ _ _ _ [] _ Hx).
  - split; [| done]. apply (never_resent_record x _ _ _ _ _ _ _ _ _ _ _ _ _ _ (or_intror eq_refl));
      [by destruct Ha as [-> | ->] | done].
  - split; [| done]. by apply (never_resent_move x _ _ _ _ _ _ _ [] _ Hx).
  - split; [| done]. by apply (never_resent_move x _ _ _ _ _ _ _ [] _ Hx).
  - split; [| done]. rewrite <- (update_row_same x db).
    by apply (never_resent_move x _ _ _ _ _ _ _ [] _ Hx).
Qed.

Lemma never_resent_run x s s' :
  rtc delivery_step s s' → never_resent x s → sent_for x (sy_sent s') = sent_for x (sy_sent s).
Proof.
  induction 1 as [|s1 s2 s3 H12 _ IH]; intros Hx; [done |].
  destruct (never_resent_step x _ _ H12 Hx) as [H2 <-]. by apply IH.
Qed.

(** ** Theorems *)

(** (C4) However workers interleave, crash, and redeliver or retry: one row per rule and
    event; a row's requests are at most its attempts, and its attempts at most five; and
    from the moment a row is delivered nothing is sent for it again. *)
Theorem conversions_are_not_resent s :
  rtc delivery_step system0 s →
  NoDup (delivery_key <$> sy_db s) ∧
  ∀ r, r ∈ sy_db s →
    Z.of_nat (length (sent_for (pd_id r) (sy_sent s))) <= pd_attempt_count r <= MAX_ATTEMPTS ∧
    (pd_status r = Delivered → ∀ s', rtc delivery_step s s' →
      sent_for (pd_id r) (sy_sent s') = sent_for (pd_id r) (sy_sent s)).
Proof.
  intros Hs%system_ok_reachable. split; [apply Hs |]. intros r Hr.
  destruct (so_rows _ Hs r Hr) as (Hle & _ & Hm).
  assert (Z.of_nat (length (sent_for (pd_id r) (sy_sent s))) <= pd_attempt_count r) as Hk.
  { destruct (owners _ _) as [|[? ?|? ?|?] [|? ?]]; try done; destruct Hm as (-> & ? & _); lia. }
  split; [done |]. intros Hd s' Hrun. apply (never_resent_run _ _ _ Hrun).
  assert (owners (pd_id r) (sy_hands s) = []) as Ho.
  { destruct (owners _ _) as [|[? ?|? ?|?] [|? ?]]; try done;
      destruct Hm as (_ & _ & [? | ?]); congruence. }
  split_and!; [apply list_elem_of_fmap; eauto | done |].
  intros r' Hr' Hid. assert (r' = r) as ->; [| congruence].
  by apply (same_id_same_row (sy_db s)); [apply Hs | ..].
Qed.

Lemma backoff_range attempt : BACKOFF_BASE <= backoff attempt <= MAX_BACKOFF.
Proof.
  unfold backoff. split; [| apply Z.le_min_r]. apply Z.min_glb; [| done].
  pose proof (Z.pow_pos_nonneg BACKOFF_FACTOR (Z.max (attempt - 1) 0) ltac:(done) ltac:(lia)).
  unfold BACKOFF_BASE, second in *. nia.
Qed.

Lemma next_retry_at_range attempt now draw :
  draw_ok draw →
  now + backoff attempt / 2 <= next_retry_at attempt now draw <= now + backoff attempt * 3 / 2.
Proof.
  unfold draw_ok, next_retry_at. intros Hd. pose proof (backoff_range attempt) as Hb.
  assert (0 < backoff attempt) by (unfold BACKOFF_BASE, second in Hb; lia).
  change (2 ^ 53) with (2 * 2 ^ 52) in *.
  assert (0 < 2 ^ 52) as Hk by done. generalize dependent (2 ^ 52). intros k Hd Hk. split.
  - enough (backoff attempt / 2 <= backoff attempt * (k + draw) / (2 * k)) by lia.
    transitivity (backoff attempt * k / (2 * k)); [rewrite Z.div_mul_cancel_r by lia; lia |].
    apply Z.div_le_mono; nia.
  - enough (backoff attempt * (k + draw) / (2 * k) <= backoff attempt * 3 / 2) by lia.
    transitivity (backoff attempt * 3 * k / (2 * k)); [apply Z.div_le_mono; nia |].
    rewrite Z.div_mul_cancel_r by lia. lia.
Qed.

Lemma find_row_update id f db row :
  keeps_identity f → find_row id db = Some row → find_row id (update_row id f db) = Some (f row).
Proof.
  intros Hf. unfold find_row, update_row. induction db as [|r db IH]; [done |]. simpl.
  case_bool_decide as E; simpl.
  - intros [= ->]. by rewrite bool_decide_true by (by rewrite (proj1 (Hf row))).
  - rewrite bool_decide_false by done. apply IH.
Qed.

(** What counts as accepted: the adapter's reading when there is one, and otherwise the
    rule's success codes. *)
Definition taken_as_accepted (r : DeliveryResult) (codes : list Z) (accepted : option bool) : Prop :=
  match accepted with
  | Some a => a = true
  | None => ∃ c, dr_status_code r = Some c ∧ c ∈ codes
  end.

(** [decided_status] as a specification. *)
Definition spec_status (r : DeliveryResult) (codes : list Z) (attempt : Z) (accepted : option bool)
    (status : DeliveryStatus) : Prop :=
  match status with
  | Delivered => taken_as_accepted r codes accepted
  | Failed => ¬ taken_as_accepted r codes accepted ∧ retryable r = true ∧ attempt < 5
  | Abandoned => ¬ taken_as_accepted r codes accepted ∧ (retryable r = false ∨ 5 <= attempt)
  | InFlight | Sandboxed => False
  end.

Lemma decided_status_spec r codes attempt accepted :
  spec_status r codes attempt accepted (decided_status r codes attempt accepted).
Proof.
  unfold decided_status.
  destruct (match accepted with Some a => a | None => _ end) eqn:E; unfold spec_status, taken_as_accepted.
  - destruct accepted; [done |]. destruct (dr_status_code r) as [c|]; [| done]. bprop. eauto.
  - assert (¬ taken_as_accepted r codes accepted) as Hn.
    { unfold taken_as_accepted. destruct accepted; [congruence |].
      intros (c & Hc & Hin). rewrite Hc in E. by apply bool_decide_eq_false in E. }
    unfold taken_as_accepted in Hn. destruct (retryable r); simpl; [| by auto].
    destruct (Z.leb_spec MAX_ATTEMPTS attempt); unfold MAX_ATTEMPTS in *; [by auto |].
    split_and!; [done | done | lia].
Qed.

(** What [record] decides and schedules.  A response taken as accepted is delivered;
    a blocked destination, or a refusal other than 408 and 429, is final at once; anything
    else waits between fifteen seconds and ninety minutes for a retry, until the fifth
    attempt, which is final. *)
Theorem record_decides db now draw id r codes attempt url accepted row :
  draw_ok draw → find_row id db = Some row →
  let '(status, db') := record db now draw id r codes attempt url accepted in
  spec_status r codes attempt accepted status ∧
  ∃ row', find_row id db' = Some row' ∧ pd_status row' = status ∧
    pd_attempt_count row' = pd_attempt_count row ∧
    match pd_next_retry_at row' with
    | Some t => status = Failed ∧ now + 15 * second <= t <= now + 90 * minute
    | None => status ≠ Failed
    end.
Proof.
  intros Hd Hrow. unfold record. split; [apply decided_status_spec |].
  eexists. split_and!; [by apply find_row_update | done | done |]. simpl.
  destruct (bool_decide_reflect (decided_status r codes attempt accepted = Failed)); [| done].
  split; [done |]. pose proof (next_retry_at_range attempt now draw Hd).
  pose proof (backoff_range attempt).
  unfold BACKOFF_BASE, MAX_BACKOFF, hour, minute, second in *.
  assert (15000000 <= backoff attempt / 2) by (apply Z.div_le_lower_bound; lia).
  assert (backoff attempt * 3 / 2 <= 5400000000) by (apply Z.div_le_upper_bound; lia).
  lia.
Qed.

(** ** Witnesses: a delivery refused once with 503 and accepted on its retry *)

Definition ex_down : DeliveryResult := send (Responded 503 (py "try later")).
Definition ex_up : DeliveryResult := send (Responded 200 (py "ok")).
Definition ex_request : Request :=
  {| r_url := py "https://partner.example/p"; r_method := py "GET"; r_headers := []; r_body := None |}.

Definition ex_claimed : list DeliveryRow :=
  match claim [] 0 1 2 3 4 with Ok (_, db) => db | Err _ => [] end.
Definition ex_failed : list DeliveryRow :=
  snd (record ex_claimed second 0 1 ex_down [200] 1 (Some (py "https://partner.example/p")) None).
Definition ex_failed_row : DeliveryRow :=
  record_row second Failed ex_down (Some (next_retry_at 1 second 0))
    (Some (py "https://partner.example/p")) (default (retry_row (record_row 0 Failed ex_down None None
      {| pd_id := 1; pd_organization_id := 2; pd_rule_id := 3; pd_event_id := 4;
         pd_status := InFlight; pd_attempt_count := 1; pd_created_at := 0;
         pd_request_url := None; pd_request_method := None; pd_request_body := None;
         pd_headers_ciphertext := None; pd_headers_nonce := None; pd_wrapped_dek := None;
         pd_key_version := 1; pd_response_status := None; pd_response_body := None;
         pd_error := None; pd_next_retry_at := None; pd_delivered_at := None |}))
      (head ex_claimed)).
Definition ex_retrying : list DeliveryRow := update_row 1 retry_row ex_failed.
Definition ex_delivered : list DeliveryRow :=
  snd (record ex_retrying minute 0 1 ex_up [200] 2 None None).
Definition ex_final : System :=
  {| sy_db := ex_delivered; sy_hands := [];
     sy_sent := [(1%N, ex_request); (1%N, ex_request)] |}.

Lemma ex_retried_run : rtc delivery_step system0 ex_final.
Proof.
  eapply rtc_l; [apply (step_claim [] ex_claimed [] [] 0 1 2 3 4); reflexivity |].
  eapply rtc_l; [apply (step_send ex_claimed [] [] [] 1 1 ex_request) |].
  eapply rtc_l; [apply (step_record ex_claimed [] [] _ 1 1 second 0 ex_down [200]
    (Some (py "https://partner.example/p")) None []); by left |].
  eapply rtc_l; [apply (step_retry ex_failed [] _ minute ex_failed_row);
    [apply list_elem_of_singleton; reflexivity | reflexivity] |].
  eapply rtc_l; [apply (step_send ex_retrying [] [] _ 1 2 ex_request) |].
  eapply rtc_l; [apply (step_record ex_retrying [] [] _ 1 2 minute 0 ex_up [200] None None []); by left |].
  apply rtc_refl.
Qed.

Lemma conversions_are_not_resent_witness :
  pd_status <$> head ex_delivered = Some Delivered ∧
  NoDup (delivery_key <$> sy_db ex_final) ∧ 2 <= 2 <= MAX_ATTEMPTS.
Proof.
  destruct (conversions_are_not_resent ex_final ex_retried_run) as [H1 H2].
  split; [reflexivity |]. split; [exact H1 |].
  destruct ex_delivered as [|row rest] eqn:E; [discriminate E |].
  assert (row ∈ sy_db ex_final) as Hin by (simpl; rewrite E; left).
  destruct (H2 row Hin) as [H3 _]. injection E as <- _. exact H3.
Defined.

Lemma record_decides_witness :
  spec_status ex_down [200] 1 None Failed ∧
  pd_next_retry_at <$> head ex_failed = Some (Some (16 * second)).
Proof.
  split; [| vm_compute; reflexivity].
  exact (proj1 (record_decides ex_claimed second 0 1 ex_down [200] 1
    (Some (py "https://partner.example/p")) None _ ltac:(split; discriminate) eq_refl)).
Defined.

(** A worker that dies between its claim and its record leaves a row in flight that no
    one owns: whatever happens next, nothing is sent for it. *)
Lemma orphaned_claim_is_never_sent s r s' :
  rtc delivery_step system0 s → r ∈ sy_db s → pd_status r = InFlight →
  owners (pd_id r) (sy_hands s) = [] → rtc delivery_step s s' →
  sent_for (pd_id r) (sy_sent s') = sent_for (pd_id r) (sy_sent s).
Proof.
  intros Hs%system_ok_reachable Hr Hst Ho Hrun. apply (never_resent_run _ _ _ Hrun).
  split_and!; [apply list_elem_of_fmap; eauto | done |].
  intros r' Hr' Hid. assert (r' = r) as ->; [| congruence].
  by apply (same_id_same_row (sy_db s)); [apply Hs | ..].
Qed.
