(* ===== verification/Outbound.v ===== *)
(** * The SSRF guard (mmp_core/outbound.py)

    Vetting a destination, the pinned connection and [fetch], with the allowlist of hosts.
    The resolver and the HTTP client are parameters: every theorem holds whatever they
    answer. *)

From S2P Require Import Prelude Ids Keys Templates Referrer Urls IpAddr Delivery.

#[local] Open Scope N_scope.
#[local] Open Scope mmp_scope.

Definition at_sign : N := 64.
Definition open_bracket : N := 91.
Definition close_bracket : N := 93.

(** ** The authority of a URL, as [SplitResult] reads it *)

(** [_hostinfo]: host and port texts. *)
Definition hostinfo (netloc : pystr) : pystr * option pystr :=
  let info := default [] (last (py_split at_sign netloc)) in
  let '(_, bracket, bracketed) := partition open_bracket info in
  let '(host, port) :=
    if bracket : bool then
      let '(host, _, rest) := partition close_bracket bracketed in
      let '(_, _, port) := partition colon rest in (host, port)
    else let '(host, _, port) := partition colon info in (host, port) in
  (host, nonempty port).

(** Whatever ends a vetting or a request without an answer: a [BlockedDestination], or
    an exception of another type. *)
Inductive OutboundError :=
| Blocked (why : pystr)
| BadNetloc
| BadPort (text : pystr)
| NotAnAddress (text : pystr)
| ResolverRaised
| ClientRaised (type_name text : pystr).

(** [port]. *)
Definition port_of (netloc : pystr) : result OutboundError (option Z) :=
  match snd (hostinfo netloc) with
  | None => Ok None
  | Some text =>
      if negb (forallb is_digit_ascii text) || (65535 <? dec_value 0 text) then Err (BadPort text)
      else Ok (Some (Z.of_N (dec_value 0 text)))
  end.

(** ** Networks *)

Record Network := { nw_text : pystr; nw_v6 : bool; nw_address : N; nw_prefix : N }.

Definition width (v6 : bool) : N := if v6 then 128 else 32.

(** [ipaddress.ip_network], with the check that no host bit is set. *)
Definition ip_network (cidr : pystr) : option Network :=
  let '(text, _, bits) := partition slash cidr in
  address ← ip_address text;
  prefix ← py_int (U := ascii_unicode) 10 bits;
  let '(v6, n) := match address with V4 n => (false, n) | V6 n _ => (true, n) end in
  if network_of (width v6 - Z.to_N prefix) n =? n
  then Some {| nw_text := cidr; nw_v6 := v6; nw_address := n; nw_prefix := Z.to_N prefix |}
  else None.

Definition BLOCKED_NETWORKS : list Network :=
  omap (λ cidr, ip_network (py cidr))
    ["0.0.0.0/8"; "10.0.0.0/8"; "100.64.0.0/10"; "127.0.0.0/8"; "169.254.0.0/16";
     "172.16.0.0/12"; "192.0.0.0/24"; "192.168.0.0/16"; "198.18.0.0/15"; "224.0.0.0/4";
     "240.0.0.0/4"; "::1/128"; "fc00::/7"; "fe80::/10"; "ff00::/8"; "::/128";
     "64:ff9b::/96"]%string.

(** [address.version == network.version and address in network]. *)
Definition in_network (address : ip) (network : Network) : bool :=
  let '(v6, n) := match address with V4 n => (false, n) | V6 n _ => (true, n) end in
  Bool.eqb v6 (nw_v6 network) &&
  (network_of (width v6 - nw_prefix network) n =? nw_address network).

(** ** Sorting, as [sorted(set(...))] *)

Fixpoint str_compare (a b : pystr) : comparison :=
  match a, b with
  | [], [] => Eq
  | [], _ :: _ => Lt
  | _ :: _, [] => Gt
  | x :: a, y :: b => match x ?= y with Eq => str_compare a b | c => c end
  end.

Fixpoint insert_str (x : pystr) (l : list pystr) : list pystr :=
  match l with
  | [] => [x]
  | y :: l' =>
      match str_compare x y with
      | Lt => x :: l
      | Eq => l
      | Gt => y :: insert_str x l'
      end
  end.

Definition sorted_set (l : list pystr) : list pystr := foldr insert_str [] l.

(** ** Requests *)

Definition MAX_RESPONSE_BYTES : nat := 64 * 1024.

Record ResolvedTarget := {
  rt_url : pystr;
  rt_hostname : pystr;
  rt_address : pystr;
  rt_port : Z
}.

Record OutboundResponse := {
  or_status_code : Z;
  or_body : pystr;
  or_headers : list (pystr * pystr)
}.

(** A connection the pool is asked for: where it goes, and what it says of the host. *)
Record Connection := {
  cn_address : pystr;
  cn_port : Z;
  cn_host_header : pystr;
  cn_sni_hostname : pystr
}.

(** [socket.getaddrinfo]: the addresses, a [gaierror], or another exception (a label that
    does not encode). *)
Inductive Resolution := Addresses (l : list pystr) | GaiError | EncodingError.

Class Resolver := { getaddrinfo : pystr → Z → Resolution }.

(** httpx: its own reading of the host of a URL, and the answer over a connection. *)
Class HttpClient := {
  url_host : pystr → result (pystr * pystr) pystr;
  exchange : Connection → Request → result (pystr * pystr) (Z * pystr * list (pystr * pystr))
}.

Section Outbound.
Context {U : Unicode} {NC : NetlocCheck} {R : Resolver} {C : HttpClient}.

(** [hostname]: lower case, but for the zone of an IPv6 address. *)
Definition hostname_of (netloc : pystr) : option pystr :=
  match fst (hostinfo netloc) with
  | [] => None
  | host =>
      let '(name, found, zone) := partition percent host in
      Some (py_lower name ++ if found : bool then percent :: zone else [])
  end.

(** [_addresses_for]. *)
Definition addresses_for (hostname : pystr) (port : Z) : result OutboundError (list pystr) :=
  match getaddrinfo hostname port with
  | GaiError => Err (Blocked (py "could not resolve " ++ hostname))
  | EncodingError => Err ResolverRaised
  | Addresses l => Ok (sorted_set l)
  end.

(** The loop over the candidates. *)
Fixpoint vet (hostname : pystr) (candidates : list pystr) : result OutboundError unit :=
  match candidates with
  | [] => Ok tt
  | candidate :: rest =>
      match ip_address candidate with
      | None => Err (NotAnAddress candidate)
      | Some address =>
          match List.find (in_network address) BLOCKED_NETWORKS with
          | Some network =>
              Err (Blocked (hostname ++ py " resolves to " ++ candidate ++ py ", which is in " ++
                            nw_text network))
          | None => vet hostname rest
          end
      end
  end.

Definition permitted_scheme (allow_http : bool) (scheme : pystr) : bool :=
  bool_decide (scheme = py "https") || (allow_http && bool_decide (scheme = py "http")).

Definition port_or_default (scheme : pystr) (port : option Z) : Z :=
  match port with
  | Some p => if (p =? 0)%Z then if bool_decide (scheme = py "https") then 443%Z else 80%Z else p
  | None => if bool_decide (scheme = py "https") then 443%Z else 80%Z
  end.

Definition validate_destination (url : pystr) (allow_http : bool)
    : result OutboundError ResolvedTarget :=
  match urlsplit url with
  | Err _ => Err BadNetloc
  | Ok parsed =>
      if negb (permitted_scheme allow_http (u_scheme parsed))
      then Err (Blocked (py "scheme '" ++ u_scheme parsed ++ py "' is not permitted"))
      else
        match hostname_of (u_netloc parsed) with
        | None => Err (Blocked (py "no hostname in URL"))
        | Some hostname =>
            let* port := port_of (u_netloc parsed) in
            let port := port_or_default (u_scheme parsed) port in
            let* addresses := addresses_for hostname port in
            match addresses with
            | [] => Err (Blocked (hostname ++ py " resolved to nothing"))
            | first :: _ =>
                let* _ := vet hostname addresses in
                Ok {| rt_url := url; rt_hostname := hostname; rt_address := first; rt_port := port |}
            end
        end
  end.

(** [_PinnedTransport.handle_async_request]: the address that was vetted, under the
    original host. *)
Definition pinned (target : ResolvedTarget) (original_host : pystr) : Connection :=
  let literal := if existsb (N.eqb colon) (rt_address target)
                 then open_bracket :: rt_address target ++ [close_bracket]
                 else rt_address target in
  {| cn_address := literal; cn_port := rt_port target;
     cn_host_header :=
       if bool_decide (rt_port target = 80%Z) || bool_decide (rt_port target = 443%Z)
       then original_host else original_host ++ colon :: py_str_int (rt_port target);
     cn_sni_hostname := original_host |}.

(** [fetch], with the connections it opened.  Redirects are not followed: the answer is
    returned whatever its status. *)
Definition fetch (rq : Request) (allow_http : bool)
    : result OutboundError OutboundResponse * list Connection :=
  match validate_destination (r_url rq) allow_http with
  | Err e => (Err e, [])
  | Ok target =>
      match url_host (r_url rq) with
      | Err (name, text) => (Err (ClientRaised name text), [])
      | Ok host =>
          let connection := pinned target host in
          match exchange connection rq with
          | Err (name, text) => (Err (ClientRaised name text), [connection])
          | Ok (status, text, headers) =>
              (Ok {| or_status_code := status; or_body := take MAX_RESPONSE_BYTES text;
                     or_headers := od_of (prod_map py_lower id <$> headers) [] |}, [connection])
          end
      end
  end.

(** [host_in_allowlist]. *)
Definition dotted (entry : pystr) : pystr := dot :: entry.

Definition ends_with (suffix s : pystr) : bool := starts_with (reverse suffix) (reverse s).

Definition host_in_allowlist (hostname : pystr) (allowlist : list pystr) : bool :=
  let host := rstrip (N.eqb dot) (py_lower hostname) in
  existsb (λ entry, bool_decide (host = py_lower entry) ||
                    ends_with (dotted (rstrip (N.eqb dot) (py_lower entry))) host) allowlist.

(** [is_permitted]; a [ValueError] of the vetting is not caught. *)
Definition is_permitted (url : pystr) (allowlist : list pystr)
    : result OutboundError (bool * pystr) :=
  match validate_destination url false with
  | Err (Blocked why) => Ok (false, why)
  | Err e => Err e
  | Ok target =>
      match allowlist with
      | [] => Ok (true, [])
      | _ =>
          let host := py_lower (rt_hostname target) in
          if existsb (λ entry, bool_decide (host = py_lower entry) ||
                               ends_with (dotted (py_lower entry)) host) allowlist
          then Ok (true, [])
          else Ok (false, rt_hostname target ++ py " is not in this organisation's allowlist")
      end
  end.

(** What the delivery engine's [send] sees of a [fetch]; the text of a [ValueError] is a
    parameter. *)
Definition outcome_of (text_of : OutboundError → pystr) (r : result OutboundError OutboundResponse)
    : FetchOutcome :=
  match r with
  | Ok response => Responded (or_status_code response) (or_body response)
  | Err (Blocked why) => BlockedDestination why
  | Err (ClientRaised name text) => Raised name text
  | Err e => Raised (py "ValueError") (text_of e)
  end.

(** ** What is off limits, as ranges of addresses *)

Definition internal (a : ip) : Prop :=
  match a with
  | V4 n =>
      n < 0x01000000 ∨ 0x0a000000 <= n < 0x0b000000 ∨ 0x64400000 <= n < 0x64800000 ∨
      0x7f000000 <= n < 0x80000000 ∨ 0xa9fe0000 <= n < 0xa9ff0000 ∨
      0xac100000 <= n < 0xac200000 ∨ 0xc0000000 <= n < 0xc0000100 ∨
      0xc0a80000 <= n < 0xc0a90000 ∨ 0xc6120000 <= n < 0xc6140000 ∨
      0xe0000000 <= n < 0x100000000
  | V6 n _ =>
      n <= 1 ∨ 0x64ff9b * 2 ^ 96 <= n < 0x64ff9b * 2 ^ 96 + 2 ^ 32 ∨
      0xfc * 2 ^ 120 <= n < 0xfe * 2 ^ 120 ∨ 0xfe80 * 2 ^ 112 <= n < 0xfec0 * 2 ^ 112 ∨
      0xff * 2 ^ 120 <= n < 2 ^ 128
  end.

Lemma network_of_range h a n :
  a mod 2 ^ h = 0 → (network_of h n =? a) = true ↔ a <= n < a + 2 ^ h.
Proof.
  intros Ha. unfold network_of. rewrite N.eqb_eq, N.shiftl_mul_pow2, N.shiftr_div_pow2.
  assert (2 ^ h ≠ 0) as Hh by (by apply N.pow_nonzero).
  pose proof (N.div_mod n (2 ^ h) Hh) as En. pose proof (N.mod_lt n (2 ^ h) Hh).
  pose proof (N.div_mod a (2 ^ h) Hh) as Ea. rewrite Ha in Ea.
  generalize dependent (n / 2 ^ h). generalize dependent (n mod 2 ^ h). revert Ea.
  generalize dependent (a / 2 ^ h). intros q Eq r Hr p En. generalize dependent (2 ^ h). intros w Hw Eq Hr En.
  split; [intros E; lia |]. intros [H1 H2]. assert (p = q) as ->; [| lia].
  destruct (N.lt_trichotomy p q) as [Hl|[->|Hl]]; [| done |]; nia.
Qed.

(** The blocked networks are these ranges. *)
Lemma blocked_iff_internal a : existsb (in_network a) BLOCKED_NETWORKS = true ↔ internal a.
Proof.
  remember BLOCKED_NETWORKS as l eqn:El. vm_compute in El. subst l.
  cbn [existsb]. rewrite !orb_true_iff.
  destruct a as [n|n scope]; unfold in_network; cbn [width nw_v6 nw_prefix nw_address Bool.eqb andb];
    cbn [N.sub Pos.sub Pos.sub_mask Pos.pred_double Pos.double_mask Pos.succ_double_mask Pos.double_pred_mask Pos.pred_mask];
    rewrite ?network_of_range by (vm_compute; reflexivity); unfold internal;
    repeat match goal with |- context [2 ^ ?k] => let v := eval vm_compute in (2 ^ k) in change (2 ^ k) with v end;
    lia.
Qed.

Lemma blocked_find a : List.find (in_network a) BLOCKED_NETWORKS = None ↔ ¬ internal a.
Proof.
  rewrite <- blocked_iff_internal, not_true_iff_false, find_none_iff. 
  destruct (existsb (in_network a) BLOCKED_NETWORKS) eqn:E; [| split; [done |]; intros _ x Hx].
  - apply existsb_exists in E as (x & Hx%list_elem_of_In & E). split; [| done].
    intros Hall. by rewrite (Hall x Hx) in E.
  - destruct (in_network a x) eqn:Ex; [| done]. apply not_true_iff_false in E. exfalso. apply E.
    apply existsb_exists. exists x. by rewrite <- list_elem_of_In.
Qed.

Lemma str_compare_eq a b : str_compare a b = Eq → a = b.
Proof.
  revert b. induction a as [|x a IH]; intros [|y b]; cbn; try done.
  destruct (N.compare_spec x y) as [->| |]; try done. intros ->%IH. done.
Qed.

Lemma insert_str_elem x l y : y ∈ insert_str x l ↔ y = x ∨ y ∈ l.
Proof.
  induction l as [|z l IH]; cbn; [set_solver |].
  destruct (str_compare x z) eqn:E.
  - apply str_compare_eq in E as ->. rewrite elem_of_cons. tauto.
  - apply elem_of_cons.
  - rewrite !elem_of_cons, IH. tauto.
Qed.

Lemma sorted_set_elem l y : y ∈ sorted_set l ↔ y ∈ l.
Proof.
  induction l as [|x l IH]; [done |]. cbn [sorted_set foldr]. rewrite insert_str_elem, elem_of_cons.
  unfold sorted_set in IH. by rewrite IH.
Qed.

(** An address the platform may reach. *)
Definition public (text : pystr) : Prop := ∃ a, ip_address text = Some a ∧ ¬ internal a.

Lemma vet_ok hostname l u : vet hostname l = Ok u ↔ Forall public l.
Proof.
  destruct u. induction l as [|text l IH]; cbn [vet]; [split; [constructor | done] |].
  rewrite Forall_cons, <- IH. unfold public at 1. destruct (ip_address text) as [a|].
  - destruct (List.find (in_network a) BLOCKED_NETWORKS) as [nw|] eqn:E.
    + split; [done |]. intros [(b & [= <-] & Hb) _]. apply blocked_find in Hb. congruence.
    + apply blocked_find in E. split; [intros H; split; [by exists a | done] | by intros [_ ?]].
  - split; [done |]. by intros [(b & ? & _) _].
Qed.

(** What a vetted destination is. *)
Record vetted (url : pystr) (allow_http : bool) (t : ResolvedTarget) (parsed : SplitResult)
    (port : option Z) (answers : list pystr) : Prop := {
  vt_url : rt_url t = url;
  vt_parsed : urlsplit url = Ok parsed;
  vt_scheme : permitted_scheme allow_http (u_scheme parsed) = true;
  vt_hostname : hostname_of (u_netloc parsed) = Some (rt_hostname t);
  vt_port : port_of (u_netloc parsed) = Ok port;
  vt_port_used : rt_port t = port_or_default (u_scheme parsed) port;
  vt_resolved : getaddrinfo (rt_hostname t) (rt_port t) = Addresses answers;
  vt_address : head (sorted_set answers) = Some (rt_address t);
  vt_public : Forall public answers
}.

(** [validate_destination] passes a URL exactly when its scheme is allowed, it names
    a host and a port, the host resolves, and every address it resolves to is an address
    outside the ranges that are off limits; the target is the first of those addresses. *)
Theorem validate_destination_exact url allow_http t :
  validate_destination url allow_http = Ok t ↔
  ∃ parsed port answers, vetted url allow_http t parsed port answers.
Proof.
  unfold validate_destination, addresses_for. split.
  - destruct (urlsplit url) as [parsed|e] eqn:Eu; [| done].
    destruct (permitted_scheme allow_http (u_scheme parsed)) eqn:Es; [| done]. cbn [negb].
    destruct (hostname_of (u_netloc parsed)) as [h|] eqn:Eh; [| done]. intros Hv.
    apply rbind_Ok in Hv as (port & Ep & Hv). apply rbind_Ok in Hv as (addresses & Ea & Hv).
    destruct (getaddrinfo h (port_or_default (u_scheme parsed) port)) as [answers| |] eqn:Er; try done.
    injection Ea as <-. destruct (sorted_set answers) as [|first rest] eqn:Ef; [done |].
    apply rbind_Ok in Hv as (u & Hv & [= <-]). apply vet_ok in Hv.
    exists parsed, port, answers. split; cbn; [done | done | done | done | done | done | done | by rewrite Ef |].
    rewrite <- Ef, Forall_forall in Hv. apply Forall_forall. intros x Hx. by apply Hv, sorted_set_elem.
  - intros (parsed & port & answers & [Eurl Eu Es Eh Ep Epu Er Ef Hp]). rewrite Eu, Es, Eh, Ep.
    cbn [negb rbind]. rewrite <- Epu, Er. cbn [rbind].
    destruct (sorted_set answers) as [|first rest] eqn:Eso; [done |]. injection Ef as ->.
    assert (vet (rt_hostname t) (rt_address t :: rest) = Ok tt) as ->.
    { apply vet_ok. rewrite <- Eso. rewrite Forall_forall in Hp. apply Forall_forall.
      intros x Hx. apply Hp. exact (proj1 (sorted_set_elem answers x) Hx). }
    cbn [rbind]. destruct t; cbn in *. by subst.
Qed.

(** (C28) No request reaches the inside.  Whatever the URL, the resolver and the client
    do, [fetch] opens at most one connection, to an address that the one resolution of the
    host gave and that is outside every range off limits, over https unless plain http was
    asked for; the certificate is checked against the host of the URL, not the address. *)
Theorem fetch_reaches_only_public_addresses rq allow_http c :
  c ∈ snd (fetch rq allow_http) →
  snd (fetch rq allow_http) = [c] ∧
  ∃ t parsed port answers,
    vetted (r_url rq) allow_http t parsed port answers ∧ public (rt_address t) ∧
    rt_address t ∈ answers ∧
    (cn_address c = rt_address t ∨ cn_address c = open_bracket :: rt_address t ++ [close_bracket]) ∧
    cn_port c = rt_port t ∧ url_host (r_url rq) = Ok (cn_sni_hostname c).
Proof.
  unfold fetch. destruct (validate_destination (r_url rq) allow_http) as [t|e] eqn:Ev; [| set_solver].
  destruct (url_host (r_url rq)) as [host|[]] eqn:Eh; [| set_solver].
  intros Hc. assert (c = pinned t host ∧ snd (match exchange (pinned t host) rq with
    | Ok (status, text, headers) =>
        (Ok {| or_status_code := status; or_body := take MAX_RESPONSE_BYTES text;
               or_headers := od_of (prod_map py_lower id <$> headers) [] |}, [pinned t host])
    | Err (name, text) => (Err (ClientRaised name text), [pinned t host])
    end) = [pinned t host]) as [-> Es].
  { destruct (exchange (pinned t host) rq) as [[[? ?] ?]|[? ?]]; cbn in *;
      apply list_elem_of_singleton in Hc as ->; done. }
  split; [exact Es |]. apply validate_destination_exact in Ev as (parsed & port & answers & Hv).
  exists t, parsed, port, answers.
  assert (rt_address t ∈ answers) as Hin.
  { pose proof (vt_address _ _ _ _ _ _ Hv) as Hh. apply sorted_set_elem.
    destruct (sorted_set answers) as [|x l]; [done |]. injection Hh as ->. by left. }
  pose proof (vt_public _ _ _ _ _ _ Hv) as Hp. rewrite Forall_forall in Hp.
  split; [done |]. split; [by apply Hp |]. split; [done |]. split; [| done].
  cbn [pinned cn_address]. destruct (existsb (N.eqb colon) (rt_address t)); [by right | by left].
Qed.

(** A refused destination costs no connection and is never retried: the delivery of a
    request the guard refuses is abandoned at its first attempt, whatever the success codes
    of the rule. *)
Theorem refused_destination_is_abandoned text_of rq allow_http why success attempt :
  validate_destination (r_url rq) allow_http = Err (Blocked why) →
  snd (fetch rq allow_http) = [] ∧
  decided_status (send (outcome_of text_of (fst (fetch rq allow_http)))) success attempt None = Abandoned.
Proof. intros E. unfold fetch. by rewrite E. Qed.

(** ** The allowlist *)

Lemma starts_with_iff p s : starts_with p s = true ↔ ∃ t, s = p ++ t.
Proof.
  revert s. induction p as [|a p IH]; intros s; cbn; [split; [by exists s | done] |].
  destruct s as [|b s]; [split; [done | by intros []] |].
  rewrite andb_true_iff, N.eqb_eq, IH. split.
  - intros [-> [t ->]]. by exists t.
  - intros [t [= -> ->]]. split; [done | by exists t].
Qed.

Lemma ends_with_iff suffix s : ends_with suffix s = true ↔ suffix `suffix_of` s.
Proof.
  unfold ends_with. rewrite starts_with_iff. split.
  - intros [t E]. exists (reverse t). apply (f_equal reverse) in E.
    by rewrite reverse_involutive, reverse_app, reverse_involutive in E.
  - intros [k ->]. exists (reverse k). apply reverse_app.
Qed.

Lemma py_join_app sep a b : a ≠ [] → b ≠ [] → py_join sep (a ++ b) = py_join sep a ++ sep ++ py_join sep b.
Proof.
  intros Ha Hb. induction a as [|x a IH]; [done |]. destruct a as [|y a].
  - cbn. by destruct b.
  - cbn [app py_join] in *. rewrite IH by done. by rewrite <- !(assoc_L (++)).
Qed.

(** A domain covers itself and what is below it: its labels end the labels of the host. *)
Lemma below_by_labels host entry :
  host = entry ∨ dotted entry `suffix_of` host ↔ py_split dot entry `suffix_of` py_split dot host.
Proof.
  split.
  - intros [->|[k ->]]; [done |]. unfold dotted. rewrite py_split_middle. by exists (py_split dot k).
  - intros [k E]. assert (py_join [dot] (py_split dot host) = host) as Eh by apply py_join_split.
    rewrite E in Eh. destruct k as [|w k].
    + left. rewrite <- Eh. apply py_join_split.
    + right. rewrite py_join_app, py_join_split in Eh; [| done | apply py_split_nonempty].
      exists (py_join [dot] (w :: k)). rewrite <- Eh. done.
Qed.

(** The allowlist compares whole labels: a host is covered exactly when the labels of
    an entry end the labels of the host, so that an entry never covers a longer name that
    merely ends with its text. *)
Theorem allowlist_compares_labels hostname allowlist :
  Forall (λ e, rstrip (N.eqb dot) (py_lower e) = py_lower e) allowlist →
  host_in_allowlist hostname allowlist = true ↔
  ∃ entry, entry ∈ allowlist ∧
    py_split dot (py_lower entry) `suffix_of` py_split dot (rstrip (N.eqb dot) (py_lower hostname)).
Proof.
  intros Hf. unfold host_in_allowlist. rewrite existsb_exists. rewrite Forall_forall in Hf.
  apply exist_proper. intros entry. rewrite <- list_elem_of_In. split; intros [Hin H]; (split; [done |]).
  - rewrite (Hf entry Hin) in H. apply below_by_labels. apply orb_true_iff in H as [H|H].
    + left. by apply bool_decide_eq_true in H.
    + right. by apply ends_with_iff.
  - rewrite (Hf entry Hin). apply orb_true_iff. apply below_by_labels in H as [H|H].
    + left. by apply bool_decide_eq_true.
    + right. by apply ends_with_iff.
Qed.
End Outbound.

(** ** Witnesses *)

Definition ex_resolver : Resolver :=
  {| getaddrinfo := λ host _,
       if bool_decide (host = py "partner.example") then Addresses [py "203.0.113.9"; py "198.51.100.7"]
       else if bool_decide (host = py "rebind.example") then Addresses [py "203.0.113.9"; py "169.254.169.254"]
       else if bool_decide (host = py "::ffff:169.254.169.254") then Addresses [py "::ffff:169.254.169.254"]
       else GaiError |}.

Definition ex_client : HttpClient :=
  {| url_host := λ _, Ok (py "partner.example");
     exchange := λ _ _, Ok (302%Z, py "moved", [(py "Location", py "http://169.254.169.254/")]) |}.

Definition ex_brackets : NetlocCheck := {| netloc_check := λ _, true |}.

Definition ex_get (url : string) : Request :=
  {| r_url := py url; r_method := py "GET"; r_headers := []; r_body := None |}.

Abbreviation ex_fetch := (@fetch ascii_unicode ex_brackets ex_resolver ex_client).
Abbreviation ex_validate := (@validate_destination ascii_unicode ex_brackets ex_resolver).

Example fetch_does_not_follow :
  fst (ex_fetch (ex_get "https://partner.example:8443/p?x=1") false) =
  Ok {| or_status_code := 302; or_body := py "moved";
        or_headers := [(py "location", py "http://169.254.169.254/")] |}.
Proof. vm_compute. reflexivity. Qed.

Definition ex_connection : Connection :=
  {| cn_address := py "198.51.100.7"; cn_port := 8443;
     cn_host_header := py "partner.example:8443"; cn_sni_hostname := py "partner.example" |}.

Lemma fetch_reaches_only_public_addresses_witness :
  snd (ex_fetch (ex_get "https://partner.example:8443/p?x=1") false) = [ex_connection] ∧
  ∃ address, public address ∧ cn_address ex_connection = address.
Proof.
  assert (snd (ex_fetch (ex_get "https://partner.example:8443/p?x=1") false) = [ex_connection]) as E
    by (vm_compute; reflexivity).
  destruct (@fetch_reaches_only_public_addresses ascii_unicode ex_brackets ex_resolver ex_client
    (ex_get "https://partner.example:8443/p?x=1") false ex_connection)
    as [H1 (t & parsed & port & answers & Hv & Hp & _ & Ha & _)]; [rewrite E; by left |].
  split; [exact H1 |]. exists (rt_address t). split; [exact Hp |].
  destruct Ha as [Ha|Ha]; [exact Ha | discriminate Ha].
Defined.

Lemma refused_destination_is_abandoned_witness :
  decided_status (send (outcome_of (λ _, []) (fst (ex_fetch (ex_get "https://rebind.example/") false)))) [200%Z] 1 None
  = Abandoned.
Proof.
  apply (@refused_destination_is_abandoned ascii_unicode ex_brackets ex_resolver ex_client (λ _, [])
    (ex_get "https://rebind.example/") false
    (py "rebind.example resolves to 169.254.169.254, which is in 169.254.0.0/16") [200%Z] 1).
  vm_compute. reflexivity.
Defined.

Lemma allowlist_compares_labels_witness :
  @host_in_allowlist ascii_unicode (py "API.Partner.example.") [py "partner.example"] = true ∧
  @host_in_allowlist ascii_unicode (py "evilpartner.example") [py "partner.example"] = false.
Proof.
  split.
  - apply (@allowlist_compares_labels ascii_unicode); [repeat constructor |].
    exists (py "partner.example"). split; [by left |]. exists [py "api"]. vm_compute. reflexivity.
  - vm_compute. reflexivity.
Defined.

(** ** What the code does beyond its documentation *)

(** The metadata service in its IPv4-mapped form is in none of the blocked networks: a
    literal, or a name that resolves to it, passes. *)
Lemma mapped_metadata_address_passes :
  (∃ t, ex_validate (py "https://[::ffff:169.254.169.254]/latest/meta-data/") false = Ok t ∧
        rt_address t = py "::ffff:169.254.169.254") ∧
  internal (normalised (V6 0xffffa9fea9fe None)).
Proof.
  split.
  - eexists. split; vm_compute; reflexivity.
  - change (internal (V4 0xa9fea9fe)). cbn. lia.
Qed.

(** The two readings of the allowlist differ: a fully qualified name is covered by
    [host_in_allowlist] and refused by [is_permitted]. *)
Lemma allowlist_readings_differ :
  let r := {| getaddrinfo := λ _ _, Addresses [py "203.0.113.9"] |} in
  @host_in_allowlist ascii_unicode (py "partner.example.") [py "partner.example"] = true ∧
  @is_permitted ascii_unicode ex_brackets r (py "https://partner.example./") [py "partner.example"] =
  Ok (false, py "partner.example. is not in this organisation's allowlist").
Proof. split; vm_compute; reflexivity. Qed.

(** A port that is not a number escapes [is_permitted] as an exception. *)
Lemma bad_port_escapes :
  @is_permitted ascii_unicode ex_brackets ex_resolver (py "https://partner.example:abc/") [] =
  Err (BadPort (py "abc")).
Proof. vm_compute. reflexivity. Qed.
