(* ===== verification/Webhooks.v ===== *)
(** * Webhooks (mmp_providers/webhooks.py, mmp_worker/webhook_sender.py)

    The signed envelope with the verification code handed to receivers, and the consumer:
    claim, sign, send through the guard of Outbound.v, record, and disable after too many
    failures in a row.  The JSON encoder and [isoformat] are parameters.  Every statement
    commits on its own; [hook_step] interleaves any number of workers. *)

From S2P Require Import Prelude Ids Keys Schema Ingest Referrer Templates Urls Signing Envelope IpAddr.
From S2P Require Import Delivery Outbound.

#[local] Open Scope Z_scope.
#[local] Open Scope mmp_scope.

(** ** mmp_providers/webhooks.py *)

Definition WEBHOOK_EVENTS : list pystr :=
  [py "install"; py "signup"; py "purchase"; py "subscription_start"; py "refund";
   py "attribution_created"].

Definition MAX_CONSECUTIVE_FAILURES : Z := 20.

Record WebhookPayload := {
  wp_id : pystr;
  wp_type : pystr;
  wp_created_at : pystr;
  wp_data : props
}.

(** [msgspec.json.encode] of an object. *)
Class JsonEncoder := { json_encode : props → list N }.

Definition should_disable (consecutive_failures : Z) : bool :=
  MAX_CONSECUTIVE_FAILURES <=? consecutive_failures.

(** What the code handed to a receiver answers: [None] when it raises. *)
Definition TOLERANCE_SECONDS : Z := 300.

Section Envelope.
Context {U : Unicode} {H : Hmac} {S : Sha256} {J : JsonEncoder}.
Variable isoformat : datetime → pystr.

Definition encode (p : WebhookPayload) : list N :=
  json_encode [(py "id", JStr (wp_id p)); (py "type", JStr (wp_type p));
               (py "created_at", JStr (wp_created_at p)); (py "data", JObj (wp_data p))].

Definition build_payload (event_type : pystr) (data : props) (delivery_id : uuid) (now : datetime)
    : WebhookPayload :=
  {| wp_id := str_of_uuid delivery_id; wp_type := event_type; wp_created_at := isoformat now;
     wp_data := data |}.

Definition signed_headers (payload : list N) (secret url_path delivery_id : pystr) (now : datetime)
    : list (pystr * pystr) :=
  let signature := sign (py "POST") url_path payload secret now in
  [(py "content-type", py "application/json"); (py "user-agent", py "mmp-webhooks/1");
   (py "x-mmp-delivery-id", delivery_id); (SIGNATURE_HEADER, sr_signature signature);
   (TIMESTAMP_HEADER, sr_timestamp signature)].

(** The [verify] of [verification_snippet]; [time.time()] as an instant. *)
Definition receiver_verify (secret request_path : pystr) (body : list N)
    (headers : list (pystr * pystr)) (now : datetime) : option bool :=
  timestamp ← od_get (py "x-mmp-timestamp") headers;
  t ← py_int 10 timestamp;
  if Z.abs (now - t * second) >? TOLERANCE_SECONDS * second then Some false
  else
    let canonical := py_join [lf] [py "v1"; py "POST"; request_path; timestamp;
                                   hex_of_bytes (sha256_digest body)] in
    let expected := hex_of_bytes (hmac_sha256 secret canonical) in
    signature ← od_get (py "x-mmp-signature") headers;
    let presented := removeprefix (py "v1=") signature in
    if negb (ascii_str presented) then None else Some (bool_decide (expected = presented)).

Lemma receiver_agrees secret path body headers signature timestamp now :
  od_get SIGNATURE_HEADER headers = Some signature →
  od_get TIMESTAMP_HEADER headers = Some timestamp → is_Some (sent_at timestamp) →
  receiver_verify secret path body headers now = Some true ↔
  verify (py "POST") path body secret signature timestamp DEFAULT_TOLERANCE now = Ok tt.
Proof.
  intros Es Et [sent Hs]. unfold receiver_verify, verify. rewrite Hs.
  change (py "x-mmp-timestamp") with TIMESTAMP_HEADER. change (py "x-mmp-signature") with SIGNATURE_HEADER.
  rewrite Et, Es. cbn [mbind option_bind]. unfold sent_at in Hs.
  destruct (py_int 10 timestamp) as [t|]; [| done]. cbn [mbind option_bind] in Hs |- *.
  destruct ((MIN_TIMESTAMP <=? t) && (t <=? MAX_TIMESTAMP)); [| done]. injection Hs as <-.
  change (TOLERANCE_SECONDS * second) with DEFAULT_TOLERANCE.
  destruct (Z.abs (now - t * second) >? DEFAULT_TOLERANCE); [done |].
  change (py_join [lf] [py "v1"; py "POST"; path; timestamp; hex_of_bytes (sha256_digest body)])
    with (canonical_request (py "POST") path timestamp body).
  change (py "v1=") with (SCHEME ++ py "="). fold (digest_of (py "POST") path timestamp body secret).
  destruct (ascii_str _); cbn [negb]; [| done].
  destruct (bool_decide (digest_of (py "POST") path timestamp body secret = removeprefix (SCHEME ++ py "=") signature));
    done.
Qed.

(** The code handed to receivers agrees with the verifier of the platform: on any
    body, path, secret and pair of headers, it accepts exactly what [verify] accepts of a
    POST, for every timestamp that is a date. *)
Theorem receiver_agrees_with_verify secret path body headers signature timestamp now :
  od_get SIGNATURE_HEADER headers = Some signature →
  od_get TIMESTAMP_HEADER headers = Some timestamp → is_Some (sent_at timestamp) →
  receiver_verify secret path body headers now = Some true ↔
  verify (py "POST") path body secret signature timestamp DEFAULT_TOLERANCE now = Ok tt.
Proof. apply receiver_agrees. Qed.
End Envelope.

(** ** mmp_worker/webhook_sender.py *)

Definition SUCCESS_CODES : list Z := [200; 201; 202; 204].

(** A row of [webhooks]. *)
Record WebhookRow := {
  wh_id : uuid;
  wh_organization_id : uuid;
  wh_url : pystr;
  wh_secret : SealedSecret;
  wh_events : list pystr;
  wh_enabled : bool;
  wh_consecutive_failures : Z;
  wh_disabled_at : option datetime;
  wh_updated_at : datetime
}.

(** A row of [webhook_deliveries]. *)
Record WebhookDelivery := {
  wd_id : uuid;
  wd_organization_id : uuid;
  wd_webhook_id : uuid;
  wd_event_id : uuid;
  wd_event_type : pystr;
  wd_status : DeliveryStatus;
  wd_attempt_count : Z;
  wd_request_url : pystr;
  wd_created_at : datetime;
  wd_response_status : option Z;
  wd_response_body : option pystr;
  wd_error : option pystr;
  wd_delivered_at : option datetime;
  wd_next_retry_at : option datetime
}.

Definition hook_key (r : WebhookDelivery) : uuid * uuid := (wd_webhook_id r, wd_event_id r).

(** [SUBSCRIBERS_SQL]. *)
Definition subscribers (hooks : list WebhookRow) (org : uuid) (event_name : pystr) : list WebhookRow :=
  List.filter (λ h, bool_decide (wh_organization_id h = org) && wh_enabled h &&
                    bool_decide (event_name ∈ wh_events h)) hooks.

(** [CLAIM_SQL]: a conflict on (webhook, event) inserts nothing; one on the primary key
    raises. *)
Definition claim_hook (rows : list WebhookDelivery) (now : datetime) (id org hook event : uuid)
    (event_type url : pystr) : result DbError (bool * list WebhookDelivery) :=
  if existsb (λ r, bool_decide (hook_key r = (hook, event))) rows then Ok (false, rows)
  else
    let* _ := raise_if (existsb (λ r, bool_decide (wd_id r = id)) rows) UniqueViolation in
    Ok (true, rows ++
      [{| wd_id := id; wd_organization_id := org; wd_webhook_id := hook; wd_event_id := event;
          wd_event_type := event_type; wd_status := InFlight; wd_attempt_count := 1;
          wd_request_url := url; wd_created_at := now; wd_response_status := None;
          wd_response_body := None; wd_error := None; wd_delivered_at := None;
          wd_next_retry_at := None |}]).

(** [RECORD_SQL]. *)
Definition record_hook_row (now : datetime) (status : DeliveryStatus) (code : option Z)
    (body error : option pystr) (retry_at : option datetime) (row : WebhookDelivery)
    : WebhookDelivery :=
  {| wd_id := wd_id row; wd_organization_id := wd_organization_id row;
     wd_webhook_id := wd_webhook_id row; wd_event_id := wd_event_id row;
     wd_event_type := wd_event_type row; wd_status := status;
     wd_attempt_count := wd_attempt_count row; wd_request_url := wd_request_url row;
     wd_created_at := wd_created_at row; wd_response_status := code; wd_response_body := body;
     wd_error := error;
     wd_delivered_at := if bool_decide (status = Delivered) then Some now else wd_delivered_at row;
     wd_next_retry_at := retry_at |}.

Definition record_hook (now : datetime) (id : uuid) (status : DeliveryStatus) (code : option Z)
    (body error : option pystr) (retry_at : option datetime) (rows : list WebhookDelivery)
    : list WebhookDelivery :=
  (λ r, if bool_decide (wd_id r = id) then record_hook_row now status code body error retry_at r
        else r) <$> rows.

Definition set_health (failures : Z) (enabled : bool) (disabled_at : option datetime) (now : datetime)
    (h : WebhookRow) : WebhookRow :=
  {| wh_id := wh_id h; wh_organization_id := wh_organization_id h; wh_url := wh_url h;
     wh_secret := wh_secret h; wh_events := wh_events h; wh_enabled := enabled;
     wh_consecutive_failures := failures; wh_disabled_at := disabled_at; wh_updated_at := now |}.

(** [FAILURE_SQL], on one row. *)
Definition failure (now : datetime) (h : WebhookRow) : WebhookRow :=
  let n := wh_consecutive_failures h + 1 in
  let over := MAX_CONSECUTIVE_FAILURES <=? n in
  set_health n (if over then false else wh_enabled h)
    (if over && bool_decide (wh_disabled_at h = None) then Some now else wh_disabled_at h) now h.

(** [SUCCESS_SQL], on one row. *)
Definition success (now : datetime) (h : WebhookRow) : WebhookRow :=
  if 0 <? wh_consecutive_failures h
  then set_health 0 (wh_enabled h) (wh_disabled_at h) now h else h.

Definition update_hook (id : uuid) (f : WebhookRow → WebhookRow) (hooks : list WebhookRow)
    : list WebhookRow :=
  (λ h, if bool_decide (wh_id h = id) then f h else h) <$> hooks.

Definition count_outcome (now : datetime) (id : uuid) (delivered : bool) (hooks : list WebhookRow)
    : list WebhookRow :=
  update_hook id (if delivered then success now else failure now) hooks.

Record WebhookMetrics := {
  wm_considered : Z;
  wm_delivered : Z;
  wm_failed : Z;
  wm_disabled : Z;
  wm_by_status : DeliveryStatus → Z
}.

Inductive HookError := HookBadUuid | HookBadUrl | HookDatabase (e : DbError).

(** [bytes.decode("utf-8")]: what decodes without a replacement encodes back. *)
Definition decode_strict (b : list N) : option pystr :=
  let s := decode_replace b in if bool_decide (s ≫= utf8 = b) then Some s else None.

Definition is_delivered (r : DeliveryResult) : bool :=
  match dr_status_code r with Some c => bool_decide (c ∈ SUCCESS_CODES) | None => false end.

Definition hook_status (r : DeliveryResult) : DeliveryStatus :=
  if is_delivered r then Delivered else if negb (retryable r) then Abandoned else Failed.

(** What one delivery draws from its surroundings. *)
Record HookAttempt := {
  ha_id : uuid;
  ha_now : datetime;
  ha_recorded : datetime;
  ha_draw : Z;
  ha_resolver : Resolver;
  ha_client : HttpClient
}.

Section Consumer.
Context {U : Unicode} {H : Hmac} {S : Sha256} {J : JsonEncoder} {NC : NetlocCheck}.
Context `{AEAD} {P : Type} `{MasterKeyProvider P}.
Variable isoformat : datetime → pystr.
Variable text_of : OutboundError → pystr.

(** The consumer and what it shares; the requests sent and the outcomes counted are kept
    for the theorems. *)
Record HookWorld := {
  hw_hooks : list WebhookRow;
  hw_rows : list WebhookDelivery;
  hw_keys : P;
  hw_metrics : WebhookMetrics;
  hw_sent : list (uuid * Request);
  hw_connections : list Connection;
  hw_log : list (uuid * bool)
}.

Definition set_rows (rows : list WebhookDelivery) (w : HookWorld) : HookWorld :=
  {| hw_hooks := hw_hooks w; hw_rows := rows; hw_keys := hw_keys w; hw_metrics := hw_metrics w;
     hw_sent := hw_sent w; hw_connections := hw_connections w; hw_log := hw_log w |}.
Definition set_keys (keys : P) (w : HookWorld) : HookWorld :=
  {| hw_hooks := hw_hooks w; hw_rows := hw_rows w; hw_keys := keys; hw_metrics := hw_metrics w;
     hw_sent := hw_sent w; hw_connections := hw_connections w; hw_log := hw_log w |}.
Definition set_metrics (m : WebhookMetrics) (w : HookWorld) : HookWorld :=
  {| hw_hooks := hw_hooks w; hw_rows := hw_rows w; hw_keys := hw_keys w; hw_metrics := m;
     hw_sent := hw_sent w; hw_connections := hw_connections w; hw_log := hw_log w |}.
Definition sent_request (id : uuid) (rq : Request) (cs : list Connection) (w : HookWorld) : HookWorld :=
  {| hw_hooks := hw_hooks w; hw_rows := hw_rows w; hw_keys := hw_keys w; hw_metrics := hw_metrics w;
     hw_sent := hw_sent w ++ [(id, rq)]; hw_connections := hw_connections w ++ cs;
     hw_log := hw_log w |}.
Definition counted (now : datetime) (id : uuid) (delivered : bool) (w : HookWorld) : HookWorld :=
  {| hw_hooks := count_outcome now id delivered (hw_hooks w); hw_rows := hw_rows w;
     hw_keys := hw_keys w; hw_metrics := hw_metrics w; hw_sent := hw_sent w;
     hw_connections := hw_connections w; hw_log := hw_log w ++ [(id, delivered)] |}.

Definition considered (m : WebhookMetrics) : WebhookMetrics :=
  {| wm_considered := wm_considered m + 1; wm_delivered := wm_delivered m; wm_failed := wm_failed m;
     wm_disabled := wm_disabled m; wm_by_status := wm_by_status m |}.

(** The counters of [_record]; [disabled] is whether the row came back disabled. *)
Definition outcome_metrics (status : DeliveryStatus) (delivered disabled : bool) (m : WebhookMetrics)
    : WebhookMetrics :=
  {| wm_considered := wm_considered m;
     wm_delivered := if delivered then wm_delivered m + 1 else wm_delivered m;
     wm_failed := if delivered then wm_failed m else wm_failed m + 1;
     wm_disabled := if negb delivered && disabled then wm_disabled m + 1 else wm_disabled m;
     wm_by_status := λ s, if decide (s = status) then wm_by_status m s + 1 else wm_by_status m s |}.

(** [_record]. *)
Definition record_result (env : HookAttempt) (hook id : uuid) (r : DeliveryResult) (w : HookWorld)
    : HookWorld :=
  let delivered := is_delivered r in
  let status := hook_status r in
  let retry_at := if bool_decide (status = Failed)
                  then Some (next_retry_at 1 (ha_recorded env) (ha_draw env)) else None in
  let w := set_rows (record_hook (ha_recorded env) id status (dr_status_code r)
                       (nonempty (take 2000 (default [] (dr_body r)))) (dr_error r) retry_at
                       (hw_rows w)) w in
  let w := counted (ha_recorded env) hook delivered w in
  let disabled := existsb (λ h, bool_decide (wh_id h = hook) && negb (wh_enabled h)) (hw_hooks w) in
  set_metrics (outcome_metrics status delivered disabled (hw_metrics w)) w.

(** The data of the payload. *)
Definition event_data (event : QueuedEvent) : props :=
  let str := λ o : option pystr, match o with Some s => JStr s | None => JNull end in
  [(py "event_id", JStr (q_event_id event)); (py "app_id", JStr (q_app_id event));
   (py "anonymous_id", JStr (q_anonymous_id event)); (py "user_id", str (q_user_id event));
   (py "occurred_at", JStr (isoformat (q_occurred_at event)));
   (py "revenue_minor", match q_revenue_minor event with Some z => JInt z | None => JNull end);
   (py "currency", str (q_currency event)); (py "platform", JInt (q_platform event))].

(** [urlparse(url).path or "/"]: [urlparse] takes the parameters of the last segment off. *)
Definition url_path (url : pystr) : option pystr :=
  match urlsplit url with
  | Err _ => None
  | Ok r =>
      let path := if bool_decide (u_scheme r ∈ uses_params) && existsb (N.eqb semicolon) (u_path r)
                  then fst (split_params (u_path r)) else u_path r in
      Some (match path with [] => [slash] | _ => path end)
  end.

(** From the claim on. *)
Definition deliver_hook (env : HookAttempt) (hook : WebhookRow) (event : QueuedEvent) (w : HookWorld)
    : option HookError * HookWorld :=
  let id := ha_id env in
  let body := encode (build_payload isoformat (q_event_name event) (event_data event) id (ha_now env)) in
  let '(opened, keys) := open_sealed (wh_secret hook) (hw_keys w) (ha_now env)
                           (organization_aad (wh_organization_id hook)) in
  let w := set_keys keys w in
  match (match opened with Ok b => decode_strict b | Err _ => None end) with
  | None =>
      (None, set_rows (record_hook (ha_recorded env) id Abandoned None None
         (Some (py "signing secret could not be decrypted")) None (hw_rows w)) w)
  | Some secret =>
      match url_path (wh_url hook) with
      | None => (Some HookBadUrl, w)
      | Some path =>
          let rq := {| r_url := wh_url hook; r_method := py "POST";
                       r_headers := signed_headers body secret path (str_of_uuid id) (ha_now env);
                       r_body := Some body |} in
          let '(answer, connections) := fetch (R := ha_resolver env) (C := ha_client env) rq false in
          let w := sent_request id rq connections w in
          (None, record_result env (wh_id hook) id (send (outcome_of text_of answer)) w)
      end
  end.

(** [_deliver]. *)
Definition deliver (env : HookAttempt) (hook : WebhookRow) (event : QueuedEvent) (w : HookWorld)
    : option HookError * HookWorld :=
  let w := set_metrics (considered (hw_metrics w)) w in
  match uuid_of_str (q_event_id event) with
  | None => (Some HookBadUuid, w)
  | Some event_id =>
      match claim_hook (hw_rows w) (ha_now env) (ha_id env) (wh_organization_id hook) (wh_id hook)
              event_id (q_event_name event) (wh_url hook) with
      | Err e => (Some (HookDatabase e), w)
      | Ok (false, _) => (None, w)
      | Ok (true, rows) => deliver_hook env hook event (set_rows rows w)
      end
  end.

(** The loop over the subscribers; an exception ends it. *)
Fixpoint deliver_all (envs : nat → HookAttempt) (hooks : list WebhookRow) (event : QueuedEvent)
    (w : HookWorld) : option HookError * HookWorld :=
  match hooks with
  | [] => (None, w)
  | hook :: hooks =>
      match deliver (envs 0%nat) hook event w with
      | (Some e, w) => (Some e, w)
      | (None, w) => deliver_all (λ n, envs (Datatypes.S n)) hooks event w
      end
  end.

Definition handle (envs : nat → HookAttempt) (event : QueuedEvent) (w : HookWorld)
    : option HookError * HookWorld :=
  if negb (bool_decide (q_event_name event ∈ WEBHOOK_EVENTS)) then (None, w)
  else
    match uuid_of_str (q_organization_id event) with
    | None => (Some HookBadUuid, w)
    | Some org => deliver_all envs (subscribers (hw_hooks w) org (q_event_name event)) event w
    end.

(** [run_once] on the messages read: the ids acknowledged. *)
Fixpoint run_batch (envs : nat → nat → HookAttempt) (messages : list (pystr * QueuedEvent))
    (w : HookWorld) : list pystr * HookWorld :=
  match messages with
  | [] => ([], w)
  | (mid, event) :: messages =>
      let '(e, w) := handle (envs 0%nat) event w in
      let '(acked, w) := run_batch (λ n, envs (Datatypes.S n)) messages w in
      (match e with None => mid :: acked | Some _ => acked end, w)
  end.

(** ** Workers sharing the tables

    A worker holds a claimed delivery, one it has posted, or an outcome it has recorded
    and not yet counted. *)
Inductive HookHand :=
| Claimed (id hook : uuid)
| Posted (id hook : uuid)
| Recorded (hook : uuid) (delivered : bool).

Record HookSystem := {
  hs_hooks : list WebhookRow;
  hs_rows : list WebhookDelivery;
  hs_hands : list HookHand;
  hs_sent : list (uuid * Request);
  hs_log : list (uuid * bool)
}.

Inductive hook_step : HookSystem → HookSystem → Prop :=
| hook_claim hooks rows rows' hands sent log now id org hook event type url :
    claim_hook rows now id org hook event type url = Ok (true, rows') →
    hook_step
      {| hs_hooks := hooks; hs_rows := rows; hs_hands := hands; hs_sent := sent; hs_log := log |}
      {| hs_hooks := hooks; hs_rows := rows'; hs_hands := Claimed id hook :: hands; hs_sent := sent;
         hs_log := log |}
| hook_post hooks rows h1 h2 sent log id hook rq :
    hook_step
      {| hs_hooks := hooks; hs_rows := rows; hs_hands := h1 ++ Claimed id hook :: h2; hs_sent := sent;
         hs_log := log |}
      {| hs_hooks := hooks; hs_rows := rows; hs_hands := h1 ++ Posted id hook :: h2;
         hs_sent := sent ++ [(id, rq)]; hs_log := log |}
| hook_abandon hooks rows h1 h2 sent log id hook now error :
    hook_step
      {| hs_hooks := hooks; hs_rows := rows; hs_hands := h1 ++ Claimed id hook :: h2; hs_sent := sent;
         hs_log := log |}
      {| hs_hooks := hooks; hs_rows := record_hook now id Abandoned None None (Some error) None rows;
         hs_hands := h1 ++ h2; hs_sent := sent; hs_log := log |}
| hook_record hooks rows h1 h2 sent log id hook now code body error retry_at r :
    hook_step
      {| hs_hooks := hooks; hs_rows := rows; hs_hands := h1 ++ Posted id hook :: h2; hs_sent := sent;
         hs_log := log |}
      {| hs_hooks := hooks; hs_rows := record_hook now id (hook_status r) code body error retry_at rows;
         hs_hands := h1 ++ Recorded hook (is_delivered r) :: h2; hs_sent := sent; hs_log := log |}
| hook_count hooks rows h1 h2 sent log hook delivered now :
    hook_step
      {| hs_hooks := hooks; hs_rows := rows; hs_hands := h1 ++ Recorded hook delivered :: h2;
         hs_sent := sent; hs_log := log |}
      {| hs_hooks := count_outcome now hook delivered hooks; hs_rows := rows; hs_hands := h1 ++ h2;
         hs_sent := sent; hs_log := log ++ [(hook, delivered)] |}
| hook_crash hooks rows h1 h h2 sent log :
    hook_step
      {| hs_hooks := hooks; hs_rows := rows; hs_hands := h1 ++ h :: h2; hs_sent := sent; hs_log := log |}
      {| hs_hooks := hooks; hs_rows := rows; hs_hands := h1 ++ h2; hs_sent := sent; hs_log := log |}.

Definition system_of (w : HookWorld) (hands : list HookHand) : HookSystem :=
  {| hs_hooks := hw_hooks w; hs_rows := hw_rows w; hs_hands := hands; hs_sent := hw_sent w;
     hs_log := hw_log w |}.

(** The consumer takes only such steps. *)
Lemma deliver_hook_steps env hook event w hands :
  rtc hook_step (system_of w (Claimed (ha_id env) (wh_id hook) :: hands))
                (system_of (snd (deliver_hook env hook event w)) hands).
Proof.
  unfold deliver_hook. destruct (open_sealed _ _ _ _) as [opened keys].
  destruct (match opened with Ok b => decode_strict b | Err _ => None end) as [secret|].
  - destruct (url_path (wh_url hook)) as [path|].
    + destruct (fetch _ _) as [answer cs]. cbn [snd].
      eapply rtc_l; [apply (hook_post _ _ [] hands) |].
      eapply rtc_l; [apply (hook_record _ _ [] hands) |].
      eapply rtc_l; [apply (hook_count _ _ [] hands) |]. apply rtc_refl.
    + apply rtc_once. apply (hook_crash _ _ []).
  - apply rtc_once. apply (hook_abandon _ _ [] hands).
Qed.

Lemma hook_deliver_steps env hook event w hands :
  rtc hook_step (system_of w hands) (system_of (snd (deliver env hook event w)) hands).
Proof.
  unfold deliver. destruct (uuid_of_str (q_event_id event)) as [event_id|]; [| apply rtc_refl].
  cbn [set_metrics hw_rows].
  destruct (claim_hook _ _ _ _ _ _ _ _) as [[[] rows]|e] eqn:Ec; [| apply rtc_refl | apply rtc_refl].
  eapply rtc_l; [by apply (hook_claim _ _ _ hands _ _ _ _ _ _ _ _ _ Ec) |].
  apply (deliver_hook_steps env hook event (set_rows rows (set_metrics _ w)) hands).
Qed.

Lemma run_batch_steps envs messages w hands :
  rtc hook_step (system_of w hands) (system_of (snd (run_batch envs messages w)) hands).
Proof.
  assert (∀ envs hooks event w,
    rtc hook_step (system_of w hands) (system_of (snd (deliver_all envs hooks event w)) hands)) as Hall.
  { clear. intros envs hooks. revert envs. induction hooks as [|hook hooks IH]; intros envs event w; [apply rtc_refl |].
    cbn [deliver_all]. pose proof (hook_deliver_steps (envs 0%nat) hook event w hands) as Hd.
    destruct (deliver (envs 0%nat) hook event w) as [[e|] w1]; [exact Hd |].
    etrans; [exact Hd | apply IH]. }
  revert envs w. induction messages as [|[mid event] messages IH]; intros envs w; [apply rtc_refl |].
  cbn [run_batch].
  assert (rtc hook_step (system_of w hands) (system_of (snd (handle (envs 0%nat) event w)) hands)) as Hh.
  { unfold handle. destruct (bool_decide _); [| apply rtc_refl]. cbn [negb].
    destruct (uuid_of_str _); [apply Hall | apply rtc_refl]. }
  destruct (handle (envs 0%nat) event w) as [e w1]. specialize (IH (λ n, envs (Datatypes.S n)) w1).
  destruct (run_batch _ messages w1) as [acked w2]. etrans; [exact Hh | exact IH].
Qed.

(** (C26) Every run of the consumer over a batch of messages, whatever the network, the
    resolver and the keys answer and whatever raises, is a run of the protocol that the
    interleaving theorems are about. *)
Theorem consumer_refines_protocol envs messages w hands :
  rtc hook_step (system_of w hands) (system_of (snd (run_batch envs messages w)) hands).
Proof. apply run_batch_steps. Qed.

(** ** What is sent *)

Context `{!DigestBytes}.

(** A request for a subscriber that its receiver can verify. *)
Record signed_for (env : HookAttempt) (hook : WebhookRow) (event : QueuedEvent) (p : uuid * Request)
    (secret path : pystr) (body : list N) : Prop := {
  sf_id : fst p = ha_id env;
  sf_url : r_url (snd p) = wh_url hook;
  sf_method : r_method (snd p) = py "POST";
  sf_body : r_body (snd p) = Some body;
  sf_payload : body = encode (build_payload isoformat (q_event_name event) (event_data event)
                                (ha_id env) (ha_now env));
  sf_path : url_path (wh_url hook) = Some path;
  sf_secret : ∃ keys b, fst (open_sealed (wh_secret hook) keys (ha_now env)
                               (organization_aad (wh_organization_id hook))) = Ok b ∧
                        decode_strict b = Some secret;
  sf_verifies : ∀ now, Z.abs (now - Z.quot (ha_now env) second * second) <= DEFAULT_TOLERANCE →
    receiver_verify secret path body (r_headers (snd p)) now = Some true
}.

Lemma signed_headers_verify payload secret path id now now' :
  0 <= now → Z.quot now second <= MAX_TIMESTAMP →
  Z.abs (now' - Z.quot now second * second) <= DEFAULT_TOLERANCE →
  receiver_verify secret path payload (signed_headers payload secret path id now) now' = Some true.
Proof.
  intros Hn Hm Ht. eapply receiver_agrees; [reflexivity | reflexivity | |].
  - cbn [sign sr_timestamp]. unfold sent_at, timestamp_of.
    assert (0 <= Z.quot now second) as Hq by (apply Z.quot_pos; [done | by vm_compute]).
    rewrite py_int_str by done. cbn [mbind option_bind].
    rewrite (proj2 (Z.leb_le MIN_TIMESTAMP _)) by (unfold MIN_TIMESTAMP; lia).
    rewrite (proj2 (Z.leb_le _ _) Hm). by eexists.
  - by apply sign_verifies.
Qed.

Lemma hook_deliver_sent env hook event w :
  0 <= ha_now env → Z.quot (ha_now env) second <= MAX_TIMESTAMP →
  ∃ extra, hw_sent (snd (deliver env hook event w)) = hw_sent w ++ extra ∧
    Forall (λ p, ∃ secret path body, signed_for env hook event p secret path body) extra.
Proof.
  intros Hn Hm. assert (∀ x : list (uuid * Request), ∃ extra, x = x ++ extra ∧
    Forall (λ p, ∃ secret path body, signed_for env hook event p secret path body) extra) as Hnone.
  { intros x. exists []. by rewrite app_nil_r. }
  unfold deliver. destruct (uuid_of_str (q_event_id event)); [| apply Hnone].
  destruct (claim_hook _ _ _ _ _ _ _ _) as [[[] rows]|]; [| apply Hnone..].
  unfold deliver_hook. set (w1 := set_rows _ _).
  destruct (open_sealed _ _ _ _) as [opened keys] eqn:Eo.
  destruct opened as [b|]; cbn; [| apply Hnone].
  destruct (decode_strict b) as [secret|] eqn:Ed; [| apply Hnone].
  destruct (url_path (wh_url hook)) as [path|] eqn:Ep; [| apply Hnone].
  destruct (fetch _ _) as [answer cs]. cbn. eexists. split; [reflexivity |].
  apply Forall_singleton. exists secret, path. eexists.
  split; [reflexivity | reflexivity | reflexivity | reflexivity | reflexivity | done | |].
  - exists (hw_keys w1), b. split; [exact (f_equal fst Eo) | done].
  - intros now Ht. cbn [snd r_headers]. by apply signed_headers_verify.
Qed.

Lemma hooks_all_sent hooks event envs w :
  (∀ n, 0 <= ha_now (envs n) ∧ Z.quot (ha_now (envs n)) second <= MAX_TIMESTAMP) →
  ∃ extra, hw_sent (snd (deliver_all envs hooks event w)) = hw_sent w ++ extra ∧
    Forall (λ p, ∃ n hook secret path body, hook ∈ hooks ∧ signed_for (envs n) hook event p secret path body) extra.
Proof.
  revert envs w. induction hooks as [|hook hooks IH]; intros envs w Hclock.
  { exists []. split; [by rewrite app_nil_r | constructor]. }
  cbn [deliver_all]. destruct (hook_deliver_sent (envs 0%nat) hook event w) as (e1 & E1 & F1); [apply Hclock.. |].
  assert (Forall (λ p, ∃ n hook0 secret path body, hook0 ∈ hook :: hooks ∧
    signed_for (envs n) hook0 event p secret path body) e1) as F1'.
  { eapply Forall_impl; [exact F1 |]. intros p (secret & path & body & Hs).
    exists 0%nat, hook, secret, path, body. split; [by left | done]. }
  destruct (deliver (envs 0%nat) hook event w) as [[e|] w1]; cbn [snd] in *; [by exists e1 |].
  destruct (IH (λ n, envs (Datatypes.S n)) w1) as (e2 & E2 & F2); [intros n; apply Hclock |].
  exists (e1 ++ e2). split; [by rewrite E2, E1, (assoc_L (++)) |]. apply Forall_app. split; [done |].
  eapply Forall_impl; [exact F2 |]. intros p (n & h & secret & path & body & Hin & Hs).
  exists (Datatypes.S n), h, secret, path, body. split; [by right | done].
Qed.

(** Only subscribers are told, and what they are told verifies: every request an
    event causes goes to the URL of an enabled webhook of the event's own organisation
    that subscribed to it, carries the event in the published envelope, and passes the
    verification code handed to receivers, under the secret sealed for that webhook, for
    as long as the tolerance lasts. *)
Theorem subscribers_get_signed_requests envs event w :
  (∀ n, 0 <= ha_now (envs n) ∧ Z.quot (ha_now (envs n)) second <= MAX_TIMESTAMP) →
  ∃ extra, hw_sent (snd (handle envs event w)) = hw_sent w ++ extra ∧
    Forall (λ p, ∃ n hook secret path body,
      hook ∈ hw_hooks w ∧ wh_enabled hook = true ∧
      uuid_of_str (q_organization_id event) = Some (wh_organization_id hook) ∧
      q_event_name event ∈ wh_events hook ∧ q_event_name event ∈ WEBHOOK_EVENTS ∧
      signed_for (envs n) hook event p secret path body) extra.
Proof.
  intros Hclock. assert (∀ x : list (uuid * Request), ∃ extra, x = x ++ extra ∧
    Forall (λ p, ∃ n hook secret path body, hook ∈ hw_hooks w ∧ wh_enabled hook = true ∧
      uuid_of_str (q_organization_id event) = Some (wh_organization_id hook) ∧
      q_event_name event ∈ wh_events hook ∧ q_event_name event ∈ WEBHOOK_EVENTS ∧
      signed_for (envs n) hook event p secret path body) extra) as Hnone.
  { intros x. exists []. by rewrite app_nil_r. }
  unfold handle. destruct (bool_decide (q_event_name event ∈ WEBHOOK_EVENTS)) eqn:Ew; [| apply Hnone].
  apply bool_decide_eq_true in Ew. cbn [negb].
  destruct (uuid_of_str (q_organization_id event)) as [org|] eqn:Eorg; [| apply Hnone].
  destruct (hooks_all_sent (subscribers (hw_hooks w) org (q_event_name event)) event envs w Hclock) as (extra & E & F).
  exists extra. split; [done |]. eapply Forall_impl; [exact F |].
  intros p (n & hook & secret & path & body & Hin & Hs). exists n, hook, secret, path, body.
  apply elem_of_lfilter in Hin as [Hin Hp]. apply andb_true_iff in Hp as [[Ho He]%andb_true_iff Hev].
  apply bool_decide_eq_true in Ho, Hev. subst org. repeat (split; [done |]). done.
Qed.
End Consumer.

(** ** At most one request per webhook and event *)

(** The deliveries a hand has claimed and not posted. *)
Definition unposted (h : HookHand) : option uuid :=
  match h with Claimed id _ => Some id | _ => None end.

(** Every delivery that was posted or may still be has a row of its own, and none is
    posted twice. *)
Record hooks_ok (s : HookSystem) : Prop := {
  ho_ids : NoDup (wd_id <$> hs_rows s);
  ho_keys : NoDup (hook_key <$> hs_rows s);
  ho_once : NoDup ((fst <$> hs_sent s) ++ omap unposted (hs_hands s));
  ho_rows : ∀ id, id ∈ (fst <$> hs_sent s) ++ omap unposted (hs_hands s) → id ∈ wd_id <$> hs_rows s
}.

Lemma record_hook_ids now id status code body error retry_at rows :
  (wd_id <$> record_hook now id status code body error retry_at rows) = (wd_id <$> rows) ∧
  (hook_key <$> record_hook now id status code body error retry_at rows) = (hook_key <$> rows).
Proof.
  unfold record_hook. rewrite <- !list_fmap_compose.
  split; apply list_fmap_ext; intros _ r _; cbn; by destruct (bool_decide _).
Qed.

Lemma existsb_fresh {A B} `{EqDecision B} (f : A → B) (x : B) (l : list A) :
  existsb (λ r, bool_decide (f r = x)) l = false → x ∉ f <$> l.
Proof.
  intros Hf (r & -> & Hr)%list_elem_of_fmap. apply not_true_iff_false in Hf. apply Hf.
  apply existsb_exists. exists r. by rewrite <- list_elem_of_In, bool_decide_eq_true.
Qed.

Lemma claim_hook_fresh rows now id org hook event type url rows' :
  claim_hook rows now id org hook event type url = Ok (true, rows') →
  id ∉ wd_id <$> rows ∧ (hook, event) ∉ hook_key <$> rows ∧
  (wd_id <$> rows') = (wd_id <$> rows) ++ [id] ∧
  (hook_key <$> rows') = (hook_key <$> rows) ++ [(hook, event)].
Proof.
  unfold claim_hook. destruct (existsb _ rows) eqn:E1; [done |]. intros Hc.
  apply rbind_Ok in Hc as (u & E2%raise_if_Ok & [= <-]). rewrite !fmap_app. cbn.
  split; [by apply existsb_fresh |]. split; [by apply existsb_fresh | done].
Qed.

(** The deliveries that were posted or may still be. *)
Definition out (s : HookSystem) : list uuid := (fst <$> hs_sent s) ++ omap unposted (hs_hands s).

Lemma hooks_ok_shrink s s' k :
  (wd_id <$> hs_rows s') = (wd_id <$> hs_rows s) → (hook_key <$> hs_rows s') = (hook_key <$> hs_rows s) →
  out s ≡ₚ out s' ++ k → hooks_ok s → hooks_ok s'.
Proof.
  intros Ei Ek Hp [Hi Hk Ho Hw]. unfold out in *. split; [by rewrite Ei | by rewrite Ek | |].
  - rewrite Hp in Ho. by apply NoDup_app in Ho as [? _].
  - intros id Hid. rewrite Ei. apply Hw. rewrite Hp. apply elem_of_app. by left.
Qed.

Lemma hooks_ok_step s s' : hook_step s s' → hooks_ok s → hooks_ok s'.
Proof.
  destruct 1 as [hooks rows rows' hands sent log now id org hook event type url Hc|
                 hooks rows h1 h2 sent log id hook rq|hooks rows h1 h2 sent log id hook now error|
                 hooks rows h1 h2 sent log id hook now code body error retry_at r|
                 hooks rows h1 h2 sent log hook delivered now|hooks rows h1 h h2 sent log].
  - intros [Hi Hk Ho Hw]. apply claim_hook_fresh in Hc as (Fi & Fk & Ei & Ek). cbn in *.
    split; cbn; [rewrite Ei | rewrite Ek | |].
    + apply NoDup_app. split; [done |]. split; [| apply NoDup_singleton]. by intros x Hx ->%list_elem_of_singleton.
    + apply NoDup_app. split; [done |]. split; [| apply NoDup_singleton]. by intros x Hx ->%list_elem_of_singleton.
    + rewrite <- Permutation_middle. constructor; [| done]. intros Hin. by apply Fi, Hw.
    + intros x Hx. rewrite Ei. rewrite <- Permutation_middle in Hx.
      apply elem_of_cons in Hx as [-> | Hx]; apply elem_of_app; [right; by left | left; by apply Hw].
  - apply (hooks_ok_shrink _ _ []); [done | done |]. unfold out. cbn.
    rewrite !omap_app, fmap_app. cbn. solve_Permutation.
  - destruct (record_hook_ids now id Abandoned None None (Some error) None rows).
    apply (hooks_ok_shrink _ _ [id]); [done | done |]. unfold out. cbn. rewrite !omap_app. cbn.
    solve_Permutation.
  - destruct (record_hook_ids now id (hook_status r) code body error retry_at rows).
    apply (hooks_ok_shrink _ _ []); [done | done |]. unfold out. cbn. by rewrite !omap_app, app_nil_r.
  - apply (hooks_ok_shrink _ _ []); [done | done |]. unfold out. cbn. by rewrite !omap_app, app_nil_r.
  - apply (hooks_ok_shrink _ _ (option_list (unposted h))); [done | done |]. unfold out. cbn.
    rewrite !omap_app. cbn. destruct (unposted h); cbn; solve_Permutation.
Qed.

(** Nothing delivered yet. *)
Definition hooks0 (hooks : list WebhookRow) : HookSystem :=
  {| hs_hooks := hooks; hs_rows := []; hs_hands := []; hs_sent := []; hs_log := [] |}.

Lemma hooks_ok_reachable hooks s : rtc hook_step (hooks0 hooks) s → hooks_ok s.
Proof.
  intros Hr. assert (hooks_ok (hooks0 hooks)) as H0 by (split; cbn; [constructor.. | done]).
  revert H0. induction Hr as [|s1 s2 s3 Hs _ IH]; [done |]. intros H1. by eapply IH, hooks_ok_step.
Qed.

(** A receiver is told of an event once.  However many workers share the tables, in
    whatever order they move and whichever of them crash, two requests are never sent for
    the same webhook and event. *)
Theorem receiver_is_told_once hooks s i j p q :
  rtc hook_step (hooks0 hooks) s → hs_sent s !! i = Some p → hs_sent s !! j = Some q →
  ∃ r r', r ∈ hs_rows s ∧ wd_id r = fst p ∧ r' ∈ hs_rows s ∧ wd_id r' = fst q ∧
          (hook_key r = hook_key r' → i = j).
Proof.
  intros [Hi Hk Ho Hw]%hooks_ok_reachable Hp Hq.
  assert (∀ n x, hs_sent s !! n = Some x → ∃ r, r ∈ hs_rows s ∧ wd_id r = fst x) as Hrow.
  { intros n x Hx. assert (fst x ∈ wd_id <$> hs_rows s) as (r & -> & Hr)%list_elem_of_fmap.
    { apply Hw, elem_of_app. left. apply list_elem_of_fmap. exists x. split; [done |].
      by eapply list_elem_of_lookup_2. }
    by exists r. }
  destruct (Hrow i p Hp) as (r & Hr & Er), (Hrow j q Hq) as (r' & Hr' & Er').
  exists r, r'. repeat (split; [done |]). intros Ek.
  assert (r = r') as <- by (by apply (NoDup_fmap_elem hook_key (hs_rows s))).
  apply NoDup_app in Ho as [Ho _]. eapply (NoDup_lookup _ i j (fst p) Ho); rewrite list_lookup_fmap.
  - by rewrite Hp.
  - rewrite Hq. cbn. congruence.
Qed.

(** ** Disabling *)

(** The failures since the last success. *)
Definition streak (l : list bool) : nat := fold_left (λ n (d : bool), if d then 0 else S n)%nat l 0%nat.

(** Twenty failures in a row. *)
Definition tripped (l : list bool) : Prop :=
  ∃ a b, l = a ++ replicate (Z.to_nat MAX_CONSECUTIVE_FAILURES) false ++ b.

Lemma streak_snoc l (d : bool) : streak (l ++ [d]) = if d then 0%nat else S (streak l).
Proof. unfold streak. by rewrite fold_left_app. Qed.

Lemma streak_ge l n : (n <= streak l)%nat ↔ ∃ a, l = a ++ replicate n false.
Proof.
  revert n. induction l as [|d l IH] using rev_ind; intros n.
  - cbn. split; [intros ?; exists []; by replace n with 0%nat by lia |].
    intros [a E]. apply (f_equal length) in E. rewrite length_app, length_replicate in E. cbn in E. lia.
  - rewrite streak_snoc. destruct n as [|n].
    { split; [intros _; exists (l ++ [d]); by rewrite app_nil_r | lia]. }
    replace (S n) with (n + 1)%nat by lia. rewrite replicate_add. cbn [replicate].
    split.
    + destruct d; [lia |]. intros Hn. destruct (proj1 (IH n)) as [a ->]; [lia |]. exists a. by rewrite app_assoc.
    + intros [a E]. rewrite app_assoc in E. apply app_inj_tail in E as [E ->].
      assert (n <= streak l)%nat; [| lia]. apply IH. by exists a.
Qed.

Lemma tripped_snoc l (d : bool) :
  tripped (l ++ [d]) ↔ tripped l ∨ (d = false ∧ MAX_CONSECUTIVE_FAILURES <= Z.of_nat (streak l) + 1).
Proof.
  unfold tripped. change (Z.to_nat MAX_CONSECUTIVE_FAILURES) with 20%nat.
  change MAX_CONSECUTIVE_FAILURES with 20. split.
  - intros (a & b & E). destruct b as [|x b _] using rev_ind.
    + rewrite app_nil_r in E. change 20%nat with (19 + 1)%nat in E. rewrite replicate_add, app_assoc in E.
      apply app_inj_tail in E as [E ->]. right. split; [done |].
      assert (19 <= streak l)%nat; [| lia]. apply streak_ge. by exists a.
    + rewrite !app_assoc in E. apply app_inj_tail in E as [E _]. left. exists a, b. by rewrite app_assoc.
  - intros [(a & b & ->)|[-> Hn]].
    + exists a, (b ++ [d]). by rewrite <- !app_assoc.
    + destruct (proj1 (streak_ge l 19)) as [a ->]; [lia |]. exists a, [].
      by rewrite app_nil_r, <- app_assoc.
Qed.

Definition outcomes (hook : uuid) (log : list (uuid * bool)) : list bool :=
  snd <$> List.filter (λ p, bool_decide (fst p = hook)) log.

(** What the row of a webhook says of the outcomes counted for it. *)
Definition row_tells (log : list (uuid * bool)) (h : WebhookRow) : Prop :=
  wh_consecutive_failures h = Z.of_nat (streak (outcomes (wh_id h) log)) ∧
  (wh_enabled h = false ↔ tripped (outcomes (wh_id h) log)).

Lemma count_outcome_tells now hook delivered log hooks :
  Forall (row_tells log) hooks →
  Forall (row_tells (log ++ [(hook, delivered)])) (count_outcome now hook delivered hooks).
Proof.
  intros Hf. unfold count_outcome, update_hook. apply Forall_fmap. eapply Forall_impl; [exact Hf |].
  intros h [Hc He]. cbn. assert (∀ x, outcomes x (log ++ [(hook, delivered)]) =
    outcomes x log ++ (if bool_decide (hook = x) then [delivered] else [])) as Ho.
  { intros x. unfold outcomes. rewrite List.filter_app, fmap_app. cbn. by destruct (bool_decide (hook = x)). }
  destruct (decide (wh_id h = hook)) as [Eh|Eh].
  2: { rewrite bool_decide_false by done. unfold row_tells.
       by rewrite Ho, (bool_decide_false (hook = wh_id h)), app_nil_r by congruence. }
  rewrite bool_decide_true by done. subst hook.
  assert (∀ h', wh_id h' = wh_id h →
    wh_consecutive_failures h' = Z.of_nat (streak (outcomes (wh_id h) log ++ [delivered])) →
    (wh_enabled h' = false ↔ tripped (outcomes (wh_id h) log ++ [delivered])) →
    row_tells (log ++ [(wh_id h, delivered)]) h') as Hgoal.
  { intros h' Ei E1 E2. unfold row_tells. by rewrite Ei, Ho, bool_decide_true. }
  apply Hgoal.
  - destruct delivered; [unfold success; by destruct (0 <? _) | done].
  - rewrite streak_snoc. destruct delivered.
    + unfold success. destruct (Z.ltb_spec 0 (wh_consecutive_failures h)); cbn; [done |].
      rewrite Hc in *. lia.
    + cbn. lia.
  - rewrite tripped_snoc, <- He. destruct delivered.
    + unfold success. destruct (0 <? _); cbn; intuition discriminate.
    + cbn. rewrite Hc. destruct (Z.leb_spec MAX_CONSECUTIVE_FAILURES (Z.of_nat (streak (outcomes (wh_id h) log)) + 1)).
      * intuition.
      * intuition lia.
Qed.

(** A webhook is switched off by twenty failures in a row and by nothing else: under
    any interleaving of workers and crashes, its row counts the failures since the last
    success, and it is disabled exactly when twenty counted outcomes in a row failed. *)
Theorem webhook_disabled_by_a_streak hooks s h :
  Forall (λ h, wh_enabled h = true ∧ wh_consecutive_failures h = 0) hooks →
  rtc hook_step (hooks0 hooks) s → h ∈ hs_hooks s →
  wh_consecutive_failures h = Z.of_nat (streak (outcomes (wh_id h) (hs_log s))) ∧
  (wh_enabled h = false ↔ tripped (outcomes (wh_id h) (hs_log s))).
Proof.
  intros Hf Hr. cut (Forall (row_tells (hs_log s)) (hs_hooks s)).
  { rewrite Forall_forall. intros Hall Hin. by apply Hall. }
  assert (Forall (row_tells (hs_log (hooks0 hooks))) (hs_hooks (hooks0 hooks))) as H0.
  { eapply Forall_impl; [exact Hf |]. intros h' [He Hc]. unfold row_tells. cbn. split; [done |].
    rewrite He. split; [done |]. intros (a & b & E). apply (f_equal length) in E.
    rewrite !length_app, length_replicate in E. change (Z.to_nat MAX_CONSECUTIVE_FAILURES) with 20%nat in E.
    cbn in E. lia. }
  clear Hf. revert H0. induction Hr as [|s1 s2 s3 Hs _ IH]; [done |]. intros H1. apply IH.
  destruct Hs; cbn in *; try done. by apply count_outcome_tells.
Qed.

(** ** Witnesses *)

Definition toy_encoder : JsonEncoder := {| json_encode := λ ps, py "json" |}.

Definition ex_hook (failures : Z) : WebhookRow :=
  {| wh_id := 7; wh_organization_id := 2; wh_url := py "https://partner.example/hook";
     wh_secret := ex_sealed (organization_aad 2); wh_events := [py "purchase"]; wh_enabled := true;
     wh_consecutive_failures := failures; wh_disabled_at := None; wh_updated_at := 0 |}.

Definition ex_conversion : QueuedEvent :=
  {| q_event_id := str_of_uuid 4; q_received_at := 0; q_occurred_at := 0;
     q_organization_id := str_of_uuid 2; q_app_id := str_of_uuid 8;
     q_event_name := py "purchase"; q_anonymous_id := py "d"; q_user_id := None;
     q_session_id := None; q_platform := 1; q_os_version := None; q_app_version := None;
     q_device_model := None; q_country := None; q_ip_hash := None; q_click_id := None;
     q_revenue_minor := Some 1999; q_currency := None; q_clock_skew_ms := None;
     q_properties := []; q_correlation_id := None |}.

Definition ex_hook_env (id : uuid) : HookAttempt :=
  {| ha_id := id; ha_now := 1000 * second; ha_recorded := 1001 * second; ha_draw := 0;
     ha_resolver := ex_resolver; ha_client := Outbound.ex_client |}.

Definition ex_hook_world (hooks : list WebhookRow) : HookWorld :=
  {| hw_hooks := hooks; hw_rows := []; hw_keys := ex_local;
     hw_metrics := {| wm_considered := 0; wm_delivered := 0; wm_failed := 0; wm_disabled := 0;
                      wm_by_status := λ _, 0 |};
     hw_sent := []; hw_connections := []; hw_log := [] |}.

Abbreviation ex_hook_handle := (@handle ascii_unicode toy_hmac toy_sha toy_encoder ex_brackets toy_aead
  LocalMasterKeyProvider (@local_master_keys toy_aead) (λ _, py "2026") (λ _, [])).

(** A redirect is not a success: the twentieth one in a row disables the webhook. *)
Example twentieth_failure_disables :
  let r := ex_hook_handle (λ _, ex_hook_env 1) ex_conversion (ex_hook_world [ex_hook 19]) in
  fst r = None ∧ (wh_enabled <$> hw_hooks (snd r)) = [false] ∧
  (wd_status <$> hw_rows (snd r)) = [Abandoned] ∧ wm_disabled (hw_metrics (snd r)) = 1.
Proof. vm_compute. repeat split. Qed.

Definition ex_signed_headers : list (pystr * pystr) :=
  @signed_headers ascii_unicode toy_hmac toy_sha (py "body") (py "token") (py "/hook") (str_of_uuid 1)
    (1000 * second).

Lemma receiver_agrees_with_verify_witness :
  @receiver_verify ascii_unicode toy_hmac toy_sha (py "token") (py "/hook") (py "body") ex_signed_headers
    (1200 * second) = Some true.
Proof.
  apply (@receiver_agrees_with_verify ascii_unicode toy_hmac toy_sha (py "token") (py "/hook") (py "body")
    ex_signed_headers
    (sr_signature (@sign ascii_unicode toy_hmac toy_sha (py "POST") (py "/hook") (py "body") (py "token") (1000 * second)))
    (sr_timestamp (@sign ascii_unicode toy_hmac toy_sha (py "POST") (py "/hook") (py "body") (py "token") (1000 * second)))).
  - reflexivity.
  - reflexivity.
  - vm_compute. by eexists.
  - vm_compute. reflexivity.
Defined.

(** Two workers on the same message: one claims, posts and records. *)
Definition ex_told : HookSystem :=
  system_of (snd (ex_hook_handle (λ _, ex_hook_env 1) ex_conversion (ex_hook_world [ex_hook 0]))) [].

Lemma ex_told_reachable : rtc hook_step (hooks0 [ex_hook 0]) ex_told.
Proof.
  pose proof (@run_batch_steps ascii_unicode toy_hmac toy_sha toy_encoder ex_brackets toy_aead
    LocalMasterKeyProvider (@local_master_keys toy_aead) (λ _, py "2026") (λ _, [])
    (λ _ _, ex_hook_env 1) [(py "1-0", ex_conversion)] (ex_hook_world [ex_hook 0]) []) as Hr.
  exact Hr.
Qed.

Lemma receiver_is_told_once_witness :
  ∃ p r, hs_sent ex_told = [p] ∧ r ∈ hs_rows ex_told ∧ wd_id r = fst p.
Proof.
  assert (∃ p, hs_sent ex_told = [p]) as [p Ep] by (eexists; vm_compute; reflexivity).
  destruct (receiver_is_told_once [ex_hook 0] ex_told 0 0 p p ex_told_reachable) as (r & _ & Hr & Er & _);
    [by rewrite Ep | by rewrite Ep |].
  exists p, r. split; [exact Ep | split; [exact Hr | exact Er]].
Defined.

Lemma webhook_disabled_by_a_streak_witness :
  ∃ h, hs_hooks ex_told = [h] ∧ wh_consecutive_failures h = 1 ∧ wh_enabled h = true.
Proof.
  assert (∃ h, hs_hooks ex_told = [h] ∧ wh_id h = 7%N ∧ wh_enabled h = true) as (h & Eh & Ei & Ee)
    by (eexists; split; [vm_compute; reflexivity | split; vm_compute; reflexivity]).
  destruct (webhook_disabled_by_a_streak [ex_hook 0] ex_told h) as [Hc _].
  - repeat constructor.
  - exact ex_told_reachable.
  - rewrite Eh. by left.
  - exists h. split; [exact Eh |]. split; [| exact Ee]. rewrite Hc, Ei. vm_compute. reflexivity.
Defined.

Lemma subscribers_get_signed_requests_witness :
  ∃ p hook, hw_sent (snd (ex_hook_handle (λ _, ex_hook_env 1) ex_conversion (ex_hook_world [ex_hook 0]))) = [p] ∧
    hook ∈ [ex_hook 0] ∧ r_url (snd p) = wh_url hook.
Proof.
  destruct (@subscribers_get_signed_requests ascii_unicode toy_hmac toy_sha toy_encoder ex_brackets toy_aead
    LocalMasterKeyProvider (@local_master_keys toy_aead) (λ _, py "2026") (λ _, []) toy_digests
    (λ _, ex_hook_env 1) ex_conversion (ex_hook_world [ex_hook 0])) as (extra & E & F).
  - intros _. split; vm_compute; discriminate.
  - assert (∃ p, hw_sent (snd (ex_hook_handle (λ _, ex_hook_env 1) ex_conversion (ex_hook_world [ex_hook 0]))) = [p])
      as [p Ep] by (eexists; vm_compute; reflexivity).
    assert (extra = [p]) as -> by (rewrite <- Ep, E; reflexivity).
    apply Forall_cons in F as [(n & hook & secret & path & body & Hin & _ & _ & _ & _ & Hs) _].
    exists p, hook. split; [exact Ep |]. split; [exact Hin | exact (sf_url _ _ _ _ _ _ _ _ Hs)].
Defined.

(** ** What the code does beyond its documentation *)

(** The signed path is not the path of the request when its last segment has parameters:
    a receiver that verifies what it was asked for refuses the delivery. *)
Lemma path_parameters_are_not_signed :
  let path := @url_path ex_brackets (py "https://partner.example/hook;v=2") in
  path = Some (py "/hook") ∧
  @receiver_verify ascii_unicode toy_hmac toy_sha (py "token") (py "/hook;v=2") (py "body")
    (@signed_headers ascii_unicode toy_hmac toy_sha (py "body") (py "token") (default [] path) (str_of_uuid 1)
       (1000 * second)) (1000 * second) = Some false.
Proof. split; vm_compute; reflexivity. Qed.

(** A worker that dies after the claim leaves the delivery in flight: a second one takes
    the same message for delivered and sends nothing. *)
Lemma orphaned_hook_claim_is_never_sent :
  ∃ rows, claim_hook [] 0 1 2 7 4 (py "purchase") (py "u") = Ok (true, rows) ∧
    hook_step (hooks0 [ex_hook 0])
      {| hs_hooks := [ex_hook 0]; hs_rows := rows; hs_hands := [Claimed 1 7]; hs_sent := []; hs_log := [] |} ∧
    ∀ now id, claim_hook rows now id 2 7 4 (py "purchase") (py "u") = Ok (false, rows).
Proof.
  eexists. split; [vm_compute; reflexivity |]. split; [| by vm_compute].
  by apply (hook_claim _ _ _ _ _ _ 0 1 2 7 4 (py "purchase") (py "u")).
Qed.
