(* ===== verification/Postbacks.v ===== *)
(** * The postback consumer (mmp_worker/postbacks.py)

    [handle] on one event, [deliver] on one rule, and the retry job [retry_due].  The
    world keeps the deliveries table, the worker's key provider, its metrics, and the
    requests handed to the network.  Adapters are records of their two methods, where
    [None] is a raised exception; [msgspec]'s JSON of headers and
    [isoformat] are parameters.  Every await commits on its own, so an exception keeps
    what was done before it. *)

From stdpp Require Import sorting.
From S2P Require Import AttributionWorker.
From S2P Require Import Prelude Ids Redis Store Schema Templates Envelope Delivery.

#[local] Open Scope Z_scope.
#[local] Open Scope mmp_scope.

Abbreviation headers := (list (pystr * pystr)) (only parsing).

(** ** Rows *)

Record SealedColumns := {
  sc_ciphertext : option (list N);
  sc_nonce : option (list N);
  sc_wrapped : option (list N);
  sc_version : option Z
}.

Record Integration := {
  ig_id : uuid;
  ig_active : bool;
  ig_provider : pystr;
  ig_credentials : SealedColumns;
  ig_configuration : option props
}.

Record PostbackRule := {
  ru_id : uuid;
  ru_app_id : uuid;
  ru_trigger_event : pystr;
  ru_enabled : bool;
  ru_method : pystr;
  ru_url_template : pystr;
  ru_body_template : option pystr;
  ru_success_codes : list Z;
  ru_requires_attribution : bool;
  ru_is_sandbox : bool;
  ru_organization_id : uuid;
  ru_campaign_id : option uuid;
  ru_integration_id : option uuid;
  ru_headers : SealedColumns
}.

(** [RULES_SQL]: the enabled rules of the app for the event, each with its
    integration when that one is active. *)
Definition rules_for (rules : list PostbackRule) (integrations : list Integration)
    (app_id : uuid) (event_name : pystr) : list (PostbackRule * option Integration) :=
  (λ r, (r, ru_integration_id r ≫= λ i,
     List.find (λ g, bool_decide (ig_id g = i) && ig_active g) integrations)) <$>
  List.filter (λ r, bool_decide (ru_app_id r = app_id)
                    && bool_decide (ru_trigger_event r = event_name) && ru_enabled r) rules.

Record PreparedRequest := {
  pq_method : pystr;
  pq_url : pystr;
  pq_headers : headers;
  pq_body : option (list N);
  pq_success_codes : list Z
}.

(** The worker reads the first two fields only. *)
Record DeliveryVerdict := { dv_accepted : bool; dv_detail : option pystr; dv_retryable : bool }.

Record ProviderConfig := { pc_credentials : headers; pc_settings : props }.

Abbreviation context := (list (pystr * option pystr)) (only parsing).

(** [Provider] of mmp_providers/base.py. *)
Record Adapter := {
  ad_prepare : pystr → context → ProviderConfig → option (option PreparedRequest);
  ad_interpret : Z → pystr → option DeliveryVerdict
}.

Class HeaderJson := {
  encode_headers : headers → list N;
  decode_headers : list N → option headers
}.

Inductive PostbackError :=
| CredentialsUnavailable (reason : pystr)
| InvalidTemplate (e : TemplateError)
| AdapterRaised
| UndecodableCredentials
| BadUuid
| SealFailed (e : KeyFailure)
| DatabaseError (e : DbError).

Inductive Counter :=
| Considered | MDelivered | MFailed | SkippedUnattributed | SkippedOtherCampaign
| SkippedUnmapped | MBlocked | MSandboxed | ByStatus (s : DeliveryStatus).

#[export] Instance counter_eq_dec : EqDecision Counter.
Proof. solve_decision. Defined.

Definition bump (c : Counter) (m : Counter → Z) : Counter → Z :=
  λ c', if decide (c' = c) then m c' + 1 else m c'.

(** ** Requests *)

Section Postbacks.
Context {U : Unicode} `{AEAD} {P : Type} `{MasterKeyProvider P} {J : HeaderJson}.
Variable registry : pystr → option Adapter.

Record World := {
  w_db : list DeliveryRow;
  w_keys : option P;
  w_metrics : Counter → Z;
  w_sent : list (uuid * Request)
}.

Definition count (c : Counter) (w : World) : World :=
  {| w_db := w_db w; w_keys := w_keys w; w_metrics := bump c (w_metrics w); w_sent := w_sent w |}.
Definition with_db (db : list DeliveryRow) (w : World) : World :=
  {| w_db := db; w_keys := w_keys w; w_metrics := w_metrics w; w_sent := w_sent w |}.
Definition with_keys (k : option P) (w : World) : World :=
  {| w_db := w_db w; w_keys := k; w_metrics := w_metrics w; w_sent := w_sent w |}.
Definition log_send (id : uuid) (rq : Request) (w : World) : World :=
  {| w_db := w_db w; w_keys := w_keys w; w_metrics := w_metrics w;
     w_sent := w_sent w ++ [(id, rq)] |}.

(** The sealed columns as [SealedSecret]. *)
Definition sealed_of (c : SealedColumns) (ciphertext : list N) : SealedSecret :=
  {| ss_ciphertext := ciphertext; ss_nonce := default [] (sc_nonce c);
     ss_wrapped_dek := default [] (sc_wrapped c);
     ss_key_version := match sc_version c with Some v => if v =? 0 then 1 else v | None => 1 end |}.

(** [_open_headers]; the error is the text of [CredentialsUnavailable]. *)
Definition open_headers (keys : option P) (now : datetime) (org : uuid) (c : SealedColumns)
    (what : pystr) : result pystr headers * option P :=
  match sc_ciphertext c with
  | None | Some [] => (Ok [], keys)
  | Some ciphertext =>
      match keys with
      | None => (Err (what ++ py " are sealed and this worker has no master key provider"), keys)
      | Some p =>
          let '(opened, p) := open_sealed (sealed_of c ciphertext) p now (organization_aad org) in
          let unreadable := what ++ py " could not be decrypted" in
          (match opened with
           | Err _ => Err unreadable
           | Ok plaintext =>
               match decode_headers plaintext with
               | Some h => Ok h
               | None => Err unreadable
               end
           end, Some p)
      end
  end.

(** [_config_for]: a column that is missing fails inside the [try]; a decoding error
    outside it. *)
Definition credentials_of (c : SealedColumns) (ciphertext : list N) : option SealedSecret :=
  match sc_nonce c, sc_wrapped c, sc_version c with
  | Some nonce, Some wrapped, Some version =>
      Some {| ss_ciphertext := ciphertext; ss_nonce := nonce; ss_wrapped_dek := wrapped;
              ss_key_version := version |}
  | _, _, _ => None
  end.

Definition config_for (keys : option P) (now : datetime) (org : uuid) (g : Integration)
    : result PostbackError ProviderConfig * option P :=
  let settings := default [] (ig_configuration g) in
  match sc_ciphertext (ig_credentials g) with
  | None | Some [] => (Ok {| pc_credentials := []; pc_settings := settings |}, keys)
  | Some ciphertext =>
      let undecryptable :=
        CredentialsUnavailable (py "the integration's credentials could not be decrypted") in
      match keys, credentials_of (ig_credentials g) ciphertext with
      | None, _ =>
          (Err (CredentialsUnavailable
             (py "the integration's credentials are sealed and this worker has no master key provider")),
           keys)
      | Some _, None => (Err undecryptable, keys)
      | Some p, Some sealed =>
          let '(opened, p) := open_sealed sealed p now (organization_aad org) in
          (match opened with
           | Err _ => Err undecryptable
           | Ok plaintext =>
               match decode_headers plaintext with
               | Some credentials =>
                   Ok {| pc_credentials := credentials; pc_settings := settings |}
               | None => Err UndecodableCredentials
               end
           end, Some p)
      end
  end.

(** [render], its [TemplateError] as an exception of the worker. *)
Definition rendered (template : pystr) (values : context) (encode : bool)
    : result PostbackError pystr :=
  match render template values encode with Ok s => Ok s | Err e => Err (InvalidTemplate e) end.

(** The plain path: method, URL and body from the rule's templates. *)
Definition prepare_template (rule : PostbackRule) (custom : headers) (values : context)
    : result PostbackError PreparedRequest :=
  let base := if truthy (ru_body_template rule)
              then [(py "content-type", py "application/json")] else [] in
  let* url := rendered (ru_url_template rule) values true in
  let* body :=
    match ru_body_template rule with
    | Some t => if truthy (Some t)
                then let* text := rendered t values false in Ok (Some (text ≫= utf8))
                else Ok None
    | None => Ok None
    end in
  Ok {| pq_method := ru_method rule; pq_url := url; pq_headers := od_of custom base;
        pq_body := body; pq_success_codes := ru_success_codes rule |}.

(** [_prepare]: the adapter that prepared it ([self._provider]) with the request, or
    [None] when nothing is to be sent. *)
Definition prepare (keys : option P) (now : datetime) (rule : PostbackRule)
    (g : option Integration) (event : QueuedEvent) (values : context)
    : result PostbackError (option Adapter * option PreparedRequest) * option P :=
  match open_headers keys now (ru_organization_id rule) (ru_headers rule)
          (py "the rule's custom headers") with
  | (Err reason, keys) => (Err (CredentialsUnavailable reason), keys)
  | (Ok custom, keys) =>
      match g with
      | None => ((let* rq := prepare_template rule custom values in Ok (None, Some rq)), keys)
      | Some g =>
          if negb (truthy (Some (ig_provider g)))
          then ((let* rq := prepare_template rule custom values in Ok (None, Some rq)), keys)
          else
            match registry (ig_provider g) with
            | None => (Ok (None, None), keys)
            | Some a =>
                match config_for keys now (ru_organization_id rule) g with
                | (Err e, keys) => (Err e, keys)
                | (Ok config, keys) =>
                    (match ad_prepare a (q_event_name event) values config with
                     | None => Err AdapterRaised
                     | Some None => Ok (Some a, None)
                     | Some (Some rq) =>
                         Ok (Some a, Some {| pq_method := pq_method rq; pq_url := pq_url rq;
                                             pq_headers := od_of (pq_headers rq) custom;
                                             pq_body := pq_body rq;
                                             pq_success_codes := pq_success_codes rq |})
                     end, keys)
                end
            end
      end
  end.

(** ** One delivery *)

(** What a delivery draws from its surroundings: the clock when it claims and when it
    records, the id [uuid7] mints, the jitter, the random bytes of [seal], and the
    network. *)
Record Attempt := {
  at_now : datetime;
  at_recorded : datetime;
  at_id : uuid;
  at_draw : Z;
  at_dek : list N;
  at_nonce : list N;
  at_random : list N;
  at_fetch : Request → FetchOutcome
}.

Definition blocked (reason : pystr) : DeliveryResult :=
  {| dr_status_code := None; dr_body := None; dr_error := Some (py "blocked: " ++ reason) |}.

Definition request_of (rq : PreparedRequest) : Request :=
  {| r_url := pq_url rq; r_method := pq_method rq; r_headers := pq_headers rq;
     r_body := pq_body rq |}.

(** The adapter's reading of a response, and the result it may turn into. *)
Definition interpreted (a : option Adapter) (r : DeliveryResult)
    : option (option bool * DeliveryResult) :=
  match dr_status_code r, a with
  | Some code, Some a =>
      match ad_interpret a code (default [] (dr_body r)) with
      | None => None
      | Some v =>
          Some (Some (dv_accepted v),
                if dv_accepted v then r
                else {| dr_status_code := Some code; dr_body := dr_body r;
                        dr_error := Some (match dv_detail v with
                                          | Some ((_ :: _) as d) => d
                                          | _ => py "provider rejected the conversion"
                                          end) |})
      end
  | _, _ => Some (None, r)
  end.

(** [_remember_for_retry]. *)
Definition remember_for_retry (env : Attempt) (w : World) (id org : uuid) (rq : PreparedRequest)
    : option PostbackError * World :=
  match pq_headers rq with
  | [] => (None, with_db (remember_request (w_db w) id (pq_method rq) (pq_body rq) None) w)
  | _ =>
      match w_keys w with
      | None =>
          (None, with_db (abandon (w_db w) id
             (py "cannot keep headers for a retry: no master key provider")) w)
      | Some p =>
          match seal (encode_headers (pq_headers rq)) p (organization_aad org)
                  (at_dek env) (at_nonce env) (at_random env) with
          | Err e => (Some (SealFailed e), w)
          | Ok box =>
              (None, with_db (remember_request (w_db w) id (pq_method rq) (pq_body rq)
                 (Some (ss_ciphertext box, ss_nonce box, ss_wrapped_dek box,
                        ss_key_version box))) w)
          end
      end
  end.

(** The counters after an attempt. *)
Definition count_attempt (status : DeliveryStatus) (r : DeliveryResult) (w : World) : World :=
  let w := count (ByStatus status) w in
  if bool_decide (status = Delivered) then count MDelivered w
  else if is_blocked r then count MBlocked w
  else count MFailed w.

(** The attempt itself: send, read the answer, record, and keep the request. *)
Definition attempt (env : Attempt) (w : World) (id : uuid) (rule : PostbackRule)
    (a : option Adapter) (rq : PreparedRequest) : option PostbackError * World :=
  let w := log_send id (request_of rq) w in
  match interpreted a (send (at_fetch env (request_of rq))) with
  | None => (Some AdapterRaised, w)
  | Some (accepted, r) =>
      let '(status, db) := record (w_db w) (at_recorded env) (at_draw env) id r
                             (pq_success_codes rq) 1 (Some (pq_url rq)) accepted in
      let w := with_db db w in
      let '(e, w) :=
        if bool_decide (status = Failed)
        then remember_for_retry env w id (ru_organization_id rule) rq
        else (None, w) in
      match e with
      | Some e => (Some e, w)
      | None => (None, count_attempt status r w)
      end
  end.

(** From the claim on. *)
Definition deliver_claimed (env : Attempt) (w : World) (id : uuid) (rule : PostbackRule)
    (g : option Integration) (event : QueuedEvent) (values : context)
    : option PostbackError * World :=
  let refuse reason w :=
    with_db (snd (record (w_db w) (at_recorded env) (at_draw env) id (blocked reason) [] 1
                    None None)) w in
  let '(prepared, keys) := prepare (w_keys w) (at_now env) rule g event values in
  let w := with_keys keys w in
  match prepared with
  | Err (CredentialsUnavailable reason) => (None, count MBlocked (refuse reason w))
  | Err e => (Some e, w)
  | Ok (_, None) =>
      (None, count SkippedUnmapped (refuse (py "provider does not accept this event") w))
  | Ok (a, Some rq) =>
      if ru_is_sandbox rule then
        let '(_, db) := record_sandbox (w_db w) (at_recorded env) id (pq_method rq) (pq_url rq)
                          (pq_body rq) in
        (None, count (ByStatus Sandboxed) (count MSandboxed (with_db db w)))
      else attempt env w id rule a rq
  end.

Definition is_attributed (attribution : option CachedAttribution) : bool :=
  match attribution with Some c => bool_decide (is_Some (ca_click_id c)) | None => false end.

Definition in_scope (scope : option uuid) (attribution : option CachedAttribution) : bool :=
  match scope with
  | None => true
  | Some c =>
      match attribution with
      | None => false
      | Some a => bool_decide (ca_campaign_id a = Some (str_of_uuid c))
      end
  end.

Definition deliver (env : Attempt) (w : World) (rule : PostbackRule) (g : option Integration)
    (event : QueuedEvent) (values : context) (attribution : option CachedAttribution)
    : option PostbackError * World :=
  let w := count Considered w in
  if ru_requires_attribution rule && negb (is_attributed attribution)
  then (None, count SkippedUnattributed w)
  else if negb (in_scope (ru_campaign_id rule) attribution)
  then (None, count SkippedOtherCampaign w)
  else
    match uuid_of_str (q_event_id event) with
    | None => (Some BadUuid, w)
    | Some event_id =>
        match claim (w_db w) (at_now env) (at_id env) (ru_organization_id rule) (ru_id rule)
                event_id with
        | Err e => (Some (DatabaseError e), w)
        | Ok (false, _) => (None, w)
        | Ok (true, db) =>
            deliver_claimed env (with_db db w) (at_id env) rule g event values
        end
    end.

(** ** One event *)

Record Campaign := {
  cp_id : uuid; cp_name : option pystr; cp_source : option pystr; cp_medium : option pystr
}.

(** [f"{minor / 100:.2f}"], exact below 7e15 minor units, where the double nearest to
    the quotient still rounds to its own cents. *)
Definition format_major (minor : Z) : pystr :=
  let cents := Z.abs minor in
  (if minor <? 0 then py "-" else []) ++ py_str_int (cents / 100) ++ py "." ++
  (if cents mod 100 <? 10 then py "0" else []) ++ py_str_int (cents mod 100).

Variable isoformat : datetime → pystr.

Definition event_context (event : QueuedEvent) (attribution : option CachedAttribution)
    (campaign : option Campaign) : context :=
  variables_from
    [(py "event_id", Some (q_event_id event));
     (py "event_name", Some (q_event_name event));
     (py "event_timestamp", Some (isoformat (q_occurred_at event)));
     (py "app_id", Some (q_app_id event));
     (py "user_id", q_user_id event);
     (py "anonymous_id", Some (q_anonymous_id event));
     (py "click_id", attribution ≫= ca_click_id);
     (py "campaign_id", attribution ≫= ca_campaign_id);
     (py "campaign_name", campaign ≫= cp_name);
     (py "source", campaign ≫= cp_source);
     (py "medium", campaign ≫= cp_medium);
     (py "revenue", format_major <$> q_revenue_minor event);
     (py "currency", q_currency event);
     (py "platform", Some (py_str_int (q_platform event)));
     (py "attribution_method", Some (match attribution with
                                     | Some a => ca_method a
                                     | None => py "organic"
                                     end));
     (py "sub1", attribution ≫= ca_sub1);
     (py "sub2", attribution ≫= ca_sub2);
     (py "sub3", attribution ≫= ca_sub3)].

(** The loop over the rules; an exception ends it. *)
Fixpoint deliver_all (env : uuid → Attempt) (w : World)
    (rules : list (PostbackRule * option Integration)) (event : QueuedEvent) (values : context)
    (attribution : option CachedAttribution) : option PostbackError * World :=
  match rules with
  | [] => (None, w)
  | (rule, g) :: rules =>
      match deliver (env (ru_id rule)) w rule g event values attribution with
      | (Some e, w) => (Some e, w)
      | (None, w) => deliver_all env w rules event values attribution
      end
  end.

(** What [handle] reads beside the world. *)
Record Tables := {
  tb_rules : list PostbackRule;
  tb_integrations : list Integration;
  tb_attributions : list AttributionRow;
  tb_campaigns : list Campaign
}.

Definition campaign_of (t : Tables) (attribution : option CachedAttribution)
    : result PostbackError (option Campaign) :=
  match attribution ≫= ca_campaign_id with
  | None | Some [] => Ok None
  | Some text =>
      match uuid_of_str text with
      | None => Err BadUuid
      | Some c => Ok (List.find (λ x, bool_decide (cp_id x = c)) (tb_campaigns t))
      end
  end.

Definition handle (env : uuid → Attempt) (now : datetime) (t : Tables)
    (redis : store CachedAttribution) (w : World) (event : QueuedEvent)
    : option PostbackError * store CachedAttribution * World :=
  match uuid_of_str (q_app_id event) with
  | None => (Some BadUuid, redis, w)
  | Some app_id =>
      match rules_for (tb_rules t) (tb_integrations t) app_id (q_event_name event) with
      | [] => (None, redis, w)
      | rules =>
          let '(attribution, redis) :=
            lookup_attribution redis (tb_attributions t) now app_id (q_anonymous_id event) in
          match campaign_of t attribution with
          | Err e => (Some e, redis, w)
          | Ok campaign =>
              let '(e, w) := deliver_all env w rules event
                               (event_context event attribution campaign) attribution in
              (e, redis, w)
          end
      end
  end.

(** ** Batches of the two streams *)

(** The raw stream leaves installs to the attributed stream. *)
Definition skip_install (event : QueuedEvent) : bool :=
  bool_decide (canonical_event_name (q_event_name event) ∈ INSTALL_EVENTS).

(** [_process]: the ids to acknowledge; a message whose handling raised is not one. *)
Fixpoint process (env : pystr → uuid → Attempt) (now : datetime) (t : Tables)
    (redis : store CachedAttribution) (w : World) (skip : QueuedEvent → bool)
    (messages : list (nat * QueuedEvent)) : list nat * store CachedAttribution * World :=
  match messages with
  | [] => ([], redis, w)
  | (message_id, event) :: messages =>
      if skip event then
        let '(acked, redis, w) := process env now t redis w skip messages in
        (message_id :: acked, redis, w)
      else
        let '(e, redis, w) := handle (env (q_event_id event)) now t redis w event in
        let '(acked, redis, w) := process env now t redis w skip messages in
        (match e with None => message_id :: acked | Some _ => acked end, redis, w)
  end.

(** [run_once] on what the two streams hand over: the acknowledgements of each. *)
Definition run_once (env : pystr → uuid → Attempt) (now : datetime) (t : Tables)
    (redis : store CachedAttribution) (w : World)
    (events installs : list (nat * QueuedEvent))
    : list nat * list nat * store CachedAttribution * World :=
  let '(acked, redis, w) := process env now t redis w skip_install events in
  let '(acked', redis, w) := process env now t redis w (λ _, false) installs in
  (acked, acked', redis, w).

(** ** The retry job *)

Definition has_headers (r : PostbackRule) : bool :=
  bool_decide (is_Some (sc_ciphertext (ru_headers r))).
Definition has_integration (r : PostbackRule) : bool :=
  bool_decide (is_Some (ru_integration_id r)).

Definition row_sealed (row : DeliveryRow) : SealedColumns :=
  {| sc_ciphertext := pd_headers_ciphertext row; sc_nonce := pd_headers_nonce row;
     sc_wrapped := pd_wrapped_dek row; sc_version := Some (pd_key_version row) |}.

(** What a claimed row asks for: the request to replay, or the reason to give up. *)
Definition replay_request (keys : option P) (now : datetime) (row : DeliveryRow)
    (rule : PostbackRule) : result pystr Request * option P :=
  match pd_request_method row with
  | Some method =>
      match open_headers keys now (pd_organization_id row) (row_sealed row)
              (py "the stored request's headers") with
      | (Err reason, keys) => (Err (py "blocked: " ++ reason), keys)
      | (Ok h, keys) =>
          (Ok {| r_url := default [] (pd_request_url row); r_method := method; r_headers := h;
                 r_body := pd_request_body row |}, keys)
      end
  | None =>
      if truthy (ru_body_template rule) || has_headers rule || has_integration rule
      then (Err (py "cannot retry faithfully: attempted before full requests were stored"), keys)
      else (Ok {| r_url := default [] (pd_request_url row); r_method := ru_method rule;
                  r_headers := []; r_body := None |}, keys)
  end.

(** The body of the loop on a claimed row, as [RETURNING] gives it; the flag is
    [retried]. *)
Definition retry_one (env : Attempt) (rules : list PostbackRule) (w : World) (row : DeliveryRow)
    : bool * World :=
  let abandon_row reason w := (false, with_db (abandon (w_db w) (pd_id row) reason) w) in
  if negb (truthy (pd_request_url row)) then abandon_row (py "no stored request URL to retry") w
  else
    match List.find (λ r, bool_decide (ru_id r = pd_rule_id row)) rules with
    | None => abandon_row (py "rule no longer exists") w
    | Some rule =>
        if ru_is_sandbox rule then abandon_row (py "rule is now in sandbox mode") w
        else
          let '(replay, keys) := replay_request (w_keys w) (at_now env) row rule in
          let w := with_keys keys w in
          match replay with
          | Err reason => abandon_row reason w
          | Ok rq =>
              let w := log_send (pd_id row) rq w in
              let r := send (at_fetch env rq) in
              (true, with_db (snd (record (w_db w) (at_recorded env) (at_draw env) (pd_id row) r
                                     (ru_success_codes rule) (pd_attempt_count row) None None)) w)
          end
    end.

Fixpoint retry_each (env : uuid → Attempt) (rules : list PostbackRule) (w : World)
    (rows : list DeliveryRow) : Z * World :=
  match rows with
  | [] => (0, w)
  | row :: rows =>
      let '(sent, w) := retry_one (env (pd_id row)) rules w row in
      let '(n, w) := retry_each env rules w rows in
      (if sent then n + 1 else n, w)
  end.

(** [claim_sql]: the due rows, oldest first, at most [limit]; all are taken at once. *)
Definition sooner (a b : DeliveryRow) : Prop :=
  default 0 (pd_next_retry_at a) <= default 0 (pd_next_retry_at b).
#[export] Instance sooner_dec a b : Decision (sooner a b).
Proof. unfold sooner. apply _. Defined.

Definition take_due (now : datetime) (limit : nat) (db : list DeliveryRow)
    : list DeliveryRow * list DeliveryRow :=
  let rows := take limit (merge_sort sooner (List.filter (due now) db)) in
  (retry_row <$> rows, foldr (λ r db, update_row (pd_id r) retry_row db) db rows).

Definition retry_due (env : uuid → Attempt) (now : datetime) (limit : nat)
    (rules : list PostbackRule) (w : World) : Z * World :=
  let '(rows, db) := take_due now limit (w_db w) in
  retry_each env rules (with_db db w) rows.

(** ** Lemmas: the code moves by the steps of [delivery_step] *)

Definition sys (w : World) (hs : list Hand) : System :=
  {| sy_db := w_db w; sy_hands := hs; sy_sent := w_sent w |}.

Lemma one_step s s' : delivery_step s s' → rtc delivery_step s s'.
Proof. intros. by eapply rtc_once. Qed.

Lemma count_attempt_frame status r w :
  w_db (count_attempt status r w) = w_db w ∧ w_sent (count_attempt status r w) = w_sent w.
Proof. unfold count_attempt. by repeat case_match. Qed.

Lemma remember_for_retry_steps env w id org rq hs :
  rtc delivery_step (sys w (Remembering id :: hs)) (sys (snd (remember_for_retry env w id org rq)) hs).
Proof.
  unfold remember_for_retry. destruct (pq_headers rq) as [|h hl].
  { by apply one_step, (step_remember _ [] hs). }
  destruct (w_keys w) as [p|]; [| by apply one_step, (step_cannot_remember _ [] hs)].
  destruct (seal _ p _ _ _ _) as [box|e].
  - by apply one_step, (step_remember _ [] hs).
  - by apply one_step, (step_crash _ [] _ hs).
Qed.

Lemma attempt_steps env w id rule a rq hs :
  rtc delivery_step (sys w (Pending id 1 :: hs)) (sys (snd (attempt env w id rule a rq)) hs).
Proof.
  eapply rtc_l; [apply (step_send (w_db w) [] hs (w_sent w) id 1 (request_of rq)) |].
  unfold attempt. destruct (interpreted a _) as [[accepted r]|].
  2: { by apply one_step, (step_crash _ [] _ hs). }
  pose proof (λ after, step_record (w_db w) [] hs (w_sent w ++ [(id, request_of rq)]) id 1
    (at_recorded env) (at_draw env) r (pq_success_codes rq) (Some (pq_url rq)) accepted after) as Hrec.
  cbn [log_send w_db] in *.
  destruct (record (w_db w) _ _ id r _ 1 _ accepted) as [status db]. cbn [snd] in Hrec.
  case_bool_decide.
  - eapply rtc_l; [apply (Hrec [Remembering id]); by right |].
    set (w2 := with_db db _).
    pose proof (remember_for_retry_steps env w2 id (ru_organization_id rule) rq hs) as Hr.
    destruct (remember_for_retry env w2 id _ rq) as [[e|] w3]; [exact Hr |]. simpl in *.
    destruct (count_attempt_frame status r w3) as [E1 E2].
    unfold sys in *. rewrite E1, E2. exact Hr.
  - eapply rtc_l; [apply (Hrec []); by left |]. simpl.
    unfold sys. destruct (count_attempt_frame status r (with_db db
      (log_send id (request_of rq) w))) as [-> ->]. apply rtc_refl.
Qed.

Lemma blocked_is_blocked reason : is_blocked (blocked reason) = true.
Proof. done. Qed.

Lemma deliver_claimed_steps env w id rule g event values hs :
  rtc delivery_step (sys w (Pending id 1 :: hs))
    (sys (snd (deliver_claimed env w id rule g event values)) hs).
Proof.
  unfold deliver_claimed.
  destruct (prepare (w_keys w) (at_now env) rule g event values) as [[[a [rq|]]|e] keys].
  - destruct (ru_is_sandbox rule).
    + by apply one_step, (step_sandbox _ [] hs).
    + exact (attempt_steps env (with_keys keys w) id rule a rq hs).
  - by apply one_step, (step_refuse _ [] hs).
  - destruct e; try (by apply one_step, (step_crash _ [] _ hs)).
    by apply one_step, (step_refuse _ [] hs).
Qed.

Lemma deliver_steps env w rule g event values attribution hs :
  rtc delivery_step (sys w hs) (sys (snd (deliver env w rule g event values attribution)) hs).
Proof.
  unfold deliver. destruct (_ && _); [apply rtc_refl |]. destruct (negb _); [apply rtc_refl |].
  destruct (uuid_of_str _) as [event_id|]; [| apply rtc_refl].
  destruct (claim _ _ _ _ _ _) as [[[|] db]|e] eqn:Hc; [| apply rtc_refl | apply rtc_refl].
  eapply rtc_l; [by apply (step_claim (w_db w) db hs (w_sent w) _ _ _ _ _ Hc) |].
  apply (deliver_claimed_steps env (with_db db (count Considered w))).
Qed.

Lemma deliver_all_steps env w rules event values attribution hs :
  rtc delivery_step (sys w hs) (sys (snd (deliver_all env w rules event values attribution)) hs).
Proof.
  revert w. induction rules as [|[rule g] rules IH]; intros w; [apply rtc_refl |]. simpl.
  pose proof (deliver_steps (env (ru_id rule)) w rule g event values attribution hs) as Hd.
  destruct (deliver _ w rule g event values attribution) as [[e|] w']; [exact Hd |].
  etrans; [exact Hd | apply IH].
Qed.

Lemma handle_steps env now t redis w event hs :
  rtc delivery_step (sys w hs) (sys (snd (handle env now t redis w event)) hs).
Proof.
  unfold handle. destruct (uuid_of_str _) as [app_id|]; [| apply rtc_refl].
  destruct (rules_for _ _ _ _) as [|r rules] eqn:Er; [apply rtc_refl |].
  destruct (lookup_attribution _ _ _ _ _) as [attribution redis'].
  destruct (campaign_of t attribution) as [campaign|e]; [| apply rtc_refl].
  pose proof (deliver_all_steps env w (r :: rules) event
    (event_context event attribution campaign) attribution hs) as Hd.
  by destruct (deliver_all _ _ _ _ _ _) as [e w'].
Qed.

Lemma retry_one_steps env rules w row hs :
  rtc delivery_step (sys w (Pending (pd_id row) (pd_attempt_count row) :: hs))
    (sys (snd (retry_one env rules w row)) hs).
Proof.
  unfold retry_one.
  destruct (negb _); [by apply one_step, (step_give_up _ [] hs) |].
  destruct (List.find _ rules) as [rule|]; [| by apply one_step, (step_give_up _ [] hs)].
  destruct (ru_is_sandbox rule); [by apply one_step, (step_give_up _ [] hs) |].
  destruct (replay_request _ _ row rule) as [[rq|reason] keys];
    [| by apply one_step, (step_give_up _ [] hs)].
  eapply rtc_l; [apply (step_send (w_db w) [] hs (w_sent w)) |].
  apply one_step, (step_record (w_db w) [] hs _ _ _ (at_recorded env) (at_draw env)
    (send (at_fetch env rq)) (ru_success_codes rule) None None []). by left.
Qed.

Definition pendings (rows : list DeliveryRow) : list Hand :=
  (λ r, Pending (pd_id r) (pd_attempt_count r)) <$> rows.

Lemma retry_each_steps env rules w rows hs :
  rtc delivery_step (sys w (pendings rows ++ hs)) (sys (snd (retry_each env rules w rows)) hs).
Proof.
  revert w. induction rows as [|row rows IH]; intros w; [apply rtc_refl |]. simpl.
  pose proof (retry_one_steps (env (pd_id row)) rules w row (pendings rows ++ hs)) as H1.
  destruct (retry_one _ rules w row) as [sent w1]. specialize (IH w1).
  destruct (retry_each env rules w1 rows) as [n w2]. etrans; [exact H1 | exact IH].
Qed.

Lemma update_row_other id f db r : r ∈ db → pd_id r ≠ id → r ∈ update_row id f db.
Proof.
  intros Hr Hne. unfold update_row. apply list_elem_of_fmap. exists r. split; [| done].
  by rewrite bool_decide_false.
Qed.

Lemma take_rows_steps now db rows hs sent :
  NoDup (pd_id <$> rows) → (∀ r, r ∈ rows → r ∈ db ∧ due now r = true) →
  rtc delivery_step {| sy_db := db; sy_hands := hs; sy_sent := sent |}
    {| sy_db := foldr (λ r db, update_row (pd_id r) retry_row db) db rows;
       sy_hands := pendings (retry_row <$> rows) ++ hs; sy_sent := sent |}.
Proof.
  induction rows as [|r rows IH]; intros Hn Hd; [apply rtc_refl |].
  rewrite fmap_cons, NoDup_cons in Hn. destruct Hn as [Hr Hn].
  eapply rtc_r; [apply IH; [done | set_solver] |]. simpl.
  apply (step_retry _ _ _ now r); [| set_solver].
  assert (∀ l, pd_id r ∉ pd_id <$> l → r ∈ foldr (λ r db, update_row (pd_id r) retry_row db) db l)
    as Hin; [| by apply Hin].
  induction l as [|x l IHl]; [set_solver |]. intros Hx. rewrite fmap_cons, not_elem_of_cons in Hx.
  simpl. apply update_row_other; [by apply IHl; apply Hx | apply Hx].
Qed.

Lemma due_rows now limit db :
  NoDup (pd_id <$> db) →
  let rows := take limit (merge_sort sooner (List.filter (due now) db)) in
  NoDup (pd_id <$> rows) ∧ ∀ r, r ∈ rows → r ∈ db ∧ due now r = true.
Proof.
  intros Hn rows. split.
  - unfold rows. rewrite fmap_take. eapply sublist_NoDup; [| apply sublist_take].
    eapply (NoDup_Permutation_proper); [apply fmap_Permutation, merge_sort_Permutation |].
    clear rows. induction db as [|r db IH]; [done |]. rewrite fmap_cons, NoDup_cons in Hn.
    destruct Hn as [Hr Hn]. simpl. destruct (due now r); [| by apply IH].
    rewrite fmap_cons, NoDup_cons. split; [| by apply IH].
    intros (x & E & [Hx _]%elem_of_lfilter)%list_elem_of_fmap. apply Hr, list_elem_of_fmap. eauto.
  - intros r Hr%elem_of_take_in. rewrite merge_sort_Permutation in Hr. by apply elem_of_lfilter.
Qed.

Lemma retry_due_steps env now limit rules w hs :
  NoDup (pd_id <$> w_db w) →
  rtc delivery_step (sys w hs) (sys (snd (retry_due env now limit rules w)) hs).
Proof.
  intros Hn. destruct (due_rows now limit _ Hn) as [H1 H2]. unfold retry_due, take_due.
  etrans; [exact (take_rows_steps now _ _ hs (w_sent w) H1 H2) |].
  apply (retry_each_steps env rules (with_db _ w)).
Qed.

(** ** The jobs of a worker, in any order *)

Inductive Job :=
| Handle (env : uuid → Attempt) (now : datetime) (t : Tables) (event : QueuedEvent)
| Retry (env : uuid → Attempt) (now : datetime) (limit : nat) (rules : list PostbackRule).

Definition run_job (s : store CachedAttribution * World) (j : Job)
    : store CachedAttribution * World :=
  match j with
  | Handle env now t event =>
      let '(_, redis, w) := handle env now t (fst s) (snd s) event in (redis, w)
  | Retry env now limit rules => (fst s, snd (retry_due env now limit rules (snd s)))
  end.

Definition run_jobs (s : store CachedAttribution * World) (jobs : list Job)
    : store CachedAttribution * World := foldl run_job s jobs.

(** (C7) Whatever events a worker handles and however often the retry job runs, with
    whatever answers, exceptions and rule changes, the deliveries table and the requests
    sent are reached by the steps of the delivery protocol, and every claim the code takes
    is let go of again. *)
Theorem worker_refines_delivery redis keys metrics jobs :
  rtc delivery_step system0
    (sys (snd (run_jobs (redis, {| w_db := []; w_keys := keys; w_metrics := metrics; w_sent := [] |})
               jobs)) []).
Proof.
  induction jobs as [|j jobs IH] using rev_ind; [apply rtc_refl |].
  unfold run_jobs in *. rewrite foldl_app. simpl.
  destruct (foldl run_job _ jobs) as [r w]. cbn [snd] in IH. etrans; [exact IH |].
  destruct j as [env now t event|env now limit rules]; simpl.
  - pose proof (handle_steps env now t r w event []) as Hh.
    by destruct (handle env now t r w event) as [[e r'] w'].
  - apply retry_due_steps. exact (so_ids _ (system_ok_reachable _ IH)).
Qed.

(** ** Who is told about a conversion *)

(** What a rule must satisfy to hear about an event with this attribution. *)
Definition entitled (rule : PostbackRule) (attribution : option CachedAttribution) : Prop :=
  ru_is_sandbox rule = false ∧
  (ru_requires_attribution rule = true → ∃ a, attribution = Some a ∧ is_Some (ca_click_id a)) ∧
  (∀ c, ru_campaign_id rule = Some c →
    ∃ a, attribution = Some a ∧ ca_campaign_id a = Some (str_of_uuid c)).

Lemma remember_for_retry_sent env w id org rq :
  w_sent (snd (remember_for_retry env w id org rq)) = w_sent w.
Proof. unfold remember_for_retry. by repeat case_match. Qed.

Lemma attempt_sent env w id rule a rq :
  w_sent (snd (attempt env w id rule a rq)) = w_sent w ++ [(id, request_of rq)].
Proof.
  unfold attempt. destruct (interpreted a _) as [[acc r]|]; [| done].
  destruct (record _ _ _ _ _ _ _ _ _) as [status db].
  case_bool_decide; [| apply count_attempt_frame].
  pose proof (remember_for_retry_sent env (with_db db (log_send id (request_of rq) w)) id
    (ru_organization_id rule) rq) as E.
  destruct (remember_for_retry _ _ _ _ _) as [[e|] w3]; [exact E |].
  simpl in *. by rewrite (proj2 (count_attempt_frame status r w3)).
Qed.

Lemma deliver_sent env w rule g event values attribution :
  let w' := snd (deliver env w rule g event values attribution) in
  w_sent w' = w_sent w ∨
  (entitled rule attribution ∧ ∃ rq, w_sent w' = w_sent w ++ [(at_id env, rq)]).
Proof.
  unfold deliver. destruct (ru_requires_attribution rule && _) eqn:Er; [by left |].
  destruct (negb (in_scope _ _)) eqn:Es; [by left |].
  destruct (uuid_of_str _) as [event_id|]; [| by left].
  destruct (claim _ _ _ _ _ _) as [[[|] db]|e]; [| by left | by left].
  unfold deliver_claimed. destruct (prepare _ _ _ _ _ _) as [[[a [rq|]]|e] keys];
    [| by left | by destruct e; left].
  destruct (ru_is_sandbox rule) eqn:Eb; [by left |]. right. split.
  - split_and!; [done | |].
    + intros Hq. rewrite Hq in Er. simpl in Er. apply negb_false_iff in Er.
      unfold is_attributed in Er. destruct attribution; [| done]. bprop. eauto.
    + intros c Hc. apply negb_false_iff in Es. rewrite Hc in Es. simpl in Es.
      destruct attribution; [| done]. bprop. eauto.
  - exists (request_of rq). cbn. by rewrite attempt_sent.
Qed.

Lemma deliver_all_sent env w rules event values attribution :
  ∃ new, w_sent (snd (deliver_all env w rules event values attribution)) = w_sent w ++ new ∧
  ∀ p, p ∈ new → ∃ rule g, (rule, g) ∈ rules ∧ fst p = at_id (env (ru_id rule)) ∧
    entitled rule attribution.
Proof.
  revert w. induction rules as [|[rule g] rules IH]; intros w.
  { exists []. rewrite app_nil_r. split; [done |]. by intros p []%elem_of_nil. }
  simpl. pose proof (deliver_sent (env (ru_id rule)) w rule g event values attribution) as Hd.
  destruct (deliver _ w rule g event values attribution) as [e w1]. simpl in Hd.
  assert (∃ new, w_sent w1 = w_sent w ++ new ∧ ∀ p, p ∈ new →
    fst p = at_id (env (ru_id rule)) ∧ entitled rule attribution) as (new & E & Hnew).
  { destruct Hd as [E | [He [rq E]]].
    - exists []. rewrite app_nil_r. split; [done |]. by intros p []%elem_of_nil.
    - exists [(at_id (env (ru_id rule)), rq)]. split; [done |].
      intros p ->%list_elem_of_singleton. done. }
  destruct e as [e|].
  - exists new. split; [done |]. intros p Hp. exists rule, g. split; [left | by apply Hnew].
  - destruct (IH w1) as (new' & E' & Hnew'). exists (new ++ new').
    rewrite E', E, app_assoc. split; [done |]. intros p [Hp | Hp]%elem_of_app.
    + exists rule, g. split; [left | by apply Hnew].
    + destruct (Hnew' p Hp) as (r & g' & ? & ?). exists r, g'. split; [by right | done].
Qed.

(** Every request sent while handling an event is for an enabled rule of the
    event's own app and name which is not in sandbox mode, has the attributed click it
    requires, and, when it is scoped to a campaign, whose campaign the install was
    attributed to; so a partner never hears of another campaign's conversions. *)
Theorem handle_tells_only_entitled_partners env now t redis w event app_id :
  uuid_of_str (q_app_id event) = Some app_id →
  let attribution :=
    fst (lookup_attribution redis (tb_attributions t) now app_id (q_anonymous_id event)) in
  ∃ new, w_sent (snd (handle env now t redis w event)) = w_sent w ++ new ∧
  ∀ p, p ∈ new → ∃ rule, rule ∈ tb_rules t ∧ ru_enabled rule = true ∧
    ru_app_id rule = app_id ∧ ru_trigger_event rule = q_event_name event ∧
    fst p = at_id (env (ru_id rule)) ∧ entitled rule attribution.
Proof.
  intros Happ attribution. unfold handle. rewrite Happ.
  assert (∀ r g, (r, g) ∈ rules_for (tb_rules t) (tb_integrations t) app_id (q_event_name event) →
    r ∈ tb_rules t ∧ ru_enabled r = true ∧ ru_app_id r = app_id ∧
    ru_trigger_event r = q_event_name event) as Hrules.
  { intros r g (r' & [= -> _] & [Hr Hk]%elem_of_lfilter)%list_elem_of_fmap. by bprop. }
  destruct (rules_for _ _ _ _) as [|r rules].
  { exists []. rewrite app_nil_r. split; [done |]. by intros p []%elem_of_nil. }
  unfold attribution. destruct (lookup_attribution _ _ _ _ _) as [attr redis'].
  destruct (campaign_of t attr) as [campaign|e].
  2: { exists []. rewrite app_nil_r. split; [done |]. by intros p []%elem_of_nil. }
  destruct (deliver_all_sent env w (r :: rules) event (event_context event attr campaign) attr)
    as (new & E & Hnew).
  destruct (deliver_all _ _ _ _ _ _) as [e w']. exists new. split; [exact E |].
  intros p (rule & g & Hin & Hid & He)%Hnew. destruct (Hrules _ _ Hin) as (? & ? & ? & ?).
  by exists rule.
Qed.
End Postbacks.

(** ** Retries replay the first request *)

Section Replay.
Context {U : Unicode} `{AEADLaws} {P : Type} `{MasterKeyLaws P} {J : HeaderJson}.

(** msgspec reads back the JSON it wrote of a dict. *)
Definition header_json_ok : Prop :=
  ∀ h, NoDup (fst <$> h) → decode_headers (encode_headers h) = Some h.

(** Two versions of a row that keep the same request. *)
Record same_request (r r' : DeliveryRow) : Prop := {
  sr_url : pd_request_url r' = pd_request_url r;
  sr_method : pd_request_method r' = pd_request_method r;
  sr_body : pd_request_body r' = pd_request_body r;
  sr_sealed : row_sealed r' = row_sealed r;
  sr_org : pd_organization_id r' = pd_organization_id r
}.

(** Taking a row for a retry and recording one more failure keep it. *)
Lemma retry_row_same_request r : same_request r (retry_row r).
Proof. by split. Qed.

Lemma failed_again_same_request now r retry_at row :
  same_request row (record_row now Failed r retry_at None row).
Proof. by split. Qed.

(** The stored form of a request. *)
Definition stores (env : Attempt) (keys : option P) (org : uuid) (rq : PreparedRequest)
    (row : DeliveryRow) : Prop :=
  pd_request_url row = Some (pq_url rq) ∧ pd_request_method row = Some (pq_method rq) ∧
  pd_request_body row = pq_body rq ∧
  match pq_headers rq with
  | [] => pd_headers_ciphertext row = None
  | h => ∃ p box, keys = Some p ∧
      seal (encode_headers h) p (organization_aad org) (at_dek env) (at_nonce env) (at_random env)
        = Ok box ∧
      row_sealed row = {| sc_ciphertext := Some (ss_ciphertext box); sc_nonce := Some (ss_nonce box);
                          sc_wrapped := Some (ss_wrapped_dek box);
                          sc_version := Some (ss_key_version box) |}
  end.

Lemma remember_for_retry_stores env w id org rq row0 w' row :
  find_row id (w_db w) = Some row0 → pd_request_url row0 = Some (pq_url rq) →
  remember_for_retry env w id org rq = (None, w') →
  find_row id (w_db w') = Some row → pd_status row = Failed →
  stores env (w_keys w) org rq row ∧ pd_organization_id row = pd_organization_id row0.
Proof.
  intros H0r Hurl Hrem Hrow Hst. unfold remember_for_retry in Hrem. unfold stores.
  destruct (pq_headers rq) as [|h hs].
  { injection Hrem as <-. simpl in Hrow. unfold remember_request in Hrow.
    rewrite (find_row_update id _ _ row0) in Hrow by done. by injection Hrow as <-. }
  destruct (w_keys w) as [p|].
  2: { injection Hrem as <-. simpl in Hrow. unfold abandon in Hrow.
       rewrite (find_row_update id _ _ row0) in Hrow by done. by injection Hrow as <-. }
  destruct (seal (encode_headers (h :: hs)) p _ _ _ _) as [box|e] eqn:Hs; [| done].
  injection Hrem as <-. simpl in Hrow. unfold remember_request in Hrow.
  rewrite (find_row_update id _ _ row0) in Hrow by done. injection Hrow as <-.
  split_and!; try done. by exists p, box.
Qed.

Lemma attempt_stores env w id rule a rq row0 w' row :
  find_row id (w_db w) = Some row0 → attempt env w id rule a rq = (None, w') →
  find_row id (w_db w') = Some row → pd_status row = Failed →
  stores env (w_keys w) (ru_organization_id rule) rq row ∧
  pd_organization_id row = pd_organization_id row0.
Proof.
  intros H0r Ha Hrow Hst. unfold attempt in Ha.
  destruct (interpreted a _) as [[acc r]|]; [| done].
  unfold record in Ha. cbn [log_send w_db w_keys] in Ha.
  set (status := decided_status r (pq_success_codes rq) 1 acc) in *.
  set (f := record_row _ _ _ _ _) in *.
  assert (find_row id (update_row id f (w_db w)) = Some (f row0)) as Hf
    by (by apply find_row_update).
  case_bool_decide as E.
  - destruct (remember_for_retry env _ id _ rq) as [[e|] w3] eqn:Hrem; [done |].
    injection Ha as <-. rewrite (proj1 (count_attempt_frame status r w3)) in Hrow.
    exact (remember_for_retry_stores env (with_db (update_row id f (w_db w))
      (log_send id (request_of rq) w)) id _ rq (f row0) w3 row Hf eq_refl Hrem Hrow Hst).
  - injection Ha as <-. destruct (count_attempt_frame status r (with_db
      (update_row id f (w_db w)) (log_send id (request_of rq) w))) as [Ec _].
    rewrite Ec in Hrow. simpl in Hrow. rewrite Hf in Hrow. injection Hrow as <-. done.
Qed.

(** Unsealing what was stored gives the headers back. *)
Lemma open_headers_stored env p p2 org h box now what :
  header_json_ok → NoDup (fst <$> h) → provider_ok p → provider_ok p2 →
  (∀ w v d, opens p w v d → opens p2 w v d) → current_version p ≠ 0 →
  length (at_dek env) = DEK_BYTES → length (at_random env) = NONCE_BYTES →
  seal (encode_headers h) p (organization_aad org) (at_dek env) (at_nonce env) (at_random env)
    = Ok box →
  fst (open_headers (Some p2) now org
    {| sc_ciphertext := Some (ss_ciphertext box); sc_nonce := Some (ss_nonce box);
       sc_wrapped := Some (ss_wrapped_dek box); sc_version := Some (ss_key_version box) |} what)
  = Ok h.
Proof.
  intros Hj Hn Hp Hp2 Hpp Hv Hd Hr Hs.
  destruct (seal_inv _ _ _ _ _ _ _ Hp Hr Hd Hs) as (Hw & Hct & Hno).
  assert (ss_key_version box = current_version p) as Hver.
  { unfold seal in Hs. by apply rbind_Ok in Hs as (w & _ & <-%Ok_inj). }
  assert (ss_ciphertext box ≠ []) as Hne by (rewrite Hct; apply aead_tagged).
  unfold open_headers. cbn [sc_ciphertext].
  assert (sealed_of {| sc_ciphertext := Some (ss_ciphertext box); sc_nonce := Some (ss_nonce box);
    sc_wrapped := Some (ss_wrapped_dek box); sc_version := Some (ss_key_version box) |}
    (ss_ciphertext box) = box) as Hbox.
  { unfold sealed_of. simpl. destruct (Z.eqb_spec (ss_key_version box) 0); [congruence |].
    by destruct box. }
  destruct (ss_ciphertext box) as [|c ct] eqn:Ec; [done |]. rewrite Hbox.
  pose proof (open_sealed_opens box p2 now (organization_aad org) _ Hp2 (Hpp _ _ _ Hw)) as Ho.
  rewrite Hno, Ec, Hct, aead_inverse in Ho by done.
  destruct (open_sealed box p2 now (organization_aad org)) as [opened p3]. simpl in Ho. rewrite Ho.
  by rewrite Hj.
Qed.

(** A retry sends the failed request again, exactly: same URL, method, headers and
    body, whatever happened to the rule's own templates and headers since, as long as the
    rule still exists outside sandbox mode and the key that sealed the headers is still
    held. *)
Theorem retry_replays_the_request env env2 w w2 id rule a rq row0 row row2 w' rules rule2 :
  header_json_ok → NoDup (fst <$> pq_headers rq) → pq_url rq ≠ [] →
  length (at_dek env) = DEK_BYTES → length (at_random env) = NONCE_BYTES →
  (∀ p, w_keys w = Some p → provider_ok p ∧ current_version p ≠ 0 ∧
    ∃ p2, w_keys w2 = Some p2 ∧ provider_ok p2 ∧ ∀ x v d, opens p x v d → opens p2 x v d) →
  find_row id (w_db w) = Some row0 → pd_organization_id row0 = ru_organization_id rule →
  attempt env w id rule a rq = (None, w') →
  find_row id (w_db w') = Some row → pd_status row = Failed → same_request row row2 →
  List.find (λ r, bool_decide (ru_id r = pd_rule_id row2)) rules = Some rule2 →
  ru_is_sandbox rule2 = false →
  w_sent (snd (retry_one env2 rules w2 row2)) = w_sent w2 ++ [(pd_id row2, request_of rq)].
Proof.
  intros Hj Hn Hu Hd Hr Hk H0r Horg Ha Hrow Hst [Surl Smeth Sbody Sseal Sorg] Hf Hsb.
  destruct (attempt_stores _ _ _ _ _ _ _ _ _ H0r Ha Hrow Hst) as ((Eu & Em & Eb & Eh) & Eo).
  assert (fst (replay_request (w_keys w2) (at_now env2) row2 rule2) = Ok (request_of rq)) as Hreq.
  { unfold replay_request, request_of. rewrite Smeth, Em, Surl, Eu, Sbody, Eb, Sseal, Sorg, Eo, Horg.
    destruct (pq_headers rq) as [|h hs].
    - unfold open_headers, row_sealed. cbn [sc_ciphertext]. by rewrite Eh.
    - destruct Eh as (p & box & Ekeys & Eseal & Erow).
      destruct (Hk p Ekeys) as (Hp & Hv & p2 & Ek2 & Hp2 & Hpp).
      pose proof (open_headers_stored env p p2 (ru_organization_id rule) (h :: hs) box (at_now env2)
        (py "the stored request's headers") Hj Hn Hp Hp2 Hpp Hv Hd Hr Eseal) as Ho.
      rewrite Erow, Ek2. destruct (open_headers (Some p2) _ _ _ _) as [opened keys].
      cbn [fst] in Ho. by rewrite Ho. }
  unfold retry_one. rewrite Surl, Eu, Hf, Hsb.
  assert (truthy (Some (pq_url rq)) = true) as Ht by (by destruct (pq_url rq)).
  cbn [truthy] in Ht. cbn [truthy]. rewrite Ht. cbn [negb].
  destruct (replay_request (w_keys w2) (at_now env2) row2 rule2) as [req keys].
  cbn [fst] in Hreq. by rewrite Hreq.
Qed.
End Replay.

(** ** Witnesses *)

(** A codec of headers: every text after its length. *)
Definition put_text (s : pystr) : list N := N.of_nat (length s) :: s.
Definition get_text (b : list N) : option (pystr * list N) :=
  match b with
  | n :: b => Some (take (N.to_nat n) b, drop (N.to_nat n) b)
  | [] => None
  end.
Fixpoint get_headers (fuel : nat) (b : list N) : option (list (pystr * pystr)) :=
  match fuel, b with
  | _, [] => Some []
  | O, _ => None
  | S fuel, _ =>
      '(k, b) ← get_text b; '(v, b) ← get_text b; h ← get_headers fuel b; Some ((k, v) :: h)
  end.

Definition toy_json : HeaderJson := {|
  encode_headers h := h ≫= (λ kv, put_text (fst kv) ++ put_text (snd kv));
  decode_headers b := get_headers (length b) b
|}.

Lemma get_put_text s rest : get_text (put_text s ++ rest) = Some (s, rest).
Proof. unfold get_text, put_text. simpl. by rewrite Nat2N.id, take_app_length, drop_app_length. Qed.

Lemma get_headers_encode fuel h :
  (length h <= fuel)%nat → get_headers fuel (@encode_headers toy_json h) = Some h.
Proof.
  revert fuel. induction h as [|[k v] h IH]; intros fuel Hf; [by destruct fuel |].
  destruct fuel as [|fuel]; [simpl in Hf; lia |].
  assert (@encode_headers toy_json ((k, v) :: h) =
          put_text k ++ (put_text v ++ @encode_headers toy_json h)) as ->
    by (simpl; rewrite <- app_assoc; done).
  assert (∀ b, get_headers (S fuel) (put_text k ++ b) =
    ('(v, b) ← get_text b; h ← get_headers fuel b; Some ((k, v) :: h))) as ->.
  { intros b. change (get_headers (S fuel) (put_text k ++ b)) with
      ('(k, b) ← get_text (put_text k ++ b); '(v, b) ← get_text b;
       h ← get_headers fuel b; Some ((k, v) :: h)). by rewrite get_put_text. }
  rewrite get_put_text. simpl in *. by rewrite IH by lia.
Qed.

Lemma toy_json_ok : @header_json_ok toy_json.
Proof.
  intros h _. simpl. apply (get_headers_encode _ h).
  induction h as [|[k v] h IH]; [done |]. rewrite bind_cons, !length_app.
  cbn [length put_text fst] in *. lia.
Qed.

Definition ex_seal_env (id : uuid) (outcome : FetchOutcome) : Attempt :=
  {| at_now := 0; at_recorded := second; at_id := id; at_draw := 0; at_dek := ex_dek;
     at_nonce := ex_random; at_random := ex_random; at_fetch := λ _, outcome |}.

Definition no_secret : SealedColumns :=
  {| sc_ciphertext := None; sc_nonce := None; sc_wrapped := None; sc_version := None |}.

Definition ex_rule (scope : option uuid) : PostbackRule :=
  {| ru_id := 3; ru_app_id := 8; ru_trigger_event := py "purchase"; ru_enabled := true;
     ru_method := py "POST"; ru_url_template := py "https://p.example/{{event_name}}";
     ru_body_template := Some (py "{}"); ru_success_codes := [200];
     ru_requires_attribution := false; ru_is_sandbox := false; ru_organization_id := 2;
     ru_campaign_id := scope; ru_integration_id := None; ru_headers := no_secret |}.

Definition ex_prepared : PreparedRequest :=
  {| pq_method := py "POST"; pq_url := py "https://p.example/purchase";
     pq_headers := [(py "content-type", py "application/json")]; pq_body := Some (py "{}");
     pq_success_codes := [200] |}.

Definition ex_world (db : list DeliveryRow) : @World LocalMasterKeyProvider :=
  {| w_db := db; w_keys := Some ex_local; w_metrics := λ _, 0; w_sent := [] |}.

Abbreviation ex_attempt a outcome :=
  (@attempt toy_aead LocalMasterKeyProvider (@local_master_keys toy_aead) toy_json
     (ex_seal_env 1 outcome) (ex_world ex_claimed) 1 (ex_rule None) a ex_prepared).

Definition ex_remembered (a : option Adapter) : DeliveryRow :=
  default ex_failed_row (find_row 1 (w_db (snd (ex_attempt a (Responded 503 []))))).

(** A POST with a sealed header fails with 503; its retry sends the same request. *)
Lemma retry_replays_the_request_witness :
  w_sent (snd (@retry_one toy_aead LocalMasterKeyProvider (@local_master_keys toy_aead) toy_json
    (ex_seal_env 1 (Responded 200 [])) [ex_rule None] (ex_world ex_claimed)
    (retry_row (ex_remembered None)))) =
  [(1%N, {| r_url := py "https://p.example/purchase"; r_method := py "POST";
            r_headers := [(py "content-type", py "application/json")];
            r_body := Some (py "{}") |})].
Proof.
  apply (@retry_replays_the_request toy_aead toy_aead_laws _ _ (@local_laws toy_aead toy_aead_laws)
    toy_json (ex_seal_env 1 (Responded 503 [])) (ex_seal_env 1 (Responded 200 []))
    (ex_world ex_claimed) (ex_world ex_claimed) 1 (ex_rule None) None ex_prepared
    (default ex_failed_row (find_row 1 ex_claimed)) (ex_remembered None)
    (retry_row (ex_remembered None)) (snd (ex_attempt None (Responded 503 [])))
    [ex_rule None] (ex_rule None)).
  - exact toy_json_ok.
  - vm_compute. repeat constructor; set_solver.
  - discriminate.
  - reflexivity.
  - reflexivity.
  - intros p [= <-]. split; [exact ex_local_ok |]. split; [discriminate |].
    exists ex_local. split; [reflexivity |]. split; [exact ex_local_ok | auto].
  - reflexivity.
  - reflexivity.
  - vm_compute. reflexivity.
  - vm_compute. reflexivity.
  - vm_compute. reflexivity.
  - apply retry_row_same_request.
  - vm_compute. reflexivity.
  - reflexivity.
Defined.

Definition ex_purchase (app : uuid) : QueuedEvent :=
  {| q_event_id := str_of_uuid 4; q_received_at := 0; q_occurred_at := 0;
     q_organization_id := str_of_uuid 2; q_app_id := str_of_uuid app;
     q_event_name := py "purchase"; q_anonymous_id := py "d"; q_user_id := None;
     q_session_id := None; q_platform := 1; q_os_version := None; q_app_version := None;
     q_device_model := None; q_country := None; q_ip_hash := None; q_click_id := None;
     q_revenue_minor := Some 1999; q_currency := None; q_clock_skew_ms := None;
     q_properties := []; q_correlation_id := None |}.

Abbreviation ex_handle scope :=
  (@handle ascii_unicode toy_aead LocalMasterKeyProvider (@local_master_keys toy_aead) toy_json
    (λ _, None) (λ _, []) (λ _, ex_seal_env 1 (Responded 200 [])) 0
    {| tb_rules := [ex_rule scope]; tb_integrations := []; tb_attributions := [];
       tb_campaigns := [] |} empty (ex_world []) (ex_purchase 8)).

(** An organic purchase: a rule scoped to a campaign is silent, an unscoped one is told. *)
Lemma handle_tells_only_entitled_partners_witness :
  w_sent (snd (ex_handle (Some 5%N))) = [] ∧ w_sent (snd (ex_handle None)) ≠ [].
Proof.
  split; [| vm_compute; discriminate].
  destruct (@handle_tells_only_entitled_partners ascii_unicode toy_aead _
    (@local_master_keys toy_aead) toy_json (λ _, None) (λ _, [])
    (λ _, ex_seal_env 1 (Responded 200 [])) 0
    {| tb_rules := [ex_rule (Some 5%N)]; tb_integrations := []; tb_attributions := [];
       tb_campaigns := [] |} empty (ex_world []) (ex_purchase 8) 8%N
    ltac:(vm_compute; reflexivity)) as (new & E & Hnew).
  rewrite E. destruct new as [|p new]; [reflexivity |]. exfalso.
  destruct (Hnew p) as (rule & Hr & _ & _ & _ & _ & _ & _ & Hscope); [left |].
  apply list_elem_of_singleton in Hr as ->.
  destruct (Hscope 5%N eq_refl) as (a & Ha & _). vm_compute in Ha. discriminate Ha.
Defined.

(** ** The retry trusts the status code

    An adapter that reads an error in a 200 response rejects the conversion on the first
    attempt, and is not asked on a retry. *)
Definition strict_adapter : Adapter :=
  {| ad_prepare _ _ _ := Some (Some ex_prepared);
     ad_interpret code body :=
       Some {| dv_accepted := (code =? 200) && bool_decide (body ≠ py "unknown campaign");
               dv_detail := Some (py "rejected"); dv_retryable := true |} |}.

Lemma retry_ignores_the_adapter :
  let rejecting := Responded 200 (py "unknown campaign") in
  pd_status <$> find_row 1 (w_db (snd (ex_attempt (Some strict_adapter) rejecting)))
    = Some Abandoned ∧
  pd_status <$> find_row 1 (w_db (snd (@retry_one toy_aead LocalMasterKeyProvider
      (@local_master_keys toy_aead) toy_json (ex_seal_env 1 rejecting) [ex_rule None]
      (ex_world [retry_row (ex_remembered (Some strict_adapter))])
      (retry_row (ex_remembered (Some strict_adapter))))))
    = Some Delivered.
Proof. split; vm_compute; reflexivity. Qed.
