(* ===== verification/AuditLog.v ===== *)
(** * The audit log (mmp_db/audit.py)

    A hash chain per organisation.  SHA-256, the JSON encoder and the [jsonb] column
    are parameters; the
    clock and the id [uuid7] mints are arguments.  The table is the list of its rows. *)

From stdpp Require Import sorting.
From S2P Require Import Prelude Ids Schema Templates.

#[local] Open Scope Z_scope.
#[local] Open Scope mmp_scope.

Definition ACTIONS : list pystr :=
  [py "api_key.created"; py "api_key.revoked"; py "api_key.rotated"; py "app.created";
   py "app.disabled"; py "member.added"; py "member.removed"; py "postback_rule.created";
   py "postback_rule.disabled"; py "webhook.created"; py "webhook.deleted";
   py "webhook.secret_rotated"; py "export.requested"; py "conversion_value.set";
   py "conversion_value.deleted"; py "deep_link.created"; py "deep_link.deleted";
   py "event_definition.created"; py "event_definition.blocked"; py "event_definition.unblocked";
   py "event_definition.deleted"; py "integration.created"; py "integration.deleted";
   py "consent.recorded"; py "erasure.requested"; py "erasure.completed"; py "retention.applied"].

Record AuditRow := {
  al_id : uuid;
  al_organization_id : uuid;
  al_actor_user_id : option uuid;
  al_action : pystr;
  al_resource_type : pystr;
  al_resource_id : option pystr;
  al_detail : props;
  al_previous_hash : option (list N);
  al_entry_hash : list N;
  al_created_at : datetime
}.

Record AuditEntry := { ae_id : uuid; ae_action : pystr; ae_entry_hash : list N }.

Record VerificationResult := { vr_entries : Z; vr_intact : bool; vr_broken_at : option uuid }.

Inductive AuditError :=
| UnknownAction (action : pystr)
| DuplicateId.              (* the primary key refuses the insert *)

Class AuditLib := {
  sha256 : list N → list N;
  encode_json : props → list N;
  (** what the [jsonb] column gives back for a stored detail *)
  jsonb : props → props
}.

Section AuditLog.
Context {L : AuditLib}.

(** [sorted(detail.items())]: by key, in code point order; the keys of a dict differ. *)
Fixpoint str_leb (a b : pystr) : bool :=
  match a, b with
  | [], _ => true
  | _, [] => false
  | x :: a, y :: b => N.ltb x y || (N.eqb x y && str_leb a b)
  end.
Definition item_le (a b : pystr * json) : Prop := str_leb (fst a) (fst b) = true.
#[export] Instance item_le_dec a b : Decision (item_le a b).
Proof. unfold item_le. apply _. Defined.

Definition sorted_items (detail : props) : props := merge_sort item_le detail.

Definition text (s : pystr) : list N := s ≫= utf8.

(** The fields [compute_hash] joins, but the last. *)
Definition hashed_fields (r : AuditRow) : list (list N) :=
  [text (str_of_uuid (al_id r));
   text (str_of_uuid (al_organization_id r));
   text (match al_actor_user_id r with Some a => str_of_uuid a | None => [] end);
   text (al_action r);
   text (al_resource_type r);
   text (default [] (al_resource_id r));
   encode_json (sorted_items (al_detail r))].

Definition newline : N := 10.

(** [compute_hash] on the fields of a row and the hash of its predecessor. *)
Definition payload (r : AuditRow) (previous : option (list N)) : list N :=
  py_join [newline] (hashed_fields r ++ [default [] previous]).
Definition compute_hash (r : AuditRow) (previous : option (list N)) : list N := sha256 (payload r previous).

(** ** The order of an organisation's entries *)

Definition entry_le (a b : AuditRow) : Prop :=
  al_created_at a < al_created_at b ∨
  (al_created_at a = al_created_at b ∧ (al_id a <= al_id b)%N).
#[export] Instance entry_le_dec a b : Decision (entry_le a b).
Proof. unfold entry_le. apply _. Defined.

Definition of_organization (org : uuid) (r : AuditRow) : bool :=
  bool_decide (al_organization_id r = org).

Definition chain (db : list AuditRow) (org : uuid) : list AuditRow :=
  merge_sort entry_le (List.filter (of_organization org) db).

(** [LAST_ENTRY_SQL]. *)
Definition last_hash (db : list AuditRow) (org : uuid) : option (list N) :=
  al_entry_hash <$> last (chain db org).

(** ** Operations *)

(** [bytes(previous) if previous else None]. *)
Definition nonempty_bytes (b : option (list N)) : option (list N) :=
  match b with Some [] => None | _ => b end.

Definition record (db : list AuditRow) (now : datetime) (id org : uuid) (action resource_type : pystr)
    (resource_id : option pystr) (actor : option uuid) (detail : props)
    : result AuditError (AuditEntry * list AuditRow) :=
  let* _ := raise_if (negb (bool_decide (action ∈ ACTIONS))) (UnknownAction action) in
  let previous := nonempty_bytes (last_hash db org) in
  let row detail hash :=
    {| al_id := id; al_organization_id := org; al_actor_user_id := actor; al_action := action;
       al_resource_type := resource_type; al_resource_id := resource_id; al_detail := detail;
       al_previous_hash := previous; al_entry_hash := hash; al_created_at := now |} in
  let hash := compute_hash (row detail []) previous in
  let* _ := raise_if (existsb (λ r, bool_decide (al_id r = id)) db) DuplicateId in
  Ok ({| ae_id := id; ae_action := action; ae_entry_hash := hash |}, db ++ [row (jsonb detail) hash]).

(** The walk of [verify]: the first entry whose hash is not the expected one. *)
Fixpoint first_broken (rows : list AuditRow) (previous : option (list N)) : option uuid :=
  match rows with
  | [] => None
  | r :: rows =>
      if bool_decide (compute_hash r previous = al_entry_hash r)
      then first_broken rows (Some (al_entry_hash r))
      else Some (al_id r)
  end.

Definition verify (db : list AuditRow) (org : uuid) : VerificationResult :=
  let rows := chain db org in
  match first_broken rows None with
  | None => {| vr_entries := Z.of_nat (length rows); vr_intact := true; vr_broken_at := None |}
  | Some id => {| vr_entries := Z.of_nat (length rows); vr_intact := false;
                  vr_broken_at := Some id |}
  end.

(** ** Well-formed entries, and the hypotheses on the parameters *)

Definition one_line (s : pystr) : Prop := newline ∉ s.

Record entry_ok (r : AuditRow) : Prop := {
  eo_id : uuid_ok (al_id r);
  eo_organization : uuid_ok (al_organization_id r);
  eo_actor : ∀ u, al_actor_user_id r = Some u → uuid_ok u;
  eo_action : al_action r ∈ ACTIONS;
  eo_type : one_line (al_resource_type r);
  eo_resource : ∀ s, al_resource_id r = Some s → one_line s
}.

(** SHA-256 gives bytes; compact JSON has no line break. *)
Record lib_ok : Prop := {
  lo_digest : ∀ a, sha256 a ≠ [];
  lo_one_line : ∀ d, newline ∉ encode_json d
}.

(** What [verify] hashes on its walk. *)
Fixpoint payloads (rows : list AuditRow) (previous : option (list N)) : list (list N) :=
  match rows with
  | [] => []
  | r :: rows => payload r previous :: payloads rows (Some (al_entry_hash r))
  end.

(** No two of some payloads collide, and no two of some details have the same JSON. *)
Definition collision_free (l : list (list N)) : Prop := ∀ a b, a ∈ l → b ∈ l → sha256 a = sha256 b → a = b.
Definition encoded_apart (rows : list AuditRow) : Prop :=
  ∀ r r', r ∈ rows → r' ∈ rows → encode_json (sorted_items (al_detail r)) = encode_json (sorted_items (al_detail r')) →
    sorted_items (al_detail r) = sorted_items (al_detail r').

(** Two entries that say the same of everything but their time: who did what to which
    resource, and the detail up to the order of its keys.  A missing resource id reads like
    an empty one. *)
Record same_record (r r' : AuditRow) : Prop := {
  sr_id : al_id r = al_id r';
  sr_organization : al_organization_id r = al_organization_id r';
  sr_actor : al_actor_user_id r = al_actor_user_id r';
  sr_action : al_action r = al_action r';
  sr_type : al_resource_type r = al_resource_type r';
  sr_resource : default [] (al_resource_id r) = default [] (al_resource_id r');
  sr_detail : sorted_items (al_detail r) = sorted_items (al_detail r');
  sr_hash : al_entry_hash r = al_entry_hash r'
}.

(** ** Lemmas *)

Lemma utf8_one_line c : c ≠ newline → newline ∉ utf8 c.
Proof.
  unfold utf8, newline. intros Hc.
  assert (∀ k x : N, (10 < k)%N → 10%N ≠ (k + x)%N) as Hk by lia.
  repeat match goal with |- context [if ?b then _ else _] => destruct b end;
    rewrite ?not_elem_of_cons; split_and?; try (by apply not_elem_of_nil);
    try (by apply not_eq_sym); by apply Hk.
Qed.

(** The four six-bit digits of a code point, the first of any size. *)
Lemma six_bits c : ∃ a b d e : N,
  c = (a * 262144 + b * 4096 + d * 64 + e)%N ∧ (b < 64 ∧ d < 64 ∧ e < 64 ∧
  c / 64 = a * 4096 + b * 64 + d ∧ c / 4096 = a * 64 + b ∧ c / 262144 = a ∧
  c mod 64 = e ∧ (c / 64) mod 64 = d ∧ (c / 4096) mod 64 = b)%N.
Proof.
  exists (c / 262144)%N, ((c / 4096) mod 64)%N, ((c / 64) mod 64)%N, (c mod 64)%N.
  change 262144%N with (64 * 64 * 64)%N. change 4096%N with (64 * 64)%N. rewrite <- !N.Div0.div_div.
  pose proof (N.div_mod c 64 ltac:(done)). pose proof (N.div_mod (c / 64) 64 ltac:(done)).
  pose proof (N.div_mod (c / 64 / 64) 64 ltac:(done)).
  pose proof (N.mod_lt c 64 ltac:(done)). pose proof (N.mod_lt (c / 64) 64 ltac:(done)).
  pose proof (N.mod_lt (c / 64 / 64) 64 ltac:(done)).
  set (e := (c mod 64)%N) in *. set (d := ((c / 64) mod 64)%N) in *. set (b := ((c / 64 / 64) mod 64)%N) in *.
  set (p := (c / 64)%N) in *. set (q := (p / 64)%N) in *. set (a := (q / 64)%N) in *. clearbody a b d e q p.
  split_and!; lia.
Qed.

(** UTF-8 is a prefix code. *)
Lemma utf8_app_inj c c' (x y : list N) : utf8 c ++ x = utf8 c' ++ y → c = c' ∧ x = y.
Proof.
  destruct (six_bits c) as (a & b & d & e & Ec & Hb & Hd & He & E1 & E2 & E3 & E4 & E5 & E6).
  destruct (six_bits c') as (a' & b' & d' & e' & Ec' & Hb' & Hd' & He' & E1' & E2' & E3' & E4' & E5' & E6').
  unfold utf8. rewrite E5, E6, E1, E2, E3, E4, E5', E6', E1', E2', E3', E4'. clear -Ec Ec' Hb Hd He Hb' Hd' He'.
  destruct (N.ltb_spec c 0x80), (N.ltb_spec c' 0x80); cbn [app];
    repeat match goal with
    | |- context [(?a <? ?b)%N] => destruct (N.ltb_spec a b); cbn [app]
    end; intros E; injection E; clear E; intros; first [split; [lia | assumption] | exfalso; lia].
Qed.

Lemma text_inj s s' : text s = text s' → s = s'.
Proof.
  unfold text. revert s'. induction s as [|c s IH]; intros [|c' s'] E; rewrite ?bind_cons in E; [done | | |].
  - exfalso. unfold utf8 in E. repeat case_match; done.
  - exfalso. unfold utf8 in E. repeat case_match; done.
  - apply utf8_app_inj in E as [-> E]. f_equal. by apply IH.
Qed.

Lemma text_one_line s : one_line s → newline ∉ text s.
Proof.
  unfold text, one_line. intros Hs (c & Hb & Hc)%list_elem_of_bind.
  destruct (decide (c = newline)) as [-> | Hne]; [done |]. by apply (utf8_one_line c Hne).
Qed.

Lemma uuid_one_line u : one_line (str_of_uuid u).
Proof.
  intros Hin. pose proof (str_of_uuid_chars u) as Hf. rewrite Forall_forall in Hf.
  specialize (Hf _ Hin). vm_compute in Hf. naive_solver.
Qed.

Lemma actions_one_line a : a ∈ ACTIONS → one_line a.
Proof.
  assert (Forall (λ a, Forall (λ c, c ≠ newline) a) ACTIONS) as Hall
    by (apply (bool_decide_unpack _); by vm_compute).
  rewrite Forall_forall in Hall. intros Ha Hn. specialize (Hall a Ha).
  rewrite Forall_forall in Hall. by apply (Hall newline Hn).
Qed.

Lemma join_cut (x y r r' : list N) :
  newline ∉ x → newline ∉ y → x ++ [newline] ++ r = y ++ [newline] ++ r' → x = y ∧ r = r'.
Proof.
  revert y. induction x as [|a x IH]; intros [|b y] Hx Hy E; simpl in *.
  - by injection E as ->.
  - injection E as <- _. set_solver.
  - injection E as -> _. set_solver.
  - injection E as -> E. rewrite not_elem_of_cons in Hx, Hy.
    destruct (IH y) as [-> ->]; naive_solver.
Qed.

Lemma join_snoc w ws (a : list N) :
  py_join [newline] ((w :: ws) ++ [a]) = w ++ [newline] ++ py_join [newline] (ws ++ [a]).
Proof. simpl. by destruct ws. Qed.

Lemma join_inj (xs ys : list (list N)) a b :
  Forall (λ x, newline ∉ x) xs → Forall (λ x, newline ∉ x) ys → length xs = length ys →
  py_join [newline] (xs ++ [a]) = py_join [newline] (ys ++ [b]) → xs = ys ∧ a = b.
Proof.
  revert ys. induction xs as [|x xs IH]; intros [|y ys] Hx Hy Hl E; try done.
  apply Forall_cons in Hx as [Hx Hxs]. apply Forall_cons in Hy as [Hy Hys].
  rewrite !join_snoc in E. destruct (join_cut _ _ _ _ Hx Hy E) as [-> E'].
  destruct (IH ys) as [-> ->]; [done | done | by injection Hl | done | done].
Qed.

Lemma hashed_fields_one_line r :
  lib_ok → entry_ok r → Forall (λ x, newline ∉ x) (hashed_fields r).
Proof.
  intros Hl [_ _ _ Ha Ht Hr]. unfold hashed_fields. repeat constructor; try (apply text_one_line).
  - apply uuid_one_line.
  - apply uuid_one_line.
  - destruct (al_actor_user_id r); [apply uuid_one_line | by apply not_elem_of_nil].
  - by apply actions_one_line.
  - done.
  - destruct (al_resource_id r) as [s|]; [by apply Hr | by apply not_elem_of_nil].
  - by apply lo_one_line.
Qed.

Lemma seven_fields {A} (a b c d e f g a' b' c' d' e' f' g' : A) :
  [a; b; c; d; e; f; g] = [a'; b'; c'; d'; e'; f'; g'] → a = a' ∧ b = b' ∧ c = c' ∧ d = d' ∧ e = e' ∧ f = f' ∧ g = g'.
Proof. by intros [= -> -> -> -> -> -> ->]. Qed.

(** The payload of an entry gives back its fields and the hash it is chained to. *)
Lemma payload_inj r r' p p' :
  lib_ok → entry_ok r → entry_ok r' → encoded_apart [r; r'] → al_entry_hash r = al_entry_hash r' →
  payload r p = payload r' p' → same_record r r' ∧ default [] p = default [] p'.
Proof.
  intros Hl Hr Hr' He Hh E.
  destruct (join_inj (hashed_fields r) (hashed_fields r') (default [] p) (default [] p')) as [E' Ep]; [exact (hashed_fields_one_line r Hl Hr) | exact (hashed_fields_one_line r' Hl Hr') | reflexivity | exact E |].
  clear E. rename E' into E.
  split; [| done]. apply seven_fields in E as (Ei & Eo & Ea & Ec & Et & Es & Ed).
  apply text_inj in Ei, Eo, Ea, Ec, Et, Es. destruct Hr as [H1 H2 H3 _ _ _], Hr' as [H1' H2' H3' _ _ _].
  split; [by apply str_of_uuid_inj | by apply str_of_uuid_inj | | done | done | done | apply He; [by left | by right; left | done] | done].
  pose proof str_of_uuid_length as Hlen.
  destruct (al_actor_user_id r) as [u|], (al_actor_user_id r') as [u'|]; [f_equal; apply str_of_uuid_inj; auto | | | done].
  - exfalso. specialize (Hlen u). by rewrite Ea in Hlen.
  - exfalso. specialize (Hlen u'). by rewrite <- Ea in Hlen.
Qed.

(** The hash an entry after these would be chained to. *)
Definition head_after (rows : list AuditRow) (previous : option (list N)) : option (list N) :=
  match last rows with Some r => Some (al_entry_hash r) | None => previous end.

Lemma head_after_cons r rows p : head_after (r :: rows) p = head_after rows (Some (al_entry_hash r)).
Proof. unfold head_after. rewrite last_cons. by destruct (last rows). Qed.

Lemma first_broken_snoc rows r p :
  first_broken (rows ++ [r]) p = None ↔
  first_broken rows p = None ∧ compute_hash r (head_after rows p) = al_entry_hash r.
Proof.
  revert p. induction rows as [|x rows IH]; intros p.
  - unfold head_after. simpl. case_bool_decide; naive_solver.
  - simpl. case_bool_decide; [| naive_solver]. by rewrite IH, head_after_cons.
Qed.

Lemma payloads_snoc rows r p : payloads (rows ++ [r]) p = payloads rows p ++ [payload r (head_after rows p)].
Proof.
  revert p. induction rows as [|x rows IH]; intros p; [done |]. cbn [payloads app]. by rewrite IH, head_after_cons.
Qed.

Lemma collision_free_sub l l' : (∀ x, x ∈ l → x ∈ l') → collision_free l' → collision_free l.
Proof. intros Hs H a b Ha Hb. apply H; by apply Hs. Qed.

Lemma encoded_apart_sub l l' : (∀ x, x ∈ l → x ∈ l') → encoded_apart l' → encoded_apart l.
Proof. intros Hs H a b Ha Hb. apply H; by apply Hs. Qed.

(** A verified entry is not chained to an empty hash. *)
Lemma head_not_empty rows : lib_ok → first_broken rows None = None → head_after rows None ≠ Some [].
Proof.
  intros Hl Hb. destruct rows as [|x rows _] using rev_ind; [done |].
  apply first_broken_snoc in Hb as [_ Hx]. unfold head_after. rewrite last_snoc, <- Hx.
  intros [= E]. by apply (lo_digest Hl) in E.
Qed.

Lemma head_commits rows rows' :
  lib_ok → Forall entry_ok rows → Forall entry_ok rows' →
  collision_free (payloads rows None ++ payloads rows' None) → encoded_apart (rows ++ rows') →
  first_broken rows None = None → first_broken rows' None = None →
  head_after rows None = head_after rows' None → Forall2 same_record rows rows'.
Proof.
  intros Hl. revert rows'. induction rows as [|r rows IH] using rev_ind; intros rows' Ho Ho' Hf He Hb Hb' Hh.
  - destruct rows' as [|r' rows' _] using rev_ind; [constructor |].
    unfold head_after in Hh. by rewrite last_snoc in Hh.
  - destruct rows' as [|r' rows' _] using rev_ind.
    { unfold head_after in Hh. by rewrite last_snoc in Hh. }
    apply Forall_app in Ho as [Ho [Hr _]%Forall_cons].
    apply Forall_app in Ho' as [Ho' [Hr' _]%Forall_cons].
    apply first_broken_snoc in Hb as [Hb Hc]. apply first_broken_snoc in Hb' as [Hb' Hc'].
    unfold head_after in Hh. rewrite !last_snoc in Hh. injection Hh as Hh. rewrite !payloads_snoc in Hf.
    assert (payload r (head_after rows None) = payload r' (head_after rows' None)) as Epay
      by (apply Hf; [rewrite !elem_of_app, list_elem_of_singleton; auto | rewrite !elem_of_app, !list_elem_of_singleton; auto |
          unfold compute_hash in Hc, Hc'; congruence]).
    assert (∀ x, x ∈ [r; r'] → x ∈ (rows ++ [r]) ++ rows' ++ [r']) as Hsub.
    { intros x Hx. rewrite !elem_of_app, !list_elem_of_singleton. rewrite elem_of_cons, list_elem_of_singleton in Hx. tauto. }
    destruct (payload_inj r r' _ _ Hl Hr Hr' (encoded_apart_sub _ _ Hsub He) Hh Epay) as [Hsame Hp].
    apply Forall2_app; [| constructor; [exact Hsame | constructor]]. apply IH; [done | done | | | done | done |].
    + eapply collision_free_sub; [| exact Hf]. intros x. rewrite !elem_of_app. tauto.
    + eapply encoded_apart_sub; [| exact He]. intros x. rewrite !elem_of_app. tauto.
    + pose proof (head_not_empty rows Hl Hb). pose proof (head_not_empty rows' Hl Hb').
      destruct (head_after rows None), (head_after rows' None); simpl in Hp; subst; congruence.
Qed.

Lemma chain_elem db org r : r ∈ chain db org ↔ r ∈ db ∧ al_organization_id r = org.
Proof.
  unfold chain. rewrite merge_sort_Permutation, elem_of_lfilter. unfold of_organization.
  by rewrite bool_decide_eq_true.
Qed.

(** ** Theorems *)


(** The order is total and transitive, and decides between rows with distinct ids. *)
#[local] Instance entry_le_total : Total entry_le.
Proof. intros a b. unfold entry_le. lia. Qed.
#[local] Instance entry_le_trans : Transitive entry_le.
Proof. intros a b c. unfold entry_le. lia. Qed.

Lemma same_entry db a b :
  NoDup (al_id <$> db) → a ∈ db → b ∈ db → al_id a = al_id b → a = b.
Proof.
  intros Hn (i & Hi)%list_elem_of_lookup (j & Hj)%list_elem_of_lookup E.
  assert (i = j) as ->; [| congruence].
  apply (NoDup_lookup _ i j (al_id a) Hn); rewrite list_lookup_fmap, ?Hi, ?Hj; simpl; congruence.
Qed.

Lemma chain_snoc db row :
  NoDup (al_id <$> db ++ [row]) →
  (∀ r, r ∈ db → al_organization_id r = al_organization_id row → entry_le r row) →
  chain (db ++ [row]) (al_organization_id row) = chain db (al_organization_id row) ++ [row].
Proof.
  intros Hn Hle. set (org := al_organization_id row).
  assert (StronglySorted entry_le (chain db org ++ [row])) as Hs.
  { apply StronglySorted_app_2; [| apply StronglySorted_merge_sort; apply _ | repeat constructor].
    intros x y [Hx Hxo]%chain_elem ->%list_elem_of_singleton. by apply Hle. }
  apply (StronglySorted_unique_strong entry_le).
  - intros x y [Hx _]%chain_elem Hy Hxy Hyx. apply (same_entry (db ++ [row])); [done | done | |].
    + rewrite elem_of_app in Hy. destruct Hy as [[Hy _]%chain_elem | Hy]; apply elem_of_app; auto.
    + unfold entry_le in *. lia.
  - apply StronglySorted_merge_sort; apply _.
  - exact Hs.
  - unfold chain. rewrite !merge_sort_Permutation, List.filter_app. simpl.
    unfold of_organization at 2. by rewrite bool_decide_true.
Qed.

(** Appending: an unknown action is refused and changes nothing; any other entry is
    appended at the end of its organisation's chain, which verifies again if it did before,
    with one more entry, and no other organisation's chain changes.  This asks that the
    entry is the newest of its organisation and that the column gives its detail back. *)
Theorem record_extends_the_chain db now id org action rtype rid actor detail :
  NoDup (al_id <$> db) →
  (∀ r, r ∈ db → al_organization_id r = org →
    al_created_at r < now ∨ (al_created_at r = now ∧ (al_id r <= id)%N)) →
  encode_json (sorted_items (jsonb detail)) = encode_json (sorted_items detail) →
  match record db now id org action rtype rid actor detail with
  | Err (UnknownAction a) => a = action ∧ action ∉ ACTIONS
  | Err DuplicateId => id ∈ al_id <$> db
  | Ok (entry, db') =>
      action ∈ ACTIONS ∧ last_hash db' org = Some (ae_entry_hash entry) ∧
      NoDup (al_id <$> db') ∧ (∃ row, chain db' org = chain db org ++ [row] ∧ al_id row = id) ∧
      (lib_ok → vr_intact (verify db org) = true → vr_intact (verify db' org) = true) ∧
      (∀ org', org' ≠ org → verify db' org' = verify db org')
  end.
Proof.
  intros Hn Hle Hj. unfold record. case_bool_decide as Ha; [| done]. cbn [negb raise_if rbind].
  destruct (existsb _ db) eqn:Hd; cbn [raise_if rbind].
  { apply existsb_exists in Hd as (r & Hr & <-%bool_decide_eq_true).
    apply list_elem_of_fmap. exists r. by rewrite list_elem_of_In. }
  set (previous := nonempty_bytes (last_hash db org)).
  set (h := compute_hash _ previous). set (row := Build_AuditRow _ _ _ _ _ _ _ _ h _).
  assert (NoDup (al_id <$> db ++ [row])) as Hn'.
  { rewrite fmap_app, NoDup_app. split_and!; [done | | apply NoDup_singleton].
    intros x (r & -> & Hr)%list_elem_of_fmap Hx%list_elem_of_singleton.
    apply not_true_iff_false in Hd. apply Hd, existsb_exists. exists r.
    rewrite <- list_elem_of_In. split; [done | by apply bool_decide_true]. }
  assert (chain (db ++ [row]) org = chain db org ++ [row]) as Hc
    by (apply (chain_snoc db row); [done | by intros r Hr Ho; apply Hle]).
  split_and!; [done | | done | by exists row | |].
  - unfold last_hash. by rewrite Hc, last_snoc.
  - intros Hl. unfold verify. rewrite Hc.
    destruct (first_broken (chain db org) None) eqn:Hb; [done |]. intros _.
    assert (first_broken (chain db org ++ [row]) None = None) as ->; [| done].
    apply first_broken_snoc. split; [done |].
    assert (head_after (chain db org) None = previous) as ->.
    { unfold previous, last_hash, head_after.
      destruct (chain db org) as [|x l _] using rev_ind; [done |].
      apply first_broken_snoc in Hb as [_ Hx]. rewrite last_snoc. simpl. rewrite <- Hx.
      unfold compute_hash. destruct (sha256 _) eqn:E; [by apply (lo_digest Hl) in E | done]. }
    unfold h, compute_hash, payload, hashed_fields, row.
    cbn [al_id al_organization_id al_actor_user_id al_action al_resource_type al_resource_id
         al_detail al_entry_hash]. by rewrite Hj.
  - intros org' Hne. unfold verify.
    assert (chain (db ++ [row]) org' = chain db org') as ->; [| done].
    unfold chain. rewrite List.filter_app. cbn [List.filter].
    assert (of_organization org' row = false) as -> by (by apply bool_decide_false, not_eq_sym).
    by rewrite app_nil_r.
Qed.
End AuditLog.

(** ** Witnesses *)

(** A library in which the digest of a payload is the payload itself, marked. *)
Definition toy_audit : AuditLib :=
  {| sha256 b := 1%N :: b; encode_json d := replicate (length d) 44%N; jsonb d := d |}.

Lemma toy_audit_ok : @lib_ok toy_audit.
Proof.
  split; simpl.
  - done.
  - intros d [E _]%elem_of_replicate. discriminate E.
Qed.

Definition ex_append (db : list AuditRow) (now : datetime) (id : uuid) (kind : pystr)
    : list AuditRow :=
  match @record toy_audit db now id 7 (py "app.created") kind None None [] with
  | Ok (_, db) => db
  | Err _ => db
  end.

Definition ex_log : list AuditRow := ex_append (ex_append [] 1 10 (py "app")) 2 11 (py "link").

Lemma ex_log_entries : Forall entry_ok ex_log.
Proof.
  vm_compute ex_log.
  repeat constructor; simpl; try done; try (by apply (bool_decide_unpack _); vm_compute).
Qed.

Lemma record_extends_the_chain_witness :
  vr_intact (@verify toy_audit ex_log 7) = true ∧
  last_hash ex_log 7 = Some (al_entry_hash (default (Build_AuditRow 0 0 None [] [] None []
    None [] 0) (last ex_log))).
Proof.
  pose proof (@record_extends_the_chain toy_audit (ex_append [] 1 10 (py "app")) 2 11 7
    (py "app.created") (py "link") None None []
    ltac:(apply NoDup_singleton)
    ltac:(intros r Hr _; apply list_elem_of_singleton in Hr as ->; left; reflexivity)
    eq_refl) as Hr.
  destruct (@record toy_audit (ex_append [] 1 10 (py "app")) 2 11 7 (py "app.created") (py "link")
    None None []) as [[entry db']|e] eqn:E; [| vm_compute in E; discriminate E].
  destruct Hr as (_ & Hlast & _ & _ & Hv & _).
  assert (db' = ex_log) as -> by (vm_compute in E; apply Ok_inj in E; injection E as _ <-;
    vm_compute; reflexivity).
  split; [apply Hv; [exact toy_audit_ok | vm_compute; reflexivity] |].
  vm_compute. reflexivity.
Defined.


(** ** Where an untouched log does not verify *)

(** Two entries of one instant whose random id bits are in the other order: the second is
    chained to the first, and read before it. *)
Lemma same_instant_breaks_the_chain :
  let db := ex_append (ex_append [] 1 11 (py "app")) 1 10 (py "link") in
  @verify toy_audit db 7 = {| vr_entries := 2; vr_intact := false; vr_broken_at := Some 10%N |}.
Proof. vm_compute. reflexivity. Qed.

(** Two writers that read the same predecessor. *)
Lemma concurrent_writers_break_the_chain :
  let db := ex_append [] 1 10 (py "app") ++ ex_append [] 2 11 (py "link") in
  @verify toy_audit db 7 = {| vr_entries := 2; vr_intact := false; vr_broken_at := Some 11%N |}.
Proof. vm_compute. reflexivity. Qed.

(** The time of an entry is not hashed. *)
Lemma backdating_is_not_detected :
  let backdate r := {| al_id := al_id r; al_organization_id := al_organization_id r;
       al_actor_user_id := al_actor_user_id r; al_action := al_action r;
       al_resource_type := al_resource_type r; al_resource_id := al_resource_id r;
       al_detail := al_detail r; al_previous_hash := al_previous_hash r;
       al_entry_hash := al_entry_hash r; al_created_at := al_created_at r - day |} in
  vr_intact (@verify toy_audit (backdate <$> ex_log) 7) = true.
Proof. vm_compute. reflexivity. Qed.
