(* ===== verification/Counting.v ===== *)
(** * Accepted counts and reconciliation (mmp_ingest/audit.py, mmp_worker/reconcile.py)

    The counter of the tracker with its flush, the hashes of Redis it fills, [drain], and
    the job that compares what was accepted with what was stored.  The tables are lists of
    rows; [pipeline_audit] is a dict on its unique key. *)

From Stdlib Require Import SpecFloat.
From S2P Require Import Prelude Redis Ids Keys Schema Ingest Writer IpAddr Signing.

#[local] Open Scope Z_scope.
#[local] Open Scope mmp_scope.

(** ** Hours *)

Definition ACCEPTED_PREFIX : pystr := py "audit:accepted:".
Definition ACCEPTED_TTL : timedelta := 2 * day.

Definition hour_of (t : datetime) : datetime := t - t mod hour.

(** [_key]: [%Y%m%d%H]. *)
Definition accepted_key (bucket : datetime) : pystr :=
  let '(y, m, d) := civil (bucket / day) in
  ACCEPTED_PREFIX ++ py_str_int y ++ pad 2 (py_str_int m) ++ pad 2 (py_str_int d) ++
  pad 2 (py_str_int (bucket mod day / hour)).

(** ** Redis hashes *)

Abbreviation hashes := (store (list (list N * Z))).

Inductive command :=
| HIncrBy (key field : pystr) (n : Z)
| Expire (key : pystr) (seconds : Z).

(** [HINCRBY] keeps the expiry of a live key. *)
Definition run_command (now : datetime) (m : hashes) (c : command) : hashes :=
  match c with
  | HIncrBy key field n =>
      let old := peek now key m in
      let fields := default [] (e_value <$> old) in
      <[key := Entry (od_set field (default 0 (od_get field fields) + n) fields) (old ≫= e_expiry)]> m
  | Expire key seconds => rexpire now key seconds m
  end.

Definition run_commands (now : datetime) (cs : list command) (m : hashes) : hashes :=
  fold_left (run_command now) cs m.

(** The pipeline of [flush]. *)
Definition flush_commands (batch : counter) : list command :=
  batch ≫= λ p, [HIncrBy (accepted_key (snd (fst p))) (fst (fst p)) (snd p);
                 Expire (accepted_key (snd (fst p))) (int_total_seconds ACCEPTED_TTL)].

(** Putting a batch back. *)
Definition put_back (batch pending : counter) : counter :=
  fold_left (λ c p, od_set (fst p) (default 0 (od_get (fst p) c) + snd p) c) batch pending.

(** ** The counter and its flushes

    A flush takes the counts out, and its pipeline then runs to the end, or fails after
    the server has run some of it.  Requests count in between.  The last two fields are
    kept for the theorem: what was counted, and what failed pipelines had run. *)
Record CounterState := {
  ct_pending : counter;
  ct_flights : list counter;
  ct_redis : hashes;
  ct_counted : counter;
  ct_repeated : counter
}.

Definition counter0 : CounterState :=
  {| ct_pending := []; ct_flights := []; ct_redis := ∅; ct_counted := []; ct_repeated := [] |}.

(** The counts of a command list. *)
Fixpoint increments (batch : counter) (n : nat) : counter :=
  match batch, n with
  | p :: batch, S n => p :: increments batch (pred n)
  | _, _ => []
  end.

Inductive counter_step : datetime → CounterState → CounterState → Prop :=
| count_step now app n s :
    counter_step now s
      {| ct_pending := count_accepted (ct_pending s) app n now; ct_flights := ct_flights s;
         ct_redis := ct_redis s; ct_counted := count_accepted (ct_counted s) app n now;
         ct_repeated := ct_repeated s |}
| flush_start now s :
    ct_pending s ≠ [] →
    counter_step now s
      {| ct_pending := []; ct_flights := ct_pending s :: ct_flights s; ct_redis := ct_redis s;
         ct_counted := ct_counted s; ct_repeated := ct_repeated s |}
| flush_done now s f1 batch f2 :
    ct_flights s = f1 ++ batch :: f2 →
    counter_step now s
      {| ct_pending := ct_pending s; ct_flights := f1 ++ f2;
         ct_redis := run_commands now (flush_commands batch) (ct_redis s);
         ct_counted := ct_counted s; ct_repeated := ct_repeated s |}
| flush_failed now s f1 batch f2 n :
    ct_flights s = f1 ++ batch :: f2 →
    counter_step now s
      {| ct_pending := put_back batch (ct_pending s); ct_flights := f1 ++ f2;
         ct_redis := run_commands now (take n (flush_commands batch)) (ct_redis s);
         ct_counted := ct_counted s;
         ct_repeated := put_back (increments batch n) (ct_repeated s) |}.

(** ** [drain] *)

Definition drain (now : datetime) (hours : nat) (m : hashes) : counter :=
  fold_left (λ counts offset,
      let bucket := hour_of now - Z.of_nat offset * hour in
      fold_left (λ counts p, od_set (fst p, bucket) (snd p) counts)
        (default [] (rget now (accepted_key bucket) m)) counts)
    (seq 0 (S hours)) [].

(** ** Lemmas: the key names its hour *)

(** The inverse of [civil], and that it is one from 2020 to 2099. *)
Definition days_of_civil (y m d : Z) : Z :=
  let y := if m <=? 2 then y - 1 else y in
  let era := y / 400 in
  let yoe := y - era * 400 in
  let doy := (153 * (if m >? 2 then m - 3 else m + 9) + 2) / 5 + d - 1 in
  era * 146097 + (yoe * 365 + yoe / 4 - yoe / 100 + doy) - 719468.

Definition FIRST_DAY : Z := 18262.
Definition LAST_DAY : Z := 47482.

Definition day_ok (days : Z) : bool :=
  let '(y, m, d) := civil days in
  (1000 <=? y) && (y <=? 9999) && (0 <=? m) && (m <? 100) && (0 <=? d) && (d <? 100) &&
  (days_of_civil y m d =? days).

Fixpoint all_from (p : Z → bool) (n : nat) (z : Z) : bool :=
  match n with O => true | S n => p z && all_from p n (z + 1) end.

Lemma all_from_ok p n z x : all_from p n z = true → z <= x < z + Z.of_nat n → p x = true.
Proof.
  revert z. induction n as [|n IH]; intros z Hall Hx; [lia |]. cbn in Hall.
  apply andb_true_iff in Hall as [Hz Hall]. destruct (decide (x = z)) as [->|]; [done |].
  apply (IH (z + 1)); [done | lia].
Qed.

Lemma civil_inverse days :
  FIRST_DAY <= days < LAST_DAY →
  let '(y, m, d) := civil days in
  1000 <= y <= 9999 ∧ 0 <= m < 100 ∧ 0 <= d < 100 ∧ days_of_civil y m d = days.
Proof.
  intros Hd. assert (day_ok days = true) as Hok.
  { apply (all_from_ok day_ok (Z.to_nat (LAST_DAY - FIRST_DAY)) FIRST_DAY);
      [vm_compute; reflexivity | unfold LAST_DAY, FIRST_DAY in *; lia]. }
  unfold day_ok in Hok. destruct (civil days) as [[y m] d]. bprop. lia.
Qed.

Definition two_digits_ok (x : Z) : bool :=
  (length (pad 2 (py_str_int x)) =? 2)%nat && (Z.of_N (dec_value 0 (pad 2 (py_str_int x))) =? x).
Definition four_digits_ok (x : Z) : bool :=
  (length (py_str_int x) =? 4)%nat && (Z.of_N (dec_value 0 (py_str_int x)) =? x).

Lemma two_digits x : 0 <= x < 100 →
  length (pad 2 (py_str_int x)) = 2%nat ∧ Z.of_N (dec_value 0 (pad 2 (py_str_int x))) = x.
Proof.
  intros Hx. assert (two_digits_ok x = true) as Hok
    by (apply (all_from_ok two_digits_ok 100 0); [vm_compute; reflexivity | lia]).
  unfold two_digits_ok in Hok. bprop. split; [by apply Nat.eqb_eq | done].
Qed.

Lemma four_digits x : 1000 <= x <= 9999 →
  length (py_str_int x) = 4%nat ∧ Z.of_N (dec_value 0 (py_str_int x)) = x.
Proof.
  intros Hx. assert (four_digits_ok x = true) as Hok
    by (apply (all_from_ok four_digits_ok (Z.to_nat 9000) 1000); [vm_compute; reflexivity | lia]).
  unfold four_digits_ok in Hok. bprop. split; [by apply Nat.eqb_eq | done].
Qed.

(** A bucket: a whole hour of those years. *)
Definition is_bucket (b : datetime) : Prop := FIRST_DAY * day <= b < LAST_DAY * day ∧ b mod hour = 0.

Lemma accepted_key_inj b b' :
  is_bucket b → is_bucket b' → accepted_key b = accepted_key b' → b = b'.
Proof.
  intros [Hb Hm] [Hb' Hm'] E. unfold accepted_key in E.
  assert (0 < day) as Hday by (by vm_compute). assert (0 < hour) as Hhour by (by vm_compute).
  assert (∀ x, FIRST_DAY * day <= x < LAST_DAY * day → FIRST_DAY <= x / day < LAST_DAY) as Hdays.
  { intros x Hx. split; [apply Z.div_le_lower_bound | apply Z.div_lt_upper_bound]; lia. }
  assert (∀ x, 0 <= x mod day / hour < 100) as Hh.
  { intros x. pose proof (Z.mod_pos_bound x day Hday).
    split; [apply Z.div_pos; lia |]. apply Z.div_lt_upper_bound; [done |]. change day with (24 * hour) in *. lia. }
  pose proof (civil_inverse _ (Hdays b Hb)) as C1. pose proof (civil_inverse _ (Hdays b' Hb')) as C2.
  destruct (civil (b / day)) as [[y m] d], (civil (b' / day)) as [[y' m'] d'].
  destruct C1 as (Y1 & M1 & D1 & I1), C2 as (Y2 & M2 & D2 & I2).
  apply app_inv_head in E.
  destruct (four_digits y Y1) as [Ly Vy], (four_digits y' Y2) as [Ly' Vy'].
  destruct (two_digits m M1) as [Lm Vm], (two_digits m' M2) as [Lm' Vm'].
  destruct (two_digits d D1) as [Ld Vd], (two_digits d' D2) as [Ld' Vd'].
  destruct (two_digits _ (Hh b)) as [Lh Vh], (two_digits _ (Hh b')) as [Lh' Vh'].
  apply app_inj_1 in E as [Ey E]; [| congruence]. apply app_inj_1 in E as [Em E]; [| congruence].
  apply app_inj_1 in E as [Ed Eh]; [| congruence].
  assert (b / day = b' / day) as Eday.
  { rewrite <- I1, <- I2. rewrite <- Vy, <- Vy', <- Vm, <- Vm', <- Vd, <- Vd'. by rewrite Ey, Em, Ed. }
  assert (b mod day / hour = b' mod day / hour) as Ehour by (rewrite <- Vh, <- Vh'; by rewrite Eh).
  assert (∀ x, x mod hour = 0 → x = day * (x / day) + hour * (x mod day / hour)) as Hsplit.
  { intros x Hx. rewrite (Z.div_mod x day) at 1 by lia. f_equal.
    assert ((x mod day) mod hour = 0) as Hz.
    { rewrite <- Hx. rewrite (Z.div_mod x day) at 2 by lia.
      replace (day * (x / day) + x mod day) with (x mod day + (24 * (x / day)) * hour)
        by (change day with (24 * hour); lia).
      by rewrite Z.mod_add by lia. }
    rewrite (Z.div_mod (x mod day) hour) at 1 by lia. lia. }
  rewrite (Hsplit b Hm), (Hsplit b' Hm'), Eday, Ehour. done.
Qed.

(** ** Lemmas: amounts *)

Definition amount (c : counter) (k : pystr * datetime) : Z := default 0 (od_get k c).

(** The sum of a batch for a key. *)
Definition batch_amount (batch : counter) (k : pystr * datetime) : Z :=
  foldr (λ p acc, (if decide (fst p = k) then snd p else 0) + acc) 0 batch.

(** What Redis holds for a key, whatever its expiry. *)
Definition redis_amount (m : hashes) (k : pystr * datetime) : Z :=
  default 0 (od_get (fst k) (default [] (e_value <$> m !! accepted_key (snd k)))).

Lemma batch_amount_cons p batch k :
  batch_amount (p :: batch) k = (if decide (fst p = k) then snd p else 0) + batch_amount batch k.
Proof. done. Qed.

Lemma batch_amount_nil k : batch_amount [] k = 0.
Proof. done. Qed.

Lemma put_back_cons p batch c :
  put_back (p :: batch) c = put_back batch (od_set (fst p) (default 0 (od_get (fst p) c) + snd p) c).
Proof. done. Qed.

#[local] Arguments batch_amount : simpl never.
#[local] Arguments put_back : simpl never.

Lemma batch_amount_absent batch k : k ∉ fst <$> batch → batch_amount batch k = 0.
Proof.
  induction batch as [|p batch IH]; [done |]. rewrite fmap_cons, not_elem_of_cons. intros [Hp Hb].
  rewrite batch_amount_cons, decide_False by congruence. by rewrite IH.
Qed.

Lemma amount_sum c k : NoDup (fst <$> c) → batch_amount c k = amount c k.
Proof.
  induction c as [|[k' v] c IH]; [done |]. rewrite fmap_cons. intros [Hk Hn]%NoDup_cons.
  rewrite batch_amount_cons. unfold amount in *. cbn in *. destruct (decide (k' = k)) as [->|Hne].
  - rewrite decide_True by done. cbn. rewrite batch_amount_absent by done. lia.
  - rewrite (decide_False (P := k = k')) by congruence. rewrite IH by done. lia.
Qed.

Lemma put_back_amount batch c k : amount (put_back batch c) k = amount c k + batch_amount batch k.
Proof.
  revert c. induction batch as [|p batch IH]; intros c; [change (amount c k = amount c k + 0); lia |].
  rewrite put_back_cons, batch_amount_cons, IH. unfold amount. rewrite od_get_set.
  destruct (decide (k = fst p)) as [->|Hne].
  - rewrite decide_True by done. cbn. lia.
  - rewrite decide_False by congruence. lia.
Qed.

Lemma put_back_NoDup batch c : NoDup (fst <$> c) → NoDup (fst <$> put_back batch c).
Proof.
  revert c. induction batch as [|p batch IH]; intros c Hc; [done |].
  rewrite put_back_cons. by apply IH, od_set_NoDup.
Qed.

Lemma put_back_keys batch c k : k ∈ fst <$> put_back batch c → k ∈ fst <$> c ∨ k ∈ fst <$> batch.
Proof.
  revert c. induction batch as [|p batch IH]; intros c Hk; [by left |]. rewrite put_back_cons in Hk.
  apply IH in Hk as [(q & -> & Hq)%list_elem_of_fmap|Hk]; [| right; by right].
  apply od_set_elem in Hq as [->|Hq]; [right; by left |].
  left. apply list_elem_of_fmap. by exists q.
Qed.

Lemma count_accepted_amount c app n now k :
  amount (count_accepted c app n now) k =
  amount c k + (if decide (k = (app, hour_of now)) then Z.max n 0 else 0).
Proof.
  unfold count_accepted. destruct (Z.leb_spec n 0); [destruct (decide _); lia |].
  unfold amount. rewrite od_get_set. fold (hour_of now). destruct (decide (k = _)) as [->|]; cbn; lia.
Qed.

Lemma count_accepted_keys c app n now k :
  k ∈ fst <$> count_accepted c app n now → k = (app, hour_of now) ∨ k ∈ fst <$> c.
Proof.
  unfold count_accepted. destruct (n <=? 0); [by right |].
  intros (q & -> & [->|Hq]%od_set_elem)%list_elem_of_fmap; [by left |].
  right. apply list_elem_of_fmap. by exists q.
Qed.

Lemma count_accepted_NoDup c app n now : NoDup (fst <$> c) → NoDup (fst <$> count_accepted c app n now).
Proof. unfold count_accepted. destruct (n <=? 0); [done | apply od_set_NoDup]. Qed.

(** ** Lemmas: pipelines *)

(** No hash of the store expires before [until], and its fields are distinct. *)
Definition lasts (until : datetime) (m : hashes) : Prop :=
  ∀ k e, m !! k = Some e → NoDup (fst <$> e_value e) ∧ ∀ t, e_expiry e = Some t → until <= t.

Lemma lasts_peek until now k m : lasts until m → now < until → peek now k m = m !! k.
Proof.
  intros Hl Hn. unfold peek. destruct (m !! k) as [e|] eqn:E; [| done]. unfold live.
  destruct (e_expiry e) as [t|] eqn:Et; [| done]. apply Hl in E as [_ Hl']. specialize (Hl' t Et).
  by rewrite (proj2 (Z.ltb_lt now t)) by lia.
Qed.

Section Pipeline.
Variables (until now : datetime).
Hypothesis Hnow : until <= now + ACCEPTED_TTL ∧ now < until.

Lemma lasts_command m c :
  match c with Expire _ s => s = int_total_seconds ACCEPTED_TTL | _ => True end →
  lasts until m → lasts until (run_command now m c).
Proof.
  intros Hc Hl. assert (int_total_seconds ACCEPTED_TTL * second = ACCEPTED_TTL) as Ht by (by vm_compute).
  destruct c as [key field n|key s]; cbn [run_command].
  - rewrite (lasts_peek until) by (done || lia). intros k e. destruct (decide (k = key)) as [->|Hne].
    + rewrite lookup_insert_eq. intros [= <-]. cbn. destruct (m !! key) as [e0|] eqn:E; cbn.
      * destruct (Hl _ _ E) as [Hd He]. split; [by apply (od_set_NoDup field) | exact He].
      * split; [apply NoDup_singleton | done].
    + rewrite lookup_insert_ne by done. apply Hl.
  - unfold rexpire. rewrite (lasts_peek until) by (done || lia). subst s.
    destruct (m !! key) as [e0|] eqn:E; [| done]. intros k e. destruct (decide (k = key)) as [->|Hne].
    + rewrite lookup_insert_eq. intros [= <-]. cbn. destruct (Hl _ _ E) as [Hd _]. split; [done |].
      intros t [= <-]. rewrite Ht. lia.
    + rewrite lookup_insert_ne by done. apply Hl.
Qed.

Lemma incr_amount m app b n k :
  lasts until m → is_bucket b → is_bucket (snd k) →
  redis_amount (run_command now m (HIncrBy (accepted_key b) app n)) k =
  redis_amount m k + (if decide ((app, b) = k) then n else 0).
Proof.
  intros Hl Hb Hk. destruct k as [app' b']. cbn [snd] in Hk. unfold redis_amount. cbn [run_command fst snd].
  rewrite (lasts_peek until) by (done || lia). destruct (decide (b' = b)) as [->|Hne].
  - rewrite lookup_insert_eq. cbn. rewrite od_get_set.
    destruct (decide (app' = app)) as [->|Ha]; [rewrite decide_True by done | rewrite decide_False by congruence];
      cbn; lia.
  - rewrite lookup_insert_ne by (intros E; apply Hne; symmetry; by apply accepted_key_inj).
    rewrite decide_False by congruence. lia.
Qed.

Lemma expire_amount m key s k : lasts until m → redis_amount (run_command now m (Expire key s)) k = redis_amount m k.
Proof.
  intros Hl. unfold redis_amount. cbn [run_command]. unfold rexpire. rewrite (lasts_peek until) by (done || lia).
  destruct (m !! key) as [e|] eqn:E; [| done]. destruct (decide (accepted_key (snd k) = key)) as [<-|Hne].
  - by rewrite lookup_insert_eq, E.
  - by rewrite lookup_insert_ne.
Qed.

(** What [n] commands of a pipeline do. *)
Lemma pipeline_amount batch n m k :
  lasts until m → Forall (λ p, is_bucket (snd (fst p))) batch → is_bucket (snd k) →
  lasts until (run_commands now (take n (flush_commands batch)) m) ∧
  redis_amount (run_commands now (take n (flush_commands batch)) m) k =
  redis_amount m k + batch_amount (increments batch n) k.
Proof.
  intros Hl Hf Hk. revert n m Hl. induction Hf as [|[[ap b] v] batch Hb _ IH]; intros n m Hl.
  { unfold flush_commands. cbn [mbind list_bind]. rewrite take_nil. split; [done |].
    destruct n; cbn; rewrite batch_amount_nil; lia. }
  cbn in Hb. destruct n as [|n]; [cbn; rewrite batch_amount_nil; split; [done | lia] |].
  unfold flush_commands in *. rewrite bind_cons. cbn [app take]. unfold run_commands in *. cbn [fold_left].
  assert (lasts until (run_command now m (HIncrBy (accepted_key b) ap v))) as Hl1 by (by apply lasts_command).
  destruct n as [|n]; cbn [take fold_left increments pred].
  - cbn [fst snd]. split; [done |]. rewrite incr_amount, batch_amount_cons by done. cbn [fst snd].
    destruct batch; cbn; rewrite batch_amount_nil; lia.
  - cbn [fst snd]. destruct (IH n (run_command now (run_command now m (HIncrBy (accepted_key b) ap v))
      (Expire (accepted_key b) (int_total_seconds ACCEPTED_TTL)))) as [L E]; [by apply lasts_command |].
    split; [exact L |]. rewrite E, expire_amount, incr_amount, batch_amount_cons by done. cbn [fst snd]. lia.
Qed.
End Pipeline.

Lemma increments_all batch n : (2 * length batch <= n)%nat → increments batch n = batch.
Proof.
  revert n. induction batch as [|p batch IH]; intros n Hn; [by destruct n |]. cbn in Hn.
  destruct n as [|n]; [lia |]. cbn. rewrite IH by lia. done.
Qed.

Lemma flush_commands_length batch : length (flush_commands batch) = (2 * length batch)%nat.
Proof. induction batch as [|p batch IH]; [done |]. unfold flush_commands in *. rewrite bind_cons, length_app, IH. cbn. lia. Qed.

(** ** Conservation *)

Section Conservation.
Variable t0 : datetime.
Hypothesis Hera : FIRST_DAY * day <= t0 ∧ t0 + ACCEPTED_TTL <= LAST_DAY * day.

(** Any step at an instant of the two days that follow [t0]. *)
Definition timely_step (s s' : CounterState) : Prop :=
  ∃ now, t0 <= now < t0 + ACCEPTED_TTL ∧ counter_step now s s'.

Definition in_flight (s : CounterState) (k : pystr * datetime) : Z :=
  foldr (λ c acc, amount c k + acc) 0 (ct_flights s).

Definition good_counter (c : counter) : Prop :=
  NoDup (fst <$> c) ∧ (∀ k, k ∈ fst <$> c → is_bucket (snd k)) ∧ (∀ k, 0 <= amount c k).

Record counter_ok (s : CounterState) : Prop := {
  co_pending : good_counter (ct_pending s);
  co_flights : Forall good_counter (ct_flights s);
  co_lasts : lasts (t0 + ACCEPTED_TTL) (ct_redis s);
  co_repeated : ∀ k, 0 <= amount (ct_repeated s) k;
  co_sum : ∀ k, is_bucket (snd k) →
    redis_amount (ct_redis s) k + amount (ct_pending s) k + in_flight s k =
    amount (ct_counted s) k + amount (ct_repeated s) k
}.

Lemma in_flight_app f1 c f2 k :
  foldr (λ c acc, amount c k + acc) 0 (f1 ++ c :: f2) =
  amount c k + foldr (λ c acc, amount c k + acc) 0 (f1 ++ f2).
Proof. induction f1 as [|x f1 IH]; [done |]. cbn [app foldr]. rewrite IH. lia. Qed.

Lemma hour_of_bucket now : t0 <= now < t0 + ACCEPTED_TTL → is_bucket (hour_of now).
Proof.
  intros Hn. assert (0 < hour) as Hh by (by vm_compute). pose proof (Z.mod_pos_bound now hour Hh).
  assert (hour_of now = hour * (now / hour)) as E.
  { unfold hour_of. pose proof (Z.div_mod now hour ltac:(lia)). lia. }
  split; [| rewrite E, Z.mul_comm; apply Z.mod_mul; lia]. split; [| unfold hour_of; lia].
  rewrite E. change (FIRST_DAY * day) with (hour * (FIRST_DAY * 24)) in *.
  apply Z.mul_le_mono_nonneg_l; [lia |]. apply Z.div_le_lower_bound; lia.
Qed.

Lemma good_counted c app n now :
  t0 <= now < t0 + ACCEPTED_TTL → good_counter c → good_counter (count_accepted c app n now).
Proof.
  intros Hn (Hd & Hb & Hp). split; [by apply count_accepted_NoDup |]. split.
  - intros k [->|Hk]%count_accepted_keys; [by apply hour_of_bucket | by apply Hb].
  - intros k. rewrite count_accepted_amount. specialize (Hp k). destruct (decide _); lia.
Qed.

Lemma good_batch c : good_counter c → Forall (λ p, is_bucket (snd (fst p))) c.
Proof.
  intros (_ & Hb & _). apply Forall_forall. intros p Hp. apply Hb, list_elem_of_fmap. by exists p.
Qed.

(** A failed pipeline repeats no more than its batch. *)
Lemma good_put_back batch c : good_counter batch → good_counter c → good_counter (put_back batch c).
Proof.
  intros (Hd & Hb & Hp) (Hd' & Hb' & Hp'). split; [by apply put_back_NoDup |]. split.
  - intros k [Hk|Hk]%put_back_keys; [by apply Hb' | by apply Hb].
  - intros k. rewrite put_back_amount, amount_sum by done. specialize (Hp k). specialize (Hp' k). lia.
Qed.

Lemma increments_amount batch n k : good_counter batch → 0 <= batch_amount (increments batch n) k.
Proof.
  intros (Hd & _ & Hp). assert (Forall (λ p, 0 <= snd p) batch) as Hf.
  { apply Forall_forall. intros [x v] Hx. specialize (Hp x). unfold amount in Hp.
    destruct (od_elem_get x v batch Hx) as [v' E]. rewrite E in Hp.
    assert (v = v') as ->; [| exact Hp]. apply od_get_elem in E. by eapply NoDup_fst_functional. }
  clear Hd Hp. revert n. induction Hf as [|p batch Hv _ IH]; intros n; [by destruct n |].
  destruct n as [|n]; [done |]. cbn [increments]. rewrite batch_amount_cons.
  specialize (IH (pred n)). destruct (decide _); lia.
Qed.

Local Ltac ct := cbn [ct_pending ct_flights ct_redis ct_counted ct_repeated] in *.

Lemma counter_ok_step s s' : timely_step s s' → counter_ok s → counter_ok s'.
Proof.
  intros (now & Hn & Hs) [Hp Hf Hl Hr Hsum].
  assert (t0 + ACCEPTED_TTL <= now + ACCEPTED_TTL ∧ now < t0 + ACCEPTED_TTL) as Hnow by lia.
  destruct Hs as [now app n s|now s Hne|now s f1 batch f2 Ef|now s f1 batch f2 n Ef].
  - split; ct; [by apply good_counted | done | done | done |]. intros k Hk. specialize (Hsum k Hk).
    rewrite !count_accepted_amount. unfold in_flight in *. ct. lia.
  - split; ct; [| by constructor | done | done |].
    + split; [constructor | split; [by intros k ?%elem_of_nil | done]].
    + intros k Hk. specialize (Hsum k Hk). unfold in_flight in *. ct. cbn [foldr]. change (amount [] k) with 0. lia.
  - rewrite Ef in Hf. apply Forall_app in Hf as [Hf1 [Hb Hf2]%Forall_cons].
    assert (∀ k, is_bucket (snd k) → lasts (t0 + ACCEPTED_TTL) (run_commands now (flush_commands batch) (ct_redis s)) ∧
      redis_amount (run_commands now (flush_commands batch) (ct_redis s)) k = redis_amount (ct_redis s) k + amount batch k) as Hrun.
    { intros k Hk. pose proof (pipeline_amount (t0 + ACCEPTED_TTL) now Hnow batch (length (flush_commands batch))
        (ct_redis s) k Hl (good_batch _ Hb) Hk) as Hx.
      rewrite firstn_all, flush_commands_length, increments_all, amount_sum in Hx by (apply Hb || lia). exact Hx. }
    split; ct; [done | by apply Forall_app | | done |].
    + by apply (Hrun ([], hour_of t0)), hour_of_bucket; lia.
    + intros k Hk. specialize (Hsum k Hk). destruct (Hrun k Hk) as [_ ->]. unfold in_flight in *.
      rewrite Ef, in_flight_app in Hsum. ct. lia.
  - rewrite Ef in Hf. apply Forall_app in Hf as [Hf1 [Hb Hf2]%Forall_cons].
    pose proof (λ k, pipeline_amount (t0 + ACCEPTED_TTL) now Hnow batch n (ct_redis s) k Hl (good_batch _ Hb)) as Hrun.
    split; ct; [by apply good_put_back | by apply Forall_app | | |].
    + by apply (Hrun ([], hour_of t0)), hour_of_bucket; lia.
    + intros k. rewrite put_back_amount. pose proof (increments_amount batch n k Hb). specialize (Hr k). lia.
    + intros k Hk. specialize (Hsum k Hk). destruct (Hrun k Hk) as [_ ->]. rewrite !put_back_amount.
      rewrite (amount_sum batch) by apply Hb. unfold in_flight in *.
      rewrite Ef, in_flight_app in Hsum. ct. lia.
Qed.

Lemma counter_ok_run s : rtc timely_step counter0 s → counter_ok s.
Proof.
  intros Hr. assert (counter_ok counter0) as H0.
  { split; cbn; [| constructor | | done | done].
    - split; [constructor | split; [by intros k ?%elem_of_nil | done]].
    - intros k e. by rewrite lookup_empty. }
  revert H0. induction Hr as [|s1 s2 s3 Hs _ IH]; [done |]. intros H1. by eapply IH, counter_ok_step.
Qed.

(** No accepted event escapes the audit.  However requests, flushes and failing
    pipelines interleave, for every app and hour what Redis holds, what is pending and
    what is in flight add up to what was counted and what failed pipelines had already
    pushed before their batch was put back: never less than was counted. *)
Theorem counts_are_conserved s k :
  rtc timely_step counter0 s → is_bucket (snd k) →
  redis_amount (ct_redis s) k + amount (ct_pending s) k + in_flight s k =
  amount (ct_counted s) k + amount (ct_repeated s) k ∧ 0 <= amount (ct_repeated s) k.
Proof. intros [_ _ _ Hr Hs]%counter_ok_run Hk. split; [by apply Hs | apply Hr]. Qed.

(** ** Draining *)

Lemma drain_bucket (fields : list (pystr * Z)) (b : datetime) (counts : counter) (k : pystr * datetime) :
  NoDup (fst <$> fields) →
  od_get k (fold_left (λ counts p, od_set (fst p, b) (snd p) counts) fields counts) =
  if decide (snd k = b) then
    match od_get (fst k) fields with Some v => Some v | None => od_get k counts end
  else od_get k counts.
Proof.
  destruct k as [a b']. cbn [fst snd]. revert counts.
  induction fields as [|[a0 v0] fields IH]; intros counts Hn; cbn; [by destruct (decide _) |].
  rewrite fmap_cons in Hn. apply NoDup_cons in Hn as [Ha Hn]. rewrite IH by done. rewrite od_get_set.
  destruct (decide (b' = b)) as [->|Hb].
  - destruct (decide (a = a0)) as [->|Hne].
    + rewrite decide_True by done. destruct (od_get a0 fields) as [v|] eqn:E; [| done].
      exfalso. apply Ha, list_elem_of_fmap. exists (a0, v). split; [done | by apply od_get_elem].
    + rewrite (decide_False (P := (a, b) = (a0, b))) by congruence. done.
  - rewrite decide_False by congruence. done.
Qed.

(** The loop of [drain] over the offsets. *)
Definition drain_from (now : datetime) (m : hashes) (offsets : list nat) (counts : counter) : counter :=
  fold_left (λ counts offset,
      let bucket := hour_of now - Z.of_nat offset * hour in
      fold_left (λ counts p, od_set (fst p, bucket) (snd p) counts)
        (default [] (rget now (accepted_key bucket) m)) counts) offsets counts.

Lemma drain_from_cons now m j offsets counts :
  drain_from now m (j :: offsets) counts =
  drain_from now m offsets
    (fold_left (λ counts p, od_set (fst p, hour_of now - Z.of_nat j * hour) (snd p) counts)
      (default [] (rget now (accepted_key (hour_of now - Z.of_nat j * hour)) m)) counts).
Proof. done. Qed.

Lemma drain_from_get now m offsets counts i a :
  lasts (t0 + ACCEPTED_TTL) m → t0 <= now < t0 + ACCEPTED_TTL → NoDup offsets →
  let k := (a, hour_of now - Z.of_nat i * hour) in
  od_get k (drain_from now m offsets counts) =
  if decide (i ∈ offsets) then
    match od_get a (default [] (e_value <$> m !! accepted_key (snd k))) with
    | Some v => Some v | None => od_get k counts
    end
  else od_get k counts.
Proof.
  intros Hl Hn Hd k. revert counts. induction Hd as [|j offsets Hj _ IH]; intros counts.
  { by rewrite decide_False by apply not_elem_of_nil. }
  rewrite drain_from_cons, IH. clear IH.
  assert (rget now (accepted_key (hour_of now - Z.of_nat j * hour)) m =
          e_value <$> m !! accepted_key (hour_of now - Z.of_nat j * hour)) as ->.
  { unfold rget. by rewrite (lasts_peek (t0 + ACCEPTED_TTL)) by (done || lia). }
  rewrite drain_bucket.
  2: { destruct (m !! _) as [e|] eqn:E; [| constructor]. by apply Hl in E as [? _]. }
  subst k. cbn [fst snd]. assert (0 < hour) as Hh by (by vm_compute).
  destruct (decide (i = j)) as [->|Hij].
  - rewrite (decide_False (P := j ∈ offsets)) by done.
    rewrite (decide_True (P := j ∈ j :: offsets)) by (by left). by rewrite decide_True.
  - rewrite (decide_False (P := _ = _)) by nia.
    destruct (decide (i ∈ offsets)); [rewrite decide_True by (by right) | rewrite decide_False]; [done | done |].
    by intros [?|?]%elem_of_cons.
Qed.

(** The worker reads what the tracker counted.  Once the counter is flushed, the
    count that [drain] returns for an app and an hour of its window is the number of
    events counted for them, and what failed pipelines had pushed twice. *)
Theorem drain_reports_the_counts s now hours i a :
  rtc timely_step counter0 s → t0 <= now < t0 + ACCEPTED_TTL → (i <= hours)%nat →
  ct_pending s = [] → ct_flights s = [] →
  let k := (a, hour_of now - Z.of_nat i * hour) in is_bucket (snd k) →
  amount (drain now hours (ct_redis s)) k = amount (ct_counted s) k + amount (ct_repeated s) k.
Proof.
  intros [_ _ Hl _ Hs]%counter_ok_run Hn Hi Ep Ef k Hk. rewrite <- (Hs k Hk). unfold in_flight. rewrite Ep, Ef.
  change (foldr _ 0 []) with 0. change (amount [] k) with 0.
  unfold amount. change (drain now hours (ct_redis s)) with (drain_from now (ct_redis s) (seq 0 (S hours)) []).
  unfold k. rewrite drain_from_get by (done || apply NoDup_seq).
  rewrite decide_True by (apply elem_of_seq; lia). unfold redis_amount. cbn [fst snd].
  destruct (od_get a _); cbn; lia.
Qed.
End Conservation.

(** ** mmp_worker/reconcile.py *)

Definition SETTLING_PERIOD : timedelta := 10 * minute.
(** The double nearest to one hundredth. *)
Definition DRIFT_TOLERANCE : spec_float := Float64.div 1 100.
Definition MINIMUM_VOLUME : Z := 100.

Inductive Stage := StageAccepted | StagePersisted | StageClicks.

#[export] Instance stage_eq_dec : EqDecision Stage.
Proof. solve_decision. Defined.

(** [pipeline_audit] on its unique key. *)
Abbreviation AuditKey := (uuid * Z * Stage)%type.
Abbreviation Audit := (list (AuditKey * Z)).

Record Discrepancy := {
  dc_app_id : uuid;
  dc_bucket_hour : datetime;
  dc_accepted : Z;
  dc_persisted : Z
}.

Definition missing (d : Discrepancy) : Z := dc_accepted d - dc_persisted d.

Definition rate (d : Discrepancy) : spec_float :=
  if dc_accepted d =? 0 then Float64.of_Z 0 else Float64.div (missing d) (dc_accepted d).

Definition significant (d : Discrepancy) : bool :=
  (MINIMUM_VOLUME <=? dc_accepted d) && Float64.ltb DRIFT_TOLERANCE (rate d).

Record ReconciliationResult := {
  rc_hours_checked : nat;
  rc_discrepancies : list Discrepancy;
  rc_worst_rate : spec_float
}.

Definition record_accepted (app : uuid) (bucket : datetime) (n : Z) (audit : Audit) : Audit :=
  od_set (app, bucket, StageAccepted) n audit.

Section Reconcile.
Context {U : Unicode}.

(** The drained counts, one upsert each; [uuid.UUID] may raise part way. *)
Fixpoint record_drained (counts : counter) (audit : Audit) : option pystr * Audit :=
  match counts with
  | [] => (None, audit)
  | ((app, bucket), n) :: counts =>
      match uuid_of_str app with
      | None => (Some app, audit)
      | Some u => record_drained counts (record_accepted u bucket n audit)
      end
  end.

(** [GROUP BY app_id, date_trunc('hour', ...)] with [count], over the rows of a window. *)
Definition group_counts (start stop : datetime) (rows : list (uuid * datetime))
    : list ((uuid * datetime) * Z) :=
  fold_left (λ d k, od_set k (default 0 (od_get k d) + 1) d)
    ((λ r, (fst r, hour_of (snd r))) <$>
       List.filter (λ r, (start <=? snd r) && (snd r <? stop)) rows) [].

(** [RECORD_PERSISTED_SQL] and [RECORD_CLICKS_SQL]. *)
Definition record_stored (stage : Stage) (start stop : datetime) (rows : list (uuid * datetime))
    (audit : Audit) : Audit :=
  od_of ((λ p, ((fst p, stage), snd p)) <$> group_counts start stop rows) audit.

(** [COMPARE_SQL]. *)
Definition compare (start stop : datetime) (audit : Audit) : list Discrepancy :=
  omap (λ p : AuditKey * Z,
      let '((app, bucket, stage), n) := p in
      if bool_decide (stage = StageAccepted) && (start <=? bucket) && (bucket <? stop)
      then Some {| dc_app_id := app; dc_bucket_hour := bucket; dc_accepted := n;
                   dc_persisted := default 0 (od_get (app, bucket, StagePersisted) audit) |}
      else None) audit.

(** [max(a, b)]. *)
Definition py_max (a b : spec_float) : spec_float := if Float64.ltb a b then b else a.

(** [reconcile]; [drained] is what [drain] returned, when there is a Redis. *)
Definition reconcile (now : datetime) (lookback : timedelta) (drained : option counter)
    (events clicks : list (uuid * datetime)) (audit : Audit)
    : result pystr ReconciliationResult * Audit :=
  let '(bad, audit) := match drained with
                       | Some counts => record_drained counts audit
                       | None => (None, audit)
                       end in
  match bad with
  | Some app => (Err app, audit)
  | None =>
      let stop := hour_of (now - SETTLING_PERIOD) in
      let start := stop - lookback in
      let audit := record_stored StageClicks start stop clicks
                     (record_stored StagePersisted start stop events audit) in
      let rows := compare start stop audit in
      (Ok {| rc_hours_checked := length rows;
             rc_discrepancies := List.filter significant rows;
             rc_worst_rate := fold_left py_max (rate <$> rows) (Float64.of_Z 0) |}, audit)
  end.

(** ** Lemmas: reconciliation *)

(** The rows of an app in an hour of the window. *)
Definition stored (start stop : datetime) (rows : list (uuid * datetime)) (app : uuid) (b : datetime) : Z :=
  Z.of_nat (length (List.filter (λ r, (start <=? snd r) && (snd r <? stop) &&
    bool_decide ((fst r, hour_of (snd r)) = (app, b))) rows)).

Lemma group_counts_fold (keys : list (uuid * datetime)) d k :
  od_get k (fold_left (λ d k, od_set k (default 0 (od_get k d) + 1) d) keys d) =
  let n := Z.of_nat (length (List.filter (λ k', bool_decide (k' = k)) keys)) in
  if decide (n = 0) then od_get k d else Some (default 0 (od_get k d) + n).
Proof.
  revert d. induction keys as [|k' keys IH]; intros d; [done |]. cbn [fold_left List.filter]. rewrite IH, od_get_set.
  clear IH. destruct (decide (k' = k)) as [->|Hne].
  - rewrite bool_decide_true, (decide_True (P := k = k)) by done. cbn [length from_option id]. cbn zeta.
    set (n := length _). rewrite (decide_False (P := Z.of_nat (S n) = 0)) by lia.
    destruct (decide (Z.of_nat n = 0)); f_equal; lia.
  - rewrite bool_decide_false by done. rewrite (decide_False (P := k = k')) by congruence. done.
Qed.

Lemma filter_filter_length {A B} (f : A → B) (p : A → bool) (q : B → bool) (l : list A) :
  length (List.filter q (f <$> List.filter p l)) = length (List.filter (λ x, p x && q (f x)) l).
Proof.
  induction l as [|x l IH]; [done |]. cbn [List.filter]. destruct (p x); [| exact IH].
  rewrite fmap_cons. cbn [List.filter andb]. destruct (q (f x)); cbn [length]; by rewrite IH.
Qed.

Lemma group_counts_get start stop rows app b :
  od_get (app, b) (group_counts start stop rows) =
  let n := stored start stop rows app b in if decide (n = 0) then None else Some n.
Proof.
  unfold group_counts, stored. rewrite group_counts_fold, filter_filter_length. cbn zeta. by case_decide.
Qed.

Lemma group_counts_NoDup start stop rows : NoDup (fst <$> group_counts start stop rows).
Proof.
  unfold group_counts. generalize ((λ r : uuid * Z, (fst r, hour_of (snd r))) <$>
    List.filter (λ r, (start <=? snd r) && (snd r <? stop)) rows) as keys. intros keys.
  assert (NoDup (fst <$> ([] : list ((uuid * datetime) * Z)))) as Hd by constructor. revert Hd.
  generalize ([] : list ((uuid * datetime) * Z)). induction keys as [|k keys IH]; intros d Hd; [done |].
  cbn. by apply IH, od_set_NoDup.
Qed.

Lemma record_stored_NoDup stage start stop rows audit :
  NoDup (fst <$> audit) → NoDup (fst <$> record_stored stage start stop rows audit).
Proof. apply od_of_NoDup. Qed.

Lemma record_stored_get stage start stop rows audit app b st :
  od_get (app, b, st) (record_stored stage start stop rows audit) =
  let n := stored start stop rows app b in
  if decide (st = stage ∧ n ≠ 0) then Some n else od_get (app, b, st) audit.
Proof.
  unfold record_stored. rewrite od_get_merge.
  2: { assert ((fst <$> ((λ p : uuid * datetime * Z, (fst p, stage, snd p)) <$> group_counts start stop rows)) =
         ((λ k, (k, stage)) <$> (fst <$> group_counts start stop rows))) as ->
         by (by rewrite <- !list_fmap_compose).
       apply NoDup_fmap_2; [by intros x y [= ->] | apply group_counts_NoDup]. }
  assert (∀ d : list ((uuid * datetime) * Z), od_get (app, b, st) ((λ p, ((fst p, stage), snd p)) <$> d) =
    if decide (st = stage) then od_get (app, b) d else None) as ->.
  { clear. induction d as [|[k v] d IH]; [by destruct (decide _) |]. rewrite fmap_cons. cbn [od_get fst snd].
    rewrite IH. destruct (decide (st = stage)) as [->|Hs].
    - destruct (decide ((app, b) = k)) as [<-|Hk]; [by rewrite decide_True |].
      by rewrite (decide_False (P := (app, b, stage) = (k, stage))) by congruence.
    - by rewrite (decide_False (P := (app, b, st) = (k, stage))) by congruence. }
  cbn zeta. rewrite group_counts_get. cbn zeta. destruct (decide (st = stage)) as [->|Hs].
  - destruct (decide (stored start stop rows app b = 0)) as [E|E].
    + rewrite decide_False by tauto. done.
    + by rewrite decide_True.
  - by rewrite decide_False by tauto.
Qed.

Lemma record_drained_NoDup counts audit e audit' :
  record_drained counts audit = (e, audit') → NoDup (fst <$> audit) → NoDup (fst <$> audit').
Proof.
  revert audit. induction counts as [|[[a b] n] counts IH]; intros audit; cbn; [by intros [= <- <-] |].
  destruct (uuid_of_str a) as [u|]; [| by intros [= <- <-]]. intros E Hn. eapply IH; [exact E |].
  by apply od_set_NoDup.
Qed.

Lemma compare_elem start stop audit d :
  NoDup (fst <$> audit) →
  d ∈ compare start stop audit ↔
  start <= dc_bucket_hour d < stop ∧
  od_get (dc_app_id d, dc_bucket_hour d, StageAccepted) audit = Some (dc_accepted d) ∧
  dc_persisted d = default 0 (od_get (dc_app_id d, dc_bucket_hour d, StagePersisted) audit).
Proof.
  intros Hn. unfold compare. rewrite list_elem_of_omap. split.
  - intros ([[[app b] st] n] & Hin & E). destruct (bool_decide (st = StageAccepted)) eqn:Es; [| done].
    apply bool_decide_eq_true in Es as ->. cbn [andb] in E.
    destruct ((start <=? b) && (b <? stop)) eqn:Ew; [| done]. injection E as <-. cbn. bprop.
    split; [lia |]. split; [| done].
    destruct (od_elem_get _ _ _ Hin) as [v E]. rewrite E. f_equal. apply od_get_elem in E.
    by eapply NoDup_fst_functional.
  - intros (Hw & Ha & Hp). exists (dc_app_id d, dc_bucket_hour d, StageAccepted, dc_accepted d).
    split; [by apply od_get_elem |]. rewrite bool_decide_true by done. cbn [andb].
    rewrite (proj2 (Z.leb_le _ _)), (proj2 (Z.ltb_lt _ _)) by lia. destruct d; cbn in *. by rewrite <- Hp.
Qed.

(** The reconciliation reports exactly the hours that lost events.  An app-hour is
    reported if and only if it lies in the settled window, an accepted count is on record
    for it, and that count is significantly above what is stored; what is stored is the
    number of event rows received in that hour, or an earlier count when there are none. *)
Theorem reconcile_reports_exactly now lookback drained events clicks audit result audit' :
  NoDup (fst <$> audit) → reconcile now lookback drained events clicks audit = (Ok result, audit') →
  let stop := hour_of (now - SETTLING_PERIOD) in
  let start := stop - lookback in
  (∀ d, d ∈ rc_discrepancies result ↔
     start <= dc_bucket_hour d < stop ∧ significant d = true ∧
     od_get (dc_app_id d, dc_bucket_hour d, StageAccepted) audit' = Some (dc_accepted d) ∧
     dc_persisted d = default 0 (od_get (dc_app_id d, dc_bucket_hour d, StagePersisted) audit')) ∧
  (∀ app b, let n := stored start stop events app b in
     n ≠ 0 → od_get (app, b, StagePersisted) audit' = Some n).
Proof.
  intros Hn. unfold reconcile.
  destruct (match drained with Some counts => record_drained counts audit | None => (None, audit) end)
    as [bad audit1] eqn:Ed.
  assert (NoDup (fst <$> audit1)) as Hn1.
  { destruct drained; [by eapply record_drained_NoDup | by injection Ed as <- <-]. }
  destruct bad; [done |]. cbn zeta. intros [= <- <-]. cbn [rc_discrepancies]. split.
  - intros d. rewrite elem_of_lfilter, compare_elem by (by apply record_stored_NoDup, record_stored_NoDup). tauto.
  - intros app b Hne. rewrite record_stored_get. cbn zeta. rewrite decide_False by (by intros [? _]).
    rewrite record_stored_get. cbn zeta. by rewrite decide_True.
Qed.
End Reconcile.

(** ** Witnesses *)

Definition ex_t0 : datetime := 20000 * day.

Lemma ex_era : FIRST_DAY * day <= ex_t0 ∧ ex_t0 + ACCEPTED_TTL <= LAST_DAY * day.
Proof. split; vm_compute; discriminate. Qed.

Definition ex_pending : counter := count_accepted [] (py "a") 5 ex_t0.

Definition ex_counted (flights : list counter) (pending : counter) (redis : hashes) (repeated : counter)
    : CounterState :=
  {| ct_pending := pending; ct_flights := flights; ct_redis := redis; ct_counted := ex_pending;
     ct_repeated := repeated |}.

Definition ex_flushed : CounterState :=
  ex_counted [] [] (run_commands ex_t0 (flush_commands ex_pending) ∅) [].

Lemma ex_timely s s' : counter_step ex_t0 s s' → timely_step ex_t0 s s'.
Proof. intros Hs. exists ex_t0. split; [split; [done | vm_compute; reflexivity] | exact Hs]. Qed.

Lemma ex_started : rtc (timely_step ex_t0) counter0 (ex_counted [ex_pending] [] ∅ []).
Proof.
  eapply rtc_l; [apply ex_timely, (count_step ex_t0 (py "a") 5 counter0) |].
  eapply rtc_l; [apply ex_timely, flush_start; vm_compute; discriminate |]. apply rtc_refl.
Qed.

Lemma ex_flushed_run : rtc (timely_step ex_t0) counter0 ex_flushed.
Proof.
  etrans; [exact ex_started |].
  apply rtc_once, ex_timely. by apply (flush_done ex_t0 (ex_counted [ex_pending] [] ∅ []) [] ex_pending []).
Qed.

Definition ex_bucket_key : pystr * datetime := (py "a", ex_t0).

Lemma ex_is_bucket : is_bucket ex_t0.
Proof. split; [split; vm_compute; [discriminate | reflexivity] | vm_compute; reflexivity]. Qed.

Lemma counts_are_conserved_witness :
  redis_amount (ct_redis ex_flushed) ex_bucket_key + amount (ct_pending ex_flushed) ex_bucket_key +
  in_flight ex_flushed ex_bucket_key = 5.
Proof.
  destruct (counts_are_conserved ex_t0 ex_era ex_flushed ex_bucket_key ex_flushed_run ex_is_bucket) as [E _].
  rewrite E. vm_compute. reflexivity.
Defined.

Lemma drain_reports_the_counts_witness :
  amount (drain ex_t0 6 (ct_redis ex_flushed)) (py "a", hour_of ex_t0 - Z.of_nat 0 * hour) = 5.
Proof.
  rewrite (drain_reports_the_counts ex_t0 ex_era ex_flushed ex_t0 6 0 (py "a") ex_flushed_run).
  - vm_compute. reflexivity.
  - split; [done | vm_compute; reflexivity].
  - lia.
  - reflexivity.
  - reflexivity.
  - exact ex_is_bucket.
Defined.

(** Two hundred accepted in the hour, one stored. *)
Definition ex_drained : counter := [((str_of_uuid 9, ex_t0), 200)].

Definition ex_reconciled : result pystr ReconciliationResult * Audit :=
  @reconcile ascii_unicode (ex_t0 + 2 * hour) (6 * hour) (Some ex_drained) [(9%N, ex_t0 + 7)] [] [].

Definition ex_loss : Discrepancy :=
  {| dc_app_id := 9; dc_bucket_hour := ex_t0; dc_accepted := 200; dc_persisted := 1 |}.

Lemma reconcile_reports_exactly_witness :
  ∃ r, fst ex_reconciled = Ok r ∧ ex_loss ∈ rc_discrepancies r.
Proof.
  assert (∃ r, fst ex_reconciled = Ok r) as [r Er] by (eexists; vm_compute; reflexivity).
  exists r. split; [exact Er |].
  apply (@reconcile_reports_exactly ascii_unicode (ex_t0 + 2 * hour) (6 * hour) (Some ex_drained)
    [(9%N, ex_t0 + 7)] [] [] r (snd ex_reconciled)).
  - constructor.
  - rewrite <- Er. apply surjective_pairing.
  - split; [split; vm_compute; [discriminate | reflexivity] |].
    split; [vm_compute; reflexivity | split; vm_compute; reflexivity].
Defined.

(** ** What the code does beyond its documentation *)

(** A pipeline that the server ran and whose answer was lost is put back and pushed again:
    five accepted events are reported as ten. *)
Lemma failed_flush_counts_twice :
  ∃ s, rtc (timely_step ex_t0) counter0 s ∧ amount (ct_counted s) ex_bucket_key = 5 ∧
       amount (drain ex_t0 6 (ct_redis s)) ex_bucket_key = 10.
Proof.
  eexists. split.
  - etrans; [exact ex_started |].
    eapply rtc_l; [apply ex_timely, (flush_failed ex_t0 (ex_counted [ex_pending] [] ∅ []) [] ex_pending [] 2); done |].
    eapply rtc_l; [apply ex_timely, flush_start; vm_compute; discriminate |].
    eapply rtc_l; [apply ex_timely, (flush_done ex_t0 _ [] (put_back ex_pending []) []); reflexivity |]. apply rtc_refl.
  - split; vm_compute; reflexivity.
Qed.
