(* ===== verification/Skan.v ===== *)
(** * SKAdNetwork postbacks (mmp_attrib/skadnetwork.py, mmp_tracker/skan.py)

    The string Apple signs, its verification, and the endpoint that stores a verified
    postback.  ECDSA, the [str] of a float or of a container, and whether [jsonb] takes a
    body are parameters. *)

From Stdlib Require Import SpecFloat.
From S2P Require Import Prelude Ids Keys Schema Templates Signing.

#[local] Open Scope Z_scope.
#[local] Open Scope mmp_scope.

(** ** Constants *)

Definition SEPARATOR : N := 0x2063.
Definition SIGNATURE_FIELD : pystr := py "attribution-signature".

(** A place of the signed string: a parameter, or the source of the ad. *)
Inductive Field := Param (name : pystr) | Source.

Definition COMMON : list Field :=
  [Param (py "app-id"); Param (py "transaction-id"); Param (py "redownload")].

Definition FIELD_ORDER : list (pystr * list Field) :=
  let head := [Param (py "version"); Param (py "ad-network-id"); Param (py "campaign-id")] ++ COMMON ++
              [Param (py "source-app-id")] in
  [(py "2.1", head);
   (py "2.2", head ++ [Param (py "fidelity-type")]);
   (py "3.0", head ++ [Param (py "fidelity-type"); Param (py "did-win")]);
   (py "4.0", [Param (py "version"); Param (py "ad-network-id"); Param (py "source-identifier")] ++
              COMMON ++ [Source; Param (py "fidelity-type"); Param (py "did-win");
                         Param (py "postback-sequence-index")])].

Definition UNSUPPORTED_VERSIONS : list pystr := [py "1.0"; py "2.0"].

Inductive Rejection :=
| MISSING_VERSION | UNSUPPORTED_VERSION | UNKNOWN_VERSION | MISSING_SIGNATURE
| MALFORMED_SIGNATURE | MISSING_FIELD | SEPARATOR_IN_VALUE | BAD_SIGNATURE.

#[export] Instance rejection_eq_dec : EqDecision Rejection.
Proof. solve_decision. Defined.

Record Verified := {
  ve_version : pystr;
  ve_ad_network_id : pystr;
  ve_app_id : pystr;
  ve_transaction_id : pystr;
  ve_source_identifier : option pystr;
  ve_did_win : bool;
  ve_redownload : bool;
  ve_fidelity_type : option Z;
  ve_conversion_value : option Z;
  ve_coarse_value : option pystr;
  ve_postback_sequence_index : option Z;
  ve_source_app_id : option pystr;
  ve_source_domain : option pystr
}.

(** What escapes [verify]. *)
Inductive SkanError := UnicodeEncodeError | OverflowError | StoreError.

(** ** base64, as [b64decode(validate=True)] reads it *)

Definition b64_value (c : N) : option N :=
  if is_upper_ascii c then Some (c - 65)%N
  else if is_lower_ascii c then Some (c - 71)%N
  else if is_digit_ascii c then Some (c + 4)%N
  else if (c =? 43)%N then Some 62%N
  else if (c =? 47)%N then Some 63%N
  else None.

(** The bytes of two, three or four digits. *)
Definition b64_bytes (quad : list N) : list N :=
  match quad with
  | [a; b] => [a * 4 + b / 16]%N
  | [a; b; c] => [a * 4 + b / 16; b mod 16 * 16 + c / 4]%N
  | [a; b; c; d] => [a * 4 + b / 16; b mod 16 * 16 + c / 4; c mod 4 * 64 + d]%N
  | _ => []
  end.

Fixpoint b64_from (quad : list N) (pads : nat) (padding first : bool) (s : pystr) : option (list N) :=
  match s with
  | [] => if bool_decide (quad = []) then Some [] else None
  | c :: s =>
      if (c =? 61)%N then
        if first then None
        else if (length quad <? 2)%nat then b64_from quad pads true false s
        else if (4 <=? length quad + S pads)%nat
             then if bool_decide (s = []) then Some (b64_bytes quad) else None
             else b64_from quad (S pads) true false s
      else
        match b64_value c with
        | None => None
        | Some v =>
            if padding then None
            else
              let quad := quad ++ [v] in
              if (length quad =? 4)%nat
              then rest ← b64_from [] 0 false false s; Some (b64_bytes quad ++ rest)
              else b64_from quad 0 false false s
        end
  end.

Definition b64decode (s : pystr) : option (list N) := b64_from [] 0 false true s.

(** ** Verification *)

Class PyFormat := { str_other : json → pystr }.
Class Ecdsa := { ecdsa_verify : list N → list N → bool }.

Section Skan.
Context {U : Unicode} {F : PyFormat} {EC : Ecdsa}.

(** [str(value)]. *)
Definition py_str (v : json) : pystr :=
  match v with
  | JNull => py "None"
  | JBool true => py "True"
  | JBool false => py "False"
  | JInt z => py_str_int z
  | JStr s => s
  | _ => str_other v
  end.

(** [_render]. *)
Definition render (v : json) : pystr :=
  match v with
  | JBool true => py "true"
  | JBool false => py "false"
  | _ => py_str v
  end.

Definition source_fields : list pystr := [py "source-app-id"; py "source-domain"].

Definition part (payload : props) (f : Field) : list pystr :=
  match f with
  | Source => omap (λ name, render <$> od_get name payload) source_fields
  | Param name => option_list (render <$> od_get name payload)
  end.

(** [canonical_string] for an order of fields; [None] is [SeparatorInValue]. *)
Definition canonical_string (order : list Field) (payload : props) : option pystr :=
  let parts := order ≫= part payload in
  if existsb (existsb (N.eqb SEPARATOR)) parts then None else Some (py_join [SEPARATOR] parts).

Definition is_required (f : Field) : bool :=
  match f with Source => false | Param name => negb (bool_decide (name = py "source-app-id")) end.

Definition is_missing (payload : props) (f : Field) : bool :=
  match f with Source => false | Param name => bool_decide (od_get name payload = None) end.

(** [_as_int]; an infinite float raises [OverflowError]. *)
Definition as_int (v : option json) : result SkanError (option Z) :=
  match v with
  | Some (JInt z) => Ok (Some z)
  | Some (JBool b) => Ok (Some (if b then 1 else 0))
  | Some (JStr s) => Ok (py_int 10 s)
  | Some (JFloat (S754_infinity _)) => Err OverflowError
  | Some (JFloat S754_nan) => Ok None
  | Some (JFloat f) => Ok (Some (Float64.trunc f))
  | _ => Ok None
  end.

(** [str(v) if v is not None else None]. *)
Definition str_or_none (v : option json) : option pystr :=
  match v with None | Some JNull => None | Some v => Some (py_str v) end.

Definition is_surrogate (c : N) : bool := in_range 0xd800 0xdfff c.

(** [bool(payload.get(key, default))]. *)
Definition flag (payload : props) (key : pystr) (d : bool) : bool :=
  match od_get key payload with Some v => json_truthy v | None => d end.

Definition text (payload : props) (key : pystr) : pystr := py_str (default JNull (od_get key payload)).

Definition verified (version : pystr) (payload : props) : result SkanError Verified :=
  let* fidelity := as_int (od_get (py "fidelity-type") payload) in
  let* conversion := as_int (od_get (py "conversion-value") payload) in
  let* sequence := as_int (od_get (py "postback-sequence-index") payload) in
  Ok {| ve_version := version; ve_ad_network_id := text payload (py "ad-network-id");
        ve_app_id := text payload (py "app-id");
        ve_transaction_id := text payload (py "transaction-id");
        ve_source_identifier :=
          match od_get (py "source-identifier") payload with
          | Some v => Some (py_str v)
          | None => py_str <$> od_get (py "campaign-id") payload
          end;
        ve_did_win := flag payload (py "did-win") true;
        ve_redownload := flag payload (py "redownload") false;
        ve_fidelity_type := fidelity; ve_conversion_value := conversion;
        ve_coarse_value := str_or_none (od_get (py "coarse-conversion-value") payload);
        ve_postback_sequence_index := sequence;
        ve_source_app_id := str_or_none (od_get (py "source-app-id") payload);
        ve_source_domain := str_or_none (od_get (py "source-domain") payload) |}.

(** [verify]; the detail of a rejection, which no caller reads, is left out. *)
Definition verify (payload : props) : result SkanError (Verified + Rejection) :=
  match od_get (py "version") payload with
  | None => Ok (inr MISSING_VERSION)
  | Some v =>
      if negb (json_truthy v) then Ok (inr MISSING_VERSION)
      else
        let version := py_str v in
        if bool_decide (version ∈ UNSUPPORTED_VERSIONS) then Ok (inr UNSUPPORTED_VERSION)
        else
          match od_get version FIELD_ORDER with
          | None => Ok (inr UNKNOWN_VERSION)
          | Some order =>
              match od_get SIGNATURE_FIELD payload with
              | Some (JStr ((_ :: _) as raw)) =>
                  match b64decode raw with
                  | None => Ok (inr MALFORMED_SIGNATURE)
                  | Some signature =>
                      if existsb (λ f, is_required f && is_missing payload f) order
                      then Ok (inr MISSING_FIELD)
                      else
                        match canonical_string order payload with
                        | None => Ok (inr SEPARATOR_IN_VALUE)
                        | Some s =>
                            if existsb is_surrogate s then Err UnicodeEncodeError
                            else if negb (ecdsa_verify signature (s ≫= utf8))
                                 then Ok (inr BAD_SIGNATURE)
                                 else let* v := verified version payload in Ok (inl v)
                        end
                  end
              | _ => Ok (inr MISSING_SIGNATURE)
              end
          end
  end.

(** ** mmp_tracker/skan.py *)

Definition MAX_BODY_BYTES : nat := 8 * 1024.

Record AppleApp := { aa_id : uuid; aa_organization_id : uuid; aa_apple_app_id : option Z; aa_status : pystr }.

(** A row of [skadnetwork_postbacks], without its id and time. *)
Record SkanRow := {
  sk_organization_id : uuid;
  sk_app_id : uuid;
  sk_apple_app_id : Z;
  sk_postback : Verified;
  sk_payload : list N
}.

Inductive SkanOutcome := Oversized | Malformed | RejectedPostback | UnknownApp | Duplicate | Stored | StoredNonwinner.

Record SkanState := {
  st_apps : list AppleApp;
  st_rows : list SkanRow;
  st_outcomes : list SkanOutcome
}.

Record SkanRequest := {
  sq_body : list N;
  sq_json : option json;    (* [json.loads(body)] *)
  sq_jsonb : bool           (* whether the column takes the body *)
}.

Inductive SkanResponse := Respond (status : Z) (body : pystr).

Definition ACCEPTED : SkanResponse := Respond 200 (py "ok").

Definition note_outcome (o : SkanOutcome) (s : SkanState) : SkanState :=
  {| st_apps := st_apps s; st_rows := st_rows s; st_outcomes := o :: st_outcomes s |}.

(** [RESOLVE_APP_SQL]. *)
Definition resolve_app (apps : list AppleApp) (apple_app_id : Z) : option AppleApp :=
  List.find (λ a, bool_decide (aa_apple_app_id a = Some apple_app_id) && bool_decide (aa_status a = py "active")) apps.

Definition in_width (bits z : Z) : bool := (- 2 ^ (bits - 1) <=? z) && (z <? 2 ^ (bits - 1)).

Definition fits (n : nat) (s : option pystr) : bool :=
  match s with
  | Some s => (length s <=? n)%nat && negb (existsb (λ c, N.eqb c 0 || is_surrogate c) s)
  | None => true
  end.

(** The columns take the row: widths, lengths, characters and the two checks. *)
Definition storable (v : Verified) (jsonb : bool) : bool :=
  fits 8 (Some (ve_version v)) && fits 255 (Some (ve_ad_network_id v)) &&
  fits 64 (Some (ve_transaction_id v)) && fits 32 (ve_source_identifier v) &&
  match ve_fidelity_type v with Some z => in_width 16 z | None => true end &&
  match ve_conversion_value v with Some z => (0 <=? z) && (z <=? 63) | None => true end &&
  match ve_coarse_value v with
  | Some c => bool_decide (c ∈ [py "low"; py "medium"; py "high"]) | None => true end &&
  match ve_postback_sequence_index v with Some z => in_width 16 z | None => true end &&
  fits 32 (ve_source_app_id v) && fits 255 (ve_source_domain v) && jsonb.

(** [_store]. *)
Definition store_postback (v : Verified) (rq : SkanRequest) (s : SkanState)
    : result SkanError unit * SkanState :=
  match py_int 10 (ve_app_id v) with
  | None => (Ok tt, note_outcome UnknownApp s)
  | Some apple_app_id =>
      if negb (in_width 64 apple_app_id) then (Err StoreError, s)
      else
        match resolve_app (st_apps s) apple_app_id with
        | None => (Ok tt, note_outcome UnknownApp s)
        | Some app =>
            if negb (storable v (sq_jsonb rq)) then (Err StoreError, s)
            else if existsb (λ r, bool_decide (ve_transaction_id (sk_postback r) = ve_transaction_id v))
                      (st_rows s)
            then (Ok tt, note_outcome Duplicate s)
            else
              (Ok tt, note_outcome (if ve_did_win v then Stored else StoredNonwinner)
                 {| st_apps := st_apps s;
                    st_rows := st_rows s ++
                      [{| sk_organization_id := aa_organization_id app; sk_app_id := aa_id app;
                          sk_apple_app_id := apple_app_id; sk_postback := v;
                          sk_payload := sq_body rq |}];
                    st_outcomes := st_outcomes s |})
        end
  end.

Definition receive_postback (rq : SkanRequest) (s : SkanState)
    : result SkanError SkanResponse * SkanState :=
  if (MAX_BODY_BYTES <? length (sq_body rq))%nat
  then (Ok (Respond 413 (py "payload too large")), note_outcome Oversized s)
  else
    match sq_json rq with
    | Some (JObj payload) =>
        match verify payload with
        | Err e => (Err e, s)
        | Ok (inr _) => (Ok (Respond 400 (py "signature verification failed")), note_outcome RejectedPostback s)
        | Ok (inl v) =>
            match store_postback v rq s with
            | (Err e, s) => (Err e, s)
            | (Ok _, s) => (Ok ACCEPTED, s)
            end
        end
    | _ => (Ok (Respond 400 (py "invalid json")), note_outcome Malformed s)
    end.

Definition receive_all (rqs : list SkanRequest) (s : SkanState) : SkanState :=
  fold_left (λ s rq, snd (receive_postback rq s)) rqs s.

(** ** Lemmas *)

Lemma bind_inj {A B} (l : list A) (f g : A → list B) :
  (∀ x, x ∈ l → length (f x) = length (g x)) → l ≫= f = l ≫= g → ∀ x, x ∈ l → f x = g x.
Proof.
  induction l as [|a l IH]; intros Hl E x Hx; [by apply elem_of_nil in Hx |].
  rewrite !bind_cons in E. apply app_inj_1 in E as [E1 E2]; [| apply Hl; by left].
  apply elem_of_cons in Hx as [->|Hx]; [done |]. apply IH; [| done..]. intros y Hy. apply Hl. by right.
Qed.

Lemma bind_length {A B} (l : list A) (f : A → list B) (n : nat) :
  (∀ x, x ∈ l → length (f x) = n) → length (l ≫= f) = (n * length l)%nat.
Proof.
  induction l as [|a l IH]; intros Hl; [cbn; lia |]. rewrite bind_cons, length_app, (Hl a) by (by left).
  rewrite IH by (intros y Hy; apply Hl; by right). cbn. lia.
Qed.

(** Every order has one optional place. *)
Definition shape_ok (order : list Field) : bool :=
  match drop 6 order with
  | _ :: post =>
      forallb is_required (take 6 order ++ post) &&
      match order with Param name :: _ => bool_decide (name = py "version") | _ => false end
  | [] => false
  end.

(** Every order starts with the version and has one optional place. *)
Lemma order_shape version order :
  od_get version FIELD_ORDER = Some order →
  ∃ pre opt post rest, order = pre ++ opt :: post ∧ order = Param (py "version") :: rest ∧
    Forall (λ f, is_required f = true) (pre ++ post).
Proof.
  intros Ho%od_get_elem. assert (forallb (λ p, shape_ok (snd p)) FIELD_ORDER = true) as Hall
    by (vm_compute; reflexivity).
  rewrite forallb_forall in Hall. specialize (Hall (version, order)). rewrite <- list_elem_of_In in Hall.
  specialize (Hall Ho). cbn in Hall. unfold shape_ok in Hall.
  pose proof (take_drop 6 order) as E. destruct (drop 6 order) as [|opt post]; [done |].
  apply andb_true_iff in Hall as [Hr Hv]. exists (take 6 order), opt, post.
  destruct order as [|[name|] rest]; [done | | done]. apply bool_decide_eq_true in Hv as ->.
  exists rest. split; [by rewrite E |]. split; [done |]. apply Forall_forall. intros f Hf.
  rewrite forallb_forall in Hr. apply Hr. by apply list_elem_of_In.
Qed.

(** The required places are filled. *)
Definition complete (order : list Field) (p : props) : Prop :=
  existsb (λ f, is_required f && is_missing p f) order = false.

Lemma complete_part order p f :
  complete order p → f ∈ order → is_required f = true → length (part p f) = 1%nat.
Proof.
  intros Hc Hf Hr. unfold complete in Hc. apply not_true_iff_false in Hc.
  destruct f as [name|]; [| done]. cbn. destruct (od_get name p) as [v|] eqn:Ev; [done |].
  exfalso. apply Hc, existsb_exists. exists (Param name). rewrite <- list_elem_of_In.
  split; [done |]. rewrite Hr. cbn. by rewrite bool_decide_true.
Qed.

Lemma canonical_parts order p s :
  canonical_string order p = Some s → order ≠ [] → order ≫= part p ≠ [] →
  py_split SEPARATOR s = order ≫= part p.
Proof.
  unfold canonical_string. destruct (existsb _ _) eqn:Ex; [done |]. intros [= <-] _ Hne.
  apply py_split_join; [done |]. apply Forall_forall. intros w Hw Hin.
  apply not_true_iff_false in Ex. apply Ex, existsb_exists. exists w. rewrite <- list_elem_of_In.
  split; [done |]. apply existsb_exists. exists SEPARATOR. by rewrite <- list_elem_of_In, N.eqb_refl.
Qed.

(** What a verified postback went through. *)
Record genuine (p : props) (v : Verified) (order : list Field) (s : pystr) (signature : list N) : Prop := {
  ge_version : ∃ j, od_get (py "version") p = Some j ∧ ve_version v = py_str j;
  ge_order : od_get (ve_version v) FIELD_ORDER = Some order;
  ge_complete : complete order p;
  ge_canonical : canonical_string order p = Some s;
  ge_signature : ∃ raw, od_get SIGNATURE_FIELD p = Some (JStr raw) ∧ b64decode raw = Some signature;
  ge_signed : ecdsa_verify signature (s ≫= utf8) = true;
  ge_fields : verified (ve_version v) p = Ok v
}.

Lemma verify_genuine p v : verify p = Ok (inl v) → ∃ order s signature, genuine p v order s signature.
Proof.
  unfold verify. destruct (od_get (py "version") p) as [j|] eqn:Ev; [| done].
  destruct (json_truthy j); [| done]. cbn [negb]. destruct (bool_decide (py_str j ∈ UNSUPPORTED_VERSIONS)); [done |].
  destruct (od_get (py_str j) FIELD_ORDER) as [order|] eqn:Eo; [| done].
  destruct (od_get SIGNATURE_FIELD p) as [[| | | |[|c raw]| |]|] eqn:Es; try done.
  destruct (b64decode (c :: raw)) as [signature|] eqn:Eb; [| done].
  destruct (existsb _ order) eqn:Em; [done |].
  destruct (canonical_string order p) as [s|] eqn:Ec; [| done].
  destruct (existsb is_surrogate s); [done |]. destruct (ecdsa_verify signature (s ≫= utf8)) eqn:Ee; [| done].
  cbn [negb]. intros (v' & Hv & [= ->])%rbind_Ok.
  assert (ve_version v = py_str j) as Hj.
  { unfold verified in Hv. apply rbind_Ok in Hv as (? & _ & Hv). apply rbind_Ok in Hv as (? & _ & Hv).
    apply rbind_Ok in Hv as (? & _ & [= <-]). done. }
  exists order, s, signature. split; [by exists j | by rewrite Hj | done | done | by exists (c :: raw) | done |].
  by rewrite Hj.
Qed.

Lemma version_first p v order s signature :
  genuine p v order s signature → head (py_split SEPARATOR s) = Some (ve_version v) ∧
  py_split SEPARATOR s = order ≫= part p.
Proof.
  intros [(j & Ej & Ev) Ho Hc Hcan _ _ _]. destruct (order_shape _ _ Ho) as (pre & opt & post & rest & _ & Er & _).
  assert (render j = py_str j) as Hr.
  { destruct j as [|[]| | | | |]; try done; rewrite Ev in Ho; vm_compute in Ho; discriminate Ho. }
  assert (order ≫= part p = ve_version v :: (rest ≫= part p)) as Ep.
  { rewrite Er, bind_cons. cbn [part]. rewrite Ej. cbn. by rewrite Hr, Ev. }
  assert (py_split SEPARATOR s = order ≫= part p) as Esp.
  { apply canonical_parts; [done | by rewrite Er | by rewrite Ep]. }
  split; [by rewrite Esp, Ep | done].
Qed.

Lemma genuine_parts p p' v v' order order' s signature signature' f :
  genuine p v order s signature → genuine p' v' order' s signature' → f ∈ order →
  ve_version v = ve_version v' ∧ part p f = part p' f.
Proof.
  intros G G' Hf. destruct (version_first _ _ _ _ _ G) as [Hv Hs], (version_first _ _ _ _ _ G') as [Hv' Hs'].
  assert (ve_version v = ve_version v') as Ever by congruence. split; [done |].
  assert (order' = order) as ->.
  { pose proof (ge_order _ _ _ _ _ G). pose proof (ge_order _ _ _ _ _ G'). congruence. }
  rewrite Hs in Hs'. destruct (order_shape _ _ (ge_order _ _ _ _ _ G)) as (pre & opt & post & rest & Eo & _ & Hr).
  pose proof (ge_complete _ _ _ _ _ G) as C. pose proof (ge_complete _ _ _ _ _ G') as C'.
  rewrite Forall_forall in Hr.
  assert (∀ q, complete order q → ∀ x, x ∈ pre ++ post → length (part q x) = 1%nat) as Hone.
  { intros q Cq x Hx. eapply complete_part; [exact Cq | | by apply Hr].
    rewrite Eo. apply elem_of_app in Hx as [?|?]; apply elem_of_app; [by left | right; by right]. }
  assert (length (part p opt) = length (part p' opt)) as Hopt.
  { apply (f_equal length) in Hs'. rewrite Eo, !bind_app, !bind_cons, !length_app in Hs'.
    rewrite !(bind_length pre _ 1), !(bind_length post _ 1) in Hs'; [lia | intros x Hx..];
      (apply Hone; [done | apply elem_of_app; by (left + right)]). }
  apply (bind_inj order (part p) (part p')); [| done | done].
  intros x Hx. rewrite Eo in Hx. apply elem_of_app in Hx as [Hx|[->|Hx]%elem_of_cons]; [| done |];
    rewrite !Hone; (done || apply elem_of_app; by (left + right)).
Qed.

(** One signature, one reading.  Two verified postbacks with the same signed string
    have the same version and agree, place by place, on every value the string is made of:
    a value cannot be moved from one field to the next, dropped or added, while the
    signature still holds. *)
Theorem signature_covers_the_fields p p' v v' order order' f :
  verify p = Ok (inl v) → verify p' = Ok (inl v') →
  od_get (ve_version v) FIELD_ORDER = Some order → od_get (ve_version v') FIELD_ORDER = Some order' →
  canonical_string order p = canonical_string order' p' → f ∈ order →
  ve_version v = ve_version v' ∧ part p f = part p' f.
Proof.
  intros (o & s & signature & G)%verify_genuine (o' & s' & signature' & G')%verify_genuine Ho Ho' Es Hf.
  pose proof (ge_order _ _ _ _ _ G) as Eo. pose proof (ge_order _ _ _ _ _ G') as Eo'.
  rewrite Ho in Eo. rewrite Ho' in Eo'. injection Eo as <-. injection Eo' as <-.
  rewrite (ge_canonical _ _ _ _ _ G), (ge_canonical _ _ _ _ _ G') in Es. injection Es as <-.
  by eapply genuine_parts.
Qed.

(** A row that one request adds. *)
Record added (rq : SkanRequest) (apps : list AppleApp) (rows : list SkanRow) (r : SkanRow) : Prop := {
  ad_fresh : ve_transaction_id (sk_postback r) ∉ (λ r, ve_transaction_id (sk_postback r)) <$> rows;
  ad_source : ∃ p order c signature app,
    sq_json rq = Some (JObj p) ∧ sk_payload r = sq_body rq ∧
    genuine p (sk_postback r) order c signature ∧
    app ∈ apps ∧ aa_status app = py "active" ∧ aa_apple_app_id app = Some (sk_apple_app_id r) ∧
    sk_app_id r = aa_id app ∧ sk_organization_id r = aa_organization_id app
}.

Lemma receive_rows rq s :
  st_apps (snd (receive_postback rq s)) = st_apps s ∧
  (st_rows (snd (receive_postback rq s)) = st_rows s ∨
   ∃ r, st_rows (snd (receive_postback rq s)) = st_rows s ++ [r] ∧ added rq (st_apps s) (st_rows s) r).
Proof.
  unfold receive_postback. destruct (_ <? _)%nat; [by eauto |].
  destruct (sq_json rq) as [[| | | | | |p]|] eqn:Ej; try (by eauto).
  destruct (verify p) as [[v|]|] eqn:Ev; [| by eauto..]. unfold store_postback.
  destruct (py_int 10 (ve_app_id v)) as [n|]; [| by eauto]. destruct (in_width 64 n); [| by eauto]. cbn [negb].
  destruct (resolve_app (st_apps s) n) as [app|] eqn:Ea; [| by eauto].
  destruct (storable v (sq_jsonb rq)); [| by eauto]. cbn [negb].
  destruct (existsb _ (st_rows s)) eqn:Ed; [by eauto |]. cbn. split; [done |]. right.
  eexists. split; [reflexivity |]. apply verify_genuine in Ev as (order & c & signature & G).
  apply find_some in Ea as [Hin Hp]. apply andb_true_iff in Hp as [H1 H2].
  apply bool_decide_eq_true in H1, H2. split; cbn.
  - intros (r & E & Hr)%list_elem_of_fmap. apply not_true_iff_false in Ed. apply Ed, existsb_exists.
    exists r. rewrite <- list_elem_of_In. split; [done |]. by apply bool_decide_eq_true.
  - exists p, order, c, signature, app. by rewrite list_elem_of_In.
Qed.

(** (C29) Only Apple's postbacks are stored, and each once.  Whatever requests reach the
    endpoint, every stored row comes from a request whose signed string carries a valid
    signature, belongs to an active app with that App Store id, and no two rows share a
    transaction. *)
Theorem stored_postbacks_are_genuine rqs s :
  st_rows s = [] →
  let s' := receive_all rqs s in
  NoDup ((λ r, ve_transaction_id (sk_postback r)) <$> st_rows s') ∧
  (∀ r, r ∈ st_rows s' → ∃ rq p order c signature app,
     rq ∈ rqs ∧ sq_json rq = Some (JObj p) ∧ sk_payload r = sq_body rq ∧
     genuine p (sk_postback r) order c signature ∧
     app ∈ st_apps s ∧ aa_status app = py "active" ∧ aa_apple_app_id app = Some (sk_apple_app_id r) ∧
     sk_app_id r = aa_id app ∧ sk_organization_id r = aa_organization_id app).
Proof.
  intros H0. assert (∀ rqs0 s0, st_apps s0 = st_apps s →
    NoDup ((λ r, ve_transaction_id (sk_postback r)) <$> st_rows s0) →
    let s' := receive_all rqs0 s0 in
    NoDup ((λ r, ve_transaction_id (sk_postback r)) <$> st_rows s') ∧
    ∀ r, r ∈ st_rows s' → r ∈ st_rows s0 ∨ ∃ rq rows, rq ∈ rqs0 ∧ added rq (st_apps s) rows r) as Hall.
  { clear H0. intros rqs0. induction rqs0 as [|rq rqs0 IH]; intros s0 Ea Hn; [by eauto |].
    cbn. destruct (receive_rows rq s0) as [Ea' Hr]. rewrite Ea in *.
    destruct (IH (snd (receive_postback rq s0))) as [IH1 IH2]; [done | |].
    - destruct Hr as [->|(r & -> & Hadd)]; [done |]. rewrite fmap_app. apply NoDup_app. split; [done |].
      split; [| apply NoDup_singleton]. intros t Ht ->%list_elem_of_singleton.
      by apply (ad_fresh _ _ _ _ Hadd).
    - split; [done |]. intros r Hin. destruct (IH2 r Hin) as [Hold|(rq' & rows & Hrq & Hadd)].
      + destruct Hr as [Hr|(r' & Hr & Hadd)]; rewrite Hr in Hold; [by left |].
        apply elem_of_app in Hold as [Hold| ->%list_elem_of_singleton]; [by left |].
        right. exists rq, (st_rows s0). split; [by left | done].
      + right. exists rq', rows. split; [by right | done]. }
  destruct (Hall rqs s) as [H1 H2]; [done | rewrite H0; constructor |]. split; [done |].
  intros r Hr. destruct (H2 r Hr) as [Hold|(rq & rows & Hrq & Hadd)].
  { rewrite H0 in Hold. by apply elem_of_nil in Hold. }
  destruct (ad_source _ _ _ _ Hadd) as (p & order & c & signature & app & Hs).
  exists rq, p, order, c, signature, app. by split.
Qed.

(** The answer says nothing about our customers: the same request, answered with
    different apps and different stored postbacks, gets the same response. *)
Theorem response_says_nothing rq s s' r r' :
  fst (receive_postback rq s) = Ok r → fst (receive_postback rq s') = Ok r' → r = r'.
Proof.
  unfold receive_postback. destruct (_ <? _)%nat; [intros [= <-] [= <-]; done |].
  destruct (sq_json rq) as [[| | | | | |p]|]; try (intros [= <-] [= <-]; done).
  destruct (verify p) as [[v|]|]; [| intros [= <-] [= <-]; done | done].
  destruct (store_postback v rq s) as [[]], (store_postback v rq s') as [[]]; try done.
  cbn. intros [= <-] [= <-]. done.
Qed.
End Skan.

(** ** Witnesses *)

(** A toy scheme: a signature is the beginning of what it signs. *)
Definition toy_ecdsa : Ecdsa :=
  {| ecdsa_verify := λ signature message, bool_decide (take (length signature) message = signature) |}.
Definition toy_format : PyFormat := {| str_other := λ _, py "4.0" |}.

Abbreviation ex_verify := (@verify ascii_unicode toy_format toy_ecdsa).

(** A version 3 postback, with the value of [did-win] and what is not signed. *)
Definition ex_skan (did_win : json) (extra : props) : props :=
  [(py "version", JStr (py "3.0")); (py "ad-network-id", JStr (py "net")); (py "campaign-id", JInt 42);
   (py "app-id", JInt 525463029); (py "transaction-id", JStr (py "t1")); (py "redownload", JBool false);
   (py "source-app-id", JInt 7); (py "fidelity-type", JInt 1); (py "did-win", did_win);
   (SIGNATURE_FIELD, JStr (py "My4w"))] ++ extra.

Definition ex_order : list Field := default [] (od_get (py "3.0") FIELD_ORDER).
Definition ex_verified (did_win : json) : Verified :=
  match ex_verify (ex_skan did_win []) with
  | Ok (inl v) => v
  | _ => {| ve_version := []; ve_ad_network_id := []; ve_app_id := []; ve_transaction_id := [];
            ve_source_identifier := None; ve_did_win := true; ve_redownload := true;
            ve_fidelity_type := None; ve_conversion_value := None; ve_coarse_value := None;
            ve_postback_sequence_index := None; ve_source_app_id := None; ve_source_domain := None |}
  end.

Lemma signature_covers_the_fields_witness :
  @part toy_format (ex_skan (JBool false) []) (Param (py "app-id")) =
  @part toy_format (ex_skan (JStr (py "false")) []) (Param (py "app-id")).
Proof.
  apply (@signature_covers_the_fields ascii_unicode toy_format toy_ecdsa (ex_skan (JBool false) [])
    (ex_skan (JStr (py "false")) []) (ex_verified (JBool false)) (ex_verified (JStr (py "false")))
    ex_order ex_order (Param (py "app-id"))); [vm_compute; reflexivity .. |].
  apply list_elem_of_In. vm_compute. tauto.
Defined.

Definition ex_skan_request (did_win : json) (extra : props) : SkanRequest :=
  {| sq_body := [1%N]; sq_json := Some (JObj (ex_skan did_win extra)); sq_jsonb := true |}.

Definition ex_skan_state : SkanState :=
  {| st_apps := [{| aa_id := 9; aa_organization_id := 2; aa_apple_app_id := Some 525463029;
                    aa_status := py "active" |}];
     st_rows := []; st_outcomes := [] |}.

Abbreviation ex_receive := (@receive_postback ascii_unicode toy_format toy_ecdsa).

Definition ex_retried : list SkanRequest :=
  [ex_skan_request (JBool false) []; ex_skan_request (JBool false) []].

Lemma stored_postbacks_are_genuine_witness :
  let s' := @receive_all ascii_unicode toy_format toy_ecdsa ex_retried ex_skan_state in
  length (st_rows s') = 1%nat ∧ NoDup ((λ r, ve_transaction_id (sk_postback r)) <$> st_rows s').
Proof.
  split; [vm_compute; reflexivity |].
  apply (@stored_postbacks_are_genuine ascii_unicode toy_format toy_ecdsa ex_retried ex_skan_state).
  reflexivity.
Defined.

Lemma response_says_nothing_witness :
  ∃ r, fst (ex_receive (ex_skan_request (JBool false) []) ex_skan_state) = Ok r ∧ r = ACCEPTED.
Proof.
  exists ACCEPTED. split; [vm_compute; reflexivity |].
  apply (@response_says_nothing ascii_unicode toy_format toy_ecdsa (ex_skan_request (JBool false) [])
    ex_skan_state {| st_apps := []; st_rows := []; st_outcomes := [] |}); vm_compute; reflexivity.
Defined.

(** ** What the code does beyond its documentation *)

(** The signed string covers the rendering of a boolean, not its type: the text "false"
    renders alike and reads as true, so that a postback of Apple's that says the network
    did not win is accepted, signature and all, as one that says it did. *)
Lemma did_win_can_be_flipped :
  @canonical_string toy_format ex_order (ex_skan (JBool false) []) =
  @canonical_string toy_format ex_order (ex_skan (JStr (py "false")) []) ∧
  ve_did_win (ex_verified (JBool false)) = false ∧ ve_did_win (ex_verified (JStr (py "false"))) = true.
Proof. split; [| split]; vm_compute; reflexivity. Qed.

(** Before version 4 the source identifier is not signed, and takes precedence over the
    campaign id that is. *)
Lemma campaign_can_be_replaced :
  ∃ v, ex_verify (ex_skan (JBool true) [(py "source-identifier", JStr (py "9999"))]) = Ok (inl v) ∧
       ve_source_identifier v = Some (py "9999").
Proof. eexists. split; vm_compute; reflexivity. Qed.

(** In version 4 the two kinds of source sign alike. *)
Lemma source_kind_is_not_signed :
  @part toy_format [(py "source-app-id", JStr (py "x"))] Source =
  @part toy_format [(py "source-domain", JStr (py "x"))] Source.
Proof. vm_compute. reflexivity. Qed.

(** [verify] raises: on a lone surrogate before any signature is checked, and on an
    infinite conversion value, which the signature does not cover. *)
Lemma verify_raises :
  ex_verify (ex_skan (JStr [0xd800%N]) []) = Err UnicodeEncodeError ∧
  ex_verify (ex_skan (JBool true) [(py "conversion-value", JFloat (S754_infinity false))]) = Err OverflowError.
Proof. split; vm_compute; reflexivity. Qed.

(** A storage failure is not swallowed: a conversion value out of range is an error
    response, which Apple retries. *)
Lemma store_failure_is_returned :
  fst (ex_receive (ex_skan_request (JBool true) [(py "conversion-value", JInt 64)]) ex_skan_state)
  = Err StoreError.
Proof. vm_compute. reflexivity. Qed.
