(* ===== verification/Catalogue.v ===== *)
(** * The event catalogue (mmp_ingest/catalogue.py, mmp_api/routes/events.py)

    The standard vocabulary, the definitions an advertiser keeps beside it, and the
    endpoints that list, define, change and delete them.  A request is one transaction of
    one organisation; what row security hides is filtered by organisation. *)

From S2P Require Import Prelude Redis Ids Schema AuditLog.

#[local] Open Scope Z_scope.
#[local] Open Scope mmp_scope.

(** ** The standard events *)

Definition CATEGORIES : list pystr :=
  [py "lifecycle"; py "account"; py "commerce"; py "engagement"; py "content"; py "gaming"].

Record EventProperty := { ep_name : pystr; ep_type : pystr; ep_description : pystr }.

Record StandardEvent := {
  se_name : pystr;
  se_display_name : pystr;
  se_category : pystr;
  se_description : pystr;
  se_properties : list EventProperty;
  se_revenue : bool;
  se_sdk_owned : bool
}.

(** [_p]. *)
Definition property (name type description : pystr) : EventProperty :=
  {| ep_name := name; ep_type := type; ep_description := description |}.

Definition standard (name display_name category description : pystr) (properties : list EventProperty)
    (revenue sdk_owned : bool) : StandardEvent :=
  {| se_name := name; se_display_name := display_name; se_category := category;
     se_description := description; se_properties := properties; se_revenue := revenue;
     se_sdk_owned := sdk_owned |}.

Definition LIFECYCLE : list StandardEvent := [
  standard (py "install") (py "Install") (py "lifecycle")
    (py "First launch after installation. Sent once by the SDK; this is the event attribution is decided on.")
    [] false true;
  standard (py "app_open") (py "App open") (py "lifecycle")
    (py "The app came to the foreground. Sent by the SDK on every launch after the first.")
    [] false true;
  standard (py "session_start") (py "Session start") (py "lifecycle")
    (py "A new session began. Sessions are decided server-side from the app's timeout, so two devices with different clocks produce comparable counts.")
    [] false true;
  standard (py "session_end") (py "Session end") (py "lifecycle")
    (py "The session ended after the app's inactivity timeout.")
    [] false true;
  standard (py "consent_update") (py "Consent update") (py "lifecycle")
    (py "The user's consent choices changed. Sent by the SDK from setConsent().")
    [] false true
].

Definition ACCOUNT : list StandardEvent := [
  standard (py "signup") (py "Sign up") (py "account")
    (py "An account was created. Sent by the SDK when setUserId() is first called.")
    [property (py "method") (py "string")
          (py "How they signed up: email, google, apple" ++ [8230%N])] false true;
  standard (py "login") (py "Login") (py "account")
    (py "An existing user signed in. Sent by the SDK from setUserId().")
    [property (py "method") (py "string")
          (py "How they signed in.")] false true;
  standard (py "profile_update") (py "Profile update") (py "account")
    (py "The user changed something about their account.")
    [property (py "field") (py "string")
          (py "What changed.")] false false
].

Definition COMMERCE : list StandardEvent := [
  standard (py "view_item") (py "View item") (py "commerce")
    (py "A product or item detail screen was viewed.")
    [property (py "item_id") (py "string")
          (py "Your identifier for the item.");
        property (py "item_name") (py "string")
          (py "Human-readable name.");
        property (py "category") (py "string")
          (py "Catalogue category.");
        property (py "price_minor") (py "integer")
          (py "Price in minor units (cents, paise).");
        property (py "currency") (py "string")
          (py "ISO 4217 code.")] false false;
  standard (py "add_to_cart") (py "Add to cart") (py "commerce")
    (py "An item was added to the basket.")
    [property (py "item_id") (py "string")
          (py "Your identifier for the item.");
        property (py "quantity") (py "integer")
          (py "How many.");
        property (py "price_minor") (py "integer")
          (py "Unit price in minor units.");
        property (py "currency") (py "string")
          (py "ISO 4217 code.")] false false;
  standard (py "remove_from_cart") (py "Remove from cart") (py "commerce")
    (py "An item was removed from the basket.")
    [property (py "item_id") (py "string")
          (py "Your identifier for the item.")] false false;
  standard (py "begin_checkout") (py "Begin checkout") (py "commerce")
    (py "The user started the checkout flow.")
    [property (py "value_minor") (py "integer")
          (py "Basket value in minor units.");
        property (py "currency") (py "string")
          (py "ISO 4217 code.");
        property (py "item_count") (py "integer")
          (py "Items in the basket.")] false false;
  standard (py "add_payment_info") (py "Add payment info") (py "commerce")
    (py "A payment method was entered or selected.")
    [property (py "payment_type") (py "string")
          (py "card, upi, wallet" ++ [8230%N])] false false;
  standard (py "purchase") (py "Purchase") (py "commerce")
    (py "A completed purchase. Send revenue_minor and currency on the event itself " ++ [8212%N] ++ py " this is what revenue reports and postbacks read.")
    [property (py "order_id") (py "string")
          (py "Your order identifier, for reconciliation.");
        property (py "item_count") (py "integer")
          (py "Items in the order.");
        property (py "coupon") (py "string")
          (py "Promotion code, if any.")] true false;
  standard (py "refund") (py "Refund") (py "commerce")
    (py "A purchase was refunded. Send the refunded amount as revenue_minor; reports subtract it.")
    [property (py "order_id") (py "string")
          (py "The order being refunded.")] true false;
  standard (py "subscription_start") (py "Subscription start") (py "commerce")
    (py "A subscription or trial began.")
    [property (py "plan") (py "string")
          (py "Plan identifier.");
        property (py "trial") (py "boolean")
          (py "Whether this is a free trial.")] true false;
  standard (py "subscription_renew") (py "Subscription renewal") (py "commerce")
    (py "A subscription renewed. Usually sent server-to-server from your billing webhook rather than from the device.")
    [property (py "plan") (py "string")
          (py "Plan identifier.")] true false;
  standard (py "subscription_cancel") (py "Subscription cancelled") (py "commerce")
    (py "The user cancelled a subscription.")
    [property (py "plan") (py "string")
          (py "Plan identifier.");
        property (py "reason") (py "string")
          (py "Why, if you ask.")] false false
].

Definition ENGAGEMENT : list StandardEvent := [
  standard (py "tutorial_begin") (py "Tutorial begin") (py "engagement")
    (py "The onboarding or tutorial started.")
    [] false false;
  standard (py "tutorial_complete") (py "Tutorial complete") (py "engagement")
    (py "The onboarding or tutorial finished. A strong early signal of a retained user.")
    [] false false;
  standard (py "search") (py "Search") (py "engagement")
    (py "A search was performed.")
    [property (py "query") (py "string")
          (py "What was searched for.");
        property (py "results") (py "integer")
          (py "How many results.")] false false;
  standard (py "share") (py "Share") (py "engagement")
    (py "Content was shared out of the app.")
    [property (py "content_type") (py "string")
          (py "What kind of thing.");
        property (py "channel") (py "string")
          (py "Where it went: whatsapp, sms, copy_link" ++ [8230%N])] false false;
  standard (py "invite") (py "Invite") (py "engagement")
    (py "The user invited someone.")
    [property (py "channel") (py "string")
          (py "How the invitation was sent.")] false false;
  standard (py "rate") (py "Rate") (py "engagement")
    (py "The user rated the app or an item.")
    [property (py "score") (py "integer")
          (py "The rating given.");
        property (py "max") (py "integer")
          (py "The scale's maximum.")] false false;
  standard (py "notification_open") (py "Notification opened") (py "engagement")
    (py "A push notification was opened.")
    [property (py "campaign") (py "string")
          (py "Your notification campaign name.")] false false;
  standard (py "deep_link_open") (py "Deep link opened") (py "engagement")
    (py "The app was opened through a deep link.")
    [property (py "destination") (py "string")
          (py "Where it routed.")] false false
].

Definition CONTENT : list StandardEvent := [
  standard (py "content_view") (py "Content view") (py "content")
    (py "A piece of content was viewed: article, video, listing.")
    [property (py "content_id") (py "string")
          (py "Your identifier.");
        property (py "content_type") (py "string")
          (py "What kind of content.")] false false;
  standard (py "ad_impression") (py "Ad impression") (py "content")
    (py "An in-app ad was shown. Send revenue_minor for ad revenue.")
    [property (py "ad_unit") (py "string")
          (py "Placement identifier.");
        property (py "network") (py "string")
          (py "Which network served it.")] true false;
  standard (py "ad_click") (py "Ad click") (py "content")
    (py "An in-app ad was tapped.")
    [property (py "ad_unit") (py "string")
          (py "Placement identifier.")] false false
].

Definition GAMING : list StandardEvent := [
  standard (py "level_start") (py "Level start") (py "gaming")
    (py "A level or stage began.")
    [property (py "level") (py "integer")
          (py "Level number or name.")] false false;
  standard (py "level_complete") (py "Level complete") (py "gaming")
    (py "A level or stage was completed.")
    [property (py "level") (py "integer")
          (py "Level number or name.");
        property (py "score") (py "integer")
          (py "Score achieved.")] false false;
  standard (py "achievement_unlocked") (py "Achievement unlocked") (py "gaming")
    (py "An achievement was earned.")
    [property (py "achievement_id") (py "string")
          (py "Your identifier.")] false false;
  standard (py "spend_virtual_currency") (py "Spend virtual currency") (py "gaming")
    (py "In-game currency was spent.")
    [property (py "currency_name") (py "string")
          (py "coins, gems" ++ [8230%N]);
        property (py "amount") (py "integer")
          (py "How much.");
        property (py "item_id") (py "string")
          (py "What it bought.")] false false;
  standard (py "earn_virtual_currency") (py "Earn virtual currency") (py "gaming")
    (py "In-game currency was earned.")
    [property (py "currency_name") (py "string")
          (py "coins, gems" ++ [8230%N]);
        property (py "amount") (py "integer")
          (py "How much.")] false false
].

Definition STANDARD_EVENTS : list StandardEvent :=
  LIFECYCLE ++ ACCOUNT ++ COMMERCE ++ ENGAGEMENT ++ CONTENT ++ GAMING.

Definition blocked_events_cache_key (app_id : pystr) : pystr := py "blocked_events:" ++ app_id.

Section Catalogue.
Context {U : Unicode}.

(** [_BY_CANONICAL]. *)
Definition BY_CANONICAL : list (pystr * StandardEvent) :=
  od_of ((λ e, (canonical_event_name (se_name e), e)) <$> STANDARD_EVENTS) [].

Definition standard_event (name : pystr) : option StandardEvent :=
  od_get (canonical_event_name name) BY_CANONICAL.

(** The names of the catalogue are ASCII: their folded forms are distinct under any
    Unicode database. *)
Lemma canonical_ascii s : ascii_str s = true →
  canonical_event_name s = List.filter is_alnum_ascii (lower_ascii <$> s).
Proof.
  intros Hs. unfold canonical_event_name, py_lower. rewrite Hs.
  assert (∀ l, Forall (λ c, is_ascii c = true) l → List.filter py_isalnum l = List.filter is_alnum_ascii l) as Hf.
  { intros l Hl. induction Hl as [|c l Hc _ IH]; [done |]. cbn. unfold py_isalnum at 1. by rewrite Hc, IH. }
  apply Hf. unfold ascii_str in Hs. rewrite forallb_forall in Hs. apply Forall_fmap, Forall_forall.
  intros c Hc. specialize (Hs c). rewrite <- list_elem_of_In in Hs. specialize (Hs Hc). cbn.
  unfold lower_ascii. destruct (is_upper_ascii c) eqn:Eu; [| done].
  unfold is_upper_ascii, in_range in Eu. apply andb_true_iff in Eu as [_ H2%N.leb_le].
  unfold is_ascii. apply N.ltb_lt. lia.
Qed.

Definition fold_ascii (s : pystr) : pystr := List.filter is_alnum_ascii (lower_ascii <$> s).

Lemma catalogue_folded :
  ((λ e, (canonical_event_name (se_name e), e)) <$> STANDARD_EVENTS) =
  ((λ e, (fold_ascii (se_name e), e)) <$> STANDARD_EVENTS).
Proof.
  apply list_fmap_ext. intros i e He. f_equal. apply canonical_ascii.
  assert (forallb (λ e, ascii_str (se_name e)) STANDARD_EVENTS = true) as Hall by (vm_compute; reflexivity).
  rewrite forallb_forall in Hall. apply Hall, list_elem_of_In. by eapply list_elem_of_lookup_2.
Qed.

Lemma catalogue_distinct : NoDup ((λ e, fold_ascii (se_name e)) <$> STANDARD_EVENTS).
Proof. apply (bool_decide_unpack _). vm_compute. exact I. Qed.

Lemma by_canonical : BY_CANONICAL = ((λ e, (canonical_event_name (se_name e), e)) <$> STANDARD_EVENTS).
Proof.
  unfold BY_CANONICAL. rewrite od_of_app; [done |]. cbn [app]. rewrite catalogue_folded, <- list_fmap_compose.
  exact catalogue_distinct.
Qed.

(** [standard_event] finds a standard event under every spelling of its name, and only
    it. *)
Lemma standard_event_exact name e :
  standard_event name = Some e ↔
  e ∈ STANDARD_EVENTS ∧ canonical_event_name name = canonical_event_name (se_name e).
Proof.
  unfold standard_event. rewrite by_canonical. split.
  - intros He%od_get_elem. apply list_elem_of_fmap in He as (e' & [= E <-] & Hin). done.
  - intros [Hin E]. set (l := (λ e, (canonical_event_name (se_name e), e)) <$> STANDARD_EVENTS).
    assert ((canonical_event_name name, e) ∈ l) as Hl by (apply list_elem_of_fmap; exists e; by rewrite E).
    destruct (od_elem_get _ _ _ Hl) as [e' E']. rewrite E'. f_equal. apply od_get_elem in E'.
    eapply (NoDup_fst_functional l); [| exact E' | exact Hl].
    unfold l. rewrite catalogue_folded, <- list_fmap_compose. exact catalogue_distinct.
Qed.

#[local] Opaque standard_event.

(** ** mmp_api/routes/events.py: definitions *)

Inductive DefinitionStatus := DefActive | DefBlocked.

#[export] Instance definition_status_eq_dec : EqDecision DefinitionStatus.
Proof. solve_decision. Defined.

(** A row of [event_definitions]. *)
Record EventDefinition := {
  ed_id : uuid;
  ed_organization_id : uuid;
  ed_app_id : uuid;
  ed_name : pystr;
  ed_display_name : pystr;
  ed_description : option pystr;
  ed_category : pystr;
  ed_kind : pystr;
  ed_revenue : bool;
  ed_status : DefinitionStatus;
  ed_blocked_at : option datetime
}.

Record CatalogueDb := { cd_apps : list (uuid * uuid); cd_definitions : list EventDefinition }.

Definition set_definitions (l : list EventDefinition) (db : CatalogueDb) : CatalogueDb :=
  {| cd_apps := cd_apps db; cd_definitions := l |}.

(** An [HTTPException], or a constraint of the table that is not handled. *)
Inductive HttpError := NotFound | Conflict | Unprocessable | NotNullViolation.

(** The body of a POST, and of a PATCH: a field of a PATCH is absent, null or a value. *)
Record EventDefinitionIn := {
  di_name : pystr;
  di_display_name : option pystr;
  di_description : option pystr;
  di_category : pystr;
  di_revenue : bool
}.

Record EventDefinitionUpdate := {
  du_display_name : option (option pystr);
  du_description : option (option pystr);
  du_category : option (option pystr);
  du_revenue : option (option bool);
  du_status : option (option DefinitionStatus)
}.

(** What an endpoint tells the audit log: action, resource and the name in the detail. *)
Record AuditCall := { ac_action : pystr; ac_resource_id : uuid; ac_name : pystr }.

Definition within (lo hi : nat) (s : pystr) : bool := (lo <=? length s)%nat && (length s <=? hi)%nat.

Definition opt_within (lo hi : nat) (o : option pystr) : bool :=
  match o with Some s => within lo hi s | None => true end.

Definition EVENT_CATEGORIES : list pystr := CATEGORIES ++ [py "custom"].

(** The limits of the two bodies. *)
Definition valid_in (b : EventDefinitionIn) : bool :=
  within 1 (Z.to_nat MAX_EVENT_NAME_LENGTH) (di_name b) && opt_within 1 120 (di_display_name b) &&
  opt_within 0 2000 (di_description b) && bool_decide (di_category b ∈ EVENT_CATEGORIES).

Definition valid_update (b : EventDefinitionUpdate) : bool :=
  opt_within 1 120 (default None (du_display_name b)) &&
  opt_within 0 2000 (default None (du_description b)) &&
  match default None (du_category b) with
  | Some c => bool_decide (c ∈ EVENT_CATEGORIES) | None => true
  end.

(** [_require_app], under row security. *)
Definition require_app (db : CatalogueDb) (org app : uuid) : result HttpError unit :=
  raise_if (negb (bool_decide ((app, org) ∈ cd_apps db))) NotFound.

(** The definition a request may see. *)
Definition find_definition (db : CatalogueDb) (org app id : uuid) : option EventDefinition :=
  List.find (λ d, bool_decide (ed_id d = id) && bool_decide (ed_app_id d = app) &&
                  bool_decide (ed_organization_id d = org)) (cd_definitions db).

(** [_publish_blocked]: the names published. *)
Definition blocked_names (db : CatalogueDb) (org app : uuid) : list pystr :=
  ed_name <$> List.filter (λ d, bool_decide (ed_app_id d = app) && bool_decide (ed_organization_id d = org) &&
                                bool_decide (ed_status d = DefBlocked)) (cd_definitions db).

Definition define_event (org app id : uuid) (body : EventDefinitionIn) (db : CatalogueDb)
    : result HttpError (EventDefinition * AuditCall * CatalogueDb) :=
  let* _ := raise_if (negb (valid_in body)) Unprocessable in
  let* _ := require_app db org app in
  let name := py_strip (di_name body) in
  let* _ := raise_if (bool_decide (name = [])) Unprocessable in
  let found := standard_event name in
  let display := match di_display_name body with
                 | Some ((_ :: _) as s) => s
                 | _ => match found with Some e => se_display_name e | None => name end
                 end in
  let row := {| ed_id := id; ed_organization_id := org; ed_app_id := app; ed_name := name;
                ed_display_name := py_strip display; ed_description := di_description body;
                ed_category := match found with Some e => se_category e | None => di_category body end;
                ed_kind := match found with Some _ => py "standard" | None => py "custom" end;
                ed_revenue := match found with Some e => se_revenue e | None => di_revenue body end;
                ed_status := DefActive; ed_blocked_at := None |} in
  let* _ := raise_if (existsb (λ d, bool_decide (ed_id d = id) ||
                                    bool_decide ((ed_app_id d, ed_name d) = (app, name)))
                        (cd_definitions db)) Conflict in
  Ok (row, {| ac_action := py "event_definition.created"; ac_resource_id := id; ac_name := name |},
      set_definitions (cd_definitions db ++ [row]) db).

(** The changes of a PATCH that a definition takes. *)
Definition changes_for (current : EventDefinition) (b : EventDefinitionUpdate) : EventDefinitionUpdate :=
  if bool_decide (ed_kind current = py "standard") then
    {| du_display_name := du_display_name b; du_description := du_description b;
       du_category := None; du_revenue := None; du_status := du_status b |}
  else b.

Definition no_changes (b : EventDefinitionUpdate) : bool :=
  bool_decide (du_display_name b = None) && bool_decide (du_description b = None) &&
  bool_decide (du_category b = None) && bool_decide (du_revenue b = None) &&
  bool_decide (du_status b = None).

(** The UPDATE, whose columns but the description are not null. *)
Definition apply_changes (now : datetime) (b : EventDefinitionUpdate) (d : EventDefinition)
    : result HttpError EventDefinition :=
  let col {A} (old : A) (change : option (option A)) : result HttpError A :=
    match change with
    | None => Ok old
    | Some None => Err NotNullViolation
    | Some (Some x) => Ok x
    end in
  let* display := col (ed_display_name d) (du_display_name b) in
  let* category := col (ed_category d) (du_category b) in
  let* revenue := col (ed_revenue d) (du_revenue b) in
  let* status := col (ed_status d) (du_status b) in
  Ok {| ed_id := ed_id d; ed_organization_id := ed_organization_id d; ed_app_id := ed_app_id d;
        ed_name := ed_name d; ed_display_name := display;
        ed_description := match du_description b with Some x => x | None => ed_description d end;
        ed_category := category; ed_kind := ed_kind d; ed_revenue := revenue; ed_status := status;
        ed_blocked_at :=
          match du_status b with
          | Some (Some DefBlocked) =>
              if bool_decide (ed_status d = DefBlocked) then ed_blocked_at d else Some now
          | Some (Some DefActive) => None
          | _ => ed_blocked_at d
          end |}.

Definition replace_definition (row : EventDefinition) (db : CatalogueDb) : CatalogueDb :=
  set_definitions ((λ d, if bool_decide (ed_id d = ed_id row) then row else d) <$> cd_definitions db) db.

(** [update_event]: the row, what is published when the status changed, and the audit. *)
Definition update_event (org app id : uuid) (now : datetime) (body : EventDefinitionUpdate) (db : CatalogueDb)
    : result HttpError (EventDefinition * option (list pystr) * list AuditCall * CatalogueDb) :=
  let* _ := raise_if (negb (valid_update body)) Unprocessable in
  let* _ := require_app db org app in
  match find_definition db org app id with
  | None => Err NotFound
  | Some current =>
      let changes := changes_for current body in
      if no_changes changes then Ok (current, None, [], db)
      else
        let* row := apply_changes now changes current in
        let db := replace_definition row db in
        match du_status changes with
        | Some (Some st) =>
            if bool_decide (st = ed_status current) then Ok (row, None, [], db)
            else
              Ok (row, Some (blocked_names db org app),
                  [{| ac_action := match st with
                                   | DefBlocked => py "event_definition.blocked"
                                   | DefActive => py "event_definition.unblocked"
                                   end;
                      ac_resource_id := id; ac_name := ed_name current |}], db)
        | _ => Ok (row, None, [], db)
        end
  end.

Definition delete_event_definition (org app id : uuid) (db : CatalogueDb)
    : result HttpError (option (list pystr) * AuditCall * CatalogueDb) :=
  let* _ := require_app db org app in
  match find_definition db org app id with
  | None => Err NotFound
  | Some d =>
      let db := set_definitions (List.filter (λ d', negb (bool_decide (ed_id d' = id))) (cd_definitions db)) db in
      Ok (match ed_status d with DefBlocked => Some (blocked_names db org app) | DefActive => None end,
          {| ac_action := py "event_definition.deleted"; ac_resource_id := id; ac_name := ed_name d |}, db)
  end.

(** ** Lemmas: definitions *)

Inductive CatalogueOp :=
| Define (org app id : uuid) (body : EventDefinitionIn)
| Patch (org app id : uuid) (now : datetime) (body : EventDefinitionUpdate)
| Delete (org app id : uuid).

Definition run_op (db : CatalogueDb) (op : CatalogueOp) : CatalogueDb :=
  match op with
  | Define org app id body => match define_event org app id body db with Ok (_, _, db) => db | Err _ => db end
  | Patch org app id now body =>
      match update_event org app id now body db with Ok (_, _, _, db) => db | Err _ => db end
  | Delete org app id =>
      match delete_event_definition org app id db with Ok (_, _, db) => db | Err _ => db end
  end.

(** A definition agrees with the catalogue. *)
Definition agrees (d : EventDefinition) : Prop :=
  match standard_event (ed_name d) with
  | Some e => ed_kind d = py "standard" ∧ ed_category d = se_category e ∧ ed_revenue d = se_revenue e
  | None => ed_kind d = py "custom"
  end.

Definition definition_key (d : EventDefinition) : uuid * pystr := (ed_app_id d, ed_name d).

Lemma apply_changes_keeps now b d d' :
  apply_changes now b d = Ok d' →
  ed_id d' = ed_id d ∧ definition_key d' = definition_key d ∧ ed_kind d' = ed_kind d ∧
  (du_category b = None → ed_category d' = ed_category d) ∧
  (du_revenue b = None → ed_revenue d' = ed_revenue d).
Proof.
  unfold apply_changes. intros Ha.
  apply rbind_Ok in Ha as (? & _ & Ha). apply rbind_Ok in Ha as (category & Hc & Ha).
  apply rbind_Ok in Ha as (revenue & Hr & Ha). apply rbind_Ok in Ha as (? & _ & [= <-]). cbn.
  repeat (split; [done |]). split; intros E; [rewrite E in Hc | rewrite E in Hr]; congruence.
Qed.

Lemma changed_agrees now b d d' : apply_changes now (changes_for d b) d = Ok d' → agrees d → agrees d'.
Proof.
  intros Ha Hd. destruct (apply_changes_keeps _ _ _ _ Ha) as (_ & Hk & Hkind & Hc & Hr).
  unfold agrees in *. injection Hk as _ ->. destruct (standard_event (ed_name d)) as [e|]; [| congruence].
  destruct Hd as (Hs & Ec & Er). unfold changes_for in *. rewrite bool_decide_true in * by done.
  split; [congruence |]. rewrite Hc, Hr by done. done.
Qed.

Record catalogue_ok (db : CatalogueDb) : Prop := {
  ck_agrees : Forall agrees (cd_definitions db);
  ck_keys : NoDup (definition_key <$> cd_definitions db);
  ck_ids : NoDup (ed_id <$> cd_definitions db)
}.

Lemma define_ok org app id body db row call db' :
  define_event org app id body db = Ok (row, call, db') → catalogue_ok db → catalogue_ok db'.
Proof.
  unfold define_event. intros E [Ha Hk Hi].
  apply rbind_Ok in E as (? & _ & E). apply rbind_Ok in E as (? & _ & E). apply rbind_Ok in E as (? & _ & E).
  apply rbind_Ok in E as (? & Hc%raise_if_Ok & E). set (r := {| ed_id := id |}) in E. injection E as _ _ <-.
  assert (∀ d, d ∈ cd_definitions db → ed_id d ≠ id ∧ definition_key d ≠ definition_key r) as Hnew.
  { intros d Hd. split; intros Ed; apply not_true_iff_false in Hc; apply Hc, existsb_exists; exists d;
      rewrite <- list_elem_of_In; (split; [done |]); apply orb_true_iff; [left | right];
      by apply bool_decide_eq_true. }
  split; cbn; rewrite ?fmap_app.
  - apply Forall_app. split; [done |]. apply Forall_singleton. unfold agrees, r. cbn.
    by destruct (standard_event _).
  - apply NoDup_app. split; [done |]. split; [| apply NoDup_singleton].
    intros k (d & -> & Hd)%list_elem_of_fmap Ek%list_elem_of_singleton. by destruct (Hnew d Hd).
  - apply NoDup_app. split; [done |]. split; [| apply NoDup_singleton].
    intros k (d & -> & Hd)%list_elem_of_fmap Ek%list_elem_of_singleton. by destruct (Hnew d Hd).
Qed.

Lemma replace_ok row d db :
  d ∈ cd_definitions db → ed_id row = ed_id d → definition_key row = definition_key d → agrees row →
  catalogue_ok db → catalogue_ok (replace_definition row db).
Proof.
  intros Hd Ei Ek Ha [Hag Hk Hi].
  assert (∀ x, x ∈ cd_definitions db → ed_id x = ed_id row → x = d) as Huniq.
  { intros x Hx Ex. apply (NoDup_fmap_elem ed_id (cd_definitions db) x d); [done | done | done | congruence]. }
  split; cbn.
  - apply Forall_fmap, Forall_forall. intros x Hx. cbn. rewrite Forall_forall in Hag.
    destruct (bool_decide _); [done | by apply Hag].
  - rewrite <- list_fmap_compose. erewrite list_fmap_ext; [exact Hk |]. intros i x Hx. cbn.
    destruct (bool_decide (ed_id x = ed_id row)) eqn:E; [| done]. apply bool_decide_eq_true in E.
    rewrite Ek. f_equal. symmetry. apply Huniq; [by eapply list_elem_of_lookup_2 | done].
  - rewrite <- list_fmap_compose. erewrite list_fmap_ext; [exact Hi |]. intros i x Hx. cbn.
    destruct (bool_decide (ed_id x = ed_id row)) eqn:E; [| done]. by apply bool_decide_eq_true in E.
Qed.

Lemma find_definition_elem db org app id d :
  find_definition db org app id = Some d → d ∈ cd_definitions db ∧ ed_id d = id.
Proof.
  intros [Hd Hp]%find_some. apply andb_true_iff in Hp as [[Hp _]%andb_true_iff _].
  apply bool_decide_eq_true in Hp. by rewrite list_elem_of_In.
Qed.

Lemma update_ok org app id now body db r db' :
  update_event org app id now body db = Ok (r, db') → catalogue_ok db → catalogue_ok db'.
Proof.
  unfold update_event. intros E Hok. apply rbind_Ok in E as (? & _ & E). apply rbind_Ok in E as (? & _ & E).
  destruct (find_definition db org app id) as [current|] eqn:Ef; [| done].
  destruct (no_changes (changes_for current body)); [by injection E as <- <- |].
  apply rbind_Ok in E as (row & Hr & E). destruct (find_definition_elem _ _ _ _ _ Ef) as [Hin _].
  assert (db' = replace_definition row db) as ->.
  { destruct (du_status (changes_for current body)) as [[st|]|]; [destruct (bool_decide _) |..];
      by injection E as <- <-. }
  destruct (apply_changes_keeps _ _ _ _ Hr) as (Hid & Hk & _).
  eapply replace_ok; [exact Hin | done | done | | done].
  eapply changed_agrees; [exact Hr |]. destruct Hok as [Ha _ _]. rewrite Forall_forall in Ha. by apply Ha.
Qed.

Lemma delete_ok org app id db r db' :
  delete_event_definition org app id db = Ok (r, db') → catalogue_ok db → catalogue_ok db'.
Proof.
  unfold delete_event_definition. intros E [Ha Hk Hi]. apply rbind_Ok in E as (? & _ & E).
  destruct (find_definition db org app id); [| done]. injection E as _ <-. split; cbn.
  - rewrite Forall_forall in Ha |- *. intros y [Hy _]%elem_of_lfilter. by apply Ha.
  - by apply NoDup_fmap_filter.
  - by apply NoDup_fmap_filter.
Qed.

(** The catalogue decides what a standard event means.  Whatever advertisers define,
    change and delete, every definition whose name is a spelling of a standard event keeps
    the category and the revenue flag of the catalogue, and an app has one definition per
    name. *)
Theorem catalogue_decides_standard_events ops db :
  cd_definitions db = [] →
  let db' := fold_left run_op ops db in
  Forall agrees (cd_definitions db') ∧ NoDup (definition_key <$> cd_definitions db').
Proof.
  intros H0 db'. cut (catalogue_ok db'); [by intros [? ? _] |].
  assert (catalogue_ok db) as Hok by (split; rewrite H0; constructor). unfold db'. clear H0 db'.
  revert db Hok. induction ops as [|op ops IH]; intros db Hok; [done |]. cbn. apply IH.
  destruct op as [org app id body|org app id now body|org app id]; cbn [run_op].
  - destruct (define_event _ _ _ _ _) as [[[row call] l]|] eqn:E; [by eapply define_ok | done].
  - destruct (update_event _ _ _ _ _ _) as [[r l]|] eqn:E; [| done]. eapply update_ok in E; [| done].
    by destruct r as [[] ?].
  - destruct (delete_event_definition _ _ _ _) as [[r l]|] eqn:E; [| done]. eapply delete_ok in E; [| done].
    by destruct r.
Qed.

(** Every action the endpoints record is one the audit log knows. *)
Lemma audited_actions_are_known :
  Forall (λ a, a ∈ ACTIONS) [py "event_definition.created"; py "event_definition.blocked";
                             py "event_definition.unblocked"; py "event_definition.deleted"].
Proof. apply (bool_decide_unpack _). vm_compute. exact I. Qed.

(** A PATCH that takes the display name away with an explicit null passes the body's
    validation and fails on the column. *)
Lemma null_reaches_the_column org app id now d :
  let body := {| du_display_name := Some None; du_description := None; du_category := None;
                 du_revenue := None; du_status := None |} in
  let db := {| cd_apps := [(app, org)]; cd_definitions := [d] |} in
  ed_id d = id → ed_app_id d = app → ed_organization_id d = org →
  valid_update body = true ∧ update_event org app id now body db = Err NotNullViolation.
Proof.
  intros body db Hi Ha Ho. split; [done |]. unfold update_event, require_app, find_definition, db. cbn.
  rewrite !bool_decide_true by (done || by left). cbn. unfold changes_for.
  by destruct (bool_decide (ed_kind d = _)).
Qed.
End Catalogue.

(** ** On concrete tables *)

Lemma catalogue_decides_standard_events_witness :
  let body := {| di_name := py " Purchase "; di_display_name := None; di_description := None;
                 di_category := py "gaming"; di_revenue := false |} in
  let change := {| du_display_name := None; du_description := None; du_category := Some (Some (py "content"));
                   du_revenue := Some (Some false); du_status := Some (Some DefBlocked) |} in
  let ops := [Define 1%N 2%N 3%N body; Patch 1%N 2%N 3%N 50 change; Define 1%N 2%N 4%N body] in
  let db' := fold_left (run_op (U := ascii_unicode)) ops {| cd_apps := [(2%N, 1%N)]; cd_definitions := [] |} in
  (λ d, (ed_name d, ed_category d, ed_revenue d, ed_status d)) <$> cd_definitions db' =
    [(py "Purchase", py "commerce", true, DefBlocked)] ∧
  Forall (agrees (U := ascii_unicode)) (cd_definitions db').
Proof.
  cbv zeta. split; [vm_compute; reflexivity |].
  apply (catalogue_decides_standard_events (U := ascii_unicode)). reflexivity.
Defined.
