(* ===== verification/EventList.v ===== *)
(** * The list of an app's events (mmp_api/routes/events.py, [list_app_events])

    The endpoint that merges the standard vocabulary, the definitions and the names that
    have arrived.  The hourly rollup is a table of rows; the two queries over it group by
    name, their sums unbounded.  [sorted] is stable over the iteration order of a set,
    which is an argument. *)

From stdpp Require Import sorting.
From S2P Require Import Prelude Ids Schema AuditLog Catalogue.

#[local] Open Scope Z_scope.
#[local] Open Scope mmp_scope.

Definition DISCOVERY_WINDOW : timedelta := 30 * day.
Definition TREND_DAYS : nat := 14.

(** A row of [rollup_events_hourly], as far as the queries read it. *)
Record RollupRow := {
  rr_organization_id : uuid;
  rr_app_id : uuid;
  rr_bucket_hour : datetime;
  rr_event_name : pystr;
  rr_event_count : Z;
  rr_revenue_minor : Z
}.

Record Stat := {
  st_count_30d : Z;
  st_revenue_minor_30d : Z;
  st_first_seen_at : datetime;
  st_last_seen_at : datetime
}.

Record AppEventOut := {
  ao_name : pystr;
  ao_display_name : pystr;
  ao_description : option pystr;
  ao_category : pystr;
  ao_kind : pystr;
  ao_status : DefinitionStatus;
  ao_revenue : bool;
  ao_sdk_owned : bool;
  ao_defined : bool;
  ao_id : option uuid;
  ao_properties : list EventProperty;
  ao_count_30d : Z;
  ao_revenue_minor_30d : Z;
  ao_first_seen_at : option datetime;
  ao_last_seen_at : option datetime;
  ao_trend : list Z
}.

Definition zsum (l : list Z) : Z := foldr Z.add 0 l.

(** The rows of an app from an instant on. *)
Definition rows_since (org app : uuid) (since : datetime) (rows : list RollupRow) : list RollupRow :=
  List.filter (λ r, bool_decide (rr_organization_id r = org) && bool_decide (rr_app_id r = app) &&
                    (since <=? rr_bucket_hour r)) rows.

Definition named (name : pystr) (rows : list RollupRow) : list RollupRow :=
  List.filter (λ r, bool_decide (rr_event_name r = name)) rows.

Definition total (rows : list RollupRow) : Z := zsum (rr_event_count <$> rows).

(** [STATS_SQL], a row per name. *)
Definition stat_of (rows : list RollupRow) : Stat :=
  let hours := rr_bucket_hour <$> rows in
  {| st_count_30d := total rows;
     st_revenue_minor_30d := zsum (rr_revenue_minor <$> rows);
     st_first_seen_at := foldr Z.min (List.hd 0 hours) hours;
     st_last_seen_at := foldr Z.max (List.hd 0 hours) hours |}.

Definition stats_for (rows : list RollupRow) : list (pystr * Stat) :=
  (λ n, (n, stat_of (named n rows))) <$> remove_dups (rr_event_name <$> rows).

(** [date_trunc('day', ...)::date] in UTC, as a day number. *)
Definition date_of (t : datetime) : Z := t / day.

(** [TREND_SQL], a row per name and day: what the loop over it leaves in [trends]. *)
Definition trend_on (rows : list RollupRow) (name : pystr) (d : Z) : Z :=
  total (List.filter (λ r, date_of (rr_bucket_hour r) =? d) (named name rows)).

Section EventList.
Context {U : Unicode}.

Section RowFor.
Variables (definitions : list (pystr * EventDefinition)) (stats : list (pystr * Stat)).
Variables (trend_rows : list RollupRow) (days : list Z).

(** [row_for], with the set of standard names seen so far. *)
Definition row_for (name : pystr) (seen_standard : list pystr) : AppEventOut * list pystr :=
  let definition := od_get name definitions in
  let standard := standard_event name in
  let seen := match standard with Some e => se_name e :: seen_standard | None => seen_standard end in
  let stat := od_get name stats in
  ({| ao_name := name;
      ao_display_name :=
        match definition, standard with
        | Some d, _ => ed_display_name d
        | None, Some e => se_display_name e
        | None, None => name
        end;
      ao_description :=
        match mbind ed_description definition with
        | Some ((_ :: _) as s) => Some s
        | _ => se_description <$> standard
        end;
      ao_category :=
        match definition, standard with
        | Some d, _ => ed_category d
        | None, Some e => se_category e
        | None, None => py "custom"
        end;
      ao_kind :=
        match definition, standard with
        | Some d, _ => if bool_decide (ed_kind d = py "standard") then py "standard" else py "custom"
        | None, Some _ => py "standard"
        | None, None => py "discovered"
        end;
      ao_status := match definition with Some d => ed_status d | None => DefActive end;
      ao_revenue :=
        match definition, standard with
        | Some d, _ => ed_revenue d
        | None, Some e => se_revenue e
        | None, None => false
        end;
      ao_sdk_owned := match standard with Some e => se_sdk_owned e | None => false end;
      ao_defined := match definition with Some _ => true | None => false end;
      ao_id := ed_id <$> definition;
      ao_properties := match standard with Some e => se_properties e | None => [] end;
      ao_count_30d := match stat with Some s => st_count_30d s | None => 0 end;
      ao_revenue_minor_30d := match stat with Some s => st_revenue_minor_30d s | None => 0 end;
      ao_first_seen_at := st_first_seen_at <$> stat;
      ao_last_seen_at := st_last_seen_at <$> stat;
      ao_trend := trend_on trend_rows name <$> days |}, seen).

(** The two loops that fill [out]. *)
Fixpoint rows_in_use (names : list pystr) (seen : list pystr) : list AppEventOut * list pystr :=
  match names with
  | [] => ([], seen)
  | n :: names =>
      let (row, seen) := row_for n seen in
      let (out, seen) := rows_in_use names seen in
      (row :: out, seen)
  end.

Fixpoint rows_unused (events : list StandardEvent) (seen : list pystr) : list AppEventOut :=
  match events with
  | [] => []
  | e :: events =>
      if bool_decide (se_name e ∈ seen) then rows_unused events seen
      else let (row, seen) := row_for (se_name e) seen in row :: rows_unused events seen
  end.
End RowFor.

(** The key [sorted] orders by. *)
Definition busier (stats : list (pystr * Stat)) (a b : pystr) : Prop :=
  let count n := match od_get n stats with Some s => st_count_30d s | None => 0 end in
  - count a <= - count b.

#[local] Instance busier_dec stats a b : Decision (busier stats a b).
Proof. unfold busier. apply _. Defined.

#[local] Instance busier_total stats : Total (busier stats).
Proof. intros a b. unfold busier. lia. Qed.

#[local] Instance busier_trans stats : Transitive (busier stats).
Proof. intros a b c. unfold busier. lia. Qed.

Definition definitions_of (db : CatalogueDb) (org app : uuid) : list (pystr * EventDefinition) :=
  od_of ((λ d, (ed_name d, d)) <$>
           List.filter (λ d, bool_decide (ed_app_id d = app) && bool_decide (ed_organization_id d = org))
             (cd_definitions db)) [].

(** [set(definitions) | set(stats)]. *)
Definition names_in_use (definitions : list (pystr * EventDefinition)) (stats : list (pystr * Stat)) : list pystr :=
  remove_dups ((fst <$> definitions) ++ (fst <$> stats)).

Definition list_app_events (set_order : list pystr → list pystr) (org app : uuid) (now : datetime)
    (rollup : list RollupRow) (db : CatalogueDb) : result HttpError (list AppEventOut) :=
  let* _ := require_app db org app in
  let since := now - DISCOVERY_WINDOW in
  let trend_since := (now - (Z.of_nat TREND_DAYS - 1) * day) / day * day in
  let definitions := definitions_of db org app in
  let stats := stats_for (rows_since org app since rollup) in
  let trend_rows := rows_since org app trend_since rollup in
  let days := (λ i, date_of (trend_since + Z.of_nat i * day)) <$> seq 0 TREND_DAYS in
  let names := merge_sort (busier stats) (set_order (names_in_use definitions stats)) in
  let (out, seen) := rows_in_use definitions stats trend_rows days names [] in
  Ok (out ++ rows_unused definitions stats trend_rows days STANDARD_EVENTS seen).

(** ** Lemmas *)

#[local] Opaque standard_event STANDARD_EVENTS.

Lemma row_for_name defs stats trend days n seen : ao_name (fst (row_for defs stats trend days n seen)) = n.
Proof. done. Qed.

Lemma row_for_seen defs stats trend days n seen :
  snd (row_for defs stats trend days n seen) =
  match standard_event n with Some e => se_name e :: seen | None => seen end.
Proof. done. Qed.

Lemma total_cons r rows : total (r :: rows) = rr_event_count r + total rows.
Proof. done. Qed.

Lemma total_named_cons n r rows :
  total (named n (r :: rows)) =
  (if bool_decide (rr_event_name r = n) then rr_event_count r else 0) + total (named n rows).
Proof. unfold named. cbn [List.filter]. case_bool_decide; [by rewrite total_cons | lia]. Qed.

Lemma zsum_app l l' : zsum (l ++ l') = zsum l + zsum l'.
Proof. unfold zsum. induction l as [|x l IH]; cbn; lia. Qed.

Lemma zsum_indicator (x : pystr) (c : Z) (l : list pystr) : NoDup l →
  zsum ((λ n, if bool_decide (x = n) then c else 0) <$> l) = if bool_decide (x ∈ l) then c else 0.
Proof.
  unfold zsum. induction 1 as [|n l Hn _ IH]; [done |]. cbn. rewrite IH.
  destruct (decide (x = n)) as [->|Hx].
  - rewrite (bool_decide_true (n = n)), (bool_decide_false (n ∈ l)), bool_decide_true by (done || left).
    lia.
  - rewrite (bool_decide_false (x = n)) by done.
    rewrite (bool_decide_ext (x ∈ n :: l) (x ∈ l)) by (rewrite elem_of_cons; tauto). lia.
Qed.

Lemma zsum_plus {A} (f g : A → Z) l : zsum ((λ a, f a + g a) <$> l) = zsum (f <$> l) + zsum (g <$> l).
Proof. unfold zsum. induction l as [|x l IH]; cbn; lia. Qed.

(** Grouping by name loses nothing: the totals of the groups add up. *)
Lemma totals_by_name names rows :
  NoDup names → (∀ r, r ∈ rows → rr_event_name r ∈ names) →
  zsum ((λ n, total (named n rows)) <$> names) = total rows.
Proof.
  intros Hn. induction rows as [|r rows IH]; intros Hin.
  - clear. induction names as [|n names IH]; [done |].
    unfold zsum in *. cbn in *. by rewrite IH.
  - rewrite total_cons, <- IH by set_solver.
    erewrite list_fmap_ext; [| intros i n _; apply total_named_cons]. rewrite zsum_plus, zsum_indicator by done.
    rewrite bool_decide_true by set_solver. lia.
Qed.

Lemma named_none n rows : n ∉ rr_event_name <$> rows → named n rows = [].
Proof.
  intros Hn. unfold named. induction rows as [|r rows IH]; [done |]. cbn.
  rewrite bool_decide_false by set_solver. apply IH. set_solver.
Qed.

Lemma stats_get n rows :
  od_get n (stats_for rows) =
  if bool_decide (n ∈ rr_event_name <$> rows) then Some (stat_of (named n rows)) else None.
Proof.
  unfold stats_for. rewrite <- (bool_decide_ext _ _ (elem_of_remove_dups (rr_event_name <$> rows) n)).
  induction (remove_dups _) as [|m l IH]; [done |]. cbn.
  destruct (decide (n = m)) as [->|]; [by rewrite bool_decide_true by set_solver |].
  rewrite IH. by rewrite (bool_decide_ext (n ∈ m :: l) (n ∈ l)) by (rewrite elem_of_cons; tauto).
Qed.

(** The count a row shows is the total of its name. *)
Lemma count_shown defs rows trend days n seen :
  ao_count_30d (fst (row_for defs (stats_for rows) trend days n seen)) = total (named n rows).
Proof.
  unfold row_for. cbn. rewrite stats_get. case_bool_decide as Hn; [done |]. by rewrite named_none.
Qed.

Lemma standard_own_name e : e ∈ STANDARD_EVENTS → standard_event (se_name e) = Some e.
Proof. intros He. by apply standard_event_exact. Qed.

Lemma standard_names : NoDup (se_name <$> STANDARD_EVENTS).
Proof.
  apply (NoDup_fmap_1 fold_ascii). rewrite <- list_fmap_compose. exact catalogue_distinct.
Qed.

Section Rows.
Variables (defs : list (pystr * EventDefinition)) (rows trend : list RollupRow) (days : list Z).

Lemma rows_in_use_spec names seen :
  let r := rows_in_use defs (stats_for rows) trend days names seen in
  ao_name <$> fst r = names ∧
  ao_count_30d <$> fst r = (λ n, total (named n rows)) <$> names ∧
  ∀ s, s ∈ snd r ↔ s ∈ seen ∨ ∃ n e, n ∈ names ∧ standard_event n = Some e ∧ se_name e = s.
Proof.
  revert seen. induction names as [|n names IH]; intros seen.
  - cbn. split; [done |]. split; [done |]. intros s. set_solver.
  - cbn [rows_in_use]. destruct (row_for _ _ _ _ n seen) as [row seen1] eqn:Er.
    specialize (IH seen1). destruct (rows_in_use _ _ _ _ names seen1) as [out seen2].
    destruct IH as (Hn & Hc & Hs). cbn [fst snd] in *. rewrite !fmap_cons, Hn, Hc.
    pose proof (count_shown defs rows trend days n seen) as Hrow. rewrite Er in Hrow. cbn [fst] in Hrow.
    pose proof (row_for_seen defs (stats_for rows) trend days n seen) as Hseen.
    pose proof (row_for_name defs (stats_for rows) trend days n seen) as Hname.
    rewrite Er in Hseen, Hname. cbn [fst snd] in Hseen, Hname. rewrite Hname, Hrow.
    split; [done |]. split; [done |]. intros s. rewrite Hs, Hseen.
    split.
    + intros [Hm|(m & e & Hm & He & Es)]; [| right; exists m, e; split; [by right | done]].
      destruct (standard_event n) as [e|] eqn:Ee; [| by left].
      apply elem_of_cons in Hm as [->|]; [right; exists n, e; split; [by left | done] | by left].
    + intros [Hm|(m & e & [->|Hm]%elem_of_cons & He & Es)].
      * left. destruct (standard_event n); [by right | done].
      * left. rewrite He, Es. by left.
      * right. by exists m, e.
Qed.

Lemma rows_unused_spec events seen :
  NoDup (se_name <$> events) → (∀ e, e ∈ events → e ∈ STANDARD_EVENTS) →
  let out := rows_unused defs (stats_for rows) trend days events seen in
  ao_name <$> out = se_name <$> List.filter (λ e, negb (bool_decide (se_name e ∈ seen))) events ∧
  ao_count_30d <$> out = (λ n, total (named n rows)) <$> (ao_name <$> out).
Proof.
  revert seen. induction events as [|e events IH]; intros seen Hn Hin; [done |].
  apply NoDup_cons in Hn as [He Hn]. cbn [rows_unused List.filter].
  destruct (bool_decide (se_name e ∈ seen)); [apply IH; set_solver |].
  pose proof (count_shown defs rows trend days (se_name e) seen) as Hrow.
  destruct (row_for _ _ _ _ (se_name e) seen) as [row seen1] eqn:Er. cbn [fst] in Hrow.
  assert (seen1 = se_name e :: seen) as ->.
  { pose proof (row_for_seen defs (stats_for rows) trend days (se_name e) seen) as Hs.
    rewrite Er, standard_own_name in Hs by set_solver. exact Hs. }
  assert (ao_name row = se_name e) as Hrn.
  { pose proof (row_for_name defs (stats_for rows) trend days (se_name e) seen) as Hn'. by rewrite Er in Hn'. }
  destruct (IH (se_name e :: seen)) as [IHn IHc]; [done | set_solver |]. cbn [negb].
  rewrite !fmap_cons, Hrn, Hrow, IHc, IHn. split; [| done]. f_equal. f_equal.
  apply filter_ext_in. intros x Hx%list_elem_of_In. f_equal. apply bool_decide_ext.
  rewrite elem_of_cons. split; [| tauto]. intros [E|]; [| done]. destruct He. rewrite <- E.
  by apply list_elem_of_fmap_2.
Qed.
End Rows.

Lemma od_of_keys {K V} `{EqDecision K} (l d : list (K * V)) k :
  k ∈ fst <$> od_of l d ↔ k ∈ fst <$> l ∨ k ∈ fst <$> d.
Proof.
  unfold od_of. revert d. induction l as [|[k0 v0] l IH]; intros d; cbn; [set_solver |].
  rewrite IH, elem_of_cons. enough (k ∈ fst <$> od_set k0 v0 d ↔ k = k0 ∨ k ∈ fst <$> d) by tauto.
  clear IH. induction d as [|[k1 v1] d IHd]; cbn; [set_solver |].
  case_decide as E; cbn; rewrite !elem_of_cons; [subst; tauto | rewrite IHd; tauto].
Qed.

Lemma definition_names db org app n :
  n ∈ fst <$> definitions_of db org app ↔
  ∃ d, d ∈ cd_definitions db ∧ ed_app_id d = app ∧ ed_organization_id d = org ∧ ed_name d = n.
Proof.
  unfold definitions_of. rewrite od_of_keys, <- list_fmap_compose, list_elem_of_fmap.
  setoid_rewrite elem_of_lfilter. setoid_rewrite andb_true_iff. setoid_rewrite bool_decide_eq_true.
  split.
  - intros [(d & -> & Hd & Ha & Ho)|Hd]; [by exists d | by apply elem_of_nil in Hd].
  - intros (d & Hd & Ha & Ho & <-). left. by exists d.
Qed.

Lemma stat_names rows : fst <$> stats_for rows = remove_dups (rr_event_name <$> rows).
Proof. unfold stats_for. rewrite <- list_fmap_compose. by rewrite list_fmap_id. Qed.

(** A name in use: defined by the app, or arriving. *)
Definition in_use (db : CatalogueDb) (org app : uuid) (rows : list RollupRow) (n : pystr) : Prop :=
  (∃ d, d ∈ cd_definitions db ∧ ed_app_id d = app ∧ ed_organization_id d = org ∧ ed_name d = n) ∨
  n ∈ rr_event_name <$> rows.

Lemma names_in_use_spec db org app rows n :
  n ∈ names_in_use (definitions_of db org app) (stats_for rows) ↔ in_use db org app rows n.
Proof.
  unfold names_in_use, in_use. by rewrite elem_of_remove_dups, elem_of_app, definition_names, stat_names,
    elem_of_remove_dups.
Qed.

Lemma total_nonneg rows : Forall (λ r, 0 <= rr_event_count r) rows → 0 <= total rows.
Proof. unfold total, zsum. induction 1; cbn; lia. Qed.

Lemma named_incl n rows : Forall (λ r, 0 <= rr_event_count r) rows → 0 <= total (named n rows).
Proof.
  rewrite !Forall_forall. intros H. apply total_nonneg, Forall_forall. intros r [Hr _]%elem_of_lfilter.
  by apply H.
Qed.

Lemma sorted_zero {A} (f : A → Z) l : (∀ x, x ∈ l → f x = 0) → StronglySorted Z.ge (f <$> l).
Proof.
  induction l as [|x l IH]; intros H; cbn; constructor.
  - apply IH. intros y Hy. apply H. by right.
  - apply Forall_fmap, Forall_forall. intros y Hy. cbn. rewrite (H x), (H y) by (by left + right). done.
Qed.

(** The list is the names in use, busiest first, and then the standard events of which no
    name in use is a spelling. *)
Lemma list_shape set_order org app now rollup db out :
  (∀ l, set_order l ≡ₚ l) →
  list_app_events set_order org app now rollup db = Ok out →
  let rows := rows_since org app (now - DISCOVERY_WINDOW) rollup in
  let used := in_use db org app rows in
  ∃ names unused,
    ao_name <$> out = names ++ (se_name <$> unused) ∧
    ao_count_30d <$> out = (λ n, total (named n rows)) <$> (ao_name <$> out) ∧
    (NoDup names ∧ (∀ n, n ∈ names ↔ used n) ∧ StronglySorted (busier (stats_for rows)) names) ∧
    NoDup (se_name <$> unused) ∧
    ∀ e, e ∈ unused ↔ e ∈ STANDARD_EVENTS ∧ ∀ m, used m → standard_event m ≠ Some e.
Proof.
  intros Ho E rows used. unfold list_app_events in E. apply rbind_Ok in E as (_ & _ & E). fold rows in E.
  set (names := merge_sort _ _) in E. set (trend := rows_since _ _ _ _) in E. set (days := _ <$> _) in E.
  pose proof (rows_in_use_spec (definitions_of db org app) rows trend days names []) as H.
  destruct (rows_in_use _ _ _ _ names []) as [o seen]. destruct H as (Hn & Hc & Hs). cbn [fst snd] in *.
  injection E as <-.
  destruct (rows_unused_spec (definitions_of db org app) rows trend days STANDARD_EVENTS seen)
    as [Un Uc]; [exact standard_names | done |].
  assert (names ≡ₚ names_in_use (definitions_of db org app) (stats_for rows)) as Hp
    by (unfold names; by rewrite merge_sort_Permutation).
  exists names, (List.filter (λ e, negb (bool_decide (se_name e ∈ seen))) STANDARD_EVENTS).
  rewrite !fmap_app, Hn, Un, Hc, Uc, Un. split; [done |]. split; [done |]. split; [split; [| split] |].
  - rewrite Hp. apply NoDup_remove_dups.
  - intros n. rewrite Hp. apply names_in_use_spec.
  - apply StronglySorted_merge_sort; apply _.
  - split; [apply NoDup_fmap_filter, standard_names |]. intros e.
    rewrite elem_of_lfilter, negb_true_iff, bool_decide_eq_false, Hs. split; intros [He Hno]; (split; [done |]).
    + intros m Hm Hse. apply Hno. right. exists m, e. rewrite Hp, names_in_use_spec. done.
    + intros [Hnil|(m & e' & Hm & Hse & En)]; [by apply elem_of_nil in Hnil |].
      rewrite Hp, names_in_use_spec in Hm. apply (Hno m Hm). rewrite Hse. f_equal.
      apply standard_event_exact in Hse as [He' _].
      apply (NoDup_fmap_elem se_name STANDARD_EVENTS); [exact standard_names | done | done | done].
Qed.

(** The list of an app's events hides nothing and counts nothing twice: it names every
    event the app has defined or sent in thirty days and, after them, exactly the standard
    events no name of the app is a spelling of; no name appears twice, each count is the
    rollup's total for its name, the counts add up to everything that arrived, and busier
    events come first. *)
Theorem app_events_complete set_order org app now rollup db out :
  (∀ l, set_order l ≡ₚ l) →
  list_app_events set_order org app now rollup db = Ok out →
  let rows := rows_since org app (now - DISCOVERY_WINDOW) rollup in
  let used := in_use db org app rows in
  NoDup (ao_name <$> out) ∧
  (∀ n, n ∈ ao_name <$> out ↔
        used n ∨ ∃ e, e ∈ STANDARD_EVENTS ∧ se_name e = n ∧ ∀ m, used m → standard_event m ≠ Some e) ∧
  ao_count_30d <$> out = (λ n, total (named n rows)) <$> (ao_name <$> out) ∧
  zsum (ao_count_30d <$> out) = total rows ∧
  (Forall (λ r, 0 <= rr_event_count r) rows → StronglySorted Z.ge (ao_count_30d <$> out)).
Proof.
  intros Ho E rows used. destruct (list_shape _ _ _ _ _ _ _ Ho E) as (names & unused & Hn & Hc & Hnames & Hu & Hus).
  fold rows used in Hc, Hnames, Hus. destruct Hnames as (Hnd & Hin & Hsort).
  assert (∀ n, n ∈ se_name <$> unused → ¬ used n) as Hfree.
  { intros n (e & -> & He)%list_elem_of_fmap Hused. apply Hus in He as [He Hno].
    apply (Hno _ Hused). by apply standard_own_name. }
  assert (NoDup (ao_name <$> out)) as Hout.
  { rewrite Hn. apply NoDup_app. split; [done |]. split; [| done].
    intros n Hn1%Hin Hn2. by apply (Hfree n). }
  split; [done |]. split; [| split; [done |]; split].
  - intros n. rewrite Hn, elem_of_app, Hin, list_elem_of_fmap. setoid_rewrite Hus. naive_solver.
  - rewrite Hc. apply totals_by_name; [done |]. intros r Hr. rewrite Hn, elem_of_app, Hin. left. right.
    by apply list_elem_of_fmap_2.
  - intros Hpos. rewrite Hc, Hn, fmap_app. apply StronglySorted_app_2.
    + intros x1 x2 (n & -> & _)%list_elem_of_fmap (m & -> & Hm)%list_elem_of_fmap.
      rewrite (named_none m); [by apply Z.le_ge, named_incl |]. intros Hrow. apply (Hfree m Hm). by right.
    + revert Hsort. apply StronglySorted_fmap. intros a b. unfold busier. rewrite !stats_get.
      repeat case_bool_decide; cbn; rewrite ?(named_none a), ?(named_none b) by done; unfold total; cbn; lia.
    + apply sorted_zero. intros m Hm. rewrite named_none; [done |]. intros Hrow. apply (Hfree m Hm). by right.
Qed.
End EventList.

(** ** On concrete tables *)

Definition row_now (name : pystr) (n : Z) : RollupRow :=
  {| rr_organization_id := 1%N; rr_app_id := 2%N; rr_bucket_hour := 100 * day; rr_event_name := name;
     rr_event_count := n; rr_revenue_minor := 0 |}.

Definition one_app : CatalogueDb := {| cd_apps := [(2%N, 1%N)]; cd_definitions := [] |}.

Lemma app_events_complete_witness :
  let rollup := [row_now (py "level_up") 3; row_now (py "Boss") 5; row_now (py "level_up") 4] in
  ∃ out, list_app_events (U := ascii_unicode) reverse 1%N 2%N (100 * day) rollup one_app = Ok out ∧
    zsum (ao_count_30d <$> out) = 12 ∧ NoDup (ao_name <$> out).
Proof.
  eexists. split; [vm_compute; reflexivity |].
  match goal with |- _ ∧ NoDup (_ <$> ?o) =>
    destruct (app_events_complete (U := ascii_unicode) reverse 1%N 2%N (100 * day)
      [row_now (py "level_up") 3; row_now (py "Boss") 5; row_now (py "level_up") 4] one_app o)
      as (Hn & _ & _ & Ht & _)
  end.
  - intros l. apply reverse_Permutation.
  - vm_compute. reflexivity.
  - split; [rewrite Ht; vm_compute; reflexivity | exact Hn].
Defined.

(** A standard event that arrives under two spellings is listed under both. *)
Lemma spellings_listed_apart :
  ∃ out, list_app_events (U := ascii_unicode) id 1%N 2%N (100 * day)
           [row_now (py "Add To Cart") 1; row_now (py "add_to_cart") 1] one_app = Ok out ∧
    (ao_name <$> take 2 out) = [py "Add To Cart"; py "add_to_cart"] ∧
    (ao_kind <$> take 2 out) = [py "standard"; py "standard"].
Proof. eexists. split; [vm_compute; reflexivity | split; vm_compute; reflexivity]. Qed.
