(* ===== verification/Blocked.v ===== *)
(** * Blocked event names at the tracker (mmp_tracker/blocked.py)

    [BlockedEvents.names] awaits Redis and Postgres, so other requests, the API and the
    clock run between its steps: a call is its continuation, and a run of the system is a
    list of actions.  The API publishes an app's set inside its transaction
    ([_publish_blocked]) and commits afterwards: two actions.  One clock serves the process
    and Redis, in microseconds. *)

From S2P Require Import Prelude Redis Ids Schema AuditLog Catalogue.

#[local] Open Scope Z_scope.
#[local] Open Scope mmp_scope.

Definition IN_PROCESS_TTL : timedelta := 30 * second.
Definition REDIS_TTL : timedelta := hour.

(** Where a call of [names] waits: for the GET, for the rows, for the SET of the rows it
    read, or for its turn to go on with the names it has. *)
Inductive Phase :=
| Getting
| Loading
| Setting (names : list pystr)
| Resuming (names : list pystr).

Record Call := { cl_app : pystr; cl_now : datetime; cl_phase : Phase }.

(** An answer: the app, when the call began, and the folded names. *)
Record Answer := { an_app : pystr; an_began : datetime; an_names : list pystr }.

Record System := {
  sy_clock : datetime;
  sy_database : list EventDefinition;
  sy_redis : store (list pystr);
  sy_cache : list (pystr * (list pystr * datetime));
  sy_calls : list Call;
  sy_answers : list Answer
}.

Inductive Action :=
| Tick (d : timedelta)                       (* time passes *)
| Names (app : pystr)                        (* a request asks *)
| Proceed (i : nat)                          (* the i-th waiting call goes on *)
| Forget (app : pystr)
| Publish (app : pystr) (names : list pystr) (* the API, in its transaction *)
| Commit (db : list EventDefinition)         (* the API's transaction ends *)
| Evict (app : pystr).                       (* Redis loses the entry *)

(** [BLOCKED_SQL]. *)
Definition blocked_rows (db : list EventDefinition) (app : pystr) : list pystr :=
  ed_name <$> List.filter (λ d, bool_decide (str_of_uuid (ed_app_id d) = app) &&
                                bool_decide (ed_status d = DefBlocked)) db.

Section Blocked.
Context {U : Unicode}.

(** The frozenset, by its elements. *)
Definition folded (names : list pystr) : list pystr := canonical_event_name <$> names.

Definition set_call (i : nat) (c : Call) (s : System) : System :=
  {| sy_clock := sy_clock s; sy_database := sy_database s; sy_redis := sy_redis s;
     sy_cache := sy_cache s; sy_calls := <[i := c]> (sy_calls s); sy_answers := sy_answers s |}.

Definition set_redis (r : store (list pystr)) (s : System) : System :=
  {| sy_clock := sy_clock s; sy_database := sy_database s; sy_redis := r;
     sy_cache := sy_cache s; sy_calls := sy_calls s; sy_answers := sy_answers s |}.

Definition at_phase (c : Call) (p : Phase) : Call :=
  {| cl_app := cl_app c; cl_now := cl_now c; cl_phase := p |}.

(** [names], to its first await. *)
Definition names (app : pystr) (s : System) : System :=
  let now := sy_clock s in
  let wait := {| sy_clock := sy_clock s; sy_database := sy_database s; sy_redis := sy_redis s;
                 sy_cache := sy_cache s;
                 sy_calls := sy_calls s ++ [{| cl_app := app; cl_now := now; cl_phase := Getting |}];
                 sy_answers := sy_answers s |} in
  match od_get app (sy_cache s) with
  | Some (blocked, until) =>
      if now <? until then
        {| sy_clock := sy_clock s; sy_database := sy_database s; sy_redis := sy_redis s;
           sy_cache := sy_cache s; sy_calls := sy_calls s;
           sy_answers := sy_answers s ++ [{| an_app := app; an_began := now; an_names := blocked |}] |}
      else wait
  | None => wait
  end.

(** The end of [names]: the cache entry and the answer. *)
Definition finish (i : nat) (c : Call) (found : list pystr) (s : System) : System :=
  let answer := folded found in
  {| sy_clock := sy_clock s; sy_database := sy_database s; sy_redis := sy_redis s;
     sy_cache := od_set (cl_app c) (answer, cl_now c + IN_PROCESS_TTL) (sy_cache s);
     sy_calls := delete i (sy_calls s);
     sy_answers := sy_answers s ++ [{| an_app := cl_app c; an_began := cl_now c; an_names := answer |}] |}.

(** The steps of [names] and [_load] between awaits. *)
Definition proceed (i : nat) (s : System) : System :=
  match sy_calls s !! i with
  | None => s
  | Some c =>
      match cl_phase c with
      | Getting =>
          match rget (sy_clock s) (blocked_events_cache_key (cl_app c)) (sy_redis s) with
          | Some raw => set_call i (at_phase c (Resuming raw)) s
          | None => set_call i (at_phase c Loading) s
          end
      | Loading => set_call i (at_phase c (Setting (blocked_rows (sy_database s) (cl_app c)))) s
      | Setting found =>
          set_call i (at_phase c (Resuming found))
            (set_redis (rset_ex (sy_clock s) (blocked_events_cache_key (cl_app c)) found
                          (int_total_seconds REDIS_TTL) (sy_redis s)) s)
      | Resuming found => finish i c found s
      end
  end.

Definition forget (app : pystr) (s : System) : System :=
  {| sy_clock := sy_clock s; sy_database := sy_database s; sy_redis := sy_redis s;
     sy_cache := od_del app (sy_cache s); sy_calls := sy_calls s; sy_answers := sy_answers s |}.

Definition act (s : System) (a : Action) : System :=
  match a with
  | Tick d => {| sy_clock := sy_clock s + Z.max 0 d; sy_database := sy_database s; sy_redis := sy_redis s;
                 sy_cache := sy_cache s; sy_calls := sy_calls s; sy_answers := sy_answers s |}
  | Names app => names app s
  | Proceed i => proceed i s
  | Forget app => forget app s
  | Publish app published =>
      set_redis (rset_ex (sy_clock s) (blocked_events_cache_key app) published 3600 (sy_redis s)) s
  | Commit db => {| sy_clock := sy_clock s; sy_database := db; sy_redis := sy_redis s;
                    sy_cache := sy_cache s; sy_calls := sy_calls s; sy_answers := sy_answers s |}
  | Evict app => set_redis (rdel (blocked_events_cache_key app) (sy_redis s)) s
  end.

Definition run (s : System) (actions : list Action) : System := fold_left act actions s.

Definition started (now : datetime) (db : list EventDefinition) : System :=
  {| sy_clock := now; sy_database := db; sy_redis := ∅; sy_cache := []; sy_calls := []; sy_answers := [] |}.

(** ** Lemmas *)

(** The clock never runs back, a call begins before now, and an entry of the process lives
    at most thirty seconds from now. *)
Record timely (s : System) : Prop := {
  ti_cache : ∀ app v until, (app, (v, until)) ∈ sy_cache s → until <= sy_clock s + IN_PROCESS_TTL;
  ti_calls : ∀ c, c ∈ sy_calls s → cl_now c <= sy_clock s;
  ti_answers : ∀ an, an ∈ sy_answers s → an_began an <= sy_clock s
}.

Lemma set_call_elem i c l x : x ∈ <[i := c]> l → x = c ∨ x ∈ (l : list Call).
Proof.
  intros (j & Hj)%list_elem_of_lookup. apply list_lookup_insert_Some in Hj as [(_ & -> & _)|[_ Hj]];
    [by left | right; by eapply list_elem_of_lookup_2].
Qed.

Lemma delete_elem i l x : x ∈ delete i l → x ∈ (l : list Call).
Proof. rewrite delete_take_drop. intros [H|H]%elem_of_app; [by eapply elem_of_take_in | by eapply elem_of_drop_in]. Qed.

Lemma cache_del_elem (k : pystr) (d : list (pystr * (list pystr * datetime))) p : p ∈ od_del k d → p ∈ d.
Proof. unfold od_del. by intros [? _]%elem_of_lfilter. Qed.

Lemma timely_act s a : timely s → timely (act s a).
Proof.
  intros [Hc Hl Ha]. destruct a as [d|app|i|app|app l|db|app]; cbn [act].
  - split; cbn; [intros k v t Ht%Hc | intros c Hi%Hl | intros an Hi%Ha]; lia.
  - unfold names. destruct (od_get app _) as [[v t]|]; [destruct (_ <? _) |]; split; cbn; try done.
    1: intros an [Hi|Hi%list_elem_of_singleton]%elem_of_app; [by apply Ha | by subst an].
    all: intros c [Hi|Hi%list_elem_of_singleton]%elem_of_app; [by apply Hl | by subst c].
  - unfold proceed. destruct (sy_calls s !! i) as [c|] eqn:Ei; [| done].
    assert (cl_now c <= sy_clock s) as Hnow by by eapply Hl, list_elem_of_lookup_2.
    assert (∀ p, timely (set_call i (at_phase c p) s)) as Hset.
    { intros p. split; cbn; [done | | done]. intros x [->|Hx]%set_call_elem; [done | by apply Hl]. }
    destruct (cl_phase c) as [| |found|found].
    + by destruct (rget _ _ _).
    + done.
    + destruct (Hset (Resuming found)). by split.
    + split; cbn; [| intros x Hx%delete_elem; by apply Hl |].
      * intros k v t [[= -> -> ->]|Hin]%od_set_elem; [lia | by eapply Hc].
      * intros an [Hi|Hi%list_elem_of_singleton]%elem_of_app; [by apply Ha | by subst an].
  - split; cbn; [| done | done]. intros k v t Ht%cache_del_elem. by eapply Hc.
  - by split.
  - by split.
  - by split.
Qed.

Lemma timely_run actions : ∀ s, timely s → timely (run s actions).
Proof.
  induction actions as [|a actions IH]; intros s Hs; [done |]. apply IH. by apply timely_act.
Qed.

(** An app whose set has settled on [B] at [T]: nothing that is stored, or will be, is
    another set, except what calls begun before [T] still hold. *)
Section Settled.
Variables (app : pystr) (B : list pystr) (T : datetime).

Definition may_hold (c : Call) : Prop :=
  match cl_phase c with
  | Getting | Loading => True
  | Setting l => l = B
  | Resuming l => l = B ∨ cl_now c <= T
  end.

Record settled (s : System) : Prop := {
  sd_clock : T <= sy_clock s;
  sd_database : blocked_rows (sy_database s) app = B;
  sd_redis : ∀ e, sy_redis s !! blocked_events_cache_key app = Some e → e_value e = B;
  sd_calls : ∀ c, c ∈ sy_calls s → cl_app c = app → may_hold c;
  sd_cache : ∀ v t, (app, (v, t)) ∈ sy_cache s → v = folded B ∨ t <= T + IN_PROCESS_TTL;
  sd_answers : ∀ an, an ∈ sy_answers s → an_app an = app → T + IN_PROCESS_TTL <= an_began an →
    an_names an = folded B
}.

(** The actions that do not change the app's set. *)
Definition keeps (a : Action) : Prop :=
  match a with
  | Publish app' l => app' = app → l = B
  | Commit db => blocked_rows db app = B
  | _ => True
  end.

Lemma rget_stored now k (m : store (list pystr)) v : rget now k m = Some v → ∃ e, m !! k = Some e ∧ e_value e = v.
Proof.
  unfold rget, peek. destruct (m !! k) as [e|]; [| done]. destruct (live now e); [| done].
  intros [= <-]. by exists e.
Qed.

Lemma key_inj a b : blocked_events_cache_key a = blocked_events_cache_key b → a = b.
Proof. apply app_inv_head. Qed.

Lemma settled_set_redis s app' l n :
  (app' = app → l = B) → settled s →
  settled (set_redis (rset_ex (sy_clock s) (blocked_events_cache_key app') l n (sy_redis s)) s).
Proof.
  intros Hl [Hk Hd Hr Hc Hm Ha]. split; cbn; [done | done | | done | done | done].
  intros e. unfold rset_ex. intros [[Hke <-]|[_ He]]%lookup_insert_Some; [| by apply Hr].
  apply Hl. by apply key_inj.
Qed.

Lemma settled_set_call s i c p :
  c ∈ sy_calls s → (cl_app c = app → may_hold (at_phase c p)) → settled s →
  settled (set_call i (at_phase c p) s).
Proof.
  intros Hin Hp [Hk Hd Hr Hc Hm Ha]. split; cbn; [done | done | done | | done | done].
  intros x [->|Hx]%set_call_elem; [exact Hp | by apply Hc].
Qed.

Lemma settled_names s app' : settled s → settled (names app' s).
Proof.
  intros [Hk Hd Hr Hc Hm Ha]. unfold names.
  assert (∀ c, c ∈ sy_calls s ++ [{| cl_app := app'; cl_now := sy_clock s; cl_phase := Getting |}] →
               cl_app c = app → may_hold c) as Hc'.
  { intros c [Hi|Hi%list_elem_of_singleton]%elem_of_app; [by apply Hc | by subst c]. }
  destruct (od_get app' (sy_cache s)) as [[v t]|] eqn:Eg; [| by split].
  destruct (Z.ltb_spec (sy_clock s) t) as [Ht|Ht]; [| by split]. split; cbn; try done.
  intros an [Hi|Hi%list_elem_of_singleton]%elem_of_app; [by apply Ha |]. subst an. cbn. intros -> Hb.
  apply od_get_elem, Hm in Eg as [?|?]; [done | lia].
Qed.

Lemma settled_finish s i c found :
  c ∈ sy_calls s → cl_phase c = Resuming found → settled s → settled (finish i c found s).
Proof.
  intros Hin Hp [Hk Hd Hr Hc Hm Ha].
  assert (cl_app c = app → found = B ∨ cl_now c <= T) as Hf.
  { intros E. specialize (Hc c Hin E). unfold may_hold in Hc. by rewrite Hp in Hc. }
  split; cbn; [done | done | done | intros x Hx%delete_elem; by apply Hc | |].
  - intros v t [[= E -> ->]|Hv]%od_set_elem; [| by apply Hm].
    destruct (Hf (eq_sym E)) as [->|?]; [by left | right; lia].
  - intros an [Hi|Hi%list_elem_of_singleton]%elem_of_app; [by apply Ha |]. subst an. cbn. intros E Hb.
    destruct (Hf E) as [->|?]; [done |]. unfold IN_PROCESS_TTL, second in Hb. lia.
Qed.

Lemma settled_act s a : keeps a → settled s → settled (act s a).
Proof.
  intros Hkeep Hs. destruct a as [d|app'|i|app'|app' l|db|app']; cbn [act keeps] in *.
  - destruct Hs as [Hk Hd Hr Hc Hm Ha]. split; cbn; try done. lia.
  - by apply settled_names.
  - unfold proceed. destruct (sy_calls s !! i) as [c|] eqn:Ei; [| done].
    apply list_elem_of_lookup_2 in Ei. pose proof Hs as [Hk Hd Hr Hc Hm Ha].
    specialize (Hc c Ei). unfold may_hold in Hc.
    destruct (cl_phase c) as [| |found|found] eqn:Ep.
    + destruct (rget _ _ _) as [raw|] eqn:Er; (apply settled_set_call; [done | | done]); [| done].
      intros E. left. apply rget_stored in Er as (e & He & <-). apply Hr. by rewrite <- E.
    + apply settled_set_call; [done | | done]. intros E. cbn. by rewrite E.
    + apply (settled_set_call (set_redis _ s)); [done | |]; [intros E; left; auto |].
      by apply settled_set_redis.
    + by apply settled_finish.
  - destruct Hs as [Hk Hd Hr Hc Hm Ha]. split; cbn; try done.
    intros v t Ht%cache_del_elem. by apply Hm.
  - by apply settled_set_redis.
  - destruct Hs as [Hk Hd Hr Hc Hm Ha]. by split.
  - destruct Hs as [Hk Hd Hr Hc Hm Ha]. split; cbn; try done.
    intros e. unfold rdel. intros [_ He]%lookup_delete_Some. by apply Hr.
Qed.

Lemma settled_run actions : ∀ s, Forall keeps actions → settled s → settled (run s actions).
Proof.
  induction actions as [|a actions IH]; intros s Hk Hs; [done |]. apply Forall_cons in Hk as [Ha Hk].
  apply IH; [done |]. by apply settled_act.
Qed.
End Settled.

Lemma timely_started now db : timely (started now db).
Proof. by split; cbn; intros * ?%elem_of_nil. Qed.

(** A call's steps are counted down by its phase. *)
Definition steps_left (p : Phase) : nat :=
  match p with Getting => 4 | Loading => 3 | Setting _ => 2 | Resuming _ => 1 end.

Lemma proceed_advances s i c :
  sy_calls s !! i = Some c →
  (∃ an, sy_answers (proceed i s) = sy_answers s ++ [an] ∧ an_app an = cl_app c ∧ an_began an = cl_now c) ∨
  sy_answers (proceed i s) = sy_answers s ∧
  ∃ p, sy_calls (proceed i s) !! i = Some (at_phase c p) ∧ (steps_left p < steps_left (cl_phase c))%nat.
Proof.
  intros Hi. pose proof (lookup_lt_Some _ _ _ Hi) as Hlt. unfold proceed. rewrite Hi.
  destruct (cl_phase c) as [| |found|found]; [destruct (rget _ _ _) | | | left; by eexists];
    right; (split; [done |]); eexists; (split; [by apply list_lookup_insert_eq | cbn; lia]).
Qed.

(** Every waiting call is answered after at most four of its steps. *)
Lemma call_is_answered s i c :
  sy_calls s !! i = Some c →
  ∃ n an, (n <= 4)%nat ∧ sy_answers (run s (replicate n (Proceed i))) = sy_answers s ++ [an] ∧
    an_app an = cl_app c ∧ an_began an = cl_now c.
Proof.
  intros Hi.
  cut (∃ n an, (n <= steps_left (cl_phase c))%nat ∧
         sy_answers (run s (replicate n (Proceed i))) = sy_answers s ++ [an] ∧
         an_app an = cl_app c ∧ an_began an = cl_now c).
  { intros (n & an & Hn & H). exists n, an. split; [| done]. destruct (cl_phase c); cbn in Hn; lia. }
  remember (steps_left (cl_phase c)) as k eqn:Ek. revert s c Hi Ek.
  induction (lt_wf k) as [k _ IH]; intros s c Hi ->.
  destruct (proceed_advances s i c Hi) as [(an & H)|(Hsame & p & Hp & Hlt)].
  - exists 1%nat, an. split; [destruct (cl_phase c); cbn; lia | exact H].
  - destruct (IH _ Hlt (proceed i s) _ Hp eq_refl) as (n & an & Hn & Ha & Happ & Hb).
    exists (S n), an. cbn [replicate run fold_left act]. unfold run in Ha. rewrite Ha, Hsame.
    split; [cbn in *; lia | done].
Qed.

(** (C30) Blocking takes effect within thirty seconds.  Once an app's blocked set is what
    the database holds, Redis has it or nothing, and no call is about to store another one,
    every request that begins thirty seconds later or more is answered with that set,
    however requests, evictions and the clock interleave; and a name is in the answer
    exactly when it is a spelling of a blocked one. *)
Theorem blocking_takes_effect now db before app after :
  let s := run (started now db) before in
  let B := blocked_rows (sy_database s) app in
  (∀ e, sy_redis s !! blocked_events_cache_key app = Some e → e_value e = B) →
  (∀ c l, c ∈ sy_calls s → cl_app c = app → cl_phase c = Setting l → l = B) →
  Forall (keeps app B) after →
  ∀ an, an ∈ sy_answers (run s after) → an_app an = app → sy_clock s + IN_PROCESS_TTL <= an_began an →
    ∀ name, canonical_event_name name ∈ an_names an ↔
            ∃ b, b ∈ B ∧ canonical_event_name b = canonical_event_name name.
Proof.
  intros s B Hr Hc Hk an Han Happ Hb name.
  destruct (timely_run before _ (timely_started now db)) as [Tc Tl Ta]. fold s in Tc, Tl, Ta.
  assert (settled app B (sy_clock s) s) as Hs.
  { split; try done.
    - intros c Hin E. unfold may_hold. destruct (cl_phase c) eqn:Ep; [done | done | by eapply Hc |].
      right. by apply Tl.
    - intros v t Ht. right. by eapply Tc.
    - intros a Hin _ Hbegan. apply Ta in Hin. unfold IN_PROCESS_TTL, second in Hbegan. lia. }
  apply (settled_run app B (sy_clock s) after s Hk) in Hs. destruct Hs as [_ _ _ _ _ Ha].
  rewrite (Ha an Han Happ Hb). unfold folded. rewrite list_elem_of_fmap.
  split; intros (b & H1 & H2); exists b; by split.
Qed.
End Blocked.

(** ** On concrete runs *)

Definition blocked_definition (name : pystr) : EventDefinition :=
  {| ed_id := 3%N; ed_organization_id := 1%N; ed_app_id := 2%N; ed_name := name; ed_display_name := name;
     ed_description := None; ed_category := py "custom"; ed_kind := py "custom"; ed_revenue := false;
     ed_status := DefBlocked; ed_blocked_at := Some 0 |}.

Definition the_app : pystr := str_of_uuid 2%N.

Definition answers_of (actions : list Action) : list (datetime * list pystr) :=
  (λ an, (an_began an, an_names an)) <$> sy_answers (run (U := ascii_unicode) (started 0 []) actions).

Definition ask : list Action := [Names the_app; Proceed 0; Proceed 0; Proceed 0; Proceed 0].

(** The empty set is cached, the name is blocked, and half a minute later it is gone. *)
Lemma blocking_takes_effect_witness :
  let U := ascii_unicode in
  let before := ask ++ [Publish the_app [py "Add To Cart"]; Commit [blocked_definition (py "Add To Cart")]] in
  let s := run (started 0 []) before in
  let after := [Tick (29 * second); Names the_app; Tick second] ++ ask in
  let an := {| an_app := the_app; an_began := 30 * second; an_names := [py "addtocart"] |} in
  an ∈ sy_answers (run s after) ∧ canonical_event_name (py "add_to_cart") ∈ an_names an.
Proof.
  intros U before s after an.
  assert (an ∈ sy_answers (run s after)) as Han
    by (apply list_elem_of_lookup; exists 2%nat; vm_compute; reflexivity).
  split; [exact Han |].
  apply (blocking_takes_effect (U := ascii_unicode) 0 [] before the_app after) with (an := an).
  - intros e He. assert (sy_redis s !! blocked_events_cache_key the_app =
      Some (Entry [py "Add To Cart"] (Some (3600 * second)))) as E by (vm_compute; reflexivity).
    pose proof (eq_trans (eq_sym E) He) as [= <-]. vm_compute. reflexivity.
  - intros c l Hc. assert (sy_calls s = []) as E by (vm_compute; reflexivity).
    change (c ∈ sy_calls s) in Hc. rewrite E in Hc. by apply elem_of_nil in Hc.
  - repeat constructor.
  - exact Han.
  - reflexivity.
  - vm_compute. discriminate.
  - exists (py "Add To Cart"). split; [apply (bool_decide_unpack _); vm_compute; exact I | vm_compute; reflexivity].
Defined.

(** A tracker that found Redis empty before the API published, and stores what it read
    before the API committed, puts the old set back: for an hour the name is not blocked. *)
Lemma stale_load_unblocks :
  answers_of ([Names the_app; Proceed 0; Proceed 0;
               Publish the_app [py "Add To Cart"]; Commit [blocked_definition (py "Add To Cart")];
               Proceed 0; Proceed 0; Tick (59 * minute)] ++ ask) =
  [(0, []); (59 * minute, [])].
Proof. vm_compute. reflexivity. Qed.
