(* ===== verification/Adapters.v ===== *)
(** * The provider adapters (mmp_providers/adapters/custom.py, s2s_json.py, registry.py, base.py)

    The two adapters that ship with the platform, as instances of the record the postback
    consumer calls, and the registry they are found in.  An adapter that raises answers
    [None].  [json.dumps] and [json.loads] are parameters, and so is [str.islower] beyond
    ASCII. *)

From S2P Require Import Prelude Ids Schema Skan Outbound Delivery Templates Envelope Store Postbacks.

#[local] Open Scope Z_scope.
#[local] Open Scope mmp_scope.

(** ** base.py *)

Inductive Capability :=
| INSTALLS | IN_APP_EVENTS | REVENUE | SUBSCRIPTIONS | REFUNDS | REQUIRES_ATTRIBUTION | BATCHING.

#[export] Instance capability_eq_dec : EqDecision Capability.
Proof. solve_decision. Defined.

Inductive AuthStyle := AuthNone | AuthBearer | AuthHeader | AuthQueryParam.

Record ProviderField := {
  pf_name : pystr; pf_label : pystr; pf_secret : bool; pf_required : bool; pf_hint : pystr
}.

Record Provider := {
  pv_name : pystr;
  pv_display_name : pystr;
  pv_capabilities : list Capability;
  pv_auth_style : AuthStyle;
  pv_event_map : list (pystr * pystr);
  pv_fields : list ProviderField;
  pv_validate : ProviderConfig → list pystr;
  pv_adapter : Adapter
}.

Class JsonText := { json_dumps : props → pystr; json_loads : pystr → option json }.
Class IsLower := { islower_other : pystr → bool }.

Section Adapters.
Context {U : Unicode} {F : PyFormat} {J : JsonText} {L : IsLower}.

Definition missing_credentials (config : ProviderConfig) (required : list pystr) : list pystr :=
  (λ name, name ++ py " is required") <$>
    List.filter (λ name, bool_decide (py_strip (default [] (od_get name (pc_credentials config))) = [])) required.

(** [unknown_variables], sorted as its callers sort it. *)
Definition unknown_variables (template : pystr) : list pystr :=
  sorted_set (List.filter (λ n, negb (bool_decide (n ∈ ALLOWED_VARIABLES))) (placeholders template)).

(** [str(config.settings.get(key, default))]. *)
Definition setting (config : ProviderConfig) (key d : pystr) : pystr :=
  match od_get key (pc_settings config) with Some v => py_str v | None => d end.

Definition https : pystr := py "https://".

(** [body[:200] or None]. *)
Definition detail_of (body : pystr) : option pystr := nonempty (take 200 body).

Definition worth_retrying (status_code : Z) : bool :=
  (500 <=? status_code) || (status_code =? 408) || (status_code =? 429).

(** ** custom.py *)

Definition custom_event_map : list (pystr * pystr) := [].

Definition custom_fields : list ProviderField :=
  [{| pf_name := py "url_template"; pf_label := py "URL template"; pf_secret := false; pf_required := true;
      pf_hint := py "https URL with {click_id}, {campaign_id}, {event_name} and the other exposed variables. Substituted from an allowlist " ++ [8212%N] ++ py " never evaluated." |};
   {| pf_name := py "method"; pf_label := py "HTTP method"; pf_secret := false; pf_required := false;
      pf_hint := py "GET unless the network asks otherwise." |}].

Definition custom_validate (config : ProviderConfig) : list pystr :=
  let template := py_strip (setting config (py "url_template") []) in
  if bool_decide (template = []) then [py "url_template is required"]
  else
    (if starts_with https template then [] else [py "url_template must be an https URL"]) ++
    match unknown_variables template with
    | [] => []
    | unknown => [py "url_template references variables the platform does not expose: " ++
                  py_join (py ", ") unknown]
    end.

(** The integers among the elements of [tuple(value)]: what a status code can equal. *)
Definition int_like (v : json) : list Z :=
  match v with
  | JInt z => [z]
  | JBool b => [if b then 1 else 0]
  | JFloat f => if SpecFloat.SFeqb (Float64.of_Z (Float64.trunc f)) f then [Float64.trunc f] else []
  | _ => []
  end.

Definition success_codes (v : option json) : option (list Z) :=
  match v with
  | None => Some [200; 201; 202; 204]
  | Some (JArr l) => Some (l ≫= int_like)
  | Some (JStr _) | Some (JObj _) => Some []
  | Some _ => None
  end.

Definition custom_prepare (event_name : pystr) (values : context) (config : ProviderConfig)
    : option (option PreparedRequest) :=
  let template := setting config (py "url_template") [] in
  if bool_decide (template = []) then Some None
  else if negb (bool_decide (custom_event_map = [])) && negb (bool_decide (event_name ∈ fst <$> custom_event_map))
  then Some None
  else
    match Templates.render template values true, success_codes (od_get (py "success_codes") (pc_settings config)) with
    | Ok url, Some codes =>
        Some (Some {| pq_method := py_upper (setting config (py "method") (py "GET")); pq_url := url;
                      pq_headers := []; pq_body := None; pq_success_codes := codes |})
    | _, _ => None
    end.

Definition custom_interpret (status_code : Z) (body : pystr) : DeliveryVerdict :=
  let accepted := (200 <=? status_code) && (status_code <? 300) in
  {| dv_accepted := accepted; dv_detail := if accepted then None else detail_of body;
     dv_retryable := worth_retrying status_code |}.

Definition CustomProvider : Provider :=
  {| pv_name := py "custom"; pv_display_name := py "Custom postback";
     pv_capabilities := [INSTALLS; IN_APP_EVENTS; REVENUE; SUBSCRIPTIONS; REFUNDS];
     pv_auth_style := AuthNone; pv_event_map := custom_event_map; pv_fields := custom_fields;
     pv_validate := custom_validate;
     pv_adapter := {| ad_prepare := custom_prepare; ad_interpret c b := Some (custom_interpret c b) |} |}.

(** ** s2s_json.py *)

Definition REQUIRED_CREDENTIALS : list pystr := [py "api_token"].

Definition DEFAULT_EVENT_MAP : list (pystr * pystr) :=
  [(py "install", py "app_install"); (py "signup", py "complete_registration"); (py "login", py "login");
   (py "purchase", py "purchase"); (py "subscription_start", py "start_trial");
   (py "subscription_renew", py "subscribe"); (py "refund", py "refund")].

Definition s2s_fields : list ProviderField :=
  [{| pf_name := py "api_token"; pf_label := py "API token"; pf_secret := true; pf_required := true;
      pf_hint := py "Sent as a bearer token. Encrypted at rest and never shown again." |};
   {| pf_name := py "endpoint"; pf_label := py "Endpoint"; pf_secret := false; pf_required := true;
      pf_hint := py "The https URL conversions are POSTed to." |};
   {| pf_name := py "event_map"; pf_label := py "Event map (JSON)"; pf_secret := false; pf_required := false;
      pf_hint := py "Replaces the default map rather than merging into it, so it is a filter as well as a translation: anything absent is not sent." |}].

(** [settings.get(key)] when it is truthy. *)
Definition truthy_setting (config : ProviderConfig) (key : pystr) : option json :=
  match od_get key (pc_settings config) with
  | Some v => if json_truthy v then Some v else None
  | None => None
  end.

Definition s2s_validate (config : ProviderConfig) : list pystr :=
  let endpoint := py_strip (setting config (py "endpoint") []) in
  missing_credentials config REQUIRED_CREDENTIALS ++
  (if bool_decide (endpoint = []) then [py "endpoint is required"]
   else if starts_with https endpoint then [] else [py "endpoint must be an https URL"]) ++
  match truthy_setting config (py "event_map") with
  | None => []
  | Some (JObj overrides) =>
      match sorted_set (List.filter (λ name, negb (bool_decide (name ∈ SYSTEM_EVENTS)) &&
                                             negb (starts_with (py "custom_") name)) (fst <$> overrides)) with
      | [] => []
      | unknown => [py "event_map refers to events this platform does not emit: " ++ py_join (py ", ") unknown]
      end
  | Some _ => [py "event_map must be an object"]
  end.

(** An element of the sequence [dict] is given: its key, when that is a string, and its
    value; [None] when it is not a pair. *)
Definition pair_of (v : json) : option (option (pystr * json)) :=
  match v with
  | JArr [JStr k; x] => Some (Some (k, x))
  | JArr [JArr _; _] | JArr [JObj _; _] => None
  | JArr [_; _] => Some None
  | JStr [a; b] => Some (Some ([a], JStr [b]))
  | JObj [(a, _); (b, _)] => Some (Some (a, JStr b))
  | _ => None
  end.

Definition dict_of (v : json) : option props :=
  match v with
  | JObj l => Some l
  | JArr l => pairs ← mapM pair_of l; Some (od_of (omap id pairs) [])
  | _ => None
  end.

Definition resolved_map (config : ProviderConfig) : option props :=
  match truthy_setting config (py "event_map") with
  | Some v => dict_of v
  | None => Some (prod_map id JStr <$> DEFAULT_EVENT_MAP)
  end.

(** [context.get(key)]. *)
Definition value_of (values : context) (key : pystr) : option pystr := mjoin (od_get key values).

Definition json_of (o : option pystr) : json := match o with Some s => JStr s | None => JNull end.

Definition payload_of (provider_event : json) (values : context) : props :=
  let copy k := (k, json_of (value_of values k)) in
  [(py "event_name", provider_event); (py "event_time", json_of (value_of values (py "event_timestamp")));
   copy (py "click_id"); copy (py "campaign_id"); copy (py "attribution_method")] ++
  match value_of values (py "revenue") with
  | Some r => [(py "value", JStr r); copy (py "currency")]
  | None => []
  end ++
  (copy <$> List.filter (λ k, truthy (value_of values k)) [py "user_id"; py "anonymous_id"]).

(** The loop over [extra_fields]. *)
Fixpoint add_extra (values : context) (extra : props) (payload : props) : option props :=
  match extra with
  | [] => Some payload
  | (name, template) :: extra =>
      match Templates.render (py_str template) values false with
      | Ok text => add_extra values extra (od_set name (JStr text) payload)
      | Err _ => None
      end
  end.

Definition s2s_prepare (event_name : pystr) (values : context) (config : ProviderConfig)
    : option (option PreparedRequest) :=
  events ← resolved_map config;
  match od_get event_name events with
  | None | Some JNull => Some None
  | Some provider_event =>
      let endpoint := setting config (py "endpoint") [] in
      if bool_decide (endpoint = []) then Some None
      else
        extra ← match truthy_setting config (py "extra_fields") with
                | None => Some [] | Some (JObj l) => Some l | Some _ => None
                end;
        payload ← add_extra values extra (payload_of provider_event values);
        token ← od_get (py "api_token") (pc_credentials config);
        Some (Some {| pq_method := py "POST"; pq_url := endpoint;
                      pq_headers := [(py "authorization", py "Bearer " ++ token);
                                     (py "content-type", py "application/json")];
                      pq_body := Some (json_dumps payload ≫= utf8);
                      pq_success_codes := [200; 201; 202] |})
  end.

Definition rejected (detail : option pystr) (again : bool) : DeliveryVerdict :=
  {| dv_accepted := false; dv_detail := detail; dv_retryable := again |}.

Definition accepted_verdict : DeliveryVerdict :=
  {| dv_accepted := true; dv_detail := None; dv_retryable := true |}.

Definition s2s_interpret (status_code : Z) (body : pystr) : DeliveryVerdict :=
  if worth_retrying status_code then rejected (detail_of body) true
  else if 400 <=? status_code then rejected (detail_of body) false
  else
    match (if bool_decide (py_strip body = []) then Some (JObj []) else json_loads body) with
    | Some (JObj parsed) =>
        match od_get (py "error") parsed with
        | Some error =>
            if json_truthy error
            then rejected (Some (py "provider rejected: " ++ take 180 (py_str error))) false
            else accepted_verdict
        | None => accepted_verdict
        end
    | _ => accepted_verdict
    end.

Definition S2SJsonProvider : Provider :=
  {| pv_name := py "s2s_json"; pv_display_name := py "Server-to-server (JSON)";
     pv_capabilities := [INSTALLS; IN_APP_EVENTS; REVENUE; SUBSCRIPTIONS; REFUNDS; REQUIRES_ATTRIBUTION];
     pv_auth_style := AuthBearer; pv_event_map := DEFAULT_EVENT_MAP; pv_fields := s2s_fields;
     pv_validate := s2s_validate;
     pv_adapter := {| ad_prepare := s2s_prepare; ad_interpret c b := Some (s2s_interpret c b) |} |}.

(** ** registry.py *)

Inductive RegistryError := AlreadyRegistered (name : pystr) | BadName | UnknownProvider (name : pystr).

(** The module's state: [_REGISTRY], [_loaded], and which adapter modules the interpreter
    has imported. *)
Record Registry := {
  rg_providers : list (pystr * Provider);
  rg_loaded : bool;
  rg_imported : list pystr
}.

Definition fresh_registry : Registry := {| rg_providers := []; rg_loaded := false; rg_imported := [] |}.

(** [str.islower]. *)
Definition py_islower (s : pystr) : bool :=
  if ascii_str s then existsb is_lower_ascii s && negb (existsb is_upper_ascii s) else islower_other s.

Definition register (p : Provider) (r : Registry) : option RegistryError * Registry :=
  if bool_decide (pv_name p ∈ fst <$> rg_providers r) then (Some (AlreadyRegistered (pv_name p)), r)
  else if negb (py_islower (pv_name p)) || existsb (N.eqb 32) (pv_name p) then (Some BadName, r)
  else (None, {| rg_providers := od_set (pv_name p) p (rg_providers r); rg_loaded := rg_loaded r;
                 rg_imported := rg_imported r |}).

Definition registry_get (name : pystr) (r : Registry) : result RegistryError Provider :=
  match od_get name (rg_providers r) with Some p => Ok p | None => Err (UnknownProvider name) end.

Definition available (r : Registry) : list Provider :=
  omap (λ n, od_get n (rg_providers r)) (sorted_set (fst <$> rg_providers r)).

Definition supporting (c : Capability) (r : Registry) : list Provider :=
  List.filter (λ p, bool_decide (c ∈ pv_capabilities p)) (available r).

(** [import] of an adapter's module: its last line registers it, the first time; a module
    that raised is imported again. *)
Definition import_adapter (p : Provider) (r : Registry) : option RegistryError * Registry :=
  if bool_decide (pv_name p ∈ rg_imported r) then (None, r)
  else
    match register p r with
    | (Some e, r) => (Some e, r)
    | (None, r) => (None, {| rg_providers := rg_providers r; rg_loaded := rg_loaded r;
                             rg_imported := rg_imported r ++ [pv_name p] |})
    end.

Definition load_builtin (r : Registry) : option RegistryError * Registry :=
  match import_adapter CustomProvider r with
  | (Some e, r) => (Some e, r)
  | (None, r) => import_adapter S2SJsonProvider r
  end.

Definition load_builtin_once (r : Registry) : option RegistryError * Registry :=
  if rg_loaded r then (None, r)
  else
    match load_builtin r with
    | (Some e, r) => (Some e, r)
    | (None, r) => (None, {| rg_providers := rg_providers r; rg_loaded := true; rg_imported := rg_imported r |})
    end.

Definition reset_for_tests (r : Registry) : Registry :=
  {| rg_providers := []; rg_loaded := false; rg_imported := rg_imported r |}.

(** The lookup the postback consumer makes. *)
Definition lookup_adapter (r : Registry) (name : pystr) : option Adapter :=
  match registry_get name r with Ok p => Some (pv_adapter p) | Err _ => None end.

(** ** Lemmas: a validated configuration *)

Lemma strip_nil : py_strip [] = [].
Proof. done. Qed.

Lemma missing_credentials_nil config name :
  missing_credentials config [name] = [] →
  ∃ v, od_get name (pc_credentials config) = Some v ∧ py_strip v ≠ [].
Proof.
  unfold missing_credentials. cbn. case_bool_decide as E; [done |]. intros _.
  destruct (od_get name (pc_credentials config)) as [v|]; [by exists v | by destruct E].
Qed.

Lemma s2s_validate_nil config :
  s2s_validate config = [] →
  (∃ token, od_get (py "api_token") (pc_credentials config) = Some token ∧ py_strip token ≠ []) ∧
  setting config (py "endpoint") [] ≠ [] ∧ starts_with https (py_strip (setting config (py "endpoint") [])) = true ∧
  is_Some (resolved_map config).
Proof.
  unfold s2s_validate. intros (Hm & (He & Hv)%app_eq_nil)%app_eq_nil.
  split; [by apply missing_credentials_nil |]. case_bool_decide as E; [done |].
  split; [intros E'; rewrite E' in E; by destruct E |].
  split; [by destruct (starts_with https _) |].
  unfold resolved_map. destruct (truthy_setting config (py "event_map")) as [v|]; [| done].
  by destruct v.
Qed.

(** (C25) A saved server-to-server integration works, and sends what it maps and nothing
    else.  When its configuration validates and asks for no extra fields, no event makes
    the adapter raise; an event absent from the map is skipped, and every other one becomes
    a POST to the configured https endpoint with the bearer token, under the provider's
    name for it. *)
Theorem validated_integration_sends_what_it_maps config :
  s2s_validate config = [] → truthy_setting config (py "extra_fields") = None →
  ∃ events token,
    resolved_map config = Some events ∧ py_strip token ≠ [] ∧
    starts_with https (py_strip (setting config (py "endpoint") [])) = true ∧
    ∀ event values,
      s2s_prepare event values config =
      Some match od_get event events with
           | None | Some JNull => None
           | Some theirs =>
               Some {| pq_method := py "POST"; pq_url := setting config (py "endpoint") [];
                       pq_headers := [(py "authorization", py "Bearer " ++ token);
                                      (py "content-type", py "application/json")];
                       pq_body := Some (json_dumps (payload_of theirs values) ≫= utf8);
                       pq_success_codes := [200; 201; 202] |}
           end.
Proof.
  intros ((token & Ht & Hne) & He & Hs & events & Hev)%s2s_validate_nil Hx.
  exists events, token. repeat (split; [done |]). intros event values. unfold s2s_prepare. rewrite Hev.
  cbn [mbind option_bind]. rewrite Hx, Ht, bool_decide_false by done. cbn [mbind option_bind add_extra].
  by destruct (od_get event events) as [[]|].
Qed.

(** ** The adapters in the worker *)

Section Worker.
Context `{AEAD} {P : Type} `{MasterKeyProvider P} {HJ : HeaderJson}.

(** What the worker's preparation leaves when the adapter skips the event. *)
Lemma prepare_skipped registry keys now rule (g : Integration) event values a :
  ig_provider g ≠ [] → registry (ig_provider g) = Some a →
  (∀ credentials, ad_prepare a (q_event_name event) values
     {| pc_credentials := credentials; pc_settings := default [] (ig_configuration g) |} = Some None) →
  match fst (prepare registry keys now rule (Some g) event values) with
  | Ok (_, Some _) => False
  | _ => True
  end.
Proof.
  intros Hp Hr Ha. unfold prepare.
  destruct (open_headers _ _ _ _ _) as [[custom|reason] keys1]; [| done].
  destruct (ig_provider g) as [|c l] eqn:Eg; [done |]. cbn [truthy negb]. rewrite Hr.
  destruct (config_for _ _ _ _) as [[config|e] keys2] eqn:Ec; [| done].
  assert (∃ credentials, config = {| pc_credentials := credentials;
            pc_settings := default [] (ig_configuration g) |}) as [credentials ->].
  { revert Ec. unfold config_for. destruct (sc_ciphertext _) as [[|]|]; try (intros [= <- _]; by eexists).
    destruct keys1 as [p|]; [| done]. destruct (credentials_of _ _); [| done].
    destruct (open_sealed _ _ _ _) as [[plaintext|] p']; [| done]. destruct (decode_headers _); [| done].
    intros [= <- _]. by eexists. }
  by rewrite Ha.
Qed.

Lemma skipped_is_not_sent registry env w rule (g : Integration) event values attribution a :
  ig_provider g ≠ [] → registry (ig_provider g) = Some a →
  (∀ credentials, ad_prepare a (q_event_name event) values
     {| pc_credentials := credentials; pc_settings := default [] (ig_configuration g) |} = Some None) →
  w_sent (snd (deliver registry env w rule (Some g) event values attribution)) = w_sent w.
Proof.
  intros Hp Hr Ha. unfold deliver. destruct (_ && _); [done |]. destruct (negb _); [done |].
  destruct (uuid_of_str _); [| done]. destruct (claim _ _ _ _ _ _) as [[[] db]|]; [| done | done].
  unfold deliver_claimed.
  pose proof (prepare_skipped registry (w_keys (with_db db (count Considered w))) (at_now env) rule g event
    values a Hp Hr Ha) as Hs.
  destruct (prepare _ _ _ _ _ _ _) as [[[a' [rq|]]|e] keys]; [done | done |]. by destruct e.
Qed.

Definition builtin : Registry := snd (load_builtin_once fresh_registry).

Lemma builtin_providers :
  rg_providers builtin = [(py "custom", CustomProvider); (py "s2s_json", S2SJsonProvider)] ∧ rg_loaded builtin = true.
Proof. split; reflexivity. Qed.

(** An integration is a filter.  Whatever the rule, the event's values, the keys and
    the network, the worker sends nothing through a server-to-server integration for an
    event its map does not name. *)
Theorem unmapped_events_are_not_sent env w rule (g : Integration) event values attribution events :
  ig_provider g = py "s2s_json" →
  resolved_map {| pc_credentials := []; pc_settings := default [] (ig_configuration g) |} = Some events →
  (od_get (q_event_name event) events = None ∨ od_get (q_event_name event) events = Some JNull) →
  w_sent (snd (deliver (lookup_adapter builtin) env w rule (Some g) event values attribution)) = w_sent w.
Proof.
  intros Hp Hm Hno. eapply skipped_is_not_sent; [by rewrite Hp | | ].
  - rewrite Hp. unfold lookup_adapter, registry_get. rewrite (proj1 builtin_providers). reflexivity.
  - intros credentials. cbn [ad_prepare pv_adapter S2SJsonProvider]. unfold s2s_prepare.
    assert (resolved_map {| pc_credentials := credentials; pc_settings := default [] (ig_configuration g) |} =
            Some events) as -> by exact Hm.
    cbn [mbind option_bind]. by destruct Hno as [->| ->].
Qed.
End Worker.

(** ** The registry *)

Inductive RegistryOp := Register (p : Provider) | LoadOnce | ResetForTests.

Definition registry_step (r : Registry) (op : RegistryOp) : Registry :=
  match op with
  | Register p => snd (register p r)
  | LoadOnce => snd (load_builtin_once r)
  | ResetForTests => reset_for_tests r
  end.

Definition well_named (e : pystr * Provider) : Prop :=
  pv_name (snd e) = fst e ∧ py_islower (fst e) = true ∧ 32%N ∉ fst e.

Record registry_ok (r : Registry) : Prop := {
  rk_names : Forall well_named (rg_providers r);
  rk_distinct : NoDup (fst <$> rg_providers r)
}.

Lemma register_ok p r : registry_ok r → registry_ok (snd (register p r)).
Proof.
  intros [Hn Hd]. unfold register. case_bool_decide as Hin; [done |].
  destruct (py_islower (pv_name p)) eqn:El; [| done]. cbn [negb orb].
  destruct (existsb _ _) eqn:Es; [done |]. cbn [snd]. rewrite od_set_fresh by done. split; cbn.
  - apply Forall_app. split; [done |]. apply Forall_singleton. split; [done |]. split; [done |].
    intros Hsp. apply not_true_iff_false in Es. apply Es, existsb_exists. exists 32%N.
    by rewrite <- list_elem_of_In.
  - rewrite fmap_app. apply NoDup_app. split; [done |]. split; [| apply NoDup_singleton].
    intros x Hx ->%list_elem_of_singleton. done.
Qed.

Lemma import_ok p r : registry_ok r → registry_ok (snd (import_adapter p r)).
Proof.
  intros Hr. unfold import_adapter. case_bool_decide; [done |].
  pose proof (register_ok p r Hr) as Hk. destruct (register p r) as [[e|] r']; [done |]. destruct Hk. by split.
Qed.

Lemma load_ok r : registry_ok r → registry_ok (snd (load_builtin_once r)).
Proof.
  intros Hr. unfold load_builtin_once. destruct (rg_loaded r); [done |]. unfold load_builtin.
  pose proof (import_ok CustomProvider r Hr) as H1. destruct (import_adapter CustomProvider r) as [[e|] r1]; [done |].
  pose proof (import_ok S2SJsonProvider r1 H1) as H2.
  destruct (import_adapter S2SJsonProvider r1) as [[e|] r2]; [done |]. destruct H2. by split.
Qed.

(** Whatever is registered, loaded and reset, each adapter is found under its own name,
    names are lowercase without spaces, and none hides another; every registered adapter
    is offered. *)
Lemma registry_keeps_names ops :
  let r := fold_left registry_step ops fresh_registry in
  registry_ok r ∧ ∀ p, p ∈ available r ↔ registry_get (pv_name p) r = Ok p.
Proof.
  intros r. assert (registry_ok r) as Hr.
  { unfold r. assert (registry_ok fresh_registry) as H0 by (split; constructor). revert H0.
    generalize fresh_registry. induction ops as [|op ops IH]; intros r0 H0; [done |]. apply IH.
    destruct op; cbn [registry_step]; [by apply register_ok | by apply load_ok | split; constructor]. }
  split; [done |]. intros p. unfold available, registry_get. rewrite list_elem_of_omap. split.
  - intros (n & _ & Hg). pose proof (od_get_elem _ _ _ Hg) as He. destruct Hr as [Hn _].
    rewrite Forall_forall in Hn. destruct (Hn _ He) as [Hname _]. cbn in Hname. by rewrite Hname, Hg.
  - intros Hg. destruct (od_get (pv_name p) _) as [p'|] eqn:E; [| done]. injection Hg as ->.
    exists (pv_name p). split; [| done]. apply sorted_set_elem, list_elem_of_fmap.
    exists (pv_name p, p). split; [done |]. by apply od_get_elem.
Qed.

(** Loading twice is loading once, however many consumers do it. *)
Lemma loading_is_idempotent n :
  Nat.iter (S n) (λ r, snd (load_builtin_once r)) fresh_registry = builtin.
Proof.
  rewrite Nat.iter_succ_r. change (snd (load_builtin_once fresh_registry)) with builtin.
  induction n as [|n IH]; [done |]. rewrite Nat.iter_succ, IH. unfold load_builtin_once.
  by rewrite (proj2 builtin_providers).
Qed.
End Adapters.

(** ** On concrete configurations *)

Definition toy_json_text : JsonText := {| json_dumps _ := py "{}"; json_loads _ := None |}.
Definition toy_islower : IsLower := {| islower_other _ := false |}.

Definition ex_s2s_config : ProviderConfig :=
  {| pc_credentials := [(py "api_token", py "t0k3n")];
     pc_settings := [(py "endpoint", JStr (py "https://n.example/conv"));
                     (py "event_map", JObj [(py "install", JStr (py "app_install"))])] |}.

Lemma validated_integration_sends_what_it_maps_witness :
  @s2s_validate ascii_unicode toy_format ex_s2s_config = [] ∧
  ∃ events, @resolved_map ex_s2s_config = Some events ∧
    @s2s_prepare ascii_unicode toy_format toy_json_text (py "purchase") [] ex_s2s_config = Some None.
Proof.
  split; [vm_compute; reflexivity |].
  destruct (@validated_integration_sends_what_it_maps ascii_unicode toy_format toy_json_text ex_s2s_config)
    as (events & token & Hev & _ & _ & Hp); [vm_compute; reflexivity | vm_compute; reflexivity |].
  exists events. split; [exact Hev |]. rewrite Hp.
  assert (events = [(py "install", JStr (py "app_install"))]) as ->
    by (assert (Some events = Some [(py "install", JStr (py "app_install"))]) as [= ->]
          by (rewrite <- Hev; vm_compute; reflexivity); reflexivity).
  vm_compute. reflexivity.
Defined.

Definition ex_s2s_integration : Integration :=
  {| ig_id := 5; ig_active := true; ig_provider := py "s2s_json";
     ig_credentials := {| sc_ciphertext := None; sc_nonce := None; sc_wrapped := None; sc_version := None |};
     ig_configuration := Some (pc_settings ex_s2s_config) |}.

Abbreviation ex_builtin := (@builtin ascii_unicode toy_format toy_json_text toy_islower).

Abbreviation ex_deliver event := (snd (@deliver ascii_unicode toy_aead LocalMasterKeyProvider
  (@local_master_keys toy_aead) toy_json
  (lookup_adapter ex_builtin) (ex_seal_env 1 (Responded 200 [])) (ex_world []) (ex_rule None)
  (Some ex_s2s_integration) event [] None)).

Lemma unmapped_events_are_not_sent_witness :
  q_event_name (ex_purchase 3) = py "purchase" ∧ w_sent (ex_deliver (ex_purchase 3)) = [].
Proof.
  split; [vm_compute; reflexivity |].
  apply (@unmapped_events_are_not_sent ascii_unicode toy_format toy_json_text toy_islower toy_aead
    LocalMasterKeyProvider (@local_master_keys toy_aead) toy_json (ex_seal_env 1 (Responded 200 []))
    (ex_world []) (ex_rule None) ex_s2s_integration (ex_purchase 3) [] None
    [(py "install", JStr (py "app_install"))]); [vm_compute; reflexivity .. | left; vm_compute; reflexivity].
Defined.

(** ** What the code does beyond its documentation *)

(** A redirect is not followed and carries no conversion, but the server-to-server adapter
    reads every status below 400 as acceptance, over the success codes it declares. *)
Lemma redirect_counts_as_delivered :
  let moved := {| dr_status_code := Some 302; dr_body := Some (py "moved"); dr_error := None |} in
  let v := @s2s_interpret ascii_unicode toy_format toy_json_text 302 (py "moved") in
  dv_accepted v = true ∧ decided_status moved [200; 201; 202] 1 (Some (dv_accepted v)) = Delivered.
Proof. split; vm_compute; reflexivity. Qed.

Definition ex_template_config (template : pystr) : ProviderConfig :=
  {| pc_credentials := []; pc_settings := [(py "url_template", JStr template)] |}.

(** A template with a malformed placeholder validates, and then no event can be sent: the
    adapter raises on every one. *)
Lemma malformed_template_validates :
  let config := ex_template_config (py "https://n.example/?c={{ click.id }}") in
  @custom_validate ascii_unicode toy_format config = [] ∧
  ∀ event values, @custom_prepare ascii_unicode toy_format event values config = None.
Proof. split; [vm_compute; reflexivity |]. intros event values. reflexivity. Qed.

(** The form's hint writes variables in single braces, which are sent as they are. *)
Lemma hinted_braces_are_sent_literally :
  let config := ex_template_config (py "https://n.example/?c={click_id}") in
  @custom_validate ascii_unicode toy_format config = [] ∧
  (option_map (option_map pq_url) (@custom_prepare ascii_unicode toy_format (py "install")
     [(py "click_id", Some (py "7"))] config)) = Some (Some (py "https://n.example/?c={click_id}")).
Proof. split; vm_compute; reflexivity. Qed.

(** Validation reads the template without its surrounding blanks, sending with them. *)
Lemma padded_template_is_not_https :
  let config := ex_template_config (py " https://n.example/") in
  @custom_validate ascii_unicode toy_format config = [] ∧
  (option_map (option_map pq_url) (@custom_prepare ascii_unicode toy_format (py "install") [] config)) =
  Some (Some (py " https://n.example/")).
Proof. split; vm_compute; reflexivity. Qed.

(** Extra fields are not validated: a template in them makes every event raise. *)
Lemma extra_fields_are_not_validated :
  let config := {| pc_credentials := pc_credentials ex_s2s_config;
                   pc_settings := pc_settings ex_s2s_config ++
                     [(py "extra_fields", JObj [(py "note", JStr (py "{{ nothing }}"))])] |} in
  @s2s_validate ascii_unicode toy_format config = [] ∧
  ∀ values, @s2s_prepare ascii_unicode toy_format toy_json_text (py "install") values config = None.
Proof. split; [vm_compute; reflexivity |]. intros values. reflexivity. Qed.

(** After a reset the adapters cannot be loaded again: their modules are imported
    already. *)
Lemma reset_is_for_good :
  rg_providers (snd (@load_builtin_once ascii_unicode toy_format toy_json_text toy_islower (reset_for_tests ex_builtin))) = [].
Proof. reflexivity. Qed.
