(* ===== verification/ApiSessions.v ===== *)
(** * Dashboard sessions (mmp_api/sessions.py)

    Sessions live in Redis under their token, and each user's tokens in a set beside
    them.  The JSON of a session is kept as the structure it encodes; the token and the
    CSRF token are drawn by the caller's [secrets].  A Redis set is the list of its
    elements.

    Each operation is given twice: as the function the handlers call, and as a [Task] that
    runs its Redis commands one at a time.  [alone_is_the_operation] ties the two, and the
    theorem is about tasks interleaved in any way. *)

From S2P Require Import Prelude Redis.

#[local] Open Scope Z_scope.
#[local] Open Scope mmp_scope.

Definition SESSION_PREFIX : pystr := py "session:".
Definition USER_SESSIONS_PREFIX : pystr := py "user_sessions:".
Definition DEFAULT_TTL : timedelta := 7 * day.
Definition ABSOLUTE_TTL : timedelta := 30 * day.

Record Session := {
  sn_user_id : pystr;
  sn_organization_id : option pystr;
  sn_csrf_token : pystr;
  sn_created_at : datetime;
  sn_ip_hash : option pystr
}.

#[export] Instance session_eq_dec : EqDecision Session.
Proof. solve_decision. Defined.

(** [Session.age]. *)
Definition age (now : datetime) (s : Session) : timedelta := now - sn_created_at s.

Record SessionStore := { so_sessions : store Session; so_index : store (list pystr) }.

Definition api_session_key (token : pystr) : pystr := SESSION_PREFIX ++ token.
Definition index_key (user : pystr) : pystr := USER_SESSIONS_PREFIX ++ user.

(** [SADD], [SREM] and [SMEMBERS]; a set that loses its last element is gone. *)
Definition sadd (now : datetime) (k x : pystr) (m : store (list pystr)) : store (list pystr) :=
  match peek now k m with
  | Some e => <[k := Entry (x :: e_value e) (e_expiry e)]> m
  | None => <[k := Entry [x] None]> m
  end.

Definition srem (now : datetime) (k x : pystr) (m : store (list pystr)) : store (list pystr) :=
  match peek now k m with
  | Some e =>
      match List.filter (λ y, negb (bool_decide (y = x))) (e_value e) with
      | [] => rdel k m
      | l => <[k := Entry l (e_expiry e)]> m
      end
  | None => m
  end.

Definition smembers (now : datetime) (k : pystr) (m : store (list pystr)) : list pystr :=
  default [] (rget now k m).

Section ApiSessions.
(** The [ttl] the store was made with. *)
Variable ttl : timedelta.

Definition create (now : datetime) (token csrf user : pystr) (org ip_hash : option pystr) (st : SessionStore)
    : Session * SessionStore :=
  let session := {| sn_user_id := user; sn_organization_id := org; sn_csrf_token := csrf;
                    sn_created_at := now; sn_ip_hash := ip_hash |} in
  (session,
   {| so_sessions := rset_ex now (api_session_key token) session (int_total_seconds ttl) (so_sessions st);
      so_index := rexpire now (index_key user) (int_total_seconds ABSOLUTE_TTL)
                    (sadd now (index_key user) token (so_index st)) |}).

Definition get_raw (now : datetime) (token : pystr) (st : SessionStore) : option Session :=
  rget now (api_session_key token) (so_sessions st).

Definition revoke (now : datetime) (token : pystr) (st : SessionStore) : SessionStore :=
  let session := get_raw now token st in
  {| so_sessions := rdel (api_session_key token) (so_sessions st);
     so_index := match session with
                 | Some s => srem now (index_key (sn_user_id s)) token (so_index st)
                 | None => so_index st
                 end |}.

Definition get (now : datetime) (token : pystr) (st : SessionStore) : option Session * SessionStore :=
  match rget now (api_session_key token) (so_sessions st) with
  | None => (None, st)
  | Some s =>
      if ABSOLUTE_TTL <? age now s then (None, revoke now token st)
      else (Some s, {| so_sessions := rexpire now (api_session_key token) (int_total_seconds ttl) (so_sessions st);
                       so_index := so_index st |})
  end.

Definition with_organization (org : pystr) (s : Session) : Session :=
  {| sn_user_id := sn_user_id s; sn_organization_id := Some org; sn_csrf_token := sn_csrf_token s;
     sn_created_at := sn_created_at s; sn_ip_hash := sn_ip_hash s |}.

(** What [set_active_organization] does after it has read the session. *)
Definition store_organization (now : datetime) (token org : pystr) (s : Session) (st : SessionStore) : SessionStore :=
  let left := rttl now (api_session_key token) (so_sessions st) in
  {| so_sessions := rset_ex now (api_session_key token) (with_organization org s)
                      (if 0 <? left then left else int_total_seconds ttl) (so_sessions st);
     so_index := so_index st |}.

Definition set_active_organization (now : datetime) (token org : pystr) (st : SessionStore) : SessionStore :=
  match get now token st with
  | (None, st) => st
  | (Some s, st) => store_organization now token org s st
  end.

Definition revoke_all_for_user (now : datetime) (user : pystr) (st : SessionStore) : nat * SessionStore :=
  let tokens := smembers now (index_key user) (so_index st) in
  (length tokens,
   {| so_sessions := foldr (λ t, rdel (api_session_key t)) (so_sessions st) tokens;
      so_index := rdel (index_key user) (so_index st) |}).

(** ** The commands, one at a time

    Between two commands of an operation those of others run.  A task is an operation
    stopped before its next command, with what it has read so far. *)

(** What [get] was called for. *)
Inductive Then := ToAnswer | ToSwitch (org : pystr).

Inductive Task :=
| CreateSet (token : pystr) (s : Session)
| CreateIndex (token user : pystr)
| CreateExpire (token user : pystr)
| GetRead (token : pystr) (k : Then)
| GetExpire (token : pystr) (s : Session) (k : Then)
| SwitchTtl (token : pystr) (s : Session) (org : pystr)
| SwitchSet (token : pystr) (s : Session) (seconds : Z)
| RevokeRead (token : pystr)
| RevokeDel (token : pystr) (session : option Session)
| RevokeIndex (token user : pystr)
| AllRead (user : pystr)
| AllDel (user : pystr) (tokens : list pystr)
| AllForget (user : pystr) (tokens : list pystr)
| Done (answer : option Session).

#[export] Instance then_eq_dec : EqDecision Then.
Proof. solve_decision. Defined.
#[export] Instance task_eq_dec : EqDecision Task.
Proof. solve_decision. Defined.

Inductive Call :=
| CallCreate (token csrf user : pystr) (org ip_hash : option pystr)
| CallGet (token : pystr)
| CallSwitch (token org : pystr)
| CallRevoke (token : pystr)
| CallRevokeAll (user : pystr).

Definition new_session (now : datetime) (csrf user : pystr) (org ip_hash : option pystr) : Session :=
  {| sn_user_id := user; sn_organization_id := org; sn_csrf_token := csrf;
     sn_created_at := now; sn_ip_hash := ip_hash |}.

Definition start (now : datetime) (c : Call) : Task :=
  match c with
  | CallCreate token csrf user org ip => CreateSet token (new_session now csrf user org ip)
  | CallGet token => GetRead token ToAnswer
  | CallSwitch token org => GetRead token (ToSwitch org)
  | CallRevoke token => RevokeRead token
  | CallRevokeAll user => AllRead user
  end.

Definition on_sessions (f : store Session → store Session) (st : SessionStore) : SessionStore :=
  {| so_sessions := f (so_sessions st); so_index := so_index st |}.
Definition on_index (f : store (list pystr) → store (list pystr)) (st : SessionStore) : SessionStore :=
  {| so_sessions := so_sessions st; so_index := f (so_index st) |}.

(** The next command of a task. *)
Definition task_step (now : datetime) (x : Task) (st : SessionStore) : Task * SessionStore :=
  match x with
  | CreateSet token s =>
      (CreateIndex token (sn_user_id s),
       on_sessions (rset_ex now (api_session_key token) s (int_total_seconds ttl)) st)
  | CreateIndex token user => (CreateExpire token user, on_index (sadd now (index_key user) token) st)
  | CreateExpire token user =>
      (Done None, on_index (rexpire now (index_key user) (int_total_seconds ABSOLUTE_TTL)) st)
  | GetRead token k =>
      (match rget now (api_session_key token) (so_sessions st) with
       | None => Done None
       | Some s => if ABSOLUTE_TTL <? age now s then RevokeRead token else GetExpire token s k
       end, st)
  | GetExpire token s k =>
      (match k with ToAnswer => Done (Some s) | ToSwitch org => SwitchTtl token s org end,
       on_sessions (rexpire now (api_session_key token) (int_total_seconds ttl)) st)
  | SwitchTtl token s org =>
      let left := rttl now (api_session_key token) (so_sessions st) in
      (SwitchSet token (with_organization org s) (if 0 <? left then left else int_total_seconds ttl), st)
  | SwitchSet token s seconds => (Done None, on_sessions (rset_ex now (api_session_key token) s seconds) st)
  | RevokeRead token => (RevokeDel token (get_raw now token st), st)
  | RevokeDel token session =>
      (match session with Some s => RevokeIndex token (sn_user_id s) | None => Done None end,
       on_sessions (rdel (api_session_key token)) st)
  | RevokeIndex token user => (Done None, on_index (srem now (index_key user) token) st)
  | AllRead user =>
      let tokens := smembers now (index_key user) (so_index st) in
      (match tokens with [] => AllForget user [] | _ => AllDel user tokens end, st)
  | AllDel user tokens =>
      (AllForget user tokens, on_sessions (λ m, foldr (λ t, rdel (api_session_key t)) m tokens) st)
  | AllForget user _ => (Done None, on_index (rdel (index_key user)) st)
  | Done answer => (Done answer, st)
  end.

(** A task whose commands nobody comes between. *)
Fixpoint alone (n : nat) (now : datetime) (x : Task) (st : SessionStore) : Task * SessionStore :=
  match n with
  | O => (x, st)
  | S n => let (x, st) := task_step now x st in alone n now x st
  end.

(** ** Interleaved runs

    The last four fields record what happened, for the statements: the sessions drawn, the
    tokens a DEL named, those among them that an operation under way was about to write,
    and those that may have missed the index, because a logout everywhere of their user
    was under way when they entered it or because it had gone when its expiry was set. *)
Record World := {
  wo_store : SessionStore;
  wo_tasks : list Task;
  wo_drawn : list (pystr * Session);
  wo_deleted : list pystr;
  wo_rewritten : list pystr;
  wo_unlisted : list pystr
}.

Inductive Event := Begin (c : Call) | Advance (i : nat).

(** The task may still write the session of the token. *)
Definition writes (token : pystr) (x : Task) : bool :=
  match x with
  | CreateSet t _ | GetExpire t _ (ToSwitch _) | SwitchTtl t _ _ | SwitchSet t _ _ => bool_decide (t = token)
  | _ => false
  end.

(** A logout everywhere of the user that has read the index. *)
Definition sweeps (user : pystr) (x : Task) : bool :=
  match x with AllDel u _ | AllForget u _ => bool_decide (u = user) | _ => false end.

Definition deletes (x : Task) : list pystr :=
  match x with RevokeDel token _ => [token] | AllDel _ tokens => tokens | _ => [] end.

Definition misses (now : datetime) (x : Task) (w : World) : list pystr :=
  match x with
  | CreateIndex token user => if existsb (sweeps user) (wo_tasks w) then [token] else []
  | CreateExpire token user =>
      if bool_decide (token ∈ smembers now (index_key user) (so_index (wo_store w))) then [] else [token]
  | _ => []
  end.

Definition world_step (now : datetime) (ev : Event) (w : World) : World :=
  match ev with
  | Begin c =>
      {| wo_store := wo_store w; wo_tasks := wo_tasks w ++ [start now c];
         wo_drawn := match c with
                     | CallCreate token csrf user org ip => (token, new_session now csrf user org ip) :: wo_drawn w
                     | _ => wo_drawn w
                     end;
         wo_deleted := wo_deleted w; wo_rewritten := wo_rewritten w; wo_unlisted := wo_unlisted w |}
  | Advance i =>
      match wo_tasks w !! i with
      | None => w
      | Some x =>
          let (x', st) := task_step now x (wo_store w) in
          {| wo_store := st; wo_tasks := <[i := x']> (wo_tasks w); wo_drawn := wo_drawn w;
             wo_deleted := deletes x ++ wo_deleted w;
             wo_rewritten := List.filter (λ t, existsb (writes t) (wo_tasks w)) (deletes x) ++ wo_rewritten w;
             wo_unlisted := misses now x w ++ wo_unlisted w |}
      end
  end.

Definition no_world : World :=
  {| wo_store := {| so_sessions := ∅; so_index := ∅ |}; wo_tasks := []; wo_drawn := []; wo_deleted := [];
     wo_rewritten := []; wo_unlisted := [] |}.

Definition world_run (evs : list (datetime * Event)) (w : World) : World :=
  fold_left (λ w e, world_step (fst e) (snd e) w) evs w.

(** Time does not run backwards, and a token that is drawn is one nobody has drawn or
    presented for deletion before. *)
Fixpoint allowed (t : datetime) (evs : list (datetime * Event)) (w : World) : Prop :=
  match evs with
  | [] => True
  | (now, ev) :: evs =>
      t <= now ∧
      match ev with
      | Begin (CallCreate token _ _ _ _) => token ∉ (fst <$> wo_drawn w) ∧ token ∉ wo_deleted w
      | _ => True
      end ∧
      allowed now evs (world_step now ev w)
  end.

(** The time a run has reached. *)
Fixpoint clock (t : datetime) (evs : list (datetime * Event)) : datetime :=
  match evs with [] => t | (now, _) :: evs => clock now evs end.

(** ** Lemmas *)

#[local] Arguments api_session_key : simpl never.
#[local] Arguments index_key : simpl never.

Lemma api_session_key_inj a b : api_session_key a = api_session_key b → a = b.
Proof. apply app_inv_head. Qed.

Lemma index_key_inj a b : index_key a = index_key b → a = b.
Proof. apply app_inv_head. Qed.

Lemma absolute_seconds : int_total_seconds ABSOLUTE_TTL * second = ABSOLUTE_TTL.
Proof. reflexivity. Qed.

Lemma default_seconds : int_total_seconds DEFAULT_TTL * second = DEFAULT_TTL.
Proof. reflexivity. Qed.


Lemma deleted_lookup tokens (m : store Session) k e :
  foldr (λ t, rdel (api_session_key t)) m tokens !! k = Some e → m !! k = Some e ∧ k ∉ api_session_key <$> tokens.
Proof.
  induction tokens as [|t tokens IH]; cbn; [intros H; split; [done | apply not_elem_of_nil] |].
  unfold rdel at 1. intros [Hne He]%lookup_delete_Some. destruct (IH He) as [Hm Hn]. split; [done |].
  rewrite not_elem_of_cons. by split.
Qed.

(** A task that runs without interruption is the operation it was started for. *)
Lemma alone_is_the_operation now c st :
  alone 4 now (start now c) st =
  match c with
  | CallCreate token csrf user org ip => (Done None, snd (create now token csrf user org ip st))
  | CallGet token => let (answer, st) := get now token st in (Done answer, st)
  | CallSwitch token org => (Done None, set_active_organization now token org st)
  | CallRevoke token => (Done None, revoke now token st)
  | CallRevokeAll user => (Done None, snd (revoke_all_for_user now user st))
  end.
Proof.
  destruct st as [sessions index].
  destruct c as [token csrf user org ip|token|token org|token|user]; cbn; try done.
  - unfold get. cbn. destruct (rget now _ sessions) as [s|] eqn:E; cbn; [| done].
    destruct (ABSOLUTE_TTL <? age now s); cbn; [| done]. unfold revoke, get_raw. cbn. by rewrite E.
  - unfold set_active_organization, get. cbn. destruct (rget now _ sessions) as [s|] eqn:E; cbn; [| done].
    destruct (ABSOLUTE_TTL <? age now s); cbn; [| done]. unfold revoke, get_raw. cbn. by rewrite E.
  - unfold revoke, get_raw. cbn. by destruct (rget now _ sessions).
  - unfold revoke_all_for_user. cbn. by destruct (smembers now _ index).
Qed.

(** What a command leaves of a session: it is the one being written, or it was there and
    is not being deleted. *)
Lemma sessions_after now x st token e :
  so_sessions (snd (task_step now x st)) !! api_session_key token = Some e →
  (x = CreateSet token (e_value e) ∨ ∃ n, x = SwitchSet token (e_value e) n) ∨
  ∃ e0, so_sessions st !! api_session_key token = Some e0 ∧ e_value e = e_value e0 ∧ token ∉ deletes x.
Proof.
  assert (∀ m, m !! api_session_key token = Some e → m = so_sessions st →
            ∃ e0, so_sessions st !! api_session_key token = Some e0 ∧ e_value e = e_value e0 ∧ token ∉ @nil pystr) as Hsame.
  { intros m He ->. exists e. split; [done |]. split; [done | apply not_elem_of_nil]. }
  destruct x as [t s|t u|t u|t k|t s k|t s o|t s n|t|t o|t u|u|u toks|u toks|a]; cbn; intros H;
    try (right; by eapply Hsame).
  - unfold rset_ex in H. apply lookup_insert_Some in H as [[E <-]|[Hne H]].
    + apply api_session_key_inj in E as <-. left. by left.
    + right. by eapply Hsame.
  - rewrite rexpire_local in H. case_decide as E; [| right; by eapply Hsame].
    apply api_session_key_inj in E as <-. right. unfold expire_entry, live_entry in H.
    destruct (so_sessions st !! api_session_key token) as [e0|] eqn:E0; [| done]. exists e0. split; [done |].
    split; [| apply not_elem_of_nil]. destruct (live now e0); by injection H as <-.
  - unfold rset_ex in H. apply lookup_insert_Some in H as [[E <-]|[Hne H]].
    + apply api_session_key_inj in E as <-. left. right. by eexists.
    + right. by eapply Hsame.
  - unfold rdel in H. apply lookup_delete_Some in H as [Hne H]. right. exists e. split; [done |]. split; [done |].
    intros ->%list_elem_of_singleton. done.
  - apply deleted_lookup in H as [H Hn]. right. exists e. split; [done |]. split; [done |].
    intros Hin. by apply Hn, list_elem_of_fmap_2.
Qed.

Lemma sessions_kept now x st token :
  is_Some (so_sessions st !! api_session_key token) → token ∉ deletes x →
  is_Some (so_sessions (snd (task_step now x st)) !! api_session_key token).
Proof.
  intros Hs Hd.
  destruct x as [t s|t u|t u|t k|t s k|t s o|t s n|t|t o|t u|u|u toks|u toks|a]; cbn in *; try exact Hs.
  - unfold rset_ex. destruct (decide (api_session_key t = api_session_key token)) as [->|];
      [by rewrite lookup_insert_eq | by rewrite lookup_insert_ne].
  - rewrite rexpire_local. case_decide; [| done]. destruct Hs as [e He].
    unfold expire_entry. rewrite He. cbn. by destruct (live now e).
  - unfold rset_ex. destruct (decide (api_session_key t = api_session_key token)) as [->|];
      [by rewrite lookup_insert_eq | by rewrite lookup_insert_ne].
  - unfold rdel. rewrite lookup_delete_ne; [done |]. intros E%api_session_key_inj. apply Hd. subst. by left.
  - induction toks as [|t toks IH]; cbn; [done |]. apply not_elem_of_cons in Hd as [Hne Hd].
    unfold rdel at 1. rewrite lookup_delete_ne; [by apply IH |]. by intros ->%api_session_key_inj.
Qed.

Lemma live_later t now (m : store (list pystr)) k x : t <= now → x ∈ smembers now k m → x ∈ smembers t k m.
Proof.
  intros Ht. unfold smembers, rget, peek. destruct (m !! k) as [e|]; [| done].
  assert (live now e = true → live t e = true) as Hl.
  { unfold live. destruct (e_expiry e) as [y|]; [| done]. rewrite !Z.ltb_lt. lia. }
  destruct (live now e); [by rewrite Hl | by intros ?%not_elem_of_nil].
Qed.

Lemma live_entry_value {V} now o (e : entry V) v :
  @live_entry V now o = Some e → @live_entry V now (Some (Entry v (e_expiry e))) = Some (Entry v (e_expiry e)).
Proof.
  unfold live_entry. destruct o as [e0|]; [| done]. destruct (live now e0) eqn:E; [| done]. intros [= <-].
  unfold live in *. cbn. by rewrite E.
Qed.

(** Only SADD lengthens a set. *)
Lemma smembers_after now x st token user :
  token ∈ smembers now (index_key user) (so_index (snd (task_step now x st))) →
  token ∈ smembers now (index_key user) (so_index st) ∨ x = CreateIndex token user.
Proof.
  destruct x as [t s|t u|t u|t k|t s k|t s o|t s n|t|t o|t u|u|u toks|u toks|a]; cbn; try (by left).
  - unfold sadd, smembers, rget. rewrite !peek_live.
    destruct (live_entry now (so_index st !! index_key u)) as [e|] eqn:El;
      (destruct (decide (index_key u = index_key user)) as [E|E];
       [apply index_key_inj in E as <-; rewrite lookup_insert_eq | rewrite lookup_insert_ne by done; by left]).
    + rewrite (live_entry_value _ _ _ _ El), El. cbn. intros [->|?]%elem_of_cons; [by right | by left].
    + cbn. intros ->%list_elem_of_singleton. by right.
  - unfold smembers, rget. rewrite !peek_live, rexpire_local.
    case_decide as E; [| by left]. rewrite E. unfold expire_entry.
    destruct (so_index st !! index_key u) as [e|]; cbn; [| by left].
    destruct (live now e) eqn:El; cbn; [| by rewrite El; left].
    destruct (now <? _); [by left |].
    by intros ?%not_elem_of_nil.
  - unfold srem, smembers, rget. rewrite !peek_live.
    destruct (live_entry now (so_index st !! index_key u)) as [e|] eqn:El; [| by left].
    destruct (List.filter _ (e_value e)) as [|y l] eqn:Ef; unfold rdel;
      (destruct (decide (index_key u = index_key user)) as [E|E];
       [apply index_key_inj in E as <- | rewrite ?lookup_insert_ne, ?lookup_delete_ne by done; by left]).
    + rewrite lookup_delete_eq. cbn. by intros ?%not_elem_of_nil.
    + rewrite lookup_insert_eq, (live_entry_value _ _ _ _ El), El. cbn [e_value fmap option_fmap option_map default]. rewrite <- Ef.
      intros [Hin _]%elem_of_lfilter. by left.
  - unfold rdel, smembers, rget. rewrite !peek_live.
    destruct (decide (index_key u = index_key user)) as [->|];
      [rewrite lookup_delete_eq; cbn; by intros ?%not_elem_of_nil | rewrite lookup_delete_ne by done; by left].
Qed.

(** The index names a session for as long as it may be used. *)
Definition indexed (st : SessionStore) (token : pystr) (s : Session) : Prop :=
  ∃ e, so_index st !! index_key (sn_user_id s) = Some e ∧ token ∈ e_value e ∧
    match e_expiry e with Some x => sn_created_at s + ABSOLUTE_TTL <= x | None => True end.

Lemma indexed_live st token s now :
  indexed st token s → now - sn_created_at s < ABSOLUTE_TTL →
  ∃ e, live_entry now (so_index st !! index_key (sn_user_id s)) = Some e ∧ token ∈ e_value e ∧
       so_index st !! index_key (sn_user_id s) = Some e.
Proof.
  intros (e & He & Ht & Hx) Hage. exists e. rewrite He. cbn. unfold live.
  destruct (e_expiry e) as [x|]; [| done]. by rewrite (proj2 (Z.ltb_lt now x)) by lia.
Qed.

(** Only SREM of the token itself and DEL of the set take a usable session out of it. *)
Lemma indexed_after now x st token s :
  indexed st token s → sn_created_at s <= now → now - sn_created_at s < ABSOLUTE_TTL →
  (∀ u, x ≠ RevokeIndex token u) → (∀ toks, x ≠ AllForget (sn_user_id s) toks) →
  indexed (snd (task_step now x st)) token s.
Proof.
  intros Hi Hc Ha Hr Hf. destruct (indexed_live _ _ _ now Hi Ha) as (e & Hl & Hin & He).
  pose proof Hi as (e' & He' & _ & Hx). rewrite He in He'. injection He' as <-.
  destruct x as [t s'|t u|t u|t k|t s' k|t s' o|t s' n|t|t o|t u|u|u toks|u toks|a]; cbn; try exact Hi;
    unfold indexed; cbn [so_index on_index].
  - unfold sadd. rewrite peek_live. destruct (decide (index_key u = index_key (sn_user_id s))) as [E|E].
    + rewrite E, Hl, lookup_insert_eq. eexists. split; [done |]. cbn. split; [by right | done].
    + destruct (live_entry now (so_index st !! index_key u)); rewrite lookup_insert_ne by done; by exists e.
  - rewrite rexpire_local. case_decide as E; [| by exists e]. unfold expire_entry. rewrite Hl.
    eexists. split; [done |]. cbn [e_value e_expiry]. split; [done |]. rewrite absolute_seconds. lia.
  - unfold srem. rewrite peek_live. destruct (decide (index_key u = index_key (sn_user_id s))) as [E|E].
    + rewrite E, Hl. assert (token ∈ List.filter (λ y, negb (bool_decide (y = t))) (e_value e)) as Hin'.
      { apply elem_of_lfilter. split; [done |]. rewrite bool_decide_false; [done |]. intros ->. by apply (Hr u). }
      destruct (List.filter _ (e_value e)) as [|y l]; [by apply not_elem_of_nil in Hin' |].
      rewrite lookup_insert_eq. eexists. split; [done |]. by split.
    + destruct (live_entry now (so_index st !! index_key u)) as [e1|]; [| by exists e].
      destruct (List.filter _ _); unfold rdel; rewrite ?lookup_insert_ne, ?lookup_delete_ne by done; by exists e.
  - unfold rdel. rewrite lookup_delete_ne; [by exists e |]. intros E%index_key_inj. by apply (Hf toks); subst.
Qed.

(** ** The invariant of interleaved runs *)

(** [s] is the session drawn with the token, up to the organisation. *)
Definition drawn_as (t : datetime) (w : World) (token : pystr) (s : Session) : Prop :=
  ∃ s0, (token, s0) ∈ wo_drawn w ∧ sn_created_at s0 <= t ∧ sn_user_id s = sn_user_id s0 ∧
    sn_csrf_token s = sn_csrf_token s0 ∧ sn_created_at s = sn_created_at s0 ∧ sn_ip_hash s = sn_ip_hash s0.

Definition carries (x : Task) : option (pystr * Session) :=
  match x with
  | CreateSet token s | GetExpire token s _ | SwitchTtl token s _ | SwitchSet token s _ => Some (token, s)
  | _ => None
  end.

Definition creating (x : Task) : bool := match x with CreateSet _ _ => true | _ => false end.

Definition stored (w : World) (token : pystr) (e : entry Session) : Prop :=
  so_sessions (wo_store w) !! api_session_key token = Some e.

(** Why a logout everywhere will reach the session: it is about to be listed, about to be
    deleted, or listed. *)
Definition reachable (w : World) (token : pystr) (s : Session) : Prop :=
  CreateIndex token (sn_user_id s) ∈ wo_tasks w ∨ CreateExpire token (sn_user_id s) ∈ wo_tasks w ∨
  (∃ tokens, AllDel (sn_user_id s) tokens ∈ wo_tasks w ∧ token ∈ tokens) ∨ indexed (wo_store w) token s.

Record inv (t : datetime) (w : World) : Prop := {
  iv_drawn : NoDup (fst <$> wo_drawn w);
  iv_stored : ∀ token e, stored w token e → drawn_as t w token (e_value e);
  iv_carried : ∀ token s x, x ∈ wo_tasks w → carries x = Some (token, s) → drawn_as t w token s;
  iv_gone : ∀ token e, stored w token e → token ∈ wo_deleted w → token ∈ wo_rewritten w;
  iv_writer : ∀ token x, x ∈ wo_tasks w → writes token x = true → token ∈ wo_deleted w → token ∈ wo_rewritten w;
  iv_present : ∀ token x, x ∈ wo_tasks w → writes token x = true → creating x = false →
    token ∉ wo_rewritten w → is_Some (so_sessions (wo_store w) !! api_session_key token);
  iv_listed : ∀ token e, stored w token e → token ∉ wo_rewritten w → token ∉ wo_unlisted w →
    t - sn_created_at (e_value e) < ABSOLUTE_TTL → reachable w token (e_value e);
  iv_swept : ∀ user tokens token, AllDel user tokens ∈ wo_tasks w ∨ AllForget user tokens ∈ wo_tasks w →
    token ∈ smembers t (index_key user) (so_index (wo_store w)) → token ∈ tokens ∨ token ∈ wo_unlisted w;
  iv_forgets : ∀ user tokens token, AllForget user tokens ∈ wo_tasks w → token ∈ tokens → token ∈ wo_deleted w;
  iv_unlists : ∀ token user, RevokeIndex token user ∈ wo_tasks w → token ∈ wo_deleted w
}.

Lemma drawn_later t t' w w' token s :
  t <= t' → wo_drawn w ⊆ wo_drawn w' → drawn_as t w token s → drawn_as t' w' token s.
Proof. intros Ht Hs (s0 & Hin & ? & ?). exists s0. split; [by apply Hs |]. split; [lia | done]. Qed.

Lemma drawn_created t w token s : drawn_as t w token s → sn_created_at s <= t.
Proof. intros (s0 & _ & ? & _ & _ & -> & _). done. Qed.

Lemma drawn_alike t t' w token s s' :
  NoDup (fst <$> wo_drawn w) → drawn_as t w token s → drawn_as t' w token s' →
  sn_user_id s = sn_user_id s' ∧ sn_created_at s = sn_created_at s'.
Proof.
  intros Hn (s0 & H0 & _ & Hu & _ & Hc & _) (s1 & H1 & _ & Hu' & _ & Hc' & _).
  assert ((token, s0) = (token, s1)) as [= ->] by (by apply (NoDup_fmap_elem fst (wo_drawn w))). split; congruence.
Qed.

Lemma inv_later t t' w : t <= t' → inv t w → inv t' w.
Proof.
  intros Ht []. split; try done.
  - intros token e He. eapply drawn_later; [done | done |]. by apply iv_stored0.
  - intros token s x Hx Hc. eapply drawn_later; [done | done |]. by eapply iv_carried0.
  - intros token e He Hr Hu Ha. apply iv_listed0; [done.. | lia].
  - intros user tokens token Hx Hs. eapply iv_swept0; [done |]. by eapply live_later.
Qed.

Lemma writes_carries token x : writes token x = true → ∃ s, carries x = Some (token, s).
Proof.
  destruct x as [t s|t u|t u|t k|t s [|o]|t s o|t s n|t|t o|t u|u|u toks|u toks|a]; cbn; try done;
    intros ->%bool_decide_eq_true; by eexists.
Qed.

(** What the next stage of a task carries, and what it may write, comes from the stage
    before it or from the session just read. *)
Lemma carries_after now x st token s :
  carries (fst (task_step now x st)) = Some (token, s) →
  (∃ s', carries x = Some (token, s') ∧ creating x = false ∧
     (s = s' ∨ ∃ org, s = with_organization org s')) ∨
  (∃ k e, x = GetRead token k ∧ so_sessions st !! api_session_key token = Some e ∧ s = e_value e).
Proof.
  destruct x as [t s'|t u|t u|t k|t s' [|o]|t s' o|t s' n|t|t o|t u|u|u toks|u toks|a]; cbn; try done.
  - unfold rget, peek. destruct (so_sessions st !! api_session_key t) as [e|] eqn:E; [| done].
    destruct (live now e); cbn; [| done]. destruct (ABSOLUTE_TTL <? _); cbn; [done |].
    intros [= <- <-]. right. by exists k, e.
  - intros [= <- <-]. left. eexists. split; [done |]. split; [done | by left].
  - intros [= <- <-]. left. eexists. split; [done |]. split; [done | right; by eexists].
  - by destruct o.
  - by destruct (smembers _ _ _).
Qed.

Lemma writes_after now x st token :
  writes token (fst (task_step now x st)) = true →
  creating (fst (task_step now x st)) = false ∧ deletes x = [] ∧
  (writes token x = true ∧ creating x = false ∨ ∃ e, so_sessions st !! api_session_key token = Some e).
Proof.
  destruct x as [t s'|t u|t u|t k|t s' [|o]|t s' o|t s' n|t|t o|t u|u|u toks|u toks|a]; cbn; try done.
  - unfold rget, peek. destruct (so_sessions st !! api_session_key t) as [e|] eqn:E; [| done].
    destruct (live now e); cbn; [| done]. destruct (ABSOLUTE_TTL <? _); cbn; [done |].
    destruct k; [done |]. intros ->%bool_decide_eq_true. split; [done |]. split; [done |]. right. by exists e.
  - intros ->. split; [done |]. split; [done | by left].
  - intros ->. split; [done |]. split; [done | by left].
  - by destruct o.
  - by destruct (smembers _ _ _).
Qed.

Lemma creating_writes token s x : carries x = Some (token, s) → creating x = true → x = CreateSet token s.
Proof. destruct x; cbn; congruence. Qed.

Lemma inv_begin now c w :
  inv now w →
  match c with CallCreate token _ _ _ _ => token ∉ (fst <$> wo_drawn w) ∧ token ∉ wo_deleted w | _ => True end →
  inv now (world_step now (Begin c) w).
Proof.
  intros [] Hfresh.
  assert (∀ y, y ∈ wo_tasks w ++ [start now c] → y ∈ wo_tasks w ∨ y = start now c) as Hnew
    by (intros y; apply appended_task).
  assert (wo_drawn w ⊆ wo_drawn (world_step now (Begin c) w)) as Hsub.
  { destruct c; cbn; [| done..]. intros x Hx. by right. }
  split; cbn [world_step wo_store wo_tasks wo_deleted wo_rewritten wo_unlisted].
  - destruct c; [| exact iv_drawn0..]. cbn. apply NoDup_cons. by destruct Hfresh.
  - intros token e He. eapply drawn_later; [done | exact Hsub | by apply iv_stored0].
  - intros token s x Hx Hc. destruct (Hnew _ Hx) as [Hin| ->].
    + eapply drawn_later; [done | exact Hsub | by eapply iv_carried0].
    + destruct c as [t csrf user org ip|t|t org|t|user]; cbn in Hc; try done. injection Hc as <- <-.
      eexists. cbn. split; [by left |]. cbn. split; [done | by repeat split].
  - exact iv_gone0.
  - intros token x Hx Hw Hd. destruct (Hnew _ Hx) as [Hin| ->]; [by eapply iv_writer0 |].
    destruct c as [t csrf user org ip|t|t org|t|user]; cbn in Hw; try done. apply bool_decide_eq_true in Hw as <-.
    by destruct Hfresh.
  - intros token x Hx Hw Hc Hr. destruct (Hnew _ Hx) as [Hin| ->]; [by eapply iv_present0 |].
    by destruct c.
  - intros token e He Hr Hu Ha. destruct (iv_listed0 token e He Hr Hu Ha) as [H|[H|[(toks & H & ?)|H]]].
    + left. cbn. apply elem_of_app. by left.
    + right. left. cbn. apply elem_of_app. by left.
    + right. right. left. exists toks. cbn. split; [apply elem_of_app; by left | done].
    + by do 3 right.
  - intros user tokens token Hx. apply iv_swept0. destruct Hx as [Hx|Hx];
      (destruct (Hnew _ Hx) as [Hin|Heq]; [tauto | by destruct c]).
  - intros user tokens token Hx. apply (iv_forgets0 user). destruct (Hnew _ Hx) as [Hin|Heq]; [done | by destruct c].
  - intros token user Hx. apply (iv_unlists0 token user). destruct (Hnew _ Hx) as [Hin|Heq]; [done | by destruct c].
Qed.

Section Advance.
Context (now : datetime) (i : nat) (x : Task) (w : World).
Hypothesis Hi : wo_tasks w !! i = Some x.
Hypothesis Hinv : inv now w.

Let w' := world_step now (Advance i) w.
Let x' := fst (task_step now x (wo_store w)).

Lemma advance_store : wo_store w' = snd (task_step now x (wo_store w)).
Proof. unfold w'. cbn. rewrite Hi. by destruct (task_step now x (wo_store w)). Qed.
Lemma advance_tasks : wo_tasks w' = <[i := x']> (wo_tasks w).
Proof. unfold w', x'. cbn. rewrite Hi. by destruct (task_step now x (wo_store w)). Qed.
Lemma advance_drawn : wo_drawn w' = wo_drawn w.
Proof. unfold w'. cbn. rewrite Hi. by destruct (task_step now x (wo_store w)). Qed.
Lemma advance_deleted : wo_deleted w' = deletes x ++ wo_deleted w.
Proof. unfold w'. cbn. rewrite Hi. by destruct (task_step now x (wo_store w)). Qed.
Lemma advance_rewritten :
  wo_rewritten w' = List.filter (λ t, existsb (writes t) (wo_tasks w)) (deletes x) ++ wo_rewritten w.
Proof. unfold w'. cbn. rewrite Hi. by destruct (task_step now x (wo_store w)). Qed.
Lemma advance_unlisted : wo_unlisted w' = misses now x w ++ wo_unlisted w.
Proof. unfold w'. cbn. rewrite Hi. by destruct (task_step now x (wo_store w)). Qed.

Lemma task_is_there : x ∈ wo_tasks w.
Proof. by eapply list_elem_of_lookup_2. Qed.

Lemma rewritten_by token y :
  y ∈ wo_tasks w → writes token y = true → token ∈ deletes x → token ∈ wo_rewritten w'.
Proof.
  intros Hy Hw Hd. rewrite advance_rewritten. apply elem_of_app. left. apply elem_of_lfilter. split; [done |].
  apply existsb_exists. exists y. by rewrite <- list_elem_of_In.
Qed.

Lemma rewritten_stays token : token ∈ wo_rewritten w → token ∈ wo_rewritten w'.
Proof. intros H. rewrite advance_rewritten. apply elem_of_app. by right. Qed.

Lemma drawn_advance token s : drawn_as now w token s → drawn_as now w' token s.
Proof. apply drawn_later; [done |]. by rewrite advance_drawn. Qed.

Lemma advance_stored token e :
  stored w' token e →
  (carries x = Some (token, e_value e) ∧ writes token x = true ∧ deletes x = []) ∨
  ∃ e0, stored w token e0 ∧ e_value e = e_value e0 ∧ token ∉ deletes x.
Proof.
  unfold stored. rewrite advance_store. intros [[->|(n & ->)]|?]%sessions_after; [left.. | by right];
    cbn; by rewrite bool_decide_true.
Qed.

Lemma advance_carried token s y :
  y ∈ wo_tasks w' → carries y = Some (token, s) → drawn_as now w' token s.
Proof.
  rewrite advance_tasks. intros [->|Hy]%(task_after _ _ _ _ _ Hi) Hc; apply drawn_advance;
    [| by eapply (iv_carried _ _ Hinv)].
  apply carries_after in Hc as [(s' & Hc & _ & Hs)|(k & e & _ & He & ->)]; [| by apply (iv_stored _ _ Hinv)].
  pose proof (iv_carried _ _ Hinv token s' x task_is_there Hc) as Hd.
  destruct Hs as [->|(org & ->)]; [exact Hd |]. exact Hd.
Qed.

Lemma advance_present token y :
  y ∈ wo_tasks w' → writes token y = true → creating y = false → token ∉ wo_rewritten w' →
  is_Some (so_sessions (wo_store w') !! api_session_key token).
Proof.
  rewrite advance_store, advance_tasks. intros [->|Hy]%(task_after _ _ _ _ _ Hi) Hw Hc Hr.
  - apply writes_after in Hw as (_ & Hd & Hx). apply sessions_kept; [| rewrite Hd; apply not_elem_of_nil].
    destruct Hx as [[Hw Hcx]|(e & He)]; [| by exists e]. apply (iv_present _ _ Hinv token x task_is_there Hw Hcx).
    intros H. by apply Hr, rewritten_stays.
  - apply sessions_kept.
    + apply (iv_present _ _ Hinv token y Hy Hw Hc). intros H. by apply Hr, rewritten_stays.
    + intros Hd. by eapply Hr, rewritten_by.
Qed.

Lemma advance_reachable token s :
  reachable w token s → sn_created_at s <= now → now - sn_created_at s < ABSOLUTE_TTL →
  token ∉ deletes x → token ∉ wo_deleted w → token ∉ wo_unlisted w' → reachable w' token s.
Proof.
  intros Hr Hc Ha Hdx Hd Hu. unfold reachable in *. rewrite advance_tasks. rewrite advance_unlisted in Hu.
  apply not_elem_of_app in Hu as [Hux Hu]. destruct Hr as [Hr|[Hr|[(toks & Hr & Ht)|Hr]]].
  - destruct (decide (CreateIndex token (sn_user_id s) = x)) as [Ex|Hne].
    + right. left. replace (CreateExpire token (sn_user_id s)) with x' by (unfold x'; by rewrite <- Ex).
      apply (task_new _ _ _ _ Hi).
    + left. by eapply task_stays.
  - destruct (decide (CreateExpire token (sn_user_id s) = x)) as [Ex|Hne].
    + do 3 right. rewrite <- Ex in Hux. cbn in Hux. case_bool_decide as Hs; [| exfalso; by apply Hux; left].
      unfold indexed. rewrite advance_store, <- Ex. cbn [task_step snd on_index so_index]. rewrite rexpire_local.
      case_decide as E; [| done]. unfold expire_entry. unfold smembers, rget in Hs. rewrite peek_live in Hs.
      destruct (live_entry now _) as [e|]; [| by apply not_elem_of_nil in Hs]. eexists. split; [done |].
      cbn [e_value e_expiry]. split; [done |]. rewrite absolute_seconds. lia.
    + right. left. by eapply task_stays.
  - right. right. left. exists toks. split; [| done]. eapply task_stays; [done | done |]. intros Ex. apply Hdx. by rewrite <- Ex.
  - do 3 right. rewrite advance_store. apply indexed_after; [done | done | done | |].
    + intros u Heq. apply Hd. apply (iv_unlists _ _ Hinv token u). rewrite <- Heq. apply task_is_there.
    + intros toks Heq. assert (AllForget (sn_user_id s) toks ∈ wo_tasks w) as Hx by (rewrite <- Heq; apply task_is_there).
      destruct (indexed_live _ _ _ now Hr Ha) as (e & Hl & Hin & _).
      destruct (iv_swept _ _ Hinv (sn_user_id s) toks token) as [Ht|Ht]; [by right | | | done].
      * unfold smembers, rget. by rewrite peek_live, Hl.
      * by apply Hd, (iv_forgets _ _ Hinv (sn_user_id s) toks).
Qed.

Lemma advance_gone token e : stored w' token e → token ∈ wo_deleted w' → token ∈ wo_rewritten w'.
Proof.
  intros [(Hc & Hw & Hd)|(e0 & He0 & _ & Hd)]%advance_stored; rewrite advance_deleted; intros [Hin|Hin]%elem_of_app.
  - rewrite Hd in Hin. by apply not_elem_of_nil in Hin.
  - apply rewritten_stays, (iv_writer _ _ Hinv token x task_is_there Hw Hin).
  - done.
  - by eapply rewritten_stays, (iv_gone _ _ Hinv).
Qed.

Lemma advance_listed token e :
  stored w' token e → token ∉ wo_rewritten w' → token ∉ wo_unlisted w' →
  now - sn_created_at (e_value e) < ABSOLUTE_TTL → reachable w' token (e_value e).
Proof.
  intros He Hr Hu Ha. pose proof (advance_stored _ _ He) as Hs.
  assert (token ∉ wo_rewritten w) as Hr0 by (intros H; by apply Hr, rewritten_stays).
  assert (token ∉ wo_unlisted w) as Hu0.
  { rewrite advance_unlisted in Hu. by apply not_elem_of_app in Hu as [_ ?]. }
  assert (∀ e0, stored w token e0 → sn_user_id (e_value e) = sn_user_id (e_value e0) →
            sn_created_at (e_value e) = sn_created_at (e_value e0) → token ∉ deletes x →
            reachable w' token (e_value e)) as Hold.
  { intros e0 He0 Eu Ec Hd. assert (reachable w' token (e_value e0)) as H.
    - apply advance_reachable; [| | by rewrite <- Ec | done | | done].
      + apply (iv_listed _ _ Hinv); try done. by rewrite <- Ec.
      + eapply drawn_created. by apply (iv_stored _ _ Hinv).
      + intros H. by eapply Hr0, (iv_gone _ _ Hinv).
    - unfold reachable, indexed in *. by rewrite Eu, Ec. }
  destruct Hs as [(Hc & Hw & Hd)|(e0 & He0 & Ev & Hd)].
  - destruct (creating x) eqn:Ecr.
    + left. rewrite advance_tasks. replace (CreateIndex token (sn_user_id (e_value e))) with x';
        [apply (task_new _ _ _ _ Hi) |]. unfold x'. by rewrite (creating_writes _ _ _ Hc Ecr).
    + destruct (iv_present _ _ Hinv token x task_is_there Hw Ecr Hr0) as [e0 He0].
      destruct (drawn_alike now now w token (e_value e) (e_value e0) (iv_drawn _ _ Hinv)) as [Eu Ec].
      * by apply (iv_carried _ _ Hinv token _ x task_is_there).
      * by apply (iv_stored _ _ Hinv).
      * apply (Hold e0 He0 Eu Ec). rewrite Hd. apply not_elem_of_nil.
  - apply (Hold e0 He0); [by rewrite Ev | by rewrite Ev | done].
Qed.

Lemma advance_swept user tokens token :
  AllDel user tokens ∈ wo_tasks w' ∨ AllForget user tokens ∈ wo_tasks w' →
  token ∈ smembers now (index_key user) (so_index (wo_store w')) → token ∈ tokens ∨ token ∈ wo_unlisted w'.
Proof.
  rewrite advance_store, advance_tasks. intros Hx Hs. apply smembers_after in Hs.
  assert (∀ y, sweeps user y = true → y ∈ wo_tasks w →
            token ∈ smembers now (index_key user) (so_index (wo_store w)) ∨ token ∈ wo_unlisted w') as Hcase.
  { intros y Hy Hin. destruct Hs as [?|Hs]; [by left |]. right. rewrite advance_unlisted, Hs. cbn.
    assert (existsb (sweeps user) (wo_tasks w) = true) as ->; [| by left].
    apply existsb_exists. exists y. by rewrite <- list_elem_of_In. }
  assert (∀ y, y ∈ wo_tasks w → y = AllDel user tokens ∨ y = AllForget user tokens →
            token ∈ tokens ∨ token ∈ wo_unlisted w') as Hold.
  { intros y Hy Hor. destruct (Hcase y) as [Hm|Hm]; [destruct Hor as [->| ->]; cbn; by apply bool_decide_true | done | | by right].
    destruct (iv_swept _ _ Hinv user tokens token) as [?|?]; [| done | by left |].
    - destruct Hor as [<-|<-]; [by left | by right].
    - right. rewrite advance_unlisted. apply elem_of_app. by right. }
  assert (AllDel user tokens = x' ∨ AllForget user tokens = x' →
            x = AllRead user ∧ tokens = smembers now (index_key user) (so_index (wo_store w)) ∨ x = AllDel user tokens) as Hfrom.
  { unfold x'. destruct x as [t s|t u|t u|t k|t s [|o]|t s o|t s n|t|t o|t u|u|u toks|u toks|a]; cbn;
      try (by intros [?|?]); try (by destruct o; intros [?|?]).
    - destruct (rget _ _ _) as [s|]; [destruct (_ <? _) |]; by intros [?|?].
    - destruct (smembers now (index_key u) (so_index (wo_store w))) eqn:E; intros [H|H]; try done; injection H as -> ->; left;
        by rewrite E.
    - intros [H|H]; [done |]. injection H as -> ->. by right. }
  assert (AllDel user tokens = x' ∨ AllForget user tokens = x' → token ∈ tokens ∨ token ∈ wo_unlisted w') as Hnow.
  { intros [[Ex ->]|Ex]%Hfrom.
    - destruct Hs as [?|Hs]; [by left | congruence].
    - apply (Hold (AllDel user tokens)); [rewrite <- Ex; apply task_is_there | by left]. }
  destruct Hx as [Hx|Hx]; (apply (task_after _ _ _ _ _ Hi) in Hx as [Hx|Hx]; [apply Hnow; tauto |]);
    eapply Hold; [exact Hx | by left | exact Hx | by right].
Qed.

Lemma inv_advance : inv now w'.
Proof.
  split.
  - rewrite advance_drawn. apply (iv_drawn _ _ Hinv).
  - intros token e [(Hc & _)|(e0 & He0 & -> & _)]%advance_stored; apply drawn_advance;
      [by apply (iv_carried _ _ Hinv token _ x task_is_there) | by apply (iv_stored _ _ Hinv)].
  - intros token s y. apply advance_carried.
  - apply advance_gone.
  - intros token y. rewrite advance_tasks, advance_deleted. intros [->|Hy]%(task_after _ _ _ _ _ Hi) Hw.
    + apply writes_after in Hw as (_ & -> & [[Hw _]|(e & He)]); cbn; intros Hd; apply rewritten_stays;
        [by apply (iv_writer _ _ Hinv token x task_is_there) | by eapply (iv_gone _ _ Hinv)].
    + intros [Hd|Hd]%elem_of_app; [by eapply rewritten_by | by eapply rewritten_stays, (iv_writer _ _ Hinv)].
  - apply advance_present.
  - apply advance_listed.
  - apply advance_swept.
  - intros user tokens token. rewrite advance_tasks, advance_deleted.
    intros [Heq|Hy]%(task_after _ _ _ _ _ Hi) Ht; apply elem_of_app; [| right; by eapply (iv_forgets _ _ Hinv)].
    unfold x' in Heq. destruct x as [t s|t u|t u|t k|t s [|o]|t s o|t s n|t|t o|t u|u|u toks|u toks|a]; cbn in Heq; try done.
    + destruct (rget _ _ _) as [s|]; [destruct (_ <? _) |]; done.
    + by destruct o.
    + destruct (smembers _ _ _); [| done]. injection Heq as -> ->. by apply not_elem_of_nil in Ht.
    + injection Heq as -> ->. by left.
  - intros token user. rewrite advance_tasks, advance_deleted.
    intros [Heq|Hy]%(task_after _ _ _ _ _ Hi); apply elem_of_app; [| right; by eapply (iv_unlists _ _ Hinv)].
    unfold x' in Heq. destruct x as [t s|t u|t u|t k|t s [|o]|t s o|t s n|t|t o|t u|u|u toks|u toks|a]; cbn in Heq; try done.
    + destruct (rget _ _ _) as [s|]; [destruct (_ <? _) |]; done.
    + destruct o; [| done]. injection Heq as -> ->. left. by left.
    + by destruct (smembers _ _ _).
Qed.
End Advance.

Lemma inv_no_world t : inv t no_world.
Proof.
  assert (∀ token e, stored no_world token e → False) as Hno.
  { intros token e He. unfold stored in He. cbn in He. by rewrite lookup_empty in He. }
  assert (∀ x, x ∈ wo_tasks no_world → False) as Hnone by (intros x; apply not_elem_of_nil).
  split; try (by intros; exfalso; eauto); [constructor |]. intros user tokens token [H|H]; by apply Hnone in H.
Qed.

Lemma inv_run t evs w :
  allowed t evs w → inv t w → inv (clock t evs) (world_run evs w).
Proof.
  revert t w. induction evs as [|[now ev] evs IH]; intros t w; [done |]. cbn [allowed clock]. intros (Ht & Hf & Ha) Hi.
  change (world_run ((now, ev) :: evs) w) with (world_run evs (world_step now ev w)). apply IH; [done |].
  apply (inv_later _ now) in Hi; [| done]. destruct ev as [c|i]; [apply inv_begin; [done | by destruct c] |].
  destruct (wo_tasks w !! i) as [x|] eqn:Ex; [by apply (inv_advance _ _ x) |]. cbn. by rewrite Ex.
Qed.

(** What was drawn was drawn by a login. *)
Lemma drawn_by_a_login evs w token s :
  (token, s) ∈ wo_drawn (world_run evs w) →
  (token, s) ∈ wo_drawn w ∨
  (sn_created_at s, Begin (CallCreate token (sn_csrf_token s) (sn_user_id s) (sn_organization_id s) (sn_ip_hash s))) ∈ evs.
Proof.
  revert w. induction evs as [|[now ev] evs IH]; intros w; [by left |].
  change (world_run ((now, ev) :: evs) w) with (world_run evs (world_step now ev w)). intros [H|H]%IH; [| right; by right].
  destruct ev as [[t csrf user org ip|t|t org|t|user]|i]; cbn in H; [| by left..|].
  - apply elem_of_cons in H as [[= -> ->]|H]; [right; by left | by left].
  - left. destruct (wo_tasks w !! i); [| done]. by destruct (task_step _ _ _).
Qed.


(** A session is found from its creation on for as long as it is used within its lifetime. *)
Lemma created_session_is_found now now' token csrf user org ip st :
  now <= now' → now' < now + int_total_seconds ttl * second → now' - now <= ABSOLUTE_TTL →
  fst (get now' token (snd (create now token csrf user org ip st))) =
  Some (fst (create now token csrf user org ip st)).
Proof.
  intros H1 H2 H3. unfold get. cbn [create snd fst so_sessions]. rewrite rget_set_eq by done.
  unfold age. cbn [sn_created_at]. by rewrite (proj2 (Z.ltb_ge _ _)) by lia.
Qed.
End ApiSessions.

(** ** On concrete runs *)

(** Ann logs in, switches her organisation and logs out everywhere while a request of hers
    is under way; then she logs in again. *)
Definition ex_evs : list (datetime * Event) :=
  [(1, Begin (CallCreate (py "tok") (py "csrf") (py "ann") (Some (py "org1")) None));
   (2, Advance 0); (3, Advance 0); (4, Advance 0);
   (5, Begin (CallSwitch (py "tok") (py "org2"))); (6, Advance 1); (7, Advance 1); (8, Advance 1); (9, Advance 1);
   (10, Begin (CallGet (py "tok"))); (11, Advance 2);
   (12, Begin (CallRevokeAll (py "ann"))); (13, Advance 3); (14, Advance 3); (15, Advance 2); (16, Advance 3);
   (17, Begin (CallCreate (py "tok2") (py "csrf2") (py "ann") None None));
   (18, Advance 4); (19, Advance 4); (20, Advance 4)].


(** ** What the code does beyond its documentation *)

(** A switch of organisation that has read the session when it is revoked writes it back,
    for a full lifetime and out of reach of a logout everywhere. *)
Lemma switch_revives_a_revoked_session :
  let st0 := snd (create DEFAULT_TTL 1 (py "tok") (py "csrf") (py "ann") None None
                    {| so_sessions := ∅; so_index := ∅ |}) in
  let '(read, st1) := get DEFAULT_TTL 2 (py "tok") st0 in
  let st2 := snd (revoke_all_for_user 3 (py "ann") st1) in
  let st3 := match read with Some s => store_organization DEFAULT_TTL 4 (py "tok") (py "org2") s st2 | None => st2 end in
  let st4 := snd (revoke_all_for_user 5 (py "ann") st3) in
  fst (get DEFAULT_TTL 3 (py "tok") st2) = None ∧
  sn_user_id <$> fst (get DEFAULT_TTL (6 * day) (py "tok") st4) = Some (py "ann").
Proof. vm_compute. split; reflexivity. Qed.

(** A login that enters the index while a logout everywhere is between reading and deleting
    it keeps its session but loses its place there: the next logout everywhere does not
    find it. *)
Lemma login_during_logout_everywhere_is_unlisted :
  let w := world_run DEFAULT_TTL
    [(1, Begin (CallCreate (py "tok") (py "csrf") (py "ann") None None)); (2, Advance 0); (3, Advance 0); (4, Advance 0);
     (5, Begin (CallRevokeAll (py "ann"))); (6, Advance 1); (7, Advance 1);
     (8, Begin (CallCreate (py "tok2") (py "csrf2") (py "ann") None None)); (9, Advance 2); (10, Advance 2);
     (11, Advance 2); (12, Advance 1)] no_world in
  let st := snd (revoke_all_for_user 20 (py "ann") (wo_store w)) in
  wo_tasks w = [Done None; Done None; Done None] ∧ fst (revoke_all_for_user 20 (py "ann") (wo_store w)) = 0%nat ∧
  sn_user_id <$> fst (get DEFAULT_TTL 21 (py "tok2") st) = Some (py "ann").
Proof. vm_compute. repeat split; reflexivity. Qed.
