(* ===== verification/Access.v ===== *)
(** * Who may do what (mmp_api/deps.py, routes/auth.py, routes/organizations.py, mmp_crypto/passwords.py)

    The chain from a request to a principal, and the handlers for accounts, logins,
    organisations and members, over the tables of users, organisations and memberships and
    the session store.  The handlers that change memberships are also given one statement
    at a time, and the theorem about memberships is about their interleavings.  Argon2,
    Unicode normalisation and the draws of [secrets] and [uuid] are parameters, as are the
    limiter's answers. *)

From S2P Require Import Prelude Redis Ids ApiSessions.

#[local] Open Scope Z_scope.
#[local] Open Scope mmp_scope.

(** ** Data *)

Inductive Role := Viewer | Member | Admin | Owner.

#[export] Instance role_eq_dec : EqDecision Role.
Proof. solve_decision. Defined.

Definition ROLE_RANK (r : Role) : Z := match r with Viewer => 0 | Member => 1 | Admin => 2 | Owner => 3 end.

Definition UNSAFE_METHODS : list pystr := [py "POST"; py "PUT"; py "PATCH"; py "DELETE"].

Record User := {
  us_id : uuid;
  us_email : pystr;
  us_password_hash : pystr;
  us_name : pystr;
  us_is_active : bool;
  us_last_login_at : option datetime;
  us_created_at : datetime
}.

Record Organization := { og_id : uuid; og_name : pystr; og_slug : pystr; og_timezone : pystr }.

Record OrganizationMember := {
  om_id : uuid;
  om_organization_id : uuid;
  om_user_id : uuid;
  om_role : Role;
  om_created_at : datetime
}.

#[export] Instance member_eq_dec : EqDecision OrganizationMember.
Proof. solve_decision. Defined.

Record ApiState := {
  ap_users : list User;
  ap_organizations : list Organization;
  ap_members : list OrganizationMember;
  ap_sessions : SessionStore
}.

Definition with_users (l : list User) (st : ApiState) : ApiState :=
  {| ap_users := l; ap_organizations := ap_organizations st; ap_members := ap_members st;
     ap_sessions := ap_sessions st |}.
Definition with_members (l : list OrganizationMember) (st : ApiState) : ApiState :=
  {| ap_users := ap_users st; ap_organizations := ap_organizations st; ap_members := l;
     ap_sessions := ap_sessions st |}.
Definition with_sessions (s : SessionStore) (st : ApiState) : ApiState :=
  {| ap_users := ap_users st; ap_organizations := ap_organizations st; ap_members := ap_members st;
     ap_sessions := s |}.

(** An [HTTPException], or an exception nothing handles. *)
Inductive ApiError := Http (status : Z) (detail : pystr) | Crash.

(** What the dependencies read of a request. *)
Record ApiRequest := {
  ar_now : datetime;
  ar_method : pystr;
  ar_cookie : option pystr;
  ar_csrf : option pystr
}.

Record Principal := {
  pr_user_id : uuid;
  pr_session_token : pystr;
  pr_session : Session;
  pr_organization_id : option uuid;
  pr_role : option Role
}.

Definition at_least (p : Principal) (r : Role) : bool :=
  match pr_role p with Some r' => ROLE_RANK r <=? ROLE_RANK r' | None => false end.

(** ** passwords.py *)

Definition MIN_PASSWORD_LENGTH : nat := 12.
Definition MAX_PASSWORD_LENGTH : nat := 1024.

(** [_HASHER.verify] and [check_needs_rehash], their exceptions read as the callers read
    them. *)
Class Argon2 := { argon_verify : pystr → pystr → bool; argon_needs_rehash : pystr → bool }.

Section Access.
Context {U : Unicode} {A : Argon2}.
Variable nfkd : pystr → pystr.

Definition validate_password (password : pystr) : option pystr :=
  if Nat.ltb (length password) MIN_PASSWORD_LENGTH then Some (py "password must be at least 12 characters")
  else if Nat.ltb MAX_PASSWORD_LENGTH (length password) then Some (py "password is too long")
  else None.

Definition verify_password (stored_hash password : pystr) : bool :=
  if Nat.ltb MAX_PASSWORD_LENGTH (length password) then false else argon_verify stored_hash password.

Definition verify_password_constant_work (stored_hash : option pystr) (password : pystr) : bool :=
  match stored_hash with None => false | Some h => verify_password h password end.

(** ** deps.py *)

(** [hmac.compare_digest] of two strings: [None] is its [TypeError]. *)
Definition compare_digest (a b : pystr) : option bool :=
  if ascii_str a && ascii_str b then Some (bool_decide (a = b)) else None.

Definition current_session (rq : ApiRequest) (st : ApiState) : result ApiError (pystr * Session) * ApiState :=
  match ar_cookie rq with
  | None | Some [] => (Err (Http 401 (py "not authenticated")), st)
  | Some token =>
      let '(found, sessions) := get DEFAULT_TTL (ar_now rq) token (ap_sessions st) in
      let st := with_sessions sessions st in
      match found with
      | None => (Err (Http 401 (py "session expired")), st)
      | Some s =>
          (if bool_decide (ar_method rq ∈ UNSAFE_METHODS) then
             match ar_csrf rq with
             | None | Some [] => Err (Http 403 (py "csrf token missing or invalid"))
             | Some presented =>
                 match compare_digest presented (sn_csrf_token s) with
                 | Some true => Ok (token, s)
                 | Some false => Err (Http 403 (py "csrf token missing or invalid"))
                 | None => Err Crash
                 end
             end
           else Ok (token, s), st)
      end
  end.

(** The membership of a user in an organisation. *)
Definition role_of (members : list OrganizationMember) (org user : uuid) : option Role :=
  om_role <$> List.find (λ m, bool_decide (om_user_id m = user) && bool_decide (om_organization_id m = org)) members.

(** The principal a session stands for, with the role the memberships give it. *)
Definition principal_of (token : pystr) (s : Session) (members : list OrganizationMember) : result ApiError Principal :=
  match uuid_of_str (sn_user_id s) with
  | None => Err Crash
  | Some user =>
      let principal org role := {| pr_user_id := user; pr_session_token := token; pr_session := s;
                                   pr_organization_id := org; pr_role := role |} in
      match sn_organization_id s with
      | None | Some [] => Ok (principal None None)
      | Some text =>
          match uuid_of_str text with
          | None => Err Crash
          | Some org =>
              match role_of members org user with
              | None => Err (Http 403 (py "no longer a member of the active organization"))
              | Some r => Ok (principal (Some org) (Some r))
              end
          end
      end
  end.

Definition current_principal (rq : ApiRequest) (st : ApiState) : result ApiError Principal * ApiState :=
  match current_session rq st with
  | (Err e, st) => (Err e, st)
  | (Ok (token, s), st) => (principal_of token s (ap_members st), st)
  end.

Definition role_name (r : Role) : pystr :=
  match r with Viewer => py "viewer" | Member => py "member" | Admin => py "admin" | Owner => py "owner" end.

(** [require_organization] and the check of the role; the organisation comes with the
    principal. *)
Definition with_role (minimum : Role) (p : Principal) : result ApiError (Principal * uuid) :=
  match pr_organization_id p with
  | None => Err (Http 400 (py "no active organization selected"))
  | Some org =>
      if at_least p minimum then Ok (p, org)
      else Err (Http 403 (py "requires " ++ role_name minimum ++ py " role or higher"))
  end.

Definition require_role (minimum : Role) (rq : ApiRequest) (st : ApiState)
    : result ApiError (Principal * uuid) * ApiState :=
  match current_principal rq st with
  | (Err e, st) => (Err e, st)
  | (Ok p, st) => (with_role minimum p, st)
  end.

(** ** auth.py *)

Definition slug_char (c : N) : bool := is_lower_ascii c || is_digit_ascii c.

(** [re.sub(r"[^a-z0-9]+", "-", s)]; [gap]: the last character was replaced. *)
Fixpoint dash_runs (gap : bool) (s : pystr) : pystr :=
  match s with
  | [] => []
  | c :: s => if slug_char c then c :: dash_runs false s
              else if gap then dash_runs true s else 45%N :: dash_runs true s
  end.

Definition strip_dashes (s : pystr) : pystr := rstrip (N.eqb 45) (lstrip (N.eqb 45) s).

Definition slugify (name : pystr) : pystr :=
  let slug := strip_dashes (dash_runs false (py_lower (List.filter is_ascii (nfkd name)))) in
  take 60 (match slug with [] => py "org" | _ => slug end).

Definition client_ip (forwarded client : option pystr) : pystr :=
  match forwarded with
  | Some ((_ :: _) as f) => py_strip (default [] (head (py_split 44%N f)))
  | _ => default (py "unknown") client
  end.

Record Registration := {
  re_email : pystr; re_password : pystr; re_name : pystr; re_organization_name : pystr
}.

(** What a handler draws: ids, tokens, a hash, the address of the client hashed. *)
Record Draws := {
  dw_user_id : uuid; dw_org_id : uuid; dw_member_id : uuid; dw_suffix : pystr; dw_hash : pystr;
  dw_token : pystr; dw_csrf : pystr; dw_ip_hash : option pystr
}.

Definition open_session (now : datetime) (d : Draws) (user : uuid) (org : option uuid) (st : ApiState) : ApiState :=
  with_sessions (snd (create DEFAULT_TTL now (dw_token d) (dw_csrf d) (str_of_uuid user)
                        (str_of_uuid <$> org) (dw_ip_hash d) (ap_sessions st))) st.

(** An organisation and its first owner, in one transaction: a violated constraint leaves
    nothing. *)
Definition insert_organization (now : datetime) (d : Draws) (o : Organization) (user : uuid) (st : ApiState)
    : option ApiState :=
  if existsb (λ o', bool_decide (og_id o' = og_id o) || bool_decide (og_slug o' = og_slug o)) (ap_organizations st)
     || existsb (λ m, bool_decide (om_id m = dw_member_id d) ||
                      (bool_decide (om_organization_id m = og_id o) && bool_decide (om_user_id m = user)))
          (ap_members st)
  then None
  else
    Some {| ap_users := ap_users st; ap_organizations := ap_organizations st ++ [o];
            ap_members := ap_members st ++
              [{| om_id := dw_member_id d; om_organization_id := og_id o; om_user_id := user;
                  om_role := Owner; om_created_at := now |}];
            ap_sessions := ap_sessions st |}.

(** The hash of the password and the one transaction of [register]. *)
Definition insert_account (now : datetime) (body : Registration) (d : Draws) (st : ApiState)
    : result ApiError Organization * ApiState :=
  match validate_password (re_password body) with
  | Some problem => (Err (Http 422 problem), st)
  | None =>
      let email := py_lower (re_email body) in
      if existsb (λ u, bool_decide (us_email u = email) || bool_decide (us_id u = dw_user_id d)) (ap_users st)
      then (Err (Http 409 (py "could not create account with those details")), st)
      else
        let user := {| us_id := dw_user_id d; us_email := email; us_password_hash := dw_hash d;
                       us_name := re_name body; us_is_active := true; us_last_login_at := None;
                       us_created_at := now |} in
        let org := {| og_id := dw_org_id d; og_name := re_organization_name body;
                      og_slug := slugify (re_organization_name body) ++ py "-" ++ dw_suffix d;
                      og_timezone := py "UTC" |} in
        match insert_organization now d org (dw_user_id d) (with_users (ap_users st ++ [user]) st) with
        | None => (Err Crash, st)
        | Some st => (Ok org, st)
        end
  end.

Definition register (now : datetime) (body : Registration) (d : Draws) (st : ApiState)
    : result ApiError Organization * ApiState :=
  match insert_account now body d st with
  | (Err e, st) => (Err e, st)
  | (Ok org, st) => (Ok org, open_session now d (dw_user_id d) (Some (dw_org_id d)) st)
  end.

Record LimitAnswer := { li_allowed : bool; li_retry_after_ms : Z }.

Definition find_user (users : list User) (email : pystr) : option User :=
  List.find (λ u, bool_decide (us_email u = email)) users.

Definition update_user (id : uuid) (f : User → User) (st : ApiState) : ApiState :=
  with_users ((λ u, if bool_decide (us_id u = id) then f u else u) <$> ap_users st) st.

Definition with_hash (h : pystr) (u : User) : User :=
  {| us_id := us_id u; us_email := us_email u; us_password_hash := h; us_name := us_name u;
     us_is_active := us_is_active u; us_last_login_at := us_last_login_at u; us_created_at := us_created_at u |}.

Definition with_login (now : datetime) (u : User) : User :=
  {| us_id := us_id u; us_email := us_email u; us_password_hash := us_password_hash u; us_name := us_name u;
     us_is_active := us_is_active u; us_last_login_at := Some now; us_created_at := us_created_at u |}.

(** [ORDER BY created_at LIMIT 1]. *)
Definition first_organization (members : list OrganizationMember) (user : uuid) : option uuid :=
  match List.filter (λ m, bool_decide (om_user_id m = user)) members with
  | [] => None
  | m :: l => Some (om_organization_id (max_from (λ a b, om_created_at b <? om_created_at a) m l))
  end.

Definition too_many : ApiError := Http 429 (py "too many attempts").

(** [login]: the limiter is asked for the account and then, if that allows, for the
    address. *)
Definition login (now : datetime) (email password : pystr) (account address : LimitAnswer) (d : Draws)
    (st : ApiState) : result ApiError User * ApiState :=
  if negb (li_allowed account) then (Err too_many, st)
  else if negb (li_allowed address) then (Err too_many, st)
  else
    let row := find_user (ap_users st) (py_lower email) in
    match row with
    | None => (Err (Http 401 (py "invalid email or password")), st)
    | Some u =>
        if negb (verify_password_constant_work (Some (us_password_hash u)) password) || negb (us_is_active u)
        then (Err (Http 401 (py "invalid email or password")), st)
        else
          let rehash := argon_needs_rehash (us_password_hash u) in
          match (if rehash then validate_password password else None) with
          | Some _ => (Err Crash, st)
          | None =>
              let st := if rehash then update_user (us_id u) (with_hash (dw_hash d)) st else st in
              let org := first_organization (ap_members st) (us_id u) in
              let st := update_user (us_id u) (with_login now) st in
              (Ok u, open_session now d (us_id u) org st)
          end
    end.

Definition logout (rq : ApiRequest) (st : ApiState) : result ApiError unit * ApiState :=
  match current_session rq st with
  | (Err e, st) => (Err e, st)
  | (Ok (token, _), st) => (Ok (), with_sessions (revoke (ar_now rq) token (ap_sessions st)) st)
  end.

Definition logout_everywhere (rq : ApiRequest) (st : ApiState) : result ApiError nat * ApiState :=
  match current_principal rq st with
  | (Err e, st) => (Err e, st)
  | (Ok p, st) =>
      let '(n, sessions) := revoke_all_for_user (ar_now rq) (str_of_uuid (pr_user_id p)) (ap_sessions st) in
      (Ok n, with_sessions sessions st)
  end.

Definition me (rq : ApiRequest) (st : ApiState) : result ApiError User * ApiState :=
  match current_principal rq st with
  | (Err e, st) => (Err e, st)
  | (Ok p, st) =>
      (match List.find (λ u, bool_decide (us_id u = pr_user_id p)) (ap_users st) with
       | Some u => Ok u
       | None => Err (Http 401 (py "user no longer exists"))
       end, st)
  end.

(** ** organizations.py *)

Definition create_organization (rq : ApiRequest) (name timezone : pystr) (d : Draws) (st : ApiState)
    : result ApiError Organization * ApiState :=
  match current_principal rq st with
  | (Err e, st) => (Err e, st)
  | (Ok p, st) =>
      let org := {| og_id := dw_org_id d; og_name := name; og_slug := slugify name ++ py "-" ++ dw_suffix d;
                    og_timezone := timezone |} in
      match insert_organization (ar_now rq) d org (pr_user_id p) st with
      | None => (Err Crash, st)
      | Some st => (Ok org, st)
      end
  end.

Definition switch_organization (rq : ApiRequest) (organization_id : uuid) (st : ApiState)
    : result ApiError (Organization * Role) * ApiState :=
  match current_principal rq st with
  | (Err e, st) => (Err e, st)
  | (Ok p, st) =>
      match List.find (λ o, bool_decide (og_id o = organization_id)) (ap_organizations st),
            role_of (ap_members st) organization_id (pr_user_id p) with
      | Some o, Some r =>
          (Ok (o, r), with_sessions (set_active_organization DEFAULT_TTL (ar_now rq) (pr_session_token p)
                                       (str_of_uuid organization_id) (ap_sessions st)) st)
      | _, _ => (Err (Http 404 (py "organization not found")), st)
      end
  end.

Definition add_member (rq : ApiRequest) (email : pystr) (role : Role) (d : Draws) (st : ApiState)
    : result ApiError (User * Role) * ApiState :=
  match require_role Admin rq st with
  | (Err e, st) => (Err e, st)
  | (Ok (p, org), st) =>
      if ROLE_RANK (default Viewer (pr_role p)) <? ROLE_RANK role
      then (Err (Http 403 (py "cannot grant a role higher than your own")), st)
      else
        match find_user (ap_users st) (py_lower email) with
        | None => (Err (Http 404 (py "no such user")), st)
        | Some u =>
            if existsb (λ m, bool_decide (om_id m = dw_member_id d) ||
                             (bool_decide (om_organization_id m = org) && bool_decide (om_user_id m = us_id u)))
                 (ap_members st)
            then (Err (Http 409 (py "already a member of this organization")), st)
            else (Ok (u, role),
                  with_members (ap_members st ++
                    [{| om_id := dw_member_id d; om_organization_id := org; om_user_id := us_id u;
                        om_role := role; om_created_at := ar_now rq |}]) st)
        end
  end.

Definition owners (members : list OrganizationMember) (org : uuid) : list OrganizationMember :=
  List.filter (λ m, bool_decide (om_organization_id m = org) && bool_decide (om_role m = Owner)) members.

(** The checks of [remove_member] on what it reads, and its DELETE. *)
Definition may_remove (members : list OrganizationMember) (org user : uuid) : result ApiError unit :=
  match role_of members org user with
  | None => Err (Http 404 (py "not a member"))
  | Some Owner =>
      if (length (owners members org) <=? 1)%nat
      then Err (Http 409 (py "cannot remove the last owner of an organization")) else Ok ()
  | Some _ => Ok ()
  end.

Definition delete_member (org user : uuid) (members : list OrganizationMember) : list OrganizationMember :=
  List.filter (λ m, negb (bool_decide (om_organization_id m = org) && bool_decide (om_user_id m = user))) members.

Definition remove_member (rq : ApiRequest) (user : uuid) (st : ApiState) : result ApiError unit * ApiState :=
  match require_role Admin rq st with
  | (Err e, st) => (Err e, st)
  | (Ok (_, org), st) =>
      match may_remove (ap_members st) org user with
      | Err e => (Err e, st)
      | Ok _ => (Ok (), with_members (delete_member org user (ap_members st)) st)
      end
  end.

(** ** Lemmas: authorisation *)

(** A request that acts as [p] in [org] with at least the role [minimum]. *)
Record admitted (minimum : Role) (rq : ApiRequest) (st : ApiState) (p : Principal) (org : uuid) : Prop := {
  am_cookie : ar_cookie rq = Some (pr_session_token p) ∧ pr_session_token p ≠ [];
  am_session : fst (get DEFAULT_TTL (ar_now rq) (pr_session_token p) (ap_sessions st)) = Some (pr_session p);
  am_csrf : ar_method rq ∈ UNSAFE_METHODS →
    ar_csrf rq = Some (sn_csrf_token (pr_session p)) ∧ sn_csrf_token (pr_session p) ≠ [] ∧
    ascii_str (sn_csrf_token (pr_session p)) = true;
  am_user : uuid_of_str (sn_user_id (pr_session p)) = Some (pr_user_id p);
  am_organization : ∃ text, sn_organization_id (pr_session p) = Some text ∧ text ≠ [] ∧
    uuid_of_str text = Some org ∧ pr_organization_id p = Some org;
  am_role : ∃ r, role_of (ap_members st) org (pr_user_id p) = Some r ∧ pr_role p = Some r ∧
    ROLE_RANK minimum <= ROLE_RANK r
}.

Lemma compare_digest_true a b : compare_digest a b = Some true ↔ a = b ∧ ascii_str b = true.
Proof.
  unfold compare_digest. destruct (ascii_str a) eqn:Ea, (ascii_str b) eqn:Eb; cbn; split; try done.
  - by intros [= ->%bool_decide_eq_true].
  - intros [-> _]. by rewrite bool_decide_true.
  - by intros [_ ?].
  - intros [-> _]. congruence.
  - by intros [_ ?].
Qed.

(** Dependencies read the tables and touch the sessions only. *)
Definition same_tables (st st' : ApiState) : Prop :=
  ap_users st' = ap_users st ∧ ap_organizations st' = ap_organizations st ∧ ap_members st' = ap_members st.

Lemma session_tables rq st : same_tables st (snd (current_session rq st)).
Proof.
  unfold current_session. destruct (ar_cookie rq) as [[|c t]|]; try done.
  destruct (get _ _ _ _) as [[s|] sessions]; done.
Qed.

Lemma principal_tables rq st : same_tables st (snd (current_principal rq st)).
Proof.
  unfold current_principal. pose proof (session_tables rq st) as H.
  by destruct (current_session rq st) as [[[token s]|e] st'].
Qed.

Lemma role_tables minimum rq st : same_tables st (snd (require_role minimum rq st)).
Proof.
  unfold require_role. pose proof (principal_tables rq st) as H.
  by destruct (current_principal rq st) as [[p|e] st'].
Qed.

Lemma current_session_ok rq st token s :
  fst (current_session rq st) = Ok (token, s) ↔
  (ar_cookie rq = Some token ∧ token ≠ []) ∧
  fst (get DEFAULT_TTL (ar_now rq) token (ap_sessions st)) = Some s ∧
  (ar_method rq ∈ UNSAFE_METHODS →
   ar_csrf rq = Some (sn_csrf_token s) ∧ sn_csrf_token s ≠ [] ∧ ascii_str (sn_csrf_token s) = true).
Proof.
  unfold current_session. destruct (ar_cookie rq) as [[|c t]|]; [split; [done |] | | split; [done |]].
  1, 3: by intros [[? ?] _]; congruence.
  destruct (get _ _ (c :: t) _) as [[s'|] sessions] eqn:Eg; cbn [fst].
  - case_bool_decide as Hm.
    + destruct (ar_csrf rq) as [[|d h]|] eqn:Eh; [split; [done |] | | split; [done |]].
      1, 3: intros ([[= <-] _] & Hg & Hc); destruct (Hc Hm) as (? & ? & _); congruence.
      destruct (decide (compare_digest (d :: h) (sn_csrf_token s') = Some true)) as [Ec|Ec].
      * rewrite Ec. apply compare_digest_true in Ec as [Ec Ha]. split.
        -- intros [= <- <-]. rewrite Eg. split; [done |]. split; [done |]. intros _. rewrite <- Ec.
           split; [done |]. split; [done |]. congruence.
        -- intros ([[= <-] _] & Hg & _). rewrite Eg in Hg. cbn in Hg. congruence.
      * split; [destruct (compare_digest _ _) as [[]|]; congruence |].
        intros ([[= <-] _] & Hg & Hc). rewrite Eg in Hg. injection Hg as ->.
        destruct (Hc Hm) as (Hh & _ & Ha). destruct Ec. apply compare_digest_true. split; [congruence | done].
    + split.
      * intros [= <- <-]. rewrite Eg. split; [done |]. by split.
      * intros ([[= <-] _] & Hg & _). rewrite Eg in Hg. cbn in Hg. congruence.
  - split; [done |]. intros ([[= <-] _] & Hg & _). by rewrite Eg in Hg.
Qed.

(** Authorisation holds exactly. *)
Lemma require_role_admits minimum rq st p org :
  fst (require_role minimum rq st) = Ok (p, org) ↔ admitted minimum rq st p org.
Proof.
  unfold require_role, current_principal, principal_of, with_role.
  pose proof (session_tables rq st) as (_ & _ & Hm).
  destruct (current_session rq st) as [[[token s]|e] st1] eqn:Es; cbn [snd] in Hm.
  - assert (fst (current_session rq st) = Ok (token, s)) as (Hcookie & Hget & Hcsrf)%current_session_ok
      by (by rewrite Es).
    split.
    + intros H. destruct (uuid_of_str (sn_user_id s)) as [user|] eqn:Eu; [| done].
      destruct (sn_organization_id s) as [[|c text]|] eqn:Eo; [done | | done].
      destruct (uuid_of_str (c :: text)) as [org'|] eqn:Et; [| done].
      destruct (role_of (ap_members st1) org' user) as [r|] eqn:Er; [| done]. cbn in H.
      destruct (ROLE_RANK minimum <=? ROLE_RANK r) eqn:El; [| done]. injection H as <- <-. rewrite Hm in Er.
      apply Z.leb_le in El. split; cbn; try done; [by exists (c :: text) | by exists r].
    + intros [[Hc _] Hs _ Hu (text & Eo & Ht & Et & Ep) (r & Er & Epr & Hr)].
      assert (token = pr_session_token p) as -> by (destruct Hcookie; congruence).
      assert (s = pr_session p) as -> by congruence. rewrite Hu, Eo. destruct text as [|c text]; [done |].
      rewrite Et, Hm, Er. cbn. rewrite (proj2 (Z.leb_le _ _)) by done. destruct p. cbn in *. by subst.
  - split; [done |]. intros [Hcookie Hs Hcsrf _ _ _].
    assert (fst (current_session rq st) = Ok (pr_session_token p, pr_session p)) as H
      by (by apply current_session_ok).
    by rewrite Es in H.
Qed.

(** ** Lemmas: organisations and members *)

Inductive ApiOp :=
| ORegister (now : datetime) (body : Registration) (d : Draws)
| OLogin (now : datetime) (email password : pystr) (account address : LimitAnswer) (d : Draws)
| OLogout (rq : ApiRequest)
| OLogoutEverywhere (rq : ApiRequest)
| OMe (rq : ApiRequest)
| OCreateOrganization (rq : ApiRequest) (name timezone : pystr) (d : Draws)
| OSwitch (rq : ApiRequest) (org : uuid)
| OAddMember (rq : ApiRequest) (email : pystr) (role : Role) (d : Draws)
| ORemoveMember (rq : ApiRequest) (user : uuid).

Definition api_step (op : ApiOp) (st : ApiState) : ApiState :=
  match op with
  | ORegister now body d => snd (register now body d st)
  | OLogin now email password account address d => snd (login now email password account address d st)
  | OLogout rq => snd (logout rq st)
  | OLogoutEverywhere rq => snd (logout_everywhere rq st)
  | OMe rq => snd (me rq st)
  | OCreateOrganization rq name timezone d => snd (create_organization rq name timezone d st)
  | OSwitch rq org => snd (switch_organization rq org st)
  | OAddMember rq email role d => snd (add_member rq email role d st)
  | ORemoveMember rq user => snd (remove_member rq user st)
  end.

Definition member_key (m : OrganizationMember) : uuid * uuid := (om_organization_id m, om_user_id m).

Lemma NoDup_snoc_key (l : list OrganizationMember) m :
  NoDup (member_key <$> l) → (∀ m', m' ∈ l → member_key m' ≠ member_key m) → NoDup (member_key <$> (l ++ [m])).
Proof.
  intros Hn Hm. rewrite fmap_app. apply NoDup_app. split; [done |]. split; [| apply NoDup_singleton].
  intros k (m' & -> & Hin)%list_elem_of_fmap Ek%list_elem_of_singleton. by apply (Hm m').
Qed.

Lemma insert_organization_spec now d o user st st' :
  insert_organization now d o user st = Some st' →
  ∃ m, ap_members st' = ap_members st ++ [m] ∧ ap_organizations st' = ap_organizations st ++ [o] ∧
    member_key m = (og_id o, user) ∧ om_role m = Owner ∧ og_id o ∉ og_id <$> ap_organizations st ∧
    ∀ m', m' ∈ ap_members st → member_key m' ≠ member_key m.
Proof.
  unfold insert_organization. destruct (_ || _) eqn:E; [done |]. intros [= <-]. apply orb_false_iff in E as [Eo Em].
  eexists. cbn. do 4 (split; [done |]). split.
  - intros (o' & Ho & Hin)%list_elem_of_fmap. apply not_true_iff_false in Eo. apply Eo, existsb_exists. exists o'.
    rewrite <- list_elem_of_In. split; [done |]. apply orb_true_iff. left. by apply bool_decide_eq_true.
  - intros m' Hin [= H1 H2]. apply not_true_iff_false in Em. apply Em, existsb_exists. exists m'.
    rewrite <- list_elem_of_In. split; [done |]. apply orb_true_iff. right.
    by rewrite !bool_decide_true.
Qed.

Lemma role_of_elem members org user r :
  role_of members org user = Some r →
  ∃ m, m ∈ members ∧ member_key m = (org, user) ∧ om_role m = r.
Proof.
  unfold role_of. destruct (List.find _ members) as [m|] eqn:E; [| done]. intros [= <-].
  apply find_some in E as [Hin Hp]. apply andb_true_iff in Hp as [H1%bool_decide_eq_true H2%bool_decide_eq_true].
  exists m. rewrite list_elem_of_In. unfold member_key. by rewrite H1, H2.
Qed.

Lemma elem_of_delete_member org user members m :
  m ∈ delete_member org user members ↔ m ∈ members ∧ member_key m ≠ (org, user).
Proof.
  unfold delete_member, member_key. rewrite elem_of_lfilter, negb_true_iff, andb_false_iff, !bool_decide_eq_false.
  split; intros [H1 H2]; (split; [done |]).
  - intros [= E1 E2]. by destruct H2.
  - destruct (decide (om_organization_id m = org)) as [E1|E1]; [right | by left]. intros E2. apply H2. congruence.
Qed.

(** Someone else owns the organisation when a removal is allowed. *)
Lemma another_owner members org user o :
  NoDup (member_key <$> members) → may_remove members org user = Ok () →
  (∃ m, m ∈ members ∧ om_organization_id m = o ∧ om_role m = Owner) →
  ∃ m, m ∈ delete_member org user members ∧ om_organization_id m = o ∧ om_role m = Owner.
Proof.
  intros Hn Hr (m & Hm & Ho & Hrole). setoid_rewrite elem_of_delete_member.
  destruct (decide (member_key m = (org, user))) as [Ek|Ek]; [| by exists m].
  injection Ek as Eo Eu. unfold may_remove in Hr. destruct (role_of members org user) as [r|] eqn:Er; [| done].
  apply role_of_elem in Er as (m0 & Hm0 & Ek0 & Er0).
  assert (m0 = m) as -> by (apply (NoDup_fmap_elem member_key members); unfold member_key in *; congruence).
  rewrite Hrole in Er0. subst r. destruct (length (owners members org) <=? 1)%nat eqn:El; [done |].
  apply Nat.leb_gt in El.
  assert (m ∈ owners members org) as Hin.
  { apply elem_of_lfilter. split; [done |]. by rewrite !bool_decide_true. }
  assert (NoDup (owners members org)) as Hnd by (apply (NoDup_fmap_1 member_key), NoDup_fmap_filter, Hn).
  destruct (owners members org) as [|a [|b l]] eqn:Ew; [cbn in El; lia | cbn in El; lia |].
  assert (∃ x, x ∈ a :: b :: l ∧ x ≠ m) as (x & Hx & Hxm).
  { destruct (decide (a = m)) as [->|]; [| by exists a; split; [left |]]. exists b.
    split; [right; left |]. intros ->. apply NoDup_cons in Hnd as [Hnd _]. apply Hnd. by left. }
  rewrite <- Ew in Hx. apply elem_of_lfilter in Hx as [Hxin Hp].
  apply andb_true_iff in Hp as [H1%bool_decide_eq_true H2%bool_decide_eq_true].
  exists x. split; [| split; [congruence | done]]. split; [done |]. intros Ekx. apply Hxm.
  apply (NoDup_fmap_elem member_key members); unfold member_key in *; congruence.
Qed.

(** ** The statements of the handlers that change memberships, one at a time

    Between two statements of a request those of others run.  A task is a request stopped
    before its next statement, with what it has read so far. *)

Inductive MemberCall :=
| CreateOrganization (name timezone : pystr) (d : Draws)
| AddMember (email : pystr) (role : Role) (d : Draws)
| RemoveMember (user : uuid).

Inductive MemberTask :=
| ReadSession (rq : ApiRequest) (c : MemberCall)
| ReadRole (rq : ApiRequest) (c : MemberCall) (token : pystr) (s : Session)
| InsertOrganization (rq : ApiRequest) (p : Principal) (name timezone : pystr) (d : Draws)
| FindUser (rq : ApiRequest) (org : uuid) (email : pystr) (role : Role) (d : Draws)
| InsertMember (rq : ApiRequest) (org user : uuid) (role : Role) (d : Draws)
| ReadTarget (org user : uuid)
| CountOwners (org user : uuid)
| DeleteMember (org user : uuid)
| InsertAccount (now : datetime) (body : Registration) (d : Draws)
| OpenSession (now : datetime) (d : Draws)
| Ended (problem : option ApiError).

(** What [add_member] and [remove_member] ask of the principal before they touch a table. *)
Definition may_grant (minimum role : Role) (p : Principal) : result ApiError uuid :=
  match with_role minimum p with
  | Err e => Err e
  | Ok (p, org) =>
      if ROLE_RANK (default Viewer (pr_role p)) <? ROLE_RANK role
      then Err (Http 403 (py "cannot grant a role higher than your own")) else Ok org
  end.

(** The statement a task is stopped before. *)
Definition member_step (x : MemberTask) (st : ApiState) : MemberTask * ApiState :=
  match x with
  | ReadSession rq c =>
      match current_session rq st with
      | (Err e, st) => (Ended (Some e), st)
      | (Ok (token, s), st) => (ReadRole rq c token s, st)
      end
  | ReadRole rq c token s =>
      (match principal_of token s (ap_members st) with
       | Err e => Ended (Some e)
       | Ok p =>
           match c with
           | CreateOrganization name timezone d => InsertOrganization rq p name timezone d
           | AddMember email role d =>
               match may_grant Admin role p with Ok org => FindUser rq org email role d | Err e => Ended (Some e) end
           | RemoveMember user =>
               match with_role Admin p with Ok (_, org) => ReadTarget org user | Err e => Ended (Some e) end
           end
       end, st)
  | InsertOrganization rq p name timezone d =>
      match insert_organization (ar_now rq) d
              {| og_id := dw_org_id d; og_name := name; og_slug := slugify name ++ py "-" ++ dw_suffix d;
                 og_timezone := timezone |} (pr_user_id p) st with
      | None => (Ended (Some Crash), st)
      | Some st => (Ended None, st)
      end
  | FindUser rq org email role d =>
      (match find_user (ap_users st) (py_lower email) with
       | None => Ended (Some (Http 404 (py "no such user")))
       | Some u => InsertMember rq org (us_id u) role d
       end, st)
  | InsertMember rq org user role d =>
      if existsb (λ m, bool_decide (om_id m = dw_member_id d) ||
                       (bool_decide (om_organization_id m = org) && bool_decide (om_user_id m = user)))
           (ap_members st)
      then (Ended (Some (Http 409 (py "already a member of this organization"))), st)
      else (Ended None,
            with_members (ap_members st ++
              [{| om_id := dw_member_id d; om_organization_id := org; om_user_id := user;
                  om_role := role; om_created_at := ar_now rq |}]) st)
  | ReadTarget org user =>
      (match role_of (ap_members st) org user with
       | None => Ended (Some (Http 404 (py "not a member")))
       | Some Owner => CountOwners org user
       | Some _ => DeleteMember org user
       end, st)
  | CountOwners org user =>
      (if (length (owners (ap_members st) org) <=? 1)%nat
       then Ended (Some (Http 409 (py "cannot remove the last owner of an organization")))
       else DeleteMember org user, st)
  | DeleteMember org user => (Ended None, with_members (delete_member org user (ap_members st)) st)
  | InsertAccount now body d =>
      match insert_account now body d st with
      | (Err e, st) => (Ended (Some e), st)
      | (Ok _, st) => (OpenSession now d, st)
      end
  | OpenSession now d => (Ended None, open_session now d (dw_user_id d) (Some (dw_org_id d)) st)
  | Ended problem => (Ended problem, st)
  end.

(** A request whose statements nobody comes between. *)
Fixpoint member_alone (n : nat) (x : MemberTask) (st : ApiState) : MemberTask * ApiState :=
  match n with
  | O => (x, st)
  | S n => let (x, st) := member_step x st in member_alone n x st
  end.

Definition problem_of {T} (r : result ApiError T) : option ApiError := match r with Ok _ => None | Err e => Some e end.

Lemma alone_is_the_handler rq c st :
  member_alone 5 (ReadSession rq c) st =
  match c with
  | CreateOrganization name timezone d =>
      let (r, st) := create_organization rq name timezone d st in (Ended (problem_of r), st)
  | AddMember email role d => let (r, st) := add_member rq email role d st in (Ended (problem_of r), st)
  | RemoveMember user => let (r, st) := remove_member rq user st in (Ended (problem_of r), st)
  end.
Proof.
  cbn. unfold create_organization, add_member, remove_member, require_role, current_principal.
  destruct (current_session rq st) as [[[token s]|e] st1]; [| by destruct c]. cbn.
  destruct (principal_of token s (ap_members st1)) as [p|e]; [| by destruct c].
  destruct c as [name tz d|email role d|user]; unfold may_grant.
  - cbn. by destruct (insert_organization _ _ _ _ st1).
  - destruct (with_role Admin p) as [[p' org]|e]; [| done].
    destruct (_ <? _); [done |]. cbn. destruct (find_user _ _) as [u|]; [| done]. cbn. by destruct (existsb _ _).
  - destruct (with_role Admin p) as [[p' org]|e]; [| done]. cbn. unfold may_remove.
    destruct (role_of (ap_members st1) org user) as [[]|]; try done. cbn.
    by destruct (length (owners (ap_members st1) org)) as [|[|n]].
Qed.

Lemma register_alone now body d st :
  member_alone 2 (InsertAccount now body d) st =
  let (r, st) := register now body d st in (Ended (problem_of r), st).
Proof. cbn. unfold register. by destruct (insert_account now body d st) as [[o|e] st1]. Qed.

(** ** Interleaved requests *)

(** [mw_past] records the states there were, for the statements. *)
Record MemberWorld := { mw_state : ApiState; mw_tasks : list MemberTask; mw_past : list ApiState }.

(** A request arrives, one is advanced by a statement, or another handler changes users or
    sessions, in any way. *)
Inductive MemberEvent :=
| Arrive (rq : ApiRequest) (c : MemberCall)
| Register (now : datetime) (body : Registration) (d : Draws)
| Proceed (i : nat)
| Elsewhere (users : list User) (sessions : SessionStore).

Definition member_event (ev : MemberEvent) (w : MemberWorld) : MemberWorld :=
  let past := mw_state w :: mw_past w in
  match ev with
  | Arrive rq c => {| mw_state := mw_state w; mw_tasks := mw_tasks w ++ [ReadSession rq c]; mw_past := past |}
  | Register now body d =>
      {| mw_state := mw_state w; mw_tasks := mw_tasks w ++ [InsertAccount now body d]; mw_past := past |}
  | Proceed i =>
      match mw_tasks w !! i with
      | None => {| mw_state := mw_state w; mw_tasks := mw_tasks w; mw_past := past |}
      | Some x =>
          let (x', st) := member_step x (mw_state w) in
          {| mw_state := st; mw_tasks := <[i := x']> (mw_tasks w); mw_past := past |}
      end
  | Elsewhere users sessions =>
      {| mw_state := with_users users (with_sessions sessions (mw_state w)); mw_tasks := mw_tasks w; mw_past := past |}
  end.

Definition member_run (evs : list MemberEvent) (w : MemberWorld) : MemberWorld :=
  fold_left (λ w ev, member_event ev w) evs w.

(** The organisation a task is about to remove a member of, having looked at the member. *)
Definition removing (x : MemberTask) : option uuid :=
  match x with CountOwners org _ | DeleteMember org _ => Some org | _ => None end.

Definition one_removal (w : MemberWorld) : Prop := NoDup (omap removing (mw_tasks w)).

(** At no time of the run are two such removals under way in one organisation. *)
Fixpoint never_overlap (evs : list MemberEvent) (w : MemberWorld) : Prop :=
  match evs with
  | [] => one_removal w
  | ev :: evs => one_removal w ∧ never_overlap evs (member_event ev w)
  end.

(** The request found a session when the state was [st1], and the memberships of [st2] gave
    its user, in its organisation, at least the role of an admin and at least [role]. *)
Definition granted (rq : ApiRequest) (st1 st2 : ApiState) (org : uuid) (role : Role) : Prop :=
  ∃ token s user text r,
    fst (current_session rq st1) = Ok (token, s) ∧ uuid_of_str (sn_user_id s) = Some user ∧
    sn_organization_id s = Some text ∧ uuid_of_str text = Some org ∧
    role_of (ap_members st2) org user = Some r ∧ ROLE_RANK Admin <= ROLE_RANK r ∧ ROLE_RANK role <= ROLE_RANK r.

Lemma may_grant_granted rq st1 token s members role org p :
  fst (current_session rq st1) = Ok (token, s) → principal_of token s members = Ok p → may_grant Admin role p = Ok org →
  ∀ st2, ap_members st2 = members → granted rq st1 st2 org role.
Proof.
  intros Hs Hp Hg st2 Hm. unfold principal_of, may_grant, with_role in *.
  destruct (uuid_of_str (sn_user_id s)) as [user|] eqn:Eu; [| done].
  destruct (sn_organization_id s) as [[|c text]|] eqn:Eo; [by injection Hp as <- | | by injection Hp as <-].
  destruct (uuid_of_str (c :: text)) as [org'|] eqn:Et; [| done].
  destruct (role_of members org' user) as [r|] eqn:Er; [| done]. injection Hp as <-. cbn in Hg.
  destruct (ROLE_RANK Admin <=? ROLE_RANK r) eqn:El; [| cbn in El; rewrite El in Hg; done]. cbn in El. rewrite El in Hg.
  destruct (ROLE_RANK r <? ROLE_RANK role) eqn:El'; [cbn in Hg; by rewrite El' in Hg |].
  cbn in Hg. rewrite El' in Hg. injection Hg as <-. apply Z.leb_le in El. apply Z.ltb_ge in El'.
  exists token, s, user, (c :: text), r. by rewrite Hm.
Qed.


(** ** Lemmas: what a statement does to the memberships *)

Definition owned (members : list OrganizationMember) (org : uuid) : Prop :=
  ∃ m, m ∈ members ∧ om_organization_id m = org ∧ om_role m = Owner.

Definition same_memberships (st st' : ApiState) : Prop :=
  ap_organizations st' = ap_organizations st ∧ ap_members st' = ap_members st.

(** The memberships and organisations a statement leaves. *)
Inductive table_change (x : MemberTask) (st st' : ApiState) : Prop :=
| tc_same :
    ap_organizations st' = ap_organizations st → ap_members st' = ap_members st → table_change x st st'
| tc_organization o m :
    om_organization_id m = og_id o → om_role m = Owner → og_id o ∉ og_id <$> ap_organizations st →
    (∀ m', m' ∈ ap_members st → member_key m' ≠ member_key m) →
    ap_organizations st' = ap_organizations st ++ [o] → ap_members st' = ap_members st ++ [m] → table_change x st st'
| tc_added rq user role d m :
    x = InsertMember rq (om_organization_id m) user role d → om_role m = role → om_user_id m = user →
    (∀ m', m' ∈ ap_members st → member_key m' ≠ member_key m) →
    ap_organizations st' = ap_organizations st → ap_members st' = ap_members st ++ [m] → table_change x st st'
| tc_removed org user :
    x = DeleteMember org user →
    ap_organizations st' = ap_organizations st → ap_members st' = delete_member org user (ap_members st) →
    table_change x st st'.

Lemma organization_change now d o user st0 st st' x :
  ap_organizations st0 = ap_organizations st → ap_members st0 = ap_members st →
  insert_organization now d o user st0 = Some st' → table_change x st st'.
Proof.
  intros Ho0 Hm0 (m & Hm & Ho & [= Hk _] & Hr & Hnew & Hfresh)%insert_organization_spec. rewrite Ho0, Hm0 in *.
  by eapply tc_organization.
Qed.

Lemma member_step_changes x st : table_change x st (snd (member_step x st)).
Proof.
  destruct x as [rq c|rq c token s|rq p name tz d|rq org email role d|rq org user role d|org user|org user|org user
                |now body d|now d|problem]; cbn [member_step]; try by apply tc_same.
  - pose proof (session_tables rq st) as (_ & Ho & Hm). destruct (current_session rq st) as [[[t s]|e] st1]; by apply tc_same.
  - destruct (insert_organization _ _ _ _ st) as [st1|] eqn:E; [| by apply tc_same].
    by eapply organization_change; [| | exact E].
  - destruct (existsb _ _) eqn:Ee; [by apply tc_same |]. cbn [snd].
    set (m := {| om_id := dw_member_id d |}). apply (tc_added _ _ _ rq user role d m); try done.
    intros m' Hin [= H1 H2]. apply not_true_iff_false in Ee. apply Ee, existsb_exists. exists m'.
    rewrite <- list_elem_of_In. split; [done |]. apply orb_true_iff. right. by rewrite !bool_decide_true.
  - by eapply tc_removed.
  - unfold insert_account. destruct (validate_password _); [by apply tc_same |]. destruct (existsb _ _); [by apply tc_same |].
    destruct (insert_organization _ _ _ _ _) as [st'|] eqn:E; [| by apply tc_same].
    by eapply organization_change; [| | exact E].
Qed.

Lemma role_of_app members m org user r :
  role_of members org user = Some r → role_of (members ++ [m]) org user = Some r.
Proof.
  unfold role_of. induction members as [|m' l IH]; [done |]. cbn. by destruct (_ && _); [| apply IH].
Qed.

Lemma may_remove_app members m org user :
  may_remove members org user = Ok () → may_remove (members ++ [m]) org user = Ok ().
Proof.
  unfold may_remove. destruct (role_of members org user) as [r|] eqn:Er; [| done]. rewrite (role_of_app _ _ _ _ _ Er).
  destruct r; try done. unfold owners. rewrite List.filter_app, length_app.
  destruct (Nat.leb_spec (length (List.filter (λ m, bool_decide (om_organization_id m = org) &&
    bool_decide (om_role m = Owner)) members)) 1); [done |]. intros _. by rewrite (proj2 (Nat.leb_gt _ _)) by lia.
Qed.

(** A removal from one organisation is not seen in another. *)
Lemma filter_delete_other (p : OrganizationMember → bool) org org' user members :
  org ≠ org' → (∀ m, p m = true → om_organization_id m = org') →
  List.filter p (delete_member org user members) = List.filter p members.
Proof.
  intros Hne Hp. unfold delete_member. induction members as [|m l IH]; [done |]. cbn.
  destruct (bool_decide (om_organization_id m = org) && bool_decide (om_user_id m = user)) eqn:E; cbn.
  - rewrite IH. destruct (p m) eqn:Epm; [| done]. apply Hp in Epm.
    apply andb_true_iff in E as [E%bool_decide_eq_true _]. congruence.
  - destruct (p m); by rewrite IH.
Qed.

Lemma role_of_filter members org user :
  role_of members org user =
  om_role <$> head (List.filter (λ m, bool_decide (om_user_id m = user) && bool_decide (om_organization_id m = org)) members).
Proof. unfold role_of. f_equal. induction members as [|m l IH]; [done |]. cbn. by destruct (_ && _). Qed.

Lemma role_of_delete_other members org org' user user' :
  org ≠ org' → role_of (delete_member org user members) org' user' = role_of members org' user'.
Proof.
  intros Hne. rewrite !role_of_filter, (filter_delete_other _ org org' user); [done | done |].
  by intros m [_ ?%bool_decide_eq_true]%andb_true_iff.
Qed.

Lemma may_remove_delete_other members org org' user user' :
  org ≠ org' → may_remove (delete_member org user members) org' user' = may_remove members org' user'.
Proof.
  intros Hne. unfold may_remove, owners. rewrite (role_of_delete_other _ _ _ _ _ Hne).
  rewrite (filter_delete_other _ org org' user); [done | done |].
  by intros m [?%bool_decide_eq_true _]%andb_true_iff.
Qed.

(** ** The invariants of interleaved requests *)

Record roles_inv (w : MemberWorld) : Prop := {
  ri_unique : NoDup (member_key <$> ap_members (mw_state w));
  ri_session : ∀ rq c token s, ReadRole rq c token s ∈ mw_tasks w →
    ∃ st, st ∈ mw_past w ∧ fst (current_session rq st) = Ok (token, s);
  ri_granted : ∀ rq org role d,
    (∃ email, FindUser rq org email role d ∈ mw_tasks w) ∨ (∃ user, InsertMember rq org user role d ∈ mw_tasks w) →
    ∃ st1 st2, st1 ∈ mw_past w ∧ st2 ∈ mw_past w ∧ granted rq st1 st2 org role
}.

(** What holds besides as long as removals do not overlap. *)
Record owners_inv (w : MemberWorld) : Prop := {
  oi_owned : ∀ o, o ∈ ap_organizations (mw_state w) → owned (ap_members (mw_state w)) (og_id o);
  oi_count : ∀ org user, CountOwners org user ∈ mw_tasks w → role_of (ap_members (mw_state w)) org user = Some Owner;
  oi_delete : ∀ org user, DeleteMember org user ∈ mw_tasks w → may_remove (ap_members (mw_state w)) org user = Ok ()
}.

(** Where the tasks of the invariant come from. *)
Lemma step_to_role x st rq c token s :
  fst (member_step x st) = ReadRole rq c token s → fst (current_session rq st) = Ok (token, s).
Proof.
  destruct x as [rq' c'|rq' c' t' s'|rq' p name tz d|rq' org email role d|rq' org user role d|org user|org user|org user
                |now body d|now d|problem]; cbn; try done.
  - destruct (current_session rq' st) as [[[t' s']|e] st1] eqn:E; [| done]. intros [= <- <- <- <-]. by rewrite E.
  - destruct (principal_of _ _ _); [| done]. destruct c'; [done | |];
      [destruct (may_grant _ _ _) | destruct (with_role _ _) as [[? ?]|]]; done.
  - by destruct (insert_organization _ _ _ _ _).
  - by destruct (find_user _ _).
  - by destruct (existsb _ _).
  - by destruct (role_of _ _ _) as [[]|].
  - by destruct (_ <=? _)%nat.
  - by destruct (insert_account _ _ _ _) as [[]].
Qed.

Lemma step_to_grant x st rq org role d :
  (∃ email, fst (member_step x st) = FindUser rq org email role d) ∨
  (∃ user, fst (member_step x st) = InsertMember rq org user role d) →
  (∃ email, x = FindUser rq org email role d) ∨
  ∃ c token s p, x = ReadRole rq c token s ∧ principal_of token s (ap_members st) = Ok p ∧ may_grant Admin role p = Ok org.
Proof.
  destruct x as [rq' c'|rq' c' t' s'|rq' p name tz d'|rq' org' email' role' d'|rq' org' user role' d'|org' user|org' user|org' user
                |now body d'|now d'|problem]; cbn; try (by intros [[? ?]|[? ?]]).
  - destruct (current_session _ _) as [[[t' s']|e] st1]; by intros [[? ?]|[? ?]].
  - destruct (principal_of t' s' _) as [p|e] eqn:Ep; [| by intros [[? ?]|[? ?]]].
    destruct c' as [n tz d'|email' role' d'|user].
    + by intros [[? ?]|[? ?]].
    + destruct (may_grant Admin role' p) as [o|e] eqn:Eg; [| by intros [[? ?]|[? ?]]].
      intros [[? H]|[? ?]]; [| done]. injection H as <- <- _ <- <-. right. by exists (AddMember email' role' d'), t', s', p.
    + destruct (with_role _ _) as [[? ?]|]; by intros [[? ?]|[? ?]].
  - destruct (insert_organization _ _ _ _ _); by intros [[? ?]|[? ?]].
  - destruct (find_user _ _) as [u|]; [| by intros [[? ?]|[? ?]]]. intros [[? ?]|[? H]]; [done |].
    injection H as <- <- _ <- <-. left. by exists email'.
  - destruct (existsb _ _); by intros [[? ?]|[? ?]].
  - destruct (role_of _ _ _) as [[]|]; by intros [[? ?]|[? ?]].
  - destruct (_ <=? _)%nat; by intros [[? ?]|[? ?]].
  - destruct (insert_account _ _ _ _) as [[] ?]; by intros [[? ?]|[? ?]].
Qed.

Lemma step_to_removal x st org user :
  (fst (member_step x st) = CountOwners org user → x = ReadTarget org user ∧ role_of (ap_members st) org user = Some Owner) ∧
  (fst (member_step x st) = DeleteMember org user →
   x = ReadTarget org user ∧ may_remove (ap_members st) org user = Ok () ∨
   x = CountOwners org user ∧ (1 < length (owners (ap_members st) org))%nat).
Proof.
  destruct x as [rq' c'|rq' c' t' s'|rq' p name tz d'|rq' org' email' role' d'|rq' org' user' role' d'|org' user'|org' user'
                |org' user'|now body d'|now d'|problem]; cbn; try done.
  - by destruct (current_session _ _) as [[[t' s']|e] st1].
  - destruct (principal_of _ _ _); [| done]. destruct c'; [done | |];
      [destruct (may_grant _ _ _) | destruct (with_role _ _) as [[? ?]|]]; done.
  - by destruct (insert_organization _ _ _ _ _).
  - by destruct (find_user _ _).
  - by destruct (existsb _ _).
  - unfold may_remove. destruct (role_of (ap_members st) org' user') as [r|] eqn:Er; [| done].
    split; intros H; destruct r; try done; injection H as <- <-; rewrite Er; [done | by left..].
  - split; intros H; destruct (Nat.leb_spec (length (owners (ap_members st) org')) 1); try done.
    injection H as <- <-. by right.
  - by destruct (insert_account _ _ _ _) as [[] ?].
Qed.


Lemma granted_later rq w (past : list ApiState) org role :
  mw_past w ⊆ past →
  (∃ st1 st2, st1 ∈ mw_past w ∧ st2 ∈ mw_past w ∧ granted rq st1 st2 org role) →
  ∃ st1 st2, st1 ∈ past ∧ st2 ∈ past ∧ granted rq st1 st2 org role.
Proof. intros Hs (st1 & st2 & H1 & H2 & H). exists st1, st2. split; [by apply Hs |]. split; [by apply Hs | done]. Qed.

(** Events that add a task, or touch users and sessions only. *)
Lemma roles_inv_more w st tasks :
  roles_inv w → ap_members st = ap_members (mw_state w) →
  (∀ y, y ∈ tasks → y ∈ mw_tasks w ∨ (∃ rq c, y = ReadSession rq c) ∨ ∃ now body d, y = InsertAccount now body d) →
  roles_inv {| mw_state := st; mw_tasks := tasks; mw_past := mw_state w :: mw_past w |}.
Proof.
  intros [Hu Hs Hg] Hm Hnew. split; cbn.
  - by rewrite Hm.
  - intros rq c token s Hin. destruct (Hnew _ Hin) as [H|[(? & ? & ?)|(? & ? & ? & ?)]]; [| done..].
    destruct (Hs _ _ _ _ H) as (st1 & H1 & H2). exists st1. split; [by right | done].
  - intros rq org role d Hin. eapply granted_later; [intros x Hx; by right |]. apply (Hg rq org role d).
    destruct Hin as [(e & Hin)|(u & Hin)]; destruct (Hnew _ Hin) as [H|[(? & ? & ?)|(? & ? & ? & ?)]]; try done;
      [left; by exists e | right; by exists u].
Qed.

Lemma owners_inv_more w st tasks past :
  owners_inv w → ap_members st = ap_members (mw_state w) → ap_organizations st = ap_organizations (mw_state w) →
  (∀ y, y ∈ tasks → y ∈ mw_tasks w ∨ (∃ rq c, y = ReadSession rq c) ∨ ∃ now body d, y = InsertAccount now body d) →
  owners_inv {| mw_state := st; mw_tasks := tasks; mw_past := past |}.
Proof.
  intros [Ho Hc Hd] Hm Horg Hnew. split; cbn; rewrite ?Hm, ?Horg; [done | |];
    intros org user Hin; (destruct (Hnew _ Hin) as [H|[(? & ? & ?)|(? & ? & ? & ?)]]; [| done..]); [by apply Hc | by apply Hd].
Qed.

Section Proceed.
Context (w : MemberWorld) (i : nat) (x : MemberTask).
Hypothesis Hi : mw_tasks w !! i = Some x.

Let x' := fst (member_step x (mw_state w)).
Let st' := snd (member_step x (mw_state w)).
Let w' := {| mw_state := st'; mw_tasks := <[i := x']> (mw_tasks w); mw_past := mw_state w :: mw_past w |}.

Lemma advancing : x ∈ mw_tasks w.
Proof. by eapply list_elem_of_lookup_2. Qed.

Lemma roles_inv_proceed : roles_inv w → roles_inv w'.
Proof.
  intros [Hu Hs Hg]. split; cbn.
  - destruct (member_step_changes x (mw_state w)) as [_ Hm|o m _ _ _ Hk _ Hm|rq user role d m _ _ _ Hk _ Hm|org user _ _ Hm];
      unfold st'; rewrite Hm; [done | by apply NoDup_snoc_key | by apply NoDup_snoc_key | by apply NoDup_fmap_filter].
  - intros rq c token s [Heq|Hin]%(task_after _ _ _ _ _ Hi).
    + symmetry in Heq. apply step_to_role in Heq. exists (mw_state w). split; [by left | done].
    + destruct (Hs _ _ _ _ Hin) as (st1 & H1 & H2). exists st1. split; [by right | done].
  - intros rq org role d Hin.
    assert ((∃ email, FindUser rq org email role d ∈ mw_tasks w) ∨ (∃ user, InsertMember rq org user role d ∈ mw_tasks w) →
            ∃ st1 st2, st1 ∈ mw_state w :: mw_past w ∧ st2 ∈ mw_state w :: mw_past w ∧ granted rq st1 st2 org role) as Hold.
    { intros H. eapply granted_later; [intros y Hy; by right |]. by apply (Hg rq org role d). }
    assert ((∃ email, x' = FindUser rq org email role d) ∨ (∃ user, x' = InsertMember rq org user role d) →
            ∃ st1 st2, st1 ∈ mw_state w :: mw_past w ∧ st2 ∈ mw_state w :: mw_past w ∧ granted rq st1 st2 org role) as Hnow.
    { intros [(email & E)|(c & token & s & p & E & Hp & Hgr)]%step_to_grant.
      - apply Hold. left. exists email. rewrite <- E. apply advancing.
      - destruct (Hs rq c token s) as (st1 & H1 & H2); [rewrite <- E; apply advancing |].
        exists st1, (mw_state w). split; [by right |]. split; [by left |]. by eapply may_grant_granted. }
    destruct Hin as [(e & [Heq|Hin]%(task_after _ _ _ _ _ Hi))|(u & [Heq|Hin]%(task_after _ _ _ _ _ Hi))];
      [apply Hnow; left; by exists e | apply Hold; left; by exists e | apply Hnow; right; by exists u | apply Hold; right; by exists u].
Qed.

(** Two tasks that are removing members of one organisation are the same. *)
Lemma removing_unique org j y :
  one_removal w → removing x = Some org → mw_tasks w !! j = Some y → removing y = Some org → j = i.
Proof.
  unfold one_removal. intros Hn Hx Hj Hy. by eapply (NoDup_omap_lookup removing).
Qed.

(** Removals under way elsewhere find what they found. *)
Lemma removal_undisturbed j y org user :
  one_removal w → mw_tasks w !! j = Some y → j ≠ i → removing y = Some org →
  (role_of (ap_members (mw_state w)) org user = Some Owner → role_of (ap_members st') org user = Some Owner) ∧
  (may_remove (ap_members (mw_state w)) org user = Ok () → may_remove (ap_members st') org user = Ok ()).
Proof.
  intros Hone Hj Hne Hy. unfold st'.
  destruct (member_step_changes x (mw_state w)) as [_ Hm|o m _ _ _ _ _ Hm|rq u role d m _ _ _ _ _ Hm|org' u Ex _ Hm]; rewrite Hm.
  - done.
  - split; [apply role_of_app | apply may_remove_app].
  - split; [apply role_of_app | apply may_remove_app].
  - assert (org' ≠ org) as Hd.
    { intros ->. apply Hne. eapply removing_unique; [done | by rewrite Ex | done | done]. }
    by rewrite role_of_delete_other, may_remove_delete_other.
Qed.

Lemma removal_starts org user :
  (x' = CountOwners org user → role_of (ap_members st') org user = Some Owner) ∧
  (x' = DeleteMember org user → owners_inv w → may_remove (ap_members st') org user = Ok ()).
Proof.
  pose proof (step_to_removal x (mw_state w) org user) as [Hc Hd]. split.
  - intros [Ex Hr]%Hc. unfold st'. by rewrite Ex.
  - intros [[Ex Hr]|[Ex Hl]]%Hd Hinv; unfold st'; rewrite Ex; cbn; [done |].
    unfold may_remove. rewrite (oi_count _ Hinv org user) by (rewrite <- Ex; apply advancing).
    by rewrite (proj2 (Nat.leb_gt _ _)).
Qed.

Lemma owners_inv_proceed : roles_inv w → one_removal w → owners_inv w → owners_inv w'.
Proof.
  intros [Hu _ _] Hone Hinv. split; cbn [w' mw_state mw_tasks].
  - unfold st'. destruct (member_step_changes x (mw_state w)) as
      [Ho Hm|o m Hk Hr _ _ Ho Hm|rq u role d m _ _ _ _ Ho Hm|org' u Ex Ho Hm]; rewrite Ho, Hm; intros o' Hin.
    + by apply (oi_owned _ Hinv).
    + apply elem_of_app in Hin as [Hin| ->%list_elem_of_singleton].
      * destruct (oi_owned _ Hinv o' Hin) as (m' & Hm' & ?). exists m'. split; [apply elem_of_app; by left | done].
      * exists m. split; [apply elem_of_app; right; by apply list_elem_of_singleton | done].
    + destruct (oi_owned _ Hinv o' Hin) as (m' & Hm' & ?). exists m'. split; [apply elem_of_app; by left | done].
    + apply another_owner; [done | | by apply (oi_owned _ Hinv)]. apply (oi_delete _ Hinv). rewrite <- Ex. apply advancing.
  - intros org user (j & Hj)%list_elem_of_lookup. destruct (decide (j = i)) as [->|Hne].
    + rewrite list_lookup_insert_eq in Hj by (by eapply lookup_lt_Some). injection Hj as Hj. by apply removal_starts.
    + rewrite list_lookup_insert_ne in Hj by done. eapply removal_undisturbed; [done | done | done | done |].
      apply (oi_count _ Hinv). by eapply list_elem_of_lookup_2.
  - intros org user (j & Hj)%list_elem_of_lookup. destruct (decide (j = i)) as [->|Hne].
    + rewrite list_lookup_insert_eq in Hj by (by eapply lookup_lt_Some). injection Hj as Hj. by apply removal_starts.
    + rewrite list_lookup_insert_ne in Hj by done. eapply removal_undisturbed; [done | done | done | done |].
      apply (oi_delete _ Hinv). by eapply list_elem_of_lookup_2.
Qed.
End Proceed.

Lemma proceed_world i x w :
  mw_tasks w !! i = Some x →
  member_event (Proceed i) w =
  {| mw_state := snd (member_step x (mw_state w)); mw_tasks := <[i := fst (member_step x (mw_state w))]> (mw_tasks w);
     mw_past := mw_state w :: mw_past w |}.
Proof. intros Hi. cbn. rewrite Hi. by destruct (member_step x (mw_state w)). Qed.

Lemma roles_inv_event ev w : roles_inv w → roles_inv (member_event ev w).
Proof.
  intros Hinv. destruct ev as [rq c|now body d|i|users sessions].
  - apply roles_inv_more; [done | done |]. intros y [?| ->]%appended_task; [by left | right; left; by exists rq, c].
  - apply roles_inv_more; [done | done |]. intros y [?| ->]%appended_task; [by left | do 2 right; by exists now, body, d].
  - destruct (mw_tasks w !! i) as [x|] eqn:E; [rewrite (proceed_world _ _ _ E); by apply roles_inv_proceed |].
    cbn. rewrite E. apply roles_inv_more; [done | done |]. by left.
  - apply roles_inv_more; [done | done |]. by left.
Qed.

Lemma owners_inv_event ev w :
  roles_inv w → one_removal w → owners_inv w → owners_inv (member_event ev w).
Proof.
  intros Hr Hone Hinv. destruct ev as [rq c|now body d|i|users sessions].
  - apply (owners_inv_more w); [done | done | done |]. intros y [?| ->]%appended_task; [by left | right; left; by exists rq, c].
  - apply (owners_inv_more w); [done | done | done |]. intros y [?| ->]%appended_task; [by left | do 2 right; by exists now, body, d].
  - destruct (mw_tasks w !! i) as [x|] eqn:E; [rewrite (proceed_world _ _ _ E); by apply owners_inv_proceed |].
    cbn. rewrite E. apply (owners_inv_more w); [done | done | done |]. by left.
  - apply (owners_inv_more w); [done | done | done |]. by left.
Qed.

Lemma member_run_inv evs w : roles_inv w → roles_inv (member_run evs w).
Proof. revert w. induction evs as [|ev evs IH]; intros w Hw; [done |]. by apply IH, roles_inv_event. Qed.

Lemma member_run_owners evs w : roles_inv w → owners_inv w → never_overlap evs w → owners_inv (member_run evs w).
Proof.
  revert w. induction evs as [|ev evs IH]; intros w Hr Ho; [done |]. cbn [never_overlap]. intros [Hone Hn].
  apply IH; [by apply roles_inv_event | by apply owners_inv_event | done].
Qed.


(** The other handlers leave the memberships alone. *)
Lemma other_handlers_leave_the_tables rq now email password account address d org st :
  same_memberships st (snd (login now email password account address d st)) ∧
  same_memberships st (snd (logout rq st)) ∧ same_memberships st (snd (logout_everywhere rq st)) ∧
  same_memberships st (snd (me rq st)) ∧ same_memberships st (snd (switch_organization rq org st)).
Proof.
  pose proof (session_tables rq st) as (_ & Hs1 & Hs2). pose proof (principal_tables rq st) as (_ & Hp1 & Hp2).
  split; [| split; [| split; [| split]]].
  - unfold login. destruct (negb _); [done |]. destruct (negb _); [done |].
    destruct (find_user _ _) as [u|]; [| done]. destruct (_ || _); [done |].
    destruct (if argon_needs_rehash _ then _ else _); [done |]. by destruct (argon_needs_rehash _).
  - unfold logout. by destruct (current_session rq st) as [[[token s]|e] st1].
  - unfold logout_everywhere. destruct (current_principal rq st) as [[p|e] st1]; [| done].
    by destruct (revoke_all_for_user _ _ _).
  - unfold me. by destruct (current_principal rq st) as [[p|e] st1].
  - unfold switch_organization. destruct (current_principal rq st) as [[p|e] st1]; [| done].
    destruct (List.find _ _); [| done]. by destruct (role_of _ _ _).
Qed.


(** Login lets in exactly the holder of the password.  It succeeds if and only if both
    limits allow it and an active user with that address, in lower case, verifies the
    password (and, when the hash is to be renewed, the password is within the policy); then
    the session found under the new token is that user's, and every other attempt the
    limits allow is refused in the same words and changes nothing, whether or not the
    account exists. *)
Theorem login_admits_the_password now email password account address d st :
  li_allowed account = true → li_allowed address = true →
  (∀ u, find_user (ap_users st) (py_lower email) = Some u →
        argon_needs_rehash (us_password_hash u) = true → validate_password password = None) →
  let good u := find_user (ap_users st) (py_lower email) = Some u ∧
                verify_password (us_password_hash u) password = true ∧ us_is_active u = true in
  let '(answer, st') := login now email password account address d st in
  (∀ u, answer = Ok u ↔ good u) ∧
  (∀ u, good u → ∃ s, fst (get DEFAULT_TTL now (dw_token d) (ap_sessions st')) = Some s ∧
     sn_user_id s = str_of_uuid (us_id u) ∧ sn_csrf_token s = dw_csrf d) ∧
  ((∀ u, ¬ good u) → answer = Err (Http 401 (py "invalid email or password")) ∧ st' = st).
Proof.
  intros Ha Hb Hpolicy good. unfold login. rewrite Ha, Hb. cbn [negb].
  destruct (find_user (ap_users st) (py_lower email)) as [u|] eqn:Eu.
  - cbn [verify_password_constant_work]. destruct (verify_password (us_password_hash u) password) eqn:Ev.
    + destruct (us_is_active u) eqn:Ea; cbn [negb orb].
      * destruct (if argon_needs_rehash _ then _ else _) as [e|] eqn:Er.
        { destruct (argon_needs_rehash (us_password_hash u)) eqn:En; [| done]. by rewrite (Hpolicy u eq_refl En) in Er. }
        split; [| split].
        -- intros u'. unfold good. split; [intros [= <-] | intros ([= <-] & _)]; done.
        -- intros u' ([= <-] & _). eexists. split; [apply created_session_is_found |].
           ++ lia.
           ++ rewrite default_seconds. unfold DEFAULT_TTL, day, hour, minute, second. lia.
           ++ unfold ABSOLUTE_TTL, day, hour, minute, second. lia.
           ++ done.
        -- intros Hno. destruct (Hno u). done.
      * split; [| split; [| done]].
        -- intros u'. unfold good. split; [done |]. intros ([= <-] & _ & ?). congruence.
        -- intros u' ([= <-] & _ & ?). congruence.
    + cbn [negb orb]. split; [| split; [| done]].
      * intros u'. unfold good. split; [done |]. intros ([= <-] & ? & _). congruence.
      * intros u' ([= <-] & ? & _). congruence.
  - split; [| split; [| done]].
    + intros u'. unfold good. by split; [| intros [? _]].
    + by intros u' [? _].
Qed.

(** ** Slugs *)

Lemma Forall_lstrip (P : N → Prop) p s : Forall P s → Forall P (lstrip p s).
Proof. induction 1 as [|c s Hc Hs IH]; cbn; [constructor |]. destruct (p c); [done | by constructor]. Qed.

Lemma dash_runs_chars gap s : Forall (λ c, slug_char c = true ∨ c = 45%N) (dash_runs gap s).
Proof.
  revert gap. induction s as [|c s IH]; intros gap; cbn; [constructor |].
  destruct (slug_char c) eqn:E; [constructor; [by left | apply IH] |].
  destruct gap; [apply IH |]. constructor; [by right | apply IH].
Qed.

(** A slug is one to sixty lowercase letters, digits and dashes, whatever the name. *)
Lemma slug_shape name :
  Forall (λ c, slug_char c = true ∨ c = 45%N) (slugify name) ∧
  (1 <= length (slugify name) <= 60)%nat.
Proof.
  assert (Forall (λ c, slug_char c = true ∨ c = 45%N)
            (strip_dashes (dash_runs false (py_lower (List.filter is_ascii (nfkd name)))))) as H.
  { unfold strip_dashes, rstrip. apply Forall_reverse, Forall_lstrip, Forall_reverse, Forall_lstrip, dash_runs_chars. }
  unfold slugify. destruct (strip_dashes _) as [|c l].
  - split; [| cbn; lia]. apply Forall_take. repeat constructor.
  - split; [by apply Forall_take |]. rewrite length_take. cbn [length]. lia.
Qed.
End Access.

(** ** On concrete requests *)

Definition toy_argon : Argon2 := {| argon_verify h p := bool_decide (h = p); argon_needs_rehash _ := false |}.

Definition ex_draws (n : N) : Draws :=
  {| dw_user_id := n; dw_org_id := n + 100; dw_member_id := n + 200; dw_suffix := py_str_int (Z.of_N n);
     dw_hash := py "correct horse battery"; dw_token := py "tok" ++ py_str_int (Z.of_N n); dw_csrf := py "csrf";
     dw_ip_hash := None |}.

Definition ex_registration (email : pystr) : Registration :=
  {| re_email := email; re_password := py "correct horse battery"; re_name := py "N"; re_organization_name := py "Acme" |}.

Definition no_api : ApiState :=
  {| ap_users := []; ap_organizations := []; ap_members := []; ap_sessions := {| so_sessions := ∅; so_index := ∅ |} |}.

Definition ex_request (now : datetime) (n : Z) : ApiRequest :=
  {| ar_now := now; ar_method := py "POST"; ar_cookie := Some (py "tok" ++ py_str_int n); ar_csrf := Some (py "csrf") |}.

Abbreviation ex_step := (@api_step ascii_unicode toy_argon id).

(** Ann registers, Bob registers, and Ann makes Bob an owner of her organisation. *)
Definition ex_ops : list ApiOp :=
  [ORegister 1 (ex_registration (py "ann@x.example")) (ex_draws 1);
   ORegister 2 (ex_registration (py "bob@x.example")) (ex_draws 2);
   OAddMember (ex_request 3 1) (py "Bob@x.example") Owner (ex_draws 3)].

Definition ex_state : ApiState := fold_left (λ st op, ex_step op st) ex_ops no_api.

Abbreviation ex_member_run := (@member_run ascii_unicode id).
Abbreviation ex_never_overlap := (@never_overlap ascii_unicode id).

Definition no_members : MemberWorld := {| mw_state := no_api; mw_tasks := []; mw_past := [] |}.

(** Ann and Bob register, and Ann makes Bob an owner of her organisation. *)
Definition ex_joining : list MemberEvent :=
  [Register 1 (ex_registration (py "ann@x.example")) (ex_draws 1);
   Register 2 (ex_registration (py "bob@x.example")) (ex_draws 2); Proceed 1; Proceed 0; Proceed 0; Proceed 1;
   Arrive (ex_request 3 1) (AddMember (py "Bob@x.example") Owner (ex_draws 3));
   Proceed 2; Proceed 2; Proceed 2; Proceed 2].

(** Then Ann removes Bob, who logs out meanwhile. *)
Definition ex_leaving : list MemberEvent :=
  [Arrive (ex_request 4 1) (RemoveMember 2); Proceed 3; Proceed 3; Proceed 3;
   Elsewhere (ap_users ex_state) (ap_sessions ex_state); Proceed 3; Proceed 3].


Lemma login_admits_the_password_witness :
  let limit := {| li_allowed := true; li_retry_after_ms := 0 |} in
  fst (@login ascii_unicode toy_argon 5 (py "nobody@x.example") (py "guess") limit limit (ex_draws 5) ex_state) =
  Err (Http 401 (py "invalid email or password")).
Proof.
  intros limit.
  pose proof (@login_admits_the_password ascii_unicode toy_argon 5 (py "nobody@x.example") (py "guess")
    limit limit (ex_draws 5) ex_state eq_refl eq_refl) as H.
  destruct (@login ascii_unicode toy_argon 5 (py "nobody@x.example") (py "guess") limit limit (ex_draws 5) ex_state)
    as [answer st']. destruct H as (_ & _ & Hno); [intros u Hu; vm_compute in Hu; discriminate Hu |].
  apply Hno. intros u (Hu & _). vm_compute in Hu. discriminate Hu.
Defined.

(** ** What the code does beyond its documentation *)

(** The count of owners and the DELETE are separate statements: two requests that each
    remove one of two owners both find two, and the organisation is left without one. *)
Lemma concurrent_removals_orphan_an_organization :
  let w := ex_member_run (ex_joining ++
    [Arrive (ex_request 4 1) (RemoveMember 1); Arrive (ex_request 4 1) (RemoveMember 2);
     Proceed 3; Proceed 3; Proceed 3; Proceed 4; Proceed 4; Proceed 4; Proceed 3; Proceed 4; Proceed 3; Proceed 4])
    no_members in
  mw_tasks w = [Ended None; Ended None; Ended None; Ended None; Ended None] ∧
  101%N ∈ og_id <$> ap_organizations (mw_state w) ∧ owners (ap_members (mw_state w)) 101 = [].
Proof. split; [vm_compute; reflexivity |]. split; [| vm_compute; reflexivity]. vm_compute. right. left. Qed.

(** Removed from the active organisation, a user keeps the session but can neither list nor
    switch to the organisations left: every request of it is refused. *)
Lemma removed_member_cannot_switch :
  let st := ex_step (OSwitch (ex_request 4 2) 101) ex_state in
  let st := ex_step (ORemoveMember (ex_request 5 1) 2) st in
  role_of (ap_members st) 102 2 = Some Owner ∧
  fst (@switch_organization ascii_unicode (ex_request 6 2) 102 st) =
  Err (Http 403 (py "no longer a member of the active organization")).
Proof. vm_compute. split; reflexivity. Qed.

(** The chain from session to role never looks at the user: one that was deactivated keeps
    working with the sessions it has. *)
Lemma deactivated_user_is_admitted :
  let st := update_user 1 (λ u, {| us_id := us_id u; us_email := us_email u; us_password_hash := us_password_hash u;
                                   us_name := us_name u; us_is_active := false;
                                   us_last_login_at := us_last_login_at u; us_created_at := us_created_at u |}) ex_state in
  option_map us_is_active (find_user (ap_users st) (py "ann@x.example")) = Some false ∧
  match fst (@require_role ascii_unicode Owner (ex_request 4 1) st) with Ok (p, org) => pr_user_id p = 1%N | Err _ => False end.
Proof. vm_compute. split; reflexivity. Qed.

(** An admin cannot grant the role of an owner, but can remove one. *)
Lemma admin_removes_an_owner :
  let st := ex_step (ORegister 4 (ex_registration (py "cy@x.example")) (ex_draws 4)) ex_state in
  let st := ex_step (OAddMember (ex_request 5 1) (py "cy@x.example") Admin (ex_draws 5)) st in
  let st := ex_step (OSwitch (ex_request 6 4) 101) st in
  fst (@remove_member ascii_unicode (ex_request 7 4) 1 st) = Ok () ∧
  role_of (ap_members (snd (@remove_member ascii_unicode (ex_request 7 4) 1 st))) 101 1 = None.
Proof. vm_compute. split; reflexivity. Qed.
