(* ===== verification/RateLimit.v ===== *)
(** * Rate limiting (mmp_core/ratelimit.py)

    The token bucket of the Lua script, on the doubles Lua computes with: a number is the
    rational it denotes and every operation rounds ([rnd]).  Redis reads a number it is
    given back exactly.  A bucket is an entry that expires by the clock of Redis ([at_],
    in microseconds) and is refilled by the clock of the caller ([now], in
    milliseconds). *)

From Stdlib Require Import QArith Qround Lqa.
From stdpp Require Import sorting.
From S2P Require Import Prelude Redis Ids ApiSessions Access.

#[local] Open Scope Z_scope.
#[local] Open Scope mmp_scope.

(** Rounding to a double. *)
Class Binary64 := { rnd : Q → Q }.

(** What IEEE 754 says of it: monotone, exact on the integers of 53 bits, and off by at
    most half a unit in the last place in the range the limiter uses. *)
Definition ulp : Q := 1 # (2 ^ 53).
Definition tiny : Q := 1 # (2 ^ 200).
Definition in_range (x : Q) : Prop := (0 <= x)%Q ∧ (x <= inject_Z (2 ^ 60))%Q.

Class Binary64Laws `{Binary64} : Prop := {
  rnd_mono x y : (x <= y)%Q → (rnd x <= rnd y)%Q;
  rnd_int z : Z.abs z <= 2 ^ 53 → (rnd (inject_Z z) == inject_Z z)%Q;
  rnd_error x : in_range x → (x * (1 - ulp) - tiny <= rnd x)%Q ∧ (rnd x <= x * (1 + ulp) + tiny)%Q
}.

Record Bucket := { bk_tokens : Q; bk_updated : Z }.
Record RateLimit := { rl_capacity : Z; rl_refill_per_second : Q }.
Record RateLimitResult := { rt_allowed : bool; rt_remaining : Z; rt_retry_after_ms : Z }.

Definition qmin (x y : Q) : Q := if Qle_bool x y then x else y.
Definition qmax (x y : Q) : Q := if Qle_bool x y then y else x.

Section Limiter.
Context {B : Binary64}.

Definition per_minute (count : Z) (burst : option Z) : RateLimit :=
  {| rl_capacity := match burst with Some b => if b =? 0 then count else b | None => count end;
     rl_refill_per_second := rnd (inject_Z count / 60) |}.

(** The script: its answer, the hash it leaves and the milliseconds until that expires. *)
Definition refilled (capacity : Z) (refill : Q) (now : Z) (state : option Bucket) : Q :=
  let '(tokens, updated) :=
    match state with Some b => (bk_tokens b, bk_updated b) | None => (inject_Z capacity, now) end in
  let elapsed := rnd (qmax 0 (rnd (inject_Z (now - updated))) / 1000) in
  qmin (inject_Z capacity) (rnd (tokens + rnd (elapsed * refill))).

Definition lifetime (capacity : Z) (refill : Q) : Z := Qceiling (rnd (rnd (inject_Z capacity / refill) * 1000)) + 1000.

Definition script (capacity : Z) (refill : Q) (now cost : Z) (state : option Bucket) : RateLimitResult * Bucket :=
  let tokens := refilled capacity refill now state in
  let allowed := Qle_bool (inject_Z cost) tokens in
  let tokens := if allowed then rnd (tokens - inject_Z cost) else tokens in
  ({| rt_allowed := allowed; rt_remaining := Qfloor tokens;
      rt_retry_after_ms := if allowed then 0
                           else Qceiling (rnd (rnd (rnd (inject_Z cost - tokens) / refill) * 1000)) |},
   {| bk_tokens := tokens; bk_updated := now |}).

Definition PREFIX : pystr := py "rl:".

Definition check (redis : store Bucket) (at_ : datetime) (key : pystr) (limit : RateLimit) (cost now : Z)
  : RateLimitResult * store Bucket :=
  let k := PREFIX ++ key in
  let '(r, b) := script (rl_capacity limit) (rl_refill_per_second limit) now cost (rget at_ k redis) in
  (r, <[k := Entry b (Some (at_ + lifetime (rl_capacity limit) (rl_refill_per_second limit) * 1000))]> redis).

Definition LOGIN_PER_ACCOUNT : RateLimit := per_minute 5 (Some 5).
Definition LOGIN_PER_ADDRESS : RateLimit := per_minute 20 (Some 20).

(** [int(time.time() * 1000)] on a machine whose clock is Redis's. *)
Definition now_ms (at_ : datetime) : Z := at_ / 1000.

(** ** The limiter of the login endpoint: by account, and then by address. *)
Definition account_key (email : pystr) : pystr := py "login:account:" ++ email.
Definition address_key (address : pystr) : pystr := py "login:ip:" ++ address.

(** [login] with the limiter: the address is asked only if the account allows. *)
Definition answer_of (r : RateLimitResult) : LimitAnswer :=
  {| li_allowed := rt_allowed r; li_retry_after_ms := rt_retry_after_ms r |}.

Definition login_request `{Unicode} `{Argon2} (at_ : datetime) (email address password : pystr) (d : Draws)
    (redis : store Bucket) (api : ApiState) : result ApiError User * ApiState * store Bucket :=
  let '(account, redis) := check redis at_ (account_key (py_lower email)) LOGIN_PER_ACCOUNT 1 (now_ms at_) in
  let '(source, redis) := if rt_allowed account
                          then check redis at_ (address_key address) LOGIN_PER_ADDRESS 1 (now_ms at_)
                          else (account, redis) in
  (login at_ email password (answer_of account) (answer_of source) d api, redis).
End Limiter.

(** ** One check *)

Definition slack : Q := 1 # (2 ^ 50).

(** The constants as numerals, for [lra]. *)
Ltac qconst t := let c := eval vm_compute in t in change t with c in *.
Ltac qlra :=
  unfold Qdiv, in_range in *; qconst (/ 1000)%Q; qconst (/ 3)%Q; qconst ulp; qconst tiny; qconst slack; qconst (1 # (2 ^ 170))%Q;
  qconst (1 # (2 ^ 20))%Q; qconst (inject_Z (2 ^ 20)); qconst (inject_Z (2 ^ 30)); qconst (inject_Z (2 ^ 42));
  qconst (inject_Z (2 ^ 60)); lra.

Section Bounds.
Context `{Binary64Laws}.

(** The limits in use are far inside these. *)
Record limit_ok (capacity : Z) (refill : Q) : Prop := {
  lo_capacity : 0 <= capacity <= 2 ^ 30;
  lo_refill : (1 # (2 ^ 20) <= refill)%Q ∧ (refill <= inject_Z (2 ^ 20))%Q
}.

#[export] Instance rnd_proper : Proper (Qeq ==> Qeq) rnd.
Proof. intros x y E. apply Qle_antisym; apply rnd_mono; rewrite E; apply Qle_refl. Qed.

Lemma inject_le x y : x <= y → (inject_Z x <= inject_Z y)%Q.
Proof. by rewrite <- Zle_Qle. Qed.

Lemma rnd_zero : (rnd 0 == 0)%Q.
Proof. apply (rnd_int 0). done. Qed.

Lemma rnd_nonneg x : (0 <= x → 0 <= rnd x)%Q.
Proof. intros Hx%rnd_mono. by rewrite rnd_zero in Hx. Qed.

Lemma qmin_le_l x y : (qmin x y <= x)%Q.
Proof. unfold qmin. destruct (Qle_bool x y) eqn:E; [lra |]. apply not_true_iff_false in E. rewrite Qle_bool_iff in E. lra. Qed.

Lemma qmin_le_r x y : (qmin x y <= y)%Q.
Proof. unfold qmin. destruct (Qle_bool x y) eqn:E; [by apply Qle_bool_iff in E | lra]. Qed.

Lemma qmin_glb x y z : (z <= x → z <= y → z <= qmin x y)%Q.
Proof. unfold qmin. by destruct (Qle_bool x y). Qed.

Lemma elapsed_ms now updated :
  0 <= now - updated <= 2 ^ 42 → (qmax 0 (rnd (inject_Z (now - updated))) == inject_Z (now - updated))%Q.
Proof.
  intros Hd. assert (rnd (inject_Z (now - updated)) == inject_Z (now - updated))%Q as E by (apply rnd_int; lia).
  assert (0 <= inject_Z (now - updated))%Q as Hz by (change 0%Q with (inject_Z 0); apply inject_le; lia).
  unfold qmax. rewrite E. by rewrite (proj2 (Qle_bool_iff _ _) Hz).
Qed.

(** What the refill adds, with its roundings. *)
Lemma refill_upper (d r : Q) :
  (0 <= d → d <= inject_Z (2 ^ 42) → 0 <= r → r <= inject_Z (2 ^ 20) →
   rnd (rnd (d / 1000) * r) <= d / 1000 * r * ((1 + ulp) * (1 + ulp)) + (1 # (2 ^ 170)))%Q.
Proof.
  intros Hd Hd' Hr Hr'. assert (in_range (d / 1000)) as Hx.
  { split; qlra. }
  destruct (rnd_error _ Hx) as [_ Hel]. pose proof (rnd_nonneg _ (proj1 Hx)) as Hel0.
  set (el := rnd (d / 1000)) in *.
  assert (el * r <= (d / 1000 * (1 + ulp) + tiny) * r)%Q as Hm by (by apply Qmult_le_compat_r).
  assert (0 <= el * r)%Q as Hm0 by (by apply Qmult_le_0_compat).
  assert (d * r <= inject_Z (2 ^ 42) * inject_Z (2 ^ 20))%Q as Hdr.
  { apply (Qle_trans _ (d * inject_Z (2 ^ 20))); [rewrite !(Qmult_comm d) |]; apply Qmult_le_compat_r; qlra. }
  assert (in_range (el * r)) as Hy.
  { split; [done |]. qlra. }
  destruct (rnd_error _ Hy) as [_ Hinc]. qlra.
Qed.

(** A check never has more than the capacity, nor more than what was left and what the time
    since can have added. *)
Lemma refilled_bounds capacity refill now b :
  limit_ok capacity refill → (0 <= bk_tokens b)%Q → (bk_tokens b <= inject_Z capacity)%Q →
  0 <= now - bk_updated b <= 2 ^ 42 →
  let t := refilled capacity refill now (Some b) in
  (0 <= t)%Q ∧ (t <= inject_Z capacity)%Q ∧
  (t <= bk_tokens b + inject_Z (now - bk_updated b) / 1000 * refill * (1 + slack) +
        slack / 3 * (inject_Z capacity + 1))%Q.
Proof.
  intros [[Hc0 Hc] [Hr Hr']] Ht Ht' Hd t. set (d := inject_Z (now - bk_updated b)).
  assert (0 <= d ∧ d <= inject_Z (2 ^ 42))%Q as [Hd0 Hd1].
  { split; [change 0%Q with (inject_Z 0) |]; apply inject_le; lia. }
  assert (0 <= inject_Z capacity ∧ inject_Z capacity <= inject_Z (2 ^ 30))%Q as [Hq0 Hq1].
  { split; [change 0%Q with (inject_Z 0) |]; by apply inject_le. }
  assert (0 <= refill)%Q as Hr0 by qlra.
  pose proof (refill_upper d refill Hd0 Hd1 Hr0 Hr') as Hinc.
  assert (0 <= rnd (rnd (d / 1000) * refill))%Q as Hinc0.
  { apply rnd_nonneg, Qmult_le_0_compat; [| done]. apply rnd_nonneg. apply Qmult_le_0_compat; [done |]. by vm_compute. }
  pose proof (elapsed_ms now (bk_updated b) Hd) as He.
  assert (rnd (rnd (qmax 0 (rnd (inject_Z (now - bk_updated b))) / 1000) * refill) == rnd (rnd (d / 1000) * refill))%Q as Ei
    by (by rewrite He).
  unfold refilled in t. cbn [bk_tokens bk_updated] in t. clear He.
  set (inc := rnd (rnd (qmax 0 (rnd (inject_Z (now - bk_updated b))) / 1000) * refill)) in *.
  rewrite <- Ei in Hinc, Hinc0. clear Ei. clearbody inc d. unfold t. clear t.
  assert (d * refill <= inject_Z (2 ^ 42) * inject_Z (2 ^ 20))%Q as Hdr.
  { apply (Qle_trans _ (d * inject_Z (2 ^ 20))); [rewrite !(Qmult_comm d) |]; apply Qmult_le_compat_r; qlra. }
  assert (0 <= d * refill)%Q as Hdr0 by (by apply Qmult_le_0_compat).
  assert (in_range (bk_tokens b + inc)) as Hx by (split; qlra).
  destruct (rnd_error _ Hx) as [_ Hup]. split; [| split].
  - apply qmin_glb; [done |]. apply rnd_nonneg. lra.
  - apply qmin_le_l.
  - eapply Qle_trans; [apply qmin_le_r |]. qlra.
Qed.
Lemma refilled_range capacity refill now state :
  0 <= capacity → (0 <= refill)%Q → (∀ b, state = Some b → 0 <= bk_tokens b)%Q →
  (0 <= refilled capacity refill now state)%Q ∧ (refilled capacity refill now state <= inject_Z capacity)%Q.
Proof.
  intros Hc Hr Hb. assert (0 <= inject_Z capacity)%Q as Hq by (by apply (inject_le 0)).
  assert (∀ d, 0 <= rnd (rnd (qmax 0 d / 1000) * refill))%Q as Hinc.
  { intros d. apply rnd_nonneg, Qmult_le_0_compat; [| done]. apply rnd_nonneg, Qmult_le_0_compat; [| by vm_compute].
    unfold qmax. destruct (Qle_bool 0 d) eqn:E; [by apply Qle_bool_iff | lra]. }
  unfold refilled. destruct state as [b|]; (split; [| apply qmin_le_l]); (apply qmin_glb; [done |]); apply rnd_nonneg.
  - specialize (Hb b eq_refl). specialize (Hinc (rnd (inject_Z (now - bk_updated b)))). lra.
  - specialize (Hinc (rnd (inject_Z (now - now)))). lra.
Qed.

(** By the time a bucket expires it would have been full again. *)
Lemma lifetime_fills capacity refill d :
  limit_ok capacity refill → lifetime capacity refill <= d → (inject_Z capacity <= inject_Z d / 1000 * refill)%Q.
Proof.
  intros [[Hc0 Hc] [Hr Hr']] Hd. unfold lifetime in Hd. set (q := (inject_Z capacity / refill)%Q) in *.
  assert (0 < refill)%Q as Hr0 by qlra.
  assert (0 <= inject_Z capacity ∧ inject_Z capacity <= inject_Z (2 ^ 30))%Q as [Hq0 Hq1].
  { split; [change 0%Q with (inject_Z 0) |]; by apply inject_le. }
  assert (q * refill == inject_Z capacity)%Q as Eq by (unfold q; field; lra).
  assert (0 <= q)%Q as Hp by (by apply Qle_shift_div_l; [| rewrite Qmult_0_l]).
  assert (q <= inject_Z (2 ^ 50))%Q as Hp'.
  { apply Qle_shift_div_r; [done |]. apply (Qle_trans _ (inject_Z (2 ^ 50) * (1 # (2 ^ 20)))).
    - eapply Qle_trans; [exact Hq1 |]. by vm_compute.
    - rewrite !(Qmult_comm (inject_Z (2 ^ 50))). apply Qmult_le_compat_r; [done | by vm_compute]. }
  qconst (inject_Z (2 ^ 50)). clearbody q.
  assert (in_range q) as Hx by (split; qlra). destruct (rnd_error _ Hx) as [Hlo Hhi].
  pose proof (rnd_nonneg q Hp) as Hn. set (y := rnd q) in *. clearbody y.
  assert (in_range (y * 1000)) as Hy by (split; qlra). destruct (rnd_error _ Hy) as [Hlo' _].
  pose proof (Qle_ceiling (rnd (y * 1000))) as Hceil. set (z := rnd (y * 1000)) in *. clearbody z.
  assert (inject_Z (Qceiling z) + 1000 <= inject_Z d)%Q as Hd'.
  { change 1000%Q with (inject_Z 1000). rewrite <- inject_Z_plus. by apply inject_le. }
  assert (q * 1000 <= inject_Z d)%Q as Hqd by qlra.
  assert (q * 1000 * refill <= inject_Z d * refill)%Q as Hm by (apply Qmult_le_compat_r; lra). qlra.
Qed.

Definition spent (r : RateLimitResult) (cost : Z) : Z := if rt_allowed r then cost else 0.

Lemma script_spends capacity refill now cost state r b :
  limit_ok capacity refill → 0 <= cost → (∀ b, state = Some b → 0 <= bk_tokens b)%Q →
  script capacity refill now cost state = (r, b) →
  bk_updated b = now ∧ (0 <= bk_tokens b)%Q ∧ (bk_tokens b <= inject_Z capacity)%Q ∧
  (inject_Z (spent r cost) + bk_tokens b <=
     refilled capacity refill now state + slack / 3 * (inject_Z capacity + 1))%Q.
Proof.
  intros [[Hc0 Hc] [Hr Hr']] Hcost Hb E. assert (0 <= refill)%Q as Hr0 by qlra.
  destruct (refilled_range capacity refill now state Hc0 Hr0 Hb) as [Ht0 Ht1]. unfold script in E.
  set (t := refilled capacity refill now state) in *. clearbody t.
  assert (0 <= inject_Z capacity ∧ inject_Z capacity <= inject_Z (2 ^ 30))%Q as [Hq0 Hq1].
  { split; [change 0%Q with (inject_Z 0) |]; by apply inject_le. }
  assert (0 <= inject_Z cost)%Q as Hk by (by apply (inject_le 0)).
  injection E as <- <-. cbn [bk_updated bk_tokens spent rt_allowed]. unfold spent. cbn [rt_allowed].
  destruct (Qle_bool (inject_Z cost) t) eqn:Ea.
  - apply Qle_bool_iff in Ea. assert (in_range (t - inject_Z cost)) as Hx by (split; qlra).
    destruct (rnd_error _ Hx) as [_ Hup]. split; [done |]. split; [apply rnd_nonneg; lra |]. split.
    + assert (rnd (inject_Z capacity) == inject_Z capacity)%Q as <- by (apply rnd_int; lia). apply rnd_mono. lra.
    + qlra.
  - split; [done |]. split; [done |]. split; [done |]. change (inject_Z 0) with 0%Q. qlra.
Qed.

(** ** A sequence of checks *)

Definition bucket_at (limit : RateLimit) (key : pystr) (redis : store Bucket) (b : Bucket) (at_ : datetime) : Prop :=
  redis !! (PREFIX ++ key) =
    Some (Entry b (Some (at_ + lifetime (rl_capacity limit) (rl_refill_per_second limit) * 1000))) ∧
  bk_updated b = now_ms at_ ∧ (0 <= bk_tokens b)%Q ∧ (bk_tokens b <= inject_Z (rl_capacity limit))%Q.

(** What rounding can add to one check. *)
Definition error (limit : RateLimit) : Q := slack * (inject_Z (rl_capacity limit) + 1).

Lemma first_check_spends limit redis at_ key cost r redis' :
  limit_ok (rl_capacity limit) (rl_refill_per_second limit) → 0 <= cost →
  (∀ e, redis !! (PREFIX ++ key) = Some e → 0 <= bk_tokens (e_value e))%Q →
  check redis at_ key limit cost (now_ms at_) = (r, redis') →
  ∃ b, bucket_at limit key redis' b at_ ∧
       (inject_Z (spent r cost) + bk_tokens b <= inject_Z (rl_capacity limit) + error limit)%Q.
Proof.
  intros Hl Hc Hn E. unfold check in E.
  destruct (script _ _ _ _ _) as [r' b] eqn:Es. injection E as -> <-. exists b.
  assert (∀ b, rget at_ (PREFIX ++ key) redis = Some b → 0 <= bk_tokens b)%Q as Hb.
  { intros b' Hg. unfold rget, peek in Hg. destruct (redis !! (PREFIX ++ key)) as [e|]; [| done].
    destruct (live at_ e); [| done]. injection Hg as <-. by apply Hn. }
  destruct (script_spends _ _ _ _ _ _ _ Hl Hc Hb Es) as (Hu & H0' & H1 & H2). split.
  - split; [by rewrite lookup_insert_eq | done].
  - destruct (refilled_range (rl_capacity limit) (rl_refill_per_second limit) (now_ms at_)
      (rget at_ (PREFIX ++ key) redis) (proj1 (lo_capacity _ _ Hl))) as [_ Ht]; [destruct Hl as [_ [? _]]; qlra | done |].
    assert (0 <= inject_Z (rl_capacity limit))%Q as Hq by (apply (inject_le 0), Hl). unfold error. qlra.
Qed.

Lemma check_spends limit redis b at0 at_ key cost r redis' :
  limit_ok (rl_capacity limit) (rl_refill_per_second limit) → 0 <= cost → bucket_at limit key redis b at0 →
  at0 <= at_ → now_ms at_ - now_ms at0 <= 2 ^ 42 →
  check redis at_ key limit cost (now_ms at_) = (r, redis') →
  ∃ b', bucket_at limit key redis' b' at_ ∧
    (inject_Z (spent r cost) + bk_tokens b' <=
       bk_tokens b + inject_Z (now_ms at_ - now_ms at0) / 1000 * rl_refill_per_second limit * (1 + slack) + error limit)%Q.
Proof.
  intros Hl Hc (Hin & Hu & Ht0 & Ht1) Hat Hr E. unfold check in E.
  destruct (script _ _ _ _ _) as [r' b'] eqn:Es. injection E as -> <-. exists b'.
  assert (rget at_ (PREFIX ++ key) redis = Some b ∨
          rget at_ (PREFIX ++ key) redis = None ∧
          lifetime (rl_capacity limit) (rl_refill_per_second limit) <= now_ms at_ - now_ms at0) as Hg.
  { unfold rget, peek. rewrite Hin. unfold live. cbn [e_expiry]. destruct (Z.ltb_spec at_ (at0 + lifetime
      (rl_capacity limit) (rl_refill_per_second limit) * 1000)); [by left | right]. split; [done |]. unfold now_ms.
    set (n := lifetime _ _) in *. assert ((at0 + n * 1000) / 1000 <= at_ / 1000) by (apply Z.div_le_mono; lia).
    rewrite Z.div_add in *; lia. }
  assert (now_ms at0 <= now_ms at_) as Hms by (apply Z.div_le_mono; lia).
  assert (∀ b, rget at_ (PREFIX ++ key) redis = Some b → 0 <= bk_tokens b)%Q as Hb.
  { intros b0 Hb0. destruct Hg as [Hg|[Hg _]]; rewrite Hg in Hb0; [by injection Hb0 as <- | done]. }
  destruct (script_spends _ _ _ _ _ _ _ Hl Hc Hb Es) as (Hu' & H0' & H1 & H2). split.
  { split; [by rewrite lookup_insert_eq | done]. }
  assert (0 <= inject_Z (rl_capacity limit))%Q as Hq by (apply (inject_le 0), Hl). unfold error.
  destruct Hg as [Hg|[Hg Hlife]]; rewrite Hg in H2.
  - destruct (refilled_bounds (rl_capacity limit) (rl_refill_per_second limit) (now_ms at_) b Hl Ht0 Ht1) as (_ & _ & Hup);
      [lia |]. rewrite Hu in Hup. qlra.
  - destruct (refilled_range (rl_capacity limit) (rl_refill_per_second limit) (now_ms at_) None
      (proj1 (lo_capacity _ _ Hl))) as [_ Ht]; [destruct Hl as [_ [? _]]; qlra | done |].
    pose proof (lifetime_fills _ _ _ Hl Hlife) as Hfill.
    set (x := (inject_Z (now_ms at_ - now_ms at0) / 1000 * rl_refill_per_second limit)%Q) in *. clearbody x. qlra.
Qed.

Lemma check_elsewhere redis at_ key key' limit cost now :
  key' ≠ key → snd (check redis at_ key' limit cost now) !! (PREFIX ++ key) = redis !! (PREFIX ++ key).
Proof.
  intros Hk. unfold check. destruct (script _ _ _ _ _). cbn [snd]. apply lookup_insert_ne. intros E. apply app_inv_head in E. done.
Qed.

(** ** Guessing a password *)

(** An attempt, with the accounts as it finds them. *)
Record LoginAttempt := {
  la_at : datetime;
  la_email : pystr;
  la_address : pystr;
  la_password : pystr;
  la_draws : Draws;
  la_api : ApiState
}.

Context {U : Unicode} {A : Argon2}.

Definition is_too_many (r : result ApiError User) : bool :=
  match r with Err (Http code _) => code =? 429 | _ => false end.

(** The attempts on [email] that were not turned away, and the buckets they leave. *)
Fixpoint guesses (email : pystr) (l : list LoginAttempt) (redis : store Bucket) : Z :=
  match l with
  | [] => 0
  | a :: l =>
      let '(r, _, redis) := login_request (la_at a) (la_email a) (la_address a) (la_password a) (la_draws a) redis (la_api a) in
      (if bool_decide (py_lower (la_email a) = email) && negb (is_too_many r) then 1 else 0) + guesses email l redis
  end.

Lemma account_is_no_address email address : address_key address ≠ account_key email.
Proof. unfold address_key, account_key. intros E. apply (f_equal (lookup 6%nat)) in E. vm_compute in E. discriminate E. Qed.

(** What an attempt does to the bucket of an account: nothing, or one check that allowed
    it if it was not turned away. *)
Lemma attempt_checks a redis r api redis' email :
  login_request (la_at a) (la_email a) (la_address a) (la_password a) (la_draws a) redis (la_api a) = (r, api, redis') →
  (py_lower (la_email a) ≠ email ∧
     redis' !! (PREFIX ++ account_key email) = redis !! (PREFIX ++ account_key email)) ∨
  (py_lower (la_email a) = email ∧ ∃ answer redis1,
     check redis (la_at a) (account_key email) LOGIN_PER_ACCOUNT 1 (now_ms (la_at a)) = (answer, redis1) ∧
     redis' !! (PREFIX ++ account_key email) = redis1 !! (PREFIX ++ account_key email) ∧
     (if negb (is_too_many r) then 1 else 0) <= spent answer 1).
Proof.
  intros E. unfold login_request in E.
  destruct (check redis (la_at a) (account_key (py_lower (la_email a))) _ _ _) as [answer redis1] eqn:Ec.
  assert (redis' !! (PREFIX ++ account_key email) = redis1 !! (PREFIX ++ account_key email) ∧
          (rt_allowed answer = false → is_too_many r = true)) as [Hk Hmany].
  { destruct (rt_allowed answer) eqn:Ea.
    - pose proof (check_elsewhere redis1 (la_at a) (account_key email) (address_key (la_address a)) LOGIN_PER_ADDRESS 1
        (now_ms (la_at a)) (account_is_no_address email (la_address a))) as Hk.
      destruct (check redis1 _ _ _ _ _) as [source redis2]. cbn [snd] in Hk. injection E as _ <-. done.
    - unfold login in E. cbn [answer_of li_allowed] in E. rewrite Ea in E. cbn [negb] in E. injection E as <- _ <-.
      split; [done |]. done. }
  destruct (decide (py_lower (la_email a) = email)) as [He|He].
  - right. split; [done |]. rewrite He in Ec. exists answer, redis1. split; [done |]. split; [done |].
    unfold spent. destruct (rt_allowed answer); [by destruct (negb _) | by rewrite Hmany].
  - left. split; [done |]. rewrite Hk. pose proof (check_elsewhere redis (la_at a) (account_key email)
      (account_key (py_lower (la_email a))) LOGIN_PER_ACCOUNT 1 (now_ms (la_at a))) as Hs.
    rewrite Ec in Hs. cbn [snd] in Hs. apply Hs. unfold account_key. intros E'. apply app_inv_head in E'. done.
Qed.

Lemma login_limit_ok : limit_ok (rl_capacity LOGIN_PER_ACCOUNT) (rl_refill_per_second LOGIN_PER_ACCOUNT).
Proof.
  assert (in_range (5 / 60)) as Hx by (split; by vm_compute). destruct (rnd_error _ Hx) as [Hlo Hhi].
  split; cbn [LOGIN_PER_ACCOUNT per_minute rl_capacity rl_refill_per_second]; [done |].
  change (inject_Z 5 / 60)%Q with (5 / 60)%Q. set (x := rnd (5 / 60)) in *. clearbody x. qconst (5 / 60)%Q. split; qlra.
Qed.

Lemma login_refill : (rl_refill_per_second LOGIN_PER_ACCOUNT <= (1 # 12) * (1 + ulp) + tiny)%Q.
Proof.
  assert (in_range (5 / 60)) as Hx by (split; by vm_compute). destruct (rnd_error _ Hx) as [_ Hhi].
  cbn [LOGIN_PER_ACCOUNT per_minute rl_refill_per_second]. change (inject_Z 5 / 60)%Q with (5 / 60)%Q.
  set (x := rnd (5 / 60)) in *. clearbody x. qconst (5 / 60)%Q. qlra.
Qed.

(** The attempts of a run are in order, within [T] milliseconds of its start. *)
Definition within_run (T0 T : Z) (l : list LoginAttempt) : Prop :=
  StronglySorted (λ a b, la_at a <= la_at b) l ∧ Forall (λ a, T0 <= now_ms (la_at a) <= T0 + T) l.

(** From a bucket on: what is left in it, what the time adds, and the roundings. *)
Lemma guesses_from email l : ∀ redis b at0 T0 T,
  T <= 2 ^ 42 → T0 <= now_ms at0 <= T0 + T → bucket_at LOGIN_PER_ACCOUNT (account_key email) redis b at0 →
  Forall (λ a, at0 <= la_at a) l → within_run T0 T l →
  (inject_Z (guesses email l redis) <=
     bk_tokens b + inject_Z (T0 + T - now_ms at0) / 1000 * rl_refill_per_second LOGIN_PER_ACCOUNT * (1 + slack) +
     inject_Z (Z.of_nat (length l)) * error LOGIN_PER_ACCOUNT)%Q.
Proof.
  set (L := LOGIN_PER_ACCOUNT). pose proof login_limit_ok as Hl. fold L in Hl.
  assert (0 <= rl_refill_per_second L)%Q as Hr by (destruct Hl as [_ [? _]]; qlra).
  assert (0 <= error L)%Q as He0 by (by vm_compute).
  induction l as [|a l IH]; intros redis b at0 T0 T HT Hat0 Hb Hge [Hs Hw].
  - cbn [guesses length]. change (inject_Z (Z.of_nat 0)) with 0%Q. change (inject_Z 0) with 0%Q.
    destruct Hb as (_ & _ & Hb0 & _). assert (0 <= inject_Z (T0 + T - now_ms at0))%Q as Ht by (apply (inject_le 0); lia).
    pose proof (Qmult_le_0_compat _ _ Ht Hr) as Hm. qlra.
  - apply StronglySorted_inv in Hs as [Hs Hle]. apply Forall_cons in Hge as [Hge Hgl]. apply Forall_cons in Hw as [Ha Hw].
    cbn [guesses].
    assert (inject_Z (Z.of_nat (length (a :: l))) == inject_Z (Z.of_nat (length l)) + 1)%Q as El.
    { change 1%Q with (inject_Z 1). rewrite <- inject_Z_plus. cbn [length]. rewrite Nat2Z.inj_succ. reflexivity. }
    destruct (login_request (la_at a) (la_email a) (la_address a) (la_password a) (la_draws a) redis (la_api a))
      as [[r api] redis'] eqn:Er.
    destruct (attempt_checks _ _ _ _ _ email Er) as [[Hne Hk]|(He & answer & redis1 & Hc & Hk & Hn)].
    + rewrite bool_decide_false by done. cbn [andb]. rewrite Z.add_0_l. destruct Hb as [Hin Hb].
      assert (bucket_at L (account_key email) redis' b at0) as Hb' by (split; [by rewrite Hk | done]).
      specialize (IH redis' b at0 T0 T HT Hat0 Hb' Hgl (conj Hs Hw)). rewrite El. lra.
    + rewrite bool_decide_true by done. cbn [andb].
      assert (now_ms (la_at a) - now_ms at0 <= 2 ^ 42) as Hd by lia.
      destruct (check_spends L redis b at0 (la_at a) _ 1 _ _ Hl Z.le_0_1 Hb Hge Hd Hc) as (b' & Hb' & Hsp).
      assert (bucket_at L (account_key email) redis' b' (la_at a)) as Hb2 by (destruct Hb'; split; [by rewrite Hk | done]).
      specialize (IH redis' b' (la_at a) T0 T HT Ha Hb2 Hle (conj Hs Hw)). rewrite El.
      set (c := if negb (is_too_many r) then 1 else 0) in *. rewrite inject_Z_plus.
      assert (inject_Z c <= inject_Z (spent answer 1))%Q as Hc' by (by apply inject_le).
      assert (inject_Z (T0 + T - now_ms at0) ==
              inject_Z (now_ms (la_at a) - now_ms at0) + inject_Z (T0 + T - now_ms (la_at a)))%Q as Et.
      { rewrite <- inject_Z_plus. apply inject_Z_injective. lia. }
      rewrite Et. qlra.
Qed.

Lemma guesses_bound email l : ∀ redis T0 T,
  T <= 2 ^ 42 → 0 <= T → within_run T0 T l →
  (∀ e, redis !! (PREFIX ++ account_key email) = Some e → 0 <= bk_tokens (e_value e))%Q →
  (inject_Z (guesses email l redis) <=
     5 + inject_Z T / 1000 * rl_refill_per_second LOGIN_PER_ACCOUNT * (1 + slack) +
     (inject_Z (Z.of_nat (length l)) + 1) * error LOGIN_PER_ACCOUNT)%Q.
Proof.
  set (L := LOGIN_PER_ACCOUNT). pose proof login_limit_ok as Hl. fold L in Hl.
  assert (0 <= rl_refill_per_second L)%Q as Hr by (destruct Hl as [_ [? _]]; qlra).
  assert (0 <= error L)%Q as He0 by (by vm_compute).
  induction l as [|a l IH]; intros redis T0 T HT HT0 [Hs Hw] Hn.
  - cbn [guesses length]. change (inject_Z (Z.of_nat 0)) with 0%Q. change (inject_Z 0) with 0%Q.
    assert (0 <= inject_Z T)%Q as Ht by (by apply (inject_le 0)). pose proof (Qmult_le_0_compat _ _ Ht Hr) as Hm. qlra.
  - apply StronglySorted_inv in Hs as [Hs Hle]. apply Forall_cons in Hw as [Ha Hw]. cbn [guesses].
    assert (inject_Z (Z.of_nat (length (a :: l))) == inject_Z (Z.of_nat (length l)) + 1)%Q as El.
    { change 1%Q with (inject_Z 1). rewrite <- inject_Z_plus. cbn [length]. rewrite Nat2Z.inj_succ. reflexivity. }
    destruct (login_request (la_at a) (la_email a) (la_address a) (la_password a) (la_draws a) redis (la_api a))
      as [[r api] redis'] eqn:Er.
    destruct (attempt_checks _ _ _ _ _ email Er) as [[Hne Hk]|(He & answer & redis1 & Hc & Hk & Hsp)].
    + rewrite bool_decide_false by done. cbn [andb]. rewrite Z.add_0_l.
      specialize (IH redis' T0 T HT HT0 (conj Hs Hw)). rewrite Hk in IH. specialize (IH Hn). rewrite El. lra.
    + rewrite bool_decide_true by done. cbn [andb].
      destruct (first_check_spends L redis (la_at a) _ 1 _ _ Hl Z.le_0_1 Hn Hc) as (b & Hb & Hup).
      assert (bucket_at L (account_key email) redis' b (la_at a)) as Hb2 by (destruct Hb; split; [by rewrite Hk | done]).
      pose proof (guesses_from email l redis' b (la_at a) T0 T HT Ha Hb2 Hle (conj Hs Hw)) as Hrest. fold L in Hrest.
      set (c := if negb (is_too_many r) then 1 else 0) in *. rewrite inject_Z_plus, El.
      assert (inject_Z c <= inject_Z (spent answer 1))%Q as Hc' by (by apply inject_le).
      assert (inject_Z (T0 + T - now_ms (la_at a)) <= inject_Z T)%Q as Hd by (apply inject_le; lia).
      pose proof (Qmult_le_compat_r _ _ _ Hd Hr) as Hm. change (inject_Z (rl_capacity L)) with 5%Q in Hup. qlra.
Qed.

End Bounds.

(** ** Waiting *)

Section Waiting.
Context `{Binary64Laws}.

(** What the refill adds at least. *)
Lemma refill_lower (d r : Q) :
  (0 <= d → d <= inject_Z (2 ^ 42) → 0 <= r → r <= inject_Z (2 ^ 20) →
   d / 1000 * r * ((1 - ulp) * (1 - ulp)) - (1 # (2 ^ 170)) <= rnd (rnd (d / 1000) * r))%Q.
Proof.
  intros Hd Hd' Hr Hr'. assert (in_range (d / 1000)) as Hx by (split; qlra).
  destruct (rnd_error _ Hx) as [Hel Hel']. pose proof (rnd_nonneg _ (proj1 Hx)) as Hel0.
  set (el := rnd (d / 1000)) in *.
  assert ((d / 1000 * (1 - ulp) - tiny) * r <= el * r)%Q as Hm by (by apply Qmult_le_compat_r).
  assert (el * r <= (d / 1000 * (1 + ulp) + tiny) * r)%Q as Hm' by (by apply Qmult_le_compat_r).
  assert (0 <= el * r)%Q as Hm0 by (by apply Qmult_le_0_compat).
  assert (d * r <= inject_Z (2 ^ 42) * inject_Z (2 ^ 20))%Q as Hdr.
  { apply (Qle_trans _ (d * inject_Z (2 ^ 20))); [rewrite !(Qmult_comm d) |]; apply Qmult_le_compat_r; qlra. }
  assert (in_range (el * r)) as Hy by (split; qlra).
  destruct (rnd_error _ Hy) as [Hinc _]. qlra.
Qed.

(** The time a denied caller is told, with a millisecond more, earns what was missing. *)
Lemma wait_earns (m r : Q) (d : Z) :
  (0 <= m)%Q → (m <= inject_Z (2 ^ 30) * r)%Q → (1 # (2 ^ 20) <= r)%Q → (r <= inject_Z (2 ^ 20))%Q →
  (m <= inject_Z (2 ^ 30))%Q →
  Qceiling (rnd (rnd (rnd m / r) * 1000)) + 1 <= d <= 2 ^ 42 →
  (m <= rnd (rnd (inject_Z d / 1000) * r))%Q.
Proof.
  intros Hm0 Hm Hr Hr' Hm' [Hd Hd']. assert (0 < r)%Q as Hr0 by qlra.
  assert (in_range m) as Hx by (split; qlra). destruct (rnd_error _ Hx) as [Hs Hs']. pose proof (rnd_nonneg m Hm0) as Hs0.
  set (s := rnd m) in *. clearbody s. set (q := (s / r)%Q) in *.
  assert (q * r == s)%Q as Eq by (unfold q; field; lra).
  assert (0 <= q)%Q as Hq by (by apply Qle_shift_div_l; [| rewrite Qmult_0_l]).
  assert (q <= inject_Z (2 ^ 42))%Q as Hq' by (apply Qle_shift_div_r; qlra). clearbody q.
  assert (in_range q) as Hxq by (split; qlra). destruct (rnd_error _ Hxq) as [Hy Hy']. pose proof (rnd_nonneg q Hq) as Hy0.
  set (y := rnd q) in *. clearbody y.
  assert (in_range (y * 1000)) as Hxy by (split; qlra). destruct (rnd_error _ Hxy) as [Hz _].
  pose proof (Qle_ceiling (rnd (y * 1000))) as Hceil. set (z := rnd (y * 1000)) in *.
  assert (0 <= z)%Q as Hz0 by (apply rnd_nonneg; lra). clearbody z.
  assert (inject_Z (Qceiling z) + 1 <= inject_Z d)%Q as Hzd.
  { change 1%Q with (inject_Z 1). rewrite <- inject_Z_plus. by apply inject_le. }
  assert (inject_Z d <= inject_Z (2 ^ 42))%Q as Hd2 by (by apply inject_le).
  assert (0 <= inject_Z d)%Q as Hd0 by lra. assert (0 <= r)%Q as Hrn by lra.
  pose proof (refill_lower (inject_Z d) r Hd0 Hd2 Hrn Hr') as Hinc.
  set (inc := rnd (rnd (inject_Z d / 1000) * r)) in *. clearbody inc. set (x := inject_Z d) in *. clearbody x.
  assert ((z + 1) * r <= x * r)%Q as H1 by (apply Qmult_le_compat_r; lra).
  assert ((y * 1000 * (1 - ulp) - tiny) * r <= z * r)%Q as H2 by (by apply Qmult_le_compat_r).
  assert ((q * (1 - ulp) - tiny) * r <= y * r)%Q as H3 by (by apply Qmult_le_compat_r).
  assert (s * (1 - ulp) - tiny * r <= y * r)%Q as H4 by (rewrite <- Eq; qlra). clear H3 Eq. qlra.
Qed.

(** A caller that is denied and waits as long as it was told, and a millisecond more, is let
    through, unless others spent in the meantime. *)
Theorem waiting_is_enough capacity refill now cost state r b now' :
  limit_ok capacity refill → 0 <= cost <= capacity → (inject_Z cost <= inject_Z (2 ^ 30) * refill)%Q →
  (∀ b, state = Some b → 0 <= bk_tokens b)%Q →
  script capacity refill now cost state = (r, b) → rt_allowed r = false →
  now + rt_retry_after_ms r + 1 <= now' <= now + 2 ^ 42 →
  rt_allowed (fst (script capacity refill now' cost (Some b))) = true.
Proof.
  intros [[Hc0 Hc] [Hr Hr']] [Hk0 Hk] Hkr Hb E Hden Hnow. assert (0 <= refill)%Q as Hr0 by qlra.
  destruct (refilled_range capacity refill now state Hc0 Hr0 Hb) as [Ht0 Ht1]. unfold script in E.
  set (t := refilled capacity refill now state) in *. clearbody t. injection E as <- <-.
  cbn [rt_allowed rt_retry_after_ms] in *. rewrite Hden in *. cbn [script fst rt_allowed]. apply Qle_bool_iff.
  assert (inject_Z cost <= inject_Z capacity ∧ inject_Z capacity <= inject_Z (2 ^ 30))%Q as [Hq0 Hq1]
    by (split; by apply inject_le).
  assert (t < inject_Z cost)%Q as Hlt.
  { apply not_true_iff_false in Hden. rewrite Qle_bool_iff in Hden. lra. }
  assert (in_range (inject_Z cost - t)) as Hx by (split; qlra).
  pose proof (wait_earns (inject_Z cost - t) refill (now' - now)) as Hw.
  assert (inject_Z cost - t <= rnd (rnd (inject_Z (now' - now) / 1000) * refill))%Q as Hinc.
  { apply Hw; [qlra | qlra | done | done | qlra |]. lia. }
  unfold refilled. cbn [bk_tokens bk_updated]. apply qmin_glb; [done |].
  assert (rnd (inject_Z cost) == inject_Z cost)%Q as <- by (apply rnd_int; lia). apply rnd_mono.
  assert (0 <= now' - now <= 2 ^ 42) as Hd.
  { split; [| lia]. cut (0 <= Qceiling (rnd (rnd (rnd (inject_Z cost - t) / refill) * 1000))); [lia |].
    rewrite <- (Qceiling_Z 0). apply Qceiling_resp_le. apply rnd_nonneg, Qmult_le_0_compat; [| by vm_compute].
    apply rnd_nonneg, Qle_shift_div_l; [qlra |]. rewrite Qmult_0_l. apply rnd_nonneg. lra. }
  pose proof (elapsed_ms now' now Hd) as He.
  assert (rnd (rnd (qmax 0 (rnd (inject_Z (now' - now))) / 1000) * refill) ==
          rnd (rnd (inject_Z (now' - now) / 1000) * refill))%Q as Ei by (by rewrite He).
  rewrite Ei. lra.
Qed.
End Waiting.

(** ** Witnesses *)

Definition exact_numbers : Binary64 := {| rnd x := x |}.

Lemma exact_numbers_laws : @Binary64Laws exact_numbers.
Proof.
  split; cbn.
  - auto.
  - intros z _. apply Qeq_refl.
  - intros x Hx. split; qlra.
Qed.

Definition ex_guess (at_ : datetime) : LoginAttempt :=
  {| la_at := at_; la_email := py "A@b"; la_address := py "10.0.0.1"; la_password := py "guess"; la_draws := ex_draws 1;
     la_api := no_api |}.

Abbreviation ex_guesses l := (@guesses exact_numbers ascii_unicode toy_argon (py "a@b") l ∅).


(** An empty bucket of five a minute: one token in twelve seconds. *)
Definition ex_spent : Bucket := {| bk_tokens := 0; bk_updated := 0 |}.
Abbreviation ex_script now state := (@script exact_numbers 5 (1 # 12) now 1 state).

Lemma waiting_is_enough_witness :
  let r := fst (ex_script 500 (Some ex_spent)) in
  rt_allowed r = false ∧ rt_retry_after_ms r = 11500 ∧
  rt_allowed (fst (ex_script 12001 (Some (snd (ex_script 500 (Some ex_spent)))))) = true.
Proof.
  intros r. split; [vm_compute; reflexivity |]. split; [vm_compute; reflexivity |].
  apply (@waiting_is_enough exact_numbers exact_numbers_laws 5 (1 # 12) 500 1 (Some ex_spent) r).
  - split; [lia | split; vm_compute; discriminate].
  - lia.
  - vm_compute. discriminate.
  - intros b [= <-]. vm_compute. discriminate.
  - vm_compute. reflexivity.
  - vm_compute. reflexivity.
  - vm_compute. split; discriminate.
Defined.

(** ** What the code does beyond its documentation *)

(** *** Clocks that differ

    The time of the bucket is set back by a caller whose clock is behind: two machines a
    minute apart, taking turns, are both let through at any rate. *)
Lemma clocks_apart_refill_the_bucket :
  let b := snd (ex_script 0 (Some {| bk_tokens := 0; bk_updated := 60000 |})) in
  bk_updated b = 0 ∧ rt_remaining (fst (ex_script 60000 (Some b))) = 4.
Proof. split; vm_compute; reflexivity. Qed.

(** *** The header

    The seconds in the answer are rounded down ([retry_after_ms // 1000]): a caller that
    waits as long as the header says is denied again. *)
Lemma header_is_too_short :
  let '(r, b) := ex_script 500 (Some ex_spent) in
  rt_allowed r = false ∧ Z.max 1 (rt_retry_after_ms r / 1000) = 11 ∧
  rt_allowed (fst (ex_script (500 + 11 * 1000) (Some b))) = false.
Proof. vm_compute. repeat split; reflexivity. Qed.
