(* ===== verification/Handlers.v ===== *)
(** * What the API's handlers share (mmp_api/deps.py, mmp_db/pool.py)

    A handler runs as a principal of at least some role, on a connection that sees the
    rows of that principal's organisation only and is one transaction: [as_role] is that
    dependency.  A handler leaves the state it computed, its database part rolled back
    where it raises; what it did to Redis stays. *)

From S2P Require Import Prelude Ids Schema AuditLog ApiSessions Access.

#[local] Open Scope Z_scope.
#[local] Open Scope mmp_scope.

Definition invalid_body : ApiError := Http 422 (py "invalid body").

Definition as_role `{Unicode} {A S} (minimum : Role) (rq : ApiRequest) (h : Principal → uuid → S → result ApiError A * S)
    (api : ApiState) (st : S) : result ApiError A * ApiState * S :=
  match require_role minimum rq api with
  | (Err e, api) => (Err e, api, st)
  | (Ok (p, org), api) => let '(r, st) := h p org st in (r, api, st)
  end.

Definition or_raise {E A} (e : E) (o : option A) : result E A := match o with Some a => Ok a | None => Err e end.

(** An audit entry that cannot be written fails the request. *)
Definition audited {A} (r : result AuditError (A * list AuditRow)) : result ApiError (list AuditRow) :=
  match r with Ok (_, l) => Ok l | Err _ => Err Crash end.

(** A handler that only reads. *)
Definition reading {A S} (h : uuid → S → result ApiError A) (_ : Principal) (org : uuid) (st : S)
  : result ApiError A * S := (h org st, st).

(** A comprehension over rows: the first exception ends it. *)
Fixpoint collect {A B} (f : A → result ApiError B) (l : list A) : result ApiError (list B) :=
  match l with
  | [] => Ok []
  | a :: l => let* b := f a in let* bs := collect f l in Ok (b :: bs)
  end.

(** What a text column takes: at most so many characters, and no NUL. *)
Definition no_nul (s : pystr) : bool := negb (bool_decide (0%N ∈ s)).
Definition pg_text (limit : nat) (s : pystr) : bool := (length s <=? limit)%nat && no_nul s.

Definition opt_ok {A} (p : A → bool) (o : option A) : bool := match o with Some a => p a | None => true end.

(** A length as [Field(min_length=.., max_length=..)] bounds it. *)
Definition sized (lo hi : nat) (s : pystr) : bool := (lo <=? length s)%nat && (length s <=? hi)%nat.

(** A URL as pydantic parsed it. *)
Record HttpUrl := { hu_scheme : pystr; hu_text : pystr }.
Definition https_url (u : HttpUrl) : bool := bool_decide (hu_scheme u = py "https").

(** A field of a partial update ([model_dump(exclude_unset=True)]): not set, or set to a
    value or to null. *)
Abbreviation patch A := (option (option A)).

(** The validation of such a field: a value that is set satisfies it. *)
Definition set_ok {A} (p : A → bool) (c : patch A) : bool := opt_ok (opt_ok p) c.

(** A column that is not null takes no null, and a value only if it fits. *)
Definition patched {A} (fits : A → bool) (old : A) (change : patch A) : result ApiError A :=
  match change with
  | None => Ok old
  | Some None => Err Crash
  | Some (Some x) => if fits x then Ok x else Err Crash
  end.

Definition patched_null {A} (old : option A) (change : patch A) : option A :=
  match change with None => old | Some x => x end.

Definition is_set {A} (change : patch A) : bool := match change with Some _ => true | None => false end.

(** A NUL is refused when the statement is sent, whichever rows it would touch. *)
Definition sets_nul (change : patch pystr) : bool :=
  negb (set_ok no_nul change).

(** The value a merged rule has ([changes.get(name, existing)]). *)
Definition merged_value {A} (old : A) (change : option A) : A := default old change.

(** A request either leaves the state alone or ran its handler as an admitted principal. *)
Lemma as_role_cases `{Unicode} {A S} minimum rq (h : Principal → uuid → S → result ApiError A * S) api st :
  (∃ e api', as_role minimum rq h api st = (Err e, api', st)) ∨
  (∃ p org api', admitted minimum rq api p org ∧
     as_role minimum rq h api st = (fst (h p org st), api', snd (h p org st))).
Proof.
  unfold as_role. pose proof (require_role_admits minimum rq api) as Ha.
  destruct (require_role minimum rq api) as [[[p org]|e] api']; [| by left; eauto].
  right. exists p, org, api'. split; [by apply Ha |]. by destruct (h p org st).
Qed.

Lemma as_role_Ok `{Unicode} {A S} minimum rq (h : Principal → uuid → S → result ApiError A * S) api st a api' st' :
  as_role minimum rq h api st = (Ok a, api', st') →
  ∃ p org, admitted minimum rq api p org ∧ h p org st = (Ok a, st').
Proof.
  intros E. destruct (as_role_cases minimum rq h api st) as [(e & api1 & Hr)|(p & org & api1 & Ha & Hr)].
  - by rewrite Hr in E.
  - exists p, org. split; [done |]. rewrite E in Hr. injection Hr as H1 _ H2. destruct (h p org st). cbn in *. congruence.
Qed.

(** Whatever a handler keeps, a request keeps. *)
Lemma as_role_keeps `{Unicode} {A S} (P : S → Prop) minimum rq (h : Principal → uuid → S → result ApiError A * S) api st :
  P st → (∀ p org, P (snd (h p org st))) → P (snd (as_role minimum rq h api st)).
Proof.
  intros Hst Hh. destruct (as_role_cases minimum rq h api st) as [(e & api' & ->)|(p & org & api' & _ & ->)]; [done |].
  apply Hh.
Qed.

Lemma patched_Ok {A} (fits : A → bool) old change new :
  patched fits old change = Ok new →
  (change = None ∧ new = old) ∨ (change = Some (Some new) ∧ fits new = true).
Proof.
  destruct change as [[x|]|]; cbn; [| done |].
  - destruct (fits x) eqn:E; [| done]. intros <-%Ok_inj. by right.
  - intros <-%Ok_inj. by left.
Qed.

Lemma or_raise_Ok {E A} (e : E) (o : option A) a : or_raise e o = Ok a ↔ o = Some a.
Proof. destruct o; cbn; split; congruence. Qed.

Lemma collect_ok {A B} (f : A → result ApiError B) l : ∀ bs, collect f l = Ok bs → Forall2 (λ a b, f a = Ok b) l bs.
Proof.
  induction l as [|a l IH]; intros bs E; cbn [collect] in E; [injection E as <-; constructor |].
  destruct (f a) as [b|] eqn:Ef; [| done]. cbn [rbind] in E. destruct (collect f l) as [bs'|]; [| done]. injection E as <-.
  constructor; [done | by apply IH].
Qed.
