(* ===== verification/ApiKeys.v ===== *)
(** * Applications and their keys (mmp_api/routes/keys.py, mmp_api/routes/apps.py)

    The tables of applications and keys with the handlers that change them, and the
    tracker's cache of authenticated keys, which the handlers clear and [Keys] fills.  The
    tokens a new key is drawn from, its id and the clock are arguments.

    A handler is a function on tables and cache; for the theorem on revocation its commit,
    its eviction and the commands of the tracker's lookups are events of their own, in any
    order. *)

From stdpp Require Import sorting.
From S2P Require Import Prelude Redis Ids Keys ApiSessions Access Handlers.

#[local] Open Scope Z_scope.
#[local] Open Scope mmp_scope.

Definition active : pystr := py "active".
Definition revoked : pystr := py "revoked".
Definition disabled : pystr := py "disabled".

Record AppRow := {
  apr_id : uuid;
  apr_organization_id : uuid;
  apr_name : pystr;
  apr_platform : pystr;
  apr_android_package_name : option pystr;
  apr_ios_bundle_id : option pystr;
  apr_timezone : pystr;
  apr_status : pystr;
  apr_install_window_days : Z;
  apr_event_window_days : Z;
  apr_session_timeout_minutes : Z;
  apr_consent_mode : pystr;
  apr_created_at : datetime
}.

Record ApiKeyRow := {
  ak_id : uuid;
  ak_organization_id : uuid;
  ak_app_id : uuid;
  ak_name : pystr;
  ak_kind : pystr;
  ak_key_prefix : pystr;
  ak_key_hash : list N;
  ak_pepper_version : Z;
  ak_environment : pystr;
  ak_status : pystr;
  ak_last_used_at : option datetime;
  ak_revoked_at : option datetime;
  ak_created_at : datetime
}.

(** The tables, the tracker's cache and the notifications sent. *)
Record KeyState := {
  kt_apps : list AppRow;
  kt_keys : list ApiKeyRow;
  kt_cache : store (option AuthRecord);
  kt_notified : list uuid
}.

Definition with_apps (l : list AppRow) (st : KeyState) : KeyState :=
  {| kt_apps := l; kt_keys := kt_keys st; kt_cache := kt_cache st; kt_notified := kt_notified st |}.
Definition with_keys (l : list ApiKeyRow) (st : KeyState) : KeyState :=
  {| kt_apps := kt_apps st; kt_keys := l; kt_cache := kt_cache st; kt_notified := kt_notified st |}.
Definition with_cache (m : store (option AuthRecord)) (st : KeyState) : KeyState :=
  {| kt_apps := kt_apps st; kt_keys := kt_keys st; kt_cache := m; kt_notified := kt_notified st |}.
Definition notify (app : uuid) (st : KeyState) : KeyState :=
  {| kt_apps := kt_apps st; kt_keys := kt_keys st; kt_cache := kt_cache st; kt_notified := kt_notified st ++ [app] |}.

(** The rows the policy shows a connection of [org]. *)
Definition find_app (org app : uuid) (apps : list AppRow) : option AppRow :=
  List.find (λ a, bool_decide (apr_id a = app) && bool_decide (apr_organization_id a = org)) apps.
Definition names_key (org app key : uuid) (k : ApiKeyRow) : bool :=
  bool_decide (ak_id k = key) && bool_decide (ak_app_id k = app) && bool_decide (ak_organization_id k = org).
Definition find_key (org app key : uuid) (keys : list ApiKeyRow) : option ApiKeyRow := List.find (names_key org app key) keys.
Definition is_active (k : ApiKeyRow) : bool := bool_decide (ak_status k = active).

(** What the tracker's query joins. *)
Definition key_row (apps : list AppRow) (k : ApiKeyRow) : option KeyRow :=
  a ← List.find (λ a, bool_decide (apr_id a = ak_app_id k)) apps;
  Some {| k_app_id := ak_app_id k; k_organization_id := ak_organization_id k; k_environment := ak_environment k;
          k_kind := ak_kind k; k_prefix := ak_key_prefix k; k_hash := ak_key_hash k; k_status := ak_status k;
          k_app_status := apr_status a; k_consent_mode := apr_consent_mode a |}.
Definition key_rows (st : KeyState) : list KeyRow := omap (key_row (kt_apps st)) (kt_keys st).

Definition no_app : ApiError := Http 404 (py "app not found").
Definition no_key : ApiError := Http 404 (py "key not found").
Definition no_active_key : ApiError := Http 404 (py "active key not found").

(** ** keys.py *)

Definition MAX_ACTIVE_KEYS_PER_APP : Z := 20.

Record ApiKeyCreate := { kc_name : pystr; kc_environment : pystr; kc_kind : pystr }.

Definition key_body_ok (b : ApiKeyCreate) : bool :=
  sized 1 120 (kc_name b) && bool_decide (kc_environment b ∈ [py "dev"; py "prod"]) &&
  bool_decide (kc_kind b ∈ [py "sdk"; py "s2s"]).

Record ApiKeyOut := {
  ko_id : uuid;
  ko_app_id : uuid;
  ko_name : pystr;
  ko_kind : pystr;
  ko_key_prefix : pystr;
  ko_environment : pystr;
  ko_status : pystr;
  ko_last_used_at : option datetime;
  ko_created_at : datetime
}.

Definition key_out (k : ApiKeyRow) : ApiKeyOut :=
  {| ko_id := ak_id k; ko_app_id := ak_app_id k; ko_name := ak_name k; ko_kind := ak_kind k;
     ko_key_prefix := ak_key_prefix k; ko_environment := ak_environment k; ko_status := ak_status k;
     ko_last_used_at := ak_last_used_at k; ko_created_at := ak_created_at k |}.

Record KeyDraws := { dk_id : uuid; dk_prefix : pystr; dk_secret : pystr; dk_now : datetime }.

Definition later_key (a b : ApiKeyRow) : Prop := ak_created_at b <= ak_created_at a.
#[export] Instance later_key_dec a b : base.Decision (later_key a b).
Proof. unfold later_key. apply _. Defined.

Definition revoke_row (now : datetime) (k : ApiKeyRow) : ApiKeyRow :=
  {| ak_id := ak_id k; ak_organization_id := ak_organization_id k; ak_app_id := ak_app_id k; ak_name := ak_name k;
     ak_kind := ak_kind k; ak_key_prefix := ak_key_prefix k; ak_key_hash := ak_key_hash k;
     ak_pepper_version := ak_pepper_version k; ak_environment := ak_environment k; ak_status := revoked;
     ak_last_used_at := ak_last_used_at k; ak_revoked_at := Some now; ak_created_at := ak_created_at k |}.

Definition drop_cached (prefix : pystr) (st : KeyState) : KeyState :=
  with_cache (rdel (api_key_cache_key prefix) (kt_cache st)) st.

Section Handlers.
Context {U : Unicode} {H : Hmac} (pepper : pystr).

Definition list_keys_handler (app org : uuid) (st : KeyState) : result ApiError (list ApiKeyOut) :=
  let* _ := or_raise no_app (find_app org app (kt_apps st)) in
  Ok (key_out <$> merge_sort later_key
        (List.filter (λ k, bool_decide (ak_app_id k = app) && bool_decide (ak_organization_id k = org)) (kt_keys st))).
Definition list_keys (rq : ApiRequest) (app : uuid) := as_role Admin rq (reading (list_keys_handler app)).

Definition active_keys (org app : uuid) (keys : list ApiKeyRow) : list ApiKeyRow :=
  List.filter (λ k, bool_decide (ak_app_id k = app) && bool_decide (ak_organization_id k = org) &&
                    is_active k) keys.

(** [generate_key] and the INSERT; an unknown environment or a taken id raises. *)
Definition insert_key (org app : uuid) (name kind environment : pystr) (d : KeyDraws) (keys : list ApiKeyRow)
  : result ApiError (ApiKeyRow * pystr * list ApiKeyRow) :=
  match generate_key environment pepper (dk_prefix d) (dk_secret d) with
  | Err _ => Err Crash
  | Ok gk =>
      if existsb (λ k, bool_decide (ak_id k = dk_id d)) keys || negb (pg_text 120 name) then Err Crash
      else
        let row := {| ak_id := dk_id d; ak_organization_id := org; ak_app_id := app; ak_name := name; ak_kind := kind;
                      ak_key_prefix := gk_prefix gk; ak_key_hash := gk_key_hash gk; ak_pepper_version := 1;
                      ak_environment := environment; ak_status := active; ak_last_used_at := None;
                      ak_revoked_at := None; ak_created_at := dk_now d |} in
        Ok (row, gk_raw gk, keys ++ [row])
  end.

Definition create_key_handler (app : uuid) (b : ApiKeyCreate) (d : KeyDraws) (p : Principal) (org : uuid) (st : KeyState)
  : result ApiError (ApiKeyOut * pystr) * KeyState :=
  match (let* _ := raise_if (negb (key_body_ok b)) invalid_body in
         let* _ := or_raise no_app (find_app org app (kt_apps st)) in
         let* _ := raise_if (MAX_ACTIVE_KEYS_PER_APP <=? Z.of_nat (length (active_keys org app (kt_keys st))))
                     (Http 409 (py "an app may have at most 20 active keys; revoke one before creating another")) in
         insert_key org app (kc_name b) (kc_kind b) (kc_environment b) d (kt_keys st)) with
  | Err e => (Err e, st)
  | Ok (row, raw, keys) => (Ok (key_out row, raw), with_keys keys st)
  end.
Definition create_key (rq : ApiRequest) (app : uuid) (b : ApiKeyCreate) (d : KeyDraws) :=
  as_role Admin rq (create_key_handler app b d).

(** The new key first, then the old one is revoked, whatever its status, and the cache of
    its prefix dropped. *)
Definition rotate_key_handler (app key : uuid) (d : KeyDraws) (p : Principal) (org : uuid) (st : KeyState)
  : result ApiError (ApiKeyOut * pystr) * KeyState :=
  match find_key org app key (kt_keys st) with
  | None => (Err no_key, st)
  | Some existing =>
      match insert_key org app (ak_name existing) (ak_kind existing) (ak_environment existing) d (kt_keys st) with
      | Err e => (Err e, st)
      | Ok (row, raw, keys) =>
          let keys := (λ k, if bool_decide (ak_id k = key) && bool_decide (ak_organization_id k = org)
                            then revoke_row (dk_now d) k else k) <$> keys in
          (Ok (key_out row, raw), drop_cached (ak_key_prefix existing) (with_keys keys st))
      end
  end.
Definition rotate_key (rq : ApiRequest) (app key : uuid) (d : KeyDraws) := as_role Admin rq (rotate_key_handler app key d).

Definition revoke_key_handler (app key : uuid) (now : datetime) (p : Principal) (org : uuid) (st : KeyState)
  : result ApiError unit * KeyState :=
  let matches k := names_key org app key k && is_active k in
  match List.find matches (kt_keys st) with
  | None => (Err no_active_key, st)
  | Some existing =>
      let keys := (λ k, if matches k then revoke_row now k else k) <$> kt_keys st in
      (Ok tt, drop_cached (ak_key_prefix existing) (with_keys keys st))
  end.
Definition revoke_key (rq : ApiRequest) (app key : uuid) (now : datetime) := as_role Admin rq (revoke_key_handler app key now).
End Handlers.

(** ** apps.py *)

(** The reverse-DNS patterns; [$] also matches before a final line break. *)
Definition label_of (first rest : N → bool) (s : pystr) : bool :=
  match s with [] => false | c :: s => first c && forallb rest s end.
Definition without_break (s : pystr) : pystr :=
  match last s with Some 10%N => removelast s | _ => s end.
Definition reverse_dns (first rest : N → bool) (s : pystr) : bool :=
  let parts := py_split 46 (without_break s) in (2 <=? length parts)%nat && forallb (label_of first rest) parts.

Definition is_letter (c : N) : bool := is_upper_ascii c || is_lower_ascii c.
Definition ANDROID_PACKAGE : pystr → bool := reverse_dns is_letter (λ c, is_alnum_ascii c || N.eqb c 95).
Definition IOS_BUNDLE : pystr → bool := reverse_dns is_alnum_ascii (λ c, is_alnum_ascii c || N.eqb c 45).

Definition PLATFORMS : list pystr := [py "android"; py "ios"; py "cross_platform"].
Definition APP_STATUSES : list pystr := [active; py "paused"; disabled].

Record AppCreate := {
  ac_name : pystr;
  ac_platform : pystr;
  ac_android_package_name : option pystr;
  ac_ios_bundle_id : option pystr;
  ac_timezone : pystr;
  ac_install_window_days : Z;
  ac_event_window_days : Z
}.

Definition days_ok (hi d : Z) : bool := (1 <=? d) && (d <=? hi).

Definition app_body_ok (b : AppCreate) : bool :=
  sized 1 255 (ac_name b) && bool_decide (ac_platform b ∈ PLATFORMS) &&
  opt_ok ANDROID_PACKAGE (ac_android_package_name b) && opt_ok IOS_BUNDLE (ac_ios_bundle_id b) &&
  days_ok 30 (ac_install_window_days b) && days_ok 90 (ac_event_window_days b).

Record AppUpdate := {
  up_name : patch pystr;
  up_timezone : patch pystr;
  up_status : patch pystr;
  up_install_window_days : patch Z;
  up_event_window_days : patch Z
}.

Definition app_update_ok (b : AppUpdate) : bool :=
  set_ok (sized 1 255) (up_name b) && set_ok (λ s, bool_decide (s ∈ APP_STATUSES)) (up_status b) &&
  set_ok (days_ok 30) (up_install_window_days b) && set_ok (days_ok 90) (up_event_window_days b).

Definition nothing_set (b : AppUpdate) : bool :=
  negb (is_set (up_name b) || is_set (up_timezone b) || is_set (up_status b) || is_set (up_install_window_days b) ||
        is_set (up_event_window_days b)).

Definition later_app (a b : AppRow) : Prop := apr_created_at b <= apr_created_at a.
#[export] Instance later_app_dec a b : base.Decision (later_app a b).
Proof. unfold later_app. apply _. Defined.

(** The UPDATE on one row: columns that take no null, a time zone of at most 64 characters. *)
Definition update_row (b : AppUpdate) (a : AppRow) : result ApiError AppRow :=
  let* name := patched (pg_text 255) (apr_name a) (up_name b) in
  let* timezone := patched (pg_text 64) (apr_timezone a) (up_timezone b) in
  let* status := patched (λ _, true) (apr_status a) (up_status b) in
  let* install := patched (λ _, true) (apr_install_window_days a) (up_install_window_days b) in
  let* event := patched (λ _, true) (apr_event_window_days a) (up_event_window_days b) in
  Ok {| apr_id := apr_id a; apr_organization_id := apr_organization_id a; apr_name := name;
        apr_platform := apr_platform a; apr_android_package_name := apr_android_package_name a;
        apr_ios_bundle_id := apr_ios_bundle_id a; apr_timezone := timezone; apr_status := status;
        apr_install_window_days := install; apr_event_window_days := event;
        apr_session_timeout_minutes := apr_session_timeout_minutes a; apr_consent_mode := apr_consent_mode a;
        apr_created_at := apr_created_at a |}.

Definition replace_app (row : AppRow) (apps : list AppRow) : list AppRow :=
  (λ a, if bool_decide (apr_id a = apr_id row) then row else a) <$> apps.

Definition disable_row (a : AppRow) : AppRow :=
  {| apr_id := apr_id a; apr_organization_id := apr_organization_id a; apr_name := apr_name a;
     apr_platform := apr_platform a; apr_android_package_name := apr_android_package_name a;
     apr_ios_bundle_id := apr_ios_bundle_id a; apr_timezone := apr_timezone a; apr_status := disabled;
     apr_install_window_days := apr_install_window_days a; apr_event_window_days := apr_event_window_days a;
     apr_session_timeout_minutes := apr_session_timeout_minutes a; apr_consent_mode := apr_consent_mode a;
     apr_created_at := apr_created_at a |}.

Section AppHandlers.
Context {U : Unicode}.

Definition list_apps (rq : ApiRequest) :=
  as_role Viewer rq (reading (λ org st,
    Ok (merge_sort later_app (List.filter (λ a, bool_decide (apr_organization_id a = org)) (kt_apps st))))).

Definition create_app_handler (b : AppCreate) (id : uuid) (now : datetime) (p : Principal) (org : uuid) (st : KeyState)
  : result ApiError AppRow * KeyState :=
  match (let* _ := raise_if (negb (app_body_ok b)) invalid_body in
         let* _ := raise_if (bool_decide (ac_platform b ∈ [py "android"; py "cross_platform"]) &&
                             negb (truthy (ac_android_package_name b)))
                     (Http 422 (py "android_package_name is required for this platform")) in
         let* _ := raise_if (bool_decide (ac_platform b ∈ [py "ios"; py "cross_platform"]) &&
                             negb (truthy (ac_ios_bundle_id b)))
                     (Http 422 (py "ios_bundle_id is required for this platform")) in
         raise_if (negb (pg_text 255 (ac_name b) && pg_text 64 (ac_timezone b) &&
                         opt_ok (pg_text 255) (ac_android_package_name b) && opt_ok (pg_text 255) (ac_ios_bundle_id b)) ||
                   existsb (λ a, bool_decide (apr_id a = id)) (kt_apps st)) Crash) with
  | Err e => (Err e, st)
  | Ok _ =>
      let row := {| apr_id := id; apr_organization_id := org; apr_name := ac_name b; apr_platform := ac_platform b;
                    apr_android_package_name := ac_android_package_name b; apr_ios_bundle_id := ac_ios_bundle_id b;
                    apr_timezone := ac_timezone b; apr_status := active;
                    apr_install_window_days := ac_install_window_days b;
                    apr_event_window_days := ac_event_window_days b; apr_session_timeout_minutes := 30;
                    apr_consent_mode := py "permissive"; apr_created_at := now |} in
      (Ok row, with_apps (kt_apps st ++ [row]) st)
  end.
Definition create_app (rq : ApiRequest) (b : AppCreate) (id : uuid) (now : datetime) :=
  as_role Admin rq (create_app_handler b id now).

Definition get_app_handler (app org : uuid) (st : KeyState) : result ApiError AppRow :=
  or_raise no_app (find_app org app (kt_apps st)).
Definition get_app (rq : ApiRequest) (app : uuid) := as_role Viewer rq (reading (get_app_handler app)).

Definition update_app_handler (app : uuid) (b : AppUpdate) (p : Principal) (org : uuid) (st : KeyState)
  : result ApiError AppRow * KeyState :=
  if negb (app_update_ok b) then (Err invalid_body, st)
  else if nothing_set b then (get_app_handler app org st, st)
  else
    match (let* _ := raise_if (sets_nul (up_name b) || sets_nul (up_timezone b)) Crash in
           let* a := or_raise no_app (find_app org app (kt_apps st)) in
           update_row b a) with
    | Err e => (Err e, st)
    | Ok row => (Ok row, notify app (with_apps (replace_app row (kt_apps st)) st))
    end.
Definition update_app (rq : ApiRequest) (app : uuid) (b : AppUpdate) := as_role Admin rq (update_app_handler app b).

(** Disabling clears the cached record of every active key of the app. *)
Definition disable_app_handler (app : uuid) (p : Principal) (org : uuid) (st : KeyState) : result ApiError unit * KeyState :=
  match find_app org app (kt_apps st) with
  | None => (Err no_app, st)
  | Some a =>
      let st := with_apps (replace_app (disable_row a) (kt_apps st)) st in
      let prefixes := ak_key_prefix <$> active_keys org app (kt_keys st) in
      (Ok tt, notify app (foldr drop_cached st prefixes))
  end.
Definition disable_app (rq : ApiRequest) (app : uuid) := as_role Admin rq (disable_app_handler app).
End AppHandlers.

(** ** Histories *)

Inductive key_op :=
| CreateApp (rq : ApiRequest) (b : AppCreate) (id : uuid) (now : datetime)
| UpdateApp (rq : ApiRequest) (app : uuid) (b : AppUpdate)
| DisableApp (rq : ApiRequest) (app : uuid)
| CreateKey (rq : ApiRequest) (app : uuid) (b : ApiKeyCreate) (d : KeyDraws)
| RotateKey (rq : ApiRequest) (app key : uuid) (d : KeyDraws)
| RevokeKey (rq : ApiRequest) (app key : uuid) (now : datetime)
| Authenticate (now : datetime) (presented : pystr)
(* what the endpoints of accounts, sessions and organisations do *)
| Accounts (api : ApiState).

Section Histories.
Context {U : Unicode} {H : Hmac} (pepper : pystr).

Definition key_step (s : ApiState * KeyState) (op : key_op) : ApiState * KeyState :=
  let '(api, st) := s in
  match op with
  | CreateApp rq b id now => let '(_, api, st) := create_app rq b id now api st in (api, st)
  | UpdateApp rq app b => let '(_, api, st) := update_app rq app b api st in (api, st)
  | DisableApp rq app => let '(_, api, st) := disable_app rq app api st in (api, st)
  | CreateKey rq app b d => let '(_, api, st) := create_key pepper rq app b d api st in (api, st)
  | RotateKey rq app key d => let '(_, api, st) := rotate_key pepper rq app key d api st in (api, st)
  | RevokeKey rq app key now => let '(_, api, st) := revoke_key rq app key now api st in (api, st)
  | Authenticate now presented =>
      (api, with_cache (snd (authenticate (key_rows st) (kt_cache st) now pepper presented)) st)
  | Accounts api => (api, st)
  end.

Definition key_run (ops : list key_op) (s : ApiState * KeyState) : ApiState * KeyState := fold_left key_step ops s.

(** The twelve characters a new key is found by are its own. *)
Definition fresh_draw (op : key_op) (st : KeyState) : Prop :=
  match op with
  | CreateKey _ _ _ d | RotateKey _ _ _ d => dk_prefix d ∉ ak_key_prefix <$> kt_keys st
  | _ => True
  end.
Fixpoint fresh_run (ops : list key_op) (s : ApiState * KeyState) : Prop :=
  match ops with [] => True | op :: ops => fresh_draw op (snd s) ∧ fresh_run ops (key_step s op) end.

(** ** The invariant *)

(** A cached record that lets the holder of a key in. *)
Definition caches (st : KeyState) (prefix : pystr) (r : AuthRecord) : Prop :=
  ∃ e, kt_cache st !! api_key_cache_key prefix = Some e ∧ e_value e = Some r.

Record describes (k : ApiKeyRow) (r : AuthRecord) : Prop := {
  de_app : au_app_id r = str_of_uuid (ak_app_id k);
  de_organization : au_organization_id r = str_of_uuid (ak_organization_id k);
  de_environment : au_environment r = ak_environment k;
  de_kind : au_kind r = ak_kind k;
  de_hash : au_key_hash r = ak_key_hash k
}.

Record keys_ok (st : KeyState) : Prop := {
  ks_apps : NoDup (apr_id <$> kt_apps st);
  ks_ids : NoDup (ak_id <$> kt_keys st);
  ks_prefixes : NoDup (ak_key_prefix <$> kt_keys st);
  ks_owner : ∀ k, k ∈ kt_keys st → (ak_app_id k, ak_organization_id k) ∈ (λ a, (apr_id a, apr_organization_id a)) <$> kt_apps st;
  ks_cache : ∀ prefix r, caches st prefix r →
    ∃ k, k ∈ kt_keys st ∧ ak_key_prefix k = prefix ∧ ak_status k = active ∧ describes k r
}.

Lemma cache_key_inj p q : api_key_cache_key p = api_key_cache_key q → p = q.
Proof. unfold api_key_cache_key. apply (inj (app (py "apikey:"))). Qed.

Lemma key_rows_elem st row :
  row ∈ key_rows st ↔ ∃ k a, k ∈ kt_keys st ∧ List.find (λ a, bool_decide (apr_id a = ak_app_id k)) (kt_apps st) = Some a ∧
    key_row (kt_apps st) k = Some row ∧ k_app_status row = apr_status a.
Proof.
  unfold key_rows. rewrite list_elem_of_omap. split.
  - intros (k & Hk & E). unfold key_row in E. destruct (List.find _ _) as [a|] eqn:Ef; [| done].
    exists k, a. split; [done |]. split; [done |]. unfold key_row. rewrite Ef. by injection E as <-.
  - intros (k & a & Hk & _ & E & _). by exists k.
Qed.

Lemma key_row_describes apps k row :
  key_row apps k = Some row →
  describes k (auth_record_of row) ∧ k_prefix row = ak_key_prefix k ∧ k_status row = ak_status k.
Proof.
  unfold key_row. destruct (List.find _ _) as [a|]; [| done]. intros [= <-]. by split.
Qed.

(** What an authentication leaves in the cache is a record of an active key. *)
Lemma authenticate_caches st now presented prefix r :
  let st' := with_cache (snd (authenticate (key_rows st) (kt_cache st) now pepper presented)) st in
  caches st' prefix r →
  caches st prefix r ∨ ∃ k row, k ∈ kt_keys st ∧ key_row (kt_apps st) k = Some row ∧ ak_key_prefix k = prefix ∧
    ak_status k = active ∧ r = auth_record_of row.
Proof.
  intros st'. unfold st', caches. cbn [with_cache kt_cache]. unfold authenticate. destruct (parse_key presented) as [pk|]; [| by left]. cbv zeta.
  destruct (rget now _ _) as [[rec|]|]; [by left.. |]. unfold load_key.
  destruct (lookup_key _ _) as [row|] eqn:El; cbn [snd]; intros (e & He & Hv); unfold rset_ex in He.
  - destruct (decide (pk_prefix pk = prefix)) as [<-|Hne].
    + rewrite lookup_insert_eq in He. injection He as <-. cbn in Hv. injection Hv as <-. right.
      apply find_elem in El as [(k & a & Hk & _ & Er & _)%key_rows_elem Hb]. bprop.
      destruct (key_row_describes _ _ _ Er) as (_ & E1 & E2). exists k, row. rewrite E1, E2 in *. done.
    + rewrite lookup_insert_ne in He by (intros E%cache_key_inj; congruence). left. by exists e.
  - destruct (decide (pk_prefix pk = prefix)) as [<-|Hne].
    + rewrite lookup_insert_eq in He. injection He as <-. done.
    + rewrite lookup_insert_ne in He by (intros E%cache_key_inj; congruence). left. by exists e.
Qed.

Lemma drop_caches_less st prefix p r : caches (drop_cached p st) prefix r → prefix ≠ p ∧ caches st prefix r.
Proof.
  intros (e & He & Hv). unfold drop_cached, rdel in He. cbn [with_cache kt_cache] in He. destruct (decide (prefix = p)) as [->|Hne].
  - by rewrite lookup_delete_eq in He.
  - split; [done |]. rewrite lookup_delete_ne in He by (intros E%cache_key_inj; congruence). by exists e.
Qed.

(** *** It is kept *)

(** The keys change by additions with a fresh prefix and by revocations; where a key is
    revoked its cached record is gone. *)
Lemma keys_ok_insert st org app name kind env d row raw keys :
  keys_ok st → dk_prefix d ∉ ak_key_prefix <$> kt_keys st →
  (app, org) ∈ (λ a, (apr_id a, apr_organization_id a)) <$> kt_apps st →
  insert_key pepper org app name kind env d (kt_keys st) = Ok (row, raw, keys) →
  keys_ok (with_keys keys st) ∧ keys = kt_keys st ++ [row] ∧ ak_id row = dk_id d ∧ dk_id d ∉ ak_id <$> kt_keys st.
Proof.
  intros [Ha Hi Hp Ho Hc] Hf Happ. unfold insert_key, generate_key. destruct (od_get env _) as [tag|]; [| done].
  destruct (existsb _ _) eqn:Ee; [done |]. destruct (negb (pg_text 120 name)); [done |]. cbn [orb].
  intros E. apply Ok_inj in E. injection E as Er _ <-.
  assert (dk_id d ∉ ak_id <$> kt_keys st) as Hid.
  { intros (k & Ek & Hk)%list_elem_of_fmap. apply not_true_iff_false in Ee. apply Ee, existsb_exists. exists k.
    rewrite <- list_elem_of_In. split; [done |]. by apply bool_decide_eq_true. }
  subst row. split; [| done]. split; cbn [with_keys kt_apps kt_keys kt_cache]; [done | | | |].
  - rewrite fmap_app. cbn. apply NoDup_app. split; [done |]. split; [| apply NoDup_singleton].
    intros x Hx ->%list_elem_of_singleton. done.
  - rewrite fmap_app. cbn. apply NoDup_app. split; [done |]. split; [| apply NoDup_singleton].
    intros x Hx ->%list_elem_of_singleton. done.
  - intros k [Hk| ->%list_elem_of_singleton]%elem_of_app; [by apply Ho | done].
  - intros p r Hr. destruct (Hc p r Hr) as (k & Hk & ?). exists k. split; [| done]. apply elem_of_app. by left.
Qed.

Lemma keys_ok_revoke st now (m : ApiKeyRow → bool) prefix :
  keys_ok st → (∀ k, k ∈ kt_keys st → m k = true → ak_key_prefix k = prefix) →
  keys_ok (drop_cached prefix (with_keys ((λ k, if m k then revoke_row now k else k) <$> kt_keys st) st)).
Proof.
  intros [Ha Hi Hp Ho Hc] Hm. split; cbn [drop_cached with_cache with_keys kt_apps kt_keys]; [done | | | |].
  - rewrite <- list_fmap_compose. erewrite list_fmap_ext; [exact Hi |]. intros i k _. cbn. by destruct (m k).
  - rewrite <- list_fmap_compose. erewrite list_fmap_ext; [exact Hp |]. intros i k _. cbn. by destruct (m k).
  - intros k (k' & -> & Hk)%list_elem_of_fmap. destruct (m k'); by apply Ho in Hk.
  - intros p r [Hne Hr]%drop_caches_less. destruct (Hc p r) as (k & Hk & Hp' & Hs & Hd).
    + destruct Hr as (e & ? & ?). by exists e.
    + exists k. split; [| done]. apply list_elem_of_fmap. exists k. split; [| done].
      destruct (m k) eqn:Em; [| done]. by rewrite (Hm k Hk Em) in Hp'.
Qed.

Lemma find_key_spec org app key keys k :
  find_key org app key keys = Some k → k ∈ keys ∧ ak_id k = key ∧ ak_app_id k = app ∧ ak_organization_id k = org.
Proof. intros [Hin Hb]%find_elem. unfold names_key in Hb. by bprop. Qed.

Lemma find_app_spec org app apps a :
  find_app org app apps = Some a → a ∈ apps ∧ apr_id a = app ∧ apr_organization_id a = org.
Proof. intros [Hin Hb]%find_elem. by bprop. Qed.

Lemma find_app_owner org app apps a :
  find_app org app apps = Some a → (app, org) ∈ (λ a, (apr_id a, apr_organization_id a)) <$> apps.
Proof. intros (Hin & <- & <-)%find_app_spec. apply list_elem_of_fmap. by exists a. Qed.

Lemma replace_app_ids row apps : apr_id <$> replace_app row apps = apr_id <$> apps.
Proof.
  unfold replace_app. rewrite <- list_fmap_compose. apply list_fmap_ext. intros i a _. cbn. by case_bool_decide.
Qed.

(** Only the columns an application may change. *)
Lemma keys_ok_replace st row a :
  keys_ok st → a ∈ kt_apps st → apr_id row = apr_id a → apr_organization_id row = apr_organization_id a →
  keys_ok (with_apps (replace_app row (kt_apps st)) st).
Proof.
  intros [Ha Hi Hp Ho Hc] Hin E1 E2. split; cbn [with_apps kt_apps kt_keys]; [by rewrite replace_app_ids | done | done | |].
  - intros k (a' & Ek & Ha')%Ho%list_elem_of_fmap. apply list_elem_of_fmap.
    destruct (decide (apr_id a' = apr_id row)) as [Er|Er].
    + exists row. split; [| apply list_elem_of_fmap; exists a'; by rewrite bool_decide_true].
      assert (a' = a) as -> by (eapply (NoDup_fmap_elem apr_id); [exact Ha | done | done | congruence]). by rewrite E1, E2.
    + exists a'. split; [done |]. apply list_elem_of_fmap. exists a'. by rewrite bool_decide_false.
  - intros p r Hr. by apply Hc.
Qed.

Lemma update_row_ids b a row :
  update_row b a = Ok row → apr_id row = apr_id a ∧ apr_organization_id row = apr_organization_id a.
Proof.
  intros (n & _ & (t & _ & (s & _ & (i & _ & (v & _ & <-%Ok_inj)%rbind_Ok)%rbind_Ok)%rbind_Ok)%rbind_Ok)%rbind_Ok. done.
Qed.

Lemma after_request {A} (x : result ApiError A * ApiState * KeyState) : snd (let '(_, api, st) := x in (api, st)) = snd x.
Proof. by destruct x as [[]]. Qed.

Lemma keys_ok_drop st prefix : keys_ok st → keys_ok (drop_cached prefix st).
Proof.
  intros Hok. pose proof (keys_ok_revoke st 0 (λ _, false) prefix Hok) as Hr. cbn in Hr. rewrite list_fmap_id in Hr.
  destruct st. by apply Hr.
Qed.

Lemma create_key_ok app b d p org st :
  keys_ok st → dk_prefix d ∉ ak_key_prefix <$> kt_keys st → keys_ok (snd (create_key_handler pepper app b d p org st)).
Proof.
  intros Hok Hf. unfold create_key_handler. destruct (rbind _ _) as [[[row raw] keys]|e] eqn:E; [| done].
  apply rbind_Ok in E as (_ & _ & (a & Ha%or_raise_Ok & (_ & _ & E)%rbind_Ok)%rbind_Ok).
  eapply keys_ok_insert in E; [apply E | done | done | by eapply find_app_owner].
Qed.

Lemma rotate_key_ok app key d p org st :
  keys_ok st → dk_prefix d ∉ ak_key_prefix <$> kt_keys st → keys_ok (snd (rotate_key_handler pepper app key d p org st)).
Proof.
  intros Hok Hf. unfold rotate_key_handler. destruct (find_key _ _ _ _) as [k|] eqn:Ek; [| done].
  destruct (insert_key _ _ _ _ _ _ _ _) as [[[row raw] keys]|e] eqn:Ei; [| done].
  apply find_key_spec in Ek as (Hin & E1 & E2 & E3).
  apply keys_ok_insert in Ei as (Hok' & -> & Hid & Hn); [| done | done |].
  - apply (keys_ok_revoke _ (dk_now d) _ (ak_key_prefix k) Hok'). cbn [with_keys kt_keys]. intros k' Hk' Hm. bprop.
    apply elem_of_app in Hk' as [Hk'| ->%list_elem_of_singleton].
    + f_equal. eapply (NoDup_fmap_elem ak_id); [apply Hok | done | done | congruence].
    + destruct Hn. apply list_elem_of_fmap. exists k. split; [congruence | done].
  - rewrite <- E2, <- E3. by apply (ks_owner st Hok).
Qed.

Lemma revoke_key_ok app key now p org st : keys_ok st → keys_ok (snd (revoke_key_handler app key now p org st)).
Proof.
  intros Hok. unfold revoke_key_handler. cbv zeta. destruct (List.find _ _) as [k|] eqn:Ek; [| done].
  apply find_elem in Ek as [Hin Hb]. cbn [snd]. apply keys_ok_revoke; [done |]. intros k' Hk' Hm.
  unfold names_key in *. bprop. f_equal. eapply (NoDup_fmap_elem ak_id); [apply Hok | done | done | congruence].
Qed.

Lemma create_app_ok b id now p org st : keys_ok st → keys_ok (snd (create_app_handler b id now p org st)).
Proof.
  intros [Ha Hi Hp Ho Hc]. unfold create_app_handler. destruct (rbind _ _) as [[]|e] eqn:E; [| by split].
  apply rbind_Ok in E as (_ & _ & (_ & _ & (_ & _ & E)%rbind_Ok)%rbind_Ok).
  apply raise_if_Ok, orb_false_iff in E as [_ E].
  cbn [snd]. split; cbn [with_apps kt_apps kt_keys]; [| done | done | | done].
  - rewrite fmap_app. cbn. apply NoDup_app. split; [done |]. split; [| apply NoDup_singleton].
    intros x (a & -> & Hin)%list_elem_of_fmap Hx%list_elem_of_singleton. apply not_true_iff_false in E.
    apply E, existsb_exists. exists a. rewrite <- list_elem_of_In. split; [done |]. by apply bool_decide_eq_true.
  - intros k Hk. rewrite fmap_app. apply elem_of_app. left. by apply Ho.
Qed.

Lemma update_app_ok app b p org st : keys_ok st → keys_ok (snd (update_app_handler app b p org st)).
Proof.
  intros Hok. unfold update_app_handler. destruct (negb (app_update_ok b)); [done |]. destruct (nothing_set b); [done |].
  destruct (rbind _ _) as [row|e] eqn:E; [| done].
  apply rbind_Ok in E as (_ & _ & (a & (Hin & _)%or_raise_Ok%find_app_spec & [E1 E2]%update_row_ids)%rbind_Ok).
  destruct (keys_ok_replace st row a Hok Hin E1 E2) as [? ? ? ? ?]. by split.
Qed.

Lemma dropped_ok prefixes st : keys_ok st → keys_ok (foldr drop_cached st prefixes).
Proof. intros Hok. induction prefixes; [done |]. by apply keys_ok_drop. Qed.

Lemma disable_app_ok app p org st : keys_ok st → keys_ok (snd (disable_app_handler app p org st)).
Proof.
  intros Hok. unfold disable_app_handler. destruct (find_app _ _ _) as [a|] eqn:Ea; [| done].
  apply find_app_spec in Ea as (Hin & _). cbn [snd]. unfold notify.
  destruct (dropped_ok (ak_key_prefix <$> active_keys org app (kt_keys st)) _
              (keys_ok_replace st (disable_row a) a Hok Hin eq_refl eq_refl)) as [? ? ? ? ?].
  by split.
Qed.

Lemma authenticate_ok st now presented :
  keys_ok st → keys_ok (with_cache (snd (authenticate (key_rows st) (kt_cache st) now pepper presented)) st).
Proof.
  intros [Ha Hi Hp Ho Hc]. split; [done.. |]. intros p r [Hr|(k & row & Hk & Er & Ep & Es & ->)]%authenticate_caches.
  - by apply Hc.
  - exists k. destruct (key_row_describes _ _ _ Er) as [? _]. done.
Qed.

Lemma key_step_ok s op : keys_ok (snd s) → fresh_draw op (snd s) → keys_ok (snd (key_step s op)).
Proof.
  destruct s as [api st]. intros Hok Hf. unfold key_step.
  destruct op; rewrite ?after_request;
    unfold create_app, update_app, disable_app, create_key, rotate_key, revoke_key;
    try (apply as_role_keeps; [done | intros p org]).
  - by apply create_app_ok.
  - by apply update_app_ok.
  - by apply disable_app_ok.
  - by apply create_key_ok.
  - by apply rotate_key_ok.
  - by apply revoke_key_ok.
  - by apply authenticate_ok.
  - done.
Qed.

Lemma key_run_ok ops s : keys_ok (snd s) → fresh_run ops s → keys_ok (snd (key_run ops s)).
Proof.
  revert s. induction ops as [|op ops IH]; intros s Hok; [done |]. intros [Hf Hr]. apply IH; [| done].
  by apply key_step_ok.
Qed.

(** ** Issued keys *)

Lemma insert_key_spec org app name kind env d keys row raw keys' :
  insert_key pepper org app name kind env d keys = Ok (row, raw, keys') →
  ∃ gk, generate_key env pepper (dk_prefix d) (dk_secret d) = Ok gk ∧ raw = gk_raw gk ∧ keys' = keys ++ [row] ∧
    ak_id row = dk_id d ∧ ak_app_id row = app ∧ ak_organization_id row = org ∧ ak_environment row = env ∧
    ak_key_prefix row = dk_prefix d ∧ ak_key_hash row = gk_key_hash gk ∧ ak_status row = active.
Proof.
  unfold insert_key. destruct (generate_key _ _ _ _) as [gk|] eqn:Eg; [| done]. destruct (_ || _); [done |].
  intros E. apply Ok_inj in E. injection E as <- <- <-. exists gk. split_and!; try done.
  unfold generate_key in Eg. destruct (od_get env _); [| done]. by apply Ok_inj in Eg as <-.
Qed.

Lemma lookup_key_unique st k row prefix :
  k ∈ kt_keys st → NoDup (ak_key_prefix <$> kt_keys st) → key_row (kt_apps st) k = Some row →
  ak_key_prefix k = prefix → ak_status k = active → lookup_key (key_rows st) prefix = Some row.
Proof.
  intros Hk Hn Er Ep Es. unfold lookup_key. destruct (key_row_describes _ _ _ Er) as (_ & E1 & E2).
  destruct (List.find _ _) as [row'|] eqn:Ef.
  - apply find_elem in Ef as [(k' & a & Hk' & _ & Er' & _)%key_rows_elem Hb]. bprop.
    destruct (key_row_describes _ _ _ Er') as (_ & E1' & _).
    assert (k' = k) as -> by (eapply (NoDup_fmap_elem ak_key_prefix); [exact Hn | done | done | congruence]). congruence.
  - eapply find_none_iff in Ef; [| apply list_elem_of_omap; by exists k]. rewrite E1, E2, Ep, Es, !bool_decide_true in Ef; done.
Qed.

(** A key whose row is active in an active application, with nothing cached for its prefix. *)
Lemma row_authenticates st k gk env d now :
  keys_ok st → k ∈ kt_keys st → ak_status k = active → ak_environment k = env → ak_key_prefix k = dk_prefix d →
  is_token PREFIX_LENGTH (dk_prefix d) → is_token SECRET_LENGTH (dk_secret d) →
  generate_key env pepper (dk_prefix d) (dk_secret d) = Ok gk → ak_key_hash k = gk_key_hash gk →
  rget now (api_key_cache_key (dk_prefix d)) (kt_cache st) = None →
  (∃ a, a ∈ kt_apps st ∧ apr_id a = ak_app_id k ∧ apr_status a = active) →
  ∃ r, fst (authenticate (key_rows st) (kt_cache st) now pepper (gk_raw gk)) = Ok r ∧ describes k r.
Proof.
  intros Hok Hk Es Ee Ep Hp Hs Hg Eh Hc (a & Ha & Ea & Eas).
  destruct (proj1 (parse_generated_key pepper) env _ _ gk Hp Hs Hg) as [Hparse Hver].
  assert (List.find (λ a, bool_decide (apr_id a = ak_app_id k)) (kt_apps st) = Some a) as Hf.
  { destruct (List.find _ _) as [a'|] eqn:Ef.
    - apply find_elem in Ef as [Ha' Hb]. bprop. f_equal.
      eapply (NoDup_fmap_elem apr_id); [apply Hok | done | done | congruence].
    - eapply find_none_iff in Ef; [| exact Ha]. by rewrite bool_decide_true in Ef. }
  destruct (key_row (kt_apps st) k) as [row|] eqn:Er; [| by unfold key_row in Er; rewrite Hf in Er].
  destruct (key_row_describes _ _ _ Er) as (Hd & _ & _). exists (auth_record_of row). split; [| done].
  unfold authenticate. rewrite Hparse. cbv zeta. cbn [pk_prefix]. rewrite Hc. unfold load_key.
  rewrite (lookup_key_unique st k row) by (done || apply Hok). cbn [fst rbind]. unfold check_record.
  cbn [pk_secret pk_environment]. rewrite (de_hash _ _ Hd), Eh, Hver. cbn [negb].
  rewrite (de_environment _ _ Hd), Ee, bool_decide_true by done. cbn [negb].
  unfold key_row in Er. rewrite Hf in Er. injection Er as <-. cbn [auth_record_of au_app_status k_app_status].
  by rewrite Eas, bool_decide_true.
Qed.

(** A creation, or the rotation of a key. *)
Definition issue (rq : ApiRequest) (app : uuid) (how : ApiKeyCreate + uuid) (d : KeyDraws) :=
  match how with inl b => create_key pepper rq app b d | inr key => rotate_key pepper rq app key d end.

Lemma issue_spec rq app how d api st out raw api' st' :
  keys_ok st → dk_prefix d ∉ ak_key_prefix <$> kt_keys st →
  issue rq app how d api st = (Ok (out, raw), api', st') →
  keys_ok st' ∧ kt_apps st' = kt_apps st ∧
  (∃ row gk, row ∈ kt_keys st' ∧ generate_key (ak_environment row) pepper (dk_prefix d) (dk_secret d) = Ok gk ∧
     raw = gk_raw gk ∧ ak_app_id row = app ∧ ak_key_prefix row = dk_prefix d ∧ ak_key_hash row = gk_key_hash gk ∧
     ak_status row = active ∧ out = key_out row) ∧
  (∀ k, k ∈ kt_keys st → (∀ key, how = inr key → ak_id k ≠ key) → k ∈ kt_keys st') ∧
  (∀ key k, how = inr key → k ∈ kt_keys st' → ak_id k = key → ak_status k = revoked) ∧
  (∀ k, kt_cache st !! k = None → kt_cache st' !! k = None).
Proof.
  intros Hok Hf E. assert (keys_ok st') as Hok'.
  { destruct how as [b|key]; apply as_role_Ok in E as (p & org & _ & E).
    - pose proof (create_key_ok app b d p org st Hok Hf) as Hk. by rewrite E in Hk.
    - pose proof (rotate_key_ok app key d p org st Hok Hf) as Hk. by rewrite E in Hk. }
  split; [done |]. destruct how as [b|key]; apply as_role_Ok in E as (p & org & _ & E).
  - unfold create_key_handler in E. destruct (rbind _ _) as [[[row raw'] keys]|e] eqn:Er; [| done].
    injection E as <- <- <-. apply rbind_Ok in Er as (_ & _ & (a & _ & (_ & _ & Er)%rbind_Ok)%rbind_Ok).
    destruct (insert_key_spec _ _ _ _ _ _ _ _ _ _ Er) as (gk & Hg & -> & -> & _ & Ha & _ & He & Hp & Hh & Hs).
    split; [done |]. cbn [with_keys kt_keys kt_cache]. split_and!; [| | done | done].
    + exists row, gk. rewrite He. split_and!; try done. apply elem_of_app. right. apply list_elem_of_here.
    + intros k Hk _. apply elem_of_app. by left.
  - unfold rotate_key_handler in E. destruct (find_key _ _ _ _) as [old|] eqn:Eo; [| done].
    destruct (insert_key _ _ _ _ _ _ _ _) as [[[row raw'] keys]|e] eqn:Er; [| done]. injection E as <- <- <-.
    apply find_key_spec in Eo as (Hin & Eid & Eapp & Eorg).
    assert ((app, org) ∈ (λ a, (apr_id a, apr_organization_id a)) <$> kt_apps st) as Hown
      by (rewrite <- Eapp, <- Eorg; by apply (ks_owner st Hok)).
    destruct (keys_ok_insert st _ _ _ _ _ _ _ _ _ Hok Hf Hown Er) as (_ & _ & _ & Hid).
    destruct (insert_key_spec _ _ _ _ _ _ _ _ _ _ Er) as (gk & Hg & -> & -> & Ei & Ha & Ho & He & Hp & Hh & Hs).
    split; [done |]. cbn [drop_cached with_cache with_keys kt_keys kt_cache]. split_and!.
    + exists row, gk. rewrite He. split_and!; try done. apply list_elem_of_fmap. exists row.
      rewrite bool_decide_false; [| intros E; destruct Hid; apply list_elem_of_fmap; exists old; split; [congruence | done]].
      split; [done |]. apply elem_of_app. right. apply list_elem_of_here.
    + intros k Hk Hne. apply list_elem_of_fmap. exists k. rewrite bool_decide_false by (by apply Hne).
      split; [done |]. apply elem_of_app. by left.
    + intros key' k [= <-] (k' & -> & Hk')%list_elem_of_fmap Ek. assert (ak_id k' = key) as Ek' by (by destruct (_ && _)).
      assert (k' = old) as ->.
      { apply elem_of_app in Hk' as [Hk'| ->%list_elem_of_singleton].
        - eapply (NoDup_fmap_elem ak_id); [apply Hok | done | done | congruence].
        - destruct Hid. apply list_elem_of_fmap. exists old. split; [congruence | done]. }
      by rewrite !bool_decide_true.
    + intros k Hk. apply lookup_delete_None. by right.
Qed.

(** The key a caller is handed works, and rotating never leaves one without: the raw key
    of a creation or of a rotation authenticates from then on as a key of that
    application; every other key of the table is still there as it was; and the key that
    was rotated is revoked. *)
Theorem issued_keys_work rq app how d api st out raw api' st' :
  keys_ok st → dk_prefix d ∉ ak_key_prefix <$> kt_keys st →
  is_token PREFIX_LENGTH (dk_prefix d) → is_token SECRET_LENGTH (dk_secret d) →
  kt_cache st !! api_key_cache_key (dk_prefix d) = None →
  (∃ a, a ∈ kt_apps st ∧ apr_id a = app ∧ apr_status a = active) →
  issue rq app how d api st = (Ok (out, raw), api', st') →
  (∀ now, ∃ r, fst (authenticate (key_rows st') (kt_cache st') now pepper raw) = Ok r ∧ au_app_id r = str_of_uuid app) ∧
  (∀ k, k ∈ kt_keys st → (∀ key, how = inr key → ak_id k ≠ key) → k ∈ kt_keys st') ∧
  (∀ key k, how = inr key → k ∈ kt_keys st' → ak_id k = key → ak_status k = revoked).
Proof.
  intros Hok Hf Hp Hs Hc Happ Hi.
  destruct (issue_spec _ _ _ _ _ _ _ _ _ _ Hok Hf Hi)
    as (Hok' & Ea & (row & gk & Hrow & Hg & -> & Eapp & Ep & Eh & Es & _) & Hkeep & Hrev & Hcache).
  split; [| by split]. intros now.
  destruct (row_authenticates st' row gk (ak_environment row) d now Hok' Hrow Es eq_refl Ep Hp Hs Hg Eh) as (r & Er & Hd).
  - unfold rget, peek. by rewrite Hcache.
  - by rewrite Ea, Eapp.
  - exists r. split; [done |]. by rewrite (de_app _ _ Hd), Eapp.
Qed.

(** ** Disabling an application *)

(** Nothing the tracker reads lets a key of the application in. *)
Record off (app : uuid) (st : KeyState) : Prop := {
  of_row : app ∈ apr_id <$> kt_apps st;
  of_status : ∀ a, a ∈ kt_apps st → apr_id a = app → apr_status a ≠ active;
  of_cache : ∀ k r, k ∈ kt_keys st → ak_app_id k = app → caches st (ak_key_prefix k) r → au_app_status r ≠ active
}.

Definition leaves_alone (app : uuid) (op : key_op) : Prop :=
  match op with UpdateApp _ app' _ => app' ≠ app | _ => True end.

Lemma off_keys app st keys :
  off app st → (∀ k, k ∈ keys → ∃ k', k' ∈ kt_keys st ∧ ak_app_id k = ak_app_id k' ∧ ak_key_prefix k = ak_key_prefix k') →
  off app (with_keys keys st).
Proof.
  intros [H1 H2 H3] Hk. split; [done | done |]. cbn [with_keys kt_keys]. intros k r (k' & Hk' & Ea & Ep)%Hk Hap Hr.
  rewrite Ea in Hap. rewrite Ep in Hr. by apply (H3 k').
Qed.

Lemma off_drop app st prefix : off app st → off app (drop_cached prefix st).
Proof.
  intros [H1 H2 H3]. split; [done | done |]. intros k r Hk Ha [_ Hr]%drop_caches_less. by apply (H3 k).
Qed.

Lemma off_inserted app st keys row org app' name kind env d raw :
  keys_ok st → off app st → dk_prefix d ∉ ak_key_prefix <$> kt_keys st →
  insert_key pepper org app' name kind env d (kt_keys st) = Ok (row, raw, keys) → off app (with_keys keys st).
Proof.
  intros Hok [H1 H2 H3] Hf (gk & _ & _ & -> & _ & _ & _ & _ & Hp & _)%insert_key_spec. split; [done | done |].
  cbn [with_keys kt_keys]. intros k r [Hk| ->%list_elem_of_singleton]%elem_of_app Ha Hr; [by apply (H3 k) |].
  destruct (ks_cache st Hok _ _ Hr) as (k & Hk & Ep & _). destruct Hf. apply list_elem_of_fmap. exists k. split; congruence.
Qed.

Lemma off_apps app st row :
  off app st → (apr_id row = app → apr_status row ≠ active) → off app (with_apps (replace_app row (kt_apps st)) st).
Proof.
  intros [H1 H2 H3] Hr. split; cbn [with_apps kt_apps]; [by rewrite replace_app_ids | | done].
  intros a (a' & -> & Ha')%list_elem_of_fmap. case_bool_decide as E; [done |]. by apply H2.
Qed.

Lemma off_dropped app prefixes st : off app st → off app (foldr drop_cached st prefixes).
Proof. intros Ho. induction prefixes; [done |]. by apply off_drop. Qed.

Lemma off_notify app app' st : off app st → off app (notify app' st).
Proof. intros [H1 H2 H3]. by split. Qed.

Lemma off_revoke app st now (m : ApiKeyRow → bool) prefix :
  off app st → off app (drop_cached prefix (with_keys ((λ k, if m k then revoke_row now k else k) <$> kt_keys st) st)).
Proof.
  intros Ho. apply off_drop, off_keys; [done |]. intros k (k' & -> & Hk')%list_elem_of_fmap. exists k'. by destruct (m k').
Qed.

Lemma off_step app s op :
  keys_ok (snd s) → fresh_draw op (snd s) → leaves_alone app op → off app (snd s) → off app (snd (key_step s op)).
Proof.
  destruct s as [api st]. intros Hok Hf Hl Ho. cbn [snd] in *. unfold key_step.
  destruct op; rewrite ?after_request;
    unfold create_app, update_app, disable_app, create_key, rotate_key, revoke_key;
    try (apply as_role_keeps; [done | intros p org]).
  - unfold create_app_handler. destruct (rbind _ _) as [[]|e] eqn:E; [| done].
    apply rbind_Ok in E as (_ & _ & (_ & _ & (_ & _ & E)%rbind_Ok)%rbind_Ok). apply raise_if_Ok, orb_false_iff in E as [_ E].
    destruct Ho as [H1 H2 H3]. split; cbn [snd with_apps kt_apps]; [rewrite fmap_app; apply elem_of_app; by left | | done].
    intros a [Ha| ->%list_elem_of_singleton]%elem_of_app; [by apply H2 |]. cbn. intros <-. exfalso.
    apply list_elem_of_fmap in H1 as (a & -> & Ha). apply not_true_iff_false in E. apply E, existsb_exists. exists a.
    rewrite <- list_elem_of_In, bool_decide_eq_true. done.
  - unfold update_app_handler. destruct (negb _); [done |]. destruct (nothing_set b); [done |].
    destruct (rbind _ _) as [row|e] eqn:E; [| done].
    apply rbind_Ok in E as (_ & _ & (a & (_ & Ea & _)%or_raise_Ok%find_app_spec & [E1 _]%update_row_ids)%rbind_Ok).
    apply off_notify, off_apps; [done |]. cbn in Hl. congruence.
  - unfold disable_app_handler. destruct (find_app _ _ _) as [a|] eqn:Ea; [| done].
    apply off_notify, off_dropped, off_apps; done.
  - unfold create_key_handler. destruct (rbind _ _) as [[[row raw] keys]|e] eqn:E; [| done].
    apply rbind_Ok in E as (_ & _ & (a & _ & (_ & _ & E)%rbind_Ok)%rbind_Ok). by eapply off_inserted.
  - unfold rotate_key_handler. destruct (find_key _ _ _ _) as [k|]; [| done].
    destruct (insert_key _ _ _ _ _ _ _ _) as [[[row raw] keys]|e] eqn:Ei; [| done].
    apply (off_revoke app (with_keys keys st)). by eapply off_inserted.
  - unfold revoke_key_handler. cbv zeta. destruct (List.find _ _) as [k|]; [| done]. by apply off_revoke.
  - destruct Ho as [H1 H2 H3]. split; [done | done |]. cbn [snd with_cache kt_keys].
    intros k r Hk Ha [Hr|(k' & row & Hk' & Er & Ep & _ & ->)]%authenticate_caches; [by apply (H3 k) |].
    assert (k' = k) as -> by (eapply (NoDup_fmap_elem ak_key_prefix); [apply Hok | done..]).
    unfold key_row in Er. destruct (List.find _ _) as [a|] eqn:Ef; [| done]. injection Er as <-.
    apply find_elem in Ef as [Hin Hb]. bprop. cbn. apply H2; [done | congruence].
  - done.
Qed.

Lemma off_run app ops s :
  keys_ok (snd s) → fresh_run ops s → Forall (leaves_alone app) ops → off app (snd s) →
  keys_ok (snd (key_run ops s)) ∧ off app (snd (key_run ops s)).
Proof.
  revert s. induction ops as [|op ops IH]; intros s Hok; [done |]. intros [Hf Hr] [Hl Hls]%Forall_cons Ho.
  apply IH; [by apply key_step_ok | done | done | by apply off_step].
Qed.

(** At the moment the handler returns. *)
Lemma disable_turns_off app p org st st' :
  keys_ok st → disable_app_handler app p org st = (Ok tt, st') → off app st'.
Proof.
  intros Hok. unfold disable_app_handler. destruct (find_app _ _ _) as [a|] eqn:Ea; [| done]. intros [= <-].
  apply find_app_spec in Ea as (Hin & Eid & Eorg). apply off_notify.
  set (st1 := with_apps _ st). set (prefixes := (ak_key_prefix <$> _)).
  assert (∀ l, kt_apps (foldr drop_cached st1 l) = kt_apps st1 ∧ kt_keys (foldr drop_cached st1 l) = kt_keys st1 ∧
    ∀ p r, caches (foldr drop_cached st1 l) p r → (p ∉ l) ∧ caches st1 p r) as Hl.
  { induction l as [|q l (I1 & I2 & I3)]; [split_and!; [done.. |]; intros p' r Hr; split; [apply not_elem_of_nil | done] |].
    split_and!; [done.. |]. intros p' r [Hne [Hn Hr]%I3]%drop_caches_less. split; [| done]. by apply not_elem_of_cons. }
  destruct (Hl prefixes) as (Hla & Hlk & Hc). split; rewrite ?Hla, ?Hlk; unfold st1; cbn [with_apps kt_apps kt_keys].
  - rewrite replace_app_ids, <- Eid. apply list_elem_of_fmap. by exists a.
  - intros a' (a0 & -> & Ha0)%list_elem_of_fmap. case_bool_decide as E; [done |]. cbn in E. intros; congruence.
  - intros k r Hk Ha [Hn Hr]%Hc. destruct Hn. unfold prefixes.
    destruct (ks_cache st Hok (ak_key_prefix k) r Hr) as (k' & Hk' & Ep & Es & _).
    assert (k' = k) as -> by (eapply (NoDup_fmap_elem ak_key_prefix); [apply Hok | done..]).
    apply list_elem_of_fmap. exists k. split; [done |]. apply elem_of_lfilter. split; [done |].
    pose proof (ks_owner st Hok k Hk) as (a0 & [= E1 E2] & Ha0)%list_elem_of_fmap.
    assert (a0 = a) as -> by (eapply (NoDup_fmap_elem apr_id); [apply Hok | done | done | congruence]).
    unfold is_active. rewrite !bool_decide_true by congruence. done.
Qed.

(** Disabling an application stops its ingestion at once: from the moment the request
    succeeds, and whatever happens afterwards but a PATCH of the application itself, no
    key of the application authenticates, cached or not, old or issued since. *)
Theorem disabled_app_takes_no_events api st rq app api' st' ops now presented pk k :
  keys_ok st → disable_app rq app api st = (Ok tt, api', st') →
  fresh_run ops (api', st') → Forall (leaves_alone app) ops →
  let st := snd (key_run ops (api', st')) in
  k ∈ kt_keys st → ak_app_id k = app → parse_key presented = Some pk → pk_prefix pk = ak_key_prefix k →
  ∃ e, fst (authenticate (key_rows st) (kt_cache st) now pepper presented) = Err e.
Proof.
  intros Hok (p & org & _ & Hd)%as_role_Ok Hf Hl st1 Hk Ha Hpk Ep.
  pose proof (disable_app_ok app p org st Hok) as Hok'. rewrite Hd in Hok'. cbn [snd] in Hok'.
  destruct (off_run app ops (api', st') Hok' Hf Hl (disable_turns_off _ _ _ _ _ Hok Hd)) as [Hok1 Hoff]. fold st1 in Hok1, Hoff.
  destruct (fst (authenticate _ _ _ _ _)) as [r|e] eqn:E; [exfalso | by exists e].
  destruct (authenticate_sound _ _ _ _ _ _ E) as (pk' & Hpk' & _ & _ & Hs & Hlive).
  assert (pk' = pk) as -> by congruence. rewrite Ep in Hlive.
  destruct Hlive as [Hc|(_ & row & (k' & a & Hk' & Hfa & Er & Ea)%key_rows_elem & E1 & _ & ->)].
  - apply (of_cache _ _ Hoff k r Hk Ha); [| done]. unfold rget, peek in Hc.
    destruct (kt_cache st1 !! _) as [e|] eqn:Ee; [| done]. destruct (live now e); [| done]. exists e. split; [done |].
    cbn in Hc. congruence.
  - destruct (key_row_describes _ _ _ Er) as (_ & E2 & _).
    assert (k' = k) as -> by (eapply (NoDup_fmap_elem ak_key_prefix); [apply Hok1 | done | done | congruence]).
    apply find_elem in Hfa as [Hin Hb]. bprop. apply (of_status _ _ Hoff a Hin); [congruence |]. by rewrite <- Ea.
Qed.
End Histories.

(** ** Commits, evictions and lookups, one at a time

    A handler deletes the cached record while its transaction is open; the transaction
    commits when the request ends.  The tracker reads the cache, then the table, then
    writes the cache.  Between any two of these, anything else may happen. *)

Inductive AuthTask :=
| AuthGet (presented : pystr)
| AuthQuery (presented : pystr) (parsed : ParsedKey)
| AuthSet (presented : pystr) (parsed : ParsedKey) (row : option KeyRow)
| AuthDone.

Section Interleaved.
Context {U : Unicode} {H : Hmac} (pepper : pystr).

(** The next command of [KeyAuthenticator.authenticate], and its answer once it has one. *)
Definition auth_step (now : datetime) (x : AuthTask) (db : list KeyRow) (redis : store (option AuthRecord))
    : AuthTask * option (pystr * result AuthError AuthRecord) * store (option AuthRecord) :=
  match x with
  | AuthGet presented =>
      match parse_key presented with
      | None => (AuthDone, Some (presented, Err MalformedKey), redis)
      | Some parsed =>
          match rget now (api_key_cache_key (pk_prefix parsed)) redis with
          | Some None => (AuthDone, Some (presented, Err KnownBadPrefix), redis)
          | Some (Some record) => (AuthDone, Some (presented, check_record record parsed pepper), redis)
          | None => (AuthQuery presented parsed, None, redis)
          end
      end
  | AuthQuery presented parsed => (AuthSet presented parsed (lookup_key db (pk_prefix parsed)), None, redis)
  | AuthSet presented parsed None =>
      (AuthDone, Some (presented, Err NoSuchKey),
       rset_ex now (api_key_cache_key (pk_prefix parsed)) None (int_total_seconds NEGATIVE_CACHE_TTL) redis)
  | AuthSet presented parsed (Some row) =>
      (AuthDone, Some (presented, check_record (auth_record_of row) parsed pepper),
       rset_ex now (api_key_cache_key (pk_prefix parsed)) (Some (auth_record_of row))
         (int_total_seconds AUTH_CACHE_TTL) redis)
  | AuthDone => (AuthDone, None, redis)
  end.

(** Alone, the commands are [authenticate]. *)
Fixpoint auth_alone (n : nat) (now : datetime) (x : AuthTask) (db : list KeyRow) (redis : store (option AuthRecord))
    : option (pystr * result AuthError AuthRecord) * store (option AuthRecord) :=
  match n with
  | O => (None, redis)
  | S n => match auth_step now x db redis with
           | (_, Some answer, redis) => (Some answer, redis)
           | (x, None, redis) => auth_alone n now x db redis
           end
  end.

Lemma auth_alone_is_authenticate now presented db redis :
  auth_alone 3 now (AuthGet presented) db redis =
  let (r, redis) := authenticate db redis now pepper presented in (Some (presented, r), redis).
Proof.
  unfold authenticate. cbn. destruct (parse_key presented) as [parsed|]; [| done].
  destruct (rget now _ redis) as [[rec|]|]; cbn; [done.. |]. unfold load_key.
  by destruct (lookup_key db (pk_prefix parsed)).
Qed.

(** What a request's transaction leaves in the tables when it commits; the cache is not
    its business. *)
Definition commit (op : key_op) (s : ApiState * KeyState) : ApiState * KeyState :=
  let '(api, st) := key_step pepper (fst s, with_cache ∅ (snd s)) op in (api, with_cache (kt_cache (snd s)) st).

(** A revocation is its eviction and its commit. *)
Lemma revocation_splits rq app key now api st :
  let '(api', st') := key_step pepper (api, st) (RevokeKey rq app key now) in
  let '(api1, st1) := commit (RevokeKey rq app key now) (api, st) in
  api' = api1 ∧ kt_apps st' = kt_apps st1 ∧ kt_keys st' = kt_keys st1 ∧
  (kt_cache st' = kt_cache st ∨
   ∃ org k, List.find (λ k, names_key org app key k && is_active k) (kt_keys st) = Some k ∧
     kt_cache st' = kt_cache (drop_cached (ak_key_prefix k) st)).
Proof.
  unfold commit, key_step, revoke_key, as_role. cbn [fst snd].
  destruct (require_role Admin rq api) as [[[p org]|e] api']; [| by split_and!; [.. | left]].
  unfold revoke_key_handler. cbn. destruct (List.find _ (kt_keys st)) as [k|] eqn:E; cbn.
  - split_and!; [done.. |]. right. exists org, k. by rewrite E.
  - split_and!; [done.. |]. by left.
Qed.

Inductive KeyEvent :=
| Commit (op : key_op)
| Evict (prefix : pystr)
| Present (presented : pystr)
| Advance (i : nat).

(** [kw_answers] records the answers, for the statements. *)
Record KeyWorld := {
  kw_api : ApiState;
  kw_st : KeyState;
  kw_tasks : list AuthTask;
  kw_answers : list (datetime * pystr * result AuthError AuthRecord)
}.

Definition key_event (now : datetime) (ev : KeyEvent) (w : KeyWorld) : KeyWorld :=
  match ev with
  | Commit op =>
      let '(api, st) := commit op (kw_api w, kw_st w) in
      {| kw_api := api; kw_st := st; kw_tasks := kw_tasks w; kw_answers := kw_answers w |}
  | Evict prefix =>
      {| kw_api := kw_api w; kw_st := drop_cached prefix (kw_st w); kw_tasks := kw_tasks w; kw_answers := kw_answers w |}
  | Present presented =>
      {| kw_api := kw_api w; kw_st := kw_st w; kw_tasks := kw_tasks w ++ [AuthGet presented]; kw_answers := kw_answers w |}
  | Advance i =>
      match kw_tasks w !! i with
      | None => w
      | Some x =>
          let '(x', answer, redis) := auth_step now x (key_rows (kw_st w)) (kt_cache (kw_st w)) in
          {| kw_api := kw_api w; kw_st := with_cache redis (kw_st w); kw_tasks := <[i := x']> (kw_tasks w);
             kw_answers := match answer with
                           | Some (presented, r) => (now, presented, r) :: kw_answers w
                           | None => kw_answers w
                           end |}
      end
  end.

Definition key_world_run (evs : list (datetime * KeyEvent)) (w : KeyWorld) : KeyWorld :=
  fold_left (λ w e, key_event (fst e) (snd e) w) evs w.

(** Time does not run backwards, and a key is drawn with twelve characters of its own. *)
Fixpoint key_allowed (t : datetime) (evs : list (datetime * KeyEvent)) (w : KeyWorld) : Prop :=
  match evs with
  | [] => True
  | (now, ev) :: evs =>
      t <= now ∧ match ev with Commit op => fresh_draw op (kw_st w) | _ => True end ∧
      key_allowed now evs (key_event now ev w)
  end.

Fixpoint key_clock (t : datetime) (evs : list (datetime * KeyEvent)) : datetime :=
  match evs with [] => t | (now, _) :: evs => key_clock now evs end.

(** A lookup that has read an active row with the prefix and not yet cached it. *)
Definition has_read (prefix : pystr) (x : AuthTask) : bool :=
  match x with AuthSet _ parsed (Some _) => bool_decide (pk_prefix parsed = prefix) | _ => false end.

(** The cache lets the prefix in at [now]. *)
Definition holds_record (now : datetime) (prefix : pystr) (st : KeyState) : bool :=
  match rget now (api_key_cache_key prefix) (kt_cache st) with Some (Some _) => true | _ => false end.

(** ** What a commit does to the keys *)

(** The same key, active no more than before. *)
Record successor (k k' : ApiKeyRow) : Prop := {
  su_prefix : ak_key_prefix k' = ak_key_prefix k;
  su_describes : ∀ r, describes k r → describes k' r;
  su_revoked : ak_status k ≠ active → ak_status k' ≠ active
}.

Lemma successor_refl k : successor k k.
Proof. by split. Qed.

Lemma successor_revoke now k : successor k (revoke_row now k).
Proof. split; [done | | done]. by intros r []. Qed.

(** Handlers keep every key they do not revoke. *)
Definition succeeds (st st' : KeyState) : Prop := ∀ k, k ∈ kt_keys st → ∃ k', k' ∈ kt_keys st' ∧ successor k k'.

Lemma succeeds_refl st st' : kt_keys st' = kt_keys st → succeeds st st'.
Proof. intros E k Hk. exists k. rewrite E. split; [done | apply successor_refl]. Qed.

Lemma succeeds_revoke st st' now (m : ApiKeyRow → bool) (more : list ApiKeyRow) :
  kt_keys st' = ((λ k, if m k then revoke_row now k else k) <$> (kt_keys st ++ more)) → succeeds st st'.
Proof.
  intros E k Hk. exists (if m k then revoke_row now k else k). rewrite E. split.
  - apply list_elem_of_fmap. exists k. split; [done | apply elem_of_app; by left].
  - destruct (m k); [apply successor_revoke | apply successor_refl].
Qed.

Lemma key_step_succeeds s op : succeeds (snd s) (snd (key_step pepper s op)).
Proof.
  destruct s as [api st]. cbn [snd]. unfold key_step.
  destruct op; rewrite ?after_request;
    unfold create_app, update_app, disable_app, create_key, rotate_key, revoke_key;
    try (apply as_role_keeps; [by apply succeeds_refl | intros p org]).
  - apply succeeds_refl. unfold create_app_handler. by destruct (rbind _ _).
  - apply succeeds_refl. unfold update_app_handler. destruct (negb _); [done |]. destruct (nothing_set b); [done |].
    by destruct (rbind _ _).
  - apply succeeds_refl. unfold disable_app_handler. destruct (find_app _ _ _); [| done]. cbn.
    set (st1 := with_apps _ st). change (kt_keys st) with (kt_keys st1). by induction (ak_key_prefix <$> _).
  - unfold create_key_handler. destruct (rbind _ _) as [[[row raw] keys]|e] eqn:E; [| by apply succeeds_refl].
    apply rbind_Ok in E as (_ & _ & (a & _ & (_ & _ & (gk & _ & _ & -> & _)%insert_key_spec)%rbind_Ok)%rbind_Ok).
    apply (succeeds_revoke _ _ 0 (λ _, false) [row]). cbn. by rewrite list_fmap_id.
  - unfold rotate_key_handler. destruct (find_key _ _ _ _) as [k|]; [| by apply succeeds_refl].
    destruct (insert_key _ _ _ _ _ _ _ _) as [[[row raw] keys]|e] eqn:E; [| by apply succeeds_refl].
    apply insert_key_spec in E as (gk & _ & _ & -> & _). by eapply (succeeds_revoke _ _ _ _ [row]).
  - unfold revoke_key_handler. cbv zeta. destruct (List.find _ _) as [k|]; [| by apply succeeds_refl].
    eapply (succeeds_revoke _ _ _ _ []). cbn. by rewrite app_nil_r.
  - by apply succeeds_refl.
  - by apply succeeds_refl.
Qed.

Definition tables_ok (st : KeyState) : Prop := keys_ok (with_cache ∅ st).

Lemma commit_spec op s :
  tables_ok (snd s) → fresh_draw op (snd s) →
  tables_ok (snd (commit op s)) ∧ succeeds (snd s) (snd (commit op s)) ∧ kt_cache (snd (commit op s)) = kt_cache (snd s).
Proof.
  intros Hok Hf. pose proof (key_step_ok pepper (fst s, with_cache ∅ (snd s)) op Hok) as Hok'.
  pose proof (key_step_succeeds (fst s, with_cache ∅ (snd s)) op) as Hs. unfold commit.
  destruct (key_step pepper (fst s, with_cache ∅ (snd s)) op) as [api st] eqn:E. cbn [snd] in *.
  split; [| by split]. destruct Hok' as [H1 H2 H3 H4 _]; [by destruct op |]. split; try done.
  intros p r (e & He & _). cbn in He. by rewrite lookup_empty in He.
Qed.

(** ** The invariants of interleaved lookups *)

(** A row of the table the record was read from. *)
Definition known (st : KeyState) (prefix : pystr) (r : AuthRecord) : Prop :=
  ∃ k, k ∈ kt_keys st ∧ ak_key_prefix k = prefix ∧ describes k r.

Lemma known_succeeds st st' prefix r : succeeds st st' → known st prefix r → known st' prefix r.
Proof.
  intros Hs (k & Hk & Hp & Hd). destruct (Hs k Hk) as (k' & Hk' & [Hp' Hd' _]). exists k'. split; [done |].
  split; [congruence | by apply Hd'].
Qed.

Record world_ok (t : datetime) (w : KeyWorld) : Prop := {
  wk_tables : tables_ok (kw_st w);
  wk_cache : ∀ prefix e r, kt_cache (kw_st w) !! api_key_cache_key prefix = Some e → e_value e = Some r →
    known (kw_st w) prefix r ∧ ∃ x, e_expiry e = Some x ∧ x <= t + AUTH_CACHE_TTL;
  wk_tasks : ∀ presented parsed row, AuthSet presented parsed (Some row) ∈ kw_tasks w →
    parse_key presented = Some parsed ∧ known (kw_st w) (pk_prefix parsed) (auth_record_of row);
  wk_parsed : ∀ presented parsed, AuthQuery presented parsed ∈ kw_tasks w → parse_key presented = Some parsed;
  wk_answers : ∀ now presented r, (now, presented, Ok r) ∈ kw_answers w →
    ∃ parsed, parse_key presented = Some parsed ∧ known (kw_st w) (pk_prefix parsed) r ∧
      key_hash_of (pk_secret parsed) pepper = au_key_hash r
}.

(** No key with the prefix is active, no lookup has read one, what is cached of it expires
    by [T], and nobody was let in with it at [T] or later since the answers were [old]. *)
Record dead (prefix : pystr) (T : datetime) (old : list (datetime * pystr * result AuthError AuthRecord))
    (w : KeyWorld) : Prop := {
  dd_key : ∃ k, k ∈ kt_keys (kw_st w) ∧ ak_key_prefix k = prefix ∧ ak_status k ≠ active;
  dd_tasks : ∀ x, x ∈ kw_tasks w → has_read prefix x = false;
  dd_cache : ∀ e r, kt_cache (kw_st w) !! api_key_cache_key prefix = Some e → e_value e = Some r →
    ∃ x, e_expiry e = Some x ∧ x <= T;
  dd_answers : ∀ now presented parsed r, (now, presented, Ok r) ∈ kw_answers w → parse_key presented = Some parsed →
    pk_prefix parsed = prefix → (now, presented, Ok r) ∈ old ∨ now < T
}.

Lemma world_ok_later t t' w : t <= t' → world_ok t w → world_ok t' w.
Proof.
  intros Ht [? Hc ? ? ?]. split; try done. intros prefix e r He Hv.
  destruct (Hc prefix e r He Hv) as (? & x & ? & ?). split; [done |]. exists x. split; [done | lia].
Qed.

Lemma check_record_ok record parsed r :
  check_record record parsed pepper = Ok r → r = record ∧ key_hash_of (pk_secret parsed) pepper = au_key_hash record.
Proof. unfold check_record, verify_key. repeat case_match; try done. bprop. intros; simplify_eq. bprop. done. Qed.

Lemma lookup_known st prefix row :
  lookup_key (key_rows st) prefix = Some row →
  ∃ k, k ∈ kt_keys st ∧ ak_key_prefix k = prefix ∧ ak_status k = active ∧ describes k (auth_record_of row).
Proof.
  intros [(k & a & Hk & _ & Er & _)%key_rows_elem Hb]%find_elem. bprop.
  destruct (key_row_describes _ _ _ Er) as (Hd & E1 & E2). exists k. rewrite <- E1, <- E2. done.
Qed.

Lemma only_key st k k' :
  tables_ok st → k ∈ kt_keys st → k' ∈ kt_keys st → ak_key_prefix k = ak_key_prefix k' → k = k'.
Proof. intros Hok Hk Hk' E. by eapply (NoDup_fmap_elem ak_key_prefix); [apply (ks_prefixes _ Hok) | ..]. Qed.

(** *** A step of a lookup *)

Section Step.
Context (now : datetime) (i : nat) (x : AuthTask) (w : KeyWorld).
Hypothesis Hi : kw_tasks w !! i = Some x.
Hypothesis Hok : world_ok now w.

Let result := auth_step now x (key_rows (kw_st w)) (kt_cache (kw_st w)).

Lemma auth_task_there : x ∈ kw_tasks w.
Proof. by eapply list_elem_of_lookup_2. Qed.

(** What the cache holds afterwards. *)
Lemma step_cache prefix e r :
  snd result !! api_key_cache_key prefix = Some e → e_value e = Some r →
  kt_cache (kw_st w) !! api_key_cache_key prefix = Some e ∨
  ∃ presented parsed row, x = AuthSet presented parsed (Some row) ∧ pk_prefix parsed = prefix ∧ r = auth_record_of row ∧
    e_expiry e = Some (now + AUTH_CACHE_TTL).
Proof.
  unfold result. destruct x as [presented|presented parsed|presented parsed [row|]|]; cbn [auth_step snd].
  - destruct (parse_key presented) as [parsed|]; [| by left]. by destruct (rget _ _ _) as [[]|]; left.
  - by left.
  - unfold rset_ex. intros [[E <-]|[_ ?]]%lookup_insert_Some; [| by left]. apply cache_key_inj in E. intros [= <-].
    right. by exists presented, parsed, row.
  - unfold rset_ex. intros [[E <-]|[_ ?]]%lookup_insert_Some; [done | by left].
  - by left.
Qed.

(** What the next stage is. *)
Lemma step_task :
  match fst (fst result) with
  | AuthSet presented parsed row => x = AuthQuery presented parsed ∧ row = lookup_key (key_rows (kw_st w)) (pk_prefix parsed)
  | AuthQuery presented parsed => parse_key presented = Some parsed
  | AuthGet _ => False
  | AuthDone => True
  end.
Proof.
  unfold result. destruct x as [presented|presented parsed|presented parsed [row|]|]; cbn; try done.
  destruct (parse_key presented) as [parsed|] eqn:E; [| done]. by destruct (rget _ _ _) as [[]|]; cbn.
Qed.

(** Who is let in. *)
Lemma step_answer presented r :
  snd (fst result) = Some (presented, Ok r) →
  ∃ parsed, parse_key presented = Some parsed ∧ key_hash_of (pk_secret parsed) pepper = au_key_hash r ∧
    ((∃ e, kt_cache (kw_st w) !! api_key_cache_key (pk_prefix parsed) = Some e ∧ e_value e = Some r ∧ live now e = true) ∨
     ∃ row, x = AuthSet presented parsed (Some row) ∧ r = auth_record_of row).
Proof.
  pose proof auth_task_there as Hin. unfold result. destruct x as [p|p parsed|p parsed [row|]|]; cbn; try done.
  - destruct (parse_key p) as [parsed|] eqn:Ep; [| done]. unfold rget, peek.
    destruct (kt_cache (kw_st w) !! _) as [e|] eqn:Ee; [| done]. destruct (live now e) eqn:El; [| done]. cbn.
    destruct (e_value e) as [rec|] eqn:Ev; [| done]. intros [= <- [-> Hh]%check_record_ok]. exists parsed.
    split; [done |]. split; [done |]. left. by exists e.
  - intros [= <- [-> Hh]%check_record_ok]. exists parsed.
    split; [by apply (wk_tasks _ _ Hok p parsed row) |]. split; [done |]. right. by exists row.
Qed.

Lemma advance_world :
  key_event now (Advance i) w =
  {| kw_api := kw_api w; kw_st := with_cache (snd result) (kw_st w); kw_tasks := <[i := fst (fst result)]> (kw_tasks w);
     kw_answers := match snd (fst result) with
                   | Some (presented, r) => (now, presented, r) :: kw_answers w
                   | None => kw_answers w
                   end |}.
Proof.
  unfold result. cbn. rewrite Hi. by destruct (auth_step now x _ _) as [[x' [[presented r]|]] redis].
Qed.

Lemma advance_answer a presented r :
  (a, presented, Ok r) ∈ match snd (fst result) with
                           | Some (presented, r) => (now, presented, r) :: kw_answers w
                           | None => kw_answers w
                           end →
  (a, presented, Ok r) ∈ kw_answers w ∨ (a = now ∧ snd (fst result) = Some (presented, Ok r)).
Proof.
  destruct (snd (fst result)) as [[p r']|]; [| by left]. intros [[= -> -> ->]|?]%elem_of_cons; [by right | by left].
Qed.

Lemma world_ok_advance : world_ok now (key_event now (Advance i) w).
Proof.
  rewrite advance_world. split; cbn [kw_st kw_tasks kw_answers].
  - apply (wk_tables _ _ Hok).
  - intros prefix e r He Hv. destruct (step_cache prefix e r He Hv) as [He'|(presented & parsed & row & Ex & Ep & -> & Hx)];
      [by apply (wk_cache _ _ Hok prefix e r) |].
    assert (AuthSet presented parsed (Some row) ∈ kw_tasks w) as Hin by (rewrite <- Ex; apply auth_task_there).
    split; [| eexists; split; [done | lia]]. rewrite <- Ep. by apply (wk_tasks _ _ Hok) in Hin as [_ Hk].
  - intros presented parsed row [Heq|Hin]%(task_after _ _ _ _ _ Hi); [| by apply (wk_tasks _ _ Hok)].
    pose proof step_task as Ht. rewrite <- Heq in Ht. destruct Ht as [Ex Hl]. split.
    + apply (wk_parsed _ _ Hok). rewrite <- Ex. apply auth_task_there.
    + symmetry in Hl. apply lookup_known in Hl as (k & ? & ? & _ & ?). by exists k.
  - intros presented parsed [Heq|Hin]%(task_after _ _ _ _ _ Hi); [| by apply (wk_parsed _ _ Hok)].
    pose proof step_task as Ht. by rewrite <- Heq in Ht.
  - intros a presented r [Hin|[_ Ha]]%advance_answer; [by apply (wk_answers _ _ Hok a) |].
    apply step_answer in Ha as (parsed & Hp & Hh & [(e & He & Hv & _)|(row & Ex & ->)]); exists parsed; split; try done.
    + split; [| done]. by apply (wk_cache _ _ Hok _ e).
    + split; [| done]. apply (wk_tasks _ _ Hok presented parsed row). rewrite <- Ex. apply auth_task_there.
Qed.

Lemma dead_advance prefix T old : dead prefix T old w → dead prefix T old (key_event now (Advance i) w).
Proof.
  intros Hd. rewrite advance_world. split; cbn [kw_st kw_tasks kw_answers].
  - apply (dd_key _ _ _ _ Hd).
  - intros y [->|Hin]%(task_after _ _ _ _ _ Hi); [| by apply (dd_tasks _ _ _ _ Hd)].
    pose proof step_task as Ht. destruct (fst (fst result)) as [|p parsed|p parsed row|]; try done.
    destruct Ht as [_ Hl]. destruct row as [row|]; [| done]. cbn. apply bool_decide_eq_false. intros <-.
    symmetry in Hl. apply lookup_known in Hl as (k & Hk & Ep & Ea & _).
    destruct (dd_key _ _ _ _ Hd) as (k' & Hk' & Ep' & Ea'). apply Ea'.
    by rewrite (only_key (kw_st w) k' k (wk_tables _ _ Hok) Hk' Hk) by congruence.
  - intros e r He Hv. destruct (step_cache prefix e r He Hv) as [He'|(presented & parsed & row & Ex & Ep & -> & Hx)];
      [by apply (dd_cache _ _ _ _ Hd e r) |].
    exfalso. assert (AuthSet presented parsed (Some row) ∈ kw_tasks w) as Hin by (rewrite <- Ex; apply auth_task_there).
    apply (dd_tasks _ _ _ _ Hd) in Hin. cbn in Hin. by rewrite bool_decide_true in Hin.
  - intros a presented parsed r [Hin|[-> Ha]]%advance_answer Hp Ep; [by apply (dd_answers _ _ _ _ Hd a presented parsed r) |].
    right. apply step_answer in Ha as (parsed' & Hp' & _ & [(e & He & Hv & Hl)|(row & Ex & ->)]); assert (parsed' = parsed) as -> by congruence.
    + rewrite Ep in He. destruct (dd_cache _ _ _ _ Hd e r He Hv) as (y & Ey & Hy). unfold live in Hl. rewrite Ey in Hl.
      apply Z.ltb_lt in Hl. lia.
    + exfalso. assert (AuthSet presented parsed (Some row) ∈ kw_tasks w) as Hin by (rewrite <- Ex; apply auth_task_there).
      apply (dd_tasks _ _ _ _ Hd) in Hin. cbn in Hin. by rewrite bool_decide_true in Hin.
Qed.
End Step.

(** *** Any event *)

Lemma commit_world now op w :
  ∃ api, key_event now (Commit op) w =
  {| kw_api := api; kw_st := snd (commit op (kw_api w, kw_st w)); kw_tasks := kw_tasks w; kw_answers := kw_answers w |}.
Proof. cbn. destruct (commit op (kw_api w, kw_st w)) as [api st]. by exists api. Qed.

Lemma evicted_less prefix p st e :
  kt_cache (drop_cached p st) !! api_key_cache_key prefix = Some e → kt_cache st !! api_key_cache_key prefix = Some e.
Proof. unfold drop_cached, rdel. cbn. by intros [_ ?]%lookup_delete_Some. Qed.

Lemma key_event_ok now ev w :
  world_ok now w → match ev with Commit op => fresh_draw op (kw_st w) | _ => True end →
  world_ok now (key_event now ev w).
Proof.
  intros Hok Hf. destruct ev as [op|p|presented|i].
  - destruct (commit_world now op w) as (api & ->). destruct (commit_spec op (kw_api w, kw_st w) (wk_tables _ _ Hok) Hf) as (H1 & H2 & H3).
    split; cbn [kw_st kw_tasks kw_answers]; [done | | | apply (wk_parsed _ _ Hok) |].
    + intros prefix e r He Hv. rewrite H3 in He. destruct (wk_cache _ _ Hok prefix e r He Hv) as [Hk ?]. split; [| done].
      by eapply known_succeeds.
    + intros p parsed row Hin. apply (wk_tasks _ _ Hok) in Hin as [? ?]. split; [done |]. by eapply known_succeeds.
    + intros a p r Hin. apply (wk_answers _ _ Hok) in Hin as (parsed & ? & ? & ?). exists parsed. split; [done |].
      split; [by eapply known_succeeds | done].
  - destruct Hok as [H1 H2 H3 H4 H5]. split; cbn [key_event kw_st kw_tasks kw_answers]; try done.
    intros prefix e r He%evicted_less Hv. by apply (H2 prefix e r).
  - destruct Hok as [H1 H2 H3 H4 H5]. split; cbn [key_event kw_st kw_tasks kw_answers]; try done.
    + intros p parsed row [Hin|?]%appended_task; [by apply H3 | done].
    + intros p parsed [Hin|?]%appended_task; [by apply H4 | done].
  - destruct (kw_tasks w !! i) as [x|] eqn:E; [by apply (world_ok_advance _ _ x) | cbn; by rewrite E].
Qed.

Lemma key_event_dead now ev w prefix T old :
  world_ok now w → match ev with Commit op => fresh_draw op (kw_st w) | _ => True end →
  dead prefix T old w → dead prefix T old (key_event now ev w).
Proof.
  intros Hok Hf Hd. destruct ev as [op|p|presented|i].
  - destruct (commit_world now op w) as (api & ->). destruct (commit_spec op (kw_api w, kw_st w) (wk_tables _ _ Hok) Hf) as (H1 & H2 & H3).
    destruct Hd as [(k & Hk & Ep & Es) D2 D3 D4]. split; cbn [kw_st kw_tasks kw_answers]; [| done | by rewrite H3 | done].
    destruct (H2 k Hk) as (k' & Hk' & [Hp _ Hr]). exists k'. split; [done |]. split; [congruence | by apply Hr].
  - destruct Hd as [D1 D2 D3 D4]. split; cbn [key_event kw_st kw_tasks kw_answers]; try done.
    intros e r He%evicted_less Hv. by apply (D3 e r).
  - destruct Hd as [D1 D2 D3 D4]. split; cbn [key_event kw_st kw_tasks kw_answers]; try done.
    intros x [Hin| ->]%appended_task; [by apply D2 | done].
  - destruct (kw_tasks w !! i) as [x|] eqn:E; [by apply (dead_advance _ _ x) | cbn; by rewrite E].
Qed.

Lemma key_world_run_ok t evs w :
  key_allowed t evs w → world_ok t w → world_ok (key_clock t evs) (key_world_run evs w).
Proof.
  revert t w. induction evs as [|[now ev] evs IH]; intros t w; [done |]. cbn [key_allowed key_clock]. intros (Ht & Hf & Ha) Hok.
  change (key_world_run ((now, ev) :: evs) w) with (key_world_run evs (key_event now ev w)).
  apply IH; [done |]. apply key_event_ok; [by eapply world_ok_later | done].
Qed.

Lemma key_world_run_dead t evs w prefix T old :
  key_allowed t evs w → world_ok t w → dead prefix T old w → dead prefix T old (key_world_run evs w).
Proof.
  revert t w. induction evs as [|[now ev] evs IH]; intros t w; [done |]. cbn [key_allowed]. intros (Ht & Hf & Ha) Hok Hd.
  change (key_world_run ((now, ev) :: evs) w) with (key_world_run evs (key_event now ev w)).
  assert (world_ok now w) as Hok' by (by eapply world_ok_later).
  apply (IH now); [done | by apply key_event_ok | by apply key_event_dead].
Qed.

(** Answers given in a run are given no earlier than it starts. *)
Lemma answered_after t evs w now presented r :
  key_allowed t evs w → (now, presented, r) ∈ kw_answers (key_world_run evs w) →
  (now, presented, r) ∉ kw_answers w → t <= now.
Proof.
  revert t w. induction evs as [|[a ev] evs IH]; intros t w; [by intros _ Hin Hnot |]. cbn [key_allowed]. intros (Ht & _ & Ha) Hin Hnot.
  change (key_world_run ((a, ev) :: evs) w) with (key_world_run evs (key_event a ev w)) in Hin.
  destruct (decide (a = now)) as [->|Hne]; [done |].
  assert (a <= now); [| lia]. apply (IH a (key_event a ev w) Ha Hin). intros Hev. apply Hnot.
  destruct ev as [op|p|q|i].
  - destruct (commit_world a op w) as (api & E). by rewrite E in Hev.
  - done.
  - done.
  - cbn in Hev. destruct (kw_tasks w !! i) as [x|]; [| done].
    destruct (auth_step a x _ _) as [[x' [[p r']|]] redis]; [| done]. cbn in Hev.
    apply elem_of_cons in Hev as [[= Ea _ _]|Hev]; [by destruct Hne | done].
Qed.

Definition no_world (s : ApiState * KeyState) : KeyWorld :=
  {| kw_api := fst s; kw_st := with_cache ∅ (snd s); kw_tasks := []; kw_answers := [] |}.

Lemma no_world_ok t s : tables_ok (snd s) → world_ok t (no_world s).
Proof.
  intros Hok. split; cbn.
  - done.
  - intros prefix e r He. by rewrite lookup_empty in He.
  - by intros ? ? ? ?%not_elem_of_nil.
  - by intros ? ? ?%not_elem_of_nil.
  - by intros ? ? ? ?%not_elem_of_nil.
Qed.

(** (C14) A revoked key is refused, whatever runs between its commit, its eviction and the
    tracker's lookups.  Everyone who was ever let in presented the secret of the one row
    with the prefix, and was taken for that row's application, organisation, environment
    and kind.  And when the row is not active any more, the change being committed, and no
    lookup under way has read it as active: nobody who presents the prefix is let in from
    then on, if nothing is cached for it, and from ten minutes later on in any case.  A
    lookup between the eviction and the commit does cache it for that long
    ([recached_before_the_commit]). *)
Theorem revoked_keys_are_refused t before after s prefix :
  tables_ok (snd s) →
  let w := key_world_run before (no_world s) in
  let t1 := key_clock t before in
  let w' := key_world_run after w in
  key_allowed t before (no_world s) → key_allowed t1 after w →
  (∀ now presented r, (now, presented, Ok r) ∈ kw_answers w' →
     ∃ parsed k, parse_key presented = Some parsed ∧ k ∈ kt_keys (kw_st w') ∧ ak_key_prefix k = pk_prefix parsed ∧
       key_hash_of (pk_secret parsed) pepper = ak_key_hash k ∧ describes k r ∧
       ∀ k', k' ∈ kt_keys (kw_st w') → ak_key_prefix k' = pk_prefix parsed → k' = k) ∧
  ((∃ k, k ∈ kt_keys (kw_st w) ∧ ak_key_prefix k = prefix ∧ ak_status k ≠ active) →
   (∀ x, x ∈ kw_tasks w → has_read prefix x = false) →
   ∀ now presented parsed r,
     (now, presented, Ok r) ∈ kw_answers w' → (now, presented, Ok r) ∉ kw_answers w →
     parse_key presented = Some parsed → pk_prefix parsed = prefix →
     holds_record t1 prefix (kw_st w) = true ∧ now < t1 + AUTH_CACHE_TTL).
Proof.
  intros Hok w t1 w' Hb Ha.
  assert (world_ok t1 w) as Hw by (by apply key_world_run_ok, no_world_ok).
  assert (world_ok (key_clock t1 after) w') as Hw' by (by apply key_world_run_ok). split.
  - intros now presented r Hin. destruct (wk_answers _ _ Hw' now presented r Hin) as (parsed & Hp & (k & Hk & Ep & Hd) & Hh).
    exists parsed, k. rewrite <- (de_hash _ _ Hd). split_and!; try done. intros k' Hk' Ep'.
    apply (only_key (kw_st w') k' k (wk_tables _ _ Hw') Hk' Hk). congruence.
  - intros Hk Hx now presented parsed r Hin Hnot Hp Ep.
    assert (∀ T, (∀ e r, kt_cache (kw_st w) !! api_key_cache_key prefix = Some e → e_value e = Some r →
              ∃ x, e_expiry e = Some x ∧ x <= T) → now < T) as Hlt.
    { intros T HT. assert (dead prefix T (kw_answers w) w') as Hd.
      { apply (key_world_run_dead t1); [done | done |]. split; try done. by left. }
      by destruct (dd_answers _ _ _ _ Hd now presented parsed r Hin Hp Ep). }
    split.
    + apply not_false_iff_true. intros Hc. assert (t1 <= now) as Hle by (by eapply (answered_after t1 after w)).
      enough (now < t1) by lia. apply Hlt. intros e r' He Hv. destruct (wk_cache _ _ Hw prefix e r' He Hv) as (_ & x & Ex & _).
      exists x. split; [done |]. unfold holds_record, rget, peek in Hc. rewrite He in Hc. unfold live in Hc. rewrite Ex in Hc.
      destruct (Z.ltb_spec t1 x); [| lia]. cbn in Hc. by rewrite Hv in Hc.
    + apply Hlt. intros e r' He Hv. by apply (wk_cache _ _ Hw prefix e r').
Qed.
End Interleaved.

(** ** Examples *)

Definition no_keys : KeyState := {| kt_apps := []; kt_keys := []; kt_cache := ∅; kt_notified := [] |}.

Lemma no_keys_ok : keys_ok no_keys.
Proof.
  split; [constructor.. | |].
  - intros k Hk. by apply elem_of_nil in Hk.
  - intros p r (e & He & _). unfold no_keys in He. cbn [kt_cache] in He. by rewrite lookup_empty in He.
Qed.

Definition ex_rq : ApiRequest := ex_request 4 1.

Definition ex_app_create : AppCreate :=
  {| ac_name := py "Shop"; ac_platform := py "android"; ac_android_package_name := Some (py "com.example.shop");
     ac_ios_bundle_id := None; ac_timezone := py "UTC"; ac_install_window_days := 7; ac_event_window_days := 30 |}.

Definition ex_key_create : ApiKeyCreate := {| kc_name := py "default"; kc_environment := py "prod"; kc_kind := py "sdk" |}.

(** The [n]th key drawn. *)
Definition ex_draw (n : nat) : KeyDraws :=
  {| dk_id := N.of_nat (50 + n); dk_prefix := py "abcdefghijk" ++ [N.of_nat (97 + n)]; dk_secret := ex_secret; dk_now := 10 |}.
Definition ex_draw_raw (n : nat) : pystr := py "mmp_live_" ++ dk_prefix (ex_draw n) ++ py "_" ++ ex_secret.

Definition ex_create : list key_op := [CreateApp ex_rq ex_app_create 9 5; CreateKey ex_rq 9 ex_key_create (ex_draw 0)].

Abbreviation ex_keys ops := (@key_run ascii_unicode ex_hmac (py "pepper") ops (ex_state, no_keys)).
Abbreviation ex_auth now raw st := (@authenticate ex_hmac (key_rows st) (kt_cache st) now (py "pepper") raw).

Lemma ex_fresh_create : @fresh_run ascii_unicode ex_hmac (py "pepper") ex_create (ex_state, no_keys).
Proof. split; [exact I |]. split; [apply (bool_decide_unpack _); vm_compute; exact I | exact I]. Qed.

Lemma ex_create_ok : keys_ok (snd (ex_keys ex_create)).
Proof. apply key_run_ok; [apply no_keys_ok | apply ex_fresh_create]. Qed.

Abbreviation ex_world evs := (@key_world_run ascii_unicode ex_hmac (py "pepper") evs (no_world (ex_state, no_keys))).

(** An application and its key are created, the key is used, and then revoked while the
    tracker is looking it up again. *)
Definition ex_issued : list (datetime * KeyEvent) :=
  [(5, Commit (CreateApp ex_rq ex_app_create 9 5)); (6, Commit (CreateKey ex_rq 9 ex_key_create (ex_draw 0)));
   (20, Present (ex_draw_raw 0)); (21, Advance 0); (22, Advance 0); (23, Advance 0)].
Definition ex_revoked : list (datetime * KeyEvent) :=
  [(24, Present (ex_draw_raw 0)); (25, Evict (dk_prefix (ex_draw 0))); (26, Advance 1);
   (27, Commit (RevokeKey ex_rq 9 50 25))].
Definition ex_refused : list (datetime * KeyEvent) := [(28, Advance 1); (29, Advance 1)].

Definition let_in (answers : list (datetime * pystr * result AuthError AuthRecord)) : list (datetime * bool) :=
  (λ a : datetime * pystr * result AuthError AuthRecord,
     (fst (fst a), match snd a with Ok _ => true | Err _ => false end)) <$> answers.

Lemma revoked_keys_are_refused_witness :
  let before := ex_issued ++ ex_revoked in
  let w := ex_world before in
  let w' := @key_world_run ascii_unicode ex_hmac (py "pepper") ex_refused w in
  ak_status <$> kt_keys (kw_st w) = [revoked] ∧ let_in (kw_answers w') = [(29, false); (23, true)] ∧
  ∀ now presented parsed r, (now, presented, Ok r) ∈ kw_answers w' → (now, presented, Ok r) ∉ kw_answers w →
    parse_key presented = Some parsed → pk_prefix parsed = dk_prefix (ex_draw 0) → False.
Proof.
  intros before w w'. split; [vm_compute; reflexivity |]. split; [vm_compute; reflexivity |].
  intros now presented parsed r Hin Hnot Hp Ep.
  destruct (@revoked_keys_are_refused ascii_unicode ex_hmac (py "pepper") 0 before ex_refused (ex_state, no_keys)
              (dk_prefix (ex_draw 0))) as [_ Hno].
  - apply no_keys_ok.
  - cbn [before ex_issued ex_revoked app key_allowed].
    repeat (split; [lia |]; first [split; [exact I |] | split; [apply (bool_decide_unpack _); vm_compute; exact I |]]). exact I.
  - cbn [ex_refused key_allowed]. split; [vm_compute; discriminate |]. split; [exact I |]. split; [lia |]. split; [exact I | exact I].
  - destruct (Hno) with (now := now) (presented := presented) (parsed := parsed) (r := r) as [Hc _];
      [| | exact Hin | exact Hnot | exact Hp | exact Ep |].
    + eexists. split; [apply list_elem_of_In; vm_compute; left; reflexivity |]. split; [vm_compute; reflexivity | vm_compute; discriminate].
    + apply (proj1 (Forall_forall _ _)), (bool_decide_unpack _). vm_compute. exact I.
    + vm_compute in Hc. discriminate Hc.
Defined.

Lemma ex_token n : (n < 10)%nat → is_token PREFIX_LENGTH (dk_prefix (ex_draw n)) ∧ is_token SECRET_LENGTH (dk_secret (ex_draw n)).
Proof.
  intros Hn. do 10 (destruct n as [|n]; [split; (split; [reflexivity | apply (bool_decide_unpack _); vm_compute; exact I]) |]). lia.
Qed.

(** The key is rotated: the new one works and the old one is revoked. *)
Lemma issued_keys_work_witness :
  let '(api, st) := ex_keys ex_create in
  ∃ out raw api' st', @issue ascii_unicode ex_hmac (py "pepper") ex_rq 9 (inr 50%N) (ex_draw 1) api st = (Ok (out, raw), api', st') ∧
    (∃ r, fst (ex_auth 30 raw st') = Ok r ∧ au_app_id r = str_of_uuid 9) ∧
    ∀ k, k ∈ kt_keys st' → ak_id k = 50%N → ak_status k = revoked.
Proof.
  pose proof ex_create_ok as Hok. destruct (ex_keys ex_create) as [api st] eqn:E.
  assert (dk_prefix (ex_draw 1) ∉ ak_key_prefix <$> kt_keys st) as Hf
    by (replace st with (snd (ex_keys ex_create)) by (rewrite E; done); apply (bool_decide_unpack _); vm_compute; exact I).
  destruct (issue (py "pepper") ex_rq 9 (inr 50%N) (ex_draw 1) api st) as [[[[out raw]|e] api'] st'] eqn:Ei.
  - exists out, raw, api', st'. split; [reflexivity |].
    destruct (@issued_keys_work ascii_unicode ex_hmac (py "pepper") ex_rq 9%N (inr 50%N) (ex_draw 1) api st out raw api' st')
      as (H1 & _ & H3).
    + exact Hok.
    + exact Hf.
    + apply ex_token. lia.
    + apply ex_token. lia.
    + replace st with (snd (ex_keys ex_create)) by (rewrite E; reflexivity). vm_compute. reflexivity.
    + replace st with (snd (ex_keys ex_create)) by (rewrite E; reflexivity).
      eexists. split; [apply list_elem_of_In; vm_compute; left; reflexivity |]. split; reflexivity.
    + exact Ei.
    + split; [apply H1 |]. intros k Hk Ek. exact (H3 50%N k eq_refl Hk Ek).
  - exfalso.
    assert (match fst (fst (@issue ascii_unicode ex_hmac (py "pepper") ex_rq 9 (inr 50%N) (ex_draw 1)
              (fst (ex_keys ex_create)) (snd (ex_keys ex_create)))) with Ok _ => true | Err _ => false end = true) as Hb
      by (vm_compute; reflexivity).
    rewrite E in Hb. cbn [fst snd] in Hb. rewrite Ei in Hb. exact (diff_false_true Hb).
Defined.

Definition ex_disabled : result ApiError unit * ApiState * KeyState :=
  let '(api, st) := ex_keys (ex_create ++ [Authenticate 20 (ex_draw_raw 0)]) in @disable_app ascii_unicode ex_rq 9 api st.

(** The key is cached when its application is disabled, and a new key is issued
    afterwards: neither gets in. *)
Lemma disabled_app_takes_no_events_witness :
  let st := snd (@key_run ascii_unicode ex_hmac (py "pepper") [CreateKey ex_rq 9 ex_key_create (ex_draw 1)]
                   (snd (fst ex_disabled), snd ex_disabled)) in
  length (kt_keys st) = 2%nat ∧
  ∀ k pk presented, k ∈ kt_keys st → parse_key presented = Some pk → pk_prefix pk = ak_key_prefix k →
    ∃ e, fst (ex_auth 30 presented st) = Err e.
Proof.
  intros st. split; [vm_compute; reflexivity |]. intros k pk presented Hk Hpk Ep.
  set (s := ex_keys (ex_create ++ [Authenticate 20 (ex_draw_raw 0)])).
  apply (@disabled_app_takes_no_events ascii_unicode ex_hmac (py "pepper") (fst s) (snd s) ex_rq 9%N (snd (fst ex_disabled))
           (snd ex_disabled) [CreateKey ex_rq 9 ex_key_create (ex_draw 1)] 30 presented pk k).
  - apply key_run_ok; [apply no_keys_ok |]. split; [exact I |].
    split; [apply (bool_decide_unpack _); vm_compute; exact I |]. split; exact I.
  - vm_compute. reflexivity.
  - split; [apply (bool_decide_unpack _); vm_compute; exact I | exact I].
  - constructor; [exact I | constructor].
  - exact Hk.
  - assert (Forall (λ k, ak_app_id k = 9%N) (kt_keys st)) as Hall by (apply (bool_decide_unpack _); vm_compute; exact I).
    rewrite Forall_forall in Hall. by apply Hall.
  - exact Hpk.
  - exact Ep.
Defined.

(** *** PATCH leaves the cache alone

    The same change of status through PATCH: the cached key goes on working. *)
Lemma patched_status_keeps_ingesting :
  let off := {| up_name := None; up_timezone := None; up_status := Some (Some disabled);
                up_install_window_days := None; up_event_window_days := None |} in
  let st := snd (ex_keys (ex_create ++ [Authenticate 20 (ex_draw_raw 0); UpdateApp ex_rq 9 off])) in
  apr_status <$> kt_apps st = [disabled] ∧
  match fst (ex_auth 30 (ex_draw_raw 0) st) with Ok r => au_app_status r = active | Err _ => False end.
Proof. vm_compute. split; reflexivity. Qed.

(** *** A request between the deletion and the commit

    The handler clears the cache while its transaction is open.  A request of the tracker
    in between still finds the active row and caches it; after the commit the revoked key
    authenticates for ten minutes. *)
Lemma recached_before_the_commit :
  let w := ex_world (ex_issued ++
    [(24, Evict (dk_prefix (ex_draw 0))); (25, Present (ex_draw_raw 0)); (26, Advance 1); (27, Advance 1); (28, Advance 1);
     (29, Commit (RevokeKey ex_rq 9 50 25)); (28 + 9 * minute, Present (ex_draw_raw 0)); (28 + 9 * minute, Advance 2)]) in
  ak_status <$> kt_keys (kw_st w) = [revoked] ∧
  let_in (kw_answers w) = [(28 + 9 * minute, true); (28, true); (23, true)].
Proof. vm_compute. split; reflexivity. Qed.

(** *** The limit of active keys

    Rotation does not count the active keys, and takes a key that is revoked already:
    rotating one key again and again adds an active key each time. *)
Lemma rotation_exceeds_the_limit :
  let ops := ex_create ++ ((λ n, RotateKey ex_rq 9 50 (ex_draw n)) <$> seq 1 21) in
  (MAX_ACTIVE_KEYS_PER_APP <? Z.of_nat (length (active_keys 101 9 (kt_keys (snd (ex_keys ops)))))) = true.
Proof. vm_compute. reflexivity. Qed.
