(* ===== verification/Relational.v ===== *)
(** * The relational operations of the aggregating statements

    [GROUP BY], the aggregates, the outer joins and [INSERT .. ON CONFLICT DO UPDATE] that
    the statements of mmp_db/rollups.py, mmp_worker/jobs.py and mmp_worker/fraud_sweep.py
    are written with, over lists of rows, and what each of them returns.  A table with a
    primary key is a finite map. *)

From stdpp Require Import gmap.
From S2P Require Import Prelude.

#[local] Open Scope Z_scope.
#[local] Open Scope mmp_scope.

Inductive SqlError :=
| SecondUpdate     (* "ON CONFLICT DO UPDATE command cannot affect row a second time" *)
| OutOfRange.      (* "bigint out of range" *)

(** [bigint] *)
Definition fits (z : Z) : bool := (- 2 ^ 63 <=? z) && (z <? 2 ^ 63).

(** ** Grouping *)

Definition having {R K} `{EqDecision K} (key : R → K) (k : K) (rows : list R) : list R :=
  List.filter (λ r, bool_decide (key r = k)) rows.

Definition group_by {R K} `{EqDecision K} (key : R → K) (rows : list R) : list (K * list R) :=
  (λ k, (k, having key k rows)) <$> remove_dups (key <$> rows).

Definition count {R} (rows : list R) : Z := Z.of_nat (length rows).
(** [count( * ) FILTER (WHERE p)] *)
Definition count_if {R} (p : R → bool) (rows : list R) : Z := count (List.filter p rows).
(** [count(DISTINCT f)]: nulls are not counted. *)
Definition count_distinct {R A} `{EqDecision A} (f : R → option A) (rows : list R) : Z :=
  count (remove_dups (omap f rows)).
(** [coalesce(sum(f), 0)] *)
Definition sum_of {R} (f : R → option Z) (rows : list R) : Z := foldr Z.add 0 (omap f rows).
(** [max(f)] of a group, which is never empty. *)
Definition max_of {R} (f : R → Z) (rows : list R) : Z :=
  match rows with [] => 0 | r :: rows => fold_left (λ m r, Z.max m (f r)) rows (f r) end.

(** ** Joins *)

Definition coalesce {A} (x y : option A) : option A := match x with Some a => Some a | None => y end.

Definition full_join {A B} (on : A → B → bool) (la : list A) (lb : list B) : list (option A * option B) :=
  (la ≫= λ a, match List.filter (on a) lb with
              | [] => [(Some a, None)]
              | l => (λ b, (Some a, Some b)) <$> l
              end) ++
  ((λ b, (None, Some b)) <$> List.filter (λ b, negb (existsb (λ a, on a b) la)) lb).

Definition left_join {A B} (on : A → B → bool) (la : list A) (lb : list B) : list (A * option B) :=
  la ≫= λ a, match List.filter (on a) lb with [] => [(a, None)] | l => (λ b, (a, Some b)) <$> l end.

Definition inner_join {A B} (on : A → B → bool) (la : list A) (lb : list B) : list (A * B) :=
  la ≫= λ a, (λ b, (a, b)) <$> List.filter (on a) lb.

(** ** Upserts *)

Definition put {K V} `{Countable K} (merge : V → V → V) (t : gmap K V) (p : K * V) : gmap K V :=
  <[fst p := match t !! fst p with Some old => merge old (snd p) | None => snd p end]> t.

Definition upsert {K V} `{Countable K} (merge : V → V → V) (rows : list (K * V)) (t : gmap K V)
  : result SqlError (gmap K V) :=
  if bool_decide (NoDup (fst <$> rows)) then Ok (fold_left (put merge) rows t) else Err SecondUpdate.

(** ** Lemmas *)

Section Group.
Context {R K : Type} `{EqDecision K} (key : R → K).

Lemma having_elem k rows r : r ∈ having key k rows ↔ r ∈ rows ∧ key r = k.
Proof. unfold having. by rewrite elem_of_lfilter, bool_decide_eq_true. Qed.

Lemma having_nil k rows : having key k rows = [] ↔ k ∉ key <$> rows.
Proof.
  split.
  - intros E (r & -> & Hr)%list_elem_of_fmap. apply (not_elem_of_nil r). rewrite <- E. by apply having_elem.
  - intros Hk. apply elem_of_nil_inv. intros r [Hr <-]%having_elem. apply Hk. by apply list_elem_of_fmap_2.
Qed.

Lemma group_by_elem rows k l : (k, l) ∈ group_by key rows ↔ l = having key k rows ∧ l ≠ [].
Proof.
  unfold group_by. rewrite list_elem_of_fmap. split.
  - intros (k' & [= -> ->] & Hk). rewrite elem_of_remove_dups in Hk. split; [done |].
    rewrite having_nil. tauto.
  - intros [-> Hne]. exists k. split; [done |]. rewrite elem_of_remove_dups.
    rewrite having_nil in Hne. by apply dec_stable.
Qed.

Lemma group_by_keys rows : fst <$> group_by key rows = remove_dups (key <$> rows).
Proof. unfold group_by. rewrite <- list_fmap_compose. apply list_fmap_id. Qed.

Lemma group_by_NoDup rows : NoDup (fst <$> group_by key rows).
Proof. rewrite group_by_keys. apply NoDup_remove_dups. Qed.

(** The rows of a group agree with any function of the key. *)
Lemma having_filter (p : R → bool) k rows : having key k (List.filter p rows) = List.filter p (having key k rows).
Proof.
  unfold having. induction rows as [|r rows IH]; [done |]. cbn.
  destruct (p r) eqn:Ep; destruct (bool_decide (key r = k)) eqn:Ek; cbn; rewrite ?Ep, ?Ek, IH; done.
Qed.
End Group.

Section Upsert.
Context {K V : Type} `{Countable K} (merge : V → V → V).

Definition merged (old : option V) (new : V) : V := match old with Some o => merge o new | None => new end.

Lemma put_all_lookup (rows : list (K * V)) (t : gmap K V) k :
  NoDup (fst <$> rows) →
  fold_left (put merge) rows t !! k =
  match od_get k rows with Some v => Some (merged (t !! k) v) | None => t !! k end.
Proof.
  revert t. induction rows as [|[k' v] rows IH]; intros t Hn; [done |].
  apply NoDup_cons in Hn as [Hk Hn]. cbn [fold_left od_get]. rewrite IH by done. unfold put. cbn [fst snd].
  destruct (decide (k = k')) as [->|Hne].
  - assert (od_get k' rows = None) as ->.
    { destruct (od_get k' rows) as [v'|] eqn:E; [| done]. apply od_get_elem in E.
      destruct Hk. apply list_elem_of_fmap. by exists (k', v'). }
    by rewrite lookup_insert_eq.
  - by rewrite lookup_insert_ne by congruence.
Qed.
End Upsert.

(** ** Recomputing a table of aggregates

    A refresh groups the rows it scans by the owner and the key, summarises every group
    and upserts the summaries on the key alone. *)

Section Refresh.
Context {R K V : Type} `{Countable K} (owner : R → N) (key : R → K)
  (summary : N → list R → V) (merge : V → V → V).

Definition proposed (rows : list R) : list (K * V) :=
  (λ g : N * K * list R, (snd (fst g), summary (fst (fst g)) (snd g))) <$>
    group_by (λ r, (owner r, key r)) rows.

Definition refresh (rows : list R) (t : gmap K V) : result SqlError (gmap K V) :=
  upsert merge (proposed rows) t.

(** What an owner's rows share: two rows of one key have one owner. *)
Definition owned (rows : list R) : Prop :=
  ∀ r r', r ∈ rows → r' ∈ rows → key r = key r' → owner r = owner r'.

Lemma owned_group rows r k :
  owned rows → r ∈ rows → key r = k → having (λ r, (owner r, key r)) (owner r, k) rows = having key k rows.
Proof.
  intros Ho Hr Hk. apply List.filter_ext_in. intros r' Hr'%list_elem_of_In. apply bool_decide_ext. split.
  - congruence.
  - intros E. rewrite E. f_equal. apply Ho; [done | done | congruence].
Qed.

Lemma proposed_elem rows k v :
  owned rows → (k, v) ∈ proposed rows ↔ ∃ r, r ∈ rows ∧ key r = k ∧ v = summary (owner r) (having key k rows).
Proof.
  intros Ho. unfold proposed. rewrite list_elem_of_fmap. split.
  - intros ([[o k'] l] & [= -> ->] & [-> Hne]%group_by_elem). destruct (having _ (o, k') rows) as [|r l] eqn:E; [done |].
    assert (r ∈ having (λ r, (owner r, key r)) (o, k') rows) as [Hr [= Hown Hkey]]%having_elem
      by (rewrite E; left).
    exists r. split; [done |]. split; [done |]. cbn. rewrite <- E, <- Hown, (owned_group _ r) by done. done.
  - intros (r & Hr & Hk & ->). exists (owner r, k, having key k rows). split; [done |]. apply group_by_elem.
    rewrite owned_group by done. split; [done |]. rewrite having_nil. intros Hk'. apply Hk'.
    rewrite <- Hk. by apply list_elem_of_fmap_2.
Qed.

Lemma proposed_NoDup rows : owned rows → NoDup (fst <$> proposed rows).
Proof.
  intros Ho. unfold proposed. rewrite <- list_fmap_compose.
  assert (∀ l : list (N * K * list R), NoDup (fst <$> l) → Forall (λ g, g ∈ group_by (λ r, (owner r, key r)) rows) l →
            NoDup ((fst ∘ λ g, (snd (fst g), summary (fst (fst g)) (snd g))) <$> l)) as Hl.
  { intros l. induction l as [|[[o k] g] l IH]; intros Hn Hf; [constructor |].
    apply NoDup_cons in Hn as [Hk Hn]. apply Forall_cons in Hf as [Hg Hf]. constructor; [| by apply IH].
    cbn. intros ([[o' k'] g'] & E & Hin)%list_elem_of_fmap. cbn in E. subst k'.
    rewrite Forall_forall in Hf. pose proof (Hf _ Hin) as Hg'.
    destruct Hk. apply list_elem_of_fmap. exists (o', k, g'). split; [| done]. cbn. f_equal.
    apply group_by_elem in Hg as [-> Hg], Hg' as [-> Hg'].
    destruct (having _ (o, k) rows) as [|r ?] eqn:E1; [done |]. destruct (having _ (o', k) rows) as [|r' ?] eqn:E2; [done |].
    assert (r ∈ having (λ r, (owner r, key r)) (o, k) rows) as [Hr [= <- Hk1]]%having_elem by (rewrite E1; left).
    assert (r' ∈ having (λ r, (owner r, key r)) (o', k) rows) as [Hr' [= <- Hk2]]%having_elem by (rewrite E2; left).
    apply Ho; [done | done | congruence]. }
  apply Hl; [apply group_by_NoDup | by apply Forall_forall].
Qed.

(** A refresh succeeds and leaves, for every key it scanned a row of, the summary of
    those rows; the other keys are as they were. *)
Lemma refresh_lookup rows t :
  owned rows →
  ∃ t', refresh rows t = Ok t' ∧
    ∀ k, t' !! k = match having key k rows with
                   | [] => t !! k
                   | r :: l => Some (merged merge (t !! k) (summary (owner r) (r :: l)))
                   end.
Proof.
  intros Ho. unfold refresh, upsert. rewrite bool_decide_true by by apply proposed_NoDup.
  eexists. split; [done |]. intros k. rewrite put_all_lookup by by apply proposed_NoDup.
  destruct (having key k rows) as [|r l] eqn:E.
  - destruct (od_get k (proposed rows)) as [v|] eqn:Eg; [| done].
    apply od_get_elem, proposed_elem in Eg as (r & Hr & Hk & _); [| done].
    apply having_nil in E. destruct E. rewrite <- Hk. by apply list_elem_of_fmap_2.
  - assert (r ∈ having key k rows) as [Hr Hk]%having_elem by (rewrite E; left).
    assert ((k, summary (owner r) (having key k rows)) ∈ proposed rows) as Hin
      by (apply proposed_elem; [done | by exists r]).
    destruct (od_get k (proposed rows)) as [v|] eqn:Eg.
    + apply od_get_elem in Eg.
      rewrite (NoDup_fst_functional _ _ _ _ (proposed_NoDup rows Ho) Eg Hin), E. done.
    + apply od_elem_get in Hin as [? Hin]. congruence.
Qed.
End Refresh.

(** ** Joining on a key

    With at most one row for a key on either side, an outer join is a table of the two
    rows of each key. *)

Definition the {R K} `{EqDecision K} (key : R → K) (k : K) (rows : list R) : option R := head (having key k rows).

Lemma the_Some {R K} `{EqDecision K} (key : R → K) k rows r : the key k rows = Some r → r ∈ rows ∧ key r = k.
Proof.
  unfold the. intros H. apply having_elem. destruct (having key k rows); [done |]. injection H as ->. left.
Qed.

Lemma the_None {R K} `{EqDecision K} (key : R → K) k rows : the key k rows = None ↔ k ∉ key <$> rows.
Proof. unfold the. rewrite <- having_nil. by destruct (having key k rows). Qed.

Lemma having_single {R K} `{EqDecision K} (key : R → K) k rows :
  NoDup (key <$> rows) → having key k rows = option_list (the key k rows).
Proof.
  intros Hn. unfold the. induction rows as [|r rows IH]; [done |].
  apply NoDup_cons in Hn as [Hr Hn]. cbn. destruct (bool_decide (key r = k)) eqn:E; [| by apply IH].
  bprop. subst k. cbn. f_equal. by apply having_nil.
Qed.

Lemma the_elem {R K} `{EqDecision K} (key : R → K) rows r :
  NoDup (key <$> rows) → r ∈ rows → the key (key r) rows = Some r.
Proof.
  intros Hn Hr. destruct (the key (key r) rows) as [r'|] eqn:E.
  - apply the_Some in E as [Hr' Ek]. f_equal. by eapply NoDup_fmap_elem.
  - apply the_None in E. destruct E. by apply list_elem_of_fmap_2.
Qed.

Section Join.
Context {A B K : Type} `{EqDecision K} (ka : A → K) (kb : B → K) (on : A → B → bool).
Hypothesis on_key : ∀ a b, on a b = bool_decide (kb b = ka a).

Definition join_key (p : option A * option B) : option K := coalesce (ka <$> fst p) (kb <$> snd p).

Definition unmatched (la : list A) (lb : list B) : list B := List.filter (λ b, negb (existsb (λ a, on a b) la)) lb.

Lemma matching a lb : NoDup (kb <$> lb) → List.filter (on a) lb = option_list (the kb (ka a) lb).
Proof.
  intros Hn. rewrite <- having_single by done. apply List.filter_ext. intros b. apply on_key.
Qed.

Lemma full_join_rows la lb :
  NoDup (kb <$> lb) →
  full_join on la lb =
    ((λ a, (Some a, the kb (ka a) lb)) <$> la) ++ ((λ b, (None, Some b)) <$> unmatched la lb).
Proof.
  intros Hn. unfold full_join. f_equal. induction la as [|a la IH]; [done |]. rewrite bind_cons, fmap_cons, IH, matching by done.
  by destruct (the kb (ka a) lb).
Qed.

Lemma unmatched_elem la lb b : b ∈ unmatched la lb ↔ b ∈ lb ∧ kb b ∉ ka <$> la.
Proof.
  unfold unmatched. rewrite elem_of_lfilter, negb_true_iff, <- not_true_iff_false, existsb_exists.
  apply and_iff_compat_l. rewrite list_elem_of_fmap. apply not_iff_compat. split.
  - intros (a & Ha%list_elem_of_In & E). rewrite on_key in E. bprop. by exists a.
  - intros (a & E & Ha). exists a. split; [by apply list_elem_of_In |]. rewrite on_key. by apply bool_decide_true.
Qed.

Lemma full_join_NoDup la lb :
  NoDup (ka <$> la) → NoDup (kb <$> lb) → NoDup (join_key <$> full_join on la lb).
Proof.
  intros Ha Hb. rewrite full_join_rows, fmap_app, <- !list_fmap_compose by done. apply NoDup_app.
  change (join_key ∘ (λ a, (Some a, the kb (ka a) lb))) with (Some ∘ ka).
  change (join_key ∘ (λ b, (None, Some b))) with (Some ∘ kb). split; [| split].
  - rewrite list_fmap_compose. by apply NoDup_fmap_2; [apply _ |].
  - intros k (a & -> & Hin)%list_elem_of_fmap (b & [= E] & [_ Hb']%unmatched_elem)%list_elem_of_fmap.
    destruct Hb'. rewrite <- E. by apply list_elem_of_fmap_2.
  - rewrite list_fmap_compose. apply NoDup_fmap_2; [apply _ |]. by apply NoDup_fmap_filter.
Qed.

Lemma full_join_elem la lb p :
  NoDup (ka <$> la) → NoDup (kb <$> lb) →
  p ∈ full_join on la lb ↔
    ∃ k, (k ∈ ka <$> la ∨ k ∈ kb <$> lb) ∧ p = (the ka k la, the kb k lb).
Proof.
  intros Ha Hb. rewrite full_join_rows, elem_of_app, !list_elem_of_fmap by done. split.
  - intros [(a & -> & Hin)|(b & -> & [Hin Hno]%unmatched_elem)].
    + exists (ka a). split; [left; by apply list_elem_of_fmap_2 |]. by rewrite the_elem.
    + exists (kb b). split; [right; by apply list_elem_of_fmap_2 |].
      rewrite (the_elem kb) by done. by rewrite (proj2 (the_None ka _ _)).
  - intros (k & Hk & ->). destruct (the ka k la) as [a|] eqn:E.
    + apply the_Some in E as [Hin <-]. left. by exists a.
    + pose proof E as E'%the_None. destruct Hk as [Hk|Hk]; [done |].
      apply list_elem_of_fmap in Hk as (b & -> & Hin). right. exists b. rewrite the_elem by done.
      split; [done |]. by apply unmatched_elem.
Qed.

Lemma join_key_the la lb k :
  k ∈ ka <$> la ∨ k ∈ kb <$> lb → join_key (the ka k la, the kb k lb) = Some k.
Proof.
  intros Hk. unfold join_key. cbn. destruct (the ka k la) as [a|] eqn:Ea.
  - apply the_Some in Ea as [_ <-]. done.
  - apply the_None in Ea. destruct Hk as [|Hk]; [done |]. destruct (the kb k lb) as [b|] eqn:Eb.
    + apply the_Some in Eb as [_ <-]. done.
    + by apply the_None in Eb.
Qed.
End Join.

(** ** Aggregates of groups *)

Lemma the_group {R K A} `{EqDecision K} (key : R → K) (F : list R → A) k rows :
  the fst k ((λ g, (fst g, F (snd g))) <$> group_by key rows) =
  match having key k rows with [] => None | r :: l => Some (k, F (r :: l)) end.
Proof.
  assert (fst <$> ((λ g, (fst g, F (snd g))) <$> group_by key rows) = remove_dups (key <$> rows)) as Hk
    by (rewrite <- list_fmap_compose; apply group_by_keys).
  destruct (having key k rows) as [|r l] eqn:E.
  - apply the_None. rewrite Hk, elem_of_remove_dups. by apply having_nil.
  - apply (the_elem fst _ (k, F (r :: l))); [rewrite Hk; apply NoDup_remove_dups |].
    apply list_elem_of_fmap. exists (k, r :: l). split; [done |]. by apply group_by_elem.
Qed.

Lemma max_of_spec {R} (f : R → Z) rows :
  rows ≠ [] → (∀ r, r ∈ rows → f r <= max_of f rows) ∧ ∃ r, r ∈ rows ∧ f r = max_of f rows.
Proof.
  destruct rows as [|r0 rows]; [done |]. intros _. cbn [max_of].
  assert (∀ m, (m <= fold_left (λ m r, Z.max m (f r)) rows m) ∧
    (∀ r, r ∈ rows → f r <= fold_left (λ m r, Z.max m (f r)) rows m) ∧
    (fold_left (λ m r, Z.max m (f r)) rows m = m ∨ ∃ r, r ∈ rows ∧ f r = fold_left (λ m r, Z.max m (f r)) rows m)) as H.
  { induction rows as [|r rows IH]; intros m; [split; [done | split; [by intros ? []%not_elem_of_nil | by left]] |].
    cbn [fold_left]. destruct (IH (Z.max m (f r))) as (H1 & H2 & H3). split; [lia |]. split.
    - intros r' [->|Hr]%elem_of_cons; [lia | by apply H2].
    - destruct H3 as [->|(r' & Hr & E)]; [| right; exists r'; split; [by right | done]].
      destruct (Z.max_spec m (f r)) as [[_ ->]|[_ ->]]; [right; exists r; split; [by left | done] | by left]. }
  destruct (H (f r0)) as (H1 & H2 & H3). split.
  - intros r [->|Hr]%elem_of_cons; [done | by apply H2].
  - destruct H3 as [->|(r & Hr & E)]; [exists r0; split; [by left | done] | exists r; split; [by right | done]].
Qed.

(** An outer join in which every row on the left has at most one match. *)
Lemma left_join_match {A B} (on : A → B → bool) (f : A → option B) la lb :
  (∀ a, List.filter (on a) lb = option_list (f a)) → left_join on la lb = (λ a, (a, f a)) <$> la.
Proof.
  intros Hf. unfold left_join. induction la as [|a la IH]; [done |]. rewrite bind_cons, fmap_cons, IH, Hf.
  by destruct (f a).
Qed.
