(* ===== verification/Rollups.v ===== *)
(** * Reporting rollups (mmp_db/rollups.py, mmp_worker/rollups.py, mmp_worker/jobs.py)

    The refresh statements recompute the tables of aggregates over a window of arrival
    times; the two passes of the worker run them over three hours every minute and over
    eight days every night.  Each statement is a scan followed by the grouping and the
    upsert of [Relational]; a pass is its transactions in order, each of them all or
    nothing.  The clock of the database ([now()]) is an argument. *)

From stdpp Require Import gmap.
From S2P Require Import Prelude Ids Engine Fraud Store Schema Writer Counting Relational.

#[local] Open Scope Z_scope.
#[local] Open Scope mmp_scope.

(** "No campaign" *)
Definition NO_CAMPAIGN : uuid := 0%N.

Definition within (start stop t : datetime) : bool := (start <=? t) && (t <? stop).
(** [date_trunc('day', t)], as an instant and as a date. *)
Definition midnight (t : datetime) : datetime := t - t mod day.
Definition date_of (t : datetime) : Z := t / day.

(** ** [rollup_events_hourly] *)

Definition EventKey : Type := uuid * datetime * pystr * Z.

Record EventRollup := {
  eu_organization_id : uuid;
  eu_event_count : Z;
  eu_unique_devices : Z;
  eu_revenue_minor : Z;
  eu_updated_at : datetime
}.

Definition event_rollup_key (e : EventRow) : EventKey :=
  (er_app_id e, hour_of (er_occurred_at e), er_event_name e, er_platform e).

Definition event_summary (clock : datetime) (org : uuid) (rows : list EventRow) : EventRollup :=
  {| eu_organization_id := org;
     eu_event_count := count rows;
     eu_unique_devices := count_distinct (λ e, Some (er_anonymous_id e)) rows;
     eu_revenue_minor := sum_of er_revenue_minor rows;
     eu_updated_at := clock |}.

Definition event_merge (old new : EventRollup) : EventRollup :=
  {| eu_organization_id := eu_organization_id old;
     eu_event_count := eu_event_count new;
     eu_unique_devices := eu_unique_devices new;
     eu_revenue_minor := eu_revenue_minor new;
     eu_updated_at := eu_updated_at new |}.

(** [WHERE received_at >= $1 AND received_at < $2 AND occurred_at >= $1] *)
Definition event_scan (start stop : datetime) (events : list EventRow) : list EventRow :=
  List.filter (λ e, within start stop (er_received_at e) && (start <=? er_occurred_at e)) events.

Definition refresh_events_hourly (clock start stop : datetime) (events : list EventRow)
    (t : gmap EventKey EventRollup) : result SqlError (gmap EventKey EventRollup) :=
  let rows := proposed er_organization_id event_rollup_key (event_summary clock) (event_scan start stop events) in
  let* _ := raise_if (negb (forallb (λ p, fits (eu_revenue_minor (snd p))) rows)) OutOfRange in
  upsert event_merge rows t.

(** ** [rollup_clicks_hourly] *)

Definition ClickKey : Type := uuid * datetime * uuid * Z.

Record ClickRollup := {
  cu_organization_id : uuid;
  cu_click_count : Z;
  cu_bot_count : Z;
  cu_updated_at : datetime
}.

Definition click_rollup_key (c : ClickRecord) : ClickKey :=
  (cr_app_id c, hour_of (cr_clicked_at c), default NO_CAMPAIGN (cr_campaign_id c), cr_platform c).

Definition click_summary (clock : datetime) (org : uuid) (rows : list ClickRecord) : ClickRollup :=
  {| cu_organization_id := org;
     cu_click_count := count rows;
     cu_bot_count := count_if cr_is_bot rows;
     cu_updated_at := clock |}.

Definition click_merge (old new : ClickRollup) : ClickRollup :=
  {| cu_organization_id := cu_organization_id old;
     cu_click_count := cu_click_count new;
     cu_bot_count := cu_bot_count new;
     cu_updated_at := cu_updated_at new |}.

Definition refresh_clicks_hourly (clock start stop : datetime) (clicks : list ClickRecord)
    (t : gmap ClickKey ClickRollup) : result SqlError (gmap ClickKey ClickRollup) :=
  refresh cr_organization_id click_rollup_key (click_summary clock) click_merge
    (List.filter (λ c, within start stop (cr_clicked_at c)) clicks) t.

(** ** [rollup_campaign_daily] *)

Definition CampaignKey : Type := uuid * Z * uuid.

Record CampaignRollup := {
  ca_organization_id : uuid;
  ca_clicks : Z;
  ca_installs : Z;
  ca_organic_installs : Z;
  ca_revenue_minor : Z;
  ca_conversions : Z;
  ca_updated_at : datetime
}.

(** A row of one of the three common table expressions: what it is grouped by and its
    aggregates. *)
Record DayRow (A : Type) := { dr_organization_id : uuid; dr_key : CampaignKey; dr_value : A }.
Arguments dr_organization_id {A}.
Arguments dr_key {A}.
Arguments dr_value {A}.

Definition per_day {R A} (org : R → uuid) (key : R → CampaignKey) (value : list R → A) (rows : list R)
  : list (DayRow A) :=
  (λ g, {| dr_organization_id := fst (fst g); dr_key := snd (fst g); dr_value := value (snd g) |}) <$>
    group_by (λ r, (org r, key r)) rows.

(** The rows with a campaign, each with it. *)
Definition with_campaign {R} (campaign : R → option uuid) (rows : list R) : list (R * uuid) :=
  omap (λ r, (λ c, (r, c)) <$> campaign r) rows.

Definition click_day (p : ClickRecord * uuid) : CampaignKey :=
  (cr_app_id (fst p), date_of (cr_clicked_at (fst p)), snd p).
Definition counted_clicks (start stop : datetime) (clicks : list ClickRecord) : list (ClickRecord * uuid) :=
  with_campaign cr_campaign_id
    (List.filter (λ c, within start stop (cr_clicked_at c) && negb (cr_is_bot c)) clicks).

Definition install_day (p : AttributionRow * uuid) : CampaignKey :=
  (a_app_id (fst p), date_of (a_installed_at (fst p)), snd p).
Definition current (a : AttributionRow) : bool := bool_decide (a_superseded_by a = None).
Definition counted_installs (start stop : datetime) (attributions : list AttributionRow)
  : list (AttributionRow * uuid) :=
  with_campaign a_campaign_id
    (List.filter (λ a, within start stop (a_installed_at a) && current a) attributions).

Definition credited (e : EventRow) (p : AttributionRow * uuid) : bool :=
  bool_decide (a_app_id (fst p) = er_app_id e) && bool_decide (a_anonymous_id (fst p) = er_anonymous_id e) &&
  current (fst p) && (er_received_at e <=? a_expires_at (fst p)).
Definition revenue_day (p : EventRow * (AttributionRow * uuid)) : CampaignKey :=
  (a_app_id (fst (snd p)), date_of (er_occurred_at (fst p)), snd (snd p)).
Definition credited_events (start stop : datetime) (events : list EventRow) (attributions : list AttributionRow)
  : list (EventRow * (AttributionRow * uuid)) :=
  inner_join credited (event_scan start stop events) (with_campaign a_campaign_id attributions).

Definition Revenue : Type := Z * Z.
Definition revenue_of (rows : list (EventRow * (AttributionRow * uuid))) : Revenue :=
  (sum_of (λ p, er_revenue_minor (fst p)) rows,
   count_if (λ p, match er_revenue_minor (fst p) with Some _ => true | None => false end) rows).

Definition day_clicks start stop clicks : list (DayRow Z) :=
  per_day (λ p, cr_organization_id (fst p)) click_day count (counted_clicks start stop clicks).
Definition day_installs start stop attributions : list (DayRow Z) :=
  per_day (λ p, a_organization_id (fst p)) install_day count (counted_installs start stop attributions).
Definition day_revenue start stop events attributions : list (DayRow Revenue) :=
  per_day (λ p, a_organization_id (fst (snd p))) revenue_day revenue_of
    (credited_events start stop events attributions).

(** The two outer joins, on the application, the campaign and the day. *)
Definition same_day {A B} (c : DayRow A) (i : DayRow B) : bool := bool_decide (dr_key i = dr_key c).

Definition pair_key (p : option (DayRow Z) * option (DayRow Z)) : option CampaignKey :=
  coalesce (dr_key <$> fst p) (dr_key <$> snd p).
Definition same_pair_day (p : option (DayRow Z) * option (DayRow Z)) (r : DayRow Revenue) : bool :=
  bool_decide (Some (dr_key r) = pair_key p).

Definition joined start stop events clicks attributions
  : list (option (option (DayRow Z) * option (DayRow Z)) * option (DayRow Revenue)) :=
  full_join same_pair_day
    (full_join same_day (day_clicks start stop clicks) (day_installs start stop attributions))
    (day_revenue start stop events attributions).

(** One selected row; its key is never null. *)
Definition campaign_row (clock : datetime)
    (j : option (option (DayRow Z) * option (DayRow Z)) * option (DayRow Revenue))
  : option (CampaignKey * CampaignRollup) :=
  let c := p ← fst j; fst p in
  let i := p ← fst j; snd p in
  let r := snd j in
  key ← coalesce (dr_key <$> c) (coalesce (dr_key <$> i) (dr_key <$> r));
  org ← coalesce (dr_organization_id <$> c) (coalesce (dr_organization_id <$> i) (dr_organization_id <$> r));
  Some (key, {| ca_organization_id := org;
                ca_clicks := default 0 (dr_value <$> c);
                ca_installs := default 0 (dr_value <$> i);
                ca_organic_installs := 0;
                ca_revenue_minor := default 0 (fst ∘ dr_value <$> r);
                ca_conversions := default 0 (snd ∘ dr_value <$> r);
                ca_updated_at := clock |}).

Definition campaign_merge (old new : CampaignRollup) : CampaignRollup :=
  {| ca_organization_id := ca_organization_id old;
     ca_clicks := ca_clicks new;
     ca_installs := ca_installs new;
     ca_organic_installs := ca_organic_installs old;
     ca_revenue_minor := ca_revenue_minor new;
     ca_conversions := ca_conversions new;
     ca_updated_at := ca_updated_at new |}.

Definition refresh_campaign_daily (clock start stop : datetime) (events : list EventRow) (clicks : list ClickRecord)
    (attributions : list AttributionRow) (t : gmap CampaignKey CampaignRollup)
  : result SqlError (gmap CampaignKey CampaignRollup) :=
  let rows := omap (campaign_row clock) (joined start stop events clicks attributions) in
  let* _ := raise_if (negb (forallb (λ p, fits (ca_revenue_minor (snd p))) rows)) OutOfRange in
  upsert campaign_merge rows t.

(** ** The passes *)

Definition TRAILING_WINDOW : timedelta := 3 * hour.
Definition LATE_ARRIVAL_WINDOW : timedelta := 8 * day.
Definition CAMPAIGN_WINDOW : timedelta := 2 * day.

Record Tables := {
  tb_events : list EventRow;
  tb_clicks : list ClickRecord;
  tb_attributions : list AttributionRow
}.

Record Reports := {
  rp_events : gmap EventKey EventRollup;
  rp_clicks : gmap ClickKey ClickRollup;
  rp_campaign : gmap CampaignKey CampaignRollup
}.

Definition no_reports : Reports := {| rp_events := ∅; rp_clicks := ∅; rp_campaign := ∅ |}.

(** Two transactions: the hourly tables together, then the campaign table. *)
Definition refresh_window (clock start campaign_start stop : datetime) (tb : Tables) (rp : Reports)
  : option SqlError * Reports :=
  match (let* e := refresh_events_hourly clock start stop (tb_events tb) (rp_events rp) in
         let* c := refresh_clicks_hourly clock start stop (tb_clicks tb) (rp_clicks rp) in
         Ok (e, c)) with
  | Err x => (Some x, rp)
  | Ok (e, c) =>
      match refresh_campaign_daily clock campaign_start stop (tb_events tb) (tb_clicks tb) (tb_attributions tb)
              (rp_campaign rp) with
      | Err x => (Some x, {| rp_events := e; rp_clicks := c; rp_campaign := rp_campaign rp |})
      | Ok ca => (None, {| rp_events := e; rp_clicks := c; rp_campaign := ca |})
      end
  end.

Definition trailing_start (now : datetime) : datetime := hour_of (now - TRAILING_WINDOW).
Definition late_start (now : datetime) : datetime := midnight (now - LATE_ARRIVAL_WINDOW).

Definition refresh_trailing (now clock : datetime) : Tables → Reports → option SqlError * Reports :=
  refresh_window clock (trailing_start now) (midnight (now - CAMPAIGN_WINDOW)) (now + minute).

Definition refresh_late_arrivals (now clock : datetime) : Tables → Reports → option SqlError * Reports :=
  refresh_window clock (late_start now) (late_start now) (now + minute).

(** ** Metering (mmp_worker/jobs.py) *)

Definition USAGE_LOOKBACK : timedelta := 3 * hour.

Definition UsageKey : Type := uuid * uuid * datetime.

(** [USAGE_ROLLUP_SQL]: the metric is always ['events']. *)
Definition refresh_usage_rollup (start stop : datetime) (events : list EventRow) (t : gmap UsageKey Z)
  : result SqlError (gmap UsageKey Z) :=
  upsert (λ _ new, new)
    ((λ g, (fst g, count (snd g))) <$>
       group_by (λ e, (er_organization_id e, er_app_id e, hour_of (er_received_at e)))
         (List.filter (λ e, within start stop (er_received_at e)) events)) t.

(** [refresh_usage]: both statements in one transaction; [PIPELINE_AUDIT_SQL] is the one
    the reconciliation runs. *)
Definition refresh_usage (now : datetime) (events : list EventRow) (usage : gmap UsageKey Z) (audit : Audit)
  : result SqlError (gmap UsageKey Z * Audit) :=
  let start := hour_of (now - USAGE_LOOKBACK) in
  let* usage := refresh_usage_rollup start now events usage in
  Ok (usage, record_stored StagePersisted start now ((λ e, (er_app_id e, er_received_at e)) <$> events) audit).

(** ** Lemmas: hours *)

Lemma hour_of_le t : hour_of t <= t.
Proof. unfold hour_of. assert (0 < hour) by done. pose proof (Z.mod_pos_bound t hour). lia. Qed.

Lemma hour_of_ge s t : s mod hour = 0 → s <= t → s <= hour_of t.
Proof.
  intros Hs Hst. unfold hour_of. assert (0 < hour) by done.
  pose proof (Z.div_mod t hour). pose proof (Z.div_mod s hour).
  pose proof (Z.div_le_mono s t hour ltac:(done) Hst). nia.
Qed.

Lemma hour_of_aligned t : hour_of t mod hour = 0.
Proof.
  unfold hour_of. assert (0 < hour) by done. rewrite Zminus_mod_idemp_r, Z.sub_diag. by apply Z.mod_0_l.
Qed.

Lemma midnight_aligned t : midnight t mod hour = 0.
Proof.
  unfold midnight. assert (0 < hour) by done. assert (day = hour * 24) as -> by done.
  replace (t - t mod (hour * 24)) with ((t / (hour * 24) * 24) * hour).
  - by apply Z.mod_mul.
  - pose proof (Z.div_mod t (hour * 24)). lia.
Qed.

Lemma midnight_le t : midnight t <= t.
Proof. unfold midnight. assert (0 < day) by done. pose proof (Z.mod_pos_bound t day). lia. Qed.

Lemma midnight_hour t t' : t <= t' → midnight t <= hour_of t'.
Proof.
  intros H. apply hour_of_ge; [apply midnight_aligned |]. pose proof (midnight_le t). lia.
Qed.

(** ** Lemmas: sums *)

(** What the sums of any part of the rows stay under. *)
Definition total_revenue (events : list EventRow) : Z :=
  foldr (λ e s, Z.abs (default 0 (er_revenue_minor e)) + s) 0 events.

Lemma revenue_total_cons e events :
  total_revenue (e :: events) = Z.abs (default 0 (er_revenue_minor e)) + total_revenue events.
Proof. done. Qed.

Lemma sum_of_cons {R} (f : R → option Z) r rows : sum_of f (r :: rows) = default 0 (f r) + sum_of f rows.
Proof. unfold sum_of. cbn. by destruct (f r). Qed.

Lemma sum_bounded events : Z.abs (sum_of er_revenue_minor events) <= total_revenue events.
Proof.
  induction events as [|e events IH]; [done |]. rewrite sum_of_cons, revenue_total_cons. lia.
Qed.

Lemma total_filter p events : total_revenue (List.filter p events) <= total_revenue events.
Proof.
  induction events as [|e events IH]; [done |]. cbn [List.filter]. rewrite revenue_total_cons.
  destruct (p e); rewrite ?revenue_total_cons; lia.
Qed.

Lemma fits_bounded z : Z.abs z < 2 ^ 63 → fits z = true.
Proof. intros H. unfold fits. apply andb_true_iff. rewrite Z.leb_le, Z.ltb_lt. lia. Qed.

(** An application belongs to one organisation, and the money in the table adds up to
    less than a [bigint]. *)
Record events_ok (events : list EventRow) : Prop := {
  eo_owner : ∀ e e', e ∈ events → e' ∈ events → er_app_id e = er_app_id e' →
             er_organization_id e = er_organization_id e';
  eo_money : total_revenue events < 2 ^ 63
}.

Lemma scan_owned events start stop :
  events_ok events → owned er_organization_id event_rollup_key (event_scan start stop events).
Proof.
  intros [Ho _] e e' [He _]%elem_of_lfilter [He' _]%elem_of_lfilter E. apply Ho; [done | done |].
  unfold event_rollup_key in E. congruence.
Qed.

(** ** Lemmas: one refresh of the events *)

Definition shows (t : gmap EventKey EventRollup) (k : EventKey) (rows : list EventRow) : Prop :=
  rows = [] ∨ ∃ r, t !! k = Some r ∧ eu_event_count r = count rows ∧
    eu_unique_devices r = count_distinct (λ e, Some (er_anonymous_id e)) rows ∧
    eu_revenue_minor r = sum_of er_revenue_minor rows.

Lemma refresh_events_spec clock start stop events t :
  events_ok events →
  ∃ t', refresh_events_hourly clock start stop events t = Ok t' ∧
    ∀ k, (having event_rollup_key k (event_scan start stop events) = [] → t' !! k = t !! k) ∧
         shows t' k (having event_rollup_key k (event_scan start stop events)).
Proof.
  intros Hok. unfold refresh_events_hourly.
  pose proof (scan_owned events start stop Hok) as Ho.
  assert (forallb (λ p, fits (eu_revenue_minor (snd p)))
    (proposed er_organization_id event_rollup_key (event_summary clock) (event_scan start stop events)) = true) as ->.
  { apply forallb_forall. intros [k v] (e & He & Hk & ->)%list_elem_of_In%(proposed_elem _ _ _ _ _ _ Ho).
    cbn [event_summary eu_revenue_minor snd]. apply fits_bounded. eapply Z.le_lt_trans; [apply sum_bounded |].
    unfold having, event_scan. eapply Z.le_lt_trans; [apply total_filter |]. eapply Z.le_lt_trans; [apply total_filter |].
    apply Hok. }
  cbn [negb raise_if rbind].
  destruct (refresh_lookup er_organization_id event_rollup_key (event_summary clock) event_merge _ t Ho) as (t' & E & Hl).
  exists t'. split; [exact E |]. intros k. rewrite Hl. destruct (having _ k _) as [|e l] eqn:Eh; [split; [done | by left] |].
  split; [done |]. right. eexists. split; [rewrite Hl, Eh; reflexivity |].
  unfold merged. destruct (t !! k); done.
Qed.

(** The hour of a key. *)
Definition key_hour (k : EventKey) : datetime := snd (fst (fst k)).

(** A bucket the window covers is scanned in full, when no event is dated more than
    [ahead] after its arrival. *)
Lemma scan_covers ahead start stop events k :
  0 <= ahead → (∀ e, e ∈ events → er_occurred_at e <= er_received_at e + ahead ∧ er_received_at e < stop) →
  start + ahead <= key_hour k →
  having event_rollup_key k (event_scan start stop events) = having event_rollup_key k events.
Proof.
  intros Ha He Hk. unfold event_scan. rewrite having_filter. apply forallb_filter_id, forallb_forall.
  intros e [Hin <-]%list_elem_of_In%having_elem. cbn in Hk. destruct (He e Hin) as [H1 H2].
  pose proof (hour_of_le (er_occurred_at e)). unfold within. rewrite !andb_true_iff, !Z.leb_le, Z.ltb_lt. lia.
Qed.

(** A bucket before the window is not touched. *)
Lemma scan_spares start stop events k :
  start mod hour = 0 → key_hour k < start → having event_rollup_key k (event_scan start stop events) = [].
Proof.
  intros Hs Hk. apply having_nil. intros (e & -> & He)%list_elem_of_fmap. cbn in Hk.
  apply elem_of_lfilter in He as [_ He]. rewrite andb_true_iff, Z.leb_le in He. destruct He as [_ He].
  pose proof (hour_of_ge start (er_occurred_at e) Hs He). lia.
Qed.

(** ** Histories of arrivals and passes *)

Inductive report_op :=
| Arrive (e : EventRow)
| Trailing (now clock : datetime)
| Late (now clock : datetime).

Definition arrive (e : EventRow) (tb : Tables) : Tables :=
  {| tb_events := tb_events tb ++ [e]; tb_clicks := tb_clicks tb; tb_attributions := tb_attributions tb |}.

Definition report_step (s : Tables * Reports) (op : report_op) : Tables * Reports :=
  match op with
  | Arrive e => (arrive e (fst s), snd s)
  | Trailing now clock => (fst s, snd (refresh_trailing now clock (fst s) (snd s)))
  | Late now clock => (fst s, snd (refresh_late_arrivals now clock (fst s) (snd s)))
  end.

Definition report_run (ops : list report_op) (s : Tables * Reports) : Tables * Reports :=
  fold_left report_step ops s.

Fixpoint arrivals (ops : list report_op) : list EventRow :=
  match ops with [] => [] | Arrive e :: ops => e :: arrivals ops | _ :: ops => arrivals ops end.

(** A pass finds no row that arrives after its end. *)
Fixpoint in_time (seen : list EventRow) (ops : list report_op) : Prop :=
  match ops with
  | [] => True
  | Arrive e :: ops => in_time (seen ++ [e]) ops
  | (Trailing now _ | Late now _) :: ops => Forall (λ e, er_received_at e < now + minute) seen ∧ in_time seen ops
  end.

(** The rows of all three tables as the passes expect them. *)
Record tables_ok (tb : Tables) : Prop := {
  to_events : events_ok (tb_events tb);
  to_clicks : ∀ c c', c ∈ tb_clicks tb → c' ∈ tb_clicks tb → cr_app_id c = cr_app_id c' →
              cr_organization_id c = cr_organization_id c'
}.

Lemma refresh_clicks_total clock start stop tb t :
  tables_ok tb → ∃ t', refresh_clicks_hourly clock start stop (tb_clicks tb) t = Ok t'.
Proof.
  intros [_ Ho]. unfold refresh_clicks_hourly.
  destruct (refresh_lookup cr_organization_id click_rollup_key (click_summary clock) click_merge
              (List.filter (λ c, within start stop (cr_clicked_at c)) (tb_clicks tb)) t) as (t' & E & _).
  { intros c c' [Hc _]%elem_of_lfilter [Hc' _]%elem_of_lfilter E. apply Ho; [done | done |].
    unfold click_rollup_key in E. congruence. }
  by exists t'.
Qed.

(** The hourly tables are refreshed whatever becomes of the campaign table. *)
Lemma refresh_window_events clock start campaign_start stop tb rp :
  tables_ok tb →
  ∃ t', refresh_events_hourly clock start stop (tb_events tb) (rp_events rp) = Ok t' ∧
    rp_events (snd (refresh_window clock start campaign_start stop tb rp)) = t'.
Proof.
  intros Hok. destruct (refresh_events_spec clock start stop (tb_events tb) (rp_events rp)) as (t' & E & _); [apply Hok |].
  destruct (refresh_clicks_total clock start stop tb (rp_clicks rp) Hok) as (c' & Ec).
  exists t'. split; [done |]. unfold refresh_window. rewrite E, Ec. cbn [rbind].
  by destruct (refresh_campaign_daily _ _ _ _ _ _ _).
Qed.

(** A pass over an aligned window: a bucket inside is exact, a bucket before is kept. *)
Lemma pass_events clock start campaign_start stop tb rp k :
  tables_ok tb → start mod hour = 0 →
  (∀ e, e ∈ tb_events tb → er_occurred_at e <= er_received_at e ∧ er_received_at e < stop) →
  let t' := rp_events (snd (refresh_window clock start campaign_start stop tb rp)) in
  (start <= key_hour k → shows t' k (having event_rollup_key k (tb_events tb))) ∧
  (key_hour k < start → t' !! k = rp_events rp !! k).
Proof.
  intros Hok Hs He t'. destruct (refresh_window_events clock start campaign_start stop tb rp Hok) as (t1 & E & E').
  destruct (refresh_events_spec clock start stop (tb_events tb) (rp_events rp)) as (t2 & E2 & Hsp); [apply Hok |].
  assert (t' = t2) as -> by (unfold t'; congruence). destruct (Hsp k) as [Hsp1 Hsp2]. split.
  - intros Hk. rewrite (scan_covers 0) in Hsp2; [done | done | | lia].
    intros e Hin. rewrite Z.add_0_r. by apply He.
  - intros Hk. apply Hsp1. by apply scan_spares.
Qed.

Lemma arrivals_run ops s : tb_events (fst (report_run ops s)) = tb_events (fst s) ++ arrivals ops.
Proof.
  revert s. induction ops as [|[e|? ?|? ?] ops IH]; intros s; cbn [report_run fold_left arrivals].
  - by rewrite app_nil_r.
  - unfold report_run in IH. rewrite IH. cbn. by rewrite <- app_assoc.
  - unfold report_run in IH. rewrite IH. done.
  - unfold report_run in IH. rewrite IH. done.
Qed.

Lemma events_ok_prefix l l' : events_ok (l ++ l') → events_ok l.
Proof.
  intros [Ho Hm]. split.
  - intros e e' He He'. apply Ho; apply elem_of_app; by left.
  - assert (∀ l, 0 <= total_revenue l) as Hnn.
    { intros m. induction m as [|e m IH]; [done |]. rewrite revenue_total_cons. lia. }
    assert (total_revenue (l ++ l') = total_revenue l + total_revenue l') as E.
    { clear. induction l as [|e l IH]; [done |]. rewrite <- app_comm_cons, !revenue_total_cons. lia. }
    specialize (Hnn l'). lia.
Qed.

(** What is reported for a key: the first [n] arrivals, for some [n] of at least [m]. *)
Definition reported (m : nat) (k : EventKey) (s : Tables * Reports) : Prop :=
  ∃ n, (m <= n <= length (tb_events (fst s)))%nat ∧
    shows (rp_events (snd s)) k (having event_rollup_key k (take n (tb_events (fst s)))).

Section History.
Context (k : EventKey) (m : nat).

Lemma pass_reported s clock start campaign_start now :
  tables_ok (fst s) → start mod hour = 0 →
  Forall (λ e, er_occurred_at e <= er_received_at e) (tb_events (fst s)) →
  Forall (λ e, er_received_at e < now + minute) (tb_events (fst s)) →
  (start <= key_hour k ∧ (m <= length (tb_events (fst s)))%nat) ∨ reported m k s →
  reported m k (fst s, snd (refresh_window clock start campaign_start (now + minute) (fst s) (snd s))).
Proof.
  intros Hok Hs H1 H2 Hr. rewrite Forall_forall in H1, H2.
  destruct (pass_events clock start campaign_start (now + minute) (fst s) (snd s) k Hok Hs) as [Hin Hout].
  { intros e He. split; [by apply H1 | by apply H2]. }
  destruct (Z.le_gt_cases start (key_hour k)) as [Hle|Hgt].
  - exists (length (tb_events (fst s))). cbn [fst snd]. rewrite firstn_all. split; [| by apply Hin].
    split; [| done]. destruct Hr as [[_ Hr]|(n & Hn & _)]; [done | lia].
  - destruct Hr as [[Hr _]|(n & Hn & Hsh)]; [lia |]. exists n. split; [done |]. cbn [fst snd].
    unfold shows in *. by rewrite Hout.
Qed.

Lemma run_reported ops s :
  (∀ c c', c ∈ tb_clicks (fst s) → c' ∈ tb_clicks (fst s) → cr_app_id c = cr_app_id c' →
           cr_organization_id c = cr_organization_id c') →
  events_ok (tb_events (fst s) ++ arrivals ops) →
  Forall (λ e, er_occurred_at e <= er_received_at e) (tb_events (fst s) ++ arrivals ops) →
  in_time (tb_events (fst s)) ops → reported m k s → reported m k (report_run ops s).
Proof.
  revert s. induction ops as [|op ops IH]; intros s Hc Hok Ha Ht Hr; [done |].
  assert (tables_ok (fst s)) as Htab by (split; [by eapply events_ok_prefix | done]).
  pose proof Ha as [Ha0 _]%Forall_app.
  destruct op as [e|now clock|now clock]; cbn [report_run fold_left arrivals] in *.
  - apply IH; cbn [report_step fst arrive tb_events tb_clicks]; [done | by rewrite <- app_assoc.. | done |].
    destruct Hr as (n & Hn & Hsh). exists n. cbn. rewrite length_app. split; [lia |]. by rewrite take_app_le by lia.
  - destruct Ht as [Ht0 Ht]. apply IH; [done.. |]. apply pass_reported; [done | apply hour_of_aligned | done | done |].
    by right.
  - destruct Ht as [Ht0 Ht]. apply IH; [done.. |]. apply pass_reported; [done | apply midnight_aligned | done | done |].
    by right.
Qed.
End History.


(** ** The campaign table *)

Section PerDay.
Context {R A : Type} (org : R → uuid) (key : R → CampaignKey) (value : list R → A).

Lemma per_day_proposed rows :
  (λ d : DayRow A, (dr_key d, (dr_organization_id d, dr_value d))) <$> per_day org key value rows =
  proposed org key (λ o l, (o, value l)) rows.
Proof. unfold per_day, proposed. rewrite <- list_fmap_compose. done. Qed.

Lemma per_day_NoDup rows : owned org key rows → NoDup (dr_key <$> per_day org key value rows).
Proof.
  intros Ho. pose proof (proposed_NoDup org key (λ o l, (o, value l)) rows Ho) as Hn.
  rewrite <- per_day_proposed, <- list_fmap_compose in Hn. exact Hn.
Qed.

(** The row of a key: there is one exactly when a row was scanned, and it carries the
    aggregate of those rows. *)
Lemma per_day_the rows k :
  owned org key rows →
  match the dr_key k (per_day org key value rows) with
  | Some d => dr_key d = k ∧ dr_value d = value (having key k rows) ∧ having key k rows ≠ [] ∧
              ∃ r, r ∈ rows ∧ key r = k ∧ dr_organization_id d = org r
  | None => having key k rows = []
  end.
Proof.
  intros Ho. destruct (the dr_key k _) as [d|] eqn:E.
  - apply the_Some in E as [Hd Hk]. split; [done |].
    assert ((dr_key d, (dr_organization_id d, dr_value d)) ∈ proposed org key (λ o l, (o, value l)) rows) as Hp.
    { rewrite <- per_day_proposed. apply list_elem_of_fmap. by exists d. }
    apply proposed_elem in Hp as (r & Hr & Hkr & [= Eo Ev]); [| done]. rewrite Hk in *. split; [done |].
    split; [| by exists r]. rewrite having_nil. intros Hno. apply Hno. rewrite <- Hkr. by apply list_elem_of_fmap_2.
  - apply the_None in E. apply having_nil. intros (r & -> & Hr)%list_elem_of_fmap. apply E.
    assert ((key r, (org r, value (having key (key r) rows))) ∈ proposed org key (λ o l, (o, value l)) rows) as Hp
      by (apply proposed_elem; [done | by exists r]).
    rewrite <- per_day_proposed in Hp. apply list_elem_of_fmap in Hp as (d & [= Ek _ _] & Hd).
    rewrite Ek. by apply list_elem_of_fmap_2.
Qed.
End PerDay.

(** Every row of the three tables that names an application agrees on its owner. *)
Record one_owner (tb : Tables) (owner : uuid → uuid) : Prop := {
  oo_events : ∀ e, e ∈ tb_events tb → er_organization_id e = owner (er_app_id e);
  oo_clicks : ∀ c, c ∈ tb_clicks tb → cr_organization_id c = owner (cr_app_id c);
  oo_attributions : ∀ a, a ∈ tb_attributions tb → a_organization_id a = owner (a_app_id a)
}.

Lemma with_campaign_elem {R} (campaign : R → option uuid) rows r c :
  (r, c) ∈ with_campaign campaign rows ↔ r ∈ rows ∧ campaign r = Some c.
Proof.
  unfold with_campaign. rewrite list_elem_of_omap. split.
  - intros (r' & Hr & E). destruct (campaign r') as [c'|] eqn:Ec; [| done]. by injection E as -> ->.
  - intros [Hr E]. exists r. by rewrite E.
Qed.

Section Campaign.
Context (tb : Tables) (owner : uuid → uuid) (start stop : datetime).
Hypothesis Hown : one_owner tb owner.

Lemma clicks_owned :
  owned (λ p, cr_organization_id (fst p)) click_day (counted_clicks start stop (tb_clicks tb)).
Proof.
  intros [c x] [c' x'] [Hc _]%with_campaign_elem [Hc' _]%with_campaign_elem [= E _ _]. cbn in *.
  apply elem_of_lfilter in Hc as [Hc _], Hc' as [Hc' _].
  by rewrite !(oo_clicks _ _ Hown), E.
Qed.

Lemma installs_owned :
  owned (λ p, a_organization_id (fst p)) install_day (counted_installs start stop (tb_attributions tb)).
Proof.
  intros [a x] [a' x'] [Ha _]%with_campaign_elem [Ha' _]%with_campaign_elem [= E _ _]. cbn in *.
  apply elem_of_lfilter in Ha as [Ha _], Ha' as [Ha' _].
  by rewrite !(oo_attributions _ _ Hown), E.
Qed.

Lemma revenue_owned :
  owned (λ p, a_organization_id (fst (snd p))) revenue_day
    (credited_events start stop (tb_events tb) (tb_attributions tb)).
Proof.
  assert (∀ p, p ∈ credited_events start stop (tb_events tb) (tb_attributions tb) →
               a_organization_id (fst (snd p)) = owner (a_app_id (fst (snd p)))) as Hp.
  { intros [e [a x]] Hp. unfold credited_events, inner_join in Hp. apply list_elem_of_bind in Hp as (e' & Hp & _).
    apply list_elem_of_fmap in Hp as (q & [= -> <-] & [Hq _]%elem_of_lfilter).
    apply with_campaign_elem in Hq as [Hq _]. by apply Hown. }
  intros p p' H1 H2 [= E _ _]. rewrite (Hp p H1), (Hp p' H2). by rewrite E.
Qed.

(** What the table is to say of a campaign's day: the clicks that are not from bots, the
    installs it is credited with, and the events of the devices it is credited with. *)
Definition campaign_clicks (k : CampaignKey) : list (ClickRecord * uuid) :=
  having click_day k (counted_clicks start stop (tb_clicks tb)).
Definition campaign_installs (k : CampaignKey) : list (AttributionRow * uuid) :=
  having install_day k (counted_installs start stop (tb_attributions tb)).
Definition campaign_events (k : CampaignKey) : list (EventRow * (AttributionRow * uuid)) :=
  having revenue_day k (credited_events start stop (tb_events tb) (tb_attributions tb)).

Definition campaign_reference (clock : datetime) (k : CampaignKey) : CampaignRollup :=
  {| ca_organization_id := owner (fst (fst k));
     ca_clicks := count (campaign_clicks k);
     ca_installs := count (campaign_installs k);
     ca_organic_installs := 0;
     ca_revenue_minor := fst (revenue_of (campaign_events k));
     ca_conversions := snd (revenue_of (campaign_events k));
     ca_updated_at := clock |}.

Definition active (k : CampaignKey) : Prop :=
  campaign_clicks k ≠ [] ∨ campaign_installs k ≠ [] ∨ campaign_events k ≠ [].

Let dc := day_clicks start stop (tb_clicks tb).
Let di := day_installs start stop (tb_attributions tb).
Let dv := day_revenue start stop (tb_events tb) (tb_attributions tb).
Let kv (r : DayRow Revenue) : option CampaignKey := Some (dr_key r).

Lemma joined_NoDup :
  NoDup (dr_key <$> dc) ∧ NoDup (dr_key <$> di) ∧ NoDup (kv <$> dv) ∧ NoDup (pair_key <$> full_join same_day dc di).
Proof.
  assert (NoDup (dr_key <$> dc)) as H1 by apply per_day_NoDup, clicks_owned.
  assert (NoDup (dr_key <$> di)) as H2 by apply per_day_NoDup, installs_owned.
  assert (NoDup (dr_key <$> dv)) as H3 by apply per_day_NoDup, revenue_owned.
  split; [done |]. split; [done |]. split.
  - change (kv <$> dv) with (Some ∘ dr_key <$> dv). rewrite list_fmap_compose. by apply NoDup_fmap_2; [apply _ |].
  - by apply (full_join_NoDup dr_key dr_key same_day).
Qed.

Lemma the_revenue (k : CampaignKey) : the kv (Some k) dv = the dr_key k dv.
Proof.
  unfold the, having. f_equal. apply List.filter_ext. intros r. apply bool_decide_ext. unfold kv. split; congruence.
Qed.

Lemma the_pair k :
  (k ∈ dr_key <$> dc ∨ k ∈ dr_key <$> di) →
  the pair_key (Some k) (full_join same_day dc di) = Some (the dr_key k dc, the dr_key k di).
Proof.
  intros Hk. destruct joined_NoDup as (H1 & H2 & _ & H4).
  rewrite <- (join_key_the dr_key dr_key dc di k Hk). apply (the_elem pair_key); [done |].
  apply (full_join_elem dr_key dr_key same_day); [done.. |]. by exists k.
Qed.

(** The row a common table expression has for a key. *)
Definition row_for {A R} (o : option (DayRow A)) (k : CampaignKey) (rows : list R) (value : list R → A) : Prop :=
  match o with
  | Some d => dr_key d = k ∧ dr_value d = value rows ∧ dr_organization_id d = owner (fst (fst k)) ∧ rows ≠ []
  | None => rows = []
  end.

Lemma clicks_row k : row_for (the dr_key k dc) k (campaign_clicks k) count.
Proof.
  pose proof (per_day_the (λ p, cr_organization_id (fst p)) click_day count _ k clicks_owned) as H.
  unfold row_for, dc, day_clicks. destruct (the dr_key k _) as [d|]; [| exact H].
  destruct H as (H1 & H2 & H3 & [c x] & [Hc _]%with_campaign_elem & Hk & Ho). split; [done |]. split; [done |].
  split; [| done]. apply elem_of_lfilter in Hc as [Hc _]. rewrite Ho, <- Hk. by apply Hown.
Qed.

Lemma installs_row k : row_for (the dr_key k di) k (campaign_installs k) count.
Proof.
  pose proof (per_day_the (λ p, a_organization_id (fst p)) install_day count _ k installs_owned) as H.
  unfold row_for, di, day_installs. destruct (the dr_key k _) as [d|]; [| exact H].
  destruct H as (H1 & H2 & H3 & [c x] & [Hc _]%with_campaign_elem & Hk & Ho). split; [done |]. split; [done |].
  split; [| done]. apply elem_of_lfilter in Hc as [Hc _]. rewrite Ho, <- Hk. by apply Hown.
Qed.

Lemma revenue_row k : row_for (the dr_key k dv) k (campaign_events k) revenue_of.
Proof.
  pose proof (per_day_the (λ p, a_organization_id (fst (snd p))) revenue_day revenue_of _ k revenue_owned) as H.
  unfold row_for, dv, day_revenue. destruct (the dr_key k _) as [d|]; [| exact H].
  destruct H as (H1 & H2 & H3 & [e [a x]] & Hp & Hk & Ho). split; [done |]. split; [done |]. split; [| done].
  apply list_elem_of_bind in Hp as (e' & Hp & _).
  apply list_elem_of_fmap in Hp as (q & [= -> <-] & [Hq _]%elem_of_lfilter).
  apply with_campaign_elem in Hq as [Hq _]. rewrite Ho, <- Hk. by apply Hown.
Qed.

Lemma active_keys k : active k ↔ k ∈ dr_key <$> dc ∨ k ∈ dr_key <$> di ∨ k ∈ dr_key <$> dv.
Proof.
  assert (∀ {A R} (l : list (DayRow A)) (rows : list R) value,
    row_for (the dr_key k l) k rows value → k ∈ dr_key <$> l ↔ rows ≠ []) as H.
  { intros A R l rows value Hr. destruct (the dr_key k l) as [d|] eqn:E.
    - destruct Hr as (_ & _ & _ & Hne). apply the_Some in E as [Hd <-]. split; [done |]. intros _. by apply list_elem_of_fmap_2.
    - apply the_None in E. cbn in Hr. tauto. }
  unfold active. rewrite (H _ _ _ _ _ (clicks_row k)), (H _ _ _ _ _ (installs_row k)), (H _ _ _ _ _ (revenue_row k)).
  done.
Qed.

Lemma campaign_row_for clock k :
  active k →
  campaign_row clock (the pair_key (Some k) (full_join same_day dc di), the kv (Some k) dv) =
    Some (k, campaign_reference clock k).
Proof.
  intros Ha. rewrite the_revenue.
  pose proof (clicks_row k) as Hc. pose proof (installs_row k) as Hi. pose proof (revenue_row k) as Hr.
  assert (the pair_key (Some k) (full_join same_day dc di) =
          if bool_decide (k ∈ dr_key <$> dc ∨ k ∈ dr_key <$> di) then Some (the dr_key k dc, the dr_key k di) else None) as ->.
  { destruct (bool_decide _) eqn:E; bprop; [by apply the_pair |]. apply the_None.
    intros (p & Ep & Hp)%list_elem_of_fmap. destruct joined_NoDup as (H1 & H2 & _).
    apply (full_join_elem dr_key dr_key same_day) in Hp as (k' & Hk' & ->); [| done..].
    change (pair_key ?p) with (join_key dr_key dr_key p) in Ep. rewrite join_key_the in Ep by done.
    injection Ep as ->. done. }
  assert ((k ∈ dr_key <$> dc ∨ k ∈ dr_key <$> di) ↔ is_Some (the dr_key k dc) ∨ is_Some (the dr_key k di)) as Hk.
  { rewrite <- !not_eq_None_Some, !the_None. destruct (decide (k ∈ dr_key <$> dc)), (decide (k ∈ dr_key <$> di)); tauto. }
  assert (k ∈ dr_key <$> dv ↔ is_Some (the dr_key k dv)) as Hk'.
  { rewrite <- not_eq_None_Some, the_None. destruct (decide (k ∈ dr_key <$> dv)); tauto. }
  assert ((is_Some (the dr_key k dc) ∨ is_Some (the dr_key k di)) ∨ is_Some (the dr_key k dv)) as Ha'.
  { apply active_keys in Ha. rewrite <- Hk, <- Hk'. tauto. }
  clear Ha. rename Ha' into Ha. rewrite (bool_decide_ext _ _ Hk). clear Hk Hk'.
  unfold campaign_reference.
  destruct (the dr_key k dc) as [[oc kc vc]|], (the dr_key k di) as [[oi ki vi]|], (the dr_key k dv) as [[or kr vr]|];
    cbn in *; destruct_and?; subst; rewrite ?H, ?Hc, ?Hi, ?Hr; try done.
  all: try (destruct Ha as [[[? [=]]|[? [=]]]|[? [=]]]).
  all: rewrite ?bool_decide_true by eauto; try done.
Qed.

Let rows clock := omap (campaign_row clock) (joined start stop (tb_events tb) (tb_clicks tb) (tb_attributions tb)).

Lemma active_join_keys k : active k → Some k ∈ pair_key <$> full_join same_day dc di ∨ Some k ∈ kv <$> dv.
Proof.
  destruct joined_NoDup as (H1 & H2 & _). intros [Hk|[Hk|Hk]]%active_keys.
  3: { right. apply list_elem_of_fmap in Hk as (d & -> & Hd). apply list_elem_of_fmap. by exists d. }
  all: left; apply list_elem_of_fmap; exists (the dr_key k dc, the dr_key k di);
    (split; [symmetry; apply (join_key_the dr_key dr_key); tauto |]);
    apply (full_join_elem dr_key dr_key same_day); [done.. |]; exists k; (split; [tauto | done]).
Qed.

Lemma campaign_joined_elem j :
  j ∈ joined start stop (tb_events tb) (tb_clicks tb) (tb_attributions tb) ↔
  ∃ k, active k ∧ j = (the pair_key (Some k) (full_join same_day dc di), the kv (Some k) dv).
Proof.
  destruct joined_NoDup as (H1 & H2 & H3 & H4). unfold joined.
  rewrite (full_join_elem pair_key kv same_pair_day) by done. split.
  - intros (ok & Hk & ->). assert (∃ k, ok = Some k ∧ active k) as (k & -> & Ha); [| by exists k].
    destruct Hk as [Hk|Hk]; apply list_elem_of_fmap in Hk as (p & -> & Hp).
    + apply (full_join_elem dr_key dr_key same_day) in Hp as (k & Hk & ->); [| done..].
      exists k. split; [by apply (join_key_the dr_key dr_key) |]. apply active_keys. tauto.
    + exists (dr_key p). split; [done |]. apply active_keys. right. right. by apply list_elem_of_fmap_2.
  - intros (k & Ha & ->). exists (Some k). split; [by apply active_join_keys | done].
Qed.

Lemma campaign_rows_elem clock k v : (k, v) ∈ rows clock ↔ active k ∧ v = campaign_reference clock k.
Proof.
  unfold rows. rewrite list_elem_of_omap. split.
  - intros (j & (k' & Ha & ->)%campaign_joined_elem & E). rewrite campaign_row_for in E by done. by injection E as -> ->.
  - intros [Ha ->]. eexists. split; [apply campaign_joined_elem; by exists k |]. by apply campaign_row_for.
Qed.

Lemma campaign_rows_NoDup clock : NoDup (fst <$> rows clock).
Proof.
  destruct joined_NoDup as (H1 & H2 & H3 & H4).
  assert (NoDup (join_key pair_key kv <$> joined start stop (tb_events tb) (tb_clicks tb) (tb_attributions tb))) as Hn
    by by apply full_join_NoDup.
  unfold rows. pose proof campaign_joined_elem as Hj. revert Hn Hj. generalize (joined start stop (tb_events tb) (tb_clicks tb) (tb_attributions tb)).
  intros l Hn Hj. assert (∀ j, j ∈ l → ∃ k, campaign_row clock j = Some (k, campaign_reference clock k) ∧
                                      join_key pair_key kv j = Some (Some k)) as Hrow.
  { intros j (k & Ha & ->)%Hj. exists k. split; [by apply campaign_row_for |].
    by apply (join_key_the pair_key kv), active_join_keys. }
  clear Hj. induction l as [|j l IH]; [constructor |].
  apply NoDup_cons in Hn as [Hj Hn].
  destruct (Hrow j) as (k & E & Ek); [left |]. cbn. rewrite E. cbn. constructor.
  - intros ([k' v] & -> & Hin)%list_elem_of_fmap. apply list_elem_of_omap in Hin as (j' & Hj' & E').
    destruct (Hrow j') as (k2 & E2 & Ek2); [by right |]. rewrite E2 in E'. injection E' as -> <-.
    destruct Hj. apply list_elem_of_fmap. exists j'. split; [| done]. cbn in Ek. congruence.
  - apply IH; [done |]. intros j' Hj'. apply Hrow. by right.
Qed.

(** The campaign table says what it is meant to: for every application, day and campaign
    with any activity in the window, the two outer joins of the three common table
    expressions give one row, and it holds exactly the clicks that are not from bots, the
    credited installs, and the revenue and the conversions of the credited devices; the
    other rows are left as they are. *)
Theorem campaign_refresh_is_exact clock t :
  (∀ k, fits (fst (revenue_of (campaign_events k))) = true) →
  ∃ t', refresh_campaign_daily clock start stop (tb_events tb) (tb_clicks tb) (tb_attributions tb) t = Ok t' ∧
    ∀ k, (active k → t' !! k = Some (merged campaign_merge (t !! k) (campaign_reference clock k))) ∧
         (¬ active k → t' !! k = t !! k).
Proof.
  intros Hfits. unfold refresh_campaign_daily. fold (rows clock).
  assert (forallb (λ p, fits (ca_revenue_minor (snd p))) (rows clock) = true) as ->.
  { apply forallb_forall. intros [k v] [_ ->]%list_elem_of_In%campaign_rows_elem. apply Hfits. }
  cbn [negb raise_if rbind]. unfold upsert. rewrite bool_decide_true by apply campaign_rows_NoDup.
  eexists. split; [done |]. intros k. rewrite put_all_lookup by apply campaign_rows_NoDup. split; intros Ha.
  - assert ((k, campaign_reference clock k) ∈ rows clock) as Hin by by apply campaign_rows_elem.
    destruct (od_get k (rows clock)) as [v|] eqn:Eg.
    + apply od_get_elem, campaign_rows_elem in Eg as [_ ->]. done.
    + apply od_elem_get in Hin as [? Hin]. congruence.
  - destruct (od_get k (rows clock)) as [v|] eqn:Eg; [| done]. by apply od_get_elem, campaign_rows_elem in Eg as [? _].
Qed.
End Campaign.

(** ** Metering *)

Definition usage_key (e : EventRow) : UsageKey := (er_organization_id e, er_app_id e, hour_of (er_received_at e)).

(** The events of an hour that have arrived. *)
Definition metered (now : datetime) (k : UsageKey) (events : list EventRow) : list EventRow :=
  List.filter (λ e, er_received_at e <? now) (having usage_key k events).

(** The volume billed for an hour is the number of its events, whichever runs recomputed
    it: a run leaves every hour of its window at the count of what has arrived, and the
    hours before it as they were. *)
Theorem metered_hours_are_exact now events usage audit :
  ∃ usage' audit', refresh_usage now events usage audit = Ok (usage', audit') ∧
    ∀ k, (hour_of (now - USAGE_LOOKBACK) <= snd k → metered now k events ≠ [] →
          usage' !! k = Some (count (metered now k events))) ∧
         (snd k < hour_of (now - USAGE_LOOKBACK) → usage' !! k = usage !! k).
Proof.
  set (start := hour_of (now - USAGE_LOOKBACK)). unfold refresh_usage, refresh_usage_rollup. fold start.
  change (λ e, (er_organization_id e, er_app_id e, hour_of (er_received_at e))) with usage_key.
  set (scanned := List.filter (λ e, within start now (er_received_at e)) events).
  unfold upsert. match goal with |- context [NoDup (fst <$> ?l)] => set (rows := l) end.
  assert (NoDup (fst <$> rows)) as Hn.
  { unfold rows. rewrite <- list_fmap_compose. apply group_by_NoDup. }
  assert (∀ k v, (k, v) ∈ rows ↔ v = count (having usage_key k scanned) ∧ having usage_key k scanned ≠ []) as Hel.
  { intros k v. unfold rows. rewrite list_elem_of_fmap. split.
    - intros ([k' l] & [= -> ->] & [-> Hne]%group_by_elem). done.
    - intros [-> Hne]. exists (k, having usage_key k scanned). split; [done |]. by apply group_by_elem. }
  rewrite bool_decide_true by done. do 2 eexists. split; [reflexivity |]. intros k.
  rewrite put_all_lookup by done.
  assert (having usage_key k scanned = List.filter (λ e, within start now (er_received_at e)) (having usage_key k events)) as Hs
    by (unfold scanned; apply having_filter).
  split; intros Hk.
  - intros Hne. set (rs := metered now k events) in *. assert (having usage_key k scanned = rs) as Er.
    { rewrite Hs. unfold rs, metered. apply List.filter_ext_in. intros e [_ <-]%list_elem_of_In%having_elem. cbn in Hk.
      unfold within. pose proof (hour_of_le (er_received_at e)). by rewrite (proj2 (Z.leb_le _ _)) by lia. }
    assert ((k, count rs) ∈ rows) as Hin by (apply Hel; rewrite Er; done).
    destruct (od_get k rows) as [v|] eqn:Eg.
    + apply od_get_elem, Hel in Eg as [Ev _]. rewrite Er in Ev. rewrite Ev. unfold merged. by case_match.
    + apply od_elem_get in Hin as [? Hin]. congruence.
  - destruct (od_get k rows) as [v|] eqn:Eg; [| done]. apply od_get_elem, Hel in Eg as [_ Hne]. destruct Hne.
    rewrite Hs. apply elem_of_nil_inv. intros e [[_ <-]%having_elem Hw]%elem_of_lfilter. cbn in Hk.
    unfold within in Hw. rewrite andb_true_iff, Z.leb_le in Hw.
    pose proof (hour_of_ge start (er_received_at e) (hour_of_aligned _) (proj1 Hw)). lia.
Qed.

(** ** Examples *)

Definition ex_now : datetime := 20703 * day + 20 * hour + 30 * minute.

Definition ex_event_row (id : uuid) (received occurred : datetime) (revenue : option Z) : EventRow :=
  {| er_event_id := id; er_received_at := received; er_occurred_at := occurred; er_organization_id := 1;
     er_app_id := 2; er_event_name := py "purchase"; er_anonymous_id := py "d"; er_user_id := None;
     er_session_id := None; er_platform := 1; er_os_version := None; er_app_version := None;
     er_device_model := None; er_country := None; er_ip_hash := None; er_click_id := None;
     er_revenue_minor := revenue; er_currency := (λ _, py "EUR") <$> revenue; er_clock_skew_ms := None; er_properties := [] |}.

Definition ex_install (id campaign : uuid) (installed : datetime) (superseded : option uuid) : AttributionRow :=
  {| a_id := id; a_organization_id := 1; a_app_id := 2; a_install_key := py "k"; a_anonymous_id := py "d";
     a_user_id := None; a_click_id := Some 5%N; a_campaign_id := Some campaign; a_tracking_link_id := Some 6%N;
     a_source := None; a_medium := None; a_method := CLICK_ID; a_installed_at := installed;
     a_attributed_at := installed; a_window_days := 30; a_expires_at := installed + 30 * day; a_fraud_score := 0;
     a_fraud_verdict := CLEAN; a_fraud_rules := None; a_deep_link := None; a_sub1 := None; a_sub2 := None;
     a_sub3 := None; a_superseded_by := superseded |}.

Definition ex_tables (events : list EventRow) (attributions : list AttributionRow) : Tables :=
  {| tb_events := events; tb_clicks := []; tb_attributions := attributions |}.

(** An event that happened six days before it arrived, a nightly pass, and a trailing
    pass after a newer event. *)
Definition ex_late : EventRow := ex_event_row 10 (ex_now - hour) (ex_now - hour - 6 * day) (Some 500).
Definition ex_fresh : EventRow := ex_event_row 11 (ex_now + 2 * minute) (ex_now + 2 * minute) None.


Definition ex_day : CampaignKey := (2%N, 20703, 7%N).
Definition ex_campaign_tables : Tables :=
  ex_tables [ex_event_row 12 ex_now ex_now (Some 300)] [ex_install 20 7 (ex_now - hour) None].

Lemma campaign_refresh_is_exact_witness :
  ∃ t', refresh_campaign_daily ex_now (midnight ex_now) (ex_now + minute) (tb_events ex_campaign_tables) []
          (tb_attributions ex_campaign_tables) ∅ = Ok t' ∧
    t' !! ex_day = Some {| ca_organization_id := 1; ca_clicks := 0; ca_installs := 1; ca_organic_installs := 0;
                           ca_revenue_minor := 300; ca_conversions := 1; ca_updated_at := ex_now |}.
Proof.
  destruct (campaign_refresh_is_exact ex_campaign_tables (λ _, 1%N) (midnight ex_now) (ex_now + minute)) with (clock := ex_now)
    (t := ∅ : gmap CampaignKey CampaignRollup) as (t' & E & Hk).
  - split.
    + intros e ->%list_elem_of_singleton. reflexivity.
    + intros c []%not_elem_of_nil.
    + intros a ->%list_elem_of_singleton. reflexivity.
  - intros k. unfold campaign_events.
    match goal with |- context [credited_events ?a ?b ?c ?d] => 
      let l := eval vm_compute in (credited_events a b c d) in
      replace (credited_events a b c d) with l by (vm_compute; reflexivity) end.
    unfold having, List.filter. by case_match; vm_compute.
  - exists t'. split; [exact E |]. rewrite (proj1 (Hk ex_day)).
    + vm_compute. reflexivity.
    + right. left. vm_compute. discriminate.
Defined.

(** *** An install that changes campaign is counted twice

    The first refresh counts the install for campaign 7.  It is then credited to campaign
    8 instead; the next refresh finds nothing for campaign 7 on that day, so its row is
    left as it was. *)
Lemma superseded_install_is_counted_twice :
  let before := ex_tables [] [ex_install 20 7 (ex_now - hour) None] in
  let after := ex_tables [] [ex_install 20 7 (ex_now - hour) (Some 21%N); ex_install 21 8 (ex_now - hour) None] in
  let rp := snd (refresh_trailing ex_now ex_now before no_reports) in
  let rp' := snd (refresh_late_arrivals (ex_now + hour) ex_now after rp) in
  (ca_installs <$> rp_campaign rp' !! ((2%N, 20703, 7%N) : CampaignKey), ca_installs <$> rp_campaign rp' !! ((2%N, 20703, 8%N) : CampaignKey)) =
  (Some 1, Some 1).
Proof. vm_compute. reflexivity. Qed.

(** *** A clock that runs ahead

    An event dated ten hours after its arrival, as the timestamp rule allows up to a day,
    is counted in its hour at first.  Eight days on, a nightly pass whose window starts
    between its arrival and its date recomputes that hour without it, and no later pass
    covers the hour again. *)
Definition ex_ahead : EventRow := ex_event_row 13 (20703 * day - 2 * hour) (20703 * day + 8 * hour) None.
Definition ex_other : EventRow := ex_event_row 14 (20703 * day + 9 * hour) (20703 * day + 8 * hour + minute) None.

Lemma clock_ahead_is_uncounted :
  let tb := ex_tables [ex_ahead; ex_other] [] in
  let rp := snd (refresh_trailing (20703 * day + 9 * hour) ex_now tb no_reports) in
  let rp1 := snd (refresh_late_arrivals (20704 * day) ex_now tb rp) in
  let rp2 := snd (refresh_late_arrivals (20711 * day + 2 * hour) ex_now tb rp1) in
  let rp3 := snd (refresh_late_arrivals (20712 * day + 2 * hour) ex_now tb rp2) in
  (λ r, eu_event_count <$> rp_events r !! event_rollup_key ex_ahead) <$> [rp; rp1; rp2; rp3] =
  [Some 1; Some 2; Some 1; Some 1].
Proof. vm_compute. reflexivity. Qed.

(** *** Offline events

    A device that was offline for three days reports when its event happened; the
    timestamp is more than a day off, so the event is dated at its arrival and reported in
    today's hour. *)
Lemma offline_event_is_reported_today :
  let iso := {| iso_wall := 20700 * day; iso_offset := Some 0 |} in
  ∀ L : EdgeLib, fromisoformat (py "2026-09-04T00:00:00+00:00") = Some iso →
    ∃ skew, parse_timestamp (Some (py "2026-09-04T00:00:00Z")) ex_now = Ok (ex_now, skew).
Proof.
  intros iso L Hp. unfold parse_timestamp.
  change (py_replace _ _ _) with (py "2026-09-04T00:00:00+00:00"). rewrite Hp. eexists. vm_compute. reflexivity.
Qed.

(** *** A backlog is not billed

    An event that is stored more than three hours after the hour it was received in, as
    after an outage of the workers, is outside the window of every later run. *)
Lemma backlog_is_not_metered :
  let e := ex_event_row 15 ex_now ex_now None in
  ∀ now audit, ex_now + 4 * hour <= now →
    ∃ audit', refresh_usage now [e] ∅ audit = Ok (∅, audit').
Proof.
  intros e now audit Hn. unfold refresh_usage, refresh_usage_rollup. cbn [List.filter er_received_at e ex_event_row].
  assert (within (hour_of (now - USAGE_LOOKBACK)) now ex_now = false) as ->.
  { unfold within. apply andb_false_iff. left. apply Z.leb_gt.
    assert (ex_now + hour <= now - USAGE_LOOKBACK) as H by (unfold USAGE_LOOKBACK; lia).
    assert (hour_of (ex_now + hour) <= hour_of (now - USAGE_LOOKBACK)) as H2.
    { apply hour_of_ge; [apply hour_of_aligned |]. pose proof (hour_of_le (ex_now + hour)). lia. }
    assert (hour_of (ex_now + hour) = ex_now + 30 * minute) as E by (vm_compute; reflexivity).
    rewrite E in H2. assert (0 < minute) by done. lia. }
  eexists. reflexivity.
Qed.
