(* ===== verification/FraudSweep.v ===== *)
(** * The traffic-level fraud sweep (mmp_worker/fraud_sweep.py)

    [stats] is the statement that computes the statistics of every tracking link, common
    table expression by common table expression; [sweep] assesses each row, upserts a
    finding per signal and deletes the findings of the same window that no longer hold.
    The findings are a map on the unique index (application, link, rule, window). *)

From stdpp Require Import gmap.
From S2P Require Import Prelude Ids Engine Fraud Store Writer Relational.

#[local] Open Scope Z_scope.
#[local] Open Scope mmp_scope.

Definition SWEEP_WINDOW : timedelta := 7 * day.

(** ** The statistics *)

Record Scored := {
  sc_organization_id : uuid;
  sc_app_id : uuid;
  sc_tracking_link_id : option uuid;
  sc_campaign_id : option uuid;
  sc_device_hash : option (list N);
  sc_ip_hash : option (list N);
  sc_gap : timedelta
}.

Definition score_row (p : AttributionRow * ClickRecord) : Scored :=
  let '(a, c) := p in
  {| sc_organization_id := a_organization_id a; sc_app_id := a_app_id a;
     sc_tracking_link_id := a_tracking_link_id a; sc_campaign_id := a_campaign_id a;
     sc_device_hash := cr_device_hash c; sc_ip_hash := cr_ip_hash c;
     sc_gap := a_installed_at a - cr_clicked_at c |}.

Definition scored (start stop : datetime) (attributions : list AttributionRow) (clicks : list ClickRecord)
  : list Scored :=
  score_row <$>
    inner_join (λ a c, bool_decide (a_click_id a = Some (cr_click_id c)))
      (List.filter (λ a, (start <=? a_installed_at a) && (a_installed_at a <? stop) &&
                         bool_decide (a_superseded_by a = None)) attributions)
      clicks.

Abbreviation LinkKey := (uuid * uuid * option uuid)%type.
Definition link_key (s : Scored) : LinkKey := (sc_organization_id s, sc_app_id s, sc_tracking_link_id s).

Record Totals := {
  tt_key : LinkKey;
  tt_campaign_id : option uuid;
  tt_attributed_installs : Z;
  tt_late_installs : Z
}.

(** [totals]; [(array_agg(campaign_id))[1]] is one of the group's. *)
Definition totals (late : timedelta) (rows : list Scored) : list Totals :=
  (λ g, {| tt_key := fst g;
           tt_campaign_id := s ← head (snd g); sc_campaign_id s;
           tt_attributed_installs := count (snd g);
           tt_late_installs := count_if (λ s, late <? sc_gap s) (snd g) |}) <$> group_by link_key rows.

(** The rows with a value in a nullable column, each with it. *)
Definition not_null {A} (f : Scored → option A) (rows : list Scored) : list (Scored * A) :=
  omap (λ s, (λ v, (s, v)) <$> f s) rows.

Definition by_link_and {A} (p : Scored * A) : option uuid * A := (sc_tracking_link_id (fst p), snd p).

(** [per_device] and [per_ip]: a count per link and value, then the largest per link. *)
Definition largest {A} `{EqDecision A} (f : Scored → option A) (measure : list (Scored * A) → Z) (rows : list Scored)
  : list (option uuid * Z) :=
  let inner := (λ g, (fst (fst g), measure (snd g))) <$> group_by by_link_and (not_null f rows) in
  (λ g, (fst g, max_of snd (snd g))) <$> group_by fst inner.

Definition per_device (rows : list Scored) : list (option uuid * Z) := largest sc_device_hash count rows.
Definition per_ip (rows : list Scored) : list (option uuid * Z) :=
  largest sc_ip_hash (count_distinct (λ p, sc_device_hash (fst p))) rows.

(** An equality that is never true of a null. *)
Definition sql_eq {A} `{EqDecision A} (x y : option A) : bool :=
  match x, y with Some a, Some b => bool_decide (a = b) | _, _ => false end.

Record LinkStats := {
  ls_organization_id : uuid;
  ls_app_id : uuid;
  ls_tracking_link_id : option uuid;
  ls_campaign_id : option uuid;
  ls_window : TrafficWindow
}.

Definition on_link (t : Totals) (d : option uuid * Z) : bool := sql_eq (fst d) (snd (tt_key t)).

Definition stats (start stop : datetime) (late : timedelta) (attributions : list AttributionRow)
    (clicks : list ClickRecord) : list LinkStats :=
  let rows := scored start stop attributions clicks in
  (λ j : Totals * option (option uuid * Z) * option (option uuid * Z),
     let '(t, d, p) := j in
     {| ls_organization_id := fst (fst (tt_key t));
        ls_app_id := snd (fst (tt_key t));
        ls_tracking_link_id := snd (tt_key t);
        ls_campaign_id := tt_campaign_id t;
        ls_window := {| attributed_installs := tt_attributed_installs t;
                        late_installs := tt_late_installs t;
                        max_devices_per_ip := default 0 (snd <$> p);
                        max_installs_per_device := default 0 (snd <$> d) |} |}) <$>
    left_join (λ td p, on_link (fst td) p) (left_join on_link (totals late rows) (per_device rows)) (per_ip rows).

(** ** The findings *)

Abbreviation FindingKey := (N * option N * list N * Z)%type.

Record Finding := {
  fi_id : uuid;
  fi_organization_id : uuid;
  fi_campaign_id : option uuid;
  fi_window_end : datetime;
  fi_severity : Severity;
  fi_detail : Detail;
  fi_evidence : TrafficWindow;
  fi_created_at : datetime
}.

Abbreviation Findings := (gmap FindingKey Finding).

Definition finding_merge (old new : Finding) : Finding :=
  {| fi_id := fi_id old; fi_organization_id := fi_organization_id old; fi_campaign_id := fi_campaign_id old;
     fi_window_end := fi_window_end new; fi_severity := fi_severity new; fi_detail := fi_detail new;
     fi_evidence := fi_evidence new; fi_created_at := fi_created_at old |}.

Record SweepResult := { sw_links_examined : Z; sw_findings_written : Z; sw_by_rule : list (pystr * Z) }.

Definition sweep0 : SweepResult := {| sw_links_examined := 0; sw_findings_written := 0; sw_by_rule := [] |}.

Section Sweep.
(** The identifiers [uuid7] draws, in order, and the clock of the database. *)
Context (ids : nat → uuid) (clock window_start now : datetime).

Definition finding_of (row : LinkStats) (id : uuid) (s : Signal) : Finding :=
  {| fi_id := id; fi_organization_id := ls_organization_id row; fi_campaign_id := ls_campaign_id row;
     fi_window_end := now; fi_severity := severity s; fi_detail := detail s; fi_evidence := ls_window row;
     fi_created_at := clock |}.

Definition finding_key (row : LinkStats) (s : Signal) : FindingKey :=
  (ls_app_id row, ls_tracking_link_id row, rule_value (rule s), window_start).

(** [UPSERT_SQL] and the counters, for one signal. *)
Definition write_finding (row : LinkStats) (acc : SweepResult * Findings) (s : Signal) : SweepResult * Findings :=
  let '(r, f) := acc in
  let name := rule_value (rule s) in
  ({| sw_links_examined := sw_links_examined r;
      sw_findings_written := sw_findings_written r + 1;
      sw_by_rule := od_set name (default 0 (od_get name (sw_by_rule r)) + 1) (sw_by_rule r) |},
   put finding_merge f (finding_key row s, finding_of row (ids (Z.to_nat (sw_findings_written r))) s)).

(** [CLEAR_SQL] *)
Definition cleared (row : LinkStats) (kept : list pystr) (k : FindingKey) : Prop :=
  let '(app, link, name, start) := k in
  start = window_start ∧ app = ls_app_id row ∧ link = ls_tracking_link_id row ∧ name ∉ kept.

#[export] Instance cleared_dec row kept k : base.Decision (cleared row kept k).
Proof. destruct k as [[[app link] name] start]. cbn. apply _. Defined.

Definition clear (row : LinkStats) (kept : list pystr) (f : Findings) : Findings :=
  filter (λ p, ¬ cleared row kept (fst p)) f.

Definition sweep_row (acc : SweepResult * Findings) (row : LinkStats) : SweepResult * Findings :=
  let '(r, f) := acc in
  let assessment := assess_traffic (ls_window row) in
  let '(r', f') :=
    fold_left (write_finding row) (signals assessment)
      ({| sw_links_examined := sw_links_examined r + 1; sw_findings_written := sw_findings_written r;
          sw_by_rule := sw_by_rule r |}, f) in
  (r', clear row (rules assessment) f').

End Sweep.

Definition sweep (ids : nat → uuid) (clock now : datetime) (window : timedelta) (late_threshold : option timedelta)
    (attributions : list AttributionRow) (clicks : list ClickRecord) (f : Findings) : SweepResult * Findings :=
  let late := default LATE_CONVERSION_THRESHOLD late_threshold in
  let window_start := now - window in
  fold_left (sweep_row ids clock window_start now) (stats window_start now late attributions clicks) (sweep0, f).

(** ** Lemmas: the statistics *)

(** The largest value of a measure over some values, nought when there are none. *)
Definition is_most {A} (measure : A → Z) (values : list A) (n : Z) : Prop :=
  (∀ v, v ∈ values → measure v <= n) ∧ ((values = [] ∧ n = 0) ∨ ∃ v, v ∈ values ∧ measure v = n).

Definition of_link (l : option uuid) (rows : list Scored) : list Scored := having sc_tracking_link_id l rows.

Section Largest.
Context {A : Type} `{EqDecision A} (f : Scored → option A).

Lemma group_rows l v rows :
  having by_link_and (l, v) (not_null f rows) = (λ s, (s, v)) <$> having f (Some v) (of_link l rows).
Proof.
  unfold of_link, having, not_null. induction rows as [|s rows IH]; [done |]. cbn [omap list_omap List.filter].
  destruct (f s) as [w|] eqn:E; cbn [fmap option_fmap option_map List.filter].
  - destruct (decide (sc_tracking_link_id s = l)) as [Hl|Hl].
    + rewrite (bool_decide_true (sc_tracking_link_id s = l)) by done. cbn [List.filter].
      destruct (decide (w = v)) as [Hv|Hv].
      * rewrite (bool_decide_true (by_link_and (s, w) = (l, v))), (bool_decide_true (f s = Some v))
          by (unfold by_link_and; cbn; congruence). rewrite fmap_cons, <- IH. by subst w.
      * rewrite (bool_decide_false (by_link_and (s, w) = (l, v))), (bool_decide_false (f s = Some v))
          by (unfold by_link_and; cbn; congruence). done.
    + rewrite (bool_decide_false (sc_tracking_link_id s = l)), (bool_decide_false (by_link_and (s, w) = (l, v)))
        by (unfold by_link_and; cbn; congruence). done.
  - destruct (bool_decide (sc_tracking_link_id s = l)); [| done]. cbn [List.filter].
    rewrite (bool_decide_false (f s = Some v)) by congruence. done.
Qed.

(** What the nested grouping gives a link: the largest measure over the values its rows
    take. *)
Lemma largest_spec (measure : list (Scored * A) → Z) rows l :
  is_most (λ v, measure ((λ s, (s, v)) <$> having f (Some v) (of_link l rows))) (omap f (of_link l rows))
    (default 0 (snd <$> the fst l (largest f measure rows))).
Proof.
  unfold largest. set (inner := (λ g, (fst (fst g), measure (snd g))) <$> group_by by_link_and (not_null f rows)).
  rewrite (the_group fst (max_of snd) l inner).
  assert (∀ n, (l, n) ∈ having fst l inner ↔
    ∃ v, v ∈ omap f (of_link l rows) ∧ n = measure ((λ s, (s, v)) <$> having f (Some v) (of_link l rows))) as Hin.
  { intros n. rewrite having_elem. unfold inner. rewrite list_elem_of_fmap. split.
    - intros [([[l' v] g] & [= <- ->] & [-> Hne]%group_by_elem) _]. exists v. rewrite group_rows in *. split; [| done].
      apply list_elem_of_omap. destruct (having f (Some v) (of_link l rows)) as [|s g] eqn:E; [done |].
      assert (s ∈ having f (Some v) (of_link l rows)) as [Hs Hv]%having_elem by (rewrite E; left). by exists s.
    - intros (v & (s & Hs & Hv)%list_elem_of_omap & ->). split; [| done].
      exists ((l, v), having by_link_and (l, v) (not_null f rows)). rewrite group_rows. split; [done |].
      apply group_by_elem. rewrite group_rows. split; [done |]. intros E%fmap_nil_inv. apply having_nil in E.
      apply E. rewrite <- Hv. by apply list_elem_of_fmap_2. }
  assert (∀ p, p ∈ having fst l inner → p = (l, snd p)) as Hp by (intros [l' n] [_ <-]%having_elem; done).
  destruct (having fst l inner) as [|p g] eqn:E; cbn [fmap option_fmap option_map default].
  - assert (omap f (of_link l rows) = []) as Hnil.
    { apply elem_of_nil_inv. intros v Hv. apply (not_elem_of_nil (l, measure ((λ s, (s, v)) <$> having f (Some v) (of_link l rows)))).
      apply Hin. by exists v. }
    split; [| by left]. rewrite Hnil. intros v []%not_elem_of_nil.
  - destruct (max_of_spec snd (p :: g)) as [Hmax (q & Hq & Emax)]; [done |]. cbn [snd default from_option id]. split.
    + intros v Hv. apply (Hmax (l, _)). apply Hin. by exists v.
    + right. rewrite (Hp q Hq) in Hq. apply Hin in Hq as (v & Hv & Ev). exists v. split; [done |]. by rewrite <- Ev, Emax.
Qed.

Lemma largest_match measure rows (t : Totals) :
  List.filter (on_link t) (largest f measure rows) =
  option_list (match snd (tt_key t) with Some l => the fst (Some l) (largest f measure rows) | None => None end).
Proof.
  assert (NoDup (fst <$> largest f measure rows)) as Hn.
  { unfold largest. rewrite <- list_fmap_compose. apply group_by_NoDup. }
  unfold on_link. destruct (snd (tt_key t)) as [l|].
  - rewrite <- having_single by done. apply List.filter_ext. intros [[l'|] n]; cbn.
    + apply bool_decide_ext. split; congruence.
    + by rewrite bool_decide_false.
  - rewrite (List.filter_ext _ (λ _, false)); [| by intros [[l|] n]]. clear. by induction (largest f measure rows).
Qed.
End Largest.

Lemma stats_rows start stop late attributions clicks :
  let rows := scored start stop attributions clicks in
  let most (o : list (option uuid * Z)) (l : option uuid) :=
    match l with Some l => default 0 (snd <$> the fst (Some l) o) | None => 0 end in
  stats start stop late attributions clicks =
    (λ g, {| ls_organization_id := fst (fst (fst g)); ls_app_id := snd (fst (fst g));
             ls_tracking_link_id := snd (fst g);
             ls_campaign_id := s ← head (snd g); sc_campaign_id s;
             ls_window := {| attributed_installs := count (snd g);
                             late_installs := count_if (λ s, late <? sc_gap s) (snd g);
                             max_devices_per_ip := most (per_ip rows) (snd (fst g));
                             max_installs_per_device := most (per_device rows) (snd (fst g)) |} |}) <$>
    group_by link_key rows.
Proof.
  intros rows most. unfold stats. fold rows.
  rewrite (left_join_match on_link (λ t,
    match snd (tt_key t) with Some l => the fst (Some l) (per_device rows) | None => None end))
    by (intros t; apply largest_match).
  rewrite (left_join_match _ (λ td : Totals * option (option uuid * Z),
    match snd (tt_key (fst td)) with Some l => the fst (Some l) (per_ip rows) | None => None end)).
  2: { intros [t d]. apply largest_match. }
  unfold totals. rewrite <- !list_fmap_compose. apply list_fmap_ext. intros _ [[[o a] [l|]] g] _; done.
Qed.

(** A tracking link belongs to one application and an application to one organisation. *)
Record links_owned (rows : list Scored) : Prop := {
  lo_link : ∀ s s', s ∈ rows → s' ∈ rows → sc_tracking_link_id s = sc_tracking_link_id s' →
            is_Some (sc_tracking_link_id s) → sc_app_id s = sc_app_id s';
  lo_app : ∀ s s', s ∈ rows → s' ∈ rows → sc_app_id s = sc_app_id s' → sc_organization_id s = sc_organization_id s'
}.

(** The row the statement returns for a tracking link counts that link's installs and its
    late ones, and its two maxima are the largest number of installs any one device has and
    of devices any one address has, whatever the traffic of the other links: joining the
    collapsed counts multiplies nothing. *)
Lemma stats_are_the_links_own start stop late attributions clicks row l :
  let rows := scored start stop attributions clicks in
  links_owned rows → row ∈ stats start stop late attributions clicks → ls_tracking_link_id row = Some l →
  let mine := of_link (Some l) rows in
  attributed_installs (ls_window row) = count mine ∧
  late_installs (ls_window row) = count_if (λ s, late <? sc_gap s) mine ∧
  is_most (λ d, count (having sc_device_hash (Some d) mine)) (omap sc_device_hash mine)
    (max_installs_per_device (ls_window row)) ∧
  is_most (λ i, count_distinct sc_device_hash (having sc_ip_hash (Some i) mine)) (omap sc_ip_hash mine)
    (max_devices_per_ip (ls_window row)).
Proof.
  intros rows Ho Hrow Hl mine. rewrite stats_rows in Hrow. fold rows in Hrow.
  apply list_elem_of_fmap in Hrow as ([[[o a] l'] g] & -> & [-> Hne]%group_by_elem). cbn in Hl. subst l'.
  cbn [ls_window attributed_installs late_installs max_devices_per_ip max_installs_per_device fst snd].
  match goal with |- count ?g = _ ∧ _ => set (group := g) in *; assert (group = mine) as -> end.
  { assert (∃ s0, s0 ∈ group) as [s0 H0] by (destruct group as [|s0 ?]; [done | exists s0; left]).
    apply having_elem in H0 as [H0 Hk0]. apply List.filter_ext_in. intros s Hs%list_elem_of_In. apply bool_decide_ext.
    unfold link_key in *. split; [congruence |]. intros Hsl.
    assert (sc_app_id s = sc_app_id s0) as Ea.
    { apply (lo_link rows); [done | done | done | congruence | rewrite Hsl; by eexists]. }
    rewrite Hsl, Ea, (lo_app rows Ho s s0) by done. congruence. }
  split; [done |]. split; [done |].
  pose proof (largest_spec sc_device_hash count rows (Some l)) as Hd.
  pose proof (largest_spec sc_ip_hash (count_distinct (λ p, sc_device_hash (fst p))) rows (Some l)) as Hi.
  fold mine in Hd, Hi. split.
  - destruct Hd as [H1 H2]. unfold count in H1, H2 |- *.
    split; [intros v Hv; specialize (H1 v Hv); by rewrite length_fmap in H1 |].
    destruct H2 as [H2|(v & Hv & E)]; [by left | right]. exists v. split; [done |]. by rewrite length_fmap in E.
  - assert (∀ (v : list N) m, count_distinct (λ p : Scored * list N, sc_device_hash (fst p)) ((λ s, (s, v)) <$> m) =
                   count_distinct sc_device_hash m) as Hc.
    { intros v m. unfold count_distinct. f_equal. f_equal. induction m as [|s m IH]; [done |]. cbn. by rewrite IH. }
    destruct Hi as [H1 H2]. split; [intros v Hv; specialize (H1 v Hv); by rewrite Hc in H1 |].
    destruct H2 as [H2|(v & Hv & E)]; [by left | right]. exists v. split; [done |]. by rewrite Hc in E.
Qed.

(** ** A link's own traffic

    What the documentation means by the traffic of a link, from the two tables and with no
    other link in sight: its attributions in the window that stand, each with its click. *)

Definition own_installs (start stop : datetime) (app : uuid) (link : option uuid) (attributions : list AttributionRow)
    (clicks : list ClickRecord) : list (AttributionRow * ClickRecord) :=
  a ← List.filter (λ a, bool_decide (a_app_id a = app ∧ a_tracking_link_id a = link) &&
                        ((start <=? a_installed_at a) && (a_installed_at a <? stop) &&
                         bool_decide (a_superseded_by a = None))) attributions;
  (λ c, (a, c)) <$> List.filter (λ c, bool_decide (a_click_id a = Some (cr_click_id c))) clicks.

Definition gap_of (p : AttributionRow * ClickRecord) : timedelta := a_installed_at (fst p) - cr_clicked_at (snd p).
Definition device_of (p : AttributionRow * ClickRecord) : option (list N) := cr_device_hash (snd p).
Definition address_of (p : AttributionRow * ClickRecord) : option (list N) := cr_ip_hash (snd p).

Definition most {A} (measure : A → Z) (values : list A) : Z := foldr Z.max 0 (measure <$> values).

(** Installs of no tracking link are counted, but neither maximum is taken for them. *)
Definition own_traffic (late : timedelta) (link : option uuid) (mine : list (AttributionRow * ClickRecord)) : TrafficWindow :=
  {| attributed_installs := count mine;
     late_installs := count_if (λ p, late <? gap_of p) mine;
     max_devices_per_ip :=
       match link with
       | Some _ => most (λ i, count_distinct device_of (having address_of (Some i) mine)) (omap address_of mine)
       | None => 0
       end;
     max_installs_per_device :=
       match link with
       | Some _ => most (λ d, count (having device_of (Some d) mine)) (omap device_of mine)
       | None => 0
       end |}.

(** A tracking link belongs to one application and an application to one organisation. *)
Record tables_owned (attributions : list AttributionRow) : Prop := {
  ow_link : ∀ a a', a ∈ attributions → a' ∈ attributions → a_tracking_link_id a = a_tracking_link_id a' →
            is_Some (a_tracking_link_id a) → a_app_id a = a_app_id a';
  ow_app : ∀ a a', a ∈ attributions → a' ∈ attributions → a_app_id a = a_app_id a' →
           a_organization_id a = a_organization_id a'
}.

Lemma scored_elem start stop attributions clicks s :
  s ∈ scored start stop attributions clicks → ∃ a c, a ∈ attributions ∧ s = score_row (a, c).
Proof.
  intros ([a c] & -> & Hp)%list_elem_of_fmap. apply list_elem_of_bind in Hp as (a' & Hp & Ha').
  apply list_elem_of_fmap in Hp as (c' & [= -> ->] & _). apply elem_of_lfilter in Ha' as [Ha' _]. by exists a', c'.
Qed.

Lemma owned_scored start stop attributions clicks :
  tables_owned attributions → links_owned (scored start stop attributions clicks).
Proof.
  intros [Hl Ha]. split; intros s s' (a & c & Hin & ->)%scored_elem (a' & c' & Hin' & ->)%scored_elem; cbn; eauto.
Qed.

Lemma is_most_unique {A} (measure : A → Z) values n :
  (∀ v, 0 <= measure v) → is_most measure values n → n = most measure values.
Proof.
  intros Hpos [Hle Hex]. assert (∀ m, 0 <= m → (∀ v, v ∈ values → measure v <= m) → most measure values <= m) as Hup.
  { intros m Hm. unfold most. clear -Hm. induction values as [|v vs IH]; intros H; cbn; [lia |].
    pose proof (H v (list_elem_of_here _ _)). assert (foldr Z.max 0 (measure <$> vs) <= m) by (apply IH; intros w Hw; apply H; by right).
    lia. }
  assert (∀ v, v ∈ values → measure v <= most measure values) as Hlow.
  { intros v Hv. unfold most. clear -Hv. induction Hv; cbn; lia. }
  destruct Hex as [[-> ->]|(v & Hv & <-)]; [done |]. specialize (Hlow v Hv). specialize (Hup (measure v) (Hpos v) Hle). lia.
Qed.

Lemma filter_always {A} (p : A → bool) l : (∀ x, p x = true) → List.filter p l = l.
Proof. intros H. induction l as [|x l IH]; [done |]. cbn. by rewrite H, IH. Qed.

Lemma filter_never {A} (p : A → bool) l : (∀ x, p x = false) → List.filter p l = [].
Proof. intros H. induction l as [|x l IH]; [done |]. cbn. by rewrite H. Qed.

Section Mapped.
Context {A B K : Type} `{EqDecision K} (g : A → B).

Lemma filter_fmap_swap (p : B → bool) q (l : list A) :
  (∀ a, p (g a) = q a) → List.filter p (g <$> l) = g <$> List.filter q l.
Proof. intros H. induction l as [|a l IH]; [done |]. cbn. rewrite H. destruct (q a); cbn; by rewrite IH. Qed.

Lemma having_fmap (f : B → K) f' k (l : list A) :
  (∀ a, f (g a) = f' a) → having f k (g <$> l) = g <$> having f' k l.
Proof. intros H. apply filter_fmap_swap. intros a. by rewrite H. Qed.

Lemma omap_fmap_swap (f : B → option K) f' (l : list A) : (∀ a, f (g a) = f' a) → omap f (g <$> l) = omap f' l.
Proof. intros H. induction l as [|a l IH]; [done |]. cbn. by rewrite H, IH. Qed.
End Mapped.

(** The rows the statement scores for a link are its own installs. *)
Lemma scored_own start stop app link attributions clicks :
  having (λ s, (sc_app_id s, sc_tracking_link_id s)) (app, link) (scored start stop attributions clicks) =
  score_row <$> own_installs start stop app link attributions clicks.
Proof.
  unfold scored.
  rewrite (having_fmap _ _ (λ p, (a_app_id (fst p), a_tracking_link_id (fst p)))) by by intros [a c]. f_equal. unfold inner_join, own_installs.
  induction attributions as [|a l IH]; [done |]. cbn [List.filter]. set (w := _ && _ && _).
  destruct w; rewrite ?andb_false_r, ?andb_true_r; cbn [mbind list_bind]; [| exact IH].
  unfold having in *. rewrite List.filter_app, IH. clear IH. case_bool_decide as Hk; cbn [mbind list_bind].
  - f_equal. rewrite (filter_fmap_swap _ _ (λ _, true)); [by rewrite filter_always |]. intros c. cbn. apply bool_decide_true.
    by destruct Hk as [-> ->].
  - rewrite (filter_fmap_swap _ _ (λ _, false)); [by rewrite filter_never |]. intros c. cbn. apply bool_decide_false.
    intros [= E1 E2]. by apply Hk.
Qed.

Lemma own_group rows s0 :
  links_owned rows → s0 ∈ rows →
  having link_key (link_key s0) rows =
    having (λ s, (sc_app_id s, sc_tracking_link_id s)) (sc_app_id s0, sc_tracking_link_id s0) rows.
Proof.
  intros Ho H0. apply List.filter_ext_in. intros s Hs%list_elem_of_In. apply bool_decide_ext. unfold link_key.
  split; [intros [= _ -> ->]; done |]. intros [= Ea ->]. rewrite Ea, (lo_app rows Ho s s0); done.
Qed.

Lemma own_link rows s0 l :
  links_owned rows → s0 ∈ rows → sc_tracking_link_id s0 = Some l →
  of_link (Some l) rows = having (λ s, (sc_app_id s, sc_tracking_link_id s)) (sc_app_id s0, Some l) rows.
Proof.
  intros Ho H0 El. apply List.filter_ext_in. intros s Hs%list_elem_of_In. apply bool_decide_ext.
  split; [| congruence]. intros E. f_equal; [| done]. apply (lo_link rows); [done | done | done | congruence | by rewrite E].
Qed.

(** A row of the statement has its link's own traffic, and is there if there is any. *)
Lemma stats_own start stop late attributions clicks row :
  tables_owned attributions → row ∈ stats start stop late attributions clicks →
  let mine := own_installs start stop (ls_app_id row) (ls_tracking_link_id row) attributions clicks in
  mine ≠ [] ∧ ls_window row = own_traffic late (ls_tracking_link_id row) mine.
Proof.
  intros Hown Hrow mine. pose proof (owned_scored start stop attributions clicks Hown) as Ho.
  pose proof Hrow as Hrow'. rewrite stats_rows in Hrow'. set (rows := scored start stop attributions clicks) in *.
  apply list_elem_of_fmap in Hrow' as ([[[o a] l] g] & Er & [-> Hne]%group_by_elem). cbn [fst snd] in Er.
  assert (∃ s0, s0 ∈ rows ∧ link_key s0 = (o, a, l)) as (s0 & H0 & Hk).
  { destruct (having link_key (o, a, l) rows) as [|s0 ?] eqn:E; [done |]. exists s0.
    apply (having_elem link_key (o, a, l) rows). rewrite E. left. }
  injection Hk as Eo Ea El. assert (ls_app_id row = a ∧ ls_tracking_link_id row = l) as [Era Erl] by by rewrite Er.
  assert (having link_key (o, a, l) rows = score_row <$> mine) as Hg.
  { rewrite <- Eo, <- Ea, <- El. change (_, _, _) with (link_key s0). rewrite own_group by done.
    unfold rows, mine. by rewrite Ea, El, Era, Erl, <- scored_own. }
  split; [intros E; by rewrite E in Hg |]. rewrite Erl. destruct l as [l|].
  - destruct (stats_are_the_links_own start stop late attributions clicks row l Ho Hrow Erl) as (E1 & E2 & E3 & E4).
    assert (of_link (Some l) rows = score_row <$> mine) as Hl.
    { rewrite (own_link rows s0 l Ho H0 El). unfold rows, mine. by rewrite Ea, Era, Erl, <- scored_own. }
    fold rows in E1, E2, E3, E4. rewrite Hl in E1, E2, E3, E4.
    unfold own_traffic. destruct (ls_window row) as [n1 n2 n3 n4]. cbn in E1, E2, E3, E4. f_equal.
    + rewrite E1. unfold count. by rewrite length_fmap.
    + rewrite E2. unfold count_if. rewrite (filter_fmap_swap _ _ (λ p, late <? gap_of p)) by by intros [? ?].
      unfold count. by rewrite length_fmap.
    + apply is_most_unique in E4; [| intros v; unfold count_distinct, count; lia]. rewrite E4.
      rewrite (omap_fmap_swap _ _ address_of) by by intros [? ?]. unfold most. f_equal.
      apply list_fmap_ext. intros _ v _. unfold count_distinct.
      by rewrite (having_fmap _ _ address_of), (omap_fmap_swap _ _ device_of) by by intros [? ?].
    + apply is_most_unique in E3; [| intros v; unfold count; lia]. rewrite E3.
      rewrite (omap_fmap_swap _ _ device_of) by by intros [? ?]. unfold most. f_equal.
      apply list_fmap_ext. intros _ v _. rewrite (having_fmap _ _ device_of) by by intros [? ?]. unfold count. by rewrite length_fmap.
  - rewrite Er. cbn [ls_window fst snd]. rewrite Hg. unfold own_traffic. f_equal.
    + unfold count. by rewrite length_fmap.
    + unfold count_if. rewrite (filter_fmap_swap _ _ (λ p, late <? gap_of p)) by by intros [? ?].
      unfold count. by rewrite length_fmap.
Qed.

Lemma stats_row start stop late attributions clicks app link :
  tables_owned attributions → own_installs start stop app link attributions clicks ≠ [] →
  ∃ row, row ∈ stats start stop late attributions clicks ∧ ls_app_id row = app ∧ ls_tracking_link_id row = link.
Proof.
  intros Hown Hne. pose proof (owned_scored start stop attributions clicks Hown) as Ho.
  pose proof (scored_own start stop app link attributions clicks) as Hs.
  destruct (own_installs _ _ _ _ _ _) as [|p mine]; [done |]. rewrite fmap_cons in Hs.
  assert (score_row p ∈ scored start stop attributions clicks ∧
    (sc_app_id (score_row p), sc_tracking_link_id (score_row p)) = (app, link)) as [H0 [= E1 E2]].
  { apply (having_elem (λ s, (sc_app_id s, sc_tracking_link_id s))). rewrite Hs. left. }
  rewrite stats_rows. set (rows := scored start stop attributions clicks) in *.
  eexists. split; [apply list_elem_of_fmap_2, (group_by_elem link_key rows (link_key (score_row p))); split; [done |] | done].
  intros Hn%having_nil. apply Hn. by apply list_elem_of_fmap_2.
Qed.

(** ** Lemmas: the findings *)

Section SweepLemmas.
Context (ids : nat → uuid) (clock ws now : datetime).

Definition about (row : LinkStats) (k : FindingKey) : Prop :=
  let '(app, link, _, start) := k in start = ws ∧ app = ls_app_id row ∧ link = ls_tracking_link_id row.

#[local] Instance about_dec row k : base.Decision (about row k).
Proof. destruct k as [[[app link] name] start]. cbn. apply _. Defined.

Definition key_rule (k : FindingKey) : pystr := snd (fst k).

(** A finding of one of the rules that fire on some traffic, with that traffic. *)
Definition written (w : TrafficWindow) (k : FindingKey) (f : Findings) : Prop :=
  ∃ fi s, f !! k = Some fi ∧ s ∈ signals (assess_traffic w) ∧ rule_value (rule s) = key_rule k ∧
    fi_evidence fi = w ∧ fi_window_end fi = now ∧ fi_severity fi = severity s ∧ fi_detail fi = detail s.

Lemma write_lookup row r f s k :
  snd (write_finding ids clock ws now row (r, f) s) !! k =
  if decide (k = finding_key ws row s)
  then Some (merged finding_merge (f !! k) (finding_of clock now row (ids (Z.to_nat (sw_findings_written r))) s))
  else f !! k.
Proof.
  unfold write_finding, put. cbn [snd fst]. destruct (decide _) as [->|Hne].
  - by rewrite lookup_insert_eq.
  - by rewrite lookup_insert_ne by congruence.
Qed.

Lemma write_all_lookup row sigs r f k :
  (∀ s, s ∈ sigs → s ∈ signals (assess_traffic (ls_window row))) →
  let f' := snd (fold_left (write_finding ids clock ws now row) sigs (r, f)) in
  (about row k ∧ key_rule k ∈ rule_value ∘ rule <$> sigs → written (ls_window row) k f') ∧
  (¬ (about row k ∧ key_rule k ∈ rule_value ∘ rule <$> sigs) → f' !! k = f !! k).
Proof.
  intros Hsub. revert r f. induction sigs as [|s sigs IH]; intros r f; cbn [fold_left fmap list_fmap].
  { split; [intros [_ []%not_elem_of_nil] | done]. }
  assert (∀ s, s ∈ sigs → s ∈ signals (assess_traffic (ls_window row))) as Hsub' by (intros s' Hs'; apply Hsub; by right).
  destruct (write_finding ids clock ws now row (r, f) s) as [r1 f1] eqn:E1.
  pose proof (write_lookup row r f s k) as Hw. rewrite E1 in Hw. cbn [snd] in Hw.
  destruct (IH Hsub' r1 f1) as [H1 H2]. clear IH. set (f' := snd (fold_left _ sigs (r1, f1))) in *.
  assert (about row k ∧ key_rule k = rule_value (rule s) ↔ k = finding_key ws row s) as Hk.
  { destruct k as [[[app link] name] start]. unfold finding_key, key_rule. cbn. split; [| by intros [= -> -> -> ->]].
    intros [(-> & -> & ->) ->]. done. }
  split.
  - intros [Ha Hr]. destruct (decide (key_rule k ∈ rule_value ∘ rule <$> sigs)) as [Hin|Hin]; [by apply H1 |].
    apply elem_of_cons in Hr as [Hr|Hr]; [| done].
    assert (f' !! k = f1 !! k) as Ef by (apply H2; tauto).
    rewrite decide_True in Hw by by apply Hk. rewrite Hw in Ef. eexists _, s. split; [exact Ef |].
    split; [apply Hsub; left |]. split; [done |].
    unfold merged. by destruct (f !! k).
  - intros Hno. rewrite H2, Hw.
    + rewrite decide_False; [done |]. intros [Ha Hr]%Hk. apply Hno. split; [done |]. rewrite Hr. left.
    + intros [Ha Hr]. apply Hno. split; [done |]. by right.
Qed.

Lemma sweep_row_lookup row r f k :
  let f' := snd (sweep_row ids clock ws now (r, f) row) in
  (about row k → key_rule k ∈ rules (assess_traffic (ls_window row)) → written (ls_window row) k f') ∧
  (about row k → key_rule k ∉ rules (assess_traffic (ls_window row)) → f' !! k = None) ∧
  (¬ about row k → f' !! k = f !! k).
Proof.
  unfold sweep_row. set (r0 := {| sw_links_examined := _ |}).
  destruct (write_all_lookup row (signals (assess_traffic (ls_window row))) r0 f k) as [H1 H2]; [done |].
  destruct (fold_left _ _ (r0, f)) as [r1 f1]. cbn [snd] in *. unfold clear.
  assert (cleared ws row (rules (assess_traffic (ls_window row))) k ↔
          about row k ∧ key_rule k ∉ rules (assess_traffic (ls_window row))) as Hc.
  { destruct k as [[[app link] name] start]. cbn. tauto. }
  assert (¬ cleared ws row (rules (assess_traffic (ls_window row))) k →
          filter (λ p, ¬ cleared ws row (rules (assess_traffic (ls_window row))) (fst p)) f1 !! k = f1 !! k) as Hkeep.
  { intros Hno. destruct (f1 !! k) as [fi|] eqn:E.
    - by apply map_lookup_filter_Some.
    - apply map_lookup_filter_None. by left. }
  split; [| split].
  - intros Ha Hr. unfold written. rewrite Hkeep by tauto. by apply H1.
  - intros Ha Hr. apply map_lookup_filter_None. right. intros fi _ Hn. apply Hn. cbn. tauto.
  - intros Ha. rewrite Hkeep by tauto. apply H2. tauto.
Qed.

Lemma sweep_rows_lookup rows r f k :
  NoDup ((λ row, (ls_app_id row, ls_tracking_link_id row)) <$> rows) →
  let f' := snd (fold_left (sweep_row ids clock ws now) rows (r, f)) in
  (∀ row, row ∈ rows → about row k →
     (key_rule k ∈ rules (assess_traffic (ls_window row)) → written (ls_window row) k f') ∧
     (key_rule k ∉ rules (assess_traffic (ls_window row)) → f' !! k = None)) ∧
  ((∀ row, row ∈ rows → ¬ about row k) → f' !! k = f !! k).
Proof.
  revert r f. induction rows as [|row rows IH]; intros r f Hn; cbn [fold_left].
  { split; [intros row []%not_elem_of_nil | done]. }
  apply NoDup_cons in Hn as [Hrow Hn]. pose proof (sweep_row_lookup row r f k) as (S1 & S2 & S3).
  destruct (sweep_row ids clock ws now (r, f) row) as [r1 f1]. cbn [snd] in *.
  destruct (IH r1 f1 Hn) as [I1 I2]. clear IH. split.
  - intros row' [->|Hin]%elem_of_cons Ha; [| by apply I1].
    assert (∀ row', row' ∈ rows → ¬ about row' k) as Hoth.
    { intros row' Hin Ha'. apply Hrow. apply list_elem_of_fmap. exists row'. split; [| done].
      destruct k as [[[app link] name] start]. cbn in Ha, Ha'. destruct Ha as (_ & -> & ->), Ha' as (_ & -> & ->). done. }
    specialize (I2 Hoth). unfold written. rewrite I2. split; intros Hr; [by apply S1 | by apply S2].
  - intros Hno. rewrite I2 by (intros row' Hin; apply Hno; by right). apply S3, Hno. left.
Qed.
End SweepLemmas.

Lemma stats_distinct start stop late attributions clicks :
  links_owned (scored start stop attributions clicks) →
  NoDup ((λ row, (ls_app_id row, ls_tracking_link_id row)) <$> stats start stop late attributions clicks).
Proof.
  intros Ho. rewrite stats_rows, <- list_fmap_compose. set (rows := scored start stop attributions clicks) in *.
  apply NoDup_fmap_2_strong; [| by apply (NoDup_fmap_1 fst), group_by_NoDup].
  intros [[[o a] l] g] [[[o' a'] l'] g'] [-> Hg]%group_by_elem [-> Hg']%group_by_elem [= E1 E2].
  assert (∃ s, s ∈ having link_key (o, a, l) rows) as [s [Hs Hk]%having_elem]
    by (destruct (having link_key (o, a, l) rows) as [|s ?]; [done | exists s; left]).
  assert (∃ s, s ∈ having link_key (o', a', l') rows) as [s' [Hs' Hk']%having_elem]
    by (destruct (having link_key (o', a', l') rows) as [|s' ?]; [done | exists s'; left]).
  unfold link_key in Hk, Hk'. pose proof (lo_app rows Ho s s' Hs Hs').
  assert (o = o') as -> by (cbn in *; naive_solver congruence). cbn in *. by subst.
Qed.

(** (C24) A sweep leaves the findings of its window exact.  A link of an application that has
    installs in the window has a finding of a rule if and only if the rule fires on the
    link's own traffic, counted from its own attributions and their clicks: how many there
    are, how many came late, the most of one device, the most devices behind one address;
    and the finding carries these figures.  So it is whatever findings were there before:
    sweeping a window again, after a crash or to correct it, neither duplicates a finding
    nor leaves one that no longer holds.  Findings of links without installs in the window,
    and of other windows, are left alone. *)
Theorem sweep_findings_are_exact ids clock now window late attributions clicks f app link name :
  tables_owned attributions →
  let ws := now - window in
  let f' := snd (sweep ids clock now window late attributions clicks f) in
  let mine := own_installs ws now app link attributions clicks in
  let w := own_traffic (default LATE_CONVERSION_THRESHOLD late) link mine in
  (mine ≠ [] →
     (name ∈ rules (assess_traffic w) → written now w (app, link, name, ws) f') ∧
     (name ∉ rules (assess_traffic w) → f' !! (app, link, name, ws) = None)) ∧
  (mine = [] → f' !! (app, link, name, ws) = f !! (app, link, name, ws)) ∧
  (∀ start, start ≠ ws → f' !! (app, link, name, start) = f !! (app, link, name, start)).
Proof.
  intros Hown ws f' mine w. set (th := default LATE_CONVERSION_THRESHOLD late) in *.
  set (rows := stats ws now th attributions clicks).
  assert (∀ k, (∀ row, row ∈ rows → about ws row k →
       (key_rule k ∈ rules (assess_traffic (ls_window row)) → written now (ls_window row) k f') ∧
       (key_rule k ∉ rules (assess_traffic (ls_window row)) → f' !! k = None)) ∧
    ((∀ row, row ∈ rows → ¬ about ws row k) → f' !! k = f !! k)) as Hrows
    by (intros k; by apply sweep_rows_lookup, stats_distinct, owned_scored).
  assert (∀ row, row ∈ rows → ls_app_id row = app → ls_tracking_link_id row = link → mine ≠ [] ∧ ls_window row = w) as Hwin.
  { intros row Hr Ea El. destruct (stats_own ws now th attributions clicks row Hown Hr) as [H1 H2].
    rewrite Ea, El in H1, H2. done. }
  split; [| split].
  - intros Hne. destruct (stats_row ws now th attributions clicks app link Hown Hne) as (row & Hr & Ea & El).
    destruct (Hwin row Hr Ea El) as [_ Ew]. destruct (Hrows (app, link, name, ws)) as [H1 _].
    destruct (H1 row Hr) as [Hin Hout]; [done |]. rewrite Ew in Hin, Hout. done.
  - intros E. apply (Hrows (app, link, name, ws)). intros row Hr (_ & -> & ->). by destruct (Hwin row Hr eq_refl eq_refl).
  - intros start Hne. apply (Hrows (app, link, name, start)). intros row _ [Hs _]. by apply Hne.
Qed.

(** ** Examples *)

Definition ex_sweep_now : datetime := 20703 * day.

Definition ex_attribution (i : nat) : AttributionRow :=
  {| a_id := N.of_nat i; a_organization_id := 1; a_app_id := 2; a_install_key := []; a_anonymous_id := [];
     a_user_id := None; a_click_id := Some (N.of_nat i); a_campaign_id := Some 4%N; a_tracking_link_id := Some 6%N;
     a_source := None; a_medium := None; a_method := CLICK_ID; a_installed_at := ex_sweep_now - day;
     a_attributed_at := ex_sweep_now; a_window_days := 30; a_expires_at := ex_sweep_now + 30 * day; a_fraud_score := 0;
     a_fraud_verdict := CLEAN; a_fraud_rules := None; a_deep_link := None; a_sub1 := None; a_sub2 := None;
     a_sub3 := None; a_superseded_by := None |}.

Definition ex_click_of (gap : timedelta) (i : nat) : ClickRecord :=
  {| cr_click_id := N.of_nat i; cr_clicked_at := ex_sweep_now - day - gap; cr_organization_id := 1; cr_app_id := 2;
     cr_campaign_id := Some 4%N; cr_tracking_link_id := 6; cr_device_hash := Some [N.of_nat (i / 3)];
     cr_ip_hash := Some [9%N]; cr_country := None; cr_platform := 1; cr_os_version := None; cr_device_model := None;
     cr_user_agent := None; cr_sub1 := None; cr_sub2 := None; cr_sub3 := None; cr_is_bot := false;
     cr_deep_link := None |}.

(** Sixty installs of one link, three of each device, behind one address. *)
Definition ex_attributions : list AttributionRow := ex_attribution <$> seq 0 60.
Definition ex_clicks (gap : timedelta) : list ClickRecord := ex_click_of gap <$> seq 0 60.

Definition ex_stats (gap : timedelta) : LinkStats :=
  {| ls_organization_id := 1; ls_app_id := 2; ls_tracking_link_id := Some 6%N; ls_campaign_id := Some 4%N;
     ls_window := {| attributed_installs := 60; late_installs := if LATE_CONVERSION_THRESHOLD <? gap then 60 else 0;
                     max_devices_per_ip := 20; max_installs_per_device := 3 |} |}.

Lemma ex_owned : tables_owned ex_attributions.
Proof.
  assert (∀ a, a ∈ ex_attributions → a_app_id a = 2%N ∧ a_organization_id a = 1%N) as H
    by (intros a (i & -> & _)%list_elem_of_fmap; done).
  split; intros a a' Ha Ha'; destruct (H a Ha), (H a' Ha'); congruence.
Qed.

Definition ex_sweep (now : datetime) (gap : timedelta) (f : Findings) : Findings :=
  snd (sweep N.of_nat now now SWEEP_WINDOW None ex_attributions (ex_clicks gap) f).

(** Flooding is found; when the same window is swept again and the traffic is seen to be
    prompt, the finding goes. *)
Lemma sweep_findings_are_exact_witness :
  let k : FindingKey := (2%N, Some 6%N, py "click_flooding", ex_sweep_now - SWEEP_WINDOW) in
  let f := ex_sweep ex_sweep_now (8 * day) ∅ in
  written ex_sweep_now {| attributed_installs := 60; late_installs := 60; max_devices_per_ip := 20;
                          max_installs_per_device := 3 |} k f ∧
  ex_sweep ex_sweep_now hour f !! k = None.
Proof.
  intros k f. split.
  - destruct (sweep_findings_are_exact N.of_nat ex_sweep_now ex_sweep_now SWEEP_WINDOW None ex_attributions
                (ex_clicks (8 * day)) ∅ 2 (Some 6%N) (py "click_flooding") ex_owned) as [W _].
    assert (own_traffic (default LATE_CONVERSION_THRESHOLD None) (Some 6%N)
      (own_installs (ex_sweep_now - SWEEP_WINDOW) ex_sweep_now 2 (Some 6%N) ex_attributions (ex_clicks (8 * day))) =
      {| attributed_installs := 60; late_installs := 60; max_devices_per_ip := 20; max_installs_per_device := 3 |})
      as E by (vm_compute; reflexivity).
    rewrite E in W. apply W; [vm_compute; discriminate |].
    match goal with |- _ ∈ ?l => assert (l = [py "click_flooding"]) as -> by (vm_compute; reflexivity) end. left.
  - destruct (sweep_findings_are_exact N.of_nat ex_sweep_now ex_sweep_now SWEEP_WINDOW None ex_attributions
                (ex_clicks hour) f 2 (Some 6%N) (py "click_flooding") ex_owned) as [W _].
    apply W; [vm_compute; discriminate |].
    match goal with |- _ ∉ ?l => assert (l = []) as -> by (vm_compute; reflexivity) end. apply not_elem_of_nil.
Defined.

(** The worker sweeps with the time of each run, so the window never starts at the same
    instant twice: the next run duplicates the finding, and once the traffic is prompt the
    old one still stands. *)
Lemma next_sweep_duplicates_and_keeps :
  let f := ex_sweep ex_sweep_now (8 * day) ∅ in
  let f1 := ex_sweep (ex_sweep_now + minute) (8 * day) f in
  let f2 := ex_sweep (ex_sweep_now + 2 * minute) hour f1 in
  (size f, size f1, size f2) = (1%nat, 2%nat, 2%nat).
Proof. vm_compute. reflexivity. Qed.

(** A link with no traffic left in the window is not examined, so its finding is not
    cleared even when the same window is swept. *)
Lemma quiet_link_stays_accused :
  let f := ex_sweep ex_sweep_now (8 * day) ∅ in
  snd (sweep N.of_nat ex_sweep_now ex_sweep_now SWEEP_WINDOW None [] [] f) = f.
Proof. cbv zeta. generalize (ex_sweep ex_sweep_now (8 * day) ∅). intros f. reflexivity. Qed.
