(* ===== verification/Privacy.v ===== *)
(** * Consent records and erasure (mmp_db/erasure.py, mmp_api/routes/privacy.py)

    The handlers run after the dependencies of [Access] on the tables that hold something
    of a device, the two caches and the audit log.  Row-level security hides the rows of
    other organisations in the tables that have it ([attributions], [consent_states], [apps],
    [audit_log]); [events] and [clicks] have none.  The draws of [uuid7] and the clocks are
    arguments.  A handler's transaction commits after it returned: the state it leaves has
    the rows it will have committed and the caches as the handler left them, and
    [lookup_event] runs lookups before and after the commit. *)

From stdpp Require Import sorting.
From S2P Require Import Prelude Redis Ids Engine Fraud Store Consent Schema Keys Writer Signing AttributionWorker.
From S2P Require Import AuditLog ApiSessions Access Handlers.

#[local] Open Scope Z_scope.
#[local] Open Scope mmp_scope.

(** ** erasure.py *)

Inductive Scope := DEVICE | USER.

Record ErasureResult := {
  es_request_id : uuid;
  es_scope : Scope;
  es_deleted : list (pystr * Z);
  es_cleared : list (pystr * Z);
  es_completed_at : option datetime
}.

Definition total_deleted (r : ErasureResult) : Z := fold_left Z.add (snd <$> es_deleted r) 0.

Record ConsentRow := {
  cs_id : uuid;
  cs_organization_id : uuid;
  cs_app_id : uuid;
  cs_anonymous_id : pystr;
  cs_purpose : Purpose;
  cs_state : State;
  cs_source : option pystr;
  cs_expires_at : option datetime;
  cs_created_at : datetime;
  cs_updated_at : datetime
}.

Record PrivacyState := {
  pv_apps : list (uuid * uuid);     (* the application and its organisation *)
  pv_events : list EventRow;
  pv_attributions : list AttributionRow;
  pv_consents : list ConsentRow;
  pv_clicks : list ClickRecord;
  pv_audit : list AuditRow;
  pv_consent_cache : store Cached;
  pv_attribution_cache : store CachedAttribution
}.

Definition with_audit (l : list AuditRow) (st : PrivacyState) : PrivacyState :=
  {| pv_apps := pv_apps st; pv_events := pv_events st; pv_attributions := pv_attributions st;
     pv_consents := pv_consents st; pv_clicks := pv_clicks st; pv_audit := l;
     pv_consent_cache := pv_consent_cache st; pv_attribution_cache := pv_attribution_cache st |}.

Definition with_consents (l : list ConsentRow) (st : PrivacyState) : PrivacyState :=
  {| pv_apps := pv_apps st; pv_events := pv_events st; pv_attributions := pv_attributions st;
     pv_consents := l; pv_clicks := pv_clicks st; pv_audit := pv_audit st;
     pv_consent_cache := pv_consent_cache st; pv_attribution_cache := pv_attribution_cache st |}.

Section Erasure.
Context {U : Unicode}.

(** [DELETE FROM t WHERE p]: what is left, and the status asyncpg returns. *)
Definition delete_rows {R} (p : R → bool) (rows : list R) : list R * pystr :=
  (List.filter (λ r, negb (p r)) rows, py "DELETE " ++ py_str_int (Z.of_nat (length (List.filter p rows)))).

(** [ON DELETE SET NULL] of [superseded_by]. *)
Definition forget_successor (deleted : list uuid) (r : AttributionRow) : AttributionRow :=
  match a_superseded_by r with
  | Some id =>
      if bool_decide (id ∈ deleted)
      then {| a_id := a_id r; a_organization_id := a_organization_id r; a_app_id := a_app_id r;
              a_install_key := a_install_key r; a_anonymous_id := a_anonymous_id r; a_user_id := a_user_id r;
              a_click_id := a_click_id r; a_campaign_id := a_campaign_id r;
              a_tracking_link_id := a_tracking_link_id r; a_source := a_source r; a_medium := a_medium r;
              a_method := a_method r; a_installed_at := a_installed_at r; a_attributed_at := a_attributed_at r;
              a_window_days := a_window_days r; a_expires_at := a_expires_at r; a_fraud_score := a_fraud_score r;
              a_fraud_verdict := a_fraud_verdict r; a_fraud_rules := a_fraud_rules r; a_deep_link := a_deep_link r;
              a_sub1 := a_sub1 r; a_sub2 := a_sub2 r; a_sub3 := a_sub3 r; a_superseded_by := None |}
      else r
  | None => r
  end.

Definition event_target (app : uuid) (anon : pystr) (e : EventRow) : bool :=
  bool_decide (er_app_id e = app) && bool_decide (er_anonymous_id e = anon).
Definition attribution_target (org app : uuid) (anon : pystr) (a : AttributionRow) : bool :=
  bool_decide (a_organization_id a = org) && bool_decide (a_app_id a = app) && bool_decide (a_anonymous_id a = anon).
Definition consent_target (org app : uuid) (anon : pystr) (c : ConsentRow) : bool :=
  bool_decide (cs_organization_id c = org) && bool_decide (cs_app_id c = app) && bool_decide (cs_anonymous_id c = anon).

(** [CLEAR_CLICK_IDENTIFIERS] *)
Definition click_target (app : uuid) (hash : list N) (c : ClickRecord) : bool :=
  bool_decide (cr_app_id c = app) && bool_decide (cr_device_hash c = Some hash).
Definition without_identifiers (c : ClickRecord) : ClickRecord :=
  {| cr_click_id := cr_click_id c; cr_clicked_at := cr_clicked_at c; cr_organization_id := cr_organization_id c;
     cr_app_id := cr_app_id c; cr_campaign_id := cr_campaign_id c; cr_tracking_link_id := cr_tracking_link_id c;
     cr_device_hash := None; cr_ip_hash := None; cr_country := cr_country c; cr_platform := cr_platform c;
     cr_os_version := cr_os_version c; cr_device_model := cr_device_model c; cr_user_agent := None;
     cr_sub1 := cr_sub1 c; cr_sub2 := cr_sub2 c; cr_sub3 := cr_sub3 c; cr_is_bot := cr_is_bot c;
     cr_deep_link := cr_deep_link c |}.
Definition clear_clicks (app : uuid) (hash : list N) (clicks : list ClickRecord) : list ClickRecord * pystr :=
  ((λ c, if click_target app hash c then without_identifiers c else c) <$> clicks,
   py "UPDATE " ++ py_str_int (Z.of_nat (length (List.filter (click_target app hash) clicks)))).

(** [_rows_affected] *)
Definition rows_affected (status : pystr) : Z := default 0 (s ← last (py_split 32 status); py_int 10 s).

(** [erase_device], on the connection of an organisation. *)
Definition erase_device (org app : uuid) (anon : pystr) (device_hash : option (list N)) (request_id : uuid)
    (now : datetime) (st : PrivacyState) : ErasureResult * PrivacyState :=
  let '(events, s1) := delete_rows (event_target app anon) (pv_events st) in
  let '(attributions, s2) := delete_rows (attribution_target org app anon) (pv_attributions st) in
  let deleted := a_id <$> List.filter (attribution_target org app anon) (pv_attributions st) in
  let '(consents, s3) := delete_rows (consent_target org app anon) (pv_consents st) in
  let '(clicks, cleared) :=
    match device_hash with
    | Some hash => let '(clicks, s) := clear_clicks app hash (pv_clicks st) in (clicks, [(py "clicks", rows_affected s)])
    | None => (pv_clicks st, [])
    end in
  ({| es_request_id := request_id; es_scope := DEVICE;
      es_deleted := [(py "events", rows_affected s1); (py "attributions", rows_affected s2);
                     (py "consent_states", rows_affected s3)];
      es_cleared := cleared; es_completed_at := Some now |},
   {| pv_apps := pv_apps st; pv_events := events; pv_attributions := forget_successor deleted <$> attributions;
      pv_consents := consents; pv_clicks := clicks; pv_audit := pv_audit st;
      pv_consent_cache := pv_consent_cache st; pv_attribution_cache := pv_attribution_cache st |}).

(** ** privacy.py *)

Context {L : AuditLib}.

Record ErasureRequest := { eq_app_id : uuid; eq_anonymous_id : pystr; eq_device_hash_hex : option pystr }.

Definition request_ok (b : ErasureRequest) : bool :=
  negb (bool_decide (eq_anonymous_id b = [])) && (length (eq_anonymous_id b) <=? 255)%nat &&
  match eq_device_hash_hex b with Some h => (length h <=? 64)%nat | None => true end.

(** [SELECT 1 FROM apps WHERE id = $1] *)
Definition app_visible (org app : uuid) (st : PrivacyState) : bool := bool_decide ((app, org) ∈ pv_apps st).

Definition device_hash_of_request (b : ErasureRequest) : result ApiError (option (list N)) :=
  match eq_device_hash_hex b with
  | None | Some [] => Ok None
  | Some h => match fromhex h with Some x => Ok (Some x) | None => Err (Http 422 (py "device_hash_hex is not hex")) end
  end.

(** What [uuid7] and the clocks give a handler: the start of the transaction is the
    database's [now()]. *)
Record HandlerDraws := {
  hd_request_id : uuid;
  hd_row_id : uuid;
  hd_audit1 : uuid;
  hd_audit2 : uuid;
  hd_transaction : datetime;
  hd_clock : datetime
}.

Definition counts_json (l : list (pystr * Z)) : json := JObj ((λ p, (fst p, JInt (snd p))) <$> l).

(** The statements of [request_erasure], one transaction. *)
Definition erasure_transaction (p : Principal) (org : uuid) (b : ErasureRequest) (hash : option (list N))
    (d : HandlerDraws) (st : PrivacyState) : result ApiError (ErasureResult * PrivacyState) :=
  let* log := audited (record (pv_audit st) (hd_transaction d) (hd_audit1 d) org (py "erasure.requested")
                         (py "device") (Some (eq_anonymous_id b)) (Some (pr_user_id p))
                         [(py "request_id", JStr (str_of_uuid (hd_request_id d)));
                          (py "app_id", JStr (str_of_uuid (eq_app_id b)))]) in
  let '(r, st1) := erase_device org (eq_app_id b) (eq_anonymous_id b) hash (hd_request_id d) (hd_clock d)
                     (with_audit log st) in
  let* log' := audited (record (pv_audit st1) (hd_transaction d) (hd_audit2 d) org (py "erasure.completed")
                          (py "device") (Some (eq_anonymous_id b)) (Some (pr_user_id p))
                          [(py "request_id", JStr (str_of_uuid (hd_request_id d)));
                           (py "deleted", counts_json (es_deleted r)); (py "cleared", counts_json (es_cleared r))]) in
  Ok (r, with_audit log' st1).

(** The two [redis.delete] calls. *)
Definition drop_caches (b : ErasureRequest) (st : PrivacyState) : PrivacyState :=
  {| pv_apps := pv_apps st; pv_events := pv_events st; pv_attributions := pv_attributions st;
     pv_consents := pv_consents st; pv_clicks := pv_clicks st; pv_audit := pv_audit st;
     pv_consent_cache := rdel (consent_cache_key (str_of_uuid (eq_app_id b)) (eq_anonymous_id b)) (pv_consent_cache st);
     pv_attribution_cache :=
       rdel (py "attr:" ++ str_of_uuid (eq_app_id b) ++ py ":" ++ eq_anonymous_id b) (pv_attribution_cache st) |}.

Definition app_not_found : ApiError := Http 404 (py "app not found").

Definition request_erasure (rq : ApiRequest) (b : ErasureRequest) (d : HandlerDraws) (api : ApiState)
    (st : PrivacyState) : result ApiError ErasureResult * ApiState * PrivacyState :=
  match require_role Admin rq api with
  | (Err e, api) => (Err e, api, st)
  | (Ok (p, org), api) =>
      match (let* _ := raise_if (negb (request_ok b)) invalid_body in
             let* _ := raise_if (negb (app_visible org (eq_app_id b) st)) app_not_found in
             let* hash := device_hash_of_request b in
             erasure_transaction p org b hash d st) with
      | Err e => (Err e, api, st)
      | Ok (r, st') => (Ok r, api, drop_caches b st')
      end
  end.

Record ConsentRecord := {
  cn_app_id : uuid;
  cn_anonymous_id : pystr;
  cn_purpose : Purpose;
  cn_state : State;
  cn_source : option pystr;
  cn_expires_at : option datetime
}.

Definition record_ok (b : ConsentRecord) : bool :=
  negb (bool_decide (cn_anonymous_id b = [])) && (length (cn_anonymous_id b) <=? 255)%nat &&
  match cn_source b with Some s => (length s <=? 40)%nat | None => true end.

(** [INSERT .. ON CONFLICT (app_id, anonymous_id, purpose) DO UPDATE .. RETURNING]; a
    conflict with a row the policy hides is an error. *)
Definition same_consent (b : ConsentRecord) (c : ConsentRow) : bool :=
  bool_decide (cs_app_id c = cn_app_id b) && bool_decide (cs_anonymous_id c = cn_anonymous_id b) &&
  bool_decide (cs_purpose c = cn_purpose b).

Definition updated_consent (b : ConsentRecord) (now : datetime) (c : ConsentRow) : ConsentRow :=
  {| cs_id := cs_id c; cs_organization_id := cs_organization_id c; cs_app_id := cs_app_id c;
     cs_anonymous_id := cs_anonymous_id c; cs_purpose := cs_purpose c; cs_state := cn_state b;
     cs_source := cn_source b; cs_expires_at := cn_expires_at b; cs_created_at := cs_created_at c;
     cs_updated_at := now |}.

Definition new_consent (org id : uuid) (b : ConsentRecord) (now : datetime) : ConsentRow :=
  {| cs_id := id; cs_organization_id := org; cs_app_id := cn_app_id b; cs_anonymous_id := cn_anonymous_id b;
     cs_purpose := cn_purpose b; cs_state := cn_state b; cs_source := cn_source b;
     cs_expires_at := cn_expires_at b; cs_created_at := now; cs_updated_at := now |}.

Definition upsert_consent (org id : uuid) (b : ConsentRecord) (now : datetime) (rows : list ConsentRow)
  : result ApiError (ConsentRow * list ConsentRow) :=
  match List.find (same_consent b) rows with
  | Some c =>
      if bool_decide (cs_organization_id c = org) then
        Ok (updated_consent b now c, (λ x, if same_consent b x then updated_consent b now x else x) <$> rows)
      else Err Crash
  | None => let c := new_consent org id b now in Ok (c, rows ++ [c])
  end.

Definition json_opt (o : option pystr) : json := match o with Some s => JStr s | None => JNull end.

Definition forget_cached (b : ConsentRecord) (st : PrivacyState) : PrivacyState :=
  {| pv_apps := pv_apps st; pv_events := pv_events st; pv_attributions := pv_attributions st;
     pv_consents := pv_consents st; pv_clicks := pv_clicks st; pv_audit := pv_audit st;
     pv_consent_cache := forget_consent (pv_consent_cache st) (str_of_uuid (cn_app_id b)) (cn_anonymous_id b);
     pv_attribution_cache := pv_attribution_cache st |}.

Definition record_consent_handler (rq : ApiRequest) (b : ConsentRecord) (d : HandlerDraws) (api : ApiState)
    (st : PrivacyState) : result ApiError ConsentRow * ApiState * PrivacyState :=
  match require_role Member rq api with
  | (Err e, api) => (Err e, api, st)
  | (Ok (p, org), api) =>
      match (let* _ := raise_if (negb (record_ok b)) invalid_body in
             let* _ := raise_if (negb (app_visible org (cn_app_id b) st)) app_not_found in
             upsert_consent org (hd_row_id d) b (hd_transaction d) (pv_consents st)) with
      | Err e => (Err e, api, st)
      | Ok (row, rows) =>
          (* the cache is dropped before the entry is logged and the transaction commits *)
          let st1 := forget_cached b st in
          match audited (record (pv_audit st) (hd_transaction d) (hd_audit1 d) org (py "consent.recorded")
                           (py "consent_state") (Some (cn_anonymous_id b)) (Some (pr_user_id p))
                           [(py "purpose", JStr (purpose_value (cn_purpose b)));
                            (py "state", JStr (state_value (cn_state b)));
                            (py "source", json_opt (cn_source b))]) with
          | Err e => (Err e, api, st1)
          | Ok log => (Ok row, api, with_consents rows (with_audit log st1))
          end
      end
  end.

(** [ORDER BY created_at DESC] *)
Definition newest_first (a b : ConsentRow) : Prop := cs_created_at b <= cs_created_at a.
#[export] Instance newest_first_dec a b : base.Decision (newest_first a b).
Proof. unfold newest_first. apply _. Defined.

Definition list_consent (rq : ApiRequest) (app : uuid) (anon : pystr) (api : ApiState) (st : PrivacyState)
  : result ApiError (list ConsentRow) * ApiState :=
  match require_role Viewer rq api with
  | (Err e, api) => (Err e, api)
  | (Ok (_, org), api) =>
      (if app_visible org app st
       then Ok (merge_sort newest_first (List.filter (consent_target org app anon) (pv_consents st)))
       else Err app_not_found, api)
  end.

Definition verify_audit_chain (rq : ApiRequest) (api : ApiState) (st : PrivacyState)
  : result ApiError VerificationResult * ApiState :=
  match require_role Owner rq api with
  | (Err e, api) => (Err e, api)
  | (Ok (_, org), api) => (Ok (verify (pv_audit st) org), api)
  end.

(** ** Lemmas *)

Lemma rows_affected_status w n :
  32%N ∉ w → rows_affected (w ++ 32%N :: py_str_int (Z.of_nat n)) = Z.of_nat n.
Proof.
  intros Hw. unfold rows_affected. rewrite py_split_app by done.
  assert (32%N ∉ py_str_int (Z.of_nat n)) as Hs.
  { unfold py_str_int. rewrite (proj2 (Z.ltb_ge _ 0)) by lia. intros Hin.
    pose proof (dec_digits_chars (S (N.size_nat (Z.abs_N (Z.of_nat n)))) (Z.abs_N (Z.of_nat n)) [] (List.Forall_nil _)) as Hf.
    rewrite Forall_forall in Hf. by specialize (Hf _ Hin). }
  rewrite py_split_absent by done. cbn [last mbind option_bind]. by rewrite py_int_str by lia.
Qed.

Lemma deleted_count {R} (p : R → bool) rows :
  rows_affected (snd (delete_rows p rows)) = Z.of_nat (length (List.filter p rows)).
Proof.
  unfold delete_rows. cbn [snd]. apply (rows_affected_status (py "DELETE")).
  by apply (bool_decide_unpack _); vm_compute.
Qed.

Lemma cleared_count app hash clicks :
  rows_affected (snd (clear_clicks app hash clicks)) = Z.of_nat (length (List.filter (click_target app hash) clicks)).
Proof.
  unfold clear_clicks. cbn [snd]. apply (rows_affected_status (py "UPDATE")).
  by apply (bool_decide_unpack _); vm_compute.
Qed.

Definition of_device (app : uuid) (anon : pystr) (a : AttributionRow) : bool :=
  bool_decide (a_app_id a = app) && bool_decide (a_anonymous_id a = anon).
Definition consent_of_device (app : uuid) (anon : pystr) (c : ConsentRow) : bool :=
  bool_decide (cs_app_id c = app) && bool_decide (cs_anonymous_id c = anon).

(** The tables as the writers leave them: the attributions satisfy their invariant and are
    keyed by application and device, and a row of an application is its organisation's. *)
Record privacy_ok (st : PrivacyState) : Prop := {
  pk_table : table_ok (pv_attributions st);
  pk_keyed : ∀ a, a ∈ pv_attributions st → a_install_key a = install_key (a_app_id a) (a_anonymous_id a);
  pk_attributions : ∀ a org, a ∈ pv_attributions st → (a_app_id a, org) ∈ pv_apps st → a_organization_id a = org;
  pk_consents : ∀ c org, c ∈ pv_consents st → (cs_app_id c, org) ∈ pv_apps st → cs_organization_id c = org
}.

Lemma attribution_targets st org app anon :
  privacy_ok st → (app, org) ∈ pv_apps st →
  ∀ a, a ∈ pv_attributions st → attribution_target org app anon a = of_device app anon a.
Proof.
  intros Hok Happ a Ha. unfold attribution_target, of_device. destruct (decide (a_app_id a = app)) as [E|E].
  - rewrite (bool_decide_true (a_organization_id a = org)); [done |]. apply (pk_attributions st Hok); [done | by rewrite E].
  - rewrite (bool_decide_false (a_app_id a = app)) by done. by rewrite !andb_false_r.
Qed.

Lemma consent_targets st org app anon :
  privacy_ok st → (app, org) ∈ pv_apps st →
  ∀ c, c ∈ pv_consents st → consent_target org app anon c = consent_of_device app anon c.
Proof.
  intros Hok Happ a Ha. unfold consent_target, consent_of_device. destruct (decide (cs_app_id a = app)) as [E|E].
  - rewrite (bool_decide_true (cs_organization_id a = org)); [done |]. apply (pk_consents st Hok); [done | by rewrite E].
  - rewrite (bool_decide_false (cs_app_id a = app)) by done. by rewrite !andb_false_r.
Qed.

(** No row that stays pointed at a row that goes. *)
Lemma successors_stay st app anon :
  privacy_ok st →
  forget_successor (a_id <$> List.filter (of_device app anon) (pv_attributions st)) <$>
    List.filter (λ a, negb (of_device app anon a)) (pv_attributions st) =
  List.filter (λ a, negb (of_device app anon a)) (pv_attributions st).
Proof.
  intros Hok. set (gone := a_id <$> _). rewrite <- (list_fmap_id (List.filter _ _)) at 2. apply list_fmap_ext.
  intros i a Hi. assert (a ∈ List.filter (λ a, negb (of_device app anon a)) (pv_attributions st)) as [Ha Hd]%elem_of_lfilter
    by (by apply list_elem_of_lookup_2 in Hi).
  unfold forget_successor. destruct (a_superseded_by a) as [id|] eqn:Es; [| done].
  rewrite bool_decide_false; [done |]. intros (b & -> & [Hb Hdb]%elem_of_lfilter)%list_elem_of_fmap.
  destruct (ok_chain _ (pk_table _ Hok) a (a_id b) Ha Es) as (b' & Hb' & Eid & Eapp & Ekey & _).
  assert (b' = b) as -> by by apply (ok_ids _ (pk_table _ Hok)).
  rewrite (pk_keyed _ Hok b Hb), (pk_keyed _ Hok a Ha), Eapp in Ekey. apply app_inv_head, app_inv_head in Ekey.
  unfold of_device in *. rewrite <- Eapp, <- Ekey, Hdb in Hd. done.
Qed.

(** What an erasure leaves of a state, but for the log. *)
Record erased (app : uuid) (anon : pystr) (hash : option (list N)) (st st' : PrivacyState) : Prop := {
  ed_events : pv_events st' = List.filter (λ e, negb (event_target app anon e)) (pv_events st);
  ed_attributions : pv_attributions st' = List.filter (λ a, negb (of_device app anon a)) (pv_attributions st);
  ed_consents : pv_consents st' = List.filter (λ c, negb (consent_of_device app anon c)) (pv_consents st);
  ed_clicks : pv_clicks st' =
    match hash with
    | Some h => (λ c, if click_target app h c then without_identifiers c else c) <$> pv_clicks st
    | None => pv_clicks st
    end
}.

Definition exact_counts (app : uuid) (anon : pystr) (hash : option (list N)) (st : PrivacyState) (r : ErasureResult)
  : Prop :=
  es_deleted r =
    [(py "events", Z.of_nat (length (List.filter (event_target app anon) (pv_events st))));
     (py "attributions", Z.of_nat (length (List.filter (of_device app anon) (pv_attributions st))));
     (py "consent_states", Z.of_nat (length (List.filter (consent_of_device app anon) (pv_consents st))))] ∧
  es_cleared r =
    match hash with
    | Some h => [(py "clicks", Z.of_nat (length (List.filter (click_target app h) (pv_clicks st))))]
    | None => []
    end.

Lemma erase_device_spec org app anon hash id now st :
  privacy_ok st → (app, org) ∈ pv_apps st →
  let '(r, st') := erase_device org app anon hash id now st in
  erased app anon hash st st' ∧ exact_counts app anon hash st r ∧ pv_audit st' = pv_audit st ∧
  pv_apps st' = pv_apps st ∧
  pv_consent_cache st' = pv_consent_cache st ∧ pv_attribution_cache st' = pv_attribution_cache st.
Proof.
  intros Hok Happ. unfold erase_device.
  pose proof (deleted_count (event_target app anon) (pv_events st)) as H1.
  pose proof (deleted_count (attribution_target org app anon) (pv_attributions st)) as H2.
  pose proof (deleted_count (consent_target org app anon) (pv_consents st)) as H3.
  cbn [delete_rows snd] in *.
  assert (∀ f g : AttributionRow → bool, (∀ a, a ∈ pv_attributions st → f a = g a) →
            List.filter f (pv_attributions st) = List.filter g (pv_attributions st)) as Ha
    by (intros f g Hf; apply List.filter_ext_in; intros a Hin%list_elem_of_In; by apply Hf).
  assert (∀ f g : ConsentRow → bool, (∀ a, a ∈ pv_consents st → f a = g a) →
            List.filter f (pv_consents st) = List.filter g (pv_consents st)) as Hc
    by (intros f g Hf; apply List.filter_ext_in; intros a Hin%list_elem_of_In; by apply Hf).
  pose proof (attribution_targets st org app anon Hok Happ) as Ta.
  pose proof (consent_targets st org app anon Hok Happ) as Tc.
  rewrite (Ha _ (of_device app anon)) in * by done. rewrite (Hc _ (consent_of_device app anon)) in * by done.
  rewrite (Ha (λ a, negb _) (λ a, negb (of_device app anon a))) by (intros a Hin; by rewrite Ta).
  rewrite (Hc (λ a, negb _) (λ a, negb (consent_of_device app anon a))) by (intros a Hin; by rewrite Tc).
  rewrite (successors_stay st app anon Hok).
  destruct hash as [h|].
  - pose proof (cleared_count app h (pv_clicks st)) as H4. unfold clear_clicks in *. cbn [snd] in H4.
    split; [by split |]. split; [| done]. split; cbn [es_deleted es_cleared]; by rewrite ?H1, ?H2, ?H3, ?H4.
  - split; [by split |]. split; [| done]. split; cbn [es_deleted es_cleared]; by rewrite ?H1, ?H2, ?H3.
Qed.

Lemma audited_record db now id org action kind rid actor detail log :
  audited (record db now id org action kind rid actor detail) = Ok log →
  ∃ row, log = db ++ [row] ∧ al_action row = action ∧ al_organization_id row = org ∧ al_resource_id row = rid ∧
    al_actor_user_id row = actor.
Proof.
  unfold record. destruct (raise_if _ (UnknownAction action)); [| done]. cbn [rbind].
  destruct (raise_if _ DuplicateId); [| done]. cbn. intros [= <-]. eexists. split; [done |]. done.
Qed.

(** *** Lookups beside an erasure

    [lookup] of store.py reads the cache, then the committed rows, then writes what it
    found: a task of two steps.  The erasure drops the cached entries and commits later. *)

Record LookupTask := { lt_app : uuid; lt_anon : pystr; lt_row : AttributionRow }.

Record LookupWorld := {
  lw_rows : list AttributionRow;
  lw_cache : store CachedAttribution;
  lw_tasks : list LookupTask
}.

Inductive LookupEvent :=
| LookupReads (now : datetime) (app : uuid) (anon : pystr)
| LookupWrites (now : datetime) (i : nat)
| ErasureCommits (app : uuid) (anon : pystr).

Definition lookup_event (w : LookupWorld) (e : LookupEvent) : LookupWorld :=
  match e with
  | LookupReads now app anon =>
      match rget now (cache_key app anon) (lw_cache w), fetch_current (lw_rows w) app (install_key app anon) with
      | None, Some row =>
          {| lw_rows := lw_rows w; lw_cache := lw_cache w;
             lw_tasks := lw_tasks w ++ [{| lt_app := app; lt_anon := anon; lt_row := row |}] |}
      | _, _ => w
      end
  | LookupWrites now i =>
      match lw_tasks w !! i with
      | Some t =>
          let ttl := int_total_seconds (a_expires_at (lt_row t) - now) in
          {| lw_rows := lw_rows w;
             lw_cache := if ttl >? 0 then rset_ex now (cache_key (lt_app t) (lt_anon t)) (rebuilt (lt_row t)) ttl (lw_cache w)
                         else lw_cache w;
             lw_tasks := delete i (lw_tasks w) |}
      | None => w
      end
  | ErasureCommits app anon =>
      {| lw_rows := List.filter (λ a, negb (of_device app anon a)) (lw_rows w); lw_cache := lw_cache w;
         lw_tasks := lw_tasks w |}
  end.

Definition lookup_run (es : list LookupEvent) (w : LookupWorld) : LookupWorld := fold_left lookup_event es w.

(** Without anything in between, the two steps are [lookup]. *)
Lemma lookup_alone now app anon redis db :
  lw_cache (lookup_run [LookupReads now app anon; LookupWrites now 0] {| lw_rows := db; lw_cache := redis; lw_tasks := [] |}) =
  snd (lookup_attribution redis db now app anon).
Proof.
  unfold lookup_attribution. cbn [lookup_run fold_left lookup_event lw_rows lw_cache lw_tasks].
  destruct (rget _ _ _); [done |]. destruct (fetch_current _ _ _); [| done]. cbn. by destruct (_ >? 0).
Qed.

(** The device: no entry of the cache and no lookup under way has its key. *)
Definition forgotten (app : uuid) (anon : pystr) (w : LookupWorld) : Prop :=
  lw_cache w !! cache_key app anon = None ∧
  Forall (λ t, cache_key (lt_app t) (lt_anon t) ≠ cache_key app anon) (lw_tasks w).

(** A lookup of an app as the driver knows it. *)
Definition lookup_ok (e : LookupEvent) : Prop :=
  match e with LookupReads _ app _ => uuid_ok app | _ => True end.

Definition looks_up (app : uuid) (anon : pystr) (e : LookupEvent) : bool :=
  match e with LookupReads _ app' anon' => bool_decide (app' = app ∧ anon' = anon) | _ => false end.

(** A lookup starts to write the device's entry only if it finds a row of the device. *)
Lemma lookup_event_forgotten app anon w e :
  uuid_ok app → lookup_ok e →
  (looks_up app anon e = true → fetch_current (lw_rows w) app (install_key app anon) = None) →
  forgotten app anon w → forgotten app anon (lookup_event w e).
Proof.
  intros Happ He Hno [Hc Ht]. destruct e as [now app' anon'|now i|app' anon']; cbn [lookup_event].
  - destruct (rget _ _ _); [done |]. destruct (fetch_current _ app' _) as [row|] eqn:Ef; [| done]. split; [done |].
    apply Forall_app. split; [done |]. apply Forall_singleton. cbn. intros E.
    destruct (install_key_injective app' app anon' anon He Happ (or_intror E)) as [-> ->].
    rewrite Hno in Ef; [done |]. by apply bool_decide_eq_true.
  - destruct (lw_tasks w !! i) as [t|] eqn:Ei; [| done]. split; [| by apply Forall_delete].
    cbn [lw_cache]. destruct (_ >? 0); [| done]. unfold rset_ex. rewrite lookup_insert_ne; [done |].
    rewrite Forall_lookup in Ht. by eapply Ht.
  - by split.
Qed.

Lemma lookup_run_forgotten app anon es w :
  uuid_ok app → Forall lookup_ok es → Forall (λ e, looks_up app anon e = false) es →
  forgotten app anon w → forgotten app anon (lookup_run es w).
Proof.
  intros Happ Hes Hno. revert w. induction es as [|e es IH]; intros w Hw; [done |].
  apply Forall_cons in Hes as [He Hes]. apply Forall_cons in Hno as [Hn Hno]. cbn [lookup_run fold_left].
  apply IH; [done | done |]. apply lookup_event_forgotten; [done | done | by rewrite Hn | done].
Qed.

Lemma lookup_event_rows w e a : a ∈ lw_rows (lookup_event w e) → a ∈ lw_rows w.
Proof.
  destruct e as [now app anon|now i|app anon]; cbn [lookup_event].
  - destruct (rget _ _ _); [done |]. by destruct (fetch_current _ _ _).
  - by destruct (lw_tasks w !! i).
  - intros [Ha _]%elem_of_lfilter. exact Ha.
Qed.

Lemma lookup_run_rows es w a : a ∈ lw_rows (lookup_run es w) → a ∈ lw_rows w.
Proof.
  revert w. induction es as [|e es IH]; intros w; [done |]. cbn [lookup_run fold_left].
  intros Ha%IH. by eapply lookup_event_rows.
Qed.

(** Rows are keyed by application and device: without a row of the device there is no
    current one to find. *)
Lemma no_current app anon rows :
  (∀ a, a ∈ rows → a_install_key a = install_key (a_app_id a) (a_anonymous_id a) ∧ of_device app anon a = false) →
  fetch_current rows app (install_key app anon) = None.
Proof.
  intros Hrows. destruct (fetch_current _ _ _) as [a|] eqn:Ef; [| done]. exfalso.
  apply find_some in Ef as [Hin Hcur]. apply list_elem_of_In in Hin. destruct (Hrows a Hin) as [Hk Hno].
  apply current_of_spec in Hcur as (Eapp & Ekey & _). rewrite Hk, Eapp in Ekey. apply app_inv_head, app_inv_head in Ekey.
  unfold of_device in Hno. by rewrite !bool_decide_true in Hno by done.
Qed.

(** From the commit on no lookup finds the device again, if none was under way or started
    since its entry was dropped. *)
Lemma erased_stays_unknown app anon es1 es2 w now :
  uuid_ok app → (∀ a, a ∈ lw_rows w → a_install_key a = install_key (a_app_id a) (a_anonymous_id a)) →
  Forall lookup_ok (es1 ++ es2) → forgotten app anon w → Forall (λ e, looks_up app anon e = false) es1 →
  let w' := lookup_run (es1 ++ ErasureCommits app anon :: es2) w in
  fst (lookup_attribution (lw_cache w') (lw_rows w') now app anon) = None.
Proof.
  intros Happ Hkey [Ho1 Ho2]%Forall_app Hw Hno w'. unfold w', lookup_run. clear w'. rewrite fold_left_app. cbn [fold_left].
  fold (lookup_run es1 w). set (w1 := lookup_event _ _). fold (lookup_run es2 w1).
  assert (forgotten app anon w1) as H1.
  { apply lookup_event_forgotten; [done | done | done |]. by apply lookup_run_forgotten. }
  assert (∀ a, a ∈ lw_rows w1 → a_install_key a = install_key (a_app_id a) (a_anonymous_id a) ∧ of_device app anon a = false) as Hrows.
  { intros a [Ha Hd]%elem_of_lfilter. split; [by eapply Hkey, lookup_run_rows | by apply negb_true_iff]. }
  assert (forgotten app anon (lookup_run es2 w1)) as [Hc _].
  { clearbody w1. clear Hkey. induction es2 as [|e es IH] in w1, H1, Hrows, Ho2 |- *; [done |].
    apply Forall_cons in Ho2 as [He Ho2]. cbn [lookup_run fold_left]. apply IH; [done | |].
    - apply lookup_event_forgotten; [done | done | intros _; by apply no_current | done].
    - intros a Ha%lookup_event_rows. by apply Hrows. }
  unfold lookup_attribution. rewrite (proj2 (rget_peek _ _ _)) by (unfold peek; by rewrite Hc).
  rewrite no_current; [done |]. intros a Ha%lookup_run_rows. by apply Hrows.
Qed.


End Erasure.

(** ** Examples *)

#[local] Existing Instance ascii_unicode.
#[local] Existing Instance toy_audit.

Definition ex_app : uuid := 9.

(** The attribution of [Store]'s example, for an application of Ann's organisation. *)
Definition ex_erasable (org : uuid) (a : AttributionRow) : AttributionRow :=
  {| a_id := a_id a; a_organization_id := org; a_app_id := ex_app; a_install_key := install_key ex_app (a_anonymous_id a);
     a_anonymous_id := a_anonymous_id a; a_user_id := a_user_id a; a_click_id := a_click_id a;
     a_campaign_id := a_campaign_id a; a_tracking_link_id := a_tracking_link_id a; a_source := a_source a;
     a_medium := a_medium a; a_method := a_method a; a_installed_at := a_installed_at a;
     a_attributed_at := a_attributed_at a; a_window_days := a_window_days a; a_expires_at := a_expires_at a;
     a_fraud_score := 0; a_fraud_verdict := CLEAN; a_fraud_rules := None; a_deep_link := None; a_sub1 := None;
     a_sub2 := None; a_sub3 := None; a_superseded_by := None |}.

Definition ex_device : pystr := py "device-1".

Definition ex_cached : store CachedAttribution := cache ∅ (1002 * second) ex_referred.

Definition ex_private : PrivacyState :=
  {| pv_apps := [(ex_app, 101%N)]; pv_events := []; pv_attributions := [ex_erasable 101 (row_of ex_referred)];
     pv_consents := []; pv_clicks := []; pv_audit := []; pv_consent_cache := ∅; pv_attribution_cache := ex_cached |}.

Definition ex_erasure : ErasureRequest :=
  {| eq_app_id := ex_app; eq_anonymous_id := ex_device; eq_device_hash_hex := Some (py "0aff") |}.

Definition ex_handler : HandlerDraws :=
  {| hd_request_id := 50; hd_row_id := 51; hd_audit1 := 52; hd_audit2 := 53; hd_transaction := 1003 * second;
     hd_clock := 1003 * second |}.

Definition ex_erased : PrivacyState := snd (request_erasure (ex_request 4 1) ex_erasure ex_handler ex_state ex_private).

(** Another device's lookup runs before the commit, one of the erased device after it. *)
Definition ex_lookups : list LookupEvent := [LookupReads (1003 * second) ex_app (py "device-2")].
Definition ex_later : list LookupEvent := [LookupReads (1004 * second) ex_app ex_device; LookupWrites (1004 * second) 0].
Definition ex_looked_up : LookupWorld :=
  lookup_run (ex_lookups ++ ErasureCommits ex_app ex_device :: ex_later)
    {| lw_rows := pv_attributions ex_private; lw_cache := pv_attribution_cache ex_erased; lw_tasks := [] |}.


(** ** What the code does beyond its documentation *)

(** The copy of a cached attribution that [link_user] keeps under the signed-in user is
    still served after the device was erased. *)
Lemma erasure_leaves_the_users_copy :
  let linked := link_user ex_cached (1003 * second) ex_app ex_device (py "7") in
  let st := {| pv_apps := pv_apps ex_private; pv_events := []; pv_attributions := pv_attributions ex_private;
               pv_consents := []; pv_clicks := []; pv_audit := []; pv_consent_cache := ∅; pv_attribution_cache := linked |} in
  let st' := snd (request_erasure (ex_request 4 1) ex_erasure ex_handler ex_state st) in
  match fst (lookup_attribution (pv_attribution_cache st') [] (1004 * second) ex_app (py "user:7")) with
  | Some c => ca_attribution_id c = str_of_uuid 102
  | None => False
  end.
Proof. vm_compute. reflexivity. Qed.

(** The caches are dropped before the transaction commits: a lookup in between reads the
    row that is about to go and caches it again, and the erased attribution is answered
    until it expires. *)
Lemma lookup_before_the_commit_recaches :
  let w := lookup_run [LookupReads (1003 * second) ex_app ex_device; LookupWrites (1003 * second) 0;
                       ErasureCommits ex_app ex_device]
             {| lw_rows := pv_attributions ex_private; lw_cache := pv_attribution_cache ex_erased; lw_tasks := [] |} in
  lw_rows w = [] ∧
  match fst (lookup_attribution (lw_cache w) (lw_rows w) (1004 * second) ex_app ex_device) with
  | Some c => ca_attribution_id c = str_of_uuid 102
  | None => False
  end.
Proof. split; vm_compute; reflexivity. Qed.

Definition ex_denial : ConsentRecord :=
  {| cn_app_id := ex_app; cn_anonymous_id := ex_device; cn_purpose := ATTRIBUTION; cn_state := DENIED;
     cn_source := None; cn_expires_at := None |}.

Definition ex_gate (st : PrivacyState) : option bool :=
  match lookup_consent (pv_consent_cache st) (1004 * second) (str_of_uuid ex_app) ex_device PERMISSIVE with
  | Ok c => Some (may_attribute c)
  | Err _ => None
  end.

(** A denial recorded through the endpoint is written to a table the gate does not read,
    and the denial the gate had cached is dropped: attribution is allowed at once. *)
Lemma recorded_denial_lifts_the_denial :
  let cached := match record_consent ∅ (1003 * second) (str_of_uuid ex_app) ex_device [(ATTRIBUTION, DENIED)] CACHE_TTL with
                | Ok c => c | Err _ => ∅ end in
  let st := {| pv_apps := pv_apps ex_private; pv_events := []; pv_attributions := []; pv_consents := []; pv_clicks := [];
               pv_audit := []; pv_consent_cache := cached; pv_attribution_cache := ∅ |} in
  let '(answer, _, st') := record_consent_handler (ex_request 4 1) ex_denial ex_handler ex_state st in
  match answer with Ok row => cs_state row = DENIED | Err _ => False end ∧
  ex_gate st = Some false ∧ ex_gate st' = Some true.
Proof. vm_compute. repeat split; reflexivity. Qed.
