(* ===== verification/RuleApi.v ===== *)
(** * Postback rules and their deliveries, as the API manages them
    (mmp_api/routes/postbacks.py)

    A saved rule is the worker's [PostbackRule] with its name and the time it was made, so
    that what the endpoints accept is what [Postbacks] sends.  The random bytes of
    sealing, the ids, the clock and the resolver as it answers at the time of a request are
    arguments. *)

From stdpp Require Import sorting.
From S2P Require Import Prelude Redis Ids Schema Urls Templates Envelope Delivery Outbound Postbacks.
From S2P Require Import ApiSessions Access Handlers.

#[local] Open Scope Z_scope.
#[local] Open Scope mmp_scope.

(** ** Data *)

Record RuleRow := { rr_rule : PostbackRule; rr_name : pystr; rr_created_at : datetime }.

Record RuleState (P : Type) := {
  rs_apps : list (uuid * uuid);
  rs_campaigns : list (uuid * uuid * uuid);
  rs_rules : list RuleRow;
  rs_deliveries : list DeliveryRow;
  rs_keys : P
}.
Arguments rs_apps {P}.
Arguments rs_campaigns {P}.
Arguments rs_rules {P}.
Arguments rs_deliveries {P}.
Arguments rs_keys {P}.

Definition with_rules {P} (l : list RuleRow) (st : RuleState P) : RuleState P :=
  {| rs_apps := rs_apps st; rs_campaigns := rs_campaigns st; rs_rules := l; rs_deliveries := rs_deliveries st;
     rs_keys := rs_keys st |}.
Definition with_deliveries {P} (l : list DeliveryRow) (st : RuleState P) : RuleState P :=
  {| rs_apps := rs_apps st; rs_campaigns := rs_campaigns st; rs_rules := rs_rules st; rs_deliveries := l;
     rs_keys := rs_keys st |}.
Definition with_provider {P} (k : P) (st : RuleState P) : RuleState P :=
  {| rs_apps := rs_apps st; rs_campaigns := rs_campaigns st; rs_rules := rs_rules st;
     rs_deliveries := rs_deliveries st; rs_keys := k |}.

Record RuleDraws := {
  rd_id : uuid;
  rd_now : datetime;
  rd_dek : list N;
  rd_nonce : list N;
  rd_random : list N;
  rd_resolver : Resolver
}.

Definition MAX_HEADERS : nat := 10.
Definition MAX_HEADER_VALUE : nat := Z.to_nat 1024.
Definition FORBIDDEN_HEADERS : list pystr :=
  [py "host"; py "content-length"; py "transfer-encoding"; py "connection"; py "expect"; py "upgrade"].

Record PostbackRuleCreate := {
  rc_app_id : uuid;
  rc_name : pystr;
  rc_trigger_event : pystr;
  rc_url_template : pystr;
  rc_method : pystr;
  rc_body_template : option pystr;
  rc_headers : option headers;
  rc_success_status_codes : list Z;
  rc_requires_attribution : bool;
  rc_is_sandbox : bool;
  rc_campaign_id : option uuid
}.

Record PostbackRuleUpdate := {
  pu_name : patch pystr;
  pu_trigger_event : patch pystr;
  pu_method : patch pystr;
  pu_url_template : patch pystr;
  pu_body_template : patch pystr;
  pu_requires_attribution : patch bool;
  pu_is_sandbox : patch bool;
  pu_enabled : patch bool;
  pu_campaign_id : patch uuid
}.

(** A rule as it is returned: of its headers only the names. *)
Record PostbackRuleOut := {
  ro_id : uuid;
  ro_app_id : uuid;
  ro_campaign_id : option uuid;
  ro_provider_integration_id : option uuid;
  ro_name : pystr;
  ro_trigger_event : pystr;
  ro_method : pystr;
  ro_url_template : pystr;
  ro_body_template : option pystr;
  ro_success_status_codes : list Z;
  ro_requires_attribution : bool;
  ro_is_sandbox : bool;
  ro_enabled : bool;
  ro_created_at : datetime;
  ro_header_names : list pystr
}.

Definition rule_out (r : RuleRow) (names : list pystr) : PostbackRuleOut :=
  let u := rr_rule r in
  {| ro_id := ru_id u; ro_app_id := ru_app_id u; ro_campaign_id := ru_campaign_id u;
     ro_provider_integration_id := ru_integration_id u; ro_name := rr_name r; ro_trigger_event := ru_trigger_event u;
     ro_method := ru_method u; ro_url_template := ru_url_template u; ro_body_template := ru_body_template u;
     ro_success_status_codes := ru_success_codes u; ro_requires_attribution := ru_requires_attribution u;
     ro_is_sandbox := ru_is_sandbox u; ro_enabled := ru_enabled u; ro_created_at := rr_created_at r;
     ro_header_names := names |}.

(** ** Validation of the bodies *)

Definition METHODS : list pystr := [py "GET"; py "POST"].

Definition sane_codes (codes : list Z) : bool :=
  negb (bool_decide (codes = [])) && (length codes <=? 10)%nat && forallb (λ c, (100 <=? c) && (c <=? 599)) codes.

Definition has_break (s : pystr) : bool := bool_decide (10%N ∈ s) || bool_decide (13%N ∈ s).

Section Rules.
Context {U : Unicode} {NC : NetlocCheck} `{AEAD} {P : Type} `{MasterKeyProvider P} {J : HeaderJson}.

Definition sane_header (h : pystr * pystr) : bool :=
  negb (bool_decide (py_lower (fst h) ∈ FORBIDDEN_HEADERS)) && (length (snd h) <=? MAX_HEADER_VALUE)%nat &&
  negb (has_break (snd h) || has_break (fst h)).
Definition sane_headers (h : option headers) : bool :=
  opt_ok (λ h, (length h <=? MAX_HEADERS)%nat && forallb sane_header h) h.

Definition rule_body_ok (b : PostbackRuleCreate) : bool :=
  sized 1 255 (rc_name b) && sized 1 120 (rc_trigger_event b) && sized 1 4096 (rc_url_template b) &&
  bool_decide (rc_method b ∈ METHODS) && opt_ok (sized 0 4096) (rc_body_template b) &&
  sane_codes (rc_success_status_codes b) && sane_headers (rc_headers b).

Definition rule_update_ok (b : PostbackRuleUpdate) : bool :=
  set_ok (sized 1 255) (pu_name b) && set_ok (sized 1 120) (pu_trigger_event b) &&
  set_ok (λ m, bool_decide (m ∈ METHODS)) (pu_method b) && set_ok (sized 1 4096) (pu_url_template b) &&
  set_ok (sized 0 4096) (pu_body_template b).

(** ** [_validate_templates], [_validate_scope], [_validate_destination] *)

Definition unprocessable (s : pystr) : ApiError := Http 422 s.

Definition template_text (e : TemplateError) : pystr :=
  match e with
  | TooLong => py "template exceeds 4096 characters"
  | NotPlaceholders l => py "not valid placeholders: " ++ py_join (py ", ") (sorted_set l)
  | UnknownVariables l => py "unknown template variables: " ++ py_join (py ", ") (sorted_set l)
  end.

Definition check_template (field : pystr) (template : pystr) : result ApiError unit :=
  match inspect template with
  | Err e => Err (unprocessable (template_text e))
  | Ok check =>
      raise_if (negb (bool_decide (tc_unknown check = []) && bool_decide (tc_malformed check = [])))
        (unprocessable (field ++ py ": " ++ py_join (py ", ") (sorted_set (tc_unknown check ++ tc_malformed check))))
  end.

Definition validate_templates (url : pystr) (body : option pystr) : result ApiError unit :=
  let* _ := check_template (py "url_template") url in
  match body with Some ((_ :: _) as b) => check_template (py "body_template") b | _ => Ok tt end.

Definition braces (name : pystr) : pystr := py "{{" ++ name ++ py "}}".

Definition validate_scope (campaigns : list (uuid * uuid * uuid)) (org app : uuid) (campaign : option uuid) (url : pystr)
    (body : option pystr) : result ApiError unit :=
  let* _ := raise_if (match campaign with
                      | Some c => negb (bool_decide ((c, app, org) ∈ campaigns))
                      | None => false
                      end) (unprocessable (py "campaign not found for this app")) in
  match uses_sub_parameters [Some url; body] with
  | Err _ => Err Crash
  | Ok used =>
      raise_if (negb (bool_decide (used = [])) && bool_decide (campaign = None))
        (unprocessable (py_join (py ", ") (braces <$> sorted_set used) ++
           py " can only be used in a rule scoped to one campaign: they carry the partner's own click ids, and a rule for every campaign would send them to whichever partner it points at"))
  end.

(** The two braces, anything but a closing brace, the two closing braces: what follows
    one match of the pattern at the start of the text. *)
Fixpoint past_braces (s : pystr) : option pystr :=
  match s with
  | [] => None
  | c :: s' => if (c =? 125)%N then match s' with 125%N :: rest => Some rest | _ => None end else past_braces s'
  end.

(** [re.sub] of the pattern by an x. *)
Fixpoint strip_placeholders (fuel : nat) (s : pystr) : pystr :=
  match fuel, s with
  | S fuel, c :: s' =>
      match (match s with 123%N :: 123%N :: inner => past_braces inner | _ => None end) with
      | Some rest => 120%N :: strip_placeholders fuel rest
      | None => c :: strip_placeholders fuel s'
      end
  | _, _ => s
  end.

Definition concrete (url : pystr) : pystr := strip_placeholders (length url) url.

(** [_validate_destination] of the API; a [ValueError] of the vetting is not caught. *)
Definition validate_rule_destination (R : Resolver) (url : pystr) (is_sandbox : bool) : result ApiError unit :=
  if is_sandbox then Ok tt
  else
    match is_permitted (concrete url) [] with
    | Err _ => Err Crash
    | Ok (permitted, reason) =>
        raise_if (negb permitted) (unprocessable (py "destination is not permitted: " ++ reason))
    end.

(** ** Headers *)

Definition seal_headers (keys : P) (org : uuid) (h : option headers) (d : RuleDraws) : result ApiError SealedColumns :=
  match h with
  | None | Some [] => Ok {| sc_ciphertext := None; sc_nonce := None; sc_wrapped := None; sc_version := Some 1 |}
  | Some h =>
      match seal (encode_headers h) keys (organization_aad org) (rd_dek d) (rd_nonce d) (rd_random d) with
      | Err _ => Err Crash
      | Ok box => Ok {| sc_ciphertext := Some (ss_ciphertext box); sc_nonce := Some (ss_nonce box);
                        sc_wrapped := Some (ss_wrapped_dek box); sc_version := Some (ss_key_version box) |}
      end
  end.

(** Whatever goes wrong, no name is listed. *)
Definition header_names (keys : P) (now : datetime) (org : uuid) (c : SealedColumns) : list pystr * P :=
  match sc_ciphertext c with
  | None | Some [] => ([], keys)
  | Some ciphertext =>
      match credentials_of c ciphertext with
      | None => ([], keys)
      | Some sealed =>
          let '(opened, keys) := open_sealed sealed keys now (organization_aad org) in
          (match opened with
           | Err _ => []
           | Ok plaintext => match decode_headers plaintext with Some h => sorted_set (fst <$> h) | None => [] end
           end, keys)
      end
  end.

(** ** Rules *)

Definition rule_of (org : uuid) (id : uuid) (r : RuleRow) : bool :=
  bool_decide (ru_id (rr_rule r) = id) && bool_decide (ru_organization_id (rr_rule r) = org).
Definition find_rule (org id : uuid) (rules : list RuleRow) : option RuleRow := List.find (rule_of org id) rules.

Definition later_rule (a b : RuleRow) : Prop := rr_created_at b <= rr_created_at a.
#[export] Instance later_rule_dec a b : base.Decision (later_rule a b).
Proof. unfold later_rule. apply _. Defined.

(** The rows in turn, each opening its headers with the provider the one before left. *)
Fixpoint rules_out (now : datetime) (org : uuid) (rows : list RuleRow) (keys : P) : list PostbackRuleOut * P :=
  match rows with
  | [] => ([], keys)
  | r :: rows =>
      let '(names, keys) := header_names keys now org (ru_headers (rr_rule r)) in
      let '(out, keys) := rules_out now org rows keys in
      (rule_out r names :: out, keys)
  end.

Definition list_rules_handler (app : option uuid) (now : datetime) (p : Principal) (org : uuid) (st : RuleState P)
  : result ApiError (list PostbackRuleOut) * RuleState P :=
  let shown := List.filter (λ r, bool_decide (ru_organization_id (rr_rule r) = org) &&
                                 opt_ok (λ a, bool_decide (ru_app_id (rr_rule r) = a)) app) (rs_rules st) in
  let '(out, keys) := rules_out now org (merge_sort later_rule shown) (rs_keys st) in
  (Ok out, with_provider keys st).
Definition list_rules (rq : ApiRequest) (app : option uuid) (now : datetime) := as_role Viewer rq (list_rules_handler app now).

Definition new_rule (org : uuid) (b : PostbackRuleCreate) (sealed : SealedColumns) (d : RuleDraws) : RuleRow :=
  {| rr_rule := {| ru_id := rd_id d; ru_app_id := rc_app_id b; ru_trigger_event := rc_trigger_event b; ru_enabled := true;
                   ru_method := rc_method b; ru_url_template := rc_url_template b;
                   ru_body_template := rc_body_template b; ru_success_codes := rc_success_status_codes b;
                   ru_requires_attribution := rc_requires_attribution b; ru_is_sandbox := rc_is_sandbox b;
                   ru_organization_id := org; ru_campaign_id := rc_campaign_id b; ru_integration_id := None;
                   ru_headers := sealed |};
     rr_name := rc_name b; rr_created_at := rd_now d |}.

Definition create_rule_handler (b : PostbackRuleCreate) (d : RuleDraws) (p : Principal) (org : uuid) (st : RuleState P)
  : result ApiError PostbackRuleOut * RuleState P :=
  match (let* _ := raise_if (negb (rule_body_ok b)) invalid_body in
         let* _ := raise_if (negb (bool_decide ((rc_app_id b, org) ∈ rs_apps st))) (Http 404 (py "app not found")) in
         let* _ := validate_templates (rc_url_template b) (rc_body_template b) in
         let* _ := validate_scope (rs_campaigns st) org (rc_app_id b) (rc_campaign_id b) (rc_url_template b) (rc_body_template b) in
         let* _ := validate_rule_destination (rd_resolver d) (rc_url_template b) (rc_is_sandbox b) in
         let* sealed := seal_headers (rs_keys st) org (rc_headers b) d in
         let* _ := raise_if (existsb (λ r, bool_decide (ru_id (rr_rule r) = rd_id d)) (rs_rules st) ||
                             negb (no_nul (rc_name b) && no_nul (rc_trigger_event b) && no_nul (rc_url_template b) &&
                                   opt_ok no_nul (rc_body_template b))) Crash in
         Ok (new_rule org b sealed d)) with
  | Err e => (Err e, st)
  | Ok row => (Ok (rule_out row (sorted_set (fst <$> default [] (rc_headers b)))), with_rules (rs_rules st ++ [row]) st)
  end.
Definition create_rule (rq : ApiRequest) (b : PostbackRuleCreate) (d : RuleDraws) := as_role Admin rq (create_rule_handler b d).

(** *** [update_rule] *)

Definition nothing_changes (b : PostbackRuleUpdate) : bool :=
  negb (is_set (pu_name b) || is_set (pu_trigger_event b) || is_set (pu_method b) || is_set (pu_url_template b) ||
        is_set (pu_body_template b) || is_set (pu_requires_attribution b) || is_set (pu_is_sandbox b) ||
        is_set (pu_enabled b) || is_set (pu_campaign_id b)).

(** The checks, on the rule as it would be; a null URL is not a template, and a null flag
    is not a sandbox. *)
Definition validate_changes (R : Resolver) (campaigns : list (uuid * uuid * uuid)) (org : uuid) (b : PostbackRuleUpdate)
    (existing : PostbackRule) : result ApiError unit :=
  let* url := or_raise Crash (merged_value (Some (ru_url_template existing)) (pu_url_template b)) in
  let body := patched_null (ru_body_template existing) (pu_body_template b) in
  let is_sandbox := default false (merged_value (Some (ru_is_sandbox existing)) (pu_is_sandbox b)) in
  let* _ := validate_templates url body in
  let* _ := validate_scope campaigns org (ru_app_id existing) (patched_null (ru_campaign_id existing) (pu_campaign_id b))
              url body in
  validate_rule_destination R url is_sandbox.

(** The UPDATE, which sets the columns of the changes and no other. *)
Definition apply_changes (b : PostbackRuleUpdate) (r : RuleRow) : result ApiError RuleRow :=
  let u := rr_rule r in
  let* name := patched (pg_text 255) (rr_name r) (pu_name b) in
  let* trigger := patched (pg_text 120) (ru_trigger_event u) (pu_trigger_event b) in
  let* method := patched (λ _, true) (ru_method u) (pu_method b) in
  let* url := patched no_nul (ru_url_template u) (pu_url_template b) in
  let* requires := patched (λ _, true) (ru_requires_attribution u) (pu_requires_attribution b) in
  let* sandbox := patched (λ _, true) (ru_is_sandbox u) (pu_is_sandbox b) in
  let* enabled := patched (λ _, true) (ru_enabled u) (pu_enabled b) in
  Ok {| rr_rule := {| ru_id := ru_id u; ru_app_id := ru_app_id u; ru_trigger_event := trigger; ru_enabled := enabled;
                      ru_method := method; ru_url_template := url;
                      ru_body_template := patched_null (ru_body_template u) (pu_body_template b);
                      ru_success_codes := ru_success_codes u; ru_requires_attribution := requires;
                      ru_is_sandbox := sandbox; ru_organization_id := ru_organization_id u;
                      ru_campaign_id := patched_null (ru_campaign_id u) (pu_campaign_id b);
                      ru_integration_id := ru_integration_id u; ru_headers := ru_headers u |};
        rr_name := name; rr_created_at := rr_created_at r |}.

Definition replace_rule (row : RuleRow) (rules : list RuleRow) : list RuleRow :=
  (λ r, if bool_decide (ru_id (rr_rule r) = ru_id (rr_rule row)) then row else r) <$> rules.

Definition no_rule : ApiError := Http 404 (py "rule not found").

(** What happens before the UPDATE: the rule is read and the change checked against it. *)
Definition check_patch (id : uuid) (b : PostbackRuleUpdate) (d : RuleDraws) (org : uuid) (st : RuleState P)
    : result ApiError RuleRow :=
  let* _ := raise_if (negb (rule_update_ok b)) invalid_body in
  let* _ := raise_if (nothing_changes b) (unprocessable (py "nothing to update")) in
  let* existing := or_raise no_rule (find_rule org id (rs_rules st)) in
  let* _ := validate_changes (rd_resolver d) (rs_campaigns st) org b (rr_rule existing) in
  Ok existing.

(** The UPDATE, on the row as it is by then. *)
Definition write_patch (id : uuid) (b : PostbackRuleUpdate) (d : RuleDraws) (org : uuid) (st : RuleState P)
    : result ApiError PostbackRuleOut * RuleState P :=
  match (let* row := or_raise no_rule (find_rule org id (rs_rules st)) in
         let* _ := raise_if (sets_nul (pu_body_template b)) Crash in
         apply_changes b row) with
  | Err e => (Err e, st)
  | Ok row =>
      let '(names, keys) := header_names (rs_keys st) (rd_now d) org (ru_headers (rr_rule row)) in
      (Ok (rule_out row names), with_provider keys (with_rules (replace_rule row (rs_rules st)) st))
  end.

Definition update_rule_handler (id : uuid) (b : PostbackRuleUpdate) (d : RuleDraws) (p : Principal) (org : uuid)
    (st : RuleState P) : result ApiError PostbackRuleOut * RuleState P :=
  match check_patch id b d org st with
  | Err e => (Err e, st)
  | Ok _ => write_patch id b d org st
  end.
Definition update_rule (rq : ApiRequest) (id : uuid) (b : PostbackRuleUpdate) (d : RuleDraws) :=
  as_role Admin rq (update_rule_handler id b d).

Definition disable_row (r : RuleRow) : RuleRow :=
  let u := rr_rule r in
  {| rr_rule := {| ru_id := ru_id u; ru_app_id := ru_app_id u; ru_trigger_event := ru_trigger_event u;
                   ru_enabled := false; ru_method := ru_method u; ru_url_template := ru_url_template u;
                   ru_body_template := ru_body_template u; ru_success_codes := ru_success_codes u;
                   ru_requires_attribution := ru_requires_attribution u; ru_is_sandbox := ru_is_sandbox u;
                   ru_organization_id := ru_organization_id u; ru_campaign_id := ru_campaign_id u;
                   ru_integration_id := ru_integration_id u; ru_headers := ru_headers u |};
     rr_name := rr_name r; rr_created_at := rr_created_at r |}.

Definition disable_rule_handler (id : uuid) (p : Principal) (org : uuid) (st : RuleState P)
  : result ApiError unit * RuleState P :=
  match find_rule org id (rs_rules st) with
  | None => (Err no_rule, st)
  | Some r => (Ok tt, with_rules (replace_rule (disable_row r) (rs_rules st)) st)
  end.
Definition disable_rule (rq : ApiRequest) (id : uuid) := as_role Admin rq (disable_rule_handler id).

(** *** Reading *)

Definition postback_variables (rq : ApiRequest) :=
  as_role Viewer rq (reading (λ _ (_ : RuleState P), Ok (sorted_set ALLOWED_VARIABLES, sorted_set SUB_PARAMETERS))).

(** The sample values, as the text the substitution makes of them. *)
Definition SAMPLE : list (pystr * option pystr) :=
  [(py "event_id", Some (py "01a07d15-839d-79fe-bb9c-e427a9b16652"));
   (py "event_name", Some (py "purchase"));
   (py "event_timestamp", Some (py "2026-09-08T12:00:00+00:00"));
   (py "app_id", Some (py "01a07d15-0000-7000-8000-000000000001"));
   (py "user_id", Some (py "user-1234"));
   (py "anonymous_id", Some (py "device-abcdef"));
   (py "click_id", Some (py "01a07d15-0000-7000-8000-0000000000c1"));
   (py "campaign_id", Some (py "01a07d15-0000-7000-8000-0000000000ca"));
   (py "campaign_name", Some (py "Meta US " ++ [8212%N] ++ py " Q3"));
   (py "source", Some (py "meta"));
   (py "medium", Some (py "cpi"));
   (py "revenue", Some (py "19.99"));
   (py "currency", Some (py "USD"));
   (py "platform", Some (py "1"));
   (py "country", Some (py "US"));
   (py "attribution_method", Some (py "referrer"));
   (py "install_timestamp", Some (py "2026-09-01T09:15:00+00:00"));
   (py "sub1", Some (py "partner-click-7f3a9c"));
   (py "sub2", Some (py "publisher-42"));
   (py "sub3", Some (py "creative-b"))].

Record TemplatePreview := { tp_url : pystr; tp_body : option pystr; tp_variables_used : list pystr }.

(** A template error is not caught here. *)
Definition crash_on {E A} (r : result E A) : result ApiError A := match r with Ok a => Ok a | Err _ => Err Crash end.

Definition preview_rule_handler (id org : uuid) (st : RuleState P) : result ApiError TemplatePreview :=
  let* r := or_raise no_rule (find_rule org id (rs_rules st)) in
  let* check := crash_on (inspect (ru_url_template (rr_rule r))) in
  let* url := crash_on (render (ru_url_template (rr_rule r)) SAMPLE true) in
  let* body := match ru_body_template (rr_rule r) with
               | Some ((_ :: _) as t) => let* s := crash_on (render t SAMPLE false) in Ok (Some s)
               | _ => Ok None
               end in
  Ok {| tp_url := url; tp_body := body; tp_variables_used := sorted_set (tc_variables check) |}.
Definition preview_rule (rq : ApiRequest) (id : uuid) := as_role Viewer rq (reading (preview_rule_handler id)).

(** *** Deliveries *)

Definition later_delivery (a b : DeliveryRow) : Prop := pd_created_at b <= pd_created_at a.
#[export] Instance later_delivery_dec a b : base.Decision (later_delivery a b).
Proof. unfold later_delivery. apply _. Defined.

(** The statuses a caller may filter by leave out that of the sandbox. *)
Definition list_deliveries_handler (rule : option uuid) (status : option DeliveryStatus) (limit : nat) (org : uuid)
    (st : RuleState P) : result ApiError (list DeliveryRow) :=
  let* _ := raise_if (negb ((1 <=? limit)%nat && (limit <=? 200)%nat &&
                            opt_ok (λ s, negb (bool_decide (s = Sandboxed))) status)) invalid_body in
  Ok (take limit (merge_sort later_delivery
        (List.filter (λ d, bool_decide (pd_organization_id d = org) &&
                           opt_ok (λ r, bool_decide (pd_rule_id d = r)) rule &&
                           opt_ok (λ s, bool_decide (pd_status d = s)) status) (rs_deliveries st)))).
Definition list_deliveries (rq : ApiRequest) (rule : option uuid) (status : option DeliveryStatus) (limit : nat) :=
  as_role Viewer rq (reading (list_deliveries_handler rule status limit)).

(** The rows the UPDATE of a retry takes. *)
Definition retriable (org id : uuid) (d : DeliveryRow) : bool :=
  bool_decide (pd_id d = id) && bool_decide (pd_organization_id d = org) &&
  bool_decide (pd_status d ∈ [Failed; Abandoned]).

Definition requeued (now : datetime) (d : DeliveryRow) : DeliveryRow := restatus Failed (λ n, n) None (Some now) d.

Definition retry_delivery_handler (id : uuid) (now : datetime) (p : Principal) (org : uuid) (st : RuleState P)
  : result ApiError DeliveryRow * RuleState P :=
  match List.find (retriable org id) (rs_deliveries st) with
  | None => (Err (Http 409 (py "only a failed or abandoned delivery can be retried")), st)
  | Some d =>
      (Ok (requeued now d),
       with_deliveries ((λ d, if retriable org id d then requeued now d else d) <$> rs_deliveries st) st)
  end.
Definition retry_delivery (rq : ApiRequest) (id : uuid) (now : datetime) := as_role Admin rq (retry_delivery_handler id now).
End Rules.

(** ** Histories

    A PATCH reads the rule, checks the change against it and resolves the destination; its
    UPDATE comes later, and sets the columns of the change on whatever row there is then.
    The two are events of their own.  What other requests read before they write only
    grows, so they are one event each. *)

Record Patch := { pa_org : uuid; pa_id : uuid; pa_changes : PostbackRuleUpdate; pa_draws : RuleDraws }.

Inductive rule_op :=
| CreateRule (rq : ApiRequest) (b : PostbackRuleCreate) (d : RuleDraws)
| CheckPatch (rq : ApiRequest) (id : uuid) (b : PostbackRuleUpdate) (d : RuleDraws)
| WritePatch (i : nat)
| DisableRule (rq : ApiRequest) (id : uuid)
| ListRules (rq : ApiRequest) (app : option uuid) (now : datetime)
| RetryDelivery (rq : ApiRequest) (id : uuid) (now : datetime)
(* what other endpoints and the workers do *)
| AddApp (app org : uuid)
| AddCampaign (campaign app org : uuid)
| Deliveries (l : list DeliveryRow)
| Accounts (api : ApiState).

(** [rw_patches]: the PATCH requests that have been checked, [None] once they wrote.
    [rw_saved] records which request saved a rule, newest first, for the statements. *)
Record RuleWorld (P : Type) := {
  rw_api : ApiState;
  rw_state : RuleState P;
  rw_patches : list (option Patch);
  rw_saved : list (uuid * RuleDraws)
}.
Arguments rw_api {P}.
Arguments rw_state {P}.
Arguments rw_patches {P}.
Arguments rw_saved {P}.

(** The request that saved a rule last. *)
Definition saved_by (id : uuid) (log : list (uuid * RuleDraws)) : option RuleDraws :=
  snd <$> List.find (λ e, bool_decide (fst e = id)) log.

Definition logged {A} (id : uuid) (d : RuleDraws) (r : result ApiError A) (log : list (uuid * RuleDraws)) :=
  match r with Ok _ => (id, d) :: log | Err _ => log end.

(** The rules two PATCH requests are about at once. *)
Definition no_overlap {P} (w : RuleWorld P) : Prop := NoDup (omap (option_map pa_id) (rw_patches w)).

Section RuleHistories.
Context {U : Unicode} {NC : NetlocCheck} `{AEAD} {P : Type} `{MasterKeyProvider P} {J : HeaderJson}.
Implicit Types (w : RuleWorld P) (st : RuleState P).

Definition move_to (api : ApiState) st (w : RuleWorld P) : RuleWorld P :=
  {| rw_api := api; rw_state := st; rw_patches := rw_patches w; rw_saved := rw_saved w |}.

Definition rule_step w (op : rule_op) : RuleWorld P :=
  match op with
  | CreateRule rq b d =>
      let '(r, api, st) := create_rule rq b d (rw_api w) (rw_state w) in
      {| rw_api := api; rw_state := st; rw_patches := rw_patches w; rw_saved := logged (rd_id d) d r (rw_saved w) |}
  | CheckPatch rq id b d =>
      let '(r, api, _) := as_role Admin rq (λ _ org st, (rbind (check_patch id b d org st) (λ _, Ok org), st)) (rw_api w) (rw_state w) in
      {| rw_api := api; rw_state := rw_state w;
         rw_patches := match r with
                       | Ok org => rw_patches w ++ [Some {| pa_org := org; pa_id := id; pa_changes := b; pa_draws := d |}]
                       | Err _ => rw_patches w
                       end;
         rw_saved := rw_saved w |}
  | WritePatch i =>
      match rw_patches w !! i with
      | Some (Some p) =>
          let '(r, st) := write_patch (pa_id p) (pa_changes p) (pa_draws p) (pa_org p) (rw_state w) in
          {| rw_api := rw_api w; rw_state := st; rw_patches := <[i := None]> (rw_patches w);
             rw_saved := logged (pa_id p) (pa_draws p) r (rw_saved w) |}
      | _ => w
      end
  | DisableRule rq id => let '(_, api, st) := disable_rule rq id (rw_api w) (rw_state w) in move_to api st w
  | ListRules rq app now => let '(_, api, st) := list_rules rq app now (rw_api w) (rw_state w) in move_to api st w
  | RetryDelivery rq id now => let '(_, api, st) := retry_delivery rq id now (rw_api w) (rw_state w) in move_to api st w
  | AddApp app org =>
      let st := rw_state w in
      move_to (rw_api w) {| rs_apps := rs_apps st ++ [(app, org)]; rs_campaigns := rs_campaigns st; rs_rules := rs_rules st;
               rs_deliveries := rs_deliveries st; rs_keys := rs_keys st |} w
  | AddCampaign c app org =>
      let st := rw_state w in
      move_to (rw_api w) {| rs_apps := rs_apps st; rs_campaigns := rs_campaigns st ++ [(c, app, org)]; rs_rules := rs_rules st;
               rs_deliveries := rs_deliveries st; rs_keys := rs_keys st |} w
  | Deliveries l => move_to (rw_api w) (with_deliveries l (rw_state w)) w
  | Accounts api => move_to api (rw_state w) w
  end.

Definition rule_run (ops : list rule_op) w : RuleWorld P := fold_left rule_step ops w.

Fixpoint never_overlap (ops : list rule_op) w : Prop :=
  match ops with
  | [] => no_overlap w
  | op :: ops => no_overlap w ∧ never_overlap ops (rule_step w op)
  end.

(** A PATCH that nothing comes between is the handler. *)
Lemma patch_alone rq id b d api st log :
  let w := {| rw_api := api; rw_state := st; rw_patches := []; rw_saved := log |} in
  let '(_, api', st') := update_rule rq id b d api st in
  rw_state (rule_step (rule_step w (CheckPatch rq id b d)) (WritePatch 0)) = st' ∧
  rw_api (rule_step (rule_step w (CheckPatch rq id b d)) (WritePatch 0)) = api'.
Proof.
  cbn [rule_step rw_api rw_state rw_patches rw_saved]. unfold update_rule, as_role, update_rule_handler.
  destruct (require_role Admin rq api) as [[[p org]|e] api1]; [| done].
  destruct (check_patch id b d org st) as [r|e]; cbn; [| done]. by destruct (write_patch id b d org st).
Qed.

(** ** What a saved rule is *)

(** The variables of a template, none for an absent or empty one. *)
Definition variables_of (t : option pystr) : list pystr := match t with Some t => placeholders t | None => [] end.

(** What holds of a rule whatever comes between the halves of requests. *)
Record rule_ok (campaigns : list (uuid * uuid * uuid)) (r : PostbackRule) : Prop := {
  rk_url : validate (ru_url_template r) = Ok tt;
  rk_body : ∀ b, ru_body_template r = Some b → b ≠ [] → validate b = Ok tt;
  rk_campaign : ∀ c, ru_campaign_id r = Some c → (c, ru_app_id r, ru_organization_id r) ∈ campaigns;
  rk_method : ru_method r ∈ METHODS;
  rk_codes : sane_codes (ru_success_codes r) = true;
  rk_integration : ru_integration_id r = None
}.

(** What was checked of the rule as a whole, [d] being the request that saved it. *)
Record rule_checked (r : PostbackRule) (d : RuleDraws) : Prop := {
  rc_scope : ru_campaign_id r = None → ∀ n, n ∈ placeholders (ru_url_template r) ++ variables_of (ru_body_template r) →
             n ∉ SUB_PARAMETERS;
  rc_destination : ru_is_sandbox r = false →
    ∃ t, @validate_destination U NC (rd_resolver d) (concrete (ru_url_template r)) false = Ok t
}.

Definition concerns (p : Patch) (r : RuleRow) : bool := rule_of (pa_org p) (pa_id p) r.

(** What was checked of a change by itself. *)
Record change_ok (p : Patch) : Prop := {
  ch_url : ∀ u, pu_url_template (pa_changes p) = Some (Some u) → validate u = Ok tt;
  ch_body : ∀ t, pu_body_template (pa_changes p) = Some (Some t) → t ≠ [] → validate t = Ok tt;
  ch_method : ∀ m, pu_method (pa_changes p) = Some (Some m) → m ∈ METHODS
}.

Record rules_inv w : Prop := {
  ri_ids : NoDup ((λ r, ru_id (rr_rule r)) <$> rs_rules (rw_state w));
  ri_rules : ∀ r, r ∈ rs_rules (rw_state w) → rule_ok (rs_campaigns (rw_state w)) (rr_rule r);
  ri_changes : ∀ p, Some p ∈ rw_patches w → change_ok p;
  ri_row : ∀ p, Some p ∈ rw_patches w → ∃ r, r ∈ rs_rules (rw_state w) ∧ concerns p r = true;
  ri_campaign : ∀ p r c, Some p ∈ rw_patches w → r ∈ rs_rules (rw_state w) → concerns p r = true →
    pu_campaign_id (pa_changes p) = Some (Some c) → (c, ru_app_id (rr_rule r), pa_org p) ∈ rs_campaigns (rw_state w)
}.

(** What holds besides as long as no two PATCH requests of one rule overlap. *)
Record checked_inv w : Prop := {
  ci_rules : ∀ r, r ∈ rs_rules (rw_state w) →
    ∃ d, saved_by (ru_id (rr_rule r)) (rw_saved w) = Some d ∧ rule_checked (rr_rule r) d;
  ci_patches : ∀ p r, Some p ∈ rw_patches w → r ∈ rs_rules (rw_state w) → concerns p r = true →
    @validate_changes U NC (rd_resolver (pa_draws p)) (rs_campaigns (rw_state w)) (pa_org p) (pa_changes p) (rr_rule r) = Ok tt
}.

(** *** Checks *)

Lemma check_template_ok field t : check_template field t = Ok tt → validate t = Ok tt.
Proof.
  unfold check_template, validate. destruct (inspect t) as [c|e]; [| done]. cbn [rbind].
  intros Hb%raise_if_Ok. apply negb_false_iff, andb_true_iff in Hb as [-> ->]. done.
Qed.

Lemma validate_templates_ok url body :
  validate_templates url body = Ok tt → validate url = Ok tt ∧ ∀ b, body = Some b → b ≠ [] → validate b = Ok tt.
Proof.
  intros ([] & Hu & Hb)%rbind_Ok. split; [by eapply check_template_ok |]. intros b -> Hne.
  destruct b as [|c b]; [done |]. exact (check_template_ok (py "body_template") (c :: b) Hb).
Qed.

Lemma inspect_variables t c : inspect t = Ok c → tc_variables c = placeholders t.
Proof. unfold inspect. destruct (Nat.ltb _ _); intros E; [done |]. by apply Ok_inj in E as <-. Qed.

Lemma uses_sub_spec templates used :
  uses_sub_parameters templates = Ok used →
  ∀ t n, t ∈ templates → n ∈ variables_of t → n ∈ SUB_PARAMETERS → n ∈ used.
Proof.
  unfold uses_sub_parameters. set (step := λ acc t, _).
  assert (∀ l acc used, fold_left step l acc = Ok used →
    ∃ u0, acc = Ok u0 ∧ (∀ n, n ∈ u0 → n ∈ used) ∧
    ∀ t n, t ∈ l → n ∈ variables_of t → n ∈ SUB_PARAMETERS → n ∈ used) as Hfold.
  { induction l as [|t l IH]; intros acc u Hu; cbn [fold_left] in Hu.
    - exists u. split; [done |]. split; [done |]. intros t n Ht. by apply elem_of_nil in Ht.
    - destruct (IH _ _ Hu) as (u1 & E1 & Hk & Hl).
      assert (∃ u0, acc = Ok u0 ∧ (∀ n, n ∈ u0 → n ∈ u1) ∧ ∀ n, n ∈ variables_of t → n ∈ SUB_PARAMETERS → n ∈ u1)
        as (u0 & Ea & Hk0 & Ht).
      { destruct t as [[|c s]|]; cbn in E1.
        - exists u1. split; [done |]. split; [done |]. intros n Hn. by apply elem_of_nil in Hn.
        - apply rbind_Ok in E1 as (u0 & -> & (check & Hi%inspect_variables & <-%Ok_inj)%rbind_Ok). exists u0.
          split; [done |]. split; intros n Hn; [apply elem_of_app; by left |]. intros Hs. apply elem_of_app. right.
          apply elem_of_lfilter. rewrite Hi. split; [done |]. by apply bool_decide_eq_true.
        - exists u1. split; [done |]. split; [done |]. intros n Hn. by apply elem_of_nil in Hn. }
      exists u0. split; [done |]. split; [by auto |]. intros t' n [->|Ht']%elem_of_cons Hn Hs; [by auto | by eapply Hl]. }
  intros (_ & _ & _ & Hall)%Hfold. exact Hall.
Qed.

Lemma validate_scope_ok campaigns org app campaign url body :
  validate_scope campaigns org app campaign url body = Ok tt →
  (∀ c, campaign = Some c → (c, app, org) ∈ campaigns) ∧
  (campaign = None → ∀ n, n ∈ placeholders url ++ variables_of body → n ∉ SUB_PARAMETERS).
Proof.
  intros ([] & Hc%raise_if_Ok & Hu)%rbind_Ok. split.
  - intros c ->. by apply negb_false_iff, bool_decide_eq_true in Hc.
  - intros ->. destruct (uses_sub_parameters _) as [used|] eqn:Eu; [| done]. apply raise_if_Ok in Hu.
    rewrite andb_false_iff, negb_false_iff, bool_decide_eq_true in Hu. destruct Hu as [->|Hu]; [| done].
    intros n Hn Hs. assert (n ∈ ([] : list pystr)) as Hin; [| by apply elem_of_nil in Hin].
    apply elem_of_app in Hn as [Hn|Hn]; [apply (uses_sub_spec _ _ Eu (Some url)) | apply (uses_sub_spec _ _ Eu body)];
      try done; [by left | by right; left].
Qed.


Lemma validate_scope_more campaigns more org app campaign url body :
  validate_scope campaigns org app campaign url body = Ok tt →
  validate_scope (campaigns ++ more) org app campaign url body = Ok tt.
Proof.
  unfold validate_scope. intros ([] & Hc%raise_if_Ok & Hu)%rbind_Ok. rewrite Hu. destruct campaign as [c|]; [| done].
  apply negb_false_iff, bool_decide_eq_true in Hc. rewrite bool_decide_true; [done |]. apply elem_of_app. by left.
Qed.

Lemma validate_changes_more R campaigns more org b r :
  validate_changes R campaigns org b r = Ok tt → validate_changes R (campaigns ++ more) org b r = Ok tt.
Proof.
  unfold validate_changes. intros (url & -> & E)%rbind_Ok. cbn [rbind]. apply rbind_Ok in E as ([] & -> & E). cbn [rbind].
  apply rbind_Ok in E as ([] & Hs & E). by rewrite (validate_scope_more _ more _ _ _ _ _ Hs).
Qed.

Lemma rule_destination_ok R url sandbox :
  validate_rule_destination R url sandbox = Ok tt → sandbox = false →
  ∃ t, @validate_destination U NC R (concrete url) false = Ok t.
Proof.
  unfold validate_rule_destination. intros Hd ->. unfold is_permitted in Hd.
  destruct (validate_destination _ _) as [t|[]]; try done. by exists t.
Qed.

Lemma rule_ok_more campaigns more r : rule_ok campaigns r → rule_ok (campaigns ++ more) r.
Proof. intros []. split; try done. intros c Hc. apply elem_of_app. left. auto. Qed.

(** *** Rows *)

Lemma replaced_row row rules x :
  x ∈ replace_rule row rules → (x = row ∧ ∃ y, y ∈ rules ∧ ru_id (rr_rule y) = ru_id (rr_rule row)) ∨
  (x ∈ rules ∧ ru_id (rr_rule x) ≠ ru_id (rr_rule row)).
Proof. intros (y & -> & Hy)%list_elem_of_fmap. case_bool_decide; [left | by right]. split; [done | by exists y]. Qed.

Lemma replaced_ids row rules :
  (λ r, ru_id (rr_rule r)) <$> replace_rule row rules = (λ r, ru_id (rr_rule r)) <$> rules.
Proof.
  unfold replace_rule. rewrite <- list_fmap_compose. apply list_fmap_ext. intros i r _. cbn. by case_bool_decide.
Qed.

Lemma replace_keeps row rules y :
  y ∈ rules → ∃ x, x ∈ replace_rule row rules ∧ (x = y ∨ (x = row ∧ ru_id (rr_rule y) = ru_id (rr_rule row))).
Proof.
  intros Hy. exists (if bool_decide (ru_id (rr_rule y) = ru_id (rr_rule row)) then row else y). split.
  - apply list_elem_of_fmap. by exists y.
  - case_bool_decide; [by right | by left].
Qed.

Lemma same_rule w r r' :
  rules_inv w → r ∈ rs_rules (rw_state w) → r' ∈ rs_rules (rw_state w) → ru_id (rr_rule r) = ru_id (rr_rule r') → r = r'.
Proof. intros Hinv. by apply (NoDup_fmap_elem (λ r, ru_id (rr_rule r))), (ri_ids _ Hinv). Qed.

Lemma concerns_ids p r : concerns p r = true ↔ ru_id (rr_rule r) = pa_id p ∧ ru_organization_id (rr_rule r) = pa_org p.
Proof. unfold concerns, rule_of. by rewrite andb_true_iff, !bool_decide_eq_true. Qed.

Lemma apply_changes_fields b r row :
  apply_changes b r = Ok row →
  let u := rr_rule r in let v := rr_rule row in
  ru_id v = ru_id u ∧ ru_app_id v = ru_app_id u ∧ ru_organization_id v = ru_organization_id u ∧
  merged_value (Some (ru_url_template u)) (pu_url_template b) = Some (ru_url_template v) ∧
  merged_value (Some (ru_is_sandbox u)) (pu_is_sandbox b) = Some (ru_is_sandbox v) ∧
  (ru_method v = ru_method u ∨ pu_method b = Some (Some (ru_method v))) ∧
  ru_body_template v = patched_null (ru_body_template u) (pu_body_template b) ∧
  ru_campaign_id v = patched_null (ru_campaign_id u) (pu_campaign_id b) ∧
  ru_success_codes v = ru_success_codes u ∧ ru_integration_id v = ru_integration_id u ∧ ru_headers v = ru_headers u.
Proof.
  intros E. unfold apply_changes in E.
  apply rbind_Ok in E as (name & _ & E). apply rbind_Ok in E as (trigger & _ & E).
  apply rbind_Ok in E as (method & Hm%patched_Ok & E). apply rbind_Ok in E as (url & Hu%patched_Ok & E).
  apply rbind_Ok in E as (req & _ & E). apply rbind_Ok in E as (sandbox & Hs%patched_Ok & E).
  apply rbind_Ok in E as (enabled & _ & <-%Ok_inj). cbn. unfold merged_value. split_and!; try done.
  - by destruct Hu as [[-> ->]|[-> _]].
  - by destruct Hs as [[-> ->]|[-> _]].
  - destruct Hm as [[_ ->]|[-> _]]; [by left | by right].
Qed.

(** What a write leaves: the row of the rule with the changes, and nothing else. *)
Lemma write_patch_spec id b d org st :
  (∃ e, write_patch id b d org st = (Err e, st)) ∨
  ∃ r row out keys, find_rule org id (rs_rules st) = Some r ∧ apply_changes b r = Ok row ∧
    write_patch id b d org st = (Ok out, with_provider keys (with_rules (replace_rule row (rs_rules st)) st)).
Proof.
  unfold write_patch. destruct (rbind _ _) as [row|e] eqn:E; [right | left; by exists e].
  apply rbind_Ok in E as (r & Hr%or_raise_Ok & (_ & _ & E)%rbind_Ok).
  destruct (header_names _ _ _ _) as [names keys]. by exists r, row, (rule_out row names), keys.
Qed.

Lemma check_patch_ok id b d org st r :
  check_patch id b d org st = Ok r →
  find_rule org id (rs_rules st) = Some r ∧ rule_update_ok b = true ∧
  @validate_changes U NC (rd_resolver d) (rs_campaigns st) org b (rr_rule r) = Ok tt.
Proof.
  unfold check_patch. intros ([] & Hb%raise_if_Ok%negb_false_iff & E)%rbind_Ok.
  apply rbind_Ok in E as (_ & _ & E). apply rbind_Ok in E as (r' & Hr%or_raise_Ok & E).
  apply rbind_Ok in E as ([] & Hv & <-%Ok_inj). done.
Qed.

Lemma validate_changes_ok R campaigns org b r :
  validate_changes R campaigns org b r = Ok tt →
  (∀ u, pu_url_template b = Some (Some u) → validate u = Ok tt) ∧
  (∀ t, pu_body_template b = Some (Some t) → t ≠ [] → validate t = Ok tt) ∧
  (∀ c, pu_campaign_id b = Some (Some c) → (c, ru_app_id r, org) ∈ campaigns).
Proof.
  unfold validate_changes. intros (url & Hurl%or_raise_Ok & E)%rbind_Ok.
  apply rbind_Ok in E as ([] & [Hu Hb]%validate_templates_ok & E).
  apply rbind_Ok in E as ([] & [Hc _]%validate_scope_ok & _). split_and!.
  - intros u Eu. rewrite Eu in Hurl. cbn in Hurl. by injection Hurl as ->.
  - intros t Et. rewrite Et in Hb. by apply Hb.
  - intros c Ec. rewrite Ec in Hc. by apply Hc.
Qed.

(** *** Requests that leave the rules alone *)

Record quiet w w' : Prop := {
  qu_rules : rs_rules (rw_state w') = rs_rules (rw_state w);
  qu_campaigns : ∃ more, rs_campaigns (rw_state w') = rs_campaigns (rw_state w) ++ more;
  qu_patches : rw_patches w' = rw_patches w;
  qu_saved : rw_saved w' = rw_saved w
}.

Lemma quiet_moved api st w :
  rs_rules st = rs_rules (rw_state w) → rs_campaigns st = rs_campaigns (rw_state w) → quiet w (move_to api st w).
Proof. intros Hr Hc. split; [done | | done | done]. exists []. by rewrite app_nil_r. Qed.

Lemma rules_inv_quiet w w' : quiet w w' → rules_inv w → rules_inv w'.
Proof.
  intros [Hr (more & Hc) Hp _] []. split; rewrite ?Hr, ?Hc, ?Hp; try done.
  - intros r Hin. by apply rule_ok_more, ri_rules0.
  - intros p r c H1 H2 H3 H4. apply elem_of_app. left. by apply (ri_campaign0 p r).
Qed.

Lemma checked_inv_quiet w w' : quiet w w' → checked_inv w → checked_inv w'.
Proof.
  intros [Hr (more & Hc) Hp Hs] []. split; rewrite ?Hr, ?Hc, ?Hp, ?Hs; try done.
  intros p r H1 H2 H3. apply validate_changes_more. by apply ci_patches0.
Qed.

(** *** Creation *)

Lemma create_rule_spec rq b d api st :
  match create_rule rq b d api st with
  | (Err _, _, st') => st' = st
  | (Ok _, _, st') =>
      ∃ org sealed, let r := new_rule org b sealed d in
      st' = with_rules (rs_rules st ++ [r]) st ∧ rd_id d ∉ (λ r, ru_id (rr_rule r)) <$> rs_rules st ∧
      rule_ok (rs_campaigns st) (rr_rule r) ∧ rule_checked (rr_rule r) d
  end.
Proof.
  unfold create_rule, as_role. destruct (require_role Admin rq api) as [[[p org]|e] api1]; [| done].
  unfold create_rule_handler. destruct (rbind _ _) as [row|e] eqn:E; [| done].
  apply rbind_Ok in E as ([] & Hb%raise_if_Ok%negb_false_iff & E). apply rbind_Ok in E as (_ & _ & E).
  apply rbind_Ok in E as ([] & [Hu Hbody]%validate_templates_ok & E).
  apply rbind_Ok in E as ([] & [Hc Hs]%validate_scope_ok & E). apply rbind_Ok in E as ([] & Hd & E).
  apply rbind_Ok in E as (sealed & _ & E). apply rbind_Ok in E as ([] & [He _]%raise_if_Ok%orb_false_iff & <-%Ok_inj).
  exists org, sealed. split; [done |]. split; [| split].
  - intros (r & Er & Hr)%list_elem_of_fmap. apply not_true_iff_false in He. apply He, existsb_exists. exists r.
    rewrite <- list_elem_of_In. split; [done |]. by apply bool_decide_eq_true.
  - unfold rule_body_ok in Hb. bprop. by split; cbn.
  - split; cbn; [done |]. intros Hsb. by apply (rule_destination_ok _ _ (rc_is_sandbox b)).
Qed.

Lemma saved_by_other id id' d log : id ≠ id' → saved_by id ((id', d) :: log) = saved_by id log.
Proof. intros Hne. unfold saved_by. cbn. by rewrite bool_decide_false. Qed.

Lemma saved_by_this id d log : saved_by id ((id, d) :: log) = Some d.
Proof. unfold saved_by. cbn. by rewrite bool_decide_true. Qed.

Lemma created_inv rq b d w : rules_inv w → rules_inv (rule_step w (CreateRule rq b d)) ∧
  (checked_inv w → checked_inv (rule_step w (CreateRule rq b d))).
Proof.
  intros Hinv. cbn. pose proof (create_rule_spec rq b d (rw_api w) (rw_state w)) as Hc.
  destruct (create_rule rq b d (rw_api w) (rw_state w)) as [[[out|e] api] st].
  2:{ subst st. destruct Hinv as [? ? ? ? ?]. split; [by split |]. intros []. by split. }
  destruct Hc as (org & sealed & -> & Hnew & Hok & Hch). set (r := new_rule org b sealed d) in *.
  assert (∀ p, Some p ∈ rw_patches w → concerns p r = true → False) as Hno.
  { intros p Hp [Hid _]%concerns_ids. destruct (ri_row _ Hinv p Hp) as (r0 & Hr0 & [Hid0 _]%concerns_ids).
    apply Hnew, list_elem_of_fmap. exists r0. split; [cbn in Hid; congruence | done]. }
  split.
  - split; cbn [rw_state rw_patches with_rules rs_rules rs_campaigns].
    + rewrite fmap_app. apply NoDup_app. split; [apply Hinv |]. split; [| apply NoDup_singleton].
      intros x Hx ->%list_elem_of_singleton. by apply Hnew.
    + intros r' [Hr'| ->]%appended_task; [by apply (ri_rules _ Hinv) | done].
    + apply (ri_changes _ Hinv).
    + intros p Hp. destruct (ri_row _ Hinv p Hp) as (r0 & Hr0 & ?). exists r0. split; [apply elem_of_app; by left | done].
    + intros p r' c Hp [Hr'| ->]%appended_task Hcc; [by apply (ri_campaign _ Hinv) | by destruct (Hno p)].
  - intros [Hr Hp]. split; cbn [rw_state rw_patches rw_saved with_rules rs_rules rs_campaigns logged].
    + intros r' [Hr'| ->]%appended_task; [| exists d; split; [apply saved_by_this | done]].
      destruct (Hr r' Hr') as (d' & Hd' & Hk). exists d'. rewrite saved_by_other; [done |]. intros E.
      apply Hnew, list_elem_of_fmap. by exists r'.
    + intros p r' Hpp [Hr'| ->]%appended_task Hcc; [by apply Hp | by destruct (Hno p)].
Qed.

(** *** The two halves of a PATCH *)

Lemma check_step_spec rq id b d w :
  quiet w (rule_step w (CheckPatch rq id b d)) ∨
  ∃ api org r, let p := {| pa_org := org; pa_id := id; pa_changes := b; pa_draws := d |} in
    rule_step w (CheckPatch rq id b d) =
      {| rw_api := api; rw_state := rw_state w; rw_patches := rw_patches w ++ [Some p]; rw_saved := rw_saved w |} ∧
    check_patch id b d org (rw_state w) = Ok r.
Proof.
  cbn. unfold as_role. destruct (require_role Admin rq (rw_api w)) as [[[p org]|e] api]; [| left; by apply quiet_moved].
  destruct (check_patch id b d org (rw_state w)) as [r|e] eqn:E; cbn; [right; by exists api, org, r | left; by apply quiet_moved].
Qed.

Lemma checked_step_inv rq id b d w : rules_inv w → rules_inv (rule_step w (CheckPatch rq id b d)) ∧
  (checked_inv w → checked_inv (rule_step w (CheckPatch rq id b d))).
Proof.
  intros Hinv. destruct (check_step_spec rq id b d w) as [Hq|(api & org & r & E & Hc)].
  { split; [by eapply rules_inv_quiet | by apply checked_inv_quiet]. }
  rewrite E. clear E. set (p := {| pa_org := org |}). apply check_patch_ok in Hc as ([Hr Hb]%find_elem & Hu & Hv).
  change (rule_of org id) with (concerns p) in Hb.
  assert (∀ q, Some q ∈ rw_patches w ++ [Some p] → Some q ∈ rw_patches w ∨ q = p) as Hcases
    by (intros q [?|[= ->]]%appended_task; [by left | by right]).
  assert (∀ r', r' ∈ rs_rules (rw_state w) → concerns p r' = true → r' = r) as Honly.
  { intros r' Hr' [E1 _]%concerns_ids. apply concerns_ids in Hb as [E2 _]. apply (same_rule w); [done.. | congruence]. }
  pose proof (validate_changes_ok _ _ _ _ _ Hv) as (H1 & H2 & H3). split.
  - split; cbn [rw_state rw_patches]; try apply Hinv.
    + intros q [Hq| ->]%Hcases; [by apply (ri_changes _ Hinv) |]. split; cbn; [done | done |].
      intros m Em. unfold rule_update_ok in Hu. bprop.
      match goal with Hx : set_ok _ (pu_method b) = true |- _ => rewrite Em in Hx; by apply bool_decide_eq_true in Hx end.
    + intros q [Hq| ->]%Hcases; [by apply (ri_row _ Hinv) | by exists r].
    + intros q r' c [Hq| ->]%Hcases Hr' Hcc Ec; [by apply (ri_campaign _ Hinv q) |].
      rewrite (Honly r' Hr' Hcc). by apply H3.
  - intros [Hci Hcp]. split; cbn [rw_state rw_patches rw_saved]; [done |].
    intros q r' [Hq| ->]%Hcases Hr' Hcc; [by apply Hcp |]. by rewrite (Honly r' Hr' Hcc).
Qed.

(** The row a change is written on stays well formed. *)
Lemma written_ok campaigns p r row :
  rule_ok campaigns (rr_rule r) → change_ok p → ru_organization_id (rr_rule r) = pa_org p →
  (∀ c, pu_campaign_id (pa_changes p) = Some (Some c) → (c, ru_app_id (rr_rule r), pa_org p) ∈ campaigns) →
  apply_changes (pa_changes p) r = Ok row → rule_ok campaigns (rr_rule row).
Proof.
  intros [Hu Hb Hc Hm Hco Hi] [Cu Cb Cm] Horg Hcamp (Eid & Ea & Eo & Eu & Es & Em & Eb & Ec & Ecodes & Ei & _)%apply_changes_fields.
  split.
  - unfold merged_value in Eu. destruct (pu_url_template (pa_changes p)) as [[u|]|] eqn:E; [| done |].
    + injection Eu as <-. by apply Cu.
    + injection Eu as <-. done.
  - rewrite Eb. unfold patched_null. destruct (pu_body_template (pa_changes p)) as [[t|]|] eqn:E; [| done | done].
    intros t' [= <-]. by apply Cb.
  - rewrite Ec, Ea, Eo. unfold patched_null. destruct (pu_campaign_id (pa_changes p)) as [[c|]|] eqn:E; [| done | done].
    intros c' [= <-]. rewrite Horg. by apply Hcamp.
  - destruct Em as [->|Em]; [done | by apply Cm].
  - by rewrite Ecodes.
  - by rewrite Ei.
Qed.

(** And if the change was checked against this row, the rule as a whole is as it should be. *)
Lemma written_checked campaigns p r row :
  @validate_changes U NC (rd_resolver (pa_draws p)) campaigns (pa_org p) (pa_changes p) (rr_rule r) = Ok tt →
  apply_changes (pa_changes p) r = Ok row → rule_checked (rr_rule row) (pa_draws p).
Proof.
  intros Hv (Eid & Ea & Eo & Eu & Es & Em & Eb & Ec & _)%apply_changes_fields.
  unfold validate_changes in Hv. rewrite Eu in Hv. cbn [or_raise rbind] in Hv.
  rewrite Es in Hv. cbn [default from_option] in Hv. rewrite <- Eb, <- Ec in Hv.
  apply rbind_Ok in Hv as ([] & _ & Hv). apply rbind_Ok in Hv as ([] & [_ Hs]%validate_scope_ok & Hd).
  split; [exact Hs |]. intros Hsb. by apply (rule_destination_ok _ _ (ru_is_sandbox (rr_rule row))).
Qed.

Lemma write_step_spec i p w :
  rw_patches w !! i = Some (Some p) →
  ∃ st log, rule_step w (WritePatch i) =
    {| rw_api := rw_api w; rw_state := st; rw_patches := <[i := None]> (rw_patches w); rw_saved := log |} ∧
    ((st = rw_state w ∧ log = rw_saved w) ∨
     ∃ r row keys, find_rule (pa_org p) (pa_id p) (rs_rules (rw_state w)) = Some r ∧ apply_changes (pa_changes p) r = Ok row ∧
       st = with_provider keys (with_rules (replace_rule row (rs_rules (rw_state w))) (rw_state w)) ∧
       log = (pa_id p, pa_draws p) :: rw_saved w).
Proof.
  intros Hi. cbn. rewrite Hi.
  destruct (write_patch_spec (pa_id p) (pa_changes p) (pa_draws p) (pa_org p) (rw_state w)) as [(e & ->)|(r & row & out & keys & Hr & Ha & ->)].
  - do 2 eexists. split; [done | by left].
  - do 2 eexists. split; [done |]. right. by exists r, row, keys.
Qed.

Lemma written_inv i w : rules_inv w → rules_inv (rule_step w (WritePatch i)).
Proof.
  intros Hinv. destruct (rw_patches w !! i) as [[p|]|] eqn:Hi; [| cbn; by rewrite Hi..].
  assert (Some p ∈ rw_patches w) as Hp by (by eapply list_elem_of_lookup_2).
  assert (∀ q, Some q ∈ <[i := None]> (rw_patches w) → Some q ∈ rw_patches w) as Hq
    by (intros q [?|?]%(task_after _ _ _ _ _ Hi); done).
  destruct (write_step_spec i p w Hi) as (st & log & -> & [[-> ->]|(r & row & keys & [Hr Hb]%find_elem & Ha & -> & ->)]).
  { destruct Hinv as [? ? ? ? ?]. split; cbn; auto. }
  change (rule_of (pa_org p) (pa_id p)) with (concerns p) in Hb.
  pose proof (apply_changes_fields _ _ _ Ha) as (Eid & Eapp & Eorg & _).
  pose proof (proj1 (concerns_ids p r) Hb) as [Hid Horg].
  split; cbn [rw_state rw_patches with_provider with_rules rs_rules rs_campaigns].
  - rewrite replaced_ids. apply Hinv.
  - intros x [[-> _]|[Hx _]]%replaced_row; [| by apply (ri_rules _ Hinv)].
    apply (written_ok _ p r); [by apply (ri_rules _ Hinv) | by apply (ri_changes _ Hinv) | done | | done].
    intros c Ec. by apply (ri_campaign _ Hinv p r c).
  - intros q Hin. by apply (ri_changes _ Hinv), Hq.
  - intros q Hin. destruct (ri_row _ Hinv q (Hq q Hin)) as (y & Hy & Hcy).
    destruct (replace_keeps row _ y Hy) as (x & Hx & [->|[-> E]]); [by exists y |]. exists row. split; [done |].
    apply concerns_ids. apply concerns_ids in Hcy as [E1 E2]. assert (y = r) as -> by (apply (same_rule w); [done.. | congruence]).
    split; congruence.
  - intros q x c Hin [[-> _]|[Hx _]]%replaced_row Hc Ec.
    + rewrite Eapp. apply (ri_campaign _ Hinv q r c (Hq q Hin) Hr); [| done]. apply concerns_ids. apply concerns_ids in Hc.
      by rewrite <- Eid, <- Eorg.
    + by apply (ri_campaign _ Hinv q x c (Hq q Hin)).
Qed.

(** Two pending changes of a rule are the same one. *)
Lemma overlap_unique i j p q w :
  no_overlap w → rw_patches w !! i = Some (Some p) → rw_patches w !! j = Some (Some q) → pa_id p = pa_id q → i = j.
Proof. unfold no_overlap. intros Hn Hi Hj E. 
  eapply (NoDup_omap_lookup (option_map pa_id)); [done | exact Hi | exact Hj | done | cbn; congruence]. Qed.

Lemma written_checked_inv i w : rules_inv w → no_overlap w → checked_inv w → checked_inv (rule_step w (WritePatch i)).
Proof.
  intros Hinv Hone Hch. destruct (rw_patches w !! i) as [[p|]|] eqn:Hi; [| cbn; by rewrite Hi..].
  assert (Some p ∈ rw_patches w) as Hp by (by eapply list_elem_of_lookup_2).
  assert (∀ q, Some q ∈ <[i := None]> (rw_patches w) → Some q ∈ rw_patches w ∧ pa_id q ≠ pa_id p) as Hq.
  { intros q (j & Hj)%list_elem_of_lookup. destruct (decide (j = i)) as [->|Hne].
    - by rewrite list_lookup_insert_eq in Hj by (by eapply lookup_lt_Some).
    - rewrite list_lookup_insert_ne in Hj by done. split; [by eapply list_elem_of_lookup_2 |].
      intros E. apply Hne. by apply (overlap_unique j i q p w). }
  destruct (write_step_spec i p w Hi) as (st & log & -> & [[-> ->]|(r & row & keys & [Hr Hb]%find_elem & Ha & -> & ->)]).
  { destruct Hch as [Hci Hcp]. split; cbn; [done |]. intros q r [Hin _]%Hq. by apply Hcp. }
  change (rule_of (pa_org p) (pa_id p)) with (concerns p) in Hb.
  pose proof (apply_changes_fields _ _ _ Ha) as (Eid & _). pose proof (proj1 (concerns_ids p r) Hb) as [Hid Horg].
  split; cbn [rw_state rw_patches rw_saved with_provider with_rules rs_rules rs_campaigns].
  - intros x [[-> _]|[Hx Hne]]%replaced_row.
    + exists (pa_draws p). rewrite Eid, Hid. split; [apply saved_by_this |]. eapply written_checked; [| exact Ha].
      by apply (ci_patches _ Hch p r).
    + destruct (ci_rules _ Hch x Hx) as (d & Hd & Hk). exists d. rewrite saved_by_other; [done |]. congruence.
  - intros q x [Hin Hne]%Hq [[-> _]|[Hx _]]%replaced_row Hc; [| by apply (ci_patches _ Hch)].
    exfalso. apply concerns_ids in Hc as [E _]. apply Hne. congruence.
Qed.

(** *** Disabling *)

Lemma disabled_inv rq id w : rules_inv w → rules_inv (rule_step w (DisableRule rq id)) ∧
  (checked_inv w → checked_inv (rule_step w (DisableRule rq id))).
Proof.
  intros Hinv. cbn. unfold disable_rule, as_role.
  assert (∀ api, quiet w (move_to api (rw_state w) w)) as Hquiet by (intros api; by apply quiet_moved).
  destruct (require_role Admin rq (rw_api w)) as [[[pr org]|e] api];
    [| split; [by eapply rules_inv_quiet | by apply checked_inv_quiet]].
  unfold disable_rule_handler. destruct (find_rule _ _ _) as [r|] eqn:Er;
    [| split; [by eapply rules_inv_quiet | by apply checked_inv_quiet]].
  apply find_elem in Er as [Hr _].
  assert (∀ x, x ∈ replace_rule (disable_row r) (rs_rules (rw_state w)) →
            ∃ y, y ∈ rs_rules (rw_state w) ∧ ru_id (rr_rule x) = ru_id (rr_rule y) ∧ (x = y ∨ x = disable_row y)) as Hrow.
  { intros x [[-> _]|[Hx _]]%replaced_row; [exists r | exists x]; (split; [done |]; split; [done |]; auto). }
  split.
  - split; cbn [move_to rw_state rw_patches with_rules rs_rules rs_campaigns].
    + rewrite replaced_ids. apply Hinv.
    + intros x (y & Hy & _ & [->| ->])%Hrow; destruct (ri_rules _ Hinv y Hy); by split.
    + apply (ri_changes _ Hinv).
    + intros p Hp. destruct (ri_row _ Hinv p Hp) as (y & Hy & Hcy).
      destruct (replace_keeps (disable_row r) _ y Hy) as (x & Hx & [->|[-> E]]); [by exists y |]. eexists. split; [done |].
      assert (y = r) as -> by (by apply (same_rule w)). exact Hcy.
    + intros p x c Hp (y & Hy & _ & [->| ->])%Hrow Hc Ec; by apply (ri_campaign _ Hinv p y c).
  - intros [Hci Hcp]. split; cbn [move_to rw_state rw_patches rw_saved with_rules rs_rules rs_campaigns].
    + intros x (y & Hy & E & Hxy)%Hrow. destruct (Hci y Hy) as (d & Hd & [H1 H2]). exists d. rewrite E. split; [done |].
      destruct Hxy as [->| ->]; by split.
    + intros p x Hp (y & Hy & _ & [->| ->])%Hrow Hc; exact (Hcp p y Hp Hy Hc).
Qed.

Lemma rule_step_inv w op : rules_inv w → rules_inv (rule_step w op) ∧ (no_overlap w → checked_inv w → checked_inv (rule_step w op)).
Proof.
  intros Hinv.
  assert (∀ w', quiet w w' → rules_inv w' ∧ (no_overlap w → checked_inv w → checked_inv w')) as Hquiet.
  { intros w' Hq. split; [by eapply rules_inv_quiet | intros _; by apply checked_inv_quiet]. }
  destruct op as [rq b d|rq id b d|i|rq id|rq app now|rq id now|app org|c app org|l|api].
  - destruct (created_inv rq b d w Hinv). by split.
  - destruct (checked_step_inv rq id b d w Hinv). by split.
  - split; [by apply written_inv | by apply written_checked_inv].
  - destruct (disabled_inv rq id w Hinv). by split.
  - apply Hquiet. cbn. unfold list_rules, as_role. destruct (require_role _ _ _) as [[[p org]|e] api]; [| by apply quiet_moved].
    unfold list_rules_handler. destruct (rules_out _ _ _ _). by apply quiet_moved.
  - apply Hquiet. cbn. unfold retry_delivery, as_role. destruct (require_role _ _ _) as [[[p org]|e] api]; [| by apply quiet_moved].
    unfold retry_delivery_handler. destruct (List.find _ _); by apply quiet_moved.
  - apply Hquiet. by apply quiet_moved.
  - apply Hquiet. split; [done | by exists [(c, app, org)] | done | done].
  - apply Hquiet. by apply quiet_moved.
  - apply Hquiet. by apply quiet_moved.
Qed.

Lemma rule_run_inv ops w : rules_inv w → rules_inv (rule_run ops w).
Proof. revert w. induction ops as [|op ops IH]; intros w Hw; [done |]. by apply IH, rule_step_inv. Qed.

Lemma rule_run_checked ops w : rules_inv w → checked_inv w → never_overlap ops w → checked_inv (rule_run ops w).
Proof.
  revert w. induction ops as [|op ops IH]; intros w Hw Hc; [done |]. cbn [never_overlap]. intros [Hone Hn].
  apply IH; [by apply rule_step_inv | by apply rule_step_inv | done].
Qed.

Definition no_rules (api : ApiState) (st : RuleState P) : RuleWorld P :=
  {| rw_api := api; rw_state := with_rules [] st; rw_patches := []; rw_saved := [] |}.

Lemma no_rules_inv api st : rules_inv (no_rules api st) ∧ checked_inv (no_rules api st).
Proof.
  split; split; cbn; try (by intros ? ?%not_elem_of_nil); try (by intros ? ? ? ?%not_elem_of_nil);
    try (by intros ? ? ?%not_elem_of_nil). constructor.
Qed.

(** ** What the worker makes of it *)

Lemma rendered_ok t values encode : validate t = Ok tt → ∃ s, rendered t values encode = Ok s.
Proof. intros Hv. unfold rendered, render. rewrite Hv. cbn. eauto. Qed.

(** Rendering reads the variables of the template only. *)
Lemma rendered_ext t values values' encode :
  (∀ n, n ∈ placeholders t → od_get n values = od_get n values') →
  rendered t values encode = rendered t values' encode.
Proof.
  intros Hv. unfold rendered, render. destruct (validate t); [| done]. cbn [rbind]. f_equal. apply sub_all_ext.
  intros n Hn. unfold substitute. by rewrite Hv.
Qed.

Lemma prepared_ok campaigns r custom values :
  rule_ok campaigns r →
  ∃ rq, prepare_template r custom values = Ok rq ∧ pq_method rq = ru_method r ∧ pq_success_codes rq = ru_success_codes r.
Proof.
  intros [Hu Hb _ _ _ _]. unfold prepare_template. destruct (rendered_ok _ values true Hu) as [url ->]. cbn [rbind].
  destruct (ru_body_template r) as [[|c t]|] eqn:Eb; cbn; [by eauto | | by eauto].
  destruct (rendered_ok (c :: t) values false) as [text ->]; [by apply Hb |]. cbn. eauto.
Qed.

Lemma prepared_ext r custom values values' :
  (∀ n, n ∈ placeholders (ru_url_template r) ++ variables_of (ru_body_template r) → od_get n values = od_get n values') →
  prepare_template r custom values = prepare_template r custom values'.
Proof.
  intros Hv. unfold prepare_template.
  rewrite (rendered_ext _ values values' true) by (intros n Hn; apply Hv, elem_of_app; by left).
  destruct (rendered _ _ _) as [url|]; [| done]. cbn [rbind]. f_equal.
  destruct (ru_body_template r) as [t|]; [| done]. destruct (truthy (Some t)); [| done].
  by rewrite (rendered_ext t values values' false) by (intros n Hn; apply Hv, elem_of_app; by right).
Qed.

Lemma preview_ok id org st :
  (∀ r, r ∈ rs_rules st → rule_ok (rs_campaigns st) (rr_rule r)) → find_rule org id (rs_rules st) ≠ None → ∃ pv, preview_rule_handler id org st = Ok pv.
Proof.
  intros Hok Hf. unfold preview_rule_handler. destruct (find_rule _ _ _) as [r|] eqn:Er; [| done]. cbn [or_raise rbind].
  apply find_elem in Er as [Hin _]. destruct (Hok r Hin) as [Hu Hb _ _ _ _].
  assert (∃ c, inspect (ru_url_template (rr_rule r)) = Ok c) as [c ->]
    by (unfold validate in Hu; apply rbind_Ok in Hu as (c & ? & _); eauto).
  unfold render. rewrite Hu. cbn. destruct (ru_body_template (rr_rule r)) as [[|x t]|]; cbn; [by eauto | | by eauto].
  rewrite (Hb (x :: t)) by done. cbn. eauto.
Qed.

(** (C15) A bad rule fails when it is saved.  Over any requests to the API, the check and the
    write of a PATCH being events of their own, every rule of the table can be delivered:
    the worker renders its templates for any event without an error, with a method the
    table allows and the rule's own success codes, which are one to ten codes from 100 to
    599; a rule that is scoped to a campaign names one of its own application and
    organisation; and its preview is never a server error.  As long as no two PATCH requests
    of one rule overlap, also: a rule without a campaign renders the same request whatever
    the partner's sub parameters are, and outside the sandbox its destination, with its
    placeholders filled in, was vetted by the request that saved the rule last, with what
    the resolver answered then.  Overlapping ones may leave a rule that no request checked
    ([concurrent_patches_unscope_a_rule]). *)
Theorem saved_rules_can_be_delivered api st0 ops r :
  let w := rule_run ops (no_rules api st0) in
  r ∈ rs_rules (rw_state w) →
  (∀ custom values, ∃ rq, prepare_template (rr_rule r) custom values = Ok rq ∧ pq_method rq ∈ METHODS ∧
     pq_success_codes rq = ru_success_codes (rr_rule r)) ∧
  ((1 <= length (ru_success_codes (rr_rule r)) <= 10)%nat ∧ Forall (λ c, 100 <= c <= 599) (ru_success_codes (rr_rule r))) ∧
  (∀ c, ru_campaign_id (rr_rule r) = Some c →
     (c, ru_app_id (rr_rule r), ru_organization_id (rr_rule r)) ∈ rs_campaigns (rw_state w)) ∧
  (∃ pv, preview_rule_handler (ru_id (rr_rule r)) (ru_organization_id (rr_rule r)) (rw_state w) = Ok pv) ∧
  (never_overlap ops (no_rules api st0) →
   (ru_campaign_id (rr_rule r) = None → ∀ custom values values',
      (∀ n, n ∉ SUB_PARAMETERS → od_get n values = od_get n values') →
      prepare_template (rr_rule r) custom values = prepare_template (rr_rule r) custom values') ∧
   (ru_is_sandbox (rr_rule r) = false →
      ∃ d t, saved_by (ru_id (rr_rule r)) (rw_saved w) = Some d ∧
        @validate_destination U NC (rd_resolver d) (concrete (ru_url_template (rr_rule r))) false = Ok t)).
Proof.
  intros w Hr. destruct (no_rules_inv api st0) as [Hi0 Hc0].
  assert (rules_inv w) as Hinv by (by apply rule_run_inv). pose proof (ri_rules _ Hinv r Hr) as Hrule. split_and!.
  - intros custom values. destruct (prepared_ok _ _ custom values Hrule) as (rq & E & Em & Ec). exists rq. rewrite Em.
    split; [done |]. split; [apply Hrule | done].
  - pose proof (rk_codes _ _ Hrule) as Hc. unfold sane_codes in Hc. apply andb_true_iff in Hc as [[Hn _]%andb_true_iff _].
    apply negb_true_iff, bool_decide_eq_false in Hn. destruct (ru_success_codes (rr_rule r)); [done | cbn; lia].
  - pose proof (rk_codes _ _ Hrule) as Hc. unfold sane_codes in Hc. apply andb_true_iff in Hc as [[_ Hl]%andb_true_iff _].
    by apply Nat.leb_le in Hl.
  - pose proof (rk_codes _ _ Hrule) as Hc. unfold sane_codes in Hc. apply andb_true_iff in Hc as [_ Hc].
    apply Forall_forall. intros c Hin%list_elem_of_In. rewrite forallb_forall in Hc. specialize (Hc c Hin). bprop. lia.
  - apply Hrule.
  - apply preview_ok; [apply Hinv |]. intros Hf. eapply find_none_iff in Hf; [| exact Hr].
    unfold rule_of in Hf. by rewrite !bool_decide_true in Hf.
  - intros Hn. destruct (ci_rules w (rule_run_checked ops _ Hi0 Hc0 Hn) r Hr) as (d & Hd & [Hs Hv]). split.
    + intros Hc custom values values' Hvals. apply prepared_ext. intros n Hin. by apply Hvals, Hs.
    + intros Hsb. destruct (Hv Hsb) as (t & Ht). by exists d, t.
Qed.
End RuleHistories.

(** ** Headers *)

Section RuleHeaders.
Context {U : Unicode} {NC : NetlocCheck} `{AEADLaws} {P : Type} `{MasterKeyLaws P} {J : HeaderJson}.

(** As the worker draws it. *)
Definition drawn (d : RuleDraws) : Attempt :=
  {| at_now := rd_now d; at_recorded := rd_now d; at_id := rd_id d; at_draw := 0; at_dek := rd_dek d;
     at_nonce := rd_nonce d; at_random := rd_random d; at_fetch := λ _, Raised [] [] |}.

Lemma seal_headers_inv (keys : P) org h d sealed :
  h ≠ [] → seal_headers keys org (Some h) d = Ok sealed →
  ∃ box, seal (encode_headers h) keys (organization_aad org) (rd_dek d) (rd_nonce d) (rd_random d) = Ok box ∧
    sealed = {| sc_ciphertext := Some (ss_ciphertext box); sc_nonce := Some (ss_nonce box);
                sc_wrapped := Some (ss_wrapped_dek box); sc_version := Some (ss_key_version box) |}.
Proof.
  intros Hne. unfold seal_headers. destruct h as [|x h]; [done |].
  destruct (seal _ _ _ _ _ _) as [box|e] eqn:E; intros Hs; [| done]. apply Ok_inj in Hs as <-. by exists box.
Qed.

(** What was sealed for a rule: the worker opens the headers, the API lists their names. *)
Lemma sealed_headers_open (keys keys' : P) org h d sealed now what :
  header_json_ok → NoDup (fst <$> h) → provider_ok keys → provider_ok keys' →
  (∀ w v dek, opens keys w v dek → opens keys' w v dek) → current_version keys ≠ 0 →
  length (rd_dek d) = DEK_BYTES → length (rd_random d) = NONCE_BYTES →
  seal_headers keys org (Some h) d = Ok sealed →
  fst (open_headers (Some keys') now org sealed what) = Ok h ∧
  fst (header_names keys' now org sealed) = sorted_set (fst <$> h).
Proof.
  intros Hj Hn Hp Hp' Hpp Hv Hd Hr Hs. destruct h as [|x h].
  { cbn in Hs. by apply Ok_inj in Hs as <-. }
  apply seal_headers_inv in Hs as (box & Hbox & ->); [| done].
  split; [exact (open_headers_stored (drawn d) keys keys' org (x :: h) box now what Hj Hn Hp Hp' Hpp Hv Hd Hr Hbox) |].
  destruct (seal_inv _ _ _ _ _ _ _ Hp Hr Hd Hbox) as (Hw & Hct & Hno).
  assert (ss_ciphertext box ≠ []) as Hne by (rewrite Hct; apply aead_tagged).
  unfold header_names. cbn [sc_ciphertext]. destruct (ss_ciphertext box) as [|c ct] eqn:Ec; [done |].
  cbn [credentials_of sc_nonce sc_wrapped sc_version]. rewrite <- Ec.
  assert ({| ss_ciphertext := ss_ciphertext box; ss_nonce := ss_nonce box; ss_wrapped_dek := ss_wrapped_dek box;
             ss_key_version := ss_key_version box |} = box) as -> by (by destruct box).
  pose proof (open_sealed_opens box keys' now (organization_aad org) _ Hp' (Hpp _ _ _ Hw)) as Ho.
  rewrite Hno, Ec, Hct, aead_inverse in Ho by done.
  destruct (open_sealed box keys' now (organization_aad org)) as [opened p3]. cbn [fst] in *. rewrite Ho. by rewrite Hj.
Qed.

(** The headers a rule is created with are the ones its requests carry, and nothing else
    shows them: the row that is added opens, for its own organisation and with any
    provider that still holds the key, to exactly the headers given; none of them is one
    the platform sets, and none can split a request; the answer and every later listing
    carry the sorted names alone, and no update changes what is sealed. *)
Theorem saved_headers_are_sent rq b d api st out api' st' h (keys' : P) now what :
  header_json_ok → rc_headers b = Some h → NoDup (fst <$> h) →
  provider_ok (rs_keys st) → provider_ok keys' → (∀ w v dek, opens (rs_keys st) w v dek → opens keys' w v dek) →
  current_version (rs_keys st) ≠ 0 → length (rd_dek d) = DEK_BYTES → length (rd_random d) = NONCE_BYTES →
  create_rule rq b d api st = (Ok out, api', st') →
  ∃ row, rs_rules st' = rs_rules st ++ [row] ∧ ro_header_names out = sorted_set (fst <$> h) ∧
    Forall (λ x, (py_lower (fst x) ∉ FORBIDDEN_HEADERS) ∧ has_break (fst x) = false ∧ has_break (snd x) = false) h ∧
    ∀ b' row', (row' = row ∨ apply_changes b' row = Ok row') →
      fst (open_headers (Some keys') now (ru_organization_id (rr_rule row')) (ru_headers (rr_rule row')) what) = Ok h ∧
      fst (header_names keys' now (ru_organization_id (rr_rule row')) (ru_headers (rr_rule row'))) = sorted_set (fst <$> h).
Proof.
  intros Hj Eh Hn Hp Hp' Hpp Hv Hd Hr (p & org & _ & E)%as_role_Ok. unfold create_rule_handler in E.
  destruct (rbind _ _) as [row|e] eqn:Er; [| done]. injection E as <- <-.
  apply rbind_Ok in Er as ([] & Hb%raise_if_Ok%negb_false_iff & Er). apply rbind_Ok in Er as (_ & _ & Er).
  apply rbind_Ok in Er as (_ & _ & Er). apply rbind_Ok in Er as (_ & _ & Er). apply rbind_Ok in Er as (_ & _ & Er).
  apply rbind_Ok in Er as (sealed & Hs & Er). apply rbind_Ok in Er as (_ & _ & <-%Ok_inj). rewrite Eh in *.
  exists (new_rule org b sealed d). split; [done |]. split; [done |]. split.
  - unfold rule_body_ok, sane_headers in Hb. rewrite Eh in Hb. cbn [opt_ok] in Hb. bprop.
    apply Forall_forall. intros x Hx. match goal with Hf : forallb sane_header h = true |- _ => rename Hf into Hsane end.
    rewrite forallb_forall in Hsane. specialize (Hsane x (proj1 (list_elem_of_In _ _) Hx)). unfold sane_header in Hsane.
    rewrite !andb_true_iff, !negb_true_iff, orb_false_iff, bool_decide_eq_false in Hsane.
    destruct Hsane as [[? _] [? ?]]. done.
  - intros b' row' Hrow. assert (ru_organization_id (rr_rule row') = org ∧ ru_headers (rr_rule row') = sealed) as [-> ->].
    { destruct Hrow as [->|Ha]; [done |]. apply apply_changes_fields in Ha as (_ & _ & -> & _ & _ & _ & _ & _ & _ & _ & ->).
      done. }
    by apply (sealed_headers_open (rs_keys st) keys' org h d).
Qed.
End RuleHeaders.

(** ** Retrying by hand *)

(** The workers and the endpoint share the table. *)
Inductive shared_step : System → System → Prop :=
| shared_worker s s' : delivery_step s s' → shared_step s s'
| shared_retry db hs sent org id now :
    shared_step {| sy_db := db; sy_hands := hs; sy_sent := sent |}
                {| sy_db := (λ d, if retriable org id d then requeued now d else d) <$> db; sy_hands := hs; sy_sent := sent |}.

Definition hand_id (h : Hand) : uuid := match h with Pending id _ | Sent id _ | Remembering id => id end.

(** A row that nobody holds and that is neither failed nor abandoned. *)
Record closed (x : uuid) (s : System) : Prop := {
  cl_row : x ∈ pd_id <$> sy_db s;
  cl_hands : Forall (λ h, hand_id h ≠ x) (sy_hands s);
  cl_status : ∀ r, r ∈ sy_db s → pd_id r = x → pd_status r ∉ [Failed; Abandoned]
}.

Lemma closed_update x db hs1 h hs2 sent id f mid sent' :
  closed x {| sy_db := db; sy_hands := hs1 ++ h :: hs2; sy_sent := sent |} →
  keeps_identity f → hand_id h = id → Forall (λ h, hand_id h = id) mid →
  closed x {| sy_db := update_row id f db; sy_hands := hs1 ++ mid ++ hs2; sy_sent := sent' |}.
Proof.
  intros [Hin Hh Hs] Hf Hid Hm. cbn in *. apply Forall_app in Hh as [H1 [Hx H2]%Forall_cons].
  split; cbn.
  - by rewrite update_row_map by apply Hf.
  - apply Forall_app. split; [done |]. apply Forall_app. split; [| done]. eapply Forall_impl; [exact Hm |].
    intros h' ->. congruence.
  - intros r' (r & Hr & [[Hi ->]|[_ ->]])%update_row_elem Hx'; [| by apply Hs].
    rewrite (proj1 (Hf r)) in Hx'. congruence.
Qed.

Lemma closed_step x s s' : shared_step s s' → closed x s → closed x s' ∧ sent_for x (sy_sent s') = sent_for x (sy_sent s).
Proof.
  destruct 1 as [s s' Hw|db hs sent org id now]; intros Hx.
  - destruct Hw as [db db' hs sent now id org rule event Hc|db hs sent now row Hrow Hdue|db hs1 hs2 sent id n rq
      |db hs1 hs2 sent id n now draw r codes url Hbl Hst|db hs1 hs2 sent id n now method url body
      |db hs1 hs2 sent id n error|db hs1 hs2 sent id n now draw r codes url accepted after Ha
      |db hs1 hs2 sent id method body sealed|db hs1 hs2 sent id error|db hs1 h hs2 sent].
    + split; [| done]. destruct Hx as [Hin Hh Hs]. cbn in *.
      apply claim_inv in Hc as (row & -> & Hid & _ & Hst & _ & Hfresh & _). split; cbn.
      * rewrite fmap_app. apply elem_of_app. by left.
      * apply Forall_cons. split; [| done]. cbn. by intros ->.
      * intros r [Hr| ->%list_elem_of_singleton]%elem_of_app Hrx; [by apply Hs |]. congruence.
    + split; [| done]. destruct Hx as [Hin Hh Hs]. cbn in *. unfold due in Hdue. bprop.
      assert (pd_id row ≠ x) as Hne.
      { intros E. destruct (Hs row Hrow E). rewrite !elem_of_cons. by left. }
      split; cbn; [by rewrite update_row_map | by apply Forall_cons |].
      intros r' (r & Hr & [[Hi ->]|[_ ->]])%update_row_elem Hx'; [cbn in Hx'; congruence | by apply Hs].
    + pose proof (cl_hands _ _ Hx) as Hh. cbn in Hh. apply Forall_app in Hh as [_ [Hne _]%Forall_cons]. cbn in Hne.
      split; [| cbn [sy_sent]; rewrite sent_for_snoc, bool_decide_false by done; apply app_nil_r].
      rewrite <- (update_row_same id db).
      apply (closed_update x db hs1 (Pending id n) hs2 sent id (λ r, r) [Sent id n] _ Hx); [done | done |]. by repeat constructor.
    + split; [| done]. pose proof (record_update db now draw id r codes n url None) as Hu.
      destruct (record db now draw id r codes n url None) as [st db']. destruct Hu as (_ & f & -> & Hf & _).
      by apply (closed_update x db hs1 (Pending id n) hs2 sent id f [] sent Hx).
    + split; [| done]. by apply (closed_update x db hs1 (Pending id n) hs2 sent id _ [] sent Hx).
    + split; [| done]. by apply (closed_update x db hs1 (Pending id n) hs2 sent id _ [] sent Hx).
    + split; [| done]. pose proof (record_update db now draw id r codes n url accepted) as Hu.
      destruct (record db now draw id r codes n url accepted) as [st db']. destruct Hu as (_ & f & -> & Hf & _).
      apply (closed_update x db hs1 (Sent id n) hs2 sent id f after sent Hx); [done | done |].
      destruct Ha as [->| ->]; by repeat constructor.
    + split; [| done]. by apply (closed_update x db hs1 (Remembering id) hs2 sent id _ [] sent Hx).
    + split; [| done]. by apply (closed_update x db hs1 (Remembering id) hs2 sent id _ [] sent Hx).
    + split; [| done]. rewrite <- (update_row_same (hand_id h) db).
      by apply (closed_update x db hs1 h hs2 sent (hand_id h) (λ r, r) [] sent Hx).
  - split; [| done]. destruct Hx as [Hin Hh Hs]. split; cbn in *; [| done |].
    + rewrite <- list_fmap_compose. erewrite list_fmap_ext; [exact Hin |]. intros i r _. cbn. by destruct (retriable org id r).
    + intros r' (r & -> & Hr)%list_elem_of_fmap. destruct (retriable org id r) eqn:Er; [| by apply Hs].
      cbn. intros Hx. unfold retriable in Er. rewrite !andb_true_iff, !bool_decide_eq_true in Er. destruct Er as [_ Er].
      by destruct (Hs r Hr Hx).
Qed.

(** Retrying by hand does not repeat a conversion: a delivery that was delivered, or that
    may have been (it is in flight and its worker is gone), is refused by the endpoint, and
    however workers and further retries interleave nothing is sent for it again. *)
Theorem manual_retry_repeats_nothing x s s' :
  closed x s → rtc shared_step s s' →
  sent_for x (sy_sent s') = sent_for x (sy_sent s) ∧ ∀ org r, r ∈ sy_db s' → retriable org x r = false.
Proof.
  intros Hx Hr. assert (closed x s' ∧ sent_for x (sy_sent s') = sent_for x (sy_sent s)) as [Hc Hs].
  { induction Hr as [s|s1 s2 s3 H12 _ IH]; [done |]. destruct (closed_step x _ _ H12 Hx) as [H2 <-]. by apply IH. }
  split; [done |]. intros org r Hin. unfold retriable. destruct (bool_decide_reflect (pd_id r = x)); [| done].
  rewrite (bool_decide_false (pd_status r ∈ _)) by (by apply (cl_status _ _ Hc)). by rewrite andb_false_r.
Qed.

(** ** Examples *)

Definition ex_rules : RuleState LocalMasterKeyProvider :=
  {| rs_apps := [(9%N, 101%N)]; rs_campaigns := [(7%N, 9%N, 101%N)]; rs_rules := []; rs_deliveries := []; rs_keys := ex_local |}.

Definition ex_rule_create (url : string) (campaign : option uuid) : PostbackRuleCreate :=
  {| rc_app_id := 9; rc_name := py "Partner"; rc_trigger_event := py "purchase"; rc_url_template := py url;
     rc_method := py "POST"; rc_body_template := Some (py "{}"); rc_headers := Some [(py "Authorization", py "Bearer t")];
     rc_success_status_codes := [200]; rc_requires_attribution := true; rc_is_sandbox := false; rc_campaign_id := campaign |}.

Definition ex_rule_draw : RuleDraws :=
  {| rd_id := 60; rd_now := 10; rd_dek := ex_dek; rd_nonce := ex_random; rd_random := ex_random; rd_resolver := ex_resolver |}.

Definition ex_rule_rq : ApiRequest := Access.ex_request 4 1.

Abbreviation ex_no_rules := (no_rules ex_state ex_rules).
Abbreviation ex_rule_run ops :=
  (@rule_run ascii_unicode ex_brackets toy_aead _ (@local_master_keys toy_aead) toy_json ops ex_no_rules).

Definition ex_scoped : list rule_op :=
  [CreateRule ex_rule_rq (ex_rule_create "https://partner.example/c?id={{sub1}}" (Some 7%N)) ex_rule_draw].

Definition sets_url (url : string) : PostbackRuleUpdate :=
  {| pu_name := None; pu_trigger_event := None; pu_method := None; pu_url_template := Some (Some (py url));
     pu_body_template := None; pu_requires_attribution := None; pu_is_sandbox := None; pu_enabled := None;
     pu_campaign_id := None |}.
Definition unscopes : PostbackRuleUpdate :=
  {| pu_name := None; pu_trigger_event := None; pu_method := None; pu_url_template := None; pu_body_template := None;
     pu_requires_attribution := None; pu_is_sandbox := None; pu_enabled := None; pu_campaign_id := Some None |}.

(** The template is changed, and the rule disabled before the change is written. *)
Definition ex_patched : list rule_op :=
  ex_scoped ++ [CheckPatch ex_rule_rq 60 (sets_url "https://partner.example/d?id={{sub2}}") ex_rule_draw;
                DisableRule ex_rule_rq 60; WritePatch 0].

Lemma saved_rules_can_be_delivered_witness :
  let w := ex_rule_run ex_patched in
  (λ r, ru_url_template (rr_rule r)) <$> rs_rules (rw_state w) = [py "https://partner.example/d?id={{sub2}}"] ∧
  ∀ r, r ∈ rs_rules (rw_state w) →
    (∀ custom values, ∃ rq, @prepare_template ascii_unicode (rr_rule r) custom values = Ok rq ∧ pq_method rq ∈ METHODS) ∧
    (ru_is_sandbox (rr_rule r) = false → ∃ d t, saved_by (ru_id (rr_rule r)) (rw_saved w) = Some d ∧
       @validate_destination ascii_unicode ex_brackets (rd_resolver d) (concrete (ru_url_template (rr_rule r))) false = Ok t).
Proof.
  intros w. split; [vm_compute; reflexivity |]. intros r Hr.
  destruct (@saved_rules_can_be_delivered ascii_unicode ex_brackets toy_aead _ (@local_master_keys toy_aead) toy_json
           ex_state ex_rules ex_patched r Hr) as (H1 & _ & _ & _ & H5). split.
  - intros custom values. destruct (H1 custom values) as (rq & E & Hm & _). exists rq. split; [exact E | exact Hm].
  - apply H5. cbn [never_overlap ex_patched ex_scoped app].
    repeat (split; [apply (bool_decide_unpack _); vm_compute; exact I |]). apply (bool_decide_unpack _). vm_compute. exact I.
Defined.

Abbreviation ex_create b :=
  (@create_rule ascii_unicode ex_brackets toy_aead _ (@local_master_keys toy_aead) toy_json ex_rule_rq b ex_rule_draw ex_state ex_rules).

Lemma saved_headers_are_sent_witness :
  let b := ex_rule_create "https://partner.example/c" None in
  ∃ out api' st' row, ex_create b = (Ok out, api', st') ∧ rs_rules st' = [row] ∧
    ro_header_names out = [py "Authorization"] ∧
    fst (@open_headers toy_aead _ (@local_master_keys toy_aead) toy_json (Some ex_local) 99 (ru_organization_id (rr_rule row))
           (ru_headers (rr_rule row)) (py "headers")) = Ok [(py "Authorization", py "Bearer t")].
Proof.
  intros b. assert (match fst (fst (ex_create b)) with Ok _ => true | Err _ => false end = true) as Hok
    by (vm_compute; reflexivity).
  destruct (ex_create b) as [[[out|e] api'] st'] eqn:E; [clear Hok | exfalso; exact (diff_false_true Hok)].
  destruct (@saved_headers_are_sent ascii_unicode ex_brackets toy_aead toy_aead_laws _ (@local_master_keys toy_aead)
              (@local_laws toy_aead toy_aead_laws) toy_json ex_rule_rq b ex_rule_draw ex_state ex_rules out api' st'
              [(py "Authorization", py "Bearer t")] ex_local 99 (py "headers"))
    as (row & H1 & H2 & _ & H4).
  - exact toy_json_ok.
  - reflexivity.
  - apply NoDup_singleton.
  - exact ex_local_ok.
  - exact ex_local_ok.
  - auto.
  - discriminate.
  - reflexivity.
  - reflexivity.
  - exact E.
  - exists out, api', st', row. split; [reflexivity |]. split; [exact H1 |]. split; [exact H2 |].
    apply (H4 {| pu_name := None; pu_trigger_event := None; pu_method := None; pu_url_template := None;
                 pu_body_template := None; pu_requires_attribution := None; pu_is_sandbox := None; pu_enabled := None;
                 pu_campaign_id := None |} row). left. reflexivity.
Defined.

(** The conversion of [ex_final] was delivered: the endpoint refuses it. *)
Lemma manual_retry_repeats_nothing_witness :
  sent_for 1 (sy_sent ex_final) = sy_sent ex_final ∧ ∀ org r, r ∈ sy_db ex_final → retriable org 1 r = false.
Proof.
  split; [reflexivity |]. apply (manual_retry_repeats_nothing 1 ex_final ex_final).
  - split.
    + apply (bool_decide_unpack _). vm_compute. exact I.
    + constructor.
    + intros r Hr _. apply list_elem_of_In in Hr. vm_compute in Hr. destruct Hr as [<-|[]].
      apply (bool_decide_unpack _). vm_compute. exact I.
  - apply rtc_refl.
Defined.

(** *** Concurrent changes

    Each PATCH is checked against the rule it read.  One puts a sub parameter into the
    template of a rule scoped to a campaign, another removes the scope of the rule as it
    was: both pass, and the rule they leave sends the partner's ids for every install. *)
Lemma concurrent_patches_unscope_a_rule :
  let ops :=
    [CreateRule ex_rule_rq (ex_rule_create "https://partner.example/c" (Some 7%N)) ex_rule_draw;
     CheckPatch ex_rule_rq 60 (sets_url "https://partner.example/c?id={{sub1}}") ex_rule_draw;
     CheckPatch ex_rule_rq 60 unscopes ex_rule_draw; WritePatch 0; WritePatch 1] in
  (λ r, (ru_campaign_id (rr_rule r), @uses_sub_parameters ascii_unicode [Some (ru_url_template (rr_rule r))]))
    <$> rs_rules (rw_state (ex_rule_run ops)) = [(None, Ok [py "sub1"])].
Proof. vm_compute. reflexivity. Qed.

(** *** An explicit null

    A PATCH with a null template is a server error, as is any other null for a column that
    takes none. *)
Lemma null_template_is_a_server_error :
  let st := rw_state (ex_rule_run ex_scoped) in
  let b := {| pu_name := None; pu_trigger_event := None; pu_method := None; pu_url_template := Some None;
              pu_body_template := None; pu_requires_attribution := None; pu_is_sandbox := None; pu_enabled := None;
              pu_campaign_id := None |} in
  fst (fst (@update_rule ascii_unicode ex_brackets toy_aead _ (@local_master_keys toy_aead) toy_json ex_rule_rq 60 b
              ex_rule_draw ex_state st)) = Err Crash.
Proof. vm_compute. reflexivity. Qed.

(** *** Integrations

    No request attaches an integration to a rule. *)
Lemma no_rule_has_an_integration `{Unicode} `{NetlocCheck} `{AEAD} {P} `{MasterKeyProvider P} `{HeaderJson} ops
    api (st : RuleState P) r :
  r ∈ rs_rules (rw_state (rule_run ops (no_rules api st))) → ru_integration_id (rr_rule r) = None.
Proof.
  intros Hr. assert (rules_inv (rule_run ops (no_rules api st))) as Hinv by (apply rule_run_inv, no_rules_inv).
  by apply (ri_rules _ Hinv r Hr).
Qed.

(** *** A worker that is late to give up

    The first attempt failed; the second was delivered; the worker of the first then finds
    that it cannot keep the request, and marks the delivery abandoned.  A retry by hand
    sends it again. *)
Lemma late_abandon_reopens_a_delivery :
  ∃ s s', rtc shared_step system0 s ∧ pd_status <$> sy_db s = [Delivered] ∧ length (sent_for 1 (sy_sent s)) = 2%nat ∧
    rtc shared_step s s' ∧ length (sent_for 1 (sy_sent s')) = 3%nat.
Proof.
  set (held := [Remembering 1]).
  exists {| sy_db := ex_delivered; sy_hands := held; sy_sent := [(1%N, Delivery.ex_request); (1%N, Delivery.ex_request)] |}.
  set (again := (λ d, if retriable 2 1 d then requeued (2 * minute) d else d) <$> abandon ex_delivered 1 (py "no key")).
  exists {| sy_db := update_row 1 retry_row again; sy_hands := [Sent 1 3];
            sy_sent := [(1%N, Delivery.ex_request); (1%N, Delivery.ex_request); (1%N, Delivery.ex_request)] |}.
  split.
  { eapply rtc_l; [apply shared_worker, (step_claim [] ex_claimed [] [] 0 1 2 3 4); reflexivity |].
    eapply rtc_l; [apply shared_worker, (step_send ex_claimed [] [] [] 1 1 Delivery.ex_request) |].
    eapply rtc_l; [apply shared_worker, (step_record ex_claimed [] [] _ 1 1 second 0 ex_down [200]
      (Some (py "https://partner.example/p")) None held); by right |].
    eapply rtc_l; [apply shared_worker, (step_retry ex_failed held _ minute ex_failed_row);
      [apply list_elem_of_singleton; reflexivity | reflexivity] |].
    eapply rtc_l; [apply shared_worker, (step_send ex_retrying [] held _ 1 2 Delivery.ex_request) |].
    eapply rtc_l; [apply shared_worker, (step_record ex_retrying [] held _ 1 2 minute 0 ex_up [200] None None []); by left |].
    apply rtc_refl. }
  split; [reflexivity |]. split; [reflexivity |]. split; [| reflexivity].
  eapply rtc_l; [apply shared_worker, (step_cannot_remember ex_delivered [] [] _ 1 (py "no key")) |].
  eapply rtc_l; [apply (shared_retry _ _ _ 2 1 (2 * minute)) |]. fold again.
  destruct again as [|row rest] eqn:E; [discriminate E |].
  eapply rtc_l; [apply shared_worker, (step_retry _ [] _ (3 * minute) row); [left | by injection E as <- _] |].
  assert (pd_id row = 1%N ∧ pd_attempt_count row + 1 = 3) as [-> ->] by (by injection E as <- _).
  eapply rtc_l; [apply shared_worker, (step_send _ [] [] _ 1 3 Delivery.ex_request) |]. apply rtc_refl.
Qed.
