(* ===== verification/WebhookApi.v ===== *)
(** * Webhooks, as the API manages them (mmp_api/routes/webhooks.py)

    The handlers over the table the consumer of [Webhooks] reads.  The secret that is
    drawn, the random bytes of sealing, the id, the clock and the resolver are
    arguments. *)

From stdpp Require Import sorting.
From S2P Require Import Prelude Ids Keys Schema Ingest Referrer Templates Urls Signing Envelope IpAddr.
From S2P Require Import Delivery Outbound Webhooks ApiSessions Access Handlers.

#[local] Open Scope Z_scope.
#[local] Open Scope mmp_scope.

(** ** Data *)

Record HookRow := { hr_hook : WebhookRow; hr_created_at : datetime }.

Record HookState (P : Type) := { ws_hooks : list HookRow; ws_deliveries : list WebhookDelivery; ws_keys : P }.
Arguments ws_hooks {P}.
Arguments ws_deliveries {P}.
Arguments ws_keys {P}.

Definition with_hooks {P} (l : list HookRow) (st : HookState P) : HookState P :=
  {| ws_hooks := l; ws_deliveries := ws_deliveries st; ws_keys := ws_keys st |}.

Definition SECRET_PREFIX : pystr := py "whsec_".

Record WebhookCreate := { wc_url : HttpUrl; wc_events : list pystr }.
Record WebhookUpdate := { wu_url : patch HttpUrl; wu_events : patch (list pystr); wu_enabled : patch bool }.

(** [token] is what [token_urlsafe(32)] gives. *)
Record HookDraws := {
  hk_id : uuid;
  hk_now : datetime;
  hk_token : pystr;
  hk_dek : list N;
  hk_nonce : list N;
  hk_random : list N;
  hk_resolver : Resolver
}.

(** A webhook as it is returned. *)
Record WebhookOut := {
  wo_id : uuid;
  wo_url : pystr;
  wo_events : list pystr;
  wo_enabled : bool;
  wo_consecutive_failures : Z;
  wo_disabled_at : option datetime;
  wo_created_at : datetime;
  wo_failures_before_disable : Z
}.

Definition hook_out (r : HookRow) : WebhookOut :=
  let h := hr_hook r in
  {| wo_id := wh_id h; wo_url := wh_url h; wo_events := wh_events h; wo_enabled := wh_enabled h;
     wo_consecutive_failures := wh_consecutive_failures h; wo_disabled_at := wh_disabled_at h;
     wo_created_at := hr_created_at r; wo_failures_before_disable := MAX_CONSECUTIVE_FAILURES |}.

Definition known_events (l : list pystr) : bool := forallb (λ e, bool_decide (e ∈ WEBHOOK_EVENTS)) l.

Definition hook_body_ok (b : WebhookCreate) : bool :=
  https_url (wc_url b) && (1 <=? length (wc_events b))%nat && (length (wc_events b) <=? length WEBHOOK_EVENTS)%nat &&
  known_events (wc_events b).

Definition hook_update_ok (b : WebhookUpdate) : bool :=
  set_ok https_url (wu_url b) && set_ok known_events (wu_events b).

Definition no_hook : ApiError := Http 404 (py "webhook not found").

Definition later_hook (a b : HookRow) : Prop := hr_created_at b <= hr_created_at a.
#[export] Instance later_hook_dec a b : base.Decision (later_hook a b).
Proof. unfold later_hook. apply _. Defined.

Definition later_hook_delivery (a b : WebhookDelivery) : Prop := wd_created_at b <= wd_created_at a.
#[export] Instance later_hook_delivery_dec a b : base.Decision (later_hook_delivery a b).
Proof. unfold later_hook_delivery. apply _. Defined.

Definition hook_of (org id : uuid) (r : HookRow) : bool :=
  bool_decide (wh_id (hr_hook r) = id) && bool_decide (wh_organization_id (hr_hook r) = org).

Definition on_hook (f : WebhookRow → WebhookRow) (r : HookRow) : HookRow :=
  {| hr_hook := f (hr_hook r); hr_created_at := hr_created_at r |}.

(** [UPDATE .. WHERE id = $1 RETURNING ..] *)
Definition update_hooks (org id : uuid) (f : WebhookRow → WebhookRow) (l : list HookRow) : result ApiError (HookRow * list HookRow) :=
  let* r := or_raise no_hook (List.find (hook_of org id) l) in
  Ok (on_hook f r, (λ r, if hook_of org id r then on_hook f r else r) <$> l).

Definition with_secret (s : SealedSecret) (now : datetime) (h : WebhookRow) : WebhookRow :=
  {| wh_id := wh_id h; wh_organization_id := wh_organization_id h; wh_url := wh_url h; wh_secret := s;
     wh_events := wh_events h; wh_enabled := wh_enabled h; wh_consecutive_failures := wh_consecutive_failures h;
     wh_disabled_at := wh_disabled_at h; wh_updated_at := now |}.

(** The columns a PATCH sets; enabling a webhook also forgets its failures. *)
Definition with_changes (url : option pystr) (events : option (list pystr)) (enabled : option bool) (now : datetime)
    (h : WebhookRow) : WebhookRow :=
  let resets := bool_decide (enabled = Some true) in
  {| wh_id := wh_id h; wh_organization_id := wh_organization_id h; wh_url := default (wh_url h) url;
     wh_secret := wh_secret h; wh_events := default (wh_events h) events; wh_enabled := default (wh_enabled h) enabled;
     wh_consecutive_failures := if resets then 0 else wh_consecutive_failures h;
     wh_disabled_at := if resets then None else wh_disabled_at h; wh_updated_at := now |}.

Section Hooks.
Context {U : Unicode} {NC : NetlocCheck} `{AEAD} {P : Type} `{MasterKeyProvider P}.

Definition check_destination (R : Resolver) (url : pystr) : result ApiError unit :=
  match is_permitted url [] with
  | Err _ => Err Crash
  | Ok (permitted, reason) => raise_if (negb permitted) (Http 422 (py "destination is not permitted: " ++ reason))
  end.

Definition secret_of (d : HookDraws) : pystr := SECRET_PREFIX ++ hk_token d.

Definition seal_secret (keys : P) (org : uuid) (d : HookDraws) : result ApiError SealedSecret :=
  match seal (secret_of d ≫= utf8) keys (organization_aad org) (hk_dek d) (hk_nonce d) (hk_random d) with
  | Err _ => Err Crash
  | Ok s => Ok s
  end.

Definition list_webhooks_handler (org : uuid) (st : HookState P) : result ApiError (list WebhookOut) :=
  Ok (hook_out <$> merge_sort later_hook
        (List.filter (λ r, bool_decide (wh_organization_id (hr_hook r) = org)) (ws_hooks st))).
Definition list_webhooks (rq : ApiRequest) := as_role Viewer rq (reading list_webhooks_handler).

Definition create_webhook_handler (b : WebhookCreate) (d : HookDraws) (p : Principal) (org : uuid) (st : HookState P)
  : result ApiError (WebhookOut * pystr) * HookState P :=
  match (let* _ := raise_if (negb (hook_body_ok b)) invalid_body in
         let* _ := check_destination (hk_resolver d) (hu_text (wc_url b)) in
         let* sealed := seal_secret (ws_keys st) org d in
         let* _ := raise_if (existsb (λ r, bool_decide (wh_id (hr_hook r) = hk_id d)) (ws_hooks st)) Crash in
         Ok {| hr_hook := {| wh_id := hk_id d; wh_organization_id := org; wh_url := hu_text (wc_url b); wh_secret := sealed;
                             wh_events := sorted_set (wc_events b); wh_enabled := true; wh_consecutive_failures := 0;
                             wh_disabled_at := None; wh_updated_at := hk_now d |};
               hr_created_at := hk_now d |}) with
  | Err e => (Err e, st)
  | Ok row => (Ok (hook_out row, secret_of d), with_hooks (ws_hooks st ++ [row]) st)
  end.
Definition create_webhook (rq : ApiRequest) (b : WebhookCreate) (d : HookDraws) := as_role Admin rq (create_webhook_handler b d).

Definition rotate_secret_handler (id : uuid) (d : HookDraws) (p : Principal) (org : uuid) (st : HookState P)
  : result ApiError (WebhookOut * pystr) * HookState P :=
  match (let* sealed := seal_secret (ws_keys st) org d in
         update_hooks org id (with_secret sealed (hk_now d)) (ws_hooks st)) with
  | Err e => (Err e, st)
  | Ok (row, hooks) => (Ok (hook_out row, secret_of d), with_hooks hooks st)
  end.
Definition rotate_secret (rq : ApiRequest) (id : uuid) (d : HookDraws) := as_role Admin rq (rotate_secret_handler id d).

(** A null URL is checked as the text of [None]; null events fail when the answer is
    built, and a null flag when the row is written. *)
Definition update_webhook_handler (id : uuid) (b : WebhookUpdate) (now : datetime) (R : Resolver) (p : Principal)
    (org : uuid) (st : HookState P) : result ApiError WebhookOut * HookState P :=
  match (let* _ := raise_if (negb (hook_update_ok b)) invalid_body in
         let* _ := raise_if (negb (is_set (wu_url b) || is_set (wu_events b) || is_set (wu_enabled b)))
                     (Http 422 (py "nothing to update")) in
         let url := (λ u, match u with Some u => hu_text u | None => py "None" end) <$> wu_url b in
         let* _ := match url with Some u => check_destination R u | None => Ok tt end in
         let* _ := or_raise no_hook (List.find (hook_of org id) (ws_hooks st)) in
         let* events := match wu_events b with
                        | Some None => Err Crash
                        | Some (Some l) => Ok (Some (sorted_set l))
                        | None => Ok None
                        end in
         let* enabled := match wu_enabled b with Some None => Err Crash | Some (Some e) => Ok (Some e) | None => Ok None end in
         update_hooks org id (with_changes url events enabled now) (ws_hooks st)) with
  | Err e => (Err e, st)
  | Ok (row, hooks) => (Ok (hook_out row), with_hooks hooks st)
  end.
Definition update_webhook (rq : ApiRequest) (id : uuid) (b : WebhookUpdate) (now : datetime) (R : Resolver) :=
  as_role Admin rq (update_webhook_handler id b now R).

(** Its deliveries go with it. *)
Definition delete_webhook_handler (id : uuid) (p : Principal) (org : uuid) (st : HookState P)
  : result ApiError unit * HookState P :=
  match List.find (hook_of org id) (ws_hooks st) with
  | None => (Err no_hook, st)
  | Some _ =>
      (Ok tt, {| ws_hooks := List.filter (λ r, negb (hook_of org id r)) (ws_hooks st);
                 ws_deliveries := List.filter (λ d, negb (bool_decide (wd_webhook_id d = id))) (ws_deliveries st);
                 ws_keys := ws_keys st |})
  end.
Definition delete_webhook (rq : ApiRequest) (id : uuid) := as_role Admin rq (delete_webhook_handler id).

Definition available_events (rq : ApiRequest) := as_role Viewer rq (reading (λ _ (_ : HookState P), Ok (sorted_set WEBHOOK_EVENTS))).

Definition list_hook_deliveries_handler (id : uuid) (status : option DeliveryStatus) (limit : nat) (org : uuid)
    (st : HookState P) : result ApiError (list WebhookDelivery) :=
  let* _ := raise_if (negb ((1 <=? limit)%nat && (limit <=? 200)%nat &&
                            opt_ok (λ s, negb (bool_decide (s = Sandboxed))) status)) invalid_body in
  Ok (take limit (merge_sort later_hook_delivery
        (List.filter (λ d, bool_decide (wd_organization_id d = org) && bool_decide (wd_webhook_id d = id) &&
                           opt_ok (λ s, bool_decide (wd_status d = s)) status) (ws_deliveries st)))).
Definition list_hook_deliveries (rq : ApiRequest) (id : uuid) (status : option DeliveryStatus) (limit : nat) :=
  as_role Viewer rq (reading (list_hook_deliveries_handler id status limit)).
End Hooks.

(** ** Histories

    Requests, in any order, with the outcomes the workers count in between and whatever
    the rest of the API does to the accounts. *)
Inductive manage_op :=
| CreateHook (rq : ApiRequest) (b : WebhookCreate) (d : HookDraws)
| RotateHook (rq : ApiRequest) (id : uuid) (d : HookDraws)
| UpdateHook (rq : ApiRequest) (id : uuid) (b : WebhookUpdate) (now : datetime) (R : Resolver)
| DeleteHook (rq : ApiRequest) (id : uuid)
| CountOutcome (now : datetime) (id : uuid) (delivered : bool)
| ChangeAccounts (api : ApiState).

(** The operations that give the webhook [id] a secret. *)
Definition issues (id : uuid) (op : manage_op) : bool :=
  match op with
  | CreateHook _ _ d => bool_decide (hk_id d = id)
  | RotateHook _ i _ => bool_decide (i = id)
  | _ => false
  end.

Section HookHistories.
Context {U : Unicode} {NC : NetlocCheck} `{AEAD} {P : Type} `{MasterKeyProvider P}.

Definition count_row (now : datetime) (id : uuid) (delivered : bool) (r : HookRow) : HookRow :=
  if bool_decide (wh_id (hr_hook r) = id) then on_hook (if delivered then success now else failure now) r else r.

Definition manage_step (s : ApiState * HookState P) (op : manage_op) : ApiState * HookState P :=
  let '(api, st) := s in
  match op with
  | CreateHook rq b d => let '(_, api, st) := create_webhook rq b d api st in (api, st)
  | RotateHook rq id d => let '(_, api, st) := rotate_secret rq id d api st in (api, st)
  | UpdateHook rq id b now R => let '(_, api, st) := update_webhook rq id b now R api st in (api, st)
  | DeleteHook rq id => let '(_, api, st) := delete_webhook rq id api st in (api, st)
  | CountOutcome now id delivered => (api, with_hooks (count_row now id delivered <$> ws_hooks st) st)
  | ChangeAccounts api => (api, st)
  end.

Definition manage_run (ops : list manage_op) (s : ApiState * HookState P) : ApiState * HookState P :=
  fold_left manage_step ops s.

(** What the worker counts is what the table keeps. *)
Lemma count_row_counts now id delivered l :
  hr_hook <$> (count_row now id delivered <$> l) = count_outcome now id delivered (hr_hook <$> l).
Proof.
  unfold count_outcome, update_hook. rewrite <- !list_fmap_compose. apply list_fmap_ext. intros i r _.
  unfold count_row. cbn. by destruct (bool_decide (wh_id (hr_hook r) = id)).
Qed.

(** ** One row at a time *)

(** What each handler does to the rows: each is kept as it is, changed in place, or is a
    new one at the end. *)
Lemma update_hooks_Ok org id f l row l' :
  update_hooks org id f l = Ok (row, l') →
  ∃ r, r ∈ l ∧ wh_id (hr_hook r) = id ∧ wh_organization_id (hr_hook r) = org ∧ row = on_hook f r ∧
       l' = (λ r, if hook_of org id r then on_hook f r else r) <$> l.
Proof.
  intros (r & Hf%or_raise_Ok & E)%rbind_Ok. injection E as <- <-. apply List.find_some in Hf as [Hin Hh].
  exists r. unfold hook_of in Hh. apply andb_true_iff in Hh as [Hi Ho].
  apply bool_decide_eq_true in Hi, Ho. apply list_elem_of_In in Hin. done.
Qed.

Lemma update_hooks_keeps (Q : WebhookRow → Prop) org id f l row l' :
  update_hooks org id f l = Ok (row, l') → Forall (λ r, Q (hr_hook r)) l →
  (∀ h, Q h → wh_id h = id → Q (f h)) → Forall (λ r, Q (hr_hook r)) l'.
Proof.
  intros (_ & _ & _ & _ & _ & ->)%update_hooks_Ok Hl Hq. apply Forall_fmap. eapply Forall_impl; [exact Hl |].
  intros r Hr. cbn. unfold hook_of. case_bool_decide as Hi; [| done]. case_bool_decide; [| done]. cbn. auto.
Qed.

Lemma check_destination_ok R url :
  check_destination R url = Ok tt → ∃ t, @validate_destination U NC R url false = Ok t.
Proof.
  unfold check_destination, is_permitted. destruct (validate_destination url false) as [t|[]]; try done. by exists t.
Qed.

Lemma create_webhook_Ok b d p org (st : HookState P) out st' :
  create_webhook_handler b d p org st = (Ok out, st') →
  hook_body_ok b = true ∧ check_destination (hk_resolver d) (hu_text (wc_url b)) = Ok tt ∧
  Forall (λ r, wh_id (hr_hook r) ≠ hk_id d) (ws_hooks st) ∧
  ∃ sealed row, seal_secret (ws_keys st) org d = Ok sealed ∧ st' = with_hooks (ws_hooks st ++ [row]) st ∧
    out = (hook_out row, secret_of d) ∧ hr_created_at row = hk_now d ∧
    hr_hook row = {| wh_id := hk_id d; wh_organization_id := org; wh_url := hu_text (wc_url b); wh_secret := sealed;
                     wh_events := sorted_set (wc_events b); wh_enabled := true; wh_consecutive_failures := 0;
                     wh_disabled_at := None; wh_updated_at := hk_now d |}.
Proof.
  intros E. unfold create_webhook_handler in E. destruct (rbind _ _) as [row|e] eqn:Er; [| done].
  injection E as <- <-. apply rbind_Ok in Er as ([] & Hb%raise_if_Ok%negb_false_iff & Er).
  apply rbind_Ok in Er as ([] & Hd & Er). apply rbind_Ok in Er as (sealed & Hs & Er).
  apply rbind_Ok in Er as ([] & Hn%raise_if_Ok & <-%Ok_inj). split; [done |]. split; [done |]. split.
  - apply Forall_forall. intros r Hr Heq. apply not_true_iff_false in Hn. apply Hn, existsb_exists.
    exists r. split; [by apply list_elem_of_In | by rewrite bool_decide_true].
  - exists sealed. eexists. done.
Qed.

Lemma update_webhook_Ok id b now R p org (st : HookState P) out st' :
  update_webhook_handler id b now R p org st = (Ok out, st') →
  ∃ url events enabled row hooks,
    update_hooks org id (with_changes url events enabled now) (ws_hooks st) = Ok (row, hooks) ∧
    out = hook_out row ∧ st' = with_hooks hooks st ∧
    (∀ u, url = Some u → check_destination R u = Ok tt) ∧
    (∀ l e, events = Some l → e ∈ l → e ∈ WEBHOOK_EVENTS) ∧ wu_enabled b = Some <$> enabled.
Proof.
  intros E. unfold update_webhook_handler in E. destruct (rbind _ _) as [[row hooks]|e] eqn:Er; [| done].
  injection E as <- <-. apply rbind_Ok in Er as ([] & Hb%raise_if_Ok%negb_false_iff & Er).
  apply rbind_Ok in Er as ([] & _ & Er). set (url := (λ u, match u with Some u => hu_text u | None => py "None" end) <$> wu_url b) in Er.
  apply rbind_Ok in Er as ([] & Hd & Er). apply rbind_Ok in Er as (_ & _ & Er).
  apply rbind_Ok in Er as (events & He & Er). apply rbind_Ok in Er as (enabled & Hn & Er).
  exists url, events, enabled, row, hooks. split; [done |]. split; [done |]. split; [done |]. split; [| split].
  - intros u ->. by destruct (Hd).
  - intros l e -> Hin. unfold hook_update_ok in Hb. apply andb_true_iff in Hb as [_ Hb].
    destruct (wu_events b) as [[l'|]|]; try done. injection He as <-. rewrite sorted_set_elem in Hin.
    cbn in Hb. unfold known_events in Hb. rewrite forallb_forall in Hb.
    specialize (Hb e (proj1 (list_elem_of_In _ _) Hin)). by apply bool_decide_eq_true in Hb.
  - destruct (wu_enabled b) as [[v|]|]; cbn in Hn; try done; by apply Ok_inj in Hn as <-.
Qed.

(** The ways a row changes, and what a new one is. *)
Inductive hook_change (op : manage_op) (h : WebhookRow) : WebhookRow → Prop :=
| change_none : hook_change op h h
| change_counted now (delivered : bool) : hook_change op h ((if delivered then success now else failure now) h)
| change_patched R url events enabled now :
    (∀ u, url = Some u → check_destination R u = Ok tt) →
    (∀ l e, events = Some l → e ∈ l → e ∈ WEBHOOK_EVENTS) →
    hook_change op h (with_changes url events enabled now h)
| change_secret rq d sealed now :
    op = RotateHook rq (wh_id h) d → hook_change op h (with_secret sealed now h).

Record hook_new (op : manage_op) (h : WebhookRow) : Prop := {
  hn_op : ∃ rq b d, op = CreateHook rq b d ∧ hk_id d = wh_id h;
  hn_url : ∃ R, check_destination R (wh_url h) = Ok tt;
  hn_events : ∀ e, e ∈ wh_events h → e ∈ WEBHOOK_EVENTS;
  hn_health : wh_enabled h = true ∧ wh_consecutive_failures h = 0 ∧ wh_disabled_at h = None
}.

Definition hook_from (op : manage_op) (l : list HookRow) (r' : HookRow) : Prop :=
  (∃ r, r ∈ l ∧ hook_change op (hr_hook r) (hr_hook r')) ∨ hook_new op (hr_hook r').

Lemma rows_kept op (l : list HookRow) : Forall (hook_from op l) l.
Proof. apply Forall_forall. intros r Hr. left. exists r. split; [done |]. constructor. Qed.

Lemma update_hooks_from op org id f l row l' :
  update_hooks org id f l = Ok (row, l') → (∀ h, wh_id h = id → hook_change op h (f h)) → Forall (hook_from op l) l'.
Proof.
  intros (_ & _ & _ & _ & _ & ->)%update_hooks_Ok Hf. apply Forall_fmap, Forall_forall. intros r Hr. left. exists r.
  split; [done |]. cbn. unfold hook_of. case_bool_decide as Hi; [| constructor].
  case_bool_decide; [by apply Hf | constructor].
Qed.

Lemma manage_step_rows s op : Forall (hook_from op (ws_hooks (snd s))) (ws_hooks (snd (manage_step s op))).
Proof.
  destruct s as [api st]. cbn [snd]. assert (∀ A (x : A * ApiState * HookState P),
    Forall (hook_from op (ws_hooks st)) (ws_hooks (snd x)) →
    Forall (hook_from op (ws_hooks st)) (ws_hooks (snd (let '(_, api, st) := x in (api, st))))) as Hlet
    by (by intros A [[a ?] ?]).
  pose proof (rows_kept op (ws_hooks st)) as Hkept.
  destruct op as [rq b d|rq id d|rq id b now R|rq id|now id delivered|api']; cbn [manage_step];
    [apply Hlet, (as_role_keeps (λ st' : HookState P, Forall (hook_from _ (ws_hooks st)) (ws_hooks st')));
     [exact Hkept |]; intros p org..| |exact Hkept].
  - destruct (create_webhook_handler b d p org st) as [[out|e] st'] eqn:E; cbn [snd].
    + apply create_webhook_Ok in E as (Hb & Hd & _ & sealed & row & _ & -> & _ & _ & Hrow). apply Forall_app.
      split; [exact Hkept |]. apply Forall_singleton. right. rewrite Hrow. split; cbn; [eauto | eauto | | done].
      intros e He. rewrite sorted_set_elem in He. unfold hook_body_ok, known_events in Hb. apply andb_true_iff in Hb as [_ Hb].
      rewrite forallb_forall in Hb. specialize (Hb e (proj1 (list_elem_of_In _ _) He)). by apply bool_decide_eq_true in Hb.
    + unfold create_webhook_handler in E. destruct (rbind _ _); [done |]. by injection E as _ <-.
  - unfold rotate_secret_handler. destruct (rbind _ _) as [[row hooks]|e] eqn:E; [| exact Hkept]. cbn [snd].
    apply rbind_Ok in E as (sealed & _ & E). eapply update_hooks_from; [exact E |].
    intros h <-. by eapply change_secret.
  - destruct (update_webhook_handler id b now R p org st) as [[out|e] st'] eqn:E; cbn [snd].
    + apply update_webhook_Ok in E as (url & events & enabled & row & hooks & E & _ & -> & Hu & Hev & _).
      eapply update_hooks_from; [exact E |]. intros h _. by eapply change_patched.
    + unfold update_webhook_handler in E. destruct (rbind _ _) as [[]|]; [done |]. by injection E as _ <-.
  - unfold delete_webhook_handler. destruct (List.find _ _); [| exact Hkept]. cbn [snd ws_hooks].
    apply Forall_forall. intros r Hr%list_elem_of_In%List.filter_In. rewrite Forall_forall in Hkept.
    apply Hkept, list_elem_of_In, Hr.
  - cbn [snd with_hooks ws_hooks]. apply Forall_fmap, Forall_forall. intros r Hr. left. exists r. split; [done |].
    cbn. unfold count_row. case_bool_decide; [apply change_counted | constructor].
Qed.

(** What every change keeps and every new row has, every row has after any history. *)
Lemma manage_run_keeps (Q : WebhookRow → Prop) ops s :
  Forall (λ op, (∀ h h', Q h → hook_change op h h' → Q h') ∧ (∀ h, hook_new op h → Q h)) ops →
  Forall (λ r, Q (hr_hook r)) (ws_hooks (snd s)) → Forall (λ r, Q (hr_hook r)) (ws_hooks (snd (manage_run ops s))).
Proof.
  revert s. induction ops as [|op ops IH]; intros s Hall Hs; [exact Hs |].
  apply Forall_cons in Hall as [[Hc Hn] Hops].
  cbn [manage_run fold_left]. apply (IH _ Hops). eapply Forall_impl; [exact (manage_step_rows s op) |].
  intros r' [(r & Hr & Hch)|Hnew]; [| by apply Hn]. rewrite Forall_forall in Hs. exact (Hc _ _ (Hs r Hr) Hch).
Qed.

(** ** What a saved webhook is *)

Record hook_ok (h : WebhookRow) : Prop := {
  ho_destination : ∃ (R : Resolver) t, validate_destination (wh_url h) false = Ok t;
  ho_events : ∀ e, e ∈ wh_events h → e ∈ WEBHOOK_EVENTS;
  ho_counted : 0 <= wh_consecutive_failures h;
  ho_enabled : wh_enabled h = true → wh_consecutive_failures h < MAX_CONSECUTIVE_FAILURES ∧ wh_disabled_at h = None
}.

Lemma hook_ok_counted now (delivered : bool) h : hook_ok h → hook_ok ((if delivered then success now else failure now) h).
Proof.
  intros [Hd He Hc Hn]. destruct delivered.
  - unfold success. destruct (0 <? _); [| by split]. split; cbn; [done | done | lia |].
    intros Hen. split; [vm_compute; reflexivity | by apply Hn].
  - split; cbn; [done | done | lia |].
    destruct (Z.leb_spec MAX_CONSECUTIVE_FAILURES (wh_consecutive_failures h + 1)) as [|Hlt]; [done |].
    intros Hen. split; [done | by apply Hn].
Qed.

Lemma hook_ok_changed op h h' : hook_ok h → hook_change op h h' → hook_ok h'.
Proof.
  intros Hok [|now delivered|R url events enabled now Hu Hv|rq d sealed now _].
  - done.
  - by apply hook_ok_counted.
  - destruct Hok as [Hd He Hc Hn]. split; cbn [with_changes wh_url wh_events wh_enabled wh_consecutive_failures wh_disabled_at].
    + destruct url as [u|]; [| exact Hd]. exists R. by apply check_destination_ok, Hu.
    + destruct events as [l|]; [intros e; by apply Hv | exact He].
    + case_bool_decide; [done | exact Hc].
    + destruct enabled as [[]|]; cbn; [done | done | exact Hn].
  - by destruct Hok.
Qed.

Lemma hook_ok_new op h : hook_new op h → hook_ok h.
Proof.
  intros [_ [R Hu] He (E1 & E2 & E3)]. split; [exists R; by apply check_destination_ok | done | by rewrite E2 |].
  intros _. by rewrite E2, E3.
Qed.

(** Whatever is created, changed, rotated, deleted and counted, in any order: every webhook
    has an https destination that was public when it was saved, only events that exist, and
    if it is enabled fewer than twenty failures in a row and no date on which it was
    switched off. *)
Theorem webhooks_stay_deliverable ops s r :
  Forall (λ r, hook_ok (hr_hook r)) (ws_hooks (snd s)) → r ∈ ws_hooks (snd (manage_run ops s)) → hook_ok (hr_hook r).
Proof.
  intros Hs. revert r. apply Forall_forall. apply manage_run_keeps; [| exact Hs].
  apply Forall_forall. intros op _. split; [apply hook_ok_changed | apply hook_ok_new].
Qed.

Lemma deliverable_path h : hook_ok h → ∃ path, url_path (wh_url h) = Some path.
Proof.
  intros [(R & t & Hd) _ _ _]. unfold validate_destination in Hd. unfold url_path.
  destruct (urlsplit (wh_url h)); [by eexists | done].
Qed.
End HookHistories.

(** ** Enabling again *)

Definition health (outcomes : list (datetime * bool)) (h : WebhookRow) : WebhookRow :=
  fold_left (λ h x, (if snd x : bool then success (fst x) else failure (fst x)) h) outcomes h.

Lemma few_failures outcomes h :
  wh_enabled h = true → 0 <= wh_consecutive_failures h →
  wh_consecutive_failures h + Z.of_nat (length outcomes) < MAX_CONSECUTIVE_FAILURES →
  wh_enabled (health outcomes h) = true.
Proof.
  revert h. induction outcomes as [|[now delivered] outcomes IH]; intros h He Hc Hn; [done |].
  cbn [length] in Hn. cbn [health fold_left fst snd]. destruct delivered; apply IH.
  - unfold success. by destruct (0 <? _).
  - unfold success. destruct (0 <? _); [done | exact Hc].
  - unfold success. destruct (0 <? _); cbn; lia.
  - cbn. by rewrite (proj2 (Z.leb_gt _ _)) by lia.
  - cbn. lia.
  - cbn. lia.
Qed.

(** A webhook that is enabled again starts over: whatever it had counted, fewer than twenty
    outcomes, all of them failures even, leave it enabled. *)
Theorem enabling_starts_over `{Unicode} `{NetlocCheck} `{AEAD} {P} `{MasterKeyProvider P} rq id b now R api
    (st : HookState P) out api' st' outcomes :
  update_webhook rq id b now R api st = (Ok out, api', st') → wu_enabled b = Some (Some true) →
  (length outcomes < 20)%nat →
  ∃ r, r ∈ ws_hooks st' ∧ out = hook_out r ∧ wo_enabled out = true ∧ wo_consecutive_failures out = 0 ∧
    wh_enabled (health outcomes (hr_hook r)) = true.
Proof.
  intros (p & org & _ & E)%as_role_Ok Hen Hn.
  apply update_webhook_Ok in E as (url & events & enabled & row & hooks & E & -> & -> & _ & _ & Hb).
  assert (enabled = Some true) as -> by (rewrite Hen in Hb; destruct enabled; cbn in Hb; congruence).
  apply update_hooks_Ok in E as (r & Hr & Ei & Eo & -> & ->).
  exists (on_hook (with_changes url events (Some true) now) r). split.
  - apply list_elem_of_fmap. exists r. split; [| exact Hr]. unfold hook_of. by rewrite !bool_decide_true.
  - split; [done |]. split; [done |]. split; [done |]. apply few_failures; [done | done |].
    change (0 + Z.of_nat (length outcomes) < 20). lia.
Qed.

(** ** The secret that was handed out *)

Section HandedOut.
Context {U : Unicode} {NC : NetlocCheck} {HM : Hmac} {SH : Sha256} {J : JsonEncoder} `{!DigestBytes}.
Context `{AEADLaws} {P : Type} `{MasterKeyLaws P}.
Variable isoformat : datetime → pystr.
Variable text_of : OutboundError → pystr.

Lemma secret_utf8 (s : pystr) : ascii_str s = true → decode_strict (s ≫= utf8) = Some s.
Proof.
  intros Ha. assert (ascii_text s) as Hs.
  { apply Forall_forall. unfold ascii_str in Ha. rewrite forallb_forall in Ha. intros c Hc%list_elem_of_In%Ha.
    unfold is_ascii in Hc. by apply N.ltb_lt. }
  unfold decode_strict. by rewrite (ascii_utf8 s Hs), (decodes_ascii s Hs), (ascii_utf8 s Hs), bool_decide_true.
Qed.

Lemma sealed_secret_opens (keys keys' : P) org d sealed now :
  provider_ok keys → provider_ok keys' → (∀ w v dek, opens keys w v dek → opens keys' w v dek) →
  length (hk_dek d) = DEK_BYTES → length (hk_random d) = NONCE_BYTES → seal_secret keys org d = Ok sealed →
  fst (open_sealed sealed keys' now (organization_aad org)) = Ok (secret_of d ≫= utf8).
Proof.
  intros Hp Hp' Hpp Hd Hr Hs. unfold seal_secret in Hs.
  destruct (seal (secret_of d ≫= utf8) keys (organization_aad org) (hk_dek d) (hk_nonce d) (hk_random d)) as [s|] eqn:E;
    [| done]. apply Ok_inj in Hs as ->. apply seal_inv in E as (Ho & Hc & Hn); [| done..].
  rewrite (open_sealed_opens sealed keys' now (organization_aad org) (hk_dek d) Hp' (Hpp _ _ _ Ho)).
  by rewrite Hc, Hn, aead_inverse.
Qed.

(** What an answer with a secret says of the rows: those of its webhook hold that secret,
    sealed for their organisation. *)
Definition issued (rq : ApiRequest) (d : HookDraws) (api : ApiState) (st : HookState P) (out : WebhookOut) (secret : pystr)
    (s : ApiState * HookState P) : Prop :=
  (∃ b, create_webhook rq b d api st = (Ok (out, secret), fst s, snd s)) ∨
  (∃ id, rotate_secret rq id d api st = (Ok (out, secret), fst s, snd s)).

Definition holds_secret (id org : uuid) (sealed : SealedSecret) (h : WebhookRow) : Prop :=
  wh_id h = id → wh_secret h = sealed ∧ wh_organization_id h = org.

Lemma issued_rows rq d api st out secret s :
  NoDup (wh_id ∘ hr_hook <$> ws_hooks st) → Forall (λ r, hook_ok (hr_hook r)) (ws_hooks st) →
  issued rq d api st out secret s →
  secret = secret_of d ∧ ∃ org sealed, seal_secret (ws_keys st) org d = Ok sealed ∧
    Forall (λ r, hook_ok (hr_hook r) ∧ holds_secret (wo_id out) org sealed (hr_hook r)) (ws_hooks (snd s)).
Proof.
  intros Hnd Hok Hi. assert (Forall (λ r, hook_ok (hr_hook r)) (ws_hooks (snd s))) as Hok'.
  { destruct Hi as [[b E]|[id E]];
      [pose proof (manage_step_rows (api, st) (CreateHook rq b d)) as Hf
      |pose proof (manage_step_rows (api, st) (RotateHook rq id d)) as Hf]; cbn in Hf; rewrite E in Hf;
      (eapply Forall_impl; [exact Hf |]); intros r' [(r & Hr & Hc)|Hn];
      try (by apply (hook_ok_new _ _ Hn)); rewrite Forall_forall in Hok; exact (hook_ok_changed _ _ _ (Hok r Hr) Hc). }
  destruct Hi as [[b E]|[id E]]; apply as_role_Ok in E as (p & org & _ & E).
  - apply create_webhook_Ok in E as (_ & _ & Hnew & sealed & row & Hs & Est & Eo & _ & Hrow). apply pair_eq in Eo as [Eo ->].
    split; [done |]. exists org, sealed. split; [done |]. rewrite Est in Hok' |- *.
    assert (wo_id out = hk_id d) as -> by (by rewrite Eo; cbn; rewrite Hrow).
    apply Forall_and. split; [exact Hok' |]. cbn. apply Forall_app. split.
    + eapply Forall_impl; [exact Hnew |]. intros r Hr Heq. cbn in Heq. done.
    + apply Forall_singleton. by rewrite Hrow.
  - unfold rotate_secret_handler in E. destruct (rbind _ _) as [[row hooks]|e] eqn:Er; [| done]. injection E as <- <- Est.
    apply rbind_Ok in Er as (sealed & Hs & Er). apply update_hooks_Ok in Er as (r0 & Hr0 & Ei & Eo & -> & ->).
    split; [done |]. exists org, sealed. split; [done |]. apply Forall_and. split; [exact Hok' |]. rewrite <- Est.
    apply Forall_fmap, Forall_forall. intros r Hr. cbn. unfold holds_secret. intros Hid.
    assert (r = r0) as ->.
    { eapply (NoDup_fmap_elem (wh_id ∘ hr_hook)); [exact Hnd | done | done |]. cbn. revert Hid.
      destruct (hook_of org id r); cbn; congruence. }
    unfold hook_of. by rewrite !bool_decide_true.
Qed.

(** A claimed delivery of a webhook whose secret opens is one request, signed with it. *)
Lemma claimed_delivery_is_signed env hook event w eid rows secret b :
  0 <= ha_now env → Z.quot (ha_now env) second <= MAX_TIMESTAMP → hook_ok hook →
  uuid_of_str (q_event_id event) = Some eid →
  claim_hook (hw_rows w) (ha_now env) (ha_id env) (wh_organization_id hook) (wh_id hook) eid (q_event_name event)
    (wh_url hook) = Ok (true, rows) →
  fst (open_sealed (wh_secret hook) (hw_keys w) (ha_now env) (organization_aad (wh_organization_id hook))) = Ok b →
  decode_strict b = Some secret →
  ∃ req path body,
    hw_sent (snd (deliver isoformat text_of env hook event w)) = hw_sent w ++ [(ha_id env, req)] ∧
    r_url req = wh_url hook ∧ r_body req = Some body ∧ url_path (wh_url hook) = Some path ∧
    ∀ now, Z.abs (now - Z.quot (ha_now env) second * second) <= DEFAULT_TOLERANCE →
      receiver_verify secret path body (r_headers req) now = Some true.
Proof.
  intros Hn Hm Hok Hu Hc Ho Hd. destruct (deliverable_path hook Hok) as [path Hpath].
  unfold deliver. rewrite Hu. cbn [set_metrics hw_rows]. rewrite Hc. unfold deliver_hook.
  cbn [set_rows set_metrics hw_keys].
  destruct (open_sealed (wh_secret hook) (hw_keys w) _ _) as [opened keys]. cbn [fst] in Ho. subst opened. rewrite Hd, Hpath.
  set (body := encode _). destruct (fetch _ _) as [answer cs]. eexists. exists path, body.
  split; [reflexivity |]. split; [reflexivity |]. split; [reflexivity |]. split; [reflexivity |].
  intros now Ht. by apply signed_headers_verify.
Qed.

(** The path a receiver is called with: that of the URL, parameters and all. *)
Definition requested_path (url : pystr) : option pystr :=
  match urlsplit url with
  | Err _ => None
  | Ok r => Some (match u_path r with [] => [slash] | path => path end)
  end.

(** The path names no parameters: no semicolon stands in it. *)
Definition no_parameters (url : pystr) : Prop :=
  match urlsplit url with Err _ => True | Ok r => existsb (N.eqb semicolon) (u_path r) = false end.

Lemma signed_path_requested url path : no_parameters url → url_path url = Some path → requested_path url = Some path.
Proof.
  unfold no_parameters, url_path, requested_path. destruct (urlsplit url) as [r|e]; [| intros _ [=]].
  intros ->. rewrite andb_false_r. cbn. by destruct (u_path r).
Qed.

(** (C16) The secret answered by a creation or a rotation verifies what is sent from then on:
    after any further requests and outcomes, except one that issues another secret for
    that webhook, every claimed delivery is one request, to the URL the webhook has by
    then, that the receiver's code accepts, given that secret and the path it was called
    with, for five minutes on either side; for any worker whose key provider opens what
    the API's wrapped.  The path must have no parameters, or the worker signs another one
    ([path_parameters_are_not_signed]). *)
Theorem handed_out_secret_verifies rq d api st out secret s ops r env event (w : HookWorld) eid rows :
  NoDup (wh_id ∘ hr_hook <$> ws_hooks st) → Forall (λ r, hook_ok (hr_hook r)) (ws_hooks st) →
  provider_ok (ws_keys st) → provider_ok (hw_keys w) →
  (∀ w' v dek, opens (ws_keys st) w' v dek → opens (hw_keys w) w' v dek) →
  length (hk_dek d) = DEK_BYTES → length (hk_random d) = NONCE_BYTES → ascii_str (hk_token d) = true →
  0 <= ha_now env → Z.quot (ha_now env) second <= MAX_TIMESTAMP →
  issued rq d api st out secret s → Forall (λ op, issues (wo_id out) op = false) ops →
  r ∈ ws_hooks (snd (manage_run ops s)) → wh_id (hr_hook r) = wo_id out →
  uuid_of_str (q_event_id event) = Some eid →
  claim_hook (hw_rows w) (ha_now env) (ha_id env) (wh_organization_id (hr_hook r)) (wh_id (hr_hook r)) eid
    (q_event_name event) (wh_url (hr_hook r)) = Ok (true, rows) →
  no_parameters (wh_url (hr_hook r)) →
  ∃ req path body,
    hw_sent (snd (deliver isoformat text_of env (hr_hook r) event w)) = hw_sent w ++ [(ha_id env, req)] ∧
    r_url req = wh_url (hr_hook r) ∧ r_body req = Some body ∧ requested_path (r_url req) = Some path ∧
    ∀ now, Z.abs (now - Z.quot (ha_now env) second * second) <= DEFAULT_TOLERANCE →
      receiver_verify secret path body (r_headers req) now = Some true.
Proof.
  intros Hnd Hok Hp Hp' Hpp Hd Hr Ha Hn Hm Hi Hops Hin Hid Hu Hc Hpar.
  apply issued_rows in Hi as (-> & org & sealed & Hs & Hrows); [| done..].
  assert (hook_ok (hr_hook r) ∧ holds_secret (wo_id out) org sealed (hr_hook r)) as [Hrow Hsec].
  { clear Hpar. revert r Hin Hid Hc. cut (Forall (λ r, hook_ok (hr_hook r) ∧ holds_secret (wo_id out) org sealed (hr_hook r))
      (ws_hooks (snd (manage_run ops s)))); [rewrite Forall_forall; auto |].
    apply (manage_run_keeps (λ h, hook_ok h ∧ holds_secret (wo_id out) org sealed h)); [| exact Hrows].
    eapply Forall_impl; [exact Hops |]. intros op Hop. split.
    - intros h h' [Hh Hs'] Hch. split; [exact (hook_ok_changed _ _ _ Hh Hch) |]. unfold holds_secret in *.
      destruct Hch as [|now delivered|R url events enabled now _ _|rq' d' sealed' now Eop]; [done | | done |].
      + destruct delivered; [unfold success; by destruct (0 <? _) | done].
      + subst op. cbn in Hop |- *. apply bool_decide_eq_false in Hop. congruence.
    - intros h Hnew. split; [exact (hook_ok_new _ _ Hnew) |]. intros Heq.
      destruct (hn_op _ _ Hnew) as (rq' & b' & d' & -> & Ed). cbn in Hop. apply bool_decide_eq_false in Hop. congruence. }
  destruct (Hsec Hid) as [Es Eo].
  destruct (claimed_delivery_is_signed env (hr_hook r) event w eid rows (secret_of d) (secret_of d ≫= utf8))
    as (req & path & body & R1 & R2 & R3 & R4 & R5); try done.
  - rewrite Es, Eo. by apply (sealed_secret_opens (ws_keys st)).
  - apply secret_utf8. unfold secret_of, ascii_str in *. by rewrite forallb_app, Ha.
  - exists req, path, body. rewrite R2. split_and!; [done | done | done | by apply signed_path_requested | done].
Qed.
End HandedOut.

(** ** Witnesses *)

Definition ex_hook_draw : HookDraws :=
  {| hk_id := 77; hk_now := 5; hk_token := py "token"; hk_dek := ex_dek; hk_nonce := ex_random; hk_random := ex_random;
     hk_resolver := ex_resolver |}.
Definition ex_hook_rq : ApiRequest := Access.ex_request 4 1.
Definition ex_hook_body : WebhookCreate :=
  {| wc_url := {| hu_scheme := py "https"; hu_text := py "https://partner.example/hook" |}; wc_events := [py "purchase"] |}.
Definition ex_no_hooks : HookState LocalMasterKeyProvider := {| ws_hooks := []; ws_deliveries := []; ws_keys := ex_local |}.

Abbreviation ex_created :=
  (@create_webhook ascii_unicode ex_brackets toy_aead _ (@local_master_keys toy_aead) ex_hook_rq ex_hook_body ex_hook_draw
     ex_state ex_no_hooks).
Abbreviation ex_manage ops s :=
  (@manage_run ascii_unicode ex_brackets toy_aead _ (@local_master_keys toy_aead) ops s).
Abbreviation ex_patch b s :=
  (@update_webhook ascii_unicode ex_brackets LocalMasterKeyProvider ex_hook_rq 77 b 9 ex_resolver ex_state s).

Definition enables (on : bool) : WebhookUpdate := {| wu_url := None; wu_events := None; wu_enabled := Some (Some on) |}.
Definition subscribes (events : list pystr) : WebhookUpdate :=
  {| wu_url := None; wu_events := Some (Some events); wu_enabled := None |}.

(** A webhook that was created, has failed nineteen times and was then disabled by hand. *)
Definition ex_history : list manage_op :=
  [CreateHook ex_hook_rq ex_hook_body ex_hook_draw] ++ replicate 19 (CountOutcome 6 77 false) ++
  [UpdateHook ex_hook_rq 77 (enables false) 8 ex_resolver].

Lemma webhooks_stay_deliverable_witness :
  let s := ex_manage ex_history (ex_state, ex_no_hooks) in
  length (ws_hooks (snd s)) = 1%nat ∧
  ∀ r, r ∈ ws_hooks (snd s) → ∃ (R : Resolver) t, @validate_destination ascii_unicode ex_brackets R (wh_url (hr_hook r)) false = Ok t.
Proof.
  intros s. split; [vm_compute; reflexivity |]. intros r Hr.
  refine (ho_destination _ (@webhooks_stay_deliverable ascii_unicode ex_brackets toy_aead _ (@local_master_keys toy_aead)
    ex_history (ex_state, ex_no_hooks) r _ Hr)). constructor.
Defined.

Lemma enabling_starts_over_witness :
  let st := snd (ex_manage ex_history (ex_state, ex_no_hooks)) in
  ∃ out api' st' r, ex_patch (enables true) st = (Ok out, api', st') ∧ r ∈ ws_hooks st' ∧
    wh_enabled (health (replicate 19 (10, false)) (hr_hook r)) = true.
Proof.
  intros st. assert (match fst (fst (ex_patch (enables true) st)) with Ok _ => true | Err _ => false end = true) as Hok
    by (vm_compute; reflexivity).
  destruct (ex_patch (enables true) st) as [[[out|e] api'] st'] eqn:E; [clear Hok | exfalso; exact (diff_false_true Hok)].
  destruct (@enabling_starts_over ascii_unicode ex_brackets toy_aead _ (@local_master_keys toy_aead) ex_hook_rq 77
    (enables true) 9 ex_resolver ex_state st out api' st' (replicate 19 (10, false)) E) as (r & H1 & _ & _ & _ & H2).
  - reflexivity.
  - rewrite length_replicate. lia.
  - exists out, api', st', r. split; [reflexivity |]. split; [exact H1 | exact H2].
Defined.

Lemma handed_out_secret_verifies_witness :
  ∃ out secret api' st' r req path body, ex_created = (Ok (out, secret), api', st') ∧
    secret = py "whsec_token" ∧
    hw_sent (snd (@deliver ascii_unicode toy_hmac toy_sha toy_encoder ex_brackets toy_aead LocalMasterKeyProvider
      (@local_master_keys toy_aead) (λ _, py "2026") (λ _, []) (ex_hook_env 1) (hr_hook r) ex_conversion
      (ex_hook_world []))) = [(1%N, req)] ∧
    @receiver_verify ascii_unicode toy_hmac toy_sha secret path body (r_headers req) (1200 * second) = Some true.
Proof.
  assert (match ex_created with (Ok (_, s), _, _) => bool_decide (s = py "whsec_token") | _ => false end = true) as Hok
    by (vm_compute; reflexivity).
  assert (match ex_created with (_, api, st) => bool_decide ((λ r, wh_id (hr_hook r)) <$> ws_hooks (snd
    (ex_manage [UpdateHook ex_hook_rq 77 (subscribes [py "refund"]) 8 ex_resolver] (api, st))) = [77%N]) end = true)
    as Hid by (vm_compute; reflexivity).
  assert (match ex_created with (Ok (o, _), _, _) => bool_decide (wo_id o = 77%N) | _ => false end = true) as Ho
    by (vm_compute; reflexivity).
  assert (match ex_created with (_, api, st) => Forall (λ r, @no_parameters ex_brackets (wh_url (hr_hook r))) (ws_hooks (snd
    (ex_manage [UpdateHook ex_hook_rq 77 (subscribes [py "refund"]) 8 ex_resolver] (api, st)))) end) as Hpars
    by (vm_compute; repeat constructor).
  destruct ex_created as [[[[out secret]|e] api'] st'] eqn:E; [| exfalso; exact (diff_false_true Hok)].
  apply bool_decide_eq_true in Hok, Ho, Hid.
  set (rows := ws_hooks (snd (ex_manage _ _))) in Hid, Hpars.
  destruct rows as [|r [|]] eqn:Er; [exfalso; by inversion Hid | | exfalso; by inversion Hid].
  injection Hid as Hr. apply Forall_cons in Hpars as [Hnp _].
  destruct (@handed_out_secret_verifies ascii_unicode ex_brackets toy_hmac toy_sha toy_encoder toy_digests toy_aead toy_aead_laws
    _ (@local_master_keys toy_aead) (@local_laws toy_aead toy_aead_laws) (λ _, py "2026") (λ _, [])
    ex_hook_rq ex_hook_draw ex_state ex_no_hooks out secret (api', st')
    [UpdateHook ex_hook_rq 77 (subscribes [py "refund"]) 8 ex_resolver] r (ex_hook_env 1) ex_conversion (ex_hook_world [])
    4%N (from_option snd [] (match claim_hook [] (1000 * second) 1 (wh_organization_id (hr_hook r)) (wh_id (hr_hook r)) 4 (py "purchase")
         (wh_url (hr_hook r)) with Ok x => Some x | Err _ => None end))) as (req & path & body & H1 & _ & _ & _ & H2).
  - constructor.
  - constructor.
  - exact ex_local_ok.
  - exact ex_local_ok.
  - auto.
  - reflexivity.
  - reflexivity.
  - reflexivity.
  - vm_compute; discriminate.
  - vm_compute; discriminate.
  - left. exists ex_hook_body. exact E.
  - repeat constructor.
  - fold rows. rewrite Er. by left.
  - by rewrite Hr, Ho.
  - vm_compute; reflexivity.
  - reflexivity.
  - exact Hnp.
  - exists out, secret, api', st', r, req, path, body. split; [reflexivity |]. split; [exact Hok |].
    split; [exact H1 |]. apply H2. vm_compute. discriminate.
Defined.

(** ** What the code does beyond its documentation *)

(** A PATCH may leave a webhook no event: it stays enabled and is told nothing, where a
    creation with no event is refused. *)
Lemma a_patch_can_leave_no_event :
  let st := snd (ex_manage (take 1 ex_history) (ex_state, ex_no_hooks)) in
  match ex_patch (subscribes []) st with
  | (Ok out, _, st') => wo_enabled out = true ∧ wo_events out = [] ∧
                        forallb (λ e, bool_decide (subscribers (hr_hook <$> ws_hooks st') 101 e = [])) WEBHOOK_EVENTS = true
  | _ => False
  end ∧
  hook_body_ok {| wc_url := wc_url ex_hook_body; wc_events := [] |} = false.
Proof. vm_compute. repeat split; reflexivity. Qed.

(** Null events pass the validation and are a server error; a null URL is checked as the
    text of it. *)
Lemma null_events_are_a_server_error :
  let st := snd (ex_manage (take 1 ex_history) (ex_state, ex_no_hooks)) in
  fst (fst (ex_patch {| wu_url := None; wu_events := Some None; wu_enabled := None |} st)) = Err Crash ∧
  fst (fst (ex_patch {| wu_url := Some None; wu_events := None; wu_enabled := None |} st)) =
    Err (Http 422 (py "destination is not permitted: scheme '' is not permitted")).
Proof. split; vm_compute; reflexivity. Qed.
