(* ===== verification/IntegrationApi.v ===== *)
(** * Provider integrations, as the API manages them (mmp_api/routes/integrations.py)

    A saved integration is the row the postback consumer joins to a rule: [as_integration]
    is what that query gives it.  What the [jsonb] column gives back for a configuration,
    and Python's [repr], are parameters; the random bytes of sealing, the ids and the clock
    are arguments. *)

From stdpp Require Import sorting.
From S2P Require Import Prelude Redis Ids Schema Skan Templates Envelope Delivery Outbound Postbacks Adapters.
From S2P Require Import AuditLog ApiSessions Access Handlers.

#[local] Open Scope Z_scope.
#[local] Open Scope mmp_scope.

(** ** Data *)

(** A row of [provider_integrations]. *)
Record IntegrationRow := {
  ir_id : uuid;
  ir_organization_id : uuid;
  ir_provider : pystr;
  ir_name : pystr;
  ir_ciphertext : list N;
  ir_nonce : list N;
  ir_wrapped_dek : list N;
  ir_key_version : Z;
  ir_configuration : props;
  ir_status : pystr;
  ir_last_health_check_at : option datetime;
  ir_created_at : datetime;
  ir_updated_at : datetime
}.

(** What [RULES_SQL] joins to a rule. *)
Definition as_integration (r : IntegrationRow) : Integration :=
  {| ig_id := ir_id r; ig_active := bool_decide (ir_status r = py "active"); ig_provider := ir_provider r;
     ig_credentials := {| sc_ciphertext := Some (ir_ciphertext r); sc_nonce := Some (ir_nonce r);
                          sc_wrapped := Some (ir_wrapped_dek r); sc_version := Some (ir_key_version r) |};
     ig_configuration := Some (ir_configuration r) |}.

(** The tables, the module state of the registry and the key provider. *)
Record IntegrationState (P : Type) := {
  is_rows : list IntegrationRow;
  is_rules : list PostbackRule;
  is_audit : list AuditRow;
  is_registry : Registry;
  is_keys : P
}.
Arguments is_rows {P}.
Arguments is_rules {P}.
Arguments is_audit {P}.
Arguments is_registry {P}.
Arguments is_keys {P}.

Definition with_registry {P} (g : Registry) (st : IntegrationState P) : IntegrationState P :=
  {| is_rows := is_rows st; is_rules := is_rules st; is_audit := is_audit st; is_registry := g; is_keys := is_keys st |}.
Definition with_rows {P} (l : list IntegrationRow) (log : list AuditRow) (st : IntegrationState P) : IntegrationState P :=
  {| is_rows := l; is_rules := is_rules st; is_audit := log; is_registry := is_registry st; is_keys := is_keys st |}.

Record IntegrationDraws := {
  in_id : uuid;
  in_audit_id : uuid;
  in_now : datetime;
  in_dek : list N;
  in_nonce : list N;
  in_random : list N
}.

Record IntegrationCreate := {
  ic_provider : pystr; ic_name : pystr; ic_credentials : headers; ic_configuration : props
}.

(** A null is a field that is not set. *)
Record IntegrationUpdate := {
  iu_name : option pystr; iu_credentials : option headers; iu_configuration : option props; iu_status : option pystr
}.

Record IntegrationOut := {
  io_id : uuid;
  io_provider : pystr;
  io_name : pystr;
  io_configuration : props;
  io_status : pystr;
  io_last_health_check_at : option datetime;
  io_created_at : datetime;
  io_credential_names : list pystr
}.

Definition integration_out (r : IntegrationRow) (names : list pystr) : IntegrationOut :=
  {| io_id := ir_id r; io_provider := ir_provider r; io_name := ir_name r; io_configuration := ir_configuration r;
     io_status := ir_status r; io_last_health_check_at := ir_last_health_check_at r; io_created_at := ir_created_at r;
     io_credential_names := names |}.

Definition integration_body_ok (b : IntegrationCreate) : bool := sized 1 60 (ic_provider b) && sized 1 120 (ic_name b).

Definition integration_update_ok (b : IntegrationUpdate) : bool :=
  opt_ok (sized 1 120) (iu_name b) && opt_ok (λ s, bool_decide (s ∈ [py "active"; py "paused"])) (iu_status b).

(** The texts of the two enumerations. *)
Definition capability_text (c : Capability) : pystr :=
  match c with
  | INSTALLS => py "installs" | IN_APP_EVENTS => py "in_app_events" | REVENUE => py "revenue"
  | SUBSCRIPTIONS => py "subscriptions" | REFUNDS => py "refunds" | REQUIRES_ATTRIBUTION => py "requires_attribution"
  | BATCHING => py "batching"
  end.
Definition auth_text (a : AuthStyle) : pystr :=
  match a with
  | AuthNone => py "none" | AuthBearer => py "bearer" | AuthHeader => py "header" | AuthQueryParam => py "query_param"
  end.

Record ProviderInfo := {
  pi_name : pystr;
  pi_display_name : pystr;
  pi_auth_style : pystr;
  pi_capabilities : list pystr;
  pi_fields : list ProviderField;
  pi_event_map : list (pystr * pystr)
}.

Definition provider_info (p : Provider) : ProviderInfo :=
  {| pi_name := pv_name p; pi_display_name := pv_display_name p; pi_auth_style := auth_text (pv_auth_style p);
     pi_capabilities := sorted_set (capability_text <$> pv_capabilities p); pi_fields := pv_fields p;
     pi_event_map := pv_event_map p |}.

(** [accepts_events] is [None] for "all". *)
Record CapabilitiesOut := {
  co_provider : pystr;
  co_capabilities : list pystr;
  co_accepts_events : option (list pystr);
  co_requires_attribution : bool
}.

Definition later_integration (a b : IntegrationRow) : Prop := ir_created_at b <= ir_created_at a.
#[export] Instance later_integration_dec a b : base.Decision (later_integration a b).
Proof. unfold later_integration. apply _. Defined.

Definition no_integration : ApiError := Http 404 (py "integration not found").

Definition names_integration (org id : uuid) (r : IntegrationRow) : bool :=
  bool_decide (ir_id r = id) && bool_decide (ir_organization_id r = org).

(** The unique constraint. *)
Definition same_integration (org : uuid) (provider name : pystr) (r : IntegrationRow) : bool :=
  bool_decide (ir_organization_id r = org) && bool_decide (ir_provider r = provider) && bool_decide (ir_name r = name).

(** The foreign key of a rule is set to null with the integration it named. *)
Definition detach (id : uuid) (r : PostbackRule) : PostbackRule :=
  {| ru_id := ru_id r; ru_app_id := ru_app_id r; ru_trigger_event := ru_trigger_event r; ru_enabled := ru_enabled r;
     ru_method := ru_method r; ru_url_template := ru_url_template r; ru_body_template := ru_body_template r;
     ru_success_codes := ru_success_codes r; ru_requires_attribution := ru_requires_attribution r;
     ru_is_sandbox := ru_is_sandbox r; ru_organization_id := ru_organization_id r; ru_campaign_id := ru_campaign_id r;
     ru_integration_id := if bool_decide (ru_integration_id r = Some id) then None else ru_integration_id r;
     ru_headers := ru_headers r |}.

Class PyRepr := { py_repr : pystr → pystr }.

(** What the configuration column gives back, when it takes what it is given. *)
Class ConfigColumn := { config_column : props → option props }.

Section Integrations.
Context {U : Unicode} {F : PyFormat} {JT : JsonText} {L : IsLower} {RP : PyRepr} {CC : ConfigColumn} {AL : AuditLib}.
Context `{AEAD} {P : Type} `{MasterKeyProvider P} {J : HeaderJson}.

(** What [str] makes of the [KeyError] the registry raises: the [repr] of its message. *)
Definition unknown_provider_text (name : pystr) (g : Registry) : pystr :=
  py_repr (py "no provider named " ++ py_repr name ++ py "; available: " ++
           py_join (py ", ") (sorted_set (fst <$> rg_providers g))).

Definition validate_integration (provider : pystr) (credentials : headers) (configuration : props) (g : Registry)
  : result ApiError unit * Registry :=
  match load_builtin_once g with
  | (Some _, g) => (Err Crash, g)
  | (None, g) =>
      (match registry_get provider g with
       | Err _ => Err (Http 422 (unknown_provider_text provider g))
       | Ok p =>
           match pv_validate p {| pc_credentials := credentials; pc_settings := configuration |} with
           | [] => Ok tt
           | problems =>
               Err (Http 422 (json_dumps [(py "provider", JStr provider); (py "problems", JArr (JStr <$> problems))]))
           end
       end, g)
  end.

Definition seal_credentials (keys : P) (org : uuid) (credentials : headers) (d : IntegrationDraws)
  : result ApiError SealedSecret :=
  match seal (encode_headers credentials) keys (organization_aad org) (in_dek d) (in_nonce d) (in_random d) with
  | Err _ => Err Crash
  | Ok s => Ok s
  end.

Definition list_providers_handler (p : Principal) (org : uuid) (st : IntegrationState P)
  : result ApiError (list ProviderInfo) * IntegrationState P :=
  match load_builtin_once (is_registry st) with
  | (Some _, g) => (Err Crash, with_registry g st)
  | (None, g) => (Ok (provider_info <$> available g), with_registry g st)
  end.
Definition list_providers (rq : ApiRequest) := as_role Viewer rq list_providers_handler.

Definition list_integrations_handler (org : uuid) (st : IntegrationState P) : result ApiError (list IntegrationOut) :=
  Ok ((λ r, integration_out r []) <$> merge_sort later_integration
        (List.filter (λ r, bool_decide (ir_organization_id r = org)) (is_rows st))).
Definition list_integrations (rq : ApiRequest) := as_role Admin rq (reading list_integrations_handler).

(** The row of the [INSERT]: its key version is the literal 1. *)
Definition insert_integration (org : uuid) (b : IntegrationCreate) (sealed : SealedSecret) (d : IntegrationDraws)
    (l : list IntegrationRow) : result ApiError IntegrationRow :=
  let* configuration := or_raise Crash (config_column (ic_configuration b)) in
  let* _ := raise_if (negb (no_nul (ic_provider b) && no_nul (ic_name b))) Crash in
  let* _ := raise_if (existsb (λ r, bool_decide (ir_id r = in_id d) || same_integration org (ic_provider b) (ic_name b) r) l)
              (Http 409 (py "an integration with that provider and name already exists")) in
  Ok {| ir_id := in_id d; ir_organization_id := org; ir_provider := ic_provider b; ir_name := ic_name b;
        ir_ciphertext := ss_ciphertext sealed; ir_nonce := ss_nonce sealed; ir_wrapped_dek := ss_wrapped_dek sealed;
        ir_key_version := 1; ir_configuration := configuration; ir_status := py "active";
        ir_last_health_check_at := None; ir_created_at := in_now d; ir_updated_at := in_now d |}.

Definition create_integration_handler (b : IntegrationCreate) (d : IntegrationDraws) (p : Principal) (org : uuid)
    (st : IntegrationState P) : result ApiError IntegrationOut * IntegrationState P :=
  if negb (integration_body_ok b) then (Err invalid_body, st)
  else
    let '(valid, g) := validate_integration (ic_provider b) (ic_credentials b) (ic_configuration b) (is_registry st) in
    let st := with_registry g st in
    let names := sorted_set (fst <$> ic_credentials b) in
    match (let* _ := valid in
           let* sealed := seal_credentials (is_keys st) org (ic_credentials b) d in
           let* row := insert_integration org b sealed d (is_rows st) in
           let* log := audited (record (is_audit st) (in_now d) (in_audit_id d) org (py "integration.created")
                         (py "provider_integration") (Some (str_of_uuid (in_id d))) (Some (pr_user_id p))
                         [(py "provider", JStr (ic_provider b)); (py "name", JStr (ic_name b));
                          (py "credential_names", JArr (JStr <$> names))]) in
           Ok (row, log)) with
    | Err e => (Err e, st)
    | Ok (row, log) => (Ok (integration_out row names), with_rows (is_rows st ++ [row]) log st)
    end.
Definition create_integration (rq : ApiRequest) (b : IntegrationCreate) (d : IntegrationDraws) :=
  as_role Admin rq (create_integration_handler b d).

(** The columns of a PATCH; the key version is not among them. *)
Definition change_integration (b : IntegrationUpdate) (configuration : option props) (sealed : option SealedSecret)
    (now : datetime) (r : IntegrationRow) : IntegrationRow :=
  {| ir_id := ir_id r; ir_organization_id := ir_organization_id r; ir_provider := ir_provider r;
     ir_name := default (ir_name r) (iu_name b);
     ir_ciphertext := from_option ss_ciphertext (ir_ciphertext r) sealed;
     ir_nonce := from_option ss_nonce (ir_nonce r) sealed;
     ir_wrapped_dek := from_option ss_wrapped_dek (ir_wrapped_dek r) sealed;
     ir_key_version := ir_key_version r; ir_configuration := default (ir_configuration r) configuration;
     ir_status := default (ir_status r) (iu_status b); ir_last_health_check_at := ir_last_health_check_at r;
     ir_created_at := ir_created_at r; ir_updated_at := now |}.

Definition changes_nothing (b : IntegrationUpdate) : bool :=
  bool_decide (iu_name b = None ∧ iu_status b = None) &&
  match iu_credentials b, iu_configuration b with None, None => true | _, _ => false end.

(** [_validate] as the PATCH calls it, when there is something to validate. *)
Definition validate_update (b : IntegrationUpdate) (r : IntegrationRow) (g : Registry) : result ApiError unit * Registry :=
  match iu_credentials b, iu_configuration b with
  | None, None => (Ok tt, g)
  | credentials, configuration =>
      validate_integration (ir_provider r) (default [] credentials) (default (ir_configuration r) configuration) g
  end.

Definition update_integration_handler (id : uuid) (b : IntegrationUpdate) (d : IntegrationDraws) (p : Principal)
    (org : uuid) (st : IntegrationState P) : result ApiError IntegrationOut * IntegrationState P :=
  if negb (integration_update_ok b) then (Err invalid_body, st)
  else
    match (let* r := or_raise no_integration (List.find (names_integration org id) (is_rows st)) in
           let* sealed := match iu_credentials b with
                          | None => Ok None
                          | Some c => let* s := seal_credentials (is_keys st) org c d in Ok (Some s)
                          end in
           let* _ := raise_if (changes_nothing b) (Http 422 (py "nothing to update")) in
           Ok (r, sealed)) with
    | Err e => (Err e, st)
    | Ok (r, sealed) =>
        let '(valid, g) := validate_update b r (is_registry st) in
        let st := with_registry g st in
        match (let* _ := valid in
               let* configuration := match iu_configuration b with
                                     | None => Ok None
                                     | Some c => let* c := or_raise Crash (config_column c) in Ok (Some c)
                                     end in
               let row := change_integration b configuration sealed (in_now d) r in
               let* _ := raise_if (negb (opt_ok no_nul (iu_name b)) ||
                                   existsb (λ r', negb (bool_decide (ir_id r' = id)) &&
                                                  same_integration org (ir_provider r) (ir_name row) r') (is_rows st)) Crash in
               Ok row) with
        | Err e => (Err e, st)
        | Ok row =>
            (Ok (integration_out row (sorted_set (fst <$> default [] (iu_credentials b)))),
             with_rows ((λ r', if names_integration org id r' then row else r') <$> is_rows st) (is_audit st) st)
        end
    end.
Definition update_integration (rq : ApiRequest) (id : uuid) (b : IntegrationUpdate) (d : IntegrationDraws) :=
  as_role Admin rq (update_integration_handler id b d).

Definition delete_integration_handler (id : uuid) (d : IntegrationDraws) (p : Principal) (org : uuid)
    (st : IntegrationState P) : result ApiError unit * IntegrationState P :=
  match (let* _ := or_raise no_integration (List.find (names_integration org id) (is_rows st)) in
         audited (record (is_audit st) (in_now d) (in_audit_id d) org (py "integration.deleted")
           (py "provider_integration") (Some (str_of_uuid id)) (Some (pr_user_id p)) [])) with
  | Err e => (Err e, st)
  | Ok log =>
      (Ok tt, {| is_rows := List.filter (λ r, negb (names_integration org id r)) (is_rows st); is_rules := detach id <$> is_rules st;
                 is_audit := log; is_registry := is_registry st; is_keys := is_keys st |})
  end.
Definition delete_integration (rq : ApiRequest) (id : uuid) (d : IntegrationDraws) :=
  as_role Admin rq (delete_integration_handler id d).

Definition integration_capabilities_handler (id : uuid) (p : Principal) (org : uuid) (st : IntegrationState P)
  : result ApiError CapabilitiesOut * IntegrationState P :=
  match List.find (names_integration org id) (is_rows st) with
  | None => (Err no_integration, st)
  | Some r =>
      match load_builtin_once (is_registry st) with
      | (Some _, g) => (Err Crash, with_registry g st)
      | (None, g) =>
          (match registry_get (ir_provider r) g with
           | Err _ => Err Crash
           | Ok p =>
               Ok {| co_provider := pv_name p; co_capabilities := sorted_set (capability_text <$> pv_capabilities p);
                     co_accepts_events := match sorted_set (fst <$> pv_event_map p) with [] => None | l => Some l end;
                     co_requires_attribution := bool_decide (REQUIRES_ATTRIBUTION ∈ pv_capabilities p) |}
           end, with_registry g st)
      end
  end.
Definition integration_capabilities (rq : ApiRequest) (id : uuid) := as_role Viewer rq (integration_capabilities_handler id).
End Integrations.

(** ** Histories

    Requests in any order, with whatever else is done to accounts and rules. *)
Inductive integration_op :=
| CreateIntegration (rq : ApiRequest) (b : IntegrationCreate) (d : IntegrationDraws)
| UpdateIntegration (rq : ApiRequest) (id : uuid) (b : IntegrationUpdate) (d : IntegrationDraws)
| DeleteIntegration (rq : ApiRequest) (id : uuid) (d : IntegrationDraws)
| ListProviders (rq : ApiRequest)
| ReadCapabilities (rq : ApiRequest) (id : uuid)
| ChangeRules (l : list PostbackRule)
| ChangeAccounts (api : ApiState).

(** What [os.urandom] draws, and that a dict has each key once. *)
Definition draws_ok (d : IntegrationDraws) : Prop := length (in_dek d) = DEK_BYTES ∧ length (in_random d) = NONCE_BYTES.

Definition op_ok (op : integration_op) : Prop :=
  match op with
  | CreateIntegration _ b d => draws_ok d ∧ NoDup (fst <$> ic_credentials b)
  | UpdateIntegration _ _ b d => draws_ok d ∧ ∀ c, iu_credentials b = Some c → NoDup (fst <$> c)
  | _ => True
  end.

Section IntegrationHistories.
Context {U : Unicode} {F : PyFormat} {JT : JsonText} {L : IsLower} {RP : PyRepr} {CC : ConfigColumn} {AL : AuditLib}.
Context `{AEADLaws} {P : Type} `{MasterKeyLaws P} {J : HeaderJson}.

Definition integration_step (s : ApiState * IntegrationState P) (op : integration_op) : ApiState * IntegrationState P :=
  let '(api, st) := s in
  match op with
  | CreateIntegration rq b d => let '(_, api, st) := create_integration rq b d api st in (api, st)
  | UpdateIntegration rq id b d => let '(_, api, st) := update_integration rq id b d api st in (api, st)
  | DeleteIntegration rq id d => let '(_, api, st) := delete_integration rq id d api st in (api, st)
  | ListProviders rq => let '(_, api, st) := list_providers rq api st in (api, st)
  | ReadCapabilities rq id => let '(_, api, st) := integration_capabilities rq id api st in (api, st)
  | ChangeRules l =>
      (api, {| is_rows := is_rows st; is_rules := l; is_audit := is_audit st; is_registry := is_registry st;
               is_keys := is_keys st |})
  | ChangeAccounts api => (api, st)
  end.

Definition integration_run (ops : list integration_op) (s : ApiState * IntegrationState P) : ApiState * IntegrationState P :=
  fold_left integration_step ops s.

(** ** What a saved integration is

    Its provider exists and accepts what was saved, and a worker whose keys open what the
    API's wrapped is given the credentials and the configuration. *)
Record integration_ok (keys : P) (r : IntegrationRow) : Prop := {
  iok_version : ir_key_version r = 1;
  iok_usable : ∃ p credentials posted,
    od_get (ir_provider r) (rg_providers builtin) = Some p ∧
    pv_validate p {| pc_credentials := credentials; pc_settings := posted |} = [] ∧
    config_column posted = Some (ir_configuration r) ∧
    ∀ keys' now, provider_ok keys' → (∀ w v dek, opens keys w v dek → opens keys' w v dek) →
      fst (config_for (Some keys') now (ir_organization_id r) (as_integration r)) =
        Ok {| pc_credentials := credentials; pc_settings := ir_configuration r |}
}.

Definition registry_ready (g : Registry) : Prop := g = fresh_registry ∨ g = builtin.

Record integrations_ok (st : IntegrationState P) : Prop := {
  so_rows : Forall (integration_ok (is_keys st)) (is_rows st);
  so_registry : registry_ready (is_registry st);
  so_keys : provider_ok (is_keys st);
  so_version : current_version (is_keys st) = 1
}.

Lemma ready_loads g : registry_ready g → load_builtin_once g = (None, builtin).
Proof. intros [->| ->]; reflexivity. Qed.

Lemma validated provider credentials configuration g g' :
  registry_ready g → validate_integration provider credentials configuration g = (Ok tt, g') →
  ∃ p, od_get provider (rg_providers builtin) = Some p ∧
       pv_validate p {| pc_credentials := credentials; pc_settings := configuration |} = [].
Proof.
  intros Hg E. unfold validate_integration in E. rewrite (ready_loads g Hg) in E. unfold registry_get in E.
  destruct (od_get provider (rg_providers builtin)) as [p|]; [| done]. exists p. split; [done |].
  by destruct (pv_validate p _).
Qed.

Lemma validate_registry provider credentials configuration g :
  registry_ready g → snd (validate_integration provider credentials configuration g) = builtin.
Proof. intros Hg. unfold validate_integration. by rewrite (ready_loads g Hg). Qed.

(** No built-in provider accepts no credentials and then refuses some. *)
Lemma credentials_matter_or_not name p settings credentials :
  od_get name (rg_providers builtin) = Some p →
  pv_validate p {| pc_credentials := []; pc_settings := settings |} = [] →
  pv_validate p {| pc_credentials := credentials; pc_settings := settings |} = [].
Proof.
  rewrite (proj1 builtin_providers). cbn [od_get]. case_decide; [by intros [= <-] |].
  case_decide; [| done]. intros [= <-] Hv. by apply s2s_validate_nil in Hv as [(token & Ht & _) _].
Qed.

(** What was sealed is what the worker is given. *)
Lemma sealed_credentials_open (keys keys' : P) org credentials d s now r :
  header_json_ok → NoDup (fst <$> credentials) → draws_ok d → provider_ok keys → provider_ok keys' →
  (∀ w v dek, opens keys w v dek → opens keys' w v dek) → current_version keys = 1 →
  seal_credentials keys org credentials d = Ok s →
  ir_ciphertext r = ss_ciphertext s → ir_nonce r = ss_nonce s → ir_wrapped_dek r = ss_wrapped_dek s → ir_key_version r = 1 →
  fst (config_for (Some keys') now org (as_integration r)) =
    Ok {| pc_credentials := credentials; pc_settings := ir_configuration r |}.
Proof.
  intros Hj Hn [Hd Hr] Hp Hp' Hpp Hv Hs Ec En Ew Ev. unfold seal_credentials in Hs.
  destruct (seal (encode_headers credentials) keys _ _ _ _) as [box|] eqn:Hbox; [| done]. apply Ok_inj in Hs as ->.
  assert (ss_key_version s = 1) as Hver.
  { unfold seal in Hbox. apply rbind_Ok in Hbox as (w & _ & E). apply Ok_inj in E as <-. exact Hv. }
  destruct (seal_inv _ _ _ _ _ _ _ Hp Hr Hd Hbox) as (Hw & Hct & Hno).
  assert (ss_ciphertext s ≠ []) as Hne by (rewrite Hct; apply aead_tagged).
  unfold config_for, as_integration. cbn [ig_configuration ig_credentials sc_ciphertext default].
  rewrite Ec, En, Ew, Ev. destruct (ss_ciphertext s) as [|c ct] eqn:Ess; [done |]. rewrite <- Ess.
  cbn [credentials_of sc_nonce sc_wrapped sc_version].
  assert ({| ss_ciphertext := ss_ciphertext s; ss_nonce := ss_nonce s; ss_wrapped_dek := ss_wrapped_dek s;
             ss_key_version := 1 |} = s) as -> by (destruct s; cbn in *; congruence).
  pose proof (open_sealed_opens s keys' now (organization_aad org) _ Hp' (Hpp _ _ _ Hw)) as Ho.
  rewrite Hno, Ess, Hct, aead_inverse in Ho by done.
  destruct (open_sealed s keys' now (organization_aad org)) as [opened p3]. cbn [fst] in Ho |- *. rewrite Ho. by rewrite Hj.
Qed.

(** ** Every request keeps them so *)

(** A configuration read back is stored as it is. *)
Definition column_ok : Prop := ∀ c c', config_column c = Some c' → config_column c' = Some c'.

Lemma ok_with_registry st : integrations_ok st → integrations_ok (with_registry builtin st).
Proof. intros []. split; cbn; try done. by right. Qed.

Lemma create_integration_ok b d p org st :
  header_json_ok → draws_ok d → NoDup (fst <$> ic_credentials b) → integrations_ok st →
  integrations_ok (snd (create_integration_handler b d p org st)).
Proof.
  intros Hj Hd Hn Hok. unfold create_integration_handler. destruct (negb _); [done |].
  pose proof (validate_registry (ic_provider b) (ic_credentials b) (ic_configuration b) _ (so_registry _ Hok)) as Hg.
  destruct (validate_integration _ _ _ _) as [valid g] eqn:Ev. cbn [snd] in Hg. subst g.
  pose proof (ok_with_registry st Hok) as Hok'. set (st' := with_registry builtin st) in *.
  destruct (rbind _ _) as [[row log]|e] eqn:E; [| exact Hok']. cbn [snd].
  apply rbind_Ok in E as ([] & -> & E). apply rbind_Ok in E as (sealed & Hs & E).
  apply rbind_Ok in E as (row' & Hi & E). apply rbind_Ok in E as (log' & _ & E). injection E as -> ->.
  destruct Hok'. split; cbn [with_rows is_rows is_registry is_keys]; try done. apply Forall_app. split; [done |].
  apply Forall_singleton. unfold insert_integration in Hi. apply rbind_Ok in Hi as (conf & Hc%or_raise_Ok & Hi).
  apply rbind_Ok in Hi as (_ & _ & Hi). apply rbind_Ok in Hi as (_ & _ & <-%Ok_inj).
  destruct (validated _ _ _ _ _ (so_registry _ Hok) Ev) as (pv & Hp & Hv).
  split; [done |]. exists pv, (ic_credentials b), (ic_configuration b). split; [done |]. split; [done |]. split; [done |].
  intros keys' now Hk Hpp. by apply (sealed_credentials_open (is_keys st') keys' org (ic_credentials b) d sealed).
Qed.

(** A PATCH leaves the row usable, with new credentials or with the ones it had. *)
Lemma change_integration_ok b d org st r sealed configuration :
  column_ok → header_json_ok → draws_ok d → (∀ c, iu_credentials b = Some c → NoDup (fst <$> c)) → integrations_ok st →
  integration_ok (is_keys st) r → ir_organization_id r = org →
  match iu_credentials b with
  | None => sealed = None
  | Some c => ∃ s, seal_credentials (is_keys st) org c d = Ok s ∧ sealed = Some s
  end →
  match iu_configuration b with
  | None => configuration = None
  | Some c => ∃ c', config_column c = Some c' ∧ configuration = Some c'
  end →
  fst (validate_update b r (is_registry st)) = Ok tt →
  integration_ok (is_keys st) (change_integration b configuration sealed (in_now d) r).
Proof.
  intros Hcol Hj Hd Hn Hok [Hver (p & credentials & posted & Hp & Hv & Hc & Ho)] Horg Hs Hconf Hval.
  unfold validate_update in Hval.
  assert (∀ creds conf, fst (validate_integration (ir_provider r) creds conf (is_registry st)) = Ok tt →
            pv_validate p {| pc_credentials := creds; pc_settings := conf |} = []) as Hvalid.
  { intros creds conf Ev. destruct (validate_integration _ _ _ _) as [x g] eqn:E. cbn in Ev. subst x.
    apply (validated _ _ _ _ _ (so_registry _ Hok)) in E as (p' & Hp' & Hv'). congruence. }
  destruct (iu_credentials b) as [c|].
  - destruct Hs as (s & Hs & ->). split; [done |]. exists p, c, (default (ir_configuration r) (iu_configuration b)).
    split; [done |]. split; [apply Hvalid; by destruct (iu_configuration b) |]. split.
    + destruct (iu_configuration b) as [c'|]; [destruct Hconf as (c2 & Hc2 & ->); done | subst configuration; cbn; eauto].
    + intros keys' now Hk Hpp. cbn [change_integration ir_organization_id].
      apply (sealed_credentials_open (is_keys st) keys' (ir_organization_id r) c d s now); try done;
        [by apply Hn | apply Hok | apply Hok | by rewrite Horg].
  - subst sealed. split; [done |]. exists p, credentials, (default posted (iu_configuration b)). split; [done |].
    destruct (iu_configuration b) as [c|].
    + destruct Hconf as (c' & Hc' & ->). split; [by eapply credentials_matter_or_not, Hvalid |]. split; [done |].
      intros keys' now Hk Hpp. specialize (Ho keys' now Hk Hpp). revert Ho. unfold config_for.
      cbn [as_integration change_integration ig_credentials ig_configuration sc_ciphertext from_option default
           ir_ciphertext ir_nonce ir_wrapped_dek ir_key_version ir_configuration ir_organization_id].
      destruct (ir_ciphertext r); cbn [fst]; [intros [= <-]%Ok_inj; done |].
      cbn [credentials_of sc_nonce sc_wrapped sc_version]. destruct (open_sealed _ _ _ _) as [[plain|] k]; cbn [fst]; [| done].
      destruct (decode_headers plain); [| done]. by intros [= <-].
    + subst configuration. split; [done |]. split; [done |]. exact Ho.
Qed.

Lemma validate_update_registry b r g :
  registry_ready g → snd (validate_update b r g) = g ∨ snd (validate_update b r g) = builtin.
Proof.
  intros Hg. unfold validate_update. destruct (iu_credentials b), (iu_configuration b); [right..| by left];
    by apply validate_registry.
Qed.

Lemma update_integration_ok id b d p org st :
  column_ok → header_json_ok → draws_ok d → (∀ c, iu_credentials b = Some c → NoDup (fst <$> c)) → integrations_ok st →
  integrations_ok (snd (update_integration_handler id b d p org st)).
Proof.
  intros Hcol Hj Hd Hn Hok. unfold update_integration_handler. destruct (negb (integration_update_ok b)); [done |].
  destruct (rbind _ _) as [[r sealed]|e] eqn:E; [| done].
  apply rbind_Ok in E as (r' & Hf%or_raise_Ok & E). apply rbind_Ok in E as (sealed' & Hs & E).
  apply rbind_Ok in E as (_ & _ & E). injection E as -> ->.
  apply List.find_some in Hf as [Hin%list_elem_of_In Hown]. unfold names_integration in Hown. bprop.
  pose proof (validate_update_registry b r _ (so_registry _ Hok)) as Hg.
  destruct (validate_update b r (is_registry st)) as [valid g] eqn:Ev. cbn [snd] in Hg.
  assert (integrations_ok (with_registry g st)) as Hok'.
  { destruct Hg as [->| ->]; [| by apply ok_with_registry]. destruct Hok. by split. }
  destruct (rbind _ _) as [row|e] eqn:E; [| exact Hok']. cbn [snd].
  apply rbind_Ok in E as ([] & -> & E). apply rbind_Ok in E as (configuration & Hc & E).
  apply rbind_Ok in E as (_ & _ & <-%Ok_inj). split; cbn [with_rows with_registry is_rows is_registry is_keys]; [| apply Hok'..].
  apply Forall_fmap. eapply Forall_impl; [exact (so_rows _ Hok) |]. intros r' Hr'. cbn. destruct (names_integration org id r'); [| done].
  apply (change_integration_ok b d org st r); try done.
  - pose proof (so_rows _ Hok) as Hrows. rewrite Forall_forall in Hrows. by apply Hrows.
  - destruct (iu_credentials b) as [c|]; [| by apply Ok_inj in Hs].
    apply rbind_Ok in Hs as (s & Hs & <-%Ok_inj). by exists s.
  - destruct (iu_configuration b) as [c|]; [| by apply Ok_inj in Hc].
    apply rbind_Ok in Hc as (c' & Hc%or_raise_Ok & <-%Ok_inj). by exists c'.
  - by rewrite Ev.
Qed.

Lemma delete_integration_ok id d p org st :
  integrations_ok st → integrations_ok (snd (delete_integration_handler id d p org st)).
Proof.
  intros Hok. unfold delete_integration_handler. destruct (rbind _ _); [| done]. destruct Hok. split; cbn; try done.
  rewrite Forall_forall in so_rows0. apply Forall_forall. intros r Hr%list_elem_of_In%List.filter_In.
  apply so_rows0, list_elem_of_In, Hr.
Qed.

Lemma integration_step_ok s op :
  column_ok → header_json_ok → op_ok op → integrations_ok (snd s) → integrations_ok (snd (integration_step s op)).
Proof.
  intros Hcol Hj Hop Hok. destruct s as [api st]. cbn [snd] in Hok.
  assert (∀ A (x : A * ApiState * IntegrationState P), integrations_ok (snd x) →
    integrations_ok (snd (let '(_, api, st) := x in (api, st)))) as Hlet by (by intros A [[a ?] ?]).
  pose proof (ok_with_registry st Hok) as Hb.
  destruct op as [rq b d|rq id b d|rq id d|rq|rq id|l|api']; cbn [integration_step];
    [apply Hlet, (as_role_keeps integrations_ok); [exact Hok |]; intros p org..| |exact Hok].
  - destruct Hop. by apply create_integration_ok.
  - destruct Hop. by apply update_integration_ok.
  - by apply delete_integration_ok.
  - unfold list_providers_handler. by rewrite (ready_loads _ (so_registry _ Hok)).
  - unfold integration_capabilities_handler. destruct (List.find _ _); [| exact Hok].
    by rewrite (ready_loads _ (so_registry _ Hok)).
  - destruct Hok. by split.
Qed.

(** (C17) What is saved can be used: after any requests, every integration names a provider
    that exists and that accepted its credentials with its configuration, and any worker
    whose keys open what the API's wrapped is given exactly those credentials and the
    configuration as stored, as long as the key the API seals with has version 1. *)
Theorem saved_integrations_are_usable ops s r :
  column_ok → header_json_ok → Forall op_ok ops → integrations_ok (snd s) →
  r ∈ is_rows (snd (integration_run ops s)) →
  ∃ p credentials posted,
    od_get (ir_provider r) (rg_providers builtin) = Some p ∧
    pv_validate p {| pc_credentials := credentials; pc_settings := posted |} = [] ∧
    config_column posted = Some (ir_configuration r) ∧
    ∀ keys' now, provider_ok keys' →
      (∀ w v dek, opens (is_keys (snd (integration_run ops s))) w v dek → opens keys' w v dek) →
      fst (config_for (Some keys') now (ir_organization_id r) (as_integration r)) =
        Ok {| pc_credentials := credentials; pc_settings := ir_configuration r |}.
Proof.
  intros Hcol Hj Hops Hok Hr. assert (integrations_ok (snd (integration_run ops s))) as Hall.
  { clear Hr. revert s Hok. induction Hops as [|op ops Hop _ IH]; intros s Hok; [exact Hok |].
    cbn [integration_run fold_left]. apply IH. by apply integration_step_ok. }
  pose proof (so_rows _ Hall) as Hrows. rewrite Forall_forall in Hrows. apply (iok_usable _ _ (Hrows r Hr)).
Qed.

(** ** Deleting *)

(** Deleting an integration keeps every rule: those that named it have none, so they send
    their own template, and the others are as they were. *)
Theorem deleting_keeps_the_rules rq id d api (st : IntegrationState P) api' st' app event :
  delete_integration rq id d api st = (Ok tt, api', st') →
  NoDup (ir_id <$> is_rows st) →
  rules_for (is_rules st') (as_integration <$> is_rows st') app event =
    (λ x, (detach id (fst x), if bool_decide (ru_integration_id (fst x) = Some id) then None else snd x)) <$>
      rules_for (is_rules st) (as_integration <$> is_rows st) app event.
Proof.
  intros (p & org & _ & E)%as_role_Ok Hnd. unfold delete_integration_handler in E.
  destruct (rbind _ _) as [log|e] eqn:El; [| done]. injection E as <-.
  apply rbind_Ok in El as (r0 & Hf%or_raise_Ok & _). apply List.find_some in Hf as [Hin0%list_elem_of_In Hown].
  assert (∀ r, r ∈ is_rows st → names_integration org id r = bool_decide (ir_id r = id)) as Howns.
  { intros r Hr. unfold names_integration in *. bprop. case_bool_decide as Hi; [| done]. cbn. apply bool_decide_eq_true.
    assert (r = r0) as -> by (eapply (NoDup_fmap_elem ir_id); [exact Hnd | done | done | congruence]). done. }
  cbn [is_rules is_rows]. unfold rules_for.
  assert (∀ l, List.filter (λ r, bool_decide (ru_app_id r = app) && bool_decide (ru_trigger_event r = event) && ru_enabled r)
    (detach id <$> l) = detach id <$> List.filter (λ r, bool_decide (ru_app_id r = app) &&
      bool_decide (ru_trigger_event r = event) && ru_enabled r) l) as ->.
  { induction l as [|r l IH]; [done |]. cbn. rewrite IH. by destruct (_ && ru_enabled r). }
  rewrite <- !list_fmap_compose. apply list_fmap_ext. intros i r _. cbn. f_equal.
  case_bool_decide as Hi; [done |]. destruct (ru_integration_id r) as [g|]; [| done]. cbn.
  assert (g ≠ id) as Hg by congruence. clear -Howns Hg. revert Howns. induction (is_rows st) as [|x l IH]; intros Howns; [done |].
  cbn. rewrite (Howns x) by by left. rewrite <- IH by (intros r Hr; apply Howns; by right).
  case_bool_decide as Hx; cbn; [| done]. by rewrite (bool_decide_false (ir_id x = g)) by congruence.
Qed.
End IntegrationHistories.

(** ** Witnesses *)

Definition toy_repr : PyRepr := {| py_repr s := [39%N] ++ s ++ [39%N] |}.
Definition toy_column : ConfigColumn := {| config_column c := Some c |}.

Definition ex_integration_draw (id : uuid) : IntegrationDraws :=
  {| in_id := id; in_audit_id := id; in_now := 5; in_dek := ex_dek; in_nonce := ex_random; in_random := ex_random |}.
Definition ex_integration_rq : ApiRequest := Access.ex_request 4 1.
Definition ex_s2s_body (name : string) : IntegrationCreate :=
  {| ic_provider := py "s2s_json"; ic_name := py name; ic_credentials := [(py "api_token", py "t")];
     ic_configuration := [(py "endpoint", JStr (py "https://n.example/"))] |}.
Definition ex_no_integrations {P} (rules : list PostbackRule) (keys : P) : IntegrationState P :=
  {| is_rows := []; is_rules := rules; is_audit := []; is_registry := fresh_registry; is_keys := keys |}.

Section Examples.
Context (A : AEAD).
Definition ex_integrations (ops : list integration_op) (s : ApiState * IntegrationState LocalMasterKeyProvider) :=
  @integration_run ascii_unicode toy_format toy_json_text toy_islower toy_repr toy_column toy_audit A _
    (@local_master_keys A) toy_json ops s.
Definition ex_update (b : IntegrationUpdate) (st : IntegrationState LocalMasterKeyProvider) :=
  @update_integration ascii_unicode toy_format toy_json_text toy_islower toy_repr toy_column A _
    (@local_master_keys A) toy_json ex_integration_rq 80 b (ex_integration_draw 90) ex_state st.
Definition ex_config_for (keys : LocalMasterKeyProvider) (r : IntegrationRow) :=
  fst (@config_for A _ (@local_master_keys A) toy_json (Some keys) 99 (ir_organization_id r) (as_integration r)).
End Examples.

Definition sets_configuration (c : props) : IntegrationUpdate :=
  {| iu_name := None; iu_credentials := None; iu_configuration := Some c; iu_status := None |}.
Definition pauses : IntegrationUpdate :=
  {| iu_name := None; iu_credentials := None; iu_configuration := None; iu_status := Some (py "paused") |}.
Definition renames (name : string) : IntegrationUpdate :=
  {| iu_name := Some (py name); iu_credentials := None; iu_configuration := None; iu_status := None |}.

Definition ex_saved : list integration_op :=
  [CreateIntegration ex_integration_rq (ex_s2s_body "main") (ex_integration_draw 80);
   UpdateIntegration ex_integration_rq 80 pauses (ex_integration_draw 81)].

Definition ex_start : IntegrationState LocalMasterKeyProvider := ex_no_integrations [] ex_local.

Lemma ex_start_ok :
  @integrations_ok ascii_unicode toy_format toy_json_text toy_islower toy_column toy_aead _ (@local_master_keys toy_aead)
    (@local_laws toy_aead toy_aead_laws) toy_json ex_start.
Proof. split; [constructor | by left | exact ex_local_ok | reflexivity]. Qed.

Lemma saved_integrations_are_usable_witness :
  let s := ex_integrations toy_aead ex_saved (ex_state, ex_start) in
  ir_status <$> is_rows (snd s) = [py "paused"] ∧
  ∀ r, r ∈ is_rows (snd s) → ∃ c, ex_config_for toy_aead ex_local r = Ok c.
Proof.
  intros s. split; [vm_compute; reflexivity |]. intros r Hr.
  assert (is_keys (snd s) = ex_local) as Hk by (vm_compute; reflexivity).
  destruct (@saved_integrations_are_usable ascii_unicode toy_format toy_json_text toy_islower toy_repr toy_column toy_audit
    toy_aead toy_aead_laws _ (@local_master_keys toy_aead) (@local_laws toy_aead toy_aead_laws) toy_json
    ex_saved (ex_state, ex_start) r) as (p & c & posted & _ & _ & _ & Hc).
  - intros c c' [= <-]. reflexivity.
  - exact toy_json_ok.
  - apply Forall_cons. split; [| apply Forall_cons; split; [| constructor]].
    + split; [split; reflexivity | apply NoDup_singleton].
    + split; [split; reflexivity | intros x Hx; discriminate Hx].
  - exact ex_start_ok.
  - exact Hr.
  - eexists. apply Hc; [exact ex_local_ok |]. unfold s, ex_integrations in Hk. rewrite Hk. auto.
Defined.

Definition ex_attached (rule : PostbackRule) (id : uuid) : PostbackRule :=
  {| ru_id := ru_id rule; ru_app_id := ru_app_id rule; ru_trigger_event := ru_trigger_event rule;
     ru_enabled := ru_enabled rule; ru_method := ru_method rule; ru_url_template := ru_url_template rule;
     ru_body_template := ru_body_template rule; ru_success_codes := ru_success_codes rule;
     ru_requires_attribution := ru_requires_attribution rule; ru_is_sandbox := ru_is_sandbox rule;
     ru_organization_id := ru_organization_id rule; ru_campaign_id := ru_campaign_id rule;
     ru_integration_id := Some id; ru_headers := ru_headers rule |}.
Definition ex_joined : IntegrationState LocalMasterKeyProvider :=
  snd (ex_integrations toy_aead (take 1 ex_saved) (ex_state, ex_no_integrations [ex_attached (ex_rule None) 80] ex_local)).
Abbreviation ex_delete st :=
  (@delete_integration ascii_unicode toy_audit LocalMasterKeyProvider ex_integration_rq 80 (ex_integration_draw 82) ex_state st).

Lemma deleting_keeps_the_rules_witness :
  ∃ api' st', ex_delete ex_joined = (Ok tt, api', st') ∧
    let app := ru_app_id (ex_rule None) in let event := ru_trigger_event (ex_rule None) in
    match rules_for (is_rules ex_joined) (as_integration <$> is_rows ex_joined) app event with
    | [(_, Some g)] => ig_id g = 80%N
    | _ => False
    end ∧
    snd <$> rules_for (is_rules st') (as_integration <$> is_rows st') app event = [None].
Proof.
  assert (match fst (fst (ex_delete ex_joined)) with Ok _ => true | Err _ => false end = true) as Hok
    by (vm_compute; reflexivity).
  destruct (ex_delete ex_joined) as [[[[]|e] api'] st'] eqn:E; [clear Hok | exfalso; exact (diff_false_true Hok)].
  exists api', st'. split; [reflexivity |]. intros app event. split; [vm_compute; reflexivity |].
  rewrite (@deleting_keeps_the_rules ascii_unicode toy_audit LocalMasterKeyProvider ex_integration_rq 80 (ex_integration_draw 82)
    ex_state ex_joined api' st' app event E).
  - vm_compute. reflexivity.
  - assert (ir_id <$> is_rows ex_joined = [80%N]) as -> by (vm_compute; reflexivity). apply NoDup_singleton.
Defined.

(** ** What the code does beyond its documentation *)

(** A cipher that refuses another key. *)
Definition keyed_aead : AEAD :=
  {| aead_encrypt key nonce plaintext aad := hd 0%N key :: plaintext;
     aead_decrypt key nonce ciphertext aad :=
       match ciphertext with
       | k :: rest => if bool_decide (k = hd 0%N key) then Some rest else None
       | [] => None
       end |}.
Definition ex_rotated : LocalMasterKeyProvider :=
  {| lp_keys := [(1, replicate 32 1%N); (2, replicate 32 2%N)]; lp_current := 2 |}.

(** *** After a rotation of the master key

    The credentials are sealed with the current key and stored as if with the first: the
    worker, which holds both keys, cannot open them, and neither can new credentials be
    given. *)
Lemma rotated_key_loses_credentials :
  let rows := is_rows (snd (ex_integrations keyed_aead (take 1 ex_saved) (ex_state, ex_no_integrations [] ex_rotated))) in
  length rows = 1%nat ∧
  ex_config_for keyed_aead ex_rotated <$> rows =
    [Err (CredentialsUnavailable (py "the integration's credentials could not be decrypted"))].
Proof. split; vm_compute; reflexivity. Qed.

(** *** Changing the configuration

    A PATCH validates the configuration with the credentials of the request: for a
    provider that requires one, the configuration cannot be changed alone. *)
Lemma configuration_alone_is_refused :
  let st := snd (ex_integrations toy_aead ex_saved (ex_state, ex_start)) in
  match fst (fst (ex_update toy_aead (sets_configuration [(py "endpoint", JStr (py "https://n.example/"))]) st)) with
  | Err (Http 422 _) => True
  | _ => False
  end.
Proof. vm_compute. exact I. Qed.

(** *** Renaming

    Taking the name of another integration of the provider is a server error, where creating
    one with a name that is taken is a conflict. *)
Lemma taken_name_is_a_server_error :
  let create := CreateIntegration ex_integration_rq in
  let st := snd (ex_integrations toy_aead [create (ex_s2s_body "main") (ex_integration_draw 80);
                                           create (ex_s2s_body "other") (ex_integration_draw 81)] (ex_state, ex_start)) in
  length (is_rows st) = 2%nat ∧ fst (fst (ex_update toy_aead (renames "other") st)) = Err Crash.
Proof. split; vm_compute; reflexivity. Qed.

(** *** The names of the credentials

    The list names no credential, whatever was supplied. *)
Lemma listed_integrations_name_no_credential {P} org (st : IntegrationState P) out :
  list_integrations_handler org st = Ok out → Forall (λ o, io_credential_names o = []) out.
Proof.
  intros <-%Ok_inj. apply Forall_fmap, Forall_forall. done.
Qed.
