(* ===== verification/LinkApi.v ===== *)
(** * Campaigns, tracking links and deep links, as the API manages them
    (mmp_api/routes/campaigns.py, routes/deeplinks.py, mmp_db/notify.py)

    The handlers over the tables the tracker's cache is loaded from ([database]), with the
    notifications that tell it what to reload.  A notification is sent when the request's
    transaction commits.  The codes drawn, the ids and the clock are arguments, and so is
    the text of a UUID as the driver reads it. *)

From stdpp Require Import sorting.
From S2P Require Import Prelude Ids Schema AuditLog LinkCache DeepLinks ApiSessions Access Handlers.

#[local] Open Scope Z_scope.
#[local] Open Scope mmp_scope.

(** ** Data *)

Record AppRef := { af_id : uuid; af_organization_id : uuid; af_status : pystr }.

Record CampaignRow := {
  cm_id : uuid;
  cm_organization_id : uuid;
  cm_app_id : uuid;
  cm_name : pystr;
  cm_source : option pystr;
  cm_medium : option pystr;
  cm_external_campaign_id : option pystr;
  cm_status : pystr;
  cm_created_at : datetime
}.

(** The rows the cache reads, with the columns it does not. *)
Record LinkRecord := { lk_row : LinkRow; lk_name : pystr; lk_created_at : datetime }.
Record DeepRecord := { dl_row : DeepRow; dl_id : uuid; dl_organization_id : uuid; dl_created_at : datetime }.

Inductive Notice :=
| LinkChanged (tracking_code : pystr)
| DeepLinksChanged (app_id : pystr).

Record LinkState := {
  ls_apps : list AppRef;
  ls_campaigns : list CampaignRow;
  ls_links : list LinkRecord;
  ls_deep : list DeepRecord;
  ls_audit : list AuditRow;
  ls_notices : list Notice
}.

(** What the queries of the cache see. *)
Definition database (st : LinkState) : Db :=
  {| db_links := lk_row <$> ls_links st; db_apps := (λ a, (af_id a, af_status a)) <$> ls_apps st;
     db_deep := dl_row <$> ls_deep st |}.

Definition with_campaigns (l : list CampaignRow) (st : LinkState) : LinkState :=
  {| ls_apps := ls_apps st; ls_campaigns := l; ls_links := ls_links st; ls_deep := ls_deep st; ls_audit := ls_audit st;
     ls_notices := ls_notices st |}.
Definition with_links (l : list LinkRecord) (n : Notice) (st : LinkState) : LinkState :=
  {| ls_apps := ls_apps st; ls_campaigns := ls_campaigns st; ls_links := l; ls_deep := ls_deep st; ls_audit := ls_audit st;
     ls_notices := ls_notices st ++ [n] |}.
Definition with_deep (l : list DeepRecord) (log : list AuditRow) (n : Notice) (st : LinkState) : LinkState :=
  {| ls_apps := ls_apps st; ls_campaigns := ls_campaigns st; ls_links := ls_links st; ls_deep := l; ls_audit := log;
     ls_notices := ls_notices st ++ [n] |}.

Definition CODE_LENGTH : nat := 22.
Definition CODE_ALPHABET : pystr := py "abcdefghijklmnopqrstuvwxyzABCDEFGHIJKLMNOPQRSTUVWXYZ0123456789".

(** What [secrets.choice] picks, as indices. *)
Definition generate_tracking_code (picks : list nat) : pystr := omap (λ i, CODE_ALPHABET !! i) (take CODE_LENGTH picks).

Record CampaignCreate := {
  cc_app_id : uuid; cc_name : pystr; cc_source : option pystr; cc_medium : option pystr;
  cc_external_campaign_id : option pystr
}.

Record TrackingLinkCreate := {
  tc_campaign_id : uuid; tc_name : pystr; tc_fallback_url : HttpUrl; tc_android_url : option HttpUrl;
  tc_ios_url : option HttpUrl; tc_deep_link_path : option pystr
}.

Record TrackingLinkUpdate := {
  tu_name : patch pystr; tu_fallback_url : patch HttpUrl; tu_android_url : patch HttpUrl; tu_ios_url : patch HttpUrl;
  tu_deep_link_path : patch pystr; tu_status : patch pystr
}.

Record DeepLinkIn := { di_app_id : pystr; di_code : pystr; di_destination : pystr; di_fallback_url : pystr }.

Record LinkDraws := { ld_id : uuid; ld_picks : list nat; ld_audit_id : uuid; ld_now : datetime }.
Definition ld_code (d : LinkDraws) : pystr := generate_tracking_code (ld_picks d).

Definition campaign_body_ok (b : CampaignCreate) : bool :=
  sized 1 255 (cc_name b) && opt_ok (sized 0 120) (cc_source b) && opt_ok (sized 0 120) (cc_medium b) &&
  opt_ok (sized 0 255) (cc_external_campaign_id b).

Definition link_body_ok (b : TrackingLinkCreate) : bool :=
  sized 1 255 (tc_name b) && https_url (tc_fallback_url b) && opt_ok https_url (tc_android_url b) &&
  opt_ok https_url (tc_ios_url b) && opt_ok (sized 0 512) (tc_deep_link_path b).

Definition LINK_STATUSES : list pystr := [py "active"; py "disabled"].

Definition link_update_ok (b : TrackingLinkUpdate) : bool :=
  set_ok (sized 1 255) (tu_name b) && set_ok https_url (tu_fallback_url b) && set_ok https_url (tu_android_url b) &&
  set_ok https_url (tu_ios_url b) && set_ok (sized 0 512) (tu_deep_link_path b) &&
  set_ok (λ s, bool_decide (s ∈ LINK_STATUSES)) (tu_status b).

Definition deep_body_ok (b : DeepLinkIn) : bool :=
  sized 1 32 (di_code b) && sized 1 MAX_DESTINATION (di_destination b) && sized 1 2048 (di_fallback_url b).

Definition owns_app (org app : uuid) (st : LinkState) : bool :=
  existsb (λ a, bool_decide (af_id a = app) && bool_decide (af_organization_id a = org)) (ls_apps st).

Definition link_of (org id : uuid) (r : LinkRecord) : bool :=
  bool_decide (lr_id (lk_row r) = id) && bool_decide (lr_organization_id (lk_row r) = org).
Definition deep_of (org id : uuid) (r : DeepRecord) : bool :=
  bool_decide (dl_id r = id) && bool_decide (dl_organization_id r = org).

Definition no_link : ApiError := Http 404 (py "tracking link not found").
Definition no_deep_link : ApiError := Http 404 (py "deep link not found").
Definition app_missing : ApiError := Http 404 (py "app not found").

Definition later_campaign (a b : CampaignRow) : Prop := cm_created_at b <= cm_created_at a.
#[export] Instance later_campaign_dec a b : base.Decision (later_campaign a b).
Proof. unfold later_campaign. apply _. Defined.
Definition later_link (a b : LinkRecord) : Prop := lk_created_at b <= lk_created_at a.
#[export] Instance later_link_dec a b : base.Decision (later_link a b).
Proof. unfold later_link. apply _. Defined.
Definition by_code (a b : DeepRecord) : Prop := str_leb (dr_code (dl_row a)) (dr_code (dl_row b)) = true.
#[export] Instance by_code_dec a b : base.Decision (by_code a b).
Proof. unfold by_code. apply _. Defined.

Class DriverUuid := { driver_uuid : pystr → option uuid }.

Section Links.
Context {U : Unicode} {AL : AuditLib} {DU : DriverUuid}.

(** ** campaigns.py *)

Definition list_campaigns_handler (app : option uuid) (org : uuid) (st : LinkState) : result ApiError (list CampaignRow) :=
  Ok (merge_sort later_campaign
        (List.filter (λ c, bool_decide (cm_organization_id c = org) && opt_ok (λ a, bool_decide (cm_app_id c = a)) app)
           (ls_campaigns st))).
Definition list_campaigns (rq : ApiRequest) (app : option uuid) := as_role Viewer rq (reading (list_campaigns_handler app)).

Definition create_campaign_handler (b : CampaignCreate) (d : LinkDraws) (p : Principal) (org : uuid) (st : LinkState)
  : result ApiError CampaignRow * LinkState :=
  match (let* _ := raise_if (negb (campaign_body_ok b)) invalid_body in
         let* _ := raise_if (negb (owns_app org (cc_app_id b) st)) app_missing in
         let* _ := raise_if (negb (no_nul (cc_name b) && opt_ok no_nul (cc_source b) && opt_ok no_nul (cc_medium b) &&
                                   opt_ok no_nul (cc_external_campaign_id b))) Crash in
         let* _ := raise_if (existsb (λ c, bool_decide (cm_id c = ld_id d) ||
                                           bool_decide (cm_app_id c = cc_app_id b) && bool_decide (cm_name c = cc_name b))
                               (ls_campaigns st))
                     (Http 409 (py "a campaign with that name already exists for this app")) in
         Ok {| cm_id := ld_id d; cm_organization_id := org; cm_app_id := cc_app_id b; cm_name := cc_name b;
               cm_source := cc_source b; cm_medium := cc_medium b; cm_external_campaign_id := cc_external_campaign_id b;
               cm_status := py "active"; cm_created_at := ld_now d |}) with
  | Err e => (Err e, st)
  | Ok row => (Ok row, with_campaigns (ls_campaigns st ++ [row]) st)
  end.
Definition create_campaign (rq : ApiRequest) (b : CampaignCreate) (d : LinkDraws) := as_role Member rq (create_campaign_handler b d).

Definition list_links_handler (campaign : option uuid) (org : uuid) (st : LinkState) : result ApiError (list LinkRecord) :=
  Ok (merge_sort later_link
        (List.filter (λ r, bool_decide (lr_organization_id (lk_row r) = org) &&
                           opt_ok (λ c, bool_decide (lr_campaign_id (lk_row r) = Some c)) campaign) (ls_links st))).
Definition list_links (rq : ApiRequest) (campaign : option uuid) := as_role Viewer rq (reading (list_links_handler campaign)).

Definition new_link (org app : uuid) (b : TrackingLinkCreate) (d : LinkDraws) : LinkRecord :=
  {| lk_row := {| lr_id := ld_id d; lr_tracking_code := ld_code d; lr_organization_id := org; lr_app_id := app;
                  lr_campaign_id := Some (tc_campaign_id b); lr_android_url := hu_text <$> tc_android_url b;
                  lr_ios_url := hu_text <$> tc_ios_url b; lr_fallback_url := hu_text (tc_fallback_url b);
                  lr_deep_link_path := tc_deep_link_path b; lr_status := py "active" |};
     lk_name := tc_name b; lk_created_at := ld_now d |}.

(** A code that is taken fails the INSERT, which ends the transaction: the next turn of the
    loop raises another exception, that it does not catch. *)
Definition create_link_handler (b : TrackingLinkCreate) (d : LinkDraws) (p : Principal) (org : uuid) (st : LinkState)
  : result ApiError LinkRecord * LinkState :=
  match (let* _ := raise_if (negb (link_body_ok b)) invalid_body in
         let* campaign := or_raise (Http 404 (py "campaign not found"))
                            (List.find (λ c, bool_decide (cm_id c = tc_campaign_id b) && bool_decide (cm_organization_id c = org))
                               (ls_campaigns st)) in
         let* _ := raise_if (negb (no_nul (tc_name b) && opt_ok no_nul (tc_deep_link_path b))) Crash in
         let* _ := raise_if (existsb (λ r, bool_decide (lr_id (lk_row r) = ld_id d) ||
                                           bool_decide (lr_tracking_code (lk_row r) = ld_code d)) (ls_links st)) Crash in
         Ok (new_link org (cm_app_id campaign) b d)) with
  | Err e => (Err e, st)
  | Ok row => (Ok row, with_links (ls_links st ++ [row]) (LinkChanged (ld_code d)) st)
  end.
Definition create_link (rq : ApiRequest) (b : TrackingLinkCreate) (d : LinkDraws) := as_role Member rq (create_link_handler b d).

Definition changes_no_link (b : TrackingLinkUpdate) : bool :=
  negb (is_set (tu_name b) || is_set (tu_fallback_url b) || is_set (tu_android_url b) || is_set (tu_ios_url b) ||
        is_set (tu_deep_link_path b) || is_set (tu_status b)).

(** Pydantic's URLs as text. *)
Definition url_text (c : patch HttpUrl) : patch pystr := option_map (option_map hu_text) c.

(** The columns of the UPDATE; a null for one that takes none fails it. *)
Definition change_link (b : TrackingLinkUpdate) (r : LinkRecord) : result ApiError LinkRecord :=
  let row := lk_row r in
  let* name := patched (λ _, true) (lk_name r) (tu_name b) in
  let* fallback := patched (λ _, true) (lr_fallback_url row) (url_text (tu_fallback_url b)) in
  let* status := patched (λ _, true) (lr_status row) (tu_status b) in
  Ok {| lk_row := {| lr_id := lr_id row; lr_tracking_code := lr_tracking_code row; lr_organization_id := lr_organization_id row;
                     lr_app_id := lr_app_id row; lr_campaign_id := lr_campaign_id row;
                     lr_android_url := patched_null (lr_android_url row) (url_text (tu_android_url b));
                     lr_ios_url := patched_null (lr_ios_url row) (url_text (tu_ios_url b));
                     lr_fallback_url := fallback;
                     lr_deep_link_path := patched_null (lr_deep_link_path row) (tu_deep_link_path b); lr_status := status |};
        lk_name := name; lk_created_at := lk_created_at r |}.

Definition replace_link (org id : uuid) (r : LinkRecord) (l : list LinkRecord) : list LinkRecord :=
  (λ r', if link_of org id r' then r else r') <$> l.

Definition update_link_handler (id : uuid) (b : TrackingLinkUpdate) (p : Principal) (org : uuid) (st : LinkState)
  : result ApiError LinkRecord * LinkState :=
  match (let* _ := raise_if (negb (link_update_ok b)) invalid_body in
         let* _ := raise_if (changes_no_link b) (Http 422 (py "nothing to update")) in
         let* _ := raise_if (sets_nul (tu_name b) || sets_nul (tu_deep_link_path b)) Crash in
         let* r := or_raise no_link (List.find (link_of org id) (ls_links st)) in
         change_link b r) with
  | Err e => (Err e, st)
  | Ok r => (Ok r, with_links (replace_link org id r (ls_links st)) (LinkChanged (lr_tracking_code (lk_row r))) st)
  end.
Definition update_link (rq : ApiRequest) (id : uuid) (b : TrackingLinkUpdate) := as_role Member rq (update_link_handler id b).

Definition disabled_link (r : LinkRecord) : LinkRecord :=
  let row := lk_row r in
  {| lk_row := {| lr_id := lr_id row; lr_tracking_code := lr_tracking_code row; lr_organization_id := lr_organization_id row;
                  lr_app_id := lr_app_id row; lr_campaign_id := lr_campaign_id row; lr_android_url := lr_android_url row;
                  lr_ios_url := lr_ios_url row; lr_fallback_url := lr_fallback_url row;
                  lr_deep_link_path := lr_deep_link_path row; lr_status := py "disabled" |};
     lk_name := lk_name r; lk_created_at := lk_created_at r |}.

Definition disable_link_handler (id : uuid) (p : Principal) (org : uuid) (st : LinkState) : result ApiError unit * LinkState :=
  match List.find (link_of org id) (ls_links st) with
  | None => (Err no_link, st)
  | Some r => (Ok tt, with_links (replace_link org id (disabled_link r) (ls_links st))
                        (LinkChanged (lr_tracking_code (lk_row r))) st)
  end.
Definition disable_link (rq : ApiRequest) (id : uuid) := as_role Member rq (disable_link_handler id).

(** ** deeplinks.py *)

Definition list_deep_links_handler (app_id : pystr) (org : uuid) (st : LinkState) : result ApiError (list DeepRecord) :=
  let* app := or_raise Crash (driver_uuid app_id) in
  Ok (merge_sort by_code
        (List.filter (λ r, bool_decide (dl_organization_id r = org) && bool_decide (dr_app_id (dl_row r) = app)) (ls_deep st))).
Definition list_deep_links (rq : ApiRequest) (app_id : pystr) := as_role Member rq (reading (list_deep_links_handler app_id)).

Definition single_line (s : pystr) : bool := negb (bool_decide (10%N ∈ s)) && negb (bool_decide (13%N ∈ s)).

(** The code is unique in the whole table. *)
Definition insert_deep_link (org app : uuid) (b : DeepLinkIn) (d : LinkDraws) (l : list DeepRecord) : result ApiError DeepRecord :=
  let* _ := raise_if (negb (no_nul (di_destination b) && no_nul (di_fallback_url b))) Crash in
  let* _ := raise_if (existsb (λ r, bool_decide (dl_id r = ld_id d)) l) Crash in
  let* _ := raise_if (existsb (λ r, bool_decide (dr_code (dl_row r) = di_code b)) l)
              (Http 409 (py "code '" ++ di_code b ++ py "' already exists for this app")) in
  Ok {| dl_row := {| dr_app_id := app; dr_code := di_code b; dr_destination := di_destination b;
                     dr_fallback_url := di_fallback_url b |};
        dl_id := ld_id d; dl_organization_id := org; dl_created_at := ld_now d |}.

Definition create_deep_link_handler (b : DeepLinkIn) (d : LinkDraws) (p : Principal) (org : uuid) (st : LinkState)
  : result ApiError DeepRecord * LinkState :=
  match (let* _ := raise_if (negb (deep_body_ok b)) invalid_body in
         let* _ := raise_if (negb (is_registered_code (Some (di_code b))))
                     (Http 422 (py "code may contain only letters, digits, hyphen and underscore")) in
         let* _ := raise_if (negb (single_line (di_destination b))) (Http 422 (py "destination must be a single line")) in
         let* app := or_raise Crash (driver_uuid (di_app_id b)) in
         let* _ := raise_if (negb (owns_app org app st)) app_missing in
         let* row := insert_deep_link org app b d (ls_deep st) in
         let* log := audited (record (ls_audit st) (ld_now d) (ld_audit_id d) org (py "deep_link.created") (py "deep_link")
                       (Some (str_of_uuid (ld_id d))) (Some (pr_user_id p))
                       [(py "code", JStr (di_code b)); (py "app_id", JStr (di_app_id b))]) in
         Ok (row, log)) with
  | Err e => (Err e, st)
  | Ok (row, log) => (Ok row, with_deep (ls_deep st ++ [row]) log (DeepLinksChanged (di_app_id b)) st)
  end.
Definition create_deep_link (rq : ApiRequest) (b : DeepLinkIn) (d : LinkDraws) := as_role Admin rq (create_deep_link_handler b d).

Definition delete_deep_link_handler (deep_link_id : pystr) (d : LinkDraws) (p : Principal) (org : uuid) (st : LinkState)
  : result ApiError unit * LinkState :=
  match (let* id := or_raise Crash (driver_uuid deep_link_id) in
         let* r := or_raise no_deep_link (List.find (deep_of org id) (ls_deep st)) in
         let* log := audited (record (ls_audit st) (ld_now d) (ld_audit_id d) org (py "deep_link.deleted") (py "deep_link")
                       (Some deep_link_id) (Some (pr_user_id p)) []) in
         Ok (id, r, log)) with
  | Err e => (Err e, st)
  | Ok (id, r, log) =>
      (Ok tt, with_deep (List.filter (λ r', negb (deep_of org id r')) (ls_deep st)) log
                (DeepLinksChanged (str_of_uuid (dr_app_id (dl_row r)))) st)
  end.
Definition delete_deep_link (rq : ApiRequest) (deep_link_id : pystr) (d : LinkDraws) :=
  as_role Admin rq (delete_deep_link_handler deep_link_id d).
End Links.

(** ** What the tracker hears *)

(** The task a notification starts. *)
Definition notice_task (n : Notice) : LinkCache.Task :=
  match n with LinkChanged code => ReloadOne code | DeepLinksChanged app_id => ReloadDeep app_id end.

(** [_on_notify] and [_on_deep_notify], before the task. *)
Definition heard (n : Notice) (c : LinkCache) : LinkCache :=
  match n with LinkChanged code => on_notify code c | DeepLinksChanged _ => count_notification c end.

(** What a table says under a key did not change. *)
Definition same (d d' : Db) (k : Key) : Prop :=
  match k with
  | KLink code => ∀ link, active_in (joined d') code link ↔ active_in (joined d) code link
  | KDeep k => ∀ r, deep_key r = k →
      (r ∈ db_deep d' ↔ r ∈ db_deep d) ∧ app_active d' (dr_app_id r) = app_active d (dr_app_id r)
  end.

Section Reloads.
Context {U : Unicode}.

(** A reload a notification of this key starts. *)
Definition reloads (t : LinkCache.Task) (k : Key) : Prop :=
  match t, k with
  | ReloadOne code, KLink code' | ReloadedOne code _, KLink code' => code' = code
  | ReloadDeep app_id, KDeep k | ReloadedDeep app_id _, KDeep k =>
      fst k = app_id ∨ ∃ u, uuid_of_str app_id = Some u ∧ fst k = str_of_uuid u
  | _, _ => False
  end.

(** The rows a task holds would not make the cache wrong under a key.  Those of a resync
    are read by two queries, the links first. *)
Definition harmless (d : Db) (t : LinkCache.Task) (k : Key) : Prop :=
  match t, k with
  | ResyncLinks rows, KLink _ => ∀ deep_rows c, right d (resync rows deep_rows c) k
  | _, _ => ∀ now c c', right d c k → finish now t c = Some c' → right d c' k
  end.

(** A task that will show the tables under a key, whatever the cache holds by then. *)
Definition mends (d : Db) (t : LinkCache.Task) (k : Key) : Prop :=
  reloads t k ∧
  match t, k with
  | ReloadDeep app_id, KDeep k =>
      ∃ u, uuid_of_str app_id = Some u ∧ (fst k = app_id ∨ ∃ r, r ∈ db_deep d ∧ deep_key r = k ∧ dr_app_id r = u)
  | _, _ => ∀ now c c', finish now t c = Some c' → right d c' k
  end.

Lemma right_same d d' c k : same d d' k → right d' c k ↔ right d c k.
Proof.
  destruct k as [code|k]; cbn [same right].
  - intros H. split; intros Hr link; [rewrite <- H | rewrite H]; apply Hr.
  - intros H. split; (intros [Hs Hc]; split;
      [intros t (r & Hr & E & Et)%Hs; exists r; split; [by apply (H r E) | done]
      | intros r Hr E Ha; apply Hc; [by apply (H r E) | done | by (rewrite (proj2 (H r E)) in * || rewrite <- (proj2 (H r E)) in *)]]).
Qed.

Lemma harmless_same d d' t k : same d d' k → harmless d t k → harmless d' t k.
Proof.
  intros Hs. unfold harmless. destruct t, k; intros H; intros *; rewrite ?(right_same d d' _ _ Hs); apply H.
Qed.

Lemma mends_same d d' t k : same d d' k → mends d t k → mends d' t k.
Proof.
  intros Hs [Hr H]. split; [exact Hr |].
  destruct t, k; try (intros now c c' E; apply (right_same d d' _ _ Hs); by eapply H).
  destruct H as (u & Hu & [Hk|(r & Hin & E & Ea)]); exists u; (split; [done |]); [by left |].
  right. exists r. split; [by apply (Hs r E) | done].
Qed.

(** Rows read now are harmless, and those of a reload mend. *)
Lemma fetch_harmless d t t' k : db_ok d → fetch d t = Some t' → harmless d t k → harmless d t' k.
Proof.
  intros Hd. destruct t; cbn [fetch]; try (by intros [=]).
  - intros [= <-] _. intros now c c' Hc [= <-]. by apply reload_one_right.
  - destruct (uuid_of_str app_id) as [u|] eqn:Eu; [| by intros [=]]. intros [= <-] _. intros now c c' Hc [= <-].
    by apply reload_app_links_right.
  - destruct (uuid_of_str app_id) as [u|] eqn:Eu; [| by intros [=]]. intros [= <-] _. intros now c c' Hc [= <-].
    by apply reload_deep_links_right.
  - intros [= <-] _. destruct k; [intros deep_rows c; by apply resync_links_right | by intros now c c' _ [=]].
  - intros [= <-] H now c c' _ [= <-]. destruct k; [apply H | by apply resync_deep_right].
  - intros [= <-] _. intros now c c' Hc [= <-]. by apply load_missing_right.
Qed.

Lemma fetch_mends d t t' k : db_ok d → fetch d t = Some t' → mends d t k → mends d t' k.
Proof.
  intros Hd. destruct t; cbn [fetch]; try (by intros [=]); try (by intros _ [[] _]).
  - intros [= <-] [Hr _]. split; [exact Hr |]. destruct k; [| done]. cbn in Hr. subst. intros now c c' [= <-].
    by apply reload_one_mends.
  - destruct (uuid_of_str app_id) as [u|] eqn:Eu; [| by intros [=]]. intros [= <-] [Hr H]. split; [exact Hr |].
    destruct k; [done |]. destruct H as (u' & Hu & Hk). intros now c c' [= <-].
    apply reload_deep_mends; [done | done |]. rewrite Eu in Hu. injection Hu as <-. exact Hk.
Qed.

Lemma finish_mends d t k now c c' : mends d t k → finish now t c = Some c' → right d c' k.
Proof. intros [Hr H] E. destruct t, k; try done; by eapply H. Qed.

Lemma finish_harmless d t k now c c' : harmless d t k → right d c k → finish now t c = Some c' → right d c' k.
Proof. intros H Hc E. destruct t, k; try done; by eapply H. Qed.
End Reloads.

(** ** What a saved state is *)

Definition https_text (s : pystr) : Prop := starts_with (py "https://") s = true.

(** Every place the link can redirect to. *)
Record https_link (r : LinkRow) : Prop := {
  hl_fallback : https_text (lr_fallback_url r);
  hl_android : ∀ s, lr_android_url r = Some s → https_text s;
  hl_ios : ∀ s, lr_ios_url r = Some s → https_text s
}.

Record links_ok (st : LinkState) : Prop := {
  lok_db : db_ok (database st);
  lok_links : NoDup ((λ r, lr_id (lk_row r)) <$> ls_links st);
  lok_deep : NoDup (dl_id <$> ls_deep st);
  lok_apps : ∀ a, a ∈ ls_apps st → uuid_ok (af_id a);
  lok_campaigns : ∀ c, c ∈ ls_campaigns st → owns_app (cm_organization_id c) (cm_app_id c) st = true;
  lok_https : ∀ r, r ∈ ls_links st → https_link (lk_row r)
}.

(** Pydantic's text of a URL starts with its scheme. *)
Definition url_ok (u : HttpUrl) : Prop := starts_with (hu_scheme u ++ py "://") (hu_text u) = true.

Lemma https_url_text u : https_url u = true → url_ok u → https_text (hu_text u).
Proof. unfold https_url, url_ok, https_text. by intros ->%bool_decide_eq_true. Qed.

(** An app that is owned is one the foreign keys find. *)
Lemma owned_app_exists st org app :
  owns_app org app st = true → is_Some (od_get app (db_apps (database st))) ∧ ∃ a, a ∈ ls_apps st ∧ af_id a = app.
Proof.
  unfold owns_app. intros (a & Hin & Ha)%existsb_exists. apply andb_true_iff in Ha as [Ha _]. apply bool_decide_eq_true in Ha.
  apply list_elem_of_In in Hin. split; [| by exists a]. cbn [database db_apps]. clear -Hin Ha.
  induction (ls_apps st) as [|b l IH]; [by apply elem_of_nil in Hin |]. cbn. case_decide as Hd; [by eexists |].
  apply elem_of_cons in Hin as [->|Hin]; [by rewrite Ha in Hd | by apply IH].
Qed.

(** ** One request *)

Section Requests.
Context {U : Unicode} {AL : AuditLib} {DU : DriverUuid}.

(** The driver reads no more than Python does, and the same. *)
Definition driver_ok : Prop := ∀ s u, driver_uuid s = Some u → uuid_of_str s = Some u.

(** A request leaves a state that is well formed, and for every key under which the tables
    changed a notification whose reload mends it. *)
Definition announced (st st' : LinkState) : Prop :=
  links_ok st' ∧ ∃ ns, ls_notices st' = ls_notices st ++ ns ∧
    ∀ k, same (database st) (database st') k ∨ ∃ n, n ∈ ns ∧ mends (database st') (notice_task n) k.

Lemma same_refl d k : same d d k.
Proof. by destruct k. Qed.

Lemma announced_refl st : links_ok st → announced st st.
Proof. intros Hok. split; [done |]. exists []. rewrite app_nil_r. split; [done |]. intros k. left. apply same_refl. Qed.

Lemma links_announced st l code :
  links_ok (with_links l (LinkChanged code) st) →
  (∀ r, lr_tracking_code r ≠ code → r ∈ lk_row <$> l ↔ r ∈ lk_row <$> ls_links st) →
  announced st (with_links l (LinkChanged code) st).
Proof.
  intros Hok Hother. split; [done |]. exists [LinkChanged code]. split; [done |]. intros k.
  destruct k as [code'|k]; [destruct (decide (code' = code)) as [->|Hne] |].
  - right. exists (LinkChanged code). split; [by left |]. split; [done |]. by intros now c c' [=].
  - left. intros link. unfold active_in. split; intros (rs & Hin & E & Hr); exists rs; (split; [| done]);
      apply joined_elem in Hin as [Hin Ha]; apply joined_elem; (split; [| done]); apply Hother; [congruence | done | congruence | done].
  - left. by intros r _.
Qed.

Lemma create_link_announced b d p org st :
  url_ok (tc_fallback_url b) → (∀ u, tc_android_url b = Some u → url_ok u) → (∀ u, tc_ios_url b = Some u → url_ok u) →
  links_ok st → announced st (snd (create_link_handler b d p org st)).
Proof.
  intros Hf Ha Hi Hok. unfold create_link_handler. destruct (rbind _ _) as [row|e] eqn:E; [| by apply announced_refl].
  cbn [snd]. apply rbind_Ok in E as ([] & Hb%raise_if_Ok%negb_false_iff & E).
  apply rbind_Ok in E as (cm & Hcm%or_raise_Ok & E). apply rbind_Ok in E as (_ & _ & E).
  apply rbind_Ok in E as ([] & Hn%raise_if_Ok & <-%Ok_inj).
  assert (∀ r, r ∈ ls_links st → lr_id (lk_row r) ≠ ld_id d ∧ lr_tracking_code (lk_row r) ≠ ld_code d) as Hnew.
  { intros r Hr. apply not_true_iff_false in Hn. split; intros Heq; apply Hn, existsb_exists; exists r;
      (split; [by apply list_elem_of_In |]); rewrite (bool_decide_true _ Heq), ?orb_true_r; done. }
  apply find_elem in Hcm as [Hcin Hc]. apply andb_true_iff in Hc as [_ Ho]. apply bool_decide_eq_true in Ho.
  destruct (owned_app_exists st _ _ (lok_campaigns _ Hok cm Hcin)) as [Happ (a & Hain & Haid)].
  apply links_announced.
  - destruct Hok as [[Hcodes Hdeep Hla Hda] Hl Hdl Haps Hcs Hh]. unfold link_body_ok in Hb. bprop. split; cbn; try done.
    + split; cbn; try done.
      * rewrite !fmap_app. apply NoDup_app. split; [done |]. split; [| apply NoDup_singleton].
        intros x (r & -> & Hr)%list_elem_of_fmap Hx. apply list_elem_of_fmap in Hr as (r' & -> & Hr').
        apply list_elem_of_singleton in Hx. cbn in Hx. by destruct (Hnew r' Hr').
      * intros r. rewrite fmap_app, elem_of_app. intros [Hr|Hr]; [by apply Hla |].
        apply list_elem_of_singleton in Hr as ->. cbn. split; [exact Happ |]. rewrite <- Haid. by apply Haps.
    + rewrite fmap_app. apply NoDup_app. split; [done |]. split; [| apply NoDup_singleton].
      intros x (r & -> & Hr)%list_elem_of_fmap Hx. apply list_elem_of_singleton in Hx. cbn in Hx. by destruct (Hnew r Hr).
    + intros r Hr. apply elem_of_app in Hr as [Hr|Hr]; [by apply Hh |]. apply list_elem_of_singleton in Hr as ->. split; cbn.
      * by apply https_url_text.
      * intros s. destruct (tc_android_url b) as [u|]; [| done]. intros [= <-]. by apply https_url_text; [| apply Ha].
      * intros s. destruct (tc_ios_url b) as [u|]; [| done]. intros [= <-]. by apply https_url_text; [| apply Hi].
  - intros r Hr. rewrite fmap_app, elem_of_app. split; [| by left]. intros [?|Hx]; [done |].
    by apply list_elem_of_singleton in Hx as ->.
Qed.

(** The row that is found is the only one that is replaced. *)
Lemma replaced_rows {B} (f : LinkRecord → B) org id r r' (l : list LinkRecord) :
  NoDup ((λ r, lr_id (lk_row r)) <$> l) → List.find (link_of org id) l = Some r → f r' = f r →
  f <$> replace_link org id r' l = f <$> l.
Proof.
  intros Hn Hf E. apply find_elem in Hf as [Hin Hr]. unfold replace_link. rewrite <- list_fmap_compose.
  apply list_fmap_ext. intros i x Hx. cbn. destruct (link_of org id x) eqn:Ex; [| done].
  assert (x = r) as ->; [| done]. unfold link_of in Hr, Ex. bprop.
  eapply (NoDup_fmap_elem (λ r, lr_id (lk_row r))); [exact Hn | by eapply list_elem_of_lookup_2 | done | cbn; congruence].
Qed.

Lemma replaced_elem org id r' (l : list LinkRecord) x :
  x ∈ replace_link org id r' l → x = r' ∨ x ∈ l.
Proof.
  unfold replace_link. intros (y & -> & Hy)%list_elem_of_fmap. destruct (link_of org id y); auto.
Qed.

Lemma replace_announced org id r r' st :
  links_ok st → List.find (link_of org id) (ls_links st) = Some r →
  lr_id (lk_row r') = lr_id (lk_row r) → lr_tracking_code (lk_row r') = lr_tracking_code (lk_row r) →
  lr_app_id (lk_row r') = lr_app_id (lk_row r) → https_link (lk_row r') →
  announced st (with_links (replace_link org id r' (ls_links st)) (LinkChanged (lr_tracking_code (lk_row r))) st).
Proof.
  intros Hok Hf Ei Ec Ea Hh'. pose proof (find_elem _ _ _ Hf) as [Hin _].
  pose proof (replaced_rows (λ r, lr_id (lk_row r)) org id r r' _ (lok_links _ Hok) Hf Ei) as Hids.
  pose proof (replaced_rows (λ r, lr_tracking_code (lk_row r)) org id r r' _ (lok_links _ Hok) Hf Ec) as Hcodes.
  apply links_announced.
  - destruct Hok as [[Hc Hdeep Hla Hda] Hl Hdl Haps Hcs Hh]. split; cbn [with_links ls_links ls_deep ls_apps ls_campaigns]; try done.
    + split; cbn [database with_links ls_links ls_deep ls_apps db_links db_deep db_apps] in *; try done.
      * rewrite <- list_fmap_compose in Hc |- *. unfold compose in *. by rewrite Hcodes.
      * intros x (y & -> & [->|Hy]%replaced_elem)%list_elem_of_fmap.
        -- rewrite Ea. apply Hla. by apply list_elem_of_fmap_2.
        -- apply Hla. by apply list_elem_of_fmap_2.
    + by rewrite Hids.
    + intros x [->|Hx]%replaced_elem; [done | by apply Hh].
  - intros x Hx. split.
    + intros (y & -> & [->|Hy]%replaced_elem)%list_elem_of_fmap; [congruence | by apply list_elem_of_fmap_2].
    + intros (y & -> & Hy)%list_elem_of_fmap. apply list_elem_of_fmap. exists y. split; [done |].
      unfold replace_link. apply list_elem_of_fmap. exists y. split; [| done].
      destruct (link_of org id y) eqn:Ey; [| done]. exfalso. apply Hx. f_equal. f_equal.
      apply find_elem in Hf as [_ Hr]. unfold link_of in Hr, Ey. bprop.
      eapply (NoDup_fmap_elem (λ r, lr_id (lk_row r))); [exact (lok_links _ Hok) | done | done | cbn; congruence].
Qed.

Lemma update_link_announced id b p org st :
  (∀ u, tu_fallback_url b = Some (Some u) → url_ok u) → (∀ u, tu_android_url b = Some (Some u) → url_ok u) →
  (∀ u, tu_ios_url b = Some (Some u) → url_ok u) →
  links_ok st → announced st (snd (update_link_handler id b p org st)).
Proof.
  intros Hf Ha Hi Hok. unfold update_link_handler. destruct (rbind _ _) as [r'|e] eqn:E; [| by apply announced_refl].
  cbn [snd]. apply rbind_Ok in E as ([] & Hb%raise_if_Ok%negb_false_iff & E).
  apply rbind_Ok in E as (_ & _ & E). apply rbind_Ok in E as (_ & _ & E).
  apply rbind_Ok in E as (r & Hr%or_raise_Ok & E). unfold change_link in E.
  apply rbind_Ok in E as (name & _ & E). apply rbind_Ok in E as (fallback & Hfb%patched_Ok & E).
  apply rbind_Ok in E as (status & _ & <-%Ok_inj). cbn [lk_row lr_tracking_code].
  pose proof (find_elem _ _ _ Hr) as [Hin _]. destruct (lok_https _ Hok r Hin) as [H1 H2 H3].
  unfold link_update_ok in Hb. bprop. apply (replace_announced org id r); try done. split; cbn.
  - destruct Hfb as [[_ ->]|[Hfb _]]; [done |]. destruct (tu_fallback_url b) as [[u|]|]; try done. injection Hfb as <-.
    by apply https_url_text; [| apply Hf].
  - destruct (tu_android_url b) as [[u|]|]; cbn; [| done | done]. intros s [= <-]. by apply https_url_text; [| apply Ha].
  - destruct (tu_ios_url b) as [[u|]|]; cbn; [| done | done]. intros s [= <-]. by apply https_url_text; [| apply Hi].
Qed.

Lemma disable_link_announced id p org st : links_ok st → announced st (snd (disable_link_handler id p org st)).
Proof.
  intros Hok. unfold disable_link_handler. destruct (List.find _ _) as [r|] eqn:Hr; [| by apply announced_refl].
  cbn [snd]. pose proof (find_elem _ _ _ Hr) as [Hin _]. destruct (lok_https _ Hok r Hin) as [H1 H2 H3].
  by apply (replace_announced org id r).
Qed.

Lemma deep_announced st l log app_id u :
  links_ok (with_deep l log (DeepLinksChanged app_id) st) → uuid_of_str app_id = Some u →
  (∀ r, dr_app_id r ≠ u → r ∈ dl_row <$> l ↔ r ∈ dl_row <$> ls_deep st) →
  (∀ r, r ∈ dl_row <$> ls_deep st → str_of_uuid (dr_app_id r) ≠ app_id → r ∈ dl_row <$> l) →
  announced st (with_deep l log (DeepLinksChanged app_id) st).
Proof.
  intros Hok Hu Hother Hkept. split; [done |]. exists [DeepLinksChanged app_id]. split; [done |]. intros [code|k].
  { left. by intros link. }
  assert ((fst k = app_id ∨ ∃ r, r ∈ dl_row <$> l ∧ deep_key r = k ∧ dr_app_id r = u) →
    mends (database (with_deep l log (DeepLinksChanged app_id) st)) (notice_task (DeepLinksChanged app_id)) (KDeep k)) as Hm.
  { intros Hk. split; [| by exists u]. destruct Hk as [Hk|(r & _ & <- & <-)]; [by left | right; by eexists]. }
  destruct (decide (fst k = app_id)) as [Ek|Ek]; [right; eexists; split; [by left | apply Hm; by left] |].
  destruct (decide (Exists (λ r, deep_key r = k ∧ dr_app_id r = u) (dl_row <$> l))) as [(r & Hr & E)%Exists_exists|Hno].
  { right. eexists. split; [by left | apply Hm; right; by exists r]. }
  left. intros r E. split; [| done]. cbn [database db_deep with_deep ls_deep]. split; intros Hr.
  - apply Hother; [| done]. intros Ea. apply Hno, Exists_exists. by exists r.
  - apply Hkept; [done |]. intros Ea. apply Ek. by rewrite <- E.
Qed.

Lemma create_deep_link_announced b d p org st :
  driver_ok → links_ok st → announced st (snd (create_deep_link_handler b d p org st)).
Proof.
  intros Hdrv Hok. unfold create_deep_link_handler. destruct (rbind _ _) as [[row log]|e] eqn:E; [| by apply announced_refl].
  cbn [snd]. apply rbind_Ok in E as (_ & _ & E). apply rbind_Ok in E as (_ & _ & E). apply rbind_Ok in E as (_ & _ & E).
  apply rbind_Ok in E as (app & Happ%or_raise_Ok & E). apply rbind_Ok in E as ([] & Hown%raise_if_Ok%negb_false_iff & E).
  apply rbind_Ok in E as (row' & Hi & E). apply rbind_Ok in E as (log' & _ & E). injection E as -> ->.
  unfold insert_deep_link in Hi. apply rbind_Ok in Hi as (_ & _ & Hi). apply rbind_Ok in Hi as ([] & Hid%raise_if_Ok & Hi).
  apply rbind_Ok in Hi as ([] & Hcode%raise_if_Ok & <-%Ok_inj).
  destruct (owned_app_exists st org app Hown) as [Hex (a & Hain & Haid)].
  assert (∀ r, r ∈ ls_deep st → dl_id r ≠ ld_id d ∧ dr_code (dl_row r) ≠ di_code b) as Hnew.
  { intros r Hr. apply not_true_iff_false in Hid, Hcode. split; intros Heq; [apply Hid | apply Hcode];
      apply existsb_exists; exists r; (split; [by apply list_elem_of_In | by rewrite bool_decide_true]). }
  apply (deep_announced _ _ _ _ app); [| by apply Hdrv | |].
  - destruct Hok as [[Hcodes Hdeep Hla Hda] Hl Hdl Haps Hcs Hh].
    split; cbn [with_deep ls_links ls_deep ls_apps ls_campaigns]; try done.
    + split; cbn [database with_deep ls_links ls_deep ls_apps db_links db_deep db_apps] in *; try done.
      * rewrite fmap_app, fmap_app. apply NoDup_app. split; [done |]. split; [| apply NoDup_singleton].
        intros x (r & -> & Hr)%list_elem_of_fmap Hx. apply list_elem_of_fmap in Hr as (r' & -> & Hr').
        apply list_elem_of_singleton in Hx. cbn in Hx. injection Hx as _ Hx. by destruct (Hnew r' Hr').
      * intros r. rewrite fmap_app, elem_of_app. intros [Hr|Hr]; [by apply Hda |].
        apply list_elem_of_singleton in Hr as ->. cbn. split; [exact Hex |]. rewrite <- Haid. by apply Haps.
    + rewrite fmap_app. apply NoDup_app. split; [done |]. split; [| apply NoDup_singleton].
      intros x (r & -> & Hr)%list_elem_of_fmap Hx. apply list_elem_of_singleton in Hx. cbn in Hx. by destruct (Hnew r Hr).
  - intros r Hr. rewrite fmap_app, elem_of_app. split; [| by left]. intros [?|Hx]; [done |].
    by apply list_elem_of_singleton in Hx as ->.
  - intros r Hr _. rewrite fmap_app. apply elem_of_app. by left.
Qed.

Lemma delete_deep_link_announced id d p org st :
  links_ok st → announced st (snd (delete_deep_link_handler id d p org st)).
Proof.
  intros Hok. unfold delete_deep_link_handler. destruct (rbind _ _) as [[[i r0] log]|e] eqn:E; [| by apply announced_refl].
  cbn [snd]. apply rbind_Ok in E as (i' & _ & E). apply rbind_Ok in E as (r & Hr%or_raise_Ok & E).
  apply rbind_Ok in E as (log' & _ & E). injection E as -> -> ->. pose proof (find_elem _ _ _ Hr) as [Hin Hof].
  set (l := List.filter (λ r', negb (deep_of org i r')) (ls_deep st)).
  assert (∀ x, x ∈ ls_deep st → x ∉ l → x = r0) as Hgone.
  { intros x Hx Hnot. destruct (deep_of org i x) eqn:Ex.
    - unfold deep_of in Ex, Hof. bprop. eapply (NoDup_fmap_elem dl_id); [exact (lok_deep _ Hok) | done | done | congruence].
    - exfalso. apply Hnot, elem_of_lfilter. by rewrite Ex. }
  assert (∀ x, x ∈ ls_deep st → dr_app_id (dl_row x) ≠ dr_app_id (dl_row r0) → x ∈ l) as Hstay.
  { intros x Hx Hne. destruct (decide (negb (deep_of org i x) = true)) as [Hd|Hd]; [by apply elem_of_lfilter |].
    exfalso. apply Hne. rewrite (Hgone x Hx); [done |]. unfold l. rewrite elem_of_lfilter. by intros [_ ?]. }
  assert (∀ x, x ∈ l → x ∈ ls_deep st) as Hsub by (intros x Hx; by apply elem_of_lfilter in Hx as [Hx _]).
  assert (uuid_ok (dr_app_id (dl_row r0))) as Hu.
  { apply (dok_deep_app _ (lok_db _ Hok)). by apply list_elem_of_fmap_2. }
  apply (deep_announced _ _ _ _ (dr_app_id (dl_row r0))); [| by apply uuid_of_str_of_uuid | |].
  - destruct Hok as [[Hcodes Hdeep Hla Hda] Hl Hdl Haps Hcs Hh].
    split; cbn [with_deep ls_links ls_deep ls_apps ls_campaigns]; try done; [| by apply NoDup_fmap_filter].
    split; cbn [database with_deep ls_links ls_deep ls_apps db_links db_deep db_apps] in *; try done.
    + rewrite <- list_fmap_compose in Hdeep |- *. by apply NoDup_fmap_filter.
    + intros x (y & -> & Hy)%list_elem_of_fmap. apply Hda, list_elem_of_fmap_2, Hsub, Hy.
  - intros x Hx. split; intros (y & -> & Hy)%list_elem_of_fmap; apply list_elem_of_fmap_2; auto.
  - intros x (y & -> & Hy)%list_elem_of_fmap Hne. apply list_elem_of_fmap_2. apply Hstay; [done |]. congruence.
Qed.

Lemma create_campaign_announced b d p org st :
  links_ok st → announced st (snd (create_campaign_handler b d p org st)).
Proof.
  intros Hok. unfold create_campaign_handler. destruct (rbind _ _) as [row|e] eqn:E; [| by apply announced_refl].
  cbn [snd]. apply rbind_Ok in E as (_ & _ & E). apply rbind_Ok in E as ([] & Hown%raise_if_Ok%negb_false_iff & E).
  apply rbind_Ok in E as (_ & _ & E). apply rbind_Ok in E as (_ & _ & <-%Ok_inj). split.
  - destruct Hok as [Hdb Hl Hdl Haps Hcs Hh]. split; try done. cbn [with_campaigns ls_campaigns].
    intros c [Hc|Hc]%elem_of_app; [by apply Hcs |]. by apply list_elem_of_singleton in Hc as ->.
  - exists []. split; [by rewrite app_nil_r |]. intros k. left. apply same_refl.
Qed.
End Requests.

(** ** Histories *)

Inductive link_op :=
| CreateCampaign (rq : ApiRequest) (b : CampaignCreate) (d : LinkDraws)
| CreateLink (rq : ApiRequest) (b : TrackingLinkCreate) (d : LinkDraws)
| UpdateLink (rq : ApiRequest) (id : uuid) (b : TrackingLinkUpdate)
| DisableLink (rq : ApiRequest) (id : uuid)
| CreateDeepLink (rq : ApiRequest) (b : DeepLinkIn) (d : LinkDraws)
| DeleteDeepLink (rq : ApiRequest) (id : pystr) (d : LinkDraws)
| UseAccounts (api : ApiState).

(** Pydantic's part of the bodies. *)
Definition body_urls_ok (op : link_op) : Prop :=
  match op with
  | CreateLink _ b _ =>
      url_ok (tc_fallback_url b) ∧ (∀ u, tc_android_url b = Some u → url_ok u) ∧ (∀ u, tc_ios_url b = Some u → url_ok u)
  | UpdateLink _ _ b =>
      (∀ u, tu_fallback_url b = Some (Some u) → url_ok u) ∧ (∀ u, tu_android_url b = Some (Some u) → url_ok u) ∧
      (∀ u, tu_ios_url b = Some (Some u) → url_ok u)
  | _ => True
  end.

Section LinkHistories.
Context {U : Unicode} {AL : AuditLib} {DU : DriverUuid}.

Definition link_step (s : ApiState * LinkState) (op : link_op) : ApiState * LinkState :=
  let '(api, st) := s in
  match op with
  | CreateCampaign rq b d => let '(_, api, st) := create_campaign rq b d api st in (api, st)
  | CreateLink rq b d => let '(_, api, st) := create_link rq b d api st in (api, st)
  | UpdateLink rq id b => let '(_, api, st) := update_link rq id b api st in (api, st)
  | DisableLink rq id => let '(_, api, st) := disable_link rq id api st in (api, st)
  | CreateDeepLink rq b d => let '(_, api, st) := create_deep_link rq b d api st in (api, st)
  | DeleteDeepLink rq id d => let '(_, api, st) := delete_deep_link rq id d api st in (api, st)
  | UseAccounts api => (api, st)
  end.

Definition link_run (ops : list link_op) (s : ApiState * LinkState) : ApiState * LinkState := fold_left link_step ops s.

Lemma link_step_announced s op :
  driver_ok → body_urls_ok op → links_ok (snd s) → announced (snd s) (snd (link_step s op)).
Proof.
  intros Hdrv Hop Hok. destruct s as [api st]. cbn [snd] in *. pose proof (announced_refl st Hok) as Hrefl.
  assert (∀ A (x : A * ApiState * LinkState), announced st (snd x) →
    announced st (snd (let '(_, api, st) := x in (api, st)))) as Hlet by (by intros A [[a ?] ?]).
  destruct op as [rq b d|rq b d|rq id b|rq id|rq b d|rq id d|api']; cbn [link_step];
    [apply Hlet, (as_role_keeps (announced st)); [exact Hrefl |]; intros p org..| exact Hrefl].
  - by apply create_campaign_announced.
  - destruct Hop as (? & ? & ?). by apply create_link_announced.
  - destruct Hop as (? & ? & ?). by apply update_link_announced.
  - by apply disable_link_announced.
  - by apply create_deep_link_announced.
  - by apply delete_deep_link_announced.
Qed.

(** ** The API and one tracker process

    The tracker hears the notifications in the order of their commits, each some time after
    it, and reloads in tasks of its own, beside its resyncs and its lookups of codes it does
    not know ([LinkCache.Task]). *)

Record Tracked := {
  tk_state : ApiState * LinkState;
  tk_heard : nat;
  tk_cache : LinkCache;
  tk_tasks : list LinkCache.Task
}.

Definition tables (s : Tracked) : Db := database (snd (tk_state s)).
Definition unheard (s : Tracked) : list Notice := drop (tk_heard s) (ls_notices (snd (tk_state s))).

(** Requests, notifications and the steps of the tracker's tasks in any order, in which the
    reloads of one key [k] are neither lost nor overtaken: no reload of it dies, nor ends
    while another task still holds rows that would make the cache wrong about it
    ([stale_resync_revives_a_disabled_link] is such an end; the next resync repairs it,
    [cache_converges]). *)
Inductive tracked_step (k : Key) : Tracked → Tracked → Prop :=
| tracked_request st n c ts op :
    body_urls_ok op →
    tracked_step k {| tk_state := st; tk_heard := n; tk_cache := c; tk_tasks := ts |}
      {| tk_state := link_step st op; tk_heard := n; tk_cache := c; tk_tasks := ts |}
| tracked_notice st n c ts note :
    ls_notices (snd st) !! n = Some note →
    tracked_step k {| tk_state := st; tk_heard := n; tk_cache := c; tk_tasks := ts |}
      {| tk_state := st; tk_heard := S n; tk_cache := heard note c; tk_tasks := ts ++ [notice_task note] |}
| tracked_app st n c ts app_id :
    tracked_step k {| tk_state := st; tk_heard := n; tk_cache := c; tk_tasks := ts |}
      {| tk_state := st; tk_heard := n; tk_cache := count_notification c; tk_tasks := ts ++ [ReloadApp app_id] |}
| tracked_resync st n c ts :
    tracked_step k {| tk_state := st; tk_heard := n; tk_cache := c; tk_tasks := ts |}
      {| tk_state := st; tk_heard := n; tk_cache := c; tk_tasks := ts ++ [Resync] |}
| tracked_miss st n c ts now code :
    LinkCache.get c code = None → fst (is_known_missing c now code) = false →
    tracked_step k {| tk_state := st; tk_heard := n; tk_cache := c; tk_tasks := ts |}
      {| tk_state := st; tk_heard := n; tk_cache := snd (is_known_missing c now code); tk_tasks := ts ++ [LoadMissing code] |}
| tracked_fetch st n c ts1 t ts2 t' :
    fetch (database (snd st)) t = Some t' →
    tracked_step k {| tk_state := st; tk_heard := n; tk_cache := c; tk_tasks := ts1 ++ t :: ts2 |}
      {| tk_state := st; tk_heard := n; tk_cache := c; tk_tasks := ts1 ++ t' :: ts2 |}
| tracked_finish st n c c' ts1 t ts2 now :
    finish now t c = Some c' →
    (reloads t k → ∀ t', t' ∈ ts1 ++ ts2 → harmless (database (snd st)) t' k) →
    tracked_step k {| tk_state := st; tk_heard := n; tk_cache := c; tk_tasks := ts1 ++ t :: ts2 |}
      {| tk_state := st; tk_heard := n; tk_cache := c'; tk_tasks := ts1 ++ ts2 |}
| tracked_death st n c ts1 t ts2 :
    ¬ reloads t k →
    tracked_step k {| tk_state := st; tk_heard := n; tk_cache := c; tk_tasks := ts1 ++ t :: ts2 |}
      {| tk_state := st; tk_heard := n; tk_cache := c; tk_tasks := ts1 ++ ts2 |}.

(** No notification of the key is on its way, and no reload of it. *)
Definition settled (s : Tracked) (k : Key) : Prop :=
  (∀ n, n ∈ unheard s → ¬ reloads (notice_task n) k) ∧ (∀ t, t ∈ tk_tasks s → ¬ reloads t k).

(** The cache is right about the key, or a reload that mends it is to come. *)
Definition followed (k : Key) (s : Tracked) : Prop :=
  links_ok (snd (tk_state s)) ∧ (tk_heard s <= length (ls_notices (snd (tk_state s))))%nat ∧
  ((∃ n, n ∈ unheard s ∧ mends (tables s) (notice_task n) k) ∨
   (∃ t, t ∈ tk_tasks s ∧ mends (tables s) t k) ∨
   (right (tables s) (tk_cache s) k ∧ ∀ t, t ∈ tk_tasks s → harmless (tables s) t k)).

Lemma request_followed k st n c ts op :
  driver_ok → body_urls_ok op →
  followed k {| tk_state := st; tk_heard := n; tk_cache := c; tk_tasks := ts |} →
  followed k {| tk_state := link_step st op; tk_heard := n; tk_cache := c; tk_tasks := ts |}.
Proof.
  intros Hdrv Hop (Hok & Hn & Hk). cbn [tk_state tk_heard] in *.
  destruct (link_step_announced st op Hdrv Hop Hok) as [Hok' (ns & En & Hns)].
  unfold followed, unheard, tables in *. cbn [tk_state tk_heard tk_cache tk_tasks] in *.
  rewrite En, length_app. split; [done |]. split; [lia |]. rewrite drop_app_le by done.
  destruct (Hns k) as [Hs|(note & Hin & Hm)]; [| left; exists note; split; [apply elem_of_app; by right | done]].
  destruct Hk as [(note & Hin & Hm)|[(t & Hin & Hm)|[Hr Hh]]].
  - left. exists note. split; [apply elem_of_app; by left | by eapply mends_same].
  - right; left. exists t. split; [done | by eapply mends_same].
  - right; right. split; [by apply (right_same _ _ _ _ Hs) |]. intros t Ht. eapply harmless_same; [done | by apply Hh].
Qed.

(** A task that has read nothing. *)
Lemma started_harmless d t k :
  match t with ReloadOne _ | ReloadApp _ | ReloadDeep _ | Resync | LoadMissing _ => True | _ => False end → harmless d t k.
Proof. destruct t; try done; intros _; destruct k; by intros now c c' _ [=]. Qed.

Lemma started_followed k st n c c' ts t :
  lc_links c' = lc_links c → lc_deep c' = lc_deep c →
  match t with ReloadOne _ | ReloadApp _ | ReloadDeep _ | Resync | LoadMissing _ => True | _ => False end →
  followed k {| tk_state := st; tk_heard := n; tk_cache := c; tk_tasks := ts |} →
  followed k {| tk_state := st; tk_heard := n; tk_cache := c'; tk_tasks := ts ++ [t] |}.
Proof.
  intros El Ed Ht (Hok & Hn & Hk). split; [done |]. split; [done |]. cbn [tk_tasks tk_cache] in *.
  destruct Hk as [?|[(t' & Hin & Hm)|[Hr Hh]]]; [by left | right; left; exists t'; split; [apply elem_of_app; by left | done] |].
  right; right. split; [by apply (right_ext _ c) |]. intros t' [Hin|Hin]%elem_of_app; [by apply Hh |].
  apply list_elem_of_singleton in Hin as ->. by apply started_harmless.
Qed.

Lemma notice_followed k st n c ts note :
  ls_notices (snd st) !! n = Some note →
  followed k {| tk_state := st; tk_heard := n; tk_cache := c; tk_tasks := ts |} →
  followed k {| tk_state := st; tk_heard := S n; tk_cache := heard note c; tk_tasks := ts ++ [notice_task note] |}.
Proof.
  intros E Hf. destruct (started_followed k st n c (heard note c) ts (notice_task note)) as (Hok & Hn & Hk);
    [by destruct note | by destruct note | by destruct note | exact Hf |].
  unfold followed, unheard, tables in *. cbn [tk_state tk_heard tk_cache tk_tasks] in *.
  split; [done |]. split; [by apply lookup_lt_Some in E |]. rewrite (drop_S _ _ _ E) in Hk.
  destruct Hk as [(note' & [->|Hin]%elem_of_cons & Hm)|Hk]; [| left; by exists note' | by right].
  right; left. exists (notice_task note). split; [apply elem_of_app; right; by left | done].
Qed.

(** What else is under way besides one task. *)
Lemma elem_of_others {A} (x t : A) l1 l2 : x ∈ l1 ++ t :: l2 ↔ x = t ∨ x ∈ l1 ++ l2.
Proof. rewrite !elem_of_app, elem_of_cons. tauto. Qed.

Lemma fetch_followed k st n c ts1 t ts2 t' :
  fetch (database (snd st)) t = Some t' →
  followed k {| tk_state := st; tk_heard := n; tk_cache := c; tk_tasks := ts1 ++ t :: ts2 |} →
  followed k {| tk_state := st; tk_heard := n; tk_cache := c; tk_tasks := ts1 ++ t' :: ts2 |}.
Proof.
  intros E (Hok & Hn & Hk). split; [done |]. split; [done |]. unfold tables in *. cbn [tk_tasks tk_cache tk_state] in *.
  setoid_rewrite elem_of_others. setoid_rewrite elem_of_others in Hk.
  destruct Hk as [?|[(t0 & [->|Hin] & Hm)|[Hr Hh]]]; [by left | right; left.. | right; right].
  - exists t'. split; [by left | eapply fetch_mends; [apply Hok | done | done]].
  - exists t0. split; [by right | done].
  - split; [done |]. intros t0 [->|Hin]; [| apply Hh; by right].
    eapply fetch_harmless; [apply Hok | done | apply Hh; by left].
Qed.

Lemma finish_followed k st n c c' ts1 t ts2 now :
  finish now t c = Some c' → (reloads t k → ∀ t', t' ∈ ts1 ++ ts2 → harmless (database (snd st)) t' k) →
  followed k {| tk_state := st; tk_heard := n; tk_cache := c; tk_tasks := ts1 ++ t :: ts2 |} →
  followed k {| tk_state := st; tk_heard := n; tk_cache := c'; tk_tasks := ts1 ++ ts2 |}.
Proof.
  intros E Ho (Hok & Hn & Hk). split; [done |]. split; [done |]. unfold tables in *. cbn [tk_tasks tk_cache tk_state] in *.
  setoid_rewrite elem_of_others in Hk.
  destruct Hk as [?|[(t0 & [->|Hin] & Hm)|[Hr Hh]]]; [by left | | right; left; by exists t0 | right; right].
  - right; right. split; [by eapply finish_mends | apply Ho, Hm].
  - split; [eapply finish_harmless; [apply Hh; by left | done | done] |]. intros t0 Hin. apply Hh. by right.
Qed.

Lemma death_followed k st n c ts1 t ts2 :
  ¬ reloads t k →
  followed k {| tk_state := st; tk_heard := n; tk_cache := c; tk_tasks := ts1 ++ t :: ts2 |} →
  followed k {| tk_state := st; tk_heard := n; tk_cache := c; tk_tasks := ts1 ++ ts2 |}.
Proof.
  intros Ho (Hok & Hn & Hk). split; [done |]. split; [done |]. unfold tables in *. cbn [tk_tasks tk_cache tk_state] in *.
  setoid_rewrite elem_of_others in Hk.
  destruct Hk as [?|[(t0 & [->|Hin] & Hm)|[Hr Hh]]]; [by left | by destruct (Ho (proj1 Hm)) | right; left; by exists t0 |].
  right; right. split; [done |]. intros t0 Hin. apply Hh. by right.
Qed.

Lemma tracked_step_followed k s s' : driver_ok → tracked_step k s s' → followed k s → followed k s'.
Proof.
  intros Hdrv []; [by apply request_followed | by apply notice_followed | by apply started_followed
    | by apply started_followed | | by apply fetch_followed | by eapply finish_followed | by apply death_followed].
  destruct (known_missing_same c now code). by apply started_followed.
Qed.

(** (C18) Changes reach the tracker.  From a tracker that showed the tables, through any
    requests, late notifications and racing reloads, resyncs and lookups: once the
    notifications of a tracking code or of an app's deep link were heard and their reloads
    have ended, what the cache has under it is what the tables say, the active link with its
    own targets or nothing, and a link that was disabled is gone; unless one of those
    reloads failed or ended before a task that had read the tables earlier, which the next
    resync repairs.  Every target a link has is an https URL throughout. *)
Theorem changes_reach_the_tracker k s s' :
  driver_ok → links_ok (snd (tk_state s)) → coherent (tables s) (tk_cache s) →
  tk_tasks s = [] → tk_heard s = length (ls_notices (snd (tk_state s))) → rtc (tracked_step k) s s' →
  (∀ r, r ∈ ls_links (snd (tk_state s')) → https_link (lk_row r)) ∧
  (settled s' k →
     right (tables s') (tk_cache s') k ∧
     ∀ r, r ∈ ls_links (snd (tk_state s')) → k = KLink (lr_tracking_code (lk_row r)) →
       lr_status (lk_row r) = py "disabled" → LinkCache.get (tk_cache s') (lr_tracking_code (lk_row r)) = None).
Proof.
  intros Hdrv Hok Hc Et En Hrun.
  assert (followed k s') as (Hok' & _ & Hk).
  { assert (followed k s) as Hs.
    { split; [done |]. split; [lia |]. right; right. split; [by apply coherent_right |].
      rewrite Et. by intros t ?%elem_of_nil. }
    clear -Hdrv Hs Hrun. induction Hrun; eauto using tracked_step_followed. }
  split; [apply Hok' |]. intros [Hno Hnone].
  destruct Hk as [(n & Hin & Hm)|[(t & Hin & Hm)|[Hr _]]];
    [by destruct (Hno n Hin (proj1 Hm)) | by destruct (Hnone t Hin (proj1 Hm)) |].
  split; [exact Hr |]. intros r Hin -> Hdis. destruct (LinkCache.get _ _) as [link|] eqn:Eg; [| done]. exfalso.
  apply Hr in Eg as (rs & [Hin' _]%joined_elem & Ecode & <- & Hact). cbn [tables database db_links] in Hin'.
  apply list_elem_of_fmap in Hin' as (r' & Er & Hr').
  assert (lk_row r' = lk_row r) as E.
  { eapply (NoDup_fmap_elem lr_tracking_code); [exact (dok_codes _ (lok_db _ Hok')) | by apply list_elem_of_fmap_2 |
      by apply list_elem_of_fmap_2 | congruence]. }
  cbn [to_link cl_active] in Hact. rewrite Er, E, Hdis in Hact. done.
Qed.
End LinkHistories.

(** ** Witnesses *)

Definition toy_driver : DriverUuid := {| driver_uuid := @uuid_of_str ascii_unicode |}.

Lemma toy_driver_ok : @driver_ok ascii_unicode toy_driver.
Proof. intros s u E. exact E. Qed.

Definition ex_link_rq : ApiRequest := Access.ex_request 4 1.
Definition ex_code (n : nat) : pystr := generate_tracking_code (replicate CODE_LENGTH n).
Definition ex_link_draw (id : uuid) (n : nat) : LinkDraws :=
  {| ld_id := id; ld_picks := replicate CODE_LENGTH n; ld_audit_id := id; ld_now := 5 |}.
Definition ex_url (s : string) : HttpUrl := {| hu_scheme := py "https"; hu_text := py s |}.
Definition ex_link_body : TrackingLinkCreate :=
  {| tc_campaign_id := 71; tc_name := py "link"; tc_fallback_url := ex_url "https://shop.example/"; tc_android_url := None;
     tc_ios_url := None; tc_deep_link_path := None |}.
Definition ex_link_state : LinkState :=
  {| ls_apps := [{| af_id := 9; af_organization_id := 101; af_status := py "active" |};
                 {| af_id := 10; af_organization_id := 102; af_status := py "active" |}];
     ls_campaigns := []; ls_links := []; ls_deep := []; ls_audit := []; ls_notices := [] |}.

Definition ex_campaign : CampaignCreate :=
  {| cc_app_id := 9; cc_name := py "c"; cc_source := None; cc_medium := None; cc_external_campaign_id := None |}.

Definition ex_setup : list link_op :=
  [CreateCampaign ex_link_rq ex_campaign (ex_link_draw 71 0);
   CreateLink ex_link_rq ex_link_body (ex_link_draw 72 0);
   CreateLink ex_link_rq ex_link_body (ex_link_draw 73 1);
   DisableLink ex_link_rq 72].

Abbreviation ex_link_run ops := (@link_run ascii_unicode toy_audit toy_driver ops (ex_state, ex_link_state)).
Lemma ex_link_state_ok : links_ok ex_link_state.
Proof.
  split; try (by constructor); try (by intros ? ?%elem_of_nil).
  - split; try (by constructor); by intros ? ?%elem_of_nil.
  - intros a Ha. apply list_elem_of_In in Ha. cbn in Ha. destruct Ha as [<-|[<-|[]]]; by vm_compute.
Qed.

(** A link is created and disabled; the reload of its creation has read it active and ends
    after the disabling was heard. *)
Definition ex_create : list link_op := take 2 ex_setup.
Definition ex_disable : list link_op := ex_create ++ [DisableLink ex_link_rq 72].
Definition ex_link_tables (ops : list link_op) : Db := database (snd (ex_link_run ops)).
Definition ex_read (ops : list link_op) : LinkCache.Task := ReloadedOne (ex_code 0) (load_one (ex_link_tables ops) (ex_code 0)).
Definition ex_heard : LinkCache := on_notify (ex_code 0) (on_notify (ex_code 0) empty_cache).
Definition ex_shown (ops : list link_op) (c : LinkCache) : LinkCache :=
  reload_one (ex_code 0) (load_one (ex_link_tables ops) (ex_code 0)) c.

Abbreviation ex_tracked st n c ts := {| tk_state := st; tk_heard := n; tk_cache := c; tk_tasks := ts |}.

Lemma ex_tracked_run :
  rtc (@tracked_step ascii_unicode toy_audit toy_driver (KLink (ex_code 0)))
    (ex_tracked (ex_state, ex_link_state) 0 empty_cache [])
    (ex_tracked (ex_link_run ex_disable) 2 (ex_shown ex_disable (ex_shown ex_create ex_heard)) []).
Proof.
  eapply rtc_l; [eapply tracked_request with (op := CreateCampaign ex_link_rq ex_campaign (ex_link_draw 71 0)); exact I |].
  eapply rtc_l; [eapply tracked_request with (op := CreateLink ex_link_rq ex_link_body (ex_link_draw 72 0));
    split; [vm_compute; reflexivity | split; intros u Hu; discriminate Hu] |].
  change (link_step _ (CreateLink _ _ _)) with (ex_link_run ex_create).
  eapply rtc_l; [eapply tracked_notice with (note := LinkChanged (ex_code 0)); vm_compute; reflexivity |].
  eapply rtc_l; [eapply (tracked_fetch _ _ _ _ [] _ [] (ex_read ex_create)); reflexivity |].
  eapply rtc_l; [eapply tracked_request with (op := DisableLink ex_link_rq 72); exact I |].
  change (link_step _ (DisableLink _ _)) with (ex_link_run ex_disable).
  eapply rtc_l; [eapply tracked_notice with (note := LinkChanged (ex_code 0)); vm_compute; reflexivity |].
  eapply rtc_l; [eapply (tracked_finish _ _ _ _ _ [] (ex_read ex_create) [ReloadOne (ex_code 0)] 0); [reflexivity |] |].
  { intros _ t' ->%list_elem_of_singleton. by apply started_harmless. }
  eapply rtc_l; [eapply (tracked_fetch _ _ _ _ [] (ReloadOne (ex_code 0)) [] (ex_read ex_disable)); reflexivity |].
  apply rtc_once. eapply (tracked_finish _ _ _ _ _ [] (ex_read ex_disable) [] 0); [reflexivity |].
  by intros _ t' ?%elem_of_nil.
Qed.

Lemma changes_reach_the_tracker_witness :
  is_Some (LinkCache.get (ex_shown ex_create ex_heard) (ex_code 0)) ∧
  LinkCache.get (ex_shown ex_disable (ex_shown ex_create ex_heard)) (ex_code 0) = None.
Proof.
  split; [vm_compute; by eexists |].
  destruct (@changes_reach_the_tracker ascii_unicode toy_audit toy_driver (KLink (ex_code 0))
    (ex_tracked (ex_state, ex_link_state) 0 empty_cache [])
    (ex_tracked (ex_link_run ex_disable) 2 (ex_shown ex_disable (ex_shown ex_create ex_heard)) []) toy_driver_ok
    ex_link_state_ok) as [_ Hset].
  - split; cbn [tk_cache].
    + intros code link. split; [intros Hl; unfold LinkCache.get in Hl; cbn in Hl; by rewrite lookup_empty in Hl |].
      intros (rs & Hin & _). by apply elem_of_nil in Hin.
    + intros k t Hl. cbn in Hl. by rewrite lookup_empty in Hl.
    + intros r Hr. by apply elem_of_nil in Hr.
  - reflexivity.
  - reflexivity.
  - exact ex_tracked_run.
  - destruct Hset as [_ Hdis].
    { split; [| by intros t ?%elem_of_nil]. intros n Hn. exfalso.
      assert (unheard (ex_tracked (ex_link_run ex_disable) 2 empty_cache []) = []) as E by (vm_compute; reflexivity).
      unfold unheard in E, Hn. cbn [tk_heard tk_state] in E, Hn. rewrite E in Hn. by apply elem_of_nil in Hn. }
    assert (List.find (λ r, bool_decide (lr_tracking_code (lk_row r) = ex_code 0 ∧ lr_status (lk_row r) = py "disabled"))
              (ls_links (snd (ex_link_run ex_disable))) ≠ None) as Hf by (vm_compute; discriminate).
    destruct (List.find _ _) as [r|] eqn:Er; [| by destruct Hf]. apply find_elem in Er as [Hin [Ec Es]%bool_decide_eq_true].
    rewrite <- Ec. apply Hdis; [exact Hin | by rewrite Ec | exact Es].
Defined.

(** ** What the code does beyond its documentation *)

Abbreviation ex_deep b := (@create_deep_link ascii_unicode toy_audit toy_driver ex_link_rq b (ex_link_draw 90 2) ex_state).
Definition ex_deep_body (fallback : string) : DeepLinkIn :=
  {| di_app_id := str_of_uuid 9; di_code := py "promo"; di_destination := py "/promo"; di_fallback_url := py fallback |}.

(** *** A tracking code that is taken

    The loop that tries another code runs in the transaction its failed INSERT has ended: a
    collision is a server error. *)
Lemma taken_code_is_a_server_error :
  let st := snd (ex_link_run ex_setup) in
  fst (fst (@create_link ascii_unicode ex_link_rq ex_link_body (ex_link_draw 74 1) ex_state st)) = Err Crash.
Proof. vm_compute. reflexivity. Qed.

(** *** A code of another organisation

    Codes are unique across all organisations: one that somebody else registered is refused
    as if this app had it. *)
Definition ex_their_code : LinkState :=
  {| ls_apps := ls_apps ex_link_state; ls_campaigns := []; ls_links := [];
     ls_deep := [{| dl_row := {| dr_app_id := 10; dr_code := py "promo"; dr_destination := py "/x";
                                 dr_fallback_url := py "https://other.example/" |};
                    dl_id := 80; dl_organization_id := 102; dl_created_at := 0 |}];
     ls_audit := []; ls_notices := [] |}.

Lemma code_of_another_organization_conflicts :
  fst (fst (ex_deep (ex_deep_body "https://shop.example/") ex_their_code)) =
    Err (Http 409 (py "code 'promo' already exists for this app")) ∧
  fst (fst (@list_deep_links ascii_unicode toy_driver ex_link_rq (str_of_uuid 9) ex_state ex_their_code)) = Ok [].
Proof. split; vm_compute; reflexivity. Qed.

(** *** The fallback of a deep link

    It is where people who do not install are redirected, and nothing checks it: neither
    that it is https, as for a tracking link, nor that it is one line, as the
    destination. *)
Lemma any_fallback_is_saved :
  match ex_deep (ex_deep_body "javascript:alert(1)") ex_link_state with
  | (Ok r, _, _) => dr_fallback_url (dl_row r) = py "javascript:alert(1)"
  | _ => False
  end.
Proof. vm_compute. reflexivity. Qed.

(** *** An explicit null *)
Lemma null_fallback_is_a_server_error :
  let st := snd (ex_link_run ex_setup) in
  fst (fst (@update_link ascii_unicode ex_link_rq 73
    {| tu_name := None; tu_fallback_url := Some None; tu_android_url := None; tu_ios_url := None;
       tu_deep_link_path := None; tu_status := None |} ex_state st)) = Err Crash.
Proof. vm_compute. reflexivity. Qed.
