(* ===== verification/SqlText.v ===== *)
(** * SQL assembled from identifiers (mmp_db/sql.py)

    The only place where a name becomes SQL text.  Every builder validates the identifiers
    it is given and returns the statement; [where], [suffix] and [on_conflict] are literal
    fragments of the callers.  The column lists are shown to read back as the names they
    were built from, so a validated name cannot change the statement around it. *)

From S2P Require Import Prelude Ids Keys Signing.

#[local] Open Scope Z_scope.
#[local] Open Scope mmp_scope.

(** [UnsafeIdentifierError] *)
Inductive SqlTextError := UnsafeIdentifier (name : pystr) | JoinedString.

Definition ident_start (c : N) : bool := is_lower_ascii c || N.eqb c 95.
Definition ident_char (c : N) : bool := ident_start c || is_digit_ascii c.

(** [[a-z_][a-z0-9_]{0,62}] *)
Definition plain_identifier (s : pystr) : bool :=
  match s with
  | [] => false
  | c :: rest => ident_start c && forallb ident_char rest && (length rest <=? 62)%nat
  end.

(** [IDENTIFIER.match]: the closing [$] also matches before a final line break. *)
Definition identifier_matches (s : pystr) : bool :=
  plain_identifier s ||
  match reverse s with 10%N :: r => plain_identifier (reverse r) | _ => false end.

Definition identifier (name : pystr) : result SqlTextError pystr :=
  if identifier_matches name then Ok name else Err (UnsafeIdentifier name).

Fixpoint identifiers (names : list pystr) : result SqlTextError (list pystr) :=
  match names with
  | [] => Ok []
  | n :: names => let* n := identifier n in let* names := identifiers names in Ok (n :: names)
  end.

(** What a caller may pass for the names: a string is refused. *)
Inductive Names := Text (s : pystr) | NameList (l : list pystr).

Definition columns (names : Names) : result SqlTextError pystr :=
  match names with
  | Text _ => Err JoinedString
  | NameList l => let* l := identifiers l in Ok (py_join (py ", ") l)
  end.

Definition nonempty_str (s : pystr) : bool := match s with [] => false | _ => true end.

Definition select (table : pystr) (names : Names) (where_ suffix : pystr) : result SqlTextError pystr :=
  let* cols := columns names in
  let* t := identifier table in
  let statement := py "SELECT " ++ cols ++ py " FROM " ++ t in
  let statement := if nonempty_str where_ then statement ++ py " WHERE " ++ where_ else statement in
  Ok (if nonempty_str suffix then statement ++ py " " ++ suffix else statement).

Definition count_rows (table : pystr) : result SqlTextError pystr :=
  let* t := identifier table in Ok (py "SELECT count(*) FROM " ++ t).

Definition drop_table (table : pystr) (if_exists : bool) : result SqlTextError pystr :=
  let* t := identifier table in
  Ok (py "DROP TABLE " ++ (if if_exists then py "IF EXISTS " else []) ++ t).

Definition delete_where (table predicate : pystr) : result SqlTextError pystr :=
  let* t := identifier table in Ok (py "DELETE FROM " ++ t ++ py " WHERE " ++ predicate).

Definition truncate (table : pystr) : result SqlTextError pystr :=
  let* t := identifier table in Ok (py "TRUNCATE " ++ t).

Definition create_temp_like (table like : pystr) : result SqlTextError pystr :=
  let* t := identifier table in
  let* l := identifier like in
  Ok (py "CREATE TEMP TABLE IF NOT EXISTS " ++ t ++ py " (LIKE " ++ l ++
      py " INCLUDING DEFAULTS) ON COMMIT PRESERVE ROWS").

Definition insert_select (target source : pystr) (names : Names) (on_conflict : pystr) : result SqlTextError pystr :=
  let* projection := columns names in
  let* into := identifier target in
  let* frm := identifier source in
  let statement := py "INSERT INTO " ++ into ++ py " (" ++ projection ++ py ") SELECT " ++ projection ++
                   py " FROM " ++ frm in
  Ok (if nonempty_str on_conflict then statement ++ py " " ++ on_conflict else statement).

Definition with_returning (statement : pystr) (names : Names) : result SqlTextError pystr :=
  let* cols := columns names in Ok (statement ++ py " RETURNING " ++ cols).

(** [enumerate(changed, start)] *)
Fixpoint assignments (index : Z) (changed : list pystr) : result SqlTextError (list pystr) :=
  match changed with
  | [] => Ok []
  | n :: changed =>
      let* n := identifier n in
      let* rest := assignments (index + 1) changed in
      Ok ((n ++ py " = $" ++ py_str_int index) :: rest)
  end.

(** An empty [returning] is as good as none. *)
Definition update (table : pystr) (changed : list pystr) (where_ : pystr) (returning : list pystr) (start : Z)
  : result SqlTextError pystr :=
  let* l := assignments start changed in
  let* t := identifier table in
  let statement := py "UPDATE " ++ t ++ py " SET " ++ py_join (py ", ") l ++
                   py ", updated_at = now() WHERE " ++ where_ in
  match returning with [] => Ok statement | _ => with_returning statement (NameList returning) end.

(** ** Lemmas *)

Definition safe_char (c : N) : Prop := ident_char c = true ∨ c = 10%N.

Lemma plain_chars s : plain_identifier s = true → s ≠ [] ∧ Forall (λ c, ident_char c = true) s ∧ (length s <= 63)%nat.
Proof.
  destruct s as [|c s]; [done |]. cbn. rewrite !andb_true_iff, forallb_forall. intros [[Hc Hs] Hl%Nat.leb_le].
  split; [done |]. split; [| cbn; lia]. constructor; [unfold ident_char; by rewrite Hc |].
  apply Forall_forall. intros x Hx%list_elem_of_In. by apply Hs.
Qed.

Lemma identifier_ok n m : identifier n = Ok m → m = n ∧ n ≠ [] ∧ Forall safe_char n ∧ (length n <= 64)%nat.
Proof.
  unfold identifier. destruct (identifier_matches n) eqn:E; [| done]. intros <-%Ok_inj. split; [done |].
  unfold identifier_matches in E. apply orb_true_iff in E as [E|E].
  - apply plain_chars in E as (Hne & Hf & Hl). split; [done |]. split; [| lia].
    eapply Forall_impl; [exact Hf |]. by left.
  - destruct (reverse n) as [|c r] eqn:Er; [done |].
    assert (n = reverse r ++ [c]) as -> by (rewrite <- reverse_cons, <- Er; by rewrite reverse_involutive).
    assert (c = 10%N ∧ plain_identifier (reverse r) = true) as [-> Hp].
    { destruct c as [|p]; [done |]. do 4 (destruct p as [p|p|]; try done). }
    apply plain_chars in Hp as (Hne & Hf & Hl). rewrite length_app in *. cbn. split; [by destruct (reverse r) |].
    split; [| lia]. apply Forall_app. split; [eapply Forall_impl; [exact Hf | by left] | repeat constructor; by right].
Qed.

Lemma identifiers_ok l l' : identifiers l = Ok l' → l' = l ∧ Forall (λ n, n ≠ [] ∧ Forall safe_char n) l.
Proof.
  revert l'. induction l as [|n l IH]; intros l' H; cbn in H; [by apply Ok_inj in H as <- |].
  apply rbind_Ok in H as (n' & (-> & Hne & Hf & _)%identifier_ok & (l1 & (-> & Hl)%IH & <-%Ok_inj)%rbind_Ok).
  split; [done |]. by constructor.
Qed.

(** A character no identifier has. *)
Lemma lacks c n : Forall safe_char n → ident_char c = false → c ≠ 10%N → c ∉ n.
Proof. rewrite Forall_forall. intros Hf Hc Hn Hin. destruct (Hf c Hin); congruence. Qed.

Lemma join_spaced l :
  py_join (py ", ") l = py_join [44%N] (match l with [] => [] | n :: l => n :: ((λ m, 32%N :: m) <$> l) end).
Proof.
  destruct l as [|n l]; [done |]. revert n. induction l as [|m l IH]; intros n; [done |].
  assert (∀ X, py_join [44%N] ((32%N :: m) :: X) = 32%N :: py_join [44%N] (m :: X)) as Hc by (by intros []).
  change (py_join (py ", ") (n :: m :: l)) with (n ++ 44%N :: 32%N :: py_join (py ", ") (m :: l)).
  rewrite IH, fmap_cons. change (py_join [44%N] (n :: ?y :: ?X)) with (n ++ 44%N :: py_join [44%N] (y :: X)).
  by rewrite Hc.
Qed.

(** The names in a comma-separated list. *)
Definition read_list (s : pystr) : list pystr := removeprefix (py " ") <$> py_split 44 s.

Lemma read_join l :
  l ≠ [] → Forall (λ n, n ≠ [] ∧ (44%N ∉ n) ∧ head n ≠ Some 32%N) l → read_list (py_join (py ", ") l) = l.
Proof.
  intros Hne Hf. unfold read_list. rewrite join_spaced. destruct l as [|n l]; [done |].
  apply Forall_cons in Hf as [(Hn & Hc & Hs) Hf]. rewrite py_split_join; [| done |].
  - rewrite fmap_cons. f_equal.
    + destruct n as [|c n]; [done |]. unfold removeprefix.
      change (starts_with (py " ") (c :: n)) with (N.eqb 32 c && true).
      destruct (N.eqb_spec 32 c) as [<-|]; [by destruct Hs | done].
    + rewrite <- list_fmap_compose. etrans; [| apply list_fmap_id]. apply list_fmap_ext. intros i m _.
      apply (removeprefix_app (py " ")).
  - constructor; [done |]. apply Forall_fmap. eapply Forall_impl; [exact Hf |]. intros m (_ & Hm & _). cbn.
    by apply not_elem_of_cons.
Qed.

Lemma safe_item n : n ≠ [] ∧ Forall safe_char n → n ≠ [] ∧ (44%N ∉ n) ∧ head n ≠ Some 32%N.
Proof.
  intros [Hne Hf]. split; [done |]. split; [by apply (lacks 44) |]. destruct n as [|c n]; [done |].
  apply Forall_cons in Hf as [[Hc|Hc] _]; intros [= ->]; done.
Qed.

(** An assignment: the column, and the number of the parameter bound to it. *)
Definition read_assignment (s : pystr) : option (pystr * Z) :=
  match py_split 32 s with
  | [n; [61%N]; 36%N :: d] => (λ k, (n, k)) <$> py_int (U := ascii_unicode) 10 d
  | _ => None
  end.

Lemma digits_only z c : 0 <= z → c ∈ py_str_int z → is_digit_ascii c = true.
Proof.
  intros Hz Hin. unfold py_str_int in Hin. rewrite (proj2 (Z.ltb_ge _ 0)) in Hin by lia.
  pose proof (dec_digits_chars (S (N.size_nat (Z.abs_N z))) (Z.abs_N z) [] (List.Forall_nil _)) as Hf.
  rewrite Forall_forall in Hf. by apply Hf.
Qed.

Lemma read_assignment_of n k :
  n ≠ [] ∧ Forall safe_char n → 0 <= k → read_assignment (n ++ py " = $" ++ py_str_int k) = Some (n, k).
Proof.
  intros [Hne Hf] Hk. unfold read_assignment.
  change (n ++ py " = $" ++ py_str_int k) with (n ++ 32%N :: ([61%N] ++ 32%N :: (36%N :: py_str_int k))).
  rewrite py_split_app by by apply (lacks 32). rewrite py_split_app by (by apply (bool_decide_unpack _); vm_compute).
  rewrite py_split_absent.
  - by rewrite (@py_int_str ascii_unicode) by done.
  - intros [|Hin]%elem_of_cons; [done |]. apply digits_only in Hin; done.
Qed.

Lemma assignments_ok k l l' :
  0 <= k → assignments k l = Ok l' →
  Forall2 (λ s p, read_assignment s = Some p) l' (zip l (Z.of_nat <$> seq (Z.to_nat k) (length l))) ∧
  Forall (λ n, n ≠ [] ∧ (44%N ∉ n) ∧ head n ≠ Some 32%N) l' ∧ length l' = length l.
Proof.
  revert k l'. induction l as [|n l IH]; intros k l' Hk H; cbn [assignments] in H.
  { apply Ok_inj in H as <-. repeat constructor. }
  apply rbind_Ok in H as (n' & (-> & Hne & Hf & _)%identifier_ok & (l1 & Hl & <-%Ok_inj)%rbind_Ok).
  apply IH in Hl as (H1 & H2 & H3); [| lia]. cbn [length seq fmap list_fmap zip]. split; [| split].
  - constructor.
    + rewrite Z2Nat.id by done. by apply read_assignment_of.
    + replace (S (Z.to_nat k)) with (Z.to_nat (k + 1)) by lia. exact H1.
  - constructor; [| done]. split; [by destruct n |]. split.
    + intros [Hin|[Hin|Hin]%elem_of_app]%elem_of_app.
      * by apply (lacks 44) in Hin.
      * revert Hin. by apply (bool_decide_unpack _); vm_compute.
      * by apply digits_only in Hin.
    + destruct n as [|c n]; [done |]. cbn. apply Forall_cons in Hf as [[Hc|Hc] _]; intros [= ->]; done.
  - cbn. by rewrite H3.
Qed.

(** Names cannot change a statement.  A column list that is built reads back as exactly
    the names it was built from; and the assignments of an update read back as its columns
    in order, each bound to its own parameter, the numbers following one another from
    [start].  A name that is not an identifier is refused. *)
Theorem built_names_read_back names s table changed where_ returning start u :
  (columns (NameList names) = Ok s → names ≠ [] → read_list s = names) ∧
  (update table changed where_ returning start = Ok u → 0 <= start → changed ≠ [] →
   ∃ set rest, u = py "UPDATE " ++ table ++ py " SET " ++ set ++ rest ∧
     Forall2 (λ item p, read_assignment item = Some p) (read_list set)
       (zip changed (Z.of_nat <$> seq (Z.to_nat start) (length changed)))) ∧
  (∀ n, identifier_matches n = false → n ∈ names →
   ∃ e, columns (NameList names) = Err e).
Proof.
  split; [| split].
  - intros (l & (-> & Hf)%identifiers_ok & <-%Ok_inj)%rbind_Ok Hne. apply read_join; [done |].
    eapply Forall_impl; [exact Hf |]. apply safe_item.
  - intros (l & Hl & (t & (-> & _)%identifier_ok & Hu)%rbind_Ok)%rbind_Ok Hs Hne.
    apply assignments_ok in Hl as (H1 & H2 & H3); [| done].
    assert (read_list (py_join (py ", ") l) = l) as El
      by (apply read_join; [by destruct l, changed | done]).
    destruct returning as [|n returning]; cbn beta iota zeta in Hu.
    + apply Ok_inj in Hu as <-. exists (py_join (py ", ") l), (py ", updated_at = now() WHERE " ++ where_).
      split; [done |]. by rewrite El.
    + apply rbind_Ok in Hu as (cols & _ & <-%Ok_inj).
      exists (py_join (py ", ") l), (py ", updated_at = now() WHERE " ++ where_ ++ py " RETURNING " ++ cols).
      split; [by rewrite <- !app_assoc | by rewrite El].
  - intros n Hn Hin. unfold columns. destruct (identifiers names) as [l|e] eqn:E; [| by exists e].
    exfalso. revert l E. induction names as [|m names IH]; intros l E; [by apply elem_of_nil in Hin |].
    cbn in E. apply rbind_Ok in E as (m' & Hm & (l' & Hl & _)%rbind_Ok).
    apply elem_of_cons in Hin as [->|Hin]; [| by eapply IH].
    unfold identifier in Hm. by rewrite Hn in Hm.
Qed.

(** ** Examples *)

Lemma built_names_read_back_witness :
  read_list (py "id, state, created_at") = [py "id"; py "state"; py "created_at"].
Proof.
  apply (proj1 (built_names_read_back [py "id"; py "state"; py "created_at"] (py "id, state, created_at")
                  [] [] [] [] 2 [])); [vm_compute; reflexivity | done].
Defined.

Definition ex_update : result SqlTextError pystr :=
  update (py "apps") [py "name"; py "store_url"] (py "id = $1") [py "id"] 2.

Lemma ex_update_text :
  ex_update = Ok (py "UPDATE apps SET name = $2, store_url = $3, updated_at = now() WHERE id = $1 RETURNING id").
Proof. vm_compute. reflexivity. Qed.

(** The pattern is anchored with [$], which a line break at the end satisfies. *)
Lemma line_break_is_an_identifier : identifier (py "apps" ++ [10%N]) = Ok (py "apps" ++ [10%N]).
Proof. vm_compute. reflexivity. Qed.
