(* ===== verification/Cursors.v ===== *)
(** * Cursors: instants and ids as opaque text (mmp_api/routes/logs.py)

    The text of a page's cursor, [_encode_cursor] and [_decode_cursor], with what they use
    of the standard library: [datetime.isoformat] of a time in UTC, [base64] with the
    alphabet that is safe in URLs, read as leniently as [urlsafe_b64decode] does.
    [datetime.fromisoformat] is the parameter of [EdgeLib]; [iso_inverse] says it reads
    what [isoformat] writes. *)

From S2P Require Import Prelude Ids IpAddr Schema Templates Referrer Urls Signing Counting Skan Webhooks Handlers Access.

#[local] Open Scope Z_scope.
#[local] Open Scope mmp_scope.

(** ** [isoformat] *)

(** [time.isoformat] of the time of day: the microseconds only when there are some. *)
Definition clock_text (t : datetime) : pystr :=
  let seconds := t mod day / second in
  let micros := t mod second in
  pad 2 (py_str_int (seconds / 3600)) ++ py ":" ++ pad 2 (py_str_int (seconds / 60 mod 60)) ++ py ":" ++
  pad 2 (py_str_int (seconds mod 60)) ++ (if micros =? 0 then [] else py "." ++ pad 6 (py_str_int micros)).

(** An aware time in UTC. *)
Definition isoformat (t : datetime) : pystr := day_isoformat t ++ py "T" ++ clock_text t ++ py "+00:00".

(** The times the text is checked for: the years 2020 to 2099. *)
Definition in_years (t : datetime) : Prop := FIRST_DAY * day <= t < LAST_DAY * day.

(** A time in UTC is read back as it was written. *)
Definition iso_inverse `{EdgeLib} : Prop :=
  ∀ t, in_years t → fromisoformat (isoformat t) = Some {| iso_wall := t; iso_offset := Some 0 |}.

(** ** base64 *)

(** [urlsafe_b64encode]: the digits of three bytes, and of the one or two that remain. *)
Definition b64_digit (v : N) : N :=
  if (v <? 26)%N then (v + 65)%N else if (v <? 52)%N then (v + 71)%N else if (v <? 62)%N then (v - 4)%N
  else if (v =? 62)%N then 45%N else 95%N.

Fixpoint b64_digits (b : list N) : list N :=
  match b with
  | x :: y :: z :: b => (x / 4 :: x mod 4 * 16 + y / 16 :: y mod 16 * 4 + z / 64 :: z mod 64 :: b64_digits b)%N
  | [x; y] => [x / 4; x mod 4 * 16 + y / 16; y mod 16 * 4]%N
  | [x] => [x / 4; x mod 4 * 16]%N
  | [] => []
  end.

(** [urlsafe_b64encode(b).decode().rstrip("=")]. *)
Definition b64_unpadded (b : list N) : pystr := b64_digit <$> b64_digits b.

(** [binascii.a2b_base64], not strict: other characters are skipped, and what follows the
    padding of a quad is not read. *)
Fixpoint a2b_base64 (quad : list N) (pads : nat) (s : pystr) : option (list N) :=
  match s with
  | [] => if bool_decide (quad = []) then Some [] else None
  | c :: s =>
      if (c =? 61)%N then
        if (length quad <? 2)%nat then a2b_base64 quad pads s
        else if (4 <=? length quad + S pads)%nat then Some (b64_bytes quad) else a2b_base64 quad (S pads) s
      else
        match b64_value c with
        | None => a2b_base64 quad pads s
        | Some v =>
            let quad := quad ++ [v] in
            if (length quad =? 4)%nat
            then rest ← a2b_base64 [] 0 s; Some (b64_bytes quad ++ rest)
            else a2b_base64 quad 0 s
        end
  end.

(** [bytes.maketrans(b"-_", b"+/")] *)
Definition from_urlsafe (c : N) : N := if (c =? 45)%N then 43%N else if (c =? 95)%N then 47%N else c.

Definition urlsafe_b64decode (s : pystr) : option (list N) :=
  if ascii_str s then a2b_base64 [] 0 (from_urlsafe <$> s) else None.

(** ** Cursors *)

Definition Cursor : Type := datetime * uuid.

Definition bar : N := 124.

Definition encode_cursor (at_ : datetime) (row_id : uuid) : pystr :=
  b64_unpadded ((isoformat at_ ++ [bar] ++ str_of_uuid row_id) ≫= utf8).

(** Instants outside the calendar are no [datetime] once they are in UTC. *)
Definition MIN_INSTANT : Z := days_of_civil 1 1 1 * day.
Definition MAX_INSTANT : Z := days_of_civil 10000 1 1 * day.

Definition malformed_cursor : ApiError := Http 422 (py "malformed cursor").

(** The padding of the last quad ([-len(cursor) % 4]). *)
Definition padding (n : nat) : nat := Z.to_nat ((- Z.of_nat n) mod 4).

Definition decode_cursor `{Unicode} `{EdgeLib} (cursor : option pystr) : result ApiError (option Cursor) :=
  match cursor with
  | None | Some [] => Ok None
  | Some c =>
      or_raise malformed_cursor (
        raw ← urlsafe_b64decode (c ++ replicate (padding (length c)) 61%N);
        s ← decode_strict raw;
        if negb (bool_decide (bar ∈ s)) then None
        else
          let '(at_text, id_text) := split_once bar s in
          iso ← fromisoformat at_text;
          id ← uuid_of_str id_text;
          Some (Some (iso_wall iso - default 0 (iso_offset iso), id)))
  end.

(** ** The text of an instant *)

Lemma dec_value_app a b acc : dec_value acc (a ++ b) = dec_value (dec_value acc a) b.
Proof. revert acc. induction a as [|c a IH]; intros acc; [done |]. apply IH. Qed.

Lemma dec_value_shift s acc : dec_value acc s = (acc * 10 ^ N.of_nat (length s) + dec_value 0 s)%N.
Proof.
  revert acc. induction s as [|c s IH]; intros acc; [cbn; lia |].
  cbn [dec_value length]. rewrite (IH (10 * acc + (c - 48))%N), (IH (10 * 0 + (c - 48))%N).
  rewrite Nat2N.inj_succ, N.pow_succ_r'. lia.
Qed.

Lemma dec_digits_value fuel n acc :
  (n < 2 ^ N.of_nat fuel)%N →
  dec_value 0 (dec_digits fuel n acc) = (n * 10 ^ N.of_nat (length acc) + dec_value 0 acc)%N.
Proof.
  revert n acc. induction fuel as [|fuel IH]; intros n acc Hn; [cbn in *; lia |].
  rewrite Nat2N.inj_succ, N.pow_succ_r' in Hn. cbn [dec_digits]. set (d := ((48 + n mod 10)%N :: acc)).
  assert (dec_value 0 d = (n mod 10 * 10 ^ N.of_nat (length acc) + dec_value 0 acc)%N) as Hd.
  { unfold d. generalize (n mod 10)%N. intros m. cbn [dec_value]. rewrite dec_value_shift.
    by replace (10 * 0 + (48 + m - 48))%N with m by lia. }
  pose proof (N.div_mod n 10 ltac:(lia)) as E. case_match eqn:Ez.
  - apply N.eqb_eq in Ez. rewrite Hd. f_equal. f_equal. lia.
  - rewrite IH, Hd.
    + unfold d. cbn [length]. rewrite Nat2N.inj_succ, N.pow_succ_r'. nia.
    + pose proof (N.Div0.mul_div_le n 10). lia.
Qed.

Lemma dec_digits_length fuel n acc w :
  (n < 10 ^ N.of_nat w)%N → (0 < w)%nat → (length (dec_digits fuel n acc) <= w + length acc)%nat.
Proof.
  revert n acc w. induction fuel as [|fuel IH]; intros n acc w Hn Hw; [cbn; lia |]. cbn [dec_digits].
  case_match eqn:Ez; [cbn; lia |]. apply N.eqb_neq in Ez. destruct w as [|w]; [lia |].
  rewrite Nat2N.inj_succ, N.pow_succ_r' in Hn.
  assert (n / 10 < 10 ^ N.of_nat w)%N as Hd by (apply N.Div0.div_lt_upper_bound; lia).
  destruct w as [|w]; [change (N.of_nat 0) with 0%N in Hd; rewrite N.pow_0_r in Hd; apply N.lt_1_r in Hd; done |].
  specialize (IH (n / 10)%N ((48 + n mod 10)%N :: acc) (S w) Hd ltac:(lia)). cbn [length] in *. lia.
Qed.

Lemma size_nat_gt n : (n < 2 ^ N.of_nat (N.size_nat n))%N.
Proof.
  destruct n as [|p]; [done |]. cbn [N.size_nat].
  induction p as [p IH|p IH|]; cbn [Pos.size_nat]; rewrite ?Nat2N.inj_succ, ?N.pow_succ_r'; lia.
Qed.

(** A number padded to its width: the width, and the number back. *)
Lemma padded_digits w z :
  (0 < w)%nat → 0 <= z < 10 ^ Z.of_nat w →
  length (pad w (py_str_int z)) = w ∧ Z.of_N (dec_value 0 (pad w (py_str_int z))) = z.
Proof.
  intros Hw Hz. unfold py_str_int. rewrite (proj2 (Z.ltb_ge z 0)) by lia. unfold pad.
  assert (Z.abs_N z < 2 ^ N.of_nat (S (N.size_nat (Z.abs_N z))))%N as Hsz.
  { rewrite Nat2N.inj_succ, N.pow_succ_r'. pose proof (size_nat_gt (Z.abs_N z)). lia. }
  assert (Z.abs_N z < 10 ^ N.of_nat w)%N as Hlt by (zify; lia).
  split.
  - rewrite length_app, length_replicate. pose proof (dec_digits_length (S (N.size_nat (Z.abs_N z))) (Z.abs_N z) [] w Hlt Hw).
    cbn [length] in *. lia.
  - rewrite dec_value_app. assert (∀ n, dec_value 0 (replicate n 48%N) = 0%N) as ->.
    { induction n as [|n IHn]; [done |]. cbn. exact IHn. }
    rewrite dec_digits_value by done. cbn. lia.
Qed.

(** A reader of that text, as far as the witnesses need one. *)
Definition field (from len : nat) (s : pystr) : Z := Z.of_N (dec_value 0 (take len (drop from s))).

Definition read_iso (s : pystr) : IsoTime :=
  let micros := if (length s =? 32)%nat then field 20 6 s else 0 in
  {| iso_wall := days_of_civil (field 0 4 s) (field 5 2 s) (field 8 2 s) * day +
                 (field 11 2 s * 3600 + field 14 2 s * 60 + field 17 2 s) * second + micros;
     iso_offset := Some 0 |}.

(** An instant is its day, its second of the day and its microseconds. *)
Lemma instant_parts t :
  0 <= t mod day / second < 86400 ∧ 0 <= t mod second < 1000000 ∧
  t = t / day * day + t mod day / second * second + t mod second.
Proof.
  unfold day, hour, minute, second. change (24 * (60 * (60 * 1000000))) with (1000000 * 86400).
  pose proof (Z.div_mod t (1000000 * 86400) ltac:(lia)) as E1.
  pose proof (Z.mod_pos_bound t (1000000 * 86400) ltac:(lia)) as B1.
  pose proof (Z.div_mod (t mod (1000000 * 86400)) 1000000 ltac:(lia)) as E2.
  assert ((t mod (1000000 * 86400)) mod 1000000 = t mod 1000000) as E3
    by (apply Z.mod_mod_divide; by exists 86400).
  pose proof (Z.mod_pos_bound t 1000000 ltac:(lia)) as B2. rewrite E3 in E2. lia.
Qed.

Lemma second_parts s :
  0 <= s < 86400 →
  s = s / 3600 * 3600 + s / 60 mod 60 * 60 + s mod 60 ∧ 0 <= s / 3600 < 100 ∧ 0 <= s / 60 mod 60 < 100 ∧ 0 <= s mod 60 < 100.
Proof.
  intros Hs. pose proof (Z.div_mod s 60 ltac:(lia)) as E1. pose proof (Z.div_mod (s / 60) 60 ltac:(lia)) as E2.
  rewrite (Z.div_div s 60 60) in E2 by lia. change (60 * 60) with 3600 in E2.
  pose proof (Z.mod_pos_bound s 60 ltac:(lia)). pose proof (Z.mod_pos_bound (s / 60) 60 ltac:(lia)).
  pose proof (Z.div_lt_upper_bound s 3600 100 ltac:(lia) ltac:(lia)). pose proof (Z.div_pos s 3600 ltac:(lia) ltac:(lia)). lia.
Qed.

(** A padded number as its characters. *)
Ltac digits_of w x :=
  let L := fresh "L" in let V := fresh "V" in let D := fresh "D" in
  destruct (padded_digits w x) as [L V]; [lia | lia |]; set (D := pad w (py_str_int x)) in *; clearbody D;
  repeat match type of L with
  | length ?D = S _ => destruct D; [discriminate L |]; injection L as L
  | length ?D = 0%nat => apply nil_length_inv in L; subst D
  end.

Lemma read_isoformat t : in_years t → read_iso (isoformat t) = {| iso_wall := t; iso_offset := Some 0 |}.
Proof.
  intros Ht. assert (FIRST_DAY <= t / day < LAST_DAY) as Hd.
  { unfold in_years in Ht.
    split; [apply Z.div_le_lower_bound | apply Z.div_lt_upper_bound]; unfold day, hour, minute, second in *; lia. }
  pose proof (civil_inverse _ Hd) as Hc. unfold isoformat, clock_text, day_isoformat. destruct (civil (t / day)) as [[y m] d].
  destruct Hc as (Hy & Hm & Hdd & Hinv). destruct (instant_parts t) as (Hs & Hmic & Et).
  set (s := t mod day / second) in *. set (mic := t mod second) in *. clearbody s mic.
  destruct (second_parts s Hs) as (Es & Hh & Hi & Hse).
  digits_of 4%nat y. digits_of 2%nat m. digits_of 2%nat d. digits_of 2%nat (s / 3600). digits_of 2%nat (s / 60 mod 60).
  digits_of 2%nat (s mod 60). digits_of 6%nat mic.
  change (py "-") with [45%N]. change (py "T") with [84%N]. change (py ":") with [58%N]. change (py ".") with [46%N].
  change (py "+00:00") with [43; 48; 48; 58; 48; 48]%N.
  destruct (mic =? 0) eqn:Em; unfold read_iso, field; cbn [app take drop length Nat.eqb]; f_equal; [apply Z.eqb_eq in Em |];
    rewrite ?V, ?V0, ?V1, ?V2, ?V3, ?V4, ?V5, Hinv; lia.
Qed.

Definition iso_lib : EdgeLib := {| fromisoformat := λ s, Some (read_iso s); encoded_size := λ _, 0 |}.
Lemma iso_lib_inverse : @iso_inverse iso_lib.
Proof. intros t Ht. change (Some (read_iso (isoformat t)) = Some {| iso_wall := t; iso_offset := Some 0 |}). by rewrite read_isoformat. Qed.

(** ** The digits back to bytes *)

Definition sent_digit (v : N) : N := from_urlsafe (b64_digit v).

Lemma digit_reads v : (v < 64)%N → (sent_digit v =? 61)%N = false ∧ b64_value (sent_digit v) = Some v.
Proof.
  intros Hv. pose (ok v := negb (sent_digit v =? 61)%N && bool_decide (b64_value (sent_digit v) = Some v)).
  assert (forallb ok (N.of_nat <$> seq 0 64) = true) as Hall by (vm_compute; reflexivity).
  rewrite forallb_forall in Hall. assert (ok v = true) as Hok.
  { apply Hall, list_elem_of_In, list_elem_of_fmap. exists (N.to_nat v). split; [lia |]. apply elem_of_seq. lia. }
  unfold ok in Hok. apply andb_true_iff in Hok as [H1 H2]. apply negb_true_iff in H1. by apply bool_decide_eq_true in H2.
Qed.

Lemma read_quad a b c d s :
  (a < 64 → b < 64 → c < 64 → d < 64 →
  a2b_base64 [] 0 (sent_digit a :: sent_digit b :: sent_digit c :: sent_digit d :: s) =
    rest ← a2b_base64 [] 0 s; Some (b64_bytes [a; b; c; d] ++ rest))%N.
Proof.
  intros Ha Hb Hc Hd. destruct (digit_reads a Ha) as [Na Va], (digit_reads b Hb) as [Nb Vb], (digit_reads c Hc) as [Nc Vc],
    (digit_reads d Hd) as [Nd Vd].
  cbn [a2b_base64]. by rewrite Na, Va, Nb, Vb, Nc, Vc, Nd, Vd.
Qed.

Lemma read_three a b c :
  (a < 64 → b < 64 → c < 64 →
  a2b_base64 [] 0 [sent_digit a; sent_digit b; sent_digit c; 61] = Some (b64_bytes [a; b; c]))%N.
Proof.
  intros Ha Hb Hc. destruct (digit_reads a Ha) as [Na Va], (digit_reads b Hb) as [Nb Vb], (digit_reads c Hc) as [Nc Vc].
  cbn [a2b_base64]. by rewrite Na, Va, Nb, Vb, Nc, Vc.
Qed.

Lemma read_two a b :
  (a < 64 → b < 64 → a2b_base64 [] 0 [sent_digit a; sent_digit b; 61; 61] = Some (b64_bytes [a; b]))%N.
Proof.
  intros Ha Hb. destruct (digit_reads a Ha) as [Na Va], (digit_reads b Hb) as [Nb Vb].
  cbn [a2b_base64]. by rewrite Na, Va, Nb, Vb.
Qed.

Definition is_byte (c : N) : Prop := (c < 256)%N.

Lemma padding_quad n : padding (4 + n) = padding n.
Proof. unfold padding. f_equal. rewrite Nat2Z.inj_add, Z.opp_add_distr, <- Z.add_mod_idemp_l by lia. reflexivity. Qed.

(** The digits of one, two and three bytes, and the bytes back. *)
Ltac byte_arith := unfold is_byte in *; zify; Z.to_euclidean_division_equations; lia.

Lemma digit_bounds x y z : is_byte x → is_byte y → is_byte z →
  (x / 4 < 64 ∧ x mod 4 * 16 + y / 16 < 64 ∧ x mod 4 * 16 < 64 ∧ y mod 16 * 4 + z / 64 < 64 ∧ y mod 16 * 4 < 64 ∧ z mod 64 < 64)%N.
Proof. intros. repeat split; byte_arith. Qed.

Lemma digit_high x y : is_byte x → is_byte y →
  (x / 4 * 4 + (x mod 4 * 16 + y / 16) / 16 = x)%N ∧ ((x mod 4 * 16 + y / 16) mod 16 = y / 16)%N.
Proof. intros. split; byte_arith. Qed.

Lemma digit_middle y z : is_byte y → is_byte z →
  (y / 16 * 16 + (y mod 16 * 4 + z / 64) / 4 = y)%N ∧ ((y mod 16 * 4 + z / 64) mod 4 * 64 + z mod 64 = z)%N.
Proof. intros. split; byte_arith. Qed.

(** What was encoded is read back, with the padding put back. *)
Lemma base64_round_trip b :
  Forall is_byte b →
  a2b_base64 [] 0 ((sent_digit <$> b64_digits b) ++ replicate (padding (length (b64_digits b))) 61%N) = Some b.
Proof.
  assert (is_byte 0) as H0 by done.
  revert b. fix IH 1. intros [|x [|y [|z b]]] Hb; [reflexivity | | |]; repeat (apply Forall_cons in Hb as [? Hb]).
  - destruct (digit_bounds x 0 0) as (Ha & _ & Hc & _); [done.. |].
    transitivity (a2b_base64 [] 0 [sent_digit (x / 4); sent_digit (x mod 4 * 16); 61; 61])%N; [reflexivity |].
    rewrite read_two by done. cbn [b64_bytes]. do 2 f_equal. destruct (digit_high x 0) as [Hx _]; [done.. |].
    change (0 / 16)%N with 0%N in Hx. by rewrite N.add_0_r in Hx.
  - destruct (digit_bounds x y 0) as (Ha & Hc & _ & _ & Hd & _); [done.. |].
    transitivity (a2b_base64 [] 0 [sent_digit (x / 4); sent_digit (x mod 4 * 16 + y / 16); sent_digit (y mod 16 * 4); 61])%N;
      [reflexivity |].
    rewrite read_three by done. cbn [b64_bytes]. destruct (digit_high x y) as [Hx Hm]; [done.. |].
    rewrite Hx, Hm. destruct (digit_middle y 0) as [Hy _]; [done.. |]. change (0 / 64)%N with 0%N in Hy.
    rewrite N.add_0_r in Hy. by rewrite Hy.
  - destruct (digit_bounds x y z) as (Ha & Hc & _ & Hd & _ & He); [done.. |].
    cbn [b64_digits fmap list_fmap app length]. change (S (S (S (S (length (b64_digits b)))))) with (4 + length (b64_digits b))%nat.
    rewrite (padding_quad (length (b64_digits b))), read_quad by done.
    rewrite (IH b Hb). cbn [option_bind mbind b64_bytes].
    destruct (digit_high x y) as [Hx Hm]; [done.. |]. destruct (digit_middle y z) as [Hy Hz]; [done.. |].
    by rewrite Hx, Hm, Hy, Hz.
Qed.

(** ** A cursor names the row it was made from *)

Lemma digit_ascii v : is_ascii (b64_digit v) = true.
Proof.
  unfold b64_digit, is_ascii. apply N.ltb_lt.
  destruct (N.ltb_spec v 26); [lia |]. destruct (N.ltb_spec v 52); [lia |]. destruct (N.ltb_spec v 62); [lia |].
  by destruct (v =? 62)%N.
Qed.

Lemma urlsafe_round_trip b :
  Forall is_byte b →
  urlsafe_b64decode (b64_unpadded b ++ replicate (padding (length (b64_unpadded b))) 61%N) = Some b.
Proof.
  intros Hb. unfold urlsafe_b64decode, b64_unpadded. rewrite length_fmap, fmap_app, <- list_fmap_compose, fmap_replicate.
  change (from_urlsafe ∘ b64_digit) with sent_digit. change (from_urlsafe 61) with 61%N. rewrite (base64_round_trip b Hb).
  assert (ascii_str ((b64_digit <$> b64_digits b) ++ replicate (padding (length (b64_digits b))) 61%N) = true) as ->; [| done].
  unfold ascii_str. rewrite forallb_app. apply andb_true_iff. split; apply forallb_forall; intros c Hc%list_elem_of_In.
  - apply list_elem_of_fmap in Hc as (v & -> & _). apply digit_ascii.
  - by apply elem_of_replicate in Hc as [-> _].
Qed.

Lemma urlsafe_nothing : urlsafe_b64decode (replicate (padding 0) 61%N) = Some [].
Proof. reflexivity. Qed.

(** The characters of the text of an instant. *)
Definition time_char (c : N) : Prop := (c < 90)%N.

Lemma number_chars w z : Forall time_char (pad w (py_str_int z)).
Proof.
  unfold pad, py_str_int. apply Forall_app. split; [by apply Forall_replicate |].
  assert (∀ n, Forall time_char (dec_digits (S (N.size_nat n)) n [])) as Hd.
  { intros n. eapply Forall_impl; [apply dec_digits_chars; by apply Forall_nil_2 |]. intros c Hc. cbn beta in Hc.
    unfold is_digit_ascii, Prelude.in_range in Hc. apply andb_true_iff in Hc as [_ Hc%N.leb_le]. unfold time_char. lia. }
  case_match; [constructor; [done | apply Hd] | apply Hd].
Qed.

Lemma isoformat_chars t : Forall time_char (isoformat t).
Proof.
  unfold isoformat, clock_text, day_isoformat. destruct (civil (t / day)) as [[y m] d].
  change (py "-") with [45%N]. change (py "T") with [84%N]. change (py ":") with [58%N]. change (py ".") with [46%N].
  change (py "+00:00") with [43; 48; 48; 58; 48; 48]%N.
  rewrite !Forall_app. repeat split; try apply number_chars; try (by repeat constructor).
  case_match; [by apply Forall_nil_2 |]. rewrite Forall_app. split; [by repeat constructor | apply number_chars].
Qed.

(** What a cursor decodes to, from the text that was encoded. *)
Lemma decode_sent `{Unicode} `{EdgeLib} s :
  ascii_text s → bar ∈ s →
  decode_cursor (Some (b64_unpadded s)) =
    or_raise malformed_cursor (
      let '(at_text, id_text) := split_once bar s in
      iso ← fromisoformat at_text;
      id ← uuid_of_str id_text;
      Some (Some (iso_wall iso - default 0 (iso_offset iso), id))).
Proof.
  intros Hs Hbar. assert (Forall is_byte s) as Hb by (eapply Forall_impl; [exact Hs |]; unfold is_byte; cbn; lia).
  unfold decode_cursor. pose proof (urlsafe_round_trip s Hb) as Hr. destruct (b64_unpadded s) as [|c text].
  { exfalso. cbn [length app] in Hr. rewrite urlsafe_nothing in Hr. injection Hr as <-. by apply elem_of_nil in Hbar. }
  rewrite Hr. cbn [option_bind mbind]. assert (decode_strict s = Some s) as ->.
  { unfold decode_strict. by rewrite (decodes_ascii s Hs), (ascii_utf8 s Hs), bool_decide_true. }
  cbn [option_bind mbind]. rewrite bool_decide_true by done. reflexivity.
Qed.

(** The round trip: the next page starts where the last one ended. *)
Lemma cursor_round_trip `{Unicode} `{EdgeLib} at_ id :
  iso_inverse → in_years at_ → uuid_ok id → decode_cursor (Some (encode_cursor at_ id)) = Ok (Some (at_, id)).
Proof.
  intros Hiso Hat Hid. unfold encode_cursor.
  assert (ascii_text (isoformat at_ ++ [bar] ++ str_of_uuid id)) as Hs.
  { apply Forall_app_2; [eapply Forall_impl; [apply isoformat_chars |]; unfold time_char; lia |].
    apply Forall_app_2; [by repeat constructor |]. eapply Forall_impl; [apply str_of_uuid_chars |]. intros c [Hc| ->]; [| done].
    apply is_hexchar_bounds in Hc. lia. }
  rewrite (ascii_utf8 _ Hs), (decode_sent _ Hs) by (apply elem_of_app; right; by left).
  cbn [app]. rewrite split_once_app.
  - rewrite Hiso, uuid_of_str_of_uuid by done. cbn [mbind option_bind iso_wall iso_offset default or_raise]. by rewrite Z.sub_0_r.
  - intros Hin. pose proof (isoformat_chars at_) as Hc. rewrite Forall_forall in Hc. specialize (Hc _ Hin).
    unfold time_char, bar in Hc. lia.
Qed.
