(* ===== verification/Csv.v ===== *)
(** * CSV, as Python's [csv.writer] writes it

    The default dialect: fields are separated by commas and quoted only when they hold a
    comma, a quote or a line break, quotes are doubled, and rows end in CR LF.  A reader by
    RFC 4180 gets back the fields that were written, whatever they hold. *)

From S2P Require Import Prelude.

#[local] Open Scope N_scope.

Definition comma : N := 44.
Definition dquote : N := 34.
Definition cr : N := 13.
Definition lf : N := 10.

(** ** The writer *)

Definition special (c : N) : bool := (c =? comma) || (c =? dquote) || (c =? cr) || (c =? lf).

Definition doubled (c : N) : pystr := if c =? dquote then [dquote; dquote] else [c].
Definition quoted (s : pystr) : pystr := dquote :: (s ≫= doubled) ++ [dquote].
Definition write_field (s : pystr) : pystr := if existsb special s then quoted s else s.

(** A row of one empty field is quoted, so that it is not an empty line. *)
Definition writerow (fields : list pystr) : pystr :=
  (if bool_decide (fields = [[]]) then quoted [] else py_join [comma] (write_field <$> fields)) ++ [cr; lf].

(** ** A reader *)

Inductive Reading := FieldStart | Plain | InQuotes | AfterQuote | AfterCr.

(** The field and the row read so far, and the rest of the text. *)
Fixpoint read_csv (mode : Reading) (field : pystr) (row : list pystr) (s : pystr) : list (list pystr) :=
  match s with
  | [] =>
      match mode, field, row with
      | AfterCr, _, _ | FieldStart, [], [] => []
      | _, _, _ => [row ++ [field]]
      end
  | c :: s =>
      let outside :=
        if c =? comma then read_csv FieldStart [] (row ++ [field]) s
        else if c =? cr then (row ++ [field]) :: read_csv AfterCr [] [] s
        else if c =? lf then (row ++ [field]) :: read_csv FieldStart [] [] s
        else read_csv Plain (field ++ [c]) row s in
      match mode with
      | InQuotes => if c =? dquote then read_csv AfterQuote field row s else read_csv InQuotes (field ++ [c]) row s
      | AfterQuote => if c =? dquote then read_csv InQuotes (field ++ [dquote]) row s else outside
      | FieldStart => if c =? dquote then read_csv InQuotes field row s else outside
      | AfterCr => if c =? lf then read_csv FieldStart [] [] s
                   else if c =? dquote then read_csv InQuotes field row s else outside
      | Plain => outside
      end
  end.

Definition parse_csv (s : pystr) : list (list pystr) := read_csv FieldStart [] [] s.

(** ** What is read of what was written *)

(** A field ends at a comma or at the end of its row. *)
Definition field_end (field : pystr) (row : list pystr) (c : N) (s : pystr) : list (list pystr) :=
  if c =? comma then read_csv FieldStart [] (row ++ [field]) s else (row ++ [field]) :: read_csv AfterCr [] [] s.
Definition ends_field (c : N) : Prop := c = comma ∨ c = cr.

Lemma read_plain s : ∀ field row c t,
  existsb special s = false → ends_field c → read_csv Plain field row (s ++ c :: t) = field_end (field ++ s) row c t.
Proof.
  induction s as [|x s IH]; intros field row c t Hs Hc.
  - rewrite app_nil_r. destruct Hc as [->| ->]; reflexivity.
  - cbn [existsb] in Hs. apply orb_false_iff in Hs as [Hx Hs]. unfold special in Hx. rewrite !orb_false_iff in Hx.
    destruct Hx as [[[H1 H2] H3] H4]. cbn [app read_csv]. rewrite H1, H3, H4, IH by done.
    by rewrite <- app_assoc.
Qed.

Lemma read_quoted s : ∀ field row c t,
  ends_field c → read_csv InQuotes field row ((s ≫= doubled) ++ dquote :: c :: t) = field_end (field ++ s) row c t.
Proof.
  induction s as [|x s IH]; intros field row c t Hc.
  - rewrite app_nil_r. destruct Hc as [->| ->]; reflexivity.
  - rewrite bind_cons, <- app_assoc. unfold doubled at 1. destruct (N.eqb_spec x dquote) as [->|Hx].
    + cbn [app read_csv]. change (dquote =? dquote) with true. cbn [read_csv]. change (dquote =? dquote) with true. cbn match.
      rewrite IH by done. by rewrite <- app_assoc.
    + cbn [app read_csv]. rewrite (proj2 (N.eqb_neq _ _) Hx), IH by done. by rewrite <- app_assoc.
Qed.

Lemma read_field s row c t :
  ends_field c → read_csv FieldStart [] row (write_field s ++ c :: t) = field_end s row c t.
Proof.
  intros Hc. unfold write_field. destruct (existsb special s) eqn:Es.
  - unfold quoted. cbn [app]. rewrite <- app_assoc. cbn [app read_csv]. change (dquote =? dquote) with true. cbn match.
    by rewrite (read_quoted s).
  - destruct s as [|x s]; [destruct Hc as [->| ->]; reflexivity |]. pose proof Es as Es'. cbn [existsb] in Es.
    apply orb_false_iff in Es as [Hx Hs]. unfold special in Hx. rewrite !orb_false_iff in Hx. destruct Hx as [[[H1 H2] H3] H4].
    cbn [app read_csv]. rewrite H2, H1, H3, H4. by rewrite read_plain.
Qed.

Lemma read_fields fields : ∀ row t,
  fields ≠ [] → read_csv FieldStart [] row (py_join [comma] (write_field <$> fields) ++ cr :: t) =
    (row ++ fields) :: read_csv AfterCr [] [] t.
Proof.
  induction fields as [|f fields IH]; intros row t Hne; [done |]. destruct fields as [|g fields].
  - cbn [fmap list_fmap py_join]. rewrite read_field by (by right). reflexivity.
  - change (py_join [comma] (write_field <$> f :: g :: fields)) with
      (write_field f ++ [comma] ++ py_join [comma] (write_field <$> g :: fields)).
    rewrite <- !app_assoc. cbn [app]. rewrite read_field by (by left). unfold field_end. change (comma =? comma) with true. cbn match.
    rewrite IH by done. by rewrite <- app_assoc.
Qed.

Lemma read_row fields t : fields ≠ [] → parse_csv (writerow fields ++ t) = fields :: parse_csv t.
Proof.
  intros Hne. unfold parse_csv, writerow. case_bool_decide as Hf; [by subst fields |].
  rewrite <- app_assoc. cbn [app]. rewrite read_fields by done. reflexivity.
Qed.

(** The rows of a file, in front of whatever follows them. *)
Lemma read_rows rows t :
  Forall (λ fields, fields ≠ []) rows → parse_csv ((rows ≫= writerow) ++ t) = rows ++ parse_csv t.
Proof.
  induction 1 as [|fields rows Hf _ IH]; [done |]. rewrite bind_cons, <- app_assoc, read_row by done. by rewrite IH.
Qed.
