(* ===== verification/LogApi.v ===== *)
(** * The logs: raw rows, a page at a time (mmp_api/routes/logs.py)

    Three logs over one scheme: the rows of an app in a range of days that match the
    filters, newest first, and a cursor that names the last row of a page.  What a page
    shows of a row is a JSON object with the keys of the source.

    [reading_a_log_is_complete] is the promise of keyset pages: whoever follows the
    cursors is shown every row that was there when they started exactly once, in order,
    whatever is written while they read, and reaches the end. *)

From stdpp Require Import sorting.
From S2P Require Import Prelude Ids Schema Engine Fraud Store Writer Counting Access Handlers Relational LinkCache LinkApi Cursors.

#[local] Open Scope Z_scope.
#[local] Open Scope mmp_scope.

(** ** The tables the reading endpoints query *)

Record ReadState := {
  rd_apps : list AppRef;
  rd_campaigns : list CampaignRow;
  rd_links : list LinkRecord;
  rd_events : list EventRow;
  rd_clicks : list ClickRecord;
  rd_attributions : list AttributionRow
}.

(** Row-level security: the rows of the organisation of the connection. *)
Definition of_org {R} (org_of : R → uuid) (org : uuid) (rows : list R) : list R :=
  List.filter (λ r, bool_decide (org_of r = org)) rows.

Definition visible_links (org : uuid) (st : ReadState) : list LinkRecord := of_org (λ r, lr_organization_id (lk_row r)) org (rd_links st).
Definition visible_campaigns (org : uuid) (st : ReadState) : list CampaignRow := of_org cm_organization_id org (rd_campaigns st).

(** [_require_app]: an app of another organisation is not found. *)
Definition require_app (org app : uuid) (apps : list AppRef) : result ApiError unit :=
  raise_if (negb (existsb (λ a, bool_decide (af_id a = app) && bool_decide (af_organization_id a = org)) apps)) app_missing.

(** [LEFT JOIN tracking_links l ON l.id = ..] and the same of campaigns. *)
Definition joins_link {R} (link_of : R → option uuid) (r : R) (l : LinkRecord) : bool :=
  bool_decide (link_of r = Some (lr_id (lk_row l))).
Definition joins_campaign {R} (campaign_of : R → option uuid) (r : R) (c : CampaignRow) : bool :=
  bool_decide (campaign_of r = Some (cm_id c)).

(** A row beside its link and its campaign. *)
Definition Named (R : Type) : Type := R * option LinkRecord * option CampaignRow.

Definition with_names {R} (link_of campaign_of : R → option uuid) (org : uuid) (st : ReadState) (rows : list R)
  : list (Named R) :=
  left_join (λ p c, joins_campaign campaign_of (fst p) c)
    (left_join (joins_link link_of) rows (visible_links org st)) (visible_campaigns org st).

(** ** Ranges, platforms and limits *)

Definition MAX_RANGE_DAYS : Z := 31.
Definition DEFAULT_LIMIT : Z := 50.
Definition MAX_LIMIT : Z := 200.
(** [date.max], after which there is no next day. *)
Definition MAX_DATE : Z := days_of_civil 9999 12 31.

(** [_range]: dates as days since 1970-01-01. *)
Definition day_range (max_days : Z) (too_long : pystr) (from_date to_date : Z) : result ApiError (datetime * datetime) :=
  let* _ := raise_if (to_date <? from_date) (Http 422 (py "to is before from")) in
  let* _ := raise_if (max_days <? to_date - from_date) (Http 422 too_long) in
  let* _ := raise_if (to_date =? MAX_DATE) Crash in
  Ok (from_date * day, (to_date + 1) * day).

Definition log_range : Z → Z → result ApiError (datetime * datetime) := day_range MAX_RANGE_DAYS (py "range exceeds 31 days").

Definition platform_filter `{Unicode} (name : option pystr) : result ApiError (option Z) :=
  match name with
  | None => Ok None
  | Some n => let* code := or_raise (Http 422 (py "unknown platform")) (od_get (py_lower n) PLATFORM_CODES) in Ok (Some code)
  end.

Definition platform_name (code : Z) : pystr :=
  match List.find (λ p, snd p =? code) PLATFORM_CODES with Some p => fst p | None => py "unknown" end.

Definition log_limit (limit : Z) : Z := Z.max 1 (Z.min limit MAX_LIMIT).

(** [x or None] *)
Definition or_none (o : option pystr) : option pystr := match o with Some [] => None | _ => o end.

(** [$n IS NULL OR column = $n] *)
Definition matches_opt {A} `{EqDecision A} (wanted : option A) (value : option A) : bool :=
  match wanted with None => true | Some w => bool_decide (value = Some w) end.

(** [char(2)] compares without trailing blanks. *)
Fixpoint rstrip_blanks (s : pystr) : pystr :=
  match s with
  | [] => []
  | c :: s => match rstrip_blanks s with [] => if (c =? 32)%N then [] else [c] | s' => c :: s' end
  end.

(** ** Pages *)

Definition before (a b : Cursor) : bool := (fst a <? fst b) || ((fst a =? fst b) && (snd a <? snd b)%N).

Section Pages.
Context {R : Type} (at_ : R → datetime) (id_ : R → uuid).

Definition row_key (r : R) : Cursor := (at_ r, id_ r).

(** [ORDER BY at DESC, id DESC] *)
Definition newer (a b : R) : Prop := before (row_key a) (row_key b) = false.
#[export] Instance newer_dec a b : base.Decision (newer a b).
Proof. unfold newer. apply _. Defined.

Definition after_cursor (cursor : option Cursor) (r : R) : bool :=
  match cursor with None => true | Some c => before (row_key r) c end.

(** The statement: the rows in range that match, after the cursor, newest first. *)
Definition select_rows (matches : R → bool) (cursor : option Cursor) (limit : Z) (rows : list R) : list R :=
  take (Z.to_nat limit) (merge_sort newer (List.filter (λ r, matches r && after_cursor cursor r) rows)).

(** [_page] *)
Definition page (rows : list R) (limit : Z) : list R * option pystr :=
  let more := limit <? Z.of_nat (length rows) in
  let rows := take (Z.to_nat limit) rows in
  (rows, if more then match last rows with Some r => Some (encode_cursor (at_ r) (id_ r)) | None => None end else None).
End Pages.

(** A cursor the driver cannot send: its instant has no UTC date. *)
Definition sendable (cursor : option Cursor) : bool :=
  match cursor with None => true | Some (t, _) => (MIN_INSTANT <=? t) && (t <? MAX_INSTANT) end.

(** ** What a log shows *)

Definition jopt {A} (f : A → json) (o : option A) : json := match o with Some a => f a | None => JNull end.
Definition jtext : option pystr → json := jopt JStr.
Definition juuid (u : uuid) : json := JStr (str_of_uuid u).
Definition jtime (t : datetime) : json := JStr (isoformat t).

Definition verdict_text (v : FraudVerdict) : pystr :=
  match v with CLEAN => py "clean" | SUSPICIOUS => py "suspicious" | FRAUDULENT => py "fraudulent" end.
(** [decode_list] *)
Definition decode_list (o : option (list pystr)) : list pystr := default [] o.

Definition event_item (r : EventRow) : props :=
  [(py "event_id", juuid (er_event_id r)); (py "received_at", jtime (er_received_at r));
   (py "occurred_at", jtime (er_occurred_at r)); (py "event_name", JStr (er_event_name r));
   (py "anonymous_id", JStr (er_anonymous_id r)); (py "user_id", jtext (er_user_id r));
   (py "session_id", jopt juuid (er_session_id r)); (py "platform", JStr (platform_name (er_platform r)));
   (py "os_version", jtext (er_os_version r)); (py "app_version", jtext (er_app_version r));
   (py "device_model", jtext (er_device_model r)); (py "country", jtext (er_country r));
   (py "click_id", jopt juuid (er_click_id r)); (py "revenue_minor", jopt JInt (er_revenue_minor r));
   (py "currency", jtext (er_currency r)); (py "clock_skew_ms", jopt JInt (er_clock_skew_ms r));
   (py "properties", JObj (er_properties r))].

Definition link_name {R} (p : Named R) : json := jopt (λ l, JStr (lk_name l)) (snd (fst p)).
Definition link_code {R} (p : Named R) : json := jopt (λ l, JStr (lr_tracking_code (lk_row l))) (snd (fst p)).
Definition campaign_name {R} (p : Named R) : json := jopt (λ c, JStr (cm_name c)) (snd p).

Definition click_item (p : Named ClickRecord) : props :=
  let r := fst (fst p) in
  [(py "click_id", juuid (cr_click_id r)); (py "clicked_at", jtime (cr_clicked_at r));
   (py "campaign_id", jopt juuid (cr_campaign_id r)); (py "campaign", campaign_name p); (py "link", link_name p);
   (py "tracking_code", link_code p); (py "platform", JStr (platform_name (cr_platform r)));
   (py "country", jtext (cr_country r)); (py "os_version", jtext (cr_os_version r));
   (py "device_model", jtext (cr_device_model r)); (py "is_bot", JBool (cr_is_bot r));
   (py "deep_link", jtext (cr_deep_link r)); (py "sub1", jtext (cr_sub1 r)); (py "sub2", jtext (cr_sub2 r));
   (py "sub3", jtext (cr_sub3 r))].

Definition install_item (p : Named AttributionRow) : props :=
  let r := fst (fst p) in
  [(py "attribution_id", juuid (a_id r)); (py "attributed_at", jtime (a_attributed_at r));
   (py "installed_at", jtime (a_installed_at r)); (py "anonymous_id", JStr (a_anonymous_id r));
   (py "method", JStr (method_value (a_method r))); (py "fraud_verdict", JStr (verdict_text (a_fraud_verdict r)));
   (py "fraud_rules", JArr (JStr <$> decode_list (a_fraud_rules r))); (py "campaign", campaign_name p);
   (py "link", link_name p); (py "click_id", jopt juuid (a_click_id r)); (py "deep_link", jtext (a_deep_link r));
   (py "superseded", JBool (bool_decide (a_superseded_by r ≠ None))); (py "sub1", jtext (a_sub1 r));
   (py "sub2", jtext (a_sub2 r)); (py "sub3", jtext (a_sub3 r))].

(** ** The three endpoints *)

Record LogQuery := { lq_app_id : uuid; lq_from : Z; lq_to : Z; lq_limit : Z }.
Record EventFilter := { ef_event_name : option pystr; ef_platform : option pystr; ef_anonymous_id : option pystr;
                        ef_user_id : option pystr }.
Record ClickFilter := { cf_campaign_id : option uuid; cf_platform : option pystr; cf_country : option pystr }.
Record InstallFilter := { if_method : option pystr; if_verdict : option pystr; if_anonymous_id : option pystr }.

(** A page of items and the cursor of the next. *)
Definition LogPage : Type := list props * option pystr.

Section Endpoints.
Context {U : Unicode} {L : EdgeLib}.

Definition event_matches (f : EventFilter) (platform : option Z) (app : uuid) (start stop : datetime) (r : EventRow) : bool :=
  bool_decide (er_app_id r = app) && (start <=? er_received_at r) && (er_received_at r <? stop) &&
  matches_opt (or_none (ef_event_name f)) (Some (er_event_name r)) && matches_opt platform (Some (er_platform r)) &&
  matches_opt (or_none (ef_anonymous_id f)) (Some (er_anonymous_id r)) && matches_opt (or_none (ef_user_id f)) (er_user_id r).

Definition click_matches (f : ClickFilter) (platform : option Z) (app : uuid) (start stop : datetime) (p : Named ClickRecord) : bool :=
  let r := fst (fst p) in
  bool_decide (cr_app_id r = app) && (start <=? cr_clicked_at r) && (cr_clicked_at r <? stop) &&
  match cf_campaign_id f with None => true | Some c => bool_decide (cr_campaign_id r = Some c) end &&
  matches_opt platform (Some (cr_platform r)) &&
  matches_opt ((λ c, rstrip_blanks (take 2 (py_upper c))) <$> or_none (cf_country f)) (rstrip_blanks <$> cr_country r).

Definition install_matches (f : InstallFilter) (app : uuid) (start stop : datetime) (p : Named AttributionRow) : bool :=
  let r := fst (fst p) in
  bool_decide (a_app_id r = app) && (start <=? a_attributed_at r) && (a_attributed_at r <? stop) &&
  matches_opt (or_none (if_method f)) (Some (method_value (a_method r))) &&
  matches_opt (or_none (if_verdict f)) (Some (verdict_text (a_fraud_verdict r))) &&
  matches_opt (or_none (if_anonymous_id f)) (Some (a_anonymous_id r)).

(** The part the three share: the checks in their order, the query, the page. *)
Definition serve {R} (at_ : R → datetime) (id_ : R → uuid) (item : R → props) (q : LogQuery) (cursor : option pystr)
    (platform : option pystr) (texts : list (option pystr)) (matches : option Z → uuid → datetime → datetime → R → bool)
    (rows : list R) (org : uuid) (st : ReadState) : result ApiError LogPage :=
  let* _ := require_app org (lq_app_id q) (rd_apps st) in
  let* range := log_range (lq_from q) (lq_to q) in
  let* at_cursor := decode_cursor cursor in
  let size := log_limit (lq_limit q) in
  let* code := platform_filter platform in
  let* _ := raise_if (negb (forallb (opt_ok no_nul) texts && sendable at_cursor)) Crash in
  let '(shown, next) := page at_ id_
    (select_rows at_ id_ (matches code (lq_app_id q) (fst range) (snd range)) at_cursor (size + 1) rows) size in
  Ok (item <$> shown, next).

Definition event_log_handler (q : LogQuery) (f : EventFilter) (cursor : option pystr) (org : uuid) (st : ReadState) : result ApiError LogPage :=
  serve er_received_at er_event_id event_item q cursor (ef_platform f) [ef_event_name f; ef_anonymous_id f; ef_user_id f]
    (event_matches f) (of_org er_organization_id org (rd_events st)) org st.
Definition event_log (rq : ApiRequest) (q : LogQuery) (f : EventFilter) (cursor : option pystr) :=
  as_role Member rq (reading (event_log_handler q f cursor)).

Definition click_log_handler (q : LogQuery) (f : ClickFilter) (cursor : option pystr) (org : uuid) (st : ReadState) : result ApiError LogPage :=
  serve (λ p, cr_clicked_at (fst (fst p))) (λ p, cr_click_id (fst (fst p))) click_item q cursor (cf_platform f)
    [(λ c, take 2 (py_upper c)) <$> or_none (cf_country f)]
    (click_matches f)
    (with_names (λ c, Some (cr_tracking_link_id c)) cr_campaign_id org st (of_org cr_organization_id org (rd_clicks st))) org st.
Definition click_log (rq : ApiRequest) (q : LogQuery) (f : ClickFilter) (cursor : option pystr) :=
  as_role Member rq (reading (click_log_handler q f cursor)).

Definition install_log_handler (q : LogQuery) (f : InstallFilter) (cursor : option pystr) (org : uuid) (st : ReadState) : result ApiError LogPage :=
  serve (λ p, a_attributed_at (fst (fst p))) (λ p, a_id (fst (fst p))) install_item q cursor None
    [if_method f; if_verdict f; if_anonymous_id f] (λ _, install_matches f)
    (with_names a_tracking_link_id a_campaign_id org st (of_org a_organization_id org (rd_attributions st))) org st.
Definition install_log (rq : ApiRequest) (q : LogQuery) (f : InstallFilter) (cursor : option pystr) :=
  as_role Member rq (reading (install_log_handler q f cursor)).
End Endpoints.

(** ** Pages are in order *)

Lemma before_trans a b c : before a b = true → before b c = true → before a c = true.
Proof.
  unfold before. destruct a, b, c. cbn. rewrite !orb_true_iff, !andb_true_iff, !Z.ltb_lt, !Z.eqb_eq, !N.ltb_lt. lia.
Qed.

Lemma before_cases a b : before a b = true ∨ a = b ∨ before b a = true.
Proof.
  unfold before. destruct a as [t u], b as [t' u']. cbn. rewrite !orb_true_iff, !andb_true_iff, !Z.ltb_lt, !Z.eqb_eq, !N.ltb_lt.
  destruct (Z.lt_trichotomy t t') as [?|[->|?]]; [by left; left | | by right; right; left].
  destruct (N.lt_trichotomy u u') as [?|[->|?]]; [by left; right | by right; left | by right; right; right].
Qed.

Lemma before_irrefl a : before a a = false.
Proof. unfold before. by rewrite Z.ltb_irrefl, N.ltb_irrefl, andb_false_r. Qed.

Section Order.
Context {R : Type} (at_ : R → datetime) (id_ : R → uuid).
Abbreviation key := (row_key at_ id_).

Definition strictly_newer (a b : R) : Prop := before (key b) (key a) = true.

#[export] Instance newer_trans : Transitive (newer at_ id_).
Proof.
  intros a b c Hab Hbc. unfold newer in *. apply not_true_iff_false. intros Hac.
  destruct (before_cases (key b) (key c)) as [H|[H|H]]; [congruence | congruence |].
  rewrite (before_trans _ _ _ Hac H) in Hab. done.
Qed.

#[export] Instance newer_total : Total (newer at_ id_).
Proof.
  intros a b. unfold newer. destruct (before (key a) (key b)) eqn:E; [right | by left].
  apply not_true_iff_false. intros H. pose proof (before_trans _ _ _ E H) as H'. by rewrite before_irrefl in H'.
Qed.

Lemma sorted_strict (l : list R) :
  NoDup (key <$> l) → StronglySorted (newer at_ id_) l → StronglySorted strictly_newer l.
Proof.
  intros Hnd Hs. induction Hs as [|x l Hs IH Hall]; [constructor |].
  rewrite fmap_cons in Hnd. apply NoDup_cons in Hnd as [Hx Hnd]. constructor; [by apply IH |].
  apply Forall_forall. intros y Hy. rewrite Forall_forall in Hall. specialize (Hall y Hy). unfold newer in Hall.
  destruct (before_cases (key x) (key y)) as [H|[H|H]]; [congruence | | done].
  exfalso. apply Hx. rewrite H. by apply list_elem_of_fmap_2.
Qed.

Lemma strict_app (l1 l2 : list R) x :
  StronglySorted strictly_newer l1 → StronglySorted strictly_newer l2 → last l1 = Some x →
  (∀ y, y ∈ l2 → strictly_newer x y) → StronglySorted strictly_newer (l1 ++ l2).
Proof.
  intros H1 H2 Hl Hx. induction H1 as [|y l Hs IH Hall]; [done |]. cbn [app]. constructor.
  - destruct l as [|z l]; [done |]. by apply IH.
  - apply Forall_app. split; [done |]. apply Forall_forall. intros z Hz. specialize (Hx z Hz).
    destruct l as [|w l]; [by injection Hl as <- |].
    assert (x ∈ w :: l) as Hin by (apply last_Some_elem_of; exact Hl).
    rewrite Forall_forall in Hall. specialize (Hall x Hin). unfold strictly_newer in *. by eapply before_trans.
Qed.

Lemma strict_keys (l : list R) : StronglySorted strictly_newer l → NoDup (key <$> l).
Proof.
  induction 1 as [|x l Hs IH Hall]; [constructor |]. rewrite fmap_cons. apply NoDup_cons. split; [| done].
  intros (y & E & Hy)%list_elem_of_fmap. rewrite Forall_forall in Hall. specialize (Hall y Hy). unfold strictly_newer in Hall.
  rewrite E, before_irrefl in Hall. done.
Qed.

(** What follows the last row of a full page is older than it. *)
Lemma after_page (l : list R) n x y :
  StronglySorted strictly_newer l → last (take n l) = Some x → y ∈ drop n l → strictly_newer x y.
Proof.
  intros Hs Hl Hy. rewrite <- (take_drop n l) in Hs. eapply (StronglySorted_app_1_elem_of strictly_newer); [exact Hs | | done].
  by apply last_Some_elem_of.
Qed.

Section OnePage.
Context (matches : R → bool) (cursor : option Cursor) (rows : list R) (size : Z).
Hypothesis Hsize : 1 <= size.
Hypothesis Hkeys : NoDup (key <$> List.filter matches rows).

Abbreviation all := (merge_sort (newer at_ id_) (List.filter (λ r, matches r && after_cursor at_ id_ cursor r) rows)).

Lemma all_elem r : r ∈ all ↔ r ∈ List.filter matches rows ∧ after_cursor at_ id_ cursor r = true.
Proof. rewrite merge_sort_Permutation, !elem_of_lfilter, andb_true_iff. tauto. Qed.

Lemma all_strict : StronglySorted strictly_newer all.
Proof.
  apply sorted_strict; [| by apply (StronglySorted_merge_sort _)].
  rewrite merge_sort_Permutation. rewrite <- lfilter_lfilter. by apply NoDup_fmap_filter.
Qed.

(** The page is the first rows after the cursor, and there is a next one exactly when some
    are left. *)
Lemma page_spec :
  let '(shown, next) := page at_ id_ (select_rows at_ id_ matches cursor (size + 1) rows) size in
  shown = take (Z.to_nat size) all ∧
  match next with
  | None => shown = all
  | Some c => ∃ x, last shown = Some x ∧ c = encode_cursor (at_ x) (id_ x) ∧ (1 <= length shown)%nat
  end.
Proof.
  unfold page, select_rows. rewrite take_take, Nat.min_l by lia. split; [done |].
  rewrite length_take. destruct (Z.ltb_spec size (Z.of_nat (Nat.min (Z.to_nat (size + 1)) (length all)))) as [H|H].
  - destruct (last (take (Z.to_nat size) all)) as [x|] eqn:E.
    + exists x. split; [done |]. split; [done |]. rewrite length_take. lia.
    + apply last_None in E. apply (f_equal length) in E. rewrite length_take in E. cbn in E. lia.
  - apply take_ge. lia.
Qed.
End OnePage.
End Order.

(** ** Following the cursors *)

(** A reader asks for the first page, then for the page after each cursor, each time on
    the tables as they then are; the flag says whether the end was reached. *)
Fixpoint read_on (request : option pystr → ReadState → result ApiError LogPage) (states : list ReadState) (cursor : option pystr)
  : result ApiError (list props * bool) :=
  match states with
  | [] => Ok ([], false)
  | st :: states =>
      let* shown := request cursor st in
      match snd shown with
      | None => Ok (fst shown, true)
      | Some c => let* rest := read_on request states (Some c) in Ok (fst shown ++ fst rest, snd rest)
      end
  end.

Section Reader.
Context {U : Unicode} {L : EdgeLib} (Hiso : iso_inverse).
Context {R : Type} (at_ : R → datetime) (id_ : R → uuid) (item : R → props) (q : LogQuery) (platform : option pystr)
  (texts : list (option pystr)) (matches : option Z → uuid → datetime → datetime → R → bool)
  (rows_of : ReadState → list R) (org : uuid).
Abbreviation key := (row_key at_ id_).

(** The range, the platform and the texts of the request are accepted. *)
Context (start stop : datetime) (code : option Z).
Hypothesis Hrange : log_range (lq_from q) (lq_to q) = Ok (start, stop).
Hypothesis Hcode : platform_filter platform = Ok code.
Hypothesis Htexts : forallb (opt_ok no_nul) texts = true.

(** The rows the log is about, and that tables hold them well: one of each key, at times
    and with ids the database holds. *)
Definition wanted (st : ReadState) : list R := List.filter (matches code (lq_app_id q) start stop) (rows_of st).

Record readable (st : ReadState) : Prop := {
  rb_app : require_app org (lq_app_id q) (rd_apps st) = Ok tt;
  rb_keys : NoDup (key <$> wanted st);
  rb_times : ∀ r, r ∈ wanted st → in_years (at_ r);
  rb_ids : ∀ r, r ∈ wanted st → uuid_ok (id_ r)
}.

(** Rows are only added. *)
Definition grows (st st' : ReadState) : Prop := ∀ k, k ∈ key <$> wanted st → k ∈ key <$> wanted st'.

Definition request (cursor : option pystr) (st : ReadState) : result ApiError LogPage :=
  serve at_ id_ item q cursor platform texts matches (rows_of st) org st.

Lemma in_years_sendable t u : in_years t → sendable (Some (t, u)) = true.
Proof.
  unfold in_years, sendable. intros Ht. apply andb_true_iff. rewrite Z.leb_le, Z.ltb_lt.
  assert (MIN_INSTANT <= FIRST_DAY * day ∧ LAST_DAY * day <= MAX_INSTANT) by (vm_compute; split; discriminate). lia.
Qed.

Lemma log_limit_pos : 1 <= log_limit (lq_limit q).
Proof. unfold log_limit. lia. Qed.

(** One request: the page, as [page_spec] has it. *)
Lemma request_page st cursor c :
  readable st → decode_cursor cursor = Ok c → sendable c = true →
  ∃ shown next, request cursor st = Ok (item <$> shown, next) ∧
    (∀ r, r ∈ shown → r ∈ wanted st ∧ after_cursor at_ id_ c r = true) ∧
    StronglySorted (strictly_newer at_ id_) shown ∧
    match next with
    | None => ∀ r, r ∈ wanted st → after_cursor at_ id_ c r = true → r ∈ shown
    | Some text => ∃ x, last shown = Some x ∧ (1 <= length shown)%nat ∧ decode_cursor (Some text) = Ok (Some (key x)) ∧
                     sendable (Some (key x)) = true ∧
                     ∀ r, r ∈ wanted st → after_cursor at_ id_ c r = true → r ∈ shown ∨ strictly_newer at_ id_ x r
    end.
Proof.
  intros Hst Hdec Hsend. unfold request, serve. rewrite (rb_app _ Hst), Hrange, Hdec, Hcode. cbn [rbind fst snd].
  rewrite Htexts, Hsend. cbn [andb negb raise_if rbind].
  set (m := matches code (lq_app_id q) start stop). set (size := log_limit (lq_limit q)).
  pose proof (page_spec at_ id_ m c (rows_of st) size log_limit_pos) as Hp.
  destruct (page at_ id_ _ size) as [shown next]. destruct Hp as [Es Hnext].
  assert (∀ r, r ∈ shown → r ∈ wanted st ∧ after_cursor at_ id_ c r = true) as Hin.
  { intros r Hr. rewrite Es in Hr. apply elem_of_take in Hr as (i & Hr & _). apply list_elem_of_lookup_2 in Hr.
    by apply all_elem in Hr. }
  pose proof (all_strict at_ id_ m c (rows_of st) (rb_keys _ Hst)) as Hall.
  exists shown, next. split; [done |]. split; [done |]. split.
  { rewrite Es. rewrite <- (take_drop (Z.to_nat size)) in Hall. by eapply StronglySorted_app_1_l. }
  destruct next as [text|]; [| intros r Hr Hc; rewrite Hnext; by apply all_elem].
  destruct Hnext as (x & Hx & -> & Hlen). exists x. split; [done |]. split; [done |].
  destruct (Hin x) as [Hxw _]; [by apply last_Some_elem_of |].
  split; [apply cursor_round_trip; [done | by apply (rb_times _ Hst) | by apply (rb_ids _ Hst)] |].
  split; [apply in_years_sendable; by apply (rb_times _ Hst) |]. intros r Hr Hc.
  assert (r ∈ merge_sort (newer at_ id_) (List.filter (λ r, m r && after_cursor at_ id_ c r) (rows_of st))) as Hra by (by apply all_elem).
  rewrite <- (take_drop (Z.to_nat size)) in Hra. apply elem_of_app in Hra as [Hra|Hra]; [left; by rewrite Es |].
  right. eapply after_page; [exact Hall | rewrite <- Es; exact Hx | exact Hra].
Qed.

(** The reading from any cursor on. *)
Lemma read_on_spec states : ∀ cursor c,
  Forall readable states → Sorted grows states → decode_cursor cursor = Ok c → sendable c = true →
  ∃ rows done, read_on request states cursor = Ok (item <$> rows, done) ∧
    StronglySorted (strictly_newer at_ id_) rows ∧
    (∀ r, r ∈ rows → after_cursor at_ id_ c r = true ∧ ∃ st, st ∈ states ∧ r ∈ wanted st) ∧
    (if done then ∀ st r, head states = Some st → r ∈ wanted st → after_cursor at_ id_ c r = true → key r ∈ key <$> rows
     else (length states <= length rows)%nat).
Proof.
  induction states as [|st states IH]; intros cursor c Hok Hg Hdec Hsend.
  { exists [], false. split; [done |]. split; [constructor |]. split; [by intros r ?%elem_of_nil | cbn; lia]. }
  apply Forall_cons in Hok as [Hst Hok]. apply Sorted_inv in Hg as [Hg Hhd].
  destruct (request_page st cursor c Hst Hdec Hsend) as (shown & next & Er & Hin & Hsort & Hnext).
  cbn [read_on]. rewrite Er. cbn [rbind fst snd]. destruct next as [text|].
  - destruct Hnext as (x & Hx & Hlen & Hdec' & Hsend' & Hrest).
    destruct (IH (Some text) (Some (key x)) Hok Hg Hdec' Hsend') as (rows & dn & Eo & Hsort' & Hin' & Hdone).
    rewrite Eo. cbn [rbind fst snd]. exists (shown ++ rows), dn. split; [by rewrite fmap_app |]. split.
    { apply (strict_app at_ id_ shown rows x); [done | done | done |]. intros y Hy. by destruct (Hin' y Hy). }
    assert (x ∈ shown) as Hxs by (by apply last_Some_elem_of). destruct (Hin x Hxs) as [_ Hxc].
    split.
    { intros r [Hr|Hr]%elem_of_app; [destruct (Hin r Hr); split; [done |]; exists st; split; [by left | done] |].
      destruct (Hin' r Hr) as [Hrx (st' & Hst' & Hrs)]. split; [| exists st'; split; [by right | done]].
      destruct c as [c|]; [| done]. cbn [after_cursor] in *. by eapply before_trans. }
    destruct dn; [| rewrite length_app; cbn [length]; lia]. intros st0 r E Hr Hc. cbn in E. injection E as <-.
    rewrite fmap_app. apply elem_of_app. destruct (Hrest r Hr Hc) as [Hs|Hs]; [left; by apply list_elem_of_fmap_2 | right].
    destruct Hhd as [|st1 states' Hgrow].
    { cbn in Eo. by injection Eo as _ ?. }
    assert (key r ∈ key <$> wanted st1) as (r1 & E1 & Hr1)%list_elem_of_fmap by (by apply Hgrow, list_elem_of_fmap_2).
    rewrite E1. apply (Hdone st1 r1); [done | done |]. unfold strictly_newer in Hs. by rewrite E1 in Hs.
  - exists shown, true. split; [done |]. split; [done |]. split.
    { intros r Hr. destruct (Hin r Hr). split; [done |]. exists st. split; [by left | done]. }
    intros st0 r E Hr Hc. cbn in E. injection E as <-. by apply list_elem_of_fmap_2, Hnext.
Qed.
End Reader.

(** Reading from the start, over states whose last holds [n] rows: with a page more than
    that the end is reached, everything that was there at the start was shown, once and in
    order, and nothing else than what was there when it was shown. *)
Lemma last_from {A} (x : A) l d : List.last (x :: l) d = List.last l x.
Proof. revert x d. induction l as [|y l IH]; intros x d; [done |]. rewrite (IH y x). apply (IH y d). Qed.

Lemma last_elem {A} (x : A) l : List.last l x ∈ x :: l.
Proof. revert x. induction l as [|y l IH]; intros x; [by left |]. rewrite last_from. right. apply IH. Qed.

Section Complete.
Context {U : Unicode} {L : EdgeLib} {R : Type} (at_ : R → datetime) (id_ : R → uuid) (item : R → props).
Abbreviation key := (row_key at_ id_).

Definition shows_all (wanted : ReadState → list R) (request : option pystr → ReadState → result ApiError LogPage)
    (first : ReadState) (states : list ReadState) : Prop :=
  ∃ rows, read_on request (first :: states) None = Ok (item <$> rows, true) ∧
    StronglySorted (strictly_newer at_ id_) rows ∧ NoDup (key <$> rows) ∧
    (∀ r, r ∈ wanted first → key r ∈ key <$> rows) ∧
    (∀ r, r ∈ rows → ∃ st, st ∈ first :: states ∧ r ∈ wanted st).

Lemma grows_last q matches rows_of start stop code first states st :
  Sorted (grows at_ id_ q matches rows_of start stop code) (first :: states) → st ∈ first :: states →
  grows at_ id_ q matches rows_of start stop code st (List.last states first).
Proof.
  revert first st. induction states as [|s states IH]; intros first st Hg Hst.
  - apply list_elem_of_singleton in Hst as ->. by intros k.
  - apply Sorted_inv in Hg as [Hg Hhd]. inversion Hhd as [|? ? Hfs]; subst.
    rewrite last_from.
    apply elem_of_cons in Hst as [->|Hst]; [| by apply IH].
    intros k Hk. apply (IH s s Hg); [by left | by apply Hfs].
Qed.

Lemma serve_complete q platform texts matches rows_of org start stop code first states :
  iso_inverse → log_range (lq_from q) (lq_to q) = Ok (start, stop) → platform_filter platform = Ok code →
  forallb (opt_ok no_nul) texts = true →
  let wanted := wanted q matches rows_of start stop code in
  Forall (readable at_ id_ q matches rows_of org start stop code) (first :: states) →
  Sorted (grows at_ id_ q matches rows_of start stop code) (first :: states) →
  (length (wanted (List.last states first)) <= length states)%nat →
  shows_all wanted (request at_ id_ item q platform texts matches rows_of org) first states.
Proof.
  intros Hiso Hrange Hcode Htexts w Hok Hg Hlen.
  destruct (read_on_spec Hiso at_ id_ item q platform texts matches rows_of org start stop code Hrange Hcode Htexts
              (first :: states) None None Hok Hg eq_refl eq_refl) as (rows & dn & Er & Hs & Hin & Hdone).
  assert (NoDup (key <$> rows)) as Hnd by (by apply strict_keys).
  assert (dn = true) as ->.
  { destruct dn; [done |]. exfalso. cbn [length] in Hdone.
    assert (key <$> rows ⊆ key <$> w (List.last states first)) as Hsub.
    { intros k (r & -> & Hr)%list_elem_of_fmap. destruct (Hin r Hr) as [_ (st & Hst & Hrs)].
      apply (grows_last q matches rows_of start stop code first states st Hg Hst). by apply list_elem_of_fmap_2. }
    pose proof (submseteq_length _ _ (NoDup_submseteq _ _ Hnd Hsub)) as Hl. rewrite !length_fmap in Hl. lia. }
  exists rows. split; [done |]. split; [done |]. split; [done |]. split.
  - intros r Hr. by apply (Hdone first r).
  - intros r Hr. by destruct (Hin r Hr).
Qed.
End Complete.

(** ** The logs *)

(** Tables as the database keeps them: keys are unique, and times and ids are ones it
    holds. *)
Record log_tables (st : ReadState) : Prop := {
  lt_events : NoDup (event_key <$> rd_events st);
  lt_clicks : NoDup (click_key <$> rd_clicks st);
  lt_installs : NoDup (a_id <$> rd_attributions st);
  lt_links : NoDup ((λ l, lr_id (lk_row l)) <$> rd_links st);
  lt_campaigns : NoDup (cm_id <$> rd_campaigns st);
  lt_event_ok : ∀ r, r ∈ rd_events st → in_years (er_received_at r) ∧ uuid_ok (er_event_id r);
  lt_click_ok : ∀ r, r ∈ rd_clicks st → in_years (cr_clicked_at r) ∧ uuid_ok (cr_click_id r);
  lt_install_ok : ∀ r, r ∈ rd_attributions st → in_years (a_attributed_at r) ∧ uuid_ok (a_id r)
}.

(** What an attribution keeps when it is superseded. *)
Definition same_install (a b : AttributionRow) : Prop :=
  a_id b = a_id a ∧ a_organization_id b = a_organization_id a ∧ a_app_id b = a_app_id a ∧
  a_attributed_at b = a_attributed_at a ∧ a_method b = a_method a ∧ a_fraud_verdict b = a_fraud_verdict a ∧
  a_anonymous_id b = a_anonymous_id a.

(** Events and clicks are only added; attributions are added and superseded.  Links and
    campaigns may change. *)
Record log_grows (st st' : ReadState) : Prop := {
  lw_events : ∀ r, r ∈ rd_events st → r ∈ rd_events st';
  lw_clicks : ∀ r, r ∈ rd_clicks st → r ∈ rd_clicks st';
  lw_installs : ∀ r, r ∈ rd_attributions st → ∃ r', r' ∈ rd_attributions st' ∧ same_install r r'
}.

Lemma of_org_elem {R} (org_of : R → uuid) org rows r : r ∈ of_org org_of org rows ↔ r ∈ rows ∧ org_of r = org.
Proof. unfold of_org. by rewrite elem_of_lfilter, bool_decide_eq_true. Qed.

(** The names beside the rows: one link and one campaign at most. *)
Lemma optional_match {A B} (ka : A → option uuid) (kb : B → uuid) a (lb : list B) :
  NoDup (kb <$> lb) → List.filter (λ b, bool_decide (ka a = Some (kb b))) lb = option_list (k ← ka a; the kb k lb).
Proof.
  intros Hn. destruct (ka a) as [k|]; cbn [mbind option_bind].
  - rewrite <- having_single by done. apply List.filter_ext. intros b. apply bool_decide_ext. split; congruence.
  - induction lb as [|b lb IH]; [done |]. cbn [List.filter]. rewrite bool_decide_false by done. apply IH. by apply NoDup_cons in Hn as [_ ?].
Qed.

Lemma with_names_rows {R} (link_of campaign_of : R → option uuid) org st rows :
  log_tables st →
  ∃ f g, with_names link_of campaign_of org st rows = (λ r, (r, f r, g r)) <$> rows.
Proof.
  intros Hst. unfold with_names, joins_link, joins_campaign.
  assert (NoDup ((λ l, lr_id (lk_row l)) <$> visible_links org st)) as Hl by (apply NoDup_fmap_filter, (lt_links _ Hst)).
  assert (NoDup (cm_id <$> visible_campaigns org st)) as Hc by (apply NoDup_fmap_filter, (lt_campaigns _ Hst)).
  rewrite (left_join_match _ _ _ _ (λ r, optional_match link_of _ r _ Hl)).
  rewrite (left_join_match _ _ _ _ (λ p, optional_match (λ p, campaign_of (fst p)) _ p _ Hc)).
  eexists _, (λ r, c ← campaign_of r; the cm_id c (visible_campaigns org st)). by rewrite <- list_fmap_compose.
Qed.

Section Logs.
Context {U : Unicode} {L : EdgeLib} (q : LogQuery) (org : uuid).

Abbreviation event_rows st := (of_org er_organization_id org (rd_events st)).
Abbreviation click_rows st :=
  (with_names (λ c, Some (cr_tracking_link_id c)) cr_campaign_id org st (of_org cr_organization_id org (rd_clicks st))).
Abbreviation install_rows st :=
  (with_names a_tracking_link_id a_campaign_id org st (of_org a_organization_id org (rd_attributions st))).

(** What the requests of a reader are about, and the rows they should show. *)
Definition wanted_events (f : EventFilter) (code : option Z) (start stop : datetime) (st : ReadState) : list EventRow :=
  List.filter (event_matches f code (lq_app_id q) start stop) (event_rows st).
Definition wanted_clicks (f : ClickFilter) (code : option Z) (start stop : datetime) (st : ReadState) : list (Named ClickRecord) :=
  List.filter (click_matches f code (lq_app_id q) start stop) (click_rows st).
Definition wanted_installs (f : InstallFilter) (start stop : datetime) (st : ReadState) : list (Named AttributionRow) :=
  List.filter (install_matches f (lq_app_id q) start stop) (install_rows st).

Definition log_state (st : ReadState) : Prop := log_tables st ∧ require_app org (lq_app_id q) (rd_apps st) = Ok tt.

Abbreviation click_at := (λ p : Named ClickRecord, cr_clicked_at (fst (fst p))).
Abbreviation click_id := (λ p : Named ClickRecord, cr_click_id (fst (fst p))).
Abbreviation install_at := (λ p : Named AttributionRow, a_attributed_at (fst (fst p))).
Abbreviation install_id := (λ p : Named AttributionRow, a_id (fst (fst p))).

Lemma events_readable f code start stop st :
  log_state st →
  readable er_received_at er_event_id q (event_matches f) (λ st, event_rows st) org start stop code st.
Proof.
  intros [Hst Happ]. split; [done | | |]; unfold wanted.
  - eapply (NoDup_fmap_1 (λ k : Cursor, (fst k, lq_app_id q, snd k))).
    assert (∀ l, (∀ r, r ∈ l → er_app_id r = lq_app_id q) →
      (λ k : Cursor, (fst k, lq_app_id q, snd k)) <$> (row_key er_received_at er_event_id <$> l) = event_key <$> l) as ->.
    { intros l Hl. rewrite <- list_fmap_compose. apply list_fmap_ext. intros i r Hr%list_elem_of_lookup_2. cbn.
      unfold event_key. by rewrite (Hl r Hr). }
    + by apply NoDup_fmap_filter, NoDup_fmap_filter, (lt_events _ Hst).
    + intros r [_ Hm]%elem_of_lfilter. unfold event_matches in Hm. rewrite !andb_true_iff, bool_decide_eq_true in Hm. tauto.
  - intros r [[Hr _]%of_org_elem _]%elem_of_lfilter. by apply (lt_event_ok _ Hst).
  - intros r [[Hr _]%of_org_elem _]%elem_of_lfilter. by apply (lt_event_ok _ Hst).
Qed.

Lemma clicks_readable f code start stop st :
  log_state st →
  readable click_at click_id q (click_matches f) (λ st, click_rows st) org start stop code st.
Proof.
  intros [Hst Happ]. destruct (with_names_rows (λ c, Some (cr_tracking_link_id c)) cr_campaign_id org st
    (of_org cr_organization_id org (rd_clicks st)) Hst) as (g & h & E).
  assert (∀ p, p ∈ click_rows st → fst (fst p) ∈ rd_clicks st) as Hin.
  { intros p Hp. rewrite E in Hp. apply list_elem_of_fmap in Hp as (r & -> & [Hr _]%of_org_elem). done. }
  split; [done | | |]; unfold wanted.
  - apply NoDup_fmap_filter. rewrite E, <- list_fmap_compose. by apply NoDup_fmap_filter, (lt_clicks _ Hst).
  - intros p [Hp%Hin _]%elem_of_lfilter. by apply (lt_click_ok _ Hst).
  - intros p [Hp%Hin _]%elem_of_lfilter. by apply (lt_click_ok _ Hst).
Qed.

Lemma installs_readable f code start stop st :
  log_state st →
  readable install_at install_id q (λ _, install_matches f) (λ st, install_rows st) org start stop code st.
Proof.
  intros [Hst Happ]. destruct (with_names_rows a_tracking_link_id a_campaign_id org st
    (of_org a_organization_id org (rd_attributions st)) Hst) as (g & h & E).
  assert (∀ p, p ∈ install_rows st → fst (fst p) ∈ rd_attributions st) as Hin.
  { intros p Hp. rewrite E in Hp. apply list_elem_of_fmap in Hp as (r & -> & [Hr _]%of_org_elem). done. }
  split; [done | | |]; unfold wanted.
  - apply (NoDup_fmap_1 snd). rewrite <- list_fmap_compose. change (snd ∘ row_key install_at install_id) with install_id.
    apply NoDup_fmap_filter. rewrite E, <- list_fmap_compose. by apply NoDup_fmap_filter, (lt_installs _ Hst).
  - intros p [Hp%Hin _]%elem_of_lfilter. by apply (lt_install_ok _ Hst).
  - intros p [Hp%Hin _]%elem_of_lfilter. by apply (lt_install_ok _ Hst).
Qed.

Lemma matching_event_grows f code start stop st st' :
  log_grows st st' → grows er_received_at er_event_id q (event_matches f) (λ st, event_rows st) start stop code st st'.
Proof.
  intros Hg k (r & -> & [[Hr Ho]%of_org_elem Hm]%elem_of_lfilter)%list_elem_of_fmap.
  apply list_elem_of_fmap_2, elem_of_lfilter. split; [| done]. apply of_org_elem. split; [| done]. by apply (lw_events _ _ Hg).
Qed.

(** A row with its names is found again, with the names it then has. *)
Lemma named_again {R} (link_of campaign_of : R → option uuid) st st' rows rows' (p : Named R) r' :
  log_tables st → log_tables st' → p ∈ with_names link_of campaign_of org st rows → r' ∈ rows' →
  ∃ p', p' ∈ with_names link_of campaign_of org st' rows' ∧ fst (fst p') = r' ∧ fst (fst p) ∈ rows.
Proof.
  intros Hst Hst' Hp Hr'. destruct (with_names_rows link_of campaign_of org st rows Hst) as (g & h & E).
  destruct (with_names_rows link_of campaign_of org st' rows' Hst') as (g' & h' & E'). rewrite E in Hp. rewrite E'.
  apply list_elem_of_fmap in Hp as (r & -> & Hr). exists (r', g' r', h' r'). split; [| done]. apply list_elem_of_fmap. eauto.
Qed.

Lemma named_row {R} (link_of campaign_of : R → option uuid) st rows (p : Named R) :
  log_tables st → p ∈ with_names link_of campaign_of org st rows → fst (fst p) ∈ rows.
Proof.
  intros Hst Hp. destruct (with_names_rows link_of campaign_of org st rows Hst) as (g & h & E). rewrite E in Hp.
  by apply list_elem_of_fmap in Hp as (r & -> & Hr).
Qed.

Lemma matching_click_grows f code start stop st st' :
  log_tables st → log_tables st' → log_grows st st' →
  grows click_at click_id q (click_matches f) (λ st, click_rows st) start stop code st st'.
Proof.
  intros Hst Hst' Hg k (p & -> & [Hp Hm]%elem_of_lfilter)%list_elem_of_fmap.
  pose proof (named_row _ _ _ _ _ Hst Hp) as [Hr Ho]%of_org_elem. apply (lw_clicks _ _ Hg) in Hr.
  destruct (named_again _ _ _ _ _ (of_org cr_organization_id org (rd_clicks st')) _ (fst (fst p)) Hst Hst' Hp) as (p' & Hp' & E & _);
    [by apply of_org_elem |].
  apply list_elem_of_fmap. exists p'. unfold row_key. rewrite E. split; [done |]. apply elem_of_lfilter. split; [done |].
  unfold click_matches in *. by rewrite E.
Qed.

Lemma matching_install_grows f code start stop st st' :
  log_tables st → log_tables st' → log_grows st st' →
  grows install_at install_id q (λ _, install_matches f) (λ st, install_rows st) start stop code st st'.
Proof.
  intros Hst Hst' Hg k (p & -> & [Hp Hm]%elem_of_lfilter)%list_elem_of_fmap.
  pose proof (named_row _ _ _ _ _ Hst Hp) as [Hr Ho]%of_org_elem.
  destruct (lw_installs _ _ Hg _ Hr) as (r' & Hr' & Ei & Eo & Ea & Et & Em & Ev & En).
  destruct (named_again _ _ _ _ _ (of_org a_organization_id org (rd_attributions st')) _ r' Hst Hst' Hp) as (p' & Hp' & E & _);
    [apply of_org_elem; split; congruence |].
  apply list_elem_of_fmap. exists p'. unfold row_key. rewrite E, Ei, Et. split; [done |]. apply elem_of_lfilter. split; [done |].
  unfold install_matches in *. by rewrite E, Ea, Et, Em, Ev, En.
Qed.

(** The growth of the tables, as growth of each log. *)
Lemma sorted_growth (G : ReadState → ReadState → Prop) states :
  (∀ st st', log_tables st → log_tables st' → log_grows st st' → G st st') →
  Forall log_state states → Sorted log_grows states → Sorted G states.
Proof.
  intros HG Hok. induction 1 as [|st states Hs IH Hhd]; [constructor |]. apply Forall_cons in Hok as [Hst Hok].
  constructor; [by apply IH |]. destruct Hhd as [|st' states Hg]; constructor. apply Forall_cons in Hok as [Hst' _].
  apply HG; [apply Hst | apply Hst' | done].
Qed.

Lemma with_names_length {R} (link_of campaign_of : R → option uuid) st rows :
  log_tables st → length (with_names link_of campaign_of org st rows) = length rows.
Proof. intros Hst. destruct (with_names_rows link_of campaign_of org st rows Hst) as (g & h & ->). apply length_fmap. Qed.

Lemma filter_length_le {A} (p : A → bool) (l : list A) : (length (List.filter p l) <= length l)%nat.
Proof. induction l as [|x l IH]; [done |]. cbn. destruct (p x); cbn; lia. Qed.

(** (C19) Following the cursors of a log shows it all.  Whoever asks for page after page of a
    valid query, while events, clicks and installs go on being written, attributions are
    superseded and links and campaigns are renamed, reaches the end, and on the way is shown
    every matching row that was there at the first page exactly once, newest first, and no
    row that does not match.  Of the three logs alike. *)
Theorem reading_a_log_is_complete start stop first states :
  iso_inverse → log_range (lq_from q) (lq_to q) = Ok (start, stop) →
  Forall log_state (first :: states) → Sorted log_grows (first :: states) →
  let final := List.last states first in
  (∀ f code, platform_filter (ef_platform f) = Ok code →
     forallb (opt_ok no_nul) [ef_event_name f; ef_anonymous_id f; ef_user_id f] = true →
     (length (rd_events final) <= length states)%nat →
     shows_all er_received_at er_event_id event_item (wanted_events f code start stop)
       (λ cursor st, event_log_handler q f cursor org st) first states) ∧
  (∀ f code, platform_filter (cf_platform f) = Ok code → opt_ok no_nul ((λ c, take 2 (py_upper c)) <$> or_none (cf_country f)) = true →
     (length (rd_clicks final) <= length states)%nat →
     shows_all click_at click_id click_item (wanted_clicks f code start stop)
       (λ cursor st, click_log_handler q f cursor org st) first states) ∧
  (∀ f, forallb (opt_ok no_nul) [if_method f; if_verdict f; if_anonymous_id f] = true →
     (length (rd_attributions final) <= length states)%nat →
     shows_all install_at install_id install_item (wanted_installs f start stop)
       (λ cursor st, install_log_handler q f cursor org st) first states).
Proof.
  intros Hiso Hrange Hok Hg final.
  assert (log_state final) as Hfinal by (rewrite Forall_forall in Hok; apply Hok, last_elem). split; [| split].
  - intros f code Hcode Htexts Hlen. apply (serve_complete _ _ _ _ _ _ (event_matches f) (λ st, event_rows st)); try done.
    + eapply Forall_impl; [exact Hok |]. intros st Hst. by apply events_readable.
    + eapply sorted_growth; [| exact Hok | exact Hg]. intros st st' _ _. apply matching_event_grows.
    + etrans; [apply filter_length_le |]. etrans; [apply filter_length_le | exact Hlen].
  - intros f code Hcode Htexts Hlen. apply (serve_complete _ _ _ _ _ _ (click_matches f) (λ st, click_rows st)); try done.
    + cbn [forallb]. by rewrite Htexts.
    + eapply Forall_impl; [exact Hok |]. intros st Hst. by apply clicks_readable.
    + eapply sorted_growth; [| exact Hok | exact Hg]. intros st st'. apply matching_click_grows.
    + etrans; [apply filter_length_le |]. cbn beta. rewrite with_names_length by apply Hfinal.
      etrans; [apply filter_length_le | exact Hlen].
  - intros f Htexts Hlen. apply (serve_complete _ _ _ _ _ _ (λ _, install_matches f) (λ st, install_rows st) _ _ _ None); try done.
    + eapply Forall_impl; [exact Hok |]. intros st Hst. by apply installs_readable.
    + eapply sorted_growth; [| exact Hok | exact Hg]. intros st st'. apply matching_install_grows.
    + etrans; [apply filter_length_le |]. cbn beta. rewrite with_names_length by apply Hfinal.
      etrans; [apply filter_length_le | exact Hlen].
Qed.
End Logs.

(** ** Witnesses *)

Definition ex_log_event (t : datetime) (id : uuid) : EventRow :=
  {| er_event_id := id; er_received_at := 20000 * day + t; er_occurred_at := 20000 * day + t; er_organization_id := 101; er_app_id := 9;
     er_event_name := py "purchase"; er_anonymous_id := py "device"; er_user_id := None; er_session_id := None; er_platform := 1;
     er_os_version := None; er_app_version := None; er_device_model := None; er_country := None; er_ip_hash := Some [1%N];
     er_click_id := None; er_revenue_minor := None; er_currency := None; er_clock_skew_ms := None; er_properties := [] |}.
Definition ex_log_state (events : list EventRow) : ReadState :=
  {| rd_apps := [{| af_id := 9; af_organization_id := 101; af_status := py "active" |}]; rd_campaigns := []; rd_links := [];
     rd_events := events; rd_clicks := []; rd_attributions := [] |}.
Definition ex_log_query : LogQuery := {| lq_app_id := 9; lq_from := 20000; lq_to := 20000; lq_limit := 2 |}.
Definition ex_no_filter : EventFilter := {| ef_event_name := None; ef_platform := None; ef_anonymous_id := None; ef_user_id := None |}.

(** Three events in the first state; one arrives late, older than the first page, and one
    now, while they are read two at a time. *)
Definition ex_log_first : ReadState := ex_log_state [ex_log_event 10 1; ex_log_event 30 3; ex_log_event 30 4].
Definition ex_log_later : ReadState :=
  ex_log_state [ex_log_event 10 1; ex_log_event 30 3; ex_log_event 30 4; ex_log_event 20 2; ex_log_event 40 5].

Lemma ex_log_tables events :
  NoDup (event_key <$> events) → Forall (λ r, in_years (er_received_at r) ∧ uuid_ok (er_event_id r)) events →
  log_state ex_log_query 101 (ex_log_state events).
Proof.
  intros Hn Hok. rewrite Forall_forall in Hok. split; [| reflexivity].
  split; try (by constructor); try (by intros ? ?%elem_of_nil); done.
Qed.

Lemma ex_log_states_ok : Forall (log_state ex_log_query 101) (ex_log_first :: replicate 5 ex_log_later).
Proof.
  assert (log_state ex_log_query 101 ex_log_later) as Hl.
  { apply ex_log_tables; [apply (bool_decide_unpack _); vm_compute; exact I |].
    repeat (apply Forall_cons; split; [split; [split |]; vm_compute; (reflexivity || discriminate) |]). by apply Forall_nil_2. }
  apply Forall_cons. split; [| by apply Forall_replicate].
  apply ex_log_tables; [apply (bool_decide_unpack _); vm_compute; exact I |].
  repeat (apply Forall_cons; split; [split; [split |]; vm_compute; (reflexivity || discriminate) |]). by apply Forall_nil_2.
Qed.

Lemma ex_log_states_grow : Sorted log_grows (ex_log_first :: replicate 5 ex_log_later).
Proof.
  assert (∀ st, log_grows st st) as Hrefl by (intros st; split; [done | done |]; intros r Hr; exists r; by repeat split).
  cbn [replicate]. repeat (apply Sorted_cons; [| by constructor]). apply Sorted_cons.
  - repeat (apply Sorted_cons; [| by constructor]). apply Sorted_nil.
  - constructor. split; cbn [ex_log_first ex_log_later ex_log_state rd_events rd_clicks rd_attributions]; [| done |].
    + intros r Hr. set_solver.
    + by intros r ?%elem_of_nil.
Qed.

Abbreviation ex_read := (read_on (λ cursor st, @event_log_handler ascii_unicode iso_lib ex_log_query ex_no_filter cursor 101 st)
  (ex_log_first :: replicate 5 ex_log_later) None).

(** The reader is shown the event that came in behind its cursor, and not the one in front
    of it. *)
Lemma reading_a_log_is_complete_witness :
  (∃ rows, ex_read = Ok (event_item <$> rows, true) ∧ NoDup (row_key er_received_at er_event_id <$> rows)) ∧
  match ex_read with
  | Ok (items, _) => omap (od_get (py "event_id")) items = [juuid 4; juuid 3; juuid 2; juuid 1]
  | Err _ => False
  end.
Proof.
  split; [| vm_compute; reflexivity].
  destruct (@reading_a_log_is_complete ascii_unicode iso_lib ex_log_query 101 (20000 * day) (20001 * day)
    ex_log_first (replicate 5 ex_log_later) iso_lib_inverse eq_refl ex_log_states_ok ex_log_states_grow) as [He _].
  destruct (He ex_no_filter None eq_refl eq_refl) as (rows & E & _ & Hn & _); [cbn; lia |]. exists rows. split; [exact E | exact Hn].
Defined.

(** ** What the code does beyond its documentation *)

(** *** The last day of the calendar

    The end of a range is the day after it: a range that ends on 9999-12-31 is a server
    error. *)
Lemma last_day_is_a_server_error :
  @event_log_handler ascii_unicode iso_lib {| lq_app_id := 9; lq_from := MAX_DATE; lq_to := MAX_DATE; lq_limit := 2 |} ex_no_filter
    None 101 ex_log_first = Err Crash.
Proof. vm_compute. reflexivity. Qed.
