(* ===== verification/ExportApi.v ===== *)
(** * Raw data export (mmp_api/routes/exports.py)

    An export is recorded in the audit log before a row leaves, then streams the rows of
    one app in a range of time as CSV, batch by batch, through a connection of its own.  A
    row of a table is its columns by name; a dataset names the columns it exports.

    [exports_are_faithful]: the file reads back as exactly those columns of exactly the
    rows in range, in order, or says it was aborted; nothing of the hashes and user agents
    in the tables is in it; and the log has who asked. *)

From stdpp Require Import sorting.
From S2P Require Import Prelude Ids Schema Templates IpAddr Engine Fraud Store Writer AuditLog Access Handlers SqlText LinkApi Cursors Csv LogApi.

#[local] Open Scope Z_scope.
#[local] Open Scope mmp_scope.

Definition MAX_RANGE : timedelta := 31 * day.
Definition MAX_ROWS : Z := 1000000.
Definition BATCH : Z := 2000.

Record Dataset := { ds_table : pystr; ds_time_column : pystr; ds_columns : list pystr }.

Definition DATASETS : list (pystr * Dataset) :=
  [(py "events",
    {| ds_table := py "events"; ds_time_column := py "received_at";
       ds_columns := [py "event_id"; py "received_at"; py "occurred_at"; py "app_id"; py "event_name"; py "anonymous_id";
                      py "user_id"; py "session_id"; py "platform"; py "os_version"; py "app_version"; py "device_model";
                      py "country"; py "click_id"; py "revenue_minor"; py "currency"; py "properties"] |});
   (py "clicks",
    {| ds_table := py "clicks"; ds_time_column := py "clicked_at";
       ds_columns := [py "click_id"; py "clicked_at"; py "app_id"; py "campaign_id"; py "tracking_link_id"; py "country";
                      py "platform"; py "os_version"; py "device_model"; py "sub1"; py "sub2"; py "sub3"; py "is_bot";
                      py "deep_link"] |});
   (py "attributions",
    {| ds_table := py "attributions"; ds_time_column := py "installed_at";
       ds_columns := [py "id"; py "app_id"; py "anonymous_id"; py "user_id"; py "click_id"; py "campaign_id";
                      py "tracking_link_id"; py "source"; py "medium"; py "method"; py "installed_at"; py "attributed_at";
                      py "window_days"; py "fraud_score"; py "fraud_verdict"; py "deep_link"; py "sub1"; py "sub2"; py "sub3"] |})].

(** [_query]: the statement, whose only names are the dataset's. *)
Definition query (d : Dataset) : result SqlTextError pystr :=
  let* t := identifier (ds_time_column d) in
  let* t' := identifier (ds_time_column d) in
  let* o := identifier (ds_time_column d) in
  select (ds_table d) (NameList (ds_columns d)) (py "app_id = $1 AND " ++ t ++ py " >= $2 AND " ++ t' ++ py " < $3")
    (py "ORDER BY " ++ o ++ py " LIMIT " ++ py_str_int (MAX_ROWS + 1)).

(** ** Rows by column *)

(** What the driver and [str] make of values: the text of a [jsonb] column, of bytes, and
    the time zone a naive time is taken to be in. *)
Class ExportLib := { jsonb_text : props → pystr; bytes_text : list N → pystr; local_offset : timedelta }.

(** [str] of a time in UTC. *)
Definition str_of_time (t : datetime) : pystr := day_isoformat t ++ py " " ++ clock_text t ++ py "+00:00".
Definition str_of_bool (b : bool) : pystr := if b then py "True" else py "False".

(** A row of any table: its app, its times and its columns as text; null is [None]. *)
Record AnyRow := { an_app_id : uuid; an_times : list (pystr * datetime); an_cells : list (pystr * option pystr) }.

Section Rows.
Context {XL : ExportLib}.

Definition event_any (r : EventRow) : AnyRow :=
  {| an_app_id := er_app_id r;
     an_times := [(py "received_at", er_received_at r); (py "occurred_at", er_occurred_at r)];
     an_cells :=
       [(py "event_id", Some (str_of_uuid (er_event_id r))); (py "received_at", Some (str_of_time (er_received_at r)));
        (py "occurred_at", Some (str_of_time (er_occurred_at r)));
        (py "organization_id", Some (str_of_uuid (er_organization_id r))); (py "app_id", Some (str_of_uuid (er_app_id r)));
        (py "event_name", Some (er_event_name r)); (py "anonymous_id", Some (er_anonymous_id r)); (py "user_id", er_user_id r);
        (py "session_id", str_of_uuid <$> er_session_id r); (py "platform", Some (py_str_int (er_platform r)));
        (py "os_version", er_os_version r); (py "app_version", er_app_version r); (py "device_model", er_device_model r);
        (py "country", er_country r); (py "ip_hash", bytes_text <$> er_ip_hash r); (py "click_id", str_of_uuid <$> er_click_id r);
        (py "revenue_minor", py_str_int <$> er_revenue_minor r); (py "currency", er_currency r);
        (py "clock_skew_ms", py_str_int <$> er_clock_skew_ms r); (py "properties", Some (jsonb_text (er_properties r)))] |}.

Definition click_any (r : ClickRecord) : AnyRow :=
  {| an_app_id := cr_app_id r;
     an_times := [(py "clicked_at", cr_clicked_at r)];
     an_cells :=
       [(py "click_id", Some (str_of_uuid (cr_click_id r))); (py "clicked_at", Some (str_of_time (cr_clicked_at r)));
        (py "organization_id", Some (str_of_uuid (cr_organization_id r))); (py "app_id", Some (str_of_uuid (cr_app_id r)));
        (py "campaign_id", str_of_uuid <$> cr_campaign_id r); (py "tracking_link_id", Some (str_of_uuid (cr_tracking_link_id r)));
        (py "device_hash", bytes_text <$> cr_device_hash r); (py "ip_hash", bytes_text <$> cr_ip_hash r);
        (py "country", cr_country r); (py "platform", Some (py_str_int (cr_platform r))); (py "os_version", cr_os_version r);
        (py "device_model", cr_device_model r); (py "user_agent", cr_user_agent r); (py "sub1", cr_sub1 r); (py "sub2", cr_sub2 r);
        (py "sub3", cr_sub3 r); (py "is_bot", Some (str_of_bool (cr_is_bot r))); (py "deep_link", cr_deep_link r)] |}.

Definition attribution_any (r : AttributionRow) : AnyRow :=
  {| an_app_id := a_app_id r;
     an_times := [(py "installed_at", a_installed_at r); (py "attributed_at", a_attributed_at r)];
     an_cells :=
       [(py "id", Some (str_of_uuid (a_id r))); (py "organization_id", Some (str_of_uuid (a_organization_id r)));
        (py "app_id", Some (str_of_uuid (a_app_id r))); (py "anonymous_id", Some (a_anonymous_id r)); (py "user_id", a_user_id r);
        (py "click_id", str_of_uuid <$> a_click_id r); (py "campaign_id", str_of_uuid <$> a_campaign_id r);
        (py "tracking_link_id", str_of_uuid <$> a_tracking_link_id r); (py "source", a_source r); (py "medium", a_medium r);
        (py "method", Some (method_value (a_method r))); (py "installed_at", Some (str_of_time (a_installed_at r)));
        (py "attributed_at", Some (str_of_time (a_attributed_at r))); (py "window_days", Some (py_str_int (a_window_days r)));
        (py "fraud_score", Some (py_str_int (a_fraud_score r))); (py "fraud_verdict", Some (verdict_text (a_fraud_verdict r)));
        (py "deep_link", a_deep_link r); (py "sub1", a_sub1 r); (py "sub2", a_sub2 r); (py "sub3", a_sub3 r)] |}.

(** The rows of a table a connection of the organisation sees. *)
Definition rows_of (table : pystr) (org : uuid) (st : ReadState) : list AnyRow :=
  if bool_decide (table = py "events") then event_any <$> of_org er_organization_id org (rd_events st)
  else if bool_decide (table = py "clicks") then click_any <$> of_org cr_organization_id org (rd_clicks st)
  else if bool_decide (table = py "attributions") then attribution_any <$> of_org a_organization_id org (rd_attributions st)
  else [].

Definition time_of (column : pystr) (r : AnyRow) : datetime := default 0 (od_get column (an_times r)).

(** [ORDER BY] the time column. *)
Definition earlier (column : pystr) (a b : AnyRow) : Prop := time_of column a <= time_of column b.
#[export] Instance earlier_dec column a b : base.Decision (earlier column a b).
Proof. unfold earlier. apply _. Defined.

Definition in_export (d : Dataset) (app : uuid) (since until : datetime) (r : AnyRow) : bool :=
  bool_decide (an_app_id r = app) && (since <=? time_of (ds_time_column d) r) && (time_of (ds_time_column d) r <? until).

Definition export_rows (d : Dataset) (app : uuid) (since until : datetime) (org : uuid) (st : ReadState) : list AnyRow :=
  merge_sort (earlier (ds_time_column d)) (List.filter (in_export d app since until) (rows_of (ds_table d) org st)).

(** The columns of a row; a null is an empty field. *)
Definition cell (r : AnyRow) (column : pystr) : pystr := default [] (mjoin (od_get column (an_cells r))).
Definition exported (d : Dataset) (r : AnyRow) : list pystr := cell r <$> ds_columns d.

(** ** The stream *)

(** [cursor.fetch(BATCH)], until nothing is left. *)
Fixpoint batches (fuel n : nat) (rows : list (list pystr)) : list (list (list pystr)) :=
  match fuel, rows with
  | S fuel, _ :: _ => take n rows :: batches fuel n (drop n rows)
  | _, _ => []
  end.

Definition ABORTED : pystr := quoted (py "EXPORT ABORTED") ++ [comma] ++ quoted (py "row limit exceeded, narrow the range") ++ [lf].

(** The rows of a batch into the buffer; [None] past the limit. *)
Fixpoint write_batch (limit sent : Z) (buffer : pystr) (batch : list (list pystr)) : option (pystr * Z) :=
  match batch with
  | [] => Some (buffer, sent)
  | row :: batch =>
      let sent := sent + 1 in
      if limit <? sent then None else write_batch limit sent (buffer ++ writerow row) batch
  end.

(** A chunk per batch; the abort leaves what its batch had buffered. *)
Fixpoint write_batches (limit sent : Z) (bs : list (list (list pystr))) : list pystr :=
  match bs with
  | [] => []
  | b :: bs =>
      match write_batch limit sent [] b with
      | None => [ABORTED]
      | Some (chunk, sent) => chunk :: write_batches limit sent bs
      end
  end.

Definition chunks (d : Dataset) (rows : list (list pystr)) : list pystr :=
  writerow (ds_columns d) :: write_batches MAX_ROWS 0 (batches (length rows) (Z.to_nat BATCH) rows).

(** [_rows]: the chunks as they are sent, and whether the stream ended by itself: a bound
    the driver cannot send raises after the header. *)
Definition stream (d : Dataset) (app : uuid) (since until : datetime) (org : uuid) (st : ReadState) : list (list N) * bool :=
  if sendable (Some (since, 0%N)) && sendable (Some (until, 0%N)) then
    let rows := take (Z.to_nat (MAX_ROWS + 1)) (export_rows d app since until org st) in
    ((λ s, text s) <$> chunks d (exported d <$> rows), true)
  else ([text (writerow (ds_columns d))], false).
End Rows.

(** ** The endpoint *)

(** Comparing a naive time with an aware one raises. *)
Definition comparable (a b : IsoTime) : bool := bool_decide (is_Some (iso_offset a) ↔ is_Some (iso_offset b)).
Definition instant `{ExportLib} (t : IsoTime) : datetime := iso_wall t - default local_offset (iso_offset t).
(** Both naive or both aware: the difference of the two. *)
Definition time_between (a b : IsoTime) : timedelta :=
  (iso_wall b - default 0 (iso_offset b)) - (iso_wall a - default 0 (iso_offset a)).

Definition offset_text (o : option timedelta) : pystr :=
  match o with
  | None => []
  | Some o => (if o <? 0 then py "-" else py "+") ++ pad 2 (py_str_int (Z.abs o / hour)) ++ py ":" ++
              pad 2 (py_str_int (Z.abs o / minute mod 60))
  end.
Definition stamp_text (t : IsoTime) : pystr :=
  day_isoformat (iso_wall t) ++ py "T" ++ clock_text (iso_wall t) ++ offset_text (iso_offset t).

Record ExportState := { xs_read : ReadState; xs_audit : list AuditRow }.
(** The answer: its file name, and a body that is read when it is sent. *)
Record ExportFile := { xf_name : pystr; xf_body : ReadState → list (list N) * bool }.
Record ExportDraws := { xd_audit_id : uuid; xd_now : datetime }.

Definition name_le (a b : pystr) : Prop := str_leb a b = true.
#[export] Instance name_le_dec a b : base.Decision (name_le a b).
Proof. unfold name_le. apply _. Defined.

Definition unknown_dataset : ApiError :=
  Http 404 (py "unknown dataset; available: " ++ py_join (py ", ") (merge_sort name_le (fst <$> DATASETS))).

Section Endpoint.
Context {U : Unicode} {AL : AuditLib} {DU : DriverUuid} {XL : ExportLib}.

Definition export_handler (name app_id : pystr) (since until : IsoTime) (d : ExportDraws) (p : Principal) (org : uuid) (st : ExportState)
  : result ApiError ExportFile * ExportState :=
  match (let* dataset := or_raise unknown_dataset (od_get name DATASETS) in
         let* _ := raise_if (negb (comparable since until)) Crash in
         let* _ := raise_if (time_between since until <=? 0) (Http 422 (py "until must be after since")) in
         let* _ := raise_if (MAX_RANGE <? time_between since until) (Http 422 (py "range must not exceed 31 days")) in
         let* app := or_raise Crash (driver_uuid app_id) in
         let* _ := require_app org app (rd_apps (xs_read st)) in
         let* log := audited (record (xs_audit st) (xd_now d) (xd_audit_id d) org (py "export.requested") (py "export")
                       (Some name) (Some (pr_user_id p))
                       [(py "app_id", JStr app_id); (py "since", JStr (stamp_text since)); (py "until", JStr (stamp_text until))]) in
         Ok (dataset, app, log)) with
  | Err e => (Err e, st)
  | Ok (dataset, app, log) =>
      (Ok {| xf_name := name ++ py "-" ++ day_isoformat (iso_wall since) ++ py "-" ++ day_isoformat (iso_wall until) ++ py ".csv";
             xf_body := stream dataset app (instant since) (instant until) org |},
       {| xs_read := xs_read st; xs_audit := log |})
  end.
Definition export_dataset (rq : ApiRequest) (name app_id : pystr) (since until : IsoTime) (d : ExportDraws) :=
  as_role Admin rq (export_handler name app_id since until d).
End Endpoint.

(** ** The file *)

Lemma write_batch_spec limit batch : ∀ sent buffer,
  sent <= limit →
  write_batch limit sent buffer batch =
    if sent + Z.of_nat (length batch) <=? limit then Some (buffer ++ (batch ≫= writerow), sent + Z.of_nat (length batch)) else None.
Proof.
  induction batch as [|row batch IH]; intros sent buffer Hs.
  - cbn [write_batch length]. rewrite Z.add_0_r, (proj2 (Z.leb_le _ _) Hs). by rewrite app_nil_r.
  - cbn [write_batch]. destruct (Z.ltb_spec limit (sent + 1)) as [H|H].
    + rewrite (proj2 (Z.leb_gt _ _)); [done |]. cbn [length]. lia.
    + rewrite IH by done. cbn [length]. rewrite bind_cons, <- app_assoc.
      replace (sent + 1 + Z.of_nat (length batch)) with (sent + Z.of_nat (S (length batch))) by lia. done.
Qed.

(** The chunks together: all the rows, or as many as the limit and the notice.  The limit
    is a whole number of batches, so the abort loses none that was counted. *)
Lemma write_batches_spec limit n : ∀ fuel rows sent,
  (0 < n)%nat → (length rows <= fuel)%nat → sent <= limit → (limit - sent) mod Z.of_nat n = 0 →
  mjoin (write_batches limit sent (batches fuel n rows)) =
    if sent + Z.of_nat (length rows) <=? limit then rows ≫= writerow
    else (take (Z.to_nat (limit - sent)) rows ≫= writerow) ++ ABORTED.
Proof.
  intros fuel. induction fuel as [|fuel IH]; intros rows sent Hn Hf Hs Hm.
  { destruct rows; [| cbn in Hf; lia]. cbn. by rewrite Z.add_0_r, (proj2 (Z.leb_le _ _) Hs). }
  destruct rows as [|row rows]; [cbn; by rewrite Z.add_0_r, (proj2 (Z.leb_le _ _) Hs) |].
  cbn [batches write_batches]. set (l := row :: rows) in *.
  assert (length l = S (length rows)) as El by done. clearbody l.
  rewrite write_batch_spec by done. rewrite length_take.
  assert (sent = limit ∨ sent + Z.of_nat n <= limit) as [->|Hroom].
  { apply Z.mod_divide in Hm as [k Hk]; [| lia]. destruct (Z_lt_le_dec 0 k); [right | left]; nia. }
  - rewrite (proj2 (Z.leb_gt _ _)) by lia. rewrite (proj2 (Z.leb_gt _ _)) by lia.
    cbn [mjoin list_join]. rewrite Z.sub_diag. cbn [Z.to_nat take]. by rewrite app_nil_r.
  - rewrite (proj2 (Z.leb_le _ _)) by lia. cbn [mjoin list_join app].
    destruct (Nat.le_gt_cases (length l) n) as [Hle|Hgt].
    + rewrite drop_ge by done. replace (batches fuel n []) with (@nil (list (list pystr))) by (by destruct fuel).
      cbn [write_batches mjoin list_join]. rewrite app_nil_r, take_ge by done. rewrite (proj2 (Z.leb_le _ _)) by lia. done.
    + rewrite Nat.min_l by lia. rewrite IH; [| done | rewrite length_drop; lia | lia |].
      * rewrite length_drop.
        replace (sent + Z.of_nat n + Z.of_nat (length l - n)) with (sent + Z.of_nat (length l)) by lia.
        destruct (sent + Z.of_nat (length l) <=? limit) eqn:E; [by rewrite <- bind_app, take_drop |].
        rewrite app_assoc, <- bind_app, take_take_drop. do 3 f_equal. lia.
      * replace (limit - (sent + Z.of_nat n)) with ((limit - sent) + (-1) * Z.of_nat n) by lia. by rewrite Z_mod_plus_full.
Qed.

Lemma read_aborted : parse_csv ABORTED = [[py "EXPORT ABORTED"; py "row limit exceeded, narrow the range"]].
Proof. vm_compute. reflexivity. Qed.

(** What the recipient reads. *)
Definition file_rows (columns : list pystr) (rows : list (list pystr)) : list (list pystr) :=
  columns :: (if Z.of_nat (length rows) <=? MAX_ROWS then rows
              else take (Z.to_nat MAX_ROWS) rows ++ [[py "EXPORT ABORTED"; py "row limit exceeded, narrow the range"]]).

Lemma chunks_read_back d rows :
  ds_columns d ≠ [] → Forall (λ r, r ≠ []) rows → parse_csv (mjoin (chunks d rows)) = file_rows (ds_columns d) rows.
Proof.
  intros Hd Hr. unfold chunks, file_rows. cbn [mjoin list_join]. rewrite read_row by done. f_equal.
  rewrite write_batches_spec by (done || reflexivity || (unfold BATCH, MAX_ROWS; lia)).
  rewrite Z.add_0_l, Z.sub_0_r. case_match.
  - rewrite <- (app_nil_r (rows ≫= writerow)), read_rows by done. apply app_nil_r.
  - rewrite read_rows, read_aborted; [done |]. by apply Forall_take.
Qed.

(** ** What stays in the database *)

(** The tables without the pseudonyms: hashes of addresses and devices, and user agents. *)
Definition hide_event (r : EventRow) : EventRow :=
  {| er_event_id := er_event_id r; er_received_at := er_received_at r; er_occurred_at := er_occurred_at r;
     er_organization_id := er_organization_id r; er_app_id := er_app_id r; er_event_name := er_event_name r;
     er_anonymous_id := er_anonymous_id r; er_user_id := er_user_id r; er_session_id := er_session_id r;
     er_platform := er_platform r; er_os_version := er_os_version r; er_app_version := er_app_version r;
     er_device_model := er_device_model r; er_country := er_country r; er_ip_hash := None; er_click_id := er_click_id r;
     er_revenue_minor := er_revenue_minor r; er_currency := er_currency r; er_clock_skew_ms := er_clock_skew_ms r;
     er_properties := er_properties r |}.

Definition hide_click (r : ClickRecord) : ClickRecord :=
  {| cr_click_id := cr_click_id r; cr_clicked_at := cr_clicked_at r; cr_organization_id := cr_organization_id r;
     cr_app_id := cr_app_id r; cr_campaign_id := cr_campaign_id r; cr_tracking_link_id := cr_tracking_link_id r;
     cr_device_hash := None; cr_ip_hash := None; cr_country := cr_country r; cr_platform := cr_platform r;
     cr_os_version := cr_os_version r; cr_device_model := cr_device_model r; cr_user_agent := None; cr_sub1 := cr_sub1 r;
     cr_sub2 := cr_sub2 r; cr_sub3 := cr_sub3 r; cr_is_bot := cr_is_bot r; cr_deep_link := cr_deep_link r |}.

Definition without_pseudonyms (st : ReadState) : ReadState :=
  {| rd_apps := rd_apps st; rd_campaigns := rd_campaigns st; rd_links := rd_links st; rd_events := hide_event <$> rd_events st;
     rd_clicks := hide_click <$> rd_clicks st; rd_attributions := rd_attributions st |}.

(** Sorting by what two lists agree on keeps them in step. *)
Section InStep.
Context {A : Type} (P : A → A → Prop) (le : A → A → Prop) `{∀ x y, base.Decision (le x y)}.
Hypothesis agree : ∀ a a' b b', P a a' → P b b' → le a b ↔ le a' b'.

Lemma merge_in_step l1 : ∀ l1' l2 l2', Forall2 P l1 l1' → Forall2 P l2 l2' → Forall2 P (list_merge le l1 l2) (list_merge le l1' l2').
Proof.
  induction l1 as [|x l1 IH]; intros l1' l2 l2' H1 H2.
  { apply Forall2_nil_inv_l in H1 as ->. destruct H2; constructor; done. }
  apply Forall2_cons_inv_l in H1 as (x' & l1'' & Hx & H1 & ->).
  induction H2 as [|y y' l2 l2' Hy H2 IH2]; [by constructor |]. cbn [list_merge].
  destruct (decide (le x y)) as [Hd|Hd], (decide (le x' y')) as [Hd'|Hd'].
  - constructor; [done |]. apply IH; [done | by constructor].
  - destruct Hd'. by apply (agree x x' y y').
  - destruct Hd. by apply (agree x x' y y').
  - constructor; [done |]. exact IH2.
Qed.

Abbreviation in_step := (option_Forall2 (Forall2 P)).

Lemma stack_in_step st : ∀ st' l l', Forall2 in_step st st' → Forall2 P l l' →
  Forall2 in_step (merge_list_to_stack le st l) (merge_list_to_stack le st' l').
Proof.
  induction st as [|o st IH]; intros st' l l' Hst Hl.
  { apply Forall2_nil_inv_l in Hst as ->. by repeat constructor. }
  apply Forall2_cons_inv_l in Hst as (o' & st'' & Ho & Hst & ->). destruct Ho as [k k' Hk|]; cbn [merge_list_to_stack].
  - constructor; [constructor |]. apply IH; [done |]. by apply merge_in_step.
  - by repeat constructor.
Qed.

Lemma unstack_in_step st st' : Forall2 in_step st st' → Forall2 P (merge_stack le st) (merge_stack le st').
Proof.
  induction 1 as [|o o' st st' Ho Hst IH]; [constructor |]. destruct Ho as [k k' Hk|]; cbn [merge_stack]; [| done].
  by apply merge_in_step.
Qed.

Lemma sort_in_step l l' : Forall2 P l l' → Forall2 P (merge_sort le l) (merge_sort le l').
Proof.
  unfold merge_sort. assert (Forall2 in_step [] []) as Hst by constructor. revert Hst.
  generalize (@nil (option (list A))) at 1 3 as st. generalize (@nil (option (list A))) as st'. intros st' st Hst Hl.
  revert st st' Hst. induction Hl as [|x x' l l' Hx Hl IH]; intros st st' Hst; cbn [merge_sort_aux].
  - by apply unstack_in_step.
  - apply IH, stack_in_step; [done |]. by repeat constructor.
Qed.
End InStep.

Section Faithful.
Context {U : Unicode} {AL : AuditLib} {DU : DriverUuid} {XL : ExportLib}.

(** Rows an export of the dataset cannot tell apart. *)
Definition same_export (d : Dataset) (a b : AnyRow) : Prop :=
  an_app_id a = an_app_id b ∧ an_times a = an_times b ∧ exported d a = exported d b.

Lemma of_org_map {R} (f : R → R) (any : R → AnyRow) (org_of : R → uuid) (same : AnyRow → AnyRow → Prop) org rows :
  (∀ r, org_of (f r) = org_of r) → (∀ r, same (any r) (any (f r))) →
  Forall2 same (any <$> of_org org_of org rows) (any <$> of_org org_of org (f <$> rows)).
Proof.
  intros Ho Hs. induction rows as [|r rows IH]; [constructor |]. unfold of_org in *. rewrite fmap_cons. cbn [List.filter].
  rewrite Ho. case_bool_decide; [| done]. rewrite !fmap_cons. by constructor.
Qed.

Lemma same_export_refl d l : Forall2 (same_export d) l l.
Proof. induction l; by repeat constructor. Qed.

Lemma rows_hidden name d org st :
  od_get name DATASETS = Some d → Forall2 (same_export d) (rows_of (ds_table d) org st) (rows_of (ds_table d) org (without_pseudonyms st)).
Proof.
  intros Hd. unfold DATASETS in Hd. cbn [od_get] in Hd. repeat case_decide; simplify_eq Hd; intros <-.
  - apply of_org_map; [done |]. intros r. repeat split.
  - apply of_org_map; [done |]. intros r. repeat split.
  - apply same_export_refl.
Qed.

Lemma stream_hidden name d app since until org st :
  od_get name DATASETS = Some d →
  stream d app since until org (without_pseudonyms st) = stream d app since until org st.
Proof.
  intros Hd. unfold stream. case_match; [| done].
  assert (Forall2 (same_export d) (export_rows d app since until org st) (export_rows d app since until org (without_pseudonyms st))) as Hs.
  { apply sort_in_step.
    - intros a a' b b' (_ & Ha & _) (_ & Hb & _). unfold earlier, time_of. by rewrite Ha, Hb.
    - pose proof (rows_hidden name d org st Hd) as Hr. induction Hr as [|a b l l' Hab Hr IH]; [constructor |]. cbn [List.filter].
      assert (in_export d app since until b = in_export d app since until a) as ->
        by (unfold in_export, time_of; by rewrite (proj1 Hab), (proj1 (proj2 Hab))).
      case_match; [by constructor | done]. }
  set (n := Z.to_nat (MAX_ROWS + 1)). clearbody n. apply (Forall2_take _ _ _ n) in Hs.
  assert (∀ l l', Forall2 (same_export d) l l' → exported d <$> l' = exported d <$> l) as Hx; [| by rewrite (Hx _ _ Hs)].
  induction 1 as [|a b l l' (_ & _ & E) _ IH]; [done |]. by rewrite !fmap_cons, IH, E.
Qed.

Lemma text_join (l : list pystr) : mjoin ((λ s, text s) <$> l) = text (mjoin l).
Proof.
  induction l as [|c l IH]; [done |]. change (text c ++ mjoin ((λ s, text s) <$> l) = text (c ++ mjoin l)). rewrite IH.
  unfold text. by rewrite bind_app.
Qed.

(** The limit of the query is one more than the limit of the file. *)
Lemma file_rows_limited columns rows n :
  Z.of_nat n = MAX_ROWS + 1 → file_rows columns (take n rows) = file_rows columns rows.
Proof.
  intros Hn. unfold file_rows. f_equal. rewrite length_take. unfold MAX_ROWS in *.
  destruct (Z.leb_spec (Z.of_nat (length rows)) 1000000) as [H|H].
  - rewrite (proj2 (Z.leb_le _ _)) by lia. apply take_ge. lia.
  - rewrite (proj2 (Z.leb_gt _ _)) by lia. f_equal. rewrite take_take. f_equal. lia.
Qed.

Lemma dataset_columns name d : od_get name DATASETS = Some d → ds_columns d ≠ [].
Proof. unfold DATASETS. cbn [od_get]. intros Hd. repeat case_decide; by simplify_eq Hd; intros <-. Qed.

Lemma stream_reads_back name d app since until org st :
  od_get name DATASETS = Some d → snd (stream d app since until org st) = true →
  ∃ s, mjoin (fst (stream d app since until org st)) = text s ∧
    parse_csv s = file_rows (ds_columns d) (exported d <$> export_rows d app since until org st).
Proof.
  intros Hd%dataset_columns Hend. unfold stream in *. case_match; [| done]. cbn [fst].
  set (n := Z.to_nat (MAX_ROWS + 1)). assert (Z.of_nat n = MAX_ROWS + 1) as Hn by (unfold n, MAX_ROWS; lia). clearbody n.
  exists (mjoin (chunks d (exported d <$> take n (export_rows d app since until org st)))). split.
  - apply text_join.
  - rewrite chunks_read_back; [| done |].
    + rewrite fmap_take. by apply file_rows_limited.
    + apply Forall_forall. intros r (a & -> & _)%list_elem_of_fmap E. apply Hd. unfold exported in E. by apply fmap_nil_inv in E.
Qed.

#[local] Instance earlier_trans column : Transitive (earlier column).
Proof. intros a b c. unfold earlier. lia. Qed.
#[local] Instance earlier_total column : Total (earlier column).
Proof. intros a b. unfold earlier. lia. Qed.

(** The row [record] appends. *)
Lemma record_row db now id org action resource_type resource_id actor detail entry db' :
  record db now id org action resource_type resource_id actor detail = Ok (entry, db') →
  ∃ e, db' = db ++ [e] ∧ al_action e = action ∧ al_organization_id e = org ∧ al_actor_user_id e = actor ∧ al_resource_id e = resource_id.
Proof.
  unfold record. intros E. destruct (bool_decide (action ∈ ACTIONS)); [| done]. cbn [negb raise_if rbind] in E.
  destruct (existsb _ _); [done |]. cbn [raise_if rbind] in E. injection E as _ <-. eexists. repeat split.
Qed.

(** (C20) An export is recorded and faithful.  Where the endpoint answers with a file, whoever
    asked is an admin of the organisation that owns the app and is in the audit log; and
    whenever the body is then read, it is CSV that reads back as the dataset's columns of
    exactly the rows of that app in the range, at most 31 days, oldest first, the first
    million of them and a notice where there are more; none of it depends on a hash or a
    user agent. *)
Theorem exports_are_faithful rq name app_id since until d api st file api' st' :
  export_dataset rq name app_id since until d api st = (Ok file, api', st') →
  ∃ dataset app p org,
    od_get name DATASETS = Some dataset ∧ driver_uuid app_id = Some app ∧ admitted Admin rq api p org ∧
    require_app org app (rd_apps (xs_read st)) = Ok tt ∧ 0 < time_between since until <= MAX_RANGE ∧
    (∃ e, xs_audit st' = xs_audit st ++ [e] ∧ al_action e = py "export.requested" ∧ al_organization_id e = org ∧
          al_actor_user_id e = Some (pr_user_id p) ∧ al_resource_id e = Some name) ∧
    ∀ rd, snd (xf_body file rd) = true →
      let rows := export_rows dataset app (instant since) (instant until) org rd in
      StronglySorted (earlier (ds_time_column dataset)) rows ∧
      rows ≡ₚ List.filter (in_export dataset app (instant since) (instant until)) (rows_of (ds_table dataset) org rd) ∧
      (∃ s, mjoin (fst (xf_body file rd)) = text s ∧
            parse_csv s = file_rows (ds_columns dataset) (exported dataset <$> rows)) ∧
      xf_body file (without_pseudonyms rd) = xf_body file rd.
Proof.
  intros (p & org & Hadm & E)%as_role_Ok. unfold export_handler in E.
  destruct (od_get name DATASETS) as [dataset|] eqn:Hd; [| done]. cbn [or_raise rbind] in E.
  destruct (comparable since until); [| done]. cbn [negb raise_if rbind] in E.
  destruct (Z.leb_spec (time_between since until) 0); [done |]. cbn [raise_if rbind] in E.
  destruct (Z.ltb_spec MAX_RANGE (time_between since until)); [done |]. cbn [raise_if rbind] in E.
  destruct (driver_uuid app_id) as [app|]; [| done]. cbn [or_raise rbind] in E.
  destruct (require_app org app (rd_apps (xs_read st))) as [[]|] eqn:Happ; [| done]. cbn [rbind] in E.
  destruct (audited _) as [log|] eqn:Ea; [| done]. cbn [rbind] in E. injection E as <- <-.
  exists dataset, app, p, org. split; [done |]. split; [done |]. split; [done |]. split; [done |]. split; [lia |]. split.
  - unfold audited in Ea. destruct (record _ _ _ _ _ _ _ _ _) as [[entry l]|] eqn:Er; [| done]. injection Ea as <-.
    by apply record_row in Er.
  - intros rd Hend rows. cbn [xf_body] in *. split; [| split; [| split]].
    + apply (StronglySorted_merge_sort _).
    + apply merge_sort_Permutation.
    + by eapply stream_reads_back.
    + by eapply stream_hidden.
Qed.
End Faithful.

(** ** Witnesses *)

Definition ex_export_lib : ExportLib := {| jsonb_text := λ _, py "{}"; bytes_text := id; local_offset := 0 |}.

(** An event whose name holds a comma and a quote. *)
Definition ex_export_event : EventRow :=
  {| er_event_id := 1; er_received_at := 20000 * day + 5; er_occurred_at := 20000 * day; er_organization_id := 101; er_app_id := 9;
     er_event_name := [97; 44; 34; 98]%N; er_anonymous_id := py "device"; er_user_id := None; er_session_id := None; er_platform := 1;
     er_os_version := None; er_app_version := None; er_device_model := None; er_country := None; er_ip_hash := Some [1%N];
     er_click_id := None; er_revenue_minor := None; er_currency := None; er_clock_skew_ms := None; er_properties := [] |}.
Definition ex_export_state : ExportState := {| xs_read := ex_log_state [ex_export_event; ex_log_event 1 7]; xs_audit := [] |}.

Definition ex_stamp (days : Z) (offset : option timedelta) : IsoTime := {| iso_wall := days * day; iso_offset := offset |}.

Abbreviation ex_export since until :=
  (@export_dataset ascii_unicode toy_audit toy_driver ex_export_lib (Access.ex_request 4 1) (py "events") (str_of_uuid 9) since until
     {| xd_audit_id := 90; xd_now := 5 |} ex_state ex_export_state).

Definition ex_events : Dataset :=
  default {| ds_table := []; ds_time_column := []; ds_columns := [] |} (od_get (py "events") DATASETS).

(** The two events, oldest first, as they are read back from the file. *)
Lemma exports_are_faithful_witness :
  match ex_export (ex_stamp 20000 (Some 0)) (ex_stamp 20001 (Some 0)) with
  | (Ok file, _, st') =>
      length (xs_audit st') = 1%nat ∧
      ∃ s, mjoin (fst (xf_body file (xs_read ex_export_state))) = text s ∧
        parse_csv s = ds_columns ex_events :: (exported ex_events <$> [@event_any ex_export_lib (ex_log_event 1 7); @event_any ex_export_lib ex_export_event])
  | _ => False
  end.
Proof.
  assert (match ex_export (ex_stamp 20000 (Some 0)) (ex_stamp 20001 (Some 0)) with
          | (Ok file, _, st') => snd (xf_body file (xs_read ex_export_state)) && (length (xs_audit st') =? 1)%nat
          | _ => false end = true) as Hc by (vm_compute; reflexivity).
  destruct (ex_export (ex_stamp 20000 (Some 0)) (ex_stamp 20001 (Some 0))) as [[[file|] api'] st'] eqn:E; [| done].
  apply andb_true_iff in Hc as [Hend Hlen%Nat.eqb_eq]. split; [exact Hlen |].
  destruct (@exports_are_faithful ascii_unicode toy_audit toy_driver ex_export_lib _ _ _ _ _ _ _ _ _ _ _ E)
    as (ds & app & p & org & Hd & Ha & _ & Happ & _ & _ & Hf).
  destruct (Hf _ Hend) as (_ & _ & (s & Es & Hs) & _). exists s. split; [exact Es |].
  assert (ds = ex_events) as -> by (unfold ex_events; by rewrite Hd).
  assert (app = 9%N) as -> by (vm_compute in Ha; by injection Ha).
  assert (org = 101%N) as ->.
  { unfold require_app, raise_if in Happ. cbn [ex_export_state xs_read ex_log_state rd_apps existsb af_id af_organization_id] in Happ.
    case_bool_decide; [| done]. by case_bool_decide. }
  rewrite Hs. vm_compute. reflexivity.
Defined.

(** ** What the code does beyond its documentation *)

(** *** A naive bound

    Either bound may lack a time zone; if only one does, comparing them raises. *)
Lemma naive_bound_is_a_server_error :
  match ex_export (ex_stamp 20000 None) (ex_stamp 20001 (Some 0)) with (Err e, _, _) => e = Crash | _ => False end.
Proof. vm_compute. reflexivity. Qed.
