(* ===== verification/Analytics.v ===== *)
(** * Reports (mmp_api/routes/analytics.py, attributions.py)

    The dashboards' numbers: the overview, campaigns and events of an app over a range of
    days, read from the rollups of [Rollups] and kept in Redis for five minutes, and the
    summary of attributions by method, read from the table of [Store].

    [answers_are_own_and_recent]: whoever asked what before, an answer is the report of the
    asking organisation's own rows, at most five minutes old.  [overview_counts_events] and
    [summary_counts_installs] tie the numbers to the events and installs themselves. *)

From stdpp Require Import sorting.
From Stdlib Require Import SpecFloat.
From S2P Require Import Prelude Redis Ids Schema Ingest IpAddr Signing Engine Store Writer AuditLog Access Handlers Relational Rollups LinkCache LinkApi Cursors Csv LogApi ExportApi Fraud.

#[local] Open Scope Z_scope.
#[local] Open Scope mmp_scope.

Definition REPORT_RANGE_DAYS : Z := 90.
Definition CACHE_TTL : Z := 300.
Definition CACHE_SCHEMA_VERSION : Z := 2.

(** [_validate_range] *)
Definition report_range : Z → Z → result ApiError (datetime * datetime) :=
  day_range REPORT_RANGE_DAYS (py "range exceeds 90 days; use the export API for longer periods").

(** ** Rates *)

(** [round(x, 4)] of a double, as its ten-thousandths: to nearest, ties to even. *)
Definition half_even (num den : Z) : Z :=
  let q := num / den in
  let r := num mod den in
  if 2 * r <? den then q else if den <? 2 * r then q + 1 else if Z.even q then q else q + 1.

Definition ten_thousandths (x : spec_float) : Z :=
  match x with
  | S754_finite s m e =>
      let k := if 0 <=? e then Zpos m * 2 ^ e * 10000 else half_even (Zpos m * 10000) (2 ^ (- e)) in
      if s then - k else k
  | _ => 0
  end.

Definition round4 (x : spec_float) : spec_float := Float64.div (ten_thousandths x) 10000.

(** [round(a / b, 4) if b else None] *)
Definition rate (a b : Z) : option spec_float := if b =? 0 then None else Some (round4 (Float64.div a b)).

(** ** What the endpoints answer *)

Record OverviewTotals := {
  ot_clicks : Z; ot_installs : Z; ot_sessions : Z; ot_events : Z; ot_peak_hourly_devices : Z; ot_revenue_minor : Z;
  ot_conversions : Z; ot_install_rate : option spec_float
}.
Record SeriesDay := { sd_day : pystr; sd_events : Z; sd_installs : Z; sd_revenue_minor : Z }.
Record Overview := { ov_from_date : pystr; ov_to_date : pystr; ov_totals : OverviewTotals; ov_series : list SeriesDay }.
Record CampaignLine := {
  cl_campaign_id : uuid; cl_campaign_name : option pystr; cl_clicks : Z; cl_installs : Z; cl_revenue_minor : Z; cl_conversions : Z;
  cl_install_rate : option spec_float
}.
Record EventLine := { el_event_name : pystr; el_event_count : Z; el_peak_hourly_devices : Z; el_revenue_minor : Z }.

(** A cached value, as its JSON decodes. *)
Inductive Report :=
| OverviewReport (o : Overview)
| CampaignReport (l : list CampaignLine)
| EventReport (l : list EventLine).

(** ** The queries *)

(** [sum(f)] and its cast to [bigint]. *)
Definition total {R} (f : R → Z) (rows : list R) : Z := foldr (λ r n, f r + n) 0 rows.
Definition bigint (z : Z) : result ApiError Z := if fits z then Ok z else Err Crash.
Definition total_if {R} (p : R → bool) (f : R → Z) (rows : list R) : Z := total f (List.filter p rows).

Definition key_name (k : EventKey) : pystr := snd (fst k).
Definition key_at (k : EventKey) : datetime := snd (fst (fst k)).
Definition key_app (k : EventKey) : uuid := fst (fst (fst k)).

Definition event_rollups (org app : uuid) (start stop : datetime) (rp : Reports) : list (EventKey * EventRollup) :=
  List.filter (λ p, bool_decide (eu_organization_id (snd p) = org) && bool_decide (key_app (fst p) = app) &&
                    (start <=? key_at (fst p)) && (key_at (fst p) <? stop)) (map_to_list (rp_events rp)).

Definition click_rollups (org app : uuid) (start stop : datetime) (rp : Reports) : list (ClickKey * ClickRollup) :=
  List.filter (λ p, let '(a, at_, _, _) := fst p in
                    bool_decide (cu_organization_id (snd p) = org) && bool_decide (a = app) && (start <=? at_) && (at_ <? stop))
    (map_to_list (rp_clicks rp)).

Definition campaign_rollups (org app : uuid) (first last : Z) (rp : Reports) : list (CampaignKey * CampaignRollup) :=
  List.filter (λ p, let '(a, d, _) := fst p in
                    bool_decide (ca_organization_id (snd p) = org) && bool_decide (a = app) && (first <=? d) && (d <? last))
    (map_to_list (rp_campaign rp)).

Abbreviation counted := (λ p : EventKey * EventRollup, eu_event_count (snd p)).
Abbreviation earned := (λ p : EventKey * EventRollup, eu_revenue_minor (snd p)).
Definition key_named (name : string) (k : EventKey) : bool := bool_decide (key_name k = py name).
Definition named (name : string) (p : EventKey * EventRollup) : bool := key_named name (fst p).

Definition overview_totals (org app : uuid) (start stop : datetime) (rp : Reports) : result ApiError OverviewTotals :=
  let rows := event_rollups org app start stop rp in
  let clicks := click_rollups org app start stop rp in
  let* events := bigint (total counted rows) in
  let* installs := bigint (total_if (named "install") counted rows) in
  let* sessions := bigint (total_if (named "session_start") counted rows) in
  let* peak := bigint (max_of (λ p, eu_unique_devices (snd p)) rows) in
  let* revenue := bigint (total earned rows) in
  let* conversions := bigint (total_if (λ p, 0 <? eu_revenue_minor (snd p)) counted rows) in
  let* clicked := bigint (total (λ p, cu_click_count (snd p)) clicks - total (λ p, cu_bot_count (snd p)) clicks) in
  Ok {| ot_clicks := clicked; ot_installs := installs; ot_sessions := sessions; ot_events := events;
        ot_peak_hourly_devices := peak; ot_revenue_minor := revenue; ot_conversions := conversions;
        ot_install_rate := rate installs clicked |}.

(** [date.isoformat] *)
Definition day_text (d : Z) : pystr := day_isoformat (d * day).

Definition series_day (g : Z * list (EventKey * EventRollup)) : result ApiError SeriesDay :=
  let* events := bigint (total counted (snd g)) in
  let* installs := bigint (total_if (named "install") counted (snd g)) in
  let* revenue := bigint (total earned (snd g)) in
  Ok {| sd_day := day_text (fst g); sd_events := events; sd_installs := installs; sd_revenue_minor := revenue |}.

Definition day_first {A} (a b : Z * A) : Prop := fst a <= fst b.
#[export] Instance day_first_dec {A} (a b : Z * A) : base.Decision (day_first a b).
Proof. unfold day_first. apply _. Defined.

Definition series (org app : uuid) (start stop : datetime) (rp : Reports) : result ApiError (list SeriesDay) :=
  collect series_day
    (merge_sort day_first (group_by (λ p, date_of (key_at (fst p))) (event_rollups org app start stop rp))).

Definition compute_overview (app : uuid) (from_date to_date : Z) (start stop : datetime) (org : uuid) (rp : Reports) : result ApiError Overview :=
  let* totals := overview_totals org app start stop rp in
  let* days := series org app start stop rp in
  Ok {| ov_from_date := day_text from_date; ov_to_date := day_text to_date; ov_totals := totals; ov_series := days |}.

(** [CAMPAIGNS_SQL]: grouped by the campaign and the name it has. *)
Definition campaign_line (g : uuid * option pystr * list (CampaignKey * CampaignRollup * option CampaignRow)) : result ApiError CampaignLine :=
  let rows := snd g in
  let* clicks := bigint (total (λ p, ca_clicks (snd (fst p))) rows) in
  let* installs := bigint (total (λ p, ca_installs (snd (fst p))) rows) in
  let* revenue := bigint (total (λ p, ca_revenue_minor (snd (fst p))) rows) in
  let* conversions := bigint (total (λ p, ca_conversions (snd (fst p))) rows) in
  Ok {| cl_campaign_id := fst (fst g); cl_campaign_name := snd (fst g); cl_clicks := clicks; cl_installs := installs;
        cl_revenue_minor := revenue; cl_conversions := conversions; cl_install_rate := rate installs clicks |}.

(** [ORDER BY installs DESC, clicks DESC] *)
Definition better_line (a b : CampaignLine) : Prop :=
  cl_installs b < cl_installs a ∨ (cl_installs b = cl_installs a ∧ cl_clicks b <= cl_clicks a).
#[export] Instance better_line_dec a b : base.Decision (better_line a b).
Proof. unfold better_line. apply _. Defined.

Definition compute_campaigns (app : uuid) (start stop : datetime) (limit : Z) (org : uuid) (campaigns : list CampaignRow) (rp : Reports)
  : result ApiError (list CampaignLine) :=
  let joined := left_join (λ p c, bool_decide (cm_id c = snd (fst p)))
                  (campaign_rollups org app (date_of start) (date_of stop) rp) campaigns in
  let* lines := collect campaign_line (group_by (λ p, (snd (fst (fst p)), cm_name <$> snd p)) joined) in
  Ok (take (Z.to_nat limit) (merge_sort better_line lines)).

(** [EVENTS_SQL] *)
Definition event_line (g : pystr * list (EventKey * EventRollup)) : result ApiError EventLine :=
  let* n := bigint (total counted (snd g)) in
  let* peak := bigint (max_of (λ p, eu_unique_devices (snd p)) (snd g)) in
  let* revenue := bigint (total earned (snd g)) in
  Ok {| el_event_name := fst g; el_event_count := n; el_peak_hourly_devices := peak; el_revenue_minor := revenue |}.

Definition more_events (a b : EventLine) : Prop := el_event_count b <= el_event_count a.
#[export] Instance more_events_dec a b : base.Decision (more_events a b).
Proof. unfold more_events. apply _. Defined.

Definition compute_events (app : uuid) (start stop : datetime) (limit : Z) (org : uuid) (rp : Reports) : result ApiError (list EventLine) :=
  let* lines := collect event_line (group_by (λ p, key_name (fst p)) (event_rollups org app start stop rp)) in
  Ok (take (Z.to_nat limit) (merge_sort more_events lines)).

(** ** The endpoints *)

Inductive AnalyticsQuery :=
| QOverview (app : uuid) (from_date to_date : Z)
| QCampaigns (app : uuid) (from_date to_date : Z) (limit : Z)
| QEvents (app : uuid) (from_date to_date : Z) (limit : Z).

Definition query_app (q : AnalyticsQuery) : uuid := match q with QOverview a _ _ | QCampaigns a _ _ _ | QEvents a _ _ _ => a end.
Definition query_from (q : AnalyticsQuery) : Z := match q with QOverview _ f _ | QCampaigns _ f _ _ | QEvents _ f _ _ => f end.
Definition query_to (q : AnalyticsQuery) : Z := match q with QOverview _ _ t | QCampaigns _ _ t _ | QEvents _ _ t _ => t end.
(** [Query(ge=1, le=500)] *)
Definition limit_ok (q : AnalyticsQuery) : bool :=
  match q with QOverview _ _ _ => true | QCampaigns _ _ _ n | QEvents _ _ _ n => (1 <=? n) && (n <=? 500) end.

Definition query_name (q : AnalyticsQuery) : pystr :=
  match q with QOverview _ _ _ => py "overview" | QCampaigns _ _ _ _ => py "campaigns" | QEvents _ _ _ _ => py "events" end.
(** The parts of the key, as [str] writes them. *)
Definition query_parts (q : AnalyticsQuery) (start stop : datetime) : list pystr :=
  [str_of_uuid (query_app q); str_of_time start; str_of_time stop] ++
  match q with QOverview _ _ _ => [] | QCampaigns _ _ _ n | QEvents _ _ _ n => [py_str_int n] end.

(** Redis beside the tables the request finds. *)
Record AnalyticsState := { an_redis : store Report; an_tables : ReadState; an_reports : Reports }.
Definition with_redis (m : store Report) (st : AnalyticsState) : AnalyticsState :=
  {| an_redis := m; an_tables := an_tables st; an_reports := an_reports st |}.

Section Endpoints.
Context {U : Unicode} {SH : Sha256}.

Definition digest (parts : list pystr) : pystr := take 32 (hex_of_bytes (sha256_digest (text (py_join (py "|") parts)))).

(** [_cache_key] *)
Definition cache_key (org : uuid) (name : pystr) (parts : list pystr) : pystr :=
  py "analytics:v" ++ py_str_int CACHE_SCHEMA_VERSION ++ py ":" ++ str_of_uuid org ++ py ":" ++ name ++ py ":" ++ digest parts.

Definition compute (q : AnalyticsQuery) (start stop : datetime) (org : uuid) (tables : ReadState) (rp : Reports) : result ApiError Report :=
  match q with
  | QOverview app f t => let* o := compute_overview app f t start stop org rp in Ok (OverviewReport o)
  | QCampaigns app _ _ n => let* l := compute_campaigns app start stop n org (visible_campaigns org tables) rp in Ok (CampaignReport l)
  | QEvents app _ _ n => let* l := compute_events app start stop n org rp in Ok (EventReport l)
  end.

(** [_cached]: the value, whether it was there, and the cache. *)
Definition cached_report (now : datetime) (key : pystr) (value : result ApiError Report) (m : store Report)
  : result ApiError (Report * bool) * store Report :=
  match rget now key m with
  | Some v => (Ok (v, true), m)
  | None => match value with
            | Err e => (Err e, m)
            | Ok v => (Ok (v, false), rset_ex now key v CACHE_TTL m)
            end
  end.

Definition analytics_handler (now : datetime) (q : AnalyticsQuery) (p : Principal) (org : uuid) (st : AnalyticsState)
  : result ApiError (Report * bool) * AnalyticsState :=
  match (let* _ := raise_if (negb (limit_ok q)) invalid_body in
         let* range := report_range (query_from q) (query_to q) in
         let* _ := require_app org (query_app q) (rd_apps (an_tables st)) in
         Ok range) with
  | Err e => (Err e, st)
  | Ok (start, stop) =>
      let '(r, m) := cached_report now (cache_key org (query_name q) (query_parts q start stop))
                       (compute q start stop org (an_tables st) (an_reports st)) (an_redis st) in
      (r, with_redis m st)
  end.

(** The answers of the three endpoints, validated as the response models do: a cached value
    of another shape is a server error. *)
Definition answered {A} (shape : Report → option A) (r : result ApiError (Report * bool) * ApiState * AnalyticsState)
  : result ApiError (A * bool) * ApiState * AnalyticsState :=
  let '(a, api, st) := r in
  (let* v := a in let* x := or_raise Crash (shape (fst v)) in Ok (x, snd v), api, st).

Definition overview (rq : ApiRequest) (app : uuid) (from_date to_date : Z) (api : ApiState) (st : AnalyticsState) :=
  answered (λ r, match r with OverviewReport o => Some o | _ => None end)
    (as_role Viewer rq (analytics_handler (ar_now rq) (QOverview app from_date to_date)) api st).
Definition campaigns (rq : ApiRequest) (app : uuid) (from_date to_date limit : Z) (api : ApiState) (st : AnalyticsState) :=
  answered (λ r, match r with CampaignReport l => Some l | _ => None end)
    (as_role Viewer rq (analytics_handler (ar_now rq) (QCampaigns app from_date to_date limit)) api st).
Definition events (rq : ApiRequest) (app : uuid) (from_date to_date limit : Z) (api : ApiState) (st : AnalyticsState) :=
  answered (λ r, match r with EventReport l => Some l | _ => None end)
    (as_role Viewer rq (analytics_handler (ar_now rq) (QEvents app from_date to_date limit)) api st).
End Endpoints.

(** ** Attributions *)

(** [SUMMARY_SQL]: the current rows of an app by method. *)
Definition current_installs (org app : uuid) (start stop : datetime) (rows : list AttributionRow) : list AttributionRow :=
  List.filter (λ r, bool_decide (a_app_id r = app) && (start <=? a_installed_at r) && (a_installed_at r <? stop) && is_current r)
    (of_org a_organization_id org rows).

Record AttributionSummary := {
  as_from_date : Z; as_to_date : Z; as_total : Z; as_attributed : Z; as_organic : Z; as_match_rate : option spec_float;
  as_by_method : list (pystr * Z)
}.

(** [sorted(counts.items(), key=lambda kv: -kv[1])] *)
Definition more_counted (a b : pystr * Z) : Prop := snd b <= snd a.
#[export] Instance more_counted_dec a b : base.Decision (more_counted a b).
Proof. unfold more_counted. apply _. Defined.

Definition summary_handler (app : uuid) (from_date to_date : Z) (org : uuid) (st : ReadState) : result ApiError AttributionSummary :=
  let* _ := raise_if (to_date <? from_date) (Http 422 (py "to is before from")) in
  let* _ := raise_if (REPORT_RANGE_DAYS <? to_date - from_date)
              (Http 422 (py "range exceeds 90 days; use the export API for longer periods")) in
  let* _ := require_app org app (rd_apps st) in
  let* _ := raise_if (to_date =? MAX_DATE) Crash in
  let counts := (λ g, (method_value (fst g), count (snd g))) <$>
                  group_by a_method (current_installs org app (from_date * day) ((to_date + 1) * day) (rd_attributions st)) in
  let all := total snd counts in
  let organic := default 0 (od_get (py "organic") counts) in
  Ok {| as_from_date := from_date; as_to_date := to_date; as_total := all; as_attributed := all - organic; as_organic := organic;
        as_match_rate := rate (all - organic) all; as_by_method := merge_sort more_counted counts |}.
Definition summary `{Unicode} (rq : ApiRequest) (app : uuid) (from_date to_date : Z) :=
  as_role Viewer rq (reading (summary_handler app from_date to_date)).

(** [lookup_device]: every row of the device, superseded ones too, newest first; the table
    is in the order of insertion. *)
Definition lookup_handler (app : uuid) (anonymous_id : pystr) (org : uuid) (st : ReadState) : result ApiError (list AttributionRow) :=
  let* _ := raise_if (negb (no_nul anonymous_id)) Crash in
  Ok (reverse (List.filter (λ r, bool_decide (a_app_id r = app) && bool_decide (a_anonymous_id r = anonymous_id))
        (of_org a_organization_id org (rd_attributions st)))).
Definition lookup_device `{Unicode} (rq : ApiRequest) (app : uuid) (anonymous_id : pystr) :=
  as_role Viewer rq (reading (lookup_handler app anonymous_id)).

(** ** Whose report an answer is, and from when *)

(** A request, and the tables as it finds them. *)
Record Asked := { aq_request : ApiRequest; aq_query : AnalyticsQuery; aq_tables : ReadState; aq_reports : Reports }.

Section Answers.
Context {U : Unicode} {SH : Sha256}.

Definition ask (a : Asked) (s : ApiState * store Report) : result ApiError (Report * bool) * ApiState * AnalyticsState :=
  as_role Viewer (aq_request a) (analytics_handler (ar_now (aq_request a)) (aq_query a)) (fst s)
    {| an_redis := snd s; an_tables := aq_tables a; an_reports := aq_reports a |}.

Definition ask_step (s : ApiState * store Report) (a : Asked) : ApiState * store Report :=
  let '(_, api, st) := ask a s in (api, an_redis st).

(** The digests of the queries that are asked tell them apart. *)
Definition digests_distinct (asked : list Asked) : Prop :=
  ∀ a b start stop start' stop', a ∈ asked → b ∈ asked →
    report_range (query_from (aq_query a)) (query_to (aq_query a)) = Ok (start, stop) →
    report_range (query_from (aq_query b)) (query_to (aq_query b)) = Ok (start', stop') →
    query_name (aq_query a) = query_name (aq_query b) →
    digest (query_parts (aq_query a) start stop) = digest (query_parts (aq_query b) start' stop') → aq_query a = aq_query b.

(** What a report is of: the tables one of the requests found, for an organisation. *)
Definition report_at (a : Asked) (org : uuid) (v : Report) : Prop :=
  ∃ start stop, report_range (query_from (aq_query a)) (query_to (aq_query a)) = Ok (start, stop) ∧
    compute (aq_query a) start stop org (aq_tables a) (aq_reports a) = Ok v.

(** Every entry of the cache is the report of a request, under the key of its organisation,
    until five minutes after it. *)
Definition cache_entry (asked : list Asked) (k : pystr) (e : entry Report) : Prop :=
  ∃ a org start stop, a ∈ asked ∧ uuid_ok org ∧
    report_range (query_from (aq_query a)) (query_to (aq_query a)) = Ok (start, stop) ∧
    k = cache_key org (query_name (aq_query a)) (query_parts (aq_query a) start stop) ∧
    compute (aq_query a) start stop org (aq_tables a) (aq_reports a) = Ok (e_value e) ∧
    e_expiry e = Some (ar_now (aq_request a) + CACHE_TTL * second).
Definition cache_of (asked : list Asked) (m : store Report) : Prop := ∀ k e, m !! k = Some e → cache_entry asked k e.

Lemma uuid_of_str_ok s u : uuid_of_str s = Some u → uuid_ok u.
Proof.
  unfold uuid_of_str, uuid_ok. case_match; [done |]. destruct (py_int 16 _) as [z|]; [| done].
  destruct ((0 <=? z) && (z <? 2 ^ 128)) eqn:E; [| done]. intros [= <-].
  apply andb_true_iff in E as [E1%Z.leb_le E2%Z.ltb_lt]. apply N2Z.inj_lt. rewrite Z2N.id by done. exact E2.
Qed.

Lemma admitted_uuid minimum rq api p org : admitted minimum rq api p org → uuid_ok org.
Proof. intros H. destruct (am_organization _ _ _ _ _ H) as (t & _ & _ & Ht & _). by eapply uuid_of_str_ok. Qed.

(** Keys of the cache name the organisation, the endpoint and the digest. *)
Lemma report_key_inj org org' q q' parts parts' :
  uuid_ok org → uuid_ok org' →
  cache_key org (query_name q) parts = cache_key org' (query_name q') parts' →
  org = org' ∧ query_name q = query_name q' ∧ digest parts = digest parts'.
Proof.
  intros Ho Ho' E. unfold cache_key in E. rewrite !(app_assoc (py "analytics:v")), !(app_assoc (py "analytics:v" ++ _)) in E.
  apply uuid_prefix_inj in E as [-> E]; [| done | done]. split; [done |].
  destruct q, q'; cbn [query_name] in *; (split; [done |]; do 3 apply app_inv_head in E; exact E) || (exfalso; apply (f_equal (λ l, l !! 1%nat)) in E; vm_compute in E; discriminate E).
Qed.

(** One request: what it answers and what it leaves. *)
Lemma ask_spec asked a s :
  cache_of asked (snd s) → digests_distinct (asked ++ [a]) →
  cache_of (asked ++ [a]) (snd (ask_step s a)) ∧
  ∀ v hit api st, ask a s = (Ok (v, hit), api, st) →
    ∃ p org b, admitted Viewer (aq_request a) (fst s) p org ∧ b ∈ asked ++ [a] ∧ aq_query b = aq_query a ∧ report_at b org v ∧
      ar_now (aq_request a) < ar_now (aq_request b) + CACHE_TTL * second.
Proof.
  intros Hc Hd. assert (cache_of (asked ++ [a]) (snd s)) as Hc'.
  { intros k e He. destruct (Hc k e He) as (b & org & start & stop & Hb & H). exists b, org, start, stop.
    split; [by apply elem_of_app; left | done]. }
  assert (a ∈ asked ++ [a]) as Ha by (apply elem_of_app; right; by left).
  unfold ask_step. destruct (as_role_cases Viewer (aq_request a) (analytics_handler (ar_now (aq_request a)) (aq_query a)) (fst s)
    {| an_redis := snd s; an_tables := aq_tables a; an_reports := aq_reports a |}) as [(e & api & E)|(p & org & api & Hadm & E)];
    unfold ask; rewrite E; [split; [exact Hc' | done] |].
  pose proof (admitted_uuid _ _ _ _ _ Hadm) as Horg.
  unfold analytics_handler at 1 2. cbn [an_redis an_tables an_reports].
  destruct (let* _ := _ in let* range := _ in _) as [[start stop]|e] eqn:Er; cbn [fst snd with_redis an_redis]; [| by split].
  assert (report_range (query_from (aq_query a)) (query_to (aq_query a)) = Ok (start, stop)) as Hr.
  { destruct (raise_if _ _) as [[]|]; [| done]. cbn [rbind] in Er. destruct (report_range _ _); [| done]. cbn [rbind] in Er.
    by destruct (require_app _ _ _). }
  clear Er. set (key := cache_key org (query_name (aq_query a)) (query_parts (aq_query a) start stop)).
  unfold cached_report. destruct (rget (ar_now (aq_request a)) key (snd s)) as [v|] eqn:Eg.
  - cbn [fst snd an_redis with_redis]. split; [exact Hc' |]. intros v' hit api' st' [= <- <- <- <-].
    unfold rget, peek in Eg. destruct (snd s !! key) as [e|] eqn:Ee; [| done].
    destruct (live (ar_now (aq_request a)) e) eqn:El; [| done]. injection Eg as <-.
    destruct (Hc' key e Ee) as (b & org' & start' & stop' & Hb & Horg' & Hr' & Ek & Hv & Hexp).
    apply report_key_inj in Ek as (<- & En & Ed); [| done | done].
    exists p, org, b. split; [done |]. split; [done |].
    split; [symmetry; by apply (Hd a b start stop start' stop') |]. split; [by exists start', stop' |].
    unfold live in El. rewrite Hexp in El. apply Z.ltb_lt in El. done.
  - destruct (compute _ _ _ _ _ _) as [v|e] eqn:Ev; cbn [fst snd an_redis with_redis]; [| by split]. split.
    + intros k e He. unfold rset_ex in He. apply lookup_insert_Some in He as [[<- <-]|[_ He]]; [| by apply Hc'].
      exists a, org, start, stop. done.
    + intros v' hit api' st' [= <- <- <- <-]. exists p, org, a. split; [done |]. split; [done |]. split; [done |].
      split; [by exists start, stop | unfold CACHE_TTL, second; lia].
Qed.

End Answers.

(** ** The numbers are those of the events *)

(** The rollup of an app is that of its events from [start] to [stop]: where an hour has a
    row, it counts that hour's events, and where it has none, there are none. *)
Definition rollup_exact (org app : uuid) (start stop : datetime) (events : list EventRow) (t : gmap EventKey EventRollup) : Prop :=
  ∀ k, key_app k = app → start <= key_at k < stop →
    let rows := having event_rollup_key k events in
    match t !! k with
    | Some r => eu_organization_id r = org ∧ eu_event_count r = count rows ∧ eu_revenue_minor r = sum_of er_revenue_minor rows
    | None => rows = []
    end.

(** The events of the app that happened in the range. *)
Definition events_between (app : uuid) (start stop : datetime) (events : list EventRow) : list EventRow :=
  List.filter (λ e, bool_decide (er_app_id e = app) && (start <=? er_occurred_at e) && (er_occurred_at e <? stop)) events.

Lemma total_of_cons {R} (f : R → Z) r l : total f (r :: l) = f r + total f l.
Proof. done. Qed.

Lemma total_ext {R} (f g : R → Z) l : (∀ r, r ∈ l → f r = g r) → total f l = total g l.
Proof.
  intros H. induction l as [|r l IH]; [done |]. cbn [total foldr]. rewrite (H r) by (by left). f_equal.
  apply IH. intros r' Hr'. apply H. by right.
Qed.

(** A sum over the rows of a table grouped by a key is the sum over the groups. *)
Section Sums.
Context {R K : Type} `{EqDecision K} (key : R → K) (f : R → Z).

Lemma total_split (p : R → bool) l : total f l = total f (List.filter p l) + total f (List.filter (λ r, negb (p r)) l).
Proof. induction l as [|r l IH]; [done |]. cbn [List.filter]. destruct (p r); cbn [negb]; rewrite !total_of_cons; lia. Qed.

Lemma total_groups ks : ∀ l, NoDup ks → (∀ r, r ∈ l → key r ∈ ks) → total f l = total (λ k, total f (having key k l)) ks.
Proof.
  induction ks as [|k ks IH]; intros l Hn Hin.
  { destruct l as [|r l]; [done |]. exfalso. apply (elem_of_nil (key r)), Hin. by left. }
  apply NoDup_cons in Hn as [Hk Hn]. rewrite total_of_cons, (total_split (λ r, bool_decide (key r = k)) l). unfold having at 1. f_equal.
  set (l' := List.filter (λ r, negb (bool_decide (key r = k))) l).
  transitivity (total (λ k, total f (having key k l')) ks).
  - apply IH; [done |]. intros r [Hr Hne]%elem_of_lfilter. apply negb_true_iff, bool_decide_eq_false in Hne.
    apply Hin in Hr. by apply elem_of_cons in Hr as [?|?].
  - apply total_ext. intros k' Hk'. f_equal. unfold having, l'. rewrite lfilter_lfilter. apply List.filter_ext. intros r.
    destruct (decide (key r = k')) as [->|]; [| by rewrite !(bool_decide_false (key r = k')), andb_false_r by done].
    rewrite bool_decide_false; [done |]. by intros ->.
Qed.
End Sums.

Lemma total_count {R} (l : list R) : total (λ _, 1) l = count l.
Proof. unfold count. induction l as [|r l IH]; [done |]. cbn [total foldr length]. unfold total in IH. rewrite IH. lia. Qed.

Lemma total_sum {R} (f : R → option Z) (l : list R) : total (λ r, default 0 (f r)) l = sum_of f l.
Proof. induction l as [|r l IH]; [done |]. rewrite sum_of_cons. cbn [total foldr]. unfold total in IH. by rewrite IH. Qed.

Lemma total_map {R A} (f : A → Z) (g : R → A) l : total f (g <$> l) = total (λ r, f (g r)) l.
Proof. induction l as [|r l IH]; [done |]. cbn. unfold total in IH. by rewrite IH. Qed.

Section Counting.
Context (org app : uuid) (start stop : datetime) (stored : list EventRow) (rp : Reports).
Hypothesis Hexact : rollup_exact org app start stop stored (rp_events rp).
Hypothesis Hstart : start mod hour = 0.
Hypothesis Hstop : stop mod hour = 0.

Abbreviation rows := (event_rollups org app start stop rp).
Abbreviation between := (events_between app start stop stored).

Lemma rollup_row p : p ∈ rows → rp_events rp !! fst p = Some (snd p) ∧ key_app (fst p) = app ∧ start <= key_at (fst p) < stop.
Proof.
  intros [Hp Hm]%elem_of_lfilter. destruct p as [k r]. apply elem_of_map_to_list in Hp.
  rewrite !andb_true_iff, !bool_decide_eq_true, Z.leb_le, Z.ltb_lt in Hm. cbn [fst snd] in *. tauto.
Qed.

Lemma rows_keys : NoDup (fst <$> rows).
Proof. apply NoDup_fmap_filter, NoDup_fst_map_to_list. Qed.

(** An event is in the range exactly when its hour is. *)
Lemma hour_between e : start <= key_at (event_rollup_key e) < stop ↔ start <= er_occurred_at e < stop.
Proof.
  cbn. pose proof (hour_of_le (er_occurred_at e)). split; intros [H1 H2].
  - split; [lia |]. destruct (Z.lt_ge_cases (er_occurred_at e) stop) as [?|Hge]; [done |].
    pose proof (hour_of_ge stop (er_occurred_at e) Hstop Hge). lia.
  - split; [by apply hour_of_ge | lia].
Qed.

Lemma having_between k : key_app k = app → start <= key_at k < stop → having event_rollup_key k between = having event_rollup_key k stored.
Proof.
  intros Ha Ht. unfold having, events_between. rewrite lfilter_lfilter. apply List.filter_ext. intros e.
  destruct (decide (event_rollup_key e = k)) as [<-|]; [| by rewrite !(bool_decide_false (event_rollup_key e = k)), andb_false_r by done].
  apply hour_between in Ht. cbn in Ha. rewrite !bool_decide_true, andb_true_r by done.
  rewrite (proj2 (Z.leb_le _ _)), (proj2 (Z.ltb_lt _ _)) by lia. done.
Qed.

(** Every event in range has its row. *)
Lemma between_keys e : e ∈ between → event_rollup_key e ∈ fst <$> rows.
Proof.
  intros [He Hm]%elem_of_lfilter. rewrite !andb_true_iff, bool_decide_eq_true, Z.leb_le, Z.ltb_lt in Hm.
  destruct Hm as [[Ha H1] H2]. assert (start <= key_at (event_rollup_key e) < stop) as Ht by (by apply hour_between).
  pose proof (Hexact (event_rollup_key e) Ha Ht) as Hx. destruct (rp_events rp !! event_rollup_key e) as [r|] eqn:Er.
  - apply list_elem_of_fmap. exists (event_rollup_key e, r). split; [done |]. apply elem_of_lfilter. split.
    + by apply elem_of_map_to_list.
    + rewrite !andb_true_iff, !bool_decide_eq_true, Z.leb_le, Z.ltb_lt. cbn [fst snd]. destruct Hx as [-> _]. tauto.
  - exfalso. apply (elem_of_nil e). cbv zeta in Hx. rewrite <- Hx. by apply having_elem.
Qed.

(** So a sum over the rows is a sum over the events, of those whose key is wanted too. *)
Lemma rollup_total (wanted : EventKey → bool) (value : EventRollup → Z) (worth : EventRow → Z) :
  (∀ k r, rp_events rp !! k = Some r → key_app k = app → start <= key_at k < stop →
     value r = total worth (having event_rollup_key k stored)) →
  total_if (λ p, wanted (fst p)) (λ p, value (snd p)) rows = total_if (λ e, wanted (event_rollup_key e)) worth between.
Proof.
  intros Hv. unfold total_if.
  rewrite (total_groups event_rollup_key worth (fst <$> List.filter (λ p, wanted (fst p)) rows)).
  - rewrite total_map. apply total_ext. intros p [Hp Hw]%elem_of_lfilter. destruct (rollup_row p Hp) as (Hr & Ha & Ht).
    rewrite (Hv (fst p) (snd p) Hr Ha Ht), <- (having_between (fst p) Ha Ht). f_equal. unfold having. rewrite lfilter_lfilter.
    apply List.filter_ext. intros e. destruct (decide (event_rollup_key e = fst p)) as [E|];
      [by rewrite E, Hw, bool_decide_true | by rewrite (bool_decide_false (event_rollup_key e = fst p)), andb_false_r by done].
  - apply NoDup_fmap_filter, rows_keys.
  - intros e [He Hw]%elem_of_lfilter. apply between_keys in He as (p & E & Hp)%list_elem_of_fmap.
    apply list_elem_of_fmap. exists p. split; [done |]. apply elem_of_lfilter. split; [done |]. by rewrite <- E.
Qed.

Lemma count_total (wanted : EventKey → bool) :
  total_if (λ p, wanted (fst p)) counted rows = count (List.filter (λ e, wanted (event_rollup_key e)) between).
Proof.
  rewrite (rollup_total wanted eu_event_count (λ _, 1)); [apply total_count |].
  intros k r Hr Ha Ht. pose proof (Hexact k Ha Ht) as Hx. rewrite Hr in Hx. rewrite total_count. apply Hx.
Qed.

Lemma total_all {R} (f : R → Z) l : total_if (λ _, true) f l = total f l.
Proof. unfold total_if. f_equal. induction l as [|r l IH]; [done |]. cbn. by rewrite IH. Qed.

Lemma revenue_total : total earned rows = sum_of er_revenue_minor between.
Proof.
  rewrite <- total_all, (rollup_total (λ _, true) eu_revenue_minor (λ e, default 0 (er_revenue_minor e))).
  - rewrite total_all. apply total_sum.
  - intros k r Hr Ha Ht. pose proof (Hexact k Ha Ht) as Hx. rewrite Hr in Hx. rewrite total_sum. apply Hx.
Qed.
End Counting.

(** The overview counts the events.  Where the hourly rollup is exact, the totals are the
    events of the app that happened in the range of days, the installs and session starts
    among them, and their revenue. *)
Theorem overview_counts_events org app from_date to_date start stop stored rp o :
  report_range from_date to_date = Ok (start, stop) → rollup_exact org app start stop stored (rp_events rp) →
  compute_overview app from_date to_date start stop org rp = Ok o →
  let between := events_between app start stop stored in
  ot_events (ov_totals o) = count between ∧
  ot_installs (ov_totals o) = count_if (λ e, bool_decide (er_event_name e = py "install")) between ∧
  ot_sessions (ov_totals o) = count_if (λ e, bool_decide (er_event_name e = py "session_start")) between ∧
  ot_revenue_minor (ov_totals o) = sum_of er_revenue_minor between.
Proof.
  intros Hr Hx Ho. assert (start mod hour = 0 ∧ stop mod hour = 0) as [H1 H2].
  { unfold report_range, day_range in Hr. repeat (destruct (raise_if _ _) as [[]|]; [cbn [rbind] in Hr | done]).
    injection Hr as <- <-. unfold day. rewrite !Z.mul_assoc. by rewrite !Z.mod_mul. }
  unfold compute_overview in Ho. destruct (overview_totals org app start stop rp) as [t|] eqn:Et; [| done]. cbn [rbind] in Ho.
  destruct (series org app start stop rp); [| done]. injection Ho as <-. cbn [ov_totals].
  unfold overview_totals, bigint in Et. repeat (case_match; [cbn [rbind] in Et | done]). injection Et as <-.
  cbn [ot_events ot_installs ot_sessions ot_revenue_minor]. split; [| split; [| split]].
  - rewrite <- total_all, (count_total org app start stop stored rp Hx H1 H2 (λ _, true)). f_equal.
    generalize (events_between app start stop stored). intros l. induction l as [|e l IH]; [done |]. cbn. by rewrite IH.
  - apply (count_total org app start stop stored rp Hx H1 H2 (key_named "install")).
  - apply (count_total org app start stop stored rp Hx H1 H2 (key_named "session_start")).
  - by apply revenue_total.
Qed.

(** ** The summary counts installs *)

Lemma method_value_inj m m' : method_value m = method_value m' → m = m'.
Proof. destruct m, m'; (done || (intros E; vm_compute in E; discriminate E)). Qed.

Lemma od_get_absent {K V} `{EqDecision K} (k : K) (d : list (K * V)) v : od_get k d = None → (k, v) ∉ d.
Proof.
  induction d as [|[k' v'] d IH]; cbn [od_get]; [intros _ ?%elem_of_nil; done |].
  case_decide; [done |]. intros E [Hp|Hp]%elem_of_cons; [by simplify_eq | by apply IH].
Qed.

Section Summary.
Context (rows : list AttributionRow).
Abbreviation counts := ((λ g, (method_value (fst g), count (snd g))) <$> group_by a_method rows).

Lemma counts_elem k n : (k, n) ∈ counts ↔ ∃ m, k = method_value m ∧ n = count (having a_method m rows) ∧ having a_method m rows ≠ [].
Proof.
  rewrite list_elem_of_fmap. split.
  - intros ([m l] & [= -> ->] & [-> Hl]%group_by_elem). by exists m.
  - intros (m & -> & -> & Hm). exists (m, having a_method m rows). split; [done |]. by apply group_by_elem.
Qed.

Lemma counts_get m : default 0 (od_get (method_value m) counts) = count (having a_method m rows).
Proof.
  destruct (od_get (method_value m) counts) as [n|] eqn:E.
  - apply od_get_elem, counts_elem in E as (m' & Em & -> & _). by apply method_value_inj in Em as <-.
  - destruct (having a_method m rows) as [|r l] eqn:Eh; [done |]. exfalso.
    assert ((method_value m, count (having a_method m rows)) ∈ counts) as Hin by (apply counts_elem; exists m; rewrite Eh; done).
    by apply (od_get_absent _ _ _ E) in Hin.
Qed.

Lemma counts_total : total snd counts = count rows.
Proof.
  rewrite total_map. cbn [snd]. rewrite <- total_count, (total_groups a_method (λ _, 1) (remove_dups (a_method <$> rows))).
  - unfold group_by. rewrite total_map. apply total_ext. intros m _. symmetry. apply total_count.
  - apply NoDup_remove_dups.
  - intros r Hr. apply elem_of_remove_dups. by apply list_elem_of_fmap_2.
Qed.
End Summary.

(** The summary counts installs, each once.  Its total is the number of devices installed
    in the range, as the current attribution of each has it; attributed and organic are the
    two parts of it, and the breakdown has exactly the methods that occur, with the number
    of installs of each. *)
Theorem summary_counts_installs app from_date to_date org st s :
  table_ok (rd_attributions st) → NoDup (a_id <$> rd_attributions st) →
  summary_handler app from_date to_date org st = Ok s →
  let installs := current_installs org app (from_date * day) ((to_date + 1) * day) (rd_attributions st) in
  NoDup (a_install_key <$> installs) ∧ as_total s = count installs ∧
  as_organic s = count_if (λ r, bool_decide (a_method r = ORGANIC)) installs ∧
  as_attributed s = count_if (λ r, negb (bool_decide (a_method r = ORGANIC))) installs ∧
  (∀ k n, (k, n) ∈ as_by_method s ↔
     ∃ m, k = method_value m ∧ n = count_if (λ r, bool_decide (a_method r = m)) installs ∧ 0 < n).
Proof.
  intros Hok Hids Hs installs. unfold summary_handler in Hs.
  do 2 (destruct (raise_if _ _) as [[]|]; [cbn [rbind] in Hs | done]).
  destruct (require_app _ _ _) as [[]|]; [cbn [rbind] in Hs | done].
  destruct (raise_if _ _) as [[]|]; [cbn [rbind] in Hs | done].
  fold installs in Hs. injection Hs as <-. cbn [as_total as_organic as_attributed as_by_method].
  change (py "organic") with (method_value ORGANIC). rewrite counts_total, (counts_get installs ORGANIC). split; [| split; [done | split; [done | split]]].
  - apply NoDup_fmap_2_strong.
    + intros a b Ha Hb E. apply elem_of_lfilter in Ha as [[Ha _]%of_org_elem Hma], Hb as [[Hb _]%of_org_elem Hmb].
      rewrite !andb_true_iff, bool_decide_eq_true in Hma, Hmb. apply (ok_one_current _ Hok); try done; [| tauto | tauto].
      destruct Hma as [[[-> _] _] _], Hmb as [[[-> _] _] _]. done.
    + unfold installs, current_installs, of_org. apply (NoDup_fmap_1 a_id). by apply NoDup_fmap_filter, NoDup_fmap_filter.
  - unfold count_if, having. rewrite <- !total_count.
    rewrite (total_split (λ _, 1) (λ r, bool_decide (a_method r = ORGANIC)) installs). lia.
  - intros k n. rewrite merge_sort_Permutation, counts_elem. unfold count_if, having, count.
    split; intros (m & -> & -> & Hm); exists m; (split; [done | split; [done |]]).
    + destruct (List.filter _ _); [done | cbn; lia].
    + intros E. rewrite E in Hm. cbn in Hm. lia.
Qed.

(** ** Witnesses *)

Definition ex_hour : datetime := 20000 * day + 3 * hour.
Definition ex_sale (id : uuid) (revenue : option Z) : EventRow :=
  {| er_event_id := id; er_received_at := ex_hour + 5; er_occurred_at := ex_hour + 5; er_organization_id := 101; er_app_id := 9;
     er_event_name := py "purchase"; er_anonymous_id := py "device"; er_user_id := None; er_session_id := None; er_platform := 1;
     er_os_version := None; er_app_version := None; er_device_model := None; er_country := None; er_ip_hash := None;
     er_click_id := None; er_revenue_minor := revenue; er_currency := None; er_clock_skew_ms := None; er_properties := [] |}.
Definition ex_sales : list EventRow := [ex_sale 1 (Some 500); ex_sale 2 None; ex_sale 3 None].
Definition ex_rollup (rows : list EventRow) : Reports :=
  {| rp_events := {[ event_rollup_key (ex_sale 1 None) := event_summary 0 101 rows ]}; rp_clicks := ∅; rp_campaign := ∅ |}.

Definition ex_asked (now : datetime) (rows : list EventRow) : Asked :=
  {| aq_request := Access.ex_request now 1; aq_query := QOverview 9 20000 20000; aq_tables := ex_log_state rows;
     aq_reports := ex_rollup rows |}.
Definition ex_second : Asked := ex_asked (5 + minute) ex_sales.
Abbreviation ex_answer := (@ask ascii_unicode toy_sha ex_second
  (fold_left (@ask_step ascii_unicode toy_sha) [ex_asked 5 [ex_sale 1 (Some 500)]] (ex_state, ∅))).


Lemma ex_rollup_exact : rollup_exact 101 9 (20000 * day) (20001 * day) ex_sales (rp_events (ex_rollup ex_sales)).
Proof.
  intros k _ _. cbn [ex_rollup rp_events]. destruct (decide (k = event_rollup_key (ex_sale 1 None))) as [->|Hk].
  - rewrite lookup_singleton_eq. vm_compute. done.
  - rewrite lookup_singleton_ne by done. unfold having, ex_sales. cbn [List.filter].
    by rewrite !bool_decide_false by (intros E; apply Hk; rewrite <- E; reflexivity).
Qed.

Abbreviation ex_overview := (compute_overview 9 20000 20000 (20000 * day) (20001 * day) 101 (ex_rollup ex_sales)).

Lemma overview_counts_events_witness :
  match ex_overview with
  | Ok o => ot_events (ov_totals o) = 3 ∧ ot_revenue_minor (ov_totals o) = 500
  | Err _ => False
  end.
Proof.
  destruct ex_overview as [o|e] eqn:E; [| vm_compute in E; discriminate E].
  destruct (overview_counts_events 101 9 20000 20000 (20000 * day) (20001 * day) ex_sales (ex_rollup ex_sales) o eq_refl ex_rollup_exact E)
    as (H1 & _ & _ & H4).
  rewrite H1, H4. split; vm_compute; reflexivity.
Defined.

Definition ex_attributed (m : Method) : AttributionRow :=
  {| a_id := 50; a_organization_id := 101; a_app_id := 9; a_install_key := install_key 9 (py "device"); a_anonymous_id := py "device";
     a_user_id := None; a_click_id := None; a_campaign_id := None; a_tracking_link_id := None; a_source := None; a_medium := None;
     a_method := m; a_installed_at := 20000 * day; a_attributed_at := 20000 * day; a_window_days := 7; a_expires_at := 20007 * day;
     a_fraud_score := 0; a_fraud_verdict := CLEAN; a_fraud_rules := None; a_deep_link := None; a_sub1 := None; a_sub2 := None;
     a_sub3 := None; a_superseded_by := None |}.
Definition ex_summary_state : ReadState :=
  {| rd_apps := rd_apps (ex_log_state []); rd_campaigns := []; rd_links := []; rd_events := []; rd_clicks := [];
     rd_attributions := [ex_attributed REFERRER] |}.

Lemma summary_counts_installs_witness :
  match summary_handler 9 20000 20000 101 ex_summary_state with
  | Ok s => as_total s = 1 ∧ as_attributed s = 1 ∧ as_organic s = 0
  | Err _ => False
  end.
Proof.
  destruct (summary_handler 9 20000 20000 101 ex_summary_state) as [s|e] eqn:E; [| vm_compute in E; discriminate E].
  destruct (summary_counts_installs 9 20000 20000 101 ex_summary_state s) as (_ & H1 & H2 & H3 & _); [| | exact E |].
  - split.
    + intros a b ->%list_elem_of_singleton ->%list_elem_of_singleton _. reflexivity.
    + intros a b ->%list_elem_of_singleton ->%list_elem_of_singleton _ _ _ _. reflexivity.
    + intros a id ->%list_elem_of_singleton Hs. discriminate Hs.
  - apply NoDup_singleton.
  - rewrite H1, H2, H3. split; [| split]; vm_compute; reflexivity.
Defined.

(** ** What the code does beyond its documentation *)

(** *** Conversions

    Conversions are the events of every hour, name and platform that earned anything: of
    three purchases in an hour one had revenue, and three are counted. *)
Lemma unpaid_events_are_conversions :
  match ex_overview with
  | Ok o => ot_conversions (ov_totals o) = 3 ∧ count_if (λ e, bool_decide (er_revenue_minor e ≠ None)) ex_sales = 1
  | Err _ => False
  end.
Proof. vm_compute. split; reflexivity. Qed.
