(* ===== verification/Live.v ===== *)
(** * The live view (mmp_api/routes/live.py, the reader of mmp_ingest/live.py)

    What happened to an app in the last minutes: clicks, events, installs and postback
    deliveries from the tables, and the requests the tracker refused from Redis, where
    [record_rejection] of [Ingest] puts them.  A client polls with the time of the last
    answer.

    [polling_misses_nothing]: whatever was written at most a minute late is shown by one of
    the polls, or that answer is full of newer things.  [live_view_is_own]: an answer depends
    on nothing but the organisation's own rows and the app's own rejections, and on no hash.
    [live_feed_is_ordered]: it is in the order of the instants, though text is compared. *)

From stdpp Require Import sorting.
From S2P Require Import Prelude Redis Ids Schema Templates IpAddr Urls Signing Ingest Engine Fraud Store Writer Counting DeepLinks Outbound Delivery Postbacks AuditLog Access Handlers Relational LinkCache LinkApi RuleApi Cursors LogApi ExportApi.

#[local] Open Scope Z_scope.
#[local] Open Scope mmp_scope.

Definition WINDOW : timedelta := 15 * minute.
Definition LATE_WRITE_MARGIN : timedelta := 60 * second.
Definition PER_KIND : nat := 100.
Definition MAX_ITEMS : nat := 250.
Definition MAX_PROPERTIES_BYTES : Z := 4096.
Definition MAX_ERROR_CHARS : nat := 300.

(** The tables and the lists of Redis a request reads. *)
Record LiveState := { lt_read : ReadState; lt_rules : list RuleRow; lt_deliveries : list DeliveryRow; lt_rejections : store (list Rejection) }.

(** ** What happened *)

Inductive Happening :=
| HClick (p : Named ClickRecord)
| HEvent (r : EventRow)
| HInstall (p : Named AttributionRow)
| HPostback (p : DeliveryRow * RuleRow)
| HRejection (r : Rejection).

Definition click_at (p : Named ClickRecord) : datetime := cr_clicked_at (fst (fst p)).
Definition install_at (p : Named AttributionRow) : datetime := a_attributed_at (fst (fst p)).
Definition postback_at (p : DeliveryRow * RuleRow) : datetime := pd_created_at (fst p).
Definition happened_at (h : Happening) : datetime :=
  match h with
  | HClick p => click_at p
  | HEvent r => er_received_at r
  | HInstall p => install_at p
  | HPostback p => postback_at p
  | HRejection r => rj_at r
  end.

(** The rows of each statement, before its bound in time, its order and its limit. *)
Definition app_clicks (app org : uuid) (st : ReadState) : list (Named ClickRecord) :=
  List.filter (λ p, bool_decide (cr_app_id (fst (fst p)) = app))
    (with_names (λ c, Some (cr_tracking_link_id c)) cr_campaign_id org st (of_org cr_organization_id org (rd_clicks st))).
Definition app_events (app org : uuid) (st : ReadState) : list EventRow :=
  List.filter (λ r, bool_decide (er_app_id r = app)) (of_org er_organization_id org (rd_events st)).
Definition app_installs (app org : uuid) (st : ReadState) : list (Named AttributionRow) :=
  List.filter (λ p, bool_decide (a_app_id (fst (fst p)) = app))
    (with_names a_tracking_link_id a_campaign_id org st (of_org a_organization_id org (rd_attributions st))).
Definition app_postbacks (app org : uuid) (st : LiveState) : list (DeliveryRow * RuleRow) :=
  List.filter (λ p, bool_decide (ru_app_id (rr_rule (snd p)) = app))
    (inner_join (λ d r, bool_decide (ru_id (rr_rule r) = pd_rule_id d))
       (of_org pd_organization_id org (lt_deliveries st)) (of_org (λ r, ru_organization_id (rr_rule r)) org (lt_rules st))).

(** [WHERE at >= $2 ORDER BY at DESC LIMIT $3] *)
Definition later {R} (at_ : R → datetime) (a b : R) : Prop := at_ b <= at_ a.
#[export] Instance later_dec {R} (at_ : R → datetime) a b : base.Decision (later at_ a b).
Proof. unfold later. apply _. Defined.
Definition since_then {R} (at_ : R → datetime) (start : datetime) (rows : list R) : list R := List.filter (λ r, start <=? at_ r) rows.
Definition newest {R} (at_ : R → datetime) (start : datetime) (rows : list R) : list R :=
  take PER_KIND (merge_sort (later at_) (since_then at_ start rows)).

(** [recent_rejections]: the list as [LRANGE] gives it, of those at or after [start]. *)
Definition app_rejections (now : datetime) (app : uuid) (m : store (list Rejection)) : list Rejection :=
  default [] (rget now (rejections_key (str_of_uuid app)) m).
Definition recent_rejections (now : datetime) (app : uuid) (start : datetime) (m : store (list Rejection)) : list Rejection :=
  since_then rj_at start (take REJECTIONS_MAX (app_rejections now app m)).

(** What a request fetches, kind by kind. *)
Definition fetched (now : datetime) (app : uuid) (start : datetime) (org : uuid) (st : LiveState) : list Happening :=
  (HClick <$> newest click_at start (app_clicks app org (lt_read st))) ++
  (HEvent <$> newest er_received_at start (app_events app org (lt_read st))) ++
  (HInstall <$> newest install_at start (app_installs app org (lt_read st))) ++
  (HPostback <$> newest postback_at start (app_postbacks app org st)) ++
  (HRejection <$> recent_rejections now app start (lt_rejections st)).

(** ** Items *)

(** An item: its kind, id and time, and its other fields. *)
Record LiveItem := { li_kind : pystr; li_id : pystr; li_at : pystr; li_fields : props }.
Record LiveFeed := { lf_items : list LiveItem; lf_server_time : pystr; lf_since : pystr; lf_window_seconds : Z }.

(** [_platform] of a column that is never null. *)
Definition live_platform (code : Z) : json := JStr (platform_name code).

(** [a or b or "click"] *)
Definition first_text (l : list (option pystr)) (d : pystr) : pystr :=
  foldr (λ o s, match o with Some ((_ :: _) as t) => t | _ => s end) d l.

Definition status_text (s : DeliveryStatus) : pystr :=
  match s with
  | InFlight => py "in_flight" | Delivered => py "delivered" | Failed => py "failed"
  | Abandoned => py "abandoned" | Sandboxed => py "sandbox"
  end.

Section Items.
Context {U : Unicode} {NC : NetlocCheck} {XL : ExportLib}.

(** [_properties]: past the limit, the size and the first fifty keys. *)
Definition live_properties (p : props) : props :=
  let size := Z.of_nat (length (text (jsonb_text p))) in
  if size <=? MAX_PROPERTIES_BYTES then p
  else [(py "_truncated", JBool true); (py "_bytes", JInt size); (py "_keys", JArr (JStr <$> take 50 (merge_sort name_le (fst <$> p))))].

(** [_host]: [urlsplit] raises on some brackets. *)
Definition live_host (url : option pystr) : result ApiError json :=
  match url with
  | None | Some [] => Ok JNull
  | Some url => match urlsplit url with Ok s => Ok (jtext (hostname_of (u_netloc s))) | Err _ => Err Crash end
  end.

Definition click_live (p : Named ClickRecord) : LiveItem :=
  let r := fst (fst p) in
  let link := snd (fst p) in
  {| li_kind := py "click"; li_id := str_of_uuid (cr_click_id r); li_at := isoformat (cr_clicked_at r);
     li_fields :=
       [(py "title", JStr (first_text [lk_name <$> link; (λ l, lr_tracking_code (lk_row l)) <$> link] (py "click")));
        (py "campaign", campaign_name p); (py "platform", live_platform (cr_platform r)); (py "country", jtext (cr_country r));
        (py "is_bot", JBool (cr_is_bot r));
        (py "details", JObj
          [(py "click_id", juuid (cr_click_id r)); (py "tracking_code", link_code p); (py "deep_link", jtext (cr_deep_link r));
           (py "os_version", jtext (cr_os_version r)); (py "device_model", jtext (cr_device_model r)); (py "sub1", jtext (cr_sub1 r));
           (py "sub2", jtext (cr_sub2 r)); (py "sub3", jtext (cr_sub3 r))])] |}.

Definition event_live (r : EventRow) : LiveItem :=
  {| li_kind := py "event"; li_id := str_of_uuid (er_event_id r); li_at := isoformat (er_received_at r);
     li_fields :=
       [(py "title", JStr (er_event_name r)); (py "device", JStr (er_anonymous_id r)); (py "user_id", jtext (er_user_id r));
        (py "platform", live_platform (er_platform r)); (py "revenue_minor", jopt JInt (er_revenue_minor r));
        (py "currency", jtext (er_currency r));
        (py "details", JObj
          [(py "event_id", juuid (er_event_id r)); (py "occurred_at", jtime (er_occurred_at r));
           (py "clock_skew_ms", jopt JInt (er_clock_skew_ms r)); (py "app_version", jtext (er_app_version r));
           (py "os_version", jtext (er_os_version r)); (py "device_model", jtext (er_device_model r));
           (py "country", jtext (er_country r)); (py "properties", JObj (live_properties (er_properties r)))])] |}.

Definition install_live (p : Named AttributionRow) : LiveItem :=
  let r := fst (fst p) in
  {| li_kind := py "install"; li_id := str_of_uuid (a_id r); li_at := isoformat (a_attributed_at r);
     li_fields :=
       [(py "title", JStr (method_value (a_method r))); (py "device", JStr (a_anonymous_id r)); (py "campaign", campaign_name p);
        (py "fraud_verdict", JStr (verdict_text (a_fraud_verdict r)));
        (py "details", JObj
          [(py "attribution_id", juuid (a_id r)); (py "installed_at", jtime (a_installed_at r)); (py "tracking_link", link_name p);
           (py "deep_link", jtext (a_deep_link r)); (py "fraud_rules", JArr (JStr <$> decode_list (a_fraud_rules r)));
           (py "sub1", jtext (a_sub1 r)); (py "sub2", jtext (a_sub2 r)); (py "sub3", jtext (a_sub3 r));
           (py "superseded", JBool (bool_decide (a_superseded_by r ≠ None)))])] |}.

Definition postback_live (p : DeliveryRow * RuleRow) : result ApiError LiveItem :=
  let d := fst p in
  let* host := live_host (pd_request_url d) in
  Ok {| li_kind := py "postback"; li_id := str_of_uuid (pd_id d); li_at := isoformat (pd_created_at d);
        li_fields :=
          [(py "title", JStr (rr_name (snd p))); (py "status", JStr (status_text (pd_status d)));
           (py "response_status", jopt JInt (pd_response_status d));
           (py "details", JObj
             [(py "destination_host", host); (py "attempts", JInt (pd_attempt_count d)); (py "delivered_at", jopt jtime (pd_delivered_at d));
              (py "error", jtext (or_none (Some (take MAX_ERROR_CHARS (default [] (pd_error d)))))); (py "event_id", juuid (pd_event_id d));
              (py "sandbox_request_url", if bool_decide (pd_status d = Sandboxed) then jtext (pd_request_url d) else JNull)])] |}.

Definition rejection_live (r : Rejection) : LiveItem :=
  {| li_kind := py "rejected"; li_id := isoformat (rj_at r) ++ py ":" ++ rj_reason r ++ py ":" ++ py_str_int (rj_status r);
     li_at := isoformat (rj_at r);
     li_fields :=
       [(py "title", JStr (rj_reason r)); (py "status", JInt (rj_status r)); (py "source", JStr (rj_source r));
        (py "details", JObj [(py "detail", JStr (rj_detail r)); (py "events_in_batch", jopt JInt (rj_events_in_batch r))])] |}.

Definition live_item (h : Happening) : result ApiError LiveItem :=
  match h with
  | HClick p => Ok (click_live p)
  | HEvent r => Ok (event_live r)
  | HInstall p => Ok (install_live p)
  | HPostback p => postback_live p
  | HRejection r => Ok (rejection_live r)
  end.

(** ** The endpoint *)

Definition in_utc (t : datetime) : IsoTime := {| iso_wall := t; iso_offset := Some 0 |}.
Definition aware_instant (t : IsoTime) : datetime := iso_wall t - default 0 (iso_offset t).

(** [min(now, max(floor, since - LATE_WRITE_MARGIN))]: a time before the calendar raises. *)
Definition since_bound (now : datetime) (since : option IsoTime) : result ApiError IsoTime :=
  let floor := in_utc (now - WINDOW) in
  match since with
  | None => Ok floor
  | Some s =>
      let* _ := raise_if (iso_wall s - LATE_WRITE_MARGIN <? MIN_INSTANT) Crash in
      let s := {| iso_wall := iso_wall s - LATE_WRITE_MARGIN; iso_offset := Some (default 0 (iso_offset s)) |} in
      let s := if aware_instant floor <? aware_instant s then s else floor in
      Ok (if aware_instant s <? now then s else in_utc now)
  end.

(** [sort(key=.., reverse=True)], which leaves equal items in their order. *)
Definition item_after (a b : LiveItem) : Prop := str_leb (li_at b) (li_at a) = true.
#[export] Instance item_after_dec a b : base.Decision (item_after a b).
Proof. unfold item_after. apply _. Defined.

Definition live_handler (now : datetime) (app_id : pystr) (since : option IsoTime) (org : uuid) (st : LiveState) : result ApiError LiveFeed :=
  let* app := or_raise app_missing (uuid_of_str app_id) in
  let* _ := require_app org app (rd_apps (lt_read st)) in
  let* since := since_bound now since in
  let* items := collect live_item (fetched now app (aware_instant since) org st) in
  Ok {| lf_items := take MAX_ITEMS (merge_sort item_after items); lf_server_time := isoformat now; lf_since := stamp_text since;
        lf_window_seconds := WINDOW / second |}.
Definition live_feed (rq : ApiRequest) (app_id : pystr) (since : option IsoTime) :=
  as_role Member rq (reading (live_handler (ar_now rq) app_id since)).
End Items.

(** ** The order of times and of their text *)

Definition text_before (a b : pystr) : Prop := str_leb b a = false.

Lemma str_leb_refl a : str_leb a a = true.
Proof. induction a as [|x a IH]; [done |]. cbn. by rewrite N.eqb_refl, IH, orb_true_r. Qed.

Lemma text_before_app p a b : text_before (p ++ a) (p ++ b) ↔ text_before a b.
Proof. induction p as [|x p IH]; [done |]. unfold text_before in *. cbn. by rewrite N.ltb_irrefl, N.eqb_refl. Qed.

Lemma text_before_tails a b x y : length a = length b → text_before a b → text_before (a ++ x) (b ++ y).
Proof.
  revert b. unfold text_before. induction a as [|c a IH]; intros [|c' b] Hl H; [done | done | done |].
  cbn in *. injection Hl as Hl. apply orb_false_iff in H as [-> H]. cbn. destruct (c' =? c)%N; [| done]. cbn in *. by apply IH.
Qed.

(** Digits compare as the numbers they write. *)
Definition digit (c : N) : Prop := (48 <= c < 58)%N.

Lemma dec_value_bound s : Forall digit s → (dec_value 0 s < 10 ^ N.of_nat (length s))%N.
Proof.
  induction 1 as [|c s Hc Hs IH]; [done |]. cbn [dec_value length]. rewrite dec_value_shift, Nat2N.inj_succ, N.pow_succ_r'.
  unfold digit in Hc. nia.
Qed.

Lemma digits_compare a : ∀ b, Forall digit a → Forall digit b → length a = length b → (dec_value 0 a < dec_value 0 b)%N → text_before a b.
Proof.
  unfold text_before. induction a as [|x a IH]; intros [|y b] Ha Hb Hl H; [done.. |]. injection Hl as Hl.
  apply Forall_cons in Ha as [Hx Ha], Hb as [Hy Hb]. cbn [dec_value] in H.
  rewrite (dec_value_shift a), (dec_value_shift b) in H. rewrite Hl in H.
  pose proof (dec_value_bound a Ha) as Ba. rewrite Hl in Ba. pose proof (dec_value_bound b Hb) as Bb. unfold digit in Hx, Hy.
  set (p := (10 ^ N.of_nat (length b))%N) in *. clearbody p. cbn. apply orb_false_iff. split; [apply N.ltb_ge; nia |].
  destruct (N.eqb_spec y x) as [->|]; [| done]. cbn. apply IH; [done | done | done | nia].
Qed.

Lemma str_leb_total a : ∀ b, str_leb a b = true ∨ str_leb b a = true.
Proof.
  induction a as [|x a IH]; intros [|y b]; [by left.. | by right |]. cbn.
  destruct (N.lt_trichotomy x y) as [H|[->|H]]; [left; by rewrite (proj2 (N.ltb_lt x y) H) | | right; by rewrite (proj2 (N.ltb_lt y x) H)].
  rewrite N.ltb_irrefl, N.eqb_refl. apply IH.
Qed.

Lemma padded_are_digits w z : 0 <= z → Forall digit (pad w (py_str_int z)).
Proof.
  intros Hz. unfold pad, py_str_int. rewrite (proj2 (Z.ltb_ge z 0)) by lia. apply Forall_app. split.
  - apply Forall_replicate. unfold digit. lia.
  - eapply Forall_impl; [by apply dec_digits_chars |]. intros c Hc. unfold is_digit_ascii, Prelude.in_range in Hc.
    apply andb_true_iff in Hc as [?%N.leb_le ?%N.leb_le]. unfold digit. lia.
Qed.

(** Padded numbers, each before what follows it. *)
Lemma padded_before w x x' s s' :
  (0 < w)%nat → 0 <= x < 10 ^ Z.of_nat w → 0 <= x' < 10 ^ Z.of_nat w →
  x < x' ∨ (x = x' ∧ text_before s s') → text_before (pad w (py_str_int x) ++ s) (pad w (py_str_int x') ++ s').
Proof.
  intros Hw Hx Hx' [H|[-> H]]; [| by apply text_before_app].
  destruct (padded_digits w x Hw Hx) as [L V], (padded_digits w x' Hw Hx') as [L' V'].
  apply text_before_tails; [congruence |]. apply digits_compare; [apply padded_are_digits; lia | apply padded_are_digits; lia | congruence | lia].
Qed.

Definition micro_text (m : Z) : pystr := (if m =? 0 then [] else py "." ++ pad 6 (py_str_int m)) ++ py "+00:00".

Lemma micros_grow a b : 0 <= a → a < b → b < 1000000 → text_before (micro_text a) (micro_text b).
Proof.
  intros Ha Hab Hb. unfold micro_text. rewrite (proj2 (Z.eqb_neq b 0)) by lia.
  destruct (Z.eqb_spec a 0) as [->|Hz]; [reflexivity |]. rewrite <- !app_assoc. apply text_before_app.
  apply padded_before; lia.
Qed.

(** The calendar grows from each day to the next. *)
Definition date_number (d : Z) : Z := let '(y, m, d) := civil d in (y * 100 + m) * 100 + d.
Definition day_grows (d : Z) : bool := date_number d <? date_number (d + 1).

Lemma date_number_grows a b : FIRST_DAY <= a → a < b → b < LAST_DAY → date_number a < date_number b.
Proof.
  intros Ha Hab Hb. assert (∀ d, FIRST_DAY <= d → d < LAST_DAY - 1 → date_number d < date_number (d + 1)) as Hstep.
  { intros d Hd Hd'. apply Z.ltb_lt. apply (all_from_ok day_grows (Z.to_nat (LAST_DAY - 1 - FIRST_DAY)) FIRST_DAY);
      [vm_compute; reflexivity | unfold LAST_DAY, FIRST_DAY in *; lia]. }
  remember (Z.to_nat (b - a - 1)) as k eqn:Hk. revert b Hab Hb Hk. induction k as [|k IH]; intros b Hab Hb Hk.
  - assert (b = a + 1) as -> by lia. apply Hstep; lia.
  - specialize (IH (b - 1) ltac:(lia) ltac:(lia) ltac:(lia)). specialize (Hstep (b - 1) ltac:(lia) ltac:(lia)).
    rewrite Z.sub_add in Hstep. lia.
Qed.

(** The text of a date, a second of the day and what follows. *)
Definition stamp (y m d s : Z) (rest : pystr) : pystr :=
  pad 4 (py_str_int y) ++ py "-" ++ pad 2 (py_str_int m) ++ py "-" ++ pad 2 (py_str_int d) ++ py "T" ++
  pad 2 (py_str_int (s / 3600)) ++ py ":" ++ pad 2 (py_str_int (s / 60 mod 60)) ++ py ":" ++ pad 2 (py_str_int (s mod 60)) ++ rest.

Lemma isoformat_parts t :
  let '(y, m, d) := civil (t / day) in isoformat t = stamp y m d (t mod day / second) (micro_text (t mod second)).
Proof.
  unfold isoformat, clock_text, stamp, micro_text, day_isoformat. destruct (civil (t / day)) as [[y m] d]. cbv zeta.
  rewrite <- !app_assoc. done.
Qed.

Lemma in_years_day t : in_years t → FIRST_DAY <= t / day < LAST_DAY.
Proof.
  intros Ht. unfold in_years in Ht.
  split; [apply Z.div_le_lower_bound | apply Z.div_lt_upper_bound]; unfold day, hour, minute, second in *; lia.
Qed.

Lemma parts_compare t u d d' s s' m m' :
  0 <= s < 86400 → 0 <= s' < 86400 → 0 <= m < 1000000 → 0 <= m' < 1000000 →
  t = d * day + s * second + m → u = d' * day + s' * second + m' → t < u → d < d' ∨ (d = d' ∧ (s < s' ∨ (s = s' ∧ m < m'))).
Proof. unfold day, hour, minute, second. lia. Qed.

Lemma clock_compare s s' :
  0 <= s < 86400 → 0 <= s' < 86400 → s < s' →
  s / 3600 < s' / 3600 ∨ (s / 3600 = s' / 3600 ∧ (s / 60 mod 60 < s' / 60 mod 60 ∨ (s / 60 mod 60 = s' / 60 mod 60 ∧ s mod 60 < s' mod 60))).
Proof.
  intros Hs Hs' Hlt. destruct (second_parts s Hs) as (Es & _), (second_parts s' Hs') as (Es' & _).
  pose proof (Z.mod_pos_bound s 60 ltac:(lia)). pose proof (Z.mod_pos_bound s' 60 ltac:(lia)).
  pose proof (Z.mod_pos_bound (s / 60) 60 ltac:(lia)). pose proof (Z.mod_pos_bound (s' / 60) 60 ltac:(lia)). lia.
Qed.

Lemma stamp_before y m d s mi y' m' d' s' mi' :
  0 <= y < 10000 → 0 <= y' < 10000 → 0 <= m < 100 → 0 <= m' < 100 → 0 <= d < 100 → 0 <= d' < 100 →
  0 <= s < 86400 → 0 <= s' < 86400 → 0 <= mi < 1000000 → 0 <= mi' < 1000000 →
  y < y' ∨ (y = y' ∧ (m < m' ∨ (m = m' ∧ (d < d' ∨ (d = d' ∧ (s < s' ∨ (s = s' ∧ mi < mi'))))))) →
  text_before (stamp y m d s (micro_text mi)) (stamp y' m' d' s' (micro_text mi')).
Proof.
  intros By By' Bm Bm' Bd Bd' St Su Bi Bi' Hlex. unfold stamp.
  destruct (second_parts s St) as (_ & Bs), (second_parts s' Su) as (_ & Bs').
  apply padded_before; [lia | lia | lia |]. destruct Hlex as [|[-> Hlex]]; [by left | right; split; [done |]]. apply (text_before_app (py "-")).
  apply padded_before; [lia | lia | lia |]. destruct Hlex as [|[-> Hlex]]; [by left | right; split; [done |]]. apply (text_before_app (py "-")).
  apply padded_before; [lia | lia | lia |]. destruct Hlex as [|[-> Hlex]]; [by left | right; split; [done |]]. apply (text_before_app (py "T")).
  destruct Hlex as [Hs|[-> Hm]]; [| do 3 (apply text_before_app; try apply (text_before_app (py ":"))); apply micros_grow; lia].
  pose proof (clock_compare s s' St Su Hs) as Hl.
  apply padded_before; [lia | lia | lia |]. destruct Hl as [|[-> Hl]]; [by left | right; split; [done |]]. apply (text_before_app (py ":")).
  apply padded_before; [lia | lia | lia |]. destruct Hl as [|[-> Hl]]; [by left | right; split; [done |]]. apply (text_before_app (py ":")).
  apply padded_before; [lia | lia | lia |]. by left.
Qed.

(** The text of times is ordered as the times are. *)
Lemma isoformat_before t u : in_years t → in_years u → t < u → text_before (isoformat t) (isoformat u).
Proof.
  intros Ht%in_years_day Hu%in_years_day Hlt. pose proof (isoformat_parts t) as Pt. pose proof (isoformat_parts u) as Pu.
  pose proof (civil_inverse _ Ht) as Ct. pose proof (civil_inverse _ Hu) as Cu.
  destruct (instant_parts t) as (St & Mt & Et), (instant_parts u) as (Su & Mu & Eu).
  pose proof (parts_compare _ _ _ _ _ _ _ _ St Su Mt Mu Et Eu Hlt) as Hcases. clear Et Eu Hlt.
  revert Ct Cu Pt Pu St Su Mt Mu Hcases. generalize (t mod day / second) (u mod day / second) (t mod second) (u mod second).
  revert Ht Hu. generalize (t / day) (u / day) (isoformat t) (isoformat u). clear t u. intros dt du tt uu Ht Hu s s' mi mi' Ct Cu Pt Pu St Su Mt Mu Hcases.
  pose proof (λ H, date_number_grows dt du (proj1 Ht) H (proj2 Hu)) as Hg. unfold date_number in Hg.
  assert (dt = du → civil dt = civil du) as Hsame by (by intros ->).
  destruct (civil dt) as [[y m] d], (civil du) as [[y' m'] d']. subst tt uu.
  apply stamp_before; [lia.. |].
  destruct Hcases as [H|[H Hc]]; [specialize (Hg H); lia |]. specialize (Hsame H). injection Hsame as -> -> ->. lia.
Qed.

Lemma isoformat_order t u : in_years t → in_years u → str_leb (isoformat t) (isoformat u) = (t <=? u).
Proof.
  intros Ht Hu. destruct (Z.leb_spec t u) as [H|H].
  - destruct (decide (t = u)) as [->|]; [apply str_leb_refl |].
    pose proof (isoformat_before t u Ht Hu ltac:(lia)) as Hb. unfold text_before in Hb.
    destruct (str_leb_total (isoformat t) (isoformat u)) as [|E]; [done |]. congruence.
  - by apply isoformat_before.
Qed.

(** ** What a limit leaves out *)

(** What is past the first [n] of a sorted list comes after all of those. *)
Lemma taken_or_full {A} (le : A → A → Prop) n l x :
  StronglySorted le l → x ∈ l → x ∈ take n l ∨ (length (take n l) = n ∧ ∀ y, y ∈ take n l → le y x).
Proof.
  intros Hs Hx. rewrite <- (take_drop n l) in Hx, Hs. apply elem_of_app in Hx as [Hx|Hx]; [by left | right]. split.
  - apply length_take_le. destruct (Nat.le_gt_cases n (length l)); [done |]. rewrite drop_ge in Hx by lia. by apply elem_of_nil in Hx.
  - intros y Hy. by apply (StronglySorted_app_1_elem_of _ (take n l) (drop n l)).
Qed.

Definition as_new (i j : LiveItem) : bool := str_leb (li_at i) (li_at j).
(** The items at least as new. *)
Definition at_least_as_new (i : LiveItem) (items : list LiveItem) : Z := count_if (as_new i) items.

#[export] Instance item_after_trans : Transitive item_after.
Proof.
  intros a b c. unfold item_after. generalize (li_at a) (li_at b) (li_at c). clear. intros a b c.
  revert a b. induction c as [|z c IH]; intros [|x a] [|y b] Hab Hbc; [done.. |].
  cbn in *. apply orb_true_iff in Hab, Hbc. apply orb_true_iff.
  destruct Hab as [Hab%N.ltb_lt|[->%N.eqb_eq Hab]%andb_true_iff], Hbc as [Hbc%N.ltb_lt|[->%N.eqb_eq Hbc]%andb_true_iff];
    [left; apply N.ltb_lt; lia | left; by apply N.ltb_lt | left; by apply N.ltb_lt |].
  right. rewrite N.eqb_refl. cbn. by apply (IH a b).
Qed.
#[export] Instance item_after_total : Total item_after.
Proof. intros a b. unfold item_after. destruct (str_leb_total (li_at b) (li_at a)); [by left | by right]. Qed.

Abbreviation shown items := (take MAX_ITEMS (merge_sort item_after items)).

Lemma filter_all {A} (p : A → bool) l : (∀ x, x ∈ l → p x = true) → List.filter p l = l.
Proof.
  induction l as [|x l IH]; intros H; [done |]. cbn. rewrite (H x) by left. f_equal. apply IH. intros y Hy. apply H. by right.
Qed.

Lemma filter_none {A} (p : A → bool) l : (∀ x, x ∈ l → p x = false) → List.filter p l = [].
Proof.
  induction l as [|x l IH]; intros H; [done |]. cbn. rewrite (H x) by left. apply IH. intros y Hy. apply H. by right.
Qed.

Lemma count_if_perm {A} (p : A → bool) l l' : l ≡ₚ l' → count_if p l = count_if p l'.
Proof. intros H. unfold count_if, count. f_equal. apply Permutation_length. induction H; cbn; repeat case_match; eauto using Permutation. Qed.

Lemma count_if_app {A} (p : A → bool) l l' : count_if p (l ++ l') = count_if p l + count_if p l'.
Proof. unfold count_if, count. rewrite List.filter_app, length_app. lia. Qed.

Lemma count_if_nonneg {A} (p : A → bool) l : 0 <= count_if p l.
Proof. unfold count_if, count. lia. Qed.

(** The newest are kept: an item that is not shown gave way to newer ones, and items that
    were numerous are still so. *)
Lemma shown_or_full items i :
  i ∈ items ∨ Z.of_nat PER_KIND <= at_least_as_new i items →
  i ∈ shown items ∨ Z.of_nat PER_KIND <= at_least_as_new i (shown items).
Proof.
  pose proof (StronglySorted_merge_sort item_after items) as Hs. pose proof (merge_sort_Permutation item_after items) as Hp.
  assert (∀ l : list LiveItem, length l = MAX_ITEMS → (∀ y, y ∈ l → as_new i y = true) → Z.of_nat PER_KIND <= at_least_as_new i l) as Hfull.
  { intros l Hl Hall. unfold at_least_as_new, count_if, count. rewrite filter_all by done. rewrite Hl. unfold PER_KIND, MAX_ITEMS. lia. }
  intros [Hi|Hi].
  - rewrite <- Hp in Hi. destruct (taken_or_full item_after MAX_ITEMS _ i Hs Hi) as [|[Hl Hall]]; [by left | right]. by apply Hfull.
  - right. unfold at_least_as_new in Hi. rewrite <- (count_if_perm _ _ _ Hp), <- (take_drop MAX_ITEMS (merge_sort _ _)), count_if_app in Hi.
    destruct (forallb (as_new i) (shown items)) eqn:Hall.
    + rewrite forallb_forall in Hall. setoid_rewrite <- list_elem_of_In in Hall.
      destruct (Nat.le_gt_cases MAX_ITEMS (length (merge_sort item_after items))) as [Hn|Hn].
      * apply Hfull; [by apply length_take_le | done].
      * rewrite drop_ge in Hi by lia. unfold at_least_as_new. unfold count_if, count in *. cbn [List.filter length] in Hi. lia.
    + assert (count_if (as_new i) (drop MAX_ITEMS (merge_sort item_after items)) = 0) as Hz; [| unfold at_least_as_new; lia].
      apply not_true_iff_false in Hall. rewrite forallb_forall in Hall.
      assert (∃ y, y ∈ shown items ∧ as_new i y = false) as (y & Hy & Hnew).
      { destruct (existsb (λ y, negb (as_new i y)) (shown items)) eqn:He.
        - apply existsb_exists in He as (y & Hy & H%negb_true_iff). exists y. by rewrite list_elem_of_In.
        - destruct Hall. intros y Hy. destruct (as_new i y) eqn:E; [done |]. apply not_true_iff_false in He. destruct He.
          apply existsb_exists. exists y. by rewrite E. }
      unfold count_if, count. rewrite filter_none; [done |]. intros z Hz. apply not_true_is_false. intros Hiz.
      rewrite <- (take_drop MAX_ITEMS (merge_sort item_after items)) in Hs.
      pose proof (StronglySorted_app_1_elem_of _ _ _ _ _ Hs Hy Hz) as Hyz.
      assert (as_new i y = true); [| congruence].
      change (item_after y i). etrans; [exact Hyz | exact Hiz].
Qed.

(** ** Polling *)

(** All there is of an app when a request is served; Redis keeps the last fifty refusals. *)
Definition happened (now : datetime) (app org : uuid) (st : LiveState) : list Happening :=
  (HClick <$> app_clicks app org (lt_read st)) ++ (HEvent <$> app_events app org (lt_read st)) ++
  (HInstall <$> app_installs app org (lt_read st)) ++ (HPostback <$> app_postbacks app org st) ++
  (HRejection <$> take REJECTIONS_MAX (app_rejections now app (lt_rejections st))).

#[local] Instance later_trans {R} (at_ : R → datetime) : Transitive (later at_).
Proof. intros a b c. unfold later. lia. Qed.
#[local] Instance later_total {R} (at_ : R → datetime) : Total (later at_).
Proof. intros a b. unfold later. lia. Qed.

Lemma since_then_elem {R} (at_ : R → datetime) start rows r : r ∈ since_then at_ start rows ↔ r ∈ rows ∧ start <= at_ r.
Proof. unfold since_then. rewrite !list_elem_of_In, filter_In, Z.leb_le. done. Qed.

Lemma newest_elem {R} (at_ : R → datetime) start rows r : r ∈ newest at_ start rows → r ∈ rows ∧ start <= at_ r.
Proof.
  intros H. apply (since_then_elem at_ start rows). rewrite <- (merge_sort_Permutation (later at_)). unfold newest in H.
  by apply subseteq_take in H.
Qed.

(** How many of [l] are no older than [t]. *)
Definition not_older (t : datetime) (l : list Happening) : Z := count_if (λ h, t <=? happened_at h) l.

Lemma newest_or_full {R} (at_ : R → datetime) (as_h : R → Happening) start rows r :
  (∀ r, happened_at (as_h r) = at_ r) → r ∈ rows → start <= at_ r →
  as_h r ∈ as_h <$> newest at_ start rows ∨ Z.of_nat PER_KIND <= not_older (at_ r) (as_h <$> newest at_ start rows).
Proof.
  intros Hat Hr Hs. assert (r ∈ merge_sort (later at_) (since_then at_ start rows)) as Hin
    by (rewrite (merge_sort_Permutation (later at_)); by apply since_then_elem).
  destruct (taken_or_full (later at_) PER_KIND _ r (StronglySorted_merge_sort _ _) Hin) as [H|[Hl Hall]].
  - left. by apply list_elem_of_fmap_2.
  - right. unfold not_older, count_if, count. rewrite filter_all.
    + unfold newest. rewrite length_fmap, Hl. done.
    + intros h (y & -> & Hy)%list_elem_of_fmap. rewrite Hat. apply Z.leb_le. exact (Hall y Hy).
Qed.

Lemma not_older_in t l1 l l2 : Z.of_nat PER_KIND <= not_older t l → Z.of_nat PER_KIND <= not_older t (l1 ++ l ++ l2).
Proof.
  unfold not_older. rewrite !count_if_app.
  pose proof (count_if_nonneg (λ h, t <=? happened_at h) l1). pose proof (count_if_nonneg (λ h, t <=? happened_at h) l2). lia.
Qed.

(** What happened since then is fetched, or a hundred newer things of its kind are. *)
Lemma fetched_or_full now app start org st h :
  h ∈ happened now app org st → start <= happened_at h →
  h ∈ fetched now app start org st ∨ Z.of_nat PER_KIND <= not_older (happened_at h) (fetched now app start org st).
Proof.
  intros Hh Hs. unfold happened in Hh. unfold fetched. set (t := happened_at h).
  apply elem_of_app in Hh as [(r & -> & Hr)%list_elem_of_fmap|Hh].
  { destruct (newest_or_full click_at HClick start _ r (λ _, eq_refl) Hr Hs); [left; apply elem_of_app; by left | right].
    by apply (not_older_in _ []). }
  apply elem_of_app in Hh as [(r & -> & Hr)%list_elem_of_fmap|Hh].
  { destruct (newest_or_full er_received_at HEvent start _ r (λ _, eq_refl) Hr Hs); [left; rewrite !elem_of_app; tauto | right].
    by apply not_older_in. }
  apply elem_of_app in Hh as [(r & -> & Hr)%list_elem_of_fmap|Hh].
  { destruct (newest_or_full install_at HInstall start _ r (λ _, eq_refl) Hr Hs); [left; rewrite !elem_of_app; tauto | right].
    rewrite app_assoc. by apply not_older_in. }
  apply elem_of_app in Hh as [(r & -> & Hr)%list_elem_of_fmap|(r & -> & Hr)%list_elem_of_fmap].
  { destruct (newest_or_full postback_at HPostback start _ r (λ _, eq_refl) Hr Hs); [left; rewrite !elem_of_app; tauto | right].
    rewrite (app_assoc (HEvent <$> _)), app_assoc. by apply not_older_in. }
  left. rewrite !elem_of_app. do 4 right. apply list_elem_of_fmap_2. by apply since_then_elem.
Qed.

Lemma fetched_happened now app start org st h : h ∈ fetched now app start org st → h ∈ happened now app org st ∧ start <= happened_at h.
Proof.
  unfold fetched, happened. rewrite !elem_of_app.
  intros [H|[H|[H|[H|H]]]]; apply list_elem_of_fmap in H as (r & -> & Hr);
    [apply newest_elem in Hr as [Hr Hs].. | apply since_then_elem in Hr as [Hr Hs]];
    (split; [| exact Hs]); rewrite ?elem_of_app.
  - left. by apply list_elem_of_fmap_2.
  - right. left. by apply list_elem_of_fmap_2.
  - do 2 right. left. by apply list_elem_of_fmap_2.
  - do 3 right. left. by apply list_elem_of_fmap_2.
  - do 4 right. by apply list_elem_of_fmap_2.
Qed.

Section Polling.
Context {U : Unicode} {NC : NetlocCheck} {XL : ExportLib}.

Lemma live_item_at h i : live_item h = Ok i → li_at i = isoformat (happened_at h).
Proof.
  destruct h; cbn [live_item]; intros E; try (injection E as <-; done).
  unfold postback_live in E. destruct (live_host _); [| done]. cbn [rbind] in E. by injection E as <-.
Qed.

(** The times of the things of an app, which the columns bound. *)
Definition times_ok (now : datetime) (app org : uuid) (st : LiveState) : Prop := Forall (λ h, in_years (happened_at h)) (happened now app org st).

Lemma count_newer hs items t i :
  Forall2 (λ h j, live_item h = Ok j) hs items → Forall (λ h, in_years (happened_at h)) hs → in_years t → li_at i = isoformat t →
  at_least_as_new i items = not_older t hs.
Proof.
  intros Hi Hy Ht Et. unfold at_least_as_new, not_older, count_if, count. f_equal.
  induction Hi as [|h j hs items Hh Hi IH]; [done |]. apply Forall_cons in Hy as [Hh' Hy]. cbn [List.filter].
  assert (as_new i j = (t <=? happened_at h)) as ->
    by (unfold as_new; rewrite Et, (live_item_at _ _ Hh); by apply isoformat_order).
  case_match; cbn [length]; by rewrite IH.
Qed.

(** One request. *)
Lemma live_handler_ok now app_id since org st feed :
  live_handler now app_id since org st = Ok feed →
  ∃ app from items, uuid_of_str app_id = Some app ∧ require_app org app (rd_apps (lt_read st)) = Ok tt ∧ since_bound now since = Ok from ∧
    collect live_item (fetched now app (aware_instant from) org st) = Ok items ∧ lf_items feed = shown items ∧
    lf_server_time feed = isoformat now.
Proof.
  unfold live_handler. destruct (uuid_of_str app_id) as [app|]; [| done]. cbn [or_raise rbind].
  destruct (require_app _ _ _) as [[]|] eqn:Ea; [| done]. cbn [rbind]. destruct (since_bound now since) as [from|]; [| done]. cbn [rbind].
  destruct (collect _ _) as [items|] eqn:Ec; [| done]. cbn [rbind]. intros E. injection E as <-. exists app, from, items. repeat split. all: assumption.
Qed.

Lemma shows_since now app_id since org st feed app from h i :
  live_handler now app_id since org st = Ok feed → uuid_of_str app_id = Some app → since_bound now since = Ok from →
  times_ok now app org st → h ∈ happened now app org st → aware_instant from <= happened_at h → live_item h = Ok i →
  i ∈ lf_items feed ∨ Z.of_nat PER_KIND <= at_least_as_new i (lf_items feed).
Proof.
  intros (app' & from' & items & Happ & _ & Hfrom & Hc & -> & _)%live_handler_ok Happ' Hfrom' Hok Hh Hs Hi. rewrite Happ in Happ'. injection Happ' as ->. rewrite Hfrom in Hfrom'. injection Hfrom' as ->.
  apply collect_ok in Hc. unfold times_ok in Hok. rewrite Forall_forall in Hok.
  assert (Forall (λ h, in_years (happened_at h)) (fetched now app (aware_instant from) org st)) as Hy
    by (apply Forall_forall; intros h' Hh'; apply Hok; by apply fetched_happened in Hh' as [? _]).
  apply shown_or_full. destruct (fetched_or_full now app (aware_instant from) org st h Hh Hs) as [Hin|Hfull].
  - left. apply list_elem_of_lookup in Hin as [k Hk]. destruct (Forall2_lookup_l _ _ _ _ _ Hc Hk) as (j & Hj & Ej).
    cbn in Ej. rewrite Hi in Ej. injection Ej as ->. by eapply list_elem_of_lookup_2.
  - right. rewrite (count_newer _ _ (happened_at h) i Hc Hy (Hok h Hh)); [done |]. by apply live_item_at.
Qed.

(** A client's polls: each with the time of the answer before. *)
Fixpoint polling (app_id : pystr) (org : uuid) (previous : option datetime) (polls : list (datetime * LiveState)) : result ApiError (list LiveFeed) :=
  match polls with
  | [] => Ok []
  | (now, st) :: polls =>
      let* feed := live_handler now app_id (in_utc <$> previous) org st in
      let* feeds := polling app_id org (Some now) polls in
      Ok (feed :: feeds)
  end.

Lemma since_bound_previous now prev :
  in_years prev → prev <= now <= prev + (WINDOW - LATE_WRITE_MARGIN) →
  ∃ from, since_bound now (Some (in_utc prev)) = Ok from ∧ aware_instant from <= prev - LATE_WRITE_MARGIN.
Proof.
  intros Hp Hn. unfold since_bound. cbn [in_utc iso_wall iso_offset default].
  assert ((prev - LATE_WRITE_MARGIN <? MIN_INSTANT) = false) as ->.
  { apply Z.ltb_ge. destruct Hp as [Hp _]. assert (MIN_INSTANT + LATE_WRITE_MARGIN <= FIRST_DAY * day) by (apply Z.leb_le; vm_compute; reflexivity). lia. }
  cbn [raise_if rbind]. eexists. split; [reflexivity |].
  unfold aware_instant. cbn [in_utc iso_wall iso_offset default]. unfold WINDOW, LATE_WRITE_MARGIN, minute, second in *.
  repeat case_match; cbn [in_utc iso_wall iso_offset default id] in *; bprop; lia.
Qed.
End Polling.

Section Complete.
Context {U : Unicode} {NC : NetlocCheck} {XL : ExportLib} (app_id : pystr) (app org : uuid).
Hypothesis Happ : uuid_of_str app_id = Some app.

(** The first poll at or after [v] finds [h], and the tables hold times of the calendar. *)
Definition found_from (v : datetime) (h : Happening) (polls : list (datetime * LiveState)) : Prop :=
  ∀ earlier p rest, polls = earlier ++ p :: rest → Forall (λ q, fst q < v) earlier → v <= fst p →
    h ∈ happened (fst p) app org (snd p) ∧ times_ok (fst p) app org (snd p).

Lemma polling_spec polls : ∀ prev feeds v h i,
  in_years prev → polling app_id org (Some prev) polls = Ok feeds →
  Sorted (λ a b, a <= b <= a + (WINDOW - LATE_WRITE_MARGIN)) (prev :: (fst <$> polls)) → Forall in_years (fst <$> polls) →
  prev < v → v <= happened_at h + LATE_WRITE_MARGIN → Exists (λ p, v <= fst p) polls → found_from v h polls → live_item h = Ok i →
  ∃ feed, feed ∈ feeds ∧ (i ∈ lf_items feed ∨ Z.of_nat PER_KIND <= at_least_as_new i (lf_items feed)).
Proof.
  induction polls as [|[now st] polls IH]; intros prev feeds v h i Hy E Hs Hys Hv Hm Hex Hf Hi; [by apply Exists_nil in Hex |].
  cbn [polling fmap option_fmap option_map] in E. destruct (live_handler now app_id _ org st) as [feed|] eqn:Ef; [| done]. cbn [rbind] in E.
  destruct (polling app_id org (Some now) polls) as [feeds'|] eqn:Ep; [| done]. injection E as <-.
  rewrite fmap_cons in Hs, Hys. apply Sorted_inv in Hs as [Hs Hhd]. apply HdRel_inv in Hhd. cbn [fst] in *.
  apply Forall_cons in Hys as [Hnow Hys]. destruct (Z.le_gt_cases v now) as [Hle|Hgt].
  - exists feed. split; [by left |]. destruct (Hf [] (now, st) polls eq_refl (List.Forall_nil _) Hle) as [Hh Hok].
    destruct (since_bound_previous now prev Hy Hhd) as (from & Hfrom & Hb).
    eapply shows_since; [exact Ef | exact Happ | exact Hfrom | exact Hok | exact Hh | lia | exact Hi].
  - apply Exists_cons in Hex as [Hx|Hex]; [cbn in Hx; lia |].
    destruct (IH now feeds' v h i Hnow Ep Hs Hys Hgt Hm Hex) as (f & Hin & Hshown); [| done | exists f; split; [by right | done]].
    intros earlier p rest -> He. apply (Hf ((now, st) :: earlier) p rest eq_refl). by constructor.
Qed.

End Complete.

(** ** Order *)

(** The answer is in the order of the instants: the items are those of things sorted from
    the newest, of the app and since the bound. *)
Theorem live_feed_is_ordered `{Unicode} `{NetlocCheck} `{ExportLib} now app_id since org st feed :
  live_handler now app_id since org st = Ok feed →
  (∀ app, uuid_of_str app_id = Some app → times_ok now app org st) →
  ∃ app from hs, uuid_of_str app_id = Some app ∧ require_app org app (rd_apps (lt_read st)) = Ok tt ∧ since_bound now since = Ok from ∧
    Forall2 (λ h i, live_item h = Ok i) hs (lf_items feed) ∧ StronglySorted (λ a b, happened_at b <= happened_at a) hs ∧
    (length hs <= MAX_ITEMS)%nat ∧ (∀ h, h ∈ hs → h ∈ happened now app org st ∧ aware_instant from <= happened_at h).
Proof.
  intros (app & from & items & Happ & Hreq & Hfrom & Hc%collect_ok & -> & _)%live_handler_ok Hok.
  specialize (Hok app Happ). unfold times_ok in Hok. rewrite Forall_forall in Hok.
  pose proof (merge_sort_Permutation item_after items) as Hp. symmetry in Hp.
  apply Forall2_flip in Hc. destruct (Permutation_Forall2 Hp Hc) as (hs & Hphs & Hhs). apply (Forall2_flip (λ h i, live_item h = Ok i)) in Hhs.
  exists app, from, (take MAX_ITEMS hs). split; [done |]. split; [done |]. split; [done |].
  assert (∀ h, h ∈ hs → h ∈ happened now app org st ∧ aware_instant from <= happened_at h) as Hin
    by (intros h Hh; apply fetched_happened; by rewrite Hphs).
  split; [by apply Forall2_take |]. split; [| split; [rewrite length_take; lia |]].
  - assert (StronglySorted (λ a b, happened_at b <= happened_at a) hs) as Hss.
    { pose proof (StronglySorted_merge_sort item_after items) as Hs. clear Hphs Hp Hc. revert Hhs Hs Hin. generalize (merge_sort item_after items). intros l Hhs Hs Hin.
      induction Hhs as [|h i hs l Hi Hhs IH]; [constructor |]. apply StronglySorted_inv in Hs as [Hs Hall].
      constructor; [apply IH; [done | intros h' Hh'; apply Hin; by right] |].
      apply Forall_forall. intros h' Hh'. apply list_elem_of_lookup in Hh' as [k Hk].
      destruct (Forall2_lookup_l _ _ _ _ _ Hhs Hk) as (j & Hj & Ej). rewrite Forall_forall in Hall.
      specialize (Hall j (list_elem_of_lookup_2 _ _ _ Hj)). unfold item_after in Hall.
      rewrite (live_item_at _ _ Hi), (live_item_at _ _ Ej), isoformat_order in Hall; [by apply Z.leb_le | |];
        apply Hok, Hin; [right; by eapply list_elem_of_lookup_2 | by left]. }
    rewrite <- (take_drop MAX_ITEMS hs) in Hss. by apply StronglySorted_app_1_l in Hss.
  - intros h Hh. apply Hin. by apply subseteq_take in Hh.
Qed.

(** ** Whose things an answer shows *)

(** What is the organisation's own, without hashes: the rest of the tables is emptied, and
    Redis keeps the list of the app. *)
Definition own_read (org : uuid) (st : ReadState) : ReadState :=
  {| rd_apps := of_org af_organization_id org (rd_apps st); rd_campaigns := visible_campaigns org st; rd_links := visible_links org st;
     rd_events := hide_event <$> of_org er_organization_id org (rd_events st);
     rd_clicks := hide_click <$> of_org cr_organization_id org (rd_clicks st);
     rd_attributions := of_org a_organization_id org (rd_attributions st) |}.
Definition own_state (org app : uuid) (st : LiveState) : LiveState :=
  {| lt_read := own_read org (lt_read st);
     lt_rules := of_org (λ r, ru_organization_id (rr_rule r)) org (lt_rules st);
     lt_deliveries := of_org pd_organization_id org (lt_deliveries st);
     lt_rejections := match lt_rejections st !! rejections_key (str_of_uuid app) with
                      | Some e => {[rejections_key (str_of_uuid app) := e]} | None => ∅ end |}.

Lemma of_org_again {R} (org_of : R → uuid) org rows : of_org org_of org (of_org org_of org rows) = of_org org_of org rows.
Proof. unfold of_org. apply filter_all. intros r Hr. by apply list_elem_of_In, filter_In in Hr as [_ Hr]. Qed.

Lemma of_org_hide {R} (f : R → R) (org_of : R → uuid) org rows :
  (∀ r, org_of (f r) = org_of r) → of_org org_of org (f <$> of_org org_of org rows) = f <$> of_org org_of org rows.
Proof.
  intros Hf. unfold of_org. apply filter_all. intros r (x & -> & Hx)%list_elem_of_fmap. rewrite Hf.
  by apply list_elem_of_In, filter_In in Hx as [_ Hx].
Qed.

Lemma require_app_own org app apps : require_app org app (of_org af_organization_id org apps) = require_app org app apps.
Proof.
  unfold require_app, of_org. do 2 f_equal. induction apps as [|a apps IH]; [done |]. cbn [List.filter existsb].
  case_bool_decide as H; cbn [existsb]; rewrite IH; [by rewrite (bool_decide_true (af_organization_id a = org)) | by rewrite andb_false_r].
Qed.

Section Own.
Context {U : Unicode} {NC : NetlocCheck} {XL : ExportLib}.

(** Things that show alike. *)
Definition alike (a b : Happening) : Prop := happened_at a = happened_at b ∧ live_item a = live_item b.

Lemma newest_alike {R} (at_ : R → datetime) (as_h : R → Happening) (P : R → R → Prop) start l l' :
  (∀ r r', P r r' → at_ r = at_ r' ∧ alike (as_h r) (as_h r')) → Forall2 P l l' →
  Forall2 alike (as_h <$> newest at_ start l) (as_h <$> newest at_ start l').
Proof.
  intros HP Hl. unfold newest. apply Forall2_fmap, Forall2_take.
  assert (Forall2 P (since_then at_ start l) (since_then at_ start l')) as H.
  { unfold since_then. induction Hl as [|r r' l l' Hr Hl IH]; [constructor |]. cbn [List.filter].
    rewrite <- (proj1 (HP _ _ Hr)). case_match; [by constructor | done]. }
  apply (sort_in_step P (later at_)) in H.
  - eapply Forall2_impl; [exact H |]. intros r r' Hr. by apply HP.
  - intros a a' b b' Ha Hb. unfold later. by rewrite (proj1 (HP _ _ Ha)), (proj1 (HP _ _ Hb)).
Qed.

Lemma Forall2_filter {R} (P : R → R → Prop) (p : R → bool) l l' :
  (∀ r r', P r r' → p r = p r') → Forall2 P l l' → Forall2 P (List.filter p l) (List.filter p l').
Proof.
  intros HP. induction 1 as [|r r' l l' Hr Hl IH]; [constructor |]. cbn [List.filter]. rewrite <- (HP _ _ Hr).
  case_match; [by constructor | done].
Qed.

Definition hide_named (p : Named ClickRecord) : Named ClickRecord := (hide_click (fst (fst p)), snd (fst p), snd p).

Lemma left_join_map {A B} (on : A → B → bool) (f : A → A) la lb :
  (∀ a b, on (f a) b = on a b) → left_join on (f <$> la) lb = (λ p, (f (fst p), snd p)) <$> left_join on la lb.
Proof.
  intros Hon. unfold left_join. induction la as [|a la IH]; [done |]. rewrite fmap_cons, !bind_cons, fmap_app, IH. f_equal.
  rewrite (List.filter_ext (on (f a)) (on a)) by (intros b; apply Hon).
  case_match; [done |]. by rewrite <- list_fmap_compose.
Qed.

Lemma clicks_hidden org st rows :
  with_names (λ c, Some (cr_tracking_link_id c)) cr_campaign_id org st (hide_click <$> rows) =
    hide_named <$> with_names (λ c, Some (cr_tracking_link_id c)) cr_campaign_id org st rows.
Proof.
  unfold with_names. rewrite left_join_map by done.
  rewrite (left_join_map _ (λ p : ClickRecord * option LinkRecord, (hide_click (fst p), snd p))) by done. done.
Qed.

Lemma with_names_own {R} (link_of campaign_of : R → option uuid) org st rows :
  with_names link_of campaign_of org (own_read org st) rows = with_names link_of campaign_of org st rows.
Proof.
  unfold with_names.
  assert (visible_links org (own_read org st) = visible_links org st) as -> by apply of_org_again.
  assert (visible_campaigns org (own_read org st) = visible_campaigns org st) as -> by apply of_org_again. done.
Qed.

Lemma fetched_own now app start org st : Forall2 alike (fetched now app start org st) (fetched now app start org (own_state org app st)).
Proof.
  unfold fetched. repeat apply Forall2_app.
  - apply (newest_alike _ _ (λ p p', p' = hide_named p)); [intros p ? -> ; done |]. unfold app_clicks. cbn [own_state lt_read].
    rewrite with_names_own. cbn [own_read rd_clicks]. rewrite of_org_hide by done. rewrite clicks_hidden.
    apply Forall2_filter; [intros p ? ->; done |]. apply Forall2_fmap_r, Forall_Forall2_diag, Forall_true. done.
  - apply (newest_alike _ _ (λ r r', r' = hide_event r)); [intros r ? -> ; done |]. unfold app_events. cbn [own_state lt_read own_read rd_events].
    rewrite of_org_hide by done. apply Forall2_filter; [intros r ? ->; done |]. apply Forall2_fmap_r, Forall_Forall2_diag, Forall_true. done.
  - unfold app_installs. cbn [own_state lt_read]. rewrite with_names_own. cbn [own_read rd_attributions]. rewrite of_org_again.
    apply Forall_Forall2_diag, Forall_true. done.
  - unfold app_postbacks. cbn [own_state lt_deliveries lt_rules]. rewrite !of_org_again. apply Forall_Forall2_diag, Forall_true. done.
  - unfold recent_rejections, app_rejections, rget, peek. cbn [own_state lt_rejections].
    destruct (lt_rejections st !! rejections_key (str_of_uuid app)) as [e|] eqn:E.
    + rewrite lookup_singleton_eq. apply Forall_Forall2_diag, Forall_true. done.
    + rewrite lookup_empty. apply Forall_Forall2_diag, Forall_true. done.
Qed.

Lemma collect_alike hs hs' : Forall2 alike hs hs' → collect live_item hs = collect live_item hs'.
Proof. induction 1 as [|h h' hs hs' [_ Hh] Hhs IH]; [done |]. cbn [collect]. by rewrite Hh, IH. Qed.

(** The live view is the organisation's own.  What it answers to a member is a function of
    the rows of the member's organisation, but for the hashes and user agents in them, and
    of the refusals of the app it names, and an app of another organisation is not found. *)
Theorem live_view_is_own rq app_id since api st r api' st' :
  live_feed rq app_id since api st = (Ok r, api', st') →
  ∃ p org app, admitted Member rq api p org ∧ uuid_of_str app_id = Some app ∧ st' = st ∧
    (∃ a, a ∈ rd_apps (lt_read st) ∧ af_id a = app ∧ af_organization_id a = org) ∧
    live_handler (ar_now rq) app_id since org (own_state org app st) = Ok r.
Proof.
  intros (p & org & Hadm & E)%as_role_Ok. unfold reading in E. injection E as E <-.
  pose proof E as E'. apply live_handler_ok in E' as (app & from & items & Happ & Hreq & Hfrom & Hc & _).
  exists p, org, app. split; [done |]. split; [done |]. split; [done |]. split.
  - unfold require_app, raise_if in Hreq. destruct (existsb _ _) eqn:He; [| done].
    apply existsb_exists in He as (a & Ha & [H1%bool_decide_eq_true H2%bool_decide_eq_true]%andb_true_iff).
    exists a. by rewrite list_elem_of_In.
  - rewrite <- E. unfold live_handler. rewrite Happ. cbn [or_raise rbind own_state lt_read own_read rd_apps].
    rewrite require_app_own. destruct (require_app _ _ _); [| done]. cbn [rbind]. destruct (since_bound _ _); [| done]. cbn [rbind].
    by rewrite <- (collect_alike _ _ (fetched_own _ _ _ _ _)).
Qed.
End Own.

(** ** Witnesses *)

Abbreviation live_at now app_id since org st := (@live_handler ascii_unicode no_netloc ex_export_lib now app_id since org st).
Definition ex_live (events : list EventRow) : LiveState :=
  {| lt_read := ex_log_state events; lt_rules := []; lt_deliveries := []; lt_rejections := ∅ |}.
Definition ex_app : pystr := str_of_uuid 9.
Definition ex_moment (s : Z) : datetime := 20000 * day + s * second.

(** Polls every thirty seconds; what was received at the tenth second is written at the
    fortieth. *)
Definition ex_late : EventRow := ex_log_event (10 * second) 1.
Definition ex_first_poll : datetime * LiveState := (ex_moment 0, ex_live []).
Definition ex_polls : list (datetime * LiveState) := [(ex_moment 30, ex_live []); (ex_moment 60, ex_live [ex_late]); (ex_moment 90, ex_live [ex_late])].
Abbreviation ex_answers := (@polling ascii_unicode no_netloc ex_export_lib ex_app 101 None (ex_first_poll :: ex_polls)).

Lemma ex_found : found_from 9 101 (ex_moment 40) (HEvent ex_late) ex_polls.
Proof.
  intros earlier p rest E He Hv.
  assert (p ∈ ex_polls) as Hp by (rewrite E; apply elem_of_app; right; by left).
  apply list_elem_of_In in Hp. cbn in Hp. destruct Hp as [<-|[<-|[<-|[]]]]; [by destruct Hv | |];
    (split; [by left |]); (apply Forall_cons; split; [split; vm_compute; (reflexivity || discriminate) | by apply Forall_nil_2]).
Qed.


(** The rows of another organisation are in the table; they are in no answer. *)
Definition ex_theirs (org id : uuid) : EventRow :=
  {| er_event_id := id; er_received_at := 3; er_occurred_at := 3; er_organization_id := org; er_app_id := 9;
     er_event_name := py "purchase"; er_anonymous_id := py "device"; er_user_id := None; er_session_id := None; er_platform := 1;
     er_os_version := None; er_app_version := None; er_device_model := None; er_country := None; er_ip_hash := Some [1%N];
     er_click_id := None; er_revenue_minor := None; er_currency := None; er_clock_skew_ms := None; er_properties := [] |}.
Definition ex_shared : LiveState := ex_live [ex_theirs 101 1; ex_theirs 102 2].
Abbreviation ex_answer := (@live_feed ascii_unicode no_netloc ex_export_lib (Access.ex_request 5 1) ex_app None ex_state ex_shared).

Lemma live_view_is_own_witness :
  match ex_answer with
  | (Ok r, _, _) => length (lf_items r) = 1%nat ∧ ∃ org, live_at 5 ex_app None org (own_state org 9 ex_shared) = Ok r
  | _ => False
  end.
Proof.
  assert (match ex_answer with (Ok r, _, _) => (length (lf_items r) =? 1)%nat | _ => false end = true) as Hc by (vm_compute; reflexivity).
  destruct ex_answer as [[[r|e] api] st] eqn:E; [| done]. apply Nat.eqb_eq in Hc. split; [exact Hc |].
  destruct (@live_view_is_own ascii_unicode no_netloc ex_export_lib _ _ _ _ _ _ _ _ E) as (p & org & app & _ & Happ & _ & _ & H).
  exists org. assert (app = 9%N) as -> by (vm_compute in Happ; by injection Happ). exact H.
Defined.

(** ** What the code does beyond its documentation *)

(** *** Outcomes that are never seen

    A delivery is shown by the time it was created: one whose outcome takes longer than a
    minute, as every retry does, is shown as it was, and no later poll shows it again. *)
Definition ex_delivery_at (status : DeliveryStatus) : LiveState :=
  {| lt_read := {| rd_apps := [{| af_id := 8; af_organization_id := 2; af_status := py "active" |}]; rd_campaigns := []; rd_links := [];
                   rd_events := []; rd_clicks := []; rd_attributions := [] |};
     lt_rules := [{| rr_rule := ex_rule None; rr_name := py "installs"; rr_created_at := 0 |}];
     lt_deliveries :=
       [{| pd_id := 1; pd_organization_id := 2; pd_rule_id := 3; pd_event_id := 4; pd_status := status; pd_attempt_count := 1;
           pd_created_at := ex_moment 0; pd_request_url := Some (py "https://partner.example/p"); pd_request_method := None;
           pd_request_body := None; pd_headers_ciphertext := None; pd_headers_nonce := None; pd_wrapped_dek := None; pd_key_version := 0;
           pd_response_status := None; pd_response_body := None; pd_error := None; pd_next_retry_at := None; pd_delivered_at := None |}];
     lt_rejections := ∅ |}.

Definition ex_watching : list (datetime * LiveState) :=
  (λ s, (ex_moment s, ex_delivery_at (if s <? 70 then Failed else Delivered))) <$> [1; 31; 61; 91; 121; 151].

Lemma outcomes_are_never_seen :
  match @polling ascii_unicode no_netloc ex_export_lib (str_of_uuid 8) 2 None ex_watching with
  | Ok feeds => (λ feed, (λ i, od_get (py "status") (li_fields i)) <$> lf_items feed) <$> feeds =
      [[Some (JStr (py "failed"))]; [Some (JStr (py "failed"))]; [Some (JStr (py "failed"))]; []; []; []]
  | Err _ => False
  end.
Proof. vm_compute. reflexivity. Qed.

(** *** The first minute of the calendar

    The margin is taken from [since] before it is bounded, so a time in the first minute of
    the year 1 is a server error rather than the whole window. *)
Lemma first_minute_is_a_server_error :
  live_at (ex_moment 0) ex_app (Some {| iso_wall := MIN_INSTANT; iso_offset := Some 0 |}) 101 (ex_live []) = Err Crash.
Proof. vm_compute. reflexivity. Qed.
