(* ===== verification/SkanApi.v ===== *)
(** * SKAdNetwork through the API (mmp_api/routes/skan.py)

    The table that says which conversion value an event raises, written by the API and read
    by the tracker for an app's SDK ([conversion_values] of [Redirect]), and the reports of
    Apple's postbacks, which [Skan] stores.

    [mappings_reach_the_app]: after any requests the SDK of an app is given exactly the
    values that were last set for its events on iOS and not deleted since, one for each
    event, each of six bits.  [summary_counts_postbacks]: the summary accounts for every
    postback of the range. *)

From stdpp Require Import sorting.
From S2P Require Import Prelude Ids Schema Signing Keys Skan AuditLog Access Handlers Relational LinkCache LinkApi LogApi ExportApi Analytics Redirect.

#[local] Open Scope Z_scope.
#[local] Open Scope mmp_scope.

Definition SKAN_RANGE : timedelta := 90 * day.
Definition COARSE_VALUES : list pystr := [py "low"; py "medium"; py "high"].

(** ** Data *)

(** A row of [conversion_mappings]: what the tracker reads of it, and the rest. *)
Record MappingRow := {
  mp_id : uuid;
  mp_organization_id : uuid;
  mp_mapping : ConversionMapping;
  mp_created_at : datetime;
  mp_updated_at : datetime
}.

(** A row of [skadnetwork_postbacks], with its id and time. *)
Record PostbackRow := { pb_id : uuid; pb_received_at : datetime; pb_row : SkanRow }.

Record SkanApiState := { sa_apps : list AppRef; sa_mappings : list MappingRow; sa_postbacks : list PostbackRow; sa_audit : list AuditRow }.

Definition with_mappings (l : list MappingRow) (log : list AuditRow) (st : SkanApiState) : SkanApiState :=
  {| sa_apps := sa_apps st; sa_mappings := l; sa_postbacks := sa_postbacks st; sa_audit := log |}.

Record ConversionValueIn := {
  ci_app_id : pystr; ci_event_name : pystr; ci_conversion_value : Z; ci_coarse_value : option pystr; ci_platform : pystr
}.

Definition conversion_body_ok (b : ConversionValueIn) : bool :=
  sized 1 120 (ci_event_name b) && (0 <=? ci_conversion_value b) && (ci_conversion_value b <=? 63).

(** The identifiers [uuid7] mints and the clocks of the database and the log. *)
Record SkanDraws := { kd_id : uuid; kd_audit_id : uuid; kd_now : datetime }.

Definition mapping_key (m : ConversionMapping) : uuid * pystr * pystr := (cm_app_id m, cm_platform m, cm_event_name m).

Definition later_postback (a b : PostbackRow) : Prop := pb_received_at b <= pb_received_at a.
#[export] Instance later_postback_dec a b : base.Decision (later_postback a b).
Proof. unfold later_postback. apply _. Defined.

Definition lower_value (a b : MappingRow) : Prop := cm_conversion_value (mp_mapping a) <= cm_conversion_value (mp_mapping b).
#[export] Instance lower_value_dec a b : base.Decision (lower_value a b).
Proof. unfold lower_value. apply _. Defined.

(** A line of the summary; the average is its sum and how many it is over. *)
Record SkanSummaryRow := {
  sr_ad_network_id : pystr; sr_source_identifier : option pystr; sr_winning_postbacks : Z; sr_non_winning_postbacks : Z; sr_redownloads : Z;
  sr_average : option (Z * Z); sr_suppressed : Z
}.
Definition more_winning (a b : SkanSummaryRow) : Prop := sr_winning_postbacks b <= sr_winning_postbacks a.
#[export] Instance more_winning_dec a b : base.Decision (more_winning a b).
Proof. unfold more_winning. apply _. Defined.

Section SkanApi.
Context {U : Unicode} {AL : AuditLib} {DU : DriverUuid} {XL : ExportLib}.

(** ** Conversion values *)

Definition list_conversion_values_handler (app_id : pystr) (org : uuid) (st : SkanApiState) : result ApiError (list MappingRow) :=
  let* app := or_raise Crash (driver_uuid app_id) in
  Ok (merge_sort lower_value
        (List.filter (λ r, bool_decide (cm_app_id (mp_mapping r) = app)) (of_org mp_organization_id org (sa_mappings st)))).
Definition list_conversion_values (rq : ApiRequest) (app_id : pystr) := as_role Member rq (reading (list_conversion_values_handler app_id)).

(** [INSERT .. ON CONFLICT (app_id, platform, event_name) DO UPDATE .. RETURNING]: the row
    and the table.  A row the connection may not see refuses the update. *)
Definition upsert_mapping (org : uuid) (m : ConversionMapping) (d : SkanDraws) (l : list MappingRow) : result ApiError (MappingRow * list MappingRow) :=
  let* _ := raise_if (negb (pg_text 20 (cm_platform m) && no_nul (cm_event_name m))) Crash in
  match List.find (λ r, bool_decide (mapping_key (mp_mapping r) = mapping_key m)) l with
  | Some old =>
      let* _ := raise_if (negb (bool_decide (mp_organization_id old = org))) Crash in
      let row := {| mp_id := mp_id old; mp_organization_id := mp_organization_id old; mp_mapping := m; mp_created_at := mp_created_at old;
                    mp_updated_at := kd_now d |} in
      Ok (row, (λ r, if bool_decide (mapping_key (mp_mapping r) = mapping_key m) then row else r) <$> l)
  | None =>
      let* _ := raise_if (existsb (λ r, bool_decide (mp_id r = kd_id d)) l) Crash in
      let row := {| mp_id := kd_id d; mp_organization_id := org; mp_mapping := m; mp_created_at := kd_now d; mp_updated_at := kd_now d |} in
      Ok (row, l ++ [row])
  end.

Definition set_conversion_value_handler (b : ConversionValueIn) (d : SkanDraws) (p : Principal) (org : uuid) (st : SkanApiState)
  : result ApiError MappingRow * SkanApiState :=
  match (let* _ := raise_if (negb (conversion_body_ok b)) invalid_body in
         let* _ := raise_if (negb (opt_ok (λ c, bool_decide (c ∈ COARSE_VALUES)) (ci_coarse_value b)))
                     (Http 422 (py "coarse_value must be one of " ++ py_join (py ", ") COARSE_VALUES)) in
         let* app := or_raise Crash (driver_uuid (ci_app_id b)) in
         let* _ := require_app org app (sa_apps st) in
         let m := {| cm_app_id := app; cm_platform := ci_platform b; cm_event_name := ci_event_name b;
                     cm_conversion_value := ci_conversion_value b; cm_coarse_value := ci_coarse_value b |} in
         let* rl := upsert_mapping org m d (sa_mappings st) in
         let* log := audited (record (sa_audit st) (kd_now d) (kd_audit_id d) org (py "conversion_value.set") (py "conversion_mapping")
                       (Some (str_of_uuid (mp_id (fst rl)))) (Some (pr_user_id p))
                       [(py "event_name", JStr (ci_event_name b)); (py "conversion_value", JInt (ci_conversion_value b))]) in
         Ok (fst rl, snd rl, log)) with
  | Err e => (Err e, st)
  | Ok (row, l, log) => (Ok row, with_mappings l log st)
  end.
Definition set_conversion_value (rq : ApiRequest) (b : ConversionValueIn) (d : SkanDraws) := as_role Admin rq (set_conversion_value_handler b d).

Definition mapping_of (org id : uuid) (r : MappingRow) : bool := bool_decide (mp_organization_id r = org) && bool_decide (mp_id r = id).
Definition no_mapping : ApiError := Http 404 (py "mapping not found").

(** The id that was deleted beside the answer. *)
Definition delete_conversion_value_handler (mapping_id : pystr) (d : SkanDraws) (p : Principal) (org : uuid) (st : SkanApiState)
  : result ApiError uuid * SkanApiState :=
  match (let* id := or_raise Crash (driver_uuid mapping_id) in
         let* _ := or_raise no_mapping (List.find (mapping_of org id) (sa_mappings st)) in
         let* log := audited (record (sa_audit st) (kd_now d) (kd_audit_id d) org (py "conversion_value.deleted") (py "conversion_mapping")
                       (Some mapping_id) (Some (pr_user_id p)) []) in
         Ok (id, log)) with
  | Err e => (Err e, st)
  | Ok (id, log) => (Ok id, with_mappings (List.filter (λ r, negb (mapping_of org id r)) (sa_mappings st)) log st)
  end.
Definition delete_conversion_value (rq : ApiRequest) (mapping_id : pystr) (d : SkanDraws) :=
  as_role Admin rq (delete_conversion_value_handler mapping_id d).

(** ** Postbacks *)

Definition postbacks_between (app org : uuid) (since until : IsoTime) (st : SkanApiState) : list PostbackRow :=
  List.filter (λ r, bool_decide (sk_app_id (pb_row r) = app) && (instant since <=? pb_received_at r) && (pb_received_at r <? instant until))
    (of_org (λ r, sk_organization_id (pb_row r)) org (sa_postbacks st)).

(** The bounds are sent to the driver, which has no instant outside the calendar. *)
Definition sendable_range (since until : IsoTime) : bool := sendable (Some (instant since, 0%N)) && sendable (Some (instant until, 0%N)).

Definition list_postbacks_handler (app_id : pystr) (since until : IsoTime) (org : uuid) (st : SkanApiState) : result ApiError (list PostbackRow) :=
  let* _ := raise_if (negb (comparable since until)) Crash in
  let* _ := raise_if (time_between since until <=? 0) (Http 422 (py "until must be after since")) in
  let* _ := raise_if (SKAN_RANGE <? time_between since until) (Http 422 (py "range must not exceed 90 days")) in
  let* app := or_raise Crash (driver_uuid app_id) in
  let* _ := raise_if (negb (sendable_range since until)) Crash in
  Ok (take (Z.to_nat 1000) (merge_sort later_postback (postbacks_between app org since until st))).
Definition list_postbacks (rq : ApiRequest) (app_id : pystr) (since until : IsoTime) := as_role Member rq (reading (list_postbacks_handler app_id since until)).

Definition won (r : PostbackRow) : bool := ve_did_win (sk_postback (pb_row r)).
Definition postback_value (r : PostbackRow) : option Z := ve_conversion_value (sk_postback (pb_row r)).
Definition summary_key (r : PostbackRow) : pystr * option pystr :=
  (ve_ad_network_id (sk_postback (pb_row r)), ve_source_identifier (sk_postback (pb_row r))).

(** [avg] of the values that are not null. *)
Definition average (rows : list PostbackRow) : option (Z * Z) :=
  let n := count_if (λ r, negb (bool_decide (postback_value r = None))) rows in
  if n =? 0 then None else Some (sum_of postback_value rows, n).

Definition skan_line (g : pystr * option pystr * list PostbackRow) : SkanSummaryRow :=
  {| sr_ad_network_id := fst (fst g); sr_source_identifier := snd (fst g);
     sr_winning_postbacks := count_if won (snd g); sr_non_winning_postbacks := count_if (λ r, negb (won r)) (snd g);
     sr_redownloads := count_if (λ r, ve_redownload (sk_postback (pb_row r))) (snd g);
     sr_average := average (List.filter won (snd g));
     sr_suppressed := count_if (λ r, won r && bool_decide (postback_value r = None)) (snd g) |}.

Definition summarise_handler (app_id : pystr) (since until : IsoTime) (org : uuid) (st : SkanApiState) : result ApiError (list SkanSummaryRow) :=
  let* _ := raise_if (negb (comparable since until)) Crash in
  let* _ := raise_if ((time_between since until <=? 0) || (SKAN_RANGE <? time_between since until)) (Http 422 (py "invalid range")) in
  let* app := or_raise Crash (driver_uuid app_id) in
  let* _ := raise_if (negb (sendable_range since until)) Crash in
  Ok (merge_sort more_winning (skan_line <$> group_by summary_key (postbacks_between app org since until st))).
Definition summarise (rq : ApiRequest) (app_id : pystr) (since until : IsoTime) := as_role Member rq (reading (summarise_handler app_id since until)).
End SkanApi.

(** ** What the values are *)

(** The values as requests leave them: for an app, a platform and an event, the id of the
    mapping and its values. *)
Abbreviation Values := (gmap (N * list N * list N) (N * Z * option (list N))).

(** Requests, and whatever else happens to the other tables. *)
Inductive skan_op :=
| OSetValue (rq : ApiRequest) (b : ConversionValueIn) (d : SkanDraws)
| ODeleteValue (rq : ApiRequest) (mapping_id : pystr) (d : SkanDraws)
| OElsewhere (apps : list AppRef) (postbacks : list PostbackRow) (log : list AuditRow).

Record SkanWorld := { sw_api : ApiState; sw_state : SkanApiState; sw_values : Values }.

Section Histories.
Context {U : Unicode} {AL : AuditLib} {DU : DriverUuid} {XL : ExportLib}.

(** A request that is answered sets or deletes its value; one that fails does nothing. *)
Definition skan_step (w : SkanWorld) (op : skan_op) : SkanWorld :=
  match op with
  | OSetValue rq b d =>
      let '(r, api, st) := set_conversion_value rq b d (sw_api w) (sw_state w) in
      {| sw_api := api; sw_state := st;
         sw_values := match r, driver_uuid (ci_app_id b) with
                      | Ok row, Some app => <[(app, ci_platform b, ci_event_name b) := (mp_id row, ci_conversion_value b, ci_coarse_value b)]> (sw_values w)
                      | _, _ => sw_values w
                      end |}
  | ODeleteValue rq mapping_id d =>
      let '(r, api, st) := delete_conversion_value rq mapping_id d (sw_api w) (sw_state w) in
      {| sw_api := api; sw_state := st;
         sw_values := match r with Ok id => filter (λ kv, fst (fst (snd kv)) ≠ id) (sw_values w) | Err _ => sw_values w end |}
  | OElsewhere apps postbacks log =>
      {| sw_api := sw_api w;
         sw_state := {| sa_apps := apps; sa_mappings := sa_mappings (sw_state w); sa_postbacks := postbacks; sa_audit := log |};
         sw_values := sw_values w |}
  end.
Definition skan_run (ops : list skan_op) (w : SkanWorld) : SkanWorld := fold_left skan_step ops w.

Abbreviation row_key r := (mapping_key (mp_mapping r)).
Definition row_entry (r : MappingRow) : uuid * Z * option pystr :=
  (mp_id r, cm_conversion_value (mp_mapping r), cm_coarse_value (mp_mapping r)).

Definition six_bits (r : MappingRow) : Prop :=
  0 <= cm_conversion_value (mp_mapping r) <= 63 ∧ ∀ c, cm_coarse_value (mp_mapping r) = Some c → c ∈ COARSE_VALUES.

Record mappings_ok (l : list MappingRow) : Prop := {
  mo_keys : NoDup ((λ r, row_key r) <$> l);
  mo_ids : NoDup (mp_id <$> l);
  mo_values : ∀ r, r ∈ l → six_bits r
}.

Definition implements_values (l : list MappingRow) (m : Values) : Prop :=
  ∀ k x, m !! k = Some x ↔ ∃ r, r ∈ l ∧ row_key r = k ∧ row_entry r = x.

Lemma same_row {K} (f : MappingRow → K) l r r' : NoDup (f <$> l) → r ∈ l → r' ∈ l → f r = f r' → r = r'.
Proof.
  intros Hn Hr Hr' E. apply list_elem_of_lookup in Hr as [i Hi], Hr' as [j Hj].
  assert (i = j) as ->; [| congruence]. eapply NoDup_lookup; [exact Hn | by rewrite list_lookup_fmap, Hi | rewrite list_lookup_fmap, Hj; cbn; congruence].
Qed.

Lemma upsert_ok org m d l row l' v :
  upsert_mapping org m d l = Ok (row, l') → mappings_ok l → implements_values l v →
  0 <= cm_conversion_value m <= 63 → (∀ c, cm_coarse_value m = Some c → c ∈ COARSE_VALUES) →
  mappings_ok l' ∧ implements_values l' (<[mapping_key m := (mp_id row, cm_conversion_value m, cm_coarse_value m)]> v).
Proof.
  unfold upsert_mapping, implements_values. intros E Hok Hv Hb Hc. destruct (negb _); [done |]. cbn [raise_if rbind] in E.
  destruct (List.find _ l) as [old|] eqn:Ef.
  - apply find_some in Ef as [Hold%list_elem_of_In Hkey%bool_decide_eq_true].
    destruct (negb _); [done |]. cbn [raise_if rbind] in E. injection E as <- <-. set (row := {| mp_id := mp_id old |}).
    assert (∀ r, r ∈ l → row_key r = mapping_key m → r = old) as Hone
      by (intros r Hr Hk; eapply (same_row (λ r, row_key r)); [apply Hok | done | done | congruence]).
    set (f := λ r, if bool_decide (row_key r = mapping_key m) then row else r).
    assert (∀ r, r ∈ f <$> l ↔ r = row ∨ (r ∈ l ∧ row_key r ≠ mapping_key m)) as Hf.
    { intros r. rewrite list_elem_of_fmap. unfold f. split.
      - intros (r' & -> & Hr'). case_bool_decide; [by left | by right].
      - intros [->|[Hr Hk]]; [exists old; by rewrite bool_decide_true | exists r; by rewrite bool_decide_false]. }
    split; [split |].
    + rewrite <- list_fmap_compose. replace ((λ r, row_key r) ∘ f <$> l) with ((λ r, row_key r) <$> l); [apply Hok |].
      apply list_fmap_ext. intros i r _. unfold f. cbn. case_bool_decide as H; [exact H | done].
    + rewrite <- list_fmap_compose. replace (mp_id ∘ f <$> l) with (mp_id <$> l); [apply Hok |].
      apply list_fmap_ext. intros i r Hr%list_elem_of_lookup_2. unfold f. cbn. case_bool_decide as H; [by rewrite (Hone r Hr H) | done].
    + intros r [->|[Hr _]]%Hf; [by split | by apply (mo_values l Hok)].
    + intros k x. rewrite lookup_insert_Some, Hv. setoid_rewrite Hf. split.
      * intros [[<- <-]|[Hk (r & Hr & <- & <-)]]; [exists row; split; [by left | done] | exists r; split; [right; by split | done]].
      * intros (r & [->|[Hr Hk]] & <- & <-); [by left | right; split; [done | by exists r]].
  - destruct (existsb _ l) eqn:Hid; [done |]. cbn [raise_if rbind] in E. injection E as <- <-. set (row := {| mp_id := kd_id d |}).
    assert (∀ r, r ∈ l → row_key r ≠ mapping_key m) as Hnew
      by (intros r Hr%list_elem_of_In Hk; pose proof (find_none _ _ Ef r Hr) as Hn; by apply bool_decide_eq_false in Hn).
    assert (∀ r, r ∈ l → mp_id r ≠ kd_id d) as Hfresh.
    { intros r Hr Hk. apply not_true_iff_false in Hid. apply Hid, existsb_exists. exists r. by rewrite <- list_elem_of_In, bool_decide_eq_true. }
    split; [split |].
    + rewrite fmap_app. apply NoDup_app. split; [apply Hok |]. split; [| apply NoDup_singleton].
      intros k (r & -> & Hr)%list_elem_of_fmap Hk%list_elem_of_singleton. by apply (Hnew r Hr).
    + rewrite fmap_app. apply NoDup_app. split; [apply Hok |]. split; [| apply NoDup_singleton].
      intros k (r & -> & Hr)%list_elem_of_fmap Hk%list_elem_of_singleton. by apply (Hfresh r Hr).
    + intros r [Hr| ->%list_elem_of_singleton]%elem_of_app; [by apply (mo_values l Hok) | by split].
    + intros k x. rewrite lookup_insert_Some, Hv. setoid_rewrite elem_of_app. setoid_rewrite list_elem_of_singleton. split.
      * intros [[<- <-]|[Hk (r & Hr & <- & <-)]]; [exists row; split; [by right | done] | exists r; split; [by left | done]].
      * intros (r & [Hr| ->] & <- & <-); [right; split; [apply not_eq_sym; by apply Hnew | by exists r] | by left].
Qed.

Lemma delete_value_ok org id l v :
  mappings_ok l → implements_values l v → (∃ r, r ∈ l ∧ mapping_of org id r = true) →
  mappings_ok (List.filter (λ r, negb (mapping_of org id r)) l) ∧
  implements_values (List.filter (λ r, negb (mapping_of org id r)) l) (filter (λ kv, fst (fst (snd kv)) ≠ id) v).
Proof.
  unfold implements_values. intros Hok Hv (r0 & Hr0 & Hm0). unfold mapping_of in Hm0. apply andb_true_iff in Hm0 as [Ho0%bool_decide_eq_true Hi0%bool_decide_eq_true].
  assert (∀ r, r ∈ List.filter (λ r, negb (mapping_of org id r)) l ↔ r ∈ l ∧ mp_id r ≠ id) as Hf.
  { intros r. rewrite !list_elem_of_In, filter_In, <- list_elem_of_In, negb_true_iff. unfold mapping_of. split.
    - intros [Hr Hn]. split; [done |]. intros Hi. assert (r = r0) as -> by (eapply (same_row mp_id); [apply Hok | done | done | congruence]).
      by rewrite !bool_decide_true in Hn.
    - intros [Hr Hn]. split; [done |]. rewrite (bool_decide_false (mp_id r = id)) by done. by rewrite andb_false_r. }
  split; [split |].
  - apply NoDup_fmap_filter, Hok.
  - apply NoDup_fmap_filter, Hok.
  - intros r [Hr _]%Hf. by apply (mo_values l Hok).
  - intros k x. rewrite map_lookup_filter_Some, Hv. setoid_rewrite Hf. split.
    + intros [(r & Hr & <- & <-) Hn]. exists r. cbn in Hn. done.
    + intros (r & [Hr Hn] & <- & <-). split; [by exists r | exact Hn].
Qed.

Definition skan_world_ok (w : SkanWorld) : Prop := mappings_ok (sa_mappings (sw_state w)) ∧ implements_values (sa_mappings (sw_state w)) (sw_values w).

Lemma set_handler_ok b d p org st row st' :
  set_conversion_value_handler b d p org st = (row, st') →
  (∃ e, row = Err e ∧ st' = st) ∨
  (∃ r l log app, row = Ok r ∧ st' = with_mappings l log st ∧ driver_uuid (ci_app_id b) = Some app ∧ 0 <= ci_conversion_value b <= 63 ∧
     (∀ c, ci_coarse_value b = Some c → c ∈ COARSE_VALUES) ∧
     upsert_mapping org {| cm_app_id := app; cm_platform := ci_platform b; cm_event_name := ci_event_name b;
                           cm_conversion_value := ci_conversion_value b; cm_coarse_value := ci_coarse_value b |} d (sa_mappings st) = Ok (r, l)).
Proof.
  unfold set_conversion_value_handler. intros E.
  destruct (conversion_body_ok b) eqn:Hb; [| left; injection E as <- <-; eauto]. cbn [negb raise_if rbind] in E.
  destruct (opt_ok _ (ci_coarse_value b)) eqn:Hc; [| left; injection E as <- <-; eauto]. cbn [negb raise_if rbind] in E.
  destruct (driver_uuid (ci_app_id b)) as [app|]; [| left; injection E as <- <-; eauto]. cbn [or_raise rbind] in E.
  destruct (require_app org app (sa_apps st)) as [[]|]; [| left; injection E as <- <-; eauto]. cbn [rbind] in E.
  destruct (upsert_mapping org _ d (sa_mappings st)) as [[r l]|] eqn:Eu; [| left; injection E as <- <-; eauto]. cbn [rbind fst snd] in E.
  destruct (audited _) as [log|]; [| left; injection E as <- <-; eauto]. cbn [rbind] in E. injection E as <- <-.
  right. exists r, l, log, app. split; [done |]. split; [done |]. split; [done |].
  unfold conversion_body_ok in Hb. apply andb_true_iff in Hb as [[_ H1%Z.leb_le]%andb_true_iff H2%Z.leb_le]. split; [done |]. split; [| done].
  intros c E. rewrite E in Hc. by apply bool_decide_eq_true in Hc.
Qed.

Lemma delete_handler_ok mapping_id d p org st r st' :
  delete_conversion_value_handler mapping_id d p org st = (r, st') →
  (∃ e, r = Err e ∧ st' = st) ∨
  (∃ id log, r = Ok id ∧ st' = with_mappings (List.filter (λ r, negb (mapping_of org id r)) (sa_mappings st)) log st ∧
     ∃ m, m ∈ sa_mappings st ∧ mapping_of org id m = true).
Proof.
  unfold delete_conversion_value_handler. intros E.
  destruct (driver_uuid mapping_id) as [id|]; [| left; injection E as <- <-; eauto]. cbn [or_raise rbind] in E.
  destruct (List.find (mapping_of org id) (sa_mappings st)) as [m|] eqn:Ef; [| left; injection E as <- <-; eauto]. cbn [or_raise rbind] in E.
  destruct (audited _) as [log|]; [| left; injection E as <- <-; eauto]. cbn [rbind] in E. injection E as <- <-.
  right. exists id, log. split; [done |]. split; [done |]. apply find_some in Ef as [Hm%list_elem_of_In Hi]. by exists m.
Qed.

Lemma skan_step_ok w op : skan_world_ok w → skan_world_ok (skan_step w op).
Proof.
  intros [Hok Hv]. destruct op as [rq b d|rq mapping_id d|apps postbacks log]; cbn [skan_step].
  - unfold set_conversion_value. destruct (as_role_cases Admin rq (set_conversion_value_handler b d) (sw_api w) (sw_state w))
      as [(e & api & ->)|(p & org & api & _ & ->)]; [done |].
    destruct (set_conversion_value_handler b d p org (sw_state w)) as [r st'] eqn:E. cbn [fst snd].
    apply set_handler_ok in E as [(e & -> & ->)|(row & l & log & app & -> & -> & Ha & Hb & Hc & Hu)]; [done |]. rewrite Ha.
    destruct (upsert_ok _ _ _ _ _ _ _ Hu Hok Hv Hb Hc) as [H1 H2]. split; [exact H1 | exact H2].
  - unfold delete_conversion_value. destruct (as_role_cases Admin rq (delete_conversion_value_handler mapping_id d) (sw_api w) (sw_state w))
      as [(e & api & ->)|(p & org & api & _ & ->)]; [done |].
    destruct (delete_conversion_value_handler mapping_id d p org (sw_state w)) as [r st'] eqn:E. cbn [fst snd].
    apply delete_handler_ok in E as [(e & -> & ->)|(id & log & -> & -> & Hm)]; [done |].
    destruct (delete_value_ok _ _ _ _ Hok Hv Hm) as [H1 H2]. split; [exact H1 | exact H2].
  - by split.
Qed.

Lemma skan_run_ok ops w : skan_world_ok w → skan_world_ok (skan_run ops w).
Proof. revert w. induction ops as [|op ops IH]; intros w Hw; [done |]. by apply IH, skan_step_ok. Qed.

(** The values reach the app.  After any requests of any users, the tracker answers an
    authenticated app with exactly the values last set for its events on iOS and not deleted
    since: one for each event, in six bits, with a coarse value Apple knows. *)
Theorem mappings_reach_the_app ops api st order_by rq auth app :
  sa_mappings st = [] → (∀ l, order_by l ≡ₚ l) →
  bearer (df_authorization rq) ≠ [] → df_auth rq = Ok auth → uuid_of_str (au_app_id auth) = Some app →
  let w := skan_run ops {| sw_api := api; sw_state := st; sw_values := ∅ |} in
  ∃ l, conversion_values order_by (mp_mapping <$> sa_mappings (sw_state w)) rq = DMappings l ∧
    NoDup ((λ m, fst (fst m)) <$> l) ∧
    (∀ event value coarse, (event, value, coarse) ∈ l ↔ ∃ id, sw_values w !! (app, py "ios", event) = Some (id, value, coarse)) ∧
    (∀ event value coarse, (event, value, coarse) ∈ l → 0 <= value <= 63 ∧ ∀ c, coarse = Some c → c ∈ COARSE_VALUES).
Proof.
  intros Hst Ho Hb Ha Happ w. assert (skan_world_ok w) as [Hok Hv].
  { apply skan_run_ok. unfold skan_world_ok. cbn. rewrite Hst. split; [split; [constructor | constructor | by intros r ?%elem_of_nil] |].
    intros k x. rewrite lookup_empty. split; [done |]. by intros (r & ?%elem_of_nil & _). }
  clearbody w. unfold implements_values in Hv. set (rows := sa_mappings (sw_state w)) in *. clearbody rows. unfold conversion_values. rewrite bool_decide_false by done. rewrite Ha, Happ.
  eexists. split; [reflexivity |].
  set (mine := List.filter (λ m, bool_decide (Some app = Some (cm_app_id m)) && bool_decide (cm_platform m = py "ios")) (mp_mapping <$> rows)).
  assert (∀ m, m ∈ order_by mine ↔ (∃ r, r ∈ rows ∧ mp_mapping r = m) ∧ cm_app_id m = app ∧ cm_platform m = py "ios") as Hm.
  { intros m. rewrite (Ho mine). unfold mine. rewrite list_elem_of_In, filter_In, <- list_elem_of_In, list_elem_of_fmap, andb_true_iff, !bool_decide_eq_true.
    split; [intros [(r & -> & Hr) [E ->]]; injection E as ->; split; [by exists r | done] | intros [(r & Hr & <-) [-> ->]]; split; [by exists r | done]]. }
  split; [| split].
  - rewrite <- list_fmap_compose. assert (NoDup (mapping_key <$> order_by mine)) as Hn.
    { rewrite (Ho mine). apply NoDup_fmap_filter. rewrite <- list_fmap_compose. apply Hok. }
    assert (∀ m, m ∈ order_by mine → cm_app_id m = app ∧ cm_platform m = py "ios") as Hall by (intros m [_ H]%Hm; exact H).
    revert Hn Hall. generalize (order_by mine). clear. intros l Hn Hall. induction l as [|m l IH]; [constructor |].
    rewrite fmap_cons in Hn. apply NoDup_cons in Hn as [Hm Hn]. rewrite fmap_cons. apply NoDup_cons. split; [| apply IH; [done | intros m' Hm'; apply Hall; by right]].
    intros (m' & E & Hm')%list_elem_of_fmap. apply Hm, list_elem_of_fmap. exists m'. split; [| done].
    destruct (Hall m ltac:(by left)) as [H1 H2], (Hall m' ltac:(by right)) as [H1' H2']. unfold mapping_key. cbn in E. congruence.
  - intros event value coarse. rewrite list_elem_of_fmap. setoid_rewrite Hv. split.
    + intros (m & [= -> -> ->] & [(r & Hr & <-) [Happ' Hp]]%Hm). exists (mp_id r), r. split; [done |]. unfold mapping_key. by rewrite Happ', Hp.
    + intros (id & r & Hr & Hk & He). injection Hk as H1 H2 H3. injection He as H4 H5 H6. exists (mp_mapping r). split; [by rewrite H3, H5, H6 |].
      apply Hm. split; [by exists r | done].
  - intros event value coarse (m & [= -> -> ->] & [(r & Hr & <-) _]%Hm)%list_elem_of_fmap. apply (mo_values rows Hok r Hr).
Qed.
End Histories.

(** ** The summary accounts for every postback *)

Section Summary.
Context {U : Unicode} {DU : DriverUuid} {XL : ExportLib}.

Lemma count_split {R} (p : R → bool) l : count_if p l + count_if (λ r, negb (p r)) l = count l.
Proof. unfold count_if, count. induction l as [|r l IH]; [done |]. cbn [List.filter length]. destruct (p r); cbn [negb length]; lia. Qed.

Lemma count_if_filter {R} (p q : R → bool) l : count_if q (List.filter p l) = count_if (λ r, p r && q r) l.
Proof. unfold count_if. f_equal. induction l as [|r l IH]; [done |]. cbn [List.filter]. destruct (p r); cbn [List.filter andb]; by rewrite IH. Qed.

(** Whose line, and what is in it. *)
Definition line_of (rows : list PostbackRow) (s : SkanSummaryRow) : Prop :=
  ∃ g, g = having summary_key (sr_ad_network_id s, sr_source_identifier s) rows ∧ g ≠ [] ∧
    sr_winning_postbacks s + sr_non_winning_postbacks s = count g ∧
    sr_average s = (if sr_winning_postbacks s =? sr_suppressed s then None
                    else Some (sum_of postback_value (List.filter won g), sr_winning_postbacks s - sr_suppressed s)) ∧
    0 <= sr_suppressed s <= sr_winning_postbacks s.

(** The summary has a line for each network and campaign with a postback in the range, and
    together they count each of them once; the average of a line is over the winning
    postbacks whose value Apple did not withhold, and the line says how many it did. *)
Theorem summary_counts_postbacks app_id since until org st lines :
  summarise_handler app_id since until org st = Ok lines →
  ∃ app, driver_uuid app_id = Some app ∧ 0 < time_between since until <= SKAN_RANGE ∧
    let rows := postbacks_between app org since until st in
    NoDup ((λ s, (sr_ad_network_id s, sr_source_identifier s)) <$> lines) ∧
    (∀ s, s ∈ lines → line_of rows s) ∧
    total (λ s, sr_winning_postbacks s + sr_non_winning_postbacks s) lines = count rows.
Proof.
  unfold summarise_handler. destruct (comparable since until); [| done]. cbn [negb raise_if rbind].
  destruct (Z.leb_spec (time_between since until) 0); [done |]. destruct (Z.ltb_spec SKAN_RANGE (time_between since until)); [done |].
  cbn [orb raise_if rbind]. destruct (driver_uuid app_id) as [app|]; [| done]. cbn [or_raise rbind].
  destruct (negb (sendable_range since until)); [done |]. cbn [raise_if rbind]. intros [= <-]. exists app. split; [done |]. split; [lia |].
  cbv zeta. set (rows := postbacks_between app org since until st). pose proof (merge_sort_Permutation more_winning (skan_line <$> group_by summary_key rows)) as Hp.
  split; [| split].
  - rewrite Hp, <- list_fmap_compose.
    replace ((λ s, (sr_ad_network_id s, sr_source_identifier s)) ∘ skan_line <$> group_by summary_key rows) with (fst <$> group_by summary_key rows);
      [apply group_by_NoDup |]. apply list_fmap_ext. intros i [[n s] l] _. done.
  - intros s. rewrite Hp. intros ([[n i] g] & -> & (-> & Hne)%group_by_elem)%list_elem_of_fmap. unfold line_of.
    cbn [skan_line sr_ad_network_id sr_source_identifier sr_winning_postbacks sr_non_winning_postbacks sr_average sr_suppressed fst snd].
    set (g := having summary_key (n, i) rows) in *. exists g. split; [done |]. split; [done |]. split; [apply count_split |].
    unfold average. rewrite count_if_filter.
    assert (count_if (λ r, won r && negb (bool_decide (postback_value r = None))) g + count_if (λ r, won r && bool_decide (postback_value r = None)) g = count_if won g) as Hs.
    { rewrite <- !count_if_filter. rewrite Z.add_comm. apply (count_split (λ r, bool_decide (postback_value r = None)) (List.filter won g)). }
    assert (0 <= count_if (λ r, won r && bool_decide (postback_value r = None)) g) by (unfold count_if, count; lia).
    assert (0 <= count_if (λ r, won r && negb (bool_decide (postback_value r = None))) g) by (unfold count_if, count; lia).
    split; [| lia]. cbv beta zeta in *. set (a := count_if (λ r, won r && negb _) g) in *. clearbody a.
    set (b := count_if won g) in *. set (c := count_if (λ r, won r && bool_decide _) g) in *. clearbody b c.
    destruct (Z.eqb_spec a 0) as [H3|H3], (Z.eqb_spec b c) as [H4|H4]; try lia; [done |]. do 2 f_equal. lia.
  - transitivity (total (λ s, sr_winning_postbacks s + sr_non_winning_postbacks s) (skan_line <$> group_by summary_key rows)).
    { revert Hp. generalize (merge_sort more_winning (skan_line <$> group_by summary_key rows)) (skan_line <$> group_by summary_key rows). clear.
      intros la lb Hp. unfold total. induction Hp as [|s l l' _ IH|s s' l|l1 l2 l3 _ IH1 _ IH2]; cbn [foldr] in *; lia. }
    rewrite total_map, <- total_count.
    transitivity (total (λ k, total (λ _ : PostbackRow, 1) (having summary_key k rows)) (remove_dups (summary_key <$> rows))).
    + unfold group_by. rewrite total_map. apply total_ext. intros k _. rewrite total_count. unfold skan_line. cbn [sr_winning_postbacks sr_non_winning_postbacks snd].
      apply count_split.
    + symmetry. apply total_groups; [apply NoDup_remove_dups |]. intros r Hr. apply elem_of_remove_dups. by apply list_elem_of_fmap_2.
Qed.
End Summary.

(** ** Witnesses *)

Definition ex_skan_api : SkanApiState :=
  {| sa_apps := [{| af_id := 9; af_organization_id := 101; af_status := py "active" |}]; sa_mappings := []; sa_postbacks := []; sa_audit := [] |}.
Definition ex_value (event : string) (value : Z) (platform : string) : ConversionValueIn :=
  {| ci_app_id := str_of_uuid 9; ci_event_name := py event; ci_conversion_value := value; ci_coarse_value := Some (py "low"); ci_platform := py platform |}.
Definition ex_skan_draws (n : N) : SkanDraws := {| kd_id := n; kd_audit_id := n; kd_now := 5 |}.
Definition ex_admin : ApiRequest := Access.ex_request 4 1.
Definition ex_reader : DeferredRequest :=
  {| df_authorization := Some (py "bearer k");
     df_auth := Ok {| au_app_id := str_of_uuid 9; au_organization_id := []; au_environment := []; au_kind := []; au_key_hash := []; au_app_status := []; au_consent_mode := [] |};
     df_allowed := true; df_retry_after_ms := 0; df_body_length := 0; df_anonymous_id := None |}.

Abbreviation ex_set rq b n := (OSetValue rq b (ex_skan_draws n)).
Abbreviation ex_skan_run ops := (@skan_run ascii_unicode toy_audit toy_driver ops {| sw_api := ex_state; sw_state := ex_skan_api; sw_values := ∅ |}).

(** A value that is set twice and one that is deleted. *)
Definition ex_tuning : list skan_op :=
  [ex_set ex_admin (ex_value "purchase" 10 "ios") 50; ex_set ex_admin (ex_value "signup" 5 "ios") 51;
   ex_set ex_admin (ex_value "purchase" 63 "ios") 52; ODeleteValue ex_admin (str_of_uuid 51) (ex_skan_draws 53)].

Lemma mappings_reach_the_app_witness :
  (∃ l, @conversion_values ascii_unicode (λ l, l) (mp_mapping <$> sa_mappings (sw_state (ex_skan_run ex_tuning))) ex_reader = DMappings l ∧
     NoDup ((λ m, fst (fst m)) <$> l)) ∧
  @conversion_values ascii_unicode (λ l, l) (mp_mapping <$> sa_mappings (sw_state (ex_skan_run ex_tuning))) ex_reader =
    DMappings [(py "purchase", 63, Some (py "low"))].
Proof.
  split; [| vm_compute; reflexivity].
  destruct (@mappings_reach_the_app ascii_unicode toy_audit toy_driver ex_tuning ex_state ex_skan_api (λ l, l) ex_reader
    (default {| au_app_id := []; au_organization_id := []; au_environment := []; au_kind := []; au_key_hash := []; au_app_status := [];
                au_consent_mode := [] |} (match df_auth ex_reader with Ok a => Some a | Err _ => None end)) 9 eq_refl (λ l, reflexivity l))
    as (l & E & Hn & _).
  - vm_compute. discriminate.
  - reflexivity.
  - vm_compute. reflexivity.
  - exists l. split; [exact E | exact Hn].
Defined.

Definition ex_postback (value : option Z) (win : bool) : PostbackRow :=
  {| pb_id := 1; pb_received_at := 20000 * day;
     pb_row := {| sk_organization_id := 101; sk_app_id := 9; sk_apple_app_id := 5;
                  sk_postback := {| ve_version := py "4.0"; ve_ad_network_id := py "n.skadnetwork"; ve_app_id := py "5"; ve_transaction_id := py "t";
                                    ve_source_identifier := None; ve_did_win := win; ve_redownload := false; ve_fidelity_type := None;
                                    ve_conversion_value := value; ve_coarse_value := None; ve_postback_sequence_index := None;
                                    ve_source_app_id := None; ve_source_domain := None |};
                  sk_payload := [] |} |}.
Definition ex_postbacks : SkanApiState :=
  {| sa_apps := []; sa_mappings := []; sa_postbacks := [ex_postback (Some 10) true; ex_postback (Some 21) true; ex_postback None true; ex_postback None false];
     sa_audit := [] |}.
Abbreviation ex_summary := (@summarise_handler toy_driver ex_export_lib (str_of_uuid 9) (ex_stamp 20000 (Some 0)) (ex_stamp 20001 (Some 0)) 101 ex_postbacks).

Lemma summary_counts_postbacks_witness :
  match ex_summary with
  | Ok lines => total (λ s, sr_winning_postbacks s + sr_non_winning_postbacks s) lines = 4 ∧
      (λ s, (sr_average s, sr_suppressed s)) <$> lines = [(Some (31, 2), 1)]
  | Err _ => False
  end.
Proof.
  destruct ex_summary as [lines|e] eqn:E; [| vm_compute in E; discriminate E].
  destruct (@summary_counts_postbacks toy_driver ex_export_lib _ _ _ _ _ _ E) as (app & Ha & _ & _ & _ & Ht).
  assert (app = 9%N) as -> by (vm_compute in Ha; by injection Ha). split; [rewrite Ht; vm_compute; reflexivity |].
  vm_compute in E. injection E as <-. vm_compute. reflexivity.
Defined.

(** ** What the code does beyond its documentation *)

(** *** The platform is free text

    Any text is saved as the platform, and the SDK is only ever given the rows of "ios": a
    value set for "iOS" is accepted, listed and never used. *)
Lemma other_platforms_are_never_served :
  let w := ex_skan_run [ex_set ex_admin (ex_value "purchase" 10 "iOS") 50] in
  length (sa_mappings (sw_state w)) = 1%nat ∧
  @conversion_values ascii_unicode (λ l, l) (mp_mapping <$> sa_mappings (sw_state w)) ex_reader = DMappings [].
Proof. vm_compute. split; reflexivity. Qed.

(** *** A long platform

    The column takes twenty characters and the body any number. *)
Lemma long_platform_is_a_server_error :
  match @set_conversion_value ascii_unicode toy_audit toy_driver ex_admin (ex_value "purchase" 10 "iphone-and-ipad-and-tv") (ex_skan_draws 50) ex_state ex_skan_api with
  | (Err e, _, _) => e = Crash
  | _ => False
  end.
Proof. vm_compute. reflexivity. Qed.
