(* ===== verification/FraudApi.v ===== *)
(** * Reading fraud (mmp_api/routes/fraud.py)

    The findings of [FraudSweep] and the installs [Store] keeps flagged, over a bounded
    range.  [worst_installs_are_listed]: what a list of flagged installs shows, and what it
    can leave out. *)

From stdpp Require Import gmap sorting.
From S2P Require Import Prelude Ids Schema Engine Fraud Store Access Handlers Relational LinkCache LinkApi LogApi ExportApi FraudSweep Live.

#[local] Open Scope Z_scope.
#[local] Open Scope mmp_scope.

Definition FRAUD_RANGE : timedelta := 90 * day.
Definition FRAUD_ROWS : nat := 500.

(** The tables the two lists read. *)
Record FraudState := { fs_links : list LinkRecord; fs_campaigns : list CampaignRow; fs_findings : Findings; fs_attributions : list AttributionRow }.

Record FindingOut := {
  fo_id : uuid; fo_rule : pystr; fo_severity : Severity; fo_detail : Detail; fo_tracking_code : option pystr;
  fo_campaign_name : option pystr; fo_window_start : datetime; fo_window_end : datetime
}.
Record FlaggedInstall := {
  fg_attribution_id : uuid; fg_method : pystr; fg_installed_at : datetime; fg_fraud_score : Z; fg_fraud_verdict : pystr; fg_rules : list pystr
}.

Section FraudApi.
Context {U : Unicode} {DU : DriverUuid} {XL : ExportLib}.

(** [_validated_range]; an aware and a naive bound do not compare, and the driver has no
    instant outside the calendar. *)
Definition validated_range (since until : IsoTime) : result ApiError unit :=
  let* _ := raise_if (negb (comparable since until)) Crash in
  let* _ := raise_if (time_between since until <=? 0) (Http 422 (py "until must be after since")) in
  raise_if (FRAUD_RANGE <? time_between since until) (Http 422 (py "range must not exceed 90 days")).
Definition bounds_sendable (since until : IsoTime) : bool := sendable (Some (instant since, 0%N)) && sendable (Some (instant until, 0%N)).

(** ** Findings *)

Abbreviation finding_start p := (snd (fst p)).
(** [FINDINGS_SQL], before its joins. *)
Definition findings_between (app org : uuid) (since until : IsoTime) (st : FraudState) : list (FindingKey * Finding) :=
  List.filter (λ p, let '(a, _, _, start) := fst p in
                 bool_decide (fi_organization_id (snd p) = org) && bool_decide (a = app) &&
                 (instant since <=? start) && (start <? instant until)) (map_to_list (fs_findings st)).

Definition visible_link (org : uuid) (st : FraudState) (id : option uuid) : option LinkRecord :=
  List.find (λ l, bool_decide (id = Some (lr_id (lk_row l)))) (of_org (λ r, lr_organization_id (lk_row r)) org (fs_links st)).
Definition visible_campaign (org : uuid) (st : FraudState) (id : option uuid) : option CampaignRow :=
  List.find (λ c, bool_decide (id = Some (cm_id c))) (of_org cm_organization_id org (fs_campaigns st)).

Definition finding_out (org : uuid) (st : FraudState) (p : FindingKey * Finding) : FindingOut :=
  let '(_, link, rule, start) := fst p in
  let f := snd p in
  {| fo_id := fi_id f; fo_rule := rule; fo_severity := fi_severity f; fo_detail := fi_detail f;
     fo_tracking_code := (λ l, lr_tracking_code (lk_row l)) <$> visible_link org st link;
     fo_campaign_name := cm_name <$> visible_campaign org st (fi_campaign_id f);
     fo_window_start := start; fo_window_end := fi_window_end f |}.

(** [ORDER BY severity DESC, window_start DESC] *)
Definition graver (a b : FindingOut) : Prop :=
  weight (fo_severity b) < weight (fo_severity a) ∨
  (weight (fo_severity b) = weight (fo_severity a) ∧ fo_window_start b <= fo_window_start a).
#[export] Instance graver_dec a b : base.Decision (graver a b).
Proof. unfold graver. apply _. Defined.

Definition list_findings_handler (app_id : pystr) (since until : IsoTime) (org : uuid) (st : FraudState) : result ApiError (list FindingOut) :=
  let* _ := validated_range since until in
  let* app := or_raise Crash (driver_uuid app_id) in
  let* _ := raise_if (negb (bounds_sendable since until)) Crash in
  Ok (take FRAUD_ROWS (merge_sort graver (finding_out org st <$> findings_between app org since until st))).
Definition list_findings (rq : ApiRequest) (app_id : pystr) (since until : IsoTime) :=
  as_role Member rq (reading (list_findings_handler app_id since until)).

(** ** Flagged installs *)

(** [FLAGGED_SQL] *)
Definition flagged_between (app org : uuid) (since until : IsoTime) (st : FraudState) : list AttributionRow :=
  List.filter (λ r, bool_decide (a_app_id r = app) && (instant since <=? a_installed_at r) && (a_installed_at r <? instant until) &&
                    negb (bool_decide (a_fraud_verdict r = CLEAN)) && bool_decide (a_superseded_by r = None))
    (of_org a_organization_id org (fs_attributions st)).

(** [ORDER BY fraud_score DESC, installed_at DESC] *)
Definition worse (a b : AttributionRow) : Prop :=
  a_fraud_score b < a_fraud_score a ∨ (a_fraud_score b = a_fraud_score a ∧ a_installed_at b <= a_installed_at a).
#[export] Instance worse_dec a b : base.Decision (worse a b).
Proof. unfold worse. apply _. Defined.

Definition flagged_out (r : AttributionRow) : FlaggedInstall :=
  {| fg_attribution_id := a_id r; fg_method := method_value (a_method r); fg_installed_at := a_installed_at r;
     fg_fraud_score := a_fraud_score r; fg_fraud_verdict := verdict_text (a_fraud_verdict r); fg_rules := decode_list (a_fraud_rules r) |}.

Definition list_flagged_installs_handler (app_id : pystr) (since until : IsoTime) (org : uuid) (st : FraudState) : result ApiError (list FlaggedInstall) :=
  let* _ := validated_range since until in
  let* app := or_raise Crash (driver_uuid app_id) in
  let* _ := raise_if (negb (bounds_sendable since until)) Crash in
  Ok (flagged_out <$> take FRAUD_ROWS (merge_sort worse (flagged_between app org since until st))).
Definition list_flagged_installs (rq : ApiRequest) (app_id : pystr) (since until : IsoTime) :=
  as_role Member rq (reading (list_flagged_installs_handler app_id since until)).

#[local] Instance worse_trans : Transitive worse.
Proof. intros a b c. unfold worse. lia. Qed.
#[local] Instance worse_total : Total worse.
Proof. intros a b. unfold worse. lia. Qed.

(** The worst are listed.  A list of flagged installs has only current installs of the app
    and the organisation in the range whose verdict is not clean, the worst first; and one
    of those that is missing gave way to five hundred that are no better. *)
Theorem worst_installs_are_listed app_id since until org st l :
  list_flagged_installs_handler app_id since until org st = Ok l →
  ∃ app rows, driver_uuid app_id = Some app ∧ 0 < time_between since until <= FRAUD_RANGE ∧ l = flagged_out <$> rows ∧ StronglySorted worse rows ∧
    (∀ r, r ∈ rows → r ∈ fs_attributions st ∧ a_organization_id r = org ∧ a_app_id r = app ∧ a_fraud_verdict r ≠ CLEAN ∧ a_superseded_by r = None) ∧
    (∀ r, r ∈ flagged_between app org since until st → r ∈ rows ∨ (length rows = 500%nat ∧ ∀ r', r' ∈ rows → worse r' r)).
Proof.
  unfold list_flagged_installs_handler, validated_range. destruct (comparable since until); [| done]. cbn [negb raise_if rbind].
  destruct (Z.leb_spec (time_between since until) 0); [done |]. destruct (Z.ltb_spec FRAUD_RANGE (time_between since until)); [done |].
  cbn [raise_if rbind]. destruct (driver_uuid app_id) as [app|]; [| done]. cbn [or_raise rbind].
  destruct (negb (bounds_sendable since until)); [done |]. cbn [raise_if rbind]. intros [= <-].
  set (all := flagged_between app org since until st). pose proof (StronglySorted_merge_sort worse all) as Hs.
  pose proof (merge_sort_Permutation worse all) as Hp. exists app, (take FRAUD_ROWS (merge_sort worse all)).
  split; [done |]. split; [lia |]. split; [done |]. split; [| split].
  - rewrite <- (take_drop FRAUD_ROWS (merge_sort worse all)) in Hs. by apply StronglySorted_app_1_l in Hs.
  - intros r Hr%subseteq_take. rewrite Hp in Hr. unfold all, flagged_between in Hr.
    apply list_elem_of_In, filter_In in Hr as [[Hr Ho]%list_elem_of_In%of_org_elem Hc].
    apply andb_true_iff in Hc as [[[[Ha%bool_decide_eq_true _]%andb_true_iff _]%andb_true_iff Hv%negb_true_iff%bool_decide_eq_false]%andb_true_iff
      Hn%bool_decide_eq_true]. done.
  - intros r Hr. apply (taken_or_full worse FRAUD_ROWS); [done |]. by rewrite Hp.
Qed.
End FraudApi.

(** ** Witnesses *)

Definition ex_flagged_install (id : uuid) (score : Z) (verdict : FraudVerdict) : AttributionRow :=
  {| a_id := id; a_organization_id := 101; a_app_id := 9; a_install_key := install_key 9 (py "device"); a_anonymous_id := py "device";
     a_user_id := None; a_click_id := None; a_campaign_id := None; a_tracking_link_id := None; a_source := None; a_medium := None;
     a_method := REFERRER; a_installed_at := 20000 * day; a_attributed_at := 20000 * day; a_window_days := 7; a_expires_at := 20007 * day;
     a_fraud_score := score; a_fraud_verdict := verdict; a_fraud_rules := None; a_deep_link := None; a_sub1 := None; a_sub2 := None;
     a_sub3 := None; a_superseded_by := None |}.
Definition ex_flagged : FraudState :=
  {| fs_links := []; fs_campaigns := []; fs_findings := ∅;
     fs_attributions := [ex_flagged_install 1 25 SUSPICIOUS; ex_flagged_install 2 0 CLEAN; ex_flagged_install 3 100 FRAUDULENT] |}.
Abbreviation ex_list := (@list_flagged_installs_handler toy_driver ex_export_lib (str_of_uuid 9) (ex_stamp 20000 (Some 0)) (ex_stamp 20001 (Some 0)) 101 ex_flagged).

Lemma worst_installs_are_listed_witness :
  match ex_list with
  | Ok l => fg_attribution_id <$> l = [3; 1]%N ∧ ∃ rows, l = flagged_out <$> rows ∧ StronglySorted worse rows
  | Err _ => False
  end.
Proof.
  destruct ex_list as [l|e] eqn:E; [| vm_compute in E; discriminate E].
  destruct (@worst_installs_are_listed toy_driver ex_export_lib _ _ _ _ _ _ E) as (app & rows & _ & _ & El & Hs & _).
  split; [vm_compute in E; injection E as <-; reflexivity | by exists rows].
Defined.
