(* ===== verification/Tenancy.v ===== *)
(** * Tenancy: roles, row-level security and the pool (mmp_db/rls.py, pool.py, the migrations)

    The access control of the database as the migrations build it: each statement is applied
    to a catalogue of tables with their policies and grants, and a statement of the program
    is allowed and filtered by that catalogue under the setting of its connection.  The pool
    hands the same connections to one request after another; [tenant_connection] sets the
    organisation for one transaction.

    [tenants_are_isolated]: however requests share connections, a statement the API runs for
    an organisation reads, adds, changes and deletes that organisation's rows only, and one
    that it runs for none finds nothing.  [tracker_privileges_are_exact]: what the service on
    the public internet may do at all. *)

From S2P Require Import Prelude Ids.

#[local] Open Scope Z_scope.
#[local] Open Scope mmp_scope.

(** ** The catalogue *)

Inductive DbRole := mmp_api | mmp_tracker | mmp_worker | mmp_readonly.
#[export] Instance db_role_eq_dec : EqDecision DbRole.
Proof. solve_decision. Defined.

Inductive Command := CSelect | CInsert | CUpdate | CDelete.
#[export] Instance command_eq_dec : EqDecision Command.
Proof. solve_decision. Defined.

(** What the policies compare: the organisation of a row with that of the connection, nothing,
    or the age of an install. *)
Inductive Condition := OwnOrganization | Always | LastTwoDays.
#[export] Instance condition_eq_dec : EqDecision Condition.
Proof. solve_decision. Defined.

(** A policy: [None] for every command, no roles for PUBLIC. *)
Record Policy := {
  po_name : pystr; po_command : option Command; po_roles : list DbRole;
  po_using : option Condition; po_check : option Condition
}.

(** A grant: the role, the command and its columns where it names some. *)
Definition PgGrant : Type := DbRole * Command * option (list pystr).

Record TableEntry := { te_rls : bool; te_forced : bool; te_policies : list Policy; te_grants : list PgGrant }.

(** The roles that exist, the tables, and what new tables are granted. *)
Record AclCatalogue := { ac_roles : list DbRole; ac_tables : list (pystr * TableEntry); ac_defaults : list (DbRole * Command) }.

(** The statements about access control, and those that create the tables. *)
Inductive AclStatement :=
| CreateRoles (roles : list DbRole)
| CreateTable (table : pystr)
| EnableRls (table : pystr)
| ForceRls (table : pystr)
| DisableRls (table : pystr)
| CreatePolicy (table : pystr) (p : Policy)
| DropPolicy (table name : pystr)
| GrantOn (commands : list Command) (table : pystr) (roles : list DbRole)
| GrantColumns (columns : list pystr) (table : pystr) (role : DbRole)
| GrantAll (commands : list Command) (roles : list DbRole)
| DefaultGrants (commands : list Command) (roles : list DbRole).

Inductive AclError := NoTable | PolicyExists | NoRole.

Definition grants_of (commands : list Command) (roles : list DbRole) : list PgGrant :=
  roles ≫= λ r, (λ c, (r, c, None)) <$> commands.

Definition alter (table : pystr) (f : TableEntry → result AclError TableEntry) (c : AclCatalogue) : result AclError AclCatalogue :=
  match od_get table (ac_tables c) with
  | None => Err NoTable
  | Some e => let* e := f e in Ok {| ac_roles := ac_roles c; ac_tables := od_set table e (ac_tables c); ac_defaults := ac_defaults c |}
  end.

Definition with_rls (rls forced : bool) (e : TableEntry) : TableEntry :=
  {| te_rls := rls; te_forced := forced; te_policies := te_policies e; te_grants := te_grants e |}.
Definition with_policies (l : list Policy) (e : TableEntry) : TableEntry :=
  {| te_rls := te_rls e; te_forced := te_forced e; te_policies := l; te_grants := te_grants e |}.
Definition with_grants (l : list PgGrant) (e : TableEntry) : TableEntry :=
  {| te_rls := te_rls e; te_forced := te_forced e; te_policies := te_policies e; te_grants := te_grants e ++ l |}.
Definition roles_exist (c : AclCatalogue) (roles : list DbRole) : bool := forallb (λ r, bool_decide (r ∈ ac_roles c)) roles.

Definition apply_acl (c : AclCatalogue) (s : AclStatement) : result AclError AclCatalogue :=
  match s with
  | CreateRoles roles =>
      Ok {| ac_roles := ac_roles c ++ List.filter (λ r, negb (bool_decide (r ∈ ac_roles c))) roles;
            ac_tables := ac_tables c; ac_defaults := ac_defaults c |}
  | CreateTable table =>
      match od_get table (ac_tables c) with
      | Some _ => Ok c
      | None =>
          let e := {| te_rls := false; te_forced := false; te_policies := []; te_grants := (λ g, (fst g, snd g, None)) <$> ac_defaults c |} in
          Ok {| ac_roles := ac_roles c; ac_tables := od_set table e (ac_tables c); ac_defaults := ac_defaults c |}
      end
  | EnableRls table => alter table (λ e, Ok (with_rls true (te_forced e) e)) c
  | ForceRls table => alter table (λ e, Ok (with_rls (te_rls e) true e)) c
  | DisableRls table => alter table (λ e, Ok (with_rls false (te_forced e) e)) c
  | CreatePolicy table p =>
      if roles_exist c (po_roles p) then
        alter table (λ e, if existsb (λ q, bool_decide (po_name q = po_name p)) (te_policies e) then Err PolicyExists
                          else Ok (with_policies (te_policies e ++ [p]) e)) c
      else Err NoRole
  | DropPolicy table name =>
      alter table (λ e, Ok (with_policies (List.filter (λ q, negb (bool_decide (po_name q = name))) (te_policies e)) e)) c
  | GrantOn commands table roles =>
      if roles_exist c roles then alter table (λ e, Ok (with_grants (grants_of commands roles) e)) c else Err NoRole
  | GrantColumns columns table role =>
      if roles_exist c [role] then alter table (λ e, Ok (with_grants [(role, CSelect, Some columns)] e)) c else Err NoRole
  | GrantAll commands roles =>
      if roles_exist c roles then
        Ok {| ac_roles := ac_roles c; ac_tables := (λ te, (fst te, with_grants (grants_of commands roles) (snd te))) <$> ac_tables c;
              ac_defaults := ac_defaults c |}
      else Err NoRole
  | DefaultGrants commands roles =>
      if roles_exist c roles then
        Ok {| ac_roles := ac_roles c; ac_tables := ac_tables c;
              ac_defaults := ac_defaults c ++ (roles ≫= λ r, (λ k, (r, k)) <$> commands) |}
      else Err NoRole
  end.

Fixpoint run_acl (l : list AclStatement) (c : AclCatalogue) : result AclError AclCatalogue :=
  match l with
  | [] => Ok c
  | s :: l => let* c := apply_acl c s in run_acl l c
  end.

(** ** rls.py *)

Definition TENANT_SETTING : pystr := py "mmp.org_id".

(** The models and whether each carries [OrgScopedMixin]. *)
Definition MODELS : list (pystr * bool) :=
  [(py "apps", true); (py "api_keys", true); (py "event_definitions", true); (py "attributions", true); (py "fraud_findings", true);
   (py "conversion_mappings", true); (py "campaigns", true); (py "tracking_links", true); (py "deep_links", true);
   (py "provider_integrations", true); (py "postback_rules", true); (py "postback_deliveries", true); (py "webhook_deliveries", true);
   (py "webhooks", true); (py "consent_states", true); (py "audit_log", true); (py "usage_rollup", true); (py "pipeline_audit", false);
   (py "users", false); (py "organizations", false); (py "organization_members", false)].

(** [org_scoped_tables], but for the order. *)
Definition org_scoped_tables : list pystr := remove_dups (fst <$> List.filter snd MODELS).

Definition org_isolation : Policy :=
  {| po_name := py "org_isolation"; po_command := None; po_roles := []; po_using := Some OwnOrganization; po_check := Some OwnOrganization |}.
Definition worker_access : Policy :=
  {| po_name := py "worker_access"; po_command := None; po_roles := [mmp_worker]; po_using := Some Always; po_check := Some Always |}.
Definition tracker_lookup : Policy :=
  {| po_name := py "tracker_lookup"; po_command := Some CSelect; po_roles := [mmp_tracker]; po_using := Some Always; po_check := None |}.

Definition enable_rls_sql (table : pystr) : list AclStatement :=
  [EnableRls table; ForceRls table; CreatePolicy table org_isolation; CreatePolicy table worker_access].
Definition TRACKER_LOOKUP_TABLES : list pystr := [py "api_keys"; py "apps"; py "tracking_links"].
Definition tracker_lookup_sql (table : pystr) : list AclStatement := [CreatePolicy table tracker_lookup].
Definition drop_tracker_lookup_sql (table : pystr) : list AclStatement := [DropPolicy table (po_name tracker_lookup)].
Definition EVERY : list Command := [CSelect; CInsert; CUpdate; CDelete].
Definition grant_sql (table : pystr) : list AclStatement :=
  [GrantOn EVERY table [mmp_api; mmp_worker]; GrantOn [CSelect] table [mmp_readonly]].
Definition disable_rls_sql (table : pystr) : list AclStatement :=
  [DropPolicy table (po_name worker_access); DropPolicy table (po_name org_isolation); DisableRls table].

Definition ROLE_DEFINITIONS : list AclStatement :=
  [CreateRoles [mmp_api]; CreateRoles [mmp_tracker]; CreateRoles [mmp_worker]; CreateRoles [mmp_readonly]].
Definition GRANTS : list AclStatement :=
  [GrantAll EVERY [mmp_api]; GrantOn [CInsert] (py "clicks") [mmp_tracker]; GrantOn [CInsert] (py "events") [mmp_tracker];
   GrantOn [CSelect] (py "tracking_links") [mmp_tracker]; GrantOn [CSelect] (py "api_keys") [mmp_tracker];
   GrantOn [CSelect] (py "apps") [mmp_tracker]; GrantAll EVERY [mmp_worker]; GrantAll [CSelect] [mmp_readonly];
   DefaultGrants EVERY [mmp_api; mmp_worker]; DefaultGrants [CSelect] [mmp_readonly]].

(** ** The migrations, as far as access goes *)

Definition business_tables : list AclStatement :=
  CreateTable <$> [py "organizations"; py "pipeline_audit"; py "users"; py "apps"; py "audit_log"; py "organization_members";
    py "provider_integrations"; py "webhooks"; py "api_keys"; py "attributions"; py "campaigns"; py "consent_states";
    py "conversion_mappings"; py "deep_links"; py "postback_rules"; py "usage_rollup"; py "postback_deliveries"; py "tracking_links"].

Definition ORG_SCOPED_TABLES : list pystr :=
  [py "api_keys"; py "apps"; py "attributions"; py "audit_log"; py "campaigns"; py "consent_states"; py "conversion_mappings";
   py "deep_links"; py "postback_deliveries"; py "postback_rules"; py "provider_integrations"; py "tracking_links"; py "usage_rollup";
   py "webhooks"].

(** The partitions it bootstraps are tables of their own, see [new_partition_is_not_isolated]. *)
Definition partitions_roles_and_rls : list AclStatement :=
  [CreateTable (py "clicks"); CreateTable (py "events")] ++ ROLE_DEFINITIONS ++ GRANTS ++ (ORG_SCOPED_TABLES ≫= enable_rls_sql).

Definition tracker_lookup_policies : list AclStatement := TRACKER_LOOKUP_TABLES ≫= tracker_lookup_sql.

Definition rollup_tables : list AclStatement :=
  (CreateTable <$> [py "rollup_events_hourly"; py "rollup_clicks_hourly"; py "rollup_campaign_daily"]) ++
  ([py "rollup_events_hourly"; py "rollup_clicks_hourly"; py "rollup_campaign_daily"] ≫= λ t, enable_rls_sql t ++ grant_sql t).

Definition webhook_deliveries : list AclStatement :=
  CreateTable (py "webhook_deliveries") :: enable_rls_sql (py "webhook_deliveries") ++ grant_sql (py "webhook_deliveries").

Definition tracker_insert : Policy :=
  {| po_name := py "tracker_insert"; po_command := Some CInsert; po_roles := [mmp_tracker]; po_using := None; po_check := Some Always |}.
Definition EVENT_TABLES : list pystr := [py "events"; py "clicks"].
Definition rls_on_event_tables : list AclStatement :=
  EVENT_TABLES ≫= λ t, [EnableRls t; ForceRls t; CreatePolicy t org_isolation; CreatePolicy t tracker_insert; CreatePolicy t worker_access].

Definition fraud_signals : list AclStatement :=
  let t := py "fraud_findings" in
  [CreateTable t; EnableRls t; ForceRls t; CreatePolicy t org_isolation; CreatePolicy t worker_access;
   GrantOn [CSelect] t [mmp_api]; GrantOn [CSelect; CInsert; CUpdate] t [mmp_worker]; GrantOn [CSelect] t [mmp_readonly]].

Definition tracker_deferred_lookup : Policy :=
  {| po_name := py "tracker_deferred_lookup"; po_command := Some CSelect; po_roles := [mmp_tracker]; po_using := Some LastTwoDays;
     po_check := None |}.
Definition deferred_deep_links : list AclStatement :=
  [GrantOn [CSelect] (py "deep_links") [mmp_tracker]; CreatePolicy (py "deep_links") tracker_lookup;
   GrantColumns [py "app_id"; py "install_key"; py "deep_link"; py "superseded_by"; py "installed_at"] (py "attributions") mmp_tracker;
   CreatePolicy (py "attributions") tracker_deferred_lookup].

Definition skadnetwork_postbacks : list AclStatement :=
  let t := py "skadnetwork_postbacks" in
  [CreateTable t; EnableRls t; ForceRls t; CreatePolicy t org_isolation; CreatePolicy t tracker_insert; CreatePolicy t worker_access;
   GrantOn [CSelect] t [mmp_api]; GrantOn [CInsert] t [mmp_tracker]; GrantOn [CSelect; CInsert; CUpdate] t [mmp_worker];
   GrantOn [CSelect] t [mmp_readonly]].

Definition conversion_mapping_lookup : list AclStatement :=
  [GrantOn [CSelect] (py "conversion_mappings") [mmp_tracker]; CreatePolicy (py "conversion_mappings") tracker_lookup].

Definition event_definitions : list AclStatement :=
  let t := py "event_definitions" in
  [CreateTable t; EnableRls t; ForceRls t; CreatePolicy t org_isolation; CreatePolicy t worker_access; CreatePolicy t tracker_lookup;
   GrantOn EVERY t [mmp_api; mmp_worker]; GrantColumns [py "app_id"; py "name"; py "status"] t mmp_tracker;
   GrantOn [CSelect] t [mmp_readonly]].

Definition migrations : list AclStatement :=
  business_tables ++ partitions_roles_and_rls ++ tracker_lookup_policies ++ rollup_tables ++ webhook_deliveries ++
  rls_on_event_tables ++ fraud_signals ++ deferred_deep_links ++ skadnetwork_postbacks ++ conversion_mapping_lookup ++ event_definitions.

Definition empty_catalogue : AclCatalogue := {| ac_roles := []; ac_tables := []; ac_defaults := [] |}.
(** The database the migrations leave. *)
Definition migrated : AclCatalogue := default empty_catalogue (match run_acl migrations empty_catalogue with Ok c => Some c | Err _ => None end).

Lemma migrations_apply : run_acl migrations empty_catalogue = Ok migrated.
Proof. vm_compute. reflexivity. Qed.

(** ** Statements under a setting *)

(** [::uuid], which reads what [str] writes. *)
Class PgUuid := { pg_uuid : pystr → option uuid; pg_uuid_str : ∀ u, uuid_ok u → pg_uuid (str_of_uuid u) = Some u }.

Inductive PgError := UndefinedTable | PermissionDenied | InvalidUuid | RowSecurity.

(** A role, or the owner of the tables, who is subject to policies only when they are forced. *)
Inductive Actor := AsRole (r : DbRole) | Owner.

Section Statements.
Context {P : PgUuid} {R : Type} (org_of : R → uuid) (installed_at : R → datetime).

(** [NULLIF(current_setting('mmp.org_id', true), '')::uuid] *)
Definition tenant_of (setting : option pystr) : result PgError (option uuid) :=
  match setting with
  | None | Some [] => Ok None
  | Some s => match pg_uuid s with Some u => Ok (Some u) | None => Err InvalidUuid end
  end.

Definition condition_holds (c : Condition) (tenant : option uuid) (now : datetime) (r : R) : bool :=
  match c with
  | OwnOrganization => bool_decide (tenant = Some (org_of r))
  | Always => true
  | LastTwoDays => now - 48 * hour <=? installed_at r
  end.

Definition applies (a : Actor) (cmd : Command) (p : Policy) : bool :=
  match po_command p with None => true | Some c => bool_decide (c = cmd) end &&
  match po_roles p with
  | [] => true
  | roles => match a with AsRole r => bool_decide (r ∈ roles) | Owner => false end
  end.

Definition subject (a : Actor) (e : TableEntry) : bool := te_rls e && match a with AsRole _ => true | Owner => te_forced e end.

(** The policies are permissive: one that applies is enough, and none lets nothing through. *)
Definition visible (a : Actor) (cmd : Command) (e : TableEntry) (tenant : option uuid) (now : datetime) (r : R) : bool :=
  negb (subject a e) ||
  existsb (λ p, applies a cmd p && match po_using p with Some c => condition_holds c tenant now r | None => false end) (te_policies e).
Definition admissible (a : Actor) (cmd : Command) (e : TableEntry) (tenant : option uuid) (now : datetime) (r : R) : bool :=
  negb (subject a e) ||
  existsb (λ p, applies a cmd p &&
                match po_check p with
                | Some c => condition_holds c tenant now r
                | None => match po_using p with Some c => condition_holds c tenant now r | None => false end
                end) (te_policies e).

Definition privileged (a : Actor) (cmd : Command) (columns : list pystr) (e : TableEntry) : bool :=
  match a with
  | Owner => true
  | AsRole r => existsb (λ g, let '(r', c, cols) := g in
                  bool_decide (r' = r) && bool_decide (c = cmd) &&
                  match cols with None => true | Some cols => negb (bool_decide (columns = [])) && forallb (λ k, bool_decide (k ∈ cols)) columns end)
                (te_grants e)
  end.

(** What a statement starts with: its table, its privileges and the tenant. *)
Definition pg_prepare (a : Actor) (commands : list Command) (columns : list pystr) (c : AclCatalogue) (table : pystr) (setting : option pystr)
  : result PgError (TableEntry * option uuid) :=
  let* e := match od_get table (ac_tables c) with Some e => Ok e | None => Err UndefinedTable end in
  if forallb (λ k, privileged a k columns e) commands then
    let* tenant := if subject a e then tenant_of setting else Ok None in Ok (e, tenant)
  else Err PermissionDenied.

Definition pg_select (a : Actor) (columns : list pystr) (c : AclCatalogue) (table : pystr) (setting : option pystr) (now : datetime) (rows : list R)
  : result PgError (list R) :=
  let* et := pg_prepare a [CSelect] columns c table setting in
  Ok (List.filter (visible a CSelect (fst et) (snd et) now) rows).

Definition pg_insert (a : Actor) (c : AclCatalogue) (table : pystr) (setting : option pystr) (now : datetime) (r : R) (rows : list R)
  : result PgError (list R) :=
  let* et := pg_prepare a [CInsert] [] c table setting in
  if admissible a CInsert (fst et) (snd et) now r then Ok (rows ++ [r]) else Err RowSecurity.

(** A statement that looks for its rows reads them too. *)
Definition reaches (a : Actor) (cmd : Command) (e : TableEntry) (tenant : option uuid) (now : datetime) (r : R) : bool :=
  visible a CSelect e tenant now r && visible a cmd e tenant now r.

Fixpoint update_each (keep : R → bool) (ok : R → bool) (f : R → R) (rows : list R) : result PgError (list R) :=
  match rows with
  | [] => Ok []
  | r :: rows =>
      let* r := if keep r then Ok r else if ok (f r) then Ok (f r) else Err RowSecurity in
      let* rows := update_each keep ok f rows in
      Ok (r :: rows)
  end.

Definition pg_update (a : Actor) (c : AclCatalogue) (table : pystr) (setting : option pystr) (now : datetime) (where_ : R → bool) (f : R → R)
    (rows : list R) : result PgError (list R) :=
  let* et := pg_prepare a [CSelect; CUpdate] [] c table setting in
  update_each (λ r, negb (where_ r && reaches a CUpdate (fst et) (snd et) now r))
    (λ r, admissible a CUpdate (fst et) (snd et) now r && visible a CSelect (fst et) (snd et) now r) f rows.

Definition pg_delete (a : Actor) (c : AclCatalogue) (table : pystr) (setting : option pystr) (now : datetime) (where_ : R → bool) (rows : list R)
  : result PgError (list R) :=
  let* et := pg_prepare a [CSelect; CDelete] [] c table setting in
  Ok (List.filter (λ r, negb (where_ r && reaches a CDelete (fst et) (snd et) now r)) rows).
End Statements.

(** ** The pool *)

(** A connection of the pool: what [mmp.org_id] is outside of a transaction; and in one, for
    whom it runs, whether [set_config] has, what it was before and what it is. *)
Inductive Backend :=
| Idle (setting : option pystr)
| Busy (who : option uuid) (scoped : bool) (outer current : option pystr).

(** A local setting ends with its transaction, and a parameter that was unknown is then empty. *)
Definition after_transaction (b : Backend) : Backend :=
  match b with
  | Idle s => Idle s
  | Busy _ scoped outer _ => Idle (if scoped then match outer with None => Some [] | Some s => Some s end else outer)
  end.

(** A statement that ran: for an organisation or for none, and under which setting. *)
Record Ran := { rn_who : option uuid; rn_setting : option pystr }.

(** What happens to one connection: [tenant_connection] begins a transaction, sets the
    organisation and yields; [system_connection] and [acquire_raw] yield the connection
    itself, in a transaction where the caller opens one. *)
Inductive backend_step : Backend → option Ran → Backend → Prop :=
| begin_tenant s o : uuid_ok o → backend_step (Idle s) None (Busy (Some o) false s s)
| set_tenant o outer current : backend_step (Busy (Some o) false outer current) None (Busy (Some o) true outer (Some (str_of_uuid o)))
| run_tenant o outer current :
    backend_step (Busy (Some o) true outer current) (Some {| rn_who := Some o; rn_setting := current |}) (Busy (Some o) true outer current)
| run_system s : backend_step (Idle s) (Some {| rn_who := None; rn_setting := s |}) (Idle s)
| begin_system s : backend_step (Idle s) None (Busy None false s s)
| run_in_system outer current :
    backend_step (Busy None false outer current) (Some {| rn_who := None; rn_setting := current |}) (Busy None false outer current)
| finish_transaction who scoped outer current :
    backend_step (Busy who scoped outer current) None (after_transaction (Busy who scoped outer current)).

(** Any of the connections moves, or the pool opens or closes one. *)
Inductive pool_step : list Backend → option Ran → list Backend → Prop :=
| pool_moves l1 b l2 ran b' : backend_step b ran b' → pool_step (l1 ++ b :: l2) ran (l1 ++ b' :: l2)
| pool_opens l : pool_step l None (l ++ [Idle None])
| pool_closes l1 b l2 : pool_step (l1 ++ b :: l2) None (l1 ++ l2).

Definition pool_runs (l l' : list Backend) : Prop := ∃ ran, pool_step l ran l'.

(** ** Settings stay with their transaction *)

Definition unset (s : option pystr) : Prop := s = None ∨ s = Some [].

Definition backend_ok (b : Backend) : Prop :=
  match b with
  | Idle s => unset s
  | Busy (Some o) true outer current => uuid_ok o ∧ unset outer ∧ current = Some (str_of_uuid o)
  | Busy (Some o) false outer current => uuid_ok o ∧ unset outer ∧ unset current
  | Busy None scoped outer current => scoped = false ∧ unset outer ∧ unset current
  end.

Lemma backend_step_ok b ran b' : backend_step b ran b' → backend_ok b → backend_ok b'.
Proof.
  destruct 1 as [s o Ho|o outer current|o outer current|s|s|outer current|who scoped outer current]; cbn [backend_ok]; try tauto.
  destruct who as [o|], scoped; cbn [after_transaction backend_ok]; unfold unset; [| tauto | | tauto].
  - intros (_ & [-> | ->] & _); auto.
  - intros (E & _). discriminate E.
Qed.

Lemma pool_step_ok l ran l' : pool_step l ran l' → Forall backend_ok l → Forall backend_ok l'.
Proof.
  destruct 1 as [l1 b l2 ran b' Hb|l|l1 b l2]; rewrite ?Forall_app, ?Forall_cons.
  - intros (H1 & H & H2). eauto using backend_step_ok.
  - intros H. split; [done |]. split; [by left | constructor].
  - tauto.
Qed.

Lemma pool_ok l : rtc pool_runs [] l → Forall backend_ok l.
Proof.
  intros H. assert (Forall backend_ok []) as H0 by constructor. revert H0.
  induction H as [|l l1 l2 [ran Hs] _ IH]; [done |]. intros H0. apply IH. by eapply pool_step_ok.
Qed.

(** A statement for an organisation runs under its setting, any other under none. *)
Lemma ran_setting `{PgUuid} l ran l' : pool_step l (Some ran) l' → Forall backend_ok l → tenant_of (rn_setting ran) = Ok (rn_who ran).
Proof.
  intros Hs Hl. inversion Hs as [l1 b l2 r b' Hb E1 E2 E3| |]; subst.
  apply Forall_app in Hl as [_ [Hok _]%Forall_cons].
  inversion Hb; subst; cbn [backend_ok rn_setting rn_who] in *.
  - destruct Hok as (Ho & _ & ->). unfold tenant_of. destruct (str_of_uuid o) eqn:E; [| by rewrite <- E, (pg_uuid_str o Ho)].
    apply (f_equal length) in E. by rewrite str_of_uuid_length in E.
  - by destruct Hok as [-> | ->].
  - by destruct Hok as (_ & _ & [-> | ->]).
Qed.

(** ** Isolation *)

(** The tables of tenants' data: the models', and those no model has. *)
Definition protected : list pystr :=
  org_scoped_tables ++ [py "events"; py "clicks"; py "rollup_events_hourly"; py "rollup_clicks_hourly"; py "rollup_campaign_daily";
    py "skadnetwork_postbacks"].

(** Policies under which an actor has exactly the rows of its organisation. *)
Definition isolates (a : Actor) (e : TableEntry) : bool :=
  subject a e &&
  existsb (λ p, bool_decide (po_command p = None) && bool_decide (po_roles p = []) && bool_decide (po_using p = Some OwnOrganization) &&
                bool_decide (po_check p = Some OwnOrganization)) (te_policies e) &&
  forallb (λ p, forallb (λ cmd, negb (applies a cmd p) ||
                bool_decide (po_using p = Some OwnOrganization) && bool_decide (po_check p = Some OwnOrganization)) EVERY) (te_policies e).

Definition actors : list Actor := [AsRole mmp_api; Owner].

Definition protects (c : AclCatalogue) (t : pystr) : bool :=
  match od_get t (ac_tables c) with
  | Some e => forallb (λ a, isolates a e && forallb (λ k, privileged a k [] e) EVERY) actors
  | None => false
  end.

Lemma protects_all c t a :
  forallb (protects c) protected = true → t ∈ protected → a ∈ actors →
  ∃ e, od_get t (ac_tables c) = Some e ∧ isolates a e = true ∧ (∀ k, privileged a k [] e = true).
Proof.
  intros H Ht Ha. rewrite forallb_forall in H. specialize (H t (proj1 (list_elem_of_In _ _) Ht)). unfold protects in H.
  destruct (od_get t (ac_tables c)) as [e|]; [| done]. exists e. split; [done |].
  rewrite forallb_forall in H. specialize (H a (proj1 (list_elem_of_In _ _) Ha)). apply andb_true_iff in H as [Hi Hp]. split; [done |].
  intros k. rewrite forallb_forall in Hp. apply Hp. destruct k; cbn; tauto.
Qed.

(** Every tenant table is one of them in the database the migrations leave. *)
Lemma migrated_protects : forallb (protects migrated) protected = true.
Proof. vm_compute. reflexivity. Qed.

Section Isolation.
Context {P : PgUuid} {R : Type} (org_of : R → uuid) (installed_at : R → datetime).

Definition own (who : option uuid) (r : R) : bool := bool_decide (who = Some (org_of r)).

Lemma isolates_policy a e cmd p :
  isolates a e = true → p ∈ te_policies e → applies a cmd p = true → po_using p = Some OwnOrganization ∧ po_check p = Some OwnOrganization.
Proof.
  intros [_ H]%andb_true_iff Hp Happ. rewrite forallb_forall in H. specialize (H p (proj1 (list_elem_of_In _ _) Hp)).
  rewrite forallb_forall in H. specialize (H cmd). rewrite Happ in H. cbn [negb orb] in H.
  apply andb_true_iff in H as [?%bool_decide_eq_true ?%bool_decide_eq_true]; [done |]. destruct cmd; cbn; tauto.
Qed.

(** One policy lets a row through exactly when it is the organisation's own. *)
Lemma isolates_existsb a e cmd (q : Policy → bool) (b : bool) :
  isolates a e = true →
  (∀ p, p ∈ te_policies e → applies a cmd p = true → po_using p = Some OwnOrganization → po_check p = Some OwnOrganization → q p = b) →
  existsb (λ p, applies a cmd p && q p) (te_policies e) = b.
Proof.
  intros Hi Hq. pose proof Hi as Hi'. unfold isolates in Hi'. apply andb_true_iff in Hi' as [[_ Hex]%andb_true_iff _].
  apply existsb_exists in Hex as (p & Hp & [[[Hc%bool_decide_eq_true Hr%bool_decide_eq_true]%andb_true_iff Hu%bool_decide_eq_true]%andb_true_iff
    Hk%bool_decide_eq_true]%andb_true_iff).
  assert (applies a cmd p = true) as Happ by (unfold applies; by rewrite Hc, Hr).
  destruct b.
  - apply existsb_exists. exists p. split; [done |]. rewrite Happ. apply Hq; [by apply list_elem_of_In | done..].
  - apply not_true_iff_false. intros (p' & Hp' & [Happ' Hq']%andb_true_iff)%existsb_exists. apply list_elem_of_In in Hp'.
    destruct (isolates_policy a e cmd p' Hi Hp' Happ') as [Hu' Hk']. specialize (Hq p' Hp' Happ' Hu' Hk'). congruence.
Qed.

Lemma isolates_visible a e cmd who now r : isolates a e = true → visible org_of installed_at a cmd e who now r = own who r.
Proof.
  intros Hi. pose proof Hi as [[Hs _]%andb_true_iff _]%andb_true_iff. unfold visible. rewrite Hs. cbn [negb orb].
  apply isolates_existsb; [done |]. intros p _ _ -> _. done.
Qed.

Lemma isolates_admissible a e cmd who now r : isolates a e = true → admissible org_of installed_at a cmd e who now r = own who r.
Proof.
  intros Hi. pose proof Hi as [[Hs _]%andb_true_iff _]%andb_true_iff. unfold admissible. rewrite Hs. cbn [negb orb].
  apply isolates_existsb; [done |]. intros p _ _ _ ->. done.
Qed.

Lemma pg_prepare_protected t a commands setting who :
  t ∈ protected → a ∈ actors → tenant_of setting = Ok who →
  ∃ e, pg_prepare a commands [] migrated t setting = Ok (e, who) ∧ isolates a e = true.
Proof.
  intros Ht Ha Hw. destruct (protects_all migrated t a migrated_protects Ht Ha) as (e & He & Hi & Hp). exists e. split; [| done]. unfold pg_prepare.
  rewrite He. cbn [rbind]. replace (forallb (λ k, privileged a k [] e) commands) with true
    by (symmetry; apply forallb_forall; intros k _; apply Hp).
  pose proof Hi as [[Hs _]%andb_true_iff _]%andb_true_iff. rewrite Hs, Hw. done.
Qed.

Lemma update_each_ok (keep ok : R → bool) f rows : ∀ rows',
  update_each keep ok f rows = Ok rows' → Forall2 (λ r r', if keep r then r' = r else r' = f r ∧ ok r' = true) rows rows'.
Proof.
  induction rows as [|r rows IH]; intros rows' E; cbn [update_each] in E; [injection E as <-; constructor |].
  destruct (keep r) eqn:Hk; [| destruct (ok (f r)) eqn:Ho; [| done]]; cbn [rbind] in E;
    (destruct (update_each keep ok f rows) as [l|]; [| done]); injection E as <-; (constructor; [by rewrite Hk | by apply IH]).
Qed.

(** (C36) Tenants are isolated.  However requests and system work share the connections of a pool
    of the API, whatever transactions end in between and whichever connection a statement
    gets: a statement on a tenant table for an organisation reads exactly that
    organisation's rows, adds a row exactly when it is that organisation's, changes and
    deletes no other row and moves none to another organisation; a statement for no
    organisation reads, adds, changes and deletes nothing.  The same condition_holds of the owner of
    the tables. *)
Theorem tenants_are_isolated l ran l' t a now (rows : list R) :
  rtc pool_runs [] l → pool_step l (Some ran) l' → t ∈ protected → a ∈ [AsRole mmp_api; Owner] →
  let mine := own (rn_who ran) in
  pg_select org_of installed_at a [] migrated t (rn_setting ran) now rows = Ok (List.filter mine rows) ∧
  (∀ r, pg_insert org_of installed_at a migrated t (rn_setting ran) now r rows = if mine r then Ok (rows ++ [r]) else Err RowSecurity) ∧
  (∀ where_ f rows', pg_update org_of installed_at a migrated t (rn_setting ran) now where_ f rows = Ok rows' →
     Forall2 (λ r r', if where_ r && mine r then r' = f r ∧ mine r' = true else r' = r) rows rows') ∧
  (∀ where_, pg_delete org_of installed_at a migrated t (rn_setting ran) now where_ rows =
     Ok (List.filter (λ r, negb (where_ r && mine r)) rows)).
Proof.
  intros Hl Hs Ht Ha mine. pose proof (ran_setting l ran l' Hs (pool_ok l Hl)) as Hw.
  repeat split.
  - unfold pg_select. destruct (pg_prepare_protected t a [CSelect] _ _ Ht Ha Hw) as (e & -> & Hi). cbn [rbind fst snd]. f_equal.
    apply List.filter_ext. intros r. by apply isolates_visible.
  - intros r. unfold pg_insert. destruct (pg_prepare_protected t a [CInsert] _ _ Ht Ha Hw) as (e & -> & Hi). cbn [rbind fst snd].
    by rewrite (isolates_admissible a e CInsert (rn_who ran) now r Hi).
  - intros where_ f rows'. unfold pg_update. destruct (pg_prepare_protected t a [CSelect; CUpdate] _ _ Ht Ha Hw) as (e & -> & Hi). cbn [rbind fst snd].
    intros H%update_each_ok. eapply Forall2_impl; [exact H |]. intros r r'. unfold reaches.
    rewrite !(isolates_visible a e _ (rn_who ran) now _ Hi), (isolates_admissible a e CUpdate (rn_who ran) now r' Hi), !andb_diag.
    unfold mine. by destruct (where_ r && own (rn_who ran) r).
  - intros where_. unfold pg_delete. destruct (pg_prepare_protected t a [CSelect; CDelete] _ _ Ht Ha Hw) as (e & -> & Hi). cbn [rbind fst snd]. f_equal.
    apply List.filter_ext. intros r. unfold reaches. by rewrite !(isolates_visible a e _ (rn_who ran) now r Hi), andb_diag.
Qed.
End Isolation.

(** ** The tracker *)

(** What a role has been granted, with the columns where only some. *)
Definition privileges (role : DbRole) (c : AclCatalogue) : list (pystr * Command * option (list pystr)) :=
  ac_tables c ≫= λ te, omap (λ g, if bool_decide (fst (fst g) = role) then Some (fst te, snd (fst g), snd g) else None) (te_grants (snd te)).

(** The tracker, on the public internet, may read six tables, five columns of one and three
    of another, may add to three and change or delete nothing. *)
Lemma tracker_privileges_are_exact :
  privileges mmp_tracker migrated ≡ₚ
    [(py "apps", CSelect, None); (py "api_keys", CSelect, None); (py "tracking_links", CSelect, None);
     (py "deep_links", CSelect, None); (py "conversion_mappings", CSelect, None);
     (py "attributions", CSelect, Some [py "app_id"; py "install_key"; py "deep_link"; py "superseded_by"; py "installed_at"]);
     (py "event_definitions", CSelect, Some [py "app_id"; py "name"; py "status"]);
     (py "events", CInsert, None); (py "clicks", CInsert, None); (py "skadnetwork_postbacks", CInsert, None)].
Proof. apply (bool_decide_unpack _). vm_compute. exact I. Qed.

(** Of the installs it reads those of two days, of any organisation and whatever is set. *)
Lemma tracker_reads_recent_installs `{PgUuid} {R} (org_of : R → uuid) (installed_at : R → datetime) now rows :
  pg_select org_of installed_at (AsRole mmp_tracker) [py "deep_link"] migrated (py "attributions") None now rows =
    Ok (List.filter (λ r, now - 48 * hour <=? installed_at r) rows).
Proof.
  unfold pg_select. set (p := pg_prepare _ _ _ _ _ _). vm_compute in p. subst p. cbn [rbind fst snd]. f_equal.
  apply List.filter_ext. intros r. unfold visible. cbn. by rewrite orb_false_r.
Qed.

Lemma tracker_reads_nothing_back `{PgUuid} {R} (org_of : R → uuid) (installed_at : R → datetime) t setting now rows :
  t ∈ [py "events"; py "clicks"; py "skadnetwork_postbacks"; py "campaigns"; py "postback_rules"; py "provider_integrations"; py "users"] →
  pg_select org_of installed_at (AsRole mmp_tracker) [] migrated t setting now rows = Err PermissionDenied.
Proof. intros Ht. repeat (apply elem_of_cons in Ht as [->|Ht]; [reflexivity |]). by apply elem_of_nil in Ht. Qed.

(** ** Witnesses *)

Definition uuid_reader : PgUuid := {| pg_uuid := @uuid_of_str ascii_unicode; pg_uuid_str := @uuid_of_str_of_uuid ascii_unicode |}.

(** A connection that has served another organisation, and its statement for 102. *)
Definition ex_ran : Ran := {| rn_who := Some 102%N; rn_setting := Some (str_of_uuid 102) |}.
Definition ex_pool : list Backend := [Busy (Some 102%N) true (Some []) (Some (str_of_uuid 102))].

Lemma ex_uuid_ok o : (o < 1000)%N → uuid_ok o.
Proof. intros H. unfold uuid_ok. eapply N.lt_trans; [exact H | reflexivity]. Qed.

Lemma ex_reached : rtc pool_runs [] ex_pool.
Proof.
  assert (∀ b b', backend_step b None b' → pool_runs [b] [b']) as Hm by (intros b b' H; exists None; apply (pool_moves [] b [] None b' H)).
  eapply rtc_l; [exists None; apply (pool_opens []) |].
  eapply rtc_l; [apply Hm, (begin_tenant None 101), ex_uuid_ok; reflexivity |].
  eapply rtc_l; [apply Hm, set_tenant |].
  eapply rtc_l; [apply Hm, finish_transaction |].
  eapply rtc_l; [apply Hm, (begin_tenant (Some []) 102), ex_uuid_ok; reflexivity |].
  eapply rtc_l; [apply Hm, set_tenant |]. apply rtc_refl.
Qed.

(** A row here is its organisation. *)
Lemma tenants_are_isolated_witness :
  @pg_select uuid_reader uuid id (λ _, 0) (AsRole mmp_api) [] migrated (py "campaigns") (rn_setting ex_ran) 0 [101; 102; 102]%N = Ok [102; 102]%N.
Proof.
  destruct (@tenants_are_isolated uuid_reader uuid id (λ _, 0) ex_pool ex_ran ex_pool (py "campaigns") (AsRole mmp_api) 0 [101; 102; 102]%N ex_reached)
    as (H & _).
  - apply (pool_moves [] _ [] _ _ (run_tenant _ _ _)).
  - apply (bool_decide_unpack _). vm_compute. exact I.
  - left.
  - rewrite H. reflexivity.
Defined.

(** ** What the code does beyond its documentation *)

(** *** Key rows

    The comment on the grants says the tracker cannot read an API key row; the statement
    under it grants that, and every organisation's rows are read. *)
Lemma tracker_reads_key_rows `{PgUuid} {R} (org_of : R → uuid) (installed_at : R → datetime) setting now rows :
  tenant_of setting = Ok None →
  pg_select org_of installed_at (AsRole mmp_tracker) [] migrated (py "api_keys") setting now rows = Ok rows.
Proof.
  intros Hs. unfold pg_select. set (p := pg_prepare _ _ _ _ _ _).
  assert (∃ e, p = Ok (e, None) ∧ existsb (λ q, applies (AsRole mmp_tracker) CSelect q && bool_decide (po_using q = Some Always)) (te_policies e) = true)
    as (e & -> & He).
  { unfold p, pg_prepare. rewrite Hs. eexists. split; vm_compute; reflexivity. }
  cbn [rbind fst snd]. f_equal. induction rows as [|r rows IH]; [done |]. cbn [List.filter].
  assert (visible org_of installed_at (AsRole mmp_tracker) CSelect e None now r = true) as ->; [| by rewrite IH].
  unfold visible. apply orb_true_iff. right. apply existsb_exists in He as (q & Hq & [Ha Hu%bool_decide_eq_true]%andb_true_iff).
  apply existsb_exists. exists q. split; [done |]. by rewrite Ha, Hu.
Qed.

(** *** Findings the API may rewrite

    New tables are granted to the API in full by default, so the narrower grants of later
    migrations narrow nothing. *)
Lemma api_may_rewrite_findings :
  match od_get (py "fraud_findings") (ac_tables migrated) with
  | Some e => privileged (AsRole mmp_api) CUpdate [] e && privileged (AsRole mmp_api) CDelete [] e = true
  | None => False
  end.
Proof. vm_compute. reflexivity. Qed.

(** *** Partitions

    A partition created later is a table of its own: it has the default grants and no
    policy, so the API role reads every organisation's rows by naming it. *)
Lemma new_partition_is_not_isolated `{PgUuid} {R} (org_of : R → uuid) (installed_at : R → datetime) now rows :
  match apply_acl migrated (CreateTable (py "events_20261101")) with
  | Ok c => pg_select org_of installed_at (AsRole mmp_api) [] c (py "events_20261101") None now rows = Ok rows
  | Err _ => False
  end.
Proof.
  set (c := apply_acl _ _). vm_compute in c. subst c. cbn iota beta. unfold pg_select. set (p := pg_prepare _ _ _ _ _ _). vm_compute in p. subst p.
  cbn [rbind fst snd]. f_equal. induction rows as [|r rows IH]; [done |]. cbn [List.filter]. change (visible _ _ _ _ _ _ _ r) with true.
  by rewrite IH.
Qed.
