(* ===== verification/Storage.v ===== *)
(** * Day partitions and retention (mmp_db/partitions.py, mmp_db/maintenance.py, the
    partition migration 20260907_1831, mmp_worker/jobs.py)

    A statement is a value of [ddl]; [ddl_text] is the SQL the code writes for it and
    [exec] what the database does with it.  The catalogue is the list of partitions,
    each with its bounds, its indexes and its rows.  A date is a day number since
    1970-01-01.  Creation (a week ahead) and retention (never under thirty days) are
    proved to leave, over any history, a partition for every day that is written to and
    the rows that are to be kept. *)

From stdpp Require Import sorting.
From S2P Require Import Prelude Ids IpAddr AuditLog Counting.

#[local] Open Scope Z_scope.
#[local] Open Scope mmp_scope.

(** ** Partitions *)

Record PartitionSpec := { ps_table : pystr; ps_day : Z }.
#[global] Instance PartitionSpec_eq_dec : EqDecision PartitionSpec.
Proof. solve_decision. Defined.

(** [%Y%m%d] and [%Y-%m-%d]. *)
Definition compact_date (d : Z) : pystr :=
  let '(y, m, dd) := civil d in pad 4 (py_str_int y) ++ pad 2 (py_str_int m) ++ pad 2 (py_str_int dd).
Definition dashed_date (d : Z) : pystr :=
  let '(y, m, dd) := civil d in
  pad 4 (py_str_int y) ++ py "-" ++ pad 2 (py_str_int m) ++ py "-" ++ pad 2 (py_str_int dd).

Definition partition_name (s : PartitionSpec) : pystr := ps_table s ++ py "_" ++ compact_date (ps_day s).
Definition ps_start (s : PartitionSpec) : Z := ps_day s.
Definition ps_end (s : PartitionSpec) : Z := ps_day s + 1.

(** An index template: the suffix of the index's name and what follows the table. *)
Record IndexTemplate := { it_suffix : pystr; it_clause : pystr }.

Definition PARTITION_INDEXES : list (pystr * list IndexTemplate) :=
  [(py "clicks",
     [{| it_suffix := py "click_id"; it_clause := py "(click_id)" |};
      {| it_suffix := py "device";
         it_clause := py "(app_id, device_hash, clicked_at DESC) WHERE device_hash IS NOT NULL" |};
      {| it_suffix := py "time_brin"; it_clause := py "USING brin (clicked_at)" |}]);
   (py "events",
     [{| it_suffix := py "app_event"; it_clause := py "(app_id, event_name, received_at)" |};
      {| it_suffix := py "identity"; it_clause := py "(app_id, anonymous_id)" |};
      {| it_suffix := py "time_brin"; it_clause := py "USING brin (received_at)" |}])].

Inductive ddl :=
| CreatePartition (name parent : pystr) (start stop : Z)
| CreateIndex (relation : pystr) (template : IndexTemplate)
| DropTable (name : pystr).

Definition index_name (relation : pystr) (t : IndexTemplate) : pystr :=
  py "ix_" ++ relation ++ py "_" ++ it_suffix t.

Definition ddl_text (s : ddl) : pystr :=
  match s with
  | CreatePartition name parent start stop =>
      py "CREATE TABLE IF NOT EXISTS " ++ name ++ py " PARTITION OF " ++ parent ++
      py " FOR VALUES FROM ('" ++ dashed_date start ++ py " 00:00:00+00') TO ('" ++
      dashed_date stop ++ py " 00:00:00+00')"
  | CreateIndex relation t =>
      py "CREATE INDEX IF NOT EXISTS " ++ index_name relation t ++ py " ON " ++ relation ++ py " " ++
      it_clause t
  | DropTable name => py "DROP TABLE IF EXISTS " ++ name
  end.

Inductive StorageError :=
| UnknownTable          (* "unknown partitioned table" *)
| BelowFloor            (* "retention_days=.. is below the 30-day floor" *)
| Populated             (* "refusing to rebuild partitions that contain data" *)
| NoPartition           (* "no partition of relation found for row" *)
| Overlap               (* "partition would overlap partition" *)
| UndefinedRelation.    (* an index on a relation that does not exist *)

Definition create_partition_sql (s : PartitionSpec) : result StorageError (list ddl) :=
  match od_get (ps_table s) PARTITION_INDEXES with
  | None => Err UnknownTable
  | Some templates =>
      Ok (CreatePartition (partition_name s) (ps_table s) (ps_start s) (ps_end s) ::
          (CreateIndex (partition_name s) <$> templates))
  end.

Definition partitions_for_range (table : pystr) (start days : Z) : list PartitionSpec :=
  (λ i : nat, {| ps_table := table; ps_day := start + Z.of_nat i |}) <$> seq 0 (Z.to_nat days).

Definition drop_partition_sql (s : PartitionSpec) : ddl := DropTable (partition_name s).

(** ** The database *)

Record Row := { rw_at : datetime; rw_id : uuid }.

Record Partition := {
  pt_name : pystr;
  pt_parent : pystr;
  pt_from : datetime;
  pt_to : datetime;
  pt_indexes : list pystr;
  pt_rows : list Row
}.

Definition Catalogue : Type := list Partition.

Definition relation_exists (name : pystr) (c : Catalogue) : bool :=
  existsb (λ p, bool_decide (pt_name p = name) || bool_decide (name ∈ pt_indexes p)) c.

Definition overlaps (from to : datetime) (p : Partition) : bool := (from <? pt_to p) && (pt_from p <? to).

Definition add_index (relation index : pystr) (p : Partition) : Partition :=
  if bool_decide (pt_name p = relation)
  then {| pt_name := pt_name p; pt_parent := pt_parent p; pt_from := pt_from p; pt_to := pt_to p;
          pt_indexes := pt_indexes p ++ [index]; pt_rows := pt_rows p |}
  else p.

Definition exec (s : ddl) (c : Catalogue) : result StorageError Catalogue :=
  match s with
  | CreatePartition name parent start stop =>
      if relation_exists name c then Ok c
      else if existsb (λ p, bool_decide (pt_parent p = parent) && overlaps (start * day) (stop * day) p) c
      then Err Overlap
      else Ok (c ++ [{| pt_name := name; pt_parent := parent; pt_from := start * day; pt_to := stop * day;
                        pt_indexes := []; pt_rows := [] |}])
  | CreateIndex relation t =>
      if negb (existsb (λ p, bool_decide (pt_name p = relation)) c) then Err UndefinedRelation
      else if relation_exists (index_name relation t) c then Ok c
      else Ok (add_index relation (index_name relation t) <$> c)
  | DropTable name => Ok (List.filter (λ p, negb (bool_decide (pt_name p = name))) c)
  end.

(** Statements one by one, each committed on its own; the first failure stops. *)
Fixpoint run_ddl (l : list ddl) (c : Catalogue) : option StorageError * Catalogue :=
  match l with
  | [] => (None, c)
  | s :: l => match exec s c with Ok c' => run_ddl l c' | Err e => (Some e, c) end
  end.

(** A row goes to the partition whose bounds hold its instant. *)
Definition holds (table : pystr) (t : datetime) (p : Partition) : bool :=
  bool_decide (pt_parent p = table) && (pt_from p <=? t) && (t <? pt_to p).

Definition add_row (r : Row) (p : Partition) : Partition :=
  {| pt_name := pt_name p; pt_parent := pt_parent p; pt_from := pt_from p; pt_to := pt_to p;
     pt_indexes := pt_indexes p; pt_rows := pt_rows p ++ [r] |}.

Fixpoint insert_row (table : pystr) (r : Row) (c : Catalogue) : result StorageError Catalogue :=
  match c with
  | [] => Err NoPartition
  | p :: c =>
      if holds table (rw_at r) p then Ok (add_row r p :: c)
      else let* c' := insert_row table r c in Ok (p :: c')
  end.

Definition rows_of (table : pystr) (c : Catalogue) : list Row :=
  c ≫= λ p, if bool_decide (pt_parent p = table) then pt_rows p else [].

(** ** Maintenance *)

Definition DEFAULT_LEAD_DAYS : Z := 7.
Definition DEFAULT_RETENTION_DAYS : Z := 90.
Definition MINIMUM_RETENTION_DAYS : Z := 30.

(** The loop both the job and the migrations write: every statement of every
    partition, the names in order. *)
Fixpoint create_all (specs : list PartitionSpec) (created : list pystr) (c : Catalogue)
  : result StorageError (list pystr) * Catalogue :=
  match specs with
  | [] => (Ok created, c)
  | s :: specs =>
      match create_partition_sql s with
      | Err e => (Err e, c)
      | Ok statements =>
          match run_ddl statements c with
          | (None, c') => create_all specs (created ++ [partition_name s]) c'
          | (Some e, c') => (Err e, c')
          end
      end
  end.

Definition ensure_partitions (today lead_days : Z) (c : Catalogue)
  : result StorageError (list pystr) * Catalogue :=
  create_all ((fst <$> PARTITION_INDEXES) ≫= λ table, partitions_for_range table today (lead_days + 1)) [] c.

(** [maintain_partitions] of the worker, with its default. *)
Definition maintain_partitions (today : Z) (c : Catalogue) : result StorageError (list pystr) * Catalogue :=
  ensure_partitions today DEFAULT_LEAD_DAYS c.

Definition name_le (a b : pystr) : Prop := str_leb a b = true.
#[global] Instance name_le_dec : RelDecision name_le := λ a b, decide (str_leb a b = true).

Definition existing_partitions (c : Catalogue) (table : pystr) : list pystr :=
  merge_sort name_le (pt_name <$> List.filter (λ p, bool_decide (pt_parent p = table)) c).

(** ** [datetime.strptime(.., "%Y%m%d")]

    The pattern is [\d\d\d\d], then [1[0-2]|0[1-9]|[1-9]], then
    [3[0-1]|[1-2]\d|0[1-9]|[1-9]| [1-9]], matched at the start of the text with the
    alternatives tried in order; what is left over is an error, and so is a day the
    month does not have. *)

Section Strptime.
Context {U : Unicode}.

Definition decimal (c : N) : option Z :=
  if is_digit_ascii c then Some (Z.of_N c - 48)
  else if is_ascii c then None else Z.of_N <$> uni_decimal c.

Definition class (lo hi c : N) : option Z := if in_range lo hi c then Some (Z.of_N c - 48) else None.

Definition year_at (s : pystr) : option (Z * pystr) :=
  match s with
  | a :: b :: c :: d :: rest =>
      a ← decimal a; b ← decimal b; c ← decimal c; d ← decimal d;
      Some (1000 * a + 100 * b + 10 * c + d, rest)
  | _ => None
  end.

(** One alternative: a first character, then a class, or a class alone. *)
Definition two_chars (first : N) (second : N → option Z) (tens : Z) (s : pystr) : list (Z * pystr) :=
  match s with
  | a :: b :: rest => if N.eqb a first then option_list ((λ v, (tens + v, rest)) <$> second b) else []
  | _ => []
  end.
Definition one_char (second : N → option Z) (s : pystr) : list (Z * pystr) :=
  match s with b :: rest => option_list ((λ v, (v, rest)) <$> second b) | [] => [] end.

Definition month_at (s : pystr) : list (Z * pystr) :=
  two_chars 49 (class 48 50) 10 s ++ two_chars 48 (class 49 57) 0 s ++ one_char (class 49 57) s.

Definition day_at (s : pystr) : list (Z * pystr) :=
  two_chars 51 (class 48 49) 30 s ++
  two_chars 49 decimal 10 s ++ two_chars 50 decimal 20 s ++
  two_chars 48 (class 49 57) 0 s ++ one_char (class 49 57) s ++ two_chars 32 (class 49 57) 0 s.

Definition leap (y : Z) : bool := (y mod 4 =? 0) && (negb (y mod 100 =? 0) || (y mod 400 =? 0)).
Definition days_in_month (y m : Z) : Z :=
  if m =? 2 then if leap y then 29 else 28
  else if existsb (Z.eqb m) [4; 6; 9; 11] then 30 else 31.

Definition strptime_day (s : pystr) : option Z :=
  '(y, rest) ← year_at s;
  '(m, d, rest) ← head ('(m, rest) ← month_at rest; '(d, rest) ← day_at rest; [(m, d, rest)]);
  match rest with
  | [] => if (1 <=? y) && (d <=? days_in_month y m) then Some (days_of_civil y m d) else None
  | _ => None
  end.

(** The loop over the partitions of one table: what is expired is dropped, unless this
    is a dry run, and named. *)
Fixpoint drop_names (table : pystr) (cutoff : Z) (dry_run : bool) (names dropped : list pystr) (c : Catalogue)
  : list pystr * Catalogue :=
  match names with
  | [] => (dropped, c)
  | name :: names =>
      match strptime_day (removeprefix (table ++ py "_") name) with
      | None => drop_names table cutoff dry_run names dropped c
      | Some d =>
          if cutoff <=? d then drop_names table cutoff dry_run names dropped c
          else
            let spec := {| ps_table := table; ps_day := d |} in
            let c' := if dry_run then c else snd (run_ddl [drop_partition_sql spec] c) in
            drop_names table cutoff dry_run names (dropped ++ [partition_name spec]) c'
      end
  end.

Fixpoint drop_tables (tables : list pystr) (cutoff : Z) (dry_run : bool) (dropped : list pystr) (c : Catalogue)
  : list pystr * Catalogue :=
  match tables with
  | [] => (dropped, c)
  | table :: tables =>
      let '(dropped', c') := drop_names table cutoff dry_run (existing_partitions c table) dropped c in
      drop_tables tables cutoff dry_run dropped' c'
  end.

Definition drop_expired_partitions (retention_days today : Z) (dry_run : bool) (c : Catalogue)
  : result StorageError (list pystr) * Catalogue :=
  if retention_days <? MINIMUM_RETENTION_DAYS then (Err BelowFloor, c)
  else
    let cutoff := today - retention_days in
    let '(dropped, c') := drop_tables (fst <$> PARTITION_INDEXES) cutoff dry_run [] c in
    (Ok dropped, c').

(** ** The migration that rebuilt the partitions with UTC bounds *)

Definition REBUILD_DAYS_BACK : Z := 2.
Definition REBUILD_DAYS_FORWARD : Z := 8.
Definition PARTITIONED_TABLES : list pystr := [py "clicks"; py "events"].

(** A migration runs in one transaction: a failure leaves the catalogue as it was. *)
Definition rebuild (today : Z) (c : Catalogue) : result StorageError Catalogue :=
  let existing := List.filter (λ p, bool_decide (pt_parent p ∈ PARTITIONED_TABLES)) c in
  if existsb (λ p, match pt_rows p with [] => false | _ => true end) existing then Err Populated
  else
    let emptied := snd (run_ddl ((λ p, DropTable (pt_name p)) <$> existing) c) in
    match create_all
            (PARTITIONED_TABLES ≫= λ table,
               partitions_for_range table (today - REBUILD_DAYS_BACK) (REBUILD_DAYS_BACK + REBUILD_DAYS_FORWARD))
            [] emptied with
    | (Ok _, c') => Ok c'
    | (Err e, _) => Err e
    end.

End Strptime.

(** ** Lemmas: names *)

Section Lemmas.
Context {U : Unicode}.

Definition spec_ok (s : PartitionSpec) : Prop :=
  ps_table s ∈ PARTITIONED_TABLES ∧ FIRST_DAY <= ps_day s < LAST_DAY.

Definition readable (d : Z) : bool := bool_decide (strptime_day (compact_date d) = Some d).

(** The date in a partition's name reads back, every day from 2020 to 2099. *)
Lemma strptime_compact d : FIRST_DAY <= d < LAST_DAY → strptime_day (compact_date d) = Some d.
Proof.
  intros Hd. assert (readable d = true) as Hok.
  { apply (all_from_ok readable (Z.to_nat (LAST_DAY - FIRST_DAY)) FIRST_DAY);
      [vm_compute; reflexivity | unfold LAST_DAY, FIRST_DAY in *; lia]. }
  by apply bool_decide_eq_true in Hok.
Qed.

Lemma strptime_name s :
  spec_ok s → strptime_day (removeprefix (ps_table s ++ py "_") (partition_name s)) = Some (ps_day s).
Proof.
  intros [_ Hd]. unfold partition_name. rewrite app_assoc, removeprefix_app. by apply strptime_compact.
Qed.

Lemma tables_cases t : t ∈ PARTITIONED_TABLES → t = py "clicks" ∨ t = py "events".
Proof. unfold PARTITIONED_TABLES. rewrite !elem_of_cons, elem_of_nil. tauto. Qed.

Lemma partition_name_inj s s' : spec_ok s → spec_ok s' → partition_name s = partition_name s' → s = s'.
Proof.
  intros [Ht Hd] [Ht' Hd']. destruct s as [t d], s' as [t' d']. unfold partition_name. cbn [ps_table ps_day] in *.
  intros E. assert (t = t') as <-.
  { apply tables_cases in Ht as [->| ->], Ht' as [->| ->]; done. }
  apply app_inv_head, app_inv_head in E. apply (f_equal strptime_day) in E.
  rewrite !strptime_compact in E by done. congruence.
Qed.

Lemma index_not_partition s n t : spec_ok s → index_name n t ≠ partition_name s.
Proof. intros [Ht _]. unfold partition_name. by apply tables_cases in Ht as [->| ->]. Qed.

(** ** The invariant of the catalogue *)

Record partition_of (s : PartitionSpec) (p : Partition) : Prop := {
  po_name : pt_name p = partition_name s;
  po_parent : pt_parent p = ps_table s;
  po_from : pt_from p = ps_day s * day;
  po_to : pt_to p = (ps_day s + 1) * day;
  po_indexes : Forall (λ i, ∃ n t, i = index_name n t) (pt_indexes p);
  po_rows : Forall (λ r, rw_at r / day = ps_day s) (pt_rows p)
}.

Record catalogue_ok (c : Catalogue) : Prop := {
  co_specs : Forall (λ p, ∃ s, spec_ok s ∧ partition_of s p) c;
  co_names : NoDup (pt_name <$> c)
}.

Lemma within_day (d t : Z) : d * day <= t < (d + 1) * day ↔ t / day = d.
Proof.
  assert (0 < day) by done. pose proof (Z.div_mod t day). pose proof (Z.mod_pos_bound t day).
  split; intros; [| subst]; nia.
Qed.

Lemma co_spec c p : catalogue_ok c → p ∈ c → ∃ s, spec_ok s ∧ partition_of s p.
Proof. intros [H _] Hp. rewrite Forall_forall in H. by apply H. Qed.

Lemma co_unique c p q : catalogue_ok c → p ∈ c → q ∈ c → pt_name p = pt_name q → p = q.
Proof. intros [_ H]. by apply NoDup_fmap_elem. Qed.

Definition present (s : PartitionSpec) (c : Catalogue) : Prop := partition_name s ∈ pt_name <$> c.
#[local] Instance present_dec s c : Decision (present s c) := decide (_ ∈ _).

Lemma relation_exists_partition s c :
  spec_ok s → catalogue_ok c → relation_exists (partition_name s) c = true ↔ present s c.
Proof.
  intros Hs Hc. unfold relation_exists, present. rewrite existsb_exists, list_elem_of_fmap. split.
  - intros (p & Hp%list_elem_of_In & [Hb|Hb]%orb_true_iff); apply bool_decide_eq_true in Hb; [by exists p |].
    destruct (co_spec c p Hc Hp) as (s' & _ & Ho). apply po_indexes in Ho. rewrite Forall_forall in Ho.
    destruct (Ho _ Hb) as (n & t & E). by destruct (index_not_partition s n t).
  - intros (p & E & Hp). exists p. split; [by apply list_elem_of_In |].
    rewrite E. by rewrite bool_decide_true.
Qed.

(** Two partitions of one table overlap only if they are of the same day. *)
Lemma overlap_same_day s c p :
  spec_ok s → catalogue_ok c → p ∈ c → pt_parent p = ps_table s →
  overlaps (ps_start s * day) (ps_end s * day) p = true → present s c.
Proof.
  intros Hs Hc Hp Ht Ho. destruct (co_spec c p Hc Hp) as (s' & Hs' & [Hn Hpt Hf Hto _ _]).
  unfold overlaps, ps_start, ps_end in Ho. rewrite Hf, Hto in Ho. bprop.
  assert (0 < day) by done. assert (ps_day s = ps_day s') by nia.
  assert (s' = s) as -> by (destruct s, s'; cbn in *; congruence).
  unfold present. rewrite <- Hn. by apply list_elem_of_fmap_2.
Qed.

(** ** Lemmas: creation *)

(** A partition without its indexes. *)
Definition bare (p : Partition) : pystr * pystr * datetime * datetime * list Row :=
  (pt_name p, pt_parent p, pt_from p, pt_to p, pt_rows p).

Lemma bare_names (c c' : Catalogue) : bare <$> c' = bare <$> c → pt_name <$> c' = pt_name <$> c.
Proof.
  intros E. assert (∀ l : Catalogue, pt_name <$> l = (λ b, b.1.1.1.1) <$> (bare <$> l)) as Hf
    by (intros l; rewrite <- list_fmap_compose; done).
  by rewrite !Hf, E.
Qed.

Lemma bare_rows table (c c' : Catalogue) : bare <$> c' = bare <$> c → rows_of table c' = rows_of table c.
Proof.
  revert c'. induction c as [|p c IH]; intros [|p' c']; cbn; [done | done | done |].
  intros [= E1 E2 E3 E4 E5 E]. unfold rows_of in *. cbn. rewrite E2, E5. f_equal. by apply IH.
Qed.

Definition new_partition (s : PartitionSpec) : Partition :=
  {| pt_name := partition_name s; pt_parent := ps_table s; pt_from := ps_start s * day;
     pt_to := ps_end s * day; pt_indexes := []; pt_rows := [] |}.

Lemma new_partition_ok s c : spec_ok s → catalogue_ok c → ¬ present s c → catalogue_ok (c ++ [new_partition s]).
Proof.
  intros Hs [Hc Hn] Ha. split.
  - apply Forall_app. split; [done |]. repeat constructor. exists s. split; [done |]. split; [done.. | constructor |].
    constructor.
  - rewrite fmap_app. apply NoDup_app. split; [done |]. split; [| apply NoDup_singleton].
    intros x Hx ->%list_elem_of_singleton. by apply Ha.
Qed.

Lemma exec_create s c :
  spec_ok s → catalogue_ok c →
  exec (CreatePartition (partition_name s) (ps_table s) (ps_start s) (ps_end s)) c =
    Ok (if bool_decide (present s c) then c else c ++ [new_partition s]).
Proof.
  intros Hs Hc. cbn [exec]. pose proof (relation_exists_partition s c Hs Hc) as Hr.
  destruct (relation_exists _ c).
  - by rewrite bool_decide_true by (by apply Hr).
  - assert (¬ present s c) as Ha by (intros Hp%Hr; discriminate Hp).
    rewrite bool_decide_false by done.
    destruct (existsb _ c) eqn:E; [| done]. destruct Ha.
    apply existsb_exists in E as (p & Hp%list_elem_of_In & Hb). bprop.
    by apply (overlap_same_day s c p).
Qed.

Lemma add_index_bare (c : Catalogue) n i : bare <$> (add_index n i <$> c) = bare <$> c.
Proof.
  rewrite <- list_fmap_compose. apply list_fmap_ext. intros _ p _. unfold compose, add_index.
  by destruct (bool_decide _).
Qed.

Lemma add_index_ok c n t : catalogue_ok c → catalogue_ok (add_index n (index_name n t) <$> c).
Proof.
  intros [Hc Hn]. split.
  - apply Forall_fmap. eapply Forall_impl; [exact Hc |]. intros p (s & Hs & Ho). exists s. split; [done |].
    unfold compose, add_index. destruct (bool_decide _); [| done]. destruct Ho. split; cbn; try done.
    apply Forall_app. split; [done |]. repeat constructor. by exists n, t.
  - by rewrite (bare_names c) by apply add_index_bare.
Qed.

Lemma run_indexes s templates c :
  catalogue_ok c → present s c →
  ∃ c', run_ddl (CreateIndex (partition_name s) <$> templates) c = (None, c') ∧ catalogue_ok c' ∧
    bare <$> c' = bare <$> c.
Proof.
  revert c. induction templates as [|t ts IH]; intros c Hc Hp; [by exists c |]. cbn [fmap list_fmap run_ddl exec].
  assert (existsb (λ p, bool_decide (pt_name p = partition_name s)) c = true) as ->.
  { apply existsb_exists. apply list_elem_of_fmap in Hp as (p & E & Hp). exists p.
    split; [by apply list_elem_of_In |]. by apply bool_decide_true. }
  cbn [negb]. destruct (relation_exists _ c).
  - by apply IH.
  - destruct (IH (add_index (partition_name s) (index_name (partition_name s) t) <$> c)) as (c' & E & Hc' & Hb).
    + by apply add_index_ok.
    + unfold present. by rewrite (bare_names c) by apply add_index_bare.
    + exists c'. split; [done |]. split; [done |]. by rewrite Hb, add_index_bare.
Qed.

Lemma table_templates t : t ∈ PARTITIONED_TABLES → ∃ l, od_get t PARTITION_INDEXES = Some l.
Proof. intros [->| ->]%tables_cases; by eexists. Qed.

(** What creating a list of partitions leaves: every one of them, and the rest as it
    was. *)
Record created_from (c c' : Catalogue) (specs : list PartitionSpec) : Prop := {
  cf_ok : catalogue_ok c';
  cf_present : Forall (λ s, present s c') specs;
  cf_kept : ∀ n, n ∈ pt_name <$> c → n ∈ pt_name <$> c';
  cf_rows : ∀ table, rows_of table c' = rows_of table c
}.

Lemma create_one s c :
  spec_ok s → catalogue_ok c →
  ∃ statements c', create_partition_sql s = Ok statements ∧ run_ddl statements c = (None, c') ∧
    created_from c c' [s].
Proof.
  intros Hs Hc. destruct (table_templates _ (proj1 Hs)) as [ts Ets].
  unfold create_partition_sql. rewrite Ets.
  exists (CreatePartition (partition_name s) (ps_table s) (ps_start s) (ps_end s) ::
          (CreateIndex (partition_name s) <$> ts)). cbn [run_ddl]. rewrite exec_create by done.
  set (c1 := if bool_decide (present s c) then c else c ++ [new_partition s]).
  assert (created_from c c1 [s]) as [H1 H2 H3 H4].
  { unfold c1. destruct (bool_decide (present s c)) eqn:E; bprop.
    - split; [done | by repeat constructor | done | done].
    - split; [by apply new_partition_ok | | |].
      + repeat constructor. unfold present. rewrite fmap_app. apply elem_of_app. right.
        by apply list_elem_of_singleton.
      + intros n Hn. rewrite fmap_app. apply elem_of_app. by left.
      + intros table. unfold rows_of. rewrite bind_app. cbn. destruct (bool_decide _); by rewrite app_nil_r. }
  destruct (run_indexes s ts c1 H1) as (c' & E & Hc' & Hb); [by inversion H2 |].
  exists c'. split; [done |]. split; [done |]. split; [done | | |].
  - unfold present in *. by rewrite (bare_names c1).
  - rewrite (bare_names c1 c') by done. exact H3.
  - intros table. by rewrite (bare_rows table c1).
Qed.

Lemma create_all_spec specs created c :
  Forall spec_ok specs → catalogue_ok c →
  ∃ c', create_all specs created c = (Ok (created ++ (partition_name <$> specs)), c') ∧
    created_from c c' specs.
Proof.
  revert created c. induction specs as [|s specs IH]; intros created c Hs Hc.
  { exists c. rewrite app_nil_r. split; [done |]. by split. }
  apply Forall_cons in Hs as [Hs Hss]. destruct (create_one s c Hs Hc) as (st & c1 & E1 & E2 & [H1 H2 H3 H4]).
  cbn [create_all]. rewrite E1, E2.
  destruct (IH (created ++ [partition_name s]) c1 Hss H1) as (c' & E & [H1' H2' H3' H4']).
  exists c'. rewrite E, <- app_assoc. split; [done |]. split; [done | | | ].
  - constructor; [| done]. inversion H2; subst. by apply H3'.
  - intros n Hn. by apply H3', H3.
  - intros table. by rewrite H4', H4.
Qed.

Lemma ensured_specs today lead :
  FIRST_DAY <= today → today + lead < LAST_DAY →
  Forall spec_ok ((fst <$> PARTITION_INDEXES) ≫= λ table, partitions_for_range table today (lead + 1)).
Proof.
  intros H1 H2. apply Forall_forall. intros s (t & Hs & Ht)%list_elem_of_bind.
  apply list_elem_of_fmap in Hs as (i & -> & Hi%elem_of_seq). split; [exact Ht | cbn; lia].
Qed.

(** ** Lemmas: retention *)

Definition old_name (table : pystr) (cutoff : Z) (n : pystr) : bool :=
  match strptime_day (removeprefix (table ++ py "_") n) with Some d => d <? cutoff | None => false end.

Lemma drop_names_spec table cutoff dry names dropped c :
  Forall (λ n, ∃ d, spec_ok {| ps_table := table; ps_day := d |} ∧
                    n = partition_name {| ps_table := table; ps_day := d |}) names →
  drop_names table cutoff dry names dropped c =
    (dropped ++ List.filter (old_name table cutoff) names,
     if dry then c
     else List.filter (λ p, negb (bool_decide (pt_name p ∈ List.filter (old_name table cutoff) names))) c).
Proof.
  intros Hn. revert dropped c. induction Hn as [|n names (d & Hs & ->) _ IH]; intros dropped c.
  { cbn. rewrite app_nil_r. f_equal. destruct dry; [done |]. symmetry. apply forallb_filter_id.
    apply forallb_forall. intros p _. rewrite bool_decide_false; [done |]. apply not_elem_of_nil. }
  cbn [drop_names List.filter]. pose proof (strptime_name _ Hs) as Hd. cbn [ps_table ps_day] in Hd.
  assert (old_name table cutoff (partition_name {| ps_table := table; ps_day := d |}) = negb (cutoff <=? d)) as ->
    by (unfold old_name; by rewrite Hd, Z.ltb_antisym).
  rewrite Hd. destruct (cutoff <=? d); cbn [negb]; [apply IH |]. rewrite IH, <- app_assoc. f_equal.
  destruct dry; [done |]. cbn [snd run_ddl drop_partition_sql exec]. rewrite lfilter_lfilter.
  apply List.filter_ext. intros p.
  set (n := partition_name _). set (l := List.filter _ _).
  destruct (decide (pt_name p = n)) as [E|E].
  - rewrite (bool_decide_true (pt_name p = n)), (bool_decide_true (pt_name p ∈ n :: l)); [done | | done].
    rewrite E. apply elem_of_cons. by left.
  - rewrite (bool_decide_false (pt_name p = n)) by done. cbn [negb andb]. f_equal.
    apply bool_decide_ext. rewrite elem_of_cons. tauto.
Qed.

Lemma existing_elem c table n :
  n ∈ existing_partitions c table ↔ ∃ p, p ∈ c ∧ pt_parent p = table ∧ n = pt_name p.
Proof.
  unfold existing_partitions. rewrite merge_sort_Permutation, list_elem_of_fmap. split.
  - intros (p & -> & [Hp Hb]%elem_of_lfilter). bprop. by exists p.
  - intros (p & Hp & <- & ->). exists p. split; [done |]. apply elem_of_lfilter.
    split; [done |]. by apply bool_decide_true.
Qed.

Lemma existing_named c table :
  catalogue_ok c →
  Forall (λ n, ∃ d, spec_ok {| ps_table := table; ps_day := d |} ∧
                    n = partition_name {| ps_table := table; ps_day := d |}) (existing_partitions c table).
Proof.
  intros Hc. apply Forall_forall. intros n (p & Hp & Ht & ->)%existing_elem.
  destruct (co_spec c p Hc Hp) as ([t d] & Hs & Ho). exists d.
  pose proof (po_parent _ _ Ho) as Hpt. cbn in Hpt. rewrite Ht in Hpt. subst t. split; [done | apply Ho].
Qed.

Definition expired (table : pystr) (cutoff : Z) (p : Partition) : bool :=
  bool_decide (pt_parent p = table) && (pt_to p <=? cutoff * day).

Lemma drop_table_spec table cutoff dry dropped c :
  catalogue_ok c →
  drop_names table cutoff dry (existing_partitions c table) dropped c =
    (dropped ++ List.filter (old_name table cutoff) (existing_partitions c table),
     if dry then c else List.filter (λ p, negb (expired table cutoff p)) c).
Proof.
  intros Hc. rewrite drop_names_spec by by apply existing_named. f_equal. destruct dry; [done |].
  apply List.filter_ext_in. intros p Hp%list_elem_of_In. f_equal.
  destruct (co_spec c p Hc Hp) as (s & Hs & Ho). pose proof (strptime_name s Hs) as Hday.
  destruct Ho as [Hn Ht _ Hto _ _]. unfold expired. rewrite Hto.
  assert (old_name (ps_table s) cutoff (pt_name p) = ((ps_day s + 1) * day <=? cutoff * day)) as Hold.
  { unfold old_name. rewrite Hn, Hday. assert (0 < day) by done. apply eq_iff_eq_true.
    rewrite Z.ltb_lt, Z.leb_le. nia. }
  apply eq_iff_eq_true. rewrite bool_decide_eq_true, elem_of_lfilter, existing_elem, andb_true_iff, bool_decide_eq_true.
  split.
  - intros [(q & Hq & Hqt & E) Hb]. rewrite (co_unique c p q Hc Hp Hq E) in *. split; [done |].
    rewrite <- Hold. by rewrite <- Ht, Hqt.
  - intros [Htab Hb]. split; [by exists p |]. by rewrite <- Htab, Ht, Hold.
Qed.

Lemma filter_ok f c : catalogue_ok c → catalogue_ok (List.filter f c).
Proof.
  intros [Hc Hn]. split; [| by apply NoDup_fmap_filter].
  rewrite Forall_forall in *. intros p [Hp _]%elem_of_lfilter. by apply Hc.
Qed.

Lemma existing_other c table table' cutoff :
  table ≠ table' →
  existing_partitions (List.filter (λ p, negb (expired table cutoff p)) c) table' = existing_partitions c table'.
Proof.
  intros Hne. unfold existing_partitions. rewrite lfilter_lfilter. do 2 f_equal. apply List.filter_ext. intros p.
  unfold expired. destruct (decide (pt_parent p = table')) as [E|E].
  - rewrite (bool_decide_true (pt_parent p = table')) by done. rewrite bool_decide_false by congruence. done.
  - rewrite (bool_decide_false (pt_parent p = table')) by done. by rewrite andb_false_r.
Qed.

Definition kept (cutoff : Z) (p : Partition) : bool := cutoff * day <? pt_to p.

Definition expired_names (cutoff : Z) (c : Catalogue) : list pystr :=
  PARTITIONED_TABLES ≫= λ table, List.filter (old_name table cutoff) (existing_partitions c table).

Lemma drop_expired_spec retention today dry c :
  catalogue_ok c → MINIMUM_RETENTION_DAYS <= retention →
  drop_expired_partitions retention today dry c =
    (Ok (expired_names (today - retention) c), if dry then c else List.filter (kept (today - retention)) c).
Proof.
  intros Hc Hr. unfold drop_expired_partitions. rewrite (proj2 (Z.ltb_ge _ _) Hr).
  set (cutoff := today - retention). change (fst <$> PARTITION_INDEXES) with PARTITIONED_TABLES.
  unfold PARTITIONED_TABLES at 1. cbn [drop_tables]. rewrite drop_table_spec by done.
  set (c1 := if dry then c else _).
  assert (catalogue_ok c1) as Hc1 by (unfold c1; destruct dry; [done | by apply filter_ok]).
  assert (existing_partitions c1 (py "events") = existing_partitions c (py "events")) as E1
    by (unfold c1; destruct dry; [done | by apply existing_other]).
  rewrite drop_table_spec by done. rewrite E1. f_equal; [by cbn; rewrite app_nil_r |].
  unfold c1. destruct dry; [done |]. rewrite lfilter_lfilter. apply List.filter_ext_in.
  intros p Hp%list_elem_of_In. destruct (co_spec c p Hc Hp) as (s & [Ht _] & Ho).
  unfold expired, kept. rewrite (po_parent _ _ Ho), Z.ltb_antisym.
  destruct (pt_to p <=? cutoff * day); rewrite ?andb_false_r, ?andb_true_r; [| done].
  by apply tables_cases in Ht as [->| ->].
Qed.

Lemma day_le (cutoff t : Z) : (cutoff * day <=? t) = (cutoff <=? t / day).
Proof.
  assert (0 < day) by done. pose proof (Z.div_mod t day). pose proof (Z.mod_pos_bound t day).
  apply eq_iff_eq_true. rewrite !Z.leb_le. nia.
Qed.

(** Dropping whole partitions removes exactly the rows older than the cutoff. *)
Lemma kept_rows table cutoff c :
  catalogue_ok c →
  rows_of table (List.filter (kept cutoff) c) = List.filter (λ r, cutoff * day <=? rw_at r) (rows_of table c).
Proof.
  intros [Hc _]. induction Hc as [|p c (s & _ & Ho) _ IH]; [done |].
  assert (∀ q l, rows_of table (q :: l) =
            (if bool_decide (pt_parent q = table) then pt_rows q else []) ++ rows_of table l) as Hcons by done.
  rewrite (Hcons p), List.filter_app, <- IH. cbn [List.filter].
  assert (∀ r, r ∈ pt_rows p → (cutoff * day <=? rw_at r) = kept cutoff p) as Hr.
  { intros r Hr. destruct Ho as [_ _ _ Hto _ Hrows]. rewrite Forall_forall in Hrows.
    unfold kept. rewrite day_le, Hto, (Hrows r Hr). assert (0 < day) by done.
    apply eq_iff_eq_true. rewrite Z.leb_le, Z.ltb_lt. nia. }
  assert (List.filter (λ r, cutoff * day <=? rw_at r) (pt_rows p) = if kept cutoff p then pt_rows p else []) as E.
  { destruct (kept cutoff p).
    - apply forallb_filter_id, forallb_forall. intros r Hin%list_elem_of_In. by apply Hr.
    - rewrite (List.filter_ext_in _ (λ _, false)); [clear; by induction (pt_rows p) |].
      intros r Hin%list_elem_of_In. by apply Hr. }
  destruct (kept cutoff p); [rewrite Hcons |]; destruct (bool_decide (pt_parent p = table)); cbn [List.filter app];
    by rewrite ?E.
Qed.

Lemma holds_spec s p table t :
  partition_of s p → holds table t p = true ↔ s = {| ps_table := table; ps_day := t / day |}.
Proof.
  intros [_ Ht Hf Hto _ _]. unfold holds. rewrite Ht, Hf, Hto, !andb_true_iff, bool_decide_eq_true, Z.leb_le, Z.ltb_lt.
  pose proof (within_day (ps_day s) t). destruct s as [t' d]. cbn in *. split.
  - intros [[-> ?] ?]. f_equal. symmetry. tauto.
  - intros [= -> ->]. tauto.
Qed.

Lemma insert_row_spec table r c c' :
  catalogue_ok c → insert_row table r c = Ok c' →
  catalogue_ok c' ∧ pt_name <$> c' = pt_name <$> c ∧
  ∃ p, p ∈ c' ∧ pt_name p = partition_name {| ps_table := table; ps_day := rw_at r / day |} ∧ r ∈ pt_rows p.
Proof.
  intros Hc. assert (Forall (λ p, ∃ s, spec_ok s ∧ partition_of s p) c) as Hs by apply Hc.
  assert (∀ c', pt_name <$> c' = pt_name <$> c → Forall (λ p, ∃ s, spec_ok s ∧ partition_of s p) c' →
                catalogue_ok c') as Hok.
  { intros d E Hd. split; [done |]. rewrite E. apply Hc. }
  intros Hi. enough (pt_name <$> c' = pt_name <$> c ∧ Forall (λ p, ∃ s, spec_ok s ∧ partition_of s p) c' ∧
    ∃ p, p ∈ c' ∧ pt_name p = partition_name {| ps_table := table; ps_day := rw_at r / day |} ∧ r ∈ pt_rows p)
    as (En & Hf & Hp) by (split; [by apply Hok | done]). clear Hc Hok. revert c' Hi.
  induction Hs as [|p c (s & Hs & Ho) Hc IH]; intros c' Hi; cbn in Hi; [done |].
  destruct (holds table (rw_at r) p) eqn:E.
  - apply Ok_inj in Hi as <-. split; [done |]. apply (holds_spec s) in E; [| done]. subst s. split.
    + constructor; [| done]. eexists. split; [exact Hs |]. destruct Ho. split; try done. cbn.
      apply Forall_app. split; [done |]. by repeat constructor.
    + exists (add_row r p). split; [by left |]. split; [apply Ho |].
      cbn. apply elem_of_app. right. by apply list_elem_of_singleton.
  - apply rbind_Ok in Hi as (c1 & Hi & <-%Ok_inj). destruct (IH c1 Hi) as (En & Hc1 & q & Hq & Hqn & Hqr).
    split; [cbn; by rewrite En |]. split; [constructor; [by exists s | done] |].
    exists q. split; [by right | done].
Qed.

Lemma insert_row_finds table r c :
  catalogue_ok c → spec_ok {| ps_table := table; ps_day := rw_at r / day |} →
  present {| ps_table := table; ps_day := rw_at r / day |} c → ∃ c', insert_row table r c = Ok c'.
Proof.
  intros [Hc _] Hspec Hp. unfold present in Hp. induction Hc as [|p c (s & Hs & Ho) Hc IH]; [by apply elem_of_nil in Hp |].
  cbn. destruct (holds table (rw_at r) p) eqn:E; [by eexists |].
  destruct IH as [c' ->]; [| by eexists].
  apply elem_of_cons in Hp as [Hn|Hp]; [| done]. exfalso. rewrite (po_name _ _ Ho) in Hn.
  apply partition_name_inj in Hn; [| done | done]. rewrite (proj2 (holds_spec s p table (rw_at r) Ho)) in E; done.
Qed.

Lemma rows_elem r table c : r ∈ rows_of table c ↔ ∃ p, p ∈ c ∧ pt_parent p = table ∧ r ∈ pt_rows p.
Proof.
  unfold rows_of. rewrite list_elem_of_bind. split.
  - intros (p & Hr & Hp). exists p. destruct (bool_decide _) eqn:E; bprop; [done |]. by apply elem_of_nil in Hr.
  - intros (p & Hp & E & Hr). exists p. by rewrite bool_decide_true.
Qed.

Lemma insert_row_keeps table r c c' t x :
  insert_row table r c = Ok c' → x ∈ rows_of t c → x ∈ rows_of t c'.
Proof.
  revert c'. induction c as [|p c IH]; intros c' Hi; [done |]. cbn in Hi. unfold rows_of in *. cbn.
  rewrite elem_of_app. destruct (holds table (rw_at r) p).
  - apply Ok_inj in Hi as <-. cbn. rewrite elem_of_app. intros [Hx|Hx]; [| by right]. left.
    destruct (bool_decide _); [| done]. apply elem_of_app. by left.
  - apply rbind_Ok in Hi as (c1 & Hi & <-%Ok_inj). cbn. rewrite elem_of_app.
    intros [Hx|Hx]; [by left | right; by apply IH].
Qed.

(** ** Histories *)

Inductive storage_op :=
| Ensure (today lead_days : Z)
| Retain (today retention_days : Z) (dry_run : bool)
| Write (table : pystr) (row : Row).

Definition storage_step (c : Catalogue) (op : storage_op) : Catalogue :=
  match op with
  | Ensure today lead => snd (ensure_partitions today lead c)
  | Retain today retention dry => snd (drop_expired_partitions retention today dry c)
  | Write table r => match insert_row table r c with Ok c' => c' | Err _ => c end
  end.

Definition storage_run (ops : list storage_op) (c : Catalogue) : Catalogue := fold_left storage_step ops c.

(** Maintenance runs between 2020 and 2099. *)
Definition in_era (op : storage_op) : Prop :=
  match op with Ensure today lead => FIRST_DAY <= today ∧ today + lead < LAST_DAY | _ => True end.

(** A retention run that reaches no day at or after [d]: it is refused, or its cutoff is no
    later. *)
Definition spares (d : Z) (op : storage_op) : Prop :=
  match op with Retain today retention _ => retention < MINIMUM_RETENTION_DAYS ∨ today - retention <= d | _ => True end.

Lemma step_ok c op : in_era op → catalogue_ok c → catalogue_ok (storage_step c op).
Proof.
  intros He Hc. destruct op as [today lead|today ret dry|table r]; cbn [storage_step].
  - destruct (create_all_spec _ [] c (ensured_specs today lead (proj1 He) (proj2 He)) Hc) as (c' & E & Hf).
    unfold ensure_partitions. rewrite E. apply Hf.
  - destruct (Z.le_gt_cases MINIMUM_RETENTION_DAYS ret).
    + rewrite drop_expired_spec by done. cbn. destruct dry; [done | by apply filter_ok].
    + unfold drop_expired_partitions. by rewrite (proj2 (Z.ltb_lt _ _)).
  - destruct (insert_row table r c) eqn:E; [| done]. by apply (insert_row_spec table r c).
Qed.

Lemma run_ok ops c : Forall in_era ops → catalogue_ok c → catalogue_ok (storage_run ops c).
Proof.
  intros He. revert c. induction He as [|op ops Hop _ IH]; intros c Hc; [done |]. by apply IH, step_ok.
Qed.

(** What a step that spares a day keeps: its partitions and its rows. *)
Lemma step_keeps c op d :
  in_era op → spares d op → catalogue_ok c →
  (∀ s, spec_ok s → d <= ps_day s → present s c → present s (storage_step c op)) ∧
  (∀ t r, d <= rw_at r / day → r ∈ rows_of t c → r ∈ rows_of t (storage_step c op)).
Proof.
  intros He Hsp Hc. destruct op as [today lead|today ret dry|table r]; cbn [storage_step].
  - destruct (create_all_spec _ [] c (ensured_specs today lead (proj1 He) (proj2 He)) Hc) as (c' & E & [_ _ Hk Hr]).
    unfold ensure_partitions. rewrite E. cbn [snd]. split; [intros s _ _; apply Hk |]. intros t r _. by rewrite Hr.
  - destruct (Z.le_gt_cases MINIMUM_RETENTION_DAYS ret) as [Hle|Hgt].
    2: { unfold drop_expired_partitions. by rewrite (proj2 (Z.ltb_lt _ _)). }
    destruct Hsp as [Hsp|Hsp]; [lia |]. rewrite drop_expired_spec by done. cbn [snd]. destruct dry; [done |]. split.
    + intros s Hs Hd. unfold present. rewrite !list_elem_of_fmap. intros (p & E & Hp). exists p. split; [done |].
      apply elem_of_lfilter. split; [done |]. destruct (co_spec c p Hc Hp) as (s' & Hs' & Ho).
      rewrite (po_name _ _ Ho) in E. apply partition_name_inj in E; [| done | done]. subst s'.
      unfold kept. rewrite (po_to _ _ Ho). assert (0 < day) by done. apply Z.ltb_lt. nia.
    + intros t r Hd Hr. rewrite kept_rows by done. apply elem_of_lfilter. split; [done |].
      rewrite day_le. apply Z.leb_le. lia.
  - destruct (insert_row table r c) as [c'|e] eqn:E; [| done]. split.
    + intros s _ _. unfold present. by destruct (insert_row_spec _ _ _ _ Hc E) as (_ & -> & _).
    + intros t x _. by apply (insert_row_keeps table r c).
Qed.

Lemma run_keeps ops c d :
  Forall in_era ops → Forall (spares d) ops → catalogue_ok c →
  (∀ s, spec_ok s → d <= ps_day s → present s c → present s (storage_run ops c)) ∧
  (∀ t r, d <= rw_at r / day → r ∈ rows_of t c → r ∈ rows_of t (storage_run ops c)).
Proof.
  intros He. revert c. induction He as [|op ops Hop _ IH]; intros c Hsp Hc; [done |].
  apply Forall_cons in Hsp as [Hs Hss]. destruct (step_keeps c op d Hop Hs Hc) as [K1 K2].
  destruct (IH (storage_step c op) Hss (step_ok c op Hop Hc)) as [R1 R2]. split.
  - intros s H1 H2 H3. by apply R1, K1.
  - intros t r H1 H2. by apply R2, K2.
Qed.

(** (C23) A week of warning is real: once the job has run for [today] with a lead, a row of
    any day up to the lead is stored in the partition named for its day, whatever
    writes, runs of the job and retention runs happened since, as long as no retention
    run reached that day; and it stays stored until one does.  A retention run never
    reaches the last thirty days, whatever it is asked. *)
Theorem written_rows_are_kept c today lead before table r after :
  catalogue_ok c → FIRST_DAY <= today → today + lead < LAST_DAY →
  table ∈ PARTITIONED_TABLES → today <= rw_at r / day <= today + lead →
  Forall in_era (before ++ after) → Forall (spares (rw_at r / day)) (before ++ after) →
  ∃ c', insert_row table r (storage_run before (snd (ensure_partitions today lead c))) = Ok c' ∧
    (∃ p, p ∈ c' ∧ pt_name p = partition_name {| ps_table := table; ps_day := rw_at r / day |} ∧ r ∈ pt_rows p) ∧
    r ∈ rows_of table (storage_run after c').
Proof.
  intros Hc H1 H2 Ht Hd [He He']%Forall_app [Hs Hs']%Forall_app.
  set (s := {| ps_table := table; ps_day := rw_at r / day |}).
  assert (spec_ok s) as Hspec by (split; [done | cbn; lia]).
  destruct (create_all_spec _ [] c (ensured_specs today lead H1 H2) Hc) as (c0 & E & [Hc0 Hp _ _]).
  unfold ensure_partitions. rewrite E. cbn [snd].
  assert (present s c0) as Hp0.
  { rewrite Forall_forall in Hp. apply Hp, list_elem_of_bind. exists table. split; [| exact Ht].
    apply list_elem_of_fmap. exists (Z.to_nat (rw_at r / day - today)). split; [unfold s; f_equal; lia |].
    apply elem_of_seq. lia. }
  destruct (run_keeps before c0 (rw_at r / day) He Hs Hc0) as [K1 _].
  assert (catalogue_ok (storage_run before c0)) as Hc1 by by apply run_ok.
  destruct (insert_row_finds table r (storage_run before c0) Hc1 Hspec) as [c' Hi].
  { apply K1; [done | cbn; lia | done]. }
  exists c'. split; [done |]. destruct (insert_row_spec _ _ _ _ Hc1 Hi) as (Hc' & _ & p & Hp' & Hpn & Hpr).
  split; [by exists p |]. apply (run_keeps after c' (rw_at r / day)); [done | done | done | lia |].
  apply rows_elem. exists p. split; [done |]. split; [| done].
  destruct (co_spec c' p Hc' Hp') as (s' & Hs1 & Ho). rewrite (po_name _ _ Ho) in Hpn.
  apply partition_name_inj in Hpn as ->; [apply Ho | done | done].
Qed.

(** Retention is exact: a run keeps the rows at or after the cutoff and no other, in
    every table; a dry run changes nothing and names the very partitions a real run
    drops; a retention under the floor is refused and changes nothing. *)
Theorem retention_is_exact c today retention :
  catalogue_ok c →
  (MINIMUM_RETENTION_DAYS <= retention →
   (∀ table, rows_of table (snd (drop_expired_partitions retention today false c)) =
             List.filter (λ r, (today - retention) * day <=? rw_at r) (rows_of table c)) ∧
   snd (drop_expired_partitions retention today true c) = c ∧
   fst (drop_expired_partitions retention today true c) = fst (drop_expired_partitions retention today false c)) ∧
  (retention < MINIMUM_RETENTION_DAYS → ∀ dry,
   drop_expired_partitions retention today dry c = (Err BelowFloor, c)).
Proof.
  intros Hc. split.
  - intros Hr. rewrite !drop_expired_spec by done. cbn [fst snd].
    split; [intros table; by apply kept_rows | done].
  - intros Hr dry. unfold drop_expired_partitions. by rewrite (proj2 (Z.ltb_lt _ _) Hr).
Qed.

(** Over any history, two partitions of one table never share an instant, and every
    row is in the partition of its own day. *)
Lemma history_ok ops : Forall in_era ops → catalogue_ok (storage_run ops []).
Proof. intros H. apply run_ok; [done |]. split; constructor. Qed.

Lemma emptied_of l c :
  snd (run_ddl ((λ p, DropTable (pt_name p)) <$> l) c) =
  List.filter (λ p, negb (bool_decide (pt_name p ∈ (pt_name <$> l)))) c.
Proof.
  revert c. induction l as [|q l IH]; intros c; cbn [fmap list_fmap run_ddl exec].
  - cbn. symmetry. apply forallb_filter_id, forallb_forall. intros p _.
    rewrite bool_decide_false; [done | apply not_elem_of_nil].
  - rewrite IH, lfilter_lfilter. apply List.filter_ext. intros p. rewrite <- negb_orb. f_equal.
    apply eq_iff_eq_true. rewrite orb_true_iff, !bool_decide_eq_true, elem_of_cons. done.
Qed.

(** The migration moves no row: it refuses a catalogue that holds any, and otherwise
    leaves one in which ten days around [today] have their partition. *)
Theorem rebuild_moves_no_row today c c' :
  catalogue_ok c → FIRST_DAY + 2 <= today → today + 8 < LAST_DAY → rebuild today c = Ok c' →
  (∀ table, rows_of table c = [] ∧ rows_of table c' = []) ∧ catalogue_ok c' ∧
  ∀ table d, table ∈ PARTITIONED_TABLES → today - 2 <= d < today + 8 →
    present {| ps_table := table; ps_day := d |} c'.
Proof.
  intros Hc H1 H2. unfold rebuild. set (existing := List.filter _ c).
  destruct (existsb _ existing) eqn:He; [done |]. rewrite emptied_of. set (c0 := List.filter _ c).
  assert (catalogue_ok c0) as Hc0 by by apply filter_ok.
  set (specs := PARTITIONED_TABLES ≫= _). assert (Forall spec_ok specs) as Hs.
  { apply Forall_forall. intros s (t & Hs & Ht)%list_elem_of_bind.
    apply list_elem_of_fmap in Hs as (i & -> & Hi%elem_of_seq). split; [exact Ht |].
    unfold REBUILD_DAYS_BACK, REBUILD_DAYS_FORWARD in *. cbn. lia. }
  destruct (create_all_spec specs [] c0 Hs Hc0) as (c1 & E & [Hc1 Hp _ Hr]). rewrite E. intros <-%Ok_inj.
  assert (∀ table, rows_of table c = []) as Hno.
  { intros table. apply elem_of_nil_inv. intros r (p & Hp' & Ht & Hrow)%rows_elem.
    apply not_true_iff_false in He. apply He, existsb_exists. exists p. split.
    - apply list_elem_of_In, elem_of_lfilter. split; [done |]. apply bool_decide_true.
      destruct (co_spec c p Hc Hp') as (s & Hs' & Ho). rewrite (po_parent _ _ Ho). apply Hs'.
    - destruct (pt_rows p); [by apply elem_of_nil in Hrow | done]. }
  split; [| split; [done |]].
  - intros table. split; [done |]. rewrite Hr. apply elem_of_nil_inv. intros r (p & Hp' & Ht & Hrow)%rows_elem.
    apply elem_of_lfilter in Hp' as [Hp' _]. apply (not_elem_of_nil r). rewrite <- (Hno table).
    apply rows_elem. by exists p.
  - intros table d Ht Hd. rewrite Forall_forall in Hp. apply Hp, list_elem_of_bind. exists table.
    split; [| done]. apply list_elem_of_fmap. exists (Z.to_nat (d - (today - 2))).
    unfold REBUILD_DAYS_BACK, REBUILD_DAYS_FORWARD. split; [f_equal; lia |]. apply elem_of_seq. lia.
Qed.

End Lemmas.

(** ** Examples *)

Definition ex_today : Z := 20703.

Definition ex_row (d : Z) : Row := {| rw_at := d * day + 5 * hour; rw_id := 7 |}.

Definition ex_before : list storage_op :=
  [Write (py "events") (ex_row ex_today); Retain (ex_today + 3) 30 false; Retain (ex_today + 90) 3 false].
Definition ex_after : list storage_op := [Ensure (ex_today + 20) 7; Retain (ex_today + 35) 30 false].

Lemma written_rows_are_kept_witness :
  ∃ c', insert_row (py "events") (ex_row (ex_today + 7))
          (@storage_run ascii_unicode ex_before (snd (ensure_partitions ex_today 7 []))) = Ok c' ∧
    (∃ p, p ∈ c' ∧ pt_name p = py "events_20260914" ∧ ex_row (ex_today + 7) ∈ pt_rows p) ∧
    ex_row (ex_today + 7) ∈ rows_of (py "events") (@storage_run ascii_unicode ex_after c').
Proof.
  assert (Forall (λ op, in_era op ∧ spares ((ex_today + 7)) op) (ex_before ++ ex_after)) as [H1 H2]%Forall_and.
  { repeat apply Forall_cons_2; [.. | by apply Forall_nil_2]; repeat split; first [by vm_compute | left; by vm_compute | right; by vm_compute]. }
  apply (@written_rows_are_kept ascii_unicode [] ex_today 7 ex_before (py "events") (ex_row (ex_today + 7)) ex_after).
  - split; constructor.
  - by vm_compute.
  - by vm_compute.
  - right. left.
  - vm_compute. split; discriminate.
  - exact H1.
  - exact H2.
Defined.

(** Thirty-five days on, with the shortest retention, the first day is gone and the
    fifth is not. *)
Lemma retention_is_exact_witness :
  let c := @storage_run ascii_unicode
             [Ensure ex_today 7; Write (py "events") (ex_row ex_today); Write (py "events") (ex_row (ex_today + 5))] [] in
  rows_of (py "events") (snd (@drop_expired_partitions ascii_unicode 30 (ex_today + 35) false c)) = [ex_row (ex_today + 5)].
Proof.
  intros c. assert (catalogue_ok c) as Hc by (apply (@history_ok ascii_unicode); repeat apply Forall_cons_2; [.. | by apply Forall_nil_2]; repeat split; vm_compute; done).
  destruct (@retention_is_exact ascii_unicode c (ex_today + 35) 30 Hc) as [Hr _].
  rewrite (proj1 (Hr ltac:(by vm_compute)) (py "events")). vm_compute. reflexivity.
Defined.

Lemma rebuild_moves_no_row_witness :
  ∃ c', rebuild ex_today (snd (ensure_partitions ex_today 1 [])) = Ok c' ∧
    present {| ps_table := py "clicks"; ps_day := ex_today - 2 |} c'.
Proof.
  set (c := snd (ensure_partitions ex_today 1 [])).
  destruct (rebuild ex_today c) as [c'|e] eqn:E; [| vm_compute in E; discriminate E].
  exists c'. split; [done |].
  destruct (rebuild_moves_no_row ex_today c c') as (_ & _ & Hp); [| by vm_compute | by vm_compute | done |].
  - apply (@history_ok ascii_unicode [Ensure ex_today 1]). apply Forall_singleton. split; by vm_compute.
  - apply Hp; [left | vm_compute; split; done].
Defined.

(** The names the pattern reads need not be the names the code writes: a partition
    called [events_2026111] is taken for the first of November, reported as dropped
    under the other name, and kept. *)
Lemma unpadded_name_is_misread :
  let p := {| pt_name := py "events_2026111"; pt_parent := py "events"; pt_from := 20400 * day; pt_to := 20401 * day;
              pt_indexes := []; pt_rows := [ex_row 20400] |} in
  @drop_expired_partitions ascii_unicode 90 21000 false [p] = (Ok [py "events_20261101"], [p]).
Proof. vm_compute. reflexivity. Qed.
